(* ===== verification/_CoqProject ===== *)
-Q . S2P
Prelude.v
Enumerate.v
Utf8.v
Buf.v
Packet.v
V5Common.v
V5FixedHeader.v
V5ReasonCode.v
V5Properties.v
V5PropertiesSpec.v
V5Frame.v
V5Ack.v
V5Connack.v
V5Publish.v
V5Disconnect.v
V5Suback.v
V5Subscribe.v
V5Connect.v
V5Codec.v
ConnFraming.v
Inflight.v
MessageExpiry.v
TopicFilter.v
TopicStorage.v
TopicTree.v
TopicSpec.v
TopicRouting.v
SessionState.v
SessionRefs.v
RaftSession.v
RaftLog.v
RaftTopic.v
RaftSnapshot.v
SessionMap.v
V3Nom.v
V3FixedHeader.v
V3Common.v
V3Ack.v
V3Connack.v
V3Publish.v
V3Subscribe.v
V3Connect.v
V3Codec.v
V3Convert.v
V3Framing.v
MqttProperties.v
Program.v
Traces.v
GrpcStatus.v
Payload.v
PayloadSync.v
RaftNetwork.v
RaftActor.v
SessionMapRaft.v
RaftForwarding.v
Router.v
SessionStateRaft.v
StateForwarding.v
TopicRaft.v
TopicService.v
TopicLinearizable.v
RouterSystem.v
RouterSafety.v
RouterDurable.v
RouterRun.v
SessionActor.v
SessionFutures.v
SessionRuntime.v
SessionFlow.v
SessionLock.v
SessionDelivery.v
TimerActor.v
HookManager.v
PluginHost.v
PluginHooks.v
PluginFrame.v
AclPlugin.v
SessionManager.v
ConnectionWrite.v
ConnectionActor.v
