(* ===== verification/Prelude.v ===== *)
(** * YedMQ: a verification development

    YedMQ is a clustered MQTT broker in Rust.  Bytes of a connection are framed and
    parsed into packets ([src/broker/src/connection.rs], [src/mqtt/src/]); a
    session keeps the messages it has sent and received in an in-flight table
    ([inflight.rs]); published messages are routed through a tree of topic levels
    ([topic/topic_storage.rs]); session states live in a replicated state machine
    ([session/session_state_storage.rs], [raft/session_state/store.rs]) that counts
    which stored payloads are still needed and collects the others.

    The development translates these parts into executable definitions and proves
    what makes them correct.  Conventions:
    - a function that returns a [Result] or may panic is a function into [outcome]
      ([Ok], [Err], [Panic]); a loop that is not structural carries fuel and yields
      [OutOfFuel] when it runs out, and the theorems show that it does not;
    - a machine integer is a [Z] in its range, with the checked and the saturating
      operations written out; bytes are [list Z]; a Rust string is the string of its
      UTF-8 bytes;
    - a [HashMap] is a [gmap]; what is read off its iteration is stated up to order;
    - a value behind a lock is the value: an operation takes the state and returns
      the state it leaves, so that the model describes operations one at a time;
    - the clock is an argument; the libraries ([bytes], [nom], [base64], RocksDB,
      the consensus library) are parameters, with what the code relies on as the laws of
      a class, and every theorem that uses such laws has a witness on an instance.

    ** Files

    - [Prelude] (this file): outcomes, machine integers, byte lists, listings of
      maps, hint databases.  [Enumerate]: queries over trees of maps, up to order.
    - [Utf8]: strings.  [Buf]: the growing buffer of the [bytes] crate and a calculus
      of encoders ([wp], [writes]).
    - [Packet]: the packets of [mqtt/src/packet.rs].
    - [V5Common], [V5FixedHeader], [V5ReasonCode], [V5Properties]: the parts of the
      MQTT 5 codec, named as in the source; [V5PropertiesSpec]: properties as a list
      of items, which encoder and parser both follow; [V5Frame]: what a packet's
      parser and encoder promise to the dispatcher (classes [PacketParser] and
      [PacketEncoder]); [V5Ack], [V5Connack], [V5Publish], [V5Disconnect] (with AUTH and the
      pings), [V5Suback], [V5Subscribe], [V5Connect]: the packets; [V5Codec]: the dispatcher
      [v5/mod.rs] and the theorems on the codec, proved against the classes.
    - [ConnFraming]: [read_packet] and what it calls in [connection.rs], over a buffer
      that grows by chunks.
    - [Inflight], [MessageExpiry]: [inflight.rs], [mqtt_message_expiry.rs].
    - [TopicFilter], [TopicStorage]: [test_topic], shared filters and the topic tree;
      [TopicTree]: the tree read as a table of paths; [TopicSpec]: the abstract table
      and the simulation of every operation; [TopicRouting]: the theorems.
    - [SessionState], [SessionRefs]: the session storage and its reference counts.
    - [RaftSession]: commands, the state machine's [apply], the log store's [append],
      [truncate] and [purge], and the collection of payloads.
    - [V3Nom]: the combinators of the [nom] crate as a class with their documented
      equations, and an instance; [V3FixedHeader], [V3Common] (strings, lossy decoding,
      and [framed_by], the shape all packet parsers share), [V3Ack], [V3Connack] (with
      SUBACK), [V3Publish], [V3Subscribe], [V3Connect]: the packets of [mqtt/src/v3/];
      [V3Codec]: [mqtt/src/lib.rs]; [V3Convert]: the conversion of [packet.rs] between
      MQTT 3.1.1 and neutral packets; [V3Framing]: [try_parse_v3_packet] and the
      theorems.
    - [RaftLog]: the log store of [raft/topic/store.rs] on RocksDB, with RocksDB and
      [serde_json] as classes; [RaftTopic]: the topic group's state machine, its
      snapshots and a broker that applies, snapshots, purges and restarts;
      [RaftSnapshot]: the snapshots of the session group; [SessionMap]: the session
      registry ([session_actor_map_storage.rs], [raft/session_actor_map/]).
    - [Program]: asynchronous functions as programs over operations.  [Router]:
      [router_actor.rs], [stored_packet.rs] and the [route_packet] call of
      [rpc/cluster_service.rs]; [RouterSystem]: several nodes whose tasks interleave at
      every operation, with failures, lost replies and stops; [RouterSafety],
      [RouterDurable]: the invariant of that system; [RouterRun]: a program run alone,
      and whom a publication is handed to, whatever the calls answer.
    - [MqttProperties]: [mqtt_properties.rs].  [SessionActor], [SessionFutures]:
      [session_actor.rs], the synchronous code as turns on the actor's state, the
      asynchronous blocks as programs; [SessionRuntime]: what the actor runtime does with
      them (mailbox, futures waited for, spawned and detached, the lock); [SessionFlow]:
      the Receive Maximum; [SessionLock]: a deadlock; [SessionDelivery]: what must have
      happened when a message is routed, acknowledged or delivered.
    - [Traces]: the runs of a program for all answers its calls can have, which the
      theorems on programs speak of.  [TimerActor]: [timer_actor.rs], with the delay queue
      of tokio as a class.
    - [HookManager], [PluginHost], [PluginHooks], [PluginFrame]: [plugin_host/src/], the hook
      registrations, the table of plugin processes and what is received from them, the hook
      calls, and the frames on the sockets, with protobuf as a class; [AclPlugin]: the
      example plugin [acl_file], as the host sees it.
    - [SessionManager]: [session_manager_actor.rs], its handlers as programs, the node's table
      with the guards of its shards, and the one thread that runs them.
    - [ConnectionWrite], [ConnectionActor]: the rest of [connection.rs]: what is written to a
      client, through the batch, the channel and the sender's task; and the task that reads,
      from the first packet to the loop, over plugins and session manager.
    - [GrpcStatus]: [rpc/grpc_status.rs], errors between nodes.  [Payload], [PayloadSync]:
      [raft/payload/], payloads pushed and pulled between the stores of the nodes.
      [RaftNetwork]: the replication of the session states, which pushes payloads before
      entries and checks for them.  [RaftActor], [SessionMapRaft], [SessionStateRaft],
      [TopicRaft]: the actors of the three Raft groups, over what [openraft] answers, with
      the services of [rpc/raft_service.rs] and [rpc/cluster_service.rs] that other nodes
      ask; [RaftForwarding]: a cluster of registry actors that forward to each other;
      [StateForwarding]: what the session states add; [TopicService]: [topic_service.rs];
      [TopicLinearizable]: its requests against the committed history.

    ** Theorems

    - Codec: the encoder writes exactly the wire format of an encodable packet, what
      it writes parses back, what parses can be written again and no longer; the
      parser is total, incremental (a prefix asks for more, an accepted packet does
      not depend on what follows) and its verdicts are stable.
    - Framing: a stream of packets is read in order however it is cut.
    - In-flight table: invariant of the reachable tables, conservation of keys, least
      free identifier, life cycle of QoS 1 and 2 messages, resend deadlines.
    - Expiry of messages and sessions: deadlines, bounds, saturation.
    - Topic tree: refinement of a flat table by every operation, for routing,
      retained messages and the listing; agreement with the matching rule of the
      standard, and where it ends; snapshots restore the tree.
    - Session store: counts equal holders after every command, but for what sessions held
      that were replaced; a command frees exactly the keys that lost their last holder;
      on a node that is not restarted payloads still held are never deleted, and freed
      ones are.
    - MQTT 3.1.1: what is delivered is read back as the view that protocol has of
      the packet; the parser is incremental and total but for the two reserved
      packet types, on which it panics; a connection's packets are read in order.
    - Replication: the log store refines a log; applying the log refines the topic
      table; a broker that restarts from its snapshot and log routes as the whole
      committed log says, also when the snapshot ran ahead of the entry it names
      (every topic request keeps, defaults or overwrites each cell of the table, so
      that applying it again changes nothing in the end); the owner of a session is
      its last registration not removed under its own instance, on every replica,
      and displaced instances are told to stop.
    - Routing: a message is handed over once for every subscriber that can be reached, but
      for publishers that do not want their own, and once for each shared subscription, to
      one member, the members in turn; a message for another node is in an outbox or an
      inbox with its content until it is accepted or given up, whatever fails; when
      nothing fails and its tasks run one after another it arrives once.
    - Sessions: of the messages routed to it a client is never sent more unacknowledged ones
      than it asked for, however turns, futures and failures interleave; a message is
      routed only when it is permitted and recorded, answered with success only when it is
      routed or dropped, and reported as delivered only when it is kept; a SUBACK grants
      what was subscribed.
    - Connections: nothing of a client reaches a session before the plugins, or the configured
      default, accepted it and the session manager made its session; a session is answered
      for only while its own instance owns it, a failed one leaves no actor and no table
      entry of its own; a client reads what was written to it, whole and in order, while no
      write fails.  Timers refine a map of deadlines.
    - Plugins: registrations stay in order and of one process; authentication needs
      unanimity and authorization no refusal; only current processes are asked; frames are
      read in order; the broker with the ACL plugin decides as its first matching rule.
    - Cluster: a request asked for at any node is written at most once at every moment of the
      call, replies that are lost included, and once when it is answered as done; a registration and a retained message stored through one node are
      found through any other; a linearizable read of retained messages is one of the table
      at a moment between call and answer; an answer is the same whichever node is asked.
    - Payloads: a push and a pull that succeed have stored what the keys name, within the
      limits of a message; a node is sent no command and no entry whose payload it lacks,
      and calls itself ready only when it holds all its sessions name - all of it for the
      payloads that no other task deletes meanwhile ([PayloadSync.pinned]).
    - Some theorems record defects, on the smallest input that shows them: a truncated
      field stalls the reader, the parent level of [#] is not delivered, the pending
      queue is last-in first-out, a listing goes stale, a replaced session leaks, a
      retained message without a tenant stops the topic group, a late snapshot makes
      a session command count twice, two copies of an inbox record deliver twice, an
      acknowledgement blocks a session that is routing, one table of identifiers
      serves two directions, an expired session and a connection during a lease renewal
      block the session manager, three connections of a client lose its owner, a plugin
      that answers badly silences all, a keep alive of zero disconnects, a lookup of an
      absent session fails away from the leader, a refused registration is written later,
      a clean-up answered as done is dropped, forwarded reads miss what was committed.

    ** Bounds and fuel

    The fuel of a parser's loop is the length of its input: every iteration consumes
    a byte ([V5Codec.parse_total] shows that it is enough on every input).  The
    variable byte integer loops are bounded by four bytes, as the source bounds them;
    the MQTT 3.1.1 encoder's has ten iterations, the groups of seven bits of a
    [usize].  The fuel of a cluster ([SessionMapRaft.answer]) counts the messages and calls
    from node to node; two for each step to the leader and two more are enough
    ([RaftForwarding.forward_arrives]).
    Reference counts and log indices are not bounded: they count entries held in
    memory and log positions, which do not reach [2^64].

    ** Not modelled

    - The amount of input a [nom] parser asks for and the position of its errors: the
      program looks at neither.
    - The start of the Raft groups ([initialize_raft]), of which only the outcome is seen, and
      the implementation of the actor runtime, whose documented behaviour [SessionRuntime]
      and [SessionManager] state.
    - The consensus library: what it answers is an interface, with the laws the theorems
      name (a write it sends elsewhere is not made, a confirmed node has applied what was
      committed before); RocksDB and JSON beyond their laws; the installation of a
      received session snapshot, which transfers payloads, and what is written but not
      yet flushed when a machine fails.  The steps of [RaftSession] are those of a session
      group's node that runs: what a restart from a late snapshot does to the counts is
      in [RaftSnapshot].
    - The REST interface, the processes and sockets of plugins, listeners, settings, metrics
      and command line. *)

From stdpp Require Export base list strings gmap numbers pretty.
From Stdlib Require Export ZArith Lia.

Open Scope Z_scope.

(** ** Outcomes of Rust code

    A Rust function that returns [Result<A, E>] and may panic (an index out of
    range, an arithmetic overflow in a checked build, an [expect]) is a
    function into [outcome E A].  Loops that are not structural carry fuel and
    yield [OutOfFuel] when it runs out; the theorems show that neither [Panic]
    nor [OutOfFuel] happens. *)
Inductive outcome (E A : Type) : Type :=
  | Ok (a : A)
  | Err (e : E)
  | Panic
  | OutOfFuel.
Arguments Ok {E A} a.
Arguments Err {E A} e.
Arguments Panic {E A}.
Arguments OutOfFuel {E A}.

#[export] Instance outcome_ret E : MRet (outcome E) := fun A a => Ok a.
#[export] Instance outcome_bind E : MBind (outcome E) := fun A B k m =>
  match m with
  | Ok a => k a
  | Err e => Err e
  | Panic => Panic
  | OutOfFuel => OutOfFuel
  end.

(** [Result::map_err]. *)
Definition map_err {E F A} (f : E -> F) (m : outcome E A) : outcome F A :=
  match m with
  | Ok a => Ok a
  | Err e => Err (f e)
  | Panic => Panic
  | OutOfFuel => OutOfFuel
  end.

(** The code returns: an [Ok] or an [Err], no panic and no divergence. *)
Definition returns {E A} (m : outcome E A) : Prop :=
  match m with Ok _ | Err _ => True | Panic | OutOfFuel => False end.

(** [returns_with m Q]: the code returns, and an [Ok] value satisfies [Q]. *)
Definition returns_with {E A} (m : outcome E A) (Q : A -> Prop) : Prop :=
  match m with Ok a => Q a | Err _ => True | Panic | OutOfFuel => False end.

Lemma returns_with_bind {E A B} (m : outcome E A) (k : A -> outcome E B) P Q :
  returns_with m P -> (forall a, P a -> returns_with (k a) Q) -> returns_with (m ≫= k) Q.
Proof. destruct m; simpl; auto; intros []. Qed.

Lemma returns_with_mono {E A} (m : outcome E A) (P Q : A -> Prop) :
  returns_with m P -> (forall a, P a -> Q a) -> returns_with m Q.
Proof. destruct m; simpl; auto. Qed.

Lemma returns_with_returns {E A} (m : outcome E A) P : returns_with m P -> returns m.
Proof. by destruct m. Qed.

Lemma returns_with_Ok {E A} (m : outcome E A) P a : returns_with m P -> m = Ok a -> P a.
Proof. by intros H ->. Qed.

Lemma bind_Ok {E A B} (m : outcome E A) (k : A -> outcome E B) b :
  m ≫= k = Ok b -> exists a, m = Ok a /\ k a = Ok b.
Proof. destruct m; simpl; try discriminate; eauto. Qed.

(** [iter.map(f).collect::<Result<Vec<_>, _>>()]: the first error stops it. *)
Fixpoint try_collect {E A B} (f : A -> outcome E B) (l : list A) : outcome E (list B) :=
  match l with
  | [] => Ok []
  | a :: l => b ← f a; bs ← try_collect f l; Ok (b :: bs)
  end.

Lemma try_collect_Ok {E A B} (f : A -> outcome E B) (g : A -> B) l :
  Forall (fun a => f a = Ok (g a)) l -> try_collect f l = Ok (map g l).
Proof. induction 1 as [|a l Ha _ IH]; [done|]. simpl. by rewrite Ha, IH. Qed.

Lemma try_collect_returns {E A B} (f : A -> outcome E B) (P : A -> B -> Prop) l :
  (forall a, returns_with (f a) (P a)) -> returns_with (try_collect f l) (Forall2 P l).
Proof.
  intros Hf. induction l as [|a l IH]; [constructor|]. simpl.
  eapply returns_with_bind; [apply Hf|]. intros b Hb.
  eapply returns_with_bind; [apply IH|]. intros bs Hbs. by constructor.
Qed.

(** [for a in l { f(a)?; }]: the first error stops it. *)
Fixpoint try_for_each {E A} (f : A -> outcome E unit) (l : list A) : outcome E unit :=
  match l with
  | [] => Ok tt
  | a :: l => f a;; try_for_each f l
  end.

Lemma try_for_each_returns {E A} (f : A -> outcome E unit) l :
  (forall a, returns (f a)) -> returns (try_for_each f l).
Proof.
  intros Hf. induction l as [|a l IH]; [done|]. simpl. specialize (Hf a). by destruct (f a).
Qed.

Lemma try_for_each_Ok {E A} (f : A -> outcome E unit) l :
  try_for_each f l = Ok tt <-> Forall (fun a => f a = Ok tt) l.
Proof.
  induction l as [|a l IH]; [by split|]. simpl. rewrite Forall_cons, <-IH.
  destruct (f a) as [[]|e| |]; simpl; try tauto; split; try done; by intros [? _].
Qed.

(** [inv_ok H]: split a successful chain of [?] into its successful steps. *)
Ltac inv_ok H :=
  match type of H with
  | _ ≫= _ = Ok _ =>
      let a := fresh "v" in
      let H1 := fresh "Hok" in
      apply bind_Ok in H; destruct H as (a & H1 & H)
  end.

(** ** Machine integers

    A [u8], [u16], [u32] or [u64] is a [Z] in its range.  [+] and [*] of the
    source are the checked operations: a build with overflow checks panics
    where they do, and a build without wraps around only there. *)
Definition u8_max : Z := 255.
Definition u16_max : Z := 65535.
Definition u32_max : Z := 4294967295.
Definition u64_max : Z := 18446744073709551615.

Definition is_u8 (z : Z) : Prop := 0 <= z <= 255.
Definition is_u16 (z : Z) : Prop := 0 <= z <= 65535.
Definition is_u32 (z : Z) : Prop := 0 <= z <= 4294967295.
Definition is_u64 (z : Z) : Prop := 0 <= z <= 18446744073709551615.

Definition add_u32 {E} (a b : Z) : outcome E Z :=
  if a + b <=? u32_max then Ok (a + b) else Panic.
Definition mul_u32 {E} (a b : Z) : outcome E Z :=
  if a * b <=? u32_max then Ok (a * b) else Panic.
Definition add_u64 {E} (a b : Z) : outcome E Z :=
  if a + b <=? u64_max then Ok (a + b) else Panic.

(** [u64::saturating_add], [u64::saturating_sub]. *)
Definition saturating_add_u64 (a b : Z) : Z := Z.min (a + b) u64_max.
Definition saturating_sub_u64 (a b : Z) : Z := Z.max (a - b) 0.

(** [x as u32], [x as u16] of a [usize]. *)
Definition as_u32 (z : Z) : Z := z mod 4294967296.
Definition as_u16 (z : Z) : Z := z mod 65536.

Lemma add_u32_ok {E} a b : a + b <= u32_max -> @add_u32 E a b = Ok (a + b).
Proof. intros H. unfold add_u32. by rewrite (proj2 (Z.leb_le _ _) H). Qed.
Lemma mul_u32_ok {E} a b : a * b <= u32_max -> @mul_u32 E a b = Ok (a * b).
Proof. intros H. unfold mul_u32. by rewrite (proj2 (Z.leb_le _ _) H). Qed.

(** A property of all bytes is checked by running through them. *)
Fixpoint all_below (n : nat) (f : Z -> bool) : bool :=
  match n with
  | O => true
  | S m => f (Z.of_nat m) && all_below m f
  end.

Lemma all_below_sound n f : all_below n f = true -> forall z, 0 <= z < Z.of_nat n -> f z = true.
Proof.
  induction n as [|m IH]; simpl; intros H z Hz; [lia|].
  apply andb_prop in H as [H1 H2].
  destruct (decide (z = Z.of_nat m)) as [->|Hne]; [done|].
  apply IH; [done|lia].
Qed.

(** [byte_cases]: prove [f z = true] for a byte [z] by evaluating [f] on all 256. *)
Lemma u8_check (f : Z -> bool) z : all_below 256 f = true -> is_u8 z -> f z = true.
Proof. intros Hf Hz. apply (all_below_sound 256); [done|unfold is_u8 in Hz; lia]. Qed.

(** ** Slices *)

Abbreviation bytes := (list Z).

Definition is_bytes (l : bytes) : Prop := Forall is_u8 l.

Definition zlen {A} (l : list A) : Z := Z.of_nat (length l).

(** [&input[n..]] panics when [n] is past the end. *)
Definition slice_from {E} (n : nat) (l : bytes) : outcome E bytes :=
  if decide (n <= length l)%nat then Ok (drop n l) else Panic.

(** [&input[..n]] panics when [n] is past the end. *)
Definition slice_to {E} (n : nat) (l : bytes) : outcome E bytes :=
  if decide (n <= length l)%nat then Ok (take n l) else Panic.

(** [input[n]] panics when [n] is past the end. *)
Definition index {E} (n : nat) (l : bytes) : outcome E Z :=
  match l !! n with Some b => Ok b | None => Panic end.

(** [input.split_at(n)] panics when [n] is past the end. *)
Definition split_at {E} (n : nat) (l : bytes) : outcome E (bytes * bytes) :=
  if decide (n <= length l)%nat then Ok (take n l, drop n l) else Panic.

#[global] Arguments add_u32 {E} a b : simpl never.
#[global] Arguments mul_u32 {E} a b : simpl never.
#[global] Arguments add_u64 {E} a b : simpl never.
#[global] Arguments slice_from {E} n l : simpl never.
#[global] Arguments slice_to {E} n l : simpl never.
#[global] Arguments split_at {E} n l : simpl never.
#[global] Arguments index {E} n l : simpl never.

Lemma slice_from_ok {E} n (l : bytes) : (n <= length l)%nat -> @slice_from E n l = Ok (drop n l).
Proof. intros H. unfold slice_from. by rewrite decide_True. Qed.
Lemma slice_to_ok {E} n (l : bytes) : (n <= length l)%nat -> @slice_to E n l = Ok (take n l).
Proof. intros H. unfold slice_to. by rewrite decide_True. Qed.
Lemma split_at_ok {E} n (l : bytes) :
  (n <= length l)%nat -> @split_at E n l = Ok (take n l, drop n l).
Proof. intros H. unfold split_at. by rewrite decide_True. Qed.
Lemma slice_from_app {E} (l k : bytes) : @slice_from E (length l) (l ++ k) = Ok k.
Proof. rewrite slice_from_ok, drop_app_length; [done|rewrite length_app; lia]. Qed.
Lemma slice_to_app {E} (l k : bytes) : @slice_to E (length l) (l ++ k) = Ok l.
Proof. rewrite slice_to_ok, take_app_length; [done|rewrite length_app; lia]. Qed.
Lemma split_at_app {E} (l k : bytes) : @split_at E (length l) (l ++ k) = Ok (l, k).
Proof.
  rewrite split_at_ok, take_app_length, drop_app_length; [done|rewrite length_app; lia].
Qed.

Lemma zlen_app {A} (l k : list A) : zlen (l ++ k) = zlen l + zlen k.
Proof. unfold zlen. rewrite length_app. lia. Qed.
Lemma zlen_cons {A} (x : A) l : zlen (x :: l) = 1 + zlen l.
Proof. unfold zlen. simpl. lia. Qed.
Lemma zlen_nil {A} : zlen (@nil A) = 0.
Proof. done. Qed.
Lemma zlen_nonneg {A} (l : list A) : 0 <= zlen l.
Proof. unfold zlen. lia. Qed.
Lemma zlen_to_nat {A} (l : list A) : Z.to_nat (zlen l) = length l.
Proof. unfold zlen. lia. Qed.

Lemma is_bytes_app l k : is_bytes (l ++ k) <-> is_bytes l /\ is_bytes k.
Proof. apply Forall_app. Qed.
Lemma is_bytes_take n l : is_bytes l -> is_bytes (take n l).
Proof. apply Forall_take. Qed.
Lemma is_bytes_drop n l : is_bytes l -> is_bytes (drop n l).
Proof. apply Forall_drop. Qed.

(** Big-endian integers: [u16::from_be_bytes], [u16::to_be_bytes] and the 32-bit ones. *)
Definition from_be_u16 (b0 b1 : Z) : Z := b0 * 256 + b1.
Definition from_be_u32 (b0 b1 b2 b3 : Z) : Z := ((b0 * 256 + b1) * 256 + b2) * 256 + b3.
Definition be_u16 (v : Z) : bytes := [v / 256; v mod 256].
Definition be_u32 (v : Z) : bytes :=
  [v / 16777216; (v / 65536) mod 256; (v / 256) mod 256; v mod 256].

Lemma from_be_u16_be v : from_be_u16 (v / 256) (v mod 256) = v.
Proof. unfold from_be_u16. pose proof (Z.div_mod v 256). lia. Qed.
Lemma from_be_u32_be v :
  from_be_u32 (v / 16777216) ((v / 65536) mod 256) ((v / 256) mod 256) (v mod 256) = v.
Proof.
  unfold from_be_u32.
  replace (v / 16777216) with (v / 256 / 256 / 256) by (rewrite !Z.div_div by lia; f_equal).
  replace (v / 65536) with (v / 256 / 256) by (rewrite Z.div_div by lia; f_equal).
  pose proof (Z.div_mod v 256). pose proof (Z.div_mod (v / 256) 256).
  pose proof (Z.div_mod (v / 256 / 256) 256). lia.
Qed.
Lemma from_be_u16_range b0 b1 : is_u8 b0 -> is_u8 b1 -> is_u16 (from_be_u16 b0 b1).
Proof. unfold is_u8, is_u16, from_be_u16. lia. Qed.
Lemma from_be_u32_range b0 b1 b2 b3 :
  is_u8 b0 -> is_u8 b1 -> is_u8 b2 -> is_u8 b3 -> is_u32 (from_be_u32 b0 b1 b2 b3).
Proof. unfold is_u8, is_u32, from_be_u32. lia. Qed.
Lemma be_u16_bytes v : is_u16 v -> is_bytes (be_u16 v).
Proof.
  unfold is_u16, is_bytes, be_u16. intros H.
  repeat constructor; unfold is_u8; Z.to_euclidean_division_equations; lia.
Qed.
Lemma be_u32_bytes v : is_u32 v -> is_bytes (be_u32 v).
Proof.
  unfold is_u32, is_bytes, be_u32. intros H.
  repeat constructor; unfold is_u8; Z.to_euclidean_division_equations; lia.
Qed.

Lemma zlen_be_u16 v : zlen (be_u16 v) = 2.
Proof. done. Qed.
Lemma zlen_be_u32 v : zlen (be_u32 v) = 4.
Proof. done. Qed.

(** ** Hash maps

    A [HashMap] is a [gmap].  Iteration visits its entries in an order the
    program cannot rely on: results are stated up to permutation. *)

(** [map.values().flat_map(f)]. *)
Definition flat `{Countable K} {A B} (f : A -> list B) (m : gmap K A) : list B :=
  concat (map (fun kv => f kv.2) (map_to_list m)).

Section Flat.
Context `{Countable K} {A B : Type} (f : A -> list B).
Implicit Types m : gmap K A.

Lemma concat_map_perm {C D} (g : C -> list D) l k :
  l ≡ₚ k -> concat (map g l) ≡ₚ concat (map g k).
Proof.
  induction 1 as [|x l k _ IH|x y l|l1 l2 l3 _ IH1 _ IH2]; simpl; [done|by rewrite IH| |].
  - by rewrite !app_assoc, (Permutation_app_comm (g y)).
  - by rewrite IH1.
Qed.

Lemma flat_empty : flat f (∅ : gmap K A) = [].
Proof. unfold flat. by rewrite map_to_list_empty. Qed.

Lemma flat_insert_new m k v : m !! k = None -> flat f (<[k:=v]> m) ≡ₚ f v ++ flat f m.
Proof. intros Hk. unfold flat. by rewrite (concat_map_perm _ _ _ (map_to_list_insert m k v Hk)). Qed.

Lemma flat_delete m k v : m !! k = Some v -> flat f m ≡ₚ f v ++ flat f (delete k m).
Proof.
  intros Hk. rewrite <-(insert_delete_id m k v Hk) at 1.
  apply flat_insert_new, lookup_delete_eq.
Qed.

Lemma flat_insert m k v : flat f (<[k:=v]> m) ≡ₚ f v ++ flat f (delete k m).
Proof. rewrite <-insert_delete_eq. apply flat_insert_new, lookup_delete_eq. Qed.

Lemma elem_of_flat m x : x ∈ flat f m <-> exists k v, m !! k = Some v /\ x ∈ f v.
Proof.
  unfold flat. rewrite list_elem_of_In, in_concat. split.
  - intros (l & Hl & Hx). apply in_map_iff in Hl as ([k v] & <- & Hkv).
    apply list_elem_of_In, elem_of_map_to_list in Hkv. exists k, v.
    by rewrite list_elem_of_In.
  - intros (k & v & Hk & Hx). exists (f v). split; [|by apply list_elem_of_In].
    apply in_map_iff. exists (k, v). split; [done|].
    by apply list_elem_of_In, elem_of_map_to_list.
Qed.
End Flat.

(** ** Encodings *)

(** [prost::Message] of a type; a value [round_trips] when it decodes from its encoding, as
    [prost] documents of every value. *)
Class Prost (A : Type) := { encode_to_vec : A -> bytes; prost_decode : bytes -> outcome string A }.
Definition round_trips {A} `{Prost A} (a : A) : Prop := prost_decode (encode_to_vec a) = Ok a.

(** ** Hint databases and tactics of the development *)

Create HintDb yed.
Create Rewrite HintDb zlen.
#[export] Hint Resolve is_bytes_take is_bytes_drop be_u16_bytes be_u32_bytes
  from_be_u16_range from_be_u32_range zlen_nonneg : yed.
#[export] Hint Rewrite @zlen_app @zlen_cons @zlen_nil zlen_be_u16 zlen_be_u32 : zlen.
