(* ===== verification/Enumerate.v ===== *)
(** * Listing a relation

    A query over a tree of hash maps returns its answers in an arbitrary order.
    [enumerates R out] says that [out] lists, in some order, the [a] of every
    pair [R k a], one occurrence for each pair: nothing is missed, invented or
    repeated.  The rules below follow the shapes of such queries. *)

From S2P Require Import Prelude.

Definition enumerates {K A} (R : K -> A -> Prop) (out : list A) : Prop :=
  exists l : list (K * A), NoDup l /\ (forall k a, (k, a) ∈ l <-> R k a) /\ out ≡ₚ l.*2.

Section Enumerates.
Context {K A : Type}.
Implicit Types (R : K -> A -> Prop) (out : list A).

Lemma enumerates_iff R R' out :
  (forall k a, R k a <-> R' k a) -> enumerates R out -> enumerates R' out.
Proof. intros H (l & ? & Hl & ?). exists l. split_and!; try done. intros. by rewrite Hl. Qed.

#[global] Instance enumerates_perm R : Proper ((≡ₚ) ==> iff) (enumerates R).
Proof.
  intros o o' Ho. split; intros (l & ? & ? & Hp); exists l; split_and!; try done;
    [by rewrite <-Ho|by rewrite Ho].
Qed.

Lemma enumerates_nil R : (forall k a, ~ R k a) -> enumerates R [].
Proof.
  intros H. exists []. split_and!; [constructor| |done].
  intros k a. split; [by intros ?%elem_of_nil|by intros ?%H].
Qed.

Lemma enumerates_option R k0 (o : option A) :
  (forall k a, R k a <-> k = k0 /\ o = Some a) -> enumerates R (option_list o).
Proof.
  intros H. destruct o as [a0|]; simpl.
  - exists [(k0, a0)]. split_and!; [apply NoDup_singleton| |done].
    intros k a. rewrite list_elem_of_singleton, H. naive_solver.
  - apply enumerates_nil. intros k a ?%H. naive_solver.
Qed.

Lemma enumerates_app R R1 R2 out1 out2 :
  enumerates R1 out1 -> enumerates R2 out2 ->
  (forall k a, R1 k a -> R2 k a -> False) ->
  (forall k a, R k a <-> R1 k a \/ R2 k a) -> enumerates R (out1 ++ out2).
Proof.
  intros (l1 & N1 & E1 & P1) (l2 & N2 & E2 & P2) Hd HR. exists (l1 ++ l2). split_and!.
  - apply NoDup_app. split_and!; try done. intros [k a] ?%E1 ?%E2. eauto.
  - intros k a. by rewrite elem_of_app, E1, E2, HR.
  - by rewrite fmap_app, P1, P2.
Qed.

Lemma enumerates_or R1 R2 out1 out2 :
  enumerates R1 out1 -> enumerates R2 out2 -> (forall k a, R1 k a -> R2 k a -> False) ->
  enumerates (fun k a => R1 k a \/ R2 k a) (out1 ++ out2).
Proof. intros H1 H2 Hd. by eapply enumerates_app. Qed.

(** The same answers under other keys. *)
Lemma enumerates_rekey {K'} (f : K -> K') R (R' : K' -> A -> Prop) out :
  Inj (=) (=) f -> enumerates R out -> (forall k' a, R' k' a <-> exists k, k' = f k /\ R k a) -> enumerates R' out.
Proof.
  intros Hinj (l & N & E & P) HR. exists (prod_map f id <$> l). split_and!.
  - by apply (NoDup_fmap_2 (prod_map f id)).
  - intros k' a. rewrite HR, list_elem_of_fmap. split.
    + intros ([k a'] & [= -> ->] & ?%E). eauto.
    + intros (k & -> & ?%E). by exists (k, a).
  - rewrite <-list_fmap_compose. by rewrite (list_fmap_ext _ snd) by (by intros ? []).
Qed.

Lemma enumerates_filter R (P : A -> Prop) `{!forall a, Decision (P a)} out :
  enumerates R out -> enumerates (fun k a => R k a /\ P a) (filter P out).
Proof.
  intros (l & N & E & Hp). exists (filter (fun ka => P ka.2) l). split_and!.
  - by apply NoDup_filter.
  - intros k a. rewrite list_elem_of_filter, E. simpl. tauto.
  - rewrite Hp. clear. induction l as [|[k a] l IH]; [done|].
    rewrite fmap_cons, !filter_cons. simpl. case_decide; [|done].
    rewrite fmap_cons. by rewrite IH.
Qed.

Lemma elem_of_enumerates R out a : enumerates R out -> a ∈ out <-> exists k, R k a.
Proof.
  intros (l & _ & E & ->). rewrite list_elem_of_fmap. split.
  - intros ([k a'] & -> & ?%E). eauto.
  - intros (k & ?%E). by exists (k, a).
Qed.

(** A relation has one listing up to order. *)
Lemma enumerates_unique R out out' : enumerates R out -> enumerates R out' -> out ≡ₚ out'.
Proof.
  intros (l & N & E & ->) (l' & N' & E' & ->). apply (fmap_Permutation snd), NoDup_Permutation;
    [done..|]. intros [k a]. by rewrite E, E'.
Qed.

Context `{Countable K}.

Lemma enumerates_values (m : gmap K A) :
  enumerates (fun k a => m !! k = Some a) (map_to_list m).*2.
Proof.
  exists (map_to_list m). split_and!; [apply NoDup_map_to_list| |done].
  intros. apply elem_of_map_to_list.
Qed.
End Enumerates.

(** One listing for each entry of a map. *)
Lemma enumerates_flat `{Countable J} {X K A} (f : X -> list A) (S : J -> X -> K -> A -> Prop)
    (R : K -> A -> Prop) (m : gmap J X) :
  (forall i x, m !! i = Some x -> enumerates (S i x) (f x)) ->
  (forall i x i' x' k a, S i x k a -> S i' x' k a -> i = i') ->
  (forall k a, R k a <-> exists i x, m !! i = Some x /\ S i x k a) ->
  enumerates R (flat f m).
Proof.
  revert R. induction m as [|i x m Hi IH] using map_ind; intros R Hf Hd HR.
  - rewrite flat_empty. apply enumerates_nil. intros k a (i & x & Hi & _)%HR.
    by rewrite lookup_empty in Hi.
  - rewrite flat_insert_new by done.
    eapply enumerates_app; [apply (Hf i x), lookup_insert_eq| |..].
    + apply (IH (fun k a => exists i x, m !! i = Some x /\ S i x k a)); [|done..].
      intros i' x' Hi'. apply Hf. rewrite lookup_insert_ne by congruence. done.
    + simpl. intros k a H1 (i' & x' & Hi' & H2). pose proof (Hd _ _ _ _ _ _ H1 H2). congruence.
    + intros k a. rewrite HR. simpl. split.
      * intros (i' & x' & Hi' & HS). destruct (decide (i = i')) as [->|Hne].
        -- rewrite lookup_insert_eq in Hi'. injection Hi' as <-. by left.
        -- rewrite lookup_insert_ne in Hi' by done. eauto.
      * intros [HS|(i' & x' & Hi' & HS)].
        -- exists i, x. by rewrite lookup_insert_eq.
        -- exists i', x'. by rewrite lookup_insert_ne by congruence.
Qed.

(** [for v in map.values() { result.append(f(v)) }] is the same listing. *)
Lemma map_fold_flat `{Countable J} {X A} (f : X -> list A) (m : gmap J X) :
  map_fold (fun _ x acc => f x ++ acc) [] m ≡ₚ flat f m.
Proof.
  induction m as [|i x m Hi IH] using map_ind.
  - by rewrite map_fold_empty, flat_empty.
  - rewrite flat_insert_new by done.
    rewrite (map_fold_insert (≡ₚ)); [by rewrite IH| | |done].
    + intros j z a b Hab. by apply Permutation_app_head.
    + intros. by rewrite !app_assoc, (Permutation_app_comm (f _) (f _)).
Qed.
