(* ===== verification/Utf8.v ===== *)
(** * Rust strings

    A Rust [String] or [&str] is the string of its UTF-8 bytes; [as_bytes] and
    [str::from_utf8] convert.  [valid_utf8] is the well-formedness test of the
    standard library (Unicode table 3-7: no overlong form, no surrogate,
    nothing above U+10FFFF). *)

From S2P Require Import Prelude.
From Stdlib Require Import Ascii.
From Stdlib Require String.

Definition as_bytes (s : string) : bytes :=
  map (fun c => Z.of_N (N_of_ascii c)) (String.list_ascii_of_string s).

Definition string_of_bytes (l : bytes) : string :=
  String.string_of_list_ascii (map (fun b => ascii_of_N (Z.to_N b)) l).

Definition is_cont (b : Z) : bool := (0x80 <=? b) && (b <=? 0xBF).

(** The second byte of a three-byte form: no overlong form, no surrogate. *)
Definition second_of_3 (b0 b1 : Z) : bool :=
  if b0 =? 0xE0 then (0xA0 <=? b1) && (b1 <=? 0xBF)
  else if b0 =? 0xED then (0x80 <=? b1) && (b1 <=? 0x9F)
  else is_cont b1.

(** The second byte of a four-byte form: no overlong form, at most U+10FFFF. *)
Definition second_of_4 (b0 b1 : Z) : bool :=
  if b0 =? 0xF0 then (0x90 <=? b1) && (b1 <=? 0xBF)
  else if b0 =? 0xF4 then (0x80 <=? b1) && (b1 <=? 0x8F)
  else is_cont b1.

Fixpoint valid_utf8 (l : bytes) : bool :=
  match l with
  | [] => true
  | b0 :: l1 =>
      if b0 <? 0x80 then valid_utf8 l1
      else
        match l1 with
        | [] => false
        | b1 :: l2 =>
            if (0xC2 <=? b0) && (b0 <=? 0xDF) then is_cont b1 && valid_utf8 l2
            else
              match l2 with
              | [] => false
              | b2 :: l3 =>
                  if (0xE0 <=? b0) && (b0 <=? 0xEF)
                  then second_of_3 b0 b1 && is_cont b2 && valid_utf8 l3
                  else
                    match l3 with
                    | [] => false
                    | b3 :: l4 =>
                        (0xF0 <=? b0) && (b0 <=? 0xF4) && second_of_4 b0 b1
                        && is_cont b2 && is_cont b3 && valid_utf8 l4
                    end
              end
        end
  end.

(** [std::str::from_utf8]. *)
Definition from_utf8 (l : bytes) : option string :=
  if valid_utf8 l then Some (string_of_bytes l) else None.

(** The invariant of the Rust type [String]. *)
Definition is_str (s : string) : Prop := valid_utf8 (as_bytes s) = true.

Lemma string_of_as_bytes s : string_of_bytes (as_bytes s) = s.
Proof.
  unfold string_of_bytes, as_bytes. rewrite map_map.
  rewrite (map_ext _ id), map_id, String.string_of_list_ascii_of_string; [done|].
  intros c. by rewrite N2Z.id, ascii_N_embedding.
Qed.

Lemma as_bytes_of_bytes l : is_bytes l -> as_bytes (string_of_bytes l) = l.
Proof.
  unfold string_of_bytes, as_bytes. intros H.
  rewrite String.list_ascii_of_string_of_list_ascii, map_map.
  induction H as [|b l Hb _ IH]; simpl; [done|].
  rewrite IH, N_ascii_embedding; [f_equal|]; unfold is_u8 in Hb; lia.
Qed.

Lemma as_bytes_is_bytes s : is_bytes (as_bytes s).
Proof.
  unfold as_bytes, is_bytes. apply Forall_map, Forall_forall. intros c _.
  pose proof (N_ascii_bounded c). unfold is_u8. simpl. lia.
Qed.

Lemma length_as_bytes s : length (as_bytes s) = String.length s.
Proof.
  unfold as_bytes. rewrite length_map. induction s; simpl; [done|by rewrite IHs].
Qed.

Lemma as_bytes_inj s t : as_bytes s = as_bytes t -> s = t.
Proof. intros H. by rewrite <-(string_of_as_bytes s), H, string_of_as_bytes. Qed.

Lemma as_bytes_nil s : as_bytes s = [] <-> s = ""%string.
Proof. split; [by destruct s|by intros ->]. Qed.

(** Decoding inverts [as_bytes] on every [String]. *)
Lemma from_utf8_as_bytes s : is_str s -> from_utf8 (as_bytes s) = Some s.
Proof. unfold from_utf8, is_str. intros ->. by rewrite string_of_as_bytes. Qed.

(** What decoding accepts is a [String] with the same bytes. *)
Lemma from_utf8_Some l s :
  is_bytes l -> from_utf8 l = Some s -> is_str s /\ as_bytes s = l.
Proof.
  unfold from_utf8, is_str. intros Hl. destruct (valid_utf8 l) eqn:E; [|done].
  intros [= <-]. by rewrite as_bytes_of_bytes.
Qed.

#[export] Hint Resolve as_bytes_is_bytes from_utf8_as_bytes : yed.
