(* ===== verification/Buf.v ===== *)
(** * Byte buffers

    [BytesMut] comes from the [bytes] crate, which is not part of the
    repository: its operations are a type class, what the crate documents of
    them a second class, and every encoder is a function of the first.  The
    encoders thread the buffer they append to: [writer E A] is a function on
    buffers, and a failed encoder leaves what it wrote before failing. *)

From S2P Require Import Prelude.

Class BytesCrate := {
  BytesMut : Type;
  bm_new : BytesMut;                                (* BytesMut::new() *)
  bm_slice : BytesMut -> bytes;                     (* Deref<Target = [u8]> *)
  bm_put_u8 : Z -> BytesMut -> BytesMut;            (* BufMut::put_u8 *)
  bm_put_u16 : Z -> BytesMut -> BytesMut;           (* BufMut::put_u16, big endian *)
  bm_put_u32 : Z -> BytesMut -> BytesMut;           (* BufMut::put_u32, big endian *)
  bm_extend_from_slice : bytes -> BytesMut -> BytesMut;
}.

(** What the crate documents: a new buffer is empty, every operation appends. *)
Class BytesCrateSpec (B : BytesCrate) : Prop := {
  bm_new_spec : bm_slice bm_new = [];
  bm_put_u8_spec : forall v b, bm_slice (bm_put_u8 v b) = bm_slice b ++ [v];
  bm_put_u16_spec : forall v b, bm_slice (bm_put_u16 v b) = bm_slice b ++ be_u16 v;
  bm_put_u32_spec : forall v b, bm_slice (bm_put_u32 v b) = bm_slice b ++ be_u32 v;
  bm_extend_spec : forall l b, bm_slice (bm_extend_from_slice l b) = bm_slice b ++ l;
}.

(** A buffer that is the list of its bytes meets the specification. *)
#[export] Instance list_bytes_crate : BytesCrate := {|
  BytesMut := bytes;
  bm_new := [];
  bm_slice := fun b => b;
  bm_put_u8 := fun v b => b ++ [v];
  bm_put_u16 := fun v b => b ++ be_u16 v;
  bm_put_u32 := fun v b => b ++ be_u32 v;
  bm_extend_from_slice := fun l b => b ++ l;
|}.

#[export] Instance list_bytes_crate_spec : BytesCrateSpec list_bytes_crate.
Proof. by split. Qed.

Section Writer.
Context {B : BytesCrate} {E : Type}.

(** [fn(.., buffer: &mut BytesMut) -> Result<A, E>]. *)
Definition writer (A : Type) : Type := BytesMut -> outcome E A * BytesMut.

#[export] Instance writer_ret : MRet writer := fun A a b => (Ok a, b).
#[export] Instance writer_bind : MBind writer := fun A C k w b =>
  match w b with
  | (Ok a, b') => k a b'
  | (Err e, b') => (Err e, b')
  | (Panic, b') => (Panic, b')
  | (OutOfFuel, b') => (OutOfFuel, b')
  end.

(** A computation that does not touch the buffer. *)
Definition lift {A} (m : outcome E A) : writer A := fun b => (m, b).
Definition put_u8 (v : Z) : writer unit := fun b => (Ok tt, bm_put_u8 v b).
Definition put_u16 (v : Z) : writer unit := fun b => (Ok tt, bm_put_u16 v b).
Definition put_u32 (v : Z) : writer unit := fun b => (Ok tt, bm_put_u32 v b).
Definition extend_from_slice (l : bytes) : writer unit :=
  fun b => (Ok tt, bm_extend_from_slice l b).

(** [let mut body = BytesMut::new(); ..]: the body is local, and dropped on an error. *)
Definition with_new_buffer {A} (w : writer A) : outcome E BytesMut :=
  match w bm_new with
  | (Ok _, b) => Ok b
  | (Err e, _) => Err e
  | (Panic, _) => Panic
  | (OutOfFuel, _) => OutOfFuel
  end.

(** [wp w Q R]: [w] returns; a success [a] has appended some [out] with
    [Q a out], an error [e] has [R e]. *)
Definition wp {A} (w : writer A) (Q : A -> bytes -> Prop) (R : E -> Prop) : Prop :=
  forall b,
    match w b with
    | (Ok a, b') => exists out, bm_slice b' = bm_slice b ++ out /\ Q a out
    | (Err e, _) => R e
    | (Panic, _) | (OutOfFuel, _) => False
    end.

Context {BS : BytesCrateSpec B}.

Lemma wp_ret {A} (a : A) (Q : A -> bytes -> Prop) R : Q a [] -> wp (mret a) Q R.
Proof. intros H b. simpl. exists []. by rewrite app_nil_r. Qed.

Lemma wp_bind {A C} (w : writer A) (k : A -> writer C) P Q R :
  wp w P R ->
  (forall a o1, P a o1 -> wp (k a) (fun c o2 => Q c (o1 ++ o2)) R) ->
  wp (w ≫= k) Q R.
Proof.
  intros Hw Hk b. unfold mbind, writer_bind. specialize (Hw b).
  destruct (w b) as [[a|e| |] b'] eqn:Ew; try done.
  destruct Hw as (o1 & Hb & Ha). specialize (Hk a o1 Ha b').
  destruct (k a b') as [[c|e| |] b''] eqn:Ek; try done.
  destruct Hk as (o2 & Hb' & Hc). exists (o1 ++ o2). by rewrite Hb', Hb, app_assoc.
Qed.

Lemma wp_mono {A} (w : writer A) (P Q : A -> bytes -> Prop) (R S : E -> Prop) :
  wp w P R -> (forall a out, P a out -> Q a out) -> (forall e, R e -> S e) -> wp w Q S.
Proof.
  intros Hw HP HR b. specialize (Hw b). destruct (w b) as [[a|e| |] b'] eqn:?; eauto.
  destruct Hw as (out & ? & ?). eauto.
Qed.

Lemma wp_and {A} (w : writer A) (P Q : A -> bytes -> Prop) (R S : E -> Prop) :
  wp w P R -> wp w Q S -> wp w (fun a out => P a out /\ Q a out) (fun e => R e /\ S e).
Proof.
  intros HP HQ b. specialize (HP b). specialize (HQ b).
  destruct (w b) as [[a|e| |] b'] eqn:?; eauto.
  destruct HP as (o1 & H1 & ?), HQ as (o2 & H2 & ?).
  rewrite H1 in H2. apply app_inv_head in H2 as ->. eauto.
Qed.

Lemma wp_lift {A} (m : outcome E A) (Q : A -> bytes -> Prop) R :
  match m with Ok a => Q a [] | Err e => R e | Panic | OutOfFuel => False end ->
  wp (lift m) Q R.
Proof.
  intros H b. unfold lift. destruct m; simpl; auto. exists []. by rewrite app_nil_r.
Qed.

Lemma wp_put_u8 v R : wp (put_u8 v) (fun _ out => out = [v]) R.
Proof. intros b. simpl. eexists. by rewrite bm_put_u8_spec. Qed.
Lemma wp_put_u16 v R : wp (put_u16 v) (fun _ out => out = be_u16 v) R.
Proof. intros b. simpl. eexists. by rewrite bm_put_u16_spec. Qed.
Lemma wp_put_u32 v R : wp (put_u32 v) (fun _ out => out = be_u32 v) R.
Proof. intros b. simpl. eexists. by rewrite bm_put_u32_spec. Qed.
Lemma wp_extend l R : wp (extend_from_slice l) (fun _ out => out = l) R.
Proof. intros b. simpl. eexists. by rewrite bm_extend_spec. Qed.

(** A local buffer ends with exactly what was written to it. *)
Lemma wp_with_new_buffer {A} (w : writer A) P R :
  wp w P R ->
  match with_new_buffer w with
  | Ok body => exists a, P a (bm_slice body)
  | Err e => R e
  | Panic | OutOfFuel => False
  end.
Proof.
  intros Hw. specialize (Hw bm_new). unfold with_new_buffer.
  destruct (w bm_new) as [[a|e| |] b'] eqn:?; try done.
  destruct Hw as (out & Hb & Ha). rewrite bm_new_spec in Hb. simpl in Hb. subst. eauto.
Qed.

(** A local buffer filled by [w] and continued with [k]. *)
Lemma wp_local_buffer {A C} (w : writer A) (k : BytesMut -> writer C) P Q R :
  wp w P R ->
  (forall body a, P a (bm_slice body) -> wp (k body) Q R) ->
  wp (lift (with_new_buffer w) ≫= k) Q R.
Proof.
  intros Hw Hk b. unfold mbind, writer_bind, lift. pose proof (wp_with_new_buffer w P R Hw) as H.
  destruct (with_new_buffer w) as [body|e| |]; try done.
  destruct H as [a Ha]. apply (Hk body a Ha b).
Qed.

Lemma wp_if {A} (c : bool) (w1 w2 : writer A) Q R :
  (c = true -> wp w1 Q R) -> (c = false -> wp w2 Q R) -> wp (if c then w1 else w2) Q R.
Proof. destruct c; auto. Qed.

End Writer.
Arguments writer {B} E A.

(** [wp_step]: apply the rule for the next statement of an encoder. *)
Ltac wp_step :=
  match goal with
  | |- wp (mret _) _ _ => apply wp_ret
  | |- wp (put_u8 _ ≫= _) _ _ =>
      eapply wp_bind; [apply wp_put_u8|intros ? ? ->]
  | |- wp (put_u16 _ ≫= _) _ _ =>
      eapply wp_bind; [apply wp_put_u16|intros ? ? ->]
  | |- wp (put_u32 _ ≫= _) _ _ =>
      eapply wp_bind; [apply wp_put_u32|intros ? ? ->]
  | |- wp (extend_from_slice _ ≫= _) _ _ =>
      eapply wp_bind; [apply wp_extend|intros ? ? ->]
  | |- wp (if _ then _ else _) _ _ => apply wp_if; intros ?
  end.

(** ** Encoders against a closed form

    [writes w ok out]: [w] returns; it succeeds exactly when [ok], and has then
    appended [out].  The wire format of every packet is stated in this form. *)
Section Writes.
Context {B : BytesCrate} {BS : BytesCrateSpec B} {E : Type}.
Implicit Types w : writer E unit.

Definition writes (w : writer E unit) (ok : bool) (out : bytes) : Prop :=
  wp w (fun _ o => ok = true /\ o = out) (fun _ => ok = false).

Lemma writes_ret : writes (mret tt) true [].
Proof. by apply wp_ret. Qed.

Lemma writes_fail e : writes (lift (Err e)) false [].
Proof. by apply wp_lift. Qed.

(** A check that fails or does nothing. *)
Lemma writes_check (m : outcome E unit) ok :
  returns m -> (m = Ok tt <-> ok = true) -> writes (lift m) ok [].
Proof.
  intros Hr Hok. apply wp_lift. destruct m as [[]|e| |]; try done.
  - by rewrite <-Hok.
  - destruct ok; [|done]. by discriminate (proj2 Hok eq_refl).
Qed.

Lemma writes_put_u8 v : writes (put_u8 v) true [v].
Proof. eapply wp_mono; [apply (wp_put_u8 v (fun _ => False))|naive_solver..]. Qed.
Lemma writes_put_u16 v : writes (put_u16 v) true (be_u16 v).
Proof. eapply wp_mono; [apply (wp_put_u16 v (fun _ => False))|naive_solver..]. Qed.
Lemma writes_put_u32 v : writes (put_u32 v) true (be_u32 v).
Proof. eapply wp_mono; [apply (wp_put_u32 v (fun _ => False))|naive_solver..]. Qed.
Lemma writes_extend l : writes (extend_from_slice l) true l.
Proof. eapply wp_mono; [apply (wp_extend l (fun _ => False))|naive_solver..]. Qed.

Lemma writes_bind {w1 w2 ok1 ok2 o1 o2} :
  writes w1 ok1 o1 -> writes w2 ok2 o2 -> writes (w1;; w2) (ok1 && ok2) (o1 ++ o2).
Proof.
  intros H1 H2 b. specialize (H1 b). unfold mbind, writer_bind.
  destruct (w1 b) as [[a|e| |] b'] eqn:?; try done; [|by rewrite H1].
  destruct H1 as (? & Hb & -> & ->). specialize (H2 b'). simpl.
  destruct (w2 b') as [[c|e| |] b''] eqn:?; try done.
  destruct H2 as (? & Hb' & -> & ->). exists (o1 ++ o2). by rewrite Hb', Hb, app_assoc.
Qed.

(** The closed form may be restated; the output only matters on success. *)
Lemma writes_eq {w ok ok' o o'} :
  writes w ok o -> ok = ok' -> (ok' = true -> o = o') -> writes w ok' o'.
Proof. intros H <- Ho. eapply wp_mono; [exact H|intros _ ? [Hk ->]; auto|done]. Qed.

(** A check before the rest: [if c { return Err(e) }; w]. *)
Lemma writes_guard {w ok o} (c : bool) e :
  writes w ok o -> writes (if c then lift (Err e) else w) (negb c && ok) o.
Proof. destruct c; simpl; [|done]. intros _. eapply writes_eq; [apply writes_fail|done..]. Qed.

(** A computation that touches no buffer, before the rest. *)
Lemma writes_lift {A} {m : outcome E A} {k : A -> writer E unit} {ok o} :
  returns m ->
  match m with Ok a => writes (k a) ok o | _ => ok = false end ->
  writes (lift m ≫= k) ok o.
Proof. intros Hr Hm b. destruct m; try done. exact (Hm b). Qed.

(** A local buffer, then the rest. *)
Lemma writes_local {w ok o ok2 o2} {k : BytesMut -> writer E unit} :
  writes w ok o ->
  (forall body, bm_slice body = o -> ok = true -> writes (k body) ok2 o2) ->
  writes (lift (with_new_buffer w) ≫= k) (ok && ok2) o2.
Proof.
  intros Hw Hk. pose proof (wp_with_new_buffer w _ _ Hw) as H.
  destruct (with_new_buffer w) as [body|e| |] eqn:Hb; try done.
  - destruct H as (_ & -> & Hs). intros b. exact (Hk body Hs eq_refl b).
  - rewrite H. intros b. done.
Qed.

(** What a caller of [w] on a buffer [b] sees. *)
Lemma writes_run {w ok o} b :
  writes w ok o ->
  if ok then exists b', w b = (Ok tt, b') /\ bm_slice b' = bm_slice b ++ o
  else exists e b', w b = (Err e, b').
Proof.
  intros H. specialize (H b). destruct (w b) as [[[]|e| |] b'] eqn:?; try done.
  - destruct H as (? & ? & -> & ->). eauto.
  - rewrite H. eauto.
Qed.

End Writes.

(** [writes_step]: the rule for the next statement against a closed form. *)
Ltac writes_step :=
  match goal with
  | |- writes (mret tt) _ _ => apply writes_ret
  | |- writes (_ ≫= _) _ _ => eapply writes_bind
  | |- writes (put_u8 _) _ _ => apply writes_put_u8
  | |- writes (put_u16 _) _ _ => apply writes_put_u16
  | |- writes (put_u32 _) _ _ => apply writes_put_u32
  | |- writes (extend_from_slice _) _ _ => apply writes_extend
  | |- writes _ _ _ => solve [eauto with wp]
  end.

Create HintDb wp.
#[export] Hint Resolve wp_put_u8 wp_put_u16 wp_put_u32 wp_extend
  writes_ret writes_fail writes_put_u8 writes_put_u16 writes_put_u32 writes_extend : wp.
