(* ===== verification/Packet.v ===== *)
(** * Version-neutral MQTT packets ([mqtt/src/packet.rs])

    The data of [packet.rs] with the source's constructors and fields (a field
    carries a short prefix of its struct, since Rocq's field names are global),
    the reason codes and their wire values, and the methods of [Packet]. *)

From S2P Require Import Prelude Utf8.

Inductive ProtocolVersion := V3_1_1 | V5_0.

Inductive RetainHandling := SendAtSubscribe | SendAtSubscribeIfNew | DoNotSend.

Inductive ReasonCode :=
  | RcSuccess | RcGrantedQos0 | RcGrantedQos1 | RcGrantedQos2 | RcNormalDisconnection
  | RcNoMatchingSubscribers | RcNoSubscriptionExisted | RcContinueAuthentication
  | RcReAuthenticate | RcUnspecifiedError | RcMalformedPacket | RcProtocolError
  | RcImplementationSpecificError | RcUnsupportedProtocolVersion
  | RcClientIdentifierNotValid | RcBadUserNameOrPassword | RcNotAuthorized
  | RcServerUnavailable | RcTopicFilterInvalid | RcTopicNameInvalid
  | RcPacketIdentifierInUse | RcPacketIdentifierNotFound | RcPacketTooLarge
  | RcQuotaExceeded | RcPayloadFormatInvalid | RcRetainNotSupported | RcQosNotSupported
  | RcBadAuthenticationMethod | RcSharedSubscriptionsNotSupported
  | RcSubscriptionIdentifiersNotSupported | RcWildcardSubscriptionsNotSupported.

(** [ReasonCode::as_u8]. *)
Definition as_u8 (r : ReasonCode) : Z :=
  match r with
  | RcSuccess | RcGrantedQos0 | RcNormalDisconnection => 0x00
  | RcGrantedQos1 => 0x01
  | RcGrantedQos2 => 0x02
  | RcNoMatchingSubscribers => 0x10
  | RcNoSubscriptionExisted => 0x11
  | RcContinueAuthentication => 0x18
  | RcReAuthenticate => 0x19
  | RcUnspecifiedError => 0x80
  | RcMalformedPacket => 0x81
  | RcProtocolError => 0x82
  | RcImplementationSpecificError => 0x83
  | RcUnsupportedProtocolVersion => 0x84
  | RcClientIdentifierNotValid => 0x85
  | RcBadUserNameOrPassword => 0x86
  | RcNotAuthorized => 0x87
  | RcServerUnavailable => 0x88
  | RcTopicFilterInvalid => 0x8F
  | RcTopicNameInvalid => 0x90
  | RcPacketIdentifierInUse => 0x91
  | RcPacketIdentifierNotFound => 0x92
  | RcPacketTooLarge => 0x95
  | RcQuotaExceeded => 0x97
  | RcPayloadFormatInvalid => 0x99
  | RcRetainNotSupported => 0x9A
  | RcQosNotSupported => 0x9B
  | RcBadAuthenticationMethod => 0x8C
  | RcSharedSubscriptionsNotSupported => 0x9E
  | RcSubscriptionIdentifiersNotSupported => 0xA1
  | RcWildcardSubscriptionsNotSupported => 0xA2
  end.

(** [Properties]: every MQTT 5 property of every packet. *)
Record Properties := mkProperties {
  payload_format_indicator : option Z;
  message_expiry_interval : option Z;
  content_type : option string;
  response_topic : option string;
  correlation_data : option bytes;
  subscription_identifiers : list Z;
  session_expiry_interval : option Z;
  assigned_client_identifier : option string;
  server_keep_alive : option Z;
  authentication_method : option string;
  authentication_data : option bytes;
  request_problem_information : option bool;
  will_delay_interval : option Z;
  request_response_information : option bool;
  response_information : option string;
  server_reference : option string;
  reason_string : option string;
  receive_maximum : option Z;
  topic_alias_maximum : option Z;
  topic_alias : option Z;
  maximum_qos : option Z;
  retain_available : option bool;
  user_properties : list (string * string);
  maximum_packet_size : option Z;
  wildcard_subscription_available : option bool;
  subscription_identifier_available : option bool;
  shared_subscription_available : option bool;
}.

(** [Properties::default()]: nothing set. *)
Definition default_properties : Properties :=
  mkProperties None None None None None [] None None None None None None None None
    None None None None None None None None [] None None None None.

(** Assignments to one field, [properties.f = v]. *)
Definition set_payload_format_indicator (v : option Z) (p : Properties) : Properties :=
  match p with
  | mkProperties _ x2 x3 x4 x5 x6 x7 x8 x9 x10 x11 x12 x13 x14
        x15 x16 x17 x18 x19 x20 x21 x22 x23 x24 x25 x26 x27 =>
      mkProperties v x2 x3 x4 x5 x6 x7 x8 x9 x10 x11 x12 x13 x14
        x15 x16 x17 x18 x19 x20 x21 x22 x23 x24 x25 x26 x27
  end.
Definition set_message_expiry_interval (v : option Z) (p : Properties) : Properties :=
  match p with
  | mkProperties x1 _ x3 x4 x5 x6 x7 x8 x9 x10 x11 x12 x13 x14
        x15 x16 x17 x18 x19 x20 x21 x22 x23 x24 x25 x26 x27 =>
      mkProperties x1 v x3 x4 x5 x6 x7 x8 x9 x10 x11 x12 x13 x14
        x15 x16 x17 x18 x19 x20 x21 x22 x23 x24 x25 x26 x27
  end.
Definition set_content_type (v : option string) (p : Properties) : Properties :=
  match p with
  | mkProperties x1 x2 _ x4 x5 x6 x7 x8 x9 x10 x11 x12 x13 x14
        x15 x16 x17 x18 x19 x20 x21 x22 x23 x24 x25 x26 x27 =>
      mkProperties x1 x2 v x4 x5 x6 x7 x8 x9 x10 x11 x12 x13 x14
        x15 x16 x17 x18 x19 x20 x21 x22 x23 x24 x25 x26 x27
  end.
Definition set_response_topic (v : option string) (p : Properties) : Properties :=
  match p with
  | mkProperties x1 x2 x3 _ x5 x6 x7 x8 x9 x10 x11 x12 x13 x14
        x15 x16 x17 x18 x19 x20 x21 x22 x23 x24 x25 x26 x27 =>
      mkProperties x1 x2 x3 v x5 x6 x7 x8 x9 x10 x11 x12 x13 x14
        x15 x16 x17 x18 x19 x20 x21 x22 x23 x24 x25 x26 x27
  end.
Definition set_correlation_data (v : option bytes) (p : Properties) : Properties :=
  match p with
  | mkProperties x1 x2 x3 x4 _ x6 x7 x8 x9 x10 x11 x12 x13 x14
        x15 x16 x17 x18 x19 x20 x21 x22 x23 x24 x25 x26 x27 =>
      mkProperties x1 x2 x3 x4 v x6 x7 x8 x9 x10 x11 x12 x13 x14
        x15 x16 x17 x18 x19 x20 x21 x22 x23 x24 x25 x26 x27
  end.
Definition set_subscription_identifiers (v : list Z) (p : Properties) : Properties :=
  match p with
  | mkProperties x1 x2 x3 x4 x5 _ x7 x8 x9 x10 x11 x12 x13 x14
        x15 x16 x17 x18 x19 x20 x21 x22 x23 x24 x25 x26 x27 =>
      mkProperties x1 x2 x3 x4 x5 v x7 x8 x9 x10 x11 x12 x13 x14
        x15 x16 x17 x18 x19 x20 x21 x22 x23 x24 x25 x26 x27
  end.
Definition set_session_expiry_interval (v : option Z) (p : Properties) : Properties :=
  match p with
  | mkProperties x1 x2 x3 x4 x5 x6 _ x8 x9 x10 x11 x12 x13 x14
        x15 x16 x17 x18 x19 x20 x21 x22 x23 x24 x25 x26 x27 =>
      mkProperties x1 x2 x3 x4 x5 x6 v x8 x9 x10 x11 x12 x13 x14
        x15 x16 x17 x18 x19 x20 x21 x22 x23 x24 x25 x26 x27
  end.
Definition set_assigned_client_identifier (v : option string) (p : Properties) : Properties :=
  match p with
  | mkProperties x1 x2 x3 x4 x5 x6 x7 _ x9 x10 x11 x12 x13 x14
        x15 x16 x17 x18 x19 x20 x21 x22 x23 x24 x25 x26 x27 =>
      mkProperties x1 x2 x3 x4 x5 x6 x7 v x9 x10 x11 x12 x13 x14
        x15 x16 x17 x18 x19 x20 x21 x22 x23 x24 x25 x26 x27
  end.
Definition set_server_keep_alive (v : option Z) (p : Properties) : Properties :=
  match p with
  | mkProperties x1 x2 x3 x4 x5 x6 x7 x8 _ x10 x11 x12 x13 x14
        x15 x16 x17 x18 x19 x20 x21 x22 x23 x24 x25 x26 x27 =>
      mkProperties x1 x2 x3 x4 x5 x6 x7 x8 v x10 x11 x12 x13 x14
        x15 x16 x17 x18 x19 x20 x21 x22 x23 x24 x25 x26 x27
  end.
Definition set_authentication_method (v : option string) (p : Properties) : Properties :=
  match p with
  | mkProperties x1 x2 x3 x4 x5 x6 x7 x8 x9 _ x11 x12 x13 x14
        x15 x16 x17 x18 x19 x20 x21 x22 x23 x24 x25 x26 x27 =>
      mkProperties x1 x2 x3 x4 x5 x6 x7 x8 x9 v x11 x12 x13 x14
        x15 x16 x17 x18 x19 x20 x21 x22 x23 x24 x25 x26 x27
  end.
Definition set_authentication_data (v : option bytes) (p : Properties) : Properties :=
  match p with
  | mkProperties x1 x2 x3 x4 x5 x6 x7 x8 x9 x10 _ x12 x13 x14
        x15 x16 x17 x18 x19 x20 x21 x22 x23 x24 x25 x26 x27 =>
      mkProperties x1 x2 x3 x4 x5 x6 x7 x8 x9 x10 v x12 x13 x14
        x15 x16 x17 x18 x19 x20 x21 x22 x23 x24 x25 x26 x27
  end.
Definition set_request_problem_information (v : option bool) (p : Properties) : Properties :=
  match p with
  | mkProperties x1 x2 x3 x4 x5 x6 x7 x8 x9 x10 x11 _ x13 x14
        x15 x16 x17 x18 x19 x20 x21 x22 x23 x24 x25 x26 x27 =>
      mkProperties x1 x2 x3 x4 x5 x6 x7 x8 x9 x10 x11 v x13 x14
        x15 x16 x17 x18 x19 x20 x21 x22 x23 x24 x25 x26 x27
  end.
Definition set_will_delay_interval (v : option Z) (p : Properties) : Properties :=
  match p with
  | mkProperties x1 x2 x3 x4 x5 x6 x7 x8 x9 x10 x11 x12 _ x14
        x15 x16 x17 x18 x19 x20 x21 x22 x23 x24 x25 x26 x27 =>
      mkProperties x1 x2 x3 x4 x5 x6 x7 x8 x9 x10 x11 x12 v x14
        x15 x16 x17 x18 x19 x20 x21 x22 x23 x24 x25 x26 x27
  end.
Definition set_request_response_information (v : option bool) (p : Properties) : Properties :=
  match p with
  | mkProperties x1 x2 x3 x4 x5 x6 x7 x8 x9 x10 x11 x12 x13 _
        x15 x16 x17 x18 x19 x20 x21 x22 x23 x24 x25 x26 x27 =>
      mkProperties x1 x2 x3 x4 x5 x6 x7 x8 x9 x10 x11 x12 x13 v
        x15 x16 x17 x18 x19 x20 x21 x22 x23 x24 x25 x26 x27
  end.
Definition set_response_information (v : option string) (p : Properties) : Properties :=
  match p with
  | mkProperties x1 x2 x3 x4 x5 x6 x7 x8 x9 x10 x11 x12 x13 x14
        _ x16 x17 x18 x19 x20 x21 x22 x23 x24 x25 x26 x27 =>
      mkProperties x1 x2 x3 x4 x5 x6 x7 x8 x9 x10 x11 x12 x13 x14
        v x16 x17 x18 x19 x20 x21 x22 x23 x24 x25 x26 x27
  end.
Definition set_server_reference (v : option string) (p : Properties) : Properties :=
  match p with
  | mkProperties x1 x2 x3 x4 x5 x6 x7 x8 x9 x10 x11 x12 x13 x14
        x15 _ x17 x18 x19 x20 x21 x22 x23 x24 x25 x26 x27 =>
      mkProperties x1 x2 x3 x4 x5 x6 x7 x8 x9 x10 x11 x12 x13 x14
        x15 v x17 x18 x19 x20 x21 x22 x23 x24 x25 x26 x27
  end.
Definition set_reason_string (v : option string) (p : Properties) : Properties :=
  match p with
  | mkProperties x1 x2 x3 x4 x5 x6 x7 x8 x9 x10 x11 x12 x13 x14
        x15 x16 _ x18 x19 x20 x21 x22 x23 x24 x25 x26 x27 =>
      mkProperties x1 x2 x3 x4 x5 x6 x7 x8 x9 x10 x11 x12 x13 x14
        x15 x16 v x18 x19 x20 x21 x22 x23 x24 x25 x26 x27
  end.
Definition set_receive_maximum (v : option Z) (p : Properties) : Properties :=
  match p with
  | mkProperties x1 x2 x3 x4 x5 x6 x7 x8 x9 x10 x11 x12 x13 x14
        x15 x16 x17 _ x19 x20 x21 x22 x23 x24 x25 x26 x27 =>
      mkProperties x1 x2 x3 x4 x5 x6 x7 x8 x9 x10 x11 x12 x13 x14
        x15 x16 x17 v x19 x20 x21 x22 x23 x24 x25 x26 x27
  end.
Definition set_topic_alias_maximum (v : option Z) (p : Properties) : Properties :=
  match p with
  | mkProperties x1 x2 x3 x4 x5 x6 x7 x8 x9 x10 x11 x12 x13 x14
        x15 x16 x17 x18 _ x20 x21 x22 x23 x24 x25 x26 x27 =>
      mkProperties x1 x2 x3 x4 x5 x6 x7 x8 x9 x10 x11 x12 x13 x14
        x15 x16 x17 x18 v x20 x21 x22 x23 x24 x25 x26 x27
  end.
Definition set_topic_alias (v : option Z) (p : Properties) : Properties :=
  match p with
  | mkProperties x1 x2 x3 x4 x5 x6 x7 x8 x9 x10 x11 x12 x13 x14
        x15 x16 x17 x18 x19 _ x21 x22 x23 x24 x25 x26 x27 =>
      mkProperties x1 x2 x3 x4 x5 x6 x7 x8 x9 x10 x11 x12 x13 x14
        x15 x16 x17 x18 x19 v x21 x22 x23 x24 x25 x26 x27
  end.
Definition set_maximum_qos (v : option Z) (p : Properties) : Properties :=
  match p with
  | mkProperties x1 x2 x3 x4 x5 x6 x7 x8 x9 x10 x11 x12 x13 x14
        x15 x16 x17 x18 x19 x20 _ x22 x23 x24 x25 x26 x27 =>
      mkProperties x1 x2 x3 x4 x5 x6 x7 x8 x9 x10 x11 x12 x13 x14
        x15 x16 x17 x18 x19 x20 v x22 x23 x24 x25 x26 x27
  end.
Definition set_retain_available (v : option bool) (p : Properties) : Properties :=
  match p with
  | mkProperties x1 x2 x3 x4 x5 x6 x7 x8 x9 x10 x11 x12 x13 x14
        x15 x16 x17 x18 x19 x20 x21 _ x23 x24 x25 x26 x27 =>
      mkProperties x1 x2 x3 x4 x5 x6 x7 x8 x9 x10 x11 x12 x13 x14
        x15 x16 x17 x18 x19 x20 x21 v x23 x24 x25 x26 x27
  end.
Definition set_user_properties (v : list (string * string)) (p : Properties) : Properties :=
  match p with
  | mkProperties x1 x2 x3 x4 x5 x6 x7 x8 x9 x10 x11 x12 x13 x14
        x15 x16 x17 x18 x19 x20 x21 x22 _ x24 x25 x26 x27 =>
      mkProperties x1 x2 x3 x4 x5 x6 x7 x8 x9 x10 x11 x12 x13 x14
        x15 x16 x17 x18 x19 x20 x21 x22 v x24 x25 x26 x27
  end.
Definition set_maximum_packet_size (v : option Z) (p : Properties) : Properties :=
  match p with
  | mkProperties x1 x2 x3 x4 x5 x6 x7 x8 x9 x10 x11 x12 x13 x14
        x15 x16 x17 x18 x19 x20 x21 x22 x23 _ x25 x26 x27 =>
      mkProperties x1 x2 x3 x4 x5 x6 x7 x8 x9 x10 x11 x12 x13 x14
        x15 x16 x17 x18 x19 x20 x21 x22 x23 v x25 x26 x27
  end.
Definition set_wildcard_subscription_available (v : option bool) (p : Properties) : Properties :=
  match p with
  | mkProperties x1 x2 x3 x4 x5 x6 x7 x8 x9 x10 x11 x12 x13 x14
        x15 x16 x17 x18 x19 x20 x21 x22 x23 x24 _ x26 x27 =>
      mkProperties x1 x2 x3 x4 x5 x6 x7 x8 x9 x10 x11 x12 x13 x14
        x15 x16 x17 x18 x19 x20 x21 x22 x23 x24 v x26 x27
  end.
Definition set_subscription_identifier_available (v : option bool) (p : Properties) : Properties :=
  match p with
  | mkProperties x1 x2 x3 x4 x5 x6 x7 x8 x9 x10 x11 x12 x13 x14
        x15 x16 x17 x18 x19 x20 x21 x22 x23 x24 x25 _ x27 =>
      mkProperties x1 x2 x3 x4 x5 x6 x7 x8 x9 x10 x11 x12 x13 x14
        x15 x16 x17 x18 x19 x20 x21 x22 x23 x24 x25 v x27
  end.
Definition set_shared_subscription_available (v : option bool) (p : Properties) : Properties :=
  match p with
  | mkProperties x1 x2 x3 x4 x5 x6 x7 x8 x9 x10 x11 x12 x13 x14
        x15 x16 x17 x18 x19 x20 x21 x22 x23 x24 x25 x26 _ =>
      mkProperties x1 x2 x3 x4 x5 x6 x7 x8 x9 x10 x11 x12 x13 x14
        x15 x16 x17 x18 x19 x20 x21 x22 x23 x24 x25 x26 v
  end.

Record Will := mkWill {
  w_topic : string;
  w_payload : bytes;
  w_qos : Z;
  w_retain : bool;
  w_properties : Properties;
}.

Record Connect := mkConnect {
  cn_protocol_version : ProtocolVersion;
  cn_client_id : string;
  cn_username : option string;
  cn_password : option string;
  cn_keep_alive : Z;
  cn_clean_start : bool;
  cn_session_expiry_interval : option Z;
  cn_will : option Will;
  cn_properties : Properties;
}.

Record Connack := mkConnack {
  ca_protocol_version : ProtocolVersion;
  ca_session_present : bool;
  ca_reason_code : ReasonCode;
  ca_properties : Properties;
}.

Record Publish := mkPublish {
  pb_protocol_version : ProtocolVersion;
  pb_topic_name : string;
  pb_payload : bytes;
  pb_qos : Z;
  pb_retain : bool;
  pb_dup : bool;
  pb_packet_identifier : option Z;
  pb_properties : Properties;
  pb_expires_at_unix_secs : option Z;
}.

Record Ack := mkAck {
  ak_protocol_version : ProtocolVersion;
  ak_packet_identifier : Z;
  ak_reason_code : ReasonCode;
  ak_properties : Properties;
}.

Record SubscribeTopic := mkSubscribeTopic {
  st_topic_filter : string;
  st_qos : Z;
  st_no_local : bool;
  st_retain_as_published : bool;
  st_retain_handling : RetainHandling;
}.

Record Subscribe := mkSubscribe {
  sb_protocol_version : ProtocolVersion;
  sb_packet_identifier : Z;
  sb_topics : list SubscribeTopic;
  sb_properties : Properties;
}.

Record Suback := mkSuback {
  sa_protocol_version : ProtocolVersion;
  sa_packet_identifier : Z;
  sa_reason_codes : list ReasonCode;
  sa_properties : Properties;
}.

Record Unsubscribe := mkUnsubscribe {
  us_protocol_version : ProtocolVersion;
  us_packet_identifier : Z;
  us_topics : list string;
  us_properties : Properties;
}.

Record Unsuback := mkUnsuback {
  ua_protocol_version : ProtocolVersion;
  ua_packet_identifier : Z;
  ua_reason_codes : list ReasonCode;
  ua_properties : Properties;
}.

Record Disconnect := mkDisconnect {
  dc_protocol_version : ProtocolVersion;
  dc_reason_code : ReasonCode;
  dc_session_expiry_interval : option Z;
  dc_properties : Properties;
}.

Record Auth := mkAuth {
  au_reason_code : ReasonCode;
  au_properties : Properties;
}.

Inductive Packet :=
  | PConnect (p : Connect)
  | PConnack (p : Connack)
  | PPublish (p : Publish)
  | PPuback (p : Ack)
  | PPubrec (p : Ack)
  | PPubrel (p : Ack)
  | PPubcomp (p : Ack)
  | PSubscribe (p : Subscribe)
  | PSuback (p : Suback)
  | PUnsubscribe (p : Unsubscribe)
  | PUnsuback (p : Unsuback)
  | PPingreq
  | PPingresp
  | PDisconnect (p : Disconnect)
  | PAuth (p : Auth).

#[export] Instance ProtocolVersion_eq_dec : EqDecision ProtocolVersion.
Proof. solve_decision. Defined.
#[export] Instance RetainHandling_eq_dec : EqDecision RetainHandling.
Proof. solve_decision. Defined.
#[export] Instance ReasonCode_eq_dec : EqDecision ReasonCode.
Proof. solve_decision. Defined.
#[export] Instance Properties_eq_dec : EqDecision Properties.
Proof. solve_decision. Defined.
#[export] Instance Will_eq_dec : EqDecision Will.
Proof. solve_decision. Defined.
#[export] Instance Connect_eq_dec : EqDecision Connect.
Proof. solve_decision. Defined.
#[export] Instance Connack_eq_dec : EqDecision Connack.
Proof. solve_decision. Defined.
#[export] Instance Publish_eq_dec : EqDecision Publish.
Proof. solve_decision. Defined.
#[export] Instance Ack_eq_dec : EqDecision Ack.
Proof. solve_decision. Defined.
#[export] Instance SubscribeTopic_eq_dec : EqDecision SubscribeTopic.
Proof. solve_decision. Defined.
#[export] Instance Subscribe_eq_dec : EqDecision Subscribe.
Proof. solve_decision. Defined.
#[export] Instance Suback_eq_dec : EqDecision Suback.
Proof. solve_decision. Defined.
#[export] Instance Unsubscribe_eq_dec : EqDecision Unsubscribe.
Proof. solve_decision. Defined.
#[export] Instance Unsuback_eq_dec : EqDecision Unsuback.
Proof. solve_decision. Defined.
#[export] Instance Disconnect_eq_dec : EqDecision Disconnect.
Proof. solve_decision. Defined.
#[export] Instance Auth_eq_dec : EqDecision Auth.
Proof. solve_decision. Defined.
#[export] Instance Packet_eq_dec : EqDecision Packet.
Proof. solve_decision. Defined.

(** ** The methods of [Packet] *)

Definition protocol_version (packet : Packet) : option ProtocolVersion :=
  match packet with
  | PConnect p => Some (cn_protocol_version p)
  | PConnack p => Some (ca_protocol_version p)
  | PPublish p => Some (pb_protocol_version p)
  | PPuback p | PPubrec p | PPubrel p | PPubcomp p => Some (ak_protocol_version p)
  | PSubscribe p => Some (sb_protocol_version p)
  | PSuback p => Some (sa_protocol_version p)
  | PUnsubscribe p => Some (us_protocol_version p)
  | PUnsuback p => Some (ua_protocol_version p)
  | PDisconnect p => Some (dc_protocol_version p)
  | PPingreq | PPingresp | PAuth _ => None
  end.

Definition set_pb_dup (v : bool) (p : Publish) : Publish :=
  mkPublish (pb_protocol_version p) (pb_topic_name p) (pb_payload p) (pb_qos p) (pb_retain p)
    v (pb_packet_identifier p) (pb_properties p) (pb_expires_at_unix_secs p).

(** [Packet::set_dup]: only a PUBLISH has the flag. *)
Definition set_dup (dup : Z) (packet : Packet) : Packet :=
  match packet with
  | PPublish p => PPublish (set_pb_dup (negb (dup =? 0)) p)
  | _ => packet
  end.

Definition publish (packet : Packet) : option Publish :=
  match packet with PPublish p => Some p | _ => None end.

Definition set_ack_version (v : ProtocolVersion) (p : Ack) : Ack :=
  mkAck v (ak_packet_identifier p) (ak_reason_code p) (ak_properties p).

Definition set_protocol_version (v : ProtocolVersion) (packet : Packet) : Packet :=
  match packet with
  | PConnect p =>
      PConnect (mkConnect v (cn_client_id p) (cn_username p) (cn_password p) (cn_keep_alive p)
        (cn_clean_start p) (cn_session_expiry_interval p) (cn_will p) (cn_properties p))
  | PConnack p =>
      PConnack (mkConnack v (ca_session_present p) (ca_reason_code p) (ca_properties p))
  | PPublish p =>
      PPublish (mkPublish v (pb_topic_name p) (pb_payload p) (pb_qos p) (pb_retain p) (pb_dup p)
        (pb_packet_identifier p) (pb_properties p) (pb_expires_at_unix_secs p))
  | PPuback p => PPuback (set_ack_version v p)
  | PPubrec p => PPubrec (set_ack_version v p)
  | PPubrel p => PPubrel (set_ack_version v p)
  | PPubcomp p => PPubcomp (set_ack_version v p)
  | PSubscribe p =>
      PSubscribe (mkSubscribe v (sb_packet_identifier p) (sb_topics p) (sb_properties p))
  | PSuback p =>
      PSuback (mkSuback v (sa_packet_identifier p) (sa_reason_codes p) (sa_properties p))
  | PUnsubscribe p =>
      PUnsubscribe (mkUnsubscribe v (us_packet_identifier p) (us_topics p) (us_properties p))
  | PUnsuback p =>
      PUnsuback (mkUnsuback v (ua_packet_identifier p) (ua_reason_codes p) (ua_properties p))
  | PDisconnect p =>
      PDisconnect (mkDisconnect v (dc_reason_code p) (dc_session_expiry_interval p)
        (dc_properties p))
  | PPingreq | PPingresp | PAuth _ => packet
  end.

Lemma as_u8_range r : is_u8 (as_u8 r).
Proof. destruct r; unfold is_u8; simpl; lia. Qed.

#[export] Hint Resolve as_u8_range : yed.
