(* ===== verification/V5Common.v ===== *)
(** * MQTT 5 wire primitives ([mqtt/src/v5/common.rs])

    The parse errors and their messages, variable byte integers, fixed-width
    integers, binary data, strings and booleans: the parser and the encoder of
    each, what the encoder writes, that the parser reads it back, and what the
    parser accepts. *)

From S2P Require Import Prelude Utf8 Buf.

Definition MAX_VARIABLE_BYTE_INTEGER : Z := 268435455.

Inductive Mqtt5ParseError :=
  | EIncomplete (context : string)
  | EMalformedVariableByteInteger
  | EVariableByteIntegerTooLarge (value : Z)
  | EStringTooLong (length : Z)
  | EBinaryTooLong (length : Z)
  | EInvalidUtf8
  | EMalformedPacket (reason : string)
  | EUnsupportedPacketType (packet_type : Z)
  | EInvalidFixedHeaderFlags (packet_type flags : Z)
  | ERemainingLengthExceeded (remaining_length max_message_size : Z)
  | EUnknownProperty (identifier : Z)
  | EDuplicateProperty (property : string)
  | EPropertyNotAllowed (property scope : string)
  | EInvalidPropertyValue (property : string)
  | EUnknownReasonCode (reason_code : Z)
  | EReasonCodeNotAllowed (reason_code : Z) (packet_type : string).

#[export] Instance Mqtt5ParseError_eq_dec : EqDecision Mqtt5ParseError.
Proof. solve_decision. Defined.

Abbreviation result := (outcome Mqtt5ParseError).
Abbreviation encoder := (writer Mqtt5ParseError unit).

(** The error that asks for more input. *)
Definition is_incomplete (e : Mqtt5ParseError) : bool :=
  match e with EIncomplete _ => true | _ => false end.

(** ** [impl fmt::Display for Mqtt5ParseError] *)

(** Digits in a base up to 16, least significant first, as [{:x}] and [{:b}] print them. *)
Definition digit (d : Z) : string :=
  match String.get (Z.to_nat d) "0123456789abcdef" with
  | Some c => String.String c ""
  | None => ""
  end.

Fixpoint digits (fuel : nat) (base v : Z) : string :=
  match fuel with
  | O => ""
  | S fuel =>
      if (v <? base)%Z then digit v else (digits fuel base (v / base)%Z +:+ digit (v mod base)%Z)
  end%string.

(** [{v:#x}] and [{v:#06b}]; 32 digits are enough for a [u32] in any base. *)
Definition fmt_hex (v : Z) : string := ("0x" +:+ digits 32 16 v)%string.
Definition fmt_bin06 (v : Z) : string :=
  let d := digits 32 2 v in
  ("0b" +:+ String.substring (Nat.min 4 (String.length d)) 4 "0000" +:+ d)%string.

Definition display (e : Mqtt5ParseError) : string :=
  match e with
  | EIncomplete context => "incomplete MQTT 5 " +:+ context
  | EMalformedVariableByteInteger => "malformed MQTT 5 variable byte integer"
  | EVariableByteIntegerTooLarge value =>
      "MQTT 5 variable byte integer too large: " +:+ pretty value
  | EStringTooLong length => "MQTT 5 UTF-8 string too long: " +:+ pretty length
  | EBinaryTooLong length => "MQTT 5 binary data too long: " +:+ pretty length
  | EInvalidUtf8 => "invalid MQTT 5 UTF-8 string"
  | EMalformedPacket reason => "malformed MQTT 5 packet: " +:+ reason
  | EUnsupportedPacketType packet_type =>
      "unsupported MQTT 5 packet type: " +:+ pretty packet_type
  | EInvalidFixedHeaderFlags packet_type flags =>
      "invalid MQTT 5 fixed header flags " +:+ fmt_bin06 flags +:+ " for packet type "
        +:+ pretty packet_type
  | ERemainingLengthExceeded remaining_length max_message_size =>
      "MQTT 5 remaining length " +:+ pretty remaining_length
        +:+ " exceeds max message size " +:+ pretty max_message_size
  | EUnknownProperty identifier =>
      "unknown MQTT 5 property identifier: " +:+ fmt_hex identifier
  | EDuplicateProperty property => "duplicate MQTT 5 property: " +:+ property
  | EPropertyNotAllowed property scope =>
      "MQTT 5 property " +:+ property +:+ " is not allowed on " +:+ scope
  | EInvalidPropertyValue property => "invalid MQTT 5 property value: " +:+ property
  | EUnknownReasonCode reason_code =>
      "unknown MQTT 5 reason code: " +:+ fmt_hex reason_code
  | EReasonCodeNotAllowed reason_code packet_type =>
      "MQTT 5 reason code " +:+ fmt_hex reason_code +:+ " is not allowed on " +:+ packet_type
  end%string.

Example display_flags :
  display (EInvalidFixedHeaderFlags 8 1)
  = "invalid MQTT 5 fixed header flags 0b0001 for packet type 8"%string.
Proof. vm_compute. reflexivity. Qed.

(** ** Variable byte integers *)

(** The [for index in 0..4] loop: [indices] are the iterations left. *)
Fixpoint parse_variable_byte_integer_loop (indices : list nat) (input : bytes)
    (value multiplier : Z) : result (bytes * Z) :=
  match indices with
  | [] => Err EMalformedVariableByteInteger
  | i :: indices =>
      match input !! i with
      | None => Err (EIncomplete "variable byte integer")
      | Some encoded_byte =>
          summand ← mul_u32 (Z.land encoded_byte 0x7f) multiplier;
          value ← add_u32 value summand;
          if Z.land encoded_byte 0x80 =? 0
          then rest ← slice_from (i + 1) input; Ok (rest, value)
          else
            multiplier ← mul_u32 multiplier 128;
            parse_variable_byte_integer_loop indices input value multiplier
      end
  end.

Definition parse_variable_byte_integer (input : bytes) : result (bytes * Z) :=
  parse_variable_byte_integer_loop [0; 1; 2; 3]%nat input 0 1.

(** Fixed-width integers, binary data, strings, booleans. *)

Definition parse_u8 (input : bytes) (context : string) : result (bytes * Z) :=
  match input !! 0%nat with
  | None => Err (EIncomplete context)
  | Some value => rest ← slice_from 1 input; Ok (rest, value)
  end.

Definition parse_u16 (input : bytes) (context : string) : result (bytes * Z) :=
  if zlen input <? 2 then Err (EIncomplete context)
  else
    rest ← slice_from 2 input;
    b0 ← index 0 input;
    b1 ← index 1 input;
    Ok (rest, from_be_u16 b0 b1).

Definition parse_u32 (input : bytes) (context : string) : result (bytes * Z) :=
  if zlen input <? 4 then Err (EIncomplete context)
  else
    rest ← slice_from 4 input;
    b0 ← index 0 input;
    b1 ← index 1 input;
    b2 ← index 2 input;
    b3 ← index 3 input;
    Ok (rest, from_be_u32 b0 b1 b2 b3).

Definition parse_binary (input : bytes) : result (bytes * bytes) :=
  '(input, length) ← parse_u16 input "binary data length";
  if zlen input <? length then Err (EIncomplete "binary data")
  else
    rest ← slice_from (Z.to_nat length) input;
    data ← slice_to (Z.to_nat length) input;
    Ok (rest, data).

Definition parse_utf8_string (input : bytes) : result (bytes * string) :=
  '(input, data) ← parse_binary input;
  match from_utf8 data with
  | None => Err EInvalidUtf8
  | Some value => Ok (input, value)
  end.

Definition parse_boolean (input : bytes) (property : string) : result (bytes * bool) :=
  '(input, value) ← parse_u8 input property;
  if value =? 0 then Ok (input, false)
  else if value =? 1 then Ok (input, true)
  else Err (EInvalidPropertyValue property).

(** The [while value >= 128] loop of [variable_byte_integer_len]: a [u32] is
    divided at most five times. *)
Fixpoint variable_byte_integer_len_loop (fuel : nat) (value length : Z) : result Z :=
  if 128 <=? value then
    match fuel with
    | O => OutOfFuel
    | S fuel => variable_byte_integer_len_loop fuel (value / 128) (length + 1)
    end
  else Ok length.

Definition variable_byte_integer_len (value : Z) : result Z :=
  if MAX_VARIABLE_BYTE_INTEGER <? value then Err (EVariableByteIntegerTooLarge value)
  else variable_byte_integer_len_loop 5 value 1.

Section Encode.
Context {B : BytesCrate}.

(** The [loop] of [encode_variable_byte_integer]: a [u32] has at most five
    groups of seven bits, so five iterations of fuel. *)
Fixpoint encode_variable_byte_integer_loop (fuel : nat) (value : Z) : encoder :=
  match fuel with
  | O => lift OutOfFuel
  | S fuel =>
      let encoded_byte := value mod 128 in
      let value := value / 128 in
      let encoded_byte := if 0 <? value then Z.lor encoded_byte 0x80 else encoded_byte in
      put_u8 encoded_byte;;
      if value =? 0 then mret tt else encode_variable_byte_integer_loop fuel value
  end.

Definition encode_variable_byte_integer (value : Z) : encoder :=
  if MAX_VARIABLE_BYTE_INTEGER <? value
  then lift (Err (EVariableByteIntegerTooLarge value))
  else encode_variable_byte_integer_loop 5 value.

Definition encode_utf8_string (value : string) : encoder :=
  let length := zlen (as_bytes value) in
  if u16_max <? length then lift (Err (EStringTooLong length))
  else put_u16 (as_u16 length);; extend_from_slice (as_bytes value);; mret tt.

Definition encode_binary (value : bytes) : encoder :=
  let length := zlen value in
  if u16_max <? length then lift (Err (EBinaryTooLong length))
  else put_u16 (as_u16 length);; extend_from_slice value;; mret tt.

End Encode.

(** ** What the primitives do *)

(** The variable byte integer encoding of the protocol, in closed form. *)
Definition vbi_bytes (v : Z) : bytes :=
  if v <? 128 then [v]
  else if v <? 16384 then [128 + v mod 128; v / 128]
  else if v <? 2097152 then [128 + v mod 128; 128 + v / 128 mod 128; v / 16384]
  else [128 + v mod 128; 128 + v / 128 mod 128; 128 + v / 16384 mod 128; v / 2097152].

Lemma land_7f b : is_u8 b -> Z.land b 0x7f = b mod 128.
Proof. intros H. apply Z.eqb_eq, (u8_check (fun b => Z.land b 0x7f =? b mod 128)); done. Qed.

Lemma land_80 b : is_u8 b -> (Z.land b 0x80 =? 0) = (b <? 128).
Proof.
  intros H. apply Bool.eqb_prop.
  apply (u8_check (fun b => Bool.eqb (Z.land b 0x80 =? 0) (b <? 128))); done.
Qed.

Lemma lor_80 b : 0 <= b < 128 -> Z.lor b 0x80 = 128 + b.
Proof.
  intros H. apply Z.eqb_eq.
  apply (all_below_sound 128 (fun b => Z.lor b 0x80 =? 128 + b)); [done|simpl; lia].
Qed.

(** One iteration of the parser's loop. *)
Lemma parse_vbi_step i indices input value multiplier b :
  input !! i = Some b -> is_u8 b -> 0 <= value -> 1 <= multiplier ->
  value + 127 * multiplier <= u32_max -> multiplier * 128 <= u32_max ->
  parse_variable_byte_integer_loop (i :: indices) input value multiplier =
  if b <? 128 then Ok (drop (i + 1) input, value + b * multiplier)
  else parse_variable_byte_integer_loop indices input (value + (b - 128) * multiplier)
         (multiplier * 128).
Proof.
  intros Hi Hb Hv Hm H1 H2. simpl. rewrite Hi, land_7f, land_80 by done.
  pose proof (lookup_lt_Some _ _ _ Hi). pose proof (Z.mod_pos_bound b 128).
  assert (b mod 128 * multiplier <= 127 * multiplier) by nia.
  rewrite (mul_u32_ok (b mod 128)) by lia. simpl. rewrite add_u32_ok by lia. simpl.
  destruct (Z.ltb_spec b 128).
  - rewrite slice_from_ok by lia. simpl. rewrite Z.mod_small by (unfold is_u8 in Hb; lia). done.
  - rewrite mul_u32_ok by lia. simpl.
    replace (b mod 128) with (b - 128); [done|].
    unfold is_u8 in Hb. apply Z.mod_unique with 1; lia.
Qed.

(** The loop from iteration [i] on: no overflow, and it stops within its [n]
    iterations with a value below [128 ^ k] after [k] bytes. *)
Lemma parse_vbi_loop_returns n : forall i input value,
  is_bytes input -> (i + n <= 4)%nat -> 0 <= value < 128 ^ Z.of_nat i ->
  returns_with (parse_variable_byte_integer_loop (seq i n) input value (128 ^ Z.of_nat i))
    (fun '(rest, v) => exists k, (i < k <= i + n)%nat /\ (k <= length input)%nat /\ rest = drop k input /\ 0 <= v < 128 ^ Z.of_nat k).
Proof.
  induction n as [|n IH]; intros i input value Hin Hi Hv; [done|].
  cbn [seq]. destruct (input !! i) as [b|] eqn:Hb; [|simpl; by rewrite Hb].
  assert (is_u8 b) as Hb8 by (eapply Forall_lookup_1; eauto).
  assert (128 ^ Z.of_nat i <= 128 ^ 3) by (apply Z.pow_le_mono_r; lia).
  assert (128 ^ Z.of_nat (S i) = 128 ^ Z.of_nat i * 128) as HS
    by (rewrite Nat2Z.inj_succ, Z.pow_succ_r; lia).
  pose proof (lookup_lt_Some _ _ _ Hb). unfold is_u8 in Hb8.
  rewrite (parse_vbi_step i _ input value _ b) by (unfold u32_max, is_u8; lia || done).
  destruct (Z.ltb_spec b 128).
  - simpl. exists (S i). rewrite HS, Nat.add_1_r. repeat split; [lia..|nia].
  - rewrite <-HS. eapply returns_with_mono; [apply IH; [done|lia|rewrite HS; nia]|].
    intros [rest v] (k & ? & ?). exists k. split; [lia|done].
Qed.

(** The parser never panics: its 32-bit arithmetic does not overflow.  What it
    accepts took one to four bytes and is below [128 ^ k] after [k] bytes. *)
Lemma parse_vbi_returns input :
  is_bytes input ->
  returns_with (parse_variable_byte_integer input) (fun '(rest, v) =>
    exists k, (1 <= k <= 4)%nat /\ (k <= length input)%nat /\ rest = drop k input /\ 0 <= v < 128 ^ Z.of_nat k).
Proof.
  intros Hin. eapply returns_with_mono; [apply (parse_vbi_loop_returns 4 0); [done|lia..]|].
  intros [rest v] (k & ? & ?). exists k. split; [lia|done].
Qed.

Lemma vbi_bytes_length v : 0 <= v -> (1 <= length (vbi_bytes v) <= 4)%nat.
Proof. unfold vbi_bytes. repeat case_match; simpl; lia. Qed.

Lemma vbi_bytes_is_bytes v : 0 <= v <= MAX_VARIABLE_BYTE_INTEGER -> is_bytes (vbi_bytes v).
Proof.
  unfold vbi_bytes, is_bytes, MAX_VARIABLE_BYTE_INTEGER, is_u8. intros Hv.
  destruct (Z.ltb_spec v 128), (Z.ltb_spec v 16384), (Z.ltb_spec v 2097152);
    repeat constructor; Z.to_euclidean_division_equations; lia.
Qed.

(** The canonical encoding is the shortest. *)
Lemma vbi_bytes_shortest v k :
  0 <= v < 128 ^ Z.of_nat k -> (1 <= k <= 4)%nat -> (length (vbi_bytes v) <= k)%nat.
Proof.
  unfold vbi_bytes. intros Hv Hk.
  destruct k as [|[|[|[|[|k]]]]]; try lia; simpl in Hv;
    destruct (Z.ltb_spec v 128), (Z.ltb_spec v 16384), (Z.ltb_spec v 2097152); simpl; lia.
Qed.

(** One byte of the canonical form, and what follows from its continuation bit. *)
Local Ltac vbi_byte :=
  erewrite parse_vbi_step;
  [|reflexivity|unfold is_u8; Z.to_euclidean_division_equations; lia
   |unfold u32_max; Z.to_euclidean_division_equations; lia..].
Local Ltac vbi_more := rewrite (proj2 (Z.ltb_ge _ _)) by (Z.to_euclidean_division_equations; lia).
Local Ltac vbi_last := rewrite (proj2 (Z.ltb_lt _ _)) by (Z.to_euclidean_division_equations; lia).
Local Ltac vbi_value := simpl; do 2 f_equal; Z.to_euclidean_division_equations; lia.

(** Reading back the canonical encoding. *)
Lemma parse_vbi_bytes v rest :
  0 <= v <= MAX_VARIABLE_BYTE_INTEGER ->
  parse_variable_byte_integer (vbi_bytes v ++ rest) = Ok (rest, v).
Proof.
  unfold vbi_bytes, parse_variable_byte_integer, MAX_VARIABLE_BYTE_INTEGER. intros Hv.
  destruct (Z.ltb_spec v 128); [vbi_byte; vbi_last; vbi_value|].
  destruct (Z.ltb_spec v 16384); [do 2 vbi_byte; vbi_more; vbi_last; vbi_value|].
  destruct (Z.ltb_spec v 2097152); [do 3 vbi_byte; do 2 vbi_more; vbi_last; vbi_value|].
  do 4 vbi_byte; do 3 vbi_more; vbi_last; vbi_value.
Qed.

(** [reads p out v]: the parser [p] reads [v] from [out], whatever follows. *)
Definition reads {A} (p : bytes -> result (bytes * A)) (out : bytes) (v : A) : Prop :=
  forall rest, p (out ++ rest) = Ok (rest, v).

(** [parses m input Q]: the parser run [m] on [input] returns; on success it has
    consumed a prefix [pre] of the input and its value [v] has [Q v pre]. *)
Definition parses {A} (m : result (bytes * A)) (input : bytes) (Q : A -> bytes -> Prop) : Prop :=
  returns_with m (fun '(rest, v) => exists pre, input = pre ++ rest /\ Q v pre).

Lemma parses_bind {A C} (m : result (bytes * A)) k input (P : A -> bytes -> Prop)
    (Q : C -> bytes -> Prop) :
  is_bytes input ->
  parses m input P ->
  (forall rest v pre, P v pre -> is_bytes rest -> is_bytes pre ->
     parses (k (rest, v)) rest (fun c pre' => Q c (pre ++ pre'))) ->
  parses (m ≫= k) input Q.
Proof.
  intros Hin Hm Hk. unfold parses in *. eapply returns_with_bind; [exact Hm|].
  intros [rest v] (pre & -> & HP). apply is_bytes_app in Hin as [? ?].
  eapply returns_with_mono; [apply (Hk rest v pre); auto|].
  intros [rest' c] (pre' & -> & HQ). exists (pre ++ pre'). by rewrite app_assoc.
Qed.

Lemma parses_Ok {A} (v : A) input (Q : A -> bytes -> Prop) :
  Q v [] -> parses (Ok (input, v)) input Q.
Proof. intros H. by exists []. Qed.

Lemma parses_Err {A} e input (Q : A -> bytes -> Prop) : parses (Err e) input Q.
Proof. done. Qed.

Lemma parses_mono {A} (m : result (bytes * A)) input (P Q : A -> bytes -> Prop) :
  parses m input P -> (forall v pre, P v pre -> Q v pre) -> parses m input Q.
Proof.
  intros Hm H. eapply returns_with_mono; [exact Hm|].
  intros [rest v] (pre & -> & HP). eauto.
Qed.

(** A computation that reads no input, before the rest. *)
Lemma parses_lift {A C} (m : result A) (k : A -> result (bytes * C)) input P Q :
  returns_with m P -> (forall a, P a -> parses (k a) input Q) -> parses (m ≫= k) input Q.
Proof. apply returns_with_bind. Qed.

(** *** The parsers on arbitrary input *)

Lemma parse_vbi_parses input :
  is_bytes input ->
  parses (parse_variable_byte_integer input) input
    (fun v pre => 0 <= v <= MAX_VARIABLE_BYTE_INTEGER /\ pre <> [] /\
       (length (vbi_bytes v) <= length pre)%nat).
Proof.
  intros Hin. eapply returns_with_mono; [by apply parse_vbi_returns|].
  intros [rest v] (k & Hk & Hlen & -> & Hv). exists (take k input).
  rewrite take_drop. assert (length (take k input) = k) as Hl by (rewrite length_take; lia).
  assert (128 ^ Z.of_nat k <= 128 ^ 4) by (apply Z.pow_le_mono_r; lia).
  repeat split; [unfold MAX_VARIABLE_BYTE_INTEGER; lia..| |].
  - intros E. rewrite E in Hl. simpl in Hl. lia.
  - rewrite Hl. by apply vbi_bytes_shortest.
Qed.

Lemma parse_u8_parses input ctx :
  is_bytes input -> parses (parse_u8 input ctx) input (fun v pre => pre = [v] /\ is_u8 v).
Proof.
  intros Hin. destruct Hin as [|b l Hb Hl]; [done|]. unfold parse_u8. simpl.
  rewrite ?slice_from_ok by (simpl; lia). simpl. by exists [b].
Qed.

Lemma parse_u16_parses input ctx :
  is_bytes input ->
  parses (parse_u16 input ctx) input (fun v pre => is_u16 v /\ length pre = 2%nat).
Proof.
  intros Hin. unfold parse_u16. destruct (Z.ltb_spec (zlen input) 2); [done|].
  destruct Hin as [|b0 ? H0 [|b1 l H1 Hl]]; unfold zlen in *; simpl in *; try lia.
  rewrite ?slice_from_ok by (simpl; lia). simpl. exists [b0; b1]. auto with yed.
Qed.

Lemma parse_u32_parses input ctx :
  is_bytes input ->
  parses (parse_u32 input ctx) input (fun v pre => is_u32 v /\ length pre = 4%nat).
Proof.
  intros Hin. unfold parse_u32. destruct (Z.ltb_spec (zlen input) 4); [done|].
  destruct Hin as [|b0 ? H0 [|b1 ? H1 [|b2 ? H2 [|b3 l H3 Hl]]]];
    unfold zlen in *; simpl in *; try lia.
  rewrite ?slice_from_ok by (simpl; lia). simpl. exists [b0; b1; b2; b3]. auto with yed.
Qed.

Lemma parse_binary_parses input :
  is_bytes input ->
  parses (parse_binary input) input (fun data pre =>
    is_bytes data /\ zlen data <= u16_max /\ length pre = (2 + length data)%nat).
Proof.
  intros Hin. unfold parse_binary.
  eapply parses_bind; [done|by apply parse_u16_parses|].
  intros rest n pre [Hn Hpre] Hrest _. simpl.
  destruct (Z.ltb_spec (zlen rest) n) as [|Hlt]; [done|]. unfold zlen, is_u16 in *.
  rewrite slice_from_ok, slice_to_ok by lia. simpl.
  exists (take (Z.to_nat n) rest). rewrite take_drop, length_app, !length_take, Hpre.
  unfold u16_max. repeat split; [by apply is_bytes_take|lia..].
Qed.

Lemma parse_utf8_string_parses input :
  is_bytes input ->
  parses (parse_utf8_string input) input (fun s pre =>
    is_str s /\ zlen (as_bytes s) <= u16_max /\ length pre = (2 + length (as_bytes s))%nat).
Proof.
  intros Hin. unfold parse_utf8_string.
  eapply parses_bind; [done|by apply parse_binary_parses|].
  intros rest data pre (Hd & Hlen & Hpre) Hrest _. simpl.
  destruct (from_utf8 data) as [s|] eqn:E; [|done].
  apply from_utf8_Some in E as [Hs <-]; [|done].
  apply parses_Ok. by rewrite app_nil_r.
Qed.

Lemma parse_boolean_parses input ctx :
  is_bytes input ->
  parses (parse_boolean input ctx) input (fun _ pre => length pre = 1%nat).
Proof.
  intros Hin. unfold parse_boolean.
  eapply parses_bind; [done|by apply parse_u8_parses|].
  intros rest v pre [-> Hv] _ _. simpl.
  repeat case_match; try done; by apply parses_Ok.
Qed.

(** *** The parsers on what the encoders write *)

Definition binary_bytes (data : bytes) : bytes := be_u16 (zlen data) ++ data.
Definition string_bytes (s : string) : bytes := binary_bytes (as_bytes s).

Lemma reads_vbi v :
  0 <= v <= MAX_VARIABLE_BYTE_INTEGER -> reads parse_variable_byte_integer (vbi_bytes v) v.
Proof. intros Hv rest. by apply parse_vbi_bytes. Qed.

Lemma reads_u8 ctx v : reads (fun i => parse_u8 i ctx) [v] v.
Proof. intros rest. unfold parse_u8. simpl. by rewrite ?slice_from_ok by (simpl; lia). Qed.

Lemma reads_u16 ctx v : reads (fun i => parse_u16 i ctx) (be_u16 v) v.
Proof.
  intros rest. unfold parse_u16. destruct (Z.ltb_spec (zlen (be_u16 v ++ rest)) 2) as [H|H].
  { rewrite zlen_app in H. pose proof (zlen_nonneg rest).
    change (zlen (be_u16 v)) with 2 in H. lia. }
  rewrite ?slice_from_ok by (simpl; lia). simpl. by rewrite from_be_u16_be.
Qed.

Lemma reads_u32 ctx v : reads (fun i => parse_u32 i ctx) (be_u32 v) v.
Proof.
  intros rest. unfold parse_u32. destruct (Z.ltb_spec (zlen (be_u32 v ++ rest)) 4) as [H|H].
  { rewrite zlen_app in H. pose proof (zlen_nonneg rest).
    change (zlen (be_u32 v)) with 4 in H. lia. }
  rewrite ?slice_from_ok by (simpl; lia). simpl. by rewrite from_be_u32_be.
Qed.

Lemma reads_binary data : reads parse_binary (binary_bytes data) data.
Proof.
  intros rest. unfold parse_binary, binary_bytes. rewrite <-app_assoc, reads_u16. simpl.
  rewrite zlen_app. destruct (Z.ltb_spec (zlen data + zlen rest) (zlen data)) as [H|_].
  { pose proof (zlen_nonneg rest). lia. }
  by rewrite zlen_to_nat, slice_from_app, slice_to_app.
Qed.

Lemma reads_utf8_string s : is_str s -> reads parse_utf8_string (string_bytes s) s.
Proof.
  intros Hs rest. unfold parse_utf8_string, string_bytes. rewrite reads_binary. simpl.
  by rewrite from_utf8_as_bytes.
Qed.

Lemma reads_boolean ctx (v : bool) : reads (fun i => parse_boolean i ctx) [Z.b2z v] v.
Proof. intros rest. unfold parse_boolean. rewrite reads_u8. by destruct v. Qed.

Lemma length_string_bytes s : length (string_bytes s) = (2 + length (as_bytes s))%nat.
Proof. done. Qed.

Lemma string_bytes_is_bytes s : zlen (as_bytes s) <= u16_max -> is_bytes (string_bytes s).
Proof.
  intros H. apply is_bytes_app. split; [|by auto with yed].
  apply be_u16_bytes. pose proof (zlen_nonneg (as_bytes s)). unfold is_u16, u16_max in *. lia.
Qed.

(** *** The encoders *)

Section EncodeSpec.
Context {B : BytesCrate} {BS : BytesCrateSpec B}.

(** The last iteration of the loop, and one that continues. *)
Lemma wp_vbi_loop_last fuel v R :
  0 <= v < 128 ->
  wp (encode_variable_byte_integer_loop (S fuel) v) (fun _ out => out = [v]) R.
Proof.
  intros Hv. simpl. rewrite Z.div_small, Z.mod_small by lia. simpl.
  wp_step. by apply wp_ret.
Qed.

Lemma wp_vbi_loop_more fuel v o R :
  128 <= v ->
  wp (encode_variable_byte_integer_loop fuel (v / 128)) (fun _ out => out = o) R ->
  wp (encode_variable_byte_integer_loop (S fuel) v) (fun _ out => out = (128 + v mod 128) :: o) R.
Proof.
  intros Hv Hw. cbn [encode_variable_byte_integer_loop]. pose proof (Z.mod_pos_bound v 128).
  assert (0 < v / 128) by (apply Z.div_str_pos; lia).
  rewrite (proj2 (Z.ltb_lt _ _)), (proj2 (Z.eqb_neq _ _)), lor_80 by lia.
  wp_step. eapply wp_mono; [exact Hw|by intros _ ? ->|done].
Qed.

Local Ltac put_more :=
  apply wp_vbi_loop_more; [Z.to_euclidean_division_equations; lia|].
Local Ltac put_last := apply wp_vbi_loop_last; Z.to_euclidean_division_equations; lia.

(** The loop writes the closed form. *)
Lemma wp_encode_vbi_loop v R :
  0 <= v <= MAX_VARIABLE_BYTE_INTEGER ->
  wp (encode_variable_byte_integer_loop 5 v) (fun _ out => out = vbi_bytes v) R.
Proof.
  unfold MAX_VARIABLE_BYTE_INTEGER, vbi_bytes. intros Hv.
  assert (v / 16384 = v / 128 / 128) as E2 by (by rewrite Z.div_div by lia).
  assert (v / 2097152 = v / 128 / 128 / 128) as E3 by (by rewrite !Z.div_div by lia).
  rewrite E2, E3. clear E2 E3.
  repeat case_match; [|put_more|do 2 put_more|do 3 put_more]; put_last.
Qed.

Lemma wp_encode_vbi v :
  0 <= v ->
  wp (encode_variable_byte_integer v)
    (fun _ out => out = vbi_bytes v /\ v <= MAX_VARIABLE_BYTE_INTEGER)
    (fun e => e = EVariableByteIntegerTooLarge v /\ MAX_VARIABLE_BYTE_INTEGER < v).
Proof.
  intros Hv. unfold encode_variable_byte_integer.
  destruct (Z.ltb_spec MAX_VARIABLE_BYTE_INTEGER v); [by apply wp_lift|].
  eapply wp_mono; [apply (wp_encode_vbi_loop v (fun _ => False)); lia|naive_solver..].
Qed.

Lemma wp_encode_utf8_string s :
  wp (encode_utf8_string s)
    (fun _ out => out = string_bytes s /\ zlen (as_bytes s) <= u16_max)
    (fun e => e = EStringTooLong (zlen (as_bytes s)) /\ u16_max < zlen (as_bytes s)).
Proof.
  unfold encode_utf8_string. pose proof (zlen_nonneg (as_bytes s)).
  destruct (Z.ltb_spec u16_max (zlen (as_bytes s))); [by apply wp_lift|].
  do 2 wp_step. apply wp_ret. rewrite app_nil_r. unfold string_bytes, binary_bytes, as_u16.
  unfold u16_max in *. by rewrite Z.mod_small by lia.
Qed.

Lemma wp_encode_binary data :
  wp (encode_binary data)
    (fun _ out => out = binary_bytes data /\ zlen data <= u16_max)
    (fun e => e = EBinaryTooLong (zlen data) /\ u16_max < zlen data).
Proof.
  unfold encode_binary. pose proof (zlen_nonneg data).
  destruct (Z.ltb_spec u16_max (zlen data)); [by apply wp_lift|].
  do 2 wp_step. apply wp_ret. rewrite app_nil_r. unfold binary_bytes, as_u16.
  unfold u16_max in *. by rewrite Z.mod_small by lia.
Qed.

Lemma writes_vbi v :
  0 <= v ->
  writes (encode_variable_byte_integer v) (v <=? MAX_VARIABLE_BYTE_INTEGER) (vbi_bytes v).
Proof.
  intros Hv. eapply wp_mono; [by apply wp_encode_vbi| |].
  - intros _ out [-> ?]. by rewrite (proj2 (Z.leb_le _ _)).
  - intros e [_ ?]. by apply Z.leb_gt.
Qed.

Lemma writes_utf8_string s :
  writes (encode_utf8_string s) (zlen (as_bytes s) <=? u16_max) (string_bytes s).
Proof.
  eapply wp_mono; [apply wp_encode_utf8_string| |].
  - intros _ out [-> ?]. by rewrite (proj2 (Z.leb_le _ _)).
  - intros e [_ ?]. by apply Z.leb_gt.
Qed.

Lemma writes_binary data :
  writes (encode_binary data) (zlen data <=? u16_max) (binary_bytes data).
Proof.
  eapply wp_mono; [apply wp_encode_binary| |].
  - intros _ out [-> ?]. by rewrite (proj2 (Z.leb_le _ _)).
  - intros e [_ ?]. by apply Z.leb_gt.
Qed.

End EncodeSpec.
#[export] Hint Resolve writes_vbi writes_utf8_string writes_binary : wp.

(** [variable_byte_integer_len] is the length of the encoding. *)
Lemma vbi_len_spec v :
  0 <= v ->
  variable_byte_integer_len v =
    if MAX_VARIABLE_BYTE_INTEGER <? v then Err (EVariableByteIntegerTooLarge v)
    else Ok (zlen (vbi_bytes v)).
Proof.
  intros Hv. unfold variable_byte_integer_len, MAX_VARIABLE_BYTE_INTEGER, vbi_bytes.
  destruct (Z.ltb_spec 268435455 v); [done|].
  cbn [variable_byte_integer_len_loop].
  repeat match goal with
  | |- context [128 <=? ?x] => destruct (Z.leb_spec 128 x)
  | |- context [v <? ?x] => destruct (Z.ltb_spec v x)
  end; try done; exfalso; Z.to_euclidean_division_equations; lia.
Qed.

#[export] Hint Resolve reads_u8 reads_u16 reads_u32 reads_binary reads_utf8_string
  reads_boolean reads_vbi : yed.

(** Encoded values stay folded under [simpl]. *)
#[global] Arguments be_u16 v : simpl never.
#[global] Arguments be_u32 v : simpl never.
#[global] Arguments vbi_bytes v : simpl never.
#[global] Arguments binary_bytes data : simpl never.
#[global] Arguments string_bytes s : simpl never.
