(* ===== verification/V5FixedHeader.v ===== *)
(** * MQTT 5 fixed header ([mqtt/src/v5/fixed_header.rs])

    The control packet types, the flag rules, the fixed header's parser and
    encoder, and that the parser reads back what the encoder writes. *)

From S2P Require Import Prelude Buf V5Common.

Inductive ControlPacketType :=
  | CptConnect | CptConnack | CptPublish | CptPuback | CptPubrec | CptPubrel | CptPubcomp
  | CptSubscribe | CptSuback | CptUnsubscribe | CptUnsuback | CptPingreq | CptPingresp
  | CptDisconnect | CptAuth.

#[export] Instance ControlPacketType_eq_dec : EqDecision ControlPacketType.
Proof. solve_decision. Defined.

(** [ControlPacketType::as_u8]: the discriminants. *)
Definition as_u8 (t : ControlPacketType) : Z :=
  match t with
  | CptConnect => 1 | CptConnack => 2 | CptPublish => 3 | CptPuback => 4 | CptPubrec => 5
  | CptPubrel => 6 | CptPubcomp => 7 | CptSubscribe => 8 | CptSuback => 9
  | CptUnsubscribe => 10 | CptUnsuback => 11 | CptPingreq => 12 | CptPingresp => 13
  | CptDisconnect => 14 | CptAuth => 15
  end.

Definition name (t : ControlPacketType) : string :=
  match t with
  | CptConnect => "CONNECT" | CptConnack => "CONNACK" | CptPublish => "PUBLISH"
  | CptPuback => "PUBACK" | CptPubrec => "PUBREC" | CptPubrel => "PUBREL"
  | CptPubcomp => "PUBCOMP" | CptSubscribe => "SUBSCRIBE" | CptSuback => "SUBACK"
  | CptUnsubscribe => "UNSUBSCRIBE" | CptUnsuback => "UNSUBACK" | CptPingreq => "PINGREQ"
  | CptPingresp => "PINGRESP" | CptDisconnect => "DISCONNECT" | CptAuth => "AUTH"
  end.

(** [ControlPacketType::try_from]. *)
Definition try_from (value : Z) : result ControlPacketType :=
  match value with
  | 1 => Ok CptConnect
  | 2 => Ok CptConnack
  | 3 => Ok CptPublish
  | 4 => Ok CptPuback
  | 5 => Ok CptPubrec
  | 6 => Ok CptPubrel
  | 7 => Ok CptPubcomp
  | 8 => Ok CptSubscribe
  | 9 => Ok CptSuback
  | 10 => Ok CptUnsubscribe
  | 11 => Ok CptUnsuback
  | 12 => Ok CptPingreq
  | 13 => Ok CptPingresp
  | 14 => Ok CptDisconnect
  | 15 => Ok CptAuth
  | _ => Err (EUnsupportedPacketType value)
  end.

Record FixedHeader := mkFixedHeader {
  fh_packet_type : ControlPacketType;
  fh_flags : Z;
  fh_dup : bool;
  fh_qos : Z;
  fh_retain : bool;
  fh_remaining_length : Z;
}.

Definition validate_flags (packet_type : ControlPacketType) (flags : Z) : result unit :=
  let valid :=
    match packet_type with
    | CptPublish => negb (Z.shiftr (Z.land flags 0x06) 1 =? 0x03)
    | CptPubrel | CptSubscribe | CptUnsubscribe => flags =? 0x02
    | _ => flags =? 0
    end in
  if valid then Ok tt else Err (EInvalidFixedHeaderFlags (as_u8 packet_type) flags).

(** The header both [FixedHeader::new] and [parse] build from type, flags and length. *)
Definition header_of (packet_type : ControlPacketType) (flags remaining_length : Z)
    : FixedHeader :=
  mkFixedHeader packet_type flags (negb (Z.land flags 0x08 =? 0))
    (Z.shiftr (Z.land flags 0x06) 1) (negb (Z.land flags 0x01 =? 0)) remaining_length.

(** [FixedHeader::new]. *)
Definition new (packet_type : ControlPacketType) (flags remaining_length : Z)
    : result FixedHeader :=
  validate_flags packet_type flags;;
  Ok (header_of packet_type flags remaining_length).

Definition parse (input : bytes) (max_message_size : Z) : result (bytes * FixedHeader) :=
  match input !! 0%nat with
  | None => Err (EIncomplete "fixed header")
  | Some first_byte =>
      packet_type ← try_from (Z.shiftr first_byte 4);
      let flags := Z.land first_byte 0x0f in
      validate_flags packet_type flags;;
      tail ← slice_from 1 input;
      '(input, remaining_length) ← parse_variable_byte_integer tail;
      if max_message_size <? remaining_length
      then Err (ERemainingLengthExceeded remaining_length max_message_size)
      else Ok (input, header_of packet_type flags remaining_length)
  end.

Section Encode.
Context {B : BytesCrate}.

(** [FixedHeader::encode]. *)
Definition encode (h : FixedHeader) : encoder :=
  lift (validate_flags (fh_packet_type h) (fh_flags h));;
  put_u8 (Z.lor (Z.shiftl (as_u8 (fh_packet_type h)) 4) (Z.land (fh_flags h) 0x0f));;
  encode_variable_byte_integer (fh_remaining_length h).

(** How every packet encoder of [v5] ends: a fixed header for the body's length
    ([body.len().try_into()] to [u32]), then the body. *)
Definition encode_with_body (packet_type : ControlPacketType) (flags : Z) (body : BytesMut)
    : encoder :=
  let len := zlen (bm_slice body) in
  remaining_length ← lift (if len <=? u32_max then Ok len
                           else Err (EVariableByteIntegerTooLarge (as_u32 len)));
  fixed_header ← lift (new packet_type flags remaining_length);
  encode fixed_header;;
  extend_from_slice (bm_slice body);;
  mret tt.

End Encode.

(** ** What the header codec does *)

(** The flags a packet type admits. *)
Definition flags_ok (t : ControlPacketType) (flags : Z) : Prop :=
  0 <= flags < 16 /\ validate_flags t flags = Ok tt.

Definition first_byte (t : ControlPacketType) (flags : Z) : Z := as_u8 t * 16 + flags.

Lemma validate_flags_returns t flags : returns (validate_flags t flags).
Proof. unfold validate_flags. by repeat case_match. Qed.

Lemma try_from_as_u8 t : try_from (as_u8 t) = Ok t.
Proof. by destruct t. Qed.

Lemma try_from_Ok z t : try_from z = Ok t -> z = as_u8 t.
Proof. unfold try_from. repeat case_match; try done; intros [= <-]; done. Qed.

Lemma try_from_returns z : returns (try_from z).
Proof. unfold try_from. by repeat case_match. Qed.

(** The two halves of a first byte. *)
Lemma first_byte_spec t flags :
  0 <= flags < 16 ->
  Z.lor (Z.shiftl (as_u8 t) 4) (Z.land flags 0x0f) = first_byte t flags /\
  Z.shiftr (first_byte t flags) 4 = as_u8 t /\ Z.land (first_byte t flags) 0x0f = flags /\
  is_u8 (first_byte t flags).
Proof.
  intros Hf.
  pose proof (all_below_sound 16
    (fun f => (Z.lor (Z.shiftl (as_u8 t) 4) (Z.land f 0x0f) =? first_byte t f)
     && (Z.shiftr (first_byte t f) 4 =? as_u8 t)
     && (Z.land (first_byte t f) 0x0f =? f)
     && (0 <=? first_byte t f) && (first_byte t f <=? 255))
    ltac:(by destruct t) flags Hf) as H.
  rewrite !andb_true_iff, !Z.eqb_eq, !Z.leb_le in H. unfold is_u8. tauto.
Qed.

(** A first byte splits into a type and flags below 16. *)
Lemma first_byte_split b t :
  is_u8 b -> Z.shiftr b 4 = as_u8 t ->
  0 <= Z.land b 0x0f < 16 /\ b = first_byte t (Z.land b 0x0f).
Proof.
  intros Hb Ht. unfold first_byte. rewrite <-Ht. unfold is_u8 in Hb.
  pose proof (u8_check (fun b => (b =? Z.shiftr b 4 * 16 + Z.land b 0x0f)
    && (0 <=? Z.land b 0x0f) && (Z.land b 0x0f <? 16)) b eq_refl Hb) as H.
  rewrite !andb_true_iff, Z.eqb_eq, Z.leb_le, Z.ltb_lt in H. lia.
Qed.

Lemma reads_header t flags len max :
  flags_ok t flags -> 0 <= len <= MAX_VARIABLE_BYTE_INTEGER -> len <= max ->
  reads (fun i => parse i max) (first_byte t flags :: vbi_bytes len) (header_of t flags len).
Proof.
  intros [Hf Hv] Hl Hmax rest. unfold parse. simpl.
  destruct (first_byte_spec t flags Hf) as (_ & -> & -> & _).
  rewrite try_from_as_u8. simpl. rewrite Hv. simpl.
  rewrite ?slice_from_ok by (simpl; lia). simpl. rewrite ?drop_0, parse_vbi_bytes by done. simpl.
  by rewrite (proj2 (Z.ltb_ge _ _)).
Qed.

(** On any input the parser returns; what it accepts has admissible flags, a
    length within the limit, and starts with the type's byte. *)
Lemma parse_header_parses input max :
  is_bytes input ->
  parses (parse input max) input (fun h pre =>
    exists t flags len, h = header_of t flags len /\ flags_ok t flags /\
      0 <= len <= MAX_VARIABLE_BYTE_INTEGER /\ len <= max /\
      (length (vbi_bytes len) < length pre)%nat).
Proof.
  intros Hin. destruct Hin as [|b l Hb Hl]; [done|]. unfold parse. simpl.
  destruct (try_from (Z.shiftr b 4)) as [t|e| |] eqn:Ht; simpl; try done.
  2, 3: by pose proof (try_from_returns (Z.shiftr b 4)) as H; rewrite Ht in H.
  apply try_from_Ok in Ht. destruct (first_byte_split b t Hb Ht) as [Hf Hbe].
  destruct (validate_flags t (Z.land b 15)) as [[]|e| |] eqn:Hv; simpl; try done.
  2, 3: by pose proof (validate_flags_returns t (Z.land b 15)) as H; rewrite Hv in H.
  rewrite ?slice_from_ok by (simpl; lia). simpl. rewrite ?drop_0.
  assert (parses (parse_variable_byte_integer l) (b :: l) (fun v pre =>
    0 <= v <= MAX_VARIABLE_BYTE_INTEGER /\ (length (vbi_bytes v) < length pre)%nat)) as Hp.
  { eapply returns_with_mono; [apply (parse_vbi_parses l Hl)|].
    intros [rest v] (pre & -> & ? & ? & ?). exists (b :: pre). simpl. split; [done|lia]. }
  eapply parses_bind; [by constructor|exact Hp|].
  intros rest len pre [? ?] _ _. simpl. destruct (Z.ltb_spec max len); [done|].
  apply parses_Ok. rewrite app_nil_r. exists t, (Z.land b 15), len.
  repeat split; try done; lia.
Qed.

Section EncodeSpec.
Context {B : BytesCrate} {BS : BytesCrateSpec B}.

(** A body at most [MAX_VARIABLE_BYTE_INTEGER] long is framed; a longer one is
    refused. *)
Lemma wp_encode_with_body t flags body :
  flags_ok t flags ->
  wp (encode_with_body t flags body)
    (fun _ out => zlen (bm_slice body) <= MAX_VARIABLE_BYTE_INTEGER /\
       out = first_byte t flags :: vbi_bytes (zlen (bm_slice body)) ++ bm_slice body)
    (fun e => MAX_VARIABLE_BYTE_INTEGER < zlen (bm_slice body) /\
       e = EVariableByteIntegerTooLarge (as_u32 (zlen (bm_slice body)))).
Proof.
  intros [Hf Hv]. unfold encode_with_body. pose proof (zlen_nonneg (bm_slice body)) as Hn.
  set (len := zlen (bm_slice body)) in *.
  destruct (Z.leb_spec len u32_max) as [Hle|Hgt].
  2: { intros b. simpl. unfold u32_max, MAX_VARIABLE_BYTE_INTEGER in *. split; [lia|done]. }
  eapply wp_bind; [apply (wp_lift _ (fun r o => r = len /\ o = [])); done|].
  intros ? ? [-> ->]. unfold new. rewrite Hv.
  eapply wp_bind; [apply (wp_lift _ (fun r o => r = header_of t flags len /\ o = [])); done|].
  intros ? ? [-> ->]. unfold encode. simpl fh_packet_type. simpl fh_flags. rewrite Hv.
  eapply (wp_bind _ _ (fun _ o => o = first_byte t flags :: vbi_bytes len
                                /\ len <= MAX_VARIABLE_BYTE_INTEGER)).
  - eapply wp_bind; [apply (wp_lift _ (fun _ o => o = [])); done|]. intros ? ? ->.
    wp_step. destruct (first_byte_spec t flags Hf) as (-> & _).
    eapply wp_mono; [by apply wp_encode_vbi| |].
    + by intros _ out [-> ?].
    + intros e [-> ?]. simpl. split; [done|]. unfold as_u32. by rewrite Z.mod_small by
        (unfold u32_max in Hle; simpl in *; lia).
  - intros _ ? [-> ?]. wp_step. apply wp_ret. rewrite app_nil_r. by split.
Qed.

(** A whole frame: fixed header, length, body. *)
Definition frame (t : ControlPacketType) (flags : Z) (body : bytes) : bytes :=
  first_byte t flags :: vbi_bytes (zlen body) ++ body.

(** A packet encoder: fill a local body, then frame it. *)
Lemma writes_frame t flags w ok body :
  flags_ok t flags ->
  writes w ok body ->
  writes (lift (with_new_buffer w) ≫= encode_with_body t flags)
    (ok && (zlen body <=? MAX_VARIABLE_BYTE_INTEGER)) (frame t flags body).
Proof.
  intros Hf Hw. eapply writes_local; [exact Hw|]. intros b Hb _.
  eapply wp_mono; [by apply wp_encode_with_body| |].
  - rewrite Hb. intros _ out [? ->]. by rewrite (proj2 (Z.leb_le _ _)).
  - rewrite Hb. intros e [? _]. by apply Z.leb_gt.
Qed.

End EncodeSpec.
