(* ===== verification/V5ReasonCode.v ===== *)
(** * MQTT 5 reason codes on the wire ([mqtt/src/v5/reason_code.rs]) *)

From S2P Require Import Prelude Packet V5Common V5FixedHeader.

Definition decode (value : Z) : result ReasonCode :=
  match value with
  | 0x00 => Ok RcSuccess
  | 0x01 => Ok RcGrantedQos1
  | 0x02 => Ok RcGrantedQos2
  | 0x10 => Ok RcNoMatchingSubscribers
  | 0x11 => Ok RcNoSubscriptionExisted
  | 0x18 => Ok RcContinueAuthentication
  | 0x19 => Ok RcReAuthenticate
  | 0x80 => Ok RcUnspecifiedError
  | 0x81 => Ok RcMalformedPacket
  | 0x82 => Ok RcProtocolError
  | 0x83 => Ok RcImplementationSpecificError
  | 0x84 => Ok RcUnsupportedProtocolVersion
  | 0x85 => Ok RcClientIdentifierNotValid
  | 0x86 => Ok RcBadUserNameOrPassword
  | 0x87 => Ok RcNotAuthorized
  | 0x88 => Ok RcServerUnavailable
  | 0x8c => Ok RcBadAuthenticationMethod
  | 0x8f => Ok RcTopicFilterInvalid
  | 0x90 => Ok RcTopicNameInvalid
  | 0x91 => Ok RcPacketIdentifierInUse
  | 0x92 => Ok RcPacketIdentifierNotFound
  | 0x95 => Ok RcPacketTooLarge
  | 0x97 => Ok RcQuotaExceeded
  | 0x99 => Ok RcPayloadFormatInvalid
  | 0x9a => Ok RcRetainNotSupported
  | 0x9b => Ok RcQosNotSupported
  | 0x9e => Ok RcSharedSubscriptionsNotSupported
  | 0xa1 => Ok RcSubscriptionIdentifiersNotSupported
  | 0xa2 => Ok RcWildcardSubscriptionsNotSupported
  | other => Err (EUnknownReasonCode other)
  end.

(** [matches!(value, ..)] with inclusive ranges [(lo, hi)]. *)
Definition in_ranges (ranges : list (Z * Z)) (value : Z) : bool :=
  existsb (fun '(lo, hi) => (lo <=? value) && (value <=? hi)) ranges.
Definition one (v : Z) : Z * Z := (v, v).

Definition validate_for_packet (reason_code : ReasonCode) (packet_type : ControlPacketType)
    : result unit :=
  let value := Packet.as_u8 reason_code in
  let allowed :=
    match packet_type with
    | CptConnack =>
        in_ranges [one 0x00; (0x80, 0x88); one 0x8c; one 0x90; one 0x95; one 0x97;
                   (0x99, 0x9b)] value
    | CptPuback | CptPubrec =>
        in_ranges (map one [0x00; 0x10; 0x80; 0x83; 0x87; 0x90; 0x91; 0x97; 0x99]) value
    | CptPubrel | CptPubcomp => in_ranges [one 0x00; one 0x92] value
    | CptSuback =>
        in_ranges ((0x00, 0x02)
          :: map one [0x80; 0x83; 0x87; 0x8f; 0x91; 0x97; 0x9e; 0xa1; 0xa2]) value
    | CptUnsuback =>
        in_ranges (map one [0x00; 0x11; 0x80; 0x83; 0x87; 0x8f; 0x91]) value
    | CptDisconnect =>
        in_ranges [one 0x00; (0x80, 0x83); one 0x87; one 0x8c; one 0x8f; one 0x90; one 0x95;
                   one 0x97; (0x99, 0x9b); one 0x9e; one 0xa1; one 0xa2] value
    | CptAuth => in_ranges (map one [0x00; 0x18; 0x19]) value
    | _ => true
    end in
  if allowed then Ok tt else Err (EReasonCodeNotAllowed value (name packet_type)).

Definition decode_for_packet (value : Z) (packet_type : ControlPacketType)
    : result ReasonCode :=
  reason_code ← decode value;
  validate_for_packet reason_code packet_type;;
  Ok reason_code.

Definition encode (reason_code : ReasonCode) : Z := Packet.as_u8 reason_code.

(** ** What the codec does *)

(** Three reason codes share the byte 0: [decode] yields [Success]. *)
Definition canonical_reason (r : ReasonCode) : ReasonCode :=
  match r with RcGrantedQos0 | RcNormalDisconnection => RcSuccess | _ => r end.

Lemma decode_encode r : decode (encode r) = Ok (canonical_reason r).
Proof. by destruct r. Qed.

Lemma decode_Ok v r : decode v = Ok r -> encode r = v /\ canonical_reason r = r.
Proof. unfold decode. repeat case_match; try done; intros [= <-]; done. Qed.

Lemma decode_returns v : returns (decode v).
Proof. unfold decode. by repeat case_match. Qed.

Lemma validate_for_packet_returns r t : returns (validate_for_packet r t).
Proof. unfold validate_for_packet. by repeat case_match. Qed.

Lemma validate_canonical r t :
  validate_for_packet (canonical_reason r) t = validate_for_packet r t.
Proof. by destruct r. Qed.

(** Reading back an admissible reason code. *)
Lemma decode_for_packet_encode r t :
  validate_for_packet r t = Ok tt ->
  decode_for_packet (encode r) t = Ok (canonical_reason r).
Proof.
  intros H. unfold decode_for_packet. rewrite decode_encode. simpl.
  by rewrite validate_canonical, H.
Qed.

Lemma decode_for_packet_returns v t :
  returns_with (decode_for_packet v t) (fun r =>
    encode r = v /\ canonical_reason r = r /\ validate_for_packet r t = Ok tt).
Proof.
  unfold decode_for_packet. pose proof (decode_returns v).
  destruct (decode v) as [r|e| |] eqn:E; try done. simpl.
  pose proof (validate_for_packet_returns r t).
  destruct (validate_for_packet r t) as [[]|e| |] eqn:E2; try done. simpl.
  by apply decode_Ok in E as [? ?].
Qed.
