(* ===== verification/V5Properties.v ===== *)
(** * MQTT 5 properties ([mqtt/src/v5/properties.rs])

    The property identifiers, the scopes they are allowed in, the property
    list's parser and encoder. *)

From S2P Require Import Prelude Utf8 Buf Packet V5Common.

Inductive PropertyScope :=
  | ScConnect | ScConnack | ScPublish | ScWill | ScPuback | ScPubrec | ScPubrel | ScPubcomp
  | ScSubscribe | ScSuback | ScUnsubscribe | ScUnsuback | ScDisconnect | ScAuth.

(** [PropertyScope::name]. *)
Definition scope_name (scope : PropertyScope) : string :=
  match scope with
  | ScConnect => "CONNECT" | ScConnack => "CONNACK" | ScPublish => "PUBLISH"
  | ScWill => "Will Properties" | ScPuback => "PUBACK" | ScPubrec => "PUBREC"
  | ScPubrel => "PUBREL" | ScPubcomp => "PUBCOMP" | ScSubscribe => "SUBSCRIBE"
  | ScSuback => "SUBACK" | ScUnsubscribe => "UNSUBSCRIBE" | ScUnsuback => "UNSUBACK"
  | ScDisconnect => "DISCONNECT" | ScAuth => "AUTH"
  end.

Inductive PropertyIdentifier :=
  | PidPayloadFormatIndicator | PidMessageExpiryInterval | PidContentType | PidResponseTopic
  | PidCorrelationData | PidSubscriptionIdentifier | PidSessionExpiryInterval
  | PidAssignedClientIdentifier | PidServerKeepAlive | PidAuthenticationMethod
  | PidAuthenticationData | PidRequestProblemInformation | PidWillDelayInterval
  | PidRequestResponseInformation | PidResponseInformation | PidServerReference
  | PidReasonString | PidReceiveMaximum | PidTopicAliasMaximum | PidTopicAlias | PidMaximumQos
  | PidRetainAvailable | PidUserProperty | PidMaximumPacketSize
  | PidWildcardSubscriptionAvailable | PidSubscriptionIdentifierAvailable
  | PidSharedSubscriptionAvailable.

Definition from_u32 (value : Z) : result PropertyIdentifier :=
  match value with
  | 0x01 => Ok PidPayloadFormatIndicator
  | 0x02 => Ok PidMessageExpiryInterval
  | 0x03 => Ok PidContentType
  | 0x08 => Ok PidResponseTopic
  | 0x09 => Ok PidCorrelationData
  | 0x0b => Ok PidSubscriptionIdentifier
  | 0x11 => Ok PidSessionExpiryInterval
  | 0x12 => Ok PidAssignedClientIdentifier
  | 0x13 => Ok PidServerKeepAlive
  | 0x15 => Ok PidAuthenticationMethod
  | 0x16 => Ok PidAuthenticationData
  | 0x17 => Ok PidRequestProblemInformation
  | 0x18 => Ok PidWillDelayInterval
  | 0x19 => Ok PidRequestResponseInformation
  | 0x1a => Ok PidResponseInformation
  | 0x1c => Ok PidServerReference
  | 0x1f => Ok PidReasonString
  | 0x21 => Ok PidReceiveMaximum
  | 0x22 => Ok PidTopicAliasMaximum
  | 0x23 => Ok PidTopicAlias
  | 0x24 => Ok PidMaximumQos
  | 0x25 => Ok PidRetainAvailable
  | 0x26 => Ok PidUserProperty
  | 0x27 => Ok PidMaximumPacketSize
  | 0x28 => Ok PidWildcardSubscriptionAvailable
  | 0x29 => Ok PidSubscriptionIdentifierAvailable
  | 0x2a => Ok PidSharedSubscriptionAvailable
  | other => Err (EUnknownProperty other)
  end.

Definition as_u32 (identifier : PropertyIdentifier) : Z :=
  match identifier with
  | PidPayloadFormatIndicator => 0x01
  | PidMessageExpiryInterval => 0x02
  | PidContentType => 0x03
  | PidResponseTopic => 0x08
  | PidCorrelationData => 0x09
  | PidSubscriptionIdentifier => 0x0b
  | PidSessionExpiryInterval => 0x11
  | PidAssignedClientIdentifier => 0x12
  | PidServerKeepAlive => 0x13
  | PidAuthenticationMethod => 0x15
  | PidAuthenticationData => 0x16
  | PidRequestProblemInformation => 0x17
  | PidWillDelayInterval => 0x18
  | PidRequestResponseInformation => 0x19
  | PidResponseInformation => 0x1a
  | PidServerReference => 0x1c
  | PidReasonString => 0x1f
  | PidReceiveMaximum => 0x21
  | PidTopicAliasMaximum => 0x22
  | PidTopicAlias => 0x23
  | PidMaximumQos => 0x24
  | PidRetainAvailable => 0x25
  | PidUserProperty => 0x26
  | PidMaximumPacketSize => 0x27
  | PidWildcardSubscriptionAvailable => 0x28
  | PidSubscriptionIdentifierAvailable => 0x29
  | PidSharedSubscriptionAvailable => 0x2a
  end.

Definition name (identifier : PropertyIdentifier) : string :=
  match identifier with
  | PidPayloadFormatIndicator => "payload_format_indicator"
  | PidMessageExpiryInterval => "message_expiry_interval"
  | PidContentType => "content_type"
  | PidResponseTopic => "response_topic"
  | PidCorrelationData => "correlation_data"
  | PidSubscriptionIdentifier => "subscription_identifier"
  | PidSessionExpiryInterval => "session_expiry_interval"
  | PidAssignedClientIdentifier => "assigned_client_identifier"
  | PidServerKeepAlive => "server_keep_alive"
  | PidAuthenticationMethod => "authentication_method"
  | PidAuthenticationData => "authentication_data"
  | PidRequestProblemInformation => "request_problem_information"
  | PidWillDelayInterval => "will_delay_interval"
  | PidRequestResponseInformation => "request_response_information"
  | PidResponseInformation => "response_information"
  | PidServerReference => "server_reference"
  | PidReasonString => "reason_string"
  | PidReceiveMaximum => "receive_maximum"
  | PidTopicAliasMaximum => "topic_alias_maximum"
  | PidTopicAlias => "topic_alias"
  | PidMaximumQos => "maximum_qos"
  | PidRetainAvailable => "retain_available"
  | PidUserProperty => "user_property"
  | PidMaximumPacketSize => "maximum_packet_size"
  | PidWildcardSubscriptionAvailable => "wildcard_subscription_available"
  | PidSubscriptionIdentifierAvailable => "subscription_identifier_available"
  | PidSharedSubscriptionAvailable => "shared_subscription_available"
  end.

(** [PropertyIdentifier::allowed_on]. *)
Definition allowed_on (identifier : PropertyIdentifier) (scope : PropertyScope) : bool :=
  match scope with
  | ScConnect =>
      match identifier with
      | PidSessionExpiryInterval | PidReceiveMaximum | PidMaximumPacketSize
      | PidTopicAliasMaximum | PidRequestResponseInformation | PidRequestProblemInformation
      | PidUserProperty | PidAuthenticationMethod | PidAuthenticationData => true
      | _ => false
      end
  | ScConnack =>
      match identifier with
      | PidSessionExpiryInterval | PidAssignedClientIdentifier | PidServerKeepAlive
      | PidAuthenticationMethod | PidAuthenticationData | PidResponseInformation
      | PidServerReference | PidReasonString | PidReceiveMaximum | PidTopicAliasMaximum
      | PidMaximumQos | PidRetainAvailable | PidUserProperty | PidMaximumPacketSize
      | PidWildcardSubscriptionAvailable | PidSubscriptionIdentifierAvailable
      | PidSharedSubscriptionAvailable => true
      | _ => false
      end
  | ScPublish =>
      match identifier with
      | PidPayloadFormatIndicator | PidMessageExpiryInterval | PidContentType
      | PidResponseTopic | PidCorrelationData | PidSubscriptionIdentifier | PidTopicAlias
      | PidUserProperty => true
      | _ => false
      end
  | ScWill =>
      match identifier with
      | PidPayloadFormatIndicator | PidMessageExpiryInterval | PidContentType
      | PidResponseTopic | PidCorrelationData | PidWillDelayInterval | PidUserProperty => true
      | _ => false
      end
  | ScPuback | ScPubrec | ScPubrel | ScPubcomp | ScSuback | ScUnsuback =>
      match identifier with
      | PidReasonString | PidUserProperty => true
      | _ => false
      end
  | ScSubscribe =>
      match identifier with
      | PidSubscriptionIdentifier | PidUserProperty => true
      | _ => false
      end
  | ScUnsubscribe =>
      match identifier with
      | PidUserProperty => true
      | _ => false
      end
  | ScDisconnect =>
      match identifier with
      | PidSessionExpiryInterval | PidReasonString | PidUserProperty | PidServerReference
      => true
      | _ => false
      end
  | ScAuth =>
      match identifier with
      | PidAuthenticationMethod | PidAuthenticationData | PidReasonString | PidUserProperty
      => true
      | _ => false
      end
  end.

Definition set_once {T} (field : option T) (value : T) (property_name : string)
    : result (option T) :=
  match field with
  | Some _ => Err (EDuplicateProperty property_name)
  | None => Ok (Some value)
  end.

Definition ensure_allowed (identifier : PropertyIdentifier) (scope : PropertyScope)
    : result unit :=
  if allowed_on identifier scope then Ok tt
  else Err (EPropertyNotAllowed (name identifier) (scope_name scope)).

(** One iteration of the loop of [parse]: an identifier and its value. *)
Definition parse_property (scope : PropertyScope) (property_input : bytes)
    (properties : Properties) : result (bytes * Properties) :=
  '(property_input, identifier) ← parse_variable_byte_integer property_input;
  identifier ← from_u32 identifier;
  ensure_allowed identifier scope;;
  match identifier with
  | PidPayloadFormatIndicator =>
      '(input, value) ← parse_u8 property_input (name identifier);
      if 1 <? value then Err (EInvalidPropertyValue (name identifier)) else
      field ← set_once (payload_format_indicator properties) value (name identifier);
      Ok (input, set_payload_format_indicator field properties)
  | PidMessageExpiryInterval =>
      '(input, value) ← parse_u32 property_input (name identifier);
      field ← set_once (message_expiry_interval properties) value (name identifier);
      Ok (input, set_message_expiry_interval field properties)
  | PidContentType =>
      '(input, value) ← parse_utf8_string property_input;
      field ← set_once (content_type properties) value (name identifier);
      Ok (input, set_content_type field properties)
  | PidResponseTopic =>
      '(input, value) ← parse_utf8_string property_input;
      field ← set_once (response_topic properties) value (name identifier);
      Ok (input, set_response_topic field properties)
  | PidCorrelationData =>
      '(input, value) ← parse_binary property_input;
      field ← set_once (correlation_data properties) value (name identifier);
      Ok (input, set_correlation_data field properties)
  | PidSubscriptionIdentifier =>
      '(input, value) ← parse_variable_byte_integer property_input;
      if value =? 0 then Err (EInvalidPropertyValue (name identifier)) else
      Ok (input, set_subscription_identifiers
                   (subscription_identifiers properties ++ [value]) properties)
  | PidSessionExpiryInterval =>
      '(input, value) ← parse_u32 property_input (name identifier);
      field ← set_once (session_expiry_interval properties) value (name identifier);
      Ok (input, set_session_expiry_interval field properties)
  | PidAssignedClientIdentifier =>
      '(input, value) ← parse_utf8_string property_input;
      field ← set_once (assigned_client_identifier properties) value (name identifier);
      Ok (input, set_assigned_client_identifier field properties)
  | PidServerKeepAlive =>
      '(input, value) ← parse_u16 property_input (name identifier);
      field ← set_once (server_keep_alive properties) value (name identifier);
      Ok (input, set_server_keep_alive field properties)
  | PidAuthenticationMethod =>
      '(input, value) ← parse_utf8_string property_input;
      field ← set_once (authentication_method properties) value (name identifier);
      Ok (input, set_authentication_method field properties)
  | PidAuthenticationData =>
      '(input, value) ← parse_binary property_input;
      field ← set_once (authentication_data properties) value (name identifier);
      Ok (input, set_authentication_data field properties)
  | PidRequestProblemInformation =>
      '(input, value) ← parse_boolean property_input (name identifier);
      field ← set_once (request_problem_information properties) value (name identifier);
      Ok (input, set_request_problem_information field properties)
  | PidWillDelayInterval =>
      '(input, value) ← parse_u32 property_input (name identifier);
      field ← set_once (will_delay_interval properties) value (name identifier);
      Ok (input, set_will_delay_interval field properties)
  | PidRequestResponseInformation =>
      '(input, value) ← parse_boolean property_input (name identifier);
      field ← set_once (request_response_information properties) value (name identifier);
      Ok (input, set_request_response_information field properties)
  | PidResponseInformation =>
      '(input, value) ← parse_utf8_string property_input;
      field ← set_once (response_information properties) value (name identifier);
      Ok (input, set_response_information field properties)
  | PidServerReference =>
      '(input, value) ← parse_utf8_string property_input;
      field ← set_once (server_reference properties) value (name identifier);
      Ok (input, set_server_reference field properties)
  | PidReasonString =>
      '(input, value) ← parse_utf8_string property_input;
      field ← set_once (reason_string properties) value (name identifier);
      Ok (input, set_reason_string field properties)
  | PidReceiveMaximum =>
      '(input, value) ← parse_u16 property_input (name identifier);
      if value =? 0 then Err (EInvalidPropertyValue (name identifier)) else
      field ← set_once (receive_maximum properties) value (name identifier);
      Ok (input, set_receive_maximum field properties)
  | PidTopicAliasMaximum =>
      '(input, value) ← parse_u16 property_input (name identifier);
      field ← set_once (topic_alias_maximum properties) value (name identifier);
      Ok (input, set_topic_alias_maximum field properties)
  | PidTopicAlias =>
      '(input, value) ← parse_u16 property_input (name identifier);
      if value =? 0 then Err (EInvalidPropertyValue (name identifier)) else
      field ← set_once (topic_alias properties) value (name identifier);
      Ok (input, set_topic_alias field properties)
  | PidMaximumQos =>
      '(input, value) ← parse_u8 property_input (name identifier);
      if 1 <? value then Err (EInvalidPropertyValue (name identifier)) else
      field ← set_once (maximum_qos properties) value (name identifier);
      Ok (input, set_maximum_qos field properties)
  | PidRetainAvailable =>
      '(input, value) ← parse_boolean property_input (name identifier);
      field ← set_once (retain_available properties) value (name identifier);
      Ok (input, set_retain_available field properties)
  | PidUserProperty =>
      '(input, key) ← parse_utf8_string property_input;
      '(input, value) ← parse_utf8_string input;
      Ok (input, set_user_properties (user_properties properties ++ [(key, value)]) properties)
  | PidMaximumPacketSize =>
      '(input, value) ← parse_u32 property_input (name identifier);
      if value =? 0 then Err (EInvalidPropertyValue (name identifier)) else
      field ← set_once (maximum_packet_size properties) value (name identifier);
      Ok (input, set_maximum_packet_size field properties)
  | PidWildcardSubscriptionAvailable =>
      '(input, value) ← parse_boolean property_input (name identifier);
      field ← set_once (wildcard_subscription_available properties) value (name identifier);
      Ok (input, set_wildcard_subscription_available field properties)
  | PidSubscriptionIdentifierAvailable =>
      '(input, value) ← parse_boolean property_input (name identifier);
      field ← set_once (subscription_identifier_available properties) value (name identifier);
      Ok (input, set_subscription_identifier_available field properties)
  | PidSharedSubscriptionAvailable =>
      '(input, value) ← parse_boolean property_input (name identifier);
      field ← set_once (shared_subscription_available properties) value (name identifier);
      Ok (input, set_shared_subscription_available field properties)
  end.

(** The [while !property_input.is_empty()] loop. *)
Fixpoint parse_loop (fuel : nat) (scope : PropertyScope) (property_input : bytes)
    (properties : Properties) : result Properties :=
  match property_input with
  | [] => Ok properties
  | _ =>
      match fuel with
      | O => OutOfFuel
      | S fuel =>
          '(property_input, properties) ← parse_property scope property_input properties;
          parse_loop fuel scope property_input properties
      end
  end.

(** Every iteration consumes a byte, so the input's length is fuel enough. *)
Definition parse (input : bytes) (scope : PropertyScope) : result (bytes * Properties) :=
  '(input, property_length) ← parse_variable_byte_integer input;
  if zlen input <? property_length then Err (EIncomplete "properties")
  else
    '(property_input, input) ← split_at (Z.to_nat property_length) input;
    properties ← parse_loop (length property_input) scope property_input default_properties;
    Ok (input, properties).

Section Encode.
Context {B : BytesCrate}.

Definition write_property_id (scope : PropertyScope) (identifier : PropertyIdentifier)
    : encoder :=
  lift (ensure_allowed identifier scope);;
  encode_variable_byte_integer (as_u32 identifier).

Definition encode_optional_u8 (scope : PropertyScope) (identifier : PropertyIdentifier)
    (value : option Z) : encoder :=
  match value with
  | Some value => write_property_id scope identifier;; put_u8 value
  | None => mret tt
  end.

Definition encode_optional_u16 (scope : PropertyScope) (identifier : PropertyIdentifier)
    (value : option Z) : encoder :=
  match value with
  | Some value => write_property_id scope identifier;; put_u16 value
  | None => mret tt
  end.

Definition encode_optional_nonzero_u16 (scope : PropertyScope)
    (identifier : PropertyIdentifier) (value : option Z) : encoder :=
  match value with
  | Some 0 => lift (Err (EInvalidPropertyValue (name identifier)))
  | _ => encode_optional_u16 scope identifier value
  end.

Definition encode_optional_u32 (scope : PropertyScope) (identifier : PropertyIdentifier)
    (value : option Z) : encoder :=
  match value with
  | Some value => write_property_id scope identifier;; put_u32 value
  | None => mret tt
  end.

Definition encode_optional_nonzero_u32 (scope : PropertyScope)
    (identifier : PropertyIdentifier) (value : option Z) : encoder :=
  match value with
  | Some 0 => lift (Err (EInvalidPropertyValue (name identifier)))
  | _ => encode_optional_u32 scope identifier value
  end.

Definition encode_optional_bool (scope : PropertyScope) (identifier : PropertyIdentifier)
    (value : option bool) : encoder :=
  match value with
  | Some value => write_property_id scope identifier;; put_u8 (Z.b2z value)
  | None => mret tt
  end.

Definition encode_optional_string (scope : PropertyScope) (identifier : PropertyIdentifier)
    (value : option string) : encoder :=
  match value with
  | Some value => write_property_id scope identifier;; encode_utf8_string value
  | None => mret tt
  end.

Definition encode_optional_binary (scope : PropertyScope) (identifier : PropertyIdentifier)
    (value : option bytes) : encoder :=
  match value with
  | Some value => write_property_id scope identifier;; encode_binary value
  | None => mret tt
  end.

(** The loops over the subscription identifiers and the user properties. *)
Fixpoint encode_subscription_identifiers (scope : PropertyScope) (values : list Z) : encoder :=
  match values with
  | [] => mret tt
  | value :: values =>
      if value =? 0
      then lift (Err (EInvalidPropertyValue (name PidSubscriptionIdentifier)))
      else
        write_property_id scope PidSubscriptionIdentifier;;
        encode_variable_byte_integer value;;
        encode_subscription_identifiers scope values
  end.

Fixpoint encode_user_properties (scope : PropertyScope) (values : list (string * string))
    : encoder :=
  match values with
  | [] => mret tt
  | (key, value) :: values =>
      write_property_id scope PidUserProperty;;
      encode_utf8_string key;;
      encode_utf8_string value;;
      encode_user_properties scope values
  end.

Definition encode_maximum_qos (scope : PropertyScope) (value : option Z) : encoder :=
  match value with
  | Some value =>
      if 1 <? value then lift (Err (EInvalidPropertyValue (name PidMaximumQos)))
      else encode_optional_u8 scope PidMaximumQos (Some value)
  | None => mret tt
  end.

(** The statements of [encode] that fill [body]. *)
Definition encode_body (p : Properties) (scope : PropertyScope) : encoder :=
  encode_optional_u8 scope PidPayloadFormatIndicator (payload_format_indicator p);;
  encode_optional_u32 scope PidMessageExpiryInterval (message_expiry_interval p);;
  encode_optional_string scope PidContentType (content_type p);;
  encode_optional_string scope PidResponseTopic (response_topic p);;
  encode_optional_binary scope PidCorrelationData (correlation_data p);;
  encode_subscription_identifiers scope (subscription_identifiers p);;
  encode_optional_u32 scope PidSessionExpiryInterval (session_expiry_interval p);;
  encode_optional_string scope PidAssignedClientIdentifier (assigned_client_identifier p);;
  encode_optional_u16 scope PidServerKeepAlive (server_keep_alive p);;
  encode_optional_string scope PidAuthenticationMethod (authentication_method p);;
  encode_optional_binary scope PidAuthenticationData (authentication_data p);;
  encode_optional_bool scope PidRequestProblemInformation (request_problem_information p);;
  encode_optional_u32 scope PidWillDelayInterval (will_delay_interval p);;
  encode_optional_bool scope PidRequestResponseInformation (request_response_information p);;
  encode_optional_string scope PidResponseInformation (response_information p);;
  encode_optional_string scope PidServerReference (server_reference p);;
  encode_optional_string scope PidReasonString (reason_string p);;
  encode_optional_nonzero_u16 scope PidReceiveMaximum (receive_maximum p);;
  encode_optional_u16 scope PidTopicAliasMaximum (topic_alias_maximum p);;
  encode_optional_nonzero_u16 scope PidTopicAlias (topic_alias p);;
  encode_maximum_qos scope (maximum_qos p);;
  encode_optional_bool scope PidRetainAvailable (retain_available p);;
  encode_user_properties scope (user_properties p);;
  encode_optional_nonzero_u32 scope PidMaximumPacketSize (maximum_packet_size p);;
  encode_optional_bool scope PidWildcardSubscriptionAvailable
    (wildcard_subscription_available p);;
  encode_optional_bool scope PidSubscriptionIdentifierAvailable
    (subscription_identifier_available p);;
  encode_optional_bool scope PidSharedSubscriptionAvailable (shared_subscription_available p).

Definition encode (properties : Properties) (scope : PropertyScope) : encoder :=
  body ← lift (with_new_buffer (encode_body properties scope));
  encode_variable_byte_integer (Prelude.as_u32 (zlen (bm_slice body)));;
  extend_from_slice (bm_slice body);;
  mret tt.

End Encode.
