(* ===== verification/V5PropertiesSpec.v ===== *)
(** * The wire format of MQTT 5 properties

    [V5Properties] translates the code; here its properties are viewed as the
    list of items the encoder writes, an identifier with a value each.  The
    encoder is equal to the concatenation of the items' bytes, the parser to
    reading items one by one and applying them, and the two views meet in a
    round trip and in what the parser guarantees on arbitrary input. *)

From S2P Require Import Prelude Utf8 Buf Packet V5Common V5Properties.

(** ** Items *)

Inductive value :=
  | VU8 (z : Z) | VU16 (z : Z) | VU32 (z : Z) | VVar (z : Z) | VBool (b : bool)
  | VStr (s : string) | VBin (data : bytes) | VPair (k v : string).

Definition item : Type := PropertyIdentifier * value.

Definition value_bytes (v : value) : bytes :=
  match v with
  | VU8 z => [z]
  | VU16 z => be_u16 z
  | VU32 z => be_u32 z
  | VVar z => vbi_bytes z
  | VBool b => [Z.b2z b]
  | VStr s => string_bytes s
  | VBin data => binary_bytes data
  | VPair k v => string_bytes k ++ string_bytes v
  end.

Definition item_bytes (it : item) : bytes := vbi_bytes (as_u32 it.1) ++ value_bytes it.2.
Definition items_bytes (l : list item) : bytes := concat (map item_bytes l).

(** The range of the Rust type that holds the value. *)
Definition wf_value (v : value) : Prop :=
  match v with
  | VU8 z => is_u8 z
  | VU16 z => is_u16 z
  | VU32 z | VVar z => is_u32 z
  | VBool _ => True
  | VStr s => is_str s
  | VBin data => is_bytes data
  | VPair k v => is_str k /\ is_str v
  end.

(** The kind of value each identifier takes. *)
Definition shape (id : PropertyIdentifier) (v : value) : bool :=
  match id, v with
  | (PidPayloadFormatIndicator | PidMaximumQos), VU8 _ => true
  | (PidServerKeepAlive | PidReceiveMaximum | PidTopicAliasMaximum | PidTopicAlias), VU16 _ =>
      true
  | (PidMessageExpiryInterval | PidSessionExpiryInterval | PidWillDelayInterval
     | PidMaximumPacketSize), VU32 _ => true
  | PidSubscriptionIdentifier, VVar _ => true
  | (PidRequestProblemInformation | PidRequestResponseInformation | PidRetainAvailable
     | PidWildcardSubscriptionAvailable | PidSubscriptionIdentifierAvailable
     | PidSharedSubscriptionAvailable), VBool _ => true
  | (PidContentType | PidResponseTopic | PidAssignedClientIdentifier | PidAuthenticationMethod
     | PidResponseInformation | PidServerReference | PidReasonString), VStr _ => true
  | (PidCorrelationData | PidAuthenticationData), VBin _ => true
  | PidUserProperty, VPair _ _ => true
  | _, _ => false
  end.

(** What fits its length prefix. *)
Definition value_fits (v : value) : bool :=
  match v with
  | VVar z => z <=? MAX_VARIABLE_BYTE_INTEGER
  | VStr s => zlen (as_bytes s) <=? u16_max
  | VBin data => zlen data <=? u16_max
  | VPair k v => (zlen (as_bytes k) <=? u16_max) && (zlen (as_bytes v) <=? u16_max)
  | _ => true
  end.

(** The encoder's checks on values. *)
Definition encoder_checks (id : PropertyIdentifier) (v : value) : bool :=
  match id, v with
  | PidSubscriptionIdentifier, VVar z
  | PidReceiveMaximum, VU16 z | PidTopicAlias, VU16 z | PidMaximumPacketSize, VU32 z =>
      negb (z =? 0)
  | PidMaximumQos, VU8 z => negb (1 <? z)
  | _, _ => true
  end.

(** The parser's: the encoder's and one more. *)
Definition parser_checks (id : PropertyIdentifier) (v : value) : bool :=
  match id, v with
  | PidPayloadFormatIndicator, VU8 z => negb (1 <? z)
  | _, _ => encoder_checks id v
  end.

(** An item the encoder accepts in a scope. *)
Definition encodable (scope : PropertyScope) (it : item) : bool :=
  allowed_on it.1 scope && encoder_checks it.1 it.2 && value_fits it.2.

(** An item of a parsed property list. *)
Definition valid_item (scope : PropertyScope) (it : item) : Prop :=
  shape it.1 it.2 = true /\ wf_value it.2 /\ encodable scope it = true /\
  parser_checks it.1 it.2 = true.

(** The items of a property record, in the order of the encoder. *)
Definition opt {A} (id : PropertyIdentifier) (c : A -> value) (x : option A) : list item :=
  match x with Some v => [(id, c v)] | None => [] end.

Definition items (p : Properties) : list item :=
  opt PidPayloadFormatIndicator VU8 (payload_format_indicator p) ++
  opt PidMessageExpiryInterval VU32 (message_expiry_interval p) ++
  opt PidContentType VStr (content_type p) ++
  opt PidResponseTopic VStr (response_topic p) ++
  opt PidCorrelationData VBin (correlation_data p) ++
  map (fun z => (PidSubscriptionIdentifier, VVar z)) (subscription_identifiers p) ++
  opt PidSessionExpiryInterval VU32 (session_expiry_interval p) ++
  opt PidAssignedClientIdentifier VStr (assigned_client_identifier p) ++
  opt PidServerKeepAlive VU16 (server_keep_alive p) ++
  opt PidAuthenticationMethod VStr (authentication_method p) ++
  opt PidAuthenticationData VBin (authentication_data p) ++
  opt PidRequestProblemInformation VBool (request_problem_information p) ++
  opt PidWillDelayInterval VU32 (will_delay_interval p) ++
  opt PidRequestResponseInformation VBool (request_response_information p) ++
  opt PidResponseInformation VStr (response_information p) ++
  opt PidServerReference VStr (server_reference p) ++
  opt PidReasonString VStr (reason_string p) ++
  opt PidReceiveMaximum VU16 (receive_maximum p) ++
  opt PidTopicAliasMaximum VU16 (topic_alias_maximum p) ++
  opt PidTopicAlias VU16 (topic_alias p) ++
  opt PidMaximumQos VU8 (maximum_qos p) ++
  opt PidRetainAvailable VBool (retain_available p) ++
  map (fun kv => (PidUserProperty, VPair kv.1 kv.2)) (user_properties p) ++
  opt PidMaximumPacketSize VU32 (maximum_packet_size p) ++
  opt PidWildcardSubscriptionAvailable VBool (wildcard_subscription_available p) ++
  opt PidSubscriptionIdentifierAvailable VBool (subscription_identifier_available p) ++
  opt PidSharedSubscriptionAvailable VBool (shared_subscription_available p).

(** The type invariant of [Properties]. *)
Definition wf_properties (p : Properties) : Prop := Forall (fun it => wf_value it.2) (items p).

(** Property records the parser yields in a scope. *)
Definition valid_properties (scope : PropertyScope) (p : Properties) : Prop :=
  Forall (valid_item scope) (items p).

(** The property block: length and items.  The code truncates the length to 32 bits. *)
Definition props_body (p : Properties) : bytes := items_bytes (items p).
Definition props_len (p : Properties) : Z := Prelude.as_u32 (zlen (props_body p)).
Definition props_bytes (p : Properties) : bytes := vbi_bytes (props_len p) ++ props_body p.
Definition props_ok (scope : PropertyScope) (p : Properties) : bool :=
  forallb (encodable scope) (items p) && (props_len p <=? MAX_VARIABLE_BYTE_INTEGER).

Lemma items_bytes_app l k : items_bytes (l ++ k) = items_bytes l ++ items_bytes k.
Proof. unfold items_bytes. by rewrite map_app, concat_app. Qed.

Lemma items_default : items default_properties = [].
Proof. done. Qed.

(** ** The encoder writes the items *)

Section EncodeSpec.
Context {B : BytesCrate} {BS : BytesCrateSpec B}.

Lemma writes_property_id scope id :
  writes (write_property_id scope id) (allowed_on id scope) (vbi_bytes (as_u32 id)).
Proof.
  eapply writes_eq; [eapply writes_bind; [|apply writes_vbi]|..].
  - apply (writes_check _ (allowed_on id scope)); unfold ensure_allowed; by destruct allowed_on.
  - by destruct id.
  - rewrite (proj2 (Z.leb_le _ _)), andb_true_r; [done|by destruct id].
  - done.
Qed.

(** An item whose value is written by [w]. *)
Lemma writes_item scope id v w :
  writes w (value_fits v) (value_bytes v) -> encoder_checks id v = true ->
  writes (write_property_id scope id;; w) (forallb (encodable scope) [(id, v)])
    (items_bytes [(id, v)]).
Proof.
  intros Hw Hc. eapply writes_eq; [eapply writes_bind; [apply writes_property_id|exact Hw]|..].
  - unfold encodable. simpl. by rewrite Hc, !andb_true_r.
  - intros _. unfold items_bytes, item_bytes. simpl. by rewrite app_nil_r.
Qed.

Ltac optional :=
  intros; match goal with x : option _ |- _ => destruct x; [|apply writes_ret] end;
  apply writes_item; eauto with wp.

(** The identifiers whose value the encoder does not check. *)
Definition unchecked (id : PropertyIdentifier) : bool :=
  match id with
  | PidSubscriptionIdentifier | PidReceiveMaximum | PidTopicAlias | PidMaximumPacketSize
  | PidMaximumQos => false
  | _ => true
  end.

Lemma unchecked_checks id v : unchecked id = true -> encoder_checks id v = true.
Proof. by destruct id. Qed.
#[local] Hint Resolve unchecked_checks : wp.

Abbreviation writes_items w scope l :=
  (writes w (forallb (encodable scope) l) (items_bytes l)).

Lemma writes_optional_u8 scope id x :
  unchecked id = true -> writes_items (encode_optional_u8 scope id x) scope (opt id VU8 x).
Proof. optional. Qed.
Lemma writes_optional_u16 scope id x :
  unchecked id = true -> writes_items (encode_optional_u16 scope id x) scope (opt id VU16 x).
Proof. optional. Qed.
Lemma writes_optional_u32 scope id x :
  unchecked id = true -> writes_items (encode_optional_u32 scope id x) scope (opt id VU32 x).
Proof. optional. Qed.
Lemma writes_optional_bool scope id x :
  unchecked id = true -> writes_items (encode_optional_bool scope id x) scope (opt id VBool x).
Proof. optional. Qed.
Lemma writes_optional_string scope id x :
  unchecked id = true -> writes_items (encode_optional_string scope id x) scope (opt id VStr x).
Proof. optional. Qed.
Lemma writes_optional_binary scope id x :
  unchecked id = true -> writes_items (encode_optional_binary scope id x) scope (opt id VBin x).
Proof. optional. Qed.

(** A value the encoder refuses is not encodable. *)
Lemma writes_refused scope id v (e : Mqtt5ParseError) :
  encoder_checks id v = false ->
  writes_items (lift (Err e)) scope [(id, v)].
Proof.
  intros H. eapply writes_eq; [apply writes_fail|..]; unfold encodable; simpl;
    by rewrite H, andb_false_r.
Qed.

Lemma writes_optional_nonzero_u16 scope id x :
  id = PidReceiveMaximum \/ id = PidTopicAlias ->
  writes_items (encode_optional_nonzero_u16 scope id x) scope (opt id VU16 x).
Proof.
  intros Hid. destruct x as [[| |]|]; [|apply writes_item..|apply writes_ret];
    eauto with wp; try (by destruct Hid as [-> | ->]).
  apply writes_refused. by destruct Hid as [-> | ->].
Qed.

Lemma writes_optional_nonzero_u32 scope x :
  writes_items (encode_optional_nonzero_u32 scope PidMaximumPacketSize x) scope
    (opt PidMaximumPacketSize VU32 x).
Proof.
  destruct x as [[| |]|]; [by apply writes_refused|apply writes_item..|apply writes_ret];
    eauto with wp.
Qed.

Lemma writes_maximum_qos scope x :
  writes_items (encode_maximum_qos scope x) scope (opt PidMaximumQos VU8 x).
Proof.
  destruct x as [z|]; [|apply writes_ret]. simpl encode_maximum_qos.
  destruct (1 <? z) eqn:Hz; [apply writes_refused|apply writes_item]; simpl;
    rewrite ?Hz; eauto with wp.
Qed.

(** One more item before others. *)
Lemma writes_cons scope it l (w1 w2 : encoder) :
  writes_items w1 scope [it] -> writes_items w2 scope l ->
  writes_items (w1;; w2) scope (it :: l).
Proof.
  intros H1 H2. eapply writes_eq; [eapply (writes_bind H1 H2)|..].
  - simpl. by rewrite andb_true_r.
  - intros _. by rewrite <-items_bytes_app.
Qed.

Lemma writes_assoc2 {w1 w2 w3 : encoder} {ok o} :
  writes ((w1;; w2);; w3) ok o -> writes (w1;; w2;; w3) ok o.
Proof.
  intros H b. specialize (H b). unfold mbind, writer_bind in *. by destruct (w1 b) as [[]].
Qed.

Lemma writes_subscription_identifiers scope l :
  Forall is_u32 l ->
  writes_items (encode_subscription_identifiers scope l) scope
    (map (fun z => (PidSubscriptionIdentifier, VVar z)) l).
Proof.
  induction 1 as [|z l Hz _ IH]; [apply writes_ret|].
  cbn [encode_subscription_identifiers map]. destruct (z =? 0) eqn:E.
  - eapply writes_eq; [apply writes_fail|..]; unfold encodable; simpl;
      by rewrite E, andb_false_r.
  - apply writes_assoc2, writes_cons; [|exact IH]. apply writes_item; [|simpl; by rewrite E].
    apply writes_vbi. unfold is_u32 in Hz. lia.
Qed.

Lemma writes_user_properties scope l :
  writes_items (encode_user_properties scope l) scope
    (map (fun kv => (PidUserProperty, VPair kv.1 kv.2)) l).
Proof.
  induction l as [|[k v] l IH]; [apply writes_ret|].
  cbn [encode_user_properties map].
  eapply writes_eq; [eapply writes_bind; [apply writes_property_id|eapply writes_bind;
    [apply writes_utf8_string|eapply writes_bind; [apply writes_utf8_string|exact IH]]]|..].
  - unfold encodable. simpl. by rewrite andb_true_r, !andb_assoc.
  - intros _. unfold items_bytes, item_bytes. simpl. by rewrite <-!app_assoc.
Qed.

(** The encoder is its closed form. *)
Lemma writes_encode_body scope p :
  wf_properties p ->
  writes_items (encode_body p scope) scope (items p).
Proof.
  intros Hwf. assert (Forall is_u32 (subscription_identifiers p)) as Hs.
  { unfold wf_properties, items in Hwf. rewrite !Forall_app, !Forall_map in Hwf. tauto. }
  unfold encode_body, items. rewrite !forallb_app, !items_bytes_app.
  repeat first
    [ apply writes_bind
    | apply writes_optional_u8; reflexivity | apply writes_optional_u16; reflexivity
    | apply writes_optional_u32; reflexivity | apply writes_optional_bool; reflexivity
    | apply writes_optional_string; reflexivity | apply writes_optional_binary; reflexivity
    | apply writes_optional_nonzero_u16; tauto | apply writes_optional_nonzero_u32
    | apply writes_maximum_qos | by apply writes_subscription_identifiers
    | apply writes_user_properties ].
Qed.

Lemma writes_properties scope p :
  wf_properties p -> writes (encode p scope) (props_ok scope p) (props_bytes p).
Proof.
  intros Hwf. unfold encode. eapply writes_local; [by apply writes_encode_body|].
  intros body Hb _. rewrite Hb. unfold props_bytes. fold (props_body p). fold (props_len p).
  eapply writes_eq; [eapply writes_bind; [apply writes_vbi|eapply writes_bind;
    [apply writes_extend|apply writes_ret]]|..].
  - apply Z.mod_pos_bound. lia.
  - by rewrite andb_true_r.
  - intros _. by rewrite app_nil_r.
Qed.

End EncodeSpec.
#[export] Hint Resolve writes_properties : wp.

(** ** The parser reads and applies items *)

(** The value part of an iteration of the parser's loop. *)
Definition parse_value (id : PropertyIdentifier) (input : bytes) : result (bytes * value) :=
  '(input, v) ←
    match id with
    | PidPayloadFormatIndicator | PidMaximumQos =>
        '(input, z) ← parse_u8 input (name id); Ok (input, VU8 z)
    | PidServerKeepAlive | PidReceiveMaximum | PidTopicAliasMaximum | PidTopicAlias =>
        '(input, z) ← parse_u16 input (name id); Ok (input, VU16 z)
    | PidMessageExpiryInterval | PidSessionExpiryInterval | PidWillDelayInterval
    | PidMaximumPacketSize =>
        '(input, z) ← parse_u32 input (name id); Ok (input, VU32 z)
    | PidSubscriptionIdentifier =>
        '(input, z) ← parse_variable_byte_integer input; Ok (input, VVar z)
    | PidRequestProblemInformation | PidRequestResponseInformation | PidRetainAvailable
    | PidWildcardSubscriptionAvailable | PidSubscriptionIdentifierAvailable
    | PidSharedSubscriptionAvailable =>
        '(input, b) ← parse_boolean input (name id); Ok (input, VBool b)
    | PidContentType | PidResponseTopic | PidAssignedClientIdentifier | PidAuthenticationMethod
    | PidResponseInformation | PidServerReference | PidReasonString =>
        '(input, s) ← parse_utf8_string input; Ok (input, VStr s)
    | PidCorrelationData | PidAuthenticationData =>
        '(input, d) ← parse_binary input; Ok (input, VBin d)
    | PidUserProperty =>
        '(input, k) ← parse_utf8_string input;
        '(input, v) ← parse_utf8_string input; Ok (input, VPair k v)
    end;
  if parser_checks id v then Ok (input, v) else Err (EInvalidPropertyValue (name id)).

(** The assignment of an iteration: a property that may occur once is refused the
    second time, the others accumulate. *)
Definition apply_item (it : item) (p : Properties) : result Properties :=
  let once {A} (get : Properties -> option A) (set : option A -> Properties -> Properties)
      (v : A) := field ← set_once (get p) v (name it.1); Ok (set field p) in
  match it with
  | (PidPayloadFormatIndicator, VU8 z) =>
      once payload_format_indicator set_payload_format_indicator z
  | (PidMessageExpiryInterval, VU32 z) =>
      once message_expiry_interval set_message_expiry_interval z
  | (PidContentType, VStr s) => once content_type set_content_type s
  | (PidResponseTopic, VStr s) => once response_topic set_response_topic s
  | (PidCorrelationData, VBin d) => once correlation_data set_correlation_data d
  | (PidSubscriptionIdentifier, VVar z) =>
      Ok (set_subscription_identifiers (subscription_identifiers p ++ [z]) p)
  | (PidSessionExpiryInterval, VU32 z) =>
      once session_expiry_interval set_session_expiry_interval z
  | (PidAssignedClientIdentifier, VStr s) =>
      once assigned_client_identifier set_assigned_client_identifier s
  | (PidServerKeepAlive, VU16 z) => once server_keep_alive set_server_keep_alive z
  | (PidAuthenticationMethod, VStr s) => once authentication_method set_authentication_method s
  | (PidAuthenticationData, VBin d) => once authentication_data set_authentication_data d
  | (PidRequestProblemInformation, VBool b) =>
      once request_problem_information set_request_problem_information b
  | (PidWillDelayInterval, VU32 z) => once will_delay_interval set_will_delay_interval z
  | (PidRequestResponseInformation, VBool b) =>
      once request_response_information set_request_response_information b
  | (PidResponseInformation, VStr s) => once response_information set_response_information s
  | (PidServerReference, VStr s) => once server_reference set_server_reference s
  | (PidReasonString, VStr s) => once reason_string set_reason_string s
  | (PidReceiveMaximum, VU16 z) => once receive_maximum set_receive_maximum z
  | (PidTopicAliasMaximum, VU16 z) => once topic_alias_maximum set_topic_alias_maximum z
  | (PidTopicAlias, VU16 z) => once topic_alias set_topic_alias z
  | (PidMaximumQos, VU8 z) => once maximum_qos set_maximum_qos z
  | (PidRetainAvailable, VBool b) => once retain_available set_retain_available b
  | (PidUserProperty, VPair k v) => Ok (set_user_properties (user_properties p ++ [(k, v)]) p)
  | (PidMaximumPacketSize, VU32 z) => once maximum_packet_size set_maximum_packet_size z
  | (PidWildcardSubscriptionAvailable, VBool b) =>
      once wildcard_subscription_available set_wildcard_subscription_available b
  | (PidSubscriptionIdentifierAvailable, VBool b) =>
      once subscription_identifier_available set_subscription_identifier_available b
  | (PidSharedSubscriptionAvailable, VBool b) =>
      once shared_subscription_available set_shared_subscription_available b
  | _ => Ok p
  end.

Fixpoint apply_items (l : list item) (p : Properties) : result Properties :=
  match l with
  | [] => Ok p
  | it :: l => p ← apply_item it p; apply_items l p
  end.

(** An iteration of the parser's loop, in the terms above. *)
Lemma parse_property_items scope input p :
  parse_property scope input p =
    ('(input, id) ← parse_variable_byte_integer input;
     id ← from_u32 id;
     ensure_allowed id scope;;
     '(input, v) ← parse_value id input;
     p ← apply_item (id, v) p;
     Ok (input, p)).
Proof.
  unfold parse_property. destruct (parse_variable_byte_integer input) as [[i z]|e| |]; try done.
  cbn [mbind outcome_bind]. destruct (from_u32 z) as [id|e| |]; try done.
  cbn [mbind outcome_bind]. destruct (ensure_allowed id scope) as [[]|e| |]; try done.
  cbn [mbind outcome_bind]. unfold parse_value.
  destruct id; simpl;
    match goal with |- context [?f i] => destruct (f i) as [[? ?]|e| |] end; try done; simpl;
    try (match goal with |- context [if ?b then _ else _] => destruct b end);
    try done; simpl; try (destruct (set_once _ _ _); done).
  by destruct (parse_utf8_string l) as [[]| | |].
Qed.

(** Applying all items of a record to the empty record yields the record. *)
Lemma apply_items_app l k p :
  apply_items (l ++ k) p = (p ← apply_items l p; apply_items k p).
Proof.
  revert p. induction l as [|it l IH]; intros p; [done|]. simpl.
  destruct (apply_item it p); simpl; auto.
Qed.

Lemma apply_subscription_identifiers l p :
  apply_items (map (fun z => (PidSubscriptionIdentifier, VVar z)) l) p
  = Ok (set_subscription_identifiers (subscription_identifiers p ++ l) p).
Proof.
  revert p. induction l as [|z l IH]; intros p; simpl.
  - rewrite app_nil_r. by destruct p.
  - rewrite IH. destruct p. simpl. by rewrite <-app_assoc.
Qed.

Lemma apply_user_properties l p :
  apply_items (map (fun kv => (PidUserProperty, VPair kv.1 kv.2)) l) p
  = Ok (set_user_properties (user_properties p ++ l) p).
Proof.
  revert p. induction l as [|[k v] l IH]; intros p; simpl.
  - rewrite app_nil_r. by destruct p.
  - rewrite IH. destruct p. simpl. by rewrite <-app_assoc.
Qed.

Ltac load set :=
  match goal with
  | |- apply_items (opt ?id ?c ?x) ?acc ≫= _ = _ =>
      replace (apply_items (opt id c x) acc) with (@Ok Mqtt5ParseError _ (set x acc))
        by (destruct x; reflexivity)
  end; cbn [mbind outcome_bind set]; try rewrite apply_items_app.

Lemma apply_items_items p : apply_items (items p) default_properties = Ok p.
Proof.
  destruct p. unfold items, default_properties. simpl. rewrite apply_items_app.
  load set_payload_format_indicator. load set_message_expiry_interval. load set_content_type.
  load set_response_topic. load set_correlation_data.
  rewrite apply_subscription_identifiers. simpl. rewrite apply_items_app.
  load set_session_expiry_interval. load set_assigned_client_identifier.
  load set_server_keep_alive. load set_authentication_method. load set_authentication_data.
  load set_request_problem_information. load set_will_delay_interval.
  load set_request_response_information. load set_response_information.
  load set_server_reference. load set_reason_string. load set_receive_maximum.
  load set_topic_alias_maximum. load set_topic_alias. load set_maximum_qos.
  load set_retain_available. rewrite apply_user_properties. simpl. rewrite apply_items_app.
  load set_maximum_packet_size. load set_wildcard_subscription_available.
  load set_subscription_identifier_available.
  by destruct shared_subscription_available.
Qed.

(** *** On what the encoder writes *)

Lemma from_u32_as_u32 id : from_u32 (as_u32 id) = Ok id.
Proof. by destruct id. Qed.

Lemma from_u32_Ok z id : from_u32 z = Ok id -> z = as_u32 id.
Proof. unfold from_u32. repeat case_match; try done; intros [= <-]; done. Qed.

Lemma from_u32_returns z : returns (from_u32 z).
Proof. unfold from_u32. by repeat case_match. Qed.

Lemma as_u32_range id : 0 <= as_u32 id <= MAX_VARIABLE_BYTE_INTEGER.
Proof. destruct id; unfold MAX_VARIABLE_BYTE_INTEGER; simpl; lia. Qed.

Lemma reads_value scope id v :
  valid_item scope (id, v) -> reads (parse_value id) (value_bytes v) v.
Proof.
  intros (Hs & Hwf & He & Hc) rest. unfold parse_value. simpl in Hs, Hwf, Hc.
  unfold encodable in He. simpl in He. apply andb_prop in He as [_ Hfit].
  unfold value_bytes. destruct v, id; try discriminate Hs; simpl in Hc, Hwf, Hfit;
    cbv beta iota; rewrite <-?app_assoc, ?reads_u8, ?reads_u16, ?reads_u32, ?reads_boolean,
      ?reads_binary, ?reads_utf8_string by tauto; cbn [mbind outcome_bind];
    rewrite ?reads_utf8_string by tauto;
    try (rewrite parse_vbi_bytes by (unfold is_u32 in Hwf; lia));
    cbn [mbind outcome_bind parser_checks encoder_checks]; try rewrite Hc; done.
Qed.

Lemma reads_item scope it p p' :
  valid_item scope it -> apply_item it p = Ok p' ->
  reads (fun input => parse_property scope input p) (item_bytes it) p'.
Proof.
  destruct it as [id v]. intros Hv Ha rest. rewrite parse_property_items. unfold item_bytes.
  cbn [fst snd].
  rewrite <-app_assoc, parse_vbi_bytes by apply as_u32_range. cbn [mbind outcome_bind].
  rewrite from_u32_as_u32. cbn [mbind outcome_bind]. unfold ensure_allowed.
  pose proof Hv as (_ & _ & He & _). unfold encodable in He. simpl in He.
  destruct (allowed_on id scope); [|done]. cbn [mbind outcome_bind fst snd].
  rewrite (reads_value scope id v Hv). cbn [mbind outcome_bind]. by rewrite Ha.
Qed.

Lemma item_bytes_nonempty it : (0 < length (item_bytes it))%nat.
Proof.
  unfold item_bytes. rewrite length_app.
  pose proof (vbi_bytes_length (as_u32 it.1) (proj1 (as_u32_range it.1))). lia.
Qed.

Lemma parse_loop_items scope l : forall fuel p p',
  Forall (valid_item scope) l -> (length (items_bytes l) <= fuel)%nat ->
  apply_items l p = Ok p' ->
  parse_loop fuel scope (items_bytes l) p = Ok p'.
Proof.
  induction l as [|it l IH]; intros fuel p p' Hl Hfuel Ha; [by destruct fuel|].
  inversion Hl as [|? ? Hit Hl']; subst. unfold items_bytes in *. simpl in *.
  rewrite length_app in Hfuel. pose proof (item_bytes_nonempty it) as Hne.
  inv_ok Ha. destruct fuel as [|fuel]; [lia|]. cbn [parse_loop].
  destruct (item_bytes it ++ concat (map item_bytes l)) as [|b t] eqn:Hb.
  { apply app_eq_nil in Hb as [Hb _]. rewrite Hb in Hne. simpl in Hne. lia. }
  rewrite <-Hb, (reads_item scope it p v Hit Hok). simpl. apply IH; [done|lia|done].
Qed.

(** Reading back the property block of a valid record. *)
Lemma reads_properties scope p :
  valid_properties scope p -> zlen (props_body p) <= MAX_VARIABLE_BYTE_INTEGER ->
  reads (fun input => parse input scope) (props_bytes p) p.
Proof.
  intros Hv Hlen rest. unfold parse, props_bytes, props_len, Prelude.as_u32.
  pose proof (zlen_nonneg (props_body p)) as Hn.
  rewrite Z.mod_small by (unfold MAX_VARIABLE_BYTE_INTEGER in *; lia).
  rewrite <-app_assoc, parse_vbi_bytes by lia. cbn [mbind outcome_bind].
  rewrite zlen_app, (proj2 (Z.ltb_ge _ _)) by (pose proof (zlen_nonneg rest); lia).
  rewrite zlen_to_nat, split_at_app. cbn [mbind outcome_bind].
  unfold props_body. erewrite parse_loop_items; [done|done|lia|apply apply_items_items].
Qed.

(** *** On arbitrary input *)

Lemma parser_checks_encoder id v : parser_checks id v = true -> encoder_checks id v = true.
Proof. by destruct id, v. Qed.

Ltac parsed :=
  match goal with
  | |- parses (_ ≫= _) _ _ => eapply parses_bind; [done|eauto with parses; fail|]
  end.

Create HintDb parses.
#[export] Hint Resolve parse_vbi_parses parse_u8_parses parse_u16_parses parse_u32_parses
  parse_binary_parses parse_utf8_string_parses parse_boolean_parses : parses.

Lemma parse_value_parses id input :
  is_bytes input ->
  parses (parse_value id input) input (fun v pre =>
    (shape id v = true /\ wf_value v /\ value_fits v = true /\ parser_checks id v = true) /\
    (length (value_bytes v) <= length pre)%nat).
Proof.
  intros Hin. unfold parse_value.
  eapply (parses_bind _ _ _ (fun v pre =>
    (shape id v = true /\ wf_value v /\ value_fits v = true) /\
    (length (value_bytes v) <= length pre)%nat)); [done| |].
  - destruct id; parsed; intros rest v pre Hv Hrest Hpre; cbn [mbind outcome_bind];
      try parsed; try (intros rest' v' pre' Hv' Hrest' Hpre'; cbn [mbind outcome_bind]);
      apply parses_Ok; rewrite ?app_nil_r, ?length_app, ?length_string_bytes; simpl;
      rewrite ?andb_true_iff, ?Z.leb_le, ?length_app, ?length_string_bytes;
      unfold MAX_VARIABLE_BYTE_INTEGER, is_u32, u16_max in *; intuition (subst; simpl; lia).
  - intros rest v pre (Hv & Hl) Hrest Hpre. cbn [mbind outcome_bind].
    destruct (parser_checks id v) eqn:Hc; [|done]. apply parses_Ok.
    rewrite app_nil_r. tauto.
Qed.

Lemma apply_item_returns it p : returns (apply_item it p).
Proof. destruct it as [[] []]; try done; simpl; unfold set_once; by case_match. Qed.

(** The items of the result are those before and the new one. *)
Lemma perm_under {A} (x : A) g l l' : l ≡ₚ x :: l' -> g ++ l ≡ₚ x :: g ++ l'.
Proof. intros ->. symmetry. apply Permutation_middle. Qed.

Lemma perm_snoc {A C} (f : A -> C) x l r : map f (l ++ [x]) ++ r ≡ₚ f x :: map f l ++ r.
Proof. rewrite map_app, <-app_assoc. apply perm_under. done. Qed.

Lemma apply_item_perm it p p' :
  shape it.1 it.2 = true -> apply_item it p = Ok p' -> items p' ≡ₚ it :: items p.
Proof.
  intros Hs Ha. destruct it as [id v], p; destruct id, v; try discriminate Hs;
    simpl in Ha; unfold set_once in Ha; try case_match; try discriminate Ha;
    injection Ha as <-; subst; unfold items; simpl;
    repeat first [reflexivity | apply (perm_snoc (fun z => (PidSubscriptionIdentifier, VVar z)))
      | apply (perm_snoc (fun kv => (PidUserProperty, VPair kv.1 kv.2)) (_, _))
      | apply perm_under].
Qed.

Lemma items_bytes_perm l k : l ≡ₚ k -> length (items_bytes l) = length (items_bytes k).
Proof.
  unfold items_bytes. induction 1; simpl; rewrite ?length_app; lia.
Qed.

Lemma parse_property_parses scope input p :
  is_bytes input ->
  parses (parse_property scope input p) input (fun p' pre => exists it,
    valid_item scope it /\ items p' ≡ₚ it :: items p /\
    (length (item_bytes it) <= length pre)%nat).
Proof.
  intros Hin. rewrite parse_property_items. parsed.
  intros rest z pre (Hz & _ & Hlen) Hrest Hpre. cbn [mbind outcome_bind].
  pose proof (from_u32_returns z). destruct (from_u32 z) as [id|e| |] eqn:Hid; try done.
  apply from_u32_Ok in Hid as ->. cbn [mbind outcome_bind]. unfold ensure_allowed.
  destruct (allowed_on id scope) eqn:Hal; [|done]. cbn [mbind outcome_bind].
  eapply parses_bind; [done|by apply parse_value_parses|].
  intros rest' v pre' ((Hs & Hwf & Hfit & Hc) & Hlen') _ _. cbn [mbind outcome_bind].
  pose proof (apply_item_returns (id, v) p).
  destruct (apply_item (id, v) p) as [p'|e| |] eqn:Ha; try done.
  apply parses_Ok. exists (id, v). rewrite app_nil_r. split; [|split].
  - split; [done|]. split; [done|]. split; [|done].
    unfold encodable. simpl. by rewrite Hal, (parser_checks_encoder _ _ Hc).
  - by apply apply_item_perm.
  - unfold item_bytes. rewrite !length_app. simpl. lia.
Qed.

(** The loop stops within the length of its input. *)
Lemma parse_loop_returns scope fuel : forall input p,
  is_bytes input -> (length input <= fuel)%nat -> valid_properties scope p ->
  returns_with (parse_loop fuel scope input p) (fun p' =>
    valid_properties scope p' /\
    (length (props_body p') <= length (props_body p) + length input)%nat).
Proof.
  induction fuel as [|fuel IH]; intros input p Hin Hf Hp;
    destruct input as [|b input]; simpl in Hf; try lia; try (split; [done|simpl; lia]).
  cbn [parse_loop]. pose proof (parse_property_parses scope _ p Hin) as H.
  destruct (parse_property scope (b :: input) p) as [[rest p1]|e| |] eqn:E; try done.
  destruct H as (pre & Hsplit & it & Hit & Hperm & Hlen). cbn [mbind outcome_bind].
  pose proof (item_bytes_nonempty it). rewrite Hsplit in Hin. apply is_bytes_app in Hin.
  assert (length (b :: input) = length (pre ++ rest)) as Hl by by rewrite Hsplit.
  rewrite length_app in Hl. simpl in Hl.
  eapply returns_with_mono; [apply IH; [tauto|lia|]|].
  - unfold valid_properties. rewrite Hperm. by constructor.
  - intros p' [Hv Hlen']. split; [done|]. unfold props_body in *.
    rewrite (items_bytes_perm _ _ Hperm) in Hlen'. unfold items_bytes in Hlen' at 2.
    simpl in Hlen'. rewrite length_app in Hlen'. unfold items_bytes at 2. simpl. lia.
Qed.

Lemma vbi_bytes_mono v w :
  0 <= v <= w -> (length (vbi_bytes v) <= length (vbi_bytes w))%nat.
Proof.
  intros H. unfold vbi_bytes.
  destruct (Z.ltb_spec v 128), (Z.ltb_spec w 128), (Z.ltb_spec v 16384), (Z.ltb_spec w 16384),
    (Z.ltb_spec v 2097152), (Z.ltb_spec w 2097152); simpl; lia.
Qed.

(** The parser of a property block returns on every input; what it accepts is
    valid in the scope, and its canonical encoding is no longer than the input. *)
Lemma parse_properties_parses scope input :
  is_bytes input ->
  parses (parse input scope) input (fun p pre =>
    valid_properties scope p /\ zlen (props_body p) <= MAX_VARIABLE_BYTE_INTEGER /\
    (length (props_bytes p) <= length pre)%nat).
Proof.
  intros Hin. unfold parse. parsed. intros rest len pre (Hlen & _ & Hpre) Hrest _. simpl.
  destruct (Z.ltb_spec (zlen rest) len) as [|Hle]; [done|]. unfold zlen in Hle.
  rewrite split_at_ok by lia. cbn [mbind outcome_bind].
  set (body := take (Z.to_nat len) rest).
  assert (length body = Z.to_nat len) as Hbody by (unfold body; rewrite length_take; lia).
  pose proof (parse_loop_returns scope (length body) body default_properties
    (is_bytes_take _ _ Hrest) (le_n _)) as H.
  assert (valid_properties scope default_properties) as Hd by constructor.
  specialize (H Hd). destruct (parse_loop _ _ _ _) as [p|e| |]; try done.
  destruct H as [Hv Hl]. simpl in Hl. exists body. unfold body. rewrite take_drop.
  assert (zlen (props_body p) <= len) as Hz by (unfold zlen; lia).
  split; [done|]. split; [done|]. split; [lia|]. rewrite length_app. fold body.
  unfold props_bytes, props_len, Prelude.as_u32. rewrite length_app.
  pose proof (zlen_nonneg (props_body p)).
  rewrite Z.mod_small by (unfold MAX_VARIABLE_BYTE_INTEGER in *; lia).
  pose proof (vbi_bytes_mono (zlen (props_body p)) len ltac:(lia)). lia.
Qed.
#[export] Hint Resolve parse_properties_parses : parses.

(** A valid record is well formed and can be encoded. *)
Lemma valid_wf_properties scope p : valid_properties scope p -> wf_properties p.
Proof. intros H. eapply Forall_impl; [exact H|]. by intros it (_ & ? & _). Qed.

Lemma valid_encodable scope p :
  valid_properties scope p -> forallb (encodable scope) (items p) = true.
Proof.
  intros H. apply forallb_forall. intros it Hit. unfold valid_properties in H.
  rewrite Forall_forall in H. apply H. by apply list_elem_of_In.
Qed.

(** The one check of the parser that the encoder lacks. *)
Definition props_readable (p : Properties) : bool :=
  match payload_format_indicator p with Some z => negb (1 <? z) | None => true end.

Lemma Forall_opt {A} (P : item -> Prop) id (c : A -> value) x :
  (forall v, x = Some v -> P (id, c v)) -> Forall P (opt id c x).
Proof. destruct x; simpl; intros H; repeat constructor; auto. Qed.

Lemma items_shape p : Forall (fun it => shape it.1 it.2 = true) (items p).
Proof.
  unfold items. rewrite !Forall_app, !Forall_map.
  repeat split; try (by apply Forall_opt); by apply Forall_forall.
Qed.

Lemma items_readable p :
  props_readable p = true ->
  Forall (fun it => encoder_checks it.1 it.2 = true -> parser_checks it.1 it.2 = true) (items p).
Proof.
  unfold items, props_readable. rewrite !Forall_app, !Forall_map. intros H. split.
  { apply Forall_opt. intros z Hz. by rewrite Hz in H. }
  repeat split; try (by apply Forall_opt); by apply Forall_forall.
Qed.

(** What the encoder accepts and the parser does not refuse is valid. *)
Lemma valid_properties_intro scope p :
  wf_properties p -> forallb (encodable scope) (items p) = true -> props_readable p = true ->
  valid_properties scope p.
Proof.
  intros Hwf He Hr. unfold valid_properties. apply Forall_forall. intros it Hit.
  pose proof (items_shape p) as Hs. pose proof (items_readable p Hr) as Hc.
  unfold wf_properties in Hwf. rewrite Forall_forall in Hwf, Hs, Hc.
  rewrite forallb_forall in He. specialize (He it ltac:(by apply list_elem_of_In)).
  split; [by apply Hs|]. split; [by apply Hwf|]. split; [done|]. apply Hc; [done|].
  unfold encodable in He. apply andb_prop in He as [He _]. by apply andb_prop in He as [_ ?].
Qed.

Lemma valid_readable scope p : valid_properties scope p -> props_readable p = true.
Proof.
  unfold valid_properties, props_readable. destruct p as [[z|] ? ? ? ? ? ? ? ? ? ? ? ? ? ? ?
    ? ? ? ? ? ? ? ? ? ? ?]; [|done]. simpl. intros H.
  unfold items in H. simpl in H. by apply Forall_inv in H as (_ & _ & _ & ?).
Qed.

(** The condition of the encoder, for a block within the length of a packet. *)
Lemma props_ok_iff scope p :
  zlen (props_body p) <= MAX_VARIABLE_BYTE_INTEGER ->
  props_ok scope p = forallb (encodable scope) (items p).
Proof.
  intros H. unfold props_ok, props_len, Prelude.as_u32. pose proof (zlen_nonneg (props_body p)).
  rewrite Z.mod_small by (unfold MAX_VARIABLE_BYTE_INTEGER in *; lia).
  by rewrite (proj2 (Z.leb_le _ _)), andb_true_r.
Qed.

Lemma valid_props_ok scope p :
  valid_properties scope p -> zlen (props_body p) <= MAX_VARIABLE_BYTE_INTEGER ->
  props_ok scope p = true.
Proof. intros H Hl. by rewrite props_ok_iff, valid_encodable. Qed.

Lemma props_ok_valid scope p :
  wf_properties p -> props_ok scope p = true -> props_readable p = true ->
  valid_properties scope p.
Proof. intros ? [? _]%andb_prop ?. by apply valid_properties_intro. Qed.

Lemma props_body_le p : zlen (props_body p) <= zlen (props_bytes p).
Proof. unfold props_bytes. rewrite zlen_app. pose proof (zlen_nonneg (vbi_bytes (props_len p))). lia. Qed.

Lemma props_default_ok scope : props_ok scope default_properties = true.
Proof. done. Qed.

Lemma wf_properties_default : wf_properties default_properties.
Proof. constructor. Qed.

Lemma valid_properties_default scope : valid_properties scope default_properties.
Proof. constructor. Qed.

(** Reading back what the encoder wrote into a body within the length of a packet. *)
Lemma reads_props_ok scope p :
  wf_properties p -> props_ok scope p = true -> props_readable p = true ->
  zlen (props_bytes p) <= MAX_VARIABLE_BYTE_INTEGER ->
  reads (fun input => parse input scope) (props_bytes p) p.
Proof.
  intros Hwf Hok Hr Hl. apply reads_properties; [by apply props_ok_valid|].
  pose proof (props_body_le p). lia.
Qed.

(** *** The session expiry interval of CONNECT and DISCONNECT *)

(** A session expiry interval given twice must agree; given once, it is used. *)
Definition expiry_agrees (x : option Z) (p : Properties) : bool :=
  match x, session_expiry_interval p with Some a, Some b => a =? b | _, _ => true end.
Definition merge_expiry (x : option Z) (p : Properties) : Properties :=
  match x, session_expiry_interval p with
  | Some a, None => set_session_expiry_interval (Some a) p
  | _, _ => p
  end.

Lemma merge_expiry_wf x p :
  wf_properties p -> match x with Some z => is_u32 z | None => True end ->
  wf_properties (merge_expiry x p).
Proof.
  unfold merge_expiry, wf_properties. intros Hp Hx.
  destruct x as [z|], (session_expiry_interval p) eqn:E; try done.
  assert (items (set_session_expiry_interval (Some z) p)
    ≡ₚ (PidSessionExpiryInterval, VU32 z) :: items p) as ->; [|by constructor].
  apply apply_item_perm; [done|]. simpl. by rewrite E.
Qed.

Lemma merge_expiry_readable x p : props_readable (merge_expiry x p) = props_readable p.
Proof.
  unfold merge_expiry. destruct x; [|done]. by destruct (session_expiry_interval p), p.
Qed.

Lemma merge_expiry_self p : merge_expiry (session_expiry_interval p) p = p.
Proof. unfold merge_expiry. by destruct (session_expiry_interval p). Qed.

Lemma expiry_agrees_self p : expiry_agrees (session_expiry_interval p) p = true.
Proof.
  unfold expiry_agrees. destruct (session_expiry_interval p); [by apply Z.eqb_eq|done].
Qed.

(** A value of the type [wf_properties] describes has a 32-bit interval. *)
Lemma session_expiry_wf p :
  wf_properties p -> match session_expiry_interval p with Some z => is_u32 z | None => True end.
Proof.
  intros Hp. destruct (session_expiry_interval p) as [z|] eqn:E; [|done].
  unfold wf_properties, items in Hp. rewrite !Forall_app in Hp. rewrite E in Hp.
  destruct Hp as (_ & _ & _ & _ & _ & _ & Hp & _). simpl in Hp.
  by apply Forall_inv in Hp.
Qed.
