(* ===== verification/V5Frame.v ===== *)
(** * Framing of MQTT 5 packets

    Every packet parser of [mqtt/src/v5] starts alike: read the fixed header,
    compare the packet type, wait for [remaining_length] bytes, split the body
    off and parse it; every encoder fills a local body and frames it.
    [parse_with_body] and [V5FixedHeader.encode_with_body] are that shared
    code.  [streaming] says what makes a parser safe to run on a stream that
    arrives in pieces, [PacketSpec] and [PacketCodec] are the contract each
    packet's codec implements and the dispatcher relies on. *)

From S2P Require Import Prelude Buf Packet V5Common V5FixedHeader V5ReasonCode.
From S2P Require Import V5Properties V5PropertiesSpec.

(** The shared head of the packet parsers.  [check] stands for a packet's own
    test on the header before its body is awaited. *)
Definition parse_with_body {A} (expected : ControlPacketType) (unexpected : string)
    (check : FixedHeader -> result unit) (incomplete : string)
    (parse_body : FixedHeader -> bytes -> result (bytes * A))
    (input : bytes) (max_message_size : Z) : result (bytes * A) :=
  '(input, fixed_header) ← V5FixedHeader.parse input max_message_size;
  if decide (fh_packet_type fixed_header = expected) then
    check fixed_header;;
    let remaining_length := fh_remaining_length fixed_header in
    if zlen input <? remaining_length then Err (EIncomplete incomplete)
    else
      '(body, input) ← split_at (Z.to_nat remaining_length) input;
      '(_, packet) ← parse_body fixed_header body;
      Ok (input, packet)
  else Err (EMalformedPacket unexpected).

Definition no_check (_ : FixedHeader) : result unit := Ok tt.

(** ** Streaming

    A parser that accepts a prefix accepts it whatever follows, asks for more
    on every shorter prefix, and does not change its mind on an error. *)
Definition streaming {A} (p : bytes -> result (bytes * A)) : Prop :=
  forall input,
    match p input with
    | Ok (rest, v) =>
        exists pre, input = pre ++ rest /\
          (forall more, p (pre ++ more) = Ok (more, v)) /\
          (forall j, (j < length pre)%nat -> exists c, p (take j pre) = Err (EIncomplete c))
    | Err e => is_incomplete e = true \/ forall more, p (input ++ more) = Err e
    | Panic | OutOfFuel => True
    end.

(** Run a bind whose first part is known. *)
Local Ltac run_bind := cbn [mbind outcome_bind].

Lemma vbi_loop_streaming n : forall i input value mult,
  (i <= length input)%nat ->
  match parse_variable_byte_integer_loop (seq i n) input value mult with
  | Ok (rest, v) =>
      exists k, (i < k <= length input)%nat /\ rest = drop k input /\
        (forall more, parse_variable_byte_integer_loop (seq i n) (take k input ++ more) value mult
                      = Ok (more, v)) /\
        (forall j, (i <= j < k)%nat ->
           parse_variable_byte_integer_loop (seq i n) (take j input) value mult
           = Err (EIncomplete "variable byte integer"))
  | Err e => is_incomplete e = true \/
      forall more, parse_variable_byte_integer_loop (seq i n) (input ++ more) value mult = Err e
  | Panic | OutOfFuel => True
  end.
Proof.
  induction n as [|n IH]; intros i input value mult Hi; [by right|]. cbn [seq].
  cbn [parse_variable_byte_integer_loop].
  destruct (input !! i) as [b|] eqn:Hb; [|by left]. pose proof (lookup_lt_Some _ _ _ Hb) as Hlt.
  assert (forall l, (input ++ l) !! i = Some b) as Hmore by (intros l; by apply lookup_app_l_Some).
  assert (forall k l, (i < k)%nat -> (take k input ++ l) !! i = Some b) as Htake.
  { intros k l Hk. apply lookup_app_l_Some. by rewrite lookup_take_lt. }
  assert (forall j, (j <= i)%nat -> take j input !! i = None) as Hnone.
  { intros j Hj. apply lookup_ge_None. rewrite length_take. lia. }
  destruct (mul_u32 (Z.land b 127) mult) as [s|e| |] eqn:Hs; run_bind; try done.
  2: { unfold mul_u32 in Hs. by destruct (_ <=? _). }
  destruct (add_u32 value s) as [v|e| |] eqn:Hv; run_bind; try done.
  2: { unfold add_u32 in Hv. by destruct (_ <=? _). }
  destruct (Z.land b 128 =? 0) eqn:Hc.
  - rewrite slice_from_ok by lia. simpl. exists (i + 1)%nat. split; [lia|]. split; [done|]. split.
    + intros more. rewrite Htake by lia. run_bind; rewrite Hs; run_bind; rewrite Hv; run_bind; rewrite Hc.
      assert (length (take (i + 1) input) = (i + 1)%nat) as Hl by (rewrite length_take; lia).
      rewrite <-Hl at 1. by rewrite slice_from_app.
    + intros j Hj. by rewrite Hnone by lia.
  - destruct (mul_u32 mult 128) as [m|e| |] eqn:Hm; run_bind; try done.
    2: { unfold mul_u32 in Hm. by destruct (_ <=? _). }
    specialize (IH (S i) input v m ltac:(lia)).
    destruct (parse_variable_byte_integer_loop (seq (S i) n) input v m) as [[rest w]|e| |]; try done.
    + destruct IH as (k & Hk & -> & Hok & Hinc). exists k. split; [lia|]. split; [done|]. split.
      * intros more. rewrite Htake by lia. run_bind; rewrite Hs; run_bind; rewrite Hv; run_bind; rewrite Hc. apply Hok.
      * intros j Hj. destruct (decide (j = i)) as [->|]; [by rewrite Hnone|].
        rewrite lookup_take_lt, Hb by lia. run_bind; rewrite Hs; run_bind; rewrite Hv; run_bind; rewrite Hc. apply Hinc. lia.
    + destruct IH as [?|IH]; [by left|right]. intros more.
      rewrite Hmore. run_bind; rewrite Hs; run_bind; rewrite Hv; run_bind; rewrite Hc. apply IH.
Qed.

Lemma vbi_streaming : streaming parse_variable_byte_integer.
Proof.
  intros input. pose proof (vbi_loop_streaming 4 0 input 0 1 ltac:(lia)) as H.
  unfold parse_variable_byte_integer. simpl seq in H.
  destruct (parse_variable_byte_integer_loop _ _ _ _) as [[rest v]|e| |]; try done.
  destruct H as (k & Hk & -> & Hok & Hinc). exists (take k input). rewrite take_drop.
  split; [done|]. split; [done|]. intros j. rewrite length_take. intros Hj.
  exists "variable byte integer"%string. rewrite take_take, Nat.min_l by lia. apply Hinc. lia.
Qed.

(** The header parser on a first byte and the rest. *)
Lemma parse_header_cons b l max :
  V5FixedHeader.parse (b :: l) max =
    (t ← try_from (Z.shiftr b 4);
     validate_flags t (Z.land b 0x0f);;
     '(input, len) ← parse_variable_byte_integer l;
     if max <? len then Err (ERemainingLengthExceeded len max)
     else Ok (input, header_of t (Z.land b 0x0f) len)).
Proof.
  unfold V5FixedHeader.parse. cbn [lookup list_lookup].
  by destruct (try_from _).
Qed.

Lemma header_streaming max : streaming (fun i => V5FixedHeader.parse i max).
Proof.
  intros [|b l]; [by left|]. rewrite parse_header_cons.
  destruct (try_from (Z.shiftr b 4)) as [t|e| |] eqn:Ht; try done;
    [|right; intros more; simpl app; by rewrite parse_header_cons, Ht].
  cbn [mbind outcome_bind].
  destruct (validate_flags t (Z.land b 15)) as [[]|e| |] eqn:Hv; try done;
    [|right; intros more; simpl app; rewrite parse_header_cons, Ht; simpl; by rewrite Hv].
  cbn [mbind outcome_bind].
  assert (forall l', V5FixedHeader.parse (b :: l') max =
    ('(input, len) ← parse_variable_byte_integer l';
     if max <? len then Err (ERemainingLengthExceeded len max)
     else Ok (input, header_of t (Z.land b 0x0f) len))) as Hcons.
  { intros l'. rewrite parse_header_cons, Ht. cbn [mbind outcome_bind]. by rewrite Hv. }
  pose proof (vbi_streaming l) as Hl.
  destruct (parse_variable_byte_integer l) as [[rest v]|e| |]; cbn [mbind outcome_bind]; try done.
  - destruct Hl as (pre & -> & Hok & Hinc). destruct (max <? v) eqn:Hm.
    + right. intros more. simpl app. rewrite Hcons, <-app_assoc, Hok. cbn [mbind outcome_bind].
      by rewrite Hm.
    + exists (b :: pre). split; [done|]. split.
      * intros more. simpl app. rewrite Hcons, Hok. cbn [mbind outcome_bind]. by rewrite Hm.
      * intros [|j] Hj; [by eexists|]. simpl in Hj. cbn [take]. rewrite Hcons.
        destruct (Hinc j) as [c ->]; [lia|]. by eexists.
  - destruct Hl as [?|Hl]; [by left|right]. intros more. simpl app. by rewrite Hcons, Hl.
Qed.

(** The header of a frame of which [buffer] has arrived. *)
Lemma frame_prefix t flags body max buffer more rest :
  flags_ok t flags -> zlen body <= MAX_VARIABLE_BYTE_INTEGER -> zlen body <= max ->
  buffer ++ more = frame t flags body ++ rest ->
  (exists c, V5FixedHeader.parse buffer max = Err (EIncomplete c) /\
     (length buffer < length (frame t flags body))%nat) \/
  (exists b, V5FixedHeader.parse buffer max = Ok (b, header_of t flags (zlen body)) /\
     b ++ more = body ++ rest /\
     (length buffer < length (frame t flags body) <-> length b < length body)%nat).
Proof.
  intros Hf Hlen Hmax E. pose proof (zlen_nonneg body).
  pose proof (reads_header t flags (zlen body) max Hf ltac:(lia) Hmax) as Hh.
  unfold frame in *. change (?x :: ?l ++ body) with ((x :: l) ++ body) in *.
  set (pre := first_byte t flags :: vbi_bytes (zlen body)) in *.
  rewrite <-app_assoc in E. rewrite length_app.
  pose proof (header_streaming max (pre ++ [])) as Hs. cbv beta in Hs, Hh. rewrite Hh in Hs.
  destruct Hs as (pre' & Epre & _ & Hinc). rewrite !app_nil_r in Epre. subst pre'.
  destruct (decide (length buffer < length pre)%nat) as [Hlt|Hge].
  - left. destruct (Hinc (length buffer) Hlt) as [c Hc]. exists c. split; [|lia].
    rewrite <-Hc. f_equal. rewrite <-(take_app_length buffer more) at 1.
    rewrite E. by rewrite take_app_le by lia.
  - right. exists (drop (length pre) buffer).
    assert (buffer = pre ++ drop (length pre) buffer) as Eb.
    { rewrite <-(take_drop (length pre) buffer) at 1. f_equal.
      rewrite <-(take_app_le buffer more) by lia. by rewrite E, take_app_length. }
    split; [rewrite Eb at 1; apply Hh|]. split.
    + rewrite <-(drop_app_le buffer more) by lia. by rewrite E, drop_app_length.
    + rewrite length_drop. lia.
Qed.

(** ** The shared head of the parsers *)

Section ParseWithBody.
Context {A : Type} (t : ControlPacketType) (unexpected : string)
  (check : FixedHeader -> result unit) (incomplete : string)
  (parse_body : FixedHeader -> bytes -> result (bytes * A)).

Abbreviation parser := (parse_with_body t unexpected check incomplete parse_body).

(** A whole frame is read back, and nothing behind it. *)
Lemma reads_frame flags body max r a :
  flags_ok t flags -> zlen body <= MAX_VARIABLE_BYTE_INTEGER -> zlen body <= max ->
  check (header_of t flags (zlen body)) = Ok tt ->
  parse_body (header_of t flags (zlen body)) body = Ok (r, a) ->
  reads (fun i => parser i max) (frame t flags body) a.
Proof.
  intros Hf Hmax Hle Hc Hb rest. unfold parse_with_body, frame.
  pose proof (zlen_nonneg body). pose proof (zlen_nonneg rest).
  pose proof (reads_header t flags (zlen body) max Hf ltac:(lia) Hle (body ++ rest)) as Hh.
  cbn [app] in Hh |- *. rewrite <-app_assoc, Hh. cbn [mbind outcome_bind].
  rewrite decide_True by done. rewrite Hc. cbn [mbind outcome_bind fh_remaining_length header_of].
  rewrite zlen_app, (proj2 (Z.ltb_ge _ _)) by lia.
  rewrite zlen_to_nat, split_at_app. cbn [mbind outcome_bind]. by rewrite Hb.
Qed.

(** On arbitrary input: the parser returns, and what it accepts is a body that
    [parse_body] accepts, within the limits, behind a header of its length. *)
Lemma parse_with_body_parses input max (Q : Z -> bytes -> A -> Prop) :
  is_bytes input ->
  (forall h, returns (check h)) ->
  (forall flags body, flags_ok t flags -> is_bytes body ->
     returns_with (parse_body (header_of t flags (zlen body)) body) (fun '(_, a) => Q flags body a)) ->
  parses (parser input max) input (fun a pre => exists flags body,
    flags_ok t flags /\ zlen body <= MAX_VARIABLE_BYTE_INTEGER /\ zlen body <= max /\
    (length (frame t flags body) <= length pre)%nat /\ Q flags body a).
Proof.
  intros Hin Hc Hb. unfold parse_with_body.
  eapply parses_bind; [done|by apply parse_header_parses|].
  intros rest h pre (t' & flags & len & -> & Hf & Hlen & Hmax & Hpre) Hrest _.
  cbn [mbind outcome_bind fh_packet_type fh_remaining_length header_of].
  destruct (decide (t' = t)) as [->|]; [|done].
  specialize (Hc (header_of t flags len)). destruct (check _) as [[]|e| |]; try done.
  cbn [mbind outcome_bind]. destruct (Z.ltb_spec (zlen rest) len) as [|Hle]; [done|].
  unfold zlen in Hle. rewrite split_at_ok by lia. cbn [mbind outcome_bind].
  set (body := take (Z.to_nat len) rest).
  assert (length body = Z.to_nat len) as Hlb by (unfold body; rewrite length_take; lia).
  assert (zlen body = len) as Hzb by (unfold zlen; lia).
  specialize (Hb flags body Hf (is_bytes_take _ _ Hrest)). rewrite Hzb in Hb.
  destruct (parse_body (header_of t flags len) body) as [[r a]|e| |]; try done.
  exists body. unfold body at 1. rewrite take_drop. split; [done|].
  exists flags, body. rewrite Hzb. repeat split; try done; try apply Hf; try lia.
  unfold frame. simpl. rewrite !length_app, Hzb. lia.
Qed.

Lemma parse_with_body_streaming max : streaming (fun i => parser i max).
Proof.
  intros input. unfold parse_with_body. pose proof (header_streaming max input) as Hh.
  destruct (V5FixedHeader.parse input max) as [[rest h]|e| |]; cbn [mbind outcome_bind]; try done.
  2: { destruct Hh as [?|Hh]; [by left|right]. intros more. by rewrite Hh. }
  destruct Hh as (pre & -> & Hok & Hinc).
  destruct (decide (fh_packet_type h = t)) as [Ht|Ht].
  2: { right. intros more. rewrite <-app_assoc, Hok. cbn [mbind outcome_bind].
       by rewrite decide_False. }
  destruct (check h) as [[]|e| |] eqn:Hc; cbn [mbind outcome_bind]; try done.
  2: { right. intros more. rewrite <-app_assoc, Hok. cbn [mbind outcome_bind].
       by rewrite decide_True, Hc. }
  destruct (Z.ltb_spec (zlen rest) (fh_remaining_length h)) as [|Hle]; [by left|].
  set (n := Z.to_nat (fh_remaining_length h)). unfold zlen in Hle.
  rewrite split_at_ok by lia. cbn [mbind outcome_bind].
  assert (length (take n rest) = n) as Hn by (rewrite length_take; lia).
  assert (forall more, split_at n (take n rest ++ more) = @Ok Mqtt5ParseError _ (take n rest, more))
    as Hsplit by (intros more; rewrite <-Hn at 1; apply split_at_app).
  assert (forall more, (zlen (take n rest ++ more) <? fh_remaining_length h) = false) as Hlong.
  { intros more. apply Z.ltb_ge. rewrite zlen_app. unfold zlen. lia. }
  destruct (parse_body h (take n rest)) as [[r a]|e| |] eqn:Hb; cbn [mbind outcome_bind]; try done.
  - exists (pre ++ take n rest). rewrite <-app_assoc, take_drop. split; [done|]. split.
    + intros more. rewrite <-app_assoc, Hok. cbn [mbind outcome_bind].
      rewrite decide_True, Hc by done. cbn [mbind outcome_bind].
      rewrite Hlong, Hsplit. cbn [mbind outcome_bind]. by rewrite Hb.
    + intros j Hj. rewrite length_app, Hn in Hj.
      destruct (decide (j < length pre)%nat) as [Hlt|Hge].
      * rewrite take_app_le by lia. destruct (Hinc j Hlt) as [c ->]. by eexists.
      * rewrite take_app_ge, Hok by lia. cbn [mbind outcome_bind].
        rewrite decide_True, Hc by done. cbn [mbind outcome_bind].
        rewrite (proj2 (Z.ltb_lt _ _)); [by eexists|].
        unfold zlen. rewrite take_take, length_take. lia.
  - right. intros more. rewrite <-(take_drop n rest), <-!app_assoc, Hok. cbn [mbind outcome_bind].
    rewrite decide_True, Hc by done. cbn [mbind outcome_bind].
    rewrite Hlong, Hsplit. cbn [mbind outcome_bind]. by rewrite Hb.
Qed.

End ParseWithBody.

(** ** The contract of a packet's codec *)

(** The wire format of one packet type: what the encoder accepts, the body it
    writes, and how the packet reads back.  [ps_wf] is the range of the Rust
    types, [ps_readable] what the parser checks and the encoder does not. *)
Record PacketSpec (A : Type) := {
  ps_type : ControlPacketType;
  ps_flags : A -> Z;
  ps_wf : A -> Prop;
  ps_ok : A -> bool;
  ps_readable : A -> bool;
  ps_body : A -> bytes;
  ps_norm : A -> A;
}.
Arguments ps_type {A} p.
Arguments ps_flags {A} p a.
Arguments ps_wf {A} p a.
Arguments ps_ok {A} p a.
Arguments ps_readable {A} p a.
Arguments ps_body {A} p a.
Arguments ps_norm {A} p a.

(** Unfold the fields of a specification, and nothing else. *)
Ltac spec_cbn :=
  cbn [ps_type ps_flags ps_wf ps_ok ps_readable ps_body ps_norm mbind outcome_bind fst snd
       fh_packet_type fh_flags fh_dup fh_qos fh_retain fh_remaining_length header_of] in *.

Section Spec.
Context {A : Type} (S : PacketSpec A).

Definition spec_ok (a : A) : bool :=
  ps_ok S a && (zlen (ps_body S a) <=? MAX_VARIABLE_BYTE_INTEGER).
Definition spec_frame (a : A) : bytes := frame (ps_type S) (ps_flags S a) (ps_body S a).

(** A packet that parsing yields: it can be encoded and reads back as itself. *)
Definition spec_canonical (a : A) : Prop :=
  ps_wf S a /\ spec_ok a = true /\ ps_readable S a = true /\ ps_norm S a = a.

Lemma spec_ok_true a :
  spec_ok a = true <-> ps_ok S a = true /\ zlen (ps_body S a) <= MAX_VARIABLE_BYTE_INTEGER.
Proof. unfold spec_ok. by rewrite andb_true_iff, Z.leb_le. Qed.
End Spec.

(** Compare two success conditions up to the grouping of their conjuncts. *)
Ltac ok_eq :=
  unfold spec_ok; spec_cbn; cbn [andb];
  rewrite ?negb_involutive, ?andb_true_r, ?andb_assoc; cbn [andb]; reflexivity.

(** What a packet parser promises. *)
Class PacketParser {A} (S : PacketSpec A) (build : A -> Packet)
    (parse : bytes -> Z -> result (bytes * Packet)) : Prop := {
  parser_flags : forall a, spec_ok S a = true -> ps_wf S a -> flags_ok (ps_type S) (ps_flags S a);
  parser_reads : forall a max,
    ps_wf S a -> ps_readable S a = true -> spec_ok S a = true -> zlen (ps_body S a) <= max ->
    reads (fun i => parse i max) (spec_frame S a) (build (ps_norm S a));
  parser_parses : forall input max,
    is_bytes input ->
    parses (parse input max) input (fun p pre => exists a,
      p = build a /\ spec_canonical S a /\ zlen (ps_body S a) <= max /\
      (length (spec_frame S a) <= length pre)%nat);
  parser_streaming : forall max, streaming (fun i => parse i max);
}.

(** What a packet encoder promises. *)
Class PacketEncoder {B : BytesCrate} {A} (S : PacketSpec A) (encode : A -> encoder) : Prop :=
  encoder_writes : forall a, ps_wf S a -> writes (encode a) (spec_ok S a) (spec_frame S a).

(** Both hold of a parser with the same results. *)
Lemma streaming_ext {A} (p q : bytes -> result (bytes * A)) :
  (forall i, p i = q i) -> streaming p -> streaming q.
Proof.
  intros E Hp input. rewrite <-E. specialize (Hp input).
  destruct (p input) as [[rest v]|e| |]; try done.
  - destruct Hp as (pre & -> & Hok & Hinc). exists pre. split; [done|]. split.
    + intros more. by rewrite <-E.
    + intros j Hj. rewrite <-E. auto.
  - destruct Hp as [?|Hp]; [by left|right]. intros more. by rewrite <-E.
Qed.

Lemma parser_ext {A} (S : PacketSpec A) build p q :
  (forall i max, p i max = q i max) -> PacketParser S build p -> PacketParser S build q.
Proof.
  intros E [Hf Hr Hp Hs]. split; [done|..].
  - intros a max ? ? ? ? rest. rewrite <-E. by apply Hr.
  - intros input max Hin. rewrite <-E. by apply Hp.
  - intros max. apply (streaming_ext (fun i => p i max)); [intros i; apply E|apply Hs].
Qed.

(** A parser built on [parse_with_body] keeps the promise when its body parser does. *)
Lemma parser_of_body {A} (S : PacketSpec A) (build : A -> Packet) unexpected check incomplete
    parse_body :
  (forall h, returns (check h)) ->
  (forall a, ps_ok S a = true -> ps_wf S a -> flags_ok (ps_type S) (ps_flags S a)) ->
  (forall a, ps_wf S a -> ps_readable S a = true -> spec_ok S a = true ->
     check (header_of (ps_type S) (ps_flags S a) (zlen (ps_body S a))) = Ok tt /\
     exists r, parse_body (header_of (ps_type S) (ps_flags S a) (zlen (ps_body S a)))
                 (ps_body S a) = Ok (r, build (ps_norm S a))) ->
  (forall flags body, flags_ok (ps_type S) flags -> is_bytes body ->
     returns_with (parse_body (header_of (ps_type S) flags (zlen body)) body) (fun '(_, p) =>
       exists a, p = build a /\ ps_wf S a /\ ps_ok S a = true /\ ps_readable S a = true /\
         ps_norm S a = a /\ (length (ps_body S a) <= length body)%nat)) ->
  PacketParser S build (parse_with_body (ps_type S) unexpected check incomplete parse_body).
Proof.
  intros Hc Hf Hr Hp. split.
  - intros a Ha Hwf. apply Hf; [|done]. by apply spec_ok_true in Ha as [? _].
  - intros a max Hwf Hread Hok Hmax. destruct (Hr a Hwf Hread Hok) as (Hck & r & Hb).
    apply spec_ok_true in Hok as [? ?]. eapply reads_frame; eauto.
  - intros input max Hin.
    eapply parses_mono; [apply (parse_with_body_parses _ _ _ _ _ _ max _ Hin Hc Hp)|].
    intros p pre (flags & body & Hflags & Hmax & Hle & Hlen & a & -> & Hwf & Hok & Hread & Hn & Hb).
    assert (zlen (ps_body S a) <= zlen body) as Hz by (unfold zlen; lia).
    exists a. split; [done|]. split; [|split; [lia|]].
    + split; [done|]. split; [|done]. apply spec_ok_true. split; [done|lia].
    + unfold spec_frame, frame in *. simpl in *. rewrite !length_app in *.
      pose proof (vbi_bytes_mono (zlen (ps_body S a)) (zlen body)).
      pose proof (zlen_nonneg (ps_body S a)). lia.
  - intros max. apply parse_with_body_streaming.
Qed.

(** The same from a body parser that yields the packet's struct. *)
Definition canonical_body {A} (S : PacketSpec A) (a : A) (pre : bytes) : Prop :=
  ps_wf S a /\ ps_ok S a = true /\ ps_readable S a = true /\ ps_norm S a = a /\
  (length (ps_body S a) <= length pre)%nat.

Lemma parser_of_body_parser {A} (S : PacketSpec A) (build : A -> Packet) unexpected check
    incomplete (parse_body : FixedHeader -> bytes -> result (bytes * A)) :
  (forall h, returns (check h)) ->
  (forall a, ps_ok S a = true -> ps_wf S a -> flags_ok (ps_type S) (ps_flags S a)) ->
  (forall a, check (header_of (ps_type S) (ps_flags S a) (zlen (ps_body S a))) = Ok tt) ->
  (forall a, ps_wf S a -> ps_readable S a = true -> ps_ok S a = true ->
     zlen (ps_body S a) <= MAX_VARIABLE_BYTE_INTEGER ->
     exists r, parse_body (header_of (ps_type S) (ps_flags S a) (zlen (ps_body S a)))
                 (ps_body S a) = Ok (r, ps_norm S a)) ->
  (forall flags body, flags_ok (ps_type S) flags -> is_bytes body ->
     parses (parse_body (header_of (ps_type S) flags (zlen body)) body) body
       (canonical_body S)) ->
  PacketParser S build (parse_with_body (ps_type S) unexpected check incomplete
    (fun h body => '(r, a) ← parse_body h body; Ok (r, build a))).
Proof.
  intros Hc Hf Hck Hr Hp. apply parser_of_body; [done|done| |].
  - intros a Hwf Hread [Hok Hlen]%spec_ok_true. split; [done|].
    destruct (Hr a Hwf Hread Hok Hlen) as [r ->]. by eexists.
  - intros flags body Hflags Hb. specialize (Hp flags body Hflags Hb).
    destruct (parse_body (header_of (ps_type S) flags (zlen body)) body) as [[r a]|e| |];
      try done.
    destruct Hp as (pre & -> & ? & ? & ? & ? & ?). exists a. rewrite length_app.
    split_and!; try done. lia.
Qed.

(** ** The short form of acknowledgements, DISCONNECT and AUTH

    A reason code and properties, each left out when it is the default. *)
Definition short_form (default_reason r : ReasonCode) (p : Properties) : bytes :=
  if bool_decide (r <> default_reason) || bool_decide (p <> default_properties) then
    V5ReasonCode.encode r :: (if bool_decide (p <> default_properties) then props_bytes p else [])
  else [].

(** The encoders do not run the property encoder on the default properties. *)
Definition short_props_ok (scope : PropertyScope) (p : Properties) : bool :=
  if bool_decide (p <> default_properties) then props_ok scope p else true.

Lemma short_props_ok_props scope p : short_props_ok scope p = props_ok scope p.
Proof.
  unfold short_props_ok. case_bool_decide as H; [done|].
  destruct (decide (p = default_properties)) as [->|]; [by rewrite props_default_ok|tauto].
Qed.

Definition reason_ok (r : ReasonCode) (t : ControlPacketType) : bool :=
  match validate_for_packet r t with Ok _ => true | _ => false end.

Lemma reason_ok_true r t : reason_ok r t = true <-> validate_for_packet r t = Ok tt.
Proof.
  unfold reason_ok. pose proof (validate_for_packet_returns r t).
  by destruct (validate_for_packet r t) as [[]| | |].
Qed.

Section ShortForm.
Context {B : BytesCrate} {BS : BytesCrateSpec B}.

Lemma writes_reason_check r t : writes (lift (validate_for_packet r t)) (reason_ok r t) [].
Proof. apply writes_check; [apply validate_for_packet_returns|by rewrite reason_ok_true]. Qed.

Lemma writes_short_form d r p scope :
  wf_properties p ->
  writes
    (if bool_decide (r <> d) || bool_decide (p <> default_properties) then
       put_u8 (V5ReasonCode.encode r);;
       if bool_decide (p <> default_properties) then V5Properties.encode p scope else mret tt
     else mret tt)
    (short_props_ok scope p) (short_form d r p).
Proof.
  intros Hwf. unfold short_form, short_props_ok.
  destruct (bool_decide (p <> default_properties)); rewrite ?orb_true_r, ?orb_false_r.
  - eapply writes_eq; [eapply writes_bind; [apply writes_put_u8|by apply writes_properties]|done..].
  - destruct (bool_decide (r <> d)); [|apply writes_ret].
    eapply writes_eq; [eapply writes_bind; [apply writes_put_u8|apply writes_ret]|done..].
Qed.

End ShortForm.
#[export] Hint Resolve writes_reason_check writes_short_form : wp.

(** The three forms. *)
Lemma short_form_cases d r p :
  (r = d /\ p = default_properties /\ short_form d r p = []) \/
  (p = default_properties /\ short_form d r p = [V5ReasonCode.encode r]) \/
  short_form d r p = V5ReasonCode.encode r :: props_bytes p.
Proof.
  unfold short_form. destruct (decide (p = default_properties)) as [Hp|Hp];
    [rewrite (bool_decide_eq_false_2 (p <> default_properties)), orb_false_r by tauto
    |rewrite (bool_decide_eq_true_2 (p <> default_properties)), orb_true_r by done; auto].
  destruct (decide (r = d)) as [Hr|Hr];
    [rewrite bool_decide_eq_false_2 by tauto|rewrite bool_decide_eq_true_2 by done]; auto.
Qed.

Lemma props_bytes_nonempty p : props_bytes p <> [].
Proof.
  unfold props_bytes. intros H. apply app_eq_nil in H as [H _].
  pose proof (vbi_bytes_length (props_len p)) as Hl. rewrite H in Hl. simpl in Hl.
  assert (0 <= props_len p) by (apply Z.mod_pos_bound; lia). lia.
Qed.

(** Properties that are left out when they are the default. *)
Definition short_props (p : Properties) : bytes :=
  if bool_decide (p <> default_properties) then props_bytes p else [].

Lemma short_form_length d r p : (length (short_form d r p) <= 1 + length (short_props p))%nat.
Proof. unfold short_form, short_props. repeat case_bool_decide; simpl; lia. Qed.

Lemma short_form_default d : short_form d d default_properties = [].
Proof.
  unfold short_form. by rewrite bool_decide_eq_false_2, bool_decide_eq_false_2 by tauto.
Qed.

Lemma short_props_default : short_props default_properties = [].
Proof. unfold short_props. by rewrite bool_decide_eq_false_2 by tauto. Qed.

Lemma short_props_length p : (length (short_props p) <= length (props_bytes p))%nat.
Proof. unfold short_props. case_bool_decide; simpl; lia. Qed.
