(* ===== verification/V5Ack.v ===== *)
(** * PUBACK, PUBREC, PUBREL and PUBCOMP ([mqtt/src/v5/ack.rs] and the four
    files that call it)

    The shared acknowledgement codec, its four instances, and their contracts:
    a packet with reason [Success] and no properties takes the two-byte form. *)

From S2P Require Import Prelude Buf Packet V5Common V5FixedHeader V5Properties V5PropertiesSpec.
From S2P Require Import V5ReasonCode V5Frame.

Definition fixed_header_flags (packet_type : ControlPacketType) : Z :=
  match packet_type with CptPubrel => 2 | _ => 0 end.

Definition parse_body (input : bytes) (packet_type : ControlPacketType)
    (property_scope : PropertyScope) : result (bytes * Ack) :=
  '(input, packet_identifier) ← parse_u16 input "publish acknowledgement packet identifier";
  if packet_identifier =? 0 then
    Err (EMalformedPacket "publish acknowledgement packet identifier must not be zero")
  else if decide (input = []) then
    Ok (input, mkAck V5_0 packet_identifier RcSuccess default_properties)
  else
    '(input, reason_code) ← parse_u8 input "publish acknowledgement reason code";
    reason_code ← decode_for_packet reason_code packet_type;
    '(input, properties) ←
      (if decide (input = []) then Ok (input, default_properties)
       else V5Properties.parse input property_scope);
    if decide (input = []) then
      Ok (input, mkAck V5_0 packet_identifier reason_code properties)
    else Err (EMalformedPacket "publish acknowledgement payload has trailing bytes").

Definition parse (input : bytes) (max_message_size : Z)
    (expected_packet_type : ControlPacketType) (property_scope : PropertyScope)
    (packet_builder : Ack -> Packet) : result (bytes * Packet) :=
  parse_with_body expected_packet_type "unexpected publish acknowledgement packet type"
    (fun fixed_header =>
       if fh_remaining_length fixed_header <? 2 then
         Err (EMalformedPacket "publish acknowledgement remaining length must be at least 2")
       else Ok tt)
    "publish acknowledgement body"
    (fun _ body =>
       '(r, ack) ← parse_body body expected_packet_type property_scope;
       Ok (r, packet_builder ack))
    input max_message_size.

Section Encode.
Context {B : BytesCrate}.

(** The statements of [encode] that fill [body]. *)
Definition encode_body (packet : Ack) (property_scope : PropertyScope) : encoder :=
  put_u16 (ak_packet_identifier packet);;
  if bool_decide (ak_reason_code packet <> RcSuccess)
     || bool_decide (ak_properties packet <> default_properties) then
    put_u8 (V5ReasonCode.encode (ak_reason_code packet));;
    if bool_decide (ak_properties packet <> default_properties)
    then V5Properties.encode (ak_properties packet) property_scope
    else mret tt
  else mret tt.

Definition encode (packet : Ack) (packet_type : ControlPacketType)
    (property_scope : PropertyScope) : encoder :=
  if negb (bool_decide (ak_protocol_version packet = V5_0)) then
    lift (Err (EMalformedPacket "publish acknowledgement packet is not MQTT 5.0"))
  else if ak_packet_identifier packet =? 0 then
    lift (Err (EMalformedPacket "publish acknowledgement packet identifier must not be zero"))
  else
    lift (validate_for_packet (ak_reason_code packet) packet_type);;
    body ← lift (with_new_buffer (encode_body packet property_scope));
    encode_with_body packet_type (fixed_header_flags packet_type) body.

(** [puback.rs], [pubrec.rs], [pubrel.rs], [pubcomp.rs]. *)
Definition puback_encode (packet : Ack) : encoder := encode packet CptPuback ScPuback.
Definition pubrec_encode (packet : Ack) : encoder := encode packet CptPubrec ScPubrec.
Definition pubrel_encode (packet : Ack) : encoder := encode packet CptPubrel ScPubrel.
Definition pubcomp_encode (packet : Ack) : encoder := encode packet CptPubcomp ScPubcomp.

Definition puback_to_bytes (packet : Ack) : result BytesMut :=
  with_new_buffer (puback_encode packet).
Definition pubrec_to_bytes (packet : Ack) : result BytesMut :=
  with_new_buffer (pubrec_encode packet).
Definition pubrel_to_bytes (packet : Ack) : result BytesMut :=
  with_new_buffer (pubrel_encode packet).
Definition pubcomp_to_bytes (packet : Ack) : result BytesMut :=
  with_new_buffer (pubcomp_encode packet).

End Encode.

Definition puback_parse (input : bytes) (max_message_size : Z) : result (bytes * Packet) :=
  parse input max_message_size CptPuback ScPuback PPuback.
Definition pubrec_parse (input : bytes) (max_message_size : Z) : result (bytes * Packet) :=
  parse input max_message_size CptPubrec ScPubrec PPubrec.
Definition pubrel_parse (input : bytes) (max_message_size : Z) : result (bytes * Packet) :=
  parse input max_message_size CptPubrel ScPubrel PPubrel.
Definition pubcomp_parse (input : bytes) (max_message_size : Z) : result (bytes * Packet) :=
  parse input max_message_size CptPubcomp ScPubcomp PPubcomp.

(** ** The contract *)

Definition ack_spec (t : ControlPacketType) (scope : PropertyScope) : PacketSpec Ack := {|
  ps_type := t;
  ps_flags := fun _ => fixed_header_flags t;
  ps_wf := fun a => is_u16 (ak_packet_identifier a) /\ wf_properties (ak_properties a);
  ps_ok := fun a =>
    bool_decide (ak_protocol_version a = V5_0) && negb (ak_packet_identifier a =? 0)
    && reason_ok (ak_reason_code a) t && short_props_ok scope (ak_properties a);
  ps_readable := fun a => props_readable (ak_properties a);
  ps_body := fun a =>
    be_u16 (ak_packet_identifier a)
    ++ short_form RcSuccess (ak_reason_code a) (ak_properties a);
  ps_norm := fun a =>
    mkAck (ak_protocol_version a) (ak_packet_identifier a)
      (canonical_reason (ak_reason_code a)) (ak_properties a);
|}.

Definition is_ack (t : ControlPacketType) : bool :=
  match t with CptPuback | CptPubrec | CptPubrel | CptPubcomp => true | _ => false end.

Ltac ack_cbn :=
  unfold ack_spec in *; spec_cbn;
  cbn [ak_protocol_version ak_packet_identifier ak_reason_code ak_properties] in *.

Section Contract.
Context (t : ControlPacketType) (scope : PropertyScope) (Ht : is_ack t = true).
Abbreviation spec := (ack_spec t scope).

Lemma ack_flags_ok : flags_ok t (fixed_header_flags t).
Proof. destruct t; try discriminate Ht; by split. Qed.

Lemma ack_writes {B : BytesCrate} {BS : BytesCrateSpec B} :
  PacketEncoder spec (fun a => encode a t scope).
Proof.
  intros a [Hid Hp]. unfold encode. eapply writes_eq.
  - do 2 eapply writes_guard. eapply writes_bind; [apply writes_reason_check|].
    apply writes_frame; [apply ack_flags_ok|].
    eapply writes_bind; [apply writes_put_u16|by apply writes_short_form].
  - unfold spec_ok. simpl. by rewrite negb_involutive, !andb_assoc.
  - done.
Qed.

Lemma ack_body_reads a :
  ps_wf spec a -> ps_readable spec a = true -> ps_ok spec a = true ->
  zlen (ps_body spec a) <= MAX_VARIABLE_BYTE_INTEGER ->
  exists r, parse_body (ps_body spec a) t scope = Ok (r, ps_norm spec a).
Proof.
  intros [Hid Hp] Hread Hok Hlen. ack_cbn.
  rewrite !andb_true_iff, negb_true_iff, bool_decide_eq_true, short_props_ok_props in Hok.
  destruct Hok as (((Hv & Hnz) & Hr) & Hpo). apply reason_ok_true in Hr.
  destruct a as [v id r p]. ack_cbn. subst v. unfold parse_body.
  rewrite reads_u16. cbn [mbind outcome_bind]. rewrite Hnz.
  destruct (short_form_cases RcSuccess r p) as [(-> & -> & ->)|[(-> & ->)| Hs]].
  - by eexists.
  - rewrite decide_False by done. rewrite <-(app_nil_r [_]), reads_u8. cbn [mbind outcome_bind].
    rewrite (decode_for_packet_encode r t Hr). by eexists.
  - rewrite Hs in *. rewrite decide_False by done. change (?x :: ?l) with ([x] ++ l).
    rewrite reads_u8. cbn [mbind outcome_bind]. rewrite (decode_for_packet_encode r t Hr).
    cbn [mbind outcome_bind]. rewrite decide_False by apply props_bytes_nonempty.
    rewrite <-(app_nil_r (props_bytes p)), reads_props_ok; [by eexists|done..|].
    autorewrite with zlen in Hlen. lia.
Qed.
Lemma ack_body_parses body :
  is_bytes body ->
  parses (parse_body body t scope) body (canonical_body spec).
Proof.
  intros Hin. unfold canonical_body. unfold parse_body. parsed. intros rest id pre [Hid Hpre] Hrest _.
  cbn [mbind outcome_bind]. destruct (id =? 0) eqn:Hnz; [done|].
  destruct (decide (rest = [])) as [_|_].
  { apply parses_Ok. ack_cbn. rewrite short_form_default, app_nil_r, Hnz, short_props_ok_props.
    split_and!; try done; [apply wf_properties_default|by destruct t|].
    by rewrite app_nil_r, Hpre. }
  parsed. intros rest1 v pre1 [-> _] Hrest1 _. cbn [mbind outcome_bind].
  eapply parses_lift; [apply decode_for_packet_returns|]. intros r (Hv & Hcan & Hval).
  eapply (parses_bind _ _ _ (fun p pre => valid_properties scope p /\
    zlen (props_body p) <= MAX_VARIABLE_BYTE_INTEGER /\
    (length (short_props p) <= length pre)%nat)); [done| |].
  { destruct (decide (rest1 = [])).
    - apply parses_Ok. rewrite short_props_default. split; [constructor|done].
    - eapply parses_mono; [by apply parse_properties_parses|]. intros p pre2 (? & ? & ?).
      pose proof (short_props_length p). split; [done|]. split; [done|lia]. }
  intros rest2 p pre2 (Hp & Hpl & Hlen) _ _. cbn [mbind outcome_bind].
  destruct (decide (rest2 = [])); [|done]. apply parses_Ok. ack_cbn.
  rewrite Hcan, Hnz, short_props_ok_props, (valid_props_ok _ _ Hp Hpl), (valid_readable _ _ Hp).
  rewrite (proj2 (reason_ok_true r t) Hval). rewrite !app_nil_r, !length_app.
  pose proof (short_form_length RcSuccess r p). pose proof (valid_wf_properties _ _ Hp).
  split_and!; try done. simpl. lia.
Qed.

Lemma ack_contract (build : Ack -> Packet) :
  PacketParser spec build (fun i max => parse i max t scope build).
Proof.
  apply (parser_of_body_parser spec build _ _ _ (fun _ body => parse_body body t scope)).
  - intros h. by destruct (_ <? _).
  - intros a _ _. apply ack_flags_ok.
  - intros a. rewrite (proj2 (Z.ltb_ge _ _)); [done|]. ack_cbn. autorewrite with zlen.
    pose proof (zlen_nonneg (short_form RcSuccess (ak_reason_code a) (ak_properties a))). lia.
  - apply ack_body_reads.
  - intros flags body _. apply ack_body_parses.
Qed.

End Contract.

#[export] Instance puback_parser : PacketParser (ack_spec CptPuback ScPuback) PPuback puback_parse
  := ack_contract CptPuback ScPuback eq_refl PPuback.
#[export] Instance pubrec_parser : PacketParser (ack_spec CptPubrec ScPubrec) PPubrec pubrec_parse
  := ack_contract CptPubrec ScPubrec eq_refl PPubrec.
#[export] Instance pubrel_parser : PacketParser (ack_spec CptPubrel ScPubrel) PPubrel pubrel_parse
  := ack_contract CptPubrel ScPubrel eq_refl PPubrel.
#[export] Instance pubcomp_parser :
    PacketParser (ack_spec CptPubcomp ScPubcomp) PPubcomp pubcomp_parse
  := ack_contract CptPubcomp ScPubcomp eq_refl PPubcomp.

Section Encoders.
Context {B : BytesCrate} {BS : BytesCrateSpec B}.
#[export] Instance puback_encoder : PacketEncoder (ack_spec CptPuback ScPuback) puback_encode
  := ack_writes CptPuback ScPuback eq_refl.
#[export] Instance pubrec_encoder : PacketEncoder (ack_spec CptPubrec ScPubrec) pubrec_encode
  := ack_writes CptPubrec ScPubrec eq_refl.
#[export] Instance pubrel_encoder : PacketEncoder (ack_spec CptPubrel ScPubrel) pubrel_encode
  := ack_writes CptPubrel ScPubrel eq_refl.
#[export] Instance pubcomp_encoder : PacketEncoder (ack_spec CptPubcomp ScPubcomp) pubcomp_encode
  := ack_writes CptPubcomp ScPubcomp eq_refl.
End Encoders.
