(* ===== verification/V5Connack.v ===== *)
(** * CONNACK ([mqtt/src/v5/connack.rs]) *)

From S2P Require Import Prelude Buf Packet V5Common V5FixedHeader V5Properties V5PropertiesSpec.
From S2P Require Import V5ReasonCode V5Frame.

Definition parse_body (input : bytes) : result (bytes * Connack) :=
  '(input, acknowledge_flags) ← parse_u8 input "CONNACK acknowledge flags";
  if negb (Z.land acknowledge_flags 0xfe =? 0) then
    Err (EMalformedPacket "CONNACK acknowledge flags reserved bits must be zero")
  else
    let session_present := negb (Z.land acknowledge_flags 0x01 =? 0) in
    '(input, reason_code) ← parse_u8 input "CONNACK reason code";
    reason_code ← decode_for_packet reason_code CptConnack;
    if bool_decide (reason_code <> RcSuccess) && session_present then
      Err (EMalformedPacket "CONNACK session present requires success reason code")
    else
      '(input, properties) ← V5Properties.parse input ScConnack;
      if decide (input = []) then
        Ok (input, mkConnack V5_0 session_present reason_code properties)
      else Err (EMalformedPacket "CONNACK payload has trailing bytes").

Definition parse (input : bytes) (max_message_size : Z) : result (bytes * Packet) :=
  parse_with_body CptConnack "expected CONNACK packet" no_check "CONNACK body"
    (fun _ body => '(r, connack) ← parse_body body; Ok (r, PConnack connack))
    input max_message_size.

Section Encode.
Context {B : BytesCrate}.

(** The statements of [encode] that fill [body]. *)
Definition encode_body (packet : Connack) : encoder :=
  put_u8 (Z.b2z (ca_session_present packet));;
  put_u8 (V5ReasonCode.encode (ca_reason_code packet));;
  V5Properties.encode (ca_properties packet) ScConnack.

Definition encode (packet : Connack) : encoder :=
  if negb (bool_decide (ca_protocol_version packet = V5_0)) then
    lift (Err (EMalformedPacket "CONNACK packet is not MQTT 5.0"))
  else if bool_decide (ca_reason_code packet <> RcSuccess) && ca_session_present packet then
    lift (Err (EMalformedPacket "CONNACK session present requires success reason code"))
  else
    lift (validate_for_packet (ca_reason_code packet) CptConnack);;
    body ← lift (with_new_buffer (encode_body packet));
    encode_with_body CptConnack 0 body.

Definition to_bytes (packet : Connack) : result BytesMut := with_new_buffer (encode packet).

End Encode.

(** ** The contract *)

Definition connack_spec : PacketSpec Connack := {|
  ps_type := CptConnack;
  ps_flags := fun _ => 0;
  ps_wf := fun a => wf_properties (ca_properties a);
  ps_ok := fun a =>
    bool_decide (ca_protocol_version a = V5_0)
    && negb (bool_decide (ca_reason_code a <> RcSuccess) && ca_session_present a)
    && reason_ok (ca_reason_code a) CptConnack && props_ok ScConnack (ca_properties a);
  ps_readable := fun a => props_readable (ca_properties a);
  ps_body := fun a =>
    [Z.b2z (ca_session_present a)] ++ [V5ReasonCode.encode (ca_reason_code a)]
    ++ props_bytes (ca_properties a);
  ps_norm := fun a =>
    mkConnack (ca_protocol_version a) (ca_session_present a)
      (canonical_reason (ca_reason_code a)) (ca_properties a);
|}.

Ltac connack_cbn :=
  unfold connack_spec, canonical_body in *; spec_cbn;
  cbn [ca_protocol_version ca_session_present ca_reason_code ca_properties] in *.

#[export] Instance connack_encoder {B : BytesCrate} {BS : BytesCrateSpec B} :
  PacketEncoder connack_spec encode.
Proof.
  intros a Hp. unfold encode. eapply writes_eq.
  - do 2 eapply writes_guard. eapply writes_bind; [apply writes_reason_check|].
    apply writes_frame; [done|]. do 2 (eapply writes_bind; [apply writes_put_u8|]).
    by apply writes_properties.
  - unfold connack_spec. ok_eq.
  - done.
Qed.

(** A canonical reason code may replace a reason code in the session check. *)
Lemma session_check r s :
  bool_decide (r <> RcSuccess) && s = false ->
  bool_decide (canonical_reason r <> RcSuccess) && s = false.
Proof. by destruct r, s. Qed.

Lemma connack_body_reads a :
  ps_wf connack_spec a -> ps_readable connack_spec a = true -> ps_ok connack_spec a = true ->
  zlen (ps_body connack_spec a) <= MAX_VARIABLE_BYTE_INTEGER ->
  exists r, parse_body (ps_body connack_spec a) = Ok (r, ps_norm connack_spec a).
Proof.
  destruct a as [v s r p]. intros Hp Hread Hok Hlen. connack_cbn.
  rewrite !andb_true_iff, negb_true_iff, bool_decide_eq_true in Hok.
  destruct Hok as (((-> & Hs) & Hr) & Hpo). apply reason_ok_true in Hr.
  unfold parse_body. rewrite reads_u8. cbn [mbind outcome_bind].
  assert ((Z.land (Z.b2z s) 0xfe =? 0) = true) as -> by by destruct s.
  cbn [negb]. rewrite reads_u8. cbn [mbind outcome_bind].
  rewrite (decode_for_packet_encode r _ Hr). cbn [mbind outcome_bind].
  assert (negb (Z.land (Z.b2z s) 1 =? 0) = s) as -> by by destruct s.
  rewrite (session_check r s Hs). rewrite <-(app_nil_r (props_bytes p)), reads_props_ok;
    [by eexists|done..|autorewrite with zlen in Hlen; lia].
Qed.

Lemma connack_body_parses body :
  is_bytes body -> parses (parse_body body) body (canonical_body connack_spec).
Proof.
  intros Hin. unfold parse_body. parsed. intros rest f pre [-> Hf] Hrest _.
  cbn [mbind outcome_bind]. destruct (negb (Z.land f 0xfe =? 0)); [done|].
  parsed. intros rest1 v pre1 [-> _] Hrest1 _. cbn [mbind outcome_bind].
  eapply parses_lift; [apply decode_for_packet_returns|]. intros r (Hv & Hcan & Hval).
  destruct (bool_decide (r <> RcSuccess) && _) eqn:Hs; [done|].
  parsed. intros rest2 p pre2 (Hp & Hpl & Hlen) _ _. cbn [mbind outcome_bind].
  destruct (decide (rest2 = [])); [|done]. apply parses_Ok. connack_cbn.
  rewrite Hcan, Hs, (valid_props_ok _ _ Hp Hpl), (valid_readable _ _ Hp).
  rewrite (proj2 (reason_ok_true r _) Hval). pose proof (valid_wf_properties _ _ Hp).
  split_and!; try done. rewrite app_nil_r, !length_app. simpl. lia.
Qed.

#[export] Instance connack_parser : PacketParser connack_spec PConnack parse.
Proof.
  apply (parser_of_body_parser connack_spec PConnack _ _ _ (fun _ body => parse_body body)); try done.
  - apply connack_body_reads.
  - intros flags body _. apply connack_body_parses.
Qed.
