(* ===== verification/V5Publish.v ===== *)
(** * PUBLISH ([mqtt/src/v5/publish.rs]) *)

From S2P Require Import Prelude Utf8 Buf Packet V5Common V5FixedHeader V5Properties.
From S2P Require Import V5PropertiesSpec V5Frame.

Definition parse_body (fixed_header : FixedHeader) (input : bytes) : result (bytes * Publish) :=
  '(input, topic_name) ← parse_utf8_string input;
  if decide (topic_name = ""%string) then
    Err (EMalformedPacket "PUBLISH topic name must not be empty")
  else
    '(input, packet_identifier) ←
      (if 0 <? fh_qos fixed_header then
         '(input, packet_identifier) ← parse_u16 input "PUBLISH packet identifier";
         if packet_identifier =? 0 then
           Err (EMalformedPacket "PUBLISH packet identifier must not be zero")
         else Ok (input, Some packet_identifier)
       else Ok (input, None));
    '(input, properties) ← V5Properties.parse input ScPublish;
    if bool_decide (is_Some (topic_alias properties)) then
      Err (EMalformedPacket "PUBLISH topic alias is not supported")
    else
      Ok ([], mkPublish V5_0 topic_name input (fh_qos fixed_header) (fh_retain fixed_header)
                (fh_dup fixed_header) packet_identifier properties None).

Definition parse (input : bytes) (max_message_size : Z) : result (bytes * Packet) :=
  parse_with_body CptPublish "expected PUBLISH packet" no_check "PUBLISH body"
    (fun fixed_header body =>
       '(r, publish) ← parse_body fixed_header body; Ok (r, PPublish publish))
    input max_message_size.

(** The [match (packet.qos, packet.packet_identifier)] of [encode]. *)
Definition check_packet_identifier (qos : Z) (packet_identifier : option Z) : result unit :=
  match packet_identifier with
  | Some id =>
      if qos =? 0 then Err (EMalformedPacket "QoS 0 PUBLISH must not include packet identifier")
      else if ((qos =? 1) || (qos =? 2)) && (id =? 0) then
        Err (EMalformedPacket "PUBLISH packet identifier must not be zero")
      else Ok tt
  | None =>
      if (qos =? 1) || (qos =? 2) then
        Err (EMalformedPacket "QoS 1 or 2 PUBLISH requires packet identifier")
      else Ok tt
  end.

(** The fixed header's flags. *)
Definition publish_flags (packet : Publish) : Z :=
  let flags := 0 in
  let flags := if pb_dup packet then Z.lor flags 0x08 else flags in
  let flags := Z.lor flags (Z.shiftl (Z.land (pb_qos packet) 0x03) 1) in
  if pb_retain packet then Z.lor flags 0x01 else flags.

Section Encode.
Context {B : BytesCrate}.

(** The statements of [encode] that fill [body]. *)
Definition encode_body (packet : Publish) : encoder :=
  encode_utf8_string (pb_topic_name packet);;
  match pb_packet_identifier packet with
  | Some packet_identifier => put_u16 packet_identifier
  | None => mret tt
  end;;
  V5Properties.encode (pb_properties packet) ScPublish;;
  extend_from_slice (pb_payload packet).

Definition encode (packet : Publish) : encoder :=
  if negb (bool_decide (pb_protocol_version packet = V5_0)) then
    lift (Err (EMalformedPacket "PUBLISH packet is not MQTT 5.0"))
  else if 2 <? pb_qos packet then
    lift (Err (EMalformedPacket "PUBLISH QoS must be 0, 1, or 2"))
  else if bool_decide (pb_topic_name packet = ""%string) then
    lift (Err (EMalformedPacket "PUBLISH topic name must not be empty"))
  else if bool_decide (is_Some (topic_alias (pb_properties packet))) then
    lift (Err (EMalformedPacket "PUBLISH topic alias is not supported"))
  else
    lift (check_packet_identifier (pb_qos packet) (pb_packet_identifier packet));;
    body ← lift (with_new_buffer (encode_body packet));
    encode_with_body CptPublish (publish_flags packet) body.

Definition to_bytes (packet : Publish) : result BytesMut := with_new_buffer (encode packet).

End Encode.

(** ** The contract *)

Definition identifier_bytes (packet_identifier : option Z) : bytes :=
  match packet_identifier with Some id => be_u16 id | None => [] end.

(** A packet identifier exactly with QoS 1 and 2, and not zero. *)
Definition identifier_ok (qos : Z) (packet_identifier : option Z) : bool :=
  match packet_identifier with
  | Some id => negb (qos =? 0) && negb (id =? 0)
  | None => qos =? 0
  end.

Definition publish_spec : PacketSpec Publish := {|
  ps_type := CptPublish;
  ps_flags := publish_flags;
  ps_wf := fun a =>
    is_str (pb_topic_name a) /\ is_bytes (pb_payload a) /\ is_u8 (pb_qos a) /\
    wf_properties (pb_properties a) /\
    match pb_packet_identifier a with Some id => is_u16 id | None => True end;
  ps_ok := fun a =>
    bool_decide (pb_protocol_version a = V5_0) && negb (2 <? pb_qos a)
    && negb (bool_decide (pb_topic_name a = ""%string))
    && negb (bool_decide (is_Some (topic_alias (pb_properties a))))
    && identifier_ok (pb_qos a) (pb_packet_identifier a)
    && (zlen (as_bytes (pb_topic_name a)) <=? u16_max)
    && props_ok ScPublish (pb_properties a);
  ps_readable := fun a => props_readable (pb_properties a);
  ps_body := fun a =>
    string_bytes (pb_topic_name a) ++ identifier_bytes (pb_packet_identifier a)
    ++ props_bytes (pb_properties a) ++ pb_payload a;
  ps_norm := fun a =>
    mkPublish (pb_protocol_version a) (pb_topic_name a) (pb_payload a) (pb_qos a)
      (pb_retain a) (pb_dup a) (pb_packet_identifier a) (pb_properties a) None;
|}.

Ltac publish_cbn :=
  unfold publish_spec, canonical_body in *; spec_cbn;
  cbn [pb_protocol_version pb_topic_name pb_payload pb_qos pb_retain pb_dup
       pb_packet_identifier pb_properties pb_expires_at_unix_secs] in *.

Lemma check_packet_identifier_returns qos id : returns (check_packet_identifier qos id).
Proof. unfold check_packet_identifier. by repeat case_match. Qed.

Lemma check_packet_identifier_ok qos id :
  0 <= qos <= 2 -> check_packet_identifier qos id = Ok tt <-> identifier_ok qos id = true.
Proof.
  intros Hq. unfold check_packet_identifier, identifier_ok.
  destruct id as [id|], (Z.eqb_spec qos 0), (Z.eqb_spec qos 1), (Z.eqb_spec qos 2); simpl;
    try lia; try destruct (id =? 0); done.
Qed.

(** The flags of a QoS up to 2 are admissible and decode to the packet's fields. *)
Lemma publish_flags_spec a :
  0 <= pb_qos a <= 2 ->
  flags_ok CptPublish (publish_flags a) /\
  header_of CptPublish (publish_flags a) = mkFixedHeader CptPublish (publish_flags a)
    (pb_dup a) (pb_qos a) (pb_retain a).
Proof.
  intros Hq. unfold publish_flags. destruct a as [v tn pl q r d id p e]. cbn in Hq |- *.
  assert (q = 0 \/ q = 1 \/ q = 2) as [->|[->| ->]] by lia; destruct d, r; done.
Qed.

#[export] Instance publish_encoder {B : BytesCrate} {BS : BytesCrateSpec B} :
  PacketEncoder publish_spec encode.
Proof.
  intros a (Ht & Hpl & Hq & Hp & Hid). unfold encode. unfold is_u8 in Hq.
  destruct (Z.ltb_spec 2 (pb_qos a)) as [Hgt|Hle].
  { eapply writes_eq; [eapply writes_guard, writes_fail|..]; unfold spec_ok; publish_cbn;
      by rewrite (proj2 (Z.ltb_lt _ _) Hgt), !andb_false_r. }
  eapply writes_eq.
  - do 3 eapply writes_guard.
    eapply writes_bind; [apply writes_check; [apply check_packet_identifier_returns|
      apply check_packet_identifier_ok; lia]|].
    apply writes_frame; [apply publish_flags_spec; lia|].
    eapply writes_bind; [apply writes_utf8_string|].
    eapply (writes_bind (ok1 := true) (o1 := identifier_bytes (pb_packet_identifier a))).
    { destruct (pb_packet_identifier a); [apply writes_put_u16|apply writes_ret]. }
    eapply writes_bind; [by apply writes_properties|apply writes_extend].
  - unfold publish_spec. rewrite <-(andb_true_r (bool_decide (pb_protocol_version a = V5_0))).
    unfold spec_ok. cbn [ps_ok ps_body]. rewrite (proj2 (Z.ltb_ge _ _) Hle). ok_eq.
  - done.
Qed.

Lemma publish_body_reads a :
  ps_wf publish_spec a -> ps_readable publish_spec a = true -> ps_ok publish_spec a = true ->
  zlen (ps_body publish_spec a) <= MAX_VARIABLE_BYTE_INTEGER ->
  exists r, parse_body
      (header_of CptPublish (publish_flags a) (zlen (ps_body publish_spec a)))
      (ps_body publish_spec a) = Ok (r, ps_norm publish_spec a).
Proof.
  intros (Ht & Hpl & Hq & Hp & Hid) Hread Hok Hlen.
  set (len := zlen (ps_body publish_spec a)). cbn [ps_ok publish_spec] in Hok.
  rewrite !andb_true_iff, !negb_true_iff, Z.ltb_ge, bool_decide_eq_true, !bool_decide_eq_false
    in Hok. destruct Hok as ((((((Hv & Hq2) & Htn) & Hta) & Hido) & Hts) & Hpo).
  unfold is_u8 in Hq. destruct (publish_flags_spec a ltac:(lia)) as [_ ->].
  destruct a as [v tn pl q rt d id p e]. publish_cbn. subst v. unfold parse_body.
  rewrite reads_utf8_string by done. cbn [mbind outcome_bind]. rewrite decide_False by done.
  cbn [fh_qos fh_retain fh_dup].
  assert (forall rest, (if 0 <? q then
      '(input, id) ← parse_u16 (identifier_bytes id ++ rest) "PUBLISH packet identifier";
      if id =? 0 then Err (EMalformedPacket "PUBLISH packet identifier must not be zero")
      else Ok (input, Some id)
    else Ok (identifier_bytes id ++ rest, None)) = Ok (rest, id)) as ->.
  { intros rest. destruct id as [id|]; simpl identifier_bytes; unfold identifier_ok in Hido.
    - apply andb_prop in Hido as [Hq0 Hi0]. rewrite negb_true_iff in Hq0, Hi0.
      apply Z.eqb_neq in Hq0. rewrite (proj2 (Z.ltb_lt _ _)) by lia.
      rewrite reads_u16. cbn [mbind outcome_bind]. by rewrite Hi0.
    - apply Z.eqb_eq in Hido as ->. done. }
  cbn [mbind outcome_bind].
  rewrite reads_props_ok; [|done..|autorewrite with zlen in Hlen;
    pose proof (zlen_nonneg (string_bytes tn)); pose proof (zlen_nonneg (identifier_bytes id));
    pose proof (zlen_nonneg pl); lia].
  cbn [mbind outcome_bind]. rewrite bool_decide_eq_false_2 by done. by eexists.
Qed.

Lemma land_shiftr_qos flags :
  flags_ok CptPublish flags -> 0 <= Z.shiftr (Z.land flags 6) 1 <= 2.
Proof.
  intros [Hf Hv].
  pose proof (all_below_sound 16 (fun f => match validate_flags CptPublish f with
    | Ok _ => (0 <=? Z.shiftr (Z.land f 6) 1) && (Z.shiftr (Z.land f 6) 1 <=? 2)
    | _ => true end) eq_refl flags Hf) as H.
  cbv beta in H. rewrite Hv in H. apply andb_prop in H as [?%Z.leb_le ?%Z.leb_le]. lia.
Qed.

Lemma publish_body_parses flags body :
  flags_ok CptPublish flags -> is_bytes body ->
  parses (parse_body (header_of CptPublish flags (zlen body)) body) body
    (canonical_body publish_spec).
Proof.
  intros Hflags Hin. pose proof (land_shiftr_qos flags Hflags) as Hq. unfold parse_body.
  parsed. intros rest tn pre (Htn & Htl & Hpre) Hrest _. cbn [mbind outcome_bind].
  destruct (decide (tn = ""%string)) as [|Hne]; [done|]. cbn [header_of fh_qos fh_retain fh_dup].
  set (q := Z.shiftr (Z.land flags 6) 1) in *.
  eapply (parses_bind _ _ _ (fun id pre => identifier_ok q id = true /\
    match id with Some id => is_u16 id | None => True end /\
    length pre = length (identifier_bytes id))); [done| |].
  { destruct (Z.ltb_spec 0 q).
    - parsed. intros rest1 id pre1 [Hid Hl] _ _. cbn [mbind outcome_bind].
      destruct (id =? 0) eqn:Hi; [done|]. apply parses_Ok. rewrite app_nil_r.
      unfold identifier_ok. by rewrite Hi, (proj2 (Z.eqb_neq q 0)) by lia.
    - apply parses_Ok. simpl. by rewrite (proj2 (Z.eqb_eq q 0)) by lia. }
  intros rest1 id pre1 (Hido & Hid & Hpre1) Hrest1 _. cbn [mbind outcome_bind].
  parsed. intros rest2 p pre2 (Hp & Hpl & Hlen) Hrest2 _. cbn [mbind outcome_bind].
  destruct (bool_decide (is_Some (topic_alias p))) eqn:Hta; [done|].
  exists rest2. split; [by rewrite app_nil_r|]. publish_cbn.
  rewrite Hta, Hido, (valid_props_ok _ _ Hp Hpl), (valid_readable _ _ Hp).
  rewrite (proj2 (Z.ltb_ge 2 q)), (proj2 (Z.leb_le _ u16_max) Htl) by lia.
  rewrite (bool_decide_eq_false_2 _ Hne). pose proof (valid_wf_properties _ _ Hp).
  unfold is_u8. split_and!; try done; try lia.
  rewrite !length_app, length_string_bytes. lia.
Qed.

#[export] Instance publish_parser : PacketParser publish_spec PPublish parse.
Proof.
  apply (parser_of_body_parser publish_spec PPublish); try done.
  - intros a Hok (_ & _ & Hq & _). apply publish_flags_spec. cbn [ps_ok publish_spec] in Hok.
    rewrite !andb_true_iff, !negb_true_iff, Z.ltb_ge in Hok. unfold is_u8 in Hq. lia.
  - apply publish_body_reads.
  - apply publish_body_parses.
Qed.
