(* ===== verification/V5Disconnect.v ===== *)
(** * DISCONNECT, AUTH, PINGREQ and PINGRESP ([mqtt/src/v5/disconnect.rs],
    [auth.rs], [pingreq.rs], [pingresp.rs]) *)

From S2P Require Import Prelude Buf Packet V5Common V5FixedHeader V5Properties V5PropertiesSpec.
From S2P Require Import V5ReasonCode V5Frame.

(** ** DISCONNECT *)

Definition decode_disconnect_reason_code (value : Z) : result ReasonCode :=
  reason_code ← (if value =? 0 then Ok RcNormalDisconnection else V5ReasonCode.decode value);
  validate_for_packet reason_code CptDisconnect;;
  Ok reason_code.

Definition parse_disconnect_body (input : bytes) : result (bytes * Disconnect) :=
  '(reason_code, properties) ←
    (if decide (input = []) then Ok (RcNormalDisconnection, default_properties)
     else
       '(input, reason_code) ← parse_u8 input "DISCONNECT reason code";
       reason_code ← decode_disconnect_reason_code reason_code;
       if decide (input = []) then Ok (reason_code, default_properties)
       else
         '(input, properties) ← V5Properties.parse input ScDisconnect;
         if decide (input = []) then Ok (reason_code, properties)
         else Err (EMalformedPacket "DISCONNECT payload has trailing bytes"));
  Ok ([], mkDisconnect V5_0 reason_code (session_expiry_interval properties) properties).

Definition disconnect_parse (input : bytes) (max_message_size : Z) : result (bytes * Packet) :=
  parse_with_body CptDisconnect "expected DISCONNECT packet" no_check "DISCONNECT body"
    (fun _ body => '(r, disconnect) ← parse_disconnect_body body; Ok (r, PDisconnect disconnect))
    input max_message_size.

Definition normalized_disconnect_properties (packet : Disconnect) : result Properties :=
  let properties := dc_properties packet in
  match dc_session_expiry_interval packet, session_expiry_interval properties with
  | Some packet_value, Some property_value =>
      if packet_value =? property_value then Ok properties
      else Err (EMalformedPacket "DISCONNECT session expiry interval disagrees with properties")
  | Some packet_value, None => Ok (set_session_expiry_interval (Some packet_value) properties)
  | None, _ => Ok properties
  end.

(** ** AUTH *)

Definition parse_auth_body (input : bytes) : result (bytes * Auth) :=
  '(reason_code, properties) ←
    (if decide (input = []) then Ok (RcSuccess, default_properties)
     else
       '(input, reason_code) ← parse_u8 input "AUTH reason code";
       reason_code ← decode_for_packet reason_code CptAuth;
       if decide (input = []) then Ok (reason_code, default_properties)
       else
         '(input, properties) ← V5Properties.parse input ScAuth;
         if decide (input = []) then Ok (reason_code, properties)
         else Err (EMalformedPacket "AUTH payload has trailing bytes"));
  Ok ([], mkAuth reason_code properties).

Definition auth_parse (input : bytes) (max_message_size : Z) : result (bytes * Packet) :=
  parse_with_body CptAuth "expected AUTH packet" no_check "AUTH body"
    (fun _ body => '(r, auth) ← parse_auth_body body; Ok (r, PAuth auth))
    input max_message_size.

(** ** PINGREQ and PINGRESP *)

Definition pingreq_parse (input : bytes) (max_message_size : Z) : result (bytes * Packet) :=
  '(input, fixed_header) ← V5FixedHeader.parse input max_message_size;
  if negb (bool_decide (fh_packet_type fixed_header = CptPingreq)) then
    Err (EMalformedPacket "expected PINGREQ packet")
  else if negb (fh_remaining_length fixed_header =? 0) then
    Err (EMalformedPacket "PINGREQ remaining length must be zero")
  else Ok (input, PPingreq).

Definition pingresp_parse (input : bytes) (max_message_size : Z) : result (bytes * Packet) :=
  '(input, fixed_header) ← V5FixedHeader.parse input max_message_size;
  if negb (bool_decide (fh_packet_type fixed_header = CptPingresp)) then
    Err (EMalformedPacket "expected PINGRESP packet")
  else if negb (fh_remaining_length fixed_header =? 0) then
    Err (EMalformedPacket "PINGRESP remaining length must be zero")
  else Ok (input, PPingresp).

Section Encode.
Context {B : BytesCrate}.

(** The statements of [encode] that fill [body], in DISCONNECT and AUTH. *)
Definition encode_short_body (default_reason reason_code : ReasonCode) (properties : Properties)
    (scope : PropertyScope) : encoder :=
  if bool_decide (reason_code <> default_reason) || bool_decide (properties <> default_properties)
  then
    put_u8 (V5ReasonCode.encode reason_code);;
    if bool_decide (properties <> default_properties) then V5Properties.encode properties scope
    else mret tt
  else mret tt.

Definition disconnect_encode (packet : Disconnect) : encoder :=
  if negb (bool_decide (dc_protocol_version packet = V5_0)) then
    lift (Err (EMalformedPacket "DISCONNECT packet is not MQTT 5.0"))
  else
    lift (validate_for_packet (dc_reason_code packet) CptDisconnect);;
    properties ← lift (normalized_disconnect_properties packet);
    body ← lift (with_new_buffer
                   (encode_short_body RcNormalDisconnection (dc_reason_code packet) properties
                      ScDisconnect));
    encode_with_body CptDisconnect 0 body.

Definition auth_encode (packet : Auth) : encoder :=
  lift (validate_for_packet (au_reason_code packet) CptAuth);;
  body ← lift (with_new_buffer
                 (encode_short_body RcSuccess (au_reason_code packet) (au_properties packet)
                    ScAuth));
  encode_with_body CptAuth 0 body.

Definition pingreq_encode : encoder :=
  fixed_header ← lift (V5FixedHeader.new CptPingreq 0 0);
  V5FixedHeader.encode fixed_header.

Definition pingresp_encode : encoder :=
  fixed_header ← lift (V5FixedHeader.new CptPingresp 0 0);
  V5FixedHeader.encode fixed_header.

Definition disconnect_to_bytes (packet : Disconnect) : result BytesMut :=
  with_new_buffer (disconnect_encode packet).
Definition auth_to_bytes (packet : Auth) : result BytesMut := with_new_buffer (auth_encode packet).
Definition pingreq_to_bytes : result BytesMut := with_new_buffer pingreq_encode.
Definition pingresp_to_bytes : result BytesMut := with_new_buffer pingresp_encode.

End Encode.

(** ** Contracts *)

Definition canonical_disconnect_reason (r : ReasonCode) : ReasonCode :=
  match canonical_reason r with RcSuccess => RcNormalDisconnection | r => r end.

Definition disconnect_spec : PacketSpec Disconnect :=
  let props a := merge_expiry (dc_session_expiry_interval a) (dc_properties a) in {|
  ps_type := CptDisconnect;
  ps_flags := fun _ => 0;
  ps_wf := fun a =>
    wf_properties (dc_properties a) /\
    match dc_session_expiry_interval a with Some z => is_u32 z | None => True end;
  ps_ok := fun a =>
    bool_decide (dc_protocol_version a = V5_0) && reason_ok (dc_reason_code a) CptDisconnect
    && expiry_agrees (dc_session_expiry_interval a) (dc_properties a)
    && short_props_ok ScDisconnect (props a);
  ps_readable := fun a => props_readable (dc_properties a);
  ps_body := fun a => short_form RcNormalDisconnection (dc_reason_code a) (props a);
  ps_norm := fun a =>
    mkDisconnect (dc_protocol_version a) (canonical_disconnect_reason (dc_reason_code a))
      (session_expiry_interval (props a)) (props a);
|}.

Definition auth_spec : PacketSpec Auth := {|
  ps_type := CptAuth;
  ps_flags := fun _ => 0;
  ps_wf := fun a => wf_properties (au_properties a);
  ps_ok := fun a =>
    reason_ok (au_reason_code a) CptAuth && short_props_ok ScAuth (au_properties a);
  ps_readable := fun a => props_readable (au_properties a);
  ps_body := fun a => short_form RcSuccess (au_reason_code a) (au_properties a);
  ps_norm := fun a => mkAuth (canonical_reason (au_reason_code a)) (au_properties a);
|}.

Definition ping_spec (t : ControlPacketType) : PacketSpec unit := {|
  ps_type := t;
  ps_flags := fun _ => 0;
  ps_wf := fun _ => True;
  ps_ok := fun _ => true;
  ps_readable := fun _ => true;
  ps_body := fun _ => [];
  ps_norm := fun a => a;
|}.

Lemma normalized_disconnect_spec a :
  normalized_disconnect_properties a =
    if expiry_agrees (dc_session_expiry_interval a) (dc_properties a)
    then Ok (merge_expiry (dc_session_expiry_interval a) (dc_properties a))
    else Err (EMalformedPacket "DISCONNECT session expiry interval disagrees with properties").
Proof.
  unfold normalized_disconnect_properties, expiry_agrees, merge_expiry.
  by destruct (dc_session_expiry_interval a), (session_expiry_interval (dc_properties a)).
Qed.


(** What the two body parsers share. *)
Definition parse_short (context trailing : string) (d : ReasonCode)
    (decode : Z -> result ReasonCode) (scope : PropertyScope) (input : bytes)
    : result (ReasonCode * Properties) :=
  if decide (input = []) then Ok (d, default_properties)
  else
    '(input, reason_code) ← parse_u8 input context;
    reason_code ← decode reason_code;
    if decide (input = []) then Ok (reason_code, default_properties)
    else
      '(input, properties) ← V5Properties.parse input scope;
      if decide (input = []) then Ok (reason_code, properties)
      else Err (EMalformedPacket trailing).

Section ParseShort.
Context (context trailing : string) (d : ReasonCode) (decode : Z -> result ReasonCode)
  (scope : PropertyScope).
Abbreviation parse_it := (parse_short context trailing d decode scope).

Lemma parse_short_reads r r' p :
  decode (V5ReasonCode.encode r) = Ok r' -> (r = d -> r' = d) ->
  wf_properties p -> props_ok scope p = true -> props_readable p = true ->
  zlen (short_form d r p) <= MAX_VARIABLE_BYTE_INTEGER ->
  parse_it (short_form d r p) = Ok (r', p).
Proof.
  intros Hr Hd Hp Hpo Hread Hlen. unfold parse_short.
  destruct (short_form_cases d r p) as [(-> & -> & ->)|[(-> & ->)| Hs]].
  - rewrite decide_True by done. by rewrite Hd.
  - rewrite decide_False by done. rewrite <-(app_nil_r [_]), reads_u8. cbn [mbind outcome_bind].
    by rewrite Hr.
  - rewrite Hs in *. rewrite decide_False by done. change (?x :: ?l) with ([x] ++ l).
    rewrite reads_u8. cbn [mbind outcome_bind]. rewrite Hr. cbn [mbind outcome_bind].
    rewrite decide_False by apply props_bytes_nonempty.
    rewrite <-(app_nil_r (props_bytes p)), reads_props_ok; [done..|].
    autorewrite with zlen in Hlen. lia.
Qed.

Lemma parse_short_returns (P : ReasonCode -> Prop) input :
  is_bytes input -> P d -> (forall v, returns_with (decode v) P) ->
  returns_with (parse_it input) (fun '(r, p) =>
    P r /\ valid_properties scope p /\ zlen (props_body p) <= MAX_VARIABLE_BYTE_INTEGER /\
    (length (short_form d r p) <= length input)%nat).
Proof.
  intros Hin Hd Hdec. unfold parse_short. destruct (decide (input = [])) as [->|].
  { simpl. rewrite short_form_default. split_and!; try done. apply valid_properties_default. }
  eapply returns_with_bind; [by apply parse_u8_parses|].
  intros [rest v] (pre & -> & -> & _). apply is_bytes_app in Hin as [_ Hin].
  eapply returns_with_bind; [apply Hdec|]. intros r Hr. cbn [app length].
  destruct (decide (rest = [])) as [->|].
  { simpl. pose proof (short_form_length d r default_properties) as Hl.
    rewrite short_props_default in Hl. simpl in Hl.
    split_and!; try done. apply valid_properties_default. }
  eapply returns_with_bind; [by apply (parse_properties_parses scope)|].
  intros [rest1 p] (pre1 & -> & Hp & Hpl & Hlen). cbn beta iota.
  destruct (decide (rest1 = [])) as [->|]; [|done]. simpl.
  pose proof (short_form_length d r p). pose proof (short_props_length p).
  rewrite app_nil_r. split_and!; try done. lia.
Qed.
End ParseShort.

(** *** DISCONNECT *)

Ltac disconnect_cbn :=
  unfold disconnect_spec, canonical_body in *; spec_cbn;
  cbn [dc_protocol_version dc_reason_code dc_session_expiry_interval dc_properties] in *.

#[export] Instance disconnect_encoder {B : BytesCrate} {BS : BytesCrateSpec B} :
  PacketEncoder disconnect_spec disconnect_encode.
Proof.
  intros a [Hp Hx]. unfold disconnect_encode. rewrite normalized_disconnect_spec.
  destruct (expiry_agrees _ _) eqn:Hag.
  - eapply writes_eq.
    + eapply writes_guard, writes_bind; [apply writes_reason_check|].
      eapply writes_lift; [done|]. apply writes_frame; [done|].
      by apply writes_short_form, merge_expiry_wf.
    + unfold disconnect_spec. unfold spec_ok. cbn [ps_ok ps_body]. rewrite Hag. ok_eq.
    + done.
  - eapply writes_eq.
    + eapply writes_guard, writes_bind; [apply writes_reason_check|].
      by apply (writes_lift (ok := false) (o := [])).
    + unfold spec_ok. disconnect_cbn. by rewrite Hag, !andb_false_r.
    + unfold spec_ok. disconnect_cbn. by rewrite Hag, !andb_false_r.
Qed.

Lemma decode_disconnect_encode r :
  validate_for_packet r CptDisconnect = Ok tt ->
  decode_disconnect_reason_code (V5ReasonCode.encode r) = Ok (canonical_disconnect_reason r).
Proof. by destruct r. Qed.

Lemma decode_disconnect_returns v :
  returns_with (decode_disconnect_reason_code v) (fun r =>
    canonical_disconnect_reason r = r /\ validate_for_packet r CptDisconnect = Ok tt).
Proof.
  unfold decode_disconnect_reason_code. destruct (Z.eqb_spec v 0) as [->|Hne]; [done|].
  pose proof (decode_returns v). destruct (V5ReasonCode.decode v) as [r|e| |] eqn:E; try done.
  apply decode_Ok in E as [Hv Hc]. cbn [mbind outcome_bind].
  pose proof (validate_for_packet_returns r CptDisconnect).
  destruct (validate_for_packet r CptDisconnect) as [[]|e| |] eqn:E2; try done.
  split; [|done]. unfold canonical_disconnect_reason. rewrite Hc. by destruct r.
Qed.

Lemma disconnect_body_reads a :
  ps_wf disconnect_spec a -> ps_readable disconnect_spec a = true ->
  ps_ok disconnect_spec a = true ->
  zlen (ps_body disconnect_spec a) <= MAX_VARIABLE_BYTE_INTEGER ->
  exists r, parse_disconnect_body (ps_body disconnect_spec a) = Ok (r, ps_norm disconnect_spec a).
Proof.
  destruct a as [v r x p]. intros [Hp Hx] Hread Hok Hlen. disconnect_cbn.
  rewrite !andb_true_iff, bool_decide_eq_true, reason_ok_true, short_props_ok_props in Hok.
  destruct Hok as (((-> & Hr) & _) & Hpo).
  exists []. unfold parse_disconnect_body. fold (parse_short "DISCONNECT reason code"
    "DISCONNECT payload has trailing bytes" RcNormalDisconnection decode_disconnect_reason_code
    ScDisconnect (short_form RcNormalDisconnection r (merge_expiry x p))).
  rewrite (parse_short_reads _ _ _ _ _ r (canonical_disconnect_reason r)); try done.
  - by apply decode_disconnect_encode.
  - by intros ->.
  - by apply merge_expiry_wf.
  - by rewrite merge_expiry_readable.
Qed.

Lemma disconnect_body_parses body :
  is_bytes body -> parses (parse_disconnect_body body) body (canonical_body disconnect_spec).
Proof.
  intros Hin. unfold parse_disconnect_body. fold (parse_short "DISCONNECT reason code"
    "DISCONNECT payload has trailing bytes" RcNormalDisconnection decode_disconnect_reason_code
    ScDisconnect body).
  eapply returns_with_bind; [apply (parse_short_returns _ _ _ _ _ (fun r =>
    canonical_disconnect_reason r = r /\ validate_for_packet r CptDisconnect = Ok tt));
    [done|done|apply decode_disconnect_returns]|].
  intros [r p] ((Hcan & Hval) & Hp & Hpl & Hlen). exists body.
  split; [by rewrite app_nil_r|]. disconnect_cbn.
  pose proof (valid_wf_properties _ _ Hp) as Hwf. pose proof (session_expiry_wf p Hwf).
  rewrite merge_expiry_self, expiry_agrees_self, Hcan, short_props_ok_props.
  rewrite (valid_props_ok _ _ Hp Hpl), (valid_readable _ _ Hp).
  rewrite (proj2 (reason_ok_true r _) Hval). by split_and!.
Qed.

#[export] Instance disconnect_parser : PacketParser disconnect_spec PDisconnect disconnect_parse.
Proof.
  apply (parser_of_body_parser disconnect_spec PDisconnect _ _ _
    (fun _ body => parse_disconnect_body body)); try done.
  - apply disconnect_body_reads.
  - intros flags body _. apply disconnect_body_parses.
Qed.

(** *** AUTH *)

Ltac auth_cbn :=
  unfold auth_spec, canonical_body in *; spec_cbn; cbn [au_reason_code au_properties] in *.

#[export] Instance auth_encoder {B : BytesCrate} {BS : BytesCrateSpec B} :
  PacketEncoder auth_spec auth_encode.
Proof.
  intros a Hp. unfold auth_encode. eapply writes_eq.
  - eapply writes_bind; [apply writes_reason_check|]. apply writes_frame; [done|].
    by apply writes_short_form.
  - unfold auth_spec. ok_eq.
  - done.
Qed.

Lemma auth_body_reads a :
  ps_wf auth_spec a -> ps_readable auth_spec a = true -> ps_ok auth_spec a = true ->
  zlen (ps_body auth_spec a) <= MAX_VARIABLE_BYTE_INTEGER ->
  exists r, parse_auth_body (ps_body auth_spec a) = Ok (r, ps_norm auth_spec a).
Proof.
  destruct a as [r p]. intros Hp Hread Hok Hlen. auth_cbn.
  rewrite !andb_true_iff, reason_ok_true, short_props_ok_props in Hok. destruct Hok as (Hr & Hpo).
  exists []. unfold parse_auth_body. fold (parse_short "AUTH reason code"
    "AUTH payload has trailing bytes" RcSuccess (fun v => decode_for_packet v CptAuth)
    ScAuth (short_form RcSuccess r p)).
  rewrite (parse_short_reads _ _ _ _ _ r (canonical_reason r)); try done.
  - by apply decode_for_packet_encode.
  - by intros ->.
Qed.

Lemma auth_body_parses body :
  is_bytes body -> parses (parse_auth_body body) body (canonical_body auth_spec).
Proof.
  intros Hin. unfold parse_auth_body. fold (parse_short "AUTH reason code"
    "AUTH payload has trailing bytes" RcSuccess (fun v => decode_for_packet v CptAuth)
    ScAuth body).
  eapply returns_with_bind; [eapply (parse_short_returns _ _ _ _ _ (fun r =>
    canonical_reason r = r /\ validate_for_packet r CptAuth = Ok tt)); [done|done|]|].
  { intros v. eapply returns_with_mono; [apply decode_for_packet_returns|]. by intros r (_ & ? & ?). }
  intros [r p] ((Hcan & Hval) & Hp & Hpl & Hlen). exists body.
  split; [by rewrite app_nil_r|]. auth_cbn. pose proof (valid_wf_properties _ _ Hp).
  rewrite Hcan, short_props_ok_props, (valid_props_ok _ _ Hp Hpl), (valid_readable _ _ Hp).
  rewrite (proj2 (reason_ok_true r _) Hval). by split_and!.
Qed.

#[export] Instance auth_parser : PacketParser auth_spec PAuth auth_parse.
Proof.
  apply (parser_of_body_parser auth_spec PAuth _ _ _ (fun _ body => parse_auth_body body)); try done.
  - apply auth_body_reads.
  - intros flags body _. apply auth_body_parses.
Qed.

(** *** PINGREQ and PINGRESP *)

(** The parsers are [parse_with_body] with an empty body. *)
Lemma ping_parse_eq t unexpected nonzero (packet : Packet) input max :
  ('(input, h) ← V5FixedHeader.parse input max;
   if negb (bool_decide (fh_packet_type h = t)) then Err (EMalformedPacket unexpected)
   else if negb (fh_remaining_length h =? 0) then Err (EMalformedPacket nonzero)
   else Ok (input, packet))
  = parse_with_body t unexpected
      (fun h => if fh_remaining_length h =? 0 then Ok tt else Err (EMalformedPacket nonzero)) ""
      (fun _ body => '(r, _) ← Ok ([] : bytes, tt); Ok (r, packet)) input max.
Proof.
  unfold parse_with_body. destruct (V5FixedHeader.parse input max) as [[rest h]|e| |]; try done.
  cbn [mbind outcome_bind]. destruct (decide (fh_packet_type h = t)) as [Ht|Ht].
  2: by rewrite bool_decide_eq_false_2.
  rewrite bool_decide_eq_true_2 by done. cbn [negb].
  destruct (Z.eqb_spec (fh_remaining_length h) 0) as [E|]; [|done]. cbn [negb mbind outcome_bind].
  rewrite E, (proj2 (Z.ltb_ge _ _)) by apply zlen_nonneg.
  rewrite split_at_ok by (simpl; lia). done.
Qed.

Lemma ping_contract t unexpected nonzero packet :
  flags_ok t 0 ->
  PacketParser (ping_spec t) (fun _ => packet) (fun input max =>
    '(input, h) ← V5FixedHeader.parse input max;
    if negb (bool_decide (fh_packet_type h = t)) then Err (EMalformedPacket unexpected)
    else if negb (fh_remaining_length h =? 0) then Err (EMalformedPacket nonzero)
    else Ok (input, packet)).
Proof.
  intros Hf. eapply parser_ext; [intros i max; symmetry; apply ping_parse_eq|].
  apply (parser_of_body_parser (ping_spec t) (fun _ => packet) _ _ _
    (fun _ _ => Ok ([] : bytes, tt))); try done.
  - intros h. by case_match.
  - intros [] _ _ _ _. by eexists.
  - intros flags body _ _. exists body. split; [by rewrite app_nil_r|].
    unfold canonical_body. split_and!; try done. simpl. lia.
Qed.

#[export] Instance pingreq_parser :
    PacketParser (ping_spec CptPingreq) (fun _ => PPingreq) pingreq_parse.
Proof. by apply ping_contract. Qed.
#[export] Instance pingresp_parser :
    PacketParser (ping_spec CptPingresp) (fun _ => PPingresp) pingresp_parse.
Proof. by apply ping_contract. Qed.

Section PingEncoders.
Context {B : BytesCrate} {BS : BytesCrateSpec B}.

Lemma ping_writes t (w : encoder) :
  flags_ok t 0 ->
  w = (h ← lift (V5FixedHeader.new t 0 0); V5FixedHeader.encode h) ->
  PacketEncoder (ping_spec t) (fun _ => w).
Proof.
  intros [_ Hv] -> a _. unfold V5FixedHeader.new. rewrite Hv.
  eapply writes_lift; [done|]. cbn [mbind outcome_bind]. unfold V5FixedHeader.encode.
  cbn [header_of fh_packet_type fh_flags fh_remaining_length]. rewrite Hv.
  eapply writes_eq; [eapply writes_bind; [apply writes_ret|eapply writes_bind;
    [apply writes_put_u8|by apply writes_vbi]]|done|].
  intros _. unfold spec_frame, frame. cbn [ping_spec ps_type ps_flags ps_body].
  by destruct (first_byte_spec t 0) as [-> _].
Qed.

#[export] Instance pingreq_encoder : PacketEncoder (ping_spec CptPingreq) (fun _ => pingreq_encode).
Proof. by apply ping_writes. Qed.
#[export] Instance pingresp_encoder :
  PacketEncoder (ping_spec CptPingresp) (fun _ => pingresp_encode).
Proof. by apply ping_writes. Qed.
End PingEncoders.
