(* ===== verification/V5Suback.v ===== *)
(** * SUBACK and UNSUBACK ([mqtt/src/v5/suback.rs], [unsuback.rs]) *)

From S2P Require Import Prelude Buf Packet V5Common V5FixedHeader V5Properties V5PropertiesSpec.
From S2P Require Import V5ReasonCode V5Frame.

Definition decode_suback_reason_code (value : Z) : result ReasonCode :=
  reason_code ←
    match value with
    | 0x00 => Ok RcGrantedQos0
    | 0x01 => Ok RcGrantedQos1
    | 0x02 => Ok RcGrantedQos2
    | other => V5ReasonCode.decode other
    end;
  validate_for_packet reason_code CptSuback;;
  Ok reason_code.

Definition parse_suback_body (input : bytes) : result (bytes * Suback) :=
  '(input, packet_identifier) ← parse_u16 input "SUBACK packet identifier";
  if packet_identifier =? 0 then
    Err (EMalformedPacket "SUBACK packet identifier must not be zero")
  else
    '(input, properties) ← V5Properties.parse input ScSuback;
    if decide (input = []) then
      Err (EMalformedPacket "SUBACK must contain at least one reason code")
    else
      reason_codes ← try_collect decode_suback_reason_code input;
      Ok ([], mkSuback V5_0 packet_identifier reason_codes properties).

Definition parse_unsuback_body (input : bytes) : result (bytes * Unsuback) :=
  '(input, packet_identifier) ← parse_u16 input "UNSUBACK packet identifier";
  if packet_identifier =? 0 then
    Err (EMalformedPacket "UNSUBACK packet identifier must not be zero")
  else
    '(input, properties) ← V5Properties.parse input ScUnsuback;
    if decide (input = []) then
      Err (EMalformedPacket "UNSUBACK must contain at least one reason code")
    else
      reason_codes ← try_collect (fun value => decode_for_packet value CptUnsuback) input;
      Ok ([], mkUnsuback V5_0 packet_identifier reason_codes properties).

Definition suback_parse (input : bytes) (max_message_size : Z) : result (bytes * Packet) :=
  parse_with_body CptSuback "expected SUBACK packet" no_check "SUBACK body"
    (fun _ body => '(r, suback) ← parse_suback_body body; Ok (r, PSuback suback))
    input max_message_size.

Definition unsuback_parse (input : bytes) (max_message_size : Z) : result (bytes * Packet) :=
  parse_with_body CptUnsuback "expected UNSUBACK packet" no_check "UNSUBACK body"
    (fun _ body => '(r, unsuback) ← parse_unsuback_body body; Ok (r, PUnsuback unsuback))
    input max_message_size.

Section Encode.
Context {B : BytesCrate}.

(** [for reason_code in &packet.reason_codes { body.put_u8(..) }]. *)
Fixpoint put_reason_codes (reason_codes : list ReasonCode) : encoder :=
  match reason_codes with
  | [] => mret tt
  | reason_code :: reason_codes =>
      put_u8 (V5ReasonCode.encode reason_code);; put_reason_codes reason_codes
  end.

(** The statements of the two encoders that fill [body]. *)
Definition encode_codes_body (packet_identifier : Z) (properties : Properties)
    (scope : PropertyScope) (reason_codes : list ReasonCode) : encoder :=
  put_u16 packet_identifier;;
  V5Properties.encode properties scope;;
  put_reason_codes reason_codes.

Definition suback_encode (packet : Suback) : encoder :=
  if negb (bool_decide (sa_protocol_version packet = V5_0)) then
    lift (Err (EMalformedPacket "SUBACK packet is not MQTT 5.0"))
  else if sa_packet_identifier packet =? 0 then
    lift (Err (EMalformedPacket "SUBACK packet identifier must not be zero"))
  else if bool_decide (sa_reason_codes packet = []) then
    lift (Err (EMalformedPacket "SUBACK must contain at least one reason code"))
  else
    lift (try_for_each (fun r => validate_for_packet r CptSuback) (sa_reason_codes packet));;
    body ← lift (with_new_buffer
      (encode_codes_body (sa_packet_identifier packet) (sa_properties packet) ScSuback
         (sa_reason_codes packet)));
    encode_with_body CptSuback 0 body.

Definition unsuback_encode (packet : Unsuback) : encoder :=
  if negb (bool_decide (ua_protocol_version packet = V5_0)) then
    lift (Err (EMalformedPacket "UNSUBACK packet is not MQTT 5.0"))
  else if ua_packet_identifier packet =? 0 then
    lift (Err (EMalformedPacket "UNSUBACK packet identifier must not be zero"))
  else if bool_decide (ua_reason_codes packet = []) then
    lift (Err (EMalformedPacket "UNSUBACK must contain at least one reason code"))
  else
    lift (try_for_each (fun r => validate_for_packet r CptUnsuback) (ua_reason_codes packet));;
    body ← lift (with_new_buffer
      (encode_codes_body (ua_packet_identifier packet) (ua_properties packet) ScUnsuback
         (ua_reason_codes packet)));
    encode_with_body CptUnsuback 0 body.

Definition suback_to_bytes (packet : Suback) : result BytesMut :=
  with_new_buffer (suback_encode packet).
Definition unsuback_to_bytes (packet : Unsuback) : result BytesMut :=
  with_new_buffer (unsuback_encode packet).

End Encode.

(** ** Contracts *)

Definition codes_ok (t : ControlPacketType) (codes : list ReasonCode) : bool :=
  negb (bool_decide (codes = [])) && forallb (fun r => reason_ok r t) codes.

Definition codes_body (id : Z) (p : Properties) (codes : list ReasonCode) : bytes :=
  be_u16 id ++ props_bytes p ++ map V5ReasonCode.encode codes.

Definition canonical_suback_reason (r : ReasonCode) : ReasonCode :=
  match canonical_reason r with RcSuccess => RcGrantedQos0 | r => r end.

Definition suback_spec : PacketSpec Suback := {|
  ps_type := CptSuback;
  ps_flags := fun _ => 0;
  ps_wf := fun a => is_u16 (sa_packet_identifier a) /\ wf_properties (sa_properties a);
  ps_ok := fun a =>
    bool_decide (sa_protocol_version a = V5_0) && negb (sa_packet_identifier a =? 0)
    && codes_ok CptSuback (sa_reason_codes a) && props_ok ScSuback (sa_properties a);
  ps_readable := fun a => props_readable (sa_properties a);
  ps_body := fun a => codes_body (sa_packet_identifier a) (sa_properties a) (sa_reason_codes a);
  ps_norm := fun a =>
    mkSuback (sa_protocol_version a) (sa_packet_identifier a)
      (map canonical_suback_reason (sa_reason_codes a)) (sa_properties a);
|}.

Definition unsuback_spec : PacketSpec Unsuback := {|
  ps_type := CptUnsuback;
  ps_flags := fun _ => 0;
  ps_wf := fun a => is_u16 (ua_packet_identifier a) /\ wf_properties (ua_properties a);
  ps_ok := fun a =>
    bool_decide (ua_protocol_version a = V5_0) && negb (ua_packet_identifier a =? 0)
    && codes_ok CptUnsuback (ua_reason_codes a) && props_ok ScUnsuback (ua_properties a);
  ps_readable := fun a => props_readable (ua_properties a);
  ps_body := fun a => codes_body (ua_packet_identifier a) (ua_properties a) (ua_reason_codes a);
  ps_norm := fun a =>
    mkUnsuback (ua_protocol_version a) (ua_packet_identifier a)
      (map canonical_reason (ua_reason_codes a)) (ua_properties a);
|}.

Ltac suback_cbn :=
  unfold suback_spec, unsuback_spec, canonical_body in *; spec_cbn;
  cbn [sa_protocol_version sa_packet_identifier sa_reason_codes sa_properties
       ua_protocol_version ua_packet_identifier ua_reason_codes ua_properties] in *.

(** *** Encoders *)

Section EncodeSpec.
Context {B : BytesCrate} {BS : BytesCrateSpec B}.

Lemma writes_reason_codes codes :
  writes (put_reason_codes codes) true (map V5ReasonCode.encode codes).
Proof.
  induction codes as [|r codes IH]; [apply writes_ret|].
  exact (writes_bind (writes_put_u8 (V5ReasonCode.encode r)) IH).
Qed.

Lemma writes_validate_all t codes :
  writes (lift (try_for_each (fun r => validate_for_packet r t) codes))
    (forallb (fun r => reason_ok r t) codes) [].
Proof.
  apply writes_check; [apply try_for_each_returns; intros r; apply validate_for_packet_returns|].
  rewrite try_for_each_Ok, forallb_forall, Forall_forall.
  setoid_rewrite reason_ok_true. by setoid_rewrite list_elem_of_In.
Qed.

Lemma writes_codes_body id p scope codes :
  wf_properties p ->
  writes (encode_codes_body id p scope codes) (props_ok scope p) (codes_body id p codes).
Proof.
  intros Hp. eapply writes_eq; [eapply writes_bind; [apply writes_put_u16|eapply writes_bind;
    [by apply writes_properties|apply writes_reason_codes]]|by rewrite andb_true_r|done].
Qed.

#[export] Instance suback_encoder : PacketEncoder suback_spec suback_encode.
Proof.
  intros a [_ Hp]. unfold suback_encode. eapply writes_eq.
  - do 3 eapply writes_guard. eapply writes_bind; [apply writes_validate_all|].
    apply writes_frame; [done|by apply writes_codes_body].
  - unfold suback_spec, codes_ok. ok_eq.
  - done.
Qed.

#[export] Instance unsuback_encoder : PacketEncoder unsuback_spec unsuback_encode.
Proof.
  intros a [_ Hp]. unfold unsuback_encode. eapply writes_eq.
  - do 3 eapply writes_guard. eapply writes_bind; [apply writes_validate_all|].
    apply writes_frame; [done|by apply writes_codes_body].
  - unfold unsuback_spec, codes_ok. ok_eq.
  - done.
Qed.
End EncodeSpec.

(** *** Parsers *)

Lemma decode_suback_encode r :
  reason_ok r CptSuback = true ->
  decode_suback_reason_code (V5ReasonCode.encode r) = Ok (canonical_suback_reason r).
Proof. by destruct r. Qed.

Lemma decode_suback_returns v :
  returns_with (decode_suback_reason_code v) (fun r =>
    canonical_suback_reason r = r /\ reason_ok r CptSuback = true).
Proof.
  assert (forall r, canonical_suback_reason r = r ->
    returns_with (validate_for_packet r CptSuback;; Ok r) (fun r =>
      canonical_suback_reason r = r /\ reason_ok r CptSuback = true)) as Hval.
  { intros r Hr. pose proof (validate_for_packet_returns r CptSuback).
    destruct (validate_for_packet r CptSuback) as [[]|e| |] eqn:E; try done.
    split; [done|by apply reason_ok_true]. }
  unfold decode_suback_reason_code.
  destruct (decide (v = 0)) as [->|]; [by apply Hval|].
  destruct (decide (v = 1)) as [->|]; [by apply Hval|].
  destruct (decide (v = 2)) as [->|]; [by apply Hval|].
  replace (match v with 0 => Ok RcGrantedQos0 | 1 => Ok RcGrantedQos1 | 2 => Ok RcGrantedQos2
    | other => V5ReasonCode.decode other end) with (V5ReasonCode.decode v)
    by (repeat case_match; done).
  pose proof (decode_returns v). destruct (V5ReasonCode.decode v) as [r|e| |] eqn:E; try done.
  apply decode_Ok in E as [Hv Hc]. apply Hval. unfold canonical_suback_reason. rewrite Hc.
  by destruct r.
Qed.

Section Codes.
Context (dec : Z -> result ReasonCode) (canon : ReasonCode -> ReasonCode) (t : ControlPacketType).
Hypothesis dec_encode : forall r,
  reason_ok r t = true -> dec (V5ReasonCode.encode r) = Ok (canon r).
Hypothesis dec_returns : forall v,
  returns_with (dec v) (fun r => canon r = r /\ reason_ok r t = true).

Lemma collect_codes codes :
  codes_ok t codes = true ->
  map V5ReasonCode.encode codes <> [] /\
  try_collect dec (map V5ReasonCode.encode codes) = Ok (map canon codes).
Proof.
  intros [Hne Hall]%andb_prop. rewrite negb_true_iff, bool_decide_eq_false in Hne.
  split; [by destruct codes|]. clear Hne. induction codes as [|r codes IH]; [done|].
  simpl in *. apply andb_prop in Hall as [Hr Hall]. rewrite (dec_encode r Hr). simpl.
  by rewrite IH.
Qed.

Lemma collect_codes_returns input :
  input <> [] ->
  returns_with (try_collect dec input) (fun codes =>
    codes_ok t codes = true /\ map canon codes = codes /\ length codes = length input).
Proof.
  intros Hne. eapply returns_with_mono.
  { apply (try_collect_returns dec (fun _ r => canon r = r /\ reason_ok r t = true)).
    exact dec_returns. }
  intros codes Hall. split_and!.
  - unfold codes_ok. rewrite bool_decide_eq_false_2.
    + simpl. clear Hne. induction Hall as [|? ? ? ? [_ Hr] _ IH]; [done|]. simpl. by rewrite Hr, IH.
    + intros ->. by inversion Hall.
  - clear Hne. induction Hall as [|? ? ? ? [Hr _] _ IH]; [done|]. simpl. by rewrite Hr, IH.
  - symmetry. by eapply Forall2_length.
Qed.
End Codes.

Lemma unsuback_dec_encode r :
  reason_ok r CptUnsuback = true ->
  decode_for_packet (V5ReasonCode.encode r) CptUnsuback = Ok (canonical_reason r).
Proof. intros H%reason_ok_true. by apply decode_for_packet_encode. Qed.

Lemma unsuback_dec_returns v :
  returns_with (decode_for_packet v CptUnsuback) (fun r =>
    canonical_reason r = r /\ reason_ok r CptUnsuback = true).
Proof.
  eapply returns_with_mono; [apply decode_for_packet_returns|].
  intros r (_ & ? & ?). by rewrite reason_ok_true.
Qed.

(** The part of the body parsers before the reason codes, on a written body. *)
Ltac codes_reads id p :=
  rewrite reads_u16; cbn [mbind outcome_bind];
  match goal with H : (id =? 0) = false |- _ => rewrite H end;
  rewrite reads_props_ok;
  [|done..|match goal with H : zlen (codes_body _ _ _) <= _ |- _ =>
     unfold codes_body in H; autorewrite with zlen in H;
     match type of H with context [zlen (map ?f ?l)] => pose proof (zlen_nonneg (map f l)) end;
     lia end];
  cbn [mbind outcome_bind].

Lemma suback_body_reads a :
  ps_wf suback_spec a -> ps_readable suback_spec a = true -> ps_ok suback_spec a = true ->
  zlen (ps_body suback_spec a) <= MAX_VARIABLE_BYTE_INTEGER ->
  exists r, parse_suback_body (ps_body suback_spec a) = Ok (r, ps_norm suback_spec a).
Proof.
  destruct a as [v id codes p]. intros [Hid Hp] Hread Hok Hlen. suback_cbn.
  rewrite !andb_true_iff, negb_true_iff, bool_decide_eq_true in Hok.
  destruct Hok as (((-> & Hnz) & Hc) & Hpo). unfold parse_suback_body, codes_body.
  codes_reads id p.
  destruct (collect_codes _ _ _ decode_suback_encode codes Hc) as [Hne ->].
  rewrite decide_False by done. by eexists.
Qed.

Lemma unsuback_body_reads a :
  ps_wf unsuback_spec a -> ps_readable unsuback_spec a = true -> ps_ok unsuback_spec a = true ->
  zlen (ps_body unsuback_spec a) <= MAX_VARIABLE_BYTE_INTEGER ->
  exists r, parse_unsuback_body (ps_body unsuback_spec a) = Ok (r, ps_norm unsuback_spec a).
Proof.
  destruct a as [v id codes p]. intros [Hid Hp] Hread Hok Hlen. suback_cbn.
  rewrite !andb_true_iff, negb_true_iff, bool_decide_eq_true in Hok.
  destruct Hok as (((-> & Hnz) & Hc) & Hpo). unfold parse_unsuback_body, codes_body.
  codes_reads id p.
  destruct (collect_codes (fun v => decode_for_packet v CptUnsuback) canonical_reason CptUnsuback
    unsuback_dec_encode codes Hc) as [Hne ->].
  rewrite decide_False by done. by eexists.
Qed.

Lemma codes_body_length id p codes :
  length (codes_body id p codes) = (2 + length (props_bytes p) + length codes)%nat.
Proof. unfold codes_body. rewrite !length_app, length_map. simpl. lia. Qed.

Lemma suback_body_parses body :
  is_bytes body -> parses (parse_suback_body body) body (canonical_body suback_spec).
Proof.
  intros Hin. unfold parse_suback_body. parsed. intros rest id pre [Hid Hpre] Hrest _.
  cbn [mbind outcome_bind]. destruct (id =? 0) eqn:Hnz; [done|].
  parsed. intros rest1 p pre1 (Hp & Hpl & Hlen) _ _. cbn [mbind outcome_bind].
  destruct (decide (rest1 = [])) as [|Hne]; [done|].
  eapply parses_lift; [by apply (collect_codes_returns _ _ _ decode_suback_returns)|].
  intros codes (Hc & Hcan & Hl). exists rest1. split; [by rewrite app_nil_r|]. suback_cbn.
  rewrite Hnz, Hcan, Hc, (valid_props_ok _ _ Hp Hpl), (valid_readable _ _ Hp).
  pose proof (valid_wf_properties _ _ Hp). split_and!; try done.
  rewrite codes_body_length, !length_app. lia.
Qed.

Lemma unsuback_body_parses body :
  is_bytes body -> parses (parse_unsuback_body body) body (canonical_body unsuback_spec).
Proof.
  intros Hin. unfold parse_unsuback_body. parsed. intros rest id pre [Hid Hpre] Hrest _.
  cbn [mbind outcome_bind]. destruct (id =? 0) eqn:Hnz; [done|].
  parsed. intros rest1 p pre1 (Hp & Hpl & Hlen) _ _. cbn [mbind outcome_bind].
  destruct (decide (rest1 = [])) as [|Hne]; [done|].
  eapply parses_lift; [by apply (collect_codes_returns (fun v => decode_for_packet v CptUnsuback)
    canonical_reason CptUnsuback unsuback_dec_returns)|].
  intros codes (Hc & Hcan & Hl). exists rest1. split; [by rewrite app_nil_r|]. suback_cbn.
  rewrite Hnz, Hcan, Hc, (valid_props_ok _ _ Hp Hpl), (valid_readable _ _ Hp).
  pose proof (valid_wf_properties _ _ Hp). split_and!; try done.
  rewrite codes_body_length, !length_app. lia.
Qed.

#[export] Instance suback_parser : PacketParser suback_spec PSuback suback_parse.
Proof.
  apply (parser_of_body_parser suback_spec PSuback _ _ _ (fun _ body => parse_suback_body body));
    try done.
  - apply suback_body_reads.
  - intros flags body _. apply suback_body_parses.
Qed.

#[export] Instance unsuback_parser : PacketParser unsuback_spec PUnsuback unsuback_parse.
Proof.
  apply (parser_of_body_parser unsuback_spec PUnsuback _ _ _
    (fun _ body => parse_unsuback_body body)); try done.
  - apply unsuback_body_reads.
  - intros flags body _. apply unsuback_body_parses.
Qed.
