(* ===== verification/V5Subscribe.v ===== *)
(** * SUBSCRIBE and UNSUBSCRIBE ([mqtt/src/v5/subscribe.rs], [unsubscribe.rs]) *)

From S2P Require Import Prelude Utf8 Buf Packet V5Common V5FixedHeader V5Properties.
From S2P Require Import V5PropertiesSpec V5Frame.

Definition parse_topic (topic_filter : string) (options : Z) : result SubscribeTopic :=
  if negb (Z.land options 0xC0 =? 0) then
    Err (EMalformedPacket "SUBSCRIBE option reserved bits must be zero")
  else
    let qos := Z.land options 0x03 in
    if qos =? 3 then Err (EMalformedPacket "SUBSCRIBE requested QoS must not be 3")
    else
      retain_handling ←
        match Z.shiftr (Z.land options 0x30) 4 with
        | 0 => Ok SendAtSubscribe
        | 1 => Ok SendAtSubscribeIfNew
        | 2 => Ok DoNotSend
        | _ => Err (EMalformedPacket "SUBSCRIBE retain handling must not be 3")
        end;
      Ok (mkSubscribeTopic topic_filter qos (negb (Z.land options 0x04 =? 0))
            (negb (Z.land options 0x08 =? 0)) retain_handling).

(** The [while !input.is_empty()] loop of SUBSCRIBE; [topics] are those pushed. *)
Fixpoint parse_topics_loop (fuel : nat) (input : bytes) (topics : list SubscribeTopic)
    : result (list SubscribeTopic) :=
  match input with
  | [] => Ok topics
  | _ =>
      match fuel with
      | O => OutOfFuel
      | S fuel =>
          '(remaining, topic_filter) ← parse_utf8_string input;
          if decide (topic_filter = ""%string) then
            Err (EMalformedPacket "SUBSCRIBE topic filter must not be empty")
          else
            '(remaining, options) ← parse_u8 remaining "SUBSCRIBE options";
            topic ← parse_topic topic_filter options;
            parse_topics_loop fuel remaining (topics ++ [topic])
      end
  end.

(** Every iteration consumes a byte: the input's length is fuel enough. *)
Definition parse_subscribe_body (input : bytes) : result (bytes * Subscribe) :=
  '(input, packet_identifier) ← parse_u16 input "SUBSCRIBE packet identifier";
  if packet_identifier =? 0 then
    Err (EMalformedPacket "SUBSCRIBE packet identifier must not be zero")
  else
    '(input, properties) ← V5Properties.parse input ScSubscribe;
    topics ← parse_topics_loop (length input) input [];
    if decide (topics = []) then
      Err (EMalformedPacket "SUBSCRIBE must contain at least one topic filter")
    else Ok ([], mkSubscribe V5_0 packet_identifier topics properties).

Definition subscribe_parse (input : bytes) (max_message_size : Z) : result (bytes * Packet) :=
  parse_with_body CptSubscribe "expected SUBSCRIBE packet" no_check "SUBSCRIBE body"
    (fun _ body => '(r, subscribe) ← parse_subscribe_body body; Ok (r, PSubscribe subscribe))
    input max_message_size.

(** The [while !input.is_empty()] loop of UNSUBSCRIBE. *)
Fixpoint parse_filters_loop (fuel : nat) (input : bytes) (topics : list string)
    : result (list string) :=
  match input with
  | [] => Ok topics
  | _ =>
      match fuel with
      | O => OutOfFuel
      | S fuel =>
          '(remaining, topic) ← parse_utf8_string input;
          if decide (topic = ""%string) then
            Err (EMalformedPacket "UNSUBSCRIBE topic filter must not be empty")
          else parse_filters_loop fuel remaining (topics ++ [topic])
      end
  end.

Definition parse_unsubscribe_body (input : bytes) : result (bytes * Unsubscribe) :=
  '(input, packet_identifier) ← parse_u16 input "UNSUBSCRIBE packet identifier";
  if packet_identifier =? 0 then
    Err (EMalformedPacket "UNSUBSCRIBE packet identifier must not be zero")
  else
    '(input, properties) ← V5Properties.parse input ScUnsubscribe;
    topics ← parse_filters_loop (length input) input [];
    if decide (topics = []) then
      Err (EMalformedPacket "UNSUBSCRIBE must contain at least one topic filter")
    else Ok ([], mkUnsubscribe V5_0 packet_identifier topics properties).

Definition unsubscribe_parse (input : bytes) (max_message_size : Z) : result (bytes * Packet) :=
  parse_with_body CptUnsubscribe "expected UNSUBSCRIBE packet" no_check "UNSUBSCRIBE body"
    (fun _ body => '(r, unsubscribe) ← parse_unsubscribe_body body; Ok (r, PUnsubscribe unsubscribe))
    input max_message_size.

Definition encode_options (topic : SubscribeTopic) : Z :=
  let retain_handling :=
    match st_retain_handling topic with
    | SendAtSubscribe => 0
    | SendAtSubscribeIfNew => 1
    | DoNotSend => 2
    end in
  let options := Z.land (st_qos topic) 0x03 in
  let options := if st_no_local topic then Z.lor options 0x04 else options in
  let options := if st_retain_as_published topic then Z.lor options 0x08 else options in
  Z.lor options (Z.shiftl retain_handling 4).

Section Encode.
Context {B : BytesCrate}.

Fixpoint encode_topics (topics : list SubscribeTopic) : encoder :=
  match topics with
  | [] => mret tt
  | topic :: topics =>
      (if bool_decide (st_topic_filter topic = ""%string) then
         lift (Err (EMalformedPacket "SUBSCRIBE topic filter must not be empty"))
       else if 2 <? st_qos topic then
         lift (Err (EMalformedPacket "SUBSCRIBE requested QoS must be 0, 1, or 2"))
       else
         encode_utf8_string (st_topic_filter topic);;
         put_u8 (encode_options topic));;
      encode_topics topics
  end.

Definition subscribe_encode (packet : Subscribe) : encoder :=
  if negb (bool_decide (sb_protocol_version packet = V5_0)) then
    lift (Err (EMalformedPacket "SUBSCRIBE packet is not MQTT 5.0"))
  else if sb_packet_identifier packet =? 0 then
    lift (Err (EMalformedPacket "SUBSCRIBE packet identifier must not be zero"))
  else if bool_decide (sb_topics packet = []) then
    lift (Err (EMalformedPacket "SUBSCRIBE must contain at least one topic filter"))
  else
    body ← lift (with_new_buffer
      (put_u16 (sb_packet_identifier packet);;
       V5Properties.encode (sb_properties packet) ScSubscribe;;
       encode_topics (sb_topics packet)));
    encode_with_body CptSubscribe 2 body.

Fixpoint encode_filters (topics : list string) : encoder :=
  match topics with
  | [] => mret tt
  | topic :: topics =>
      (if bool_decide (topic = ""%string) then
         lift (Err (EMalformedPacket "UNSUBSCRIBE topic filter must not be empty"))
       else encode_utf8_string topic);;
      encode_filters topics
  end.

Definition unsubscribe_encode (packet : Unsubscribe) : encoder :=
  if negb (bool_decide (us_protocol_version packet = V5_0)) then
    lift (Err (EMalformedPacket "UNSUBSCRIBE packet is not MQTT 5.0"))
  else if us_packet_identifier packet =? 0 then
    lift (Err (EMalformedPacket "UNSUBSCRIBE packet identifier must not be zero"))
  else if bool_decide (us_topics packet = []) then
    lift (Err (EMalformedPacket "UNSUBSCRIBE must contain at least one topic filter"))
  else
    body ← lift (with_new_buffer
      (put_u16 (us_packet_identifier packet);;
       V5Properties.encode (us_properties packet) ScUnsubscribe;;
       encode_filters (us_topics packet)));
    encode_with_body CptUnsubscribe 2 body.

Definition subscribe_to_bytes (packet : Subscribe) : result BytesMut :=
  with_new_buffer (subscribe_encode packet).
Definition unsubscribe_to_bytes (packet : Unsubscribe) : result BytesMut :=
  with_new_buffer (unsubscribe_encode packet).

End Encode.

(** ** Contracts *)

Definition filter_ok (s : string) : bool :=
  negb (bool_decide (s = ""%string)) && (zlen (as_bytes s) <=? u16_max).
Definition topic_ok (t : SubscribeTopic) : bool :=
  filter_ok (st_topic_filter t) && negb (2 <? st_qos t).
Definition topic_bytes (t : SubscribeTopic) : bytes :=
  string_bytes (st_topic_filter t) ++ [encode_options t].
Definition wf_topic (t : SubscribeTopic) : Prop :=
  is_str (st_topic_filter t) /\ is_u8 (st_qos t).

Definition subscribe_spec : PacketSpec Subscribe := {|
  ps_type := CptSubscribe;
  ps_flags := fun _ => 2;
  ps_wf := fun a =>
    is_u16 (sb_packet_identifier a) /\ wf_properties (sb_properties a) /\
    Forall wf_topic (sb_topics a);
  ps_ok := fun a =>
    bool_decide (sb_protocol_version a = V5_0) && negb (sb_packet_identifier a =? 0)
    && negb (bool_decide (sb_topics a = [])) && props_ok ScSubscribe (sb_properties a)
    && forallb topic_ok (sb_topics a);
  ps_readable := fun a => props_readable (sb_properties a);
  ps_body := fun a =>
    be_u16 (sb_packet_identifier a) ++ props_bytes (sb_properties a)
    ++ concat (map topic_bytes (sb_topics a));
  ps_norm := fun a => a;
|}.

Definition unsubscribe_spec : PacketSpec Unsubscribe := {|
  ps_type := CptUnsubscribe;
  ps_flags := fun _ => 2;
  ps_wf := fun a =>
    is_u16 (us_packet_identifier a) /\ wf_properties (us_properties a) /\
    Forall is_str (us_topics a);
  ps_ok := fun a =>
    bool_decide (us_protocol_version a = V5_0) && negb (us_packet_identifier a =? 0)
    && negb (bool_decide (us_topics a = [])) && props_ok ScUnsubscribe (us_properties a)
    && forallb filter_ok (us_topics a);
  ps_readable := fun a => props_readable (us_properties a);
  ps_body := fun a =>
    be_u16 (us_packet_identifier a) ++ props_bytes (us_properties a)
    ++ concat (map string_bytes (us_topics a));
  ps_norm := fun a => a;
|}.

Ltac subscribe_cbn :=
  unfold subscribe_spec, unsubscribe_spec, canonical_body in *; spec_cbn;
  cbn [sb_protocol_version sb_packet_identifier sb_topics sb_properties
       us_protocol_version us_packet_identifier us_topics us_properties] in *.

(** *** Encoders *)

Section EncodeSpec.
Context {B : BytesCrate} {BS : BytesCrateSpec B}.

Lemma writes_topics topics :
  writes (encode_topics topics) (forallb topic_ok topics) (concat (map topic_bytes topics)).
Proof.
  induction topics as [|t topics IH]; [apply writes_ret|].
  cbn [encode_topics forallb map concat]. apply writes_bind; [|exact IH].
  eapply writes_eq.
  - do 2 eapply writes_guard. eapply writes_bind; [apply writes_utf8_string|apply writes_put_u8].
  - unfold topic_ok, filter_ok.
    destruct (bool_decide _), (2 <? _), (_ <=? _); reflexivity.
  - done.
Qed.

Lemma writes_filters topics :
  writes (encode_filters topics) (forallb filter_ok topics) (concat (map string_bytes topics)).
Proof.
  induction topics as [|t topics IH]; [apply writes_ret|].
  cbn [encode_filters forallb map concat]. apply writes_bind; [|exact IH].
  apply writes_guard, writes_utf8_string.
Qed.

#[export] Instance subscribe_encoder : PacketEncoder subscribe_spec subscribe_encode.
Proof.
  intros a (_ & Hp & _). unfold subscribe_encode. eapply writes_eq.
  - do 3 eapply writes_guard. apply writes_frame; [done|].
    eapply writes_bind; [apply writes_put_u16|].
    eapply writes_bind; [by apply writes_properties|apply writes_topics].
  - unfold subscribe_spec. ok_eq.
  - done.
Qed.

#[export] Instance unsubscribe_encoder : PacketEncoder unsubscribe_spec unsubscribe_encode.
Proof.
  intros a (_ & Hp & _). unfold unsubscribe_encode. eapply writes_eq.
  - do 3 eapply writes_guard. apply writes_frame; [done|].
    eapply writes_bind; [apply writes_put_u16|].
    eapply writes_bind; [by apply writes_properties|apply writes_filters].
  - unfold unsubscribe_spec. ok_eq.
  - done.
Qed.
End EncodeSpec.

(** *** Parsers *)

(** The options byte reads back. *)
Lemma parse_topic_options t :
  0 <= st_qos t <= 2 -> parse_topic (st_topic_filter t) (encode_options t) = Ok t.
Proof.
  destruct t as [f q nl rap rh]. cbn [st_qos]. intros Hq.
  assert (q = 0 \/ q = 1 \/ q = 2) as [->|[->| ->]] by lia; destruct nl, rap, rh; done.
Qed.

Lemma parse_topic_returns f o :
  returns_with (parse_topic f o) (fun t => st_topic_filter t = f /\ 0 <= st_qos t <= 2).
Proof.
  unfold parse_topic. destruct (negb _); [done|]. destruct (Z.eqb_spec (Z.land o 3) 3); [done|].
  assert (0 <= Z.land o 3 <= 2) as Hq.
  { pose proof (Z.land_ones o 2 ltac:(lia)) as E. change (Z.ones 2) with 3 in E.
    change (2 ^ 2) with 4 in E. pose proof (Z.mod_pos_bound o 4). lia. }
  repeat case_match; try done; simpl; split; done.
Qed.

Lemma filter_ok_true s :
  filter_ok s = true <-> s <> ""%string /\ zlen (as_bytes s) <= u16_max.
Proof. unfold filter_ok. by rewrite andb_true_iff, negb_true_iff, bool_decide_eq_false, Z.leb_le. Qed.

Lemma string_bytes_nonempty s rest : string_bytes s ++ rest <> [].
Proof. done. Qed.

Lemma topic_bytes_length t : length (topic_bytes t) = (3 + length (as_bytes (st_topic_filter t)))%nat.
Proof. unfold topic_bytes. rewrite length_app, length_string_bytes. simpl. lia. Qed.

Lemma parse_topics_reads topics : forall fuel acc,
  Forall wf_topic topics -> forallb topic_ok topics = true ->
  (length (concat (map topic_bytes topics)) <= fuel)%nat ->
  parse_topics_loop fuel (concat (map topic_bytes topics)) acc = Ok (acc ++ topics).
Proof.
  induction topics as [|t topics IH]; intros fuel acc Hwf Hok Hf.
  { simpl. rewrite app_nil_r. by destruct fuel. }
  inversion Hwf as [|? ? [Hs Hq] Hwf']; subst. cbn [forallb] in Hok.
  apply andb_prop in Hok as [[Hfo Hqo]%andb_prop Hok]. apply filter_ok_true in Hfo as [Hne _].
  rewrite negb_true_iff, Z.ltb_ge in Hqo. cbn [map concat] in Hf |- *.
  rewrite length_app, topic_bytes_length in Hf. unfold topic_bytes at 1.
  rewrite <-!app_assoc. destruct fuel as [|fuel]; [lia|].
  cbn [parse_topics_loop]. destruct (string_bytes _ ++ _) as [|b l] eqn:E; [done|].
  rewrite <-E, reads_utf8_string by done. cbn [mbind outcome_bind].
  rewrite decide_False by done. rewrite reads_u8. cbn [mbind outcome_bind].
  unfold is_u8 in Hq. rewrite parse_topic_options by lia. cbn [mbind outcome_bind].
  rewrite IH; [by rewrite <-app_assoc|done|done|lia].
Qed.

Lemma parse_filters_reads topics : forall fuel acc,
  Forall is_str topics -> forallb filter_ok topics = true ->
  (length (concat (map string_bytes topics)) <= fuel)%nat ->
  parse_filters_loop fuel (concat (map string_bytes topics)) acc = Ok (acc ++ topics).
Proof.
  induction topics as [|t topics IH]; intros fuel acc Hwf Hok Hf.
  { simpl. rewrite app_nil_r. by destruct fuel. }
  inversion Hwf as [|? ? Hs Hwf']; subst. cbn [forallb] in Hok.
  apply andb_prop in Hok as [Hfo Hok]. apply filter_ok_true in Hfo as [Hne _].
  cbn [map concat] in Hf |- *. rewrite length_app, length_string_bytes in Hf.
  destruct fuel as [|fuel]; [lia|]. cbn [parse_filters_loop].
  destruct (string_bytes _ ++ _) as [|b l] eqn:E; [done|].
  rewrite <-E, reads_utf8_string by done. cbn [mbind outcome_bind].
  rewrite decide_False by done. rewrite IH; [by rewrite <-app_assoc|done|done|lia].
Qed.

(** The loops stop, and what they collect is no longer than what they read. *)
Lemma parse_topics_returns fuel : forall input acc,
  is_bytes input -> (length input <= fuel)%nat ->
  returns_with (parse_topics_loop fuel input acc) (fun topics => exists new,
    topics = acc ++ new /\ Forall wf_topic new /\ forallb topic_ok new = true /\
    (length (concat (map topic_bytes new)) <= length input)%nat).
Proof.
  induction fuel as [|fuel IH]; intros input acc Hin Hf;
    (destruct input as [|b input]; [exists []; rewrite app_nil_r; by split_and!|]);
    simpl in Hf; [lia|].
  cbn [parse_topics_loop]. eapply returns_with_bind; [by apply parse_utf8_string_parses|].
  intros [rest f] (pre & E & Hs & Hfl & Hpre). rewrite E in Hin. apply is_bytes_app in Hin as [_ Hin].
  cbn beta iota. destruct (decide (f = ""%string)) as [|Hne]; [done|].
  eapply returns_with_bind; [by apply parse_u8_parses|].
  intros [rest1 o] (pre1 & -> & -> & _). cbn beta iota.
  eapply returns_with_bind; [apply parse_topic_returns|]. intros t [Ht Hq].
  assert (length (b :: input) = length (pre ++ [o] ++ rest1)) as Hl by by rewrite E.
  rewrite !length_app in Hl. simpl in Hl. apply is_bytes_app in Hin as [_ Hin].
  eapply returns_with_mono; [apply IH; [done|lia]|].
  intros topics (new & -> & Hwf & Hok & Hlen). exists (t :: new). split; [by rewrite <-app_assoc|].
  split; [constructor; [|done]; rewrite <-Ht in Hs; split; [done|unfold is_u8; lia]|].
  cbn [forallb map concat]. rewrite length_app, topic_bytes_length, Ht.
  assert (topic_ok t = true) as ->.
  { unfold topic_ok. by rewrite Ht, (proj2 (filter_ok_true f)), (proj2 (Z.ltb_ge _ _)) by
      (done || lia). }
  rewrite Hok. split; [done|]. simpl. lia.
Qed.

Lemma parse_filters_returns fuel : forall input acc,
  is_bytes input -> (length input <= fuel)%nat ->
  returns_with (parse_filters_loop fuel input acc) (fun topics => exists new,
    topics = acc ++ new /\ Forall is_str new /\ forallb filter_ok new = true /\
    (length (concat (map string_bytes new)) <= length input)%nat).
Proof.
  induction fuel as [|fuel IH]; intros input acc Hin Hf;
    (destruct input as [|b input]; [exists []; rewrite app_nil_r; by split_and!|]);
    simpl in Hf; [lia|].
  cbn [parse_filters_loop]. eapply returns_with_bind; [by apply parse_utf8_string_parses|].
  intros [rest f] (pre & E & Hs & Hfl & Hpre). rewrite E in Hin. apply is_bytes_app in Hin as [_ Hin].
  cbn beta iota. destruct (decide (f = ""%string)) as [|Hne]; [done|].
  assert (length (b :: input) = length (pre ++ rest)) as Hl by by rewrite E.
  rewrite !length_app in Hl. simpl in Hl.
  eapply returns_with_mono; [apply IH; [done|lia]|].
  intros topics (new & -> & Hwf & Hok & Hlen). exists (f :: new). split; [by rewrite <-app_assoc|].
  split; [by constructor|]. cbn [forallb map concat].
  rewrite length_app, length_string_bytes, (proj2 (filter_ok_true f)), Hok by done.
  split; [done|]. simpl. lia.
Qed.

Lemma subscribe_body_reads a :
  ps_wf subscribe_spec a -> ps_readable subscribe_spec a = true -> ps_ok subscribe_spec a = true ->
  zlen (ps_body subscribe_spec a) <= MAX_VARIABLE_BYTE_INTEGER ->
  exists r, parse_subscribe_body (ps_body subscribe_spec a) = Ok (r, ps_norm subscribe_spec a).
Proof.
  destruct a as [v id topics p]. intros (Hid & Hp & Ht) Hread Hok Hlen. subscribe_cbn.
  rewrite !andb_true_iff, !negb_true_iff, bool_decide_eq_true, bool_decide_eq_false in Hok.
  destruct Hok as ((((-> & Hnz) & Hne) & Hpo) & Hto). unfold parse_subscribe_body.
  rewrite reads_u16. cbn [mbind outcome_bind]. rewrite Hnz. autorewrite with zlen in Hlen.
  pose proof (zlen_nonneg (concat (map topic_bytes topics))).
  rewrite reads_props_ok by (done || lia). cbn [mbind outcome_bind].
  rewrite parse_topics_reads by done. cbn [mbind outcome_bind app].
  rewrite decide_False by done. by eexists.
Qed.

Lemma unsubscribe_body_reads a :
  ps_wf unsubscribe_spec a -> ps_readable unsubscribe_spec a = true ->
  ps_ok unsubscribe_spec a = true ->
  zlen (ps_body unsubscribe_spec a) <= MAX_VARIABLE_BYTE_INTEGER ->
  exists r, parse_unsubscribe_body (ps_body unsubscribe_spec a)
            = Ok (r, ps_norm unsubscribe_spec a).
Proof.
  destruct a as [v id topics p]. intros (Hid & Hp & Ht) Hread Hok Hlen. subscribe_cbn.
  rewrite !andb_true_iff, !negb_true_iff, bool_decide_eq_true, bool_decide_eq_false in Hok.
  destruct Hok as ((((-> & Hnz) & Hne) & Hpo) & Hto). unfold parse_unsubscribe_body.
  rewrite reads_u16. cbn [mbind outcome_bind]. rewrite Hnz. autorewrite with zlen in Hlen.
  pose proof (zlen_nonneg (concat (map string_bytes topics))).
  rewrite reads_props_ok by (done || lia). cbn [mbind outcome_bind].
  rewrite parse_filters_reads by done. cbn [mbind outcome_bind app].
  rewrite decide_False by done. by eexists.
Qed.

Lemma subscribe_body_parses body :
  is_bytes body -> parses (parse_subscribe_body body) body (canonical_body subscribe_spec).
Proof.
  intros Hin. unfold parse_subscribe_body. parsed. intros rest id pre [Hid Hpre] Hrest _.
  cbn [mbind outcome_bind]. destruct (id =? 0) eqn:Hnz; [done|].
  parsed. intros rest1 p pre1 (Hp & Hpl & Hlen) Hrest1 _. cbn [mbind outcome_bind].
  eapply parses_lift; [by apply parse_topics_returns|].
  intros topics (new & -> & Hwf & Hok & Hl). cbn [app].
  destruct (decide (new = [])) as [|Hne]; [done|].
  exists rest1. split; [by rewrite app_nil_r|]. subscribe_cbn.
  rewrite Hnz, Hok, (valid_props_ok _ _ Hp Hpl), (valid_readable _ _ Hp).
  rewrite (bool_decide_eq_false_2 _ Hne).
  pose proof (valid_wf_properties _ _ Hp). split_and!; try done.
  rewrite !length_app. change (length (be_u16 id)) with 2%nat. lia.
Qed.

Lemma unsubscribe_body_parses body :
  is_bytes body -> parses (parse_unsubscribe_body body) body (canonical_body unsubscribe_spec).
Proof.
  intros Hin. unfold parse_unsubscribe_body. parsed. intros rest id pre [Hid Hpre] Hrest _.
  cbn [mbind outcome_bind]. destruct (id =? 0) eqn:Hnz; [done|].
  parsed. intros rest1 p pre1 (Hp & Hpl & Hlen) Hrest1 _. cbn [mbind outcome_bind].
  eapply parses_lift; [by apply parse_filters_returns|].
  intros topics (new & -> & Hwf & Hok & Hl). cbn [app].
  destruct (decide (new = [])) as [|Hne]; [done|].
  exists rest1. split; [by rewrite app_nil_r|]. subscribe_cbn.
  rewrite Hnz, Hok, (valid_props_ok _ _ Hp Hpl), (valid_readable _ _ Hp).
  rewrite (bool_decide_eq_false_2 _ Hne).
  pose proof (valid_wf_properties _ _ Hp). split_and!; try done.
  rewrite !length_app. change (length (be_u16 id)) with 2%nat. lia.
Qed.

#[export] Instance subscribe_parser : PacketParser subscribe_spec PSubscribe subscribe_parse.
Proof.
  apply (parser_of_body_parser subscribe_spec PSubscribe _ _ _
    (fun _ body => parse_subscribe_body body)); try done.
  - apply subscribe_body_reads.
  - intros flags body _. apply subscribe_body_parses.
Qed.

#[export] Instance unsubscribe_parser :
  PacketParser unsubscribe_spec PUnsubscribe unsubscribe_parse.
Proof.
  apply (parser_of_body_parser unsubscribe_spec PUnsubscribe _ _ _
    (fun _ body => parse_unsubscribe_body body)); try done.
  - apply unsubscribe_body_reads.
  - intros flags body _. apply unsubscribe_body_parses.
Qed.
