(* ===== verification/V5Connect.v ===== *)
(** * CONNECT ([mqtt/src/v5/connect.rs]) *)

From S2P Require Import Prelude Utf8 Buf Packet V5Common V5FixedHeader V5Properties.
From S2P Require Import V5PropertiesSpec V5Frame.

Record ConnectFlags := mkConnectFlags {
  cf_username : bool;
  cf_password : bool;
  cf_will_retain : bool;
  cf_will_qos : Z;
  cf_will : bool;
  cf_clean_start : bool;
}.

(** [ConnectFlags::parse]. *)
Definition parse_flags (value : Z) : result ConnectFlags :=
  if negb (Z.land value 0x01 =? 0) then
    Err (EMalformedPacket "CONNECT reserved flag bit must be zero")
  else
    let username := negb (Z.land value 0x80 =? 0) in
    let password := negb (Z.land value 0x40 =? 0) in
    if password && negb username then
      Err (EMalformedPacket "CONNECT password flag requires username flag")
    else
      let will_retain := negb (Z.land value 0x20 =? 0) in
      let will_qos := Z.shiftr (Z.land value 0x18) 3 in
      let will := negb (Z.land value 0x04 =? 0) in
      if will_qos =? 3 then Err (EMalformedPacket "CONNECT will QoS must not be 3")
      else if negb will && (negb (will_qos =? 0) || will_retain) then
        Err (EMalformedPacket "CONNECT will QoS and retain require will flag")
      else
        Ok (mkConnectFlags username password will_retain will_qos will
              (negb (Z.land value 0x02 =? 0))).

(** [ConnectFlags::encode]. *)
Definition encode_flags (f : ConnectFlags) : result Z :=
  if 2 <? cf_will_qos f then
    Err (EMalformedPacket "CONNECT will QoS must not be greater than 2")
  else
    let value := 0 in
    let value := if cf_username f then Z.lor value 0x80 else value in
    let value := if cf_password f then Z.lor value 0x40 else value in
    let value := if cf_will_retain f then Z.lor value 0x20 else value in
    let value := Z.lor value (Z.shiftl (cf_will_qos f) 3) in
    let value := if cf_will f then Z.lor value 0x04 else value in
    let value := if cf_clean_start f then Z.lor value 0x02 else value in
    parse_flags value;;
    Ok value.

Definition reject_enhanced_auth (properties : Properties) : result unit :=
  if bool_decide (is_Some (authentication_method properties))
     || bool_decide (is_Some (authentication_data properties)) then
    Err (EMalformedPacket "enhanced authentication is not supported")
  else Ok tt.

(** The optional parts of the payload, present when their flag is set. *)
Definition parse_will (flags : ConnectFlags) (input : bytes) : result (bytes * option Will) :=
  if cf_will flags then
    '(input, will_properties) ← V5Properties.parse input ScWill;
    '(input, topic) ← parse_utf8_string input;
    '(input, payload) ← parse_binary input;
    Ok (input, Some (mkWill topic payload (cf_will_qos flags) (cf_will_retain flags)
                       will_properties))
  else Ok (input, None).

Definition parse_username (flags : ConnectFlags) (input : bytes)
    : result (bytes * option string) :=
  if cf_username flags then
    '(input, username) ← parse_utf8_string input; Ok (input, Some username)
  else Ok (input, None).

Definition parse_password (flags : ConnectFlags) (input : bytes)
    : result (bytes * option string) :=
  if cf_password flags then
    '(input, password) ← parse_binary input;
    match from_utf8 password with
    | None => Err EInvalidUtf8
    | Some password => Ok (input, Some password)
    end
  else Ok (input, None).

Definition parse_body (input : bytes) : result (bytes * Connect) :=
  '(input, protocol_name) ← parse_utf8_string input;
  if negb (bool_decide (protocol_name = "MQTT"%string)) then
    Err (EMalformedPacket "CONNECT protocol name must be MQTT")
  else
    '(input, protocol_level) ← parse_u8 input "CONNECT protocol level";
    if negb (protocol_level =? 5) then
      Err (EMalformedPacket "CONNECT protocol level must be 5")
    else
      '(input, flags) ← parse_u8 input "CONNECT flags";
      flags ← parse_flags flags;
      '(input, keep_alive) ← parse_u16 input "CONNECT keep alive";
      '(input, properties) ← V5Properties.parse input ScConnect;
      reject_enhanced_auth properties;;
      '(input, client_id) ← parse_utf8_string input;
      '(input, will) ← parse_will flags input;
      '(input, username) ← parse_username flags input;
      '(input, password) ← parse_password flags input;
      if decide (input = []) then
        Ok (input, mkConnect V5_0 client_id username password keep_alive (cf_clean_start flags)
                     (session_expiry_interval properties) will properties)
      else Err (EMalformedPacket "CONNECT payload has trailing bytes").

Definition parse (input : bytes) (max_message_size : Z) : result (bytes * Packet) :=
  parse_with_body CptConnect "expected CONNECT packet" no_check "CONNECT body"
    (fun _ body => '(r, connect) ← parse_body body; Ok (r, PConnect connect))
    input max_message_size.

Definition normalized_connect_properties (packet : Connect) : result Properties :=
  let properties := cn_properties packet in
  match cn_session_expiry_interval packet, session_expiry_interval properties with
  | Some packet_value, Some property_value =>
      if packet_value =? property_value then Ok properties
      else Err (EMalformedPacket "CONNECT session expiry interval disagrees with properties")
  | Some packet_value, None => Ok (set_session_expiry_interval (Some packet_value) properties)
  | None, _ => Ok properties
  end.

(** The [ConnectFlags] built by [encode]. *)
Definition flags_of (packet : Connect) : ConnectFlags :=
  mkConnectFlags (bool_decide (is_Some (cn_username packet)))
    (bool_decide (is_Some (cn_password packet)))
    (match cn_will packet with Some will => w_retain will | None => false end)
    (match cn_will packet with Some will => w_qos will | None => 0 end)
    (bool_decide (is_Some (cn_will packet))) (cn_clean_start packet).

Section Encode.
Context {B : BytesCrate}.

(** The statements of [encode] that fill [body]. *)
Definition encode_body (packet : Connect) (properties : Properties) : encoder :=
  encode_utf8_string "MQTT";;
  put_u8 0x05;;
  flags ← lift (encode_flags (flags_of packet));
  put_u8 flags;;
  put_u16 (cn_keep_alive packet);;
  V5Properties.encode properties ScConnect;;
  encode_utf8_string (cn_client_id packet);;
  match cn_will packet with
  | Some will =>
      V5Properties.encode (w_properties will) ScWill;;
      encode_utf8_string (w_topic will);;
      encode_binary (w_payload will)
  | None => mret tt
  end;;
  match cn_username packet with
  | Some username => encode_utf8_string username
  | None => mret tt
  end;;
  match cn_password packet with
  | Some password => encode_binary (as_bytes password)
  | None => mret tt
  end.

Definition encode (packet : Connect) : encoder :=
  if negb (bool_decide (cn_protocol_version packet = V5_0)) then
    lift (Err (EMalformedPacket "CONNECT packet is not MQTT 5.0"))
  else
    properties ← lift (normalized_connect_properties packet);
    lift (reject_enhanced_auth properties);;
    body ← lift (with_new_buffer (encode_body packet properties));
    encode_with_body CptConnect 0 body.

Definition to_bytes (packet : Connect) : result BytesMut := with_new_buffer (encode packet).

End Encode.

(** ** The contract *)

Definition no_auth (p : Properties) : bool :=
  negb (bool_decide (is_Some (authentication_method p))
        || bool_decide (is_Some (authentication_data p))).

Definition flags_byte (f : ConnectFlags) : Z :=
  (if cf_username f then 128 else 0) + (if cf_password f then 64 else 0)
  + (if cf_will_retain f then 32 else 0) + 8 * cf_will_qos f + (if cf_will f then 4 else 0)
  + (if cf_clean_start f then 2 else 0).

(** A will QoS up to 2, and no password without a username. *)
Definition connect_flags_ok (f : ConnectFlags) : bool :=
  negb (2 <? cf_will_qos f) && (cf_username f || negb (cf_password f))
  && (cf_will f || ((cf_will_qos f =? 0) && negb (cf_will_retain f))).

Definition fits (l : bytes) : bool := zlen l <=? u16_max.
Definition opt_fits (x : option string) : bool :=
  match x with Some s => fits (as_bytes s) | None => true end.
Definition opt_string_bytes (x : option string) : bytes :=
  match x with Some s => string_bytes s | None => [] end.

Definition will_ok (x : option Will) : bool :=
  match x with
  | Some w => props_ok ScWill (w_properties w) && fits (as_bytes (w_topic w)) && fits (w_payload w)
  | None => true
  end.
Definition will_bytes (x : option Will) : bytes :=
  match x with
  | Some w => props_bytes (w_properties w) ++ string_bytes (w_topic w) ++ binary_bytes (w_payload w)
  | None => []
  end.
Definition wf_will (x : option Will) : Prop :=
  match x with
  | Some w => is_str (w_topic w) /\ is_bytes (w_payload w) /\ is_u8 (w_qos w) /\
              wf_properties (w_properties w)
  | None => True
  end.
Definition wf_opt_str (x : option string) : Prop :=
  match x with Some s => is_str s | None => True end.

Definition connect_spec : PacketSpec Connect :=
  let props a := merge_expiry (cn_session_expiry_interval a) (cn_properties a) in {|
  ps_type := CptConnect;
  ps_flags := fun _ => 0;
  ps_wf := fun a =>
    (is_str (cn_client_id a) /\ wf_opt_str (cn_username a) /\ wf_opt_str (cn_password a)) /\
    is_u16 (cn_keep_alive a) /\ wf_will (cn_will a) /\ wf_properties (cn_properties a) /\
    match cn_session_expiry_interval a with Some z => is_u32 z | None => True end;
  ps_ok := fun a =>
    bool_decide (cn_protocol_version a = V5_0)
    && expiry_agrees (cn_session_expiry_interval a) (cn_properties a)
    && no_auth (cn_properties a) && connect_flags_ok (flags_of a)
    && props_ok ScConnect (props a) && fits (as_bytes (cn_client_id a)) && will_ok (cn_will a)
    && opt_fits (cn_username a) && opt_fits (cn_password a);
  ps_readable := fun a =>
    props_readable (cn_properties a)
    && match cn_will a with Some w => props_readable (w_properties w) | None => true end;
  ps_body := fun a =>
    string_bytes "MQTT" ++ [5] ++ [flags_byte (flags_of a)] ++ be_u16 (cn_keep_alive a)
    ++ props_bytes (props a) ++ string_bytes (cn_client_id a) ++ will_bytes (cn_will a)
    ++ opt_string_bytes (cn_username a) ++ opt_string_bytes (cn_password a);
  ps_norm := fun a =>
    mkConnect (cn_protocol_version a) (cn_client_id a) (cn_username a) (cn_password a)
      (cn_keep_alive a) (cn_clean_start a) (session_expiry_interval (props a)) (cn_will a)
      (props a);
|}.

Ltac connect_cbn :=
  unfold connect_spec, canonical_body in *; spec_cbn;
  cbn [cn_protocol_version cn_client_id cn_username cn_password cn_keep_alive cn_clean_start
       cn_session_expiry_interval cn_will cn_properties] in *.

Lemma normalized_connect_spec a :
  normalized_connect_properties a =
    if expiry_agrees (cn_session_expiry_interval a) (cn_properties a)
    then Ok (merge_expiry (cn_session_expiry_interval a) (cn_properties a))
    else Err (EMalformedPacket "CONNECT session expiry interval disagrees with properties").
Proof.
  unfold normalized_connect_properties, expiry_agrees, merge_expiry.
  by destruct (cn_session_expiry_interval a), (session_expiry_interval (cn_properties a)).
Qed.

Lemma merge_expiry_no_auth x p : no_auth (merge_expiry x p) = no_auth p.
Proof. unfold merge_expiry. destruct x; [|done]. by destruct (session_expiry_interval p), p. Qed.

Lemma reject_enhanced_auth_spec p :
  reject_enhanced_auth p =
    if no_auth p then Ok tt else Err (EMalformedPacket "enhanced authentication is not supported").
Proof. unfold reject_enhanced_auth, no_auth. by destruct (_ || _). Qed.

(** The flags byte of admissible flags, and back. *)
Lemma encode_flags_spec f :
  0 <= cf_will_qos f ->
  if connect_flags_ok f
  then encode_flags f = Ok (flags_byte f) /\ parse_flags (flags_byte f) = Ok f
  else exists e, encode_flags f = Err e.
Proof.
  destruct f as [u p wr q w c]. cbn [cf_will_qos]. intros Hq.
  unfold connect_flags_ok, encode_flags, flags_byte.
  cbn [cf_username cf_password cf_will_retain cf_will_qos cf_will cf_clean_start].
  destruct (Z.ltb_spec 2 q); [by eexists|].
  assert (q = 0 \/ q = 1 \/ q = 2) as [->|[->| ->]] by lia;
    destruct u, p, wr, w, c; simpl; (split; reflexivity) || by eexists.
Qed.

(** What the flags parser accepts. *)
Lemma parse_flags_returns v :
  is_u8 v -> returns_with (parse_flags v) (fun f =>
    connect_flags_ok f = true /\ 0 <= cf_will_qos f).
Proof.
  intros Hv. pose proof (u8_check (fun v => match parse_flags v with
    | Ok f => connect_flags_ok f && (0 <=? cf_will_qos f)
    | Err _ => true | _ => false end) v eq_refl Hv) as H. cbv beta in H.
  destruct (parse_flags v) as [f|e| |]; try done. by apply andb_prop in H as [? ?%Z.leb_le].
Qed.

(** *** Encoder *)

Section EncodeSpec.
Context {B : BytesCrate} {BS : BytesCrateSpec B}.

Lemma writes_flags f w ok o :
  0 <= cf_will_qos f -> writes w ok o ->
  writes (flags ← lift (encode_flags f); put_u8 flags;; w)
    (connect_flags_ok f && ok) ([flags_byte f] ++ o).
Proof.
  intros Hq Hw. pose proof (encode_flags_spec f Hq) as H. destruct (connect_flags_ok f).
  - destruct H as [-> _]. eapply writes_lift; [done|].
    exact (writes_bind (writes_put_u8 (flags_byte f)) Hw).
  - destruct H as [e ->]. by apply writes_lift.
Qed.

Lemma writes_will x :
  wf_will x ->
  writes (match x with
          | Some will =>
              V5Properties.encode (w_properties will) ScWill;;
              encode_utf8_string (w_topic will);;
              encode_binary (w_payload will)
          | None => mret tt
          end) (will_ok x) (will_bytes x).
Proof.
  destruct x as [w|]; [|intros _; apply writes_ret]. intros (_ & _ & _ & Hp).
  eapply writes_eq; [eapply writes_bind; [by apply writes_properties|eapply writes_bind;
    [apply writes_utf8_string|apply writes_binary]]|by rewrite andb_assoc|done].
Qed.

Lemma writes_opt_string x :
  writes (match x with Some s => encode_utf8_string s | None => mret tt end)
    (opt_fits x) (opt_string_bytes x).
Proof. destruct x; [apply writes_utf8_string|apply writes_ret]. Qed.

Lemma writes_opt_binary x :
  writes (match x with Some s => encode_binary (as_bytes s) | None => mret tt end)
    (opt_fits x) (opt_string_bytes x).
Proof. destruct x; [apply writes_binary|apply writes_ret]. Qed.

Lemma flags_of_qos a : ps_wf connect_spec a -> 0 <= cf_will_qos (flags_of a).
Proof.
  intros (_ & _ & Hw & _). unfold flags_of. cbn [cf_will_qos].
  destruct (cn_will a) as [w|]; [|lia]. destruct Hw as (_ & _ & Hq & _). unfold is_u8 in Hq. lia.
Qed.

Lemma writes_connect_body a p :
  ps_wf connect_spec a -> wf_properties p ->
  writes (encode_body a p)
    (connect_flags_ok (flags_of a) && props_ok ScConnect p && fits (as_bytes (cn_client_id a))
     && will_ok (cn_will a) && opt_fits (cn_username a) && opt_fits (cn_password a))
    (string_bytes "MQTT" ++ [5] ++ [flags_byte (flags_of a)] ++ be_u16 (cn_keep_alive a)
     ++ props_bytes p ++ string_bytes (cn_client_id a) ++ will_bytes (cn_will a)
     ++ opt_string_bytes (cn_username a) ++ opt_string_bytes (cn_password a)).
Proof.
  intros Hwf Hp. eapply writes_eq.
  - eapply writes_bind; [apply writes_utf8_string|].
    eapply writes_bind; [apply writes_put_u8|].
    apply writes_flags; [by apply flags_of_qos|].
    eapply writes_bind; [apply writes_put_u16|].
    eapply writes_bind; [by apply writes_properties|].
    eapply writes_bind; [apply writes_utf8_string|].
    eapply writes_bind; [apply writes_will, Hwf|].
    eapply writes_bind; [apply writes_opt_string|apply writes_opt_binary].
  - unfold fits. cbn [andb]. by rewrite !andb_assoc.
  - done.
Qed.

#[export] Instance connect_encoder : PacketEncoder connect_spec encode.
Proof.
  intros a Hwf. pose proof Hwf as (_ & _ & _ & Hp & Hx). unfold encode.
  rewrite normalized_connect_spec. destruct (expiry_agrees _ _) eqn:Hag.
  2: { eapply writes_eq; [eapply writes_guard, (writes_lift (ok := false) (o := [])); done|..];
       unfold spec_ok; connect_cbn; by rewrite Hag, !andb_false_r. }
  eapply writes_eq.
  - eapply writes_guard. eapply writes_lift; [done|]. cbn beta.
    rewrite reject_enhanced_auth_spec, merge_expiry_no_auth.
    eapply writes_bind; [apply (writes_check _ (no_auth (cn_properties a)));
      by destruct (no_auth _)|].
    apply writes_frame; [done|]. apply writes_connect_body; [done|by apply merge_expiry_wf].
  - unfold spec_ok. connect_cbn. rewrite Hag. ok_eq.
  - done.
Qed.
End EncodeSpec.

(** *** Parser *)

Lemma no_auth_of_valid p : no_auth p = true -> reject_enhanced_auth p = Ok tt.
Proof. intros H. by rewrite reject_enhanced_auth_spec, H. Qed.

(** The optional parts as written, for the flags of the packet. *)
Lemma reads_will a :
  wf_will (cn_will a) -> will_ok (cn_will a) = true ->
  match cn_will a with Some w => props_readable (w_properties w) | None => true end = true ->
  zlen (will_bytes (cn_will a)) <= MAX_VARIABLE_BYTE_INTEGER ->
  reads (parse_will (flags_of a)) (will_bytes (cn_will a)) (cn_will a).
Proof.
  unfold parse_will, flags_of. cbn [cf_will cf_will_qos cf_will_retain].
  destruct (cn_will a) as [[t pl q rt wp]|]; [|done].
  cbn [will_ok will_bytes wf_will w_properties w_topic w_payload w_qos w_retain].
  intros (Ht & Hpl & _ & Hwp) [[Hwo _]%andb_prop _]%andb_prop Hr Hlen rest.
  rewrite bool_decide_eq_true_2 by eauto. rewrite !zlen_app in Hlen.
  pose proof (zlen_nonneg (string_bytes t)). pose proof (zlen_nonneg (binary_bytes pl)).
  rewrite <-!app_assoc, reads_props_ok by (done || lia). cbn [mbind outcome_bind].
  rewrite reads_utf8_string by done. cbn [mbind outcome_bind]. by rewrite reads_binary.
Qed.

Lemma reads_username a :
  wf_opt_str (cn_username a) ->
  reads (parse_username (flags_of a)) (opt_string_bytes (cn_username a)) (cn_username a).
Proof.
  unfold parse_username, flags_of. cbn [cf_username]. destruct (cn_username a) as [s|]; [|done].
  intros Hs rest. rewrite bool_decide_eq_true_2 by eauto. cbn [opt_string_bytes].
  by rewrite reads_utf8_string.
Qed.

Lemma reads_password a :
  wf_opt_str (cn_password a) ->
  reads (parse_password (flags_of a)) (opt_string_bytes (cn_password a)) (cn_password a).
Proof.
  unfold parse_password, flags_of. cbn [cf_password]. destruct (cn_password a) as [s|]; [|done].
  intros Hs rest. rewrite bool_decide_eq_true_2 by eauto. cbn [opt_string_bytes].
  unfold string_bytes. rewrite reads_binary. cbn [mbind outcome_bind].
  by rewrite from_utf8_as_bytes.
Qed.

Lemma connect_body_reads a :
  ps_wf connect_spec a -> ps_readable connect_spec a = true -> ps_ok connect_spec a = true ->
  zlen (ps_body connect_spec a) <= MAX_VARIABLE_BYTE_INTEGER ->
  exists r, parse_body (ps_body connect_spec a) = Ok (r, ps_norm connect_spec a).
Proof.
  intros Hwf Hread Hok Hlen. pose proof (flags_of_qos a Hwf) as Hq.
  pose proof (encode_flags_spec (flags_of a) Hq) as Hfl.
  pose proof (reads_will a) as Rw. pose proof (reads_username a) as Ru.
  pose proof (reads_password a) as Rp.
  destruct a as [v cid un pw ka cs x w p]. destruct Hwf as ((Hcid & Hun & Hpw) & Hka & Hw & Hp & Hx).
  connect_cbn. set (f := flags_of _) in *.
  rewrite !andb_true_iff, bool_decide_eq_true in Hok.
  destruct Hok as ((((((((-> & Hag) & Hna) & Hfo) & Hpo) & Hcf) & Hwo) & Hunf) & Hpwf).
  rewrite Hfo in Hfl. destruct Hfl as [_ Hfl]. apply andb_prop in Hread as [Hpr Hwr].
  rewrite !zlen_app in Hlen. unfold zlen in Hlen.
  unfold parse_body. rewrite reads_utf8_string by done. cbn [mbind outcome_bind].
  rewrite bool_decide_eq_true_2 by done. cbn [negb].
  rewrite reads_u8. cbn [mbind outcome_bind]. rewrite Z.eqb_refl. cbn [negb].
  rewrite reads_u8. cbn [mbind outcome_bind]. rewrite Hfl. cbn [mbind outcome_bind].
  rewrite reads_u16. cbn [mbind outcome_bind].
  rewrite reads_props_ok; [|by apply merge_expiry_wf|done|by rewrite merge_expiry_readable
    |unfold zlen; lia]. cbn [mbind outcome_bind].
  rewrite no_auth_of_valid by by rewrite merge_expiry_no_auth. cbn [mbind outcome_bind].
  rewrite reads_utf8_string by done. cbn [mbind outcome_bind].
  rewrite Rw by (done || (unfold zlen; lia)). cbn [mbind outcome_bind].
  rewrite Ru by done. cbn [mbind outcome_bind].
  rewrite <-(app_nil_r (opt_string_bytes pw)), Rp by done. cbn [mbind outcome_bind].
  rewrite decide_True by done. by eexists.
Qed.

(** On arbitrary input. *)
Lemma parse_will_parses f input :
  is_bytes input -> 0 <= cf_will_qos f <= 2 ->
  parses (parse_will f input) input (fun w pre =>
    wf_will w /\ will_ok w = true /\
    match w with Some w => props_readable (w_properties w) | None => true end = true /\
    (length (will_bytes w) <= length pre)%nat /\
    match w with
    | Some w => cf_will f = true /\ w_qos w = cf_will_qos f /\ w_retain w = cf_will_retain f
    | None => cf_will f = false
    end).
Proof.
  intros Hin Hq. unfold parse_will. destruct (cf_will f) eqn:Hw; [|by apply parses_Ok].
  parsed. intros rest p pre (Hp & Hpl & Hlen) Hrest _. cbn [mbind outcome_bind].
  parsed. intros rest1 t pre1 (Ht & Htl & Hpre1) Hrest1 _. cbn [mbind outcome_bind].
  parsed. intros rest2 d pre2 (Hd & Hdl & Hpre2) _ _. cbn [mbind outcome_bind].
  apply parses_Ok. cbn [wf_will will_ok will_bytes w_properties w_topic w_payload w_qos w_retain].
  pose proof (valid_wf_properties _ _ Hp). unfold is_u8, fits.
  rewrite (valid_props_ok _ _ Hp Hpl), (valid_readable _ _ Hp), (proj2 (Z.leb_le _ _) Htl),
    (proj2 (Z.leb_le _ _) Hdl). split_and!; try done; try lia.
  rewrite !length_app, length_string_bytes. unfold binary_bytes. rewrite length_app. simpl. lia.
Qed.

Lemma parse_username_parses f input :
  is_bytes input ->
  parses (parse_username f input) input (fun x pre =>
    wf_opt_str x /\ opt_fits x = true /\ (length (opt_string_bytes x) <= length pre)%nat /\
    bool_decide (is_Some x) = cf_username f).
Proof.
  intros Hin. unfold parse_username. destruct (cf_username f); [|by apply parses_Ok].
  parsed. intros rest s pre (Hs & Hsl & Hpre) _ _. apply parses_Ok.
  unfold opt_fits, fits. rewrite (proj2 (Z.leb_le _ _) Hsl), app_nil_r. simpl opt_string_bytes.
  rewrite length_string_bytes. split_and!; try done. lia.
Qed.

Lemma parse_password_parses f input :
  is_bytes input ->
  parses (parse_password f input) input (fun x pre =>
    wf_opt_str x /\ opt_fits x = true /\ (length (opt_string_bytes x) <= length pre)%nat /\
    bool_decide (is_Some x) = cf_password f).
Proof.
  intros Hin. unfold parse_password. destruct (cf_password f); [|by apply parses_Ok].
  parsed. intros rest d pre (Hd & Hdl & Hpre) _ _. cbn [mbind outcome_bind].
  destruct (from_utf8 d) as [s|] eqn:Hs; [|done]. apply from_utf8_Some in Hs as [Hs <-]; [|done].
  apply parses_Ok. unfold opt_fits, fits. rewrite (proj2 (Z.leb_le _ _) Hdl), app_nil_r.
  simpl opt_string_bytes. rewrite length_string_bytes. split_and!; try done. lia.
Qed.

(** The flags of a parsed packet are the flags read. *)
Lemma flags_of_parsed f v cid un pw ka x w p :
  connect_flags_ok f = true ->
  bool_decide (is_Some un) = cf_username f -> bool_decide (is_Some pw) = cf_password f ->
  match w with
  | Some w => cf_will f = true /\ w_qos w = cf_will_qos f /\ w_retain w = cf_will_retain f
  | None => cf_will f = false
  end ->
  flags_of (mkConnect v cid un pw ka (cf_clean_start f) x w p) = f.
Proof.
  intros Hf Hu Hp Hw. destruct f as [fu fp fr fq fw fc]. unfold flags_of.
  cbn [cn_username cn_password cn_will cn_clean_start cf_username cf_password cf_will
       cf_will_qos cf_will_retain cf_clean_start] in *. rewrite Hu, Hp.
  destruct w as [w|].
  - destruct Hw as (-> & -> & ->). by rewrite bool_decide_eq_true_2 by eauto.
  - subst fw. unfold connect_flags_ok in Hf. cbn in Hf. rewrite !andb_true_iff in Hf.
    destruct Hf as (_ & Hz%Z.eqb_eq & Hr). apply negb_true_iff in Hr. by subst.
Qed.

Lemma connect_flags_qos f : connect_flags_ok f = true -> cf_will_qos f <= 2.
Proof. unfold connect_flags_ok. rewrite !andb_true_iff, negb_true_iff, Z.ltb_ge. tauto. Qed.

Lemma connect_body_parses body :
  is_bytes body -> parses (parse_body body) body (canonical_body connect_spec).
Proof.
  intros Hin. unfold parse_body. parsed. intros r0 nm pre0 (_ & _ & Hl0) H0 _.
  cbn [mbind outcome_bind]. destruct (bool_decide_reflect (nm = "MQTT"%string)) as [->|]; [|done].
  cbn [negb]. parsed. intros r1 lv pre1 [-> _] H1 _. cbn [mbind outcome_bind].
  destruct (lv =? 5); [|done]. cbn [negb].
  parsed. intros r2 fb pre2 [-> Hfb] H2 _. cbn [mbind outcome_bind].
  eapply parses_lift; [by apply parse_flags_returns|]. intros f [Hf Hq].
  pose proof (connect_flags_qos f Hf) as Hq2.
  parsed. intros r3 ka pre3 [Hka Hl3] H3 _. cbn [mbind outcome_bind].
  parsed. intros r4 p pre4 (Hp & Hpl & Hl4) H4 _. cbn [mbind outcome_bind].
  rewrite reject_enhanced_auth_spec. destruct (no_auth p) eqn:Hna; [|done].
  cbn [mbind outcome_bind].
  parsed. intros r5 cid pre5 (Hcid & Hcl & Hl5) H5 _. cbn [mbind outcome_bind].
  eapply parses_bind; [done|apply parse_will_parses; [done|lia]|].
  intros r6 w pre6 (Hw & Hwo & Hwr & Hl6 & Hwf) H6 _. cbn [mbind outcome_bind].
  eapply parses_bind; [done|by apply (parse_username_parses f)|].
  intros r7 un pre7 (Hun & Huo & Hl7 & Huf) H7 _. cbn [mbind outcome_bind].
  eapply parses_bind; [done|by apply (parse_password_parses f)|].
  intros r8 pw pre8 (Hpw & Hpo & Hl8 & Hpf) _ _. cbn [mbind outcome_bind].
  destruct (decide (r8 = [])); [|done]. apply parses_Ok. connect_cbn.
  pose proof (valid_wf_properties _ _ Hp) as Hwfp. pose proof (session_expiry_wf p Hwfp).
  rewrite (flags_of_parsed f), merge_expiry_self, expiry_agrees_self, Hna, Hf, Hwo, Huo, Hpo, Hwr,
    (valid_props_ok _ _ Hp Hpl), (valid_readable _ _ Hp) by done.
  unfold fits. rewrite (proj2 (Z.leb_le _ _) Hcl). split_and!; try done.
  rewrite !length_app, !length_string_bytes. simpl in *. lia.
Qed.

#[export] Instance connect_parser : PacketParser connect_spec PConnect parse.
Proof.
  apply (parser_of_body_parser connect_spec PConnect _ _ _ (fun _ body => parse_body body)); try done.
  - apply connect_body_reads.
  - intros flags body _. apply connect_body_parses.
Qed.
