(* ===== verification/V5Codec.v ===== *)
(** * The MQTT 5 codec ([mqtt/src/v5/mod.rs])

    The dispatcher over the packet codecs, and what the codec as a whole
    guarantees: the encoder against the wire format, the parser on what was
    encoded, on arbitrary bytes, and on a stream that arrives in pieces. *)

From S2P Require Import Prelude Buf Packet V5Common V5FixedHeader V5Properties V5PropertiesSpec.
From S2P Require Import V5Frame V5Ack V5Connack V5Publish V5Disconnect V5Suback V5Subscribe V5Connect.

(** The arms of the [match] of [parse]. *)
Definition parser_for (packet_type : ControlPacketType) : bytes -> Z -> result (bytes * Packet) :=
  match packet_type with
  | CptConnect => V5Connect.parse
  | CptConnack => V5Connack.parse
  | CptPublish => V5Publish.parse
  | CptPuback => puback_parse
  | CptPubrec => pubrec_parse
  | CptPubrel => pubrel_parse
  | CptPubcomp => pubcomp_parse
  | CptSubscribe => subscribe_parse
  | CptSuback => suback_parse
  | CptUnsubscribe => unsubscribe_parse
  | CptUnsuback => unsuback_parse
  | CptPingreq => pingreq_parse
  | CptPingresp => pingresp_parse
  | CptDisconnect => disconnect_parse
  | CptAuth => auth_parse
  end.

Definition parse (input : bytes) (max_message_size : Z) : result (bytes * Packet) :=
  '(_, fixed_header) ← V5FixedHeader.parse input max_message_size;
  parser_for (fh_packet_type fixed_header) input max_message_size.

Section Encode.
Context {B : BytesCrate}.

Definition encode (packet : Packet) : encoder :=
  match packet with
  | PConnect packet => V5Connect.encode packet
  | PConnack packet => V5Connack.encode packet
  | PPublish packet => V5Publish.encode packet
  | PPuback packet => puback_encode packet
  | PPubrec packet => pubrec_encode packet
  | PPubrel packet => pubrel_encode packet
  | PPubcomp packet => pubcomp_encode packet
  | PSubscribe packet => subscribe_encode packet
  | PSuback packet => suback_encode packet
  | PUnsubscribe packet => unsubscribe_encode packet
  | PUnsuback packet => unsuback_encode packet
  | PPingreq => pingreq_encode
  | PPingresp => pingresp_encode
  | PDisconnect packet => disconnect_encode packet
  | PAuth packet => auth_encode packet
  end.

Definition to_bytes (packet : Packet) : result BytesMut := with_new_buffer (encode packet).

End Encode.

(** ** The wire format of a packet *)

(** A packet with the specification of its type. *)
Record view := mkView {
  v_type : Type;
  v_spec : PacketSpec v_type;
  v_build : v_type -> Packet;
  v_value : v_type;
}.
Arguments mkView {v_type} v_spec v_build v_value.

Definition view_of (p : Packet) : view :=
  match p with
  | PConnect a => mkView connect_spec PConnect a
  | PConnack a => mkView connack_spec PConnack a
  | PPublish a => mkView publish_spec PPublish a
  | PPuback a => mkView (ack_spec CptPuback ScPuback) PPuback a
  | PPubrec a => mkView (ack_spec CptPubrec ScPubrec) PPubrec a
  | PPubrel a => mkView (ack_spec CptPubrel ScPubrel) PPubrel a
  | PPubcomp a => mkView (ack_spec CptPubcomp ScPubcomp) PPubcomp a
  | PSubscribe a => mkView subscribe_spec PSubscribe a
  | PSuback a => mkView suback_spec PSuback a
  | PUnsubscribe a => mkView unsubscribe_spec PUnsubscribe a
  | PUnsuback a => mkView unsuback_spec PUnsuback a
  | PPingreq => mkView (ping_spec CptPingreq) (fun _ => PPingreq) tt
  | PPingresp => mkView (ping_spec CptPingresp) (fun _ => PPingresp) tt
  | PDisconnect a => mkView disconnect_spec PDisconnect a
  | PAuth a => mkView auth_spec PAuth a
  end.

(** The range of the Rust types, the packets the encoder accepts, the packets the
    parser does not refuse for their values, the bytes of a packet, its body's
    length, and the packet that reading them yields. *)
Definition packet_type (p : Packet) : ControlPacketType := ps_type (v_spec (view_of p)).
Definition wf_packet (p : Packet) : Prop := ps_wf (v_spec (view_of p)) (v_value (view_of p)).
Definition encodable (p : Packet) : bool := spec_ok (v_spec (view_of p)) (v_value (view_of p)).
Definition readable (p : Packet) : bool := ps_readable (v_spec (view_of p)) (v_value (view_of p)).
Definition packet_bytes (p : Packet) : bytes :=
  spec_frame (v_spec (view_of p)) (v_value (view_of p)).
Definition body_length (p : Packet) : Z :=
  zlen (ps_body (v_spec (view_of p)) (v_value (view_of p))).
Definition normalize (p : Packet) : Packet :=
  v_build (view_of p) (ps_norm (v_spec (view_of p)) (v_value (view_of p))).

(** A packet that parsing yields. *)
Definition canonical (p : Packet) : Prop :=
  wf_packet p /\ encodable p = true /\ readable p = true /\ normalize p = p.

#[export] Instance view_parser p :
  PacketParser (v_spec (view_of p)) (v_build (view_of p)) (parser_for (packet_type p)).
Proof. destruct p; apply _. Qed.

Lemma encode_writes {B : BytesCrate} {BS : BytesCrateSpec B} p :
  wf_packet p -> writes (encode p) (encodable p) (packet_bytes p).
Proof.
  destruct p; intros Hwf; cbn [encode].
  all: match goal with
    | |- writes pingreq_encode _ _ => apply (pingreq_encoder tt Hwf)
    | |- writes pingresp_encode _ _ => apply (pingresp_encoder tt Hwf)
    | |- writes (?f ?a) _ _ => exact (encoder_writes (encode := f) a Hwf)
    end.
Qed.

(** What each parser yields is canonical, of its type. *)
Lemma parser_for_parses t input max :
  is_bytes input ->
  parses (parser_for t input max) input (fun p pre =>
    canonical p /\ packet_type p = t /\ body_length p <= max /\
    (length (packet_bytes p) <= length pre)%nat).
Proof.
  intros Hin.
  assert (forall A (S : PacketSpec A) build (P : PacketParser S build (parser_for t)),
    ps_type S = t -> (forall a, view_of (build a) = mkView S build a) ->
    parses (parser_for t input max) input (fun p pre =>
      canonical p /\ packet_type p = t /\ body_length p <= max /\
      (length (packet_bytes p) <= length pre)%nat)) as H.
  { intros A S build P Ht Hv. eapply parses_mono; [by apply parser_parses|].
    intros p pre (a & -> & (Hwf & Hok & Hr & Hn) & Hmax & Hlen).
    unfold canonical, wf_packet, encodable, readable, normalize, packet_type, body_length,
      packet_bytes. rewrite Hv. cbn [v_type v_spec v_build v_value]. by rewrite Hn. }
  destruct t.
  1: by apply (H _ connect_spec PConnect _).
  1: by apply (H _ connack_spec PConnack _).
  1: by apply (H _ publish_spec PPublish _).
  1: by apply (H _ (ack_spec CptPuback ScPuback) PPuback _).
  1: by apply (H _ (ack_spec CptPubrec ScPubrec) PPubrec _).
  1: by apply (H _ (ack_spec CptPubrel ScPubrel) PPubrel _).
  1: by apply (H _ (ack_spec CptPubcomp ScPubcomp) PPubcomp _).
  1: by apply (H _ subscribe_spec PSubscribe _).
  1: by apply (H _ suback_spec PSuback _).
  1: by apply (H _ unsubscribe_spec PUnsubscribe _).
  1: by apply (H _ unsuback_spec PUnsuback _).
  1: apply (H _ (ping_spec CptPingreq) (fun _ => PPingreq) _); [done|by intros []].
  1: apply (H _ (ping_spec CptPingresp) (fun _ => PPingresp) _); [done|by intros []].
  1: by apply (H _ disconnect_spec PDisconnect _).
  by apply (H _ auth_spec PAuth _).
Qed.

Lemma parse_parses input max :
  is_bytes input ->
  parses (parse input max) input (fun p pre =>
    canonical p /\ body_length p <= max /\ (length (packet_bytes p) <= length pre)%nat).
Proof.
  intros Hin. unfold parse. pose proof (parse_header_parses input max Hin) as Hh.
  destruct (V5FixedHeader.parse input max) as [[r h]|e| |]; try done. cbn [mbind outcome_bind].
  eapply parses_mono; [by apply parser_for_parses|]. intros p pre (? & _ & ? & ?). by split_and!.
Qed.

Lemma flags_of_encodable p :
  wf_packet p -> encodable p = true -> flags_ok (packet_type p)
    (ps_flags (v_spec (view_of p)) (v_value (view_of p))).
Proof. intros Hwf Hok. by apply (parser_flags (PacketParser := view_parser p)). Qed.

(** The parser reads back what the encoder writes. *)
Lemma parse_reads p max :
  wf_packet p -> encodable p = true -> readable p = true -> body_length p <= max ->
  reads (fun i => parse i max) (packet_bytes p) (normalize p).
Proof.
  intros Hwf Hok Hr Hmax rest. unfold parse.
  pose proof (proj1 (spec_ok_true _ _) Hok) as [_ Hlen]. fold (body_length p) in Hlen.
  assert (0 <= body_length p) as Hnn by apply zlen_nonneg.
  pose proof (reads_header _ _ (body_length p) max (flags_of_encodable p Hwf Hok)
    ltac:(lia) Hmax (ps_body (v_spec (view_of p)) (v_value (view_of p)) ++ rest)) as Hh.
  assert (packet_bytes p ++ rest = (first_byte (packet_type p) (ps_flags (v_spec (view_of p))
    (v_value (view_of p))) :: vbi_bytes (body_length p)) ++
    ps_body (v_spec (view_of p)) (v_value (view_of p)) ++ rest) as Hb.
  { unfold packet_bytes, spec_frame, frame. simpl. by rewrite <-app_assoc. }
  rewrite Hb, Hh. cbn [mbind outcome_bind fh_packet_type header_of]. rewrite <-Hb.
  by apply (parser_reads (PacketParser := view_parser p)).
Qed.

(** *** Streams *)

(** Each parser starts with the fixed header. *)
Lemma parser_for_header t i max :
  match V5FixedHeader.parse i max with
  | Ok _ => True
  | Err e => parser_for t i max = Err e
  | Panic => parser_for t i max = Panic
  | OutOfFuel => parser_for t i max = OutOfFuel
  end.
Proof.
  destruct (V5FixedHeader.parse i max) eqn:H; [done|..]; destruct t; cbn [parser_for];
    unfold V5Connect.parse, V5Connack.parse, V5Publish.parse, puback_parse, pubrec_parse,
      pubrel_parse, pubcomp_parse, subscribe_parse, suback_parse, unsubscribe_parse,
      unsuback_parse, pingreq_parse, pingresp_parse, disconnect_parse, auth_parse, V5Ack.parse,
      parse_with_body; by rewrite H.
Qed.

Lemma parser_for_streaming t max : streaming (fun i => parser_for t i max).
Proof. destruct t; cbn [parser_for]; apply parser_streaming. Qed.

Lemma header_more i max r h more :
  V5FixedHeader.parse i max = Ok (r, h) -> V5FixedHeader.parse (i ++ more) max = Ok (r ++ more, h).
Proof.
  intros H. pose proof (header_streaming max i) as Hs. cbv beta in Hs. rewrite H in Hs.
  destruct Hs as (pre & -> & Hok & _). by rewrite <-app_assoc, Hok.
Qed.

(** A packet accepted on a prefix has its header there. *)
Lemma header_within t pre rest max r h v :
  V5FixedHeader.parse (pre ++ rest) max = Ok (r, h) -> parser_for t pre max = Ok v ->
  exists rp, V5FixedHeader.parse pre max = Ok (rp, h).
Proof.
  intros Hh Hp. pose proof (parser_for_header t pre max) as H.
  destruct (V5FixedHeader.parse pre max) as [[rp h']|e| |] eqn:Ep; try congruence.
  rewrite (header_more _ _ _ _ rest Ep) in Hh. injection Hh as _ ->. eauto.
Qed.

(** On a shorter prefix the header is the same or incomplete. *)
Lemma header_prefix pre j max r h :
  V5FixedHeader.parse pre max = Ok (r, h) ->
  (exists rj, V5FixedHeader.parse (take j pre) max = Ok (rj, h)) \/
  (exists c, V5FixedHeader.parse (take j pre) max = Err (EIncomplete c)).
Proof.
  intros H. pose proof (header_streaming max pre) as Hs. cbv beta in Hs. rewrite H in Hs.
  destruct Hs as (p0 & -> & Hok & Hinc). destruct (decide (j < length p0)%nat).
  - right. rewrite take_app_le by lia. by apply Hinc.
  - left. rewrite take_app_ge by lia. rewrite Hok. eauto.
Qed.

Lemma parse_streaming max : streaming (fun i => parse i max).
Proof.
  intros input. unfold parse. pose proof (header_streaming max input) as Hh. cbv beta in Hh.
  destruct (V5FixedHeader.parse input max) as [[r h]|e| |] eqn:E; cbn [mbind outcome_bind]; try done.
  2: { destruct Hh as [?|Hh]; [by left|right]. intros more. by rewrite Hh. }
  clear Hh. pose proof (parser_for_streaming (fh_packet_type h) max input) as Hp. cbv beta in Hp.
  destruct (parser_for (fh_packet_type h) input max) as [[rest v]|e| |]; try done.
  2: { destruct Hp as [?|Hp]; [by left|right]. intros more.
       rewrite (header_more _ _ _ _ more E). apply Hp. }
  destruct Hp as (pre & -> & Hok & Hinc).
  assert (parser_for (fh_packet_type h) pre max = Ok ([], v)) as Hpre.
  { specialize (Hok []). by rewrite app_nil_r in Hok. }
  destruct (header_within _ _ _ _ _ _ _ E Hpre) as [rp Hh].
  exists pre. split; [done|]. split.
  - intros more. rewrite (header_more _ _ _ _ more Hh). apply Hok.
  - intros j Hj. destruct (header_prefix pre j max rp h Hh) as [[rj ->]|[c ->]].
    + apply Hinc. lia.
    + by eexists.
Qed.

(** ** Theorems *)

Lemma to_bytes_spec {B : BytesCrate} {BS : BytesCrateSpec B} p :
  wf_packet p ->
  if encodable p then exists buf, to_bytes p = Ok buf /\ bm_slice buf = packet_bytes p
  else exists e, to_bytes p = Err e.
Proof.
  intros Hwf. pose proof (writes_run bm_new (encode_writes p Hwf)) as H.
  unfold to_bytes, with_new_buffer. destruct (encodable p).
  - destruct H as (b' & -> & Hs). exists b'. by rewrite Hs, bm_new_spec.
  - destruct H as (e & b' & ->). by eexists.
Qed.

(** C23: encoding a packet appends exactly its wire format to the buffer when the
    packet is encodable (version, identifiers, reason code, QoS, property scopes,
    values and length prefixes, 28-bit remaining length), and fails with an error,
    never with a panic, when it is not. *)
Theorem encode_wire_format {B : BytesCrate} {BS : BytesCrateSpec B} (p : Packet) (b : BytesMut) :
  wf_packet p ->
  if encodable p
  then exists b', encode p b = (Ok tt, b') /\ bm_slice b' = bm_slice b ++ packet_bytes p
  else exists e b', encode p b = (Err e, b').
Proof. intros Hwf. exact (writes_run b (encode_writes p Hwf)). Qed.

(** C1: what the encoder produced for a well-formed packet whose payload format indicators are
    0 or 1 ([readable]: the parser refuses the others, which the encoder writes), followed by
    anything, parses to the packet in normal form and leaves what followed, where the
    parser's size limit is not below the size of the frame. *)
Theorem encode_parse_roundtrip {B : BytesCrate} {BS : BytesCrateSpec B}
    (p : Packet) (buf : BytesMut) (max : Z) (rest : bytes) :
  wf_packet p -> readable p = true -> to_bytes p = Ok buf -> zlen (bm_slice buf) <= max ->
  parse (bm_slice buf ++ rest) max = Ok (rest, normalize p).
Proof.
  intros Hwf Hr Ht Hmax. pose proof (to_bytes_spec p Hwf) as H.
  destruct (encodable p) eqn:Hok; [|destruct H as [e He]; congruence].
  destruct H as (buf' & Hb & Hs). rewrite Ht in Hb. injection Hb as <-. rewrite Hs in *.
  apply parse_reads; try done. unfold packet_bytes, spec_frame, frame in Hmax.
  autorewrite with zlen in Hmax. unfold body_length.
  pose proof (zlen_nonneg (vbi_bytes (zlen (ps_body (v_spec (view_of p)) (v_value (view_of p)))))).
  lia.
Qed.

(** C38: on every byte sequence and limit the parser returns a packet or an error:
    no slice is out of range, no 32-bit arithmetic overflows, every loop ends. *)
Theorem parse_total (input : bytes) (max : Z) : is_bytes input -> returns (parse input max).
Proof. intros Hin. eapply returns_with_returns, parse_parses, Hin. Qed.

(** C40: whatever the bytes, a packet the parser accepts is well formed: its numbers are in the
    range of their fields and its strings and lists fit their length prefixes, its
    identifiers, reason codes, QoS and properties are those its packet type allows (it is
    encodable and readable), it is in normal form, and its body is within the limit. *)
Theorem parsed_well_formed (input rest : bytes) (max : Z) (p : Packet) :
  is_bytes input -> parse input max = Ok (rest, p) -> canonical p /\ body_length p <= max.
Proof.
  intros Hin Hp. pose proof (parse_parses input max Hin) as H. rewrite Hp in H.
  by destruct H as (pre & _ & Hc & Hmax & _).
Qed.

(** every accepted packet can be encoded again: the encoding is no longer than
    the bytes consumed, parses under the same limit, and to the same packet. *)
Theorem parse_reencode {B : BytesCrate} {BS : BytesCrateSpec B} (input rest : bytes) (max : Z)
    (p : Packet) :
  is_bytes input -> parse input max = Ok (rest, p) ->
  exists buf, to_bytes p = Ok buf /\ parse (bm_slice buf) max = Ok ([], p) /\
    (length (bm_slice buf) + length rest <= length input)%nat.
Proof.
  intros Hin Hp. pose proof (parse_parses input max Hin) as H. rewrite Hp in H.
  destruct H as (pre & -> & (Hwf & Hok & Hr & Hn) & Hmax & Hlen).
  pose proof (to_bytes_spec p Hwf) as Ht. rewrite Hok in Ht. destruct Ht as (buf & Hb & Hs).
  exists buf. split; [done|]. rewrite Hs. split; [|rewrite length_app; lia].
  pose proof (parse_reads p max Hwf Hok Hr Hmax []) as Hread. cbv beta in Hread.
  by rewrite app_nil_r, Hn in Hread.
Qed.

(** an accepted packet is accepted whatever follows it, and on every proper
    prefix of its bytes the parser asks for more. *)
Theorem parse_incremental (input rest : bytes) (max : Z) (p : Packet) :
  parse input max = Ok (rest, p) ->
  exists pre, input = pre ++ rest /\
    (forall more, parse (pre ++ more) max = Ok (more, p)) /\
    (forall j, (j < length pre)%nat -> exists c, parse (take j pre) max = Err (EIncomplete c)).
Proof. intros H. pose proof (parse_streaming max input) as Hs. cbv beta in Hs. by rewrite H in Hs. Qed.

(** a verdict of malformed input does not change as more input arrives. *)
Theorem parse_error_stable (input more : bytes) (max : Z) (e : Mqtt5ParseError) :
  parse input max = Err e -> is_incomplete e = false -> parse (input ++ more) max = Err e.
Proof.
  intros H He. pose proof (parse_streaming max input) as Hs. cbv beta in Hs. rewrite H in Hs.
  destruct Hs as [Hi|Hs]; [by rewrite He in Hi|apply Hs].
Qed.

(** packets with the same encoding have the same normal form, so that no two
    different packets are confused on the wire. *)
Theorem encoding_injective (p q : Packet) :
  wf_packet p -> wf_packet q -> encodable p = true -> encodable q = true ->
  readable p = true -> readable q = true ->
  packet_bytes p = packet_bytes q -> normalize p = normalize q.
Proof.
  intros Wp Wq Ep Eq Rp Rq E. set (max := Z.max (body_length p) (body_length q)).
  pose proof (parse_reads p max Wp Ep Rp ltac:(lia) []) as Hp.
  pose proof (parse_reads q max Wq Eq Rq ltac:(lia) []) as Hq.
  cbv beta in Hp, Hq. rewrite E in Hp. congruence.
Qed.

(** *** Witnesses *)

(** A QoS 1 PUBLISH with a message expiry, a user property and a payload. *)
Definition sample_publish : Packet :=
  PPublish (mkPublish V5_0 "a/b"%string [104; 105] 1 true false (Some 7)
    (set_user_properties [("k", "v")]%string
       (set_message_expiry_interval (Some 60) default_properties)) (Some 99)).
Definition sample_bytes : bytes :=
  [0x33; 22; 0; 3; 97; 47; 98; 0; 7; 12; 2; 0; 0; 0; 60; 0x26; 0; 1; 107; 0; 1; 118; 104; 105].

Lemma sample_wf : wf_packet sample_publish.
Proof.
  unfold wf_packet. cbn. unfold is_bytes, is_u8, is_u16, wf_properties.
  split_and!; try done; repeat constructor; done.
Defined.

Lemma encode_wire_format_witness :
  exists b', encode (B := list_bytes_crate) sample_publish [] = (Ok tt, b') /\
    bm_slice b' = sample_bytes.
Proof.
  pose proof (encode_wire_format (B := list_bytes_crate) sample_publish [] sample_wf) as H.
  replace (encodable sample_publish) with true in H by (vm_compute; reflexivity).
  replace (packet_bytes sample_publish) with sample_bytes in H by (vm_compute; reflexivity).
  exact H.
Defined.

Lemma encode_parse_roundtrip_witness :
  parse (sample_bytes ++ [0xc0; 0]) 1024 = Ok ([0xc0; 0], normalize sample_publish).
Proof.
  exact (encode_parse_roundtrip (B := list_bytes_crate) sample_publish sample_bytes 1024 [0xc0; 0]
    sample_wf ltac:(vm_compute; reflexivity) ltac:(vm_compute; reflexivity)
    ltac:(vm_compute; discriminate)).
Defined.

Lemma parse_total_witness : returns (parse [0x30; 2; 0; 5] 1024).
Proof.
  apply (parse_total [0x30; 2; 0; 5] 1024). unfold is_bytes, is_u8. repeat constructor; lia.
Defined.

(** The remaining length 4 in two bytes is not the shortest form. *)
Lemma parsed_well_formed_witness :
  parse sample_bytes 1024 = Ok ([], normalize sample_publish) /\ canonical (normalize sample_publish).
Proof.
  assert (parse sample_bytes 1024 = Ok ([], normalize sample_publish)) as Hp by (vm_compute; reflexivity).
  split; [exact Hp|]. apply (parsed_well_formed sample_bytes [] 1024 (normalize sample_publish)); [|exact Hp].
  unfold sample_bytes, is_bytes, is_u8. repeat constructor; lia.
Defined.

Lemma parse_reencode_witness :
  exists buf, to_bytes (B := list_bytes_crate) (PPuback (mkAck V5_0 10 RcSuccess default_properties))
      = Ok buf /\
    parse (bm_slice buf) 1024 = Ok ([], PPuback (mkAck V5_0 10 RcSuccess default_properties)) /\
    (length (bm_slice buf) + 0 <= 7)%nat.
Proof.
  apply (parse_reencode (B := list_bytes_crate) [0x40; 0x84; 0; 0; 10; 0; 0] [] 1024).
  - unfold is_bytes, is_u8. repeat constructor; lia.
  - vm_compute. reflexivity.
Defined.

Lemma parse_incremental_witness :
  exists pre, [0x40; 2; 0; 10; 0xc0] = pre ++ [0xc0] /\
    (forall more, parse (pre ++ more) 1024
       = Ok (more, PPuback (mkAck V5_0 10 RcSuccess default_properties))) /\
    (forall j, (j < length pre)%nat -> exists c, parse (take j pre) 1024 = Err (EIncomplete c)).
Proof. apply (parse_incremental [0x40; 2; 0; 10; 0xc0] [0xc0] 1024). vm_compute. reflexivity. Defined.

Lemma parse_error_stable_witness :
  parse ([0x40; 2; 0; 0] ++ [1; 2]) 1024
  = Err (EMalformedPacket "publish acknowledgement packet identifier must not be zero").
Proof.
  apply (parse_error_stable [0x40; 2; 0; 0] [1; 2] 1024); vm_compute; reflexivity.
Defined.

(** The expiry timestamp of a PUBLISH is not on the wire. *)
Lemma encoding_injective_witness :
  normalize sample_publish = normalize (normalize sample_publish).
Proof.
  apply (encoding_injective sample_publish (normalize sample_publish)).
  1, 2: exact sample_wf.
  all: vm_compute; reflexivity.
Defined.
