(* ===== verification/ConnFraming.v ===== *)
(** * Reading packets from a connection ([broker/src/connection.rs])

    [read_packet] and the functions it calls: the buffer is parsed, and as long
    as the parser asks for more the next chunk of the socket is appended.  The
    socket is the list of chunks its reads return.  The MQTT 3.1.1 parser is an
    argument here, so that what is proved of MQTT 5 connections does not depend
    on it; [V3Framing] gives it. *)

From S2P Require Import Prelude Utf8 Buf Packet V5Common V5FixedHeader V5PropertiesSpec V5Frame.
From S2P Require Import V5Connect V5Codec.

Inductive ConnectionError :=
  | UnsupportedProtocolVersion (supported_versions : list string) (current_version : string)
  | ConnectionClosed
  | MaxMessageSizeExceeded (message : string)
  | PacketParseError (message : string)
  | Io (message : string)
  | SessionManagerServiceUnavailable (message : string)
  | Unauthenticate (message : string)
  | InvalidClientIdentifier (message : string)
  | UnsupportedMqtt5Feature (feature : string)
  | Mqtt5ProtocolError (reason_code : ReasonCode) (message : string)
  | PluginError (message : string).

(** [Result<Option<(usize, Packet, ProtocolVersion)>, ConnectionError>]. *)
Abbreviation try_result := (outcome ConnectionError (option (nat * Packet * ProtocolVersion))).

(** How [try_parse_v5_packet] maps the parser's errors other than [Incomplete]. *)
Definition v5_error (e : Mqtt5ParseError) : ConnectionError :=
  match e with
  | ERemainingLengthExceeded remaining_length max_message_size =>
      MaxMessageSizeExceeded ("MQTT 5 remaining length " +:+ pretty remaining_length
        +:+ " exceeds max message size " +:+ pretty max_message_size)
  | EMalformedPacket reason =>
      if String.eqb reason "enhanced authentication is not supported"
      then UnsupportedMqtt5Feature "enhanced authentication"
      else Mqtt5ProtocolError RcProtocolError ("Invalid MQTT v5 packet: " +:+ display e)
  | _ => Mqtt5ProtocolError RcProtocolError ("Invalid MQTT v5 packet: " +:+ display e)
  end%string.

Definition try_parse_v5_packet (buffer : bytes) (max_message_size : Z) : try_result :=
  match V5Codec.parse buffer max_message_size with
  | Ok (remaining, packet) => Ok (Some (length buffer - length remaining, packet, V5_0))%nat
  | Err (EIncomplete _) => Ok None
  | Err e => Err (v5_error e)
  | Panic => Panic
  | OutOfFuel => OutOfFuel
  end.

Definition detect_initial_connect_protocol (buffer : bytes) (max_message_size : Z)
    : outcome ConnectionError (option ProtocolVersion) :=
  match V5FixedHeader.parse buffer max_message_size with
  | Err (EIncomplete _) => Ok None
  | Err (ERemainingLengthExceeded remaining_length max_message_size) =>
      Err (MaxMessageSizeExceeded ("MQTT remaining length " +:+ pretty remaining_length
        +:+ " exceeds max message size " +:+ pretty max_message_size)%string)
  | Err err => Err (PacketParseError ("Invalid first MQTT packet: " +:+ display err)%string)
  | Panic => Panic
  | OutOfFuel => OutOfFuel
  | Ok (body, fixed_header) =>
      if negb (bool_decide (fh_packet_type fixed_header = CptConnect)) then
        Err (PacketParseError "client first packet is not CONNECT")
      else
        let remaining_length := fh_remaining_length fixed_header in
        if zlen body <? remaining_length then Ok None
        else
          connect_body ← slice_to (Z.to_nat remaining_length) body;
          '(input, protocol_name) ←
            map_err (fun err => PacketParseError (display err)) (parse_utf8_string connect_body);
          if negb (bool_decide (protocol_name = "MQTT"%string)) then
            Err (PacketParseError "invalid mqtt protocol name")
          else
            '(_, protocol_level) ←
              map_err (fun err => PacketParseError (display err))
                (parse_u8 input "CONNECT protocol level");
            match protocol_level with
            | 4 => Ok (Some V3_1_1)
            | 5 => Ok (Some V5_0)
            | other => Err (UnsupportedProtocolVersion ["3.1.1"; "5.0"]%string (pretty other))
            end
  end.

(** What a call of [read_packet] comes to, with the buffer and the chunks left. *)
Inductive read_result :=
  | Received (packet : Packet) (version : ProtocolVersion) (buffer : bytes) (chunks : list bytes)
  | Failed (e : ConnectionError)
  | Waiting (buffer : bytes)
  | Crashed.

Section Read.
Context (try_parse_v3_packet : bytes -> Z -> try_result).

Definition try_parse_packet (buffer : bytes) (max_message_size : Z)
    (protocol_version : option ProtocolVersion) : try_result :=
  protocol_version ←
    match protocol_version with
    | Some protocol_version => Ok (Some protocol_version)
    | None => detect_initial_connect_protocol buffer max_message_size
    end;
  match protocol_version with
  | None => Ok None
  | Some V3_1_1 => try_parse_v3_packet buffer max_message_size
  | Some V5_0 => try_parse_v5_packet buffer max_message_size
  end.

(** The loop of [read_packet]: a read returns the next chunk, an empty one at the
    end of the stream, and waits when there is none. *)
Fixpoint read_packet (max_message_size : Z) (protocol_version : option ProtocolVersion)
    (chunks : list bytes) (buffer : bytes) : read_result :=
  match try_parse_packet buffer max_message_size protocol_version with
  | Ok (Some (consumed_len, packet, version)) =>
      Received packet version (drop consumed_len buffer) chunks
  | Ok None =>
      match chunks with
      | [] => Waiting buffer
      | [] :: _ => Failed ConnectionClosed
      | chunk :: chunks => read_packet max_message_size protocol_version chunks (buffer ++ chunk)
      end
  | Err e => Failed e
  | Panic | OutOfFuel => Crashed
  end.

(** The connection's reader calls [read_packet] for one packet after another. *)
Fixpoint read_packets (n : nat) (max_message_size : Z) (version : ProtocolVersion)
    (chunks : list bytes) (buffer : bytes) : option (list Packet * bytes * list bytes) :=
  match n with
  | O => Some ([], buffer, chunks)
  | S n =>
      match read_packet max_message_size (Some version) chunks buffer with
      | Received packet _ buffer chunks =>
          '(packets, buffer, chunks) ← read_packets n max_message_size version chunks buffer;
          Some (packet :: packets, buffer, chunks)
      | _ => None
      end
  end.

(** ** Properties of the readers *)

(** The parser's verdict on what has arrived so far, given its verdict on all of it. *)
Lemma try_parse_v5_prefix max buffer more rest p :
  V5Codec.parse (buffer ++ more) max = Ok (rest, p) ->
  (try_parse_v5_packet buffer max = Ok None /\ more <> []) \/
  exists n, try_parse_v5_packet buffer max = Ok (Some (n, p, V5_0)) /\
    drop n buffer ++ more = rest.
Proof.
  intros H. pose proof (parse_streaming max (buffer ++ more)) as Hs. cbv beta in Hs.
  rewrite H in Hs. destruct Hs as (pre & E & Hok & Hinc). unfold try_parse_v5_packet.
  destruct (decide (length buffer < length pre)%nat) as [Hlt|Hge].
  - left. assert (buffer = take (length buffer) pre) as Hb.
    { rewrite <-(take_app_length buffer more) at 1. rewrite E. by rewrite take_app_le by lia. }
    rewrite Hb. destruct (Hinc (length buffer) Hlt) as [c ->]. split; [done|].
    intros ->. rewrite app_nil_r in E. apply (f_equal length) in E. rewrite length_app in E. lia.
  - right. assert (exists r', buffer = pre ++ r' /\ rest = r' ++ more) as (r' & -> & ->).
    { exists (drop (length pre) buffer).
      assert (take (length pre) buffer = pre) as Ht.
      { rewrite <-(take_app_le buffer more) by lia. by rewrite E, take_app_length. }
      split; [rewrite <-(take_drop (length pre) buffer) at 1; by rewrite Ht|].
      rewrite <-(drop_app_le buffer more) by lia. by rewrite E, drop_app_length. }
    rewrite Hok. exists (length pre). rewrite length_app.
    replace (length pre + length r' - length r')%nat with (length pre) by lia.
    split; [done|]. by rewrite drop_app_length.
Qed.

Definition nonempty (chunk : bytes) : Prop := chunk <> [].

(** A reader that gives the same packet for every cut of a stream. *)
Lemma read_packet_cut max pv v p stream rest chunks : forall buffer,
  (forall buffer more, buffer ++ more = stream ->
     (try_parse_packet buffer max pv = Ok None /\ more <> []) \/
     exists n, try_parse_packet buffer max pv = Ok (Some (n, p, v)) /\
       drop n buffer ++ more = rest) ->
  Forall nonempty chunks -> buffer ++ concat chunks = stream ->
  exists buffer' chunks', read_packet max pv chunks buffer = Received p v buffer' chunks'
    /\ buffer' ++ concat chunks' = rest /\ Forall nonempty chunks'.
Proof.
  induction chunks as [|c chunks IH]; intros buffer Hcut Hc E;
    destruct (Hcut _ _ E) as [[Hn Hne]|(n & Hn & Hr)]; cbn [read_packet]; rewrite Hn.
  - by destruct Hne.
  - by exists (drop n buffer), [].
  - inversion Hc as [|? ? Hc1 Hc2]; subst. destruct c as [|b c]; [done|].
    apply (IH (buffer ++ b :: c)); [done|done|]. by rewrite <-app_assoc.
  - by exists (drop n buffer), (c :: chunks).
Qed.

Lemma read_packet_received max chunks buffer rest p :
  Forall nonempty chunks ->
  V5Codec.parse (buffer ++ concat chunks) max = Ok (rest, p) ->
  exists buffer' chunks', read_packet max (Some V5_0) chunks buffer = Received p V5_0 buffer' chunks'
    /\ buffer' ++ concat chunks' = rest /\ Forall nonempty chunks'.
Proof.
  intros Hc H. apply (read_packet_cut _ _ _ _ (buffer ++ concat chunks)); [|done|done].
  intros b more E. rewrite <-E in H. exact (try_parse_v5_prefix _ _ _ _ _ H).
Qed.

Lemma read_packets_sound max ps : forall chunks buffer tail,
  Forall nonempty chunks ->
  Forall (fun p => wf_packet p /\ encodable p = true /\ readable p = true /\ body_length p <= max) ps ->
  buffer ++ concat chunks = concat (map packet_bytes ps) ++ tail ->
  exists buffer' chunks',
    read_packets (length ps) max V5_0 chunks buffer = Some (map normalize ps, buffer', chunks') /\
    buffer' ++ concat chunks' = tail.
Proof.
  induction ps as [|p ps IH]; intros chunks buffer tail Hc Hps E.
  { by exists buffer, chunks. }
  inversion Hps as [|? ? (Hwf & Hok & Hr & Hm) Hps']; subst.
  cbn [map concat] in E. rewrite <-app_assoc in E.
  pose proof (parse_reads p max Hwf Hok Hr Hm (concat (map packet_bytes ps) ++ tail)) as Hp.
  cbv beta in Hp. rewrite <-E in Hp.
  destruct (read_packet_received _ _ _ _ _ Hc Hp) as (b1 & c1 & Hread & E1 & Hc1).
  destruct (IH c1 b1 tail Hc1 Hps' E1) as (b2 & c2 & Hreads & E2).
  exists b2, c2. cbn [length read_packets map]. rewrite Hread, Hreads. done.
Qed.

(** The first packet: a CONNECT announces its version once it is complete. *)
Lemma detect_frame flags level tl max buffer more rest :
  let body := string_bytes "MQTT" ++ level :: tl in
  flags_ok CptConnect flags -> zlen body <= MAX_VARIABLE_BYTE_INTEGER -> zlen body <= max ->
  buffer ++ more = frame CptConnect flags body ++ rest ->
  detect_initial_connect_protocol buffer max =
    if decide (length buffer < length (frame CptConnect flags body))%nat then Ok None
    else match level with
         | 4 => Ok (Some V3_1_1)
         | 5 => Ok (Some V5_0)
         | other => Err (UnsupportedProtocolVersion ["3.1.1"; "5.0"]%string (pretty other))
         end.
Proof.
  intros body Hf Hlen Hmax E. unfold detect_initial_connect_protocol.
  destruct (frame_prefix _ _ _ max _ _ _ Hf Hlen Hmax E) as [(c & -> & Hlt)|(b & -> & Eb & Hiff)].
  { by rewrite decide_True. }
  cbn [fh_packet_type fh_remaining_length header_of].
  rewrite bool_decide_eq_true_2 by done. cbn [negb].
  destruct (Z.ltb_spec (zlen b) (zlen body)) as [Hlt|Hle]; unfold zlen in *.
  { by rewrite decide_True by (apply Hiff; lia). }
  rewrite decide_False by (intros ?%Hiff; lia).
  rewrite slice_to_ok, Nat2Z.id by lia. cbn [mbind outcome_bind].
  assert (take (length body) b = body) as ->.
  { rewrite <-(take_app_le b more) by lia. by rewrite Eb, take_app_length. }
  unfold body. rewrite reads_utf8_string by done.
  cbn [map_err mbind outcome_bind]. rewrite bool_decide_eq_true_2 by done. cbn [negb].
  change (level :: tl) with ([level] ++ tl). by rewrite reads_u8.
Qed.

Lemma detect_connect a max buffer more rest :
  wf_packet (PConnect a) -> encodable (PConnect a) = true -> body_length (PConnect a) <= max ->
  buffer ++ more = packet_bytes (PConnect a) ++ rest ->
  detect_initial_connect_protocol buffer max =
    if decide (length buffer < length (packet_bytes (PConnect a)))%nat then Ok None
    else Ok (Some V5_0).
Proof.
  intros Hwf Hok Hmax E. pose proof (flags_of_encodable _ Hwf Hok) as Hf.
  apply spec_ok_true in Hok as [_ Hlen].
  exact (detect_frame _ 5 _ max buffer more rest Hf Hlen Hmax E).
Qed.

Lemma read_first_packet max a chunks buffer rest :
  wf_packet (PConnect a) -> encodable (PConnect a) = true -> readable (PConnect a) = true ->
  body_length (PConnect a) <= max ->
  Forall nonempty chunks ->
  buffer ++ concat chunks = packet_bytes (PConnect a) ++ rest ->
  exists buffer' chunks',
    read_packet max None chunks buffer = Received (normalize (PConnect a)) V5_0 buffer' chunks' /\
    buffer' ++ concat chunks' = rest /\ Forall nonempty chunks'.
Proof.
  intros Hwf Hok Hr Hmax Hc E. pose proof (parse_reads _ max Hwf Hok Hr Hmax rest) as Hp.
  cbv beta in Hp. revert Hp E. generalize (detect_connect a max).
  generalize (normalize (PConnect a)). generalize (packet_bytes (PConnect a)).
  intros frame p Hd Hp E.
  apply (read_packet_cut _ _ _ _ (frame ++ rest)); [|done|done].
  intros b more Eb. unfold try_parse_packet. rewrite (Hd b more rest Hwf Hok Hmax Eb).
  rewrite <-Eb in Hp.
  destruct (decide (length b < length frame)%nat) as [Hlt|Hge]; cbn [mbind outcome_bind].
  - left. split; [done|]. intros ->. apply (f_equal length) in Eb.
    rewrite app_nil_r, length_app in Eb. lia.
  - exact (try_parse_v5_prefix _ _ _ _ _ Hp).
Qed.

(** Errors that are not [Incomplete] are reported whatever the cut. *)
Lemma try_parse_v5_error_prefix max buffer more e :
  V5Codec.parse (buffer ++ more) max = Err e -> is_incomplete e = false ->
  is_bytes (buffer ++ more) ->
  (try_parse_v5_packet buffer max = Ok None) \/ try_parse_v5_packet buffer max = Err (v5_error e).
Proof.
  intros H He Hb. pose proof (parse_streaming max buffer) as Hs. cbv beta in Hs.
  apply is_bytes_app in Hb as [Hb _]. pose proof (parse_parses buffer max Hb) as Hp.
  unfold try_parse_v5_packet. destruct (V5Codec.parse buffer max) as [[r p]|e'| |]; try done.
  - destruct Hs as (pre & -> & Hok & _). by rewrite <-app_assoc, Hok in H.
  - destruct Hs as [Hi|Hs]; [left; by destruct e'|]. rewrite Hs in H. injection H as ->.
    right. by destruct e.
Qed.

Lemma read_packet_failed max chunks : forall buffer e,
  Forall nonempty chunks -> is_bytes (buffer ++ concat chunks) ->
  V5Codec.parse (buffer ++ concat chunks) max = Err e -> is_incomplete e = false ->
  read_packet max (Some V5_0) chunks buffer = Failed (v5_error e).
Proof.
  induction chunks as [|c chunks IH]; intros buffer e Hc Hb H He;
    destruct (try_parse_v5_error_prefix _ _ _ _ H He Hb) as [Hn|Hn];
    cbn [read_packet]; unfold try_parse_packet; cbn [mbind outcome_bind].
  - simpl in H. rewrite app_nil_r in H. unfold try_parse_v5_packet in *. rewrite H in *.
    by destruct e.
  - by rewrite Hn.
  - rewrite Hn. inversion Hc as [|? ? Hc1 Hc2]; subst. destruct c as [|b c]; [done|].
    apply (IH (buffer ++ b :: c)); try done; by rewrite <-app_assoc.
  - by rewrite Hn.
Qed.

(** A frame on which the parser asks for more whatever follows. *)
Lemma read_packet_stalls max chunks : forall buffer,
  Forall nonempty chunks ->
  (forall more, exists c, V5Codec.parse (buffer ++ more) max = Err (EIncomplete c)) ->
  read_packet max (Some V5_0) chunks buffer = Waiting (buffer ++ concat chunks).
Proof.
  induction chunks as [|c chunks IH]; intros buffer Hc H; cbn [read_packet];
    unfold try_parse_packet, try_parse_v5_packet; cbn [mbind outcome_bind];
    destruct (H []) as [ctx E]; rewrite app_nil_r in E; rewrite E.
  - by rewrite app_nil_r.
  - inversion Hc as [|? ? Hc1 Hc2]; subst. destruct c as [|b c]; [done|].
    rewrite IH; [by rewrite <-app_assoc|done|]. intros more. rewrite <-app_assoc. apply H.
Qed.
End Read.

(** A PUBLISH whose topic is announced longer than the packet's body. *)
Lemma truncated_topic_incomplete max flags n data more :
  flags_ok CptPublish flags -> is_u16 n -> zlen data < n -> zlen data + 2 <= max ->
  V5Codec.parse (frame CptPublish flags (be_u16 n ++ data) ++ more) max
  = Err (EIncomplete "binary data").
Proof.
  intros Hf Hn Hlt Hmax. set (body := be_u16 n ++ data).
  assert (zlen body = zlen data + 2) as Hb by (unfold body; autorewrite with zlen; lia).
  pose proof (zlen_nonneg data). unfold is_u16 in Hn.
  destruct (frame_prefix CptPublish flags body max (frame CptPublish flags body ++ more) [] more Hf)
    as [(c & _ & Hlen)|(b & Hh & Eb & _)].
  - unfold MAX_VARIABLE_BYTE_INTEGER. lia.
  - lia.
  - by rewrite app_nil_r.
  - rewrite length_app in Hlen. lia.
  - rewrite app_nil_r in Eb. subst b.
    unfold V5Codec.parse. rewrite Hh. cbn [mbind outcome_bind fh_packet_type header_of parser_for].
    unfold V5Publish.parse, parse_with_body. rewrite Hh.
    cbn [mbind outcome_bind fh_packet_type fh_remaining_length header_of].
    rewrite decide_True by done. cbn [no_check mbind outcome_bind].
    rewrite zlen_app, (proj2 (Z.ltb_ge _ _)) by (pose proof (zlen_nonneg more); lia).
    rewrite zlen_to_nat, split_at_app. cbn [mbind outcome_bind].
    unfold V5Publish.parse_body, parse_utf8_string, parse_binary, body.
    rewrite reads_u16. cbn [mbind outcome_bind]. by rewrite (proj2 (Z.ltb_lt (zlen data) n) Hlt).
Qed.

(** ** Theorems *)

(** packets written one after the other are read in that order and in normal
    form, however the network cuts the stream into non-empty chunks, and exactly
    the bytes behind them are left. *)
Theorem read_packets_in_order v3 (max : Z) (ps : list Packet) (chunks : list bytes) (tail : bytes) :
  Forall nonempty chunks ->
  Forall (fun p => wf_packet p /\ encodable p = true /\ readable p = true /\ body_length p <= max) ps ->
  concat chunks = concat (map packet_bytes ps) ++ tail ->
  exists buffer' chunks',
    read_packets v3 (length ps) max V5_0 chunks [] = Some (map normalize ps, buffer', chunks') /\
    buffer' ++ concat chunks' = tail.
Proof. intros Hc Hps E. exact (read_packets_sound v3 max ps chunks [] tail Hc Hps E). Qed.

(** the first packet of a connection, a CONNECT of MQTT 5 cut in any way, is
    detected as MQTT 5 and received whole; the version is never guessed early. *)
Theorem first_connect_received v3 (max : Z) (a : Connect) (chunks : list bytes) (rest : bytes) :
  wf_packet (PConnect a) -> encodable (PConnect a) = true -> readable (PConnect a) = true ->
  body_length (PConnect a) <= max ->
  Forall nonempty chunks -> concat chunks = packet_bytes (PConnect a) ++ rest ->
  exists buffer' chunks',
    read_packet v3 max None chunks [] = Received (normalize (PConnect a)) V5_0 buffer' chunks' /\
    buffer' ++ concat chunks' = rest.
Proof.
  intros Hwf Hok Hr Hmax Hc E.
  destruct (read_first_packet v3 max a chunks [] rest Hwf Hok Hr Hmax Hc E) as (b & c & ? & ? & _).
  eauto.
Qed.

(** a stream the parser rejects makes the reader fail with the mapped error,
    however the stream is cut. *)
Theorem malformed_stream_fails v3 (max : Z) (chunks : list bytes) (e : Mqtt5ParseError) :
  Forall nonempty chunks -> is_bytes (concat chunks) ->
  V5Codec.parse (concat chunks) max = Err e -> is_incomplete e = false ->
  read_packet v3 max (Some V5_0) chunks [] = Failed (v5_error e).
Proof. intros Hc Hb H He. exact (read_packet_failed v3 max chunks [] e Hc Hb H He). Qed.

(** a complete PUBLISH frame whose topic is announced longer than the frame's
    body is neither accepted nor rejected: the reader waits, and keeps every
    later byte in its buffer, whatever and however much the client sends. *)
Theorem truncated_topic_stalls v3 (max flags n : Z) (data : bytes) (chunks : list bytes) :
  flags_ok CptPublish flags -> is_u16 n -> zlen data < n -> zlen data + 2 <= max ->
  Forall nonempty chunks ->
  read_packet v3 max (Some V5_0) chunks (frame CptPublish flags (be_u16 n ++ data))
  = Waiting (frame CptPublish flags (be_u16 n ++ data) ++ concat chunks).
Proof.
  intros Hf Hn Hlt Hmax Hc. apply read_packet_stalls; [done|]. intros more. eexists.
  by apply truncated_topic_incomplete.
Qed.

(** *** Witnesses *)

Definition sample_connect : Connect :=
  mkConnect V5_0 "client" (Some "user"%string) None 60 true (Some 30) None default_properties.

Lemma sample_connect_wf : wf_packet (PConnect sample_connect).
Proof. unfold wf_packet. cbn. unfold is_u16, is_u32. split_and!; try done; try lia. constructor. Defined.

(** A parser of MQTT 3.1.1 that never has a packet. *)
Definition no_v3 (buffer : bytes) (max : Z) : try_result := Ok None.

Lemma read_packets_in_order_witness :
  exists buffer' chunks',
    read_packets no_v3 2 1024 V5_0 [take 5 sample_bytes; drop 5 sample_bytes ++ [0xc0]; [0]; [1]] []
      = Some ([normalize sample_publish; PPingreq], buffer', chunks') /\
    buffer' ++ concat chunks' = [1].
Proof.
  apply (read_packets_in_order no_v3 1024 [sample_publish; PPingreq]
    [take 5 sample_bytes; drop 5 sample_bytes ++ [0xc0]; [0]; [1]] [1]).
  - repeat constructor; discriminate.
  - apply Forall_cons. split; [split; [apply sample_wf|split_and!; vm_compute; done]|].
    apply Forall_singleton. split_and!; vm_compute; done.
  - vm_compute. reflexivity.
Defined.

Lemma first_connect_received_witness :
  exists buffer' chunks',
    read_packet no_v3 1024 None
      [take 3 (packet_bytes (PConnect sample_connect));
       drop 3 (packet_bytes (PConnect sample_connect)) ++ [0xc0]] []
    = Received (normalize (PConnect sample_connect)) V5_0 buffer' chunks' /\
    buffer' ++ concat chunks' = [0xc0].
Proof.
  apply (first_connect_received no_v3 1024 sample_connect).
  - apply sample_connect_wf.
  - vm_compute. reflexivity.
  - vm_compute. reflexivity.
  - vm_compute. discriminate.
  - repeat constructor; discriminate.
  - vm_compute. reflexivity.
Defined.

Lemma malformed_stream_fails_witness :
  read_packet no_v3 1024 (Some V5_0) [[0x40; 2]; [0; 0]] []
  = Failed (v5_error (EMalformedPacket "publish acknowledgement packet identifier must not be zero")).
Proof.
  apply (malformed_stream_fails no_v3 1024 [[0x40; 2]; [0; 0]]).
  - repeat constructor; discriminate.
  - unfold is_bytes, is_u8. repeat constructor; lia.
  - vm_compute. reflexivity.
  - reflexivity.
Defined.

Lemma truncated_topic_stalls_witness :
  read_packet no_v3 1024 (Some V5_0) [[0xc0; 0]; [0xe0; 0]] [0x30; 2; 0; 5]
  = Waiting [0x30; 2; 0; 5; 0xc0; 0; 0xe0; 0].
Proof.
  apply (truncated_topic_stalls no_v3 1024 0 5 [] [[0xc0; 0]; [0xe0; 0]]).
  - by split.
  - unfold is_u16. lia.
  - reflexivity.
  - discriminate.
  - repeat constructor; discriminate.
Defined.
