(* ===== verification/Inflight.v ===== *)
(** * In-flight messages of a session ([broker/src/inflight.rs])

    The table of packet identifiers in use, each with the acknowledgement it
    waits for and the key of its stored packet.  [SystemTime::now()] in seconds
    is an argument [now]. *)

From S2P Require Import Prelude.

Inductive InflightError := PacketIdentifierHasExisted.

Inductive InflightState := WaitPubrel | WaitPubcomp | WaitPubrec | WaitPuback | Finish.

Record InflightItem := mkItem {
  it_packet_identifier : Z;
  it_state : InflightState;
  it_packet_key : option string;
  it_last_modified : Z;
  it_delivery_started : bool;
}.

Record Inflight := mkInflight {
  inner : gmap Z InflightItem;
  expired_duration : Z;              (* Duration::as_secs *)
}.

#[export] Instance InflightState_eq_dec : EqDecision InflightState.
Proof. solve_decision. Defined.
#[export] Instance InflightItem_eq_dec : EqDecision InflightItem.
Proof. solve_decision. Defined.

Definition set_inner (m : gmap Z InflightItem) (s : Inflight) : Inflight :=
  mkInflight m (expired_duration s).

Definition set_last_modified (now : Z) (it : InflightItem) : InflightItem :=
  mkItem (it_packet_identifier it) (it_state it) (it_packet_key it) now (it_delivery_started it).

Definition set_delivery_started (b : bool) (it : InflightItem) : InflightItem :=
  mkItem (it_packet_identifier it) (it_state it) (it_packet_key it) (it_last_modified it) b.

(** [InflightItem::to_next]. *)
Definition next (s : InflightState) : InflightState :=
  match s with
  | WaitPubrel => Finish
  | WaitPubcomp => Finish
  | WaitPubrec => WaitPubcomp
  | WaitPuback => Finish
  | Finish => Finish
  end.
Definition to_next (now : Z) (it : InflightItem) : InflightItem :=
  mkItem (it_packet_identifier it) (next (it_state it)) (it_packet_key it) now
    (it_delivery_started it).

(** [Inflight::new]. *)
Definition new (expired_duration : Z) : Inflight := mkInflight ∅ expired_duration.

Definition item_keys (it : InflightItem) : list string := option_list (it_packet_key it).

Definition get_all_packet_keys (s : Inflight) : list string := flat item_keys (inner s).

(** [self.inner.insert(packet_identifier, item)] and the key it displaces. *)
Definition insert_item (id : Z) (it : InflightItem) (s : Inflight) : option string * Inflight :=
  (match inner s !! id with Some old => it_packet_key old | None => None end,
   set_inner (<[id := it]> (inner s)) s).

Definition register_with_rx_packet (now packet_identifier qos : Z) (packet_key : string)
    (s : Inflight) : option string * Inflight :=
  if qos =? 2 then
    insert_item packet_identifier
      (mkItem packet_identifier WaitPubrel (Some packet_key) now true) s
  else if qos =? 1 then
    insert_item packet_identifier
      (mkItem packet_identifier Finish (Some packet_key) now true) s
  else (None, s).

Definition packet_id_exists (packet_identifier : Z) (s : Inflight) : bool :=
  bool_decide (is_Some (inner s !! packet_identifier)).

Definition register_with_tx_packet (now packet_identifier qos : Z) (packet_key : string)
    (s : Inflight) : outcome InflightError (option string * Inflight) :=
  if packet_id_exists packet_identifier s then Err PacketIdentifierHasExisted
  else
    Ok (if qos =? 2 then
          insert_item packet_identifier
            (mkItem packet_identifier WaitPubrec (Some packet_key) now true) s
        else if qos =? 1 then
          insert_item packet_identifier
            (mkItem packet_identifier WaitPuback (Some packet_key) now true) s
        else (None, s)).

(** The entry [(packet_identifier, packet_key)] an item yields to the resend lists. *)
Definition resend_entry (it : InflightItem) : list (Z * string) :=
  match it_packet_key it with
  | Some packet_key => [(it_packet_identifier it, packet_key)]
  | None => []
  end.

Definition get_all_packet_keys_and_refresh_expired_time (now : Z) (s : Inflight)
    : list (Z * string) * Inflight :=
  (flat resend_entry (inner s), set_inner (set_last_modified now <$> inner s) s).

(** The loop over [values_mut()], with [item.last_modified + expired_duration < now]
    in [u64]: a sum that overflows panics. *)
Definition is_expired (now : Z) (s : Inflight) (it : InflightItem) : bool :=
  it_last_modified it + expired_duration s <? now.
Definition refresh (now : Z) (s : Inflight) (it : InflightItem) : InflightItem :=
  if is_expired now s it then set_last_modified now it else it.

Definition get_all_expired_packet_keys_and_refresh_expired_time {E} (now : Z) (s : Inflight)
    : outcome E (list (Z * string) * Inflight) :=
  if decide (map_Forall (fun _ it => it_last_modified it + expired_duration s <= u64_max) (inner s))
  then
    Ok (flat (fun it => if is_expired now s it then resend_entry it else []) (inner s),
        set_inner (refresh now s <$> inner s) s)
  else Panic.

Definition get_next_state_packet_key (packet_identifier : Z) (s : Inflight) : option string :=
  match inner s !! packet_identifier with Some it => it_packet_key it | None => None end.

Definition get_current_packet_key (packet_identifier : Z) (s : Inflight) : option string :=
  match inner s !! packet_identifier with Some it => it_packet_key it | None => None end.

Definition get_inflight_current_state (packet_identifier : Z) (s : Inflight)
    : option InflightState :=
  it_state <$> inner s !! packet_identifier.

(** [(1..=65535).find(|&id| !self.inner.contains_key(&id))]. *)
Fixpoint find_free (n : nat) (id : Z) (m : gmap Z InflightItem) : option Z :=
  match n with
  | O => None
  | S n => if decide (m !! id = None) then Some id else find_free n (id + 1) m
  end.
Definition allocate_packet_id (s : Inflight) : option Z := find_free (Z.to_nat 65535) 1 (inner s).

Definition mark_delivery_started (id : Z) (key : string) (s : Inflight) : bool * Inflight :=
  match inner s !! id with
  | Some it =>
      if decide (it_packet_key it = Some key)
      then (true, set_inner (<[id := set_delivery_started true it]> (inner s)) s)
      else (false, s)
  | None => (false, s)
  end.

Definition discard_unsent (id : Z) (key : string) (s : Inflight) : option string * Inflight :=
  match inner s !! id with
  | None => (None, s)
  | Some it =>
      if it_delivery_started it || negb (bool_decide (it_packet_key it = Some key))
         || negb (bool_decide (it_state it = WaitPuback \/ it_state it = WaitPubrec))
      then (None, s)
      else (it_packet_key it, set_inner (delete id (inner s)) s)
  end.

Definition next_state (now packet_identifier : Z) (s : Inflight) : option string * Inflight :=
  match inner s !! packet_identifier with
  | Some it =>
      let it := to_next now it in
      (if decide (it_state it = Finish) then it_packet_key it else None,
       set_inner (<[packet_identifier := it]> (inner s)) s)
  | None => (None, s)
  end.

Definition finished (it : InflightItem) : bool := bool_decide (it_state it = Finish).

(** [retain] drops the finished items and collects their keys. *)
Definition clean_finished_items (s : Inflight) : list string * Inflight :=
  (flat (fun it => if finished it then item_keys it else []) (inner s),
   set_inner (filter (fun kv => finished kv.2 = false) (inner s)) s).

(** ** The invariant *)

(** Every entry is filed under its own identifier, a 16-bit one that is not zero,
    and holds a key. *)
Definition wf_item (id : Z) (it : InflightItem) : Prop :=
  it_packet_identifier it = id /\ 1 <= id <= 65535 /\ is_Some (it_packet_key it).
Definition wf (s : Inflight) : Prop := map_Forall wf_item (inner s).

Lemma wf_new d : wf (new d).
Proof. apply map_Forall_empty. Qed.

Lemma wf_insert id it s : wf s -> wf_item id it -> wf (set_inner (<[id := it]> (inner s)) s).
Proof. intros Hs Hit. by apply map_Forall_insert_2. Qed.

Lemma wf_item_next now id it : wf_item id it -> wf_item id (to_next now it).
Proof. intros (? & ? & ?). unfold wf_item. tauto. Qed.

(** ** Lemmas *)

Lemma find_free_spec m n : forall id,
  match find_free n id m with
  | Some x => id <= x < id + Z.of_nat n /\ m !! x = None /\ forall y, id <= y < x -> m !! y <> None
  | None => forall y, id <= y < id + Z.of_nat n -> m !! y <> None
  end.
Proof.
  induction n as [|n IH]; intros id; cbn [find_free]; [intros; lia|].
  destruct (decide (m !! id = None)) as [Hn|Hs].
  - split_and!; [lia..|done|intros; lia].
  - specialize (IH (id + 1)). destruct (find_free n (id + 1) m) as [x|].
    + destruct IH as (? & ? & Hall). split_and!; [lia..|done|]. intros y Hy.
      destruct (decide (y = id)) as [->|]; [done|apply Hall; lia].
    + intros y Hy. destruct (decide (y = id)) as [->|]; [done|apply IH; lia].
Qed.

Lemma insert_item_keys id it s :
  let '(old, s') := insert_item id it s in
  option_list old ++ get_all_packet_keys s' ≡ₚ item_keys it ++ get_all_packet_keys s.
Proof.
  unfold insert_item, get_all_packet_keys. cbn [set_inner inner].
  rewrite flat_insert. destruct (inner s !! id) as [o|] eqn:E.
  - rewrite (flat_delete item_keys _ _ _ E). unfold item_keys at 3.
    rewrite !app_assoc. apply Permutation_app; [apply Permutation_app_comm|done].
  - simpl. by rewrite delete_id.
Qed.

Lemma flat_split {A B} `{Countable K} (f : A -> list B) (P : A -> bool) (m : gmap K A) :
  flat f m ≡ₚ flat (fun x => if P x then f x else []) m
              ++ flat f (filter (fun kv => P kv.2 = false) m).
Proof.
  induction m as [|k v m Hk IH] using map_ind; [by rewrite map_filter_empty, !flat_empty|].
  rewrite !(flat_insert_new _ _ _ _ Hk). destruct (P v) eqn:E.
  - rewrite map_filter_insert_False by (simpl; congruence).
    rewrite delete_id by done. by rewrite <-app_assoc, IH.
  - rewrite map_filter_insert_True by done.
    rewrite flat_insert_new by (apply map_lookup_filter_None; by left).
    simpl. rewrite IH, !app_assoc. apply Permutation_app; [apply Permutation_app_comm|done].
Qed.

Lemma clean_finished_keys s :
  let '(keys, s') := clean_finished_items s in
  get_all_packet_keys s ≡ₚ keys ++ get_all_packet_keys s'.
Proof. unfold clean_finished_items, get_all_packet_keys. apply flat_split. Qed.

Lemma flat_fmap_keys {K} `{Countable K} {A B} (f : A -> list B) (g : A -> A) (m : gmap K A) :
  (forall x, f (g x) = f x) -> flat f (g <$> m) ≡ₚ flat f m.
Proof.
  intros Hg. induction m as [|k v m Hk IH] using map_ind; [by rewrite fmap_empty|].
  rewrite fmap_insert, !flat_insert_new by (done || by rewrite lookup_fmap, Hk).
  by rewrite Hg, IH.
Qed.

(** What each operation does to the keys held. *)
Lemma register_rx_keys now id qos key s :
  let '(old, s') := register_with_rx_packet now id qos key s in
  option_list old ++ get_all_packet_keys s'
  ≡ₚ (if (qos =? 2) || (qos =? 1) then [key] else []) ++ get_all_packet_keys s.
Proof.
  unfold register_with_rx_packet. destruct (qos =? 2); [apply insert_item_keys|].
  by destruct (qos =? 1); [apply insert_item_keys|].
Qed.

Lemma register_tx_keys now id qos key s old s' :
  register_with_tx_packet now id qos key s = Ok (old, s') ->
  inner s !! id = None /\ old = None /\
  get_all_packet_keys s'
  ≡ₚ (if (qos =? 2) || (qos =? 1) then [key] else []) ++ get_all_packet_keys s.
Proof.
  unfold register_with_tx_packet, packet_id_exists.
  destruct (inner s !! id) as [it|] eqn:E.
  { by rewrite bool_decide_eq_true_2 by eauto. }
  rewrite bool_decide_eq_false_2 by (by intros [? ?]). intros [= Hr]. split; [done|].
  assert (forall it, insert_item id it s = (None, set_inner (<[id := it]> (inner s)) s)) as Hi
    by (intros it; unfold insert_item; by rewrite E).
  destruct (qos =? 2); [|destruct (qos =? 1)]; rewrite ?Hi in Hr; injection Hr as <- <-;
    (split; [done|]); try done;
    unfold get_all_packet_keys; cbn [set_inner inner]; by rewrite flat_insert_new.
Qed.

Lemma next_state_keys now id s :
  get_all_packet_keys (next_state now id s).2 ≡ₚ get_all_packet_keys s.
Proof.
  unfold next_state, get_all_packet_keys. destruct (inner s !! id) as [it|] eqn:E; [|done].
  cbn [snd set_inner inner]. by rewrite flat_insert, (flat_delete _ _ _ _ E).
Qed.

Lemma discard_unsent_keys id key s :
  let '(removed, s') := discard_unsent id key s in
  get_all_packet_keys s ≡ₚ option_list removed ++ get_all_packet_keys s'.
Proof.
  unfold discard_unsent, get_all_packet_keys. destruct (inner s !! id) as [it|] eqn:E; [|done].
  destruct (_ || _); [done|]. cbn [set_inner inner]. by rewrite (flat_delete _ _ _ _ E).
Qed.

(** ** Reachable tables *)

Inductive step : Inflight -> Inflight -> Prop :=
  | step_rx now id qos key s :
      1 <= id <= 65535 -> step s (register_with_rx_packet now id qos key s).2
  | step_tx now id qos key s r :
      1 <= id <= 65535 -> register_with_tx_packet now id qos key s = Ok r -> step s r.2
  | step_refresh now s : step s (get_all_packet_keys_and_refresh_expired_time now s).2
  | step_refresh_expired now s r :
      get_all_expired_packet_keys_and_refresh_expired_time (E := unit) now s = Ok r -> step s r.2
  | step_mark id key s : step s (mark_delivery_started id key s).2
  | step_discard id key s : step s (discard_unsent id key s).2
  | step_next now id s : step s (next_state now id s).2
  | step_clean s : step s (clean_finished_items s).2.

Lemma wf_fmap f s :
  (forall id it, wf_item id it -> wf_item id (f it)) -> wf s -> wf (set_inner (f <$> inner s) s).
Proof.
  intros Hf Hs id it. cbn [set_inner inner]. rewrite lookup_fmap.
  destruct (inner s !! id) eqn:E; [|done]. intros [= <-]. auto.
Qed.

Lemma step_wf s s' : step s s' -> wf s -> wf s'.
Proof.
  assert (forall id it st key now b, wf_item id (mkItem id st (Some key) now b) <-> 1 <= id <= 65535)
    as Hnew by (intros; unfold wf_item; simpl; split; [tauto|eauto]).
  destruct 1 as [now id qos key s Hid|now id qos key s r Hid Hr|now s|now s r Hr|id key s
    |id key s|now id s|s]; intros Hs.
  - unfold register_with_rx_packet. destruct (qos =? 2); [|destruct (qos =? 1); [|done]];
      apply wf_insert; try done; by apply Hnew.
  - unfold register_with_tx_packet in Hr. destruct (packet_id_exists id s); [done|].
    injection Hr as <-. destruct (qos =? 2); [|destruct (qos =? 1); [|done]];
      apply wf_insert; try done; by apply Hnew.
  - by apply wf_fmap.
  - unfold get_all_expired_packet_keys_and_refresh_expired_time in Hr.
    destruct (decide _); [|done]. injection Hr as <-. apply wf_fmap; [|done].
    intros id it Hit. unfold refresh. by destruct (is_expired now s it).
  - unfold mark_delivery_started. destruct (inner s !! id) as [it|] eqn:E; [|done].
    destruct (decide _); [|done]. apply wf_insert; [done|exact (Hs _ _ E)].
  - unfold discard_unsent. destruct (inner s !! id) as [it|]; [|done]. destruct (_ || _); [done|].
    by apply map_Forall_delete.
  - unfold next_state. destruct (inner s !! id) as [it|] eqn:E; [|done].
    apply wf_insert; [done|]. apply wf_item_next. exact (Hs _ _ E).
  - unfold clean_finished_items. intros id it Hit. apply map_lookup_filter_Some in Hit as [Hit _].
    exact (Hs _ _ Hit).
Qed.

(** A refreshed item's deadline is not before [now]. *)
Lemma refresh_fresh now s :
  0 <= expired_duration s -> now + expired_duration s <= u64_max ->
  map_Forall (fun _ it => it_last_modified it + expired_duration s <= u64_max) (inner s) ->
  forall k it, (refresh now s <$> inner s) !! k = Some it ->
    now <= it_last_modified it + expired_duration s <= u64_max.
Proof.
  intros Hd Hnow Hall k it. rewrite lookup_fmap. destruct (inner s !! k) as [it0|] eqn:E; [|done].
  intros [= <-]. pose proof (Hall _ _ E) as Hb. cbn beta in Hb. unfold refresh, is_expired.
  destruct (Z.ltb_spec (it_last_modified it0 + expired_duration s) now); simpl; lia.
Qed.

(** ** Theorems *)

(** the identifier allocated is the least free one between 1 and 65535, and none
    is allocated exactly when all of them are in use. *)
Theorem allocate_packet_id_least (s : Inflight) :
  match allocate_packet_id s with
  | Some id => 1 <= id <= 65535 /\ inner s !! id = None /\
               forall id', 1 <= id' < id -> inner s !! id' <> None
  | None => forall id, 1 <= id <= 65535 -> inner s !! id <> None
  end.
Proof.
  unfold allocate_packet_id. pose proof (find_free_spec (inner s) (Z.to_nat 65535) 1) as H.
  destruct (find_free _ _ _) as [id|].
  - destruct H as (? & ? & ?). split_and!; [lia..|done|done].
  - intros id Hid. apply H. lia.
Qed.

(** every table the broker can reach from an empty one files each item under its
    own identifier, between 1 and 65535, with the key of its packet. *)
Theorem reachable_inflight_wf (d : Z) (s : Inflight) : rtc step (new d) s -> wf s.
Proof.
  intros H. assert (forall s0, rtc step s0 s -> wf s0 -> wf s) as Hpres.
  { induction 1; [done|]. intros Hs. eauto using step_wf. }
  exact (Hpres _ H (wf_new d)).
Qed.

(** no key is lost or duplicated: what a table holds before an operation and what
    the operation adds is what it holds after and what it hands back. *)
Theorem keys_conserved (now id qos : Z) (key : string) (s : Inflight) :
  qos = 1 \/ qos = 2 ->
  (let '(old, s') := register_with_rx_packet now id qos key s in
   option_list old ++ get_all_packet_keys s' ≡ₚ key :: get_all_packet_keys s) /\
  (forall old s', register_with_tx_packet now id qos key s = Ok (old, s') ->
   old = None /\ get_all_packet_keys s' ≡ₚ key :: get_all_packet_keys s) /\
  get_all_packet_keys (next_state now id s).2 ≡ₚ get_all_packet_keys s /\
  (let '(removed, s') := discard_unsent id key s in
   get_all_packet_keys s ≡ₚ option_list removed ++ get_all_packet_keys s') /\
  (let '(freed, s') := clean_finished_items s in
   get_all_packet_keys s ≡ₚ freed ++ get_all_packet_keys s').
Proof.
  intros Hq. assert ((qos =? 2) || (qos =? 1) = true) as E by (by destruct Hq as [-> | ->]).
  split_and!.
  - pose proof (register_rx_keys now id qos key s) as H.
    destruct (register_with_rx_packet _ _ _ _ _). by rewrite E in H.
  - intros old s' H. apply register_tx_keys in H as (_ & ? & H). by rewrite E in H.
  - apply next_state_keys.
  - apply discard_unsent_keys.
  - apply clean_finished_keys.
Qed.

(** The acknowledgements an outgoing message of a QoS waits for. *)
Definition acks (qos : Z) : nat := if qos =? 2 then 2 else 1.
Fixpoint acknowledge (n : nat) (now id : Z) (s : Inflight) : Inflight :=
  match n with O => s | S n => acknowledge n now id (next_state now id s).2 end.

Lemma next_state_item now id it s :
  inner s !! id = Some it -> inner (next_state now id s).2 !! id = Some (to_next now it).
Proof. intros E. unfold next_state. rewrite E. simpl. by rewrite lookup_insert_eq. Qed.

Lemma clean_finished_lookup s id it :
  inner s !! id = Some it ->
  inner (clean_finished_items s).2 !! id = if finished it then None else Some it.
Proof.
  intros E. unfold clean_finished_items. cbn [snd set_inner inner].
  destruct (finished it) eqn:F.
  - apply map_lookup_filter_None. right. intros x Hx. rewrite E in Hx. injection Hx as <-.
    simpl. congruence.
  - by apply map_lookup_filter_Some.
Qed.

(** an outgoing QoS 1 or 2 message keeps its identifier until it has had all its
    acknowledgements (one, or two); the clean-up after the last releases the
    identifier and hands back the message's key. *)
Theorem outgoing_lifecycle (now now' id qos : Z) (key : string) (s s1 : Inflight) (r : option string)
    (n : nat) :
  qos = 1 \/ qos = 2 ->
  register_with_tx_packet now id qos key s = Ok (r, s1) ->
  (n <= acks qos)%nat ->
  let '(freed, s2) := clean_finished_items (acknowledge n now' id s1) in
  if decide (n = acks qos) then inner s2 !! id = None /\ key ∈ freed
  else is_Some (inner s2 !! id) /\
       register_with_tx_packet now' id qos key s2 = Err PacketIdentifierHasExisted.
Proof.
  intros Hq Hr Hn. unfold register_with_tx_packet in Hr.
  destruct (packet_id_exists id s); [done|]. injection Hr as Hr.
  assert (exists st, inner s1 !! id = Some (mkItem id st (Some key) now true) /\
    st = if qos =? 2 then WaitPubrec else WaitPuback) as (st & E & Hst).
  { destruct Hq as [-> | ->]; simpl in Hr; injection Hr as _ <-; simpl; rewrite lookup_insert_eq;
      eauto. }
  assert (exists it, inner (acknowledge n now' id s1) !! id = Some it /\ it_packet_key it = Some key
    /\ (finished it = true <-> n = acks qos)) as (it & Ea & Hk & Hf).
  { destruct n as [|[|[|n]]]; cbn [acknowledge].
    4: (destruct Hq as [-> | ->]; unfold acks in Hn; simpl in Hn; lia).
    all: eexists; (split; [repeat apply next_state_item; exact E|]); (split; [done|]);
      rewrite Hst; destruct Hq as [-> | ->]; unfold acks, finished in *; simpl in Hn |- *;
      try lia; rewrite bool_decide_eq_true; split; intros H; try discriminate H; done. }
  pose proof (clean_finished_lookup _ _ _ Ea) as Hc.
  destruct (clean_finished_items (acknowledge n now' id s1)) as [freed s2] eqn:Ec.
  cbn [snd] in Hc. destruct (decide (n = acks qos)) as [Hd|Hd].
  - rewrite (proj2 Hf Hd) in Hc. split; [done|]. unfold clean_finished_items in Ec.
    injection Ec as <- _. apply elem_of_flat. exists id, it. split; [done|].
    rewrite (proj2 Hf Hd). unfold item_keys. rewrite Hk. simpl. by left.
  - destruct (finished it); [by destruct Hd; apply Hf|]. rewrite Hc. split; [eauto|].
    unfold register_with_tx_packet, packet_id_exists. rewrite Hc.
    by rewrite bool_decide_eq_true_2 by eauto.
Qed.

(** a delivery that has started is never discarded as unsent, and discarding
    only removes the one item asked for, with its key. *)
Theorem discard_only_unsent (id : Z) (key k : string) (s s' : Inflight) :
  discard_unsent id key s = (Some k, s') ->
  k = key /\ inner s' = delete id (inner s) /\
  exists it, inner s !! id = Some it /\ it_delivery_started it = false /\
    it_packet_key it = Some key /\ (it_state it = WaitPuback \/ it_state it = WaitPubrec).
Proof.
  unfold discard_unsent. destruct (inner s !! id) as [it|]; [|done].
  destruct (it_delivery_started it) eqn:D; [done|]. simpl.
  case_bool_decide as K; [|done]. case_bool_decide as S; [|done]. simpl.
  rewrite K. intros [= <- <-]. split_and!; [done..|]. eauto.
Qed.

(** asking for the messages to resend lists exactly the entries whose deadline has
    passed and restarts their timers, so that asking again at once lists none. *)
Theorem resend_lists_expired (now : Z) (s s' : Inflight) (l : list (Z * string)) :
  0 <= expired_duration s -> now + expired_duration s <= u64_max ->
  get_all_expired_packet_keys_and_refresh_expired_time (E := unit) now s = Ok (l, s') ->
  (forall e, e ∈ l <-> exists k it, inner s !! k = Some it /\ e ∈ resend_entry it /\
     it_last_modified it + expired_duration s < now) /\
  get_all_expired_packet_keys_and_refresh_expired_time (E := unit) now s' = Ok ([], s').
Proof.
  intros Hd Hnow. unfold get_all_expired_packet_keys_and_refresh_expired_time.
  destruct (decide _) as [Hall|]; [|done]. intros [= <- <-]. split.
  - intros e. rewrite elem_of_flat. unfold is_expired. split; intros (k & it & Hk & He); exists k, it.
    + destruct (Z.ltb_spec (it_last_modified it + expired_duration s) now); [done|].
      by apply elem_of_nil in He.
    + destruct He as [He Hlt]. by rewrite (proj2 (Z.ltb_lt _ _) Hlt).
  - set (s' := set_inner (refresh now s <$> inner s) s).
    assert (forall k it, inner s' !! k = Some it ->
      now <= it_last_modified it + expired_duration s <= u64_max) as Hfresh
      by exact (refresh_fresh now s Hd Hnow Hall).
    rewrite decide_True by (intros k it Hk; specialize (Hfresh k it Hk); simpl; lia).
    assert (forall k it, inner s' !! k = Some it -> is_expired now s' it = false) as Hno
      by (intros k it Hk; specialize (Hfresh k it Hk); apply Z.ltb_ge; simpl; lia).
    f_equal. f_equal.
    + apply elem_of_nil_inv. intros e. rewrite elem_of_flat. intros (k & it & Hk & He).
      rewrite (Hno k it Hk) in He. by apply elem_of_nil in He.
    + transitivity (set_inner (inner s') s'); [|done]. f_equal. apply map_eq. intros k.
      rewrite lookup_fmap. destruct (inner s' !! k) as [it|] eqn:E; [|done].
      simpl. f_equal. unfold refresh. by rewrite (Hno k it E).
Qed.

(** *** Witnesses *)

Definition sample_inflight : Inflight :=
  mkInflight {[ 1 := mkItem 1 WaitPuback (Some "k1"%string) 100 true;
                2 := mkItem 2 WaitPubrec (Some "k2"%string) 190 false ]} 20.

Lemma reachable_inflight_wf_witness :
  wf (register_with_rx_packet 7 1 2 "k" (new 20)).2.
Proof.
  apply (reachable_inflight_wf 20). apply rtc_once. apply step_rx. lia.
Defined.

Lemma keys_conserved_witness :
  let '(freed, s') := clean_finished_items sample_inflight in
  get_all_packet_keys sample_inflight ≡ₚ freed ++ get_all_packet_keys s'.
Proof.
  destruct (keys_conserved 200 1 1 "k" sample_inflight) as (_ & _ & _ & _ & H); [by left|exact H].
Defined.

Lemma outgoing_lifecycle_witness :
  let s1 := (insert_item 1 (mkItem 1 WaitPubrec (Some "k"%string) 5 true) (new 20)).2 in
  let '(freed, s2) := clean_finished_items (acknowledge 2 6 1 s1) in
  inner s2 !! 1 = None /\ "k"%string ∈ freed.
Proof.
  apply (outgoing_lifecycle 5 6 1 2 "k" (new 20) _ None 2); [by right|reflexivity|].
  unfold acks. simpl. lia.
Defined.

Lemma discard_only_unsent_witness :
  "k2"%string = "k2"%string /\ inner (discard_unsent 2 "k2" sample_inflight).2
    = delete 2 (inner sample_inflight) /\
  exists it, inner sample_inflight !! 2 = Some it /\ it_delivery_started it = false /\
    it_packet_key it = Some "k2"%string /\ (it_state it = WaitPuback \/ it_state it = WaitPubrec).
Proof. apply (discard_only_unsent 2 "k2" "k2" sample_inflight). vm_compute. reflexivity. Defined.

Lemma resend_lists_expired_witness :
  (forall e, e ∈ [(1, "k1"%string)] <-> exists k it, inner sample_inflight !! k = Some it /\
     e ∈ resend_entry it /\ it_last_modified it + 20 < 200) /\
  get_all_expired_packet_keys_and_refresh_expired_time (E := unit) 200
    (set_inner (refresh 200 sample_inflight <$> inner sample_inflight) sample_inflight)
  = Ok ([], set_inner (refresh 200 sample_inflight <$> inner sample_inflight) sample_inflight).
Proof.
  apply (resend_lists_expired 200 sample_inflight); [simpl; lia|unfold u64_max; simpl; lia|].
  vm_compute. reflexivity.
Defined.
