(* ===== verification/MessageExpiry.v ===== *)
(** * Message expiry ([broker/src/mqtt_message_expiry.rs])

    A PUBLISH is stamped with its deadline when it enters the broker and leaves
    with the seconds that remain; [now] is the clock's reading in seconds. *)

From S2P Require Import Prelude Packet.

Definition set_expires_at (v : option Z) (p : Publish) : Publish :=
  mkPublish (pb_protocol_version p) (pb_topic_name p) (pb_payload p) (pb_qos p) (pb_retain p)
    (pb_dup p) (pb_packet_identifier p) (pb_properties p) v.

Definition set_pb_properties (v : Properties) (p : Publish) : Publish :=
  mkPublish (pb_protocol_version p) (pb_topic_name p) (pb_payload p) (pb_qos p) (pb_retain p)
    (pb_dup p) (pb_packet_identifier p) v (pb_expires_at_unix_secs p).

Definition stamp_publish_expiry (publish : Publish) (now : Z) : Publish :=
  match pb_expires_at_unix_secs publish, message_expiry_interval (pb_properties publish) with
  | None, Some interval => set_expires_at (Some (saturating_add_u64 now interval)) publish
  | _, _ => publish
  end.

Definition is_publish_expired (publish : Publish) (now : Z) : bool :=
  match pb_expires_at_unix_secs publish with
  | Some expires_at => expires_at <=? now
  | None => false
  end.

Definition is_packet_expired (packet : Packet) (now : Z) : bool :=
  match packet with PPublish publish => is_publish_expired publish now | _ => false end.

(** The [bool] result and the mutated packet. *)
Definition prepare_publish_for_delivery (publish : Publish) (protocol_version : ProtocolVersion)
    (now : Z) : bool * Publish :=
  match pb_expires_at_unix_secs publish with
  | None => (true, publish)
  | Some expires_at =>
      if expires_at <=? now then (false, publish)
      else
        match protocol_version with
        | V5_0 =>
            let remaining := as_u32 (Z.min (saturating_sub_u64 expires_at now) u32_max) in
            (true, set_pb_properties
                     (set_message_expiry_interval (Some remaining) (pb_properties publish)) publish)
        | V3_1_1 => (true, publish)
        end
  end.

Definition prepare_packet_for_delivery (packet : Packet) (protocol_version : ProtocolVersion)
    (now : Z) : bool * Packet :=
  match packet with
  | PPublish publish =>
      let '(ok, publish) := prepare_publish_for_delivery publish protocol_version now in
      (ok, PPublish publish)
  | _ => (true, packet)
  end.

Definition route_expiry_at (packet : Packet) (route_ttl_seconds now : Z) : Z :=
  let route_expiry := saturating_add_u64 now route_ttl_seconds in
  match packet with
  | PPublish publish =>
      match pb_expires_at_unix_secs publish with
      | Some expires_at => Z.min expires_at route_expiry
      | None => route_expiry
      end
  | _ => route_expiry
  end.

(** ** Theorems *)

(** a message stamped on arrival and delivered [waited] seconds later is dropped
    exactly when its interval has passed; otherwise an MQTT 5 subscriber is told the
    interval less the time waited, and nothing else of the message changes. *)
Theorem expiry_end_to_end (p : Publish) (now interval waited : Z) :
  is_u64 now -> is_u32 interval -> 0 <= waited -> now + interval <= u64_max ->
  pb_expires_at_unix_secs p = None -> message_expiry_interval (pb_properties p) = Some interval ->
  prepare_publish_for_delivery (stamp_publish_expiry p now) V5_0 (now + waited) =
    if interval <=? waited then (false, stamp_publish_expiry p now)
    else (true, set_pb_properties
                  (set_message_expiry_interval (Some (interval - waited)) (pb_properties p))
                  (stamp_publish_expiry p now)).
Proof.
  intros Hnow Hi Hw Hsum He Hm. unfold is_u64, is_u32, u64_max in *.
  unfold prepare_publish_for_delivery, stamp_publish_expiry. rewrite He, Hm.
  unfold set_expires_at, saturating_add_u64, saturating_sub_u64, u64_max, u32_max, as_u32.
  cbn [pb_expires_at_unix_secs pb_properties]. rewrite (Z.min_l (now + interval)) by lia.
  destruct (Z.leb_spec (now + interval) (now + waited)), (Z.leb_spec interval waited); try lia;
    [done|]. do 3 f_equal. rewrite Z.max_l, Z.min_l, Z.mod_small by lia. f_equal. lia.
Qed.

(** what is delivered is not expired, what is expired is not delivered, and the
    interval written to an MQTT 5 subscriber is a positive 32-bit number. *)
Theorem delivery_iff_unexpired (p : Publish) (v : ProtocolVersion) (now : Z) :
  let '(ok, p') := prepare_publish_for_delivery p v now in
  ok = negb (is_publish_expired p now) /\
  (ok = true -> v = V5_0 -> pb_expires_at_unix_secs p <> None ->
     exists r, message_expiry_interval (pb_properties p') = Some r /\ 1 <= r <= u32_max).
Proof.
  unfold prepare_publish_for_delivery, is_publish_expired.
  destruct (pb_expires_at_unix_secs p) as [e|]; [|done].
  destruct (Z.leb_spec e now); [done|]. destruct v; (split; [done|]); [done|].
  intros _ _ _. eexists. split; [by destruct (pb_properties p)|].
  unfold as_u32, saturating_sub_u64, u32_max. rewrite Z.max_l by lia.
  rewrite Z.mod_small by lia. lia.
Qed.

(** stamping is idempotent: a message that passes through the broker again keeps
    its first deadline. *)
Theorem stamp_keeps_deadline (p : Publish) (now now' : Z) :
  stamp_publish_expiry (stamp_publish_expiry p now) now'
  = match pb_expires_at_unix_secs (stamp_publish_expiry p now) with
    | Some _ => stamp_publish_expiry p now
    | None => p
    end.
Proof.
  unfold stamp_publish_expiry.
  destruct (pb_expires_at_unix_secs p) eqn:E, (message_expiry_interval (pb_properties p)) eqn:M;
    cbn [set_expires_at pb_expires_at_unix_secs pb_properties]; rewrite ?E, ?M; done.
Qed.

(** *** Witnesses *)

Lemma expiry_end_to_end_witness :
  let p := mkPublish V5_0 "t" [] 0 false false None
             (set_message_expiry_interval (Some 60) default_properties) None in
  (prepare_publish_for_delivery (stamp_publish_expiry p 1000) V5_0 1045).1 = true /\
  message_expiry_interval
    (pb_properties (prepare_publish_for_delivery (stamp_publish_expiry p 1000) V5_0 1045).2)
  = Some 15.
Proof.
  intros p. pose proof (expiry_end_to_end p 1000 60 45) as H.
  change (1000 + 45) with 1045 in H. rewrite H; [done|unfold is_u64; lia|unfold is_u32; lia|lia
    |unfold u64_max; lia|done|done].
Defined.
