(* ===== verification/TopicFilter.v ===== *)
(** * Topic names and filters ([test_topic] of [broker/src/topic/topic_storage.rs] and
    [broker/src/topic/shared_subscription.rs]) *)

From S2P Require Import Prelude Utf8.
From Stdlib Require Import Ascii.
From Stdlib Require String.

#[local] Open Scope char_scope.
#[global] Arguments Ascii.eqb _ _ : simpl never.

(** ** Rust string operations *)

(** [s.split(sep)]: at least one part. *)
Fixpoint split_on (sep : ascii) (s : string) : list string :=
  match s with
  | String.EmptyString => [""%string]
  | String.String c s =>
      if Ascii.eqb c sep then ""%string :: split_on sep s
      else
        match split_on sep s with
        | level :: levels => String.String c level :: levels
        | [] => [String.String c ""]
        end
  end.

(** [s.split("/")]: the levels of a topic. *)
Abbreviation split_slash := (split_on "/").

(** [s.contains(c)]. *)
Fixpoint contains (c : ascii) (s : string) : bool :=
  match s with
  | String.EmptyString => false
  | String.String d s => Ascii.eqb c d || contains c s
  end.

(** [raw.strip_prefix(p)]. *)
Fixpoint strip_prefix (p s : string) : option string :=
  match p, s with
  | String.EmptyString, _ => Some s
  | String.String c p, String.String d s => if Ascii.eqb c d then strip_prefix p s else None
  | String.String _ _, String.EmptyString => None
  end.

(** [rest.find('/')] and the two slices around it. *)
Fixpoint split_once_slash (s : string) : option (string * string) :=
  match s with
  | String.EmptyString => None
  | String.String c s =>
      if Ascii.eqb c "/" then Some (""%string, s)
      else
        match split_once_slash s with
        | Some (before, after) => Some (String.String c before, after)
        | None => None
        end
  end.

(** ** [test_topic] *)

(** The loop over the levels; [index] counts them. *)
Fixpoint test_levels (levels : list string) (index length : nat) : bool :=
  match levels with
  | [] => true
  | s :: levels =>
      let index := S index in
      if (1 <? String.length s)%nat then
        if contains "#" s || contains "+" s then false else test_levels levels index length
      else if contains "#" s && negb (index =? length)%nat then false
      else test_levels levels index length
  end.

Definition test_topic (topic : string) : bool :=
  let i := split_slash topic in test_levels i 0 (length i).

(** ** Shared subscriptions *)

Record SharedSubscriptionFilter := mkSharedFilter {
  share_name : string;
  sf_topic_filter : string;
}.

Inductive SharedSubscriptionFilterError :=
  | EmptyShareName
  | EmptyTopicFilter
  | InvalidShareName
  | InvalidTopicFilterError (filter : string).

(** The [#[error(..)]] messages. *)
Definition shared_error_to_string (e : SharedSubscriptionFilterError) : string :=
  match e with
  | EmptyShareName => "shared subscription share name is empty"
  | EmptyTopicFilter => "shared subscription topic filter is empty"
  | InvalidShareName => "shared subscription share name contains invalid wildcard or separator"
  | InvalidTopicFilterError f => "shared subscription topic filter is invalid: " +:+ f
  end%string.

Definition is_valid_share_name (name : string) : bool :=
  if decide (name = ""%string) then false
  else negb (contains "/" name) && negb (contains "+" name) && negb (contains "#" name).

Definition parse_shared_subscription_filter (raw : string)
    : outcome SharedSubscriptionFilterError (option SharedSubscriptionFilter) :=
  match strip_prefix "$share/" raw with
  | None => Ok None
  | Some rest =>
      match split_once_slash rest with
      | None => Err EmptyTopicFilter
      | Some (share_name, topic_filter) =>
          if negb (is_valid_share_name share_name) then
            if decide (share_name = ""%string) then Err EmptyShareName else Err InvalidShareName
          else if decide (topic_filter = ""%string) then Err EmptyTopicFilter
          else if negb (test_topic topic_filter) then Err (InvalidTopicFilterError topic_filter)
          else Ok (Some (mkSharedFilter share_name topic_filter))
      end
  end.

(** ** Lemmas *)

(** The levels joined with slashes. *)
Fixpoint join (levels : list string) : string :=
  match levels with
  | [] => ""
  | [level] => level
  | level :: levels => level +:+ "/" +:+ join levels
  end%string.

Lemma split_on_nonempty sep s : split_on sep s <> [].
Proof. destruct s as [|c s]; [done|]. simpl. destruct (Ascii.eqb c sep); [done|]. by case_match. Qed.

(** A part without the separator is one part. *)
Lemma split_on_none sep s : contains sep s = false -> split_on sep s = [s].
Proof.
  induction s as [|c s IH]; [done|]. simpl. intros [Hc Hs]%orb_false_iff.
  apply Ascii.eqb_neq in Hc. destruct (Ascii.eqb_spec c sep); [congruence|]. by rewrite IH.
Qed.

Lemma split_on_app sep a b :
  contains sep a = false ->
  split_on sep (a +:+ String.String sep b) = a :: split_on sep b.
Proof.
  induction a as [|c a IH]; simpl; [by rewrite Ascii.eqb_refl|].
  intros [Hc Ha]%orb_false_iff. apply Ascii.eqb_neq in Hc.
  destruct (Ascii.eqb_spec c sep); [congruence|]. by rewrite IH.
Qed.

Lemma join_split s : join (split_slash s) = s.
Proof.
  induction s as [|c s IH]; [done|]. simpl. pose proof (split_on_nonempty "/" s) as Hne.
  destruct (Ascii.eqb_spec c "/") as [->|_].
  - destruct (split_slash s) as [|l ls]; [done|]. simpl in IH |- *. by rewrite IH.
  - destruct (split_slash s) as [|l [|l' ls]]; [done|simpl in *; by rewrite IH|].
    simpl in *. by rewrite <-IH.
Qed.

Lemma split_inj s t : split_slash s = split_slash t -> s = t.
Proof. intros H. by rewrite <-(join_split s), H, join_split. Qed.

Lemma split_no_slash s : Forall (fun l => contains "/" l = false) (split_slash s).
Proof.
  induction s as [|c s IH]; [by repeat constructor|]. simpl.
  destruct (Ascii.eqb_spec c "/") as [->|Hne]; [by constructor|].
  destruct (split_slash s) as [|l ls]; repeat constructor; try done.
  - simpl. apply orb_false_iff. split; [by apply Ascii.eqb_neq|done].
  - inversion IH; subst. simpl. apply orb_false_iff.
    split; [apply Ascii.eqb_neq; congruence|done].
  - by inversion IH.
Qed.

Lemma strip_prefix_app p s : strip_prefix p (p +:+ s) = Some s.
Proof. induction p as [|c p IH]; simpl; [done|]. by rewrite Ascii.eqb_refl. Qed.

Lemma strip_prefix_Some p s r : strip_prefix p s = Some r -> s = (p +:+ r)%string.
Proof.
  revert s. induction p as [|c p IH]; intros s; simpl; [by intros [= ->]|].
  destruct s as [|d s]; [done|]. destruct (Ascii.eqb_spec c d) as [->|]; [|done].
  intros H. by rewrite (IH s H).
Qed.

Lemma split_once_app a b :
  contains "/" a = false -> split_once_slash (a +:+ "/" +:+ b) = Some (a, b).
Proof.
  induction a as [|c a IH]; simpl; [done|]. intros [Hc Ha]%orb_false_iff.
  apply Ascii.eqb_neq in Hc. destruct (Ascii.eqb_spec c "/"); [congruence|]. by rewrite IH.
Qed.

Lemma split_once_Some s a b :
  split_once_slash s = Some (a, b) -> s = (a +:+ "/" +:+ b)%string /\ contains "/" a = false.
Proof.
  revert a b. induction s as [|c s IH]; intros a b; simpl; [done|].
  destruct (Ascii.eqb_spec c "/") as [->|Hne]; [by intros [= <- <-]|].
  destruct (split_once_slash s) as [[a' b']|]; [|done]. intros [= <- <-].
  destruct (IH a' b' eq_refl) as [-> Ha]. split; [done|]. simpl.
  apply orb_false_iff. split; [apply Ascii.eqb_neq; congruence|done].
Qed.

(** A level without wildcard characters. *)
Definition plain (s : string) : bool := negb (contains "#" s) && negb (contains "+" s).

(** A level of a valid filter: plain, [+], or [#] in the last place. *)
Definition level_ok (last : bool) (s : string) : bool :=
  plain s || String.eqb s "+" || (last && String.eqb s "#").

Fixpoint levels_ok (levels : list string) : bool :=
  match levels with
  | [] => true
  | [s] => level_ok true s
  | s :: levels => level_ok false s && levels_ok levels
  end.

Lemma level_test s (last : bool) :
  (if (1 <? String.length s)%nat then negb (contains "#" s || contains "+" s)
   else negb (contains "#" s && negb last)) = level_ok last s.
Proof.
  unfold level_ok, plain. destruct s as [|c [|d s]]; [by destruct last| |].
  - simpl. rewrite !orb_false_r.
    destruct (Ascii.eqb_spec "#" c) as [<-|H1]; [by destruct last|].
    destruct (Ascii.eqb_spec "+" c) as [<-|H2]; [done|]. done.
  - cbn [String.length]. rewrite negb_orb.
    assert (forall x, String.eqb (String.String c (String.String d s)) (String.String x "") = false)
      as -> by (intros x; simpl; destruct (Ascii.eqb c x); done).
    assert (forall x, String.eqb (String.String c (String.String d s)) (String.String x "") = false)
      as -> by (intros x; simpl; destruct (Ascii.eqb c x); done).
    rewrite !andb_false_r, !orb_false_r. done.
Qed.

Lemma test_levels_ok levels : forall index,
  test_levels levels index (index + length levels) = levels_ok levels.
Proof.
  induction levels as [|s levels IH]; intros index; [done|]. cbn [test_levels length].
  assert (forall b : bool, (if b then false else test_levels levels (S index) (index + S (length levels)))
    = negb b && levels_ok levels) as Hb.
  { intros []; [done|]. simpl. rewrite <-(IH (S index)). f_equal. lia. }
  assert ((S index =? index + S (length levels))%nat = bool_decide (levels = [])) as ->.
  { destruct levels; cbn [length]; [rewrite bool_decide_eq_true_2 by done; apply Nat.eqb_eq
      |rewrite bool_decide_eq_false_2 by done; apply Nat.eqb_neq]; lia. }
  transitivity (level_ok (bool_decide (levels = [])) s && levels_ok levels).
  - rewrite <-level_test. destruct (1 <? String.length s)%nat; apply Hb.
  - destruct levels; simpl; [by rewrite andb_true_r|done].
Qed.

Lemma parse_shared_spec (raw g f : string) :
  parse_shared_subscription_filter raw = Ok (Some (mkSharedFilter g f)) <->
  raw = ("$share/" +:+ g +:+ "/" +:+ f)%string /\ is_valid_share_name g = true /\
  f <> ""%string /\ test_topic f = true.
Proof.
  unfold parse_shared_subscription_filter. split.
  - destruct (strip_prefix "$share/" raw) as [rest|] eqn:E; [|done].
    apply strip_prefix_Some in E as ->. destruct (split_once_slash rest) as [[g' f']|] eqn:E; [|done].
    apply split_once_Some in E as [-> _].
    destruct (is_valid_share_name g') eqn:Hg; simpl; [|by case_decide].
    destruct (decide (f' = ""%string)) as [|Hf]; [done|].
    destruct (test_topic f') eqn:Ht; simpl; [|done]. intros [= <- <-]. done.
  - intros (-> & Hg & Hf & Ht). rewrite strip_prefix_app.
    assert (contains "/" g = false) as Hs.
    { unfold is_valid_share_name in Hg. destruct (decide _); [done|].
      rewrite !andb_true_iff, negb_true_iff in Hg. tauto. }
    rewrite split_once_app, Hg by done. simpl. rewrite decide_False by done. by rewrite Ht.
Qed.

(** ** Theorems *)

(** a filter passes the broker's test exactly when each of its levels is free of
    wildcard characters, is a lone plus sign, or is a lone number sign in the last place. *)
Theorem test_topic_spec (s : string) : test_topic s = levels_ok (split_slash s).
Proof. unfold test_topic. exact (test_levels_ok (split_slash s) 0). Qed.

(** a shared filter is recognised exactly when it is built of the prefix, a share
    name without separator or wildcard, a slash and a non-empty valid filter, and it
    splits into these. *)
Theorem shared_filter_roundtrip (raw g f : string) :
  parse_shared_subscription_filter raw = Ok (Some (mkSharedFilter g f)) <->
  raw = ("$share/" +:+ g +:+ "/" +:+ f)%string /\ is_valid_share_name g = true /\
  f <> ""%string /\ test_topic f = true.
Proof. apply parse_shared_spec. Qed.
