(* ===== verification/TopicStorage.v ===== *)
(** * The topic tree ([broker/src/topic/topic_storage.rs])

    A trie of topic levels per tenant: its nodes hold the subscriptions whose
    filter ends there and the retained message of that topic.  The locks and
    [Arc]s of the source guard single nodes of one tree, which is a value here:
    an operation takes the tree and returns the tree it leaves.  Base64 comes
    from a crate and is a parameter. *)

From S2P Require Import Prelude Utf8 Packet MessageExpiry TopicFilter.
From Stdlib Require Import Ascii.
From Stdlib Require String.

(** [general_purpose::STANDARD] of the [base64] crate, and what it documents: a
    decoder that inverts the encoder, and an alphabet without the colon. *)
Class Base64 := {
  b64_encode : string -> string;
  b64_decode : string -> option bytes;
}.
Class Base64Spec (E : Base64) : Prop := {
  b64_roundtrip : forall s, b64_decode (b64_encode s) = Some (as_bytes s);
  b64_no_colon : forall s, contains ":"%char (b64_encode s) = false;
}.

Inductive TopicStorageError :=
  | TopicNotFound (topic : string)
  | TenantNotFound (tenant : string)
  | InvalidTopicFilter (filter : string)
  | InternalError (message : string).

Record Subscription := mkSubscription {
  client_identifier : string;
  s_qos : Z;
  s_no_local : bool;
  s_retain_as_published : bool;
  s_shared_group : option string;
  s_topic_filter : string;
}.

#[export] Instance Subscription_eq_dec : EqDecision Subscription.
Proof. solve_decision. Defined.

Section Keys.
Context {E : Base64}.

Definition generate_key (client_id topic : string) : string :=
  b64_encode client_id +:+ ":" +:+ b64_encode topic.

Definition normal_subscription_key (client_identifier : string) : string :=
  "$normal:" +:+ b64_encode client_identifier.

Definition legacy_normal_subscription_key (client_identifier : string) : string :=
  client_identifier.

Definition shared_subscription_key (client_identifier share_name : string) : string :=
  "$shared:" +:+ b64_encode client_identifier +:+ ":" +:+ b64_encode share_name.

(** [Subscription::node_key]. *)
Definition node_key (s : Subscription) : string :=
  match s_shared_group s with
  | Some group => shared_subscription_key (client_identifier s) group
  | None => normal_subscription_key (client_identifier s)
  end.
End Keys.

(** [Subscription::is_shared]. *)
Definition is_shared (s : Subscription) : bool := bool_decide (is_Some (s_shared_group s)).

(** ** Nodes *)

Inductive TopicStorageNode := Node
  (topic_parttern : string)
  (subscriptions : gmap string Subscription)
  (retain_publish_packet : option Packet)
  (leaves : gmap string TopicStorageNode).

Definition topic_parttern (n : TopicStorageNode) : string := let 'Node p _ _ _ := n in p.
Definition subscriptions (n : TopicStorageNode) : gmap string Subscription :=
  let 'Node _ s _ _ := n in s.
Definition retain_publish_packet (n : TopicStorageNode) : option Packet :=
  let 'Node _ _ r _ := n in r.
Definition leaves (n : TopicStorageNode) : gmap string TopicStorageNode :=
  let 'Node _ _ _ l := n in l.

(** [TopicStorageNode::new]. *)
Definition new_node (topic_pattern : string) : TopicStorageNode := Node topic_pattern ∅ None ∅.

Definition set_subscriptions (s : gmap string Subscription) (n : TopicStorageNode) :=
  let 'Node p _ r l := n in Node p s r l.
Definition set_retain (r : option Packet) (n : TopicStorageNode) :=
  let 'Node p s _ l := n in Node p s r l.
Definition set_leaf (pattern : string) (leaf n : TopicStorageNode) :=
  let 'Node p s r l := n in Node p s r (<[pattern := leaf]> l).

Definition get_leaf (pattern : string) (n : TopicStorageNode) : option TopicStorageNode :=
  leaves n !! pattern.

(** [find_or_create_leaf]: the caller stores the leaf back with [set_leaf]. *)
Definition find_or_create_leaf (pattern : string) (n : TopicStorageNode) : TopicStorageNode :=
  match leaves n !! pattern with Some leaf => leaf | None => new_node pattern end.

(** [TopicStorageNode::get_subscriptions]: the map's values. *)
Definition node_subscriptions (n : TopicStorageNode) : list Subscription :=
  (map_to_list (subscriptions n)).*2.

Section Operations.
Context {E : Base64}.

Definition add_subscription (s : Subscription) (n : TopicStorageNode) : TopicStorageNode :=
  set_subscriptions (<[node_key s := s]> (subscriptions n)) n.

(** [remove_subscriptions]: for each key in turn. *)
Definition remove_subscription (client : string) (shared_group : option string)
    (subs : gmap string Subscription) (key : string) : gmap string Subscription :=
  match subs !! key with
  | Some s =>
      if decide (client_identifier s = client /\ s_shared_group s = shared_group)
      then delete key subs else subs
  | None => subs
  end.
Definition remove_subscriptions (keys : list string) (client : string)
    (shared_group : option string) (n : TopicStorageNode) : TopicStorageNode :=
  set_subscriptions (foldl (remove_subscription client shared_group) (subscriptions n) keys) n.

Fixpoint recursion_subscribe (n : TopicStorageNode) (patterns : list string)
    (s : Subscription) : TopicStorageNode :=
  match patterns with
  | pattern :: rest =>
      set_leaf pattern (recursion_subscribe (find_or_create_leaf pattern n) rest s) n
  | [] => add_subscription s n
  end.

Fixpoint recursion_unsubscription (n : TopicStorageNode) (patterns keys : list string)
    (client : string) (shared_group : option string)
    : outcome TopicStorageError TopicStorageNode :=
  match patterns with
  | pattern :: rest =>
      match get_leaf pattern n with
      | Some next =>
          leaf ← recursion_unsubscription next rest keys client shared_group;
          Ok (set_leaf pattern leaf n)
      | None => Err (TopicNotFound pattern)
      end
  | [] => Ok (remove_subscriptions keys client shared_group n)
  end.

Fixpoint recursion_get_subscriptions (n : TopicStorageNode) (patterns : list string)
    : list Subscription :=
  match patterns with
  | pattern :: rest =>
      match get_leaf "#" n with Some leaf => node_subscriptions leaf | None => [] end
      ++ match get_leaf "+" n with
         | Some leaf => recursion_get_subscriptions leaf rest
         | None => []
         end
      ++ match get_leaf pattern n with
         | Some leaf => recursion_get_subscriptions leaf rest
         | None => []
         end
  | [] => node_subscriptions n
  end.

Fixpoint recursion_retain_publish_packet (n : TopicStorageNode) (patterns : list string)
    (publish_packet : Packet) : TopicStorageNode :=
  match patterns with
  | pattern :: rest =>
      set_leaf pattern
        (recursion_retain_publish_packet (find_or_create_leaf pattern n) rest publish_packet) n
  | [] => set_retain (Some publish_packet) n
  end.

Fixpoint recursion_clean_retain_publish_packet (n : TopicStorageNode) (patterns : list string)
    : outcome TopicStorageError TopicStorageNode :=
  match patterns with
  | pattern :: rest =>
      match get_leaf pattern n with
      | Some next =>
          leaf ← recursion_clean_retain_publish_packet next rest;
          Ok (set_leaf pattern leaf n)
      | None => Err (TopicNotFound pattern)
      end
  | [] => Ok (set_retain None n)
  end.

Fixpoint collect_retain_subtree (n : TopicStorageNode) : list Packet :=
  let 'Node _ _ retain leaves := n in
  option_list retain ++ map_fold (fun _ leaf acc => collect_retain_subtree leaf ++ acc) [] leaves.

Fixpoint recursion_get_retain_packet (n : TopicStorageNode) (patterns : list string)
    : list Packet :=
  match patterns with
  | pattern :: rest =>
      if decide (pattern = "#"%string) then collect_retain_subtree n
      else if decide (pattern = "+"%string) then
        flat (fun leaf => recursion_get_retain_packet leaf rest) (leaves n)
      else
        match get_leaf pattern n with
        | Some next => recursion_get_retain_packet next rest
        | None => []
        end
  | [] => option_list (retain_publish_packet n)
  end.

(** ** The storage *)

Record TopicStorage := mkTopicStorage {
  retain_message_recorder : gmap string (gmap string (string * Z));
  topic_info_recorder : gmap string (gmap string Z);
  topic_tree : gmap string TopicStorageNode;
}.

(** [if !map.contains_key(k) { map.insert(k, v) }]. *)
Definition insert_absent {A} (k : string) (v : A) (m : gmap string A) : gmap string A :=
  match m !! k with Some _ => m | None => <[k := v]> m end.

Definition create_tenant (tenant : string) (st : TopicStorage) : TopicStorage :=
  mkTopicStorage (insert_absent tenant ∅ (retain_message_recorder st))
    (insert_absent tenant ∅ (topic_info_recorder st))
    (insert_absent tenant (new_node "/") (topic_tree st)).

(** [TopicStorage::new]. *)
Definition new_storage : TopicStorage := create_tenant "public" (mkTopicStorage ∅ ∅ ∅).

Definition contains_tenant (tenant : string) (st : TopicStorage) : bool :=
  bool_decide (is_Some (topic_tree st !! tenant)).

Definition get_tenant_names (st : TopicStorage) : list string := (map_to_list (topic_tree st)).*1.

Definition set_tree (tenant : string) (root : TopicStorageNode) (st : TopicStorage) : TopicStorage :=
  mkTopicStorage (retain_message_recorder st) (topic_info_recorder st)
    (<[tenant := root]> (topic_tree st)).

(** [if let Some(item) = recorder.get_mut(tenant) { item = f(item) }]. *)
Definition update_topic_info (tenant : string) (f : gmap string Z -> gmap string Z)
    (st : TopicStorage) : TopicStorage :=
  mkTopicStorage (retain_message_recorder st) (alter f tenant (topic_info_recorder st))
    (topic_tree st).
Definition update_retain_info (tenant : string)
    (f : gmap string (string * Z) -> gmap string (string * Z)) (st : TopicStorage) : TopicStorage :=
  mkTopicStorage (alter f tenant (retain_message_recorder st)) (topic_info_recorder st)
    (topic_tree st).

Definition subscribe_with_options (tenant_id client topic_filter : string) (qos : Z)
    (no_local retain_as_published : bool) (st : TopicStorage)
    : outcome TopicStorageError TopicStorage :=
  shared ← map_err (fun e => InvalidTopicFilter (shared_error_to_string e))
             (parse_shared_subscription_filter topic_filter);
  let '(store_filter, shared_group) :=
    match shared with
    | Some s => (sf_topic_filter s, Some (share_name s))
    | None => (topic_filter, None)
    end in
  if negb (test_topic store_filter) then Err (InvalidTopicFilter store_filter)
  else
    match topic_tree st !! tenant_id with
    | Some root =>
        let root := recursion_subscribe root (split_slash store_filter)
          (mkSubscription client qos no_local retain_as_published shared_group store_filter) in
        Ok (update_topic_info tenant_id (insert_absent (generate_key client topic_filter) qos)
              (set_tree tenant_id root st))
    | None => Err (TenantNotFound tenant_id)
    end.

Definition subscribe (tenant_id client topic_filter : string) (qos : Z) (st : TopicStorage)
    : outcome TopicStorageError TopicStorage :=
  subscribe_with_options tenant_id client topic_filter qos false false st.

Definition unsubscribe (tenant_id client topic_filter : string) (st : TopicStorage)
    : outcome TopicStorageError TopicStorage :=
  shared ← map_err (fun e => InvalidTopicFilter (shared_error_to_string e))
             (parse_shared_subscription_filter topic_filter);
  let '(store_filter, node_keys, expected_shared_group) :=
    match shared with
    | Some s =>
        (sf_topic_filter s, [shared_subscription_key client (share_name s)], Some (share_name s))
    | None =>
        (topic_filter,
         [normal_subscription_key client; legacy_normal_subscription_key client], None)
    end in
  match topic_tree st !! tenant_id with
  | Some root =>
      root ← recursion_unsubscription root (split_slash store_filter) node_keys client
               expected_shared_group;
      Ok (update_topic_info tenant_id (delete (generate_key client topic_filter))
            (set_tree tenant_id root st))
  | None => Err (TenantNotFound tenant_id)
  end.

Definition get_subscriptions (tenant_id msg_topic : string) (st : TopicStorage)
    : outcome TopicStorageError (list Subscription) :=
  match topic_tree st !! tenant_id with
  | Some root => Ok (recursion_get_subscriptions root (split_slash msg_topic))
  | None => Err (TenantNotFound tenant_id)
  end.

Definition clean_retain_publish_packet (tenant_id topic_filter : string) (st : TopicStorage)
    : outcome TopicStorageError TopicStorage :=
  match topic_tree st !! tenant_id with
  | Some root =>
      root ← recursion_clean_retain_publish_packet root (split_slash topic_filter);
      Ok (update_retain_info tenant_id (delete topic_filter) (set_tree tenant_id root st))
  | None => Err (TenantNotFound tenant_id)
  end.

Definition get_retain_publish_packet (now : Z) (tenant_id topic_filter : string)
    (st : TopicStorage) : outcome TopicStorageError (list Packet) :=
  if negb (test_topic topic_filter) then Err (InvalidTopicFilter topic_filter)
  else
    match topic_tree st !! tenant_id with
    | Some root =>
        Ok (filter (fun packet => is_packet_expired packet now = false)
              (recursion_get_retain_packet root (split_slash topic_filter)))
    | None => Err (TenantNotFound tenant_id)
    end.

Definition register_retain_publish_packet (tenant_id source_client_identifier : string)
    (publish_packet : Packet) (st : TopicStorage) : outcome TopicStorageError TopicStorage :=
  match publish_packet with
  | PPublish p =>
      let topic_filter := pb_topic_name p in
      if negb (test_topic topic_filter) then Err (InvalidTopicFilter topic_filter)
      else
        match topic_tree st !! tenant_id with
        | Some root =>
            let root := recursion_retain_publish_packet root (split_slash topic_filter) (PPublish p) in
            Ok (update_retain_info tenant_id
                  (<[topic_filter := (source_client_identifier, pb_qos p)]>)
                  (set_tree tenant_id root st))
        | None => Err (TenantNotFound tenant_id)
        end
  | _ => Ok st
  end.

(** ** Snapshots *)

(** [SerializableTopicStorageNode]: a node without its locks. *)
Inductive SerializableTopicStorageNode := SNode
  (topic_parttern : string)
  (subscriptions : gmap string Subscription)
  (retain_publish_packet : option Packet)
  (leaves : gmap string SerializableTopicStorageNode).

Fixpoint node_to_serializable (n : TopicStorageNode) : SerializableTopicStorageNode :=
  let 'Node p s r l := n in SNode p s r (node_to_serializable <$> l).

(** [.map(|(_, v)| (v.node_key(), v)).collect()]: the keys are computed anew. *)
Definition rekey (subs : gmap string Subscription) : gmap string Subscription :=
  foldl (fun m '(_, v) => <[node_key v := v]> m) ∅ (map_to_list subs).

Fixpoint node_from_serializable (data : SerializableTopicStorageNode) : TopicStorageNode :=
  let 'SNode p s r l := data in Node p (rekey s) r (node_from_serializable <$> l).

Record SerializableTopicStorage := mkSerializableTopicStorage {
  ser_retain_message_recorder : gmap string (gmap string (string * Z));
  ser_topic_info_recorder : gmap string (gmap string Z);
  ser_topic_tree : gmap string SerializableTopicStorageNode;
}.

Definition to_serializable (st : TopicStorage) : SerializableTopicStorage :=
  mkSerializableTopicStorage (retain_message_recorder st) (topic_info_recorder st)
    (node_to_serializable <$> topic_tree st).

Definition from_serializable (data : SerializableTopicStorage) : TopicStorage :=
  mkTopicStorage (ser_retain_message_recorder data) (ser_topic_info_recorder data)
    (node_from_serializable <$> ser_topic_tree data).

(** ** The listings of the REST interface *)

(** [decode(..).expect(..)] and [from_utf8(..).expect(..)] panic. *)
Definition decode_part {Err} (s : string) : outcome Err string :=
  match b64_decode s with
  | Some l => match from_utf8 l with Some t => Ok t | None => Panic end
  | None => Panic
  end.

Definition extract_info_from_key {Err} (key : string) : outcome Err (string * string) :=
  let parts := split_on ":" key in
  client_id ← decode_part (nth 0 parts ""%string);
  topic ← decode_part (nth 1 parts ""%string);
  Ok (client_id, topic).

(** [iter().skip(offset).take(limit)] over a map. *)
Definition page {A} (offset limit : Z) (m : gmap string A) : list (string * A) :=
  take (Z.to_nat limit) (drop (Z.to_nat offset) (map_to_list m)).

Definition get_retain_message_list_with_pagination (tenant_identifier : string) (offset limit : Z)
    (st : TopicStorage) : outcome TopicStorageError (Z * list (string * string * Z)) :=
  match retain_message_recorder st !! tenant_identifier with
  | None => Err (TenantNotFound tenant_identifier)
  | Some m =>
      Ok (zlen (map_to_list m),
          map (fun '(topic_filter, (client_id, qos)) => (topic_filter, client_id, qos))
            (page offset limit m))
  end.

Definition get_topic_list_with_pagination (tenant_id : string) (offset limit : Z)
    (st : TopicStorage) : outcome TopicStorageError (Z * list (string * string * Z)) :=
  match topic_info_recorder st !! tenant_id with
  | Some items =>
      result_items ← try_collect (fun '(key, qos) =>
        '(client_id, topic) ← extract_info_from_key key;
        Ok (client_id, topic, qos)) (page offset limit items);
      Ok (zlen (map_to_list items), result_items)
  | None => Err (TenantNotFound tenant_id)
  end.

End Operations.
