(* ===== verification/TopicTree.v ===== *)
(** * The topic tree as a table

    What a tree holds at a path, how each operation changes it, and what the two
    queries, the subscriptions for a topic and the retained messages for a filter,
    list of it. *)

From S2P Require Import Prelude Enumerate Utf8 Packet MessageExpiry TopicFilter TopicStorage.
From Stdlib Require Import Ascii.
From Stdlib Require String.

(** ** Paths *)

Fixpoint node_at (n : TopicStorageNode) (path : list string) : option TopicStorageNode :=
  match path with
  | [] => Some n
  | p :: rest => get_leaf p n ≫= fun leaf => node_at leaf rest
  end.

Definition subs_at (n : TopicStorageNode) (path : list string) : gmap string Subscription :=
  from_option subscriptions ∅ (node_at n path).
Definition retain_at (n : TopicStorageNode) (path : list string) : option Packet :=
  node_at n path ≫= retain_publish_packet.

Lemma node_at_new p path : path <> [] -> node_at (new_node p) path = None.
Proof. destruct path; [done|]. intros _. simpl. unfold get_leaf. simpl. by rewrite lookup_empty. Qed.

Lemma subs_at_new p path : subs_at (new_node p) path = ∅.
Proof. destruct path; [done|]. unfold subs_at. by rewrite node_at_new. Qed.
Lemma retain_at_new p path : retain_at (new_node p) path = None.
Proof. destruct path; [done|]. unfold retain_at. by rewrite node_at_new. Qed.

Lemma subs_at_cons n p path :
  subs_at n (p :: path) = from_option (fun leaf => subs_at leaf path) ∅ (get_leaf p n).
Proof. unfold subs_at. simpl. by destruct (get_leaf p n). Qed.
Lemma retain_at_cons n p path :
  retain_at n (p :: path) = get_leaf p n ≫= fun leaf => retain_at leaf path.
Proof. unfold retain_at. simpl. by destruct (get_leaf p n). Qed.

(** A leaf that was not there reads as a leaf that has just been made. *)
Lemma subs_at_leaf n p path :
  subs_at (find_or_create_leaf p n) path = subs_at n (p :: path).
Proof.
  rewrite subs_at_cons. unfold find_or_create_leaf, get_leaf.
  destruct (leaves n !! p); [done|apply subs_at_new].
Qed.
Lemma retain_at_leaf n p path :
  retain_at (find_or_create_leaf p n) path = retain_at n (p :: path).
Proof.
  rewrite retain_at_cons. unfold find_or_create_leaf, get_leaf.
  destruct (leaves n !! p); [done|apply retain_at_new].
Qed.

Lemma get_leaf_set p q leaf n :
  get_leaf p (set_leaf q leaf n) = if decide (p = q) then Some leaf else get_leaf p n.
Proof.
  destruct n as [? ? ? l]. unfold get_leaf. simpl.
  case_decide; subst; [apply lookup_insert_eq|by apply lookup_insert_ne].
Qed.
Lemma set_leaf_node p leaf n :
  subscriptions (set_leaf p leaf n) = subscriptions n /\
  retain_publish_packet (set_leaf p leaf n) = retain_publish_packet n.
Proof. by destruct n. Qed.

Lemma subs_at_set_leaf p leaf n path :
  subs_at (set_leaf p leaf n) path =
    match path with
    | q :: rest => if decide (q = p) then subs_at leaf rest else subs_at n path
    | [] => subs_at n []
    end.
Proof.
  destruct path as [|q rest]; [apply set_leaf_node|].
  rewrite !subs_at_cons, get_leaf_set. by case_decide.
Qed.
Lemma retain_at_set_leaf p leaf n path :
  retain_at (set_leaf p leaf n) path =
    match path with
    | q :: rest => if decide (q = p) then retain_at leaf rest else retain_at n path
    | [] => retain_at n []
    end.
Proof.
  destruct path as [|q rest]; [apply set_leaf_node|].
  rewrite !retain_at_cons, get_leaf_set. by case_decide.
Qed.

(** ** What the operations do to the table *)

Section Effects.
Context {E : Base64}.

Lemma recursion_subscribe_subs path s n path' :
  subs_at (recursion_subscribe n path s) path' =
    if decide (path' = path) then <[node_key s := s]> (subs_at n path) else subs_at n path'.
Proof.
  revert n path'. induction path as [|p path IH]; intros n path'; simpl.
  - destruct path' as [|q path'].
    + rewrite decide_True by done. by destruct n.
    + rewrite decide_False by done. by destruct n.
  - rewrite subs_at_set_leaf. destruct path' as [|q path']; [by rewrite decide_False by done|].
    rewrite IH, !subs_at_leaf. repeat case_decide; naive_solver.
Qed.

Lemma recursion_subscribe_retain path s n path' :
  retain_at (recursion_subscribe n path s) path' = retain_at n path'.
Proof.
  revert n path'. induction path as [|p path IH]; intros n path'; simpl.
  - by destruct n, path'.
  - rewrite retain_at_set_leaf. destruct path' as [|q path']; [done|].
    rewrite IH, retain_at_leaf. case_decide; by subst.
Qed.

Lemma recursion_retain_retain path p n path' :
  retain_at (recursion_retain_publish_packet n path p) path' =
    if decide (path' = path) then Some p else retain_at n path'.
Proof.
  revert n path'. induction path as [|q path IH]; intros n path'; simpl.
  - destruct path' as [|q path'].
    + rewrite decide_True by done. by destruct n.
    + rewrite decide_False by done. by destruct n.
  - rewrite retain_at_set_leaf. destruct path' as [|q' path']; [by rewrite decide_False by done|].
    rewrite IH, !retain_at_leaf. repeat case_decide; naive_solver.
Qed.

Lemma recursion_retain_subs path p n path' :
  subs_at (recursion_retain_publish_packet n path p) path' = subs_at n path'.
Proof.
  revert n path'. induction path as [|q path IH]; intros n path'; simpl.
  - by destruct n, path'.
  - rewrite subs_at_set_leaf. destruct path' as [|q' path']; [done|].
    rewrite IH, subs_at_leaf. case_decide; by subst.
Qed.

(** The two operations that only walk down: they fail where the path leaves the tree. *)
Lemma recursion_unsubscription_spec path keys c g n :
  match recursion_unsubscription n path keys c g with
  | Ok n' =>
      (forall path', subs_at n' path' =
        if decide (path' = path)
        then foldl (remove_subscription c g) (subs_at n path) keys else subs_at n path') /\
      (forall path', retain_at n' path' = retain_at n path')
  | Err _ => node_at n path = None
  | _ => False
  end.
Proof.
  revert n. induction path as [|p path IH]; intros n; simpl.
  - split; intros [|q path']; by destruct n.
  - destruct (get_leaf p n) as [leaf|] eqn:Hl; [|done]. specialize (IH leaf).
    destruct (recursion_unsubscription leaf path keys c g) as [leaf'|e| |]; simpl; try done.
    destruct IH as [IHs IHr]. split; intros [|q path'].
    + rewrite subs_at_set_leaf. by rewrite decide_False by done.
    + rewrite subs_at_set_leaf, !subs_at_cons, IHs, Hl. simpl.
      repeat case_decide; simplify_eq/=; try done. by rewrite Hl.
    + by rewrite retain_at_set_leaf.
    + rewrite retain_at_set_leaf, IHr. case_decide; [|done]. subst. by rewrite retain_at_cons, Hl.
Qed.

Lemma recursion_clean_spec path n :
  match recursion_clean_retain_publish_packet n path with
  | Ok n' =>
      (forall path', subs_at n' path' = subs_at n path') /\
      (forall path', retain_at n' path' =
        if decide (path' = path) then None else retain_at n path')
  | Err _ => node_at n path = None
  | _ => False
  end.
Proof.
  revert n. induction path as [|p path IH]; intros n; simpl.
  - split; intros [|q path']; by destruct n.
  - destruct (get_leaf p n) as [leaf|] eqn:Hl; [|done]. specialize (IH leaf).
    destruct (recursion_clean_retain_publish_packet leaf path) as [leaf'|e| |]; simpl; try done.
    destruct IH as [IHs IHr]. split; intros [|q path'].
    + by rewrite subs_at_set_leaf.
    + rewrite subs_at_set_leaf, IHs. case_decide; [|done]. subst. by rewrite subs_at_cons, Hl.
    + rewrite retain_at_set_leaf. by rewrite decide_False by done.
    + rewrite retain_at_set_leaf, IHr, !retain_at_cons.
      repeat case_decide; simplify_eq/=; try done. by rewrite Hl.
Qed.
End Effects.

(** ** Matching *)

(** A filter's levels against a topic's, as the walk over the tree decides it. *)
Fixpoint matches (filter topic : list string) : bool :=
  match filter, topic with
  | [], [] => true
  | f :: fs, t :: ts =>
      bool_decide (f = "#"%string /\ fs = []) || (bool_decide (f = "+"%string \/ f = t) && matches fs ts)
  | _, _ => false
  end.

(** The same for retained messages: the number sign takes the parent level too. *)
Fixpoint retain_matches (filter topic : list string) : bool :=
  match filter, topic with
  | f :: fs, _ =>
      if decide (f = "#"%string) then true
      else match topic with
           | t :: ts => bool_decide (f = "+"%string \/ f = t) && retain_matches fs ts
           | [] => false
           end
  | [], [] => true
  | [], _ => false
  end.

Lemma retain_matches_cons f fs p path :
  f <> "#"%string ->
  retain_matches (f :: fs) (p :: path) = true <->
  (f = "+"%string \/ f = p) /\ retain_matches fs path = true.
Proof.
  intros Hf. simpl. rewrite decide_False by done. by rewrite andb_true_iff, bool_decide_eq_true.
Qed.
Lemma retain_matches_nil f fs : f <> "#"%string -> retain_matches (f :: fs) [] = false.
Proof. intros Hf. simpl. by rewrite decide_False by done. Qed.

(** A topic name: no level of it is a wildcard. *)
Definition no_wildcard (topic : list string) : Prop :=
  Forall (fun l => l <> "#"%string /\ l <> "+"%string) topic.

(** ** What the queries list *)

(** An entry of the table: the levels of the filter and the key at their node. *)
Definition sub_entry (n : TopicStorageNode) (Q : list string -> Prop)
    (pk : list string * string) (s : Subscription) : Prop :=
  Q pk.1 /\ subs_at n pk.1 !! pk.2 = Some s.

Lemma leaf_enumerates n p (f : TopicStorageNode -> list Subscription) (Q : list string -> Prop) :
  (forall leaf, enumerates (sub_entry leaf Q) (f leaf)) ->
  enumerates (sub_entry n (fun path => exists rest, path = p :: rest /\ Q rest))
    (match get_leaf p n with Some leaf => f leaf | None => [] end).
Proof.
  intros Hf. destruct (get_leaf p n) as [leaf|] eqn:Hl.
  - eapply (enumerates_rekey (fun pk => (p :: pk.1, pk.2))); [|apply Hf|].
    { intros [] [] [= -> ->]. done. }
    intros [path k] s. unfold sub_entry. simpl. split.
    + intros [(rest & -> & HQ) Hs]. exists (rest, k). rewrite subs_at_cons, Hl in Hs. done.
    + intros ([rest k'] & [= -> ->] & HQ & Hs). rewrite subs_at_cons, Hl. eauto.
  - apply enumerates_nil. intros [path k] s [(rest & Hp & _) Hs]. simpl in *. subst.
    rewrite subs_at_cons, Hl in Hs. simpl in Hs. by rewrite lookup_empty in Hs.
Qed.

Lemma node_enumerates n : enumerates (sub_entry n (fun path => path = [])) (node_subscriptions n).
Proof.
  eapply (enumerates_rekey (pair [])); [|apply enumerates_values|].
  { intros ? ? [= ->]. done. }
  intros [path k] s. unfold sub_entry. simpl. split.
  - intros [-> Hs]. exists k. done.
  - intros (k' & [= -> ->] & Hs). done.
Qed.

(** The walk lists each subscription whose filter matches the topic once. *)
Lemma get_subscriptions_enumerates topic n :
  no_wildcard topic ->
  enumerates (sub_entry n (fun path => matches path topic = true))
    (recursion_get_subscriptions n topic).
Proof.
  intros Ht. revert n. induction Ht as [|t ts [Hsharp Hplus] _ IH]; intros n; simpl.
  - eapply enumerates_iff; [|apply node_enumerates].
    intros [path k] s. unfold sub_entry. simpl. destruct path; naive_solver.
  - eapply enumerates_app;
      [apply (leaf_enumerates n "#" _ _ node_enumerates)
      |apply (enumerates_or _ _ _ _ (leaf_enumerates n "+" _ _ IH) (leaf_enumerates n t _ _ IH))
      |..]; unfold sub_entry.
    + intros [path k] s [(? & Hp & _) _] [(? & Hp' & _) _]. simpl in *. congruence.
    + intros [path k] s [(? & Hp & _) _] [[(? & Hp' & _) _]|[(? & Hp' & _) _]]; simpl in *; congruence.
    + intros [path k] s. simpl. destruct path as [|f fs]; simpl.
      { naive_solver. }
      rewrite orb_true_iff, andb_true_iff, !bool_decide_eq_true. naive_solver.
Qed.

(** *** Retained messages *)

(** The depth of a tree, for inductions over its nodes. *)
Fixpoint height (n : TopicStorageNode) : nat :=
  let 'Node _ _ _ l := n in S (map_fold (fun _ leaf acc => Nat.max (height leaf) acc) 0%nat l).

Lemma height_leaf n p leaf : get_leaf p n = Some leaf -> (height leaf < height n)%nat.
Proof.
  destruct n as [q s r l]. unfold get_leaf. simpl. intros Hp.
  enough (height leaf <= map_fold (fun _ leaf acc => Nat.max (height leaf) acc) 0%nat l)%nat by lia.
  revert Hp. induction l as [|k v m Hk IH] using map_ind; [by rewrite lookup_empty|].
  rewrite map_fold_insert_L by (first [done|intros; lia]).
  destruct (decide (k = p)) as [->|Hne].
  - rewrite lookup_insert_eq. intros [= ->]. lia.
  - rewrite lookup_insert_ne by done. intros ?%IH. lia.
Qed.

Lemma node_induction (P : TopicStorageNode -> Prop) :
  (forall n, (forall p leaf, get_leaf p n = Some leaf -> P leaf) -> P n) -> forall n, P n.
Proof.
  intros H n. induction n as [n IH] using (induction_ltof1 _ height).
  apply H. intros p leaf Hl. by apply IH, (height_leaf n p).
Qed.

Definition retain_entry (n : TopicStorageNode) (Q : list string -> Prop)
    (path : list string) (p : Packet) : Prop := Q path /\ retain_at n path = Some p.

Lemma collect_retain_enumerates n :
  enumerates (retain_entry n (fun _ => True)) (collect_retain_subtree n).
Proof.
  induction n as [n IH] using node_induction. destruct n as [q s r l]. cbn [collect_retain_subtree].
  rewrite map_fold_flat. eapply enumerates_app.
  - by apply (enumerates_option (fun path p => path = [] /\ r = Some p) []).
  - apply (enumerates_flat _ (fun p leaf path a => exists rest, path = p :: rest /\
      retain_entry leaf (fun _ => True) rest a)
      (fun path a => path <> [] /\ retain_at (Node q s r l) path = Some a)).
    + intros p leaf Hl. eapply (enumerates_rekey (cons p)); [|by apply (IH p)|done].
      intros ? ? [= ->]. done.
    + intros p leaf p' leaf' path a (? & -> & _) (? & [= -> _] & _). done.
    + intros path a. unfold retain_entry. destruct path as [|p path].
      { split; [by intros []|naive_solver]. }
      rewrite retain_at_cons. unfold get_leaf. simpl. rewrite bind_Some. naive_solver.
  - intros path a [-> _] [? _]. done.
  - intros path a. unfold retain_entry. destruct path; [|naive_solver].
    unfold retain_at. simpl. naive_solver.
Qed.

(** The lookup lists each retained message whose topic the filter matches once. *)
Lemma get_retain_enumerates filter n :
  enumerates (retain_entry n (fun path => retain_matches filter path = true))
    (recursion_get_retain_packet n filter).
Proof.
  revert n. induction filter as [|f fs IH]; intros n; cbn [recursion_get_retain_packet].
  - apply (enumerates_option _ []). intros path a. unfold retain_entry, retain_at.
    destruct path; simpl; naive_solver.
  - destruct (decide (f = "#"%string)) as [->|Hsharp].
    { eapply enumerates_iff; [|apply collect_retain_enumerates].
      intros path a. unfold retain_entry. simpl. tauto. }
    destruct (decide (f = "+"%string)) as [->|Hplus].
    + apply (enumerates_flat _ (fun p leaf path a => exists rest, path = p :: rest /\
        retain_entry leaf (fun path => retain_matches fs path = true) rest a)).
      * intros p leaf Hl. eapply (enumerates_rekey (cons p)); [|apply IH|done].
        intros ? ? [= ->]. done.
      * intros p leaf p' leaf' path a (? & -> & _) (? & [= -> _] & _). done.
      * intros path a. unfold retain_entry. destruct path as [|p path].
        { rewrite retain_matches_nil by done. naive_solver. }
        rewrite retain_at_cons, retain_matches_cons, bind_Some by done.
        unfold get_leaf. naive_solver.
    + destruct (get_leaf f n) as [leaf|] eqn:Hl.
      * eapply (enumerates_rekey (cons f)); [|apply IH|].
        { intros ? ? [= ->]. done. }
        intros path a. unfold retain_entry. destruct path as [|p path].
        { rewrite retain_matches_nil by done. naive_solver. }
        rewrite retain_at_cons, retain_matches_cons by done. split.
        -- intros [[[->| ->] Hm] Hr]; [done|]. rewrite Hl in Hr. eauto.
        -- intros (rest & [= -> ->] & Hm & Hr). rewrite Hl. auto.
      * apply enumerates_nil. intros [|p path] a [Hm Hr].
        { by rewrite retain_matches_nil in Hm by done. }
        rewrite retain_at_cons in Hr. rewrite retain_matches_cons in Hm by done.
        destruct Hm as [[->| ->] _]; [done|]. by rewrite Hl in Hr.
Qed.
