(* ===== verification/TopicSpec.v ===== *)
(** * The topic storage refines a table

    The specification of the component is a flat table: who subscribed to which
    filter, which message is retained under which topic, and what the REST listings
    show.  Every operation on the tree is simulated by one on the table, so after any
    sequence of operations the queries answer as the table does. *)

From S2P Require Import Prelude Enumerate Utf8 Packet MessageExpiry TopicFilter TopicStorage TopicTree.
From Stdlib Require Import Ascii.
From Stdlib Require String.

(** ** Keys *)

Section KeyLemmas.
Context {E : Base64} {Espec : Base64Spec E}.

Lemma b64_inj a b : b64_encode a = b64_encode b -> a = b.
Proof.
  intros H. apply as_bytes_inj. apply (f_equal b64_decode) in H.
  rewrite !b64_roundtrip in H. by injection H.
Qed.

(** The key of a client's subscription, shared in [group] or not. *)
Definition sub_key (client : string) (group : option string) : string :=
  match group with
  | Some g => shared_subscription_key client g
  | None => normal_subscription_key client
  end.

Lemma node_key_sub_key s : node_key s = sub_key (client_identifier s) (s_shared_group s).
Proof. done. Qed.

Lemma split_sub_key c g :
  split_on ":" (sub_key c g) =
    match g with
    | Some g => ["$shared"%string; b64_encode c; b64_encode g]
    | None => ["$normal"%string; b64_encode c]
    end.
Proof.
  destruct g as [g|]; unfold sub_key, shared_subscription_key, normal_subscription_key.
  - change (split_on ":" ("$shared" +:+ String.String ":" (b64_encode c +:+ String.String ":" (b64_encode g)))
      = ["$shared"%string; b64_encode c; b64_encode g]).
    rewrite (split_on_app _ "$shared"), split_on_app, split_on_none by (done || apply b64_no_colon).
    done.
  - change (split_on ":" ("$normal" +:+ String.String ":" (b64_encode c)) = ["$normal"%string; b64_encode c]).
    by rewrite (split_on_app _ "$normal"), split_on_none by (done || apply b64_no_colon).
Qed.

Lemma sub_key_inj c g c' g' : sub_key c g = sub_key c' g' -> c = c' /\ g = g'.
Proof.
  intros H. apply (f_equal (split_on ":")) in H. rewrite !split_sub_key in H.
  destruct g as [g|], g' as [g'|]; try done.
  - by injection H as ->%b64_inj ->%b64_inj.
  - by injection H as ->%b64_inj.
Qed.

Lemma split_generate_key c t : split_on ":" (generate_key c t) = [b64_encode c; b64_encode t].
Proof.
  unfold generate_key.
  change (split_on ":" (b64_encode c +:+ String.String ":" (b64_encode t)) = [b64_encode c; b64_encode t]).
  by rewrite split_on_app, split_on_none by apply b64_no_colon.
Qed.

Lemma generate_key_inj c t c' t' : generate_key c t = generate_key c' t' -> c = c' /\ t = t'.
Proof.
  intros H. apply (f_equal (split_on ":")) in H. rewrite !split_generate_key in H.
  by injection H as ->%b64_inj ->%b64_inj.
Qed.

Lemma extract_generate {Err} c t :
  is_str c -> is_str t -> extract_info_from_key (generate_key c t) = @Ok Err _ (c, t).
Proof.
  intros Hc Ht. unfold extract_info_from_key, decode_part. rewrite split_generate_key. simpl.
  by rewrite !b64_roundtrip, !from_utf8_as_bytes.
Qed.

(** Removing by key: only the client's own subscription goes. *)
Definition well_keyed (subs : gmap string Subscription) : Prop :=
  forall k s, subs !! k = Some s -> k = node_key s.

Lemma remove_subscription_keyed c g subs k :
  well_keyed subs ->
  remove_subscription c g subs k = if decide (k = sub_key c g) then delete k subs else subs.
Proof.
  intros Hk. unfold remove_subscription. destruct (subs !! k) as [s|] eqn:Hs.
  - apply Hk in Hs as Hn. rewrite node_key_sub_key in Hn.
    destruct (decide (k = sub_key c g)) as [->|Hne].
    + apply sub_key_inj in Hn as [Hc Hg]. by rewrite decide_True by done.
    + rewrite decide_False; [done|]. by intros [<- <-].
  - case_decide; [|done]. by rewrite delete_id.
Qed.

Lemma remove_keyed c g subs keys :
  well_keyed subs ->
  keys = match g with Some _ => [sub_key c g] | None => [sub_key c g; legacy_normal_subscription_key c] end ->
  foldl (remove_subscription c g) subs keys = delete (sub_key c g) subs.
Proof.
  intros Hk ->. assert (well_keyed (delete (sub_key c g) subs)) as Hk'.
  { intros k s [_ ?]%lookup_delete_Some. by apply Hk. }
  destruct g as [g|]; simpl.
  - rewrite remove_subscription_keyed, decide_True by done. done.
  - rewrite (remove_subscription_keyed _ _ subs), decide_True by done.
    rewrite remove_subscription_keyed by done. case_decide as Hd; [|done].
    rewrite Hd. by rewrite delete_delete_eq.
Qed.
End KeyLemmas.

(** ** The table *)

Record table := mkTable {
  t_tenants : gset string;
  (** by tenant, levels of the filter, client and share group *)
  t_subs : gmap (string * list string * string * option string) Subscription;
  (** by tenant and levels of the topic *)
  t_retained : gmap (string * list string) Packet;
  (** the subscription listing, by tenant, client and filter *)
  t_listed : gmap (string * string * string) Z;
  (** the listing of retained messages, by tenant and topic *)
  t_retained_listed : gmap (string * string) (string * Z);
}.

(** The filter a subscription is stored under, and its share group. *)
Definition target (filter : string) : option (string * option string) :=
  match parse_shared_subscription_filter filter with
  | Ok (Some s) => Some (sf_topic_filter s, Some (share_name s))
  | Ok None => Some (filter, None)
  | _ => None
  end.

Inductive op :=
  | CreateTenant (tenant : string)
  | Subscribe (tenant client filter : string) (qos : Z) (no_local retain_as_published : bool)
  | Unsubscribe (tenant client filter : string)
  | RegisterRetain (tenant client : string) (packet : Packet)
  | CleanRetain (tenant topic : string).

Definition spec_op (o : op) (m : table) : table :=
  match o with
  | CreateTenant t =>
      mkTable ({[t]} ∪ t_tenants m) (t_subs m) (t_retained m) (t_listed m) (t_retained_listed m)
  | Subscribe t c f q nl rap =>
      match target f with
      | Some (g, group) =>
          if decide (t ∈ t_tenants m /\ test_topic g = true) then
            mkTable (t_tenants m)
              (<[(t, split_slash g, c, group) := mkSubscription c q nl rap group g]> (t_subs m))
              (t_retained m)
              (match t_listed m !! (t, c, f) with
               | Some _ => t_listed m
               | None => <[(t, c, f) := q]> (t_listed m)
               end)
              (t_retained_listed m)
          else m
      | None => m
      end
  | Unsubscribe t c f =>
      match target f with
      | Some (g, group) =>
          mkTable (t_tenants m) (delete (t, split_slash g, c, group) (t_subs m)) (t_retained m)
            (delete (t, c, f) (t_listed m)) (t_retained_listed m)
      | None => m
      end
  | RegisterRetain t c (PPublish p) =>
      if decide (t ∈ t_tenants m /\ test_topic (pb_topic_name p) = true) then
        mkTable (t_tenants m) (t_subs m)
          (<[(t, split_slash (pb_topic_name p)) := PPublish p]> (t_retained m)) (t_listed m)
          (<[(t, pb_topic_name p) := (c, pb_qos p)]> (t_retained_listed m))
      else m
  | RegisterRetain _ _ _ => m
  | CleanRetain t f =>
      mkTable (t_tenants m) (t_subs m) (delete (t, split_slash f) (t_retained m)) (t_listed m)
        (delete (t, f) (t_retained_listed m))
  end.

Definition empty_table : table := mkTable {["public"%string]} ∅ ∅ ∅ ∅.

Definition spec_run (ops : list op) : table := foldl (fun m o => spec_op o m) empty_table ops.

Lemma target_spec f g group :
  target f = Some (g, group) ->
  f = match group with Some n => "$share/" +:+ n +:+ "/" +:+ g | None => g end%string.
Proof.
  unfold target. destruct (parse_shared_subscription_filter f) as [[[n h]|]|e| |] eqn:Hp;
    try done; simpl; intros [= <- <-]; [|done].
  by apply parse_shared_spec in Hp as [-> _].
Qed.

Lemma target_inj f f' x : target f = Some x -> target f' = Some x -> f = f'.
Proof. destruct x as [g group]. by intros ->%target_spec ->%target_spec. Qed.

(** What is listed is what is subscribed, and what is retained is what is listed so. *)
Record wf_table (m : table) : Prop := {
  wf_subs : forall t path c group s, t_subs m !! (t, path, c, group) = Some s ->
    t ∈ t_tenants m /\ client_identifier s = c /\ s_shared_group s = group /\
    path = split_slash (s_topic_filter s);
  wf_listed_target : forall t c f, is_Some (t_listed m !! (t, c, f)) -> is_Some (target f);
  wf_listed : forall t c f g group, target f = Some (g, group) ->
    is_Some (t_listed m !! (t, c, f)) <-> is_Some (t_subs m !! (t, split_slash g, c, group));
  wf_retained_tenant : forall t path p, t_retained m !! (t, path) = Some p -> t ∈ t_tenants m;
  wf_retained_topic : forall t path pk, t_retained m !! (t, path) = Some pk ->
    exists p, pk = PPublish p /\ path = split_slash (pb_topic_name p);
  wf_retained_listed : forall t f,
    is_Some (t_retained_listed m !! (t, f)) <-> is_Some (t_retained m !! (t, split_slash f));
}.

Lemma wf_subscribe t c f q nl rap m : wf_table m -> wf_table (spec_op (Subscribe t c f q nl rap) m).
Proof.
  intros [Hs Ht Hl Hr Hrt Hrl]. simpl. destruct (target f) as [[g group]|] eqn:Hf; [|by constructor].
  case_decide as Hd; [|by constructor]. destruct Hd as [Htn Htest].
  assert (forall k, is_Some (match t_listed m !! (t, c, f) with Some _ => t_listed m
    | None => <[(t, c, f) := q]> (t_listed m) end !! k) <-> k = (t, c, f) \/ is_Some (t_listed m !! k)) as Hk.
  { intros k. destruct (t_listed m !! (t, c, f)) eqn:E.
    - split; [by right|]. intros [->|H]; [by rewrite E|done].
    - rewrite lookup_insert_is_Some. destruct (decide (k = (t, c, f))); naive_solver. }
  constructor; simpl; try done.
  - intros t' path c' group' s. rewrite lookup_insert_Some. intros [[[= <- <- <- <-] <-]|[_ H]]; [done|].
    by apply Hs.
  - intros t' c' f' [[= -> -> ->]|H]%Hk; [by rewrite Hf|by eapply Ht].
  - intros t' c' f' g' group' Hf'. rewrite Hk, lookup_insert_is_Some, (Hl t' c' f' g' group' Hf').
    destruct (decide ((t, split_slash g, c, group) = (t', split_slash g', c', group'))) as [Heq|Hne].
    + injection Heq as -> Hg -> ->. apply split_inj in Hg as ->.
      rewrite (target_inj f' f _ Hf' Hf). naive_solver.
    + split; [intros [[= -> -> ->]|]|]; [|tauto..]. congruence.
Qed.

Lemma wf_unsubscribe t c f m : wf_table m -> wf_table (spec_op (Unsubscribe t c f) m).
Proof.
  intros [Hs Ht Hl Hr Hrt Hrl]. simpl. destruct (target f) as [[g group]|] eqn:Hf; [|by constructor].
  constructor; simpl; try done.
  - intros t' path c' group' s [_ H]%lookup_delete_Some. by apply Hs.
  - intros t' c' f' [_ H]%lookup_delete_is_Some. by eapply Ht.
  - intros t' c' f' g' group' Hf'. rewrite !lookup_delete_is_Some, (Hl t' c' f' g' group' Hf').
    split; intros [Hne H]; split; try done; contradict Hne.
    + injection Hne as -> Hg -> ->. apply split_inj in Hg as ->. by rewrite (target_inj f' f _ Hf' Hf).
    + injection Hne as -> -> ->. congruence.
Qed.

Lemma wf_retain_ops o m :
  match o with RegisterRetain _ _ _ | CleanRetain _ _ => True | _ => False end ->
  wf_table m -> wf_table (spec_op o m).
Proof.
  intros Ho [Hs Ht Hl Hr Hrt Hrl]. destruct o as [| | |t c p|t f]; try done; simpl.
  - destruct p; try by constructor. case_decide as Hd; [|by constructor].
    constructor; simpl; try done.
    + intros t' path p'. rewrite lookup_insert_Some. intros [[[= <- <-] _]|[_ H]]; [tauto|].
      by eapply Hr.
    + intros t' path p'. rewrite lookup_insert_Some. intros [[[= <- <-] <-]|[_ H]]; [by eexists|].
      by eapply Hrt.
    + intros t' f'. rewrite !lookup_insert_is_Some, Hrl. split.
      * intros [[= <- <-]|[Hne H]]; [by left|]. right. split; [|done]. contradict Hne.
        injection Hne as -> Heq. by apply split_inj in Heq as ->.
      * intros [[= <- Heq]|[Hne H]]; [apply split_inj in Heq as ->; by left|]. right.
        split; [|done]. contradict Hne. congruence.
  - constructor; simpl; try done.
    + intros t' path p' [_ H]%lookup_delete_Some. by eapply Hr.
    + intros t' path p' [_ H]%lookup_delete_Some. by eapply Hrt.
    + intros t' f'. rewrite !lookup_delete_is_Some, Hrl.
      split; intros [Hne H]; split; try done; contradict Hne.
      * injection Hne as -> Heq. by apply split_inj in Heq as ->.
      * congruence.
Qed.

Lemma wf_spec_op o m : wf_table m -> wf_table (spec_op o m).
Proof.
  intros Hm. destruct o; [|by apply wf_subscribe|by apply wf_unsubscribe|by apply wf_retain_ops..].
  destruct Hm as [Hs Ht Hl Hr Hrt Hrl]. constructor; simpl; try done.
  - intros t path c group s H. rewrite elem_of_union. naive_solver.
  - intros t path p H. rewrite elem_of_union. right. by eapply Hr.
Qed.

Lemma wf_spec_run ops : wf_table (spec_run ops).
Proof.
  unfold spec_run. assert (wf_table empty_table) as H.
  { constructor; simpl; intros *; rewrite ?lookup_empty; try done; by intros [? ?]. }
  revert H. generalize empty_table. induction ops as [|o ops IH]; intros m Hm; simpl; [done|].
  by apply IH, wf_spec_op.
Qed.

(** ** The simulation *)

Section Refinement.
Context {E : Base64} {Espec : Base64Spec E}.

Definition exec (o : op) (st : TopicStorage) : outcome TopicStorageError TopicStorage :=
  match o with
  | CreateTenant t => Ok (create_tenant t st)
  | Subscribe t c f q nl rap => subscribe_with_options t c f q nl rap st
  | Unsubscribe t c f => unsubscribe t c f st
  | RegisterRetain t c p => register_retain_publish_packet t c p st
  | CleanRetain t f => clean_retain_publish_packet t f st
  end.

(** An operation that fails leaves the storage as it is. *)
Definition exec_state (o : op) (st : TopicStorage) : TopicStorage :=
  match exec o st with Ok st' => st' | _ => st end.

Definition run (ops : list op) : TopicStorage := foldl (fun st o => exec_state o st) new_storage ops.

(** One tenant's tree and recorders hold what the table holds for it. *)
Record tenant_refines (t : string) (root : TopicStorageNode) (items : gmap string Z)
    (ritems : gmap string (string * Z)) (m : table) : Prop := {
  tr_subs : forall path c g, subs_at root path !! sub_key c g = t_subs m !! (t, path, c, g);
  tr_keyed : forall path, well_keyed (subs_at root path);
  tr_retained : forall path, retain_at root path = t_retained m !! (t, path);
  tr_listed : forall c f, items !! generate_key c f = t_listed m !! (t, c, f);
  tr_listed_keys : forall k q, items !! k = Some q -> exists c f, k = generate_key c f;
  tr_rlisted : forall f, ritems !! f = t_retained_listed m !! (t, f);
}.

Definition refines (st : TopicStorage) (m : table) : Prop :=
  forall t,
    if decide (t ∈ t_tenants m) then
      exists root items ritems, topic_tree st !! t = Some root /\
        topic_info_recorder st !! t = Some items /\ retain_message_recorder st !! t = Some ritems /\
        tenant_refines t root items ritems m
    else topic_tree st !! t = None /\ topic_info_recorder st !! t = None /\
      retain_message_recorder st !! t = None.

(** The tables agree on a tenant. *)
Definition same_tenant (t : string) (m m' : table) : Prop :=
  (forall path c g, t_subs m' !! (t, path, c, g) = t_subs m !! (t, path, c, g)) /\
  (forall path, t_retained m' !! (t, path) = t_retained m !! (t, path)) /\
  (forall c f, t_listed m' !! (t, c, f) = t_listed m !! (t, c, f)) /\
  (forall f, t_retained_listed m' !! (t, f) = t_retained_listed m !! (t, f)).

Lemma tenant_refines_same t root items ritems m m' :
  same_tenant t m m' -> tenant_refines t root items ritems m -> tenant_refines t root items ritems m'.
Proof.
  intros (S1 & S2 & S3 & S4) []. constructor; intros; rewrite ?S1, ?S2, ?S3, ?S4; eauto.
Qed.

(** An operation that changes one tenant is checked on that tenant. *)
Lemma refines_update st st' m m' t root items ritems :
  refines st m -> t ∈ t_tenants m -> t_tenants m' = t_tenants m ->
  (forall t', t' <> t -> same_tenant t' m m') ->
  topic_tree st' = <[t := root]> (topic_tree st) ->
  topic_info_recorder st' = <[t := items]> (topic_info_recorder st) ->
  retain_message_recorder st' = <[t := ritems]> (retain_message_recorder st) ->
  tenant_refines t root items ritems m' -> refines st' m'.
Proof.
  intros HR Ht Htn Hs E1 E2 E3 Hnew t'. specialize (HR t'). rewrite Htn, E1, E2, E3.
  destruct (decide (t' = t)) as [->|Hne].
  - rewrite decide_True by done. exists root, items, ritems. by rewrite !lookup_insert_eq.
  - rewrite !lookup_insert_ne by done. case_decide; [|done].
    destruct HR as (r & i & ri & ? & ? & ? & Hr). exists r, i, ri. split_and!; try done.
    apply (tenant_refines_same _ _ _ _ m); auto.
Qed.

Lemma alter_Some {A} (f : A -> A) (m : gmap string A) k x :
  m !! k = Some x -> alter f k m = <[k := f x]> m.
Proof.
  intros Hk. apply map_eq. intros j. destruct (decide (k = j)) as [<-|Hne].
  - by rewrite lookup_alter_eq, lookup_insert_eq, Hk.
  - by rewrite lookup_alter_ne, lookup_insert_ne.
Qed.

Lemma refines_present st m t root :
  refines st m -> topic_tree st !! t = Some root ->
  t ∈ t_tenants m /\ exists items ritems, topic_info_recorder st !! t = Some items /\
    retain_message_recorder st !! t = Some ritems /\ tenant_refines t root items ritems m.
Proof.
  intros HR Ht. specialize (HR t). case_decide; [|naive_solver]. split; [done|].
  destruct HR as (r & i & ri & Hr & ? & ? & ?). rewrite Ht in Hr. injection Hr as <-. eauto.
Qed.

Lemma refines_absent st m t : refines st m -> topic_tree st !! t = None <-> t ∉ t_tenants m.
Proof. intros HR. specialize (HR t). case_decide; naive_solver. Qed.

Lemma refines_create_tenant t st m :
  refines st m -> wf_table m -> refines (create_tenant t st) (spec_op (CreateTenant t) m).
Proof.
  intros HR Hwf t'. pose proof (HR t') as Ht'. simpl. unfold insert_absent.
  destruct (decide (t' = t)) as [->|Hne].
  - rewrite decide_True by set_solver. case_decide as Hin.
    + destruct Ht' as (r & i & ri & Hr & Hi & Hri & Htr). exists r, i, ri. rewrite Hr, Hi, Hri.
      split_and!; try done. by apply (tenant_refines_same _ _ _ _ m).
    + destruct Ht' as (-> & -> & ->). exists (new_node "/"), ∅, ∅.
      rewrite !lookup_insert_eq. split_and!; try done.
      destruct Hwf as [Hs Hlt Hl Hr Hrt Hrl].
      assert (forall path c g, t_subs m !! (t, path, c, g) = None) as Hs'.
      { intros. apply eq_None_not_Some. by intros [s [? _]%Hs]. }
      assert (forall path, t_retained m !! (t, path) = None) as Hr'.
      { intros. apply eq_None_not_Some. by intros [p ?%Hr]. }
      constructor; simpl; intros *; rewrite ?subs_at_new, ?retain_at_new, ?lookup_empty.
      * by rewrite Hs'.
      * intros k s. by rewrite lookup_empty.
      * by rewrite Hr'.
      * symmetry. apply eq_None_not_Some. intros Hsome. destruct (Hlt t c f Hsome) as [[g grp] Hf].
        pose proof (proj1 (Hl _ c f g grp Hf) Hsome) as [s Hsub]. by rewrite Hs' in Hsub.
      * done.
      * symmetry. apply eq_None_not_Some. intros [p Hp]%Hrl. by rewrite Hr' in Hp.
  - assert (t' ∈ {[t]} ∪ t_tenants m <-> t' ∈ t_tenants m) as Hiff by set_solver.
    assert (forall A (x : A) (mm : gmap string A),
      match mm !! t with Some _ => mm | None => <[t := x]> mm end !! t' = mm !! t') as Hl.
    { intros A x mm. destruct (mm !! t); [done|]. by rewrite lookup_insert_ne. }
    rewrite !Hl. rewrite (decide_ext _ _ _ _ Hiff). case_decide; [|done].
    destruct Ht' as (r & i & ri & ? & ? & ? & ?). exists r, i, ri. split_and!; try done.
    by apply (tenant_refines_same _ _ _ _ m).
Qed.

(** The lookups of a table after one of its entries changed. *)
Ltac other_tenant := split_and!; intros; simpl;
  rewrite ?lookup_insert_ne, ?lookup_delete_ne by congruence; done.

(** Subscribing, on the tenant's part of the table. *)
Definition table_subscribe (t c f : string) (s : Subscription) (m : table) : table :=
  mkTable (t_tenants m)
    (<[(t, split_slash (s_topic_filter s), c, s_shared_group s) := s]> (t_subs m)) (t_retained m)
    (match t_listed m !! (t, c, f) with
     | Some _ => t_listed m
     | None => <[(t, c, f) := s_qos s]> (t_listed m)
     end)
    (t_retained_listed m).

Lemma tenant_subscribe t c f s root items ritems m :
  client_identifier s = c -> tenant_refines t root items ritems m ->
  tenant_refines t (recursion_subscribe root (split_slash (s_topic_filter s)) s)
    (insert_absent (generate_key c f) (s_qos s) items) ritems (table_subscribe t c f s m).
Proof.
  intros Hc [Hs Hk Hr Hl Hlk Hrl]. constructor; simpl; try done.
  - intros path c' group'. rewrite recursion_subscribe_subs, node_key_sub_key, Hc.
    case_decide as Hp; [subst path|rewrite Hs, lookup_insert_ne by congruence; done].
    destruct (decide ((c', group') = (c, s_shared_group s))) as [[= -> Hg]|Hne];
      [by rewrite Hg, !lookup_insert_eq|].
    rewrite !lookup_insert_ne; [apply Hs|congruence|]. intros [? ?]%sub_key_inj. congruence.
  - intros path. rewrite recursion_subscribe_subs. case_decide; [|done].
    intros k s' [[<- <-]|[_ H']]%lookup_insert_Some; [done|].
    by apply (Hk (split_slash (s_topic_filter s))).
  - intros path. by rewrite recursion_subscribe_retain.
  - intros c' f'. unfold insert_absent. rewrite Hl.
    destruct (t_listed m !! (t, c, f)) eqn:Hold; [done|].
    destruct (decide ((c', f') = (c, f))) as [[= -> ->]|Hne]; [by rewrite !lookup_insert_eq|].
    rewrite !lookup_insert_ne; [done|congruence|]. intros [? ?]%generate_key_inj. congruence.
  - intros k q'. unfold insert_absent. destruct (items !! generate_key c f); [by apply Hlk|].
    intros [[<- _]|[_ H']]%lookup_insert_Some; [eauto|by eapply Hlk].
Qed.

Lemma refines_subscribe_at t c f q nl rap g group st m :
  refines st m ->
  refines match (if negb (test_topic g) then Err (InvalidTopicFilter g) else
      match topic_tree st !! t with
      | Some root => Ok (update_topic_info t (insert_absent (generate_key c f) q)
          (set_tree t (recursion_subscribe root (split_slash g) (mkSubscription c q nl rap group g)) st))
      | None => Err (TenantNotFound t)
      end) with Ok st' => st' | _ => st end
    (if decide (t ∈ t_tenants m /\ test_topic g = true)
     then table_subscribe t c f (mkSubscription c q nl rap group g) m else m).
Proof.
  intros HR. destruct (test_topic g); simpl; [|by rewrite decide_False by naive_solver].
  destruct (topic_tree st !! t) as [root|] eqn:Ht.
  - destruct (refines_present _ _ _ _ HR Ht) as (Hin & items & ritems & Hi & Hri & Htr).
    rewrite decide_True by done.
    eapply (refines_update st _ m _ t _ (insert_absent (generate_key c f) q items) ritems);
      [done|done|done| |done|simpl; by apply alter_Some|simpl; by rewrite insert_id|].
    + intros t' Hne. split_and!; intros; simpl; rewrite ?lookup_insert_ne by congruence; try done.
      destruct (t_listed m !! (t, c, f)); [done|]. by rewrite lookup_insert_ne by congruence.
    + by apply (tenant_subscribe t c f (mkSubscription c q nl rap group g)).
  - rewrite (refines_absent st m t HR) in Ht. by rewrite decide_False by tauto.
Qed.

Lemma refines_subscribe t c f q nl rap st m :
  refines st m -> refines (exec_state (Subscribe t c f q nl rap) st) (spec_op (Subscribe t c f q nl rap) m).
Proof.
  intros HR. unfold exec_state, exec, subscribe_with_options, spec_op, target.
  destruct (parse_shared_subscription_filter f) as [[[n g]|]|e| |]; simpl; try done;
    by apply refines_subscribe_at.
Qed.

(** A path that leaves the tree holds nothing. *)
Lemma node_at_None_subs n path : node_at n path = None -> subs_at n path = ∅.
Proof. unfold subs_at. by intros ->. Qed.
Lemma node_at_None_retain n path : node_at n path = None -> retain_at n path = None.
Proof. unfold retain_at. by intros ->. Qed.

Lemma refines_table_eq st m m' :
  refines st m -> t_tenants m' = t_tenants m -> (forall t, same_tenant t m m') -> refines st m'.
Proof.
  intros HR Ht Hs t. rewrite Ht. specialize (HR t). case_decide; [|done].
  destruct HR as (r & i & ri & ? & ? & ? & ?). exists r, i, ri. split_and!; try done.
  by apply (tenant_refines_same _ _ _ _ m).
Qed.

(** Removing what the table does not hold. *)
Lemma refines_unsubscribe_noop t c f g group st m :
  refines st m -> wf_table m -> target f = Some (g, group) ->
  t_subs m !! (t, split_slash g, c, group) = None ->
  refines st (mkTable (t_tenants m) (delete (t, split_slash g, c, group) (t_subs m)) (t_retained m)
    (delete (t, c, f) (t_listed m)) (t_retained_listed m)).
Proof.
  intros HR Hwf Hf Hnone. apply (refines_table_eq st m); [done|done|]. intros t'.
  assert (t_listed m !! (t, c, f) = None).
  { apply eq_None_not_Some. intros H. apply (wf_listed m Hwf t c f g group Hf) in H.
    by rewrite Hnone in H; destruct H. }
  split_and!; simpl; intros; rewrite ?delete_id by done; done.
Qed.

(** Unsubscribing, on the tenant's part of the table. *)
Definition table_unsubscribe (t c f g : string) (group : option string) (m : table) : table :=
  mkTable (t_tenants m) (delete (t, split_slash g, c, group) (t_subs m)) (t_retained m)
    (delete (t, c, f) (t_listed m)) (t_retained_listed m).

Lemma tenant_unsubscribe t c f g group root root' items ritems m :
  (forall path, subs_at root' path = if decide (path = split_slash g)
    then delete (sub_key c group) (subs_at root path) else subs_at root path) ->
  (forall path, retain_at root' path = retain_at root path) ->
  tenant_refines t root items ritems m ->
  tenant_refines t root' (delete (generate_key c f) items) ritems (table_unsubscribe t c f g group m).
Proof.
  intros Hs' Hr' [Hs Hk Hr Hl Hlk Hrl]. constructor; simpl; try done.
  - intros path c' group'. rewrite Hs'.
    case_decide as Hp; [subst path|rewrite Hs, lookup_delete_ne by congruence; done].
    destruct (decide ((c', group') = (c, group))) as [[= -> ->]|Hne]; [by rewrite !lookup_delete_eq|].
    rewrite !lookup_delete_ne; [apply Hs|congruence|]. intros [? ?]%sub_key_inj. congruence.
  - intros path. rewrite Hs'. case_decide; [|done].
    intros k s [_ ?]%lookup_delete_Some. by apply (Hk path).
  - intros path. by rewrite Hr'.
  - intros c' f'. destruct (decide ((c', f') = (c, f))) as [[= -> ->]|Hne]; [by rewrite !lookup_delete_eq|].
    rewrite !lookup_delete_ne; [apply Hl|congruence|]. intros [? ?]%generate_key_inj. congruence.
  - intros k q [_ ?]%lookup_delete_Some. by eapply Hlk.
Qed.

Lemma refines_unsubscribe_at t c f g group keys st m :
  refines st m -> wf_table m -> target f = Some (g, group) ->
  keys = match group with Some _ => [sub_key c group]
    | None => [sub_key c group; legacy_normal_subscription_key c] end ->
  refines match (match topic_tree st !! t with
      | Some root =>
          root ← recursion_unsubscription root (split_slash g) keys c group;
          Ok (update_topic_info t (delete (generate_key c f)) (set_tree t root st))
      | None => Err (TenantNotFound t)
      end) with Ok st' => st' | _ => st end (table_unsubscribe t c f g group m).
Proof.
  intros HR Hwf Hf Hkeys. destruct (topic_tree st !! t) as [root|] eqn:Ht.
  - destruct (refines_present _ _ _ _ HR Ht) as (Hin & items & ritems & Hi & Hri & Htr).
    pose proof (recursion_unsubscription_spec (split_slash g) keys c group root) as Hspec.
    destruct (recursion_unsubscription root (split_slash g) keys c group) as [root'|e| |]; simpl; try done.
    + destruct Hspec as [Hs' Hr'].
      eapply (refines_update st _ m _ t root' (delete (generate_key c f) items) ritems);
        [done|done|done|intros; other_tenant|done|simpl; by apply alter_Some|simpl; by rewrite insert_id|].
      apply (tenant_unsubscribe t c f g group root); [|done|done].
      intros path. rewrite Hs'. case_decide; [|done]. subst path. apply remove_keyed, Hkeys. apply Htr.
    + apply refines_unsubscribe_noop; try done. destruct Htr as [Hs _ _ _ _ _].
      by rewrite <-Hs, node_at_None_subs, lookup_empty.
  - apply refines_unsubscribe_noop; try done. apply eq_None_not_Some. intros [s Hs].
    apply (wf_subs m Hwf) in Hs as [Hin _]. by apply (refines_absent st m t HR) in Ht.
Qed.

Lemma refines_unsubscribe t c f st m :
  refines st m -> wf_table m ->
  refines (exec_state (Unsubscribe t c f) st) (spec_op (Unsubscribe t c f) m).
Proof.
  intros HR Hwf. unfold exec_state, exec, unsubscribe, spec_op.
  destruct (target f) as [[g group]|] eqn:Hf; pose proof Hf as Hf'; unfold target in Hf';
    destruct (parse_shared_subscription_filter f) as [[[n h]|]|e| |]; simplify_eq/=; try done;
    by apply refines_unsubscribe_at.
Qed.

(** Retaining and forgetting, on the tenant's part of the table. *)
Lemma refines_register_retain t c p st m :
  refines st m -> refines (exec_state (RegisterRetain t c p) st) (spec_op (RegisterRetain t c p) m).
Proof.
  intros HR. unfold exec_state, exec, register_retain_publish_packet, spec_op.
  destruct p as [| |p| | | | | | | | | | | |]; try done.
  destruct (test_topic (pb_topic_name p)); simpl; [|by rewrite decide_False by naive_solver].
  destruct (topic_tree st !! t) as [root|] eqn:Ht.
  - destruct (refines_present _ _ _ _ HR Ht) as (Hin & items & ritems & Hi & Hri & Htr).
    rewrite decide_True by done.
    eapply (refines_update st _ m _ t _ items (<[pb_topic_name p := (c, pb_qos p)]> ritems));
      [done|done|done|intros; other_tenant|done|simpl; by rewrite insert_id|simpl; by apply alter_Some|].
    destruct Htr as [Hs Hk Hr Hl Hlk Hrl]. constructor; simpl; try done.
    + intros. by rewrite recursion_retain_subs.
    + intros. by rewrite recursion_retain_subs.
    + intros path. rewrite recursion_retain_retain. case_decide; subst;
        [by rewrite lookup_insert_eq|by rewrite lookup_insert_ne by congruence].
    + intros f. destruct (decide (f = pb_topic_name p)) as [->|];
        [by rewrite !lookup_insert_eq|by rewrite !lookup_insert_ne by congruence].
  - rewrite (refines_absent st m t HR) in Ht. by rewrite decide_False by tauto.
Qed.

Lemma refines_clean_noop t f st m :
  refines st m -> wf_table m -> t_retained m !! (t, split_slash f) = None ->
  refines st (spec_op (CleanRetain t f) m).
Proof.
  intros HR Hwf Hnone. apply (refines_table_eq st m); [done|done|]. intros t'.
  assert (t_retained_listed m !! (t, f) = None).
  { apply eq_None_not_Some. intros H%(wf_retained_listed m Hwf). rewrite Hnone in H. by destruct H. }
  split_and!; simpl; intros; rewrite ?delete_id by done; done.
Qed.

Lemma refines_clean_retain t f st m :
  refines st m -> wf_table m -> refines (exec_state (CleanRetain t f) st) (spec_op (CleanRetain t f) m).
Proof.
  intros HR Hwf. unfold exec_state, exec, clean_retain_publish_packet.
  destruct (topic_tree st !! t) as [root|] eqn:Ht.
  - destruct (refines_present _ _ _ _ HR Ht) as (Hin & items & ritems & Hi & Hri & Htr).
    destruct Htr as [Hs Hk Hr Hl Hlk Hrl].
    pose proof (recursion_clean_spec (split_slash f) root) as Hspec.
    destruct (recursion_clean_retain_publish_packet root (split_slash f)) as [root'|e| |]; simpl; try done.
    + destruct Hspec as [Hs' Hr'].
      eapply (refines_update st _ m _ t root' items (delete f ritems));
        [done|done|done|intros; other_tenant|done|simpl; by rewrite insert_id|simpl; by apply alter_Some|].
      constructor; simpl; try done.
      * intros. by rewrite Hs'.
      * intros. by rewrite Hs'.
      * intros path. rewrite Hr'. case_decide; subst;
          [by rewrite lookup_delete_eq|by rewrite lookup_delete_ne by congruence].
      * intros f'. destruct (decide (f' = f)) as [->|];
          [by rewrite !lookup_delete_eq|by rewrite !lookup_delete_ne by congruence].
    + apply refines_clean_noop; try done. by rewrite <-Hr, node_at_None_retain.
  - apply refines_clean_noop; try done. apply eq_None_not_Some. intros [p Hp].
    apply (wf_retained_tenant m Hwf) in Hp. by apply (refines_absent st m t HR) in Ht.
Qed.

Lemma refines_exec o st m : refines st m -> wf_table m -> refines (exec_state o st) (spec_op o m).
Proof.
  destruct o; intros; [by apply refines_create_tenant|by apply refines_subscribe
    |by apply refines_unsubscribe|by apply refines_register_retain|by apply refines_clean_retain].
Qed.

Lemma refines_new : refines new_storage empty_table.
Proof.
  set (m := mkTable ∅ ∅ ∅ ∅ ∅). unfold new_storage.
  replace empty_table with (spec_op (CreateTenant "public") m)
    by (unfold spec_op, empty_table; f_equal; apply (right_id_L ∅ (∪))).
  apply (refines_create_tenant "public" _ m).
  - intros t. rewrite decide_False by set_solver. simpl. by rewrite !lookup_empty.
  - constructor; simpl; intros *; rewrite ?lookup_empty; try done; by intros [? ?].
Qed.

(** After any operations the storage refines the table they make. *)
Lemma refines_run ops : refines (run ops) (spec_run ops).
Proof.
  unfold run, spec_run. assert (wf_table empty_table) as Hwf by apply (wf_spec_run []).
  pose proof refines_new as HR. revert HR Hwf. generalize new_storage, empty_table.
  induction ops as [|o ops IH]; intros st m HR Hwf; simpl; [done|].
  apply IH; [by apply refines_exec|by apply wf_spec_op].
Qed.

End Refinement.
