(* ===== verification/TopicRouting.v ===== *)
(** * What the topic storage promises

    The theorems on routing, retained messages, listings and snapshots, for every
    storage the operations can make. *)

From S2P Require Import Prelude Enumerate Utf8 Packet MessageExpiry TopicFilter TopicStorage TopicTree TopicSpec.
From Stdlib Require Import Ascii.
From Stdlib Require String.

(** ** The matching rule of the standard (section 4.7, on levels) *)

Inductive mqtt_match : list string -> list string -> Prop :=
  | match_end : mqtt_match [] []
  | match_rest topic : mqtt_match ["#"%string] topic
  | match_any filter level topic :
      mqtt_match filter topic -> mqtt_match ("+"%string :: filter) (level :: topic)
  | match_level filter level topic :
      mqtt_match filter topic -> mqtt_match (level :: filter) (level :: topic).

Lemma level_ok_false s : level_ok false s = true -> s <> "#"%string.
Proof. by intros ? ->. Qed.

Lemma levels_ok_cons f g fs : levels_ok (f :: g :: fs) = true -> f <> "#"%string /\ levels_ok (g :: fs) = true.
Proof. simpl. intros [?%level_ok_false ?]%andb_true_iff. done. Qed.

Lemma levels_ok_tail f fs : levels_ok (f :: fs) = true -> levels_ok fs = true.
Proof. destruct fs; [done|]. by intros [_ ?]%levels_ok_cons. Qed.
Lemma levels_ok_sharp fs : levels_ok ("#"%string :: fs) = true -> fs = [].
Proof. destruct fs; [done|]. by intros [? _]%levels_ok_cons. Qed.

Lemma retain_matches_mqtt filter topic :
  levels_ok filter = true -> retain_matches filter topic = true <-> mqtt_match filter topic.
Proof.
  revert topic. induction filter as [|f fs IH]; intros topic Hok.
  - destruct topic; simpl; split; try done; [constructor|inversion 1].
  - destruct (decide (f = "#"%string)) as [->|Hf].
    { apply levels_ok_sharp in Hok as ->. split; [intros; apply match_rest|done]. }
    pose proof (levels_ok_tail _ _ Hok) as Hfs.
    destruct topic as [|t topic].
    { rewrite retain_matches_nil by done. split; [done|inversion 1; congruence]. }
    rewrite retain_matches_cons, IH by done. split.
    + intros [[->| ->] H]; by constructor.
    + inversion 1; subst; auto. congruence.
Qed.

Lemma matches_mqtt filter topic :
  levels_ok filter = true -> topic <> [] ->
  mqtt_match filter topic <->
  matches filter topic = true \/ exists g, filter = g ++ ["#"%string] /\ matches g topic = true.
Proof.
  intros Hok Hne. revert topic Hok Hne. induction filter as [|f fs IH]; intros [|t topic] Hok Hne; try done.
  - split; [inversion 1|]. intros [?|([|] & ? & ?)]; done.
  - destruct (decide (f = "#"%string)) as [->|Hf].
    { apply levels_ok_sharp in Hok as ->. split; [by left|intros; apply match_rest]. }
    pose proof (levels_ok_tail _ _ Hok) as Hfs.
    assert (mqtt_match (f :: fs) (t :: topic) <-> (f = "+"%string \/ f = t) /\ mqtt_match fs topic) as ->.
    { split; [inversion 1; subst; auto; congruence|]. intros [[->| ->] H]; by constructor. }
    assert (forall h, matches (f :: h) (t :: topic) = true <-> (f = "+"%string \/ f = t) /\ matches h topic = true) as Hm.
    { intros h. simpl. rewrite orb_true_iff, andb_true_iff, !bool_decide_eq_true. naive_solver. }
    rewrite Hm. assert (mqtt_match fs topic <->
      matches fs topic = true \/ exists g, fs = g ++ ["#"%string] /\ matches g topic = true) as ->.
    { destruct topic as [|t' topic]; [|by apply IH]. destruct fs as [|g fs]; [split; [by left|intros; constructor]|].
      split.
      - inversion 1; subst. right. by exists [].
      - intros [?|([|? ?] & [= ->] & ?)]; try done. subst. constructor. }
    split.
    + intros [Hl [H|(g & -> & H)]]; [by left|]. right. exists (f :: g). by rewrite Hm.
    + intros [[Hl H]|([|f' g] & [= -> ->] & H)]; [by auto|done|]. apply Hm in H as [Hl H]. eauto.
Qed.

Lemma test_topic_levels s : test_topic s = true -> levels_ok (split_slash s) = true.
Proof. intros H. by rewrite <-(test_levels_ok _ 0). Qed.

(** ** The answers of the table *)

Definition table_subscriptions (m : table) (tenant topic : string) : list Subscription :=
  (map_to_list (filter (fun e : string * list string * string * option string * Subscription =>
     e.1.1.1.1 = tenant /\ matches e.1.1.1.2 (split_slash topic) = true) (t_subs m))).*2.

Definition table_retained (m : table) (now : Z) (tenant topic_filter : string) : list Packet :=
  (map_to_list (filter (fun e : string * list string * Packet =>
     e.1.1 = tenant /\ retain_matches (split_slash topic_filter) e.1.2 = true /\
     is_packet_expired e.2 now = false) (t_retained m))).*2.

Section Answers.
Context {E : Base64} {Espec : Base64Spec E}.

Lemma get_subscriptions_table st m tenant topic root :
  refines st m -> topic_tree st !! tenant = Some root -> no_wildcard (split_slash topic) ->
  recursion_get_subscriptions root (split_slash topic) ≡ₚ table_subscriptions m tenant topic.
Proof.
  intros HR Ht Htopic. destruct (refines_present _ _ _ _ HR Ht) as (Hin & items & ritems & _ & _ & Htr).
  set (R := fun (k : string * list string * string) s => k.1.1 = tenant /\
    matches k.1.2 (split_slash topic) = true /\ subs_at root k.1.2 !! k.2 = Some s).
  apply (enumerates_unique R).
  - eapply (enumerates_rekey (fun pk => (tenant, pk.1, pk.2)));
      [|by apply get_subscriptions_enumerates|].
    { intros [] [] [= -> ->]. done. }
    intros [[t path] k] s. unfold R, sub_entry. simpl. split.
    + intros (-> & Hm & Hs). by exists (path, k).
    + intros ([path' k'] & [= -> -> ->] & Hm & Hs). done.
  - eapply (enumerates_rekey (fun k : string * list string * string * option string =>
      (k.1.1.1, k.1.1.2, sub_key k.1.2 k.2))); [|apply enumerates_values|].
    { intros [[[? ?] ?] ?] [[[? ?] ?] ?] [= -> -> [-> ->]%sub_key_inj]. done. }
    intros [[t path] k] s. unfold R. simpl. split.
    + intros (-> & Hm & Hs). pose proof (tr_keyed _ _ _ _ _ Htr _ _ _ Hs) as ->.
      rewrite node_key_sub_key, (tr_subs _ _ _ _ _ Htr) in Hs.
      exists (tenant, path, client_identifier s, s_shared_group s). split; [done|].
      apply map_lookup_filter_Some. done.
    + intros ([[[t' path'] c] g] & [= -> -> ->] & [Hs [Ht' Hm]]%map_lookup_filter_Some).
      simpl in Ht', Hm. subst t'. by rewrite (tr_subs _ _ _ _ _ Htr).
Qed.

Lemma get_retained_table st m now tenant topic_filter root :
  refines st m -> topic_tree st !! tenant = Some root ->
  filter (fun packet => is_packet_expired packet now = false)
    (recursion_get_retain_packet root (split_slash topic_filter)) ≡ₚ
  table_retained m now tenant topic_filter.
Proof.
  intros HR Ht. destruct (refines_present _ _ _ _ HR Ht) as (Hin & items & ritems & _ & _ & Htr).
  set (R := fun (k : string * list string) p => k.1 = tenant /\
    retain_matches (split_slash topic_filter) k.2 = true /\ retain_at root k.2 = Some p /\
    is_packet_expired p now = false).
  apply (enumerates_unique R).
  - eapply (enumerates_rekey (pair tenant)); [|apply enumerates_filter, get_retain_enumerates|].
    { by intros ? ? [= ->]. }
    intros [t path] p. unfold R, retain_entry. simpl. split.
    + intros (-> & Hm & Hs & Hx). by exists path.
    + intros (path' & [= -> ->] & [Hm Hs] & Hx). done.
  - eapply enumerates_iff; [|apply enumerates_values]. intros [t path] p. unfold R. simpl.
    rewrite map_lookup_filter_Some. simpl. split.
    + intros (Hp & -> & Hm & Hx). by rewrite (tr_retained _ _ _ _ _ Htr).
    + intros (-> & Hm & Hp & Hx). by rewrite (tr_retained _ _ _ _ _ Htr) in Hp.
Qed.
End Answers.

(** ** Listings *)

(** The strings of an operation are Rust strings. *)
Definition op_str (o : op) : Prop :=
  match o with Subscribe _ c f _ _ _ => is_str c /\ is_str f | _ => True end.

Definition table_listing (m : table) (tenant : string) : list (string * string * Z) :=
  map (fun e : string * string * string * Z => (e.1.1.2, e.1.2, e.2))
    (map_to_list (filter (fun e : string * string * string * Z => e.1.1.1 = tenant) (t_listed m))).

Lemma listed_str ops t c f q :
  Forall op_str ops -> t_listed (spec_run ops) !! (t, c, f) = Some q -> is_str c /\ is_str f.
Proof.
  intros Hops. unfold spec_run.
  assert (forall k, is_Some (t_listed empty_table !! k) -> is_str k.1.2 /\ is_str k.2) as H.
  { intros k. simpl. rewrite lookup_empty. by intros []. }
  intros Hq. enough (forall k, is_Some (t_listed (foldl (fun m o => spec_op o m) empty_table ops) !! k)
    -> is_str k.1.2 /\ is_str k.2) as H' by (apply (H' (t, c, f)); eauto).
  clear Hq. revert H. generalize empty_table. induction Hops as [|o ops Ho _ IH]; intros m Hm; [done|].
  simpl. apply IH. intros k. destruct o as [|t' c' f' q' nl rap|t' c' f'|t' c' p|]; simpl; auto.
  - destruct (target f') as [[g group]|]; [|apply Hm]. case_decide; [|apply Hm]. simpl.
    destruct (t_listed m !! (t', c', f')); [apply Hm|].
    intros [<-|[_ Hk]]%lookup_insert_is_Some; [done|by apply Hm].
  - destruct (target f') as [[g group]|]; [|apply Hm]. simpl.
    intros [_ Hk]%lookup_delete_is_Some. by apply Hm.
  - destruct p; try apply Hm. case_decide; apply Hm.
Qed.

Section Listings.
Context {E : Base64} {Espec : Base64Spec E}.

(** The recorder's entries are the table's under their keys. *)
Lemma recorder_entries t root items ritems m :
  tenant_refines t root items ritems m ->
  map_to_list items ≡ₚ
    map (fun e : string * string * string * Z => (generate_key e.1.1.2 e.1.2, e.2))
      (map_to_list (filter (fun e : string * string * string * Z => e.1.1.1 = t) (t_listed m))).
Proof.
  intros Htr. apply NoDup_Permutation; [apply NoDup_map_to_list| |].
  - apply NoDup_fmap_2_strong; [|apply NoDup_map_to_list].
    intros [[[t1 c1] f1] q1] [[[t2 c2] f2] q2].
    intros [_ H1]%elem_of_map_to_list%map_lookup_filter_Some.
    intros [_ H2]%elem_of_map_to_list%map_lookup_filter_Some.
    simpl in *. by intros [= [-> ->]%generate_key_inj ->]; subst.
  - intros [k q]. rewrite elem_of_map_to_list, list_elem_of_fmap. split.
    + intros Hk. destruct (tr_listed_keys _ _ _ _ _ Htr _ _ Hk) as (c & f & ->).
      rewrite (tr_listed _ _ _ _ _ Htr) in Hk. exists ((t, c, f), q).
      by rewrite elem_of_map_to_list, map_lookup_filter_Some.
    + intros ([[[t' c] f] q'] & [= -> ->] & [Hl Ht]%elem_of_map_to_list%map_lookup_filter_Some).
      simpl in *. subst t'. by rewrite (tr_listed _ _ _ _ _ Htr).
Qed.

Lemma page_map {A B} (h : string * A -> B) offset limit (m : gmap string A) :
  map h (page offset limit m) =
    take (Z.to_nat limit) (drop (Z.to_nat offset) (map h (map_to_list m))).
Proof. unfold page. by rewrite skipn_map, firstn_map. Qed.

(** What the listing shows of one entry of the recorder. *)
Definition shown (kq : string * Z) : string * string * Z :=
  match @extract_info_from_key _ unit kq.1 with
  | Ok (c, f) => (c, f, kq.2)
  | _ => (""%string, ""%string, kq.2)
  end.

Lemma topic_list_pages ops t items root ritems :
  Forall op_str ops -> topic_info_recorder (run ops) !! t = Some items ->
  tenant_refines t root items ritems (spec_run ops) -> forall offset limit,
  get_topic_list_with_pagination t offset limit (run ops) =
    Ok (zlen (map_to_list items),
        take (Z.to_nat limit) (drop (Z.to_nat offset) (map shown (map_to_list items)))).
Proof.
  intros Hops Hi Htr offset limit. unfold get_topic_list_with_pagination. rewrite Hi.
  rewrite (try_collect_Ok _ shown).
  - cbn [mbind outcome_bind]. by rewrite page_map.
  - apply Forall_forall. intros [k q] Hin.
    assert ((k, q) ∈ map_to_list items) as Hkq%elem_of_map_to_list.
    { unfold page in Hin. apply elem_of_take in Hin as (j & Hj & _).
      rewrite lookup_drop in Hj. by eapply list_elem_of_lookup_2. }
    destruct (tr_listed_keys _ _ _ _ _ Htr _ _ Hkq) as (c & f & ->).
    rewrite (tr_listed _ _ _ _ _ Htr) in Hkq. destruct (listed_str ops t c f q Hops Hkq).
    unfold shown. simpl. by rewrite !extract_generate.
Qed.
End Listings.

(** ** Snapshots *)

Section Snapshots.
Context {E : Base64}.

Lemma rekey_well_keyed subs : well_keyed subs -> rekey subs = subs.
Proof.
  intros Hk. unfold rekey.
  assert (forall l (acc : gmap string Subscription), Forall (fun kv : string * Subscription => kv.1 = node_key kv.2) l ->
    NoDup l.*1 -> foldl (fun (m : gmap string Subscription) '(_, v) => <[node_key v := v]> m) acc l
      = list_to_map l ∪ acc) as H.
  { induction l as [|[k v] l IH]; intros acc Hl Hnd; simpl; [by rewrite (left_id_L ∅ (∪))|].
    inversion Hl as [|? ? Hkv Hl']; subst. simpl in Hkv. subst k.
    apply NoDup_cons in Hnd as [Hnin Hnd]. rewrite IH by done.
    rewrite <-insert_union_r; [by rewrite insert_union_l|].
    by apply not_elem_of_list_to_map. }
  rewrite H, (right_id_L ∅ (∪)), list_to_map_to_list; [done| |apply NoDup_fst_map_to_list].
  apply Forall_forall. intros [k v] Hin%elem_of_map_to_list. by apply Hk.
Qed.

Lemma node_serializable_roundtrip n :
  (forall path, well_keyed (subs_at n path)) -> node_from_serializable (node_to_serializable n) = n.
Proof.
  induction n as [n IH] using node_induction. intros Hk. destruct n as [p s r l]. simpl.
  rewrite (rekey_well_keyed s (Hk [])). f_equal. apply map_eq. intros q.
  rewrite !lookup_fmap. destruct (l !! q) as [leaf|] eqn:Hq; [|done]. simpl. f_equal.
  apply (IH q leaf Hq). intros path. specialize (Hk (q :: path)).
  rewrite subs_at_cons in Hk. unfold get_leaf in Hk. simpl in Hk. by rewrite Hq in Hk.
Qed.
End Snapshots.

(** ** A reversible text encoding

    Two letters for each byte: an instance of the interface, on which the witnesses run. *)

Definition nibble_char (n : N) : ascii := ascii_of_N (97 + n).
Fixpoint nibbles_encode (s : string) : string :=
  match s with
  | String.EmptyString => ""
  | String.String c s =>
      let n := N_of_ascii c in
      String.String (nibble_char (n / 16)) (String.String (nibble_char (n mod 16)) (nibbles_encode s))
  end.
Fixpoint nibbles_decode (s : string) : option bytes :=
  match s with
  | String.EmptyString => Some []
  | String.String a (String.String b s) =>
      match nibbles_decode s with
      | Some l => Some ((Z.of_N (N_of_ascii a) - 97) * 16 + (Z.of_N (N_of_ascii b) - 97) :: l)
      | None => None
      end
  | String.String _ String.EmptyString => None
  end.

#[export] Instance nibbles : Base64 := { b64_encode := nibbles_encode; b64_decode := nibbles_decode }.
#[export] Instance nibbles_spec : Base64Spec nibbles.
Proof.
  split.
  - induction s as [|c s IH]; [done|]. cbn [b64_decode b64_encode nibbles nibbles_encode nibbles_decode] in *.
    rewrite IH. unfold as_bytes. cbn [String.list_ascii_of_string map]. do 2 f_equal.
    by destruct c as [[] [] [] [] [] [] [] []].
  - induction s as [|c s IH]; [done|].
    cbn [b64_encode nibbles nibbles_encode contains] in *. rewrite IH.
    by destruct c as [[] [] [] [] [] [] [] []].
Qed.

(** ** Theorems *)

(** A storage that refines a table routes as the table does. *)
Lemma routing_of_refines {E : Base64} {Espec : Base64Spec E} st m (tenant topic : string) :
  refines st m -> no_wildcard (split_slash topic) ->
  if decide (tenant ∈ t_tenants m) then
    exists l, get_subscriptions tenant topic st = Ok l /\ l ≡ₚ table_subscriptions m tenant topic
  else get_subscriptions tenant topic st = Err (TenantNotFound tenant).
Proof.
  intros HR Htopic. unfold get_subscriptions. case_decide as Hin.
  - pose proof (HR tenant) as Ht. rewrite decide_True in Ht by done.
    destruct Ht as (root & items & ritems & Ht & _). rewrite Ht. eexists. split; [done|].
    by apply (get_subscriptions_table st).
  - apply (refines_absent st) in Hin; [|done]. by rewrite Hin.
Qed.

(** A storage that refines a table is restored from its serialized form. *)
Lemma restores {E : Base64} {Espec : Base64Spec E} st m :
  refines st m -> from_serializable (to_serializable st) = st.
Proof.
  destruct st as [ri i tree]. intros HR.
  unfold from_serializable, to_serializable. simpl. f_equal. apply map_eq. intros t.
  rewrite !lookup_fmap. destruct (tree !! t) as [root|] eqn:Ht; [|done]. simpl. f_equal.
  destruct (refines_present _ _ _ _ HR Ht) as (_ & items & ritems & _ & _ & Htr).
  apply node_serializable_roundtrip. intros path. by apply (tr_keyed _ _ _ _ _ Htr).
Qed.

(** C5: after any operations, a message published under a topic without wildcards is routed to
    exactly the subscriptions of the tenant whose filter matches, each once; without
    the tenant the query fails and says so. *)
Theorem routing_refines_table {E : Base64} {Espec : Base64Spec E} (ops : list op) (tenant topic : string) :
  no_wildcard (split_slash topic) ->
  if decide (tenant ∈ t_tenants (spec_run ops)) then
    exists l, get_subscriptions tenant topic (run ops) = Ok l /\
      l ≡ₚ table_subscriptions (spec_run ops) tenant topic
  else get_subscriptions tenant topic (run ops) = Err (TenantNotFound tenant).
Proof. apply routing_of_refines, refines_run. Qed.

(** looking up retained messages for a valid filter returns exactly the tenant's
    retained messages whose topic the filter matches and that have not expired. *)
Theorem retained_refines_table {E : Base64} {Espec : Base64Spec E} (ops : list op) (now : Z)
    (tenant topic_filter : string) :
  tenant ∈ t_tenants (spec_run ops) -> test_topic topic_filter = true ->
  exists l, get_retain_publish_packet now tenant topic_filter (run ops) = Ok l /\
    l ≡ₚ table_retained (spec_run ops) now tenant topic_filter.
Proof.
  intros Hin Htest. pose proof (refines_run ops) as HR. pose proof (HR tenant) as Ht.
  rewrite decide_True in Ht by done. destruct Ht as (root & items & ritems & Ht & _).
  unfold get_retain_publish_packet. rewrite Htest, Ht. eexists. split; [done|].
  by apply (get_retained_table (run ops)).
Qed.

(** a client that subscribed last gets its subscription listed for exactly the topics
    the standard's rule matches, the parent level of a final number sign apart. *)
Theorem subscription_follows_standard {E : Base64} {Espec : Base64Spec E} (ops : list op)
    (tenant c f g topic : string) (group : option string) (q : Z) (nl rap : bool) :
  tenant ∈ t_tenants (spec_run ops) -> target f = Some (g, group) -> test_topic g = true ->
  no_wildcard (split_slash topic) ->
  exists l,
    get_subscriptions tenant topic (run (ops ++ [Subscribe tenant c f q nl rap])) = Ok l /\
    (mqtt_match (split_slash g) (split_slash topic) <->
     mkSubscription c q nl rap group g ∈ l \/
     exists h, split_slash g = h ++ ["#"%string] /\ matches h (split_slash topic) = true).
Proof.
  intros Hin Hf Hg Htopic. set (ops' := ops ++ [Subscribe tenant c f q nl rap]).
  set (s := mkSubscription c q nl rap group g).
  assert (spec_run ops' = table_subscribe tenant c f s (spec_run ops)) as Hrun.
  { unfold spec_run, ops'. rewrite foldl_app. cbn [foldl]. unfold spec_op. rewrite Hf.
    by rewrite decide_True by done. }
  pose proof (refines_run ops') as HR. pose proof (HR tenant) as Ht.
  rewrite decide_True in Ht by (by rewrite Hrun). destruct Ht as (root & items & ritems & Ht & _).
  unfold get_subscriptions. rewrite Ht. eexists. split; [done|].
  rewrite (get_subscriptions_table _ _ _ _ _ HR Ht Htopic).
  rewrite matches_mqtt by (apply split_on_nonempty || by apply test_topic_levels).
  apply or_iff_compat_r. unfold table_subscriptions.
  rewrite (elem_of_enumerates _ _ _ (enumerates_values _)). split.
  - intros Hm. exists (tenant, split_slash g, c, group).
    rewrite map_lookup_filter_Some, Hrun. split; [apply lookup_insert_eq|done].
  - intros ([[[t path] c'] g'] & [Hl [_ Hm]]%map_lookup_filter_Some). simpl in Hm.
    apply (wf_subs _ (wf_spec_run ops')) in Hl as (_ & _ & _ & ->). done.
Qed.

(** for a valid filter the retained lookup follows the standard's rule, the parent
    level included. *)
Theorem retained_follows_standard {E : Base64} {Espec : Base64Spec E} (ops : list op)
    (now : Z) (tenant c topic_filter : string) (p : Publish) :
  tenant ∈ t_tenants (spec_run ops) -> test_topic topic_filter = true ->
  test_topic (pb_topic_name p) = true -> is_packet_expired (PPublish p) now = false ->
  exists l,
    get_retain_publish_packet now tenant topic_filter
      (run (ops ++ [RegisterRetain tenant c (PPublish p)])) = Ok l /\
    (mqtt_match (split_slash topic_filter) (split_slash (pb_topic_name p)) <-> PPublish p ∈ l).
Proof.
  intros Hin Htest Hp Hx. set (ops' := ops ++ [RegisterRetain tenant c (PPublish p)]).
  assert (t_retained (spec_run ops') =
    <[(tenant, split_slash (pb_topic_name p)) := PPublish p]> (t_retained (spec_run ops)) /\
    t_tenants (spec_run ops') = t_tenants (spec_run ops)) as [Hrun Hten].
  { unfold spec_run, ops'. rewrite foldl_app. cbn [foldl]. unfold spec_op. by rewrite decide_True by done. }
  pose proof (refines_run ops') as HR. pose proof (HR tenant) as Ht.
  rewrite decide_True in Ht by (by rewrite Hten). destruct Ht as (root & items & ritems & Ht & _).
  unfold get_retain_publish_packet. rewrite Htest, Ht. eexists. split; [done|].
  rewrite <-retain_matches_mqtt by (by apply test_topic_levels).
  rewrite (get_retained_table _ _ _ _ _ _ HR Ht). unfold table_retained.
  rewrite (elem_of_enumerates _ _ _ (enumerates_values _)). split.
  - intros Hm. exists (tenant, split_slash (pb_topic_name p)).
    rewrite map_lookup_filter_Some, Hrun. by rewrite lookup_insert_eq.
  - intros ([t path] & [Hl (_ & Hm & _)]%map_lookup_filter_Some). simpl in Hm.
    apply (wf_retained_topic _ (wf_spec_run ops')) in Hl as (p' & [= <-] & ->). done.
Qed.

(** the subscription listing never panics, counts all of a tenant's subscriptions, and
    its pages are the consecutive parts of one list of all of them. *)
Theorem listing_refines_table {E : Base64} {Espec : Base64Spec E} (ops : list op) (tenant : string) :
  Forall op_str ops -> tenant ∈ t_tenants (spec_run ops) ->
  exists entries, entries ≡ₚ table_listing (spec_run ops) tenant /\
    forall offset limit,
      get_topic_list_with_pagination tenant offset limit (run ops) =
        Ok (zlen entries, take (Z.to_nat limit) (drop (Z.to_nat offset) entries)).
Proof.
  intros Hops Hin. pose proof (refines_run ops tenant) as HR. rewrite decide_True in HR by done.
  destruct HR as (root & items & ritems & _ & Hi & _ & Htr).
  exists (map shown (map_to_list items)). split.
  - etransitivity; [apply Permutation_map, (recorder_entries _ _ _ _ _ Htr)|].
    rewrite map_map. unfold table_listing. apply reflexive_eq, map_ext_in.
    intros [[[t c] f] q] [Hl _]%list_elem_of_In%elem_of_map_to_list%map_lookup_filter_Some.
    destruct (listed_str ops t c f q Hops Hl). unfold shown. simpl. by rewrite extract_generate.
  - intros offset limit. rewrite (topic_list_pages ops tenant items root ritems) by done.
    unfold zlen. by rewrite length_map.
Qed.

(** restoring a storage from what a snapshot holds of it gives the storage back. *)
Theorem snapshot_restores {E : Base64} {Espec : Base64Spec E} (ops : list op) :
  from_serializable (to_serializable (run ops)) = run ops.
Proof. apply (restores _ _ (refines_run ops)). Qed.

Lemma retained_singleton {E : Base64} {Espec : Base64Spec E} ops now tenant f l :
  tenant ∈ t_tenants (spec_run ops) -> test_topic f = true ->
  table_retained (spec_run ops) now tenant f ≡ₚ l -> (length l <= 1)%nat ->
  get_retain_publish_packet now tenant f (run ops) = Ok l.
Proof.
  intros Hin Htest Hl Hlen. pose proof (refines_run ops) as HR. pose proof (HR tenant) as Ht.
  rewrite decide_True in Ht by done. destruct Ht as (root & items & ritems & Ht & _).
  unfold get_retain_publish_packet. rewrite Htest, Ht. simpl. f_equal.
  rewrite <-(get_retained_table _ _ _ _ _ _ HR Ht) in Hl.
  destruct l as [|x [|]]; simpl in Hlen; [by apply Permutation_nil_r in Hl|by apply Permutation_singleton_r in Hl|lia].
Qed.

Lemma subscriptions_singleton {E : Base64} {Espec : Base64Spec E} ops tenant topic l :
  tenant ∈ t_tenants (spec_run ops) -> no_wildcard (split_slash topic) ->
  table_subscriptions (spec_run ops) tenant topic ≡ₚ l -> (length l <= 1)%nat ->
  get_subscriptions tenant topic (run ops) = Ok l.
Proof.
  intros Hin Htopic Hl Hlen. pose proof (refines_run ops) as HR. pose proof (HR tenant) as Ht.
  rewrite decide_True in Ht by done. destruct Ht as (root & items & ritems & Ht & _).
  unfold get_subscriptions. rewrite Ht. f_equal.
  rewrite <-(get_subscriptions_table _ _ _ _ _ HR Ht Htopic) in Hl.
  destruct l as [|x [|]]; simpl in Hlen; [by apply Permutation_nil_r in Hl|by apply Permutation_singleton_r in Hl|lia].
Qed.

(** a subscriber of [sport/#] does not get a live message on [sport], although the
    lookup of retained messages for the same filter finds that message. *)
Theorem parent_level_not_delivered {E : Base64} {Espec : Base64Spec E} (c : string) (q now : Z)
    (p : Publish) :
  pb_topic_name p = "sport"%string -> is_packet_expired (PPublish p) now = false ->
  let st := run [Subscribe "public" c "sport/#" q false false; RegisterRetain "public" c (PPublish p)] in
  get_subscriptions "public" "sport" st = Ok [] /\
  get_retain_publish_packet now "public" "sport/#" st = Ok [PPublish p].
Proof.
  intros Hp Hx. simpl.
  set (ops := [Subscribe "public" c "sport/#" q false false; RegisterRetain "public" c (PPublish p)]).
  set (s := mkSubscription c q false false None "sport/#").
  assert (spec_run ops = mkTable {["public"%string]}
    {[("public", ["sport"; "#"], c, None) := s]} {[("public", ["sport"]) := PPublish p]}
    {[("public", c, "sport/#") := q]} {[("public", "sport") := (c, pb_qos p)]})%string as Hrun.
  { unfold spec_run, ops. cbn [foldl]. unfold spec_op at 2.
    change (target "sport/#") with (Some ("sport/#"%string, @None string)). cbn iota beta.
    rewrite decide_True by (split; [set_solver|done]). unfold spec_op. rewrite Hp.
    by rewrite decide_True by (split; [set_solver|done]). }
  split.
  - apply subscriptions_singleton; [rewrite Hrun; set_solver|by repeat constructor| |simpl; lia].
    rewrite Hrun. unfold table_subscriptions. cbn [t_subs].
    by rewrite map_filter_singleton_False, map_to_list_empty by naive_solver.
  - apply retained_singleton; [rewrite Hrun; set_solver|done| |simpl; lia].
    rewrite Hrun. unfold table_retained. cbn [t_retained].
    by rewrite map_filter_singleton_True, map_to_list_singleton by done.
Qed.

(** subscribing again with another quality of service changes what is delivered
    and not what the listing shows. *)
Theorem listing_keeps_first_qos {E : Base64} {Espec : Base64Spec E} (c : string) (q1 q2 : Z) :
  is_str c ->
  let st := run [Subscribe "public" c "a" q1 false false; Subscribe "public" c "a" q2 false false] in
  get_subscriptions "public" "a" st = Ok [mkSubscription c q2 false false None "a"] /\
  get_topic_list_with_pagination "public" 0 10 st = Ok (1, [(c, "a"%string, q1)]).
Proof.
  intros Hc. simpl.
  set (ops := [Subscribe "public" c "a" q1 false false; Subscribe "public" c "a" q2 false false]).
  set (s := mkSubscription c q2 false false None "a").
  assert (spec_run ops = mkTable {["public"%string]} {[("public", ["a"], c, None) := s]} ∅
    {[("public", c, "a") := q1]} ∅)%string as Hrun.
  { unfold spec_run, ops. cbn [foldl]. unfold spec_op.
    change (target "a") with (Some ("a"%string, @None string)). cbn iota beta.
    rewrite decide_True by (split; [set_solver|done]). cbn [t_tenants t_listed t_subs empty_table].
    rewrite decide_True by (split; [set_solver|done]). rewrite lookup_empty.
    cbn [t_tenants t_listed t_subs t_retained t_retained_listed empty_table].
    by rewrite lookup_insert_eq, insert_insert_eq. }
  split.
  - apply subscriptions_singleton; [rewrite Hrun; set_solver|by repeat constructor| |simpl; lia].
    rewrite Hrun. unfold table_subscriptions. cbn [t_subs].
    by rewrite map_filter_singleton_True, map_to_list_singleton by done.
  - pose proof (refines_run ops "public"%string) as HR. rewrite Hrun, decide_True in HR by set_solver.
    destruct HR as (root & items & ritems & _ & Hi & _ & Htr).
    pose proof (recorder_entries _ _ _ _ _ Htr) as Hitems. cbn [t_listed] in Hitems.
    rewrite map_filter_singleton_True, map_to_list_singleton in Hitems by done.
    apply Permutation_singleton_r in Hitems. simpl in Hitems.
    unfold get_topic_list_with_pagination, page. rewrite Hi, Hitems. simpl.
    by rewrite extract_generate by done.
Qed.

(** *** Witnesses *)

Definition sample_retained : Publish :=
  mkPublish V5_0 "sport" [1] 1 true false None default_properties None.
Definition sample_ops : list op :=
  [CreateTenant "lab"; Subscribe "lab" "c1" "sport/+" 1 false false;
   Subscribe "lab" "c2" "$share/team/sport/#" 2 false true;
   Subscribe "lab" "c1" "news" 0 false false; Unsubscribe "lab" "c1" "news";
   RegisterRetain "lab" "c3" (PPublish sample_retained)].

Lemma routing_refines_table_witness :
  exists l, get_subscriptions "lab" "sport/tennis" (run sample_ops) = Ok l /\
    l ≡ₚ [mkSubscription "c1" 1 false false None "sport/+";
          mkSubscription "c2" 2 false true (Some "team") "sport/#"]%string.
Proof.
  pose proof (routing_refines_table sample_ops "lab" "sport/tennis") as H.
  rewrite decide_True in H by (vm_compute; reflexivity).
  destruct H as (l & Hl & Hp); [repeat constructor; discriminate|].
  exists l. split; [exact Hl|]. rewrite Hp.
  vm_compute. first [reflexivity|apply perm_swap].
Defined.

Lemma retained_refines_table_witness :
  exists l, get_retain_publish_packet 7 "lab" "sport/#" (run sample_ops) = Ok l /\
    l ≡ₚ [PPublish sample_retained].
Proof.
  apply (retained_refines_table sample_ops 7 "lab" "sport/#"); vm_compute; reflexivity.
Defined.

Lemma subscription_follows_standard_witness :
  exists l,
    get_subscriptions "lab" "a/b" (run (sample_ops ++ [Subscribe "lab" "c9" "+/b" 1 false false])) = Ok l /\
    mkSubscription "c9" 1 false false None "+/b" ∈ l.
Proof.
  destruct (subscription_follows_standard sample_ops "lab" "c9" "+/b" "+/b" "a/b" None 1 false false)
    as (l & Hl & Hiff).
  1-3: vm_compute; reflexivity.
  1: repeat constructor; discriminate.
  exists l. split; [exact Hl|]. destruct (proj1 Hiff) as [H|(h & Hh & _)]; [|exact H|].
  - vm_compute. repeat constructor.
  - vm_compute in Hh. destruct h as [|? [|? [|]]]; discriminate.
Defined.

Lemma retained_follows_standard_witness :
  exists l,
    get_retain_publish_packet 7 "lab" "sport/#"
      (run (sample_ops ++ [RegisterRetain "lab" "c3" (PPublish sample_retained)])) = Ok l /\
    PPublish sample_retained ∈ l.
Proof.
  destruct (retained_follows_standard sample_ops 7 "lab" "c3" "sport/#" sample_retained) as (l & Hl & Hiff).
  1-4: vm_compute; reflexivity.
  exists l. split; [exact Hl|]. apply Hiff. vm_compute. repeat constructor.
Defined.

Lemma listing_refines_table_witness :
  exists entries, entries ≡ₚ [("c1", "sport/+", 1); ("c2", "$share/team/sport/#", 2)]%string /\
    forall offset limit,
      get_topic_list_with_pagination "lab" offset limit (run sample_ops) =
        Ok (zlen entries, take (Z.to_nat limit) (drop (Z.to_nat offset) entries)).
Proof.
  destruct (listing_refines_table sample_ops "lab") as (entries & Hp & Hl);
    [repeat constructor|vm_compute; reflexivity|].
  exists entries. split; [|exact Hl]. rewrite Hp.
  vm_compute. first [reflexivity|apply perm_swap].
Defined.

Lemma snapshot_restores_witness : from_serializable (to_serializable (run sample_ops)) = run sample_ops.
Proof. exact (snapshot_restores sample_ops). Defined.

Lemma parent_level_not_delivered_witness :
  let st := run [Subscribe "public" "c1" "sport/#" 1 false false;
                 RegisterRetain "public" "c1" (PPublish sample_retained)] in
  get_subscriptions "public" "sport" st = Ok [] /\
  get_retain_publish_packet 7 "public" "sport/#" st = Ok [PPublish sample_retained].
Proof. apply (parent_level_not_delivered "c1" 1 7 sample_retained); vm_compute; reflexivity. Defined.

Lemma listing_keeps_first_qos_witness :
  let st := run [Subscribe "public" "c1" "a" 0 false false; Subscribe "public" "c1" "a" 2 false false] in
  get_subscriptions "public" "a" st = Ok [mkSubscription "c1" 2 false false None "a"] /\
  get_topic_list_with_pagination "public" 0 10 st = Ok (1, [("c1", "a", 0)]%string).
Proof. apply (listing_keeps_first_qos "c1" 0 2). vm_compute. reflexivity. Defined.
