(* ===== verification/SessionState.v ===== *)
(** * Session states ([broker/src/session/session_state_storage.rs])

    The state of each client session (pending queue, in-flight table, subscriptions,
    expiry), and the reference counts that say which stored payloads are still needed.
    The [Arc<RwLock<..>>] around a session is the value it holds: the storage is
    changed only by the state machine that owns it, one command at a time.  A
    reference count is a [u64] that counts keys held in memory, so it does not reach
    its bound; it is a [Z] here.  The clock is an argument [now]. *)

From S2P Require Import Prelude Packet Inflight.

(** [QoS] of [session_actor.rs]. *)
Inductive QoS := AtMostOnce | AtLeastOnce | ExactlyOnce.

(** [impl From<u8> for QoS]. *)
Definition qos_from_u8 {E} (q : Z) : outcome E QoS :=
  match q with
  | 0 => Ok AtMostOnce
  | 1 => Ok AtLeastOnce
  | 2 => Ok ExactlyOnce
  | _ => Panic
  end.

Inductive SessionStateStorageError :=
  | SSInflightError (e : InflightError)
  | SessionStateNotExisted (client_id : string).

Record SubscriptionState := mkSubscriptionState {
  sub_qos : QoS;
  sub_no_local : bool;
  sub_retain_as_published : bool;
}.

Record SessionState := mkSessionState {
  pending_messages : list string;
  inflight : Inflight;
  ss_subscriptions : gmap string SubscriptionState;
  disconnected_at : option Z;
  ss_protocol_version : option ProtocolVersion;
  session_expiry_interval : option Z;
  expires_at : option Z;
}.

(** [SessionState::new_with_options]. *)
Definition new_with_options (inflight_duration : Z) (protocol_version : option ProtocolVersion)
    (session_expiry_interval : option Z) : SessionState :=
  mkSessionState [] (Inflight.new inflight_duration) ∅ None protocol_version
    session_expiry_interval None.

Definition set_pending (l : list string) (s : SessionState) : SessionState :=
  mkSessionState l (inflight s) (ss_subscriptions s) (disconnected_at s) (ss_protocol_version s)
    (session_expiry_interval s) (expires_at s).
Definition set_inflight (i : Inflight) (s : SessionState) : SessionState :=
  mkSessionState (pending_messages s) i (ss_subscriptions s) (disconnected_at s)
    (ss_protocol_version s) (session_expiry_interval s) (expires_at s).
Definition set_session_subscriptions (m : gmap string SubscriptionState) (s : SessionState) :=
  mkSessionState (pending_messages s) (inflight s) m (disconnected_at s) (ss_protocol_version s)
    (session_expiry_interval s) (expires_at s).

Definition expiry_deadline (disconnected_at session_expiry_interval : Z) : option Z :=
  if session_expiry_interval =? u32_max then None
  else Some (saturating_add_u64 disconnected_at session_expiry_interval).

(** [SessionState::update_connection_state]. *)
Definition update_session_connection (disconnected_at session_expiry_interval_update : option Z)
    (s : SessionState) : SessionState :=
  let '(version, interval) :=
    match session_expiry_interval_update with
    | Some interval => (Some V5_0, Some interval)
    | None => (ss_protocol_version s, session_expiry_interval s)
    end in
  mkSessionState (pending_messages s) (inflight s) (ss_subscriptions s) disconnected_at version
    interval
    (match disconnected_at, interval with
     | Some at_, Some interval => expiry_deadline at_ interval
     | _, _ => None
     end).

Definition expired_disconnected_at (now legacy_ttl : Z) (s : SessionState) : option Z :=
  match disconnected_at s with
  | None => None
  | Some disconnected_at =>
      match session_expiry_interval s with
      | Some interval =>
          if interval =? u32_max then None
          else
            let expires_at :=
              match expires_at s with
              | Some e => e
              | None => saturating_add_u64 disconnected_at interval
              end in
            if expires_at <=? now then Some disconnected_at else None
      | None =>
          if legacy_ttl <? saturating_sub_u64 now disconnected_at then Some disconnected_at
          else None
      end
  end.

(** ** Reference counts *)

Definition inc_ref (key : string) (rc : gmap string Z) : gmap string Z :=
  <[key := match rc !! key with Some c => c + 1 | None => 1 end]> rc.

Definition dec_ref (key : string) (rc : gmap string Z) : option string * gmap string Z :=
  match rc !! key with
  | Some count =>
      let count := if 0 <? count then count - 1 else count in
      if count =? 0 then (Some key, delete key rc) else (None, <[key := count]> rc)
  | None => (None, rc)
  end.

(** [for key in keys { if let Some(k) = self.dec_ref(key) { freed_keys.push(k) } }]. *)
Fixpoint dec_refs (keys : list string) (rc : gmap string Z) : list string * gmap string Z :=
  match keys with
  | [] => ([], rc)
  | key :: keys =>
      let '(freed, rc) := dec_ref key rc in
      let '(more, rc) := dec_refs keys rc in
      (option_list freed ++ more, rc)
  end.

(** ** The storage *)

Record SessionStateStorage := mkStorage {
  sessions : gmap string (gmap string SessionState);
  ref_counts : gmap string Z;
}.

(** [SessionStateStorage::new]. *)
Definition new_session_storage : SessionStateStorage := mkStorage ∅ ∅.

Definition get_session_state (tenant_id session_id : string) (st : SessionStateStorage)
    : option SessionState :=
  match sessions st !! tenant_id with
  | Some tenant_map => tenant_map !! session_id
  | None => None
  end.

Definition session_state_exists (tenant_id session_id : string) (st : SessionStateStorage) : bool :=
  bool_decide (is_Some (get_session_state tenant_id session_id st)).

Definition set_refs (rc : gmap string Z) (st : SessionStateStorage) : SessionStateStorage :=
  mkStorage (sessions st) rc.

(** [state_arc.write()] of a session of the storage. *)
Definition put_session (tenant_id client_id : string) (s : SessionState) (st : SessionStateStorage)
    : SessionStateStorage :=
  mkStorage (alter (<[client_id := s]>) tenant_id (sessions st)) (ref_counts st).

(** [if !self.inner.contains_key(tenant_id) { self.inner.insert(.., HashMap::new()) }]. *)
Definition ensure_tenant (tenant_id : string) (st : SessionStateStorage) : SessionStateStorage :=
  match sessions st !! tenant_id with
  | Some _ => st
  | None => mkStorage (<[tenant_id := ∅]> (sessions st)) (ref_counts st)
  end.

Definition create_session_state (tenant_id session_id : string) (inflight_duration : Z)
    (protocol_version : option ProtocolVersion) (session_expiry_interval : option Z)
    (st : SessionStateStorage) : SessionStateStorage :=
  put_session tenant_id session_id
    (new_with_options inflight_duration protocol_version session_expiry_interval)
    (ensure_tenant tenant_id st).

Definition delete_session_state (tenant_id session_id : string) (st : SessionStateStorage)
    : list string * SessionStateStorage :=
  match get_session_state tenant_id session_id st with
  | Some s =>
      let '(freed1, rc) := dec_refs (pending_messages s) (ref_counts st) in
      let '(freed2, rc) := dec_refs (get_all_packet_keys (inflight s)) rc in
      (freed1 ++ freed2, mkStorage (alter (delete session_id) tenant_id (sessions st)) rc)
  | None => ([], st)
  end.

(** [key.and_then(|k| self.dec_ref(&k))]. *)
Definition dec_ref_opt (key : option string) (st : SessionStateStorage)
    : option string * SessionStateStorage :=
  match key with
  | Some k => let '(freed, rc) := dec_ref k (ref_counts st) in (freed, set_refs rc st)
  | None => (None, st)
  end.

Definition inflight_discard_unsent (tenant client : string) (id : Z) (key : string)
    (st : SessionStateStorage) : option string * SessionStateStorage :=
  match get_session_state tenant client st with
  | None => (None, st)
  | Some s =>
      let '(removed, i) := discard_unsent id key (inflight s) in
      dec_ref_opt removed (put_session tenant client (set_inflight i s) st)
  end.

Definition inflight_register_tx_packet (now : Z) (tenant_id client_id : string) (packet_id qos : Z)
    (packet_key : string) (deferred : bool) (st : SessionStateStorage)
    : outcome SessionStateStorageError (option string) * SessionStateStorage :=
  let st := ensure_tenant tenant_id st in
  match get_session_state tenant_id client_id st with
  | Some s =>
      match register_with_tx_packet now packet_id qos packet_key (inflight s) with
      | Ok (old_key, i) =>
          let i := match inner i !! packet_id with
                   | Some item => set_inner (<[packet_id := set_delivery_started (negb deferred) item]>
                                               (inner i)) i
                   | None => i
                   end in
          let st := put_session tenant_id client_id (set_inflight i s) st in
          let st := set_refs (inc_ref packet_key (ref_counts st)) st in
          let '(freed_key, st) := dec_ref_opt old_key st in
          (Ok freed_key, st)
      | Err e => (Err (SSInflightError e), st)
      | Panic => (Panic, st)
      | OutOfFuel => (OutOfFuel, st)
      end
  | None => (Err (SessionStateNotExisted client_id), st)
  end.

Definition inflight_register_rx_packet (now : Z) (tenant_id client_id : string) (packet_id qos : Z)
    (packet_key : string) (st : SessionStateStorage) : option string * SessionStateStorage :=
  let st := ensure_tenant tenant_id st in
  match get_session_state tenant_id client_id st with
  | Some s =>
      let st := set_refs (inc_ref packet_key (ref_counts st)) st in
      let '(old_key, i) := register_with_rx_packet now packet_id qos packet_key (inflight s) in
      dec_ref_opt old_key (put_session tenant_id client_id (set_inflight i s) st)
  | None => (None, st)
  end.

Definition inflight_get_packet_state (tenant_id client_id : string) (packet_identifier : Z)
    (st : SessionStateStorage) : option InflightState :=
  match get_session_state tenant_id client_id st with
  | Some s => get_inflight_current_state packet_identifier (inflight s)
  | None => None
  end.

Definition inflight_get_current_packet_key (tenant_id client_id : string) (packet_identifier : Z)
    (st : SessionStateStorage) : option string :=
  match get_session_state tenant_id client_id st with
  | Some s => get_current_packet_key packet_identifier (inflight s)
  | None => None
  end.

Definition inflight_next_state (now : Z) (tenant_id client_id : string) (packet_identifier : Z)
    (st : SessionStateStorage) : option string * SessionStateStorage :=
  match get_session_state tenant_id client_id st with
  | Some s =>
      let '(_, i) := next_state now packet_identifier (inflight s) in
      (None, put_session tenant_id client_id (set_inflight i s) st)
  | None => (None, st)
  end.

Definition inflight_clean_finished_items (tenant_id client_id : string) (st : SessionStateStorage)
    : list string * SessionStateStorage :=
  match get_session_state tenant_id client_id st with
  | Some s =>
      let '(keys, i) := clean_finished_items (inflight s) in
      let st := put_session tenant_id client_id (set_inflight i s) st in
      let '(freed_keys, rc) := dec_refs keys (ref_counts st) in
      (freed_keys, set_refs rc st)
  | None => ([], st)
  end.

Definition append_to_pending_queue (tenant_id client_id packet_key : string)
    (st : SessionStateStorage) : SessionStateStorage :=
  let st := ensure_tenant tenant_id st in
  match get_session_state tenant_id client_id st with
  | Some s =>
      let st := set_refs (inc_ref packet_key (ref_counts st)) st in
      put_session tenant_id client_id (set_pending (pending_messages s ++ [packet_key]) s) st
  | None => st
  end.

(** [Vec::pop]: the last element. *)
Definition vec_pop {A} (l : list A) : option A * list A :=
  match last l with Some a => (Some a, removelast l) | None => (None, l) end.

Definition pop_from_pending_queue (tenant_id client_id : string) (st : SessionStateStorage)
    : (option string * option string) * SessionStateStorage :=
  match get_session_state tenant_id client_id st with
  | Some s =>
      let '(key, rest) := vec_pop (pending_messages s) in
      let st := put_session tenant_id client_id (set_pending rest s) st in
      let '(freed_key, st) := dec_ref_opt key st in
      ((key, freed_key), st)
  | None => ((None, None), st)
  end.

Definition subscribe_topic_with_options (tenant_id client_id topic : string) (qos : QoS)
    (no_local retain_as_published : bool) (st : SessionStateStorage) : SessionStateStorage :=
  let st := ensure_tenant tenant_id st in
  match get_session_state tenant_id client_id st with
  | Some s =>
      put_session tenant_id client_id
        (set_session_subscriptions
           (<[topic := mkSubscriptionState qos no_local retain_as_published]> (ss_subscriptions s)) s) st
  | None => st
  end.

Definition subscribe_topic (tenant_id client_id topic : string) (qos : QoS)
    (st : SessionStateStorage) : SessionStateStorage :=
  subscribe_topic_with_options tenant_id client_id topic qos false false st.

Definition unsubscribe_topic (tenant_id client_id topic : string) (st : SessionStateStorage)
    : SessionStateStorage :=
  match get_session_state tenant_id client_id st with
  | Some s =>
      put_session tenant_id client_id
        (set_session_subscriptions (delete topic (ss_subscriptions s)) s) st
  | None => st
  end.

(** The two nested loops, in the order of the maps. *)
Definition scan_expired_sessions (now ttl : Z) (st : SessionStateStorage)
    : list (string * string * Z) :=
  concat (map (fun '(tenant_id, tenant_map) =>
    concat (map (fun '(client_id, s) =>
      match expired_disconnected_at now ttl s with
      | Some at_ => [(tenant_id, client_id, at_)]
      | None => []
      end) (map_to_list tenant_map))) (map_to_list (sessions st))).

Definition update_connection_state (tenant_id client_id : string)
    (disconnected_at session_expiry_interval_update : option Z) (st : SessionStateStorage)
    : SessionStateStorage :=
  match get_session_state tenant_id client_id st with
  | Some s =>
      put_session tenant_id client_id
        (update_session_connection disconnected_at session_expiry_interval_update s) st
  | None => st
  end.
