(* ===== verification/SessionRefs.v ===== *)
(** * Reference counts say what is held

    The keys a storage holds, with repetitions, and the proof that its reference
    counts count them and that a key is freed exactly when its last holder goes.  A
    session that is created over another one forgets what that one held and not the
    counts: these keys are [lost], and counted for ever. *)

From S2P Require Import Prelude Packet Inflight SessionState.
From Stdlib Require String.

(** ** Counting *)

Definition occ (k : string) (l : list string) : Z := Z.of_nat (count_occ String.string_dec l k).

(** [rc] counts the keys of [l]. *)
Definition counts (l : list string) (rc : gmap string Z) : Prop :=
  forall k, rc !! k = if decide (k ∈ l) then Some (occ k l) else None.

Lemma occ_pos k l : 0 < occ k l <-> k ∈ l.
Proof.
  unfold occ. rewrite list_elem_of_In, (count_occ_In String.string_dec). lia.
Qed.

Lemma occ_zero k l : k ∉ l -> occ k l = 0.
Proof. rewrite <-occ_pos. unfold occ. lia. Qed.

Lemma occ_cons k j l : occ k (j :: l) = (if decide (j = k) then 1 else 0) + occ k l.
Proof.
  unfold occ. simpl. destruct (String.string_dec j k) as [->|Hne];
    [rewrite decide_True by done|rewrite decide_False by done]; lia.
Qed.

#[global] Instance counts_perm : Proper ((≡ₚ) ==> (=) ==> iff) counts.
Proof.
  assert (forall l l' rc, l ≡ₚ l' -> counts l rc -> counts l' rc) as H.
  { intros l l' rc Hp Hc k. rewrite (Hc k). unfold occ.
    rewrite (proj1 (Permutation_count_occ String.string_dec l l') Hp k).
    apply decide_ext. by rewrite Hp. }
  intros l l' Hp rc ? <-. by split; apply H.
Qed.

Lemma counts_lookup l rc k : counts l rc -> k ∉ l -> rc !! k = None.
Proof. intros Hc Hk. by rewrite Hc, decide_False. Qed.

Lemma counts_inc l rc k : counts l rc -> counts (k :: l) (inc_ref k rc).
Proof.
  intros Hc j. unfold inc_ref. rewrite occ_cons, Hc. destruct (decide (k = j)) as [->|Hne].
  - rewrite lookup_insert_eq, (decide_True (P := j ∈ j :: l)) by set_solver.
    case_decide as Hj; [f_equal; lia|]. f_equal.
    by rewrite (occ_zero j l).
  - rewrite lookup_insert_ne, Hc by done. rewrite Z.add_0_l.
    apply decide_ext. set_solver.
Qed.

Lemma counts_dec l rc k :
  counts (k :: l) rc ->
  (dec_ref k rc).1 = (if decide (k ∈ l) then None else Some k) /\ counts l (dec_ref k rc).2.
Proof.
  intros Hc. unfold dec_ref. rewrite (Hc k), decide_True by set_solver.
  rewrite occ_cons, decide_True by done. pose proof (occ_pos k l) as Hp.
  assert (0 <= occ k l) by (unfold occ; lia).
  rewrite (proj2 (Z.ltb_lt 0 _)) by lia. replace (1 + occ k l - 1) with (occ k l) by lia.
  case_decide as Hk.
  - rewrite (proj2 (Z.eqb_neq _ _)) by (apply Hp in Hk; lia). split; [done|]. intros j. simpl.
    destruct (decide (k = j)) as [<-|Hne]; [by rewrite lookup_insert_eq, decide_True|].
    rewrite lookup_insert_ne, (Hc j), occ_cons by done.
    rewrite (decide_False (P := k = j)), Z.add_0_l by done. apply decide_ext. set_solver.
  - rewrite (proj2 (Z.eqb_eq _ _)) by (by apply occ_zero).
    split; [done|]. intros j. simpl. destruct (decide (k = j)) as [<-|Hne].
    + by rewrite lookup_delete_eq, decide_False.
    + rewrite lookup_delete_ne, (Hc j), occ_cons by done.
      rewrite (decide_False (P := k = j)), Z.add_0_l by done. apply decide_ext. set_solver.
Qed.

(** Dropping [keys]: what is freed is what nothing else holds, each key once. *)
Lemma counts_dec_refs keys l rc :
  counts (keys ++ l) rc ->
  let '(freed, rc') := dec_refs keys rc in
  counts l rc' /\ NoDup freed /\ forall k, k ∈ freed <-> k ∈ keys /\ k ∉ l.
Proof.
  revert rc. induction keys as [|key keys IH]; intros rc Hc; simpl.
  { split_and!; [done|constructor|set_solver]. }
  destruct (dec_ref key rc) as [freed rc1] eqn:Hd. pose proof (counts_dec _ _ _ Hc) as [Hf Hc1].
  rewrite Hd in Hf, Hc1. simpl in Hf, Hc1. specialize (IH rc1 Hc1).
  destruct (dec_refs keys rc1) as [more rc2]. destruct IH as (Hc2 & Hnd & Hiff).
  split; [done|]. subst freed. case_decide as Hk; simpl.
  - split; [done|]. intros k. rewrite Hiff. set_solver.
  - split; [constructor; [set_solver|done]|]. intros k. set_solver.
Qed.

(** ** What a storage holds *)

Definition session_keys (s : SessionState) : list string :=
  pending_messages s ++ get_all_packet_keys (inflight s).

Definition held (st : SessionStateStorage) : list string := flat (flat session_keys) (sessions st).

Section Lost.
Context (lost : list string).

(** The counts are those of the keys that are held or lost. *)
Definition refs_ok (st : SessionStateStorage) : Prop := counts (lost ++ held st) (ref_counts st).

Lemma held_set_refs rc st : held (set_refs rc st) = held st.
Proof. done. Qed.
Lemma held_ensure t st : held (ensure_tenant t st) ≡ₚ held st.
Proof.
  unfold ensure_tenant, held. destruct (sessions st !! t) eqn:E; [done|]. simpl.
  rewrite flat_insert_new by done. by rewrite flat_empty.
Qed.
Lemma ref_counts_ensure t st : ref_counts (ensure_tenant t st) = ref_counts st.
Proof. unfold ensure_tenant. by destruct (sessions st !! t). Qed.
Lemma refs_ensure t st : refs_ok st -> refs_ok (ensure_tenant t st).
Proof. unfold refs_ok. by rewrite held_ensure, ref_counts_ensure. Qed.
Lemma get_ensure t t' c st : get_session_state t' c (ensure_tenant t st) = get_session_state t' c st.
Proof.
  unfold ensure_tenant, get_session_state. destruct (sessions st !! t) eqn:E; [done|]. simpl.
  destruct (decide (t = t')) as [<-|Hne].
  - by rewrite lookup_insert_eq, E, lookup_empty.
  - by rewrite lookup_insert_ne.
Qed.

(** One session's keys and the rest. *)
Lemma held_session t c st s :
  get_session_state t c st = Some s ->
  exists rest, held st ≡ₚ session_keys s ++ rest /\
    (forall s', held (put_session t c s' st) ≡ₚ session_keys s' ++ rest) /\
    held (mkStorage (alter (delete c) t (sessions st)) (ref_counts st)) ≡ₚ rest.
Proof.
  unfold get_session_state, held, put_session. destruct (sessions st !! t) as [m|] eqn:Ht; [|done].
  intros Hc. exists (flat session_keys (delete c m) ++ flat (flat session_keys) (delete t (sessions st))).
  assert (forall f, flat (flat session_keys) (alter f t (sessions st)) ≡ₚ
    flat session_keys (f m) ++ flat (flat session_keys) (delete t (sessions st))) as Halter.
  { intros f. rewrite (flat_delete _ _ t (f m)) by (by rewrite lookup_alter_eq, Ht).
    by rewrite delete_alter_eq. }
  split_and!; simpl.
  - rewrite (flat_delete _ _ _ _ Ht), (flat_delete _ _ _ _ Hc). by rewrite app_assoc.
  - intros s'. by rewrite Halter, flat_insert, app_assoc.
  - by rewrite Halter.
Qed.

Lemma put_session_refs t c s st : ref_counts (put_session t c s st) = ref_counts st.
Proof. done. Qed.

(** A session whose keys stay changes nothing. *)
Lemma refs_put_same t c s s' st :
  get_session_state t c st = Some s -> session_keys s' ≡ₚ session_keys s -> refs_ok st ->
  refs_ok (put_session t c s' st) /\ held (put_session t c s' st) ≡ₚ held st.
Proof.
  intros Hs Hk Hr. destruct (held_session t c st s Hs) as (rest & Hh & Hput & _).
  assert (held (put_session t c s' st) ≡ₚ held st) as Heq by (by rewrite Hput, Hh, Hk).
  split; [|done]. unfold refs_ok. by rewrite Heq.
Qed.

(** ** A command and the keys it frees *)

(** The counts stay right, [freed] is what was held and no longer is and was not lost, once
    each, and what is held now was held or is [added]. *)
Definition frees (added freed : list string) (st st' : SessionStateStorage) : Prop :=
  refs_ok st' /\ NoDup freed /\ (forall k, k ∈ freed <-> k ∈ held st /\ k ∉ held st' /\ k ∉ lost) /\
  (forall k, k ∈ held st' -> k ∈ held st \/ k ∈ added).

Lemma frees_nothing added st st' : refs_ok st' -> held st ≡ₚ held st' -> frees added [] st st'.
Proof.
  intros Hr Hs. split_and!; [done|constructor|..]; intros k; rewrite Hs; [set_solver|by left].
Qed.

(** The shape of all commands on one session: [added] keys, which stay, are counted,
    then [dropped] ones are released. *)
Lemma frees_update t c s s' st added dropped rc :
  get_session_state t c st = Some s ->
  added ++ session_keys s ≡ₚ dropped ++ session_keys s' -> added ⊆ session_keys s' ->
  counts (added ++ lost ++ held st) rc ->
  let '(freed, rc') := dec_refs dropped rc in
  frees added freed st (set_refs rc' (put_session t c s' st)).
Proof.
  intros Hs Hk Hadd Hc. destruct (held_session t c st s Hs) as (rest & Hh & Hput & _).
  assert (added ++ lost ++ session_keys s ++ rest ≡ₚ dropped ++ lost ++ held (put_session t c s' st)) as Hperm.
  { rewrite (Hput s'). transitivity (lost ++ (added ++ session_keys s) ++ rest); [solve_Permutation|].
    rewrite Hk. solve_Permutation. }
  rewrite Hh, Hperm in Hc.
  pose proof (counts_dec_refs _ _ _ Hc) as H. destruct (dec_refs dropped rc) as [freed rc'].
  destruct H as (Hc' & Hnd & Hiff).
  assert (forall k, k ∈ added ++ session_keys s <-> k ∈ dropped ++ session_keys s') as Hmem
    by (intros k; by rewrite Hk).
  split_and!; [done|done|..]; intros k; specialize (Hmem k);
    rewrite ?Hiff, held_set_refs, (Hput s'), Hh, !elem_of_app in *; set_solver.
Qed.

Lemma dec_refs_opt o rc : dec_refs (option_list o) rc =
  match o with Some k => (option_list (dec_ref k rc).1, (dec_ref k rc).2) | None => ([], rc) end.
Proof. destruct o as [k|]; simpl; [|done]. destruct (dec_ref k rc) as [[]]; done. Qed.

Lemma dec_ref_opt_refs o st :
  (option_list (dec_ref_opt o st).1, (dec_ref_opt o st).2)
  = let '(freed, rc) := dec_refs (option_list o) (ref_counts st) in (freed, set_refs rc st).
Proof.
  rewrite dec_refs_opt. destruct o as [k|]; simpl.
  - by destruct (dec_ref k (ref_counts st)) as [[]].
  - by destruct st.
Qed.

(** ** The operations *)

Lemma dec_ref_opt_frees added o st st0 :
  (let '(freed, rc) := dec_refs (option_list o) (ref_counts st) in
   frees added freed st0 (set_refs rc st)) ->
  frees added (option_list (dec_ref_opt o st).1) st0 (dec_ref_opt o st).2.
Proof.
  pose proof (dec_ref_opt_refs o st) as H. destruct (dec_refs _ _) as [freed rc].
  by injection H as -> ->.
Qed.

Lemma session_keys_inflight s i :
  session_keys (set_inflight i s) = pending_messages s ++ get_all_packet_keys i.
Proof. done. Qed.

Lemma discard_unsent_frees t c id key st :
  refs_ok st ->
  let '(freed, st') := inflight_discard_unsent t c id key st in frees [] (option_list freed) st st'.
Proof.
  intros Hr. unfold inflight_discard_unsent. destruct (get_session_state t c st) as [s|] eqn:Hs.
  2: by apply frees_nothing.
  pose proof (discard_unsent_keys id key (inflight s)) as Hk.
  destruct (discard_unsent id key (inflight s)) as [removed i].
  rewrite (surjective_pairing (dec_ref_opt _ _)). apply dec_ref_opt_frees.
  apply (frees_update t c s _ st []); [done| |set_solver|done].
  rewrite session_keys_inflight. unfold session_keys. rewrite Hk.
  simpl. rewrite !app_assoc. apply Permutation_app; [apply Permutation_app_comm|done].
Qed.

Lemma frees_ensure added freed t st st' :
  frees added freed (ensure_tenant t st) st' -> frees added freed st st'.
Proof.
  intros (? & ? & Hiff & Hin). split_and!; [done..| |]; intros k;
    [by rewrite Hiff, held_ensure|intros Hk%Hin; by rewrite held_ensure in Hk].
Qed.

Lemma rx_keys now id qos key i :
  qos = 1 \/ qos = 2 -> key ∈ get_all_packet_keys (register_with_rx_packet now id qos key i).2.
Proof.
  intros Hq. unfold register_with_rx_packet, get_all_packet_keys. apply elem_of_flat.
  destruct Hq as [-> | ->]; simpl; eexists id, _; (split; [apply lookup_insert_eq|]); set_solver.
Qed.

Lemma register_rx_frees now t c id qos key st :
  refs_ok st -> qos = 1 \/ qos = 2 ->
  let '(freed, st') := inflight_register_rx_packet now t c id qos key st in
  frees [key] (option_list freed) st st'.
Proof.
  intros Hr Hq. unfold inflight_register_rx_packet. rewrite get_ensure.
  destruct (get_session_state t c st) as [s|] eqn:Hs.
  2: { apply (frees_ensure _ _ t), frees_nothing; [by apply refs_ensure|done]. }
  pose proof (register_rx_keys now id qos key (inflight s)) as Hk.
  pose proof (rx_keys now id qos key (inflight s) Hq) as Hin.
  destruct (register_with_rx_packet now id qos key (inflight s)) as [old i]. simpl in Hin.
  rewrite (surjective_pairing (dec_ref_opt _ _)). apply dec_ref_opt_frees.
  set (st1 := ensure_tenant t st).
  pose proof (frees_update t c s (set_inflight i s) st1 [key] (option_list old)
    (inc_ref key (ref_counts st1))) as H.
  simpl in *. destruct (dec_refs _ _) as [freed rc]. apply (frees_ensure _ _ t), H.
  - by unfold st1; rewrite get_ensure.
  - rewrite session_keys_inflight. unfold session_keys.
    replace ((qos =? 2) || (qos =? 1)) with true in Hk by (destruct Hq as [-> | ->]; done).
    simpl in Hk. rewrite (Permutation_app_comm (pending_messages s) (get_all_packet_keys i)).
    rewrite app_assoc, Hk. simpl. constructor. apply Permutation_app_comm.
  - rewrite session_keys_inflight. set_solver.
  - apply counts_inc. by apply refs_ensure.
Qed.

Lemma started_keys id b i :
  get_all_packet_keys (match inner i !! id with
    | Some item => set_inner (<[id := set_delivery_started b item]> (inner i)) i
    | None => i end) ≡ₚ get_all_packet_keys i.
Proof.
  unfold get_all_packet_keys. destruct (inner i !! id) as [it|] eqn:E; [|done]. simpl.
  by rewrite flat_insert, (flat_delete _ _ _ _ E).
Qed.

Lemma register_tx_frees now t c id qos key deferred st :
  refs_ok st -> qos = 1 \/ qos = 2 ->
  let '(r, st') := inflight_register_tx_packet now t c id qos key deferred st in
  match r with
  | Ok freed => frees [key] (option_list freed) st st'
  | Err _ => frees [key] [] st st'
  | _ => False
  end.
Proof.
  intros Hr Hq. unfold inflight_register_tx_packet. rewrite get_ensure.
  assert (frees [key] [] st (ensure_tenant t st)) as Hnone
    by (apply (frees_ensure _ _ t), frees_nothing; [by apply refs_ensure|done]).
  destruct (get_session_state t c st) as [s|] eqn:Hs; [|done].
  destruct (register_with_tx_packet now id qos key (inflight s)) as [[old i]|e| |] eqn:Hreg.
  3, 4: unfold register_with_tx_packet in Hreg; by destruct (packet_id_exists id (inflight s)).
  2: done.
  apply register_tx_keys in Hreg as (_ & -> & Hk).
  replace ((qos =? 2) || (qos =? 1)) with true in Hk by (destruct Hq as [-> | ->]; done).
  rewrite (surjective_pairing (dec_ref_opt _ _)). cbn [fst snd]. apply dec_ref_opt_frees.
  set (st1 := ensure_tenant t st). set (i' := match inner i !! id with Some _ => _ | None => i end).
  pose proof (started_keys id (negb deferred) i) as Hst. fold i' in Hst.
  pose proof (frees_update t c s (set_inflight i' s) st1 [key] [] (inc_ref key (ref_counts st1))) as H.
  simpl in *. apply (frees_ensure _ _ t), H.
  - by unfold st1; rewrite get_ensure.
  - rewrite session_keys_inflight. unfold session_keys. rewrite Hst, Hk. simpl.
    by rewrite Permutation_middle.
  - rewrite session_keys_inflight, Hst, Hk. set_solver.
  - apply counts_inc. by apply refs_ensure.
Qed.

(** Commands that keep a session's keys free nothing. *)
Lemma frees_keep t c st f :
  refs_ok st -> (forall s, session_keys (f s) ≡ₚ session_keys s) ->
  frees [] [] st (match get_session_state t c st with Some s => put_session t c (f s) st | None => st end).
Proof.
  intros Hr Hf. destruct (get_session_state t c st) as [s|] eqn:Hs; [|by apply frees_nothing].
  destruct (refs_put_same t c s (f s) st Hs (Hf s) Hr) as [Hr' Hh].
  by apply frees_nothing.
Qed.

Lemma next_state_frees now t c id st :
  refs_ok st ->
  let '(freed, st') := inflight_next_state now t c id st in frees [] (option_list freed) st st'.
Proof.
  intros Hr. unfold inflight_next_state.
  pose proof (frees_keep t c st (fun s => set_inflight (next_state now id (inflight s)).2 s) Hr) as H.
  destruct (get_session_state t c st) as [s|]; [|by apply frees_nothing].
  rewrite (surjective_pairing (next_state _ _ _)). apply H.
  intros s0. rewrite session_keys_inflight, next_state_keys. done.
Qed.

Lemma clean_frees t c st :
  refs_ok st ->
  let '(freed, st') := inflight_clean_finished_items t c st in frees [] freed st st'.
Proof.
  intros Hr. unfold inflight_clean_finished_items.
  destruct (get_session_state t c st) as [s|] eqn:Hs; [|by apply frees_nothing].
  pose proof (clean_finished_keys (inflight s)) as Hk.
  destruct (clean_finished_items (inflight s)) as [keys i].
  pose proof (frees_update t c s (set_inflight i s) st [] keys (ref_counts st) Hs) as H.
  simpl in *. destruct (dec_refs keys (ref_counts st)) as [freed rc]. apply H; [|set_solver|done].
  rewrite session_keys_inflight. unfold session_keys. rewrite Hk.
  rewrite !app_assoc. apply Permutation_app; [apply Permutation_app_comm|done].
Qed.

Lemma append_frees t c key st : refs_ok st -> frees [key] [] st (append_to_pending_queue t c key st).
Proof.
  intros Hr. unfold append_to_pending_queue. rewrite get_ensure.
  destruct (get_session_state t c st) as [s|] eqn:Hs.
  2: { apply (frees_ensure _ _ t), frees_nothing; [by apply refs_ensure|done]. }
  set (st1 := ensure_tenant t st).
  pose proof (frees_update t c s (set_pending (pending_messages s ++ [key]) s) st1 [key] []
    (inc_ref key (ref_counts st1))) as H.
  simpl in *. apply (frees_ensure _ _ t), H.
  - by unfold st1; rewrite get_ensure.
  - unfold session_keys. simpl. rewrite <-app_assoc. simpl. by rewrite Permutation_middle.
  - unfold session_keys. simpl. set_solver.
  - apply counts_inc. by apply refs_ensure.
Qed.

Lemma vec_pop_spec {A} (l : list A) :
  let '(x, rest) := vec_pop l in l = rest ++ option_list x.
Proof.
  unfold vec_pop. destruct l as [|a l _] using rev_ind; [done|].
  by rewrite last_snoc, removelast_last.
Qed.

Lemma pop_frees t c st :
  refs_ok st ->
  let '(_, freed, st') := pop_from_pending_queue t c st in frees [] (option_list freed) st st'.
Proof.
  intros Hr. unfold pop_from_pending_queue.
  destruct (get_session_state t c st) as [s|] eqn:Hs; [|by apply frees_nothing].
  pose proof (vec_pop_spec (pending_messages s)) as Hk.
  destruct (vec_pop (pending_messages s)) as [key rest].
  rewrite (surjective_pairing (dec_ref_opt _ _)). apply dec_ref_opt_frees.
  apply (frees_update t c s _ st []); [done| |set_solver|done].
  unfold session_keys. rewrite Hk. simpl.
  rewrite (Permutation_app_comm rest), <-app_assoc. done.
Qed.

Lemma create_frees t c d v e st :
  refs_ok st -> get_session_state t c st = None -> frees [] [] st (create_session_state t c d v e st).
Proof.
  intros Hr Hnone. unfold create_session_state. apply (frees_ensure _ _ t).
  set (st1 := ensure_tenant t st). assert (refs_ok st1) as Hr1 by (by apply refs_ensure).
  assert (held (put_session t c (new_with_options d v e) st1) ≡ₚ held st1) as Hh.
  { assert (get_session_state t c st1 = None) as Hn1 by (unfold st1; by rewrite get_ensure).
    assert (is_Some (sessions st1 !! t)) as [m Hm].
    { unfold st1, ensure_tenant. destruct (sessions st !! t) eqn:E; [eauto|].
      simpl. rewrite lookup_insert_eq. eauto. }
    unfold get_session_state in Hn1. rewrite Hm in Hn1. unfold held, put_session. simpl.
    rewrite (flat_delete _ _ t (<[c := new_with_options d v e]> m))
      by (by rewrite lookup_alter_eq, Hm).
    by rewrite delete_alter_eq, flat_insert_new, (flat_delete _ _ _ _ Hm). }
  apply frees_nothing; [unfold refs_ok; by rewrite Hh|done].
Qed.

Lemma dec_refs_app l1 l2 rc :
  dec_refs (l1 ++ l2) rc =
    let '(f1, rc) := dec_refs l1 rc in let '(f2, rc) := dec_refs l2 rc in (f1 ++ f2, rc).
Proof.
  revert rc. induction l1 as [|k l1 IH]; intros rc; simpl; [by destruct (dec_refs l2 rc)|].
  destruct (dec_ref k rc) as [f rc1]. rewrite IH. destruct (dec_refs l1 rc1) as [f1 rc2].
  destruct (dec_refs l2 rc2) as [f2 rc3]. by rewrite app_assoc.
Qed.

Lemma delete_frees t c st :
  refs_ok st -> let '(freed, st') := delete_session_state t c st in frees [] freed st st'.
Proof.
  intros Hr. unfold delete_session_state.
  destruct (get_session_state t c st) as [s|] eqn:Hs; [|by apply frees_nothing].
  destruct (held_session t c st s Hs) as (rest & Hh & _ & Hdel).
  unfold refs_ok in Hr. rewrite Hh in Hr.
  assert (lost ++ session_keys s ++ rest ≡ₚ session_keys s ++ lost ++ rest) as Hperm by solve_Permutation.
  rewrite Hperm in Hr. pose proof (counts_dec_refs _ _ _ Hr) as H.
  unfold session_keys in H. rewrite dec_refs_app in H.
  destruct (dec_refs (pending_messages s) (ref_counts st)) as [f1 rc1].
  destruct (dec_refs (get_all_packet_keys (inflight s)) rc1) as [f2 rc2].
  destruct H as (Hc & Hnd & Hiff).
  assert (held (mkStorage (alter (delete c) t (sessions st)) rc2) ≡ₚ rest) as Hdel' by exact Hdel.
  split_and!; [unfold refs_ok; by rewrite Hdel'|done|..];
    intros k; rewrite ?Hiff, Hdel', Hh; unfold session_keys; set_solver.
Qed.

End Lost.

(** A session that is created over another one. *)
Lemma recreate_loses lost t c d v e st s :
  refs_ok lost st -> get_session_state t c st = Some s ->
  let st' := create_session_state t c d v e st in
  refs_ok (session_keys s ++ lost) st' /\ held st ≡ₚ session_keys s ++ held st' /\ ref_counts st' = ref_counts st.
Proof.
  intros Hr Hs. cbv zeta. unfold create_session_state. set (st1 := ensure_tenant t st).
  assert (get_session_state t c st1 = Some s) as Hs1 by (unfold st1; by rewrite get_ensure).
  destruct (held_session t c st1 s Hs1) as (rest & Hh & Hput & _).
  assert (held (put_session t c (new_with_options d v e) st1) ≡ₚ rest) as Hnew by (by rewrite Hput).
  assert (held st ≡ₚ session_keys s ++ rest) as Hold by (rewrite <-Hh; unfold st1; by rewrite held_ensure).
  split_and!; [|by rewrite Hnew|apply ref_counts_ensure].
  unfold refs_ok in *. rewrite put_session_refs, Hnew. unfold st1. rewrite ref_counts_ensure.
  assert ((session_keys s ++ lost) ++ rest ≡ₚ lost ++ session_keys s ++ rest) as -> by solve_Permutation.
  by rewrite <-Hold.
Qed.

(** ** Theorems on sessions *)

(** a session that was disconnected is expired exactly when its own interval has
    run out since then, never when the interval is the greatest one, and after the
    legacy time to live when it has none; a connected session never is. *)
Theorem session_expiry_rule (s : SessionState) (at_ interval now ttl : Z) :
  0 <= now <= u64_max -> 0 <= at_ <= u64_max -> 0 <= interval <= u32_max ->
  expired_disconnected_at now ttl (update_session_connection (Some at_) (Some interval) s)
    = (if decide (interval <> u32_max /\ Z.min (at_ + interval) u64_max <= now) then Some at_ else None) /\
  (session_expiry_interval s = None ->
   expired_disconnected_at now ttl (update_session_connection (Some at_) None s)
    = if decide (ttl < Z.max (now - at_) 0) then Some at_ else None) /\
  (forall update, expired_disconnected_at now ttl (update_session_connection None update s) = None).
Proof.
  intros Hnow Hat Hi. split_and!.
  - unfold expired_disconnected_at, update_session_connection, expiry_deadline, saturating_add_u64. simpl.
    destruct (Z.eqb_spec interval u32_max) as [->|Hne].
    + by rewrite decide_False by tauto.
    + destruct (Z.leb_spec (Z.min (at_ + interval) u64_max) now);
        [by rewrite decide_True|by rewrite decide_False by lia].
  - intros Hnone. unfold expired_disconnected_at, update_session_connection, saturating_sub_u64.
    rewrite Hnone. simpl.
    destruct (Z.ltb_spec ttl (Z.max (now - at_) 0)); [by rewrite decide_True|by rewrite decide_False by lia].
  - intros update. unfold expired_disconnected_at, update_session_connection. by destruct update.
Qed.

(** the scan for expired sessions lists exactly the sessions of the storage that are
    expired, with the time they were disconnected. *)
Theorem scan_lists_expired (now ttl at_ : Z) (t c : string) (st : SessionStateStorage) :
  (t, c, at_) ∈ scan_expired_sessions now ttl st <->
  exists s, get_session_state t c st = Some s /\ expired_disconnected_at now ttl s = Some at_.
Proof.
  unfold scan_expired_sessions, get_session_state.
  rewrite list_elem_of_In, in_concat. split.
  - intros (l & ([t' m] & <- & Hm)%in_map_iff & Hx).
    apply in_concat in Hx as (l' & ([c' s] & <- & Hs)%in_map_iff & Hx).
    apply list_elem_of_In, elem_of_map_to_list in Hm, Hs.
    destruct (expired_disconnected_at now ttl s) as [a|] eqn:E; [|done].
    destruct Hx as [[= <- <- <-]|[]]. exists s. by rewrite Hm.
  - intros (s & Hs & E). destruct (sessions st !! t) as [m|] eqn:Hm; [|done].
    eexists. split.
    + apply in_map_iff. exists (t, m). split; [reflexivity|].
      by apply list_elem_of_In, elem_of_map_to_list.
    + apply in_concat. exists [(t, c, at_)]. split; [|by left].
      apply in_map_iff. exists (c, s). rewrite E. split; [done|].
      by apply list_elem_of_In, elem_of_map_to_list.
Qed.

Lemma get_put t c st s s' :
  get_session_state t c st = Some s -> get_session_state t c (put_session t c s' st) = Some s'.
Proof.
  unfold get_session_state, put_session. simpl. destruct (sessions st !! t) as [m|] eqn:Hm; [|done].
  intros _. rewrite lookup_alter_eq, Hm. apply lookup_insert_eq.
Qed.

Lemma get_append t c k st s :
  get_session_state t c st = Some s ->
  get_session_state t c (append_to_pending_queue t c k st) = Some (set_pending (pending_messages s ++ [k]) s).
Proof.
  intros Hs. unfold append_to_pending_queue. rewrite get_ensure, Hs. apply (get_put _ _ _ s).
  change (get_session_state t c (ensure_tenant t st) = Some s). by rewrite get_ensure.
Qed.

Lemma pop_snoc t c k l st s :
  get_session_state t c st = Some s -> pending_messages s = l ++ [k] ->
  exists freed st', pop_from_pending_queue t c st = ((Some k, freed), st') /\
    get_session_state t c st' = Some (set_pending l s).
Proof.
  intros Hs Hl. unfold pop_from_pending_queue, vec_pop. rewrite Hs, Hl, last_snoc, removelast_last.
  simpl. destruct (dec_ref k (ref_counts st)) as [freed rc]. eexists _, _. split; [done|].
  change (get_session_state t c (put_session t c (set_pending l s) st) = Some (set_pending l s)).
  by apply (get_put _ _ _ s).
Qed.

(** the pending queue gives back the message stored last, so that of two messages
    kept for an absent client the later one is delivered first. *)
Theorem pending_queue_is_lifo (t c k1 k2 : string) (st : SessionStateStorage) (s : SessionState) :
  get_session_state t c st = Some s ->
  let st2 := append_to_pending_queue t c k2 (append_to_pending_queue t c k1 st) in
  let '((first, _), st3) := pop_from_pending_queue t c st2 in
  let '((second, _), _) := pop_from_pending_queue t c st3 in
  first = Some k2 /\ second = Some k1.
Proof.
  intros Hs. pose proof (get_append _ _ k2 _ _ (get_append _ _ k1 _ _ Hs)) as H2. cbv zeta.
  destruct (pop_snoc _ _ _ _ _ _ H2 eq_refl) as (f & st3 & -> & H3).
  by destruct (pop_snoc _ _ k1 (pending_messages s) _ _ H3 eq_refl) as (f' & st4 & -> & _).
Qed.

(** *** Witnesses *)

Lemma session_expiry_rule_witness :
  expired_disconnected_at 160 1000 (update_session_connection (Some 100) (Some 60) (new_with_options 5 None None))
  = Some 100.
Proof.
  refine (eq_trans (proj1 (session_expiry_rule (new_with_options 5 None None) 100 60 160 1000 _ _ _)) _);
    unfold u64_max, u32_max; first [lia|vm_compute; reflexivity].
Defined.

Lemma pending_queue_is_lifo_witness :
  let st := create_session_state "t" "c" 5 None None new_session_storage in
  let st2 := append_to_pending_queue "t" "c" "second" (append_to_pending_queue "t" "c" "first" st) in
  (pop_from_pending_queue "t" "c" st2).1.1 = Some "second"%string.
Proof.
  intros st. pose proof (pending_queue_is_lifo "t" "c" "first" "second" st
    (new_with_options 5 None None) eq_refl) as H. cbv zeta in H |- *.
  destruct (pop_from_pending_queue "t" "c" (append_to_pending_queue "t" "c" "second" _)) as [[first f] st3].
  destruct (pop_from_pending_queue "t" "c" st3) as [[second ?] ?]. exact (proj1 H).
Defined.
