(* ===== verification/RaftSession.v ===== *)
(** * The replicated session state machine ([broker/src/raft/session_state/store.rs],
    [types.rs])

    Committed log entries are applied in order to the session storage; the keys a
    command frees are queued for garbage collection, and purging the log deletes the
    queued payloads.  The consensus library decides what is committed; RocksDB keeps
    the payloads and the queue's records.  A read, write or deletion there may fail:
    the results are the functions [get_ok], [put_ok], [delete_payload], [delete_ok] and
    [contains_ok].
    The state machine and the log store share the queue and the payload store, so they
    are one state here. *)

From S2P Require Import Prelude Packet Inflight SessionState SessionRefs.

Inductive SessionStateRequest :=
  | CreateSessionState (tenant_id client_id : string) (inflight_duration_secs : Z)
      (protocol_version : option ProtocolVersion) (session_expiry_interval : option Z)
  | DeleteSessionState (tenant_id client_id : string) (expected_disconnected_at : option Z)
  | InflightRegisterRxPacket (tenant_id client_id : string) (packet_id qos : Z) (packet_key : string)
  | InflightRegisterTxPacket (tenant_id client_id : string) (packet_id qos : Z) (packet_key : string)
      (deferred : bool)
  | InflightStartDelivery (tenant_id client_id : string) (packet_id : Z) (packet_key : string)
  | InflightDiscardUnsent (tenant_id client_id : string) (packet_id : Z) (packet_key : string)
  | InflightGetCurrentPacket (tenant_id client_id : string) (packet_identifier : Z)
  | InflightNextState (tenant_id client_id : string) (packet_identifier : Z)
  | InflightCleanFinishItems (tenant_id client_id : string)
  | AppendToPendingQueue (tenant_id client_id packet_key : string)
  | PopFromPendingQueue (tenant_id client_id : string)
  | SubscribeTopic (tenant_id client_id topic : string) (qos : Z) (no_local retain_as_published : bool)
  | UnsubscribeTopic (tenant_id client_id topic : string)
  | UpdateSessionConnectionState (tenant_id client_id : string)
      (disconnected_at session_expiry_interval_update : option Z).

Inductive SessionStateResponse :=
  | InflightStartDeliveryResult (started : bool)
  | InflightGetCurrentPacketResult (key : option string)
  | InflightRegisterTxPacketResponse (r : outcome SessionStateStorageError unit)
  | InflightRegisterRxPacketResponse (r : outcome SessionStateStorageError unit)
  | PopFromPendingQueueResult (key : option string) (payload : option bytes)
  | RespNone.

(** [openraft::EntryPayload]; the membership is the library's. *)
Inductive EntryPayload := Blank | Normal (req : SessionStateRequest) | Membership.
Record Entry := mkEntry { e_index : Z; e_term : Z; e_payload : EntryPayload }.

Record PayloadGcItem := mkGcItem {
  delete_after_log_index : Z;
  gc_key : string;
  payload_deleted : bool;
}.

(** [StateMachineStore] and [LogStore]: the storage, the shared queue, the records of the
    queue in the database, the payloads, and the log. *)
Record Store := mkStore {
  last_applied : option Z;
  session_state_storage : SessionStateStorage;
  payload_gc_queue : list PayloadGcItem;
  gc_records : gset (Z * string);
  payloads : gmap string bytes;
  logs : gmap Z Entry;
  last_purged : option Z;
}.

Definition set_storage (st : SessionStateStorage) (n : Store) : Store :=
  mkStore (last_applied n) st (payload_gc_queue n) (gc_records n) (payloads n) (logs n) (last_purged n).
Definition set_queue (q : list PayloadGcItem) (n : Store) : Store :=
  mkStore (last_applied n) (session_state_storage n) q (gc_records n) (payloads n) (logs n) (last_purged n).
Definition set_records (r : gset (Z * string)) (n : Store) : Store :=
  mkStore (last_applied n) (session_state_storage n) (payload_gc_queue n) r (payloads n) (logs n) (last_purged n).
Definition set_payloads (p : gmap string bytes) (n : Store) : Store :=
  mkStore (last_applied n) (session_state_storage n) (payload_gc_queue n) (gc_records n) p (logs n) (last_purged n).
Definition set_logs (l : gmap Z Entry) (purged : option Z) (n : Store) : Store :=
  mkStore (last_applied n) (session_state_storage n) (payload_gc_queue n) (gc_records n) (payloads n) l purged.
Definition set_last_applied (i : Z) (n : Store) : Store :=
  mkStore (Some i) (session_state_storage n) (payload_gc_queue n) (gc_records n) (payloads n) (logs n) (last_purged n).

(** What [PayloadStore::delete] returns. *)
Inductive DeleteResult := Deleted | DeleteNotFound | DeleteFailed.

Section Apply.
Context (get_ok : string -> bool) (put_ok : Z -> string -> bool).
Context (delete_payload : string -> DeleteResult) (delete_ok : Z -> string -> bool).
Context (contains_ok : nat -> string -> bool).

Definition schedule_payload_gc (log_index : Z) (key : string) (n : Store) : Store :=
  let n := set_queue (payload_gc_queue n ++ [mkGcItem log_index key false]) n in
  if put_ok log_index key then set_records ({[(log_index, key)]} ∪ gc_records n) n else n.

(** [for key in freed_keys { self.schedule_payload_gc(..) }], and the [if let] of one key. *)
Definition schedule_all (log_index : Z) (keys : list string) (n : Store) : Store :=
  foldl (fun n key => schedule_payload_gc log_index key n) n keys.

(** The [match] on the commands that work on an in-flight table. *)
Definition apply_inflight (now index : Z) (req : SessionStateRequest) (n : Store)
    : option (SessionStateResponse * Store) :=
  let st := session_state_storage n in
  match req with
  | InflightRegisterRxPacket tenant_id client_id packet_id qos packet_key =>
      let '(freed_key, st) := inflight_register_rx_packet now tenant_id client_id packet_id qos packet_key st in
      Some (InflightRegisterRxPacketResponse (Ok tt),
            schedule_all index (option_list freed_key) (set_storage st n))
  | InflightRegisterTxPacket tenant_id client_id packet_id qos packet_key deferred =>
      let '(r, st) := inflight_register_tx_packet now tenant_id client_id packet_id qos packet_key deferred st in
      match r with
      | Ok freed_key =>
          Some (InflightRegisterTxPacketResponse (Ok tt),
                schedule_all index (option_list freed_key) (set_storage st n))
      | Err e => Some (InflightRegisterTxPacketResponse (Err e), set_storage st n)
      | _ => None
      end
  | InflightStartDelivery tenant_id client_id packet_id packet_key =>
      match get_session_state tenant_id client_id st with
      | Some s =>
          let '(started, i) := mark_delivery_started packet_id packet_key (inflight s) in
          Some (InflightStartDeliveryResult started,
                set_storage (put_session tenant_id client_id (set_inflight i s) st) n)
      | None => Some (InflightStartDeliveryResult false, n)
      end
  | InflightDiscardUnsent tenant_id client_id packet_id packet_key =>
      let '(freed, st) := inflight_discard_unsent tenant_id client_id packet_id packet_key st in
      Some (RespNone, schedule_all index (option_list freed) (set_storage st n))
  | InflightGetCurrentPacket tenant_id client_id packet_identifier =>
      Some (InflightGetCurrentPacketResult
              (inflight_get_current_packet_key tenant_id client_id packet_identifier st), n)
  | InflightNextState tenant_id client_id packet_identifier =>
      let '(freed_key, st) := inflight_next_state now tenant_id client_id packet_identifier st in
      Some (RespNone, schedule_all index (option_list freed_key) (set_storage st n))
  | InflightCleanFinishItems tenant_id client_id =>
      let '(freed_keys, st) := inflight_clean_finished_items tenant_id client_id st in
      Some (RespNone, schedule_all index freed_keys (set_storage st n))
  | _ => None
  end.

(** The commands on sessions, queues and subscriptions. *)
Definition apply_session (index : Z) (req : SessionStateRequest) (n : Store)
    : option (SessionStateResponse * Store) :=
  let st := session_state_storage n in
  match req with
  | AppendToPendingQueue tenant_id client_id packet_key =>
      Some (RespNone, set_storage (append_to_pending_queue tenant_id client_id packet_key st) n)
  | PopFromPendingQueue tenant_id client_id =>
      let '(packet_key, freed_key, st) := pop_from_pending_queue tenant_id client_id st in
      Some (PopFromPendingQueueResult packet_key
              (match freed_key with
               | Some key => if get_ok key then payloads n !! key else None
               | None => None
               end),
            schedule_all index (option_list freed_key) (set_storage st n))
  | SubscribeTopic tenant_id client_id topic qos no_local retain_as_published =>
      match @qos_from_u8 unit qos with
      | Ok qos =>
          Some (RespNone, set_storage (subscribe_topic_with_options tenant_id client_id topic qos
                                         no_local retain_as_published st) n)
      | _ => None
      end
  | UnsubscribeTopic tenant_id client_id topic =>
      Some (RespNone, set_storage (unsubscribe_topic tenant_id client_id topic st) n)
  | CreateSessionState tenant_id client_id secs protocol_version interval =>
      Some (RespNone, set_storage (create_session_state tenant_id client_id secs protocol_version interval st) n)
  | DeleteSessionState tenant_id client_id expected_disconnected_at =>
      let should_delete :=
        match expected_disconnected_at with
        | Some expected =>
            match get_session_state tenant_id client_id st with
            | Some s => bool_decide (disconnected_at s = Some expected)
            | None => false
            end
        | None => true
        end in
      if should_delete then
        let '(freed_keys, st) := delete_session_state tenant_id client_id st in
        Some (RespNone, schedule_all index freed_keys (set_storage st n))
      else Some (RespNone, n)
  | UpdateSessionConnectionState tenant_id client_id disconnected_at update =>
      Some (RespNone, set_storage (update_connection_state tenant_id client_id disconnected_at update st) n)
  | _ => None
  end.

(** One command; [Panic] where the code panics. *)
Definition apply_request (now index : Z) (req : SessionStateRequest) (n : Store)
    : outcome unit (SessionStateResponse * Store) :=
  match apply_inflight now index req n with
  | Some r => Ok r
  | None => match apply_session index req n with Some r => Ok r | None => Panic end
  end.

(** The body of the loop of [apply]. *)
Definition apply_entry (now : Z) (ent : Entry) (n : Store)
    : outcome unit (SessionStateResponse * Store) :=
  let n := set_last_applied (e_index ent) n in
  match e_payload ent with
  | Blank | Membership => Ok (RespNone, n)
  | Normal req => apply_request now (e_index ent) req n
  end.

Fixpoint apply (now : Z) (entries : list Entry) (n : Store)
    : outcome unit (list SessionStateResponse * Store) :=
  match entries with
  | [] => Ok ([], n)
  | ent :: entries =>
      '(reply, n) ← apply_entry now ent n;
      '(replies, n) ← apply now entries n;
      Ok (reply :: replies, n)
  end.

(** One item of [purge]'s loop over the drained queue. *)
Definition gc_item (item : PayloadGcItem) (n : Store) : Store :=
  let '(deleted, n) :=
    if payload_deleted item then (true, n)
    else match delete_payload (gc_key item) with
         | Deleted => (true, set_payloads (delete (gc_key item) (payloads n)) n)
         | DeleteNotFound => (true, n)
         | DeleteFailed => (false, n)
         end in
  if deleted then
    let item := mkGcItem (delete_after_log_index item) (gc_key item) true in
    if delete_ok (delete_after_log_index item) (gc_key item)
    then set_records (gc_records n ∖ {[(delete_after_log_index item, gc_key item)]}) n
    else set_queue (payload_gc_queue n ++ [item]) n
  else set_queue (payload_gc_queue n ++ [item]) n.

Definition due (index : Z) (item : PayloadGcItem) : bool := delete_after_log_index item <=? index.

Definition purge (index : Z) (n : Store) : Store :=
  let n := set_logs (filter (fun kv => index < kv.1) (logs n)) (Some index) n in
  let keep := filter (fun item => due index item = false) (payload_gc_queue n) in
  let delete_items := filter (fun item => due index item = true) (payload_gc_queue n) in
  foldl (fun n item => gc_item item n) (set_queue keep n) delete_items.

(** ** Writing the log *)

(** The payload a command refers to. *)
Definition request_key (req : SessionStateRequest) : option string :=
  match req with
  | InflightRegisterRxPacket _ _ _ _ packet_key => Some packet_key
  | InflightRegisterTxPacket _ _ _ _ packet_key _ => Some packet_key
  | AppendToPendingQueue _ _ packet_key => Some packet_key
  | _ => None
  end.
Definition entry_key (ent : Entry) : option string :=
  match e_payload ent with Normal req => request_key req | _ => None end.

(** The greatest index of the log, or the last one purged; 0 for an empty log. *)
Definition last_log_index (n : Store) : Z :=
  match map_fold (fun i _ acc => Some (match acc with Some j => Z.max i j | None => i end)) None (logs n) with
  | Some i => i
  | None => match last_purged n with Some i => i | None => 0 end
  end.

(** A new entry, or one that replaces an entry of another term or a gap. *)
Definition need_payload_check (last_persisted_index : Z) (ent : Entry) (n : Store) : bool :=
  (last_persisted_index <? e_index ent)
  || match logs n !! e_index ent with
     | Some existing => negb (e_term existing =? e_term ent)
     | None => true
     end.

(** The tries of [payload_store.contains(k)], five at most. *)
Definition found (key : string) : bool := existsb (fun i => contains_ok i key) (seq 0 5).

Inductive AppendError := PayloadMissing (key : string) (index term : Z).

(** The loop of [append]: entries before one that is refused are already written. *)
Fixpoint append_loop (last_persisted_index : Z) (entries : list Entry) (n : Store)
    : outcome AppendError unit * Store :=
  match entries with
  | [] => (Ok tt, n)
  | ent :: entries =>
      let write := append_loop last_persisted_index entries
                     (set_logs (<[e_index ent := ent]> (logs n)) (last_purged n) n) in
      if need_payload_check last_persisted_index ent n then
        match entry_key ent with
        | Some k => if found k then write else (Err (PayloadMissing k (e_index ent) (e_term ent)), n)
        | None => write
        end
      else write
  end.

Definition append (entries : list Entry) (n : Store) : outcome AppendError unit * Store :=
  append_loop (last_log_index n) entries n.

(** [truncate]: the entries from an index on go. *)
Definition truncate (index : Z) (n : Store) : Store :=
  set_logs (filter (fun kv => kv.1 < index) (logs n)) (last_purged n) n.

(** ** Lemmas *)

Lemma schedule_all_spec index keys n :
  session_state_storage (schedule_all index keys n) = session_state_storage n /\
  payloads (schedule_all index keys n) = payloads n /\
  payload_gc_queue (schedule_all index keys n) =
    payload_gc_queue n ++ map (fun k => mkGcItem index k false) keys /\
  logs (schedule_all index keys n) = logs n /\ last_applied (schedule_all index keys n) = last_applied n.
Proof.
  unfold schedule_all. revert n. induction keys as [|k keys IH]; intros n; simpl.
  - by rewrite app_nil_r.
  - destruct (IH (schedule_payload_gc index k n)) as (-> & -> & -> & -> & ->). unfold schedule_payload_gc.
    destruct (put_ok index k); simpl; by rewrite <-app_assoc.
Qed.

(** The quality of service of the commands: registrations are of 1 and 2. *)
Definition qos_ok (req : SessionStateRequest) : Prop :=
  match req with
  | InflightRegisterRxPacket _ _ _ qos _ | InflightRegisterTxPacket _ _ _ qos _ _ => qos = 1 \/ qos = 2
  | SubscribeTopic _ _ _ qos _ _ => 0 <= qos <= 2
  | _ => True
  end.

(** What the session held that a creation replaces. *)
Definition replaced (req : SessionStateRequest) (st : SessionStateStorage) : list string :=
  match req with
  | CreateSessionState t c _ _ _ => from_option session_keys [] (get_session_state t c st)
  | _ => []
  end.

(** The effect of a command: it answers, the counts stay right, and the keys queued are the
    ones it freed. *)
Definition applied (lost : list string) (index : Z) (req : SessionStateRequest) (n n' : Store) : Prop :=
  exists freed,
    frees (replaced req (session_state_storage n) ++ lost) (option_list (request_key req)) freed
      (session_state_storage n) (session_state_storage n') /\
    payloads n' = payloads n /\
    payload_gc_queue n' = payload_gc_queue n ++ map (fun k => mkGcItem index k false) freed /\
    logs n' = logs n /\ last_applied n' = last_applied n.

Lemma applied_schedule lost index req freed st n :
  frees (replaced req (session_state_storage n) ++ lost) (option_list (request_key req)) freed (session_state_storage n) st ->
  applied lost index req n (schedule_all index freed (set_storage st n)).
Proof.
  intros H. exists freed. by destruct (schedule_all_spec index freed (set_storage st n)) as (-> & -> & -> & -> & ->).
Qed.

Lemma applied_quiet lost index req st n :
  frees (replaced req (session_state_storage n) ++ lost) (option_list (request_key req)) [] (session_state_storage n) st ->
  applied lost index req n (set_storage st n).
Proof. intros H. by apply (applied_schedule lost index req [] st n). Qed.

Lemma mark_keys id key i :
  get_all_packet_keys (mark_delivery_started id key i).2 ≡ₚ get_all_packet_keys i.
Proof.
  unfold mark_delivery_started, get_all_packet_keys. destruct (inner i !! id) as [it|] eqn:E; [|done].
  case_decide; [|done]. simpl. by rewrite flat_insert, (flat_delete _ _ _ _ E).
Qed.

Lemma apply_inflight_applied lost now index req n :
  refs_ok lost (session_state_storage n) -> qos_ok req ->
  match req with
  | InflightRegisterRxPacket _ _ _ _ _ | InflightRegisterTxPacket _ _ _ _ _ _
  | InflightStartDelivery _ _ _ _ | InflightDiscardUnsent _ _ _ _ | InflightGetCurrentPacket _ _ _
  | InflightNextState _ _ _ | InflightCleanFinishItems _ _ =>
      exists r n', apply_inflight now index req n = Some (r, n') /\ applied lost index req n n'
  | _ => apply_inflight now index req n = None
  end.
Proof.
  intros Hr Hok. destruct req as [| |t c id qos key|t c id qos key deferred|t c id key|t c id key|t c id|t c id|t c| | | | |];
    try done; simpl in *.
  - pose proof (register_rx_frees lost now t c id qos key _ Hr Hok) as H.
    destruct (inflight_register_rx_packet _ _ _ _ _ _ _) as [freed st].
    eexists _, _. split; [done|]. by apply applied_schedule.
  - pose proof (register_tx_frees lost now t c id qos key deferred _ Hr Hok) as H.
    destruct (inflight_register_tx_packet _ _ _ _ _ _ _ _) as [[freed|e| |] st]; try done;
      (eexists _, _; split; [done|]); [by apply applied_schedule|by apply applied_quiet].
  - pose proof (frees_keep lost t c _ (fun s => set_inflight (mark_delivery_started id key (inflight s)).2 s) Hr) as H.
    destruct (get_session_state t c (session_state_storage n)) as [s|].
    + rewrite (surjective_pairing (mark_delivery_started _ _ _)). eexists _, _. split; [done|].
      apply applied_quiet, H. intros s0. by rewrite session_keys_inflight, mark_keys.
    + eexists _, _. split; [done|]. exists []. simpl. rewrite app_nil_r. split_and!; [|done..].
      by apply frees_nothing.
  - pose proof (discard_unsent_frees lost t c id key _ Hr) as H.
    destruct (inflight_discard_unsent _ _ _ _ _) as [freed st].
    eexists _, _. split; [done|]. by apply applied_schedule.
  - eexists _, _. split; [done|]. exists []. simpl. rewrite app_nil_r. split_and!; [|done..].
    by apply frees_nothing.
  - pose proof (next_state_frees lost now t c id _ Hr) as H.
    destruct (inflight_next_state _ _ _ _ _) as [freed st].
    eexists _, _. split; [done|]. by apply applied_schedule.
  - pose proof (clean_frees lost t c _ Hr) as H.
    destruct (inflight_clean_finished_items _ _ _) as [freed st].
    eexists _, _. split; [done|]. by apply applied_schedule.
Qed.

Lemma frees_keep_ensure lost t c st f :
  refs_ok lost st -> (forall s, session_keys (f s) ≡ₚ session_keys s) ->
  frees lost [] [] st (match get_session_state t c (ensure_tenant t st) with
    | Some s => put_session t c (f s) (ensure_tenant t st) | None => ensure_tenant t st end).
Proof. intros Hr Hf. apply (frees_ensure _ _ _ t), frees_keep; [by apply refs_ensure|done]. Qed.

Lemma apply_session_applied lost index req n :
  refs_ok lost (session_state_storage n) -> qos_ok req ->
  match req with
  | InflightRegisterRxPacket _ _ _ _ _ | InflightRegisterTxPacket _ _ _ _ _ _
  | InflightStartDelivery _ _ _ _ | InflightDiscardUnsent _ _ _ _ | InflightGetCurrentPacket _ _ _
  | InflightNextState _ _ _ | InflightCleanFinishItems _ _ => True
  | _ => exists r n', apply_session index req n = Some (r, n') /\ applied lost index req n n'
  end.
Proof.
  clear delete_payload delete_ok contains_ok.
  intros Hr Hok. destruct req as [t c d v e|t c expected| | | | | | | |t c key|t c|t c topic qos nl rap|t c topic|t c at_ u];
    try done; simpl in *.
  - eexists _, _. split; [done|]. apply applied_quiet. cbn [replaced].
    destruct (get_session_state t c (session_state_storage n)) as [s|] eqn:Hs; cbn [from_option]; [|by apply create_frees].
    destruct (recreate_loses lost t c d v e _ s Hr Hs) as (Hr' & Hh & _).
    split_and!; [done|constructor|..]; intros k; rewrite Hh; set_solver.
  - pose proof (delete_frees lost t c _ Hr) as H.
    destruct (match expected with Some _ => _ | None => true end).
    + destruct (delete_session_state _ _ _) as [freed st]. eexists _, _. split; [done|].
      by apply applied_schedule.
    + eexists _, _. split; [done|]. exists []. simpl. rewrite app_nil_r. split_and!; [|done..].
      by apply frees_nothing.
  - eexists _, _. split; [done|]. by apply applied_quiet, append_frees.
  - pose proof (pop_frees lost t c _ Hr) as H. destruct (pop_from_pending_queue _ _ _) as [[key freed] st].
    eexists _, _. split; [done|]. by apply applied_schedule.
  - assert (exists q, @qos_from_u8 unit qos = Ok q) as [q ->].
    { assert (qos = 0 \/ qos = 1 \/ qos = 2) as [-> | [-> | ->]] by lia; by eexists. }
    eexists _, _. split; [done|]. apply applied_quiet. unfold subscribe_topic_with_options.
    by apply frees_keep_ensure.
  - eexists _, _. split; [done|]. apply applied_quiet. by apply frees_keep.
  - eexists _, _. split; [done|]. apply applied_quiet. apply frees_keep; [done|].
    intros s. unfold update_session_connection. by destruct u.
Qed.

Lemma apply_request_applied lost now index req n :
  refs_ok lost (session_state_storage n) -> qos_ok req ->
  exists r n', apply_request now index req n = Ok (r, n') /\ applied lost index req n n'.
Proof.
  intros Hr Hok. unfold apply_request.
  pose proof (apply_inflight_applied lost now index req n Hr Hok) as H1.
  pose proof (apply_session_applied lost index req n Hr Hok) as H2.
  destruct req; first [destruct H1 as (r & n' & -> & ?); eauto
    |rewrite H1; destruct H2 as (r & n' & -> & ?); eauto].
Qed.

(** Purging touches only what is queued. *)
Lemma gc_item_spec item n :
  session_state_storage (gc_item item n) = session_state_storage n /\
  (forall k, k <> gc_key item -> payloads (gc_item item n) !! k = payloads n !! k) /\
  (forall it, it ∈ payload_gc_queue (gc_item item n) ->
     it ∈ payload_gc_queue n \/ gc_key it = gc_key item).
Proof.
  unfold gc_item. destruct (payload_deleted item); [|destruct (delete_payload (gc_key item))];
    try destruct (delete_ok _ _); simpl;
    (split_and!; [done|intros k Hk; rewrite ?lookup_delete_ne by done; done|set_solver]).
Qed.

Lemma gc_items_spec items n :
  let n' := foldl (fun n item => gc_item item n) n items in
  session_state_storage n' = session_state_storage n /\
  (forall k, k ∉ gc_key <$> items -> payloads n' !! k = payloads n !! k) /\
  (forall it, it ∈ payload_gc_queue n' -> it ∈ payload_gc_queue n \/ gc_key it ∈ gc_key <$> items).
Proof.
  clear get_ok put_ok contains_ok. revert n. induction items as [|item items IH]; intros n; simpl; [by auto|].
  destruct (IH (gc_item item n)) as (H1 & H2 & H3). destruct (gc_item_spec item n) as (G1 & G2 & G3).
  split_and!.
  - by rewrite H1.
  - intros k Hk. rewrite not_elem_of_cons in Hk. rewrite H2 by tauto. apply G2. tauto.
  - intros it [Hit|Hit]%H3; [apply G3 in Hit as [?|Hkey]; [by left|]|]; right; set_solver.
Qed.

Lemma purge_spec index n :
  session_state_storage (purge index n) = session_state_storage n /\
  (forall k, k ∉ gc_key <$> payload_gc_queue n -> payloads (purge index n) !! k = payloads n !! k) /\
  (forall it, it ∈ payload_gc_queue (purge index n) -> gc_key it ∈ gc_key <$> payload_gc_queue n).
Proof.
  unfold purge. cbv zeta.
  set (items := filter (fun item => due index item = true) _).
  match goal with |- context [foldl _ ?m items] => destruct (gc_items_spec items m) as (H1 & H2 & H3) end.
  assert (forall k, k ∈ gc_key <$> items -> k ∈ gc_key <$> payload_gc_queue n) as Hsub.
  { intros k (it & -> & [_ Hit]%list_elem_of_filter)%list_elem_of_fmap. by apply list_elem_of_fmap_2. }
  split_and!; [exact H1| |].
  - intros k Hk. apply H2. intros Hin. by apply Hk, Hsub.
  - intros it [Hit|Hit]%H3; [|by apply Hsub]. simpl in Hit.
    apply list_elem_of_filter in Hit as [_ Hit]. by apply list_elem_of_fmap_2.
Qed.

Lemma append_loop_spec last entries n :
  session_state_storage (append_loop last entries n).2 = session_state_storage n /\
  payloads (append_loop last entries n).2 = payloads n /\
  payload_gc_queue (append_loop last entries n).2 = payload_gc_queue n.
Proof.
  revert n. induction entries as [|ent entries IH]; intros n; simpl; [done|].
  destruct (IH (set_logs (<[e_index ent := ent]> (logs n)) (last_purged n) n)) as (H1 & H2 & H3).
  destruct (need_payload_check last ent n); [|done].
  destruct (entry_key ent) as [k|]; [|done]. by destruct (found k).
Qed.

End Apply.

(** ** A running node *)

(** A node's stores, and the keys its sessions have held so far. *)
Record Host := mkHost { h_store : Store; h_taken : gset string }.

(** The entry is yet to be applied. *)
Definition unapplied (n : Store) (ent : Entry) : Prop :=
  logs n !! e_index ent = Some ent /\ forall i, last_applied n = Some i -> i < e_index ent.

(** Entries of the same index and term are the same entry, as Raft guarantees. *)
Definition log_matching (entries : list Entry) (n : Store) : Prop :=
  forall e1 e2, (e1 ∈ entries \/ logs n !! e_index e1 = Some e1) -> (e2 ∈ entries \/ logs n !! e_index e2 = Some e2) ->
    e_index e1 = e_index e2 -> e_term e1 = e_term e2 -> e1 = e2.

(** What happens on a node that runs: payloads are stored; entries are written to the log, in
    the way Raft writes them, after the store was asked for their payloads; the next entries
    of the log are applied, whose keys are new: a key is made for one message, and named
    again only where a command that named it was refused; the log is purged; other tasks
    delete payloads of their own. *)
Inductive step : Host -> Host -> Prop :=
  | step_put key data n T : step (mkHost n T) (mkHost (set_payloads (<[key := data]> (payloads n)) n) T)
  | step_append contains_ok entries n T :
      (forall i k, contains_ok i k = true -> is_Some (payloads n !! k)) -> log_matching entries n ->
      step (mkHost n T) (mkHost (append contains_ok entries n).2 T)
  | step_truncate index n T : step (mkHost n T) (mkHost (truncate index n) T)
  | step_apply get_ok put_ok now ent n T r n' :
      unapplied n ent -> (forall req, e_payload ent = Normal req -> qos_ok req) ->
      (forall k, entry_key ent = Some k -> k ∉ T) ->
      apply_entry get_ok put_ok now ent n = Ok (r, n') ->
      step (mkHost n T) (mkHost n' (T ∪ list_to_set (held (session_state_storage n'))))
  | step_purge delete_payload delete_ok index n T :
      step (mkHost n T) (mkHost (purge delete_payload delete_ok index n) T)
  | step_delete key n T :
      key ∉ T -> (forall ent, unapplied n ent -> entry_key ent <> Some key) ->
      step (mkHost n T) (mkHost (set_payloads (delete key (payloads n)) n) T).

(** [new_storage] on an empty database. *)
Definition initial (payloads : gmap string bytes) : Store :=
  mkStore None new_session_storage [] ∅ payloads ∅ None.

(** An entry is kept under its index. *)
Definition indexed (n : Store) : Prop := forall i ent, logs n !! i = Some ent -> e_index ent = i.
(** The entries to be applied have their payloads, or name a key that was taken already. *)
Definition backed (n : Store) (T : gset string) : Prop :=
  forall ent k, unapplied n ent -> entry_key ent = Some k -> is_Some (payloads n !! k) \/ k ∈ T.

Record safe (x : Host) : Prop := {
  safe_refs : exists lost, refs_ok lost (session_state_storage (h_store x));
  safe_queue it : it ∈ payload_gc_queue (h_store x) -> gc_key it ∉ held (session_state_storage (h_store x)) /\ gc_key it ∈ h_taken x;
  safe_held k : k ∈ held (session_state_storage (h_store x)) -> is_Some (payloads (h_store x) !! k) /\ k ∈ h_taken x;
  safe_log : indexed (h_store x) /\ backed (h_store x) (h_taken x);
}.

Lemma held_new : held new_session_storage = [].
Proof. apply flat_empty. Qed.
Lemma refs_initial : refs_ok [] new_session_storage.
Proof. intros k. simpl. rewrite held_new, decide_False by set_solver. apply lookup_empty. Qed.
Lemma safe_initial payloads : safe (mkHost (initial payloads) ∅).
Proof.
  split; cbn -[held]; [exists []; apply refs_initial|set_solver|rewrite held_new; set_solver|].
  split; [intros i ent Hl|intros ent k [Hl _]]; cbn in Hl; by rewrite lookup_empty in Hl.
Qed.

(** Writing the log. *)
Lemma append_loop_backed contains_ok last entries n T :
  (forall i k, contains_ok i k = true -> is_Some (payloads n !! k)) -> log_matching entries n -> indexed n -> backed n T ->
  indexed (append_loop contains_ok last entries n).2 /\ backed (append_loop contains_ok last entries n).2 T.
Proof.
  intros Htrue. assert (Hfound : forall k, found contains_ok k = true -> is_Some (payloads n !! k)).
  { intros k. unfold found. rewrite existsb_exists. intros (i & _ & Hi). by apply Htrue in Hi. }
  clear Htrue. revert n Hfound. induction entries as [|ent entries IH]; intros n Hfound Hm Hi Hb; [done|]. cbn [append_loop].
  set (n1 := set_logs (<[e_index ent := ent]> (logs n)) (last_purged n) n).
  assert (Hm1 : log_matching entries n1).
  { assert (Hsub : forall e, (e ∈ entries \/ logs n1 !! e_index e = Some e) -> e ∈ ent :: entries \/ logs n !! e_index e = Some e).
    { intros e [He|He]; [left; by apply elem_of_cons; right|]. cbn in He.
      apply lookup_insert_Some in He as [[_ ->]|[_ He]]; [left; by apply elem_of_cons; left|by right]. }
    intros e1 e2 H1%Hsub H2%Hsub. by apply Hm. }
  assert (Hi1 : indexed n1) by (intros i e; cbn; intros [[<- <-]|[_ He]]%lookup_insert_Some; [done|by apply Hi]).
  assert (Hgo : (forall k, entry_key ent = Some k -> is_Some (payloads n !! k) \/ k ∈ T \/ logs n !! e_index ent = Some ent) ->
    indexed (append_loop contains_ok last entries n1).2 /\ backed (append_loop contains_ok last entries n1).2 T).
  { intros Hent. apply IH; [done..|]. intros e k [Hl Hun] Hk. cbn in Hl. apply lookup_insert_Some in Hl as [[_ <-]|[_ Hl]]; [|by apply (Hb e)].
    destruct (Hent k Hk) as [?|[?|Hl]]; [by left|by right|]. by apply (Hb ent). }
  destruct (need_payload_check last ent n) eqn:Hneed.
  - destruct (entry_key ent) as [k|] eqn:Hk; [|by apply Hgo].
    destruct (found contains_ok k) eqn:Hf; [|done]. apply Hgo. intros k' [= <-]. left. by apply Hfound.
  - apply Hgo. intros k Hk. right. right. unfold need_payload_check in Hneed. apply orb_false_iff in Hneed as [_ Hneed].
    destruct (logs n !! e_index ent) as [old|] eqn:Hold; [|done]. apply negb_false_iff, Z.eqb_eq in Hneed.
    pose proof (Hi _ _ Hold) as Hio. f_equal. apply Hm; [right; by rewrite Hio|left; set_solver|done|done].
Qed.

(** Applying an entry. *)
Lemma backed_apply n n' T T' ent :
  unapplied n ent -> logs n' = logs n -> last_applied n' = Some (e_index ent) -> payloads n' = payloads n -> T ⊆ T' ->
  indexed n /\ backed n T -> indexed n' /\ backed n' T'.
Proof.
  intros [_ Hun] Hl Ha Hp HT [Hi Hb]. split; [unfold indexed; by rewrite Hl|]. intros e k [He Hlt] Hk.
  rewrite Hl in He. rewrite Hp. destruct (Hb e k) as [?|?]; [|done|by left|right; set_solver].
  split; [done|]. intros i Hi'. specialize (Hlt _ Ha). specialize (Hun i Hi'). lia.
Qed.

Lemma safe_applied lost index req ent n n' T :
  safe (mkHost n T) -> refs_ok lost (session_state_storage n) ->
  unapplied n ent -> entry_key ent = request_key req ->
  (forall k, entry_key ent = Some k -> k ∉ T) ->
  applied lost index req (set_last_applied (e_index ent) n) n' ->
  safe (mkHost n' (T ∪ list_to_set (held (session_state_storage n')))).
Proof.
  intros [_ Hq Hh Hlog] Hr Hun Hkey Hnew (freed & (Hr' & _ & Hiff & Hin) & Hpay & Hqueue & Hlogs & Hlast).
  cbn [h_store h_taken set_last_applied session_state_storage payload_gc_queue payloads logs last_applied] in *.
  assert (forall k, k ∈ option_list (request_key req) -> k ∉ T /\ is_Some (payloads n !! k)) as Hadd.
  { intros k Hk. assert (request_key req = Some k) as Hk' by (destruct (request_key req); set_solver). rewrite <-Hkey in Hk'.
    split; [by apply Hnew|]. destruct (proj2 Hlog ent k Hun Hk') as [?|Hbad]; [done|]. by destruct (Hnew k Hk'). }
  split; cbn [h_store h_taken]; [by eexists| | |].
  - intros it. rewrite Hqueue, elem_of_app. intros [Hit|Hit].
    + destruct (Hq it Hit) as [Hnh Ht]. split; [|set_solver]. intros [Hold|Hk]%Hin; [done|]. by apply Hadd in Hk as [Hk _].
    + apply list_elem_of_In, in_map_iff in Hit as (k & <- & Hk%list_elem_of_In). cbn. apply Hiff in Hk as (Hold & Hno & _).
      split; [done|]. apply Hh in Hold as [_ Hold]. set_solver.
  - intros k Hk. rewrite Hpay. split; [|set_solver]. destruct (Hin k Hk) as [Hold|Hnewk]; [by apply Hh|by apply Hadd].
  - apply (backed_apply n _ T _ ent); [done|done|done|done|set_solver|done].
Qed.

Lemma purge_log delete_payload delete_ok index n :
  logs (purge delete_payload delete_ok index n) = filter (fun kv => index < kv.1) (logs n) /\
  last_applied (purge delete_payload delete_ok index n) = last_applied n.
Proof.
  unfold purge. cbv zeta. set (items := filter (fun item => due index item = true) _).
  assert (forall m, let m' := foldl (fun n item => gc_item delete_payload delete_ok item n) m items in
    logs m' = logs m /\ last_applied m' = last_applied m) as Hgo;
    [|match goal with |- context [foldl _ ?m items] => exact (Hgo m) end].
  clearbody items. cbv zeta. induction items as [|it items IH]; intros m; [done|]. cbn [foldl].
  destruct (IH (gc_item delete_payload delete_ok it m)) as [-> ->].
  unfold gc_item. destruct (payload_deleted it); [|destruct (delete_payload (gc_key it))]; try destruct (delete_ok _ _); done.
Qed.

(** A smaller log, whose keys that were not taken keep their payloads. *)
Lemma backed_filter n n' T :
  (forall i ent, logs n' !! i = Some ent -> logs n !! i = Some ent) -> last_applied n' = last_applied n ->
  (forall ent k, unapplied n ent -> entry_key ent = Some k -> k ∉ T -> is_Some (payloads n !! k) -> is_Some (payloads n' !! k)) ->
  indexed n /\ backed n T -> indexed n' /\ backed n' T.
Proof.
  intros Hl Ha Hp [Hi Hb]. split; [intros i e He; by apply Hi, Hl|]. intros e k [He Hlt] Hk.
  assert (unapplied n e) as Hun by (split; [by apply Hl|by rewrite <-Ha]).
  destruct (decide (k ∈ T)) as [|Hk']; [by right|left]. destruct (Hb e k Hun Hk) as [Hs|]; [by eapply Hp|done].
Qed.

Lemma safe_step x y : step x y -> safe x -> safe y.
Proof.
  destruct 1 as [key data n T|contains_ok entries n T Htrue Hm|index n T|get_ok put_ok now ent n T r n' Hun Hqos Hnew Happ
    |delete_payload delete_ok index n T|key n T HT Hnone]; intros Hsafe; pose proof Hsafe as [[lost Hr] Hq Hh Hlog]; cbn [h_store h_taken] in *.
  - split; cbn [h_store h_taken]; [by eexists|done| |].
    + intros k Hk. destruct (Hh k Hk) as [Hp ?]. split; [|done]. cbn. rewrite lookup_insert_is_Some'. by right.
    + eapply (backed_filter n); [done|done| |done]. intros ent k _ _ _ Hs. cbn. rewrite lookup_insert_is_Some'. by right.
  - unfold append. destruct (append_loop_spec contains_ok (last_log_index n) entries n) as (H1 & H2 & H3).
    split; cbn [h_store h_taken]; rewrite ?H1, ?H2, ?H3; [by eexists|done|done|].
    by apply append_loop_backed; [..|apply Hlog|apply Hlog].
  - split; cbn [h_store h_taken]; [by eexists|done|done|].
    eapply (backed_filter n); [|done|done|done]. intros i e. cbn. by intros [He _]%map_lookup_filter_Some.
  - unfold apply_entry in Happ. destruct (e_payload ent) as [|req|] eqn:Hpay.
    2:{ destruct (apply_request_applied get_ok put_ok lost now (e_index ent) req (set_last_applied (e_index ent) n))
          as (r' & n2 & Heq & Hap); [done|by apply Hqos|]. rewrite Happ in Heq. injection Heq as <- <-.
        eapply (safe_applied lost (e_index ent) req ent n); try done. unfold entry_key. by rewrite Hpay. }
    all: injection Happ as _ <-; split; cbn [h_store h_taken]; [by eexists| | |].
    1, 4: intros it Hit; destruct (Hq it Hit); split; [done|set_solver].
    1, 3: intros k Hk; destruct (Hh k Hk); split; [done|set_solver].
    all: apply (backed_apply n _ T _ ent); [done|done|done|done|set_solver|done].
  - destruct (purge_spec delete_payload delete_ok index n) as (H1 & H2 & H3).
    destruct (purge_log delete_payload delete_ok index n) as [Hl Ha].
    assert (forall k, k ∈ gc_key <$> payload_gc_queue n -> k ∉ held (session_state_storage n) /\ k ∈ T) as Hq'.
    { intros k (it & -> & Hit)%list_elem_of_fmap. by apply Hq. }
    split; cbn [h_store h_taken]; rewrite ?H1; [by eexists| | |].
    + intros it Hit%H3. by apply Hq'.
    + intros k Hk. destruct (Hh k Hk) as [Hp ?]. split; [|done]. rewrite H2; [done|]. intros Hin%Hq'. by destruct Hin.
    + eapply (backed_filter n); [|done| |done].
      * intros i e. rewrite Hl. by intros [He _]%map_lookup_filter_Some.
      * intros e k _ _ Hk Hs. rewrite H2; [done|]. intros Hin%Hq'. by destruct Hin.
  - split; cbn [h_store h_taken]; [by eexists|done| |].
    + intros k Hk. destruct (Hh k Hk) as [Hp Ht]. split; [|done]. cbn. rewrite lookup_delete_ne; [done|]. by intros ->.
    + eapply (backed_filter n); [done|done| |done]. intros e k Hun Hk _ Hs. cbn. rewrite lookup_delete_ne; [done|].
      intros ->. by apply (Hnone e).
Qed.

Lemma safe_reachable payloads x : rtc step (mkHost (initial payloads) ∅) x -> safe x.
Proof.
  intros Hrun. pose proof (safe_initial payloads) as Hs. revert Hs.
  induction Hrun as [|x y z Hstep _ IH]; intros Hs; [done|]. by eapply IH, safe_step.
Qed.

(** ** Theorems *)

(** C34: every command whose quality of service is a valid one is answered, keeps each
    reference count equal to the number of places that hold the key, and queues for deletion
    exactly the keys that were held and are held nowhere any more, each once - except the keys
    that were lost: creating a session over an existing one forgets what that one held
    without counting it down, so these keys stay counted and are never queued. *)
Theorem apply_frees_exactly get_ok put_ok (now index : Z) (req : SessionStateRequest) (lost : list string) (n : Store) :
  refs_ok lost (session_state_storage n) -> qos_ok req ->
  let lost' := replaced req (session_state_storage n) ++ lost in
  exists r n' freed,
    apply_request get_ok put_ok now index req n = Ok (r, n') /\
    refs_ok lost' (session_state_storage n') /\ NoDup freed /\
    (forall k, k ∈ freed <->
       k ∈ held (session_state_storage n) /\ k ∉ held (session_state_storage n') /\ k ∉ lost') /\
    payload_gc_queue n' = payload_gc_queue n ++ map (fun k => mkGcItem index k false) freed.
Proof.
  intros Hr Hok. destruct (apply_request_applied get_ok put_ok lost now index req n Hr Hok)
    as (r & n' & Heq & freed & (Hr' & Hnd & Hiff & _) & _ & Hq & _).
  by exists r, n', freed.
Qed.

(** C18: on a node that runs since its database was empty - no restart and no snapshot of
    another node -, whatever reads, writes and deletions fail, the payload of every message
    that a session still holds is stored: where log entries are written as Raft writes them
    and only after their payload was found, commands have a valid quality of service and
    name a key again only where an earlier one was refused, and other tasks delete only
    payloads that no pending or accepted command names. *)
Theorem live_payloads_kept (payloads0 : gmap string bytes) (x : Host) (k : string) :
  rtc step (mkHost (initial payloads0) ∅) x -> k ∈ held (session_state_storage (h_store x)) ->
  is_Some (payloads (h_store x) !! k).
Proof. intros Hrun Hk. by apply (safe_held _ (safe_reachable payloads0 x Hrun)). Qed.

Lemma gc_items_delete items (n : Store) :
  (forall it, it ∈ items -> payload_deleted it = false) ->
  let n' := foldl (fun n item => gc_item (fun _ => Deleted) (fun _ _ => true) item n) n items in
  payload_gc_queue n' = payload_gc_queue n /\
  (forall k, k ∈ gc_key <$> items -> payloads n' !! k = None) /\
  (forall k, k ∉ gc_key <$> items -> payloads n' !! k = payloads n !! k).
Proof.
  revert n. induction items as [|it items IH]; intros n Hit.
  { simpl. split_and!; [done|set_solver|done]. }
  cbn [foldl]. assert (payload_deleted it = false) as Hd by (apply Hit; set_solver).
  destruct (IH (gc_item (fun _ => Deleted) (fun _ _ => true) it n)) as (H1 & H2 & H3);
    [intros; apply Hit; set_solver|].
  assert (payload_gc_queue (gc_item (fun _ => Deleted) (fun _ _ => true) it n) = payload_gc_queue n /\
    payloads (gc_item (fun _ => Deleted) (fun _ _ => true) it n) = delete (gc_key it) (payloads n)) as [G1 G2].
  { unfold gc_item. by rewrite Hd. }
  rewrite G1 in H1. rewrite G2 in H3. split_and!; [done| |].
  - intros k Hk. destruct (decide (k ∈ gc_key <$> items)) as [?|Hn]; [by apply H2|].
    rewrite H3 by done. rewrite fmap_cons, elem_of_cons in Hk. destruct Hk as [->|?]; [|done].
    apply lookup_delete_eq.
  - intros k Hk. rewrite fmap_cons, not_elem_of_cons in Hk. rewrite H3 by tauto.
    apply lookup_delete_ne. naive_solver.
Qed.

(** purging the log up to an index, where the deletions succeed, deletes every payload
    queued at or before it, leaves every other payload, and keeps the later items queued. *)
Theorem purge_collects (index : Z) (n : Store) :
  (forall it, it ∈ payload_gc_queue n -> payload_deleted it = false) ->
  let n' := purge (fun _ => Deleted) (fun _ _ => true) index n in
  payload_gc_queue n' = filter (fun it => due index it = false) (payload_gc_queue n) /\
  (forall it, it ∈ payload_gc_queue n -> due index it = true -> payloads n' !! gc_key it = None) /\
  (forall k, (forall it, it ∈ payload_gc_queue n -> due index it = true -> gc_key it <> k) ->
     payloads n' !! k = payloads n !! k).
Proof.
  intros Hd. unfold purge. cbv zeta.
  set (items := filter (fun item => due index item = true) _).
  match goal with |- context [foldl _ ?m items] => destruct (gc_items_delete items m) as (H1 & H2 & H3) end.
  { intros it [_ Hit]%list_elem_of_filter. by apply Hd. }
  split_and!; [exact H1| |].
  - intros it Hit Hdue. apply H2, list_elem_of_fmap_2, list_elem_of_filter. done.
  - intros k Hk. apply H3. intros (it & -> & [Hdue Hit]%list_elem_of_filter)%list_elem_of_fmap.
    by apply (Hk it).
Qed.

(** a new log entry is written only when the payload it refers to was found; a batch
    is refused only for an entry whose payload was not. *)
Theorem append_payload_barrier contains_ok (entries : list Entry) (n : Store) :
  match (append contains_ok entries n).1 with
  | Ok _ => forall ent k, ent ∈ entries -> last_log_index n < e_index ent ->
      entry_key ent = Some k -> found contains_ok k = true
  | Err (PayloadMissing k index term) =>
      found contains_ok k = false /\
      exists ent, ent ∈ entries /\ entry_key ent = Some k /\ e_index ent = index /\ e_term ent = term
  | _ => False
  end.
Proof.
  unfold append. generalize (last_log_index n) as last. intros last. revert n.
  induction entries as [|ent entries IH]; intros n; cbn [append_loop fst].
  { intros ent k Hin. by apply elem_of_nil in Hin. }
  assert (forall m, match (append_loop contains_ok last entries m).1 with
    | Ok _ => (last < e_index ent -> forall k, entry_key ent = Some k -> found contains_ok k = true) ->
        forall ent' k, ent' ∈ ent :: entries -> last < e_index ent' ->
          entry_key ent' = Some k -> found contains_ok k = true
    | Err (PayloadMissing k index term) => found contains_ok k = false /\
        exists ent', ent' ∈ ent :: entries /\ entry_key ent' = Some k /\ e_index ent' = index /\ e_term ent' = term
    | _ => False end) as Hrest.
  { intros m. specialize (IH m). destruct (append_loop contains_ok last entries m) as [[u|[k i t]| |] m'];
      simpl in *; try done.
    - intros Hent ent' k [->|Hin]%elem_of_cons Hlt Hk; [by apply Hent|by eapply IH].
    - destruct IH as (Hf & ent' & Hin & ?). split; [done|]. exists ent'. split; [set_solver|done]. }
  set (m := set_logs _ _ n). specialize (Hrest m).
  destruct (need_payload_check last ent n) eqn:Hneed.
  - destruct (entry_key ent) as [k|] eqn:Hk.
    + destruct (found contains_ok k) eqn:Hf.
      * destruct (append_loop contains_ok last entries m) as [[u|e| |] m']; simpl in *; try done.
        apply Hrest. by intros _ k' [= <-].
      * simpl. split; [done|]. exists ent. split; [set_solver|done].
    + destruct (append_loop contains_ok last entries m) as [[u|e| |] m']; simpl in *; try done.
      apply Hrest. done.
  - destruct (append_loop contains_ok last entries m) as [[u|e| |] m']; simpl in *; try done.
    apply Hrest. intros Hlt. unfold need_payload_check in Hneed.
    apply orb_false_iff in Hneed as [Hneed%Z.ltb_ge _]. lia.
Qed.

(** creating a session over one that holds messages forgets the messages and not their
    reference counts: no command can free those payloads any more. *)
Theorem recreate_leaks_payload (t c k : string) (d : Z) (v : option ProtocolVersion) (e : option Z) :
  let st := append_to_pending_queue t c k (create_session_state t c d v e new_session_storage) in
  let st' := create_session_state t c d v e st in
  held st' = [] /\ ref_counts st' !! k = Some 1.
Proof.
  assert (forall s s', put_session t c s' (mkStorage {[t := {[c := s]}]} {[k := 1]})
    = mkStorage {[t := {[c := s']}]} {[k := 1]}) as Hput.
  { intros s s'. unfold put_session. simpl. f_equal.
    rewrite alter_singleton_eq. by rewrite insert_singleton_eq. }
  assert (create_session_state t c d v e new_session_storage
    = mkStorage {[t := {[c := new_with_options d v e]}]} ∅) as H1.
  { unfold create_session_state, ensure_tenant. simpl. rewrite lookup_empty. unfold put_session. simpl.
    by rewrite insert_empty, alter_singleton_eq, insert_empty. }
  assert (append_to_pending_queue t c k (create_session_state t c d v e new_session_storage)
    = mkStorage {[t := {[c := set_pending [k] (new_with_options d v e)]}]} {[k := 1]}) as H2.
  { rewrite H1. unfold append_to_pending_queue, ensure_tenant, get_session_state. simpl.
    rewrite !lookup_singleton_eq. simpl. rewrite !lookup_singleton_eq.
    unfold set_refs, inc_ref. simpl. rewrite lookup_empty, insert_empty. apply Hput. }
  cbv zeta. rewrite H2. unfold create_session_state, ensure_tenant. simpl.
  rewrite lookup_singleton_eq. rewrite Hput. split; [|apply lookup_singleton_eq].
  unfold held. cbn [sessions]. unfold flat at 1. rewrite map_to_list_singleton. cbn [map concat snd].
  unfold flat. by rewrite map_to_list_singleton.
Qed.

(** *** Witnesses *)

(** A session that keeps one message for its client. *)
Definition created : SessionStateRequest := CreateSessionState "t" "c" 5 None None.
Definition kept : SessionStateRequest := AppendToPendingQueue "t" "c" "k".
Definition sample_storage : SessionStateStorage :=
  append_to_pending_queue "t" "c" "k" (create_session_state "t" "c" 5 None None new_session_storage).
Definition sample_store : Store := set_storage sample_storage (initial ∅).
Lemma sample_refs : refs_ok [] sample_storage.
Proof. apply (append_frees []). by apply (create_frees []); [apply refs_initial|]. Qed.

(** The last holder goes: the key is queued. *)
Lemma apply_frees_exactly_witness :
  exists r n' freed,
    apply_request (fun _ => true) (fun _ _ => true) 7 3 (PopFromPendingQueue "t" "c") sample_store = Ok (r, n') /\
    refs_ok [] (session_state_storage n') /\ NoDup freed /\
    (forall k, k ∈ freed <-> k ∈ held sample_storage /\ k ∉ held (session_state_storage n') /\ k ∉ []) /\
    payload_gc_queue n' = map (fun k => mkGcItem 3 k false) freed /\ payload_gc_queue n' = [mkGcItem 3 "k" false].
Proof.
  destruct (apply_frees_exactly (fun _ => true) (fun _ _ => true) 7 3 (PopFromPendingQueue "t" "c") [] sample_store)
    as (r & n' & freed & Heq & Hr & Hnd & Hiff & Hq).
  - exact sample_refs.
  - exact I.
  - exists r, n', freed. split_and!; [exact Heq|exact Hr|exact Hnd|exact Hiff|exact Hq|].
    vm_compute in Heq. injection Heq as _ <-. reflexivity.
Defined.

(** A node that appends the two commands to its log and applies them. *)
Definition entry1 : Entry := mkEntry 1 1 (Normal created).
Definition entry2 : Entry := mkEntry 2 1 (Normal kept).
Definition present (n : Store) : nat -> string -> bool := fun _ k => bool_decide (is_Some (payloads n !! k)).
Definition start : Store := initial {["k"%string := [1]]}.
Definition written : Store := (append (present start) [entry1; entry2] start).2.

Lemma written_step : step (mkHost start ∅) (mkHost written ∅).
Proof.
  apply step_append.
  - intros i k. unfold present. by intros ?%bool_decide_eq_true.
  - intros e1 e2 H1 H2 Hi _. cbn in H1, H2. rewrite lookup_empty in H1, H2.
    destruct H1 as [H1|]; [|done]. destruct H2 as [H2|]; [|done].
    rewrite !elem_of_cons, elem_of_nil in H1, H2. destruct H1 as [->|[->|[]]], H2 as [->|[->|[]]]; done.
Qed.

Lemma applied_run :
  exists x, rtc step (mkHost start ∅) x /\ held (session_state_storage (h_store x)) = ["k"%string].
Proof.
  eexists. split.
  - eapply rtc_l; [exact written_step|].
    eapply rtc_l; [eapply (step_apply (fun _ => true) (fun _ _ => true) 7 entry1); [..|vm_compute; reflexivity]|].
    { split; [reflexivity|discriminate]. }
    { intros req [= <-]. exact I. }
    { discriminate. }
    eapply rtc_l; [eapply (step_apply (fun _ => true) (fun _ _ => true) 7 entry2); [..|vm_compute; reflexivity]|].
    { split; [reflexivity|]. intros i [= <-]. reflexivity. }
    { intros req [= <-]. exact I. }
    { intros k [= <-]. apply (bool_decide_unpack _). vm_compute. exact I. }
    apply rtc_refl.
  - vm_compute. reflexivity.
Qed.

Lemma live_payloads_kept_witness :
  exists x, rtc step (mkHost start ∅) x /\
    held (session_state_storage (h_store x)) = ["k"%string] /\ is_Some (payloads (h_store x) !! "k"%string).
Proof.
  destruct applied_run as (x & Hrun & Hh). exists x. split; [exact Hrun|]. split; [exact Hh|].
  apply (live_payloads_kept {["k"%string := [1]]} x "k" Hrun). rewrite Hh. apply elem_of_cons. by left.
Defined.

Lemma purge_collects_witness :
  let n := set_queue [mkGcItem 3 "k" false; mkGcItem 9 "j" false]
             (initial {["k"%string := [1]; "j"%string := [2]]}) in
  payload_gc_queue (purge (fun _ => Deleted) (fun _ _ => true) 5 n) = [mkGcItem 9 "j" false] /\
  payloads (purge (fun _ => Deleted) (fun _ _ => true) 5 n) !! "k"%string = None.
Proof.
  intros n. destruct (purge_collects 5 n) as (H1 & H2 & _).
  { intros it. simpl. rewrite !elem_of_cons, elem_of_nil. intros [->|[->|[]]]; reflexivity. }
  split; [exact H1|]. apply (H2 (mkGcItem 3 "k" false)); [apply elem_of_cons; left|]; reflexivity.
Defined.
