(* ===== verification/RaftLog.v ===== *)
(** * The Raft log on RocksDB ([broker/src/raft/topic/store.rs], [LogStore])

    The log entries of a Raft group, its vote and its commit and purge positions are
    kept in a RocksDB database as JSON documents, under big-endian keys so that the
    database's key order is the order of the log.  RocksDB and [serde_json] are not
    part of the repository: they are the classes [Rocks] and [Serde], with what the
    store relies on in [RocksSpec] and [SerdeSpec].  The theorem shows that the store
    is a log: whatever is appended, truncated and purged, a read returns the entries
    of the range in order.  The store of the session registry has the same code. *)

From S2P Require Import Prelude Utf8.
From stdpp Require Import sorting.

#[local] Open Scope Z_scope.

(** ** Third-party interfaces *)

(** The column families, by name. *)
Abbreviation ColumnFamily := string (only parsing).

Inductive IteratorMode := From (key : bytes) | End_.

(** A database [DB] whose values are documents [Doc]; every call may fail. *)
Class Rocks (DB Doc : Type) := {
  cf_handle : DB -> string -> option ColumnFamily;
  get_cf : DB -> ColumnFamily -> bytes -> outcome string (option Doc);
  put_cf : DB -> ColumnFamily -> bytes -> Doc -> outcome string DB;
  delete_range_cf : DB -> ColumnFamily -> bytes -> bytes -> outcome string DB;
  flush_wal : DB -> bool -> outcome string DB;
  iterator_cf : DB -> ColumnFamily -> IteratorMode -> list (outcome string (bytes * Doc));
}.

(** The order of keys: bytes compared one by one, a prefix first. *)
Fixpoint key_ltb (a b : bytes) : bool :=
  match a, b with
  | _, [] => false
  | [], _ :: _ => true
  | x :: a, y :: b => (x <? y) || ((x =? y) && key_ltb a b)
  end.
Definition key_lt (a b : bytes) : Prop := key_ltb a b = true.
#[export] Instance key_lt_dec a b : Decision (key_lt a b) := decide (key_ltb a b = true).

(** What is documented of RocksDB: it is a map per column family, iterated in key order.
    Calls succeed on a database that is [healthy]. *)
Class RocksSpec (DB Doc : Type) `{Rocks DB Doc} := {
  healthy : DB -> Prop;
  view : DB -> ColumnFamily -> gmap bytes Doc;
  cf_handle_ok db name : healthy db -> name = "store"%string \/ name = "logs"%string ->
    cf_handle db name = Some name;
  get_ok db cf k : healthy db -> get_cf db cf k = Ok (view db cf !! k);
  put_ok db cf k v : healthy db -> exists db', put_cf db cf k v = Ok db' /\ healthy db' /\
    forall cf', view db' cf' = if decide (cf' = cf) then <[k := v]> (view db cf) else view db cf';
  delete_range_ok db cf a b : healthy db -> ~ key_lt b a ->
    exists db', delete_range_cf db cf a b = Ok db' /\ healthy db' /\
    forall cf', view db' cf' =
      if decide (cf' = cf) then filter (fun kv => key_lt kv.1 a \/ ~ key_lt kv.1 b) (view db cf)
      else view db cf';
  flush_ok db sync : healthy db -> exists db', flush_wal db sync = Ok db' /\ healthy db' /\
    forall cf, view db' cf = view db cf;
  iterate_from_ok db cf start : healthy db -> exists l,
    iterator_cf db cf (From start) = map Ok l /\ StronglySorted key_lt l.*1 /\
    forall k v, (k, v) ∈ l <-> view db cf !! k = Some v /\ ~ key_lt k start;
  iterate_end_ok db cf : healthy db -> exists l,
    iterator_cf db cf End_ = map Ok l /\ StronglySorted (flip key_lt) l.*1 /\
    forall k v, (k, v) ∈ l <-> view db cf !! k = Some v;
}.

(** [serde_json::to_vec] and [from_slice] of a type. *)
Class Serde (Doc A : Type) := {
  to_vec : A -> outcome string Doc;
  from_slice : Doc -> outcome string A;
}.

(** What is written is read back. *)
Class SerdeSpec (Doc A : Type) `{Serde Doc A} : Prop :=
  serde_roundtrip (a : A) : exists d, to_vec a = Ok d /\ from_slice d = Ok a.

(** An [Option] is written as its value or as [null], which is no value. *)
Class SerdeOptionSpec (Doc A : Type) `{Serde Doc A, Serde Doc (option A)} : Prop := {
  serde_some (a : A) : to_vec (Some a) = to_vec a;
  serde_none : exists d e, to_vec (@None A) = Ok d /\ from_slice (A := A) d = Err e;
}.

(** ** Data *)

(** [openraft]'s log ids, votes and entries. *)
Record LogId := mkLogId { leader_term : Z; leader_node : Z; index : Z }.
Record Vote := mkVote { vote_term : Z; vote_node : Z; vote_committed : bool }.
#[export] Instance LogId_eq_dec : EqDecision LogId.
Proof. solve_decision. Defined.
#[export] Instance Vote_eq_dec : EqDecision Vote.
Proof. solve_decision. Defined.

Inductive EntryPayload (D M : Type) := Blank | Normal (req : D) | Membership (mem : M).
Arguments Blank {D M}.
Arguments Normal {D M} req.
Arguments Membership {D M} mem.
Record Entry (D M : Type) := mkEntry { log_id : LogId; payload : EntryPayload D M }.
Arguments mkEntry {D M} log_id payload.
Arguments log_id {D M} e.
Arguments payload {D M} e.

(** [openraft::StorageIOError]: what was accessed, how, and why it failed.  A snapshot is
    named by the index of its last entry. *)
Inductive ErrorSubject := Store | SVote | Logs | StateMachine | SnapshotOf (last : option Z).
Inductive ErrorVerb := Read | Write.
Inductive Cause :=
  | ColumnFamilyNotFound (name : string)
  | Rocksdb (e : string)
  | SerdeJson (e : string)
  | InvalidKeyLength (len : Z)
  | StateMachineError.
Record StorageIOError := mkIOError { subject : ErrorSubject; verb : ErrorVerb; cause : Cause }.
Abbreviation StorageResult := (outcome StorageIOError).

Definition with_cause {E A} (s : ErrorSubject) (v : ErrorVerb) (c : E -> Cause) (m : outcome E A)
    : StorageResult A := map_err (fun e => mkIOError s v (c e)) m.

(** [u64::to_be_bytes] and [u64::from_be_bytes]. *)
Fixpoint to_be_bytes (n : nat) (v : Z) : bytes :=
  match n with
  | O => []
  | S n => (v / 256 ^ Z.of_nat n) mod 256 :: to_be_bytes n v
  end.
Definition from_be_bytes (b : bytes) : Z := foldl (fun acc x => acc * 256 + x) 0 b.

Definition id_to_bin (id : Z) : bytes := to_be_bytes 8 id.
Definition bin_to_id (buf : bytes) : StorageResult Z :=
  if decide (zlen buf = 8) then Ok (from_be_bytes buf)
  else Err (mkIOError Logs Read (InvalidKeyLength (zlen buf))).

Inductive Bound := Included (x : Z) | Excluded (x : Z) | Unbounded.
Record Range := mkRange { start_bound : Bound; end_bound : Bound }.

(** [RangeBounds::contains]. *)
Definition contains (r : Range) (i : Z) : bool :=
  match start_bound r with Included x => x <=? i | Excluded x => x <? i | Unbounded => true end
  && match end_bound r with Included x => i <=? x | Excluded x => i <? x | Unbounded => true end.

Record LogState := mkLogState { last_purged_log_id : option LogId; last_log_id : option LogId }.

(** ** The store *)

Section LogStore.
Context {DB Doc D M : Type} `{Rocks DB Doc}.
Context `{Serde Doc (Entry D M), Serde Doc LogId, Serde Doc (option LogId), Serde Doc Vote}.

(** [LogStore] holds the database; its operations return the database they leave. *)

Definition store (db : DB) : StorageResult ColumnFamily :=
  match cf_handle db "store" with
  | Some cf => Ok cf
  | None => Err (mkIOError Store Read (ColumnFamilyNotFound "store"))
  end.
Definition logs (db : DB) : StorageResult ColumnFamily :=
  match cf_handle db "logs" with
  | Some cf => Ok cf
  | None => Err (mkIOError Logs Read (ColumnFamilyNotFound "logs"))
  end.
Definition flush (s : ErrorSubject) (v : ErrorVerb) (db : DB) : StorageResult DB :=
  with_cause s v Rocksdb (flush_wal db true).

(** [.and_then(|v| serde_json::from_slice(&v).ok())]: what cannot be read is not there. *)
Definition parsed {A} `{Serde Doc A} (v : option Doc) : option A :=
  v ≫= fun d => match from_slice d with Ok a => Some a | _ => None end.

Definition get_last_purged_ (db : DB) : StorageResult (option LogId) :=
  cf ← store db;
  v ← with_cause Store Read Rocksdb (get_cf db cf (as_bytes "last_purged_log_id"));
  Ok (parsed v).
Definition set_last_purged_ (log_id : LogId) (db : DB) : StorageResult DB :=
  json ← with_cause Store Write SerdeJson (to_vec log_id);
  cf ← store db;
  db ← with_cause Store Write Rocksdb (put_cf db cf (as_bytes "last_purged_log_id") json);
  flush Store Write db.

Definition set_committed_ (committed : option LogId) (db : DB) : StorageResult DB :=
  json ← with_cause Store Write SerdeJson (to_vec committed);
  cf ← store db;
  db ← with_cause Store Write Rocksdb (put_cf db cf (as_bytes "committed") json);
  flush Store Write db.
Definition get_committed_ (db : DB) : StorageResult (option LogId) :=
  cf ← store db;
  v ← with_cause Store Read Rocksdb (get_cf db cf (as_bytes "committed"));
  Ok (parsed v).

Definition set_vote_ (vote : Vote) (db : DB) : StorageResult DB :=
  vote_data ← with_cause SVote Write SerdeJson (to_vec vote);
  cf ← store db;
  db ← with_cause SVote Write Rocksdb (put_cf db cf (as_bytes "vote") vote_data);
  flush SVote Write db.
Definition get_vote_ (db : DB) : StorageResult (option Vote) :=
  cf ← store db;
  v ← with_cause SVote Write Rocksdb (get_cf db cf (as_bytes "vote"));
  Ok (parsed v).

(** The loop of [try_get_log_entries] over the iterator's items. *)
Fixpoint read_entries (range : Range) (items : list (outcome string (bytes * Doc)))
    : StorageResult (list (Entry D M)) :=
  match items with
  | [] => Ok []
  | res :: items =>
      '(id, val) ← with_cause Logs Read Rocksdb res;
      id ← bin_to_id id;
      if negb (contains range id) then Ok []
      else
        entry ← with_cause Logs Read SerdeJson (from_slice val);
        if decide (id = index (log_id entry)) then
          entries ← read_entries range items;
          Ok (entry :: entries)
        else Panic
  end.

Definition try_get_log_entries (range : Range) (db : DB) : StorageResult (list (Entry D M)) :=
  start ← match start_bound range with
          | Included x => Ok (id_to_bin x)
          | Excluded x => x' ← add_u64 x 1; Ok (id_to_bin x')
          | Unbounded => Ok (id_to_bin 0)
          end;
  logs_cf ← logs db;
  read_entries range (iterator_cf db logs_cf (From start)).

Definition get_log_state (db : DB) : StorageResult LogState :=
  cf ← logs db;
  last ← match iterator_cf db cf End_ with
         | [] => Ok None
         | res :: _ =>
             '(_, ent) ← with_cause Logs Read Rocksdb res;
             entry ← with_cause Logs Read SerdeJson (from_slice (A := Entry D M) ent);
             Ok (Some (log_id entry))
         end;
  last_purged ← get_last_purged_ db;
  Ok (mkLogState last_purged (match last with None => last_purged | Some x => Some x end)).

Definition save_committed (committed : option LogId) (db : DB) : StorageResult DB :=
  set_committed_ committed db.
Definition read_committed (db : DB) : StorageResult (option LogId) := get_committed_ db.
Definition save_vote (vote : Vote) (db : DB) : StorageResult DB := set_vote_ vote db.
Definition read_vote (db : DB) : StorageResult (option Vote) := get_vote_ db.

(** The loop of [append]; the key's [assert_eq] panics. *)
Fixpoint append (entries : list (Entry D M)) (db : DB) : StorageResult DB :=
  match entries with
  | [] => Ok db
  | entry :: entries =>
      let id := id_to_bin (index (log_id entry)) in
      i ← bin_to_id id;
      if decide (i = index (log_id entry)) then
        cf ← logs db;
        json ← with_cause Logs Write SerdeJson (to_vec entry);
        db ← with_cause Logs Write Rocksdb (put_cf db cf id json);
        append entries db
      else Panic
  end.

Definition truncate (log_id : LogId) (db : DB) : StorageResult DB :=
  let from := id_to_bin (index log_id) in
  let to := id_to_bin 0xffffffffffffffff in
  cf ← logs db;
  with_cause Logs Write Rocksdb (delete_range_cf db cf from to).

Definition purge (log_id : LogId) (db : DB) : StorageResult DB :=
  db ← set_last_purged_ log_id db;
  let from := id_to_bin 0 in
  next ← add_u64 (index log_id) 1;
  let to := id_to_bin next in
  cf ← logs db;
  with_cause Logs Write Rocksdb (delete_range_cf db cf from to).

End LogStore.

(** ** Keys *)

Lemma length_to_be_bytes n v : length (to_be_bytes n v) = n.
Proof. induction n as [|n IH]; simpl; [done|by rewrite IH]. Qed.

Lemma mod_pow_step n v :
  v mod 256 ^ Z.of_nat (S n) =
    (v / 256 ^ Z.of_nat n) mod 256 * 256 ^ Z.of_nat n + v mod 256 ^ Z.of_nat n.
Proof.
  replace (256 ^ Z.of_nat (S n)) with (256 ^ Z.of_nat n * 256)
    by (rewrite Nat2Z.inj_succ, Z.pow_succ_r by lia; lia).
  rewrite Z.rem_mul_r by lia. lia.
Qed.

Lemma from_to_be_bytes n v : from_be_bytes (to_be_bytes n v) = v mod 256 ^ Z.of_nat n.
Proof.
  unfold from_be_bytes. cut (forall acc,
    foldl (fun a x => a * 256 + x) acc (to_be_bytes n v) = acc * 256 ^ Z.of_nat n + v mod 256 ^ Z.of_nat n).
  { intros ->. lia. }
  induction n as [|n IH]; intros acc.
  - simpl. rewrite Z.mod_1_r. lia.
  - cbn [to_be_bytes foldl]. rewrite IH, mod_pow_step, Nat2Z.inj_succ, Z.pow_succ_r by lia. ring.
Qed.

Lemma to_be_bytes_lt n a b :
  key_lt (to_be_bytes n a) (to_be_bytes n b) <-> a mod 256 ^ Z.of_nat n < b mod 256 ^ Z.of_nat n.
Proof.
  unfold key_lt. induction n as [|n IH]; [by rewrite !Z.mod_1_r|].
  cbn [to_be_bytes key_ltb]. rewrite orb_true_iff, andb_true_iff, Z.ltb_lt, Z.eqb_eq, IH, !mod_pow_step.
  assert (0 < 256 ^ Z.of_nat n) as Hp by lia.
  pose proof (Z.mod_pos_bound a _ Hp). pose proof (Z.mod_pos_bound b _ Hp).
  set (x := (a / _) mod 256). set (y := (b / _) mod 256). nia.
Qed.

Lemma u64_mod i : is_u64 i -> i mod 256 ^ Z.of_nat 8 = i.
Proof. unfold is_u64. intros Hi. apply Z.mod_small. lia. Qed.

Lemma id_to_bin_lt i j : is_u64 i -> is_u64 j -> key_lt (id_to_bin i) (id_to_bin j) <-> i < j.
Proof. intros Hi Hj. unfold id_to_bin. by rewrite to_be_bytes_lt, !u64_mod. Qed.

Lemma bin_to_id_to_bin i : is_u64 i -> bin_to_id (id_to_bin i) = Ok i.
Proof.
  intros Hi. unfold bin_to_id, id_to_bin, zlen. rewrite length_to_be_bytes, decide_True by done.
  by rewrite from_to_be_bytes, u64_mod.
Qed.

Lemma id_to_bin_inj i j : is_u64 i -> is_u64 j -> id_to_bin i = id_to_bin j -> i = j.
Proof.
  intros Hi Hj Heq. apply (f_equal bin_to_id) in Heq.
  rewrite !bin_to_id_to_bin in Heq by done. by injection Heq.
Qed.

(** ** The abstract log *)

Record log_spec (D M : Type) := mkLogSpec {
  sp_entries : gmap Z (Entry D M);
  sp_purged : option LogId;
  sp_committed : option LogId;
  sp_vote : option Vote;
}.
Arguments mkLogSpec {D M}.
Arguments sp_entries {D M}.
Arguments sp_purged {D M}.
Arguments sp_committed {D M}.
Arguments sp_vote {D M}.

Inductive log_op (D M : Type) :=
  | Append (entries : list (Entry D M))
  | Truncate (log_id : LogId)
  | Purge (log_id : LogId)
  | SaveVote (vote : Vote)
  | SaveCommitted (committed : option LogId).
Arguments Append {D M}.
Arguments Truncate {D M}.
Arguments Purge {D M}.
Arguments SaveVote {D M}.
Arguments SaveCommitted {D M}.

Section Spec.
Context {D M : Type}.
Implicit Types l : log_spec D M.

Definition add_entries (entries : list (Entry D M)) (m : gmap Z (Entry D M)) : gmap Z (Entry D M) :=
  foldl (fun m e => <[index (log_id e) := e]> m) m entries.

Definition spec_log_op (o : log_op D M) l : log_spec D M :=
  match o with
  | Append es => mkLogSpec (add_entries es (sp_entries l)) (sp_purged l) (sp_committed l) (sp_vote l)
  | Truncate id =>
      mkLogSpec (filter (fun kv => kv.1 < index id) (sp_entries l)) (sp_purged l) (sp_committed l) (sp_vote l)
  | Purge id =>
      mkLogSpec (filter (fun kv => index id < kv.1) (sp_entries l)) (Some id) (sp_committed l) (sp_vote l)
  | SaveVote v => mkLogSpec (sp_entries l) (sp_purged l) (sp_committed l) (Some v)
  | SaveCommitted c => mkLogSpec (sp_entries l) (sp_purged l) c (sp_vote l)
  end.

Definition empty_log : log_spec D M := mkLogSpec ∅ None None None.
Definition spec_log_run (ops : list (log_op D M)) : log_spec D M :=
  foldl (fun l o => spec_log_op o l) empty_log ops.

(** The indexes below the greatest [u64], which no log reaches. *)
Definition index_ok (i : Z) : Prop := 0 <= i < u64_max.
Definition log_op_ok (o : log_op D M) : Prop :=
  match o with
  | Append es => Forall (fun e => index_ok (index (log_id e))) es
  | Truncate id | Purge id => index_ok (index id)
  | SaveVote _ | SaveCommitted _ => True
  end.
Definition range_ok (r : Range) : Prop :=
  match start_bound r with Included x => is_u64 x | Excluded x => index_ok x | Unbounded => True end.

Definition index_lt (e f : Entry D M) : Prop := index (log_id e) < index (log_id f).

(** The entries of a range, in the order of the log. *)
Definition listed_in (r : Range) l (entries : list (Entry D M)) : Prop :=
  StronglySorted index_lt entries /\
  forall e, e ∈ entries <->
    sp_entries l !! index (log_id e) = Some e /\ contains r (index (log_id e)) = true.

(** The last id of the log: that of its greatest entry, or the last one purged. *)
Definition last_id_of l (last : option LogId) : Prop :=
  (sp_entries l = ∅ /\ last = sp_purged l) \/
  exists i e, sp_entries l !! i = Some e /\ last = Some (log_id e) /\
    forall j, is_Some (sp_entries l !! j) -> j <= i.

Lemma add_entries_other es m i :
  (forall e, e ∈ es -> index (log_id e) <> i) -> add_entries es m !! i = m !! i.
Proof.
  unfold add_entries. revert m. induction es as [|f es IH]; intros m Hne; [done|]. simpl.
  rewrite IH by set_solver. apply lookup_insert_ne. apply Hne. set_solver.
Qed.

Lemma consecutive_sorted (c : Z) (es : list (Entry D M)) :
  (forall i e, es !! i = Some e -> index (log_id e) = c + Z.of_nat i) -> StronglySorted index_lt es.
Proof.
  revert c. induction es as [|e es IH]; intros c Hi; [constructor|]. constructor.
  - apply (IH (c + 1)). intros i f Hf. rewrite (Hi (S i) f Hf). lia.
  - apply Forall_forall. intros f [i Hf]%list_elem_of_lookup. unfold index_lt.
    rewrite (Hi 0%nat e eq_refl), (Hi (S i) f Hf). lia.
Qed.

(** Two lists of entries of the same range are the same. *)
Lemma sorted_entries_unique (es es' : list (Entry D M)) :
  StronglySorted index_lt es -> StronglySorted index_lt es' -> (forall e, e ∈ es <-> e ∈ es') -> es = es'.
Proof.
  intros Hs Hs' Hin. assert (forall l : list (Entry D M), StronglySorted index_lt l -> NoDup l) as Hnd.
  { induction 1 as [|x l _ IH Hall]; constructor; [|done]. rewrite Forall_forall in Hall.
    intros Hx%Hall. unfold index_lt in Hx. lia. }
  apply (StronglySorted_unique_strong index_lt); [|done|done|by apply NoDup_Permutation; auto].
  unfold index_lt. intros x y _ _ ? ?. lia.
Qed.
End Spec.

(** ** The store refines the log *)

Section Refinement.
Context {DB Doc D M : Type} `{RocksSpec DB Doc}.
Context `{!Serde Doc (Entry D M), !Serde Doc LogId, !Serde Doc (option LogId), !Serde Doc Vote}.
Context `{!SerdeSpec Doc (Entry D M), !SerdeSpec Doc LogId, !SerdeSpec Doc Vote, !SerdeOptionSpec Doc LogId}.
Implicit Types (db : DB) (m : gmap Z (Entry D M)) (l : log_spec D M).

Definition exec_log (o : log_op D M) db : StorageResult DB :=
  match o with
  | Append es => append es db
  | Truncate id => truncate id db
  | Purge id => purge id db
  | SaveVote v => save_vote v db
  | SaveCommitted c => save_committed c db
  end.
Fixpoint run_log (ops : list (log_op D M)) db : StorageResult DB :=
  match ops with
  | [] => Ok db
  | o :: ops => db ← exec_log o db; run_log ops db
  end.

(** The documents of the column family are the entries, each under its index. *)
Definition holds_log (docs : gmap bytes Doc) m : Prop :=
  (forall k d, docs !! k = Some d -> exists i, is_u64 i /\ k = id_to_bin i /\ is_Some (m !! i)) /\
  (forall i e, m !! i = Some e -> index_ok i /\ index (log_id e) = i /\
    exists d, docs !! id_to_bin i = Some d /\ from_slice d = Ok e).

Definition stored {A} `{Serde Doc A} db (key : string) : option A :=
  parsed (view db "store" !! as_bytes key).

Record log_refines db l : Prop := {
  lr_healthy : healthy db;
  lr_entries : holds_log (view db "logs") (sp_entries l);
  lr_purged : stored db "last_purged_log_id" = sp_purged l;
  lr_committed : stored db "committed" = sp_committed l;
  lr_vote : stored db "vote" = sp_vote l;
}.

Lemma index_ok_u64 i : index_ok i -> is_u64 i.
Proof. unfold index_ok, is_u64, u64_max. lia. Qed.

Lemma holds_insert docs m e d :
  holds_log docs m -> index_ok (index (log_id e)) -> from_slice d = Ok e ->
  holds_log (<[id_to_bin (index (log_id e)) := d]> docs) (<[index (log_id e) := e]> m).
Proof.
  intros [Hk Hm] Hi Hd. apply index_ok_u64 in Hi as Hu. split.
  - intros k d' [[<- <-]|[Hne Hk']]%lookup_insert_Some.
    + eexists. split; [done|]. split; [done|]. by rewrite lookup_insert_eq.
    + destruct (Hk _ _ Hk') as (i & ? & ? & ?). exists i. split_and!; [done..|].
      apply lookup_insert_is_Some'. by right.
  - intros i f [[<- <-]|[Hne Hm']]%lookup_insert_Some.
    + split_and!; [done..|]. exists d. by rewrite lookup_insert_eq.
    + destruct (Hm _ _ Hm') as (Hu' & Hi' & d' & Hd' & ?). split_and!; [done..|]. exists d'.
      rewrite lookup_insert_ne; [done|]. intros Heq. apply Hne, id_to_bin_inj; [done| |done].
      by apply index_ok_u64.
Qed.

(** Removing a range of keys removes the indexes between. *)
Lemma holds_filter docs m (P : Z -> Prop) (Q : bytes -> Prop)
    `{forall kv : Z * Entry D M, Decision (P kv.1)} `{forall kv : bytes * Doc, Decision (Q kv.1)} :
  holds_log docs m -> (forall i, index_ok i -> Q (id_to_bin i) <-> P i) ->
  holds_log (filter (fun kv => Q kv.1) docs) (filter (fun kv => P kv.1) m).
Proof.
  intros [Hk Hm] HPQ. split.
  - intros k d [Hk' HQ]%map_lookup_filter_Some. destruct (Hk _ _ Hk') as (i & Hi & -> & e & He).
    exists i. split_and!; [done..|]. exists e. apply map_lookup_filter_Some. split; [done|].
    apply HPQ; [by apply (Hm _ _ He)|done].
  - intros i e [He HP]%map_lookup_filter_Some. destruct (Hm _ _ He) as (Hi & ? & d & ? & ?).
    split_and!; [done..|]. exists d. split; [|done]. apply map_lookup_filter_Some. split; [done|].
    by apply HPQ.
Qed.

Lemma store_ok db : healthy db -> store db = Ok "store"%string.
Proof. intros Hh. unfold store. rewrite cf_handle_ok by (done || by left). done. Qed.
Lemma logs_ok db : healthy db -> logs db = Ok "logs"%string.
Proof. intros Hh. unfold logs. rewrite cf_handle_ok by (done || by right). done. Qed.

(** Writing a document of the [store] family and flushing it. *)
Lemma put_store_ok db key d s v :
  healthy db -> exists db',
    (db ← with_cause s v Rocksdb (put_cf db "store" (as_bytes key) d); flush s v db) = Ok db' /\
    healthy db' /\ view db' "logs" = view db "logs" /\
    view db' "store" = <[as_bytes key := d]> (view db "store").
Proof.
  intros Hh. destruct (put_ok db "store" (as_bytes key) d Hh) as (db1 & -> & Hh1 & Hv1).
  destruct (flush_ok db1 true Hh1) as (db2 & Hf & Hh2 & Hv2). exists db2. simpl. unfold flush.
  rewrite Hf. split; [done|]. split; [done|]. by rewrite !Hv2, !Hv1.
Qed.

Lemma get_store_ok {A} `{Serde Doc A} db key s v :
  healthy db ->
  (cf ← store db; x ← with_cause s v Rocksdb (get_cf db cf (as_bytes key)); Ok (parsed x))
    = Ok (stored (A := A) db key).
Proof. intros Hh. rewrite store_ok by done. simpl. by rewrite get_ok. Qed.

Lemma append_ok es db m :
  healthy db -> holds_log (view db "logs") m -> Forall (fun e => index_ok (index (log_id e))) es ->
  exists db', append es db = Ok db' /\ healthy db' /\ holds_log (view db' "logs") (add_entries es m) /\
    view db' "store" = view db "store".
Proof.
  intros Hh Hm Hes. revert db m Hh Hm. induction Hes as [|e es He _ IH]; intros db m Hh Hm.
  { by exists db. }
  destruct (serde_roundtrip e) as (d & Hto & Hfrom).
  destruct (put_ok db "logs" (id_to_bin (index (log_id e))) d Hh) as (db1 & Hput & Hh1 & Hv1).
  destruct (IH db1 (<[index (log_id e) := e]> m)) as (db2 & Hr & Hh2 & Hm2 & Hs2); [done| |].
  { rewrite Hv1, decide_True by done. by apply holds_insert. }
  exists db2. cbn [append]. rewrite bin_to_id_to_bin by (by apply index_ok_u64). simpl.
  rewrite decide_True, logs_ok by done. simpl. rewrite Hto. simpl. rewrite Hput. simpl.
  rewrite Hr, Hs2, Hv1. done.
Qed.

Lemma delete_range_log db m a b (P : Z -> Prop)
    `{forall kv : Z * Entry D M, Decision (P kv.1)} :
  healthy db -> holds_log (view db "logs") m -> is_u64 a -> is_u64 b -> a <= b ->
  (forall i, index_ok i -> (i < a \/ b <= i) <-> P i) ->
  exists db', with_cause Logs Write Rocksdb (delete_range_cf db "logs" (id_to_bin a) (id_to_bin b)) = Ok db' /\
    healthy db' /\ holds_log (view db' "logs") (filter (fun kv => P kv.1) m) /\
    view db' "store" = view db "store".
Proof.
  intros Hh Hm Ha Hb Hab HP.
  destruct (delete_range_ok db "logs" (id_to_bin a) (id_to_bin b) Hh) as (db' & -> & Hh' & Hv).
  { rewrite id_to_bin_lt by done. lia. }
  exists db'. split_and!; [done|done| |by rewrite Hv]. rewrite Hv, decide_True by done.
  apply (holds_filter _ _ P (fun k => key_lt k (id_to_bin a) \/ ~ key_lt k (id_to_bin b))); [done|].
  intros i Hi. rewrite <-HP by done. apply index_ok_u64 in Hi.
  rewrite !id_to_bin_lt by done. lia.
Qed.

Lemma stored_write {A} `{Serde Doc A} db db' key key' d :
  view db' "store" = <[as_bytes key := d]> (view db "store") ->
  stored (A := A) db' key' = if decide (key = key') then parsed (Some d) else stored db key'.
Proof.
  intros Hv. unfold stored. rewrite Hv. case_decide as Hk; [subst; by rewrite lookup_insert_eq|].
  rewrite lookup_insert_ne; [done|]. by intros Heq%as_bytes_inj.
Qed.
Lemma stored_same {A} `{Serde Doc A} db db' key :
  view db' "store" = view db "store" -> stored (A := A) db' key = stored db key.
Proof. intros Hv. unfold stored. by rewrite Hv. Qed.

Lemma parsed_to_vec {A} `{SerdeSpec Doc A} (a : A) :
  exists d, to_vec a = Ok d /\ parsed (Some d) = Some a.
Proof. destruct (serde_roundtrip a) as (d & Ht & Hf). exists d. unfold parsed. simpl. by rewrite Hf. Qed.
Lemma parsed_option (c : option LogId) : exists d, to_vec c = Ok d /\ parsed (Some d) = c.
Proof.
  unfold parsed. simpl. destruct c as [a|].
  - destruct (serde_roundtrip a) as (d & Ht & Hf). exists d. by rewrite serde_some, Hf.
  - destruct (serde_none (A := LogId)) as (d & e & Ht & Hf). exists d. by rewrite Hf.
Qed.

(** The log operations leave the snapshot alone. *)
Definition keeps_snapshot db db' : Prop :=
  view db' "store" !! as_bytes "snapshot" = view db "store" !! as_bytes "snapshot".

(** A document of the [store] family is written: the other ones and the log stay. *)
Lemma write_document db l l' key d sub :
  log_refines db l -> key <> "snapshot"%string -> sp_entries l' = sp_entries l ->
  sp_purged l' = (if decide (key = "last_purged_log_id"%string) then parsed (Some d) else sp_purged l) ->
  sp_committed l' = (if decide (key = "committed"%string) then parsed (Some d) else sp_committed l) ->
  sp_vote l' = (if decide (key = "vote"%string) then parsed (Some d) else sp_vote l) ->
  exists db',
    (cf ← store db; db ← with_cause sub Write Rocksdb (put_cf db cf (as_bytes key) d); flush sub Write db)
      = Ok db' /\ log_refines db' l' /\ keeps_snapshot db db'.
Proof.
  intros [Hh He Hp Hc Hv] Hsnap He' Hp' Hc' Hv'.
  destruct (put_store_ok db key d sub Write Hh) as (db' & Hput & Hh' & Hl & Hs).
  exists db'. rewrite store_ok by done. split; [exact Hput|]. split.
  - constructor; [done|by rewrite Hl, He'|..]; rewrite (stored_write db db' key _ d Hs), ?Hp, ?Hc, ?Hv; done.
  - unfold keeps_snapshot. rewrite Hs, lookup_insert_ne; [done|]. by intros Heq%as_bytes_inj.
Qed.

Lemma set_last_purged_ok id db l :
  log_refines db l -> exists db', set_last_purged_ id db = Ok db' /\
    log_refines db' (mkLogSpec (sp_entries l) (Some id) (sp_committed l) (sp_vote l)) /\ keeps_snapshot db db'.
Proof.
  intros HR. destruct (parsed_to_vec id) as (d & Ht & Hd). unfold set_last_purged_. rewrite Ht.
  by apply (write_document db l).
Qed.
Lemma save_committed_ok c db l :
  log_refines db l -> exists db', save_committed c db = Ok db' /\
    log_refines db' (spec_log_op (SaveCommitted c) l) /\ keeps_snapshot db db'.
Proof.
  intros HR. destruct (parsed_option c) as (d & Ht & Hd). unfold save_committed, set_committed_. rewrite Ht.
  by apply (write_document db l).
Qed.
Lemma save_vote_ok v db l :
  log_refines db l -> exists db', save_vote v db = Ok db' /\
    log_refines db' (spec_log_op (SaveVote v) l) /\ keeps_snapshot db db'.
Proof.
  intros HR. destruct (parsed_to_vec v) as (d & Ht & Hd). unfold save_vote, set_vote_. rewrite Ht.
  by apply (write_document db l).
Qed.

(** A change of the [logs] family alone. *)
Lemma log_refines_entries db db' l m :
  log_refines db l -> healthy db' -> holds_log (view db' "logs") m -> view db' "store" = view db "store" ->
  log_refines db' (mkLogSpec m (sp_purged l) (sp_committed l) (sp_vote l)) /\ keeps_snapshot db db'.
Proof.
  intros [Hh He Hp Hc Hv] Hh' Hm Hs. split; [|by unfold keeps_snapshot; rewrite Hs].
  constructor; simpl; try done; by rewrite (stored_same db db').
Qed.

Lemma log_refines_exec o db l :
  log_refines db l -> log_op_ok o ->
  exists db', exec_log o db = Ok db' /\ log_refines db' (spec_log_op o l) /\ keeps_snapshot db db'.
Proof.
  intros HR Ho. pose proof HR as [Hh He _ _ _].
  destruct o as [es|id|id|v|c]; simpl in *;
    [|apply index_ok_u64 in Ho as Hu|apply index_ok_u64 in Ho as Hu|by apply save_vote_ok|by apply save_committed_ok].
  - destruct (append_ok es db _ Hh He Ho) as (db' & Hr & Hh' & Hm & Hs). exists db'. split; [done|].
    by apply log_refines_entries.
  - destruct (delete_range_log db (sp_entries l) (index id) u64_max (fun i => i < index id))
      as (db' & Hr & Hh' & Hm & Hs); [done|done|done|unfold is_u64, u64_max; lia| | |].
    { unfold index_ok in Ho. lia. } { unfold index_ok. lia. }
    exists db'. unfold truncate. rewrite logs_ok by done. split; [exact Hr|]. by apply log_refines_entries.
  - destruct (set_last_purged_ok id db l HR) as (db1 & Hset & HR1 & Hk1).
    pose proof HR1 as [Hh1 He1 _ _ _].
    destruct (delete_range_log db1 (sp_entries l) 0 (index id + 1) (fun i => index id < i))
      as (db' & Hr & Hh' & Hm & Hs); [done|done|unfold is_u64; lia|..].
    { unfold index_ok, u64_max, is_u64 in *. lia. } { unfold index_ok in Ho. lia. } { unfold index_ok. lia. }
    exists db'. unfold purge. rewrite Hset. cbn [mbind outcome_bind].
    unfold add_u64. rewrite (proj2 (Z.leb_le _ _)) by (unfold index_ok in Ho; lia). cbn [mbind outcome_bind].
    rewrite logs_ok by done. split; [exact Hr|].
    destruct (log_refines_entries _ db' _ _ HR1 Hh' Hm Hs) as [HR' Hk']. split; [exact HR'|].
    unfold keeps_snapshot in *. congruence.
Qed.

(** ** Reading *)

(** The items of an iterator and the entries they hold. *)
Definition item_of (kd : bytes * Doc) (e : Entry D M) : Prop :=
  kd.1 = id_to_bin (index (log_id e)) /\ index_ok (index (log_id e)) /\ from_slice kd.2 = Ok e.

Lemma items_entries docs m items :
  holds_log docs m -> (forall k d, (k, d) ∈ items -> docs !! k = Some d) ->
  exists es, Forall2 item_of items es /\ forall e, e ∈ es -> m !! index (log_id e) = Some e.
Proof.
  intros [Hk Hm]. induction items as [|[k d] items IH]; intros Hin.
  { exists []. split; [constructor|set_solver]. }
  destruct IH as (es & Hes & Hm'); [set_solver|].
  destruct (Hk k d) as (i & Hi & -> & e & He); [apply Hin; set_solver|].
  destruct (Hm i e He) as (Hok & Hie & d' & Hd' & Hfrom).
  rewrite (Hin (id_to_bin i) d) in Hd' by set_solver. injection Hd' as <-.
  exists (e :: es). split.
  - constructor; [|done]. unfold item_of. by rewrite Hie.
  - intros f [->|Hf]%elem_of_cons; [by rewrite Hie|by apply Hm'].
Qed.

Lemma items_sorted (R : relation bytes) (S : relation (Entry D M)) items es :
  (forall e f, index_ok (index (log_id e)) -> index_ok (index (log_id f)) ->
    R (id_to_bin (index (log_id e))) (id_to_bin (index (log_id f))) -> S e f) ->
  Forall2 item_of items es -> StronglySorted R items.*1 -> StronglySorted S es.
Proof.
  intros HRS HF. induction HF as [|[k d] e items es (Hk & Hi & _) HF IH]; [constructor|].
  rewrite fmap_cons, !StronglySorted_cons. intros [Hall Hs]. split; [|by apply IH].
  clear IH Hs. induction HF as [|[k' d'] f items es (Hk' & Hi' & _) _ IH]; [constructor|].
  rewrite fmap_cons, Forall_cons in Hall. destruct Hall as [Hkk Hall]. constructor; [|by apply IH].
  apply HRS; [done..|]. simpl in *. by subst.
Qed.

Lemma read_entries_ok r items es :
  Forall2 item_of items es -> StronglySorted index_lt es ->
  (forall e, e ∈ es -> match start_bound r with
     | Included x => x <= index (log_id e) | Excluded x => x < index (log_id e) | Unbounded => True end) ->
  read_entries r (map Ok items) = Ok (filter (fun e => contains r (index (log_id e)) = true) es).
Proof.
  intros HF. induction HF as [|[k d] e items es (Hk & Hi & Hd) HF IH]; intros Hs Hstart; [done|].
  apply StronglySorted_cons in Hs as [Hall Hs]. simpl in *. subst k.
  rewrite bin_to_id_to_bin by (by apply index_ok_u64). cbn [mbind outcome_bind].
  rewrite filter_cons. destruct (contains r (index (log_id e))) eqn:Hc; simpl.
  - rewrite Hd. simpl. rewrite decide_True by done. rewrite IH; [done|done|]. intros f Hf. apply Hstart. set_solver.
  - f_equal. symmetry. apply elem_of_nil_inv. intros f [Hcf Hf]%list_elem_of_filter.
    rewrite Forall_forall in Hall. specialize (Hall f Hf). unfold index_lt in Hall.
    assert (match start_bound r with Included x => x <= index (log_id e)
      | Excluded x => x < index (log_id e) | Unbounded => True end) as Hse by (apply Hstart; set_solver).
    unfold contains in *. apply andb_false_iff in Hc. apply andb_true_iff in Hcf.
    destruct (start_bound r), (end_bound r); rewrite ?Z.leb_gt, ?Z.ltb_ge, ?Z.leb_le, ?Z.ltb_lt in *;
      naive_solver lia.
Qed.

(** The key an iteration over a range starts at. *)
Lemma start_key_ok r :
  range_ok r -> exists s, is_u64 s /\
    match start_bound r with
    | Included x => Ok (id_to_bin x)
    | Excluded x => x' ← add_u64 x 1; Ok (id_to_bin x')
    | Unbounded => Ok (id_to_bin 0)
    end = @Ok StorageIOError _ (id_to_bin s) /\
    forall i, index_ok i -> s <= i <->
      match start_bound r with Included x => x <= i | Excluded x => x < i | Unbounded => True end.
Proof.
  unfold range_ok. destruct (start_bound r) as [x|x|]; intros Hx.
  - by exists x.
  - unfold add_u64. unfold index_ok, u64_max in Hx. rewrite (proj2 (Z.leb_le _ _)) by (unfold u64_max; lia).
    exists (x + 1). split; [unfold is_u64; lia|]. split; [done|]. lia.
  - exists 0. split; [unfold is_u64; lia|]. split; [done|]. unfold index_ok. lia.
Qed.

Lemma StronglySorted_filter {A} (R : relation A) (P : A -> Prop) `{forall x, Decision (P x)} (xs : list A) :
  StronglySorted R xs -> StronglySorted R (filter P xs).
Proof.
  induction 1 as [|x xs Hxs IH Hall]; [constructor|]. rewrite filter_cons. case_decide; [|done].
  constructor; [done|]. rewrite Forall_forall in *. intros y [_ Hy]%list_elem_of_filter. by apply Hall.
Qed.

Lemma try_get_log_entries_ok r db l :
  log_refines db l -> range_ok r ->
  exists es, try_get_log_entries r db = Ok es /\ listed_in r l es.
Proof.
  intros [Hh He _ _ _] Hr. destruct (start_key_ok r Hr) as (s & Hs & Hkey & Hstart).
  destruct (iterate_from_ok db "logs" (id_to_bin s) Hh) as (items & Hit & Hsort & Hin).
  destruct (items_entries _ _ items He) as (es & HF & Hes); [by intros k d [? _]%Hin|].
  assert (forall e, e ∈ es -> exists k d, (k, d) ∈ items /\ item_of (k, d) e) as Hback.
  { intros e [j Hj]%list_elem_of_lookup. destruct (Forall2_lookup_r _ _ _ _ _ HF Hj) as ([k d] & Hk & Hitem).
    exists k, d. split; [by eapply list_elem_of_lookup_2|done]. }
  assert (forall e, e ∈ es -> index_ok (index (log_id e)) /\ s <= index (log_id e)) as Hge.
  { intros e (k & d & [_ Hk]%Hin & (Hkk & Hi & _))%Hback. split; [done|]. simpl in Hkk. subst k.
    rewrite id_to_bin_lt in Hk by (done || by apply index_ok_u64). lia. }
  assert (StronglySorted index_lt es) as Hses.
  { apply (items_sorted key_lt _ items); [|done|done]. intros e f ? ?.
    rewrite id_to_bin_lt by (by apply index_ok_u64). done. }
  exists (filter (fun e => contains r (index (log_id e)) = true) es). split.
  - unfold try_get_log_entries. rewrite Hkey. cbn [mbind outcome_bind]. rewrite logs_ok by done.
    cbn [mbind outcome_bind]. rewrite Hit. apply read_entries_ok; [done|done|].
    intros e [? ?]%Hge. by apply Hstart.
  - split; [by apply StronglySorted_filter|]. intros e. rewrite list_elem_of_filter. split.
    + intros [Hc Hin']. split; [by apply Hes|done].
    + intros [Hl Hc]. split; [done|]. destruct He as [_ Hm]. destruct (Hm _ _ Hl) as (Hok & _ & d & Hd & Hfd).
      assert ((id_to_bin (index (log_id e)), d) ∈ items) as [j Hj]%list_elem_of_lookup.
      { apply Hin. split; [done|]. rewrite id_to_bin_lt by (done || by apply index_ok_u64).
        apply Z.le_ngt, Hstart; [done|]. unfold contains in Hc. apply andb_true_iff in Hc as [Hc _].
        destruct (start_bound r); lia. }
      destruct (Forall2_lookup_l _ _ _ _ _ HF Hj) as (f & Hf & (_ & _ & Hff)).
      simpl in Hff. assert (f = e) as -> by congruence. by eapply list_elem_of_lookup_2.
Qed.

Lemma try_get_listed r db l es :
  log_refines db l -> range_ok r -> try_get_log_entries r db = Ok es -> listed_in r l es.
Proof.
  intros HR Hr Hget. destruct (try_get_log_entries_ok r db l HR Hr) as (es' & Hget' & Hl).
  rewrite Hget in Hget'. by injection Hget' as <-.
Qed.

Lemma log_refines_index db l i e :
  log_refines db l -> sp_entries l !! i = Some e -> index_ok i /\ index (log_id e) = i.
Proof. intros [_ [_ Hm] _ _ _] He. by destruct (Hm _ _ He) as (? & ? & _). Qed.

Lemma get_log_state_ok db l :
  log_refines db l ->
  exists last, get_log_state (D := D) (M := M) db = Ok (mkLogState (sp_purged l) last) /\ last_id_of l last.
Proof.
  intros [Hh He Hp _ _]. destruct (iterate_end_ok db "logs" Hh) as (items & Hit & Hsort & Hin).
  unfold get_log_state. rewrite logs_ok by done. cbn [mbind outcome_bind]. rewrite Hit.
  unfold get_last_purged_. rewrite get_store_ok by done. rewrite Hp.
  destruct (items_entries _ _ items He) as (es & HF & Hes); [by intros k d ?%Hin|].
  assert (StronglySorted (flip index_lt) es) as Hses.
  { apply (items_sorted (flip key_lt) _ items); [|done|done]. intros e f ? ?. unfold flip.
    rewrite id_to_bin_lt by (by apply index_ok_u64). done. }
  assert (forall j f, sp_entries l !! j = Some f -> f ∈ es) as Hall.
  { intros j f Hf. destruct He as [_ Hm]. destruct (Hm _ _ Hf) as (_ & _ & d & Hd & Hfd).
    apply Hin in Hd as [n Hn]%list_elem_of_lookup.
    destruct (Forall2_lookup_l _ _ _ _ _ HF Hn) as (g & Hg & (_ & _ & Hgd)). simpl in Hgd.
    assert (g = f) as <- by congruence. by eapply list_elem_of_lookup_2. }
  destruct HF as [|[k d] e items es (_ & _ & Hd) HF]; simpl.
  - eexists. split; [done|]. left. split; [|done]. apply map_eq. intros j. rewrite lookup_empty.
    apply eq_None_not_Some. intros [f Hf%Hall]. by apply elem_of_nil in Hf.
  - simpl in Hd. rewrite Hd. simpl. eexists. split; [done|]. right. exists (index (log_id e)), e.
    split; [apply Hes; set_solver|]. split; [done|]. intros j [f Hf].
    destruct He as [_ Hm]. destruct (Hm _ _ Hf) as (_ & <- & _).
    apply StronglySorted_cons in Hses as [Hmax _]. rewrite Forall_forall in Hmax.
    apply Hall in Hf. apply elem_of_cons in Hf as [->|Hf%Hmax]; [done|]. unfold flip, index_lt in Hf. lia.
Qed.

Lemma log_refines_new db :
  healthy db -> view db "store" = ∅ -> view db "logs" = ∅ -> log_refines db empty_log.
Proof.
  intros Hh Hs Hl. constructor; [done|..]; unfold stored, empty_log, holds_log;
    rewrite ?Hs, ?Hl, ?lookup_empty; [|done..].
  split; [intros k d|intros i e]; by rewrite lookup_empty.
Qed.

Lemma log_refines_run ops db l :
  log_refines db l -> Forall log_op_ok ops ->
  exists db', run_log ops db = Ok db' /\ log_refines db' (foldl (fun l o => spec_log_op o l) l ops).
Proof.
  intros HR Hops. revert db l HR. induction Hops as [|o ops Ho _ IH]; intros db l HR; [by exists db|].
  destruct (log_refines_exec o db l HR Ho) as (db1 & Hex & HR1 & _). simpl. rewrite Hex. by apply IH.
Qed.
End Refinement.

(** ** A database of maps

    The interfaces have instances: a map per column family, and documents that name
    what they hold. *)

Lemma key_ltb_irrefl a : key_ltb a a = false.
Proof. induction a as [|x a IH]; [done|]. simpl. by rewrite Z.ltb_irrefl, Z.eqb_refl, IH. Qed.
Lemma key_lt_trans a b c : key_lt a b -> key_lt b c -> key_lt a c.
Proof.
  unfold key_lt. revert b c. induction a as [|x a IH]; intros [|y b] [|z c]; simpl; try done.
  rewrite !orb_true_iff, !andb_true_iff, !Z.ltb_lt, !Z.eqb_eq.
  intros [?|[-> ?]] [?|[-> ?]]; [left; lia|by left|by left|]. right. split; [done|by eapply IH].
Qed.
Lemma key_lt_total a b : key_lt a b \/ a = b \/ key_lt b a.
Proof.
  unfold key_lt. revert b. induction a as [|x a IH]; intros [|y b]; simpl; [auto..|].
  rewrite !orb_true_iff, !andb_true_iff, !Z.ltb_lt, !Z.eqb_eq.
  destruct (Z.lt_trichotomy x y) as [?|[->|?]]; [auto| |auto].
  destruct (IH b) as [?|[->|?]]; auto.
Qed.

Section MapDB.
Context {Doc : Type}.

Abbreviation MapDB := (gmap string (gmap bytes Doc)).

Definition families : list string := ["store"%string; "logs"%string].
Definition family (db : MapDB) (cf : string) : gmap bytes Doc := from_option id ∅ (db !! cf).

Definition key_le (x y : bytes * Doc) : Prop := ~ key_lt y.1 x.1.
#[local] Instance key_le_dec : RelDecision key_le.
Proof. intros x y. unfold key_le. apply _. Defined.
#[local] Instance key_ge_dec : RelDecision (flip key_le).
Proof. intros x y. unfold flip. apply _. Defined.
#[local] Instance key_le_trans : Transitive key_le.
Proof.
  unfold key_le. intros x y z Hxy Hyz Hzx. destruct (key_lt_total y.1 z.1) as [?|[Heq|?]]; [|by rewrite Heq in Hxy|done].
  by apply Hxy, (key_lt_trans _ z.1).
Qed.
#[local] Instance key_le_total : Total key_le.
Proof.
  intros x y. unfold key_le. destruct (decide (key_lt y.1 x.1)) as [Hlt|?]; [|by left]. right. intros Hgt.
  pose proof (key_lt_trans _ _ _ Hlt Hgt) as Hirr. unfold key_lt in Hirr. by rewrite key_ltb_irrefl in Hirr.
Qed.
#[local] Instance key_ge_trans : Transitive (flip key_le).
Proof. intros x y z Hxy Hyz. exact (key_le_trans _ _ _ Hyz Hxy). Qed.
#[local] Instance key_ge_total : Total (flip key_le).
Proof. intros x y. destruct (key_le_total x y); auto. Qed.

Definition forward (m : gmap bytes Doc) : list (bytes * Doc) := merge_sort key_le (map_to_list m).
Definition backward (m : gmap bytes Doc) : list (bytes * Doc) := merge_sort (flip key_le) (map_to_list m).

#[export] Instance map_rocks : Rocks MapDB Doc := {
  cf_handle db name := if decide (name ∈ families) then Some name else None;
  get_cf db cf k := Ok (family db cf !! k);
  put_cf db cf k v := Ok (<[cf := <[k := v]> (family db cf)]> db);
  delete_range_cf db cf a b :=
    Ok (<[cf := filter (fun kv => key_lt kv.1 a \/ ~ key_lt kv.1 b) (family db cf)]> db);
  flush_wal db _ := Ok db;
  iterator_cf db cf mode :=
    match mode with
    | From start => map Ok (forward (filter (fun kv => ~ key_lt kv.1 start) (family db cf)))
    | End_ => map Ok (backward (family db cf))
    end;
}.

Lemma sorted_keys (le : relation (bytes * Doc)) (lt : relation bytes) (l : list (bytes * Doc)) :
  (forall x y, le x y -> x.1 <> y.1 -> lt x.1 y.1) ->
  StronglySorted le l -> NoDup l.*1 -> StronglySorted lt l.*1.
Proof.
  intros Hle. induction 1 as [|x l _ IH Hall]; [constructor|]. rewrite fmap_cons, NoDup_cons.
  intros [Hx Hnd]. constructor; [by apply IH|]. apply Forall_forall. intros k Hk.
  apply list_elem_of_fmap in Hk as (y & -> & Hy). apply Hle; [by eapply Forall_forall in Hall|].
  contradict Hx. rewrite Hx. by apply list_elem_of_fmap_2.
Qed.

Lemma merge_sort_keys (le : relation (bytes * Doc)) `{!RelDecision le} (m : gmap bytes Doc) :
  NoDup (merge_sort le (map_to_list m)).*1 /\
  forall k v, (k, v) ∈ merge_sort le (map_to_list m) <-> m !! k = Some v.
Proof.
  pose proof (merge_sort_Permutation le (map_to_list m)) as Hp. split.
  - rewrite Hp. apply NoDup_fst_map_to_list.
  - intros k v. rewrite Hp. apply elem_of_map_to_list.
Qed.

Lemma key_lt_or a b : ~ key_lt b a -> a <> b -> key_lt a b.
Proof. destruct (key_lt_total a b) as [?|[?|?]]; tauto. Qed.

#[export] Instance map_rocks_spec : RocksSpec MapDB Doc.
Proof.
  refine {| healthy := fun _ => True; view := family |}; intros.
  - simpl. rewrite decide_True; [done|]. unfold families. set_solver.
  - done.
  - eexists. split_and!; [done..|]. intros cf'. unfold family at 1.
    case_decide; [subst; by rewrite lookup_insert_eq|by rewrite lookup_insert_ne].
  - eexists. split_and!; [done..|]. intros cf'. unfold family at 1.
    case_decide; [subst; by rewrite lookup_insert_eq|by rewrite lookup_insert_ne].
  - by exists db.
  - eexists. split; [done|]. destruct (merge_sort_keys key_le
      (filter (fun kv => ~ key_lt kv.1 start) (family db cf))) as [Hnd Hin]. split.
    + apply (sorted_keys key_le); [|apply (StronglySorted_merge_sort key_le)|done].
      intros x y. apply key_lt_or.
    + intros k v. rewrite Hin. apply map_lookup_filter_Some.
  - eexists. split; [done|]. destruct (merge_sort_keys (flip key_le) (family db cf)) as [Hnd Hin]. split.
    + apply (sorted_keys (flip key_le)); [|apply (StronglySorted_merge_sort (flip key_le))|done].
      intros x y Hxy Hne. apply key_lt_or; [exact Hxy|congruence].
    + done.
Defined.
End MapDB.

(** Documents of the log. *)
Inductive log_doc (D M : Type) :=
  | DocEntry (e : Entry D M) | DocLogId (id : LogId) | DocNull | DocVote (v : Vote).
Arguments DocEntry {D M}.
Arguments DocLogId {D M}.
Arguments DocNull {D M}.
Arguments DocVote {D M}.

Section LogDocs.
Context {D M : Type}.

Definition type_error {A} : outcome string A := Err "invalid type"%string.

#[export] Instance doc_entry : Serde (log_doc D M) (Entry D M) := {
  to_vec e := Ok (DocEntry e);
  from_slice d := match d with DocEntry e => Ok e | _ => type_error end;
}.
#[export] Instance doc_log_id : Serde (log_doc D M) LogId := {
  to_vec id := Ok (DocLogId id);
  from_slice d := match d with DocLogId id => Ok id | _ => type_error end;
}.
#[export] Instance doc_option : Serde (log_doc D M) (option LogId) := {
  to_vec c := Ok (match c with Some id => DocLogId id | None => DocNull end);
  from_slice d := match d with DocLogId id => Ok (Some id) | DocNull => Ok None | _ => type_error end;
}.
#[export] Instance doc_vote : Serde (log_doc D M) Vote := {
  to_vec v := Ok (DocVote v);
  from_slice d := match d with DocVote v => Ok v | _ => type_error end;
}.
#[export] Instance doc_entry_spec : SerdeSpec (log_doc D M) (Entry D M).
Proof. intros e. by exists (DocEntry e). Qed.
#[export] Instance doc_log_id_spec : SerdeSpec (log_doc D M) LogId.
Proof. intros id. by exists (DocLogId id). Qed.
#[export] Instance doc_vote_spec : SerdeSpec (log_doc D M) Vote.
Proof. intros v. by exists (DocVote v). Qed.
#[export] Instance doc_option_spec : SerdeOptionSpec (log_doc D M) LogId.
Proof. split; [done|]. exists DocNull, "invalid type"%string. done. Qed.
End LogDocs.

(** ** The theorem *)

(** C30: the store is a log.  Whatever sequence of appends, truncations, purges and saved votes
    and commit positions is run on a new database, each call succeeds, and afterwards a read of
    a range returns the entries the log then holds in it, in order, the log state is the last
    purged id and the last id of the log, and the vote and the commit position are those saved
    last. *)
Theorem log_store_refines {DB Doc D M : Type} `{RocksSpec DB Doc}
    `{!Serde Doc (Entry D M), !Serde Doc LogId, !Serde Doc (option LogId), !Serde Doc Vote}
    `{!SerdeSpec Doc (Entry D M), !SerdeSpec Doc LogId, !SerdeSpec Doc Vote, !SerdeOptionSpec Doc LogId}
    (ops : list (log_op D M)) (db : DB) :
  healthy db -> view db "store" = ∅ -> view db "logs" = ∅ -> Forall log_op_ok ops ->
  exists db', run_log ops db = Ok db' /\
    (forall r, range_ok r ->
       exists es, try_get_log_entries r db' = Ok es /\ listed_in r (spec_log_run ops) es) /\
    (exists last, get_log_state (D := D) (M := M) db'
       = Ok (mkLogState (sp_purged (spec_log_run ops)) last) /\ last_id_of (spec_log_run ops) last) /\
    read_committed db' = Ok (sp_committed (spec_log_run ops)) /\
    read_vote db' = Ok (sp_vote (spec_log_run ops)).
Proof.
  intros Hh Hs Hl Hops. pose proof (log_refines_new (D := D) (M := M) db Hh Hs Hl) as HR.
  destruct (log_refines_run ops db _ HR Hops) as (db' & Hrun & HR'). exists db'. split; [done|].
  split_and!; [by intros r; apply try_get_log_entries_ok|by apply get_log_state_ok| |]; destruct HR'.
  - unfold read_committed, get_committed_. rewrite get_store_ok by done. by f_equal.
  - unfold read_vote, get_vote_. rewrite get_store_ok by done. by f_equal.
Qed.

Definition sample_entry (term i : Z) : Entry Z unit := mkEntry (mkLogId term 1 i) (Normal (10 * i)).
Definition sample_log_ops : list (log_op Z unit) :=
  [SaveVote (mkVote 1 1 true); Append [sample_entry 1 1; sample_entry 1 2; sample_entry 1 300];
   Truncate (mkLogId 1 1 300); Append [sample_entry 2 3; sample_entry 2 4];
   SaveCommitted (Some (mkLogId 2 1 3)); Purge (mkLogId 1 1 1)].

Lemma log_store_refines_witness :
  exists db', run_log (Doc := log_doc Z unit) sample_log_ops ∅ = Ok db' /\
    (exists es, try_get_log_entries (mkRange (Included 2) (Excluded 4)) db' = Ok es /\
       listed_in (mkRange (Included 2) (Excluded 4)) (spec_log_run sample_log_ops) es) /\
    read_vote db' = Ok (Some (mkVote 1 1 true)).
Proof.
  destruct (log_store_refines (Doc := log_doc Z unit) sample_log_ops (∅ : gmap string (gmap bytes _)))
    as (db' & Hrun & Hread & _ & _ & Hvote); [exact I|reflexivity|reflexivity| |].
  { repeat match goal with
      | |- Forall _ _ => constructor
      | |- log_op_ok _ => cbn [log_op_ok]
      | |- index_ok _ => vm_compute; split; [discriminate|reflexivity]
      | |- True => exact I
      end. }
  exists db'. split; [exact Hrun|]. split; [|exact Hvote]. apply Hread. vm_compute. split; discriminate.
Defined.

(** The instances run: the entries read back after the operations. *)
Example sample_log_read :
  (db ← run_log (Doc := log_doc Z unit) sample_log_ops ∅;
   try_get_log_entries (mkRange (Included 0) Unbounded) db)
    = Ok [sample_entry 1 2; sample_entry 2 3; sample_entry 2 4].
Proof. vm_compute. reflexivity. Qed.
