(* ===== verification/RaftTopic.v ===== *)
(** * The replicated topic storage ([broker/src/raft/topic/store.rs], [types.rs])

    The state machine of the topic Raft group: committed requests are applied to the
    topic storage, the storage is written to snapshots, and a restarted broker reads
    its snapshot and applies the rest of the log again.  The storage is shared
    ([Arc<RwLock<TopicStorage>>]) between the state machine, the builders of snapshots
    cloned from it and the rest of the broker, so it is passed beside them. *)

From S2P Require Import Prelude Utf8 Packet TopicFilter TopicStorage TopicTree TopicSpec TopicRouting RaftLog.

Inductive Request :=
  | SubscribeTopic (tenant_id client_identifier topic : string) (qos : Z)
      (no_local retain_as_published : bool)
  | UnsubscribeTopic (tenant_id client_identifier topic : string)
  | RegisterRetainPublishPacket (tenant_id source_client_identifier : string) (publish_packet : Packet)
  | CleanRetainPublishPacket (tenant_id topic_filter : string)
  | CreateTenant (tenant_id : string).

Inductive Response := RespNone.

(** How [openraft] writes a leader id. *)
Class LeaderDisplay := leader_display : Z -> Z -> string.

Section Data.
Context {Doc M : Type}.

(** The membership with the id of its entry; none is the default. *)
Definition StoredMembership : Type := option (LogId * M).

Record SnapshotMeta := mkMeta {
  meta_last_log_id : option LogId;
  meta_last_membership : StoredMembership;
  snapshot_id : string;
}.
Record StoredSnapshot := mkStoredSnapshot { meta : SnapshotMeta; data : Doc }.
Record SnapshotWrapper := mkWrapper { topic_storage_snapshot : Doc }.
(** [openraft::Snapshot]. *)
Record Snapshot := mkSnapshot { snap_meta : SnapshotMeta; snapshot : Doc }.

(** [StateMachineStore], but for the storage and the database it shares. *)
Record StateMachineStore := mkSM {
  last_applied_log_id : option LogId;
  last_membership : StoredMembership;
  snapshot_idx : Z;
}.
End Data.
Arguments StoredMembership : clear implicits.
Arguments SnapshotMeta : clear implicits.
Arguments StoredSnapshot : clear implicits.
Arguments SnapshotWrapper : clear implicits.
Arguments Snapshot : clear implicits.
Arguments StateMachineStore : clear implicits.

Section StateMachine.
Context {DB Doc M : Type} `{Base64} `{LeaderDisplay} `{Rocks DB Doc}.
Context `{Serde Doc SerializableTopicStorage, Serde Doc (SnapshotWrapper Doc), Serde Doc (StoredSnapshot Doc M)}.
Implicit Types (sm : StateMachineStore M) (ts : TopicStorage) (db : DB).

(** [TopicStorage::to_snapshot] and [from_snapshot]. *)
Definition to_snapshot ts : outcome string Doc := to_vec (to_serializable ts).
Definition from_snapshot (snapshot : Doc) : outcome string TopicStorage :=
  serializable ← from_slice snapshot; Ok (from_serializable serializable).

(** [let _ = ..]: an error is dropped, and the storage is as it was. *)
Definition ignored (r : outcome TopicStorageError TopicStorage) ts : StorageResult TopicStorage :=
  match r with Ok ts' => Ok ts' | Err _ => Ok ts | Panic => Panic | OutOfFuel => OutOfFuel end.

(** The [match] on a request. *)
Definition apply_request (req : Request) ts : StorageResult TopicStorage :=
  match req with
  | SubscribeTopic tenant_id client_identifier topic qos no_local retain_as_published =>
      let ts := if negb (contains_tenant tenant_id ts) then create_tenant tenant_id ts else ts in
      ignored (subscribe_with_options tenant_id client_identifier topic qos no_local
                 retain_as_published ts) ts
  | UnsubscribeTopic tenant_id client_identifier topic =>
      ignored (unsubscribe tenant_id client_identifier topic ts) ts
  | RegisterRetainPublishPacket tenant_id source_client_identifier publish_packet =>
      with_cause StateMachine Write (fun _ => StateMachineError)
        (register_retain_publish_packet tenant_id source_client_identifier publish_packet ts)
  | CleanRetainPublishPacket tenant_id topic_filter =>
      ignored (clean_retain_publish_packet tenant_id topic_filter ts) ts
  | CreateTenant tenant_id => Ok (create_tenant tenant_id ts)
  end.

(** The body of the loop of [apply]. *)
Definition apply_entry (ent : Entry Request M) sm ts
    : StorageResult Response * StateMachineStore M * TopicStorage :=
  let sm := mkSM (Some (log_id ent)) (last_membership sm) (snapshot_idx sm) in
  match payload ent with
  | Blank => (Ok RespNone, sm, ts)
  | Normal req =>
      match apply_request req ts with
      | Ok ts => (Ok RespNone, sm, ts)
      | Err e => (Err e, sm, ts)
      | Panic => (Panic, sm, ts)
      | OutOfFuel => (OutOfFuel, sm, ts)
      end
  | Membership mem =>
      (Ok RespNone, mkSM (last_applied_log_id sm) (Some (log_id ent, mem)) (snapshot_idx sm), ts)
  end.

(** [apply]: an error leaves what was applied before it. *)
Fixpoint apply (entries : list (Entry Request M)) sm ts
    : StorageResult (list Response) * StateMachineStore M * TopicStorage :=
  match entries with
  | [] => (Ok [], sm, ts)
  | ent :: entries =>
      match apply_entry ent sm ts with
      | (Ok reply, sm, ts) =>
          let '(replies, sm, ts) := apply entries sm ts in
          (replies ← replies; Ok (reply :: replies), sm, ts)
      | (Err e, sm, ts) => (Err e, sm, ts)
      | (Panic, sm, ts) => (Panic, sm, ts)
      | (OutOfFuel, sm, ts) => (OutOfFuel, sm, ts)
      end
  end.

Definition set_current_snapshot_ (snap : StoredSnapshot Doc M) db : StorageResult DB :=
  let sub := SnapshotOf (option_map index (meta_last_log_id (meta snap))) in
  snapshot_data ← with_cause sub Write SerdeJson (to_vec snap);
  cf ← store db;
  db ← with_cause sub Write Rocksdb (put_cf db cf (as_bytes "snapshot") snapshot_data);
  flush sub Write db.

Definition get_current_snapshot_ db : StorageResult (option (StoredSnapshot Doc M)) :=
  cf ← store db;
  v ← with_cause Store Read Rocksdb (get_cf db cf (as_bytes "snapshot"));
  Ok (parsed v).

(** The id a builder gives its snapshot. *)
Definition make_snapshot_id sm : string :=
  match last_applied_log_id sm with
  | Some last =>
      leader_display (leader_term last) (leader_node last) +:+ "-" +:+ pretty (index last)
        +:+ "-" +:+ pretty (snapshot_idx sm)
  | None => "--" +:+ pretty (snapshot_idx sm)
  end.

Definition build_snapshot sm ts db : StorageResult (Snapshot Doc M * DB) :=
  topic_storage_snapshot ← with_cause StateMachine Write SerdeJson (to_snapshot ts);
  snapshot_json ← with_cause StateMachine Read SerdeJson (to_vec (mkWrapper topic_storage_snapshot));
  let meta := mkMeta (last_applied_log_id sm) (last_membership sm) (make_snapshot_id sm) in
  db ← set_current_snapshot_ (mkStoredSnapshot meta snapshot_json) db;
  Ok (mkSnapshot meta snapshot_json, db).

(** [get_snapshot_builder]: the clone shares the storage and the database. *)
Definition get_snapshot_builder sm : StateMachineStore M * StateMachineStore M :=
  let sm := mkSM (last_applied_log_id sm) (last_membership sm) (snapshot_idx sm + 1) in
  (sm, sm).

Definition update_state_machine_ (snapshot : StoredSnapshot Doc M) sm ts
    : StorageResult unit * StateMachineStore M * TopicStorage :=
  let sub := SnapshotOf (option_map index (meta_last_log_id (meta snapshot))) in
  match with_cause sub Read SerdeJson (from_slice (A := SnapshotWrapper Doc) (data snapshot)) with
  | Ok state =>
      let sm := mkSM (meta_last_log_id (meta snapshot)) (meta_last_membership (meta snapshot))
                  (snapshot_idx sm) in
      match with_cause StateMachine Write SerdeJson (from_snapshot (topic_storage_snapshot state)) with
      | Ok ts => (Ok tt, sm, ts)
      | Err e => (Err e, sm, ts)
      | Panic => (Panic, sm, ts)
      | OutOfFuel => (OutOfFuel, sm, ts)
      end
  | Err e => (Err e, sm, ts)
  | Panic => (Panic, sm, ts)
  | OutOfFuel => (OutOfFuel, sm, ts)
  end.

(** [StateMachineStore::new]: the snapshot of the database, when there is one. *)
Definition new db ts : StorageResult (StateMachineStore M * TopicStorage) :=
  let sm := mkSM None None 0 in
  snapshot ← get_current_snapshot_ db;
  match snapshot with
  | Some snap =>
      let '(r, sm, ts) := update_state_machine_ snap sm ts in
      r;; Ok (sm, ts)
  | None => Ok (sm, ts)
  end.

Definition install_snapshot (meta : SnapshotMeta M) (snapshot : Doc) sm ts db
    : StorageResult DB * StateMachineStore M * TopicStorage :=
  let new_snapshot := mkStoredSnapshot meta snapshot in
  let '(r, sm, ts) := update_state_machine_ new_snapshot sm ts in
  (r;; set_current_snapshot_ new_snapshot db, sm, ts).

Definition get_current_snapshot db : StorageResult (option (Snapshot Doc M)) :=
  x ← get_current_snapshot_ db;
  Ok (option_map (fun s => mkSnapshot (meta s) (data s)) x).

End StateMachine.

(** ** Requests as operations on the table *)

Definition request_ops (req : Request) : list op :=
  match req with
  | SubscribeTopic t c f q nl rap => [TopicSpec.CreateTenant t; Subscribe t c f q nl rap]
  | UnsubscribeTopic t c f => [Unsubscribe t c f]
  | RegisterRetainPublishPacket t c p => [RegisterRetain t c p]
  | CleanRetainPublishPacket t f => [CleanRetain t f]
  | CreateTenant t => [TopicSpec.CreateTenant t]
  end.

(** A retained message is refused when its tenant does not exist or its topic is invalid. *)
Definition accepts_request (m : table) (req : Request) : Prop :=
  match req with
  | RegisterRetainPublishPacket t _ (PPublish p) => t ∈ t_tenants m /\ test_topic (pb_topic_name p) = true
  | _ => True
  end.
#[export] Instance accepts_request_dec m req : Decision (accepts_request m req).
Proof. destruct req as [| |t c []| |]; simpl; apply _. Defined.

Section Entries.
Context {M : Type}.
Implicit Types (ent : Entry Request M) (entries : list (Entry Request M)).

Definition entry_ops ent : list op :=
  match payload ent with Normal req => request_ops req | _ => [] end.
Definition log_ops entries : list op := concat (map entry_ops entries).

Definition accepts (m : table) ent : Prop :=
  match payload ent with Normal req => accepts_request m req | _ => True end.
#[export] Instance accepts_dec m ent : Decision (accepts m ent).
Proof. unfold accepts. destruct (payload ent); apply _. Defined.

(** An entry and a list of them on the table, and that none is refused. *)
Definition spec_entry ent (m : table) : table := foldl (fun m o => spec_op o m) m (entry_ops ent).
Definition spec_entries entries (m : table) : table := foldl (fun m ent => spec_entry ent m) m entries.
Fixpoint all_accepted entries (m : table) : Prop :=
  match entries with
  | [] => True
  | ent :: entries => accepts m ent /\ all_accepted entries (spec_entry ent m)
  end.
#[export] Instance all_accepted_dec entries m : Decision (all_accepted entries m).
Proof. revert m. induction entries; intros m; simpl; apply _. Defined.

Lemma spec_entries_ops entries m :
  spec_entries entries m = foldl (fun m o => spec_op o m) m (log_ops entries).
Proof.
  unfold log_ops, spec_entries. revert m. induction entries as [|ent entries IH];
    intros m; [done|]. cbn [foldl map concat]. rewrite foldl_app. apply IH.
Qed.
Lemma spec_entries_run entries : spec_entries entries empty_table = spec_run (log_ops entries).
Proof. apply spec_entries_ops. Qed.
End Entries.

(** ** Applying entries *)

Section Apply.
Context {E : Base64} {Espec : Base64Spec E} {M : Type}.
Implicit Types (sm : StateMachineStore M) (ts : TopicStorage) (entries : list (Entry Request M)).

Lemma exec_returns o ts : returns (exec o ts).
Proof.
  assert (forall f, returns (parse_shared_subscription_filter f)) as Hp.
  { intros f. unfold parse_shared_subscription_filter. repeat (case_match; try done). }
  destruct o as [|t c f q nl rap|t c f|t c p|t f]; simpl; [done|..].
  - unfold subscribe_with_options. specialize (Hp f).
    destruct (parse_shared_subscription_filter f) as [[[]|]|e| |]; try done; simpl; repeat (case_match; try done).
  - unfold unsubscribe. specialize (Hp f).
    destruct (parse_shared_subscription_filter f) as [[[]|]|e| |]; try done; simpl;
      (destruct (topic_tree ts !! t) as [root|]; [|done]);
      match goal with |- returns (recursion_unsubscription ?n ?p ?k ?x ?g ≫= _) =>
        pose proof (recursion_unsubscription_spec p k x g n); by destruct (recursion_unsubscription n p k x g) end.
  - unfold register_retain_publish_packet. repeat (case_match; try done).
  - unfold clean_retain_publish_packet. destruct (topic_tree ts !! t) as [root|]; [|done].
    pose proof (recursion_clean_spec (split_slash f) root).
    by destruct (recursion_clean_retain_publish_packet root (split_slash f)).
Qed.

Lemma ignored_exec o ts : ignored (exec o ts) ts = Ok (exec_state o ts).
Proof. pose proof (exec_returns o ts). unfold ignored, exec_state. by destruct (exec o ts). Qed.

Lemma create_tenant_present t ts m :
  refines ts m -> contains_tenant t ts = true -> create_tenant t ts = ts.
Proof.
  intros HR Ht. unfold contains_tenant in Ht. apply bool_decide_eq_true in Ht as [root Hroot].
  destruct (refines_present _ _ _ _ HR Hroot) as (_ & items & ritems & Hi & Hri & _).
  unfold create_tenant, insert_absent. rewrite Hroot, Hi, Hri. by destruct ts.
Qed.

Lemma register_exec t c p ts m :
  refines ts m ->
  if decide (accepts_request m (RegisterRetainPublishPacket t c p))
  then register_retain_publish_packet t c p ts = Ok (exec_state (RegisterRetain t c p) ts)
  else exists e, register_retain_publish_packet t c p ts = Err e.
Proof.
  intros HR. unfold exec_state, exec. destruct p as [| |p| | | | | | | | | | | |];
    try (by rewrite decide_True).
  unfold accepts_request, register_retain_publish_packet.
  case_decide as Hd.
  - destruct Hd as [Hin ->]. simpl. destruct (topic_tree ts !! t) eqn:Hroot; [done|].
    by apply (refines_absent ts m t HR) in Hroot.
  - destruct (test_topic (pb_topic_name p)); simpl; [|eauto].
    destruct (topic_tree ts !! t) as [root|] eqn:Hroot; [|eauto].
    destruct Hd. by destruct (refines_present _ _ _ _ HR Hroot).
Qed.

(** A request that is accepted is its operations; one that is refused is an error. *)
Lemma apply_request_exec req ts m :
  refines ts m ->
  if decide (accepts_request m req)
  then apply_request req ts = Ok (foldl (fun ts o => exec_state o ts) ts (request_ops req))
  else exists e, apply_request req ts = Err e.
Proof.
  intros HR. destruct req as [t c f q nl rap|t c f|t c p|t f|t]; [|..|done].
  - rewrite decide_True by done. simpl. f_equal.
    assert ((if negb (contains_tenant t ts) then create_tenant t ts else ts)
      = exec_state (TopicSpec.CreateTenant t) ts) as ->.
    { destruct (contains_tenant t ts) eqn:Ht; simpl; [|done]. symmetry. by eapply create_tenant_present. }
    apply (ignored_exec (Subscribe t c f q nl rap)).
  - rewrite decide_True by done. apply (ignored_exec (Unsubscribe t c f)).
  - pose proof (register_exec t c p ts m HR) as H. cbn [apply_request]. case_decide.
    + by rewrite H.
    + destruct H as [e ->]. by eexists.
  - rewrite decide_True by done. apply (ignored_exec (CleanRetain t f)).
Qed.

Definition exec_ops (ops : list op) ts : TopicStorage := foldl (fun ts o => exec_state o ts) ts ops.

Lemma refines_ops ops ts m :
  refines ts m -> wf_table m ->
  refines (exec_ops ops ts) (foldl (fun m o => spec_op o m) m ops) /\
  wf_table (foldl (fun m o => spec_op o m) m ops).
Proof.
  unfold exec_ops. revert ts m. induction ops as [|o ops IH]; intros ts m HR Hwf; [done|]. simpl.
  apply IH; [by apply refines_exec|by apply wf_spec_op].
Qed.

(** The id of the last entry applied. *)
Definition last_applied entries sm : option LogId :=
  match last entries with Some ent => Some (log_id ent) | None => last_applied_log_id sm end.

Lemma last_applied_cons ent entries sm mem idx :
  last_applied entries (mkSM (Some (log_id ent)) mem idx) = last_applied (ent :: entries) sm.
Proof. unfold last_applied. rewrite last_cons. by destruct (last entries). Qed.

Lemma apply_entry_spec ent sm ts m :
  refines ts m ->
  if decide (accepts m ent) then
    exists mem idx, apply_entry ent sm ts
      = (Ok RespNone, mkSM (Some (log_id ent)) mem idx, exec_ops (entry_ops ent) ts)
  else exists e sm', apply_entry ent sm ts = (Err e, sm', ts).
Proof.
  intros HR. destruct ent as [id [|req|mem]].
  - rewrite decide_True by done. by eexists _, _.
  - pose proof (apply_request_exec req ts m HR) as Hreq. destruct (decide (accepts m _)) as [Ha|Ha].
    + rewrite decide_True in Hreq by exact Ha. unfold apply_entry. simpl. rewrite Hreq. by eexists _, _.
    + rewrite decide_False in Hreq by exact Ha. unfold apply_entry. simpl. destruct Hreq as [e ->]. by eexists _, _.
  - rewrite decide_True by done. by eexists _, _.
Qed.

Lemma apply_spec entries sm ts m :
  refines ts m -> wf_table m ->
  if decide (all_accepted entries m) then
    exists sm', apply entries sm ts
        = (Ok (map (fun _ => RespNone) entries), sm', exec_ops (log_ops entries) ts) /\
      last_applied_log_id sm' = last_applied entries sm
  else exists e sm' ts', apply entries sm ts = (Err e, sm', ts').
Proof.
  revert sm ts m. induction entries as [|ent entries IH]; intros sm ts m HR Hwf.
  { rewrite decide_True by done. by exists sm. }
  cbn [all_accepted apply]. pose proof (apply_entry_spec ent sm ts m HR) as Hent.
  destruct (decide (accepts m ent)).
  - destruct Hent as (mem & idx & ->). destruct (refines_ops (entry_ops ent) ts m HR Hwf) as [HR1 Hwf1].
    specialize (IH (mkSM (Some (log_id ent)) mem idx) _ _ HR1 Hwf1). fold (spec_entry ent m) in IH.
    destruct (decide (all_accepted entries (spec_entry ent m))).
    + rewrite decide_True by done. destruct IH as (sm' & -> & Hl). exists sm'. cbn [map log_ops concat mbind outcome_bind].
      unfold exec_ops. rewrite foldl_app. split; [done|]. by rewrite Hl, (last_applied_cons ent entries sm).
    + rewrite decide_False by tauto. destruct IH as (e & sm' & ts' & ->). by exists e, sm', ts'.
  - rewrite decide_False by tauto. destruct Hent as (e & sm' & ->). by exists e, sm', ts.
Qed.
End Apply.

(** ** Applying entries again

    A snapshot may hold more of the log than it says: the builder copies the id of the
    last entry applied and shares the storage, which goes on changing until the
    snapshot is written.  After a restart those entries are applied a second time, to
    a storage that has them already.  Each operation keeps, defaults or overwrites each
    cell of the table, and such a change, made again with others between, adds nothing. *)

(** What an operation does to one cell. *)
Inductive cell (A : Type) := Keep | Default (a : A) | Overwrite (v : option A).
Arguments Keep {A}.
Arguments Default {A} a.
Arguments Overwrite {A} v.

Definition act {A} (c : cell A) (x : option A) : option A :=
  match c with
  | Keep => x
  | Default a => match x with Some v => Some v | None => Some a end
  | Overwrite v => v
  end.

Definition then_ {A} (f g : cell A) : cell A :=
  match g, f with
  | Keep, _ => f
  | Overwrite v, _ => Overwrite v
  | Default a, Keep => Default a
  | Default _, Default b => Default b
  | Default _, Overwrite (Some v) => Overwrite (Some v)
  | Default a, Overwrite None => Overwrite (Some a)
  end.

Lemma act_then {A} (f g : cell A) x : act (then_ f g) x = act g (act f x).
Proof. destruct g, f as [| |[]]; try done. by destruct x. Qed.

(** A change made again, after others, is one of the two made once. *)
Lemma act_absorb {A} (f h : cell A) x :
  act f (act h (act f x)) = act f x \/ act f (act h (act f x)) = act f (act h x).
Proof. destruct f as [|a|v], h as [|b|[w|]], x as [y|]; simpl; auto. Qed.

(** The cells of a table. *)
Inductive table_key :=
  | KTenant (t : string)
  | KSub (k : string * list string * string * option string)
  | KRetained (k : string * list string)
  | KListed (k : string * string * string)
  | KRetainedListed (k : string * string).
Definition table_val (k : table_key) : Type :=
  match k with
  | KTenant _ => unit
  | KSub _ => Subscription
  | KRetained _ => Packet
  | KListed _ => Z
  | KRetainedListed _ => string * Z
  end.
Definition look (k : table_key) (m : table) : option (table_val k) :=
  match k return option (table_val k) with
  | KTenant t => if decide (t ∈ t_tenants m) then Some tt else None
  | KSub k => t_subs m !! k
  | KRetained k => t_retained m !! k
  | KListed k => t_listed m !! k
  | KRetainedListed k => t_retained_listed m !! k
  end.

Lemma look_ext m m' : (forall k, look k m = look k m') -> m = m'.
Proof.
  intros Hk. destruct m as [tn s r l rl], m' as [tn' s' r' l' rl']. f_equal.
  - apply set_eq. intros t. specialize (Hk (KTenant t)). simpl in Hk. by repeat case_decide.
  - apply map_eq. intros k. apply (Hk (KSub k)).
  - apply map_eq. intros k. apply (Hk (KRetained k)).
  - apply map_eq. intros k. apply (Hk (KListed k)).
  - apply map_eq. intros k. apply (Hk (KRetainedListed k)).
Qed.

(** An operation whose tenant is there. *)
Definition op_tenant (o : op) : string :=
  match o with
  | TopicSpec.CreateTenant t | Subscribe t _ _ _ _ _ | Unsubscribe t _ _ | RegisterRetain t _ _
  | CleanRetain t _ => t
  end.
Definition with_tenants (tn : gset string) (m : table) : table :=
  mkTable tn (t_subs m) (t_retained m) (t_listed m) (t_retained_listed m).
Definition raw_op (o : op) (m : table) : table :=
  with_tenants (t_tenants (spec_op o m)) (spec_op o (with_tenants ({[op_tenant o]} ∪ t_tenants m) m)).

Definition added_tenants (o : op) : gset string :=
  match o with TopicSpec.CreateTenant t => {[t]} | _ => ∅ end.

Lemma spec_op_tenants o m : t_tenants (spec_op o m) = added_tenants o ∪ t_tenants m.
Proof.
  destruct o as [t|t c f q nl rap|t c f|t c p|t f]; cbn [spec_op added_tenants]; [done|..];
    rewrite (left_id_L ∅ (∪)); [| |destruct p; try done; by case_decide|done].
  - destruct (target f) as [[g group]|]; [|done]. by case_decide.
  - by destruct (target f) as [[g group]|].
Qed.
Lemma raw_op_tenants o m : t_tenants (raw_op o m) = added_tenants o ∪ t_tenants m.
Proof. apply spec_op_tenants. Qed.

Lemma raw_op_spec o m : op_tenant o ∈ t_tenants m -> raw_op o m = spec_op o m.
Proof.
  intros Hin. unfold raw_op. replace (with_tenants ({[op_tenant o]} ∪ t_tenants m) m) with m; [by destruct (spec_op o m)|].
  destruct m. unfold with_tenants. simpl in *. f_equal. set_solver.
Qed.
(** Some operations do not look at the tenants. *)
Lemma raw_op_free o m :
  match o with Subscribe _ _ _ _ _ _ | RegisterRetain _ _ (PPublish _) => False | _ => True end ->
  raw_op o m = spec_op o m.
Proof.
  destruct o as [t|t c f q nl rap|t c f|t c p|t f]; intros Ho; try done.
  - unfold raw_op. cbn [spec_op]. by destruct (target f) as [[g group]|], m.
  - destruct p; try done; by destruct m.
Qed.

Lemma lookup_insert_cell `{Countable K} {A} (k k' : K) (a : A) :
  exists c, forall m : gmap K A, <[k := a]> m !! k' = act c (m !! k').
Proof.
  destruct (decide (k = k')) as [<-|Hne].
  - exists (Overwrite (Some a)). intros m. by rewrite lookup_insert_eq.
  - exists Keep. intros m. by rewrite lookup_insert_ne.
Qed.
Lemma lookup_delete_cell `{Countable K} {A} (k k' : K) :
  exists c, forall m : gmap K A, delete k m !! k' = act c (m !! k').
Proof.
  destruct (decide (k = k')) as [<-|Hne].
  - exists (Overwrite None). intros m. by rewrite lookup_delete_eq.
  - exists Keep. intros m. by rewrite lookup_delete_ne.
Qed.
Lemma lookup_default_cell `{Countable K} {A} (k k' : K) (a : A) :
  exists c, forall m : gmap K A,
    match m !! k with Some _ => m | None => <[k := a]> m end !! k' = act c (m !! k').
Proof.
  destruct (decide (k = k')) as [<-|Hne].
  - exists (Default a). intros m. destruct (m !! k) eqn:Hm; [by rewrite Hm|by rewrite lookup_insert_eq].
  - exists Keep. intros m. destruct (m !! k); [done|by rewrite lookup_insert_ne].
Qed.

(** The operation leaves the cell, or changes it as the map's update [H] does. *)
Ltac keep_cell := exists Keep; intros; rewrite ?decide_False by naive_solver; by try case_decide.
Ltac use_cell H :=
  let c := fresh "c" in let Hc := fresh "Hc" in
  destruct H as [c Hc]; exists c; intros; rewrite ?decide_True by (split; [set_solver|done]); apply Hc.

Lemma raw_op_cell o k : exists c, forall m, look k (raw_op o m) = act c (look k m).
Proof.
  destruct k as [t'|k|k|k|k]; cbn [look table_val].
  { destruct (decide (t' ∈ added_tenants o)).
    - exists (Overwrite (Some tt)). intros m. rewrite raw_op_tenants, decide_True by set_solver. done.
    - exists Keep. intros m. rewrite raw_op_tenants. simpl. repeat case_decide; set_solver. }
  all: unfold raw_op; destruct o as [t|t c f q nl rap|t c f|t c p|t f];
    cbn [spec_op op_tenant with_tenants t_subs t_retained t_listed t_retained_listed t_tenants];
    try keep_cell;
    try (destruct (target f) as [[g group]|]; [|keep_cell]);
    try (destruct p as [| |p| | | | | | | | | | | |]; try keep_cell);
    try (match goal with |- context [test_topic ?g] => destruct (test_topic g) eqn:Htest; [|keep_cell] end);
    try keep_cell.
  - use_cell (lookup_insert_cell (t, split_slash g, c, group) k (mkSubscription c q nl rap group g)).
  - use_cell (lookup_delete_cell (A := Subscription) (t, split_slash g, c, group) k).
  - use_cell (lookup_insert_cell (t, split_slash (pb_topic_name p)) k (PPublish p)).
  - use_cell (lookup_delete_cell (A := Packet) (t, split_slash f) k).
  - use_cell (lookup_default_cell (t, c, f) k q).
  - use_cell (lookup_delete_cell (A := Z) (t, c, f) k).
  - use_cell (lookup_insert_cell (t, pb_topic_name p) k (c, pb_qos p)).
  - use_cell (lookup_delete_cell (A := string * Z) (t, f) k).
Qed.

Section Replay.
Context {M : Type}.
Implicit Types (ent : Entry Request M) (entries h : list (Entry Request M)) (m T : table) (a b w : nat).

Definition raw_entry ent m : table := foldl (fun m o => raw_op o m) m (entry_ops ent).
Definition raw entries m : table := foldl (fun m ent => raw_entry ent m) m entries.

Lemma raw_app e1 e2 m : raw (e1 ++ e2) m = raw e2 (raw e1 m).
Proof. apply foldl_app. Qed.

Lemma raw_cons ent entries m : raw (ent :: entries) m = raw entries (raw_entry ent m).
Proof. done. Qed.

Lemma raw_entry_tenants ent : exists tn, forall m, t_tenants (raw_entry ent m) = tn ∪ t_tenants m.
Proof.
  unfold raw_entry. induction (entry_ops ent) as [|o ops [tn IH]].
  - exists ∅. intros m'. simpl. by rewrite (left_id_L ∅ (∪)).
  - exists (tn ∪ added_tenants o). intros m'. simpl. by rewrite IH, raw_op_tenants, (assoc_L (∪)).
Qed.
Lemma raw_tenants_mono entries m : t_tenants m ⊆ t_tenants (raw entries m).
Proof.
  revert m. induction entries as [|ent entries IH]; intros m; [done|]. rewrite raw_cons, <-IH.
  destruct (raw_entry_tenants ent) as [tn ->]. set_solver.
Qed.

Lemma raw_ops_cell ops k :
  exists c, forall m, look k (foldl (fun m o => raw_op o m) m ops) = act c (look k m).
Proof.
  induction ops as [|o ops [c IH]]; [by exists Keep|].
  destruct (raw_op_cell o k) as [d Ho]. exists (then_ d c). intros m. simpl.
  by rewrite IH, Ho, act_then.
Qed.
Lemma raw_entry_cell ent k : exists c, forall m, look k (raw_entry ent m) = act c (look k m).
Proof. apply raw_ops_cell. Qed.
Lemma raw_cell entries k : exists c, forall m, look k (raw entries m) = act c (look k m).
Proof.
  induction entries as [|ent entries [c IH]]; [by exists Keep|].
  destruct (raw_entry_cell ent k) as [d Ho]. exists (then_ d c). intros m. simpl.
  by rewrite IH, Ho, act_then.
Qed.

(** An entry applied early and again in its place. *)
Lemma raw_absorb before ent after m target :
  raw (ent :: after) m = target -> raw (before ++ ent :: after) m = target ->
  raw (before ++ ent :: after) (raw_entry ent m) = target.
Proof.
  intros <- Heq. apply look_ext. intros k. apply (f_equal (look k)) in Heq.
  rewrite !raw_app, !raw_cons in *.
  destruct (raw_entry_cell ent k) as [f Hf], (raw_cell before k) as [g Hg], (raw_cell after k) as [c Hc].
  rewrite !Hc, !Hf, !Hg, !Hf in *. destruct (act_absorb f g (look k m)) as [->| ->]; [done|].
  exact Heq.
Qed.

(** [caught h T a]: with the first [a] entries of [h] applied, the table [T] comes to that
    of the log once its entries up to some [w] are applied, from [a] or from before. *)
Definition caught h T a : Prop :=
  (a <= length h)%nat /\ t_tenants (raw (take a h) empty_table) ⊆ t_tenants T /\
  exists w, (a <= w <= length h)%nat /\
    forall b, (b <= a)%nat -> raw (drop b (take w h)) T = raw (take w h) empty_table.

Lemma caught_start h : caught h empty_table 0.
Proof.
  split; [lia|]. rewrite take_0. split; [done|]. exists 0%nat. split; [lia|]. intros b Hb.
  by rewrite take_0, drop_nil.
Qed.
Lemma caught_commit h T a ent : caught h T a -> caught (h ++ [ent]) T a.
Proof.
  intros (Ha & Ht & w & Hw & Heq). unfold caught. rewrite length_app. split; [lia|].
  rewrite take_app_le by done. split; [done|]. exists w. split; [lia|].
  intros b Hb. rewrite take_app_le by lia. by apply Heq.
Qed.
Lemma caught_back h T a b : caught h T a -> (b <= a)%nat -> caught h T b.
Proof.
  intros (Ha & Ht & w & Hw & Heq) Hb. split; [lia|]. split.
  - etrans; [|exact Ht]. rewrite <-(take_drop b (take a h)), raw_app, take_take, Nat.min_l by done.
    apply raw_tenants_mono.
  - exists w. split; [lia|]. intros b' Hb'. apply Heq. lia.
Qed.

(** The table is that of the log as soon as it is once caught up. *)
Lemma caught_at h T a w' :
  caught h T a -> exists w, (w' <= length h -> w' <= w)%nat /\ (a <= w <= length h)%nat /\
    forall b, (b <= a)%nat -> raw (drop b (take w h)) T = raw (take w h) empty_table.
Proof.
  intros (Ha & Ht & w & Hw & Heq). exists (w `max` (w' `min` length h))%nat. split; [lia|]. split; [lia|].
  set (v := (_ `max` _)%nat). intros b Hb. assert (take w (take v h) = take w h) as Hwv.
  { rewrite take_take. f_equal. lia. }
  rewrite <-(take_drop w (take v h)), Hwv, drop_app_le by (rewrite length_take; lia).
  by rewrite !raw_app, Heq.
Qed.
Lemma caught_all h T a : caught h T a -> raw (drop a h) T = raw h empty_table.
Proof.
  intros Hc. destruct (caught_at h T a (length h) Hc) as (w & Hw & Hle & Heq).
  specialize (Heq a (le_n a)). by rewrite !take_ge in Heq by lia.
Qed.

Lemma caught_apply h T a ent :
  caught h T a -> h !! a = Some ent -> caught h (raw_entry ent T) (S a).
Proof.
  intros Hc Hent. pose proof (lookup_lt_Some _ _ _ Hent) as Hlt.
  destruct (caught_at h T a (S a) Hc) as (w & Hw & Hle & Heq). destruct Hc as (_ & Ht & _).
  split; [lia|]. split.
  { rewrite (take_S_r _ _ _ Hent), raw_app. destruct (raw_entry_tenants ent) as [tn Htn].
    cbn [raw foldl]. rewrite !Htn. set_solver. }
  exists w. split; [lia|]. intros b Hb.
  assert (take w h !! a = Some ent) as Hent' by (rewrite lookup_take_lt by lia; done).
  assert (raw (ent :: drop (S a) (take w h)) T = raw (take w h) empty_table) as Hnow.
  { rewrite <-(drop_S _ _ _ Hent'). by apply Heq. }
  destruct (decide (b = S a)) as [->|Hne]; [exact Hnow|].
  assert (drop b (take w h) = drop b (take a (take w h)) ++ ent :: drop (S a) (take w h)) as Hsplit.
  { rewrite <-(drop_S _ _ _ Hent'). rewrite <-(take_drop a (take w h)) at 1.
    by rewrite drop_app_le by (rewrite length_take, length_take; lia). }
  specialize (Heq b). rewrite Hsplit in Heq |- *. apply raw_absorb; [exact Hnow|apply Heq; lia].
Qed.
End Replay.

(** ** Accepted entries *)

Section Accepted.
Context {M : Type}.
Implicit Types (ent : Entry Request M) (entries h : list (Entry Request M)) (m T : table) (a b w : nat).

Lemma raw_entry_spec ent m : accepts m ent -> raw_entry ent m = spec_entry ent m.
Proof.
  destruct ent as [id [|req|mem]]; [done| |done]. unfold raw_entry, spec_entry, entry_ops, accepts. simpl.
  destruct req as [t c f q nl rap|t c f|t c p|t f|t]; simpl; intros Ha; rewrite ?raw_op_free by done; try done.
  - rewrite (raw_op_free (TopicSpec.CreateTenant t)), raw_op_spec; [done| |done].
    rewrite spec_op_tenants. simpl. set_solver.
  - destruct p; try (by rewrite raw_op_free). apply raw_op_spec. apply Ha.
Qed.
Lemma raw_spec entries m : all_accepted entries m -> raw entries m = spec_entries entries m.
Proof.
  revert m. induction entries as [|ent entries IH]; intros m; [done|]. intros [Ha Hrest].
  rewrite raw_cons, raw_entry_spec by done. by apply IH.
Qed.
Lemma all_accepted_at entries1 ent entries2 m :
  all_accepted (entries1 ++ ent :: entries2) m -> accepts (raw entries1 m) ent.
Proof.
  revert m. induction entries1 as [|e1 entries1 IH]; intros m; simpl; [tauto|]. intros [Ha Hrest].
  rewrite <-raw_entry_spec in Hrest by done. by apply IH.
Qed.

Lemma accepts_mono m m' ent : t_tenants m ⊆ t_tenants m' -> accepts m ent -> accepts m' ent.
Proof.
  intros Ht. unfold accepts. destruct (payload ent) as [|[| |t c []| |]|]; simpl; try done.
  intros [? ?]. split; [set_solver|done].
Qed.

(** Replaying an accepted log from where a table stands is accepted. *)
Lemma caught_accepted h T a :
  caught h T a -> all_accepted h empty_table -> all_accepted (drop a h) T.
Proof.
  intros Hc Hacc. remember (length h - a)%nat as n eqn:Hn. revert T a Hc Hn.
  induction n as [|n IH]; intros T a Hc Hn.
  { by rewrite drop_ge by lia. }
  destruct (lookup_lt_is_Some_2 h a) as [ent Hent]; [lia|].
  rewrite (drop_S _ _ _ Hent). assert (accepts T ent) as Ha.
  { apply (accepts_mono (raw (take a h) empty_table)); [apply Hc|].
    apply (all_accepted_at _ _ (drop (S a) h)). by rewrite take_drop_middle. }
  split; [done|]. rewrite <-raw_entry_spec by done. apply IH; [by apply caught_apply|lia].
Qed.

Lemma caught_run h T a c :
  caught h T a -> (a <= c <= length h)%nat -> caught h (raw (drop a (take c h)) T) c.
Proof.
  intros Hc [Hac Hch]. remember (c - a)%nat as n eqn:Hn. revert T a Hc Hac Hn.
  induction n as [|n IH]; intros T a Hc Hac Hn.
  { replace c with a by lia. by rewrite drop_ge by (rewrite length_take; lia). }
  destruct (lookup_lt_is_Some_2 h a) as [ent Hent]; [lia|].
  assert (take c h !! a = Some ent) as Hent' by (rewrite lookup_take_lt by lia; done).
  rewrite (drop_S _ _ _ Hent'), raw_cons. apply IH; [by apply caught_apply|lia|lia].
Qed.
End Accepted.

(** ** A broker that applies, snapshots, purges and restarts *)

Section Node.
Context {DB Doc M : Type} {E : Base64} {Espec : Base64Spec E} `{LeaderDisplay} `{RocksSpec DB Doc}.
Context `{!Serde Doc (Entry Request M), !Serde Doc LogId, !Serde Doc (option LogId), !Serde Doc Vote}.
Context `{!SerdeSpec Doc (Entry Request M), !SerdeSpec Doc LogId, !SerdeSpec Doc Vote,
  !SerdeOptionSpec Doc LogId}.
Context `{!Serde Doc SerializableTopicStorage, !Serde Doc (SnapshotWrapper Doc), !Serde Doc (StoredSnapshot Doc M)}.
Context `{!SerdeSpec Doc SerializableTopicStorage, !SerdeSpec Doc (SnapshotWrapper Doc),
  !SerdeSpec Doc (StoredSnapshot Doc M)}.

Abbreviation entry := (Entry Request M).

(** The database, the shared storage, the state machine, and the builder at work, if any. *)
Record node := mkNode {
  n_db : DB;
  n_ts : TopicStorage;
  n_sm : StateMachineStore M;
  n_builder : option (StateMachineStore M);
}.

(** The index of the first entry not applied. *)
Definition next (id : option LogId) : Z := match id with Some id => index id + 1 | None => 0 end.

(** What the consensus library may ask of the log: committed entries are neither replaced nor
    truncated, and only what the stored snapshot covers is purged. *)
Definition log_op_allowed (h : list entry) (o : log_op Request M) (db : DB) : Prop :=
  log_op_ok o /\
  match o with
  | Append es => Forall (fun ent => zlen h <= index (log_id ent)) es
  | Truncate id => zlen h <= index id
  | Purge id => exists snap : StoredSnapshot Doc M, get_current_snapshot_ db = Ok (Some snap) /\
      index id < next (meta_last_log_id (meta snap))
  | SaveVote _ | SaveCommitted _ => True
  end.

(** Steps of a broker, with the entries known to be committed. *)
Inductive step : node * list entry -> node * list entry -> Prop :=
  | step_log n h o db :
      log_op_allowed h o (n_db n) -> exec_log o (n_db n) = Ok db ->
      step (n, h) (mkNode db (n_ts n) (n_sm n) (n_builder n), h)
  | step_commit n h ent :
      try_get_log_entries (mkRange (Included (zlen h)) (Included (zlen h))) (n_db n) = Ok [ent] ->
      step (n, h) (n, h ++ [ent])
  | step_apply n h (upto : nat) entries replies sm ts :
      (upto <= length h)%nat ->
      try_get_log_entries (mkRange (Included (next (last_applied_log_id (n_sm n))))
        (Excluded (Z.of_nat upto))) (n_db n) = Ok entries ->
      apply entries (n_sm n) (n_ts n) = (Ok replies, sm, ts) ->
      step (n, h) (mkNode (n_db n) ts sm (n_builder n), h)
  | step_builder n h sm builder :
      n_builder n = None -> get_snapshot_builder (n_sm n) = (sm, builder) ->
      step (n, h) (mkNode (n_db n) (n_ts n) sm (Some builder), h)
  | step_build n h builder snap db :
      n_builder n = Some builder -> build_snapshot builder (n_ts n) (n_db n) = Ok (snap, db) ->
      step (n, h) (mkNode db (n_ts n) (n_sm n) None, h)
  | step_restart n h sm ts :
      new (n_db n) new_storage = Ok (sm, ts) -> step (n, h) (mkNode (n_db n) ts sm None, h).

(** A broker on a new database. *)
Definition starts (n : node) : Prop :=
  healthy (n_db n) /\ view (n_db n) "store" = ∅ /\ view (n_db n) "logs" = ∅ /\
  n_ts n = new_storage /\ n_sm n = mkSM None None 0 /\ n_builder n = None.

(** What a snapshot holds: a storage that comes to the log's by what follows its last id. *)
Definition snapshot_holds (h : list entry) (snap : StoredSnapshot Doc M) (a : nat) : Prop :=
  exists d st T, from_slice (data snap) = Ok (mkWrapper d) /\ from_slice d = Ok (to_serializable st) /\
    refines st T /\ wf_table T /\ next (meta_last_log_id (meta snap)) = Z.of_nat a /\ caught h T a.

Definition current (db : DB) : option (StoredSnapshot Doc M) := stored db "snapshot".

(** The invariant: [m] entries in the snapshot, [a] applied; nothing the snapshot lacks is purged. *)
Record inv (n : node) (h : list entry) (l : log_spec Request M) (T : table) (p m a : nat) : Prop := {
  inv_log : log_refines (n_db n) l;
  inv_index : forall i ent, h !! i = Some ent -> index (log_id ent) = Z.of_nat i /\ index_ok (Z.of_nat i);
  inv_kept : forall i ent, h !! i = Some ent -> (p <= i)%nat -> sp_entries l !! Z.of_nat i = Some ent;
  inv_snapshot : match current (n_db n) with Some snap => snapshot_holds h snap m | None => m = 0%nat end;
  inv_refines : refines (n_ts n) T;
  inv_wf : wf_table T;
  inv_applied : next (last_applied_log_id (n_sm n)) = Z.of_nat a;
  inv_caught : caught h T a;
  inv_order : (p <= m <= a)%nat;
  inv_builder : forall b, n_builder n = Some b ->
    exists k, next (last_applied_log_id b) = Z.of_nat k /\ (m <= k <= a)%nat;
}.

Lemma inv_initial n : starts n -> inv n [] empty_log empty_table 0 0 0.
Proof.
  intros (Hh & Hs & Hl & Hts & Hsm & Hb). constructor; try done.
  - by apply log_refines_new.
  - unfold current, stored. by rewrite Hs, lookup_empty.
  - rewrite Hts. apply refines_new.
  - apply (wf_spec_run []).
  - by rewrite Hsm.
  - apply caught_start.
  - by rewrite Hb.
Qed.

Lemma get_current_ok db : healthy db -> get_current_snapshot_ db = Ok (current db).
Proof. intros Hh. unfold get_current_snapshot_. by apply get_store_ok. Qed.

Lemma inv_step_log n h l T p m a o db :
  inv n h l T p m a -> log_op_allowed h o (n_db n) -> exec_log o (n_db n) = Ok db ->
  exists l' p', inv (mkNode db (n_ts n) (n_sm n) (n_builder n)) h l' T p' m a.
Proof.
  intros [Hlog Hidx Hkept Hsnap HR Hwf Happ Hc Hord Hb] [Hok Hall] Hex.
  destruct (log_refines_exec o _ _ Hlog Hok) as (db' & Hex' & Hlog' & Hks).
  rewrite Hex in Hex'. injection Hex' as <-.
  assert (current db = current (n_db n)) as Hcur by (unfold current, stored; by rewrite Hks).
  assert (exists p', (p <= p' <= m)%nat /\ forall i ent, h !! i = Some ent -> (p' <= i)%nat ->
    sp_entries (spec_log_op o l) !! Z.of_nat i = Some ent) as (p' & Hp' & Hkept').
  { assert (forall i ent, h !! i = Some ent -> Z.of_nat i < zlen h) as Hlt.
    { intros i ent Hi%lookup_lt_Some. unfold zlen. lia. }
    destruct o as [es|id|id|v|c]; simpl in *; [exists p; split; [lia|]..| | |].
    - intros i ent Hi Hp. rewrite add_entries_other; [by apply Hkept|]. intros e He.
      rewrite Forall_forall in Hall. specialize (Hall _ He). specialize (Hlt _ _ Hi). lia.
    - intros i ent Hi Hp. apply map_lookup_filter_Some. split; [by apply Hkept|]. simpl.
      specialize (Hlt _ _ Hi). lia.
    - destruct Hall as (snap & Hget & Hlt'). rewrite get_current_ok in Hget by apply Hlog.
      injection Hget as Hget. rewrite Hget in Hsnap. destruct Hsnap as (_ & _ & _ & _ & _ & _ & _ & Hm & _).
      exists (p `max` Z.to_nat (index id + 1))%nat. unfold index_ok in Hok. split; [lia|]. intros i ent Hi Hp.
      apply map_lookup_filter_Some. split; [apply Hkept; [done|lia]|]. simpl. lia.
    - exists p. split; [lia|done].
    - exists p. split; [lia|done]. }
  exists (spec_log_op o l), p'. constructor; simpl; try done; [by rewrite Hcur|lia].
Qed.

Lemma length_u64 h :
  (forall i (ent : entry), h !! i = Some ent -> index (log_id ent) = Z.of_nat i /\ index_ok (Z.of_nat i)) ->
  is_u64 (zlen h).
Proof.
  intros Hidx. unfold is_u64, zlen. destruct h as [|ent0 h _] using rev_ind; [simpl; lia|].
  destruct (Hidx (length h) ent0) as [_ Hok]; [by apply list_lookup_middle|].
  rewrite length_app. simpl. unfold index_ok, u64_max in Hok. lia.
Qed.

Lemma inv_step_commit n h l T p m a ent :
  inv n h l T p m a ->
  try_get_log_entries (mkRange (Included (zlen h)) (Included (zlen h))) (n_db n) = Ok [ent] ->
  inv n (h ++ [ent]) l T p m a.
Proof.
  intros [Hlog Hidx Hkept Hsnap HR Hwf Happ Hc Hord Hb] Hget.
  assert (sp_entries l !! index (log_id ent) = Some ent /\ index (log_id ent) = zlen h) as [Hent Hi].
  { apply (try_get_listed _ _ l) in Hget as [_ Hin]; [|done|by apply length_u64].
    destruct (proj1 (Hin ent)) as [Hent Hcont]; [set_solver|]. split; [done|].
    unfold contains in Hcont. simpl in Hcont. lia. }
  destruct (log_refines_index _ _ _ _ Hlog Hent) as [Hok _].
  constructor; try done.
  - intros i e. rewrite lookup_app_Some, list_lookup_singleton_Some.
    intros [?|(? & Hz & <-)]; [by apply Hidx|]. replace (Z.of_nat i) with (index (log_id ent)); [done|].
    rewrite Hi. unfold zlen. lia.
  - intros i e. rewrite lookup_app_Some, list_lookup_singleton_Some.
    intros [?|(? & Hz & <-)] Hp; [by apply Hkept|]. rewrite <-Hent, Hi. unfold zlen. do 2 f_equal. lia.
  - destruct (current (n_db n)) as [snap|]; [|done].
    destruct Hsnap as (d & st & T' & ? & ? & ? & ? & ? & ?). exists d, st, T'. split_and!; try done.
    by apply caught_commit.
  - by apply caught_commit.
Qed.

(** The entries read from where the state machine stands are those of the log. *)
Lemma read_slice n h l T p m a (upto : nat) entries :
  inv n h l T p m a -> (upto <= length h)%nat ->
  try_get_log_entries (mkRange (Included (Z.of_nat a)) (Excluded (Z.of_nat upto))) (n_db n) = Ok entries ->
  entries = drop a (take upto h).
Proof.
  intros [Hlog Hidx Hkept _ _ _ _ Hc Hord _] Hup Hget.
  assert (is_u64 (zlen h)) as Hu by (by apply length_u64).
  apply (try_get_listed _ _ l) in Hget as [Hs Hin]; [|done|].
  2: { unfold range_ok, is_u64, zlen in *. simpl. destruct Hc as [Ha _]. lia. }
  assert (forall e : entry, e ∈ drop a (take upto h) <-> exists i, (a <= i < upto)%nat /\ h !! i = Some e) as Hslice.
  { intros e. rewrite list_elem_of_lookup. split.
    - intros [j Hj]. rewrite lookup_drop in Hj. apply lookup_take_Some in Hj as [Hj Hlt]. exists (a + j)%nat. split; [lia|done].
    - intros (i & Hi & He). exists (i - a)%nat. rewrite lookup_drop. apply lookup_take_Some.
      replace (a + (i - a))%nat with i by lia. split; [done|lia]. }
  apply sorted_entries_unique; [done| |].
  - apply (consecutive_sorted (Z.of_nat a)). intros i e. rewrite lookup_drop. intros [He _]%lookup_take_Some.
    destruct (Hidx _ _ He) as [-> _]. lia.
  - intros e. rewrite Hin, Hslice. unfold contains. simpl. rewrite andb_true_iff, Z.leb_le, Z.ltb_lt. split.
    + intros [He [Hlo Hhi]]. destruct (log_refines_index _ _ _ _ Hlog He) as [Hok _].
      unfold index_ok in Hok. exists (Z.to_nat (index (log_id e))). split; [lia|].
      destruct (lookup_lt_is_Some_2 h (Z.to_nat (index (log_id e)))) as [e' He']; [lia|].
      rewrite He'. specialize (Hkept _ _ He'). rewrite Z2Nat.id, He in Hkept by lia. symmetry. apply Hkept. lia.
    + intros (i & Hi & He). destruct (Hidx _ _ He) as [-> _]. split; [|lia]. apply Hkept; [done|lia].
Qed.

Lemma inv_step_apply n h l T p m a (upto : nat) entries replies sm ts :
  inv n h l T p m a -> (upto <= length h)%nat ->
  try_get_log_entries (mkRange (Included (next (last_applied_log_id (n_sm n))))
    (Excluded (Z.of_nat upto))) (n_db n) = Ok entries ->
  apply entries (n_sm n) (n_ts n) = (Ok replies, sm, ts) ->
  exists T' a', inv (mkNode (n_db n) ts sm (n_builder n)) h l T' p m a'.
Proof.
  intros Hinv Hup Hget Hap. pose proof (inv_applied _ _ _ _ _ _ _ Hinv) as Happ. rewrite Happ in Hget.
  pose proof (read_slice _ _ _ _ _ _ _ _ _ Hinv Hup Hget) as ->.
  destruct Hinv as [Hlog Hidx Hkept Hsnap HR Hwf _ Hc Hord Hb].
  pose proof (apply_spec (drop a (take upto h)) (n_sm n) (n_ts n) T HR Hwf) as Hspec.
  case_decide as Hacc; [|destruct Hspec as (e & sm' & ts' & Hspec); congruence].
  destruct Hspec as (sm' & Hspec & Hlast). rewrite Hap in Hspec. injection Hspec as -> -> ->.
  destruct (decide (a <= upto)%nat) as [Hle|Hgt].
  - exists (raw (drop a (take upto h)) T), upto.
    destruct (refines_ops (log_ops (drop a (take upto h))) (n_ts n) T HR Hwf) as [HR' Hwf'].
    rewrite <-spec_entries_ops, <-raw_spec in HR', Hwf' by done.
    constructor; try done; simpl.
    + rewrite Hlast. unfold last_applied. rewrite last_lookup, length_drop, length_take, Nat.min_l by done.
      rewrite lookup_drop. destruct (decide (a = upto)) as [<-|Hne].
      * rewrite Nat.sub_diag. simpl. rewrite lookup_take_ge by lia. exact Happ.
      * replace (a + Nat.pred (upto - a))%nat with (upto - 1)%nat by lia.
        destruct (lookup_lt_is_Some_2 h (upto - 1)) as [ent Hent]; [lia|].
        rewrite lookup_take_lt, Hent by lia. simpl. destruct (Hidx _ _ Hent) as [-> _]. lia.
    + apply caught_run; [done|lia].
    + lia.
    + intros b Hb'. destruct (Hb b Hb') as (k & ? & ?). exists k. split; [done|lia].
  - exists T, a. rewrite (drop_ge (take upto h)) in * by (rewrite length_take; lia).
    constructor; try done; simpl. by rewrite Hlast.
Qed.

Lemma inv_step_builder n h l T p m a sm builder :
  inv n h l T p m a -> get_snapshot_builder (n_sm n) = (sm, builder) ->
  inv (mkNode (n_db n) (n_ts n) sm (Some builder)) h l T p m a.
Proof.
  intros [Hlog Hidx Hkept Hsnap HR Hwf Happ Hc Hord Hb] [= <- <-]. constructor; try done; simpl.
  intros b [= <-]. exists a. split; [exact Happ|lia].
Qed.

Lemma build_snapshot_ok builder ts db :
  healthy db -> exists snap d stored db',
    build_snapshot builder ts db = Ok (snap, db') /\ healthy db' /\
    view db' "logs" = view db "logs" /\ view db' "store" = <[as_bytes "snapshot" := stored]> (view db "store") /\
    from_slice (A := StoredSnapshot Doc M) stored = Ok (mkStoredSnapshot (snap_meta snap) (snapshot snap)) /\
    meta_last_log_id (snap_meta snap) = last_applied_log_id builder /\
    from_slice (snapshot snap) = Ok (mkWrapper d) /\ from_slice d = Ok (to_serializable ts).
Proof.
  intros Hh. destruct (serde_roundtrip (to_serializable ts)) as (d & Hd & Hd').
  destruct (serde_roundtrip (mkWrapper d)) as (w & Hw & Hw').
  set (mt := mkMeta (last_applied_log_id builder) (last_membership builder) (make_snapshot_id builder)).
  destruct (serde_roundtrip (mkStoredSnapshot mt w)) as (s & Hs & Hs').
  destruct (put_store_ok db "snapshot" s (SnapshotOf (option_map index (meta_last_log_id mt))) Write Hh)
    as (db' & Hput & Hh' & Hl & Hst).
  assert (set_current_snapshot_ (mkStoredSnapshot mt w) db = Ok db') as Hset.
  { unfold set_current_snapshot_. rewrite Hs, store_ok by done. exact Hput. }
  exists (mkSnapshot mt w), d, s, db'. split_and!; try done.
  unfold build_snapshot, to_snapshot. rewrite Hd. cbn [with_cause map_err mbind outcome_bind].
  rewrite Hw. cbn [with_cause map_err mbind outcome_bind]. fold mt. by rewrite Hset.
Qed.

Lemma log_refines_snapshot db db' l d :
  log_refines db l -> healthy db' -> view db' "logs" = view db "logs" ->
  view db' "store" = <[as_bytes "snapshot" := d]> (view db "store") -> log_refines db' l.
Proof.
  intros [Hh He Hp Hc Hv] Hh' Hl Hs.
  constructor; [done|by rewrite Hl|..]; by rewrite (stored_write db db' "snapshot" _ d Hs).
Qed.

Lemma inv_step_build n h l T p m a builder snap db :
  inv n h l T p m a -> n_builder n = Some builder -> build_snapshot builder (n_ts n) (n_db n) = Ok (snap, db) ->
  exists m', inv (mkNode db (n_ts n) (n_sm n) None) h l T p m' a.
Proof.
  intros [Hlog Hidx Hkept Hsnap HR Hwf Happ Hc Hord Hb] Hbuilder Hbuild.
  destruct (build_snapshot_ok builder (n_ts n) (n_db n)) as
    (snap' & d & s & db' & Hbuild' & Hh' & Hl & Hs & Hfs & Hlast & Hw & Hd); [apply Hlog|].
  rewrite Hbuild in Hbuild'. injection Hbuild' as <- <-.
  destruct (Hb builder Hbuilder) as (k & Hk & Hmk). exists k. constructor; try done; simpl.
  - by apply (log_refines_snapshot (n_db n) db l s).
  - unfold current. rewrite (stored_write (n_db n) db _ _ s Hs). rewrite decide_True by done.
    unfold parsed. simpl. rewrite Hfs. exists d, (n_ts n), T. simpl. rewrite Hlast.
    split_and!; try done. by apply (caught_back h T a); [|lia].
  - lia.
Qed.

(** What a restarted broker starts with. *)
Lemma restart_ok n h l T p m a :
  inv n h l T p m a ->
  exists sm ts T', new (n_db n) new_storage = Ok (sm, ts) /\ refines ts T' /\ wf_table T' /\
    next (last_applied_log_id sm) = Z.of_nat m /\ caught h T' m.
Proof.
  intros [Hlog Hidx Hkept Hsnap HR Hwf Happ Hc Hord Hb]. unfold new.
  rewrite get_current_ok by apply Hlog. cbn [mbind outcome_bind].
  destruct (current (n_db n)) as [snap|].
  - destruct Hsnap as (d & st & T' & Hw & Hd & HR' & Hwf' & Hm & Hc'). unfold update_state_machine_, from_snapshot.
    rewrite Hw. simpl. rewrite Hd. simpl. rewrite (restores st T' HR'). by eexists _, _, T'.
  - subst m. exists (mkSM None None 0), new_storage, empty_table.
    split_and!; [done|apply refines_new|apply (wf_spec_run [])|done|apply caught_start].
Qed.

Lemma inv_step_restart n h l T p m a sm ts :
  inv n h l T p m a -> new (n_db n) new_storage = Ok (sm, ts) ->
  exists T', inv (mkNode (n_db n) ts sm None) h l T' p m m.
Proof.
  intros Hinv Hnew. destruct (restart_ok _ _ _ _ _ _ _ Hinv) as (sm' & ts' & T' & Hnew' & HR' & Hwf' & Hm & Hc').
  rewrite Hnew in Hnew'. injection Hnew' as <- <-. exists T'.
  destruct Hinv as [Hlog Hidx Hkept Hsnap HR Hwf Happ Hc Hord Hb]. constructor; try done; simpl. lia.
Qed.

Definition reachable (n : node) (h : list entry) : Prop := exists n0, starts n0 /\ rtc step (n0, []) (n, h).

Lemma inv_reachable n h : reachable n h -> exists l T p m a, inv n h l T p m a.
Proof.
  intros (n0 & Hn0 & Hrun). pose proof (inv_initial n0 Hn0) as Hinv.
  remember (n0, []) as x eqn:Hx. remember (n, h) as y eqn:Hy.
  assert (exists l T p m a, inv (fst x) (snd x) l T p m a) as Hx'.
  { subst x. by eexists _, _, _, _, _. }
  clear Hx Hinv Hn0. revert Hx'. induction Hrun as [x|x y' z Hstep Hrun IH]; [by subst x|].
  intros (l & T & p & m & a & Hinv). apply IH; [done|]. clear IH Hrun Hy.
  destruct Hstep as [n' h' o db Hall Hex|n' h' ent Hget|n' h' upto entries replies sm ts Hup Hget Hap
    |n' h' sm builder Hnone Hget|n' h' builder snap db Hb Hbuild|n' h' sm ts Hnew]; simpl in *.
  - destruct (inv_step_log _ _ _ _ _ _ _ _ _ Hinv Hall Hex) as (l' & p' & ?). by eexists _, _, _, _, _.
  - eexists _, _, _, _, _. by apply inv_step_commit.
  - destruct (inv_step_apply _ _ _ _ _ _ _ _ _ _ _ _ Hinv Hup Hget Hap) as (T' & a' & ?). by eexists _, _, _, _, _.
  - eexists _, _, _, _, _. by eapply inv_step_builder.
  - destruct (inv_step_build _ _ _ _ _ _ _ _ _ _ Hinv Hb Hbuild) as (m' & ?). by eexists _, _, _, _, _.
  - destruct (inv_step_restart _ _ _ _ _ _ _ _ _ Hinv Hnew) as (T' & ?). by eexists _, _, _, _, _.
Qed.

(** Restarting and applying the log again, from any reachable state. *)
Lemma recovers n h :
  reachable n h -> all_accepted h empty_table ->
  exists sm ts entries replies sm' ts',
    new (n_db n) new_storage = Ok (sm, ts) /\
    try_get_log_entries (mkRange (Included (next (last_applied_log_id sm))) (Excluded (zlen h))) (n_db n)
      = Ok entries /\
    apply entries sm ts = (Ok replies, sm', ts') /\
    refines ts' (spec_run (log_ops h)) /\ next (last_applied_log_id sm') = zlen h.
Proof.
  intros (l & T & p & m & a & Hinv)%inv_reachable Hacc.
  destruct (restart_ok _ _ _ _ _ _ _ Hinv) as (sm & ts & T' & Hnew & HR & Hwf & Hm & Hc).
  destruct (inv_step_restart _ _ _ _ _ _ _ _ _ Hinv Hnew) as (T1 & Hinv1).
  assert (range_ok (mkRange (Included (Z.of_nat m)) (Excluded (Z.of_nat (length h))))) as Hr.
  { destruct (length_u64 h) as [Hlo Hhi]; [apply Hinv|]. destruct Hc as [Hle _].
    unfold range_ok, is_u64, zlen in *. simpl. lia. }
  destruct (try_get_log_entries_ok _ _ _ (inv_log _ _ _ _ _ _ _ Hinv) Hr) as (entries & Hget & _).
  pose proof (read_slice _ _ _ _ _ _ _ _ _ Hinv1 (le_n _) Hget) as Hentries. rewrite firstn_all in Hentries.
  subst entries. pose proof (apply_spec (drop m h) sm ts T' HR Hwf) as Hspec.
  pose proof (caught_accepted h T' m Hc Hacc) as Hacc'. rewrite decide_True in Hspec by done.
  destruct Hspec as (sm' & Hap & Hlast).
  exists sm, ts, (drop m h), (map (fun _ => RespNone) (drop m h)), sm', (exec_ops (log_ops (drop m h)) ts).
  rewrite Hm. split_and!; [done|exact Hget|exact Hap| |].
  - destruct (refines_ops (log_ops (drop m h)) ts T' HR Hwf) as [HR' _].
    rewrite <-spec_entries_ops, <-raw_spec, (caught_all h T' m Hc), raw_spec, spec_entries_run in HR' by done.
    exact HR'.
  - rewrite Hlast. unfold last_applied. destruct Hc as [Hle _]. rewrite last_lookup, length_drop, lookup_drop.
    destruct (decide (m = length h)) as [->|Hne].
    + rewrite Nat.sub_diag, lookup_ge_None_2 by lia. exact Hm.
    + destruct (lookup_lt_is_Some_2 h (length h - 1)) as [ent Hent]; [lia|].
      replace (m + Nat.pred (length h - m))%nat with (length h - 1)%nat by lia. rewrite Hent. simpl.
      destruct (inv_index _ _ _ _ _ _ _ Hinv _ _ Hent) as [-> _]. unfold zlen. lia.
Qed.
End Node.

(** ** Documents of the topic group *)

Inductive topic_doc (M : Type) :=
  | DocLog (d : log_doc Request M)
  | DocStorage (s : SerializableTopicStorage)
  | DocWrapper (d : topic_doc M)
  | DocSnapshot (mt : SnapshotMeta M) (d : topic_doc M).
Arguments DocLog {M}.
Arguments DocStorage {M}.
Arguments DocWrapper {M}.
Arguments DocSnapshot {M}.

Section TopicDocs.
Context {M : Type}.

Definition in_log {A} `{Serde (log_doc Request M) A} : Serde (topic_doc M) A := {|
  to_vec a := d ← to_vec a; Ok (DocLog d);
  from_slice d := match d with DocLog d => from_slice d | _ => type_error end;
|}.
#[export] Instance topic_doc_entry : Serde (topic_doc M) (Entry Request M) := in_log.
#[export] Instance topic_doc_log_id : Serde (topic_doc M) LogId := in_log.
#[export] Instance topic_doc_option : Serde (topic_doc M) (option LogId) := in_log.
#[export] Instance topic_doc_vote : Serde (topic_doc M) Vote := in_log.
#[export] Instance topic_doc_storage : Serde (topic_doc M) SerializableTopicStorage := {
  to_vec s := Ok (DocStorage s);
  from_slice d := match d with DocStorage s => Ok s | _ => type_error end;
}.
#[export] Instance topic_doc_wrapper : Serde (topic_doc M) (SnapshotWrapper (topic_doc M)) := {
  to_vec w := Ok (DocWrapper (topic_storage_snapshot w));
  from_slice d := match d with DocWrapper d => Ok (mkWrapper d) | _ => type_error end;
}.
#[export] Instance topic_doc_snapshot : Serde (topic_doc M) (StoredSnapshot (topic_doc M) M) := {
  to_vec s := Ok (DocSnapshot (meta s) (data s));
  from_slice d := match d with DocSnapshot mt d => Ok (mkStoredSnapshot mt d) | _ => type_error end;
}.
#[export] Instance topic_doc_entry_spec : SerdeSpec (topic_doc M) (Entry Request M).
Proof. intros e. by exists (DocLog (DocEntry e)). Qed.
#[export] Instance topic_doc_log_id_spec : SerdeSpec (topic_doc M) LogId.
Proof. intros e. by exists (DocLog (DocLogId e)). Qed.
#[export] Instance topic_doc_vote_spec : SerdeSpec (topic_doc M) Vote.
Proof. intros e. by exists (DocLog (DocVote e)). Qed.
#[export] Instance topic_doc_option_spec : SerdeOptionSpec (topic_doc M) LogId.
Proof. split; [done|]. by exists (DocLog DocNull), "invalid type"%string. Qed.
#[export] Instance topic_doc_storage_spec : SerdeSpec (topic_doc M) SerializableTopicStorage.
Proof. intros e. by exists (DocStorage e). Qed.
#[export] Instance topic_doc_wrapper_spec : SerdeSpec (topic_doc M) (SnapshotWrapper (topic_doc M)).
Proof. intros [d]. by exists (DocWrapper d). Qed.
#[export] Instance topic_doc_snapshot_spec : SerdeSpec (topic_doc M) (StoredSnapshot (topic_doc M) M).
Proof. intros [mt d]. by exists (DocSnapshot mt d). Qed.
End TopicDocs.

(** ** Theorems *)

(** applying a log to a new state machine runs its operations: every entry gets its reply,
    and the storage is that of the operations, unless an entry retains a message for a
    tenant that does not exist or under an invalid topic: then the application fails. *)
Theorem topic_apply_refines {E : Base64} {Espec : Base64Spec E} {M : Type} (entries : list (Entry Request M)) :
  if decide (all_accepted entries empty_table) then
    exists sm, apply entries (mkSM None None 0) new_storage
        = (Ok (map (fun _ => RespNone) entries), sm, run (log_ops entries)) /\
      last_applied_log_id sm = option_map log_id (last entries)
  else exists e sm ts, apply entries (mkSM None None 0) new_storage = (Err e, sm, ts).
Proof.
  pose proof (apply_spec entries (mkSM None None 0) new_storage empty_table refines_new (wf_spec_run [])) as Hspec.
  case_decide; [|done]. destruct Hspec as (sm & Hap & Hlast). exists sm. split; [exact Hap|].
  rewrite Hlast. unfold last_applied. by destruct (last entries).
Qed.

(** C8: a broker loses no committed subscription when it restarts.  Take any broker that
    appends, commits, applies, builds snapshots while it goes on applying, purges what its
    snapshot covers and restarts, in any order.  When it is started again it reads its snapshot,
    the entries after the snapshot are still in its log, applying them succeeds, and then it
    routes as the whole committed log says, whatever entries the snapshot held beyond the one it
    names - provided every committed command is one the state machine accepts: a retained
    message for a tenant without subscriptions or with an invalid topic stops every replica
    that applies it ([retained_without_tenant_halts]). *)
Theorem restart_recovers {DB Doc M : Type} {E : Base64} {Espec : Base64Spec E} `{LeaderDisplay}
    `{RocksSpec DB Doc}
    `{!Serde Doc (Entry Request M), !Serde Doc LogId, !Serde Doc (option LogId), !Serde Doc Vote}
    `{!SerdeSpec Doc (Entry Request M), !SerdeSpec Doc LogId, !SerdeSpec Doc Vote, !SerdeOptionSpec Doc LogId}
    `{!Serde Doc SerializableTopicStorage, !Serde Doc (SnapshotWrapper Doc), !Serde Doc (StoredSnapshot Doc M)}
    `{!SerdeSpec Doc SerializableTopicStorage, !SerdeSpec Doc (SnapshotWrapper Doc),
      !SerdeSpec Doc (StoredSnapshot Doc M)}
    (n : node) (h : list (Entry Request M)) :
  reachable n h -> all_accepted h empty_table ->
  exists sm ts entries replies sm' ts',
    new (n_db n) new_storage = Ok (sm, ts) /\
    try_get_log_entries (mkRange (Included (next (last_applied_log_id sm))) (Excluded (zlen h))) (n_db n)
      = Ok entries /\
    apply entries sm ts = (Ok replies, sm', ts') /\ next (last_applied_log_id sm') = zlen h /\
    forall tenant topic, no_wildcard (split_slash topic) ->
      if decide (tenant ∈ t_tenants (spec_run (log_ops h))) then
        exists l, get_subscriptions tenant topic ts' = Ok l /\
          l ≡ₚ table_subscriptions (spec_run (log_ops h)) tenant topic
      else get_subscriptions tenant topic ts' = Err (TenantNotFound tenant).
Proof.
  intros Hn Hacc. destruct (recovers n h Hn Hacc) as (sm & ts & entries & replies & sm' & ts' & Hnew & Hget & Hap & HR & Hnext).
  exists sm, ts, entries, replies, sm', ts'. split_and!; try done.
  intros tenant topic. by apply routing_of_refines.
Qed.

(** the first message retained for a tenant without subscriptions cannot be applied: on
    every replica, and again after every restart, the state machine fails at its entry,
    whatever the log holds after it. *)
Theorem retained_without_tenant_halts {E : Base64} {Espec : Base64Spec E} {M : Type}
    (before after : list (Entry Request M)) (id : LogId) (t c : string) (p : Publish) :
  all_accepted before empty_table -> t ∉ t_tenants (spec_run (log_ops before)) ->
  exists e sm ts,
    apply (before ++ mkEntry id (Normal (RegisterRetainPublishPacket t c (PPublish p))) :: after)
      (mkSM None None 0) new_storage = (Err e, sm, ts).
Proof.
  intros Hb Ht. set (entries := before ++ _).
  pose proof (apply_spec entries (mkSM None None 0) new_storage empty_table refines_new (wf_spec_run [])) as Hspec.
  rewrite decide_False in Hspec; [done|]. intros Hacc%all_accepted_at.
  rewrite raw_spec, spec_entries_run in Hacc by done. destruct Hacc as [Hin _]. done.
Qed.

(** *** Witnesses *)

#[local] Instance plain_leader : LeaderDisplay := fun term node => pretty term +:+ "-" +:+ pretty node.

Definition topic_entry (i : Z) (req : Request) : Entry Request unit := mkEntry (mkLogId 1 1 i) (Normal req).
Definition topic_log : list (Entry Request unit) :=
  [mkEntry (mkLogId 0 0 0) (Membership tt);
   topic_entry 1 (SubscribeTopic "lab" "c1" "sport/+" 1 false false);
   topic_entry 2 (UnsubscribeTopic "lab" "c1" "sport/+");
   topic_entry 3 (SubscribeTopic "lab" "c2" "sport/#" 2 true false)].

Lemma topic_apply_refines_witness :
  exists sm, apply topic_log (mkSM None None 0) new_storage
      = (Ok [RespNone; RespNone; RespNone; RespNone], sm, run (log_ops topic_log)) /\
    last_applied_log_id sm = Some (mkLogId 1 1 3).
Proof. exact (topic_apply_refines topic_log). Defined.

Lemma retained_without_tenant_halts_witness :
  exists e sm ts,
    apply (topic_log ++ [topic_entry 4 (RegisterRetainPublishPacket "home" "c1" (PPublish sample_retained))])
      (mkSM None None 0) new_storage = (Err e, sm, ts).
Proof.
  apply (retained_without_tenant_halts topic_log []).
  - vm_compute. tauto.
  - apply (bool_decide_unpack _). vm_compute. exact I.
Defined.

(** The broker of the witness: it applies two entries, starts a snapshot, applies the other two,
    writes the snapshot and purges the log up to the second entry. *)
Definition sample_db : Type := gmap string (gmap bytes (topic_doc unit)).
Definition from_ok {Er A} (d : A) (m : outcome Er A) : A := match m with Ok a => a | _ => d end.
Definition is_ok {Er A} (m : outcome Er A) : bool := match m with Ok _ => true | _ => false end.

Lemma from_ok_eq {Er A} (d : A) (m : outcome Er A) : is_ok m = true -> m = Ok (from_ok d m).
Proof. by destruct m. Qed.
Definition from_some {Er A} (d : A) (m : outcome Er (option A)) : A :=
  match m with Ok (Some a) => a | _ => d end.
Lemma from_some_eq {Er A} (d : A) (m : outcome Er (option A)) :
  (match m with Ok (Some _) => true | _ => false end) = true -> m = Ok (Some (from_some d m)).
Proof. by destruct m as [[]| | |]. Qed.
Lemma applied_eq {Er A B C} (d : A) (x : outcome Er A * B * C) :
  is_ok x.1.1 = true -> x = (Ok (from_ok d x.1.1), x.1.2, x.2).
Proof. destruct x as [[[] ?] ?]; done. Qed.

Definition db_logged : sample_db := from_ok ∅ (exec_log (Append topic_log) (∅ : sample_db)).
Definition applied2 := apply (take 2 topic_log) (mkSM None None 0) new_storage.
Definition builder2 := (get_snapshot_builder applied2.1.2).2.
Definition applied4 := apply (drop 2 topic_log) builder2 applied2.2.
Definition db_built : sample_db :=
  (from_ok (mkSnapshot (mkMeta None None "") (DocLog DocNull), ∅) (build_snapshot builder2 applied4.2 db_logged)).2.
Definition db_purged : sample_db := from_ok ∅ (exec_log (Purge (mkLogId 1 1 1)) db_built).
Definition sample_node : node (DB := sample_db) := mkNode db_purged applied4.2 applied4.1.2 None.

Ltac eval_ok := vm_compute; reflexivity.

Lemma sample_reachable : reachable sample_node topic_log.
Proof.
  exists (mkNode ∅ new_storage (mkSM None None 0) None). split; [repeat split|].
  eapply rtc_l; [apply (step_log _ _ (Append topic_log) db_logged); [|apply from_ok_eq; eval_ok]|].
  { split; repeat constructor; vm_compute; discriminate || reflexivity. }
  do 4 (eapply rtc_l; [apply step_commit; eval_ok|]).
  eapply rtc_l; [apply (step_apply _ _ 2 (take 2 topic_log) (from_ok [] applied2.1.1) applied2.1.2 applied2.2);
    [cbn; lia|eval_ok|apply (applied_eq [] applied2); eval_ok]|].
  eapply rtc_l; [apply (step_builder _ _ builder2 builder2); reflexivity|].
  eapply rtc_l; [apply (step_apply _ _ 4 (drop 2 topic_log) (from_ok [] applied4.1.1) applied4.1.2 applied4.2);
    [cbn; lia|eval_ok|apply (applied_eq [] applied4); eval_ok]|].
  eapply rtc_l; [apply (step_build _ _ builder2 (from_ok (mkSnapshot (mkMeta None None "") (DocLog DocNull), ∅)
    (build_snapshot builder2 applied4.2 db_logged)).1 db_built); [reflexivity|]|].
  { unfold db_built. rewrite <-surjective_pairing. apply from_ok_eq. eval_ok. }
  eapply rtc_l; [apply (step_log _ _ (Purge (mkLogId 1 1 1)) db_purged); [|apply from_ok_eq; eval_ok]|apply rtc_refl].
  split; [vm_compute; split; [discriminate|reflexivity]|].
  exists (from_some (mkStoredSnapshot (mkMeta None None "") (DocLog DocNull)) (get_current_snapshot_ db_built)).
  split; [apply from_some_eq; eval_ok|eval_ok].
Qed.

Lemma restart_recovers_witness :
  exists sm ts entries replies sm' ts',
    reachable sample_node topic_log /\
    new (n_db sample_node) new_storage = Ok (sm, ts) /\ last_applied_log_id sm = Some (mkLogId 1 1 1) /\
    apply entries sm ts = (Ok replies, sm', ts') /\
    get_subscriptions "lab" "sport/tennis" ts' = Ok [mkSubscription "c2" 2 true false None "sport/#"].
Proof.
  destruct (restart_recovers sample_node topic_log sample_reachable)
    as (sm & ts & entries & replies & sm' & ts' & Hnew & Hget & Hap & _ & Hroute); [vm_compute; tauto|].
  exists sm, ts, entries, replies, sm', ts'. split; [exact sample_reachable|]. split; [exact Hnew|].
  assert ((match new (n_db sample_node) new_storage with
    | Ok (sm, _) => last_applied_log_id sm | _ => None end) = Some (mkLogId 1 1 1)) as Hlast by eval_ok.
  rewrite Hnew in Hlast. split; [exact Hlast|]. split; [exact Hap|].
  specialize (Hroute "lab" "sport/tennis")%string. rewrite decide_True in Hroute by eval_ok.
  destruct Hroute as (l & -> & Hp); [repeat constructor; discriminate|].
  f_equal. apply Permutation_singleton_r. rewrite Hp. vm_compute. reflexivity.
Defined.
