(* ===== verification/RaftSnapshot.v ===== *)
(** * Snapshots of the session state ([broker/src/raft/session_state/store.rs],
    [broker/src/session/session_state_storage.rs])

    As in the topic group, the builder of a snapshot copies the id of the last entry
    applied and shares the session storage.  Session commands are not idempotent, so
    here it matters when the snapshot is written: one written at once restores the
    storage, one written after further commands makes a restarted broker apply them
    twice.  The membership and the name of a snapshot are left out. *)

From S2P Require Import Prelude Utf8 Packet Inflight SessionState SessionRefs RaftLog RaftSession.

Record SerializableSessionStateStorage := mkSerializable {
  inner : gmap string (gmap string SessionState);
  ser_ref_counts : gmap string Z;
}.

(** The sessions without their locks. *)
Definition to_serializable (st : SessionStateStorage) : SerializableSessionStateStorage :=
  mkSerializable (sessions st) (ref_counts st).
Definition from_serializable (data : SerializableSessionStateStorage) : SessionStateStorage :=
  mkStorage (inner data) (ser_ref_counts data).

Record SnapshotWrapper (Doc : Type) := mkWrapper { session_state_storage_snapshot : Doc }.
Record StoredSnapshot (Doc : Type) := mkStoredSnapshot { meta_last_log_id : option Z; data : Doc }.
Arguments mkWrapper {Doc}.
Arguments session_state_storage_snapshot {Doc}.
Arguments mkStoredSnapshot {Doc}.
Arguments meta_last_log_id {Doc}.
Arguments data {Doc}.

Section Snapshot.
Context {DB Doc : Type} `{Rocks DB Doc}.
Context `{Serde Doc SerializableSessionStateStorage, Serde Doc (SnapshotWrapper Doc), Serde Doc (StoredSnapshot Doc)}.
Implicit Types (st : SessionStateStorage) (db : DB).

Definition to_snapshot st : outcome string Doc := to_vec (to_serializable st).
Definition from_snapshot (snapshot : Doc) : outcome string SessionStateStorage :=
  serializable ← from_slice snapshot; Ok (from_serializable serializable).

Definition set_current_snapshot_ (snap : StoredSnapshot Doc) db : StorageResult DB :=
  let sub := SnapshotOf (meta_last_log_id snap) in
  json ← with_cause sub Write SerdeJson (to_vec snap);
  cf ← store db;
  db ← with_cause sub Write Rocksdb (put_cf db cf (as_bytes "snapshot") json);
  flush sub Write db.

Definition get_current_snapshot_ db : StorageResult (option (StoredSnapshot Doc)) :=
  cf ← store db;
  v ← with_cause RaftLog.Store Read Rocksdb (get_cf db cf (as_bytes "snapshot"));
  Ok (parsed v).

(** [build_snapshot] of a builder that copied [last_applied], with the storage as it now is. *)
Definition build_snapshot (last_applied : option Z) st db : StorageResult (StoredSnapshot Doc * DB) :=
  session_state_storage_snapshot ← with_cause StateMachine Write SerdeJson (to_snapshot st);
  snapshot_json ← with_cause StateMachine Read SerdeJson (to_vec (mkWrapper session_state_storage_snapshot));
  let snapshot := mkStoredSnapshot last_applied snapshot_json in
  db ← set_current_snapshot_ snapshot db;
  Ok (snapshot, db).

Definition update_state_machine_ (snapshot : StoredSnapshot Doc) : StorageResult (option Z * SessionStateStorage) :=
  state ← with_cause (SnapshotOf (meta_last_log_id snapshot)) Read SerdeJson
            (from_slice (A := SnapshotWrapper Doc) (data snapshot));
  st ← with_cause StateMachine Write SerdeJson (from_snapshot (session_state_storage_snapshot state));
  Ok (meta_last_log_id snapshot, st).

(** [StateMachineStore::new]: the last entry applied and the storage. *)
Definition new db : StorageResult (option Z * SessionStateStorage) :=
  snapshot ← get_current_snapshot_ db;
  match snapshot with
  | Some snap => update_state_machine_ snap
  | None => Ok (None, new_session_storage)
  end.
End Snapshot.

Section Restore.
Context {DB Doc : Type} `{RocksSpec DB Doc}.
Context `{!Serde Doc SerializableSessionStateStorage, !Serde Doc (SnapshotWrapper Doc), !Serde Doc (StoredSnapshot Doc)}.
Context `{!SerdeSpec Doc SerializableSessionStateStorage, !SerdeSpec Doc (SnapshotWrapper Doc),
  !SerdeSpec Doc (StoredSnapshot Doc)}.

(** A restarted broker has the id the builder copied and the storage the snapshot was made of. *)
Lemma build_then_new last st (db : DB) :
  healthy db -> exists snap db', build_snapshot last st db = Ok (snap, db') /\ new db' = Ok (last, st).
Proof.
  intros Hh. destruct (serde_roundtrip (to_serializable st)) as (d & Hd & Hd').
  destruct (serde_roundtrip (mkWrapper d)) as (w & Hw & Hw').
  destruct (serde_roundtrip (mkStoredSnapshot last w)) as (s & Hs & Hs').
  destruct (put_store_ok db "snapshot" s (SnapshotOf last) Write Hh) as (db' & Hput & Hh' & _ & Hst).
  assert (set_current_snapshot_ (mkStoredSnapshot last w) db = Ok db') as Hset.
  { unfold set_current_snapshot_. rewrite Hs, store_ok by done. exact Hput. }
  exists (mkStoredSnapshot last w), db'. split.
  - unfold build_snapshot, to_snapshot. rewrite Hd. simpl. rewrite Hw. simpl. by rewrite Hset.
  - unfold new, get_current_snapshot_. rewrite get_store_ok by done.
    rewrite (stored_write db db' _ _ s Hst), decide_True by done. unfold parsed. simpl. rewrite Hs'. simpl.
    unfold update_state_machine_, from_snapshot. simpl. rewrite Hw'. simpl. rewrite Hd'. simpl. by destruct st.
Qed.
End Restore.

(** A message queued for a session that is there. *)
Lemma append_pending t c k st s :
  get_session_state t c st = Some s ->
  get_session_state t c (append_to_pending_queue t c k st) = Some (set_pending (pending_messages s ++ [k]) s).
Proof.
  intros Hs. unfold get_session_state in *. destruct (sessions st !! t) as [m|] eqn:Hm; [|done].
  unfold append_to_pending_queue, ensure_tenant. rewrite Hm. unfold get_session_state. rewrite Hm. simpl in *.
  rewrite Hs. unfold put_session, set_refs. simpl. by rewrite lookup_alter_eq, Hm; simpl; rewrite lookup_insert_eq.
Qed.

(** ** Documents *)

Inductive session_doc :=
  | DocSessions (s : SerializableSessionStateStorage)
  | DocSessionWrapper (d : session_doc)
  | DocSessionSnapshot (last : option Z) (d : session_doc).

#[export] Instance session_doc_storage : Serde session_doc SerializableSessionStateStorage := {
  to_vec s := Ok (DocSessions s);
  from_slice d := match d with DocSessions s => Ok s | _ => type_error end;
}.
#[export] Instance session_doc_wrapper : Serde session_doc (SnapshotWrapper session_doc) := {
  to_vec w := Ok (DocSessionWrapper (session_state_storage_snapshot w));
  from_slice d := match d with DocSessionWrapper d => Ok (mkWrapper d) | _ => type_error end;
}.
#[export] Instance session_doc_snapshot : Serde session_doc (StoredSnapshot session_doc) := {
  to_vec s := Ok (DocSessionSnapshot (meta_last_log_id s) (data s));
  from_slice d := match d with DocSessionSnapshot i d => Ok (mkStoredSnapshot i d) | _ => type_error end;
}.
#[export] Instance session_doc_storage_spec : SerdeSpec session_doc SerializableSessionStateStorage.
Proof. intros s. by exists (DocSessions s). Qed.
#[export] Instance session_doc_wrapper_spec : SerdeSpec session_doc (SnapshotWrapper session_doc).
Proof. intros [d]. by exists (DocSessionWrapper d). Qed.
#[export] Instance session_doc_snapshot_spec : SerdeSpec session_doc (StoredSnapshot session_doc).
Proof. intros [i d]. by exists (DocSessionSnapshot i d). Qed.

(** ** Theorems *)

(** a snapshot of the sessions written while a command is applied makes a restarted broker
    apply the command twice: when a message is queued for a session after the builder was made
    and before the snapshot is written, the restarted broker stands before the entry, and once it
    has applied it the session holds the message twice. *)
Theorem late_snapshot_duplicates {DB Doc : Type} `{RocksSpec DB Doc}
    `{!Serde Doc SerializableSessionStateStorage, !Serde Doc (SnapshotWrapper Doc), !Serde Doc (StoredSnapshot Doc)}
    `{!SerdeSpec Doc SerializableSessionStateStorage, !SerdeSpec Doc (SnapshotWrapper Doc),
      !SerdeSpec Doc (StoredSnapshot Doc)}
    get_ok put_ok (now i term : Z) (t c k : string) (s : SessionState) (n : Store) (db : DB) :
  healthy db -> get_session_state t c (session_state_storage n) = Some s ->
  let ent := mkEntry i term (Normal (AppendToPendingQueue t c k)) in
  exists n2 snap db' st,
    apply get_ok put_ok now [ent] n = Ok ([RespNone], n2) /\
    option_map pending_messages (get_session_state t c (session_state_storage n2))
      = Some (pending_messages s ++ [k]) /\
    build_snapshot (last_applied n) (session_state_storage n2) db = Ok (snap, db') /\
    new db' = Ok (last_applied n, st) /\
    forall n', session_state_storage n' = st ->
      exists n3, apply get_ok put_ok now [ent] n' = Ok ([RespNone], n3) /\
        option_map pending_messages (get_session_state t c (session_state_storage n3))
          = Some (pending_messages s ++ [k; k]).
Proof.
  intros Hh Hs ent. set (st2 := append_to_pending_queue t c k (session_state_storage n)).
  assert (get_session_state t c st2 = Some (set_pending (pending_messages s ++ [k]) s)) as Hs2 by (by apply append_pending).
  destruct (build_then_new (last_applied n) st2 db Hh) as (snap & db' & Hbuild & Hnew).
  eexists _, snap, db', st2. split; [done|]. simpl. fold st2. rewrite Hs2. split; [done|].
  split; [exact Hbuild|]. split; [exact Hnew|]. intros n' <-. eexists. split; [done|]. simpl.
  rewrite (append_pending _ _ _ _ _ Hs2). simpl. by rewrite <-app_assoc.
Qed.

Definition sample_store : Store :=
  set_storage (create_session_state "t" "c" 5 None None new_session_storage) (initial ∅).

Lemma late_snapshot_duplicates_witness :
  exists st, forall n', session_state_storage n' = st ->
    exists n3, apply (fun _ => true) (fun _ _ => true) 7
        [mkEntry 3 1 (Normal (AppendToPendingQueue "t" "c" "k"))] n' = Ok ([RespNone], n3) /\
      option_map pending_messages (get_session_state "t" "c" (session_state_storage n3))
        = Some ["k"; "k"]%string.
Proof.
  destruct (late_snapshot_duplicates (DB := gmap string (gmap bytes session_doc)) (fun _ => true)
    (fun _ _ => true) 7 3 1 "t" "c" "k" (new_with_options 5 None None) sample_store ∅)
    as (n2 & snap & db' & st & _ & _ & _ & _ & Hreplay); [exact I|vm_compute; reflexivity|].
  exists st. exact Hreplay.
Defined.
