(* ===== verification/SessionMap.v ===== *)
(** * The session registry ([broker/src/session/session_actor_map_storage.rs],
    [broker/src/raft/session_actor_map/types.rs], [store.rs])

    Which node runs the session of a client, under which instance, and until when.
    The registry is replicated: a session is registered, renewed and removed by log
    entries, and the index of its registration names its instance, so that what an
    older instance still asks for is recognised and dropped.  Applying an entry reads
    the local clock and may send a message to the session manager of the node: the
    readings are an argument, the messages a result. *)

From S2P Require Import Prelude RaftLog.
From stdpp Require Import sorting.

#[local] Open Scope Z_scope.

Abbreviation NodeId := Z (only parsing).

Record SessionInstanceId := mkInstance { log_index : Z }.
#[export] Instance SessionInstanceId_eq_dec : EqDecision SessionInstanceId.
Proof. solve_decision. Defined.

Record SessionActorMapEntry := mkMapEntry {
  node_id : NodeId;
  instance_id : SessionInstanceId;
  expiration_timestamp : Z;
}.

Record ExpiredSession := mkExpired {
  ex_tenant_id : string;
  ex_session_id : string;
  ex_node_id : NodeId;
  ex_session_instance_id : SessionInstanceId;
}.
Record RenewSession := mkRenew {
  rn_tenant_id : string;
  rn_session_id : string;
  rn_session_instance_id : SessionInstanceId;
}.

(** [SessionActorMapStorage]: by tenant and session. *)
Abbreviation Storage := (gmap string (gmap string SessionActorMapEntry)).

Definition new_map : Storage := ∅.

Definition get_session_actor_map (tenant_id client_id : string) (st : Storage) : option SessionActorMapEntry :=
  st !! tenant_id ≫= fun v => v !! client_id.

(** One session of [session_lease_renew], with the clock's reading for it. *)
Definition renew_one (now : Z) (renew : RenewSession) (session_ttl : Z) (st : Storage) : outcome unit Storage :=
  match st !! rn_tenant_id renew with
  | Some session_tenant =>
      match session_tenant !! rn_session_id renew with
      | Some session_entry =>
          if negb (bool_decide (instance_id session_entry = rn_session_instance_id renew)) then Ok st
          else
            expiration ← add_u64 now session_ttl;
            Ok (<[rn_tenant_id renew := <[rn_session_id renew :=
                  mkMapEntry (node_id session_entry) (instance_id session_entry) expiration]> session_tenant]> st)
      | None => Ok st
      end
  | None => Ok st
  end.

(** The [i]-th session of the list reads [clock i]. *)
Fixpoint session_lease_renew (clock : nat -> Z) (sessions : list RenewSession) (session_ttl : Z) (st : Storage)
    : outcome unit Storage :=
  match sessions with
  | [] => Ok st
  | renew :: sessions =>
      st ← renew_one (clock 0%nat) renew session_ttl st;
      session_lease_renew (fun i => clock (S i)) sessions session_ttl st
  end.

(** The sessions whose lease ended before the reading taken for them. *)
Definition get_all_expired_sessions (clock : string -> string -> Z) (st : Storage) : list ExpiredSession :=
  concat (map (fun '(tenant_id, sessions) =>
    concat (map (fun '(session_id, session) =>
      if expiration_timestamp session <? clock tenant_id session_id
      then [mkExpired tenant_id session_id (node_id session) (instance_id session)] else [])
      (map_to_list sessions)))
    (map_to_list st)).

(** [entry(tenant_id).or_default()] and [insert]: the entry displaced is returned. *)
Definition register_session_actor (now : Z) (tenant_id session_id : string) (node_id : NodeId)
    (instance_id : SessionInstanceId) (session_ttl : Z) (st : Storage)
    : outcome unit (option SessionActorMapEntry * Storage) :=
  let session_tenant := from_option id ∅ (st !! tenant_id) in
  expiration ← add_u64 now session_ttl;
  Ok (session_tenant !! session_id,
      <[tenant_id := <[session_id := mkMapEntry node_id instance_id expiration]> session_tenant]> st).

Definition unregister_session_actor (tenant_id session_id : string) (instance : SessionInstanceId) (st : Storage)
    : Storage :=
  match st !! tenant_id with
  | Some tenant_map =>
      match tenant_map !! session_id with
      | Some existing =>
          if decide (instance_id existing = instance)
          then <[tenant_id := delete session_id tenant_map]> st else st
      | None => st
      end
  | None => st
  end.

(** The page of a tenant's clients, and how many there are. *)
Definition get_client_id_list_with_pagination (tenant_id : string) (offset limit : Z) (st : Storage)
    : option (list (string * NodeId) * Z) :=
  match st !! tenant_id with
  | Some tenant_map =>
      Some (map (fun '(client_id, entry) => (client_id, node_id entry))
              (take (Z.to_nat limit) (drop (Z.to_nat offset) (map_to_list tenant_map))),
            zlen (map_to_list tenant_map))
  | None => None
  end.

(** ** The state machine *)

Inductive SessionActorMapRequest :=
  | RegisterSession (tenant_id session_id : string) (node_id : NodeId)
  | UnregisterSession (tenant_id session_id : string) (session_instance_id : SessionInstanceId)
  | CleanExpiredSessions (sessions : list ExpiredSession)
  | SessionLeaseRenewRequest (sessions : list RenewSession).

Inductive SessionActorMapResponse := RespNone | Registered (instance : SessionInstanceId).

(** The messages to the node's session manager. *)
Inductive Message :=
  | ForceStopWithSessionService (tenant_id client_id : string) (session_instance_id : SessionInstanceId)
  | RemoveExpiredSession (tenant_id client_id : string) (session_instance_id : SessionInstanceId).

(** [StateMachineData]; no membership is the default. *)
Record StateMachineData (M : Type) := mkData {
  last_applied_log_id : option LogId;
  last_membership : option (LogId * M);
  session_actor_map : Storage;
}.
Arguments mkData {M}.
Arguments last_applied_log_id {M}.
Arguments last_membership {M}.
Arguments session_actor_map {M}.

Section Apply.
Context {M : Type}.
(** The node's id and the time a registration lasts; [clock i k] is the [k]-th reading of the
    clock for the entry at index [i]. *)
Context (self : NodeId) (session_ttl : Z) (clock : Z -> nat -> Z).

(** The loop over [CleanExpiredSessions]. *)
Definition clean_expired (sessions : list ExpiredSession) (st : Storage) : list Message * Storage :=
  (concat (map (fun s => if decide (ex_node_id s = self)
     then [RemoveExpiredSession (ex_tenant_id s) (ex_session_id s) (ex_session_instance_id s)] else []) sessions),
   foldl (fun st s => unregister_session_actor (ex_tenant_id s) (ex_session_id s) (ex_session_instance_id s) st)
     st sessions).

Definition apply_request (index : Z) (req : SessionActorMapRequest) (st : Storage)
    : outcome unit (SessionActorMapResponse * list Message * Storage) :=
  match req with
  | RegisterSession tenant_id session_id node =>
      let instance := mkInstance index in
      '(previous_entry, st) ← register_session_actor (clock index 0%nat) tenant_id session_id node instance
                                session_ttl st;
      let messages :=
        match previous_entry with
        | Some previous =>
            if decide (node_id previous = self /\ instance_id previous <> instance)
            then [ForceStopWithSessionService tenant_id session_id (instance_id previous)] else []
        | None => []
        end in
      Ok (Registered instance, messages, st)
  | UnregisterSession tenant_id session_id instance =>
      Ok (RespNone, [], unregister_session_actor tenant_id session_id instance st)
  | CleanExpiredSessions sessions =>
      let '(messages, st) := clean_expired sessions st in
      Ok (RespNone, messages, st)
  | SessionLeaseRenewRequest sessions =>
      st ← session_lease_renew (clock index) sessions session_ttl st;
      Ok (RespNone, [], st)
  end.

(** The body of the loop of [apply]. *)
Definition apply_entry (ent : Entry SessionActorMapRequest M) (d : StateMachineData M)
    : outcome unit (SessionActorMapResponse * list Message * StateMachineData M) :=
  let d := mkData (Some (log_id ent)) (last_membership d) (session_actor_map d) in
  match payload ent with
  | Blank => Ok (RespNone, [], d)
  | Normal req =>
      '(reply, messages, st) ← apply_request (index (log_id ent)) req (session_actor_map d);
      Ok (reply, messages, mkData (last_applied_log_id d) (last_membership d) st)
  | Membership membership =>
      Ok (RespNone, [], mkData (last_applied_log_id d) (Some (log_id ent, membership)) (session_actor_map d))
  end.

Fixpoint apply (entries : list (Entry SessionActorMapRequest M)) (d : StateMachineData M)
    : outcome unit (list SessionActorMapResponse * list Message * StateMachineData M) :=
  match entries with
  | [] => Ok ([], [], d)
  | ent :: entries =>
      '(reply, sent, d) ← apply_entry ent d;
      '(replies, messages, d) ← apply entries d;
      Ok (reply :: replies, sent ++ messages, d)
  end.
End Apply.

(** ** Owners *)

(** The node and the instance of a session. *)
Definition owner_of (e : SessionActorMapEntry) : NodeId * SessionInstanceId := (node_id e, instance_id e).
Definition owner_at (t c : string) (st : Storage) : option (NodeId * SessionInstanceId) :=
  owner_of <$> get_session_actor_map t c st.

Definition remove_owner (t c t' c' : string) (i : SessionInstanceId) (o : option (NodeId * SessionInstanceId))
    : option (NodeId * SessionInstanceId) :=
  match o with
  | Some (n, j) => if decide (t' = t /\ c' = c /\ j = i) then None else Some (n, j)
  | None => None
  end.

Lemma get_insert t c t' c' (m : gmap string SessionActorMapEntry) v st :
  (forall c, st !! t' ≫= (fun m => m !! c) = m !! c) ->
  get_session_actor_map t c (<[t' := <[c' := v]> m]> st) =
    if decide (t' = t /\ c' = c) then Some v else get_session_actor_map t c st.
Proof.
  intros Hm. unfold get_session_actor_map. destruct (decide (t' = t)) as [<-|Ht].
  - rewrite lookup_insert_eq. simpl. destruct (decide (c' = c)) as [<-|Hc].
    + rewrite lookup_insert_eq, decide_True by done. done.
    + rewrite lookup_insert_ne, decide_False by naive_solver. by rewrite Hm.
  - rewrite lookup_insert_ne, decide_False by naive_solver. done.
Qed.

Lemma unregister_owner t c t' c' i st :
  owner_at t c (unregister_session_actor t' c' i st) = remove_owner t c t' c' i (owner_at t c st).
Proof.
  unfold owner_at, unregister_session_actor. destruct (decide (t' = t /\ c' = c)) as [[-> ->]|Hne].
  - unfold get_session_actor_map. destruct (st !! t) as [m|] eqn:Hm; simpl; [|by rewrite Hm].
    destruct (m !! c) as [e|] eqn:He; simpl; [|by rewrite Hm; simpl; rewrite He]. case_decide.
    + rewrite lookup_insert_eq. simpl. rewrite lookup_delete_eq, decide_True by done. done.
    + rewrite Hm. simpl. rewrite He. simpl. rewrite decide_False by naive_solver. done.
  - assert (remove_owner t c t' c' i (owner_of <$> get_session_actor_map t c st)
      = owner_of <$> get_session_actor_map t c st) as ->.
    { destruct (get_session_actor_map t c st); simpl; [|done]. by rewrite decide_False by naive_solver. }
    destruct (st !! t') as [m|] eqn:Hm; [|done]. destruct (m !! c') as [e|] eqn:He; [|done].
    case_decide; [|done]. f_equal. unfold get_session_actor_map. destruct (decide (t' = t)) as [<-|Ht].
    + rewrite lookup_insert_eq, Hm. simpl. apply lookup_delete_ne. naive_solver.
    + by rewrite lookup_insert_ne.
Qed.

Lemma register_owner now t' c' node i ttl st :
  now + ttl <= u64_max ->
  exists st', register_session_actor now t' c' node i ttl st = Ok (get_session_actor_map t' c' st, st') /\
    forall t c, owner_at t c st' = if decide (t' = t /\ c' = c) then Some (node, i) else owner_at t c st.
Proof.
  intros Hle. unfold register_session_actor, add_u64. rewrite (proj2 (Z.leb_le _ _) Hle). simpl.
  assert (forall c, st !! t' ≫= (fun m => m !! c) = from_option id ∅ (st !! t') !! c) as Hm.
  { intros c. destruct (st !! t'); simpl; [done|]. by rewrite lookup_empty. }
  eexists. split; [unfold get_session_actor_map; by rewrite Hm|].
  intros t c. unfold owner_at. rewrite get_insert by done. by case_decide.
Qed.

Lemma renew_owner now renew ttl st :
  now + ttl <= u64_max ->
  exists st', renew_one now renew ttl st = Ok st' /\ forall t c, owner_at t c st' = owner_at t c st.
Proof.
  intros Hle. unfold renew_one. destruct (st !! rn_tenant_id renew) as [m|] eqn:Hm; [|by exists st].
  destruct (m !! rn_session_id renew) as [e|] eqn:He; [|by exists st].
  destruct (bool_decide _); [|by exists st]. simpl. unfold add_u64. rewrite (proj2 (Z.leb_le _ _) Hle). simpl.
  eexists. split; [done|]. intros t c. unfold owner_at. rewrite get_insert by (intros; by rewrite Hm).
  case_decide as Hd; [|done]. destruct Hd as [<- <-]. unfold get_session_actor_map. rewrite Hm. simpl. by rewrite He.
Qed.

Lemma renew_all_owner clock sessions ttl st :
  (forall k, clock k + ttl <= u64_max) ->
  exists st', session_lease_renew clock sessions ttl st = Ok st' /\ forall t c, owner_at t c st' = owner_at t c st.
Proof.
  revert clock st. induction sessions as [|renew sessions IH]; intros clock st Hle; [by exists st|]. simpl.
  destruct (renew_owner (clock 0%nat) renew ttl st (Hle _)) as (st1 & -> & H1). simpl.
  destruct (IH (fun k => clock (S k)) st1 (fun k => Hle _)) as (st2 & -> & H2).
  exists st2. split; [done|]. intros t c. by rewrite H2, H1.
Qed.

(** What an entry does to the owner of a session. *)
Section Owners.
Context {M : Type}.
Implicit Types (ent : Entry SessionActorMapRequest M) (entries : list (Entry SessionActorMapRequest M)).

Definition owner_step (t c : string) ent (o : option (NodeId * SessionInstanceId))
    : option (NodeId * SessionInstanceId) :=
  match payload ent with
  | Normal (RegisterSession t' c' node) =>
      if decide (t' = t /\ c' = c) then Some (node, mkInstance (index (log_id ent))) else o
  | Normal (UnregisterSession t' c' i) => remove_owner t c t' c' i o
  | Normal (CleanExpiredSessions sessions) =>
      foldl (fun o s => remove_owner t c (ex_tenant_id s) (ex_session_id s) (ex_session_instance_id s) o) o sessions
  | _ => o
  end.

Definition reply_of ent : SessionActorMapResponse :=
  match payload ent with
  | Normal (RegisterSession _ _ _) => Registered (mkInstance (index (log_id ent)))
  | _ => RespNone
  end.

(** What a node sends when a registration displaces an owner. *)
Definition stop_message (self : NodeId) ent (st : Storage) : list Message :=
  match payload ent with
  | Normal (RegisterSession t c _) =>
      match owner_at t c st with
      | Some (node, i) =>
          if decide (node = self /\ i <> mkInstance (index (log_id ent)))
          then [ForceStopWithSessionService t c i] else []
      | None => []
      end
  | _ => []
  end.

Lemma apply_entry_owner self ttl (clock : Z -> nat -> Z) ent (d : StateMachineData M) :
  (forall i k, clock i k + ttl <= u64_max) ->
  exists sent d', apply_entry self ttl clock ent d = Ok (reply_of ent, sent, d') /\
    last_applied_log_id d' = Some (log_id ent) /\
    (forall t c, owner_at t c (session_actor_map d') = owner_step t c ent (owner_at t c (session_actor_map d))) /\
    forall m, m ∈ stop_message self ent (session_actor_map d) -> m ∈ sent.
Proof.
  intros Hle. destruct ent as [id [|req|mem]]; [by eexists _, _| |by eexists _, _].
  unfold apply_entry, reply_of, owner_step, stop_message. simpl. set (st := session_actor_map d).
  destruct req as [t' c' node|t' c' i|sessions|sessions]; simpl.
  - destruct (register_owner (clock (index id) 0%nat) t' c' node (mkInstance (index id)) ttl st (Hle _ _))
      as (st' & -> & Ho). simpl. eexists _, _. split; [done|]. split; [done|]. split; [exact Ho|].
    unfold owner_at. by destruct (get_session_actor_map t' c' st).
  - eexists _, _. split; [done|]. split; [done|]. split; [|done]. intros t c. apply unregister_owner.
  - eexists _, _. split; [done|]. split; [done|]. split; [|by intros m ?%elem_of_nil]. intros t c. simpl.
    generalize st. clear. induction sessions as [|s sessions IH]; intros st; [done|]. simpl.
    by rewrite IH, unregister_owner.
  - destruct (renew_all_owner (clock (index id)) sessions ttl st (Hle _)) as (st' & -> & Ho).
    simpl. by eexists _, _.
Qed.
End Owners.

(** ** The log and the owner *)

Section Log.
Context {M : Type}.
Implicit Types (ent : Entry SessionActorMapRequest M) (entries : list (Entry SessionActorMapRequest M)).

Definition registers (t c : string) (node : NodeId) ent : Prop :=
  payload ent = Normal (RegisterSession t c node).
Definition registers_any (t c : string) ent : Prop := exists node, registers t c node ent.
(** The entry unregisters this instance, or cleans it as expired. *)
Definition removes (t c : string) (i : SessionInstanceId) ent : Prop :=
  payload ent = Normal (UnregisterSession t c i) \/
  exists sessions node, payload ent = Normal (CleanExpiredSessions sessions) /\ mkExpired t c node i ∈ sessions.

Definition final_owner (t c : string) entries (o : option (NodeId * SessionInstanceId)) :=
  foldl (fun o ent => owner_step t c ent o) o entries.

Lemma remove_all_owner t c sessions node i :
  foldl (fun o s => remove_owner t c (ex_tenant_id s) (ex_session_id s) (ex_session_instance_id s) o)
    (Some (node, i)) sessions = None /\ (exists n, mkExpired t c n i ∈ sessions) \/
  foldl (fun o s => remove_owner t c (ex_tenant_id s) (ex_session_id s) (ex_session_instance_id s) o)
    (Some (node, i)) sessions = Some (node, i) /\ ~ (exists n, mkExpired t c n i ∈ sessions).
Proof.
  induction sessions as [|[t' c' n' i'] sessions IH]; simpl; [right; split; [done|set_solver]|].
  case_decide as Hd.
  - destruct Hd as (-> & -> & ->). left. split; [|exists n'; set_solver]. clear IH.
    induction sessions as [|s sessions IH]; [done|]. apply IH.
  - destruct IH as [[-> (n & Hn)]|[-> Hno]]; [left; split; [done|exists n; set_solver]|right; split; [done|]].
    intros (n & Hn). apply elem_of_cons in Hn as [[= <- <- <- <-]|Hn]; [by destruct Hd|by eauto].
Qed.

Lemma remove_none t c sessions :
  foldl (fun o s => remove_owner t c (ex_tenant_id s) (ex_session_id s) (ex_session_instance_id s) o)
    None sessions = None.
Proof. by induction sessions. Qed.

(** An entry that does not register the session leaves or removes its owner. *)
Lemma owner_step_other t c ent o :
  ~ registers_any t c ent ->
  match o with
  | Some (node, i) =>
      owner_step t c ent o = None /\ removes t c i ent \/ owner_step t c ent o = o /\ ~ removes t c i ent
  | None => owner_step t c ent o = None
  end.
Proof.
  unfold registers_any, registers, owner_step, removes.
  destruct ent as [id [|[t' c' node'|t' c' i'|sessions|sessions]|mem]]; simpl; intros Hreg.
  2: { rewrite decide_False by naive_solver. destruct o as [[node i]|]; [|done]. right. naive_solver. }
  2: { destruct o as [[node i]|]; [|done]. simpl. case_decide; [left|right]; naive_solver. }
  2: { destruct o as [[node i]|]; [|apply remove_none].
       destruct (remove_all_owner t c sessions node i) as [[-> (n & Hn)]|[-> Hno]]; [left|right]; naive_solver. }
  all: destruct o as [[node i]|]; [right; naive_solver|done].
Qed.

Lemma owner_step_register t c node ent o :
  registers t c node ent -> owner_step t c ent o = Some (node, mkInstance (index (log_id ent))).
Proof. unfold registers, owner_step. intros ->. by rewrite decide_True. Qed.

#[export] Instance registers_any_dec t c ent : Decision (registers_any t c ent).
Proof.
  unfold registers_any, registers. destruct (payload ent) as [|[t' c' node| | |]|];
    try (right; by intros [? ?]).
  destruct (decide (t' = t /\ c' = c)) as [[-> ->]|Hne]; [left; by exists node|right; naive_solver].
Defined.

(** The owner of a session is its last registration, when nothing after removed it. *)
Lemma final_owner_spec t c entries node i :
  final_owner t c entries None = Some (node, i) <->
  exists before ent after, entries = before ++ ent :: after /\ registers t c node ent /\
    i = mkInstance (index (log_id ent)) /\
    Forall (fun e => ~ registers_any t c e /\ ~ removes t c i e) after.
Proof.
  induction entries as [|ent entries IH] using rev_ind.
  { split; [done|]. intros (before & ent & after & Heq & _). by destruct before. }
  unfold final_owner in *. rewrite foldl_snoc. set (o := foldl _ None entries) in *. split.
  - destruct (decide (registers_any t c ent)) as [[node' Hreg]|Hno].
    + rewrite (owner_step_register _ _ _ _ _ Hreg). intros [= <- <-]. by exists entries, ent, [].
    + pose proof (owner_step_other t c ent o Hno) as Ho. destruct o as [[node' i']|]; [|congruence].
      destruct Ho as [[-> _]|[-> Hrem]]; [done|]. intros Heq.
      destruct (proj1 IH Heq) as (before & ent' & after & -> & Hreg & Hi & Hafter).
      exists before, ent', (after ++ [ent]). split; [by rewrite <-app_assoc|]. split_and!; [done..|].
      apply Forall_app. split; [done|]. injection Heq as <- <-. by repeat constructor.
  - intros (before & ent' & after & Heq & Hreg & Hi & Hafter).
    destruct after as [|e after _] using rev_ind.
    + apply app_inj_tail in Heq as [_ <-]. subst i. by apply owner_step_register.
    + rewrite app_comm_cons, app_assoc in Heq. apply app_inj_tail in Heq as [Heq <-].
      apply Forall_app in Hafter as [Hafter Hlast]. apply Forall_singleton in Hlast as [Hno Hrem].
      assert (o = Some (node, i)) as Ho by (apply IH; by exists before, ent', after).
      pose proof (owner_step_other t c ent o Hno) as Hstep. rewrite Ho in Hstep |- *.
      destruct Hstep as [[_ ?]|[-> _]]; done.
Qed.

Lemma apply_owners self ttl (clock : Z -> nat -> Z) entries (d : StateMachineData M) :
  (forall i k, clock i k + ttl <= u64_max) ->
  exists sent d', apply self ttl clock entries d = Ok (map reply_of entries, sent, d') /\
    forall t c, owner_at t c (session_actor_map d') = final_owner t c entries (owner_at t c (session_actor_map d)).
Proof.
  intros Hle. revert d. induction entries as [|ent entries IH]; intros d; [by eexists _, _|]. simpl.
  destruct (apply_entry_owner self ttl clock ent d Hle) as (sent & d1 & -> & _ & Ho & _). simpl.
  destruct (IH d1) as (sent2 & d2 & -> & Ho2). simpl. eexists _, _. split; [done|].
  intros t c. by rewrite Ho2, Ho.
Qed.

Lemma apply_app self ttl (clock : Z -> nat -> Z) e1 e2 (d d1 d2 : StateMachineData M) r1 s1 r2 s2 :
  apply self ttl clock e1 d = Ok (r1, s1, d1) -> apply self ttl clock e2 d1 = Ok (r2, s2, d2) ->
  apply self ttl clock (e1 ++ e2) d = Ok (r1 ++ r2, s1 ++ s2, d2).
Proof.
  revert d r1 s1. induction e1 as [|ent e1 IH]; intros d r1 s1; simpl.
  { by intros [= <- <- <-]. }
  destruct (apply_entry self ttl clock ent d) as [[[r s] d']| | |]; simpl; try done.
  destruct (apply self ttl clock e1 d') as [[[r' s'] d'']| | |] eqn:H1; simpl; try done.
  intros [= <- <- <-] H2. rewrite (IH _ _ _ H1 H2). simpl. by rewrite app_assoc.
Qed.
End Log.

Definition new_data {M} : StateMachineData M := mkData None None new_map.

(** ** Theorems *)

(** C21: replicas agree on who runs a session.  Applying a log succeeds, whatever node applies
    it and whatever its clock reads, with the same replies; and a client's session then belongs to
    a node and an instance exactly when that is the client's last registration in the log and
    no later entry unregisters or cleans that instance: what is asked in the name of an older
    instance changes nothing. *)
Theorem registry_owner {M : Type} (self ttl : Z) (clock : Z -> nat -> Z)
    (entries : list (Entry SessionActorMapRequest M)) :
  (forall i k, clock i k + ttl <= u64_max) ->
  exists sent d, apply self ttl clock entries new_data = Ok (map reply_of entries, sent, d) /\
    forall t c node i,
      owner_at t c (session_actor_map d) = Some (node, i) <->
      exists before ent after, entries = before ++ ent :: after /\ registers t c node ent /\
        i = mkInstance (index (log_id ent)) /\
        Forall (fun e => ~ registers_any t c e /\ ~ removes t c i e) after.
Proof.
  intros Hle. destruct (apply_owners self ttl clock entries new_data Hle) as (sent & d & Hap & Ho).
  exists sent, d. split; [done|]. intros t c node i. rewrite Ho.
  unfold owner_at, get_session_actor_map, new_data, new_map. simpl. rewrite lookup_empty. simpl.
  apply final_owner_spec.
Qed.

(** no session is left running behind the registry's back.  For every registration in a log,
    once the node that made it has applied the log, the instance is still the owner, or an
    entry removed it, or the node has been told to stop it. *)
Theorem displaced_sessions_stopped {M : Type} (ttl : Z) (clock : Z -> nat -> Z)
    (entries : list (Entry SessionActorMapRequest M)) (ent : Entry SessionActorMapRequest M)
    (t c : string) (node : Z) :
  (forall i k, clock i k + ttl <= u64_max) -> StronglySorted index_lt entries ->
  ent ∈ entries -> registers t c node ent ->
  let i := mkInstance (index (log_id ent)) in
  exists replies sent d, apply node ttl clock entries new_data = Ok (replies, sent, d) /\
    (owner_at t c (session_actor_map d) = Some (node, i) \/
     (exists e, e ∈ entries /\ removes t c i e) \/
     ForceStopWithSessionService t c i ∈ sent).
Proof.
  intros Hle Hs Hin Hreg i. induction entries as [|e entries IH] using rev_ind; [by apply elem_of_nil in Hin|].
  apply StronglySorted_app in Hs as (Hlast & Hs & _).
  destruct (apply_owners node ttl clock entries new_data Hle) as (sent & d & Hap & _).
  destruct (apply_entry_owner node ttl clock e d Hle) as (sent1 & d1 & Hap1 & _ & Ho1 & Hstop).
  assert (apply node ttl clock [e] d = Ok ([reply_of e], sent1, d1)) as Hape.
  { simpl. rewrite Hap1. simpl. by rewrite app_nil_r. }
  eexists _, _, _. split; [exact (apply_app _ _ _ _ _ _ _ _ _ _ _ _ Hap Hape)|]. rewrite Ho1.
  apply elem_of_app in Hin as [Hin|Hin%list_elem_of_singleton].
  - destruct (IH Hs Hin) as (replies' & sent' & d' & Hap' & Hcase). rewrite Hap in Hap'. injection Hap' as <- <- <-.
    destruct Hcase as [Hown|[(e' & He' & Hrem)|Hsent]]; [|right; left; exists e'; set_solver|right; right; set_solver].
    destruct (decide (registers_any t c e)) as [[node' Hreg']|Hno].
    + right. right. apply elem_of_app. right. apply Hstop. unfold stop_message.
      rewrite Hreg', Hown, decide_True; [set_solver|]. split; [done|]. unfold i. intros [= Heq].
      specialize (Hlast ent e Hin). unfold index_lt in Hlast. rewrite Heq in Hlast.
      apply (Z.lt_irrefl _ (Hlast (list_elem_of_here _ _))).
    + pose proof (owner_step_other t c e (Some (node, i)) Hno) as Hstep. rewrite Hown.
      destruct Hstep as [[_ Hrem]|[-> _]]; [right; left; exists e; set_solver|by left].
  - subst e. left. by rewrite (owner_step_register _ _ _ _ _ Hreg).
Qed.

(** the listing of expired sessions names exactly the sessions whose lease ended before the
    clock was read for them, each with the node and the instance that own it. *)
Theorem expired_sessions_listed (clock : string -> string -> Z) (st : Storage) (ex : ExpiredSession) :
  ex ∈ get_all_expired_sessions clock st <->
  exists e, get_session_actor_map (ex_tenant_id ex) (ex_session_id ex) st = Some e /\
    expiration_timestamp e < clock (ex_tenant_id ex) (ex_session_id ex) /\
    (ex_node_id ex, ex_session_instance_id ex) = owner_of e.
Proof.
  unfold get_all_expired_sessions, get_session_actor_map. rewrite list_elem_of_In, in_concat. split.
  - intros (l & Hl & Hex). apply in_map_iff in Hl as ([t m] & <- & Htm). apply list_elem_of_In, elem_of_map_to_list in Htm.
    apply in_concat in Hex as (l & Hl & Hex). apply in_map_iff in Hl as ([c e] & <- & Hce).
    apply list_elem_of_In, elem_of_map_to_list in Hce. destruct (expiration_timestamp e <? clock t c) eqn:Hlt; [|done].
    destruct Hex as [<-|[]]. simpl. exists e. rewrite Htm. simpl. by rewrite Hce; apply Z.ltb_lt in Hlt.
  - intros (e & He & Hlt & Hown). apply bind_Some in He as (m & Hm & He). destruct ex as [t c node i]. simpl in *.
    injection Hown as -> ->. eexists. split.
    + apply in_map_iff. exists (t, m). split; [done|]. by apply list_elem_of_In, elem_of_map_to_list.
    + apply in_concat. eexists. split.
      * apply in_map_iff. exists (c, e). split; [done|]. by apply list_elem_of_In, elem_of_map_to_list.
      * rewrite (proj2 (Z.ltb_lt _ _) Hlt). by left.
Qed.

(** *** Witnesses *)

Definition sample_clock (i : Z) (k : nat) : Z := 1000 + i.
Definition map_entry (i : Z) (req : SessionActorMapRequest) : Entry SessionActorMapRequest unit :=
  mkEntry (mkLogId 1 1 i) (Normal req).
Definition sample_registry : list (Entry SessionActorMapRequest unit) :=
  [map_entry 1 (RegisterSession "t" "c" 10); map_entry 2 (RegisterSession "t" "c" 20);
   map_entry 3 (UnregisterSession "t" "c" (mkInstance 1));
   map_entry 4 (SessionLeaseRenewRequest [mkRenew "t" "c" (mkInstance 2)])].

Lemma sample_clock_bound : forall i k, sample_clock (Z.min i 4) k + 60 <= u64_max.
Proof. intros i k. unfold sample_clock, u64_max. lia. Qed.

Lemma registry_owner_witness :
  exists sent d, apply 10 60 (fun i => sample_clock (Z.min i 4)) sample_registry new_data
      = Ok ([Registered (mkInstance 1); Registered (mkInstance 2); RespNone; RespNone], sent, d) /\
    owner_at "t" "c" (session_actor_map d) = Some (20, mkInstance 2).
Proof.
  destruct (registry_owner 10 60 (fun i => sample_clock (Z.min i 4)) sample_registry) as (sent & d & Hap & Ho);
    [exact sample_clock_bound|].
  exists sent, d. split; [exact Hap|]. apply Ho.
  exists [map_entry 1 (RegisterSession "t" "c" 10)], (map_entry 2 (RegisterSession "t" "c" 20)),
    (drop 2 sample_registry). split; [reflexivity|]. split; [reflexivity|]. split; [reflexivity|].
  repeat constructor; (intros [node Hreg]; discriminate) || (intros [Hrem|(ss & node & Hrem & _)]; discriminate).
Defined.

Lemma displaced_sessions_stopped_witness :
  exists replies sent d,
    apply 10 60 (fun i => sample_clock (Z.min i 4)) (take 2 sample_registry) new_data = Ok (replies, sent, d) /\
    (owner_at "t" "c" (session_actor_map d) = Some (10, mkInstance 1) \/
     (exists e, e ∈ take 2 sample_registry /\ removes "t" "c" (mkInstance 1) e) \/
     ForceStopWithSessionService "t" "c" (mkInstance 1) ∈ sent).
Proof.
  apply (displaced_sessions_stopped 60 (fun i => sample_clock (Z.min i 4)) (take 2 sample_registry)
    (map_entry 1 (RegisterSession "t" "c" 10)) "t" "c" 10).
  - exact sample_clock_bound.
  - repeat constructor.
  - apply elem_of_cons. left. reflexivity.
  - reflexivity.
Defined.

(** The registration from node 20 stops the one on node 10, there and nowhere else. *)
Example takeover_messages :
  (match apply 10 60 sample_clock sample_registry new_data with Ok (_, sent, _) => sent | _ => [] end)
    = [ForceStopWithSessionService "t" "c" (mkInstance 1)] /\
  (match apply 20 60 sample_clock sample_registry new_data with Ok (_, sent, _) => sent | _ => [] end) = [].
Proof. vm_compute. done. Qed.
