(* ===== verification/V3Nom.v ===== *)
(** * The parser combinators of the MQTT 3.1.1 codec

    [mqtt/src/v3] is written with the [nom] crate, which is not part of the
    repository: the combinators it uses are a type class, what the crate
    documents of them a second class ([NomSpec]), and the parsers are functions
    of the first.  [run_nom] rewrites with the documented equations.  An
    instance on lists shows that the equations can hold together. *)

From S2P Require Import Prelude Utf8.

(** [nom::Err<nom::error::Error<I>>]; the amount an [Incomplete] asks for and
    the input an error carries are not looked at by the program. *)
Inductive nom_err (K : Type) :=
  | NIncomplete
  | NError (code : K)
  | NFailure (code : K).
Arguments NIncomplete {K}.
Arguments NError {K} code.
Arguments NFailure {K} code.

(** [Fn(I) -> IResult<I, A>], where the body may panic. *)
Definition nom_parser (K I A : Type) : Type := I -> outcome (nom_err K) (I * A).

(** [&[u8]] with the offset of the next bit, the input of [nom::bits]. *)
Definition bit_input : Type := bytes * nat.

Class Nom := {
  ErrorKind : Type;                        (* nom::error::ErrorKind *)
  ErrorKind_eq_dec :: EqDecision ErrorKind;
  Verify : ErrorKind;
  MapRes : ErrorKind;
  nom_map : forall {I A C}, nom_parser ErrorKind I A -> (A -> C) -> nom_parser ErrorKind I C;
  nom_flat_map : forall {I A C}, nom_parser ErrorKind I A -> (A -> nom_parser ErrorKind I C) ->
    nom_parser ErrorKind I C;
  (* sequence::tuple of two; a longer tuple is nested *)
  nom_tuple : forall {I A C}, nom_parser ErrorKind I A -> nom_parser ErrorKind I C ->
    nom_parser ErrorKind I (A * C);
  nom_map_res : forall {I E A C}, nom_parser ErrorKind I A -> (A -> outcome E C) ->
    nom_parser ErrorKind I C;
  nom_verify : forall {I A}, nom_parser ErrorKind I A -> (A -> bool) -> nom_parser ErrorKind I A;
  nom_many0 : forall {A}, nom_parser ErrorKind bytes A -> nom_parser ErrorKind bytes (list A);
  nom_consumed : forall {A}, nom_parser ErrorKind bytes A ->
    nom_parser ErrorKind bytes (bytes * A);
  nom_rest : nom_parser ErrorKind bytes bytes;
  streaming_take : Z -> nom_parser ErrorKind bytes bytes;     (* bytes::streaming::take *)
  complete_take : Z -> nom_parser ErrorKind bytes bytes;      (* bytes::complete::take *)
  streaming_be_u8 : nom_parser ErrorKind bytes Z;             (* number::streaming *)
  streaming_be_u16 : nom_parser ErrorKind bytes Z;
  complete_be_u8 : nom_parser ErrorKind bytes Z;              (* number::complete *)
  complete_be_u16 : nom_parser ErrorKind bytes Z;
  (* bytes::streaming::take_while_m_n *)
  take_while_m_n : nat -> nat -> (Z -> bool) -> nom_parser ErrorKind bytes bytes;
  bits : forall {A}, nom_parser ErrorKind bit_input A -> nom_parser ErrorKind bytes A;
  bits_take : nat -> nom_parser ErrorKind bit_input Z;        (* bits::streaming::take *)
}.

Abbreviation parser := (nom_parser ErrorKind).
Abbreviation Nerr := (nom_err ErrorKind).

(** The number of leading bytes that satisfy [cond]. *)
Fixpoint prefix_len (cond : Z -> bool) (l : bytes) : nat :=
  match l with
  | b :: l => if cond b then S (prefix_len cond l) else 0
  | [] => 0
  end.

(** The documented behaviour. *)
Class NomSpec (N : Nom) : Prop := {
  verify_not_map_res : MapRes <> Verify;
  nom_map_spec : forall I A C (p : parser I A) (f : A -> C) i,
    nom_map p f i = '(i, a) ← p i; Ok (i, f a);
  nom_flat_map_spec : forall I A C (p : parser I A) (f : A -> parser I C) i,
    nom_flat_map p f i = '(i, a) ← p i; f a i;
  nom_tuple_spec : forall I A C (p : parser I A) (q : parser I C) i,
    nom_tuple p q i = '(i, a) ← p i; '(i, c) ← q i; Ok (i, (a, c));
  (* map_res: a closure that fails gives the error code MapRes *)
  nom_map_res_spec : forall I E A C (p : parser I A) (f : A -> outcome E C) i,
    nom_map_res p f i =
      '(i, a) ← p i;
      match f a with
      | Ok c => Ok (i, c)
      | Err _ => Err (NError MapRes)
      | Panic => Panic
      | OutOfFuel => OutOfFuel
      end;
  nom_verify_spec : forall I A (p : parser I A) (f : A -> bool) i,
    nom_verify p f i = '(i, a) ← p i; if f a then Ok (i, a) else Err (NError Verify);
  (* many0 stops at the first error, and a parser that returns consumes input *)
  nom_many0_stop : forall A (p : parser bytes A) i k,
    p i = Err (NError k) -> nom_many0 p i = Ok (i, []);
  nom_many0_step : forall A (p : parser bytes A) i i' a,
    p i = Ok (i', a) -> (length i' < length i)%nat ->
    nom_many0 p i = '(i, l) ← nom_many0 p i'; Ok (i, a :: l);
  nom_consumed_spec : forall A (p : parser bytes A) i,
    nom_consumed p i = '(i', a) ← p i; Ok (i', (take (length i - length i') i, a));
  nom_rest_spec : forall i, nom_rest i = Ok ([], i);
  streaming_take_spec : forall n i,
    streaming_take n i =
      if zlen i <? n then Err NIncomplete
      else Ok (drop (Z.to_nat n) i, take (Z.to_nat n) i);
  complete_take_ok : forall n i, n <= zlen i ->
    complete_take n i = Ok (drop (Z.to_nat n) i, take (Z.to_nat n) i);
  complete_take_short : forall n i, zlen i < n -> exists k, complete_take n i = Err (NError k);
  streaming_be_u8_spec : forall i,
    streaming_be_u8 i = match i with b :: i => Ok (i, b) | [] => Err NIncomplete end;
  streaming_be_u16_spec : forall i,
    streaming_be_u16 i =
      match i with b0 :: b1 :: i => Ok (i, from_be_u16 b0 b1) | _ => Err NIncomplete end;
  complete_be_u8_ok : forall b i, complete_be_u8 (b :: i) = Ok (i, b);
  complete_be_u8_short : exists k, complete_be_u8 [] = Err (NError k);
  complete_be_u16_ok : forall b0 b1 i, complete_be_u16 (b0 :: b1 :: i) = Ok (i, from_be_u16 b0 b1);
  complete_be_u16_short : forall i, (length i < 2)%nat ->
    exists k, complete_be_u16 i = Err (NError k);
  (* the longest prefix of at most [n] bytes, once it cannot grow any more *)
  take_while_m_n_spec : forall m n cond i, (m <= prefix_len cond i)%nat ->
    take_while_m_n m n cond i =
      let k := prefix_len cond i in
      if decide (k = length i /\ k < n)%nat then Err NIncomplete
      else Ok (drop (Nat.min k n) i, take (Nat.min k n) i);
  (* a bit parser starts at the first bit; a byte it began is consumed *)
  bits_ok : forall A (p : parser bit_input A) i rest o a,
    p (i, 0%nat) = Ok ((rest, o), a) ->
    bits p i = Ok (if decide (o = 0%nat) then rest else drop 1 rest, a);
  bits_incomplete : forall A (p : parser bit_input A) i,
    p (i, 0%nat) = Err NIncomplete -> bits p i = Err NIncomplete;
  (* the next [n] bits of a byte, most significant first *)
  bits_take_ok : forall n o b i, is_u8 b -> (0 < n)%nat -> (o + n <= 8)%nat ->
    bits_take n (b :: i, o) =
      Ok (if decide (o + n = 8)%nat then (i, 0%nat) else (b :: i, (o + n)%nat),
          Z.shiftr b (Z.of_nat (8 - o - n)) mod 2 ^ Z.of_nat n);
  bits_take_short : forall n o, (0 < n)%nat -> bits_take n ([], o) = Err NIncomplete;
}.

(** A closure that panics inside [map] unwinds through the combinator. *)
Definition unwind {K I A} (p : nom_parser K I (outcome (nom_err K) A)) : nom_parser K I A :=
  fun i => '(i, m) ← p i; a ← m; Ok (i, a).

Create Rewrite HintDb nom.
#[export] Hint Rewrite @nom_map_spec @nom_flat_map_spec @nom_tuple_spec @nom_map_res_spec
  @nom_verify_spec @nom_consumed_spec @nom_rest_spec @streaming_take_spec
  @streaming_be_u8_spec @streaming_be_u16_spec : nom.

(** ** An instance *)

Inductive error_kind := KVerify | KMapRes | KOther.
#[export] Instance error_kind_eq_dec : EqDecision error_kind.
Proof. solve_decision. Defined.

Fixpoint many0_fuel {A} (p : nom_parser error_kind bytes A) (fuel : nat) (i : bytes)
    : outcome (nom_err error_kind) (bytes * list A) :=
  match fuel, p i with
  | S fuel, Ok (i', a) =>
      if decide (length i' < length i)%nat
      then '(r, l) ← many0_fuel p fuel i'; Ok (r, a :: l)
      else Err (NError KOther)
  | _, Err (NError _) => Ok (i, [])
  | _, Err e => Err e
  | O, Ok _ => Err (NError KOther)
  | _, Panic => Panic
  | _, OutOfFuel => OutOfFuel
  end.

Definition be_value (l : bytes) : Z := fold_left (fun acc b => acc * 256 + b) l 0.

#[export] Instance list_nom : Nom := {|
  ErrorKind := error_kind;
  Verify := KVerify;
  MapRes := KMapRes;
  nom_map := fun _ _ _ p f i => '(i, a) ← p i; Ok (i, f a);
  nom_flat_map := fun _ _ _ p f i => '(i, a) ← p i; f a i;
  nom_tuple := fun _ _ _ p q i => '(i, a) ← p i; '(i, c) ← q i; Ok (i, (a, c));
  nom_map_res := fun _ _ _ _ p f i =>
    '(i, a) ← p i;
    match f a with
    | Ok c => Ok (i, c)
    | Err _ => Err (NError KMapRes)
    | Panic => Panic
    | OutOfFuel => OutOfFuel
    end;
  nom_verify := fun _ _ p f i =>
    '(i, a) ← p i; if f a then Ok (i, a) else Err (NError KVerify);
  nom_many0 := fun _ p i => many0_fuel p (length i) i;
  nom_consumed := fun _ p i => '(i', a) ← p i; Ok (i', (take (length i - length i') i, a));
  nom_rest := fun i => Ok ([], i);
  streaming_take := fun n i =>
    if zlen i <? n then Err NIncomplete else Ok (drop (Z.to_nat n) i, take (Z.to_nat n) i);
  complete_take := fun n i =>
    if zlen i <? n then Err (NError KOther) else Ok (drop (Z.to_nat n) i, take (Z.to_nat n) i);
  streaming_be_u8 := fun i => match i with b :: i => Ok (i, b) | [] => Err NIncomplete end;
  streaming_be_u16 := fun i =>
    match i with b0 :: b1 :: i => Ok (i, from_be_u16 b0 b1) | _ => Err NIncomplete end;
  complete_be_u8 := fun i => match i with b :: i => Ok (i, b) | [] => Err (NError KOther) end;
  complete_be_u16 := fun i =>
    match i with b0 :: b1 :: i => Ok (i, from_be_u16 b0 b1) | _ => Err (NError KOther) end;
  take_while_m_n := fun m n cond i =>
    let k := prefix_len cond i in
    if decide (k < m)%nat then Err (NError KOther)
    else if decide (k = length i /\ k < n)%nat then Err NIncomplete
    else Ok (drop (Nat.min k n) i, take (Nat.min k n) i);
  bits := fun _ p i =>
    match p (i, 0%nat) with
    | Ok ((rest, o), a) => Ok (if decide (o = 0%nat) then rest else drop 1 rest, a)
    | Err e => Err e
    | Panic => Panic
    | OutOfFuel => OutOfFuel
    end;
  bits_take := fun n '(i, o) =>
    let c := ((o + n + 7) / 8)%nat in
    if decide (length i * 8 < o + n)%nat then Err NIncomplete
    else Ok ((drop ((o + n) / 8) i, ((o + n) mod 8)%nat),
             Z.shiftr (be_value (take c i)) (Z.of_nat (8 * c - o - n)) mod 2 ^ Z.of_nat n);
|}.

Lemma many0_fuel_enough {A} (p : nom_parser error_kind bytes A) : forall n m i,
  (length i <= n)%nat -> (length i <= m)%nat -> many0_fuel p n i = many0_fuel p m i.
Proof.
  induction n as [|n IH]; intros [|m] i Hn Hm; simpl; [done|..];
    destruct (p i) as [[i' a]|[]| |]; try done.
  - destruct (decide _); [lia|]. destruct i; simpl in *; [|lia]. done.
  - destruct (decide _); [lia|]. done.
  - destruct (decide _); [|done]. by rewrite (IH m i') by lia.
Qed.

#[export] Instance list_nom_spec : NomSpec list_nom.
Proof.
  split; cbn [nom_map nom_flat_map nom_tuple nom_map_res nom_verify nom_many0 nom_consumed nom_rest
    streaming_take complete_take streaming_be_u8 streaming_be_u16 complete_be_u8 complete_be_u16
    take_while_m_n bits bits_take list_nom]; try done.
  - intros A p i k H. destruct (length i); simpl; by rewrite H.
  - intros A p i i' a H Hl. destruct (length i) as [|n] eqn:E; [lia|]. simpl.
    rewrite H, decide_True by lia. by rewrite (many0_fuel_enough p n (length i')) by lia.
  - intros n i H. by rewrite (proj2 (Z.ltb_ge _ _)).
  - intros n i H. rewrite (proj2 (Z.ltb_lt _ _)) by done. by eexists.
  - by eexists.
  - intros [|? [|? ?]] H; simpl in H; try lia; by eexists.
  - intros m n cond i H. by rewrite (decide_False (P := (_ < m)%nat)) by lia.
  - intros A p i rest o a ->. done.
  - intros A p i ->. done.
  - intros n o b i Hb Hn Ho.
    rewrite decide_False by (simpl; lia).
    assert ((o + n + 7) / 8 = 1)%nat as ->
      by (symmetry; apply Nat.div_unique with (o + n + 7 - 8)%nat; lia).
    cbn [take]. replace (8 * 1 - o - n)%nat with (8 - o - n)%nat by lia.
    destruct (decide (o + n = 8)%nat) as [E|E].
    + rewrite E. done.
    + rewrite Nat.div_small, Nat.mod_small by lia. done.
  - intros n o Hn. by rewrite decide_True by (simpl; lia).
Qed.
