(* ===== verification/V3FixedHeader.v ===== *)
(** * Fixed header of MQTT 3.1.1 packets ([mqtt/src/v3/fixed_header.rs])

    The parser and the two encoders of the fixed header, the closed form of
    what they read and write, and that the parser reads back what the encoders
    write.  The packet type of the first four bits is matched with a [panic!]
    for the two reserved values. *)

From S2P Require Import Prelude Utf8 Buf V5Common V3Nom.

Inductive PacketType :=
  | CONNECT | CONNACK | PUBLISH | PUBACK | PUBREC | PUBREL | PUBCOMP
  | SUBSCRIBE | SUBACK | UNSUBSCRIBE | UNSUBACK | PINGREQ | PINGRESP | DISCONNECT.
#[export] Instance PacketType_eq_dec : EqDecision PacketType.
Proof. solve_decision. Defined.

Record FixHeader := mkFixHeader {
  fx_packet_type : PacketType;
  fx_qos : option Z;
  fx_retain : option bool;
  fx_dup : option Z;
  fx_remaining_length : Z;
}.

(** Checked arithmetic of [i32] and [u8] ([+], [*], [+=]). *)
Definition i32_checked {E} (z : Z) : outcome E Z :=
  if (-2147483648 <=? z) && (z <=? 2147483647) then Ok z else Panic.
Definition u8_checked {E} (z : Z) : outcome E Z :=
  if (0 <=? z) && (z <=? 255) then Ok z else Panic.
(** [u8 << n] drops the high bits, [as u8] and [as usize] wrap. *)
Definition shl_u8 (z n : Z) : Z := Z.shiftl z n mod 256.
Definition cast_u8 (z : Z) : Z := z mod 256.
Definition as_usize (z : Z) : Z := z mod 18446744073709551616.
(** [u8::try_from(z).expect(..)]. *)
Definition expect_u8 {E} (z : Z) : outcome E Z := if z <=? 255 then Ok z else Panic.

Definition has_next (i : Z) : bool := negb (Z.land i 128 =? 0).

(** [for u in length.iter() { v += ..; multiplier *= 128 }]. *)
Fixpoint remaining_length_loop {E} (length : bytes) (v multiplier : Z) : outcome E (Z * Z) :=
  match length with
  | [] => Ok (v, multiplier)
  | u :: length =>
      summand ← i32_checked (Z.land u 127 * multiplier);
      v ← i32_checked (v + summand);
      multiplier ← i32_checked (multiplier * 128);
      remaining_length_loop length v multiplier
  end.

(** [for u in vv.iter() { v += .. }]. *)
Fixpoint remaining_length_last {E} (vv : bytes) (v multiplier : Z) : outcome E Z :=
  match vv with
  | [] => Ok v
  | u :: vv =>
      summand ← i32_checked (Z.land u 127 * multiplier);
      v ← i32_checked (v + summand);
      remaining_length_last vv v multiplier
  end.

Section Parse.
Context {N : Nom}.

Definition remaining_length : parser bytes Z := fun input =>
  '(i, length) ← take_while_m_n 0 3 has_next input;
  '(v, multiplier) ← remaining_length_loop length 0 1;
  '(ii, vv) ← streaming_take 1 i;
  v ← remaining_length_last vv v multiplier;
  Ok (ii, as_usize v).

(** [match packet_type_u { .. _ => panic!(..) }]. *)
Definition packet_type_of {E} (packet_type_u : Z) : outcome E PacketType :=
  match packet_type_u with
  | 1 => Ok CONNECT
  | 2 => Ok CONNACK
  | 3 => Ok PUBLISH
  | 4 => Ok PUBACK
  | 5 => Ok PUBREC
  | 6 => Ok PUBREL
  | 7 => Ok PUBCOMP
  | 8 => Ok SUBSCRIBE
  | 9 => Ok SUBACK
  | 10 => Ok UNSUBSCRIBE
  | 11 => Ok UNSUBACK
  | 12 => Ok PINGREQ
  | 13 => Ok PINGRESP
  | 14 => Ok DISCONNECT
  | _ => Panic
  end.

Definition parse : parser bytes FixHeader := fun input =>
  '(i, (packet_type_u, (dup_u, (qos_u, retain_u)))) ←
    bits (nom_tuple (bits_take 4) (nom_tuple (bits_take 1)
           (nom_tuple (bits_take 2) (bits_take 1)))) input;
  packet_type ← packet_type_of packet_type_u;
  let qos := if decide (packet_type = PUBLISH) then Some qos_u else None in
  let retain := if decide (packet_type = PUBLISH) then Some (retain_u =? 1) else None in
  let dup :=
    match packet_type with
    | PUBLISH | PUBREC | PUBACK | PUBREL | PUBCOMP => Some dup_u
    | _ => None
    end in
  '(i, remaining_length) ← remaining_length i;
  Ok (i, mkFixHeader packet_type qos retain dup remaining_length).

End Parse.

(** [packet_type_u8] of the two encoders. *)
Definition packet_type_u8 (t : PacketType) : Z :=
  match t with
  | CONNECT => 1
  | CONNACK => 2
  | PUBLISH => 3
  | PUBACK => 4
  | PUBREC => 5
  | PUBREL => 6
  | PUBCOMP => 7
  | SUBSCRIBE => 8
  | SUBACK => 9
  | UNSUBSCRIBE => 10
  | UNSUBACK => 11
  | PINGREQ => 12
  | PINGRESP => 13
  | DISCONNECT => 14
  end.

Section Encode.
Context {B : BytesCrate}.

(** [fn(&self, buf: &mut BytesMut)]: it can only return or panic. *)
Abbreviation encoder3 := (writer Empty_set unit).

(** The first byte [r], the same statements in [ecnode] and [to_bytes]. *)
Definition header_first_byte (h : FixHeader) : outcome Empty_set Z :=
  let t := fx_packet_type h in
  if bool_decide (t = PUBLISH) || bool_decide (t = PUBREL) || bool_decide (t = PUBACK)
     || bool_decide (t = PUBCOMP) || bool_decide (t = PUBREC)
  then
    let r := shl_u8 (packet_type_u8 t) 4 in
    r ← match fx_dup h with
        | Some dup => u8_checked (r + shl_u8 (cast_u8 dup) 3)
        | None => Ok r
        end;
    r ← match fx_qos h with
        | Some qos => u8_checked (r + shl_u8 (cast_u8 qos) 1)
        | None => Ok r
        end;
    match fx_retain h with
    | Some true => u8_checked (r + 1)
    | _ => Ok r
    end
  else Ok (shl_u8 (packet_type_u8 t) 4).

(** The [loop] of [encode_remaining_length]: a [usize] has at most ten groups
    of seven bits, so ten iterations of fuel. *)
Fixpoint encode_remaining_length_loop (fuel : nat) (size : Z) : encoder3 :=
  match fuel with
  | O => lift OutOfFuel
  | S fuel =>
      let byte := size mod 128 in
      let size := size / 128 in
      if 0 <? size then
        byte ← lift (expect_u8 (Z.lor byte 128));
        put_u8 byte;;
        encode_remaining_length_loop fuel size
      else
        byte ← lift (expect_u8 byte);
        put_u8 byte
  end.
Definition encode_remaining_length (size : Z) : encoder3 := encode_remaining_length_loop 10 size.

Definition ecnode (h : FixHeader) : encoder3 :=
  r ← lift (header_first_byte h);
  put_u8 r;;
  encode_remaining_length (fx_remaining_length h).

(** The [loop] of [get_variable_length_encoding_bytes_size]. *)
Fixpoint bytes_size_loop (fuel : nat) (size length : Z) : outcome Empty_set Z :=
  match fuel with
  | O => OutOfFuel
  | S fuel =>
      let size := size / 128 in
      let length := length + 1 in
      if size =? 0 then Ok length else bytes_size_loop fuel size length
  end.
Definition get_variable_length_encoding_bytes_size (size : Z) : outcome Empty_set Z :=
  bytes_size_loop 10 size 0.

(** [get_variable_length_encoding]: the loop of [encode_remaining_length] on a
    buffer of its own, allocated with the capacity computed before. *)
Definition get_variable_length_encoding (size : Z) : outcome Empty_set BytesMut :=
  get_variable_length_encoding_bytes_size size;;
  with_new_buffer (encode_remaining_length_loop 10 size).

Definition to_bytes (h : FixHeader) : outcome Empty_set BytesMut :=
  get_variable_length_encoding_bytes_size (fx_remaining_length h);;
  with_new_buffer (
    r ← lift (header_first_byte h);
    put_u8 r;;
    encoding ← lift (get_variable_length_encoding (fx_remaining_length h));
    extend_from_slice (bm_slice encoding)).

End Encode.
Abbreviation encoder3 := (writer Empty_set unit).

(** ** What the parser reads *)

(** The bytes of a remaining length: up to three with the continuation bit and one more. *)
Fixpoint rl_split (n : nat) (i : bytes) : option (bytes * bytes) :=
  match i with
  | [] => None
  | b :: i =>
      match n with
      | S n =>
          if has_next b then '(pre, rest) ← rl_split n i; Some (b :: pre, rest)
          else Some ([b], i)
      | O => Some ([b], i)
      end
  end.

Definition rl_value (l : bytes) : Z := foldr (fun b acc => b mod 128 + 128 * acc) 0 l.

Lemma rl_split_take n : forall i,
  rl_split n i =
    let k := Nat.min (prefix_len has_next i) n in
    if decide (k < length i)%nat then Some (take (S k) i, drop (S k) i) else None.
Proof.
  induction n as [|n IH]; intros [|b i]; cbn [rl_split prefix_len]; try done.
  - rewrite Nat.min_0_r, decide_True by (simpl; lia). done.
  - destruct (has_next b); [|done]. rewrite IH. cbn [Nat.min length]. cbv zeta.
    destruct (decide _); [rewrite decide_True by lia|rewrite decide_False by lia]; done.
Qed.

Lemma rl_value_bound l : 0 <= rl_value l < 128 ^ Z.of_nat (length l).
Proof.
  induction l as [|b l IH]; [done|]. cbn [rl_value foldr length]. fold (rl_value l).
  rewrite Nat2Z.inj_succ, Z.pow_succ_r by lia. pose proof (Z.mod_pos_bound b 128). lia.
Qed.

Lemma rl_value_snoc l b :
  rl_value (l ++ [b]) = rl_value l + b mod 128 * 128 ^ Z.of_nat (length l).
Proof.
  induction l as [|c l IH]; cbn [app rl_value foldr length].
  - rewrite Z.pow_0_r. lia.
  - fold (rl_value l) (rl_value (l ++ [b])). rewrite IH, Nat2Z.inj_succ, Z.pow_succ_r by lia. lia.
Qed.

Lemma i32_checked_ok {E} z : 0 <= z <= 2147483647 -> @i32_checked E z = Ok z.
Proof.
  intros H. unfold i32_checked. by rewrite !(proj2 (Z.leb_le _ _)) by lia.
Qed.

Lemma loop_run {E} l : forall v m,
  is_bytes l -> 0 <= v < m -> m * 128 ^ Z.of_nat (length l) <= 2147483647 ->
  @remaining_length_loop E l v m = Ok (v + m * rl_value l, m * 128 ^ Z.of_nat (length l)).
Proof.
  induction l as [|b l IH]; intros v m Hl Hv Hm.
  - cbn [remaining_length_loop rl_value foldr length]. do 2 f_equal; lia.
  - inversion Hl as [|? ? Hb Hl']; subst. cbn [length] in Hm. rewrite Nat2Z.inj_succ, Z.pow_succ_r in Hm by lia.
    assert (1 <= 128 ^ Z.of_nat (length l)) by (apply (Z.pow_le_mono_r 128 0); lia).
    assert (m * 128 <= m * 128 * 128 ^ Z.of_nat (length l)) by nia.
    pose proof (Z.mod_pos_bound b 128 ltac:(lia)).
    cbn [remaining_length_loop]. rewrite land_7f by done.
    rewrite i32_checked_ok by nia. cbn [mbind outcome_bind].
    rewrite i32_checked_ok by nia. cbn [mbind outcome_bind].
    rewrite i32_checked_ok by nia. cbn [mbind outcome_bind].
    rewrite IH by (done || nia). cbn [rl_value foldr length]. fold (rl_value l).
    rewrite Nat2Z.inj_succ, Z.pow_succ_r by lia. do 2 f_equal; lia.
Qed.

Section ParseLemmas.
Context {N : Nom} {NS : NomSpec N}.

(** The arithmetic never overflows: the length is at most 268435455. *)
Lemma remaining_length_run i :
  is_bytes i ->
  remaining_length i =
    match rl_split 3 i with
    | Some (pre, rest) => Ok (rest, rl_value pre)
    | None => Err NIncomplete
    end.
Proof.
  intros Hi. unfold remaining_length. rewrite take_while_m_n_spec, rl_split_take by lia.
  cbv zeta. set (k := prefix_len has_next i).
  assert (k <= length i)%nat as Hk by (unfold k; clear; induction i; simpl; [lia|case_match; simpl; lia]).
  destruct (decide (k = length i /\ k < 3)%nat) as [[? ?]|Hn].
  { rewrite decide_False by lia. done. }
  set (j := Nat.min k 3). cbn [mbind outcome_bind].
  assert (length (take j i) <= 3)%nat by (rewrite length_take; lia).
  assert (128 ^ Z.of_nat (length (take j i)) <= 128 ^ 3) by (apply Z.pow_le_mono_r; lia).
  rewrite loop_run by (auto using is_bytes_take || lia). cbn [mbind outcome_bind].
  rewrite streaming_take_spec. unfold zlen. rewrite length_drop.
  destruct (decide (j < length i)%nat) as [Hj|Hj];
    [rewrite (proj2 (Z.ltb_ge _ _)) by lia|rewrite (proj2 (Z.ltb_lt _ _)) by lia; done].
  destruct (lookup_lt_is_Some_2 i j Hj) as [b Hb].
  rewrite (drop_S _ _ _ Hb). change (Z.to_nat 1) with 1%nat. cbn [take drop mbind outcome_bind].
  rewrite (take_S_r _ _ _ Hb), rl_value_snoc. cbn [remaining_length_last].
  assert (is_u8 b) as Hb8 by (by eapply Forall_lookup_1).
  rewrite land_7f by done. pose proof (Z.mod_pos_bound b 128 ltac:(lia)).
  pose proof (rl_value_bound (take j i)).
  assert (0 < 128 ^ Z.of_nat (length (take j i))) by lia.
  change (128 ^ 3) with 2097152 in *.
  set (w := 128 ^ Z.of_nat (length (take j i))) in *. rewrite Z.mul_1_l.
  assert (0 <= b mod 128 * w <= 127 * w) by nia.
  rewrite i32_checked_ok by lia. cbn [mbind outcome_bind].
  rewrite i32_checked_ok by lia. cbn [mbind outcome_bind].
  rewrite take_0, drop_0. cbn [remaining_length_last mbind outcome_bind].
  unfold as_usize. rewrite Z.mod_small by lia. do 2 f_equal. lia.
Qed.

(** The header a first byte and a length stand for. *)
Definition header_view (t : PacketType) (b len : Z) : FixHeader :=
  mkFixHeader t
    (if decide (t = PUBLISH) then Some (b / 2 mod 4) else None)
    (if decide (t = PUBLISH) then Some (b mod 2 =? 1) else None)
    (match t with
     | PUBLISH | PUBREC | PUBACK | PUBREL | PUBCOMP => Some (b / 8 mod 2)
     | _ => None
     end) len.

Lemma parse_cons b i :
  is_u8 b ->
  parse (b :: i) =
    (t ← packet_type_of (b / 16);
     '(i, len) ← remaining_length i;
     Ok (i, header_view t b len)).
Proof.
  intros Hb. unfold parse. set (p := nom_tuple (bits_take 4) _).
  assert (p (b :: i, 0%nat) =
    Ok ((i, 0%nat), (b / 16, (b / 8 mod 2, (b / 2 mod 4, b mod 2))))) as Hp.
  { unfold p. rewrite nom_tuple_spec, bits_take_ok by (done || lia). cbn [mbind outcome_bind].
    rewrite decide_False by lia. rewrite nom_tuple_spec, bits_take_ok by (done || lia).
    cbn [mbind outcome_bind]. rewrite decide_False by lia.
    rewrite nom_tuple_spec, bits_take_ok by (done || lia).
    cbn [mbind outcome_bind]. rewrite decide_False by lia.
    rewrite bits_take_ok by (done || lia). cbn [mbind outcome_bind]. rewrite decide_True by lia.
    simpl Nat.sub. simpl Z.of_nat. rewrite !Z.shiftr_div_pow2 by lia.
    unfold is_u8 in Hb. change (2 ^ 4) with 16. change (2 ^ 0) with 1.
    rewrite Z.div_1_r, (Z.mod_small (b / 16)); [done|].
    Z.to_euclidean_division_equations; lia. }
  rewrite (bits_ok _ _ _ _ _ _ Hp). cbn [mbind outcome_bind]. rewrite decide_True by done.
  destruct (packet_type_of (b / 16)); try done.
Qed.

Lemma parse_nil : parse [] = Err NIncomplete.
Proof.
  unfold parse. rewrite bits_incomplete; [done|].
  rewrite nom_tuple_spec, bits_take_short by lia. done.
Qed.

End ParseLemmas.

(** A remaining length arrives byte by byte. *)
Lemma rl_split_streaming n : forall i pre rest,
  rl_split n i = Some (pre, rest) ->
  i = pre ++ rest /\ (1 <= length pre <= S n)%nat /\
  (forall more, rl_split n (pre ++ more) = Some (pre, more)) /\
  (forall j, (j < length pre)%nat -> rl_split n (take j pre) = None).
Proof.
  induction n as [|n IH]; intros [|b i] pre rest H; cbn [rl_split] in H; try done.
  { injection H as <- <-. repeat split; try (simpl; lia). intros [|j] Hj; [done|simpl in Hj; lia]. }
  destruct (has_next b) eqn:Hb.
  - destruct (rl_split n i) as [[pre' rest']|] eqn:Hs; [|done]. injection H as <- <-.
    destruct (IH _ _ _ Hs) as (-> & Hl & Hmore & Hinc). repeat split; try (simpl; lia).
    + intros more. cbn [app rl_split]. by rewrite Hb, Hmore.
    + intros [|j] Hj; [done|]. cbn [take rl_split]. simpl in Hj. by rewrite Hb, Hinc by lia.
  - injection H as <- <-. repeat split; try (simpl; lia).
    + intros more. cbn [app rl_split]. by rewrite Hb.
    + intros [|j] Hj; [done|simpl in Hj; lia].
Qed.

Lemma has_next_ltb b : is_u8 b -> has_next b = negb (b <? 128).
Proof. intros H. unfold has_next. by rewrite land_80. Qed.

(** The canonical encoding is read back. *)
Lemma rl_split_vbi v rest :
  0 <= v <= MAX_VARIABLE_BYTE_INTEGER -> rl_split 3 (vbi_bytes v ++ rest) = Some (vbi_bytes v, rest).
Proof.
  unfold MAX_VARIABLE_BYTE_INTEGER, vbi_bytes. intros Hv.
  assert (forall x, 0 <= x < 128 -> has_next (128 + x) = true) as Hmore.
  { intros x Hx. rewrite has_next_ltb by (unfold is_u8; lia). by rewrite (proj2 (Z.ltb_ge _ _)) by lia. }
  assert (forall x, 0 <= x < 128 -> has_next x = false) as Hlast.
  { intros x Hx. rewrite has_next_ltb by (unfold is_u8; lia). by rewrite (proj2 (Z.ltb_lt _ _)) by lia. }
  destruct (Z.ltb_spec v 128), (Z.ltb_spec v 16384), (Z.ltb_spec v 2097152); try lia;
    cbn [app rl_split]; rewrite ?Hmore by (apply Z.mod_pos_bound; lia);
    rewrite ?Hlast by (Z.to_euclidean_division_equations; lia); done.
Qed.

Lemma rl_value_vbi v :
  0 <= v <= MAX_VARIABLE_BYTE_INTEGER -> rl_value (vbi_bytes v) = v.
Proof.
  unfold MAX_VARIABLE_BYTE_INTEGER, vbi_bytes. intros Hv.
  destruct (Z.ltb_spec v 128), (Z.ltb_spec v 16384), (Z.ltb_spec v 2097152); try lia;
    cbn [rl_value foldr]; Z.to_euclidean_division_equations; lia.
Qed.

(** ** What the encoders write *)

(** The packet types whose first byte carries flags. *)
Definition flagged (t : PacketType) : bool :=
  match t with PUBLISH | PUBREL | PUBACK | PUBCOMP | PUBREC => true | _ => false end.

(** A header the encoders can write. *)
Definition wf_fix_header (h : FixHeader) : Prop :=
  match fx_dup h with Some dup => 0 <= dup <= 1 | None => True end /\
  match fx_qos h with Some qos => 0 <= qos <= 3 | None => True end /\
  0 <= fx_remaining_length h <= MAX_VARIABLE_BYTE_INTEGER.

Definition header_byte (h : FixHeader) : Z :=
  16 * packet_type_u8 (fx_packet_type h)
  + (if flagged (fx_packet_type h)
     then 8 * default 0 (fx_dup h) + 2 * default 0 (fx_qos h) + Z.b2z (default false (fx_retain h))
     else 0).

Definition header_bytes (h : FixHeader) : bytes :=
  header_byte h :: vbi_bytes (fx_remaining_length h).

Lemma packet_type_u8_bound t : 1 <= packet_type_u8 t <= 14.
Proof. by destruct t. Qed.

Lemma packet_type_of_u8 {E} t : @packet_type_of E (packet_type_u8 t) = Ok t.
Proof. by destruct t. Qed.

Lemma header_first_byte_run h : wf_fix_header h -> header_first_byte h = Ok (header_byte h).
Proof.
  intros (Hd & Hq & _). unfold header_first_byte, header_byte.
  pose proof (packet_type_u8_bound (fx_packet_type h)) as Ht.
  assert (forall z, 0 <= z <= 255 -> @u8_checked Empty_set z = Ok z) as Hc.
  { intros z Hz. unfold u8_checked. by rewrite !(proj2 (Z.leb_le _ _)) by lia. }
  assert (shl_u8 (packet_type_u8 (fx_packet_type h)) 4 = 16 * packet_type_u8 (fx_packet_type h)) as ->.
  { unfold shl_u8. rewrite Z.shiftl_mul_pow2, Z.mod_small by lia. lia. }
  replace (_ || _ || _ || _ || _) with (flagged (fx_packet_type h)) by (by destruct (fx_packet_type h)).
  destruct (flagged _); [|by rewrite Z.add_0_r].
  assert (forall x n, 0 <= x <= 3 -> 0 <= n <= 3 -> shl_u8 (cast_u8 x) n = x * 2 ^ n) as Hs.
  { intros x n Hx Hn. unfold shl_u8, cast_u8. rewrite (Z.mod_small x), Z.shiftl_mul_pow2 by lia.
    assert (2 ^ n <= 2 ^ 3) by (apply Z.pow_le_mono_r; lia). pose proof (Z.pow_nonneg 2 n).
    apply Z.mod_small. nia. }
  destruct (fx_dup h) as [d|], (fx_qos h) as [q|], (fx_retain h) as [[]|]; cbn [default mbind outcome_bind Z.b2z];
    rewrite ?Hs by lia; change (2 ^ 3) with 8; change (2 ^ 1) with 2;
    repeat (rewrite Hc by lia; cbn [mbind outcome_bind]); apply (f_equal Ok); simpl; lia.
Qed.

Section EncodeLemmas.
Context {B : BytesCrate} {BS : BytesCrateSpec B}.

(** The two branches of the loop. *)
Lemma writes_rl_more n v o :
  128 <= v -> writes (encode_remaining_length_loop n (v / 128)) true o ->
  writes (encode_remaining_length_loop (S n) v) true ((128 + v mod 128) :: o).
Proof.
  intros Hv Ho. cbn [encode_remaining_length_loop].
  rewrite (proj2 (Z.ltb_lt _ _)) by (Z.to_euclidean_division_equations; lia).
  pose proof (Z.mod_pos_bound v 128 ltac:(lia)). rewrite lor_80 by lia.
  unfold expect_u8. rewrite (proj2 (Z.leb_le _ _)) by lia. apply writes_lift; [done|].
  exact (writes_bind (writes_put_u8 _) Ho).
Qed.

Lemma writes_rl_last n v :
  0 <= v < 128 -> writes (encode_remaining_length_loop (S n) v) true [v].
Proof.
  intros Hv. cbn [encode_remaining_length_loop]. rewrite Z.div_small, Z.mod_small by lia.
  change (0 <? 0) with false. cbv iota. unfold expect_u8. rewrite (proj2 (Z.leb_le _ _)) by lia.
  apply writes_lift; [done|]. apply writes_put_u8.
Qed.

Lemma writes_remaining_length v :
  0 <= v <= MAX_VARIABLE_BYTE_INTEGER ->
  writes (encode_remaining_length_loop 10 v) true (vbi_bytes v).
Proof.
  unfold MAX_VARIABLE_BYTE_INTEGER, vbi_bytes. intros Hv.
  assert (v / 16384 = v / 128 / 128) as E2 by (by rewrite Z.div_div by lia).
  assert (v / 2097152 = v / 128 / 128 / 128) as E3 by (by rewrite !Z.div_div by lia).
  rewrite E2, E3. clear E2 E3.
  repeat case_match; repeat (apply writes_rl_more; [Z.to_euclidean_division_equations; lia|]);
    apply writes_rl_last; Z.to_euclidean_division_equations; lia.
Qed.

Lemma bytes_size_run v :
  0 <= v <= MAX_VARIABLE_BYTE_INTEGER ->
  get_variable_length_encoding_bytes_size v = Ok (zlen (vbi_bytes v)).
Proof.
  unfold MAX_VARIABLE_BYTE_INTEGER, get_variable_length_encoding_bytes_size, vbi_bytes. intros Hv.
  assert (forall n x l, 0 <= x < 128 -> bytes_size_loop (S n) x l = Ok (l + 1)) as Hlast.
  { intros n x l Hx. cbn [bytes_size_loop]. by rewrite Z.div_small by lia. }
  assert (forall n x l, 128 <= x -> bytes_size_loop (S n) x l = bytes_size_loop n (x / 128) (l + 1)) as Hmore.
  { intros n x l Hx. cbn [bytes_size_loop]. destruct (Z.eqb_spec (x / 128) 0); [|done].
    Z.to_euclidean_division_equations; lia. }
  repeat case_match; rewrite ?Hmore, Hlast by (Z.to_euclidean_division_equations; lia); done.
Qed.

Lemma writes_ecnode h : wf_fix_header h -> writes (ecnode h) true (header_bytes h).
Proof.
  intros Hh. unfold ecnode. rewrite header_first_byte_run by done. apply writes_lift; [done|].
  exact (writes_bind (writes_put_u8 _) (writes_remaining_length _ (proj2 (proj2 Hh)))).
Qed.

(** The second encoder writes the same bytes. *)
Lemma to_bytes_run h :
  wf_fix_header h -> exists b, to_bytes h = Ok b /\ bm_slice b = header_bytes h.
Proof.
  intros Hh. destruct (Hh) as (_ & _ & Hl). unfold to_bytes, get_variable_length_encoding.
  rewrite bytes_size_run by done. cbn [mbind outcome_bind].
  pose proof (wp_with_new_buffer _ _ _ (writes_remaining_length _ Hl)) as He.
  destruct (with_new_buffer _) as [e|?| |] eqn:Ee; try done. destruct He as (_ & _ & Hs).
  set (w := lift (header_first_byte h) ≫= _).
  assert (writes w true (header_bytes h)) as Hw.
  { unfold w. rewrite header_first_byte_run by done. apply writes_lift; [done|].
    refine (writes_bind (ok2 := true) (writes_put_u8 _) _). apply writes_lift; [done|].
    rewrite Hs. apply writes_extend. }
  pose proof (wp_with_new_buffer _ _ _ Hw) as H. destruct (with_new_buffer w) as [b|?| |]; try done.
  destruct H as (_ & _ & Hb). eauto.
Qed.

End EncodeLemmas.

(** ** Round trip *)

(** The header the parser sees behind a header that was written: the flags of a
    PUBLISH, and the duplicate flag of an acknowledgement, are always present. *)
Definition read_header (h : FixHeader) : FixHeader :=
  let t := fx_packet_type h in
  mkFixHeader t
    (if decide (t = PUBLISH) then Some (default 0 (fx_qos h)) else None)
    (if decide (t = PUBLISH) then Some (default false (fx_retain h)) else None)
    (if flagged t then Some (default 0 (fx_dup h)) else None)
    (fx_remaining_length h).

(** What an acknowledgement header leaves out is not written. *)
Definition ack_flags_ok (h : FixHeader) : Prop :=
  flagged (fx_packet_type h) = true -> fx_packet_type h <> PUBLISH ->
  default 0 (fx_qos h) = 0 /\ default false (fx_retain h) = false.

Section RoundTrip.
Context {N : Nom} {NS : NomSpec N}.

Lemma header_byte_u8 h : wf_fix_header h -> is_u8 (header_byte h).
Proof.
  intros (Hd & Hq & _). unfold header_byte, is_u8.
  pose proof (packet_type_u8_bound (fx_packet_type h)).
  destruct (flagged _), (fx_dup h), (fx_qos h), (fx_retain h) as [[]|]; simpl; lia.
Qed.

Lemma header_bytes_is_bytes h : wf_fix_header h -> is_bytes (header_bytes h).
Proof.
  intros Hh. constructor; [by apply header_byte_u8|]. by apply vbi_bytes_is_bytes, Hh.
Qed.

Lemma header_view_byte h :
  wf_fix_header h -> ack_flags_ok h ->
  header_byte h / 16 = packet_type_u8 (fx_packet_type h) /\
  header_view (fx_packet_type h) (header_byte h) (fx_remaining_length h) = read_header h.
Proof.
  destruct h as [t q r d len]. intros (Hd & Hq & _) Ha. unfold header_byte, header_view, read_header, ack_flags_ok in *.
  cbn [fx_packet_type fx_qos fx_retain fx_dup fx_remaining_length] in *.
  set (dd := default 0 d) in *. set (qq := default 0 q) in *. set (rr := default false r) in *.
  assert (0 <= dd <= 1) by (destruct d; simpl in *; lia).
  assert (0 <= qq <= 3) by (destruct q; simpl in *; lia).
  assert (0 <= Z.b2z rr <= 1) by (destruct rr; simpl; lia).
  pose proof (packet_type_u8_bound t).
  split; [destruct (flagged t); Z.to_euclidean_division_equations; lia|].
  f_equal.
  - destruct (decide (t = PUBLISH)) as [->|]; [|done]. simpl flagged. cbv iota. f_equal.
    Z.to_euclidean_division_equations; lia.
  - destruct (decide (t = PUBLISH)) as [->|]; [|done]. simpl flagged. cbv iota. f_equal.
    destruct rr; simpl Z.b2z; [apply Z.eqb_eq|apply Z.eqb_neq]; Z.to_euclidean_division_equations; lia.
  - destruct t; try done; simpl flagged; cbv iota; f_equal; Z.to_euclidean_division_equations; lia.
Qed.

Lemma parse_header_bytes h rest :
  wf_fix_header h -> ack_flags_ok h -> is_bytes rest ->
  parse (header_bytes h ++ rest) = Ok (rest, read_header h).
Proof.
  intros Hh Ha Hr. unfold header_bytes. cbn [app].
  destruct (header_view_byte h Hh Ha) as [Ht Hv].
  rewrite parse_cons, Ht, packet_type_of_u8 by (by apply header_byte_u8). cbn [mbind outcome_bind].
  destruct (Hh) as (_ & _ & Hl).
  rewrite remaining_length_run by (apply is_bytes_app; split; [by apply vbi_bytes_is_bytes|done]).
  rewrite rl_split_vbi, rl_value_vbi by done. cbn [mbind outcome_bind]. by rewrite Hv.
Qed.

End RoundTrip.
