(* ===== verification/V3Common.v ===== *)
(** * Strings and framing of MQTT 3.1.1 packets ([mqtt/src/v3/common.rs])

    [String::from_utf8_lossy] of the standard library, the two string parsers,
    and the frame every packet parser of [mqtt/src/v3] is built on: the fixed
    header, then the [remaining_length] bytes of the body.  [framed] is the
    closed form of that composition; what makes it safe to run on a stream that
    arrives in pieces is proved once for it. *)

From S2P Require Import Prelude Utf8 Buf V5Common V3Nom V3FixedHeader.

(** ** Lossy decoding *)

(** The UTF-8 bytes of U+FFFD. *)
Definition replacement : bytes := [0xEF; 0xBF; 0xBD].

(** [String::from_utf8_lossy]: each maximal prefix of a well-formed sequence that
    is not one itself, and each other byte, becomes one U+FFFD. *)
Fixpoint lossy (l : bytes) : bytes :=
  match l with
  | [] => []
  | b0 :: l1 =>
      if b0 <? 0x80 then b0 :: lossy l1
      else
        match l1 with
        | [] => replacement
        | b1 :: l2 =>
            if (0xC2 <=? b0) && (b0 <=? 0xDF) then
              if is_cont b1 then b0 :: b1 :: lossy l2 else replacement ++ lossy l1
            else if (0xE0 <=? b0) && (b0 <=? 0xEF) then
              if second_of_3 b0 b1 then
                match l2 with
                | b2 :: l3 =>
                    if is_cont b2 then b0 :: b1 :: b2 :: lossy l3 else replacement ++ lossy l2
                | [] => replacement
                end
              else replacement ++ lossy l1
            else if (0xF0 <=? b0) && (b0 <=? 0xF4) then
              if second_of_4 b0 b1 then
                match l2 with
                | b2 :: l3 =>
                    if is_cont b2 then
                      match l3 with
                      | b3 :: l4 =>
                          if is_cont b3 then b0 :: b1 :: b2 :: b3 :: lossy l4
                          else replacement ++ lossy l3
                      | [] => replacement
                      end
                    else replacement ++ lossy l2
                | [] => replacement
                end
              else replacement ++ lossy l1
            else replacement ++ lossy l1
        end
  end.
Definition from_utf8_lossy (l : bytes) : string := string_of_bytes (lossy l).

(** Induction on the length of a byte string. *)
Lemma bytes_ind_length (P : bytes -> Prop) :
  (forall l, (forall k, (length k < length l)%nat -> P k) -> P l) -> forall l, P l.
Proof.
  intros H l. assert (forall n k, (length k < n)%nat -> P k) as Hn.
  { induction n as [|n IH]; intros k Hk; [lia|]. apply H. intros k' Hk'. apply IH. lia. }
  apply (Hn (S (length l))). lia.
Qed.

(** One test of the decoder. *)
Local Ltac utf8_case :=
  match goal with
  | |- context [if ?c then _ else _] => destruct c eqn:?
  | |- context [match ?l with [] => _ | _ :: _ => _ end] => destruct l as [|? ?]
  end.

(** Well-formed text is kept. *)
Lemma lossy_valid l : valid_utf8 l = true -> lossy l = l.
Proof.
  induction l as [l IH] using bytes_ind_length. intros H.
  destruct l as [|b0 l1]; [done|]. cbn [valid_utf8] in H. cbn [lossy].
  destruct (b0 <? 128) eqn:?; [by rewrite IH by (done || simpl; lia)|].
  destruct l1 as [|b1 l2]; [done|].
  destruct ((194 <=? b0) && (b0 <=? 223)) eqn:?.
  { apply andb_true_iff in H as [-> H]. by rewrite IH by (done || simpl; lia). }
  destruct l2 as [|b2 l3]; [done|].
  destruct ((224 <=? b0) && (b0 <=? 239)) eqn:?.
  { apply andb_true_iff in H as [[-> ->]%andb_true_iff H]. by rewrite IH by (done || simpl; lia). }
  destruct l3 as [|b3 l4]; [done|]. rewrite !andb_true_iff in H.
  destruct H as [[[[[-> ->] ->] ->] ->] H]. cbn [andb]. by rewrite IH by (done || simpl; lia).
Qed.

Lemma valid_replacement l : valid_utf8 (replacement ++ l) = valid_utf8 l.
Proof. done. Qed.

(** The result is always well formed. *)
Lemma lossy_is_valid l : valid_utf8 (lossy l) = true.
Proof.
  induction l as [l IH] using bytes_ind_length. destruct l as [|b0 l1]; [done|]. cbn [lossy].
  repeat utf8_case; rewrite ?valid_replacement; try done; try (apply IH; simpl; lia);
    cbn [valid_utf8];
    repeat match goal with H : ?c = _ |- context [?c] => rewrite H end; cbn [andb];
    try (apply IH; simpl; lia).
Qed.

Lemma lossy_is_bytes l : is_bytes l -> is_bytes (lossy l).
Proof.
  assert (is_bytes replacement) as Hrep by (repeat constructor; done).
  induction l as [l IH] using bytes_ind_length. destruct l as [|b0 l1]; [done|]. intros Hl.
  apply Forall_cons in Hl as [H0 Hl]. cbn [lossy].
  repeat (utf8_case; repeat match goal with H : Forall _ (_ :: _) |- _ => apply Forall_cons in H as [? H] | H : is_bytes (_ :: _) |- _ => apply Forall_cons in H as [? H] end);
    repeat (apply is_bytes_app; split; [done|]); repeat (constructor; [done|]);
    try (apply IH; [simpl; lia|repeat (constructor; try done)]); done.
Qed.

Lemma from_utf8_lossy_as_bytes s : is_str s -> from_utf8_lossy (as_bytes s) = s.
Proof. intros H. unfold from_utf8_lossy. by rewrite lossy_valid, string_of_as_bytes. Qed.

Lemma from_utf8_lossy_is_str l : is_bytes l -> is_str (from_utf8_lossy l).
Proof.
  intros H. unfold is_str, from_utf8_lossy. rewrite as_bytes_of_bytes by (by apply lossy_is_bytes).
  apply lossy_is_valid.
Qed.

(** ** The string parsers *)

Section Parse.
Context {N : Nom}.

(** [BigEndian::read_u16] on the two bytes of [take(2)]. *)
Definition read_u16 (w : bytes) : outcome Nerr Z :=
  b0 ← index 0 w; b1 ← index 1 w; Ok (from_be_u16 b0 b1).

Definition parse_utf8 : parser bytes string :=
  nom_flat_map (streaming_take 2) (fun w input =>
    length ← read_u16 w;
    nom_map (streaming_take length) from_utf8_lossy input).

Definition parse_utf8_complete : parser bytes string :=
  nom_flat_map (complete_take 2) (fun w input =>
    length ← read_u16 w;
    nom_map (complete_take length) from_utf8_lossy input).

End Parse.

Section ParseLemmas.
Context {N : Nom} {NS : NomSpec N}.

(** [reads3 p out v]: [p] reads [v] from [out], whatever follows. *)
Definition reads3 {A} (p : parser bytes A) (out : bytes) (v : A) : Prop :=
  forall rest, p (out ++ rest) = Ok (rest, v).

(** [parses3 p Q]: on every input [p] returns a value with [Q], having consumed a
    nonempty prefix, or an error that is not a [Failure]. *)
Definition parses3 {A} (p : parser bytes A) (Q : A -> Prop) : Prop :=
  forall i, is_bytes i ->
    match p i with
    | Ok (rest, v) => exists pre, i = pre ++ rest /\ pre <> [] /\ Q v
    | Err (NFailure _) | Panic | OutOfFuel => False
    | Err _ => True
    end.

(** The parsers of complete input never ask for more. *)
Definition complete {A} (p : parser bytes A) : Prop :=
  forall i, is_bytes i -> p i <> Err NIncomplete.

Lemma take2 (l : bytes) : 2 <= zlen l -> exists b0 b1 r, l = b0 :: b1 :: r.
Proof. unfold zlen. destruct l as [|? [|? ?]]; simpl; intros; try lia. eauto. Qed.

Lemma read_u16_pair b0 b1 : read_u16 [b0; b1] = Ok (from_be_u16 b0 b1).
Proof. done. Qed.

(** What the two string parsers do, by the arrived length. *)
Lemma parse_utf8_cons b0 b1 i :
  parse_utf8 (b0 :: b1 :: i) =
    let n := from_be_u16 b0 b1 in
    if zlen i <? n then Err NIncomplete
    else Ok (drop (Z.to_nat n) i, from_utf8_lossy (take (Z.to_nat n) i)).
Proof.
  unfold parse_utf8. rewrite nom_flat_map_spec, streaming_take_spec.
  rewrite (proj2 (Z.ltb_ge _ _)) by (unfold zlen; simpl; lia).
  change (take _ (b0 :: b1 :: i)) with [b0; b1]. change (drop _ (b0 :: b1 :: i)) with i.
  cbn [mbind outcome_bind]. rewrite read_u16_pair. cbn [mbind outcome_bind].
  rewrite nom_map_spec, streaming_take_spec. by destruct (_ <? _).
Qed.

Lemma parse_utf8_complete_cons b0 b1 i :
  let n := from_be_u16 b0 b1 in
  if zlen i <? n then exists k, parse_utf8_complete (b0 :: b1 :: i) = Err (NError k)
  else parse_utf8_complete (b0 :: b1 :: i)
       = Ok (drop (Z.to_nat n) i, from_utf8_lossy (take (Z.to_nat n) i)).
Proof.
  cbv zeta. unfold parse_utf8_complete. rewrite nom_flat_map_spec.
  rewrite complete_take_ok by (unfold zlen; simpl; lia).
  change (take _ (b0 :: b1 :: i)) with [b0; b1]. change (drop _ (b0 :: b1 :: i)) with i.
  cbn [mbind outcome_bind]. rewrite read_u16_pair. cbn [mbind outcome_bind].
  rewrite nom_map_spec.
  destruct (Z.ltb_spec (zlen i) (from_be_u16 b0 b1)) as [Hlt|Hge].
  - destruct (complete_take_short _ _ Hlt) as [k ->]. by exists k.
  - by rewrite complete_take_ok.
Qed.

(** What is written as a string: its length in two bytes, wrapped to 16 bits, and its bytes. *)
Lemma string_prefix s rest :
  zlen (as_bytes s) <= u16_max ->
  drop (Z.to_nat (zlen (as_bytes s))) (as_bytes s ++ rest) = rest /\
  take (Z.to_nat (zlen (as_bytes s))) (as_bytes s ++ rest) = as_bytes s /\
  (zlen (as_bytes s ++ rest) <? zlen (as_bytes s)) = false.
Proof.
  intros _. rewrite zlen_to_nat, drop_app_length, take_app_length. repeat split.
  rewrite zlen_app. apply Z.ltb_ge. pose proof (zlen_nonneg rest). lia.
Qed.

Lemma reads_parse_utf8 s :
  is_str s -> zlen (as_bytes s) <= u16_max -> reads3 parse_utf8 (string_bytes s) s.
Proof.
  intros Hs Hl rest. unfold string_bytes, binary_bytes, be_u16. cbn [app].
  rewrite parse_utf8_cons. cbv zeta. rewrite from_be_u16_be.
  destruct (string_prefix s rest Hl) as (-> & -> & ->). by rewrite from_utf8_lossy_as_bytes.
Qed.

Lemma reads_parse_utf8_complete s :
  is_str s -> zlen (as_bytes s) <= u16_max -> reads3 parse_utf8_complete (string_bytes s) s.
Proof.
  intros Hs Hl rest. unfold string_bytes, binary_bytes, be_u16. cbn [app].
  pose proof (parse_utf8_complete_cons (zlen (as_bytes s) / 256) (zlen (as_bytes s) mod 256)
    (as_bytes s ++ rest)) as H. cbv zeta in H. rewrite from_be_u16_be in H.
  destruct (string_prefix s rest Hl) as (E1 & E2 & E3). rewrite E1, E2, E3 in H.
  by rewrite from_utf8_lossy_as_bytes in H.
Qed.

(** On arbitrary input. *)
Lemma parses_parse_utf8 : parses3 parse_utf8 is_str.
Proof.
  intros i Hi. destruct (Z.lt_ge_cases (zlen i) 2) as [Hlt|(b0 & b1 & r & ->)%take2].
  { unfold parse_utf8. rewrite nom_flat_map_spec, streaming_take_spec.
    by rewrite (proj2 (Z.ltb_lt _ _)). }
  rewrite parse_utf8_cons. cbv zeta. destruct (_ <? _); [done|].
  set (n := Z.to_nat _). exists (b0 :: b1 :: take n r). cbn [app]. rewrite take_drop.
  repeat split; [done|]. apply from_utf8_lossy_is_str, is_bytes_take.
  by apply Forall_cons in Hi as [_ [_ Hi]%Forall_cons].
Qed.

Lemma parses_parse_utf8_complete : parses3 parse_utf8_complete is_str.
Proof.
  intros i Hi. destruct (Z.lt_ge_cases (zlen i) 2) as [Hlt|(b0 & b1 & r & ->)%take2].
  { unfold parse_utf8_complete. rewrite nom_flat_map_spec.
    by destruct (complete_take_short 2 i Hlt) as [k ->]. }
  pose proof (parse_utf8_complete_cons b0 b1 r) as H. cbv zeta in H.
  destruct (_ <? _); [by destruct H as [k ->]|]. rewrite H.
  set (n := Z.to_nat _). exists (b0 :: b1 :: take n r). cbn [app]. rewrite take_drop.
  repeat split; [done|]. apply from_utf8_lossy_is_str, is_bytes_take.
  by apply Forall_cons in Hi as [_ [_ Hi]%Forall_cons].
Qed.

Lemma complete_parse_utf8_complete : complete parse_utf8_complete.
Proof.
  intros i Hi. destruct (Z.lt_ge_cases (zlen i) 2) as [Hlt|(b0 & b1 & r & ->)%take2].
  { unfold parse_utf8_complete. rewrite nom_flat_map_spec.
    by destruct (complete_take_short 2 i Hlt) as [k ->]. }
  pose proof (parse_utf8_complete_cons b0 b1 r) as H. cbv zeta in H.
  destruct (_ <? _); [by destruct H as [k ->]|]. by rewrite H.
Qed.

End ParseLemmas.

(** ** Framing *)

Section Framed.
Context {N : Nom} {NS : NomSpec N}.

(** A fixed header, a test [check] on it, and a body of [len] bytes. *)
Definition framed_body {A} (len : FixHeader -> Z) (check : FixHeader -> bool)
    (body : FixHeader -> bytes -> outcome Nerr A) (h : FixHeader) : parser bytes A := fun i =>
  if check h then
    if zlen i <? len h then Err NIncomplete
    else
      match body h (take (Z.to_nat (len h)) i) with
      | Ok a => Ok (drop (Z.to_nat (len h)) i, a)
      | Err _ => Err (NError MapRes)
      | Panic => Panic
      | OutOfFuel => OutOfFuel
      end
  else Err (NError Verify).
Definition framed_by {A} (len : FixHeader -> Z) (check : FixHeader -> bool)
    (body : FixHeader -> bytes -> outcome Nerr A) : parser bytes A := fun i =>
  '(i, h) ← V3FixedHeader.parse i; framed_body len check body h i.

(** What [flat_map(fixed_header::parse, |h| map_res(take(remaining_length), body))]
    comes to. *)
Abbreviation framed := (framed_by fx_remaining_length).

(** A parser for a stream that arrives in pieces: what it accepts it accepts
    whatever follows, it asks for more on every shorter prefix, and it does not
    change its mind on an error or a panic. *)
Definition streaming3 {A} (p : parser bytes A) : Prop :=
  forall i, is_bytes i ->
    match p i with
    | Ok (rest, v) =>
        exists pre, i = pre ++ rest /\
          (forall more, is_bytes more -> p (pre ++ more) = Ok (more, v)) /\
          (forall j, (j < length pre)%nat -> p (take j pre) = Err NIncomplete)
    | Err NIncomplete => True
    | m => forall more, is_bytes more -> p (i ++ more) = m
    end.

Lemma streaming3_ext {A} (p q : parser bytes A) :
  (forall i, is_bytes i -> p i = q i) -> streaming3 p -> streaming3 q.
Proof.
  intros E Hp i Hi. specialize (Hp i Hi). rewrite <-(E i Hi).
  destruct (p i) as [[rest v]|[]| |] eqn:Ei; try done.
  - destruct Hp as (pre & -> & Hok & Hinc). apply is_bytes_app in Hi as [Hpre _].
    exists pre. split; [done|]. split.
    + intros more Hm. rewrite <-E by (by apply is_bytes_app). auto.
    + intros j Hj. rewrite <-E by auto with yed. auto.
  - intros more Hm. rewrite <-E by (by apply is_bytes_app). auto.
  - intros more Hm. rewrite <-E by (by apply is_bytes_app). auto.
  - intros more Hm. rewrite <-E by (by apply is_bytes_app). auto.
  - intros more Hm. rewrite <-E by (by apply is_bytes_app). auto.
Qed.

(** The fixed header arrives in pieces, and panics on its first byte or not at all. *)
Lemma header_streaming3 : streaming3 V3FixedHeader.parse.
Proof.
  intros [|b i] Hi; [by rewrite parse_nil|]. apply Forall_cons in Hi as [Hb Hi].
  assert (forall l, is_bytes l -> V3FixedHeader.parse (b :: l) =
    (t ← packet_type_of (b / 16);
     match rl_split 3 l with
     | Some (pre, rest) => Ok (rest, header_view t b (rl_value pre))
     | None => Err NIncomplete
     end)) as Hrun.
  { intros l Hl. rewrite parse_cons, remaining_length_run by done.
    destruct (packet_type_of (b / 16)); try done. cbn [mbind outcome_bind].
    by destruct (rl_split 3 l) as [[]|]. }
  rewrite Hrun by done.
  assert (packet_type_of (E := Nerr) (b / 16) = Panic \/ exists t, packet_type_of (E := Nerr) (b / 16) = Ok t)
    as [Ht|[t Ht]] by (unfold packet_type_of; repeat case_match; eauto).
  - rewrite Ht. cbn [mbind outcome_bind]. intros more Hm. cbn [app].
    rewrite Hrun by (by apply is_bytes_app). by rewrite Ht.
  - rewrite Ht in *. cbn [mbind outcome_bind] in *.
    destruct (rl_split 3 i) as [[pre rest]|] eqn:Hs; [|done].
    destruct (rl_split_streaming _ _ _ _ Hs) as (-> & Hl & Hmore & Hinc).
    apply is_bytes_app in Hi as [Hpre Hrest].
    exists (b :: pre). split; [done|]. split.
    + intros more Hm. cbn [app]. rewrite Hrun by (by apply is_bytes_app). by rewrite Hmore.
    + intros [|j] Hj; [apply parse_nil|]. cbn [take]. rewrite Hrun by auto with yed.
      simpl in Hj. by rewrite Hinc by lia.
Qed.

Lemma framed_streaming {A} len check (body : FixHeader -> bytes -> outcome Nerr A) :
  streaming3 (framed_by len check body).
Proof.
  intros i Hi. pose proof (header_streaming3 i Hi) as Hh.
  assert (framed_by len check body i = '(r, h) ← V3FixedHeader.parse i; framed_body len check body h r) as ->
    by done.
  destruct (V3FixedHeader.parse i) as [[r h]|[]| |]; cbn [mbind outcome_bind]; try done;
    try (intros more Hm; unfold framed_by; by rewrite Hh).
  destruct Hh as (pre & -> & Hok & Hinc). apply is_bytes_app in Hi as [Hpre Hr].
  set (n := len h).
  assert (forall l, is_bytes l -> framed_by len check body (pre ++ l) =
    if check h then
      if zlen l <? n then Err NIncomplete
      else match body h (take (Z.to_nat n) l) with
           | Ok a => Ok (drop (Z.to_nat n) l, a)
           | Err _ => Err (NError MapRes)
           | Panic => Panic
           | OutOfFuel => OutOfFuel
           end
    else Err (NError Verify)) as Hrun.
  { intros l Hl. unfold framed_by. by rewrite Hok. }
  unfold framed_body. fold n. destruct (check h) eqn:Hc.
  2: { intros more Hm. rewrite <-app_assoc. apply Hrun. by apply is_bytes_app. }
  destruct (Z.ltb_spec (zlen r) n) as [|Hge]; [done|]. unfold zlen in Hge.
  assert (forall more, is_bytes more -> framed_by len check body ((pre ++ r) ++ more) =
    match body h (take (Z.to_nat n) r) with
    | Ok a => Ok (drop (Z.to_nat n) r ++ more, a)
    | Err _ => Err (NError MapRes)
    | Panic => Panic
    | OutOfFuel => OutOfFuel
    end) as Hlong.
  { intros more Hm. rewrite <-app_assoc, Hrun by (by apply is_bytes_app).
    rewrite (proj2 (Z.ltb_ge _ _)) by (unfold zlen; rewrite length_app; lia).
    by rewrite take_app_le, drop_app_le by lia. }
  destruct (body h (take (Z.to_nat n) r)) as [a|e| |] eqn:Hb; try exact Hlong.
  exists (pre ++ take (Z.to_nat n) r). rewrite <-app_assoc, take_drop. split; [done|].
  assert (length (take (Z.to_nat n) r) = Z.to_nat n) as Hn by (rewrite length_take; lia). split.
  - intros more Hm. rewrite <-app_assoc, Hrun by (apply is_bytes_app; auto with yed).
    rewrite (proj2 (Z.ltb_ge _ _)) by (unfold zlen; rewrite length_app; lia).
    rewrite take_app_le, drop_app_ge, Hn, Nat.sub_diag by lia.
    by rewrite take_take, Nat.min_id, Hb.
  - intros j Hj. rewrite length_app, Hn in Hj.
    destruct (decide (j < length pre)%nat) as [Hlt|Hge'].
    + rewrite take_app_le by lia. unfold framed_by. by rewrite Hinc.
    + rewrite take_app_ge, Hrun by (auto with yed || lia).
      rewrite (proj2 (Z.ltb_lt _ _)); [done|]. unfold zlen. rewrite take_take, length_take. lia.
Qed.

(** A whole frame is read back, and nothing behind it. *)
Lemma framed_reads {A} len check (body : FixHeader -> bytes -> outcome Nerr A) h b a rest :
  wf_fix_header h -> ack_flags_ok h -> len (read_header h) = zlen b ->
  is_bytes b -> is_bytes rest -> check (read_header h) = true ->
  body (read_header h) b = Ok a ->
  framed_by len check body ((header_bytes h ++ b) ++ rest) = Ok (rest, a).
Proof.
  intros Hh Ha Hl Hb Hr Hc Hbody. unfold framed_by. rewrite <-app_assoc.
  rewrite parse_header_bytes by (done || by apply is_bytes_app). cbn [mbind outcome_bind].
  unfold framed_body. rewrite Hc.
  rewrite Hl, zlen_to_nat.
  rewrite zlen_app, (proj2 (Z.ltb_ge _ _)) by (pose proof (zlen_nonneg rest); lia).
  by rewrite take_app_length, drop_app_length, Hbody.
Qed.


(** The parsers of the packets are framed parsers. *)
Lemma framed_flat_map {A C} (f : FixHeader -> bytes -> outcome Nerr C) (g : FixHeader -> C -> A) i :
  nom_flat_map V3FixedHeader.parse (fun h =>
    nom_map (nom_map_res (streaming_take (fx_remaining_length h)) (f h)) (g h)) i
  = framed (fun _ => true) (fun h b => c ← f h b; Ok (g h c)) i.
Proof.
  rewrite nom_flat_map_spec. unfold framed_by.
  destruct (V3FixedHeader.parse i) as [[r h]|e| |]; try done. cbn [mbind outcome_bind].
  rewrite nom_map_spec, nom_map_res_spec, streaming_take_spec. unfold framed_body.
  destruct (_ <? _); [done|]. cbn [mbind outcome_bind]. by destruct (f h _).
Qed.

Lemma framed_verify {A C} (check : FixHeader -> bool) (f : FixHeader -> bytes -> outcome Nerr C)
    (g : FixHeader -> C -> A) i :
  ('(i, h) ← nom_verify V3FixedHeader.parse check i;
   nom_map (nom_map_res (streaming_take (fx_remaining_length h)) (f h)) (g h) i)
  = framed check (fun h b => c ← f h b; Ok (g h c)) i.
Proof.
  rewrite nom_verify_spec. unfold framed_by.
  destruct (V3FixedHeader.parse i) as [[r h]|e| |]; try done. cbn [mbind outcome_bind].
  unfold framed_body. destruct (check h); [|done]. cbn [mbind outcome_bind].
  rewrite nom_map_spec, nom_map_res_spec, streaming_take_spec.
  destruct (_ <? _); [done|]. cbn [mbind outcome_bind]. by destruct (f h _).
Qed.

(** What a framed parser does on arbitrary input, given what its body does. *)
Definition framed_total {A} (p : parser bytes A) : Prop :=
  forall i, is_bytes i ->
    match p i with
    | Ok (rest, v) => exists pre, i = pre ++ rest /\ (2 <= length pre)%nat
    | Err (NFailure _) | OutOfFuel => False
    | Err _ => True
    | Panic => exists b l, i = b :: l /\ (b / 16 = 0 \/ b / 16 = 15)
    end.

Lemma header_total : framed_total V3FixedHeader.parse.
Proof.
  intros [|b i] Hi; [by rewrite parse_nil|]. apply Forall_cons in Hi as [Hb Hi].
  rewrite parse_cons, remaining_length_run by done.
  assert (0 <= b / 16 < 16) as H16 by (unfold is_u8 in Hb; Z.to_euclidean_division_equations; lia).
  assert (b / 16 = 0 \/ b / 16 = 15 \/ exists t, @packet_type_of Nerr (b / 16) = Ok t) as Ht.
  { unfold packet_type_of. repeat case_match; eauto; lia. }
  destruct Ht as [Ht|[Ht|[t ->]]]; [rewrite Ht; simpl; eauto 10..|]. cbn [mbind outcome_bind].
  destruct (rl_split 3 i) as [[pre rest]|] eqn:Hs; [|done]. cbn [mbind outcome_bind].
  destruct (rl_split_streaming _ _ _ _ Hs) as (-> & Hl & _).
  exists (b :: pre). simpl. split; [done|lia].
Qed.

Lemma framed_total_body {A} len check (body : FixHeader -> bytes -> outcome Nerr A) :
  (forall h b, is_bytes b -> returns (body h b)) -> framed_total (framed_by len check body).
Proof.
  intros Hbody i Hi. unfold framed_by. pose proof (header_total i Hi) as Hh.
  destruct (V3FixedHeader.parse i) as [[r h]|[]| |]; cbn [mbind outcome_bind]; try done.
  destruct Hh as (pre & -> & Hl). apply is_bytes_app in Hi as [Hpre Hr].
  unfold framed_body. destruct (check h); [|done]. destruct (_ <? _); [done|].
  set (n := Z.to_nat _). specialize (Hbody h (take n r) ltac:(auto with yed)).
  destruct (body h _); try done.
  exists (pre ++ take n r). rewrite <-app_assoc, take_drop, length_app. split; [done|lia].
Qed.

Lemma framed_total_ext {A} (p q : parser bytes A) :
  (forall i, is_bytes i -> p i = q i) -> framed_total p -> framed_total q.
Proof. intros E Hp i Hi. specialize (Hp i Hi). by rewrite E in Hp. Qed.

End Framed.
Abbreviation framed := (framed_by fx_remaining_length).

(** ** Encoding *)

(** [u16::try_from(z).expect(..)]. *)
Definition expect_u16 {E} (z : Z) : outcome E Z := if z <=? u16_max then Ok z else Panic.

Section Encode.
Context {B : BytesCrate}.

(** [buf.put(w.to_bytes())]: the bytes of a local buffer are appended. *)
Definition put_bytes (m : outcome Empty_set BytesMut) : encoder3 :=
  b ← lift m; extend_from_slice (bm_slice b).

(** A string with its length wrapped, and with its length checked. *)
Definition put_str (s : string) : encoder3 :=
  put_u16 (as_u16 (zlen (as_bytes s)));; extend_from_slice (as_bytes s).
Definition put_str_expect (s : string) : encoder3 :=
  n ← lift (expect_u16 (zlen (as_bytes s)));
  put_u16 n;; extend_from_slice (as_bytes s).

Context {BS : BytesCrateSpec B}.

Lemma writes_put_str s :
  zlen (as_bytes s) <= u16_max -> writes (put_str s) true (string_bytes s).
Proof.
  intros Hs. unfold put_str, as_u16. pose proof (zlen_nonneg (as_bytes s)).
  rewrite Z.mod_small by (unfold u16_max in Hs; lia).
  exact (writes_bind (writes_put_u16 _) (writes_extend _)).
Qed.

Lemma writes_put_str_expect s :
  zlen (as_bytes s) <= u16_max -> writes (put_str_expect s) true (string_bytes s).
Proof.
  intros Hs. unfold put_str_expect, expect_u16. rewrite (proj2 (Z.leb_le _ _)) by done.
  apply writes_lift; [done|]. exact (writes_bind (writes_put_u16 _) (writes_extend _)).
Qed.

Lemma writes_new_buffer (w : encoder3) o :
  writes w true o -> exists b, with_new_buffer w = Ok b /\ bm_slice b = o.
Proof.
  intros Hw. pose proof (wp_with_new_buffer _ _ _ Hw) as H.
  destruct (with_new_buffer w) as [b|[]| |]; try done. destruct H as (_ & _ & Hb). eauto.
Qed.

Lemma writes_put_bytes w o :
  writes w true o -> writes (put_bytes (with_new_buffer w)) true o.
Proof.
  intros Hw. destruct (writes_new_buffer w o Hw) as (b & -> & Hb).
  apply writes_lift; [done|]. rewrite Hb. apply writes_extend.
Qed.

Lemma writes_put_header h : wf_fix_header h -> writes (put_bytes (to_bytes h)) true (header_bytes h).
Proof.
  intros Hh. destruct (to_bytes_run h Hh) as (b & -> & Hb). apply writes_lift; [done|].
  rewrite Hb. apply writes_extend.
Qed.

End Encode.

(** A string whose length fits into its two-byte prefix. *)
Definition short_str (s : string) : Prop := is_str s /\ zlen (as_bytes s) <= u16_max.

Lemma is_bytes_string s : zlen (as_bytes s) <= u16_max -> is_bytes (string_bytes s).
Proof.
  intros H. unfold string_bytes, binary_bytes. apply is_bytes_app. split; [|auto with yed].
  apply be_u16_bytes. pose proof (zlen_nonneg (as_bytes s)). unfold is_u16, u16_max in *. lia.
Qed.

Lemma zlen_string s : zlen (string_bytes s) = 2 + zlen (as_bytes s).
Proof. unfold string_bytes, binary_bytes. by rewrite zlen_app, zlen_be_u16. Qed.
#[export] Hint Resolve is_bytes_string writes_put_str writes_put_str_expect : yed.
#[export] Hint Rewrite zlen_string : zlen.
