(* ===== verification/V3Ack.v ===== *)
(** * MQTT 3.1.1 acknowledgements and bare packets

    [mqtt/src/v3/puback.rs], [pubrec.rs], [pubrel.rs], [pubcomp.rs] and
    [unsuback.rs] are the same code but for the struct's name and the packet
    type of [new]; [pingreq.rs], [pingresp.rs] and [disconnect.rs] are a fixed
    header alone. *)

From S2P Require Import Prelude Utf8 Buf V5Common V3Nom V3FixedHeader V3Common.

(** [struct VariableHeader] of the five files. *)
Record AckVariableHeader := mkAckVariableHeader { a3_packet_identifier : Z }.

(** [struct PubAckPacket], [PubRecPacket], [PubRelPacket], [PubCompPacket] and [UnSubackPacket]. *)
Record AckPacket := mkAckPacket {
  a3_fix_header : FixHeader;
  a3_variable_header : AckVariableHeader;
}.

Definition ack_new (t : PacketType) (packet_identifier : Z) : AckPacket :=
  let fix_header := mkFixHeader t None None None 2 in
  let variable_header := mkAckVariableHeader packet_identifier in
  mkAckPacket fix_header variable_header.
Definition puback_new : Z -> AckPacket := ack_new PUBACK.
Definition pubrec_new : Z -> AckPacket := ack_new PUBREC.
Definition pubrel_new : Z -> AckPacket := ack_new PUBREL.
Definition pubcomp_new : Z -> AckPacket := ack_new PUBCOMP.
Definition unsuback_new : Z -> AckPacket := ack_new UNSUBACK.

Section Parse.
Context {N : Nom}.

Definition ack_parse : parser bytes AckPacket :=
  nom_flat_map V3FixedHeader.parse (fun fixed_header =>
    nom_map
      (nom_map_res (streaming_take (fx_remaining_length fixed_header)) streaming_be_u16)
      (fun packet_identifier =>
         mkAckPacket fixed_header (mkAckVariableHeader (packet_identifier.2)))).
Definition puback_parse : parser bytes AckPacket := ack_parse.
Definition pubrec_parse : parser bytes AckPacket := ack_parse.
Definition pubrel_parse : parser bytes AckPacket := ack_parse.
Definition pubcomp_parse : parser bytes AckPacket := ack_parse.
Definition unsuback_parse : parser bytes AckPacket := ack_parse.

(** [map(fixed_header::parse, |fixed_header| PingreqPacket { fix_header })]: the
    remaining length is kept, no byte behind the header is consumed. *)
Definition bare_parse : parser bytes FixHeader :=
  nom_map V3FixedHeader.parse (fun fixed_header => fixed_header).
Definition pingreq_parse : parser bytes FixHeader := bare_parse.
Definition pingresp_parse : parser bytes FixHeader := bare_parse.
Definition disconnect_parse : parser bytes FixHeader := bare_parse.

End Parse.

(** [PingreqPacketBuilder::build] and [PingrespPacket::new]. *)
Definition pingreq_build : FixHeader := mkFixHeader PINGREQ None None None 0.
Definition pingresp_new : FixHeader := mkFixHeader PINGRESP None None None 0.

Section Encode.
Context {B : BytesCrate}.

Definition ack_variable_header_encode (v : AckVariableHeader) : encoder3 :=
  put_u16 (a3_packet_identifier v).
Definition ack_variable_header_to_bytes (v : AckVariableHeader) : outcome Empty_set BytesMut :=
  with_new_buffer (put_u16 (a3_packet_identifier v)).

Definition ack_encode (p : AckPacket) : encoder3 :=
  ecnode (a3_fix_header p);;
  ack_variable_header_encode (a3_variable_header p).

Definition ack_to_bytes (p : AckPacket) : outcome Empty_set BytesMut :=
  with_new_buffer (
    put_bytes (to_bytes (a3_fix_header p));;
    put_bytes (ack_variable_header_to_bytes (a3_variable_header p))).
Definition puback_encode : AckPacket -> encoder3 := ack_encode.
Definition puback_to_bytes : AckPacket -> outcome Empty_set BytesMut := ack_to_bytes.
Definition pubrec_encode : AckPacket -> encoder3 := ack_encode.
Definition pubrec_to_bytes : AckPacket -> outcome Empty_set BytesMut := ack_to_bytes.
Definition pubrel_encode : AckPacket -> encoder3 := ack_encode.
Definition pubrel_to_bytes : AckPacket -> outcome Empty_set BytesMut := ack_to_bytes.
Definition pubcomp_encode : AckPacket -> encoder3 := ack_encode.
Definition pubcomp_to_bytes : AckPacket -> outcome Empty_set BytesMut := ack_to_bytes.
Definition unsuback_encode : AckPacket -> encoder3 := ack_encode.
Definition unsuback_to_bytes : AckPacket -> outcome Empty_set BytesMut := ack_to_bytes.
Definition pingreq_encode (fix_header : FixHeader) : encoder3 := ecnode fix_header.
Definition pingreq_to_bytes (fix_header : FixHeader) : outcome Empty_set BytesMut := to_bytes fix_header.
Definition pingresp_encode (fix_header : FixHeader) : encoder3 := ecnode fix_header.
Definition pingresp_to_bytes (fix_header : FixHeader) : outcome Empty_set BytesMut := to_bytes fix_header.
Definition disconnect_encode (fix_header : FixHeader) : encoder3 := ecnode fix_header.
Definition disconnect_to_bytes (fix_header : FixHeader) : outcome Empty_set BytesMut := to_bytes fix_header.

End Encode.

(** ** Lemmas *)

Definition ack_body (h : FixHeader) (b : bytes) {N : Nom} : outcome Nerr AckPacket :=
  '(_, id) ← streaming_be_u16 b; Ok (mkAckPacket h (mkAckVariableHeader id)).

(** An acknowledgement with its identifier in range. *)
Definition wf_ack3 (p : AckPacket) : Prop :=
  wf_fix_header (a3_fix_header p) /\ ack_flags_ok (a3_fix_header p) /\
  fx_remaining_length (a3_fix_header p) = 2 /\ is_u16 (a3_packet_identifier (a3_variable_header p)).

Definition ack3_bytes (p : AckPacket) : bytes := be_u16 (a3_packet_identifier (a3_variable_header p)).

Section ParseLemmas.
Context {N : Nom} {NS : NomSpec N}.

Lemma ack_parse_framed i : ack_parse i = framed (fun _ => true) (fun h b => ack_body h b) i.
Proof.
  unfold ack_parse. rewrite (framed_flat_map (fun _ => streaming_be_u16)
    (fun h c => mkAckPacket h (mkAckVariableHeader (c.2)))).
  unfold framed_by, framed_body, ack_body. destruct (V3FixedHeader.parse i) as [[r h]|e| |]; try done.
  cbn [mbind outcome_bind]. destruct (_ <? _); [done|].
  by destruct (streaming_be_u16 _) as [[]|e| |].
Qed.

Lemma ack3_body_returns h b : returns (ack_body h b).
Proof. unfold ack_body. rewrite streaming_be_u16_spec. by destruct b as [|? [|? ?]]. Qed.

Lemma ack3_body_reads h p :
  ack_body h (ack3_bytes p) = Ok (mkAckPacket h (a3_variable_header p)).
Proof.
  destruct p as [h' [id]]. unfold ack_body, ack3_bytes, be_u16. rewrite streaming_be_u16_spec.
  cbn [mbind outcome_bind a3_variable_header a3_packet_identifier]. by rewrite from_be_u16_be.
Qed.

Lemma bare_parse_run i : bare_parse i = V3FixedHeader.parse i.
Proof.
  unfold bare_parse. rewrite nom_map_spec. by destruct (V3FixedHeader.parse i) as [[]|e| |].
Qed.

End ParseLemmas.

Section EncodeLemmas.
Context {B : BytesCrate} {BS : BytesCrateSpec B}.

Lemma writes_ack_encode p :
  wf_ack3 p -> writes (ack_encode p) true (header_bytes (a3_fix_header p) ++ ack3_bytes p).
Proof. intros (Hh & _). exact (writes_bind (writes_ecnode _ Hh) (writes_put_u16 _)). Qed.

Lemma writes_ack_to_bytes p :
  wf_ack3 p -> writes (put_bytes (ack_to_bytes p)) true (header_bytes (a3_fix_header p) ++ ack3_bytes p).
Proof.
  intros (Hh & _). apply writes_put_bytes.
  exact (writes_bind (writes_put_header _ Hh) (writes_put_bytes _ _ (writes_put_u16 _))).
Qed.

End EncodeLemmas.
