(* ===== verification/V3Connack.v ===== *)
(** * MQTT 3.1.1 CONNACK and SUBACK

    [mqtt/src/v3/connack.rs] and [mqtt/src/v3/suback.rs]: the packets, their
    constructors, parsers and encoders. *)

From S2P Require Import Prelude Utf8 Buf V5Common V3Nom V3FixedHeader V3Common V3Ack.

(** ** CONNACK *)

Record ConnackVariableHeader := mkConnackVariableHeader {
  ck_session_present : bool;
  ck_connect_return_code : Z;
}.

Record ConnAckPacket := mkConnAckPacket {
  ck_fix_header : FixHeader;
  ck_variable_header : ConnackVariableHeader;
}.

Inductive ConnackReturnCode :=
  | Accept | UnsupportedProtocolVersion | InvalidClientIdentifier | ServerUnavailable
  | InvalidUsernameOrPassword | UnAuthorized.

Record ConnAckPacketBuilder := mkConnAckPacketBuilder {
  cb_return_code : ConnackReturnCode;
  cb_session_present : bool;
}.

Definition connack_builder_new : ConnAckPacketBuilder := mkConnAckPacketBuilder Accept false.
Definition set_session_present (session_present : bool) (b : ConnAckPacketBuilder)
    : ConnAckPacketBuilder := mkConnAckPacketBuilder (cb_return_code b) session_present.
Definition set_return_code (return_code : ConnackReturnCode) (b : ConnAckPacketBuilder)
    : ConnAckPacketBuilder := mkConnAckPacketBuilder return_code (cb_session_present b).

(** The [match self.return_code] of [build]. *)
Definition connack_code (c : ConnackReturnCode) : Z :=
  match c with
  | Accept => 0x00
  | UnsupportedProtocolVersion => 0x01
  | InvalidClientIdentifier => 0x02
  | ServerUnavailable => 0x03
  | InvalidUsernameOrPassword => 0x04
  | UnAuthorized => 0x05
  end.

Definition connack_build (b : ConnAckPacketBuilder) : ConnAckPacket :=
  let fix_header := mkFixHeader CONNACK None None None 2 in
  let return_code := connack_code (cb_return_code b) in
  mkConnAckPacket fix_header (mkConnackVariableHeader (cb_session_present b) return_code).

Section ConnackParse.
Context {N : Nom}.

Definition connack_variable_header : parser bytes ConnackVariableHeader :=
  unwind (nom_map (nom_tuple (streaming_take 1) (streaming_take 1)) (fun v =>
    b ← index 0 (v.1);
    let session_present := Z.land b 0x1 =? 0x1 in
    connect_return_code ← index 0 (v.2);
    Ok (mkConnackVariableHeader session_present connect_return_code))).

Definition connack_parse : parser bytes ConnAckPacket :=
  nom_flat_map V3FixedHeader.parse (fun fixed_header =>
    nom_map
      (nom_map_res (streaming_take (fx_remaining_length fixed_header)) connack_variable_header)
      (fun v => mkConnAckPacket fixed_header (v.2))).

End ConnackParse.

Section ConnackEncode.
Context {B : BytesCrate}.

Definition connack_variable_header_encode (v : ConnackVariableHeader) : encoder3 :=
  (if ck_session_present v then put_u8 1 else put_u8 0);;
  put_u8 (ck_connect_return_code v).
Definition connack_variable_header_to_bytes (v : ConnackVariableHeader)
    : outcome Empty_set BytesMut :=
  with_new_buffer (
    (if ck_session_present v then put_u8 1 else put_u8 0);;
    put_u8 (ck_connect_return_code v)).

Definition connack_encode (p : ConnAckPacket) : encoder3 :=
  ecnode (ck_fix_header p);;
  connack_variable_header_encode (ck_variable_header p).

Definition connack_to_bytes (p : ConnAckPacket) : outcome Empty_set BytesMut :=
  with_new_buffer (
    put_bytes (to_bytes (ck_fix_header p));;
    put_bytes (connack_variable_header_to_bytes (ck_variable_header p))).

End ConnackEncode.

(** ** SUBACK *)

Inductive ReturnCode := MaxQos0 | MaxQos1 | MaxQos2 | Failure | Invalid.

Record SubackPacket := mkSubackPacket {
  sk_fix_header : FixHeader;
  sk_variable_header : AckVariableHeader;
  sk_return_code : list ReturnCode;         (* struct Payload *)
}.

Definition suback_new (packet_identifier : Z) (return_code : list ReturnCode) : SubackPacket :=
  mkSubackPacket (mkFixHeader SUBACK None None None (2 + zlen return_code))
    (mkAckVariableHeader packet_identifier) return_code.

Section SubackParse.
Context {N : Nom}.

Definition suback_variable_header : parser bytes AckVariableHeader :=
  nom_map streaming_be_u16 mkAckVariableHeader.

(** The closure of [payload] on one byte. *)
Definition return_code_of (byte : Z) : ReturnCode :=
  if byte =? 0x00 then MaxQos0
  else if byte =? 0x01 then MaxQos1
  else if byte =? 0x02 then MaxQos2
  else if byte =? 0x80 then Failure
  else Invalid.

Definition suback_payload : parser bytes (list ReturnCode) :=
  nom_map (nom_many0 complete_be_u8) (map return_code_of).

Definition suback_parse : parser bytes SubackPacket :=
  nom_flat_map V3FixedHeader.parse (fun fixed_header =>
    nom_map
      (nom_map_res (streaming_take (fx_remaining_length fixed_header))
         (nom_tuple suback_variable_header suback_payload))
      (fun '(_, (variable_header, payload)) =>
         mkSubackPacket fixed_header variable_header payload)).

End SubackParse.

Section SubackEncode.
Context {B : BytesCrate}.

(** [match code { .. }] of [Payload::encode] and [Payload::to_bytes]: [Invalid]
    is not written. *)
Definition put_return_code (code : ReturnCode) : encoder3 :=
  match code with
  | MaxQos0 => put_u8 0x00
  | MaxQos1 => put_u8 0x01
  | MaxQos2 => put_u8 0x02
  | Failure => put_u8 0x80
  | Invalid => mret tt
  end.
Fixpoint suback_payload_encode (codes : list ReturnCode) : encoder3 :=
  match codes with
  | [] => mret tt
  | code :: codes => put_return_code code;; suback_payload_encode codes
  end.
Definition suback_payload_to_bytes (codes : list ReturnCode) : outcome Empty_set BytesMut :=
  with_new_buffer (suback_payload_encode codes).

Definition suback_encode (p : SubackPacket) : encoder3 :=
  ecnode (sk_fix_header p);;
  ack_variable_header_encode (sk_variable_header p);;
  suback_payload_encode (sk_return_code p).

Definition suback_to_bytes (p : SubackPacket) : outcome Empty_set BytesMut :=
  with_new_buffer (
    put_bytes (to_bytes (sk_fix_header p));;
    put_bytes (ack_variable_header_to_bytes (sk_variable_header p));;
    put_bytes (suback_payload_to_bytes (sk_return_code p))).

End SubackEncode.

(** ** Lemmas *)

Definition wf_connack3 (p : ConnAckPacket) : Prop :=
  wf_fix_header (ck_fix_header p) /\ ack_flags_ok (ck_fix_header p) /\
  fx_remaining_length (ck_fix_header p) = 2 /\ is_u8 (ck_connect_return_code (ck_variable_header p)).

Definition connack3_bytes (p : ConnAckPacket) : bytes :=
  [Z.b2z (ck_session_present (ck_variable_header p)); ck_connect_return_code (ck_variable_header p)].

(** A list of codes that can be written. *)
Definition code_byte (c : ReturnCode) : Z :=
  match c with MaxQos0 => 0 | MaxQos1 => 1 | MaxQos2 => 2 | Failure | Invalid => 0x80 end.

Definition wf_suback3 (p : SubackPacket) : Prop :=
  wf_fix_header (sk_fix_header p) /\ ack_flags_ok (sk_fix_header p) /\
  fx_remaining_length (sk_fix_header p) = 2 + zlen (sk_return_code p) /\
  is_u16 (a3_packet_identifier (sk_variable_header p)) /\
  Forall (fun c => c <> Invalid) (sk_return_code p).

Definition suback3_bytes (p : SubackPacket) : bytes :=
  be_u16 (a3_packet_identifier (sk_variable_header p)) ++ map code_byte (sk_return_code p).

Section ParseLemmas.
Context {N : Nom} {NS : NomSpec N}.

Definition connack_body (h : FixHeader) (b : bytes) : outcome Nerr ConnAckPacket :=
  '(_, v) ← connack_variable_header b; Ok (mkConnAckPacket h v).

Lemma connack_parse_framed i : connack_parse i = framed (fun _ => true) connack_body i.
Proof.
  unfold connack_parse. rewrite (framed_flat_map (fun _ => connack_variable_header)
    (fun h c => mkConnAckPacket h (c.2))).
  unfold framed_by, framed_body, connack_body. destruct (V3FixedHeader.parse i) as [[r h]|e| |]; try done.
  cbn [mbind outcome_bind]. destruct (_ <? _); [done|].
  by destruct (connack_variable_header _) as [[]|e| |].
Qed.

Lemma connack_variable_header_run b :
  connack_variable_header b =
    match b with
    | b0 :: b1 :: r => Ok (r, mkConnackVariableHeader (Z.land b0 1 =? 1) b1)
    | _ => Err NIncomplete
    end.
Proof.
  unfold connack_variable_header, unwind. rewrite nom_map_spec, nom_tuple_spec, streaming_take_spec.
  destruct b as [|b0 b]; [done|]. rewrite (proj2 (Z.ltb_ge _ _)) by (unfold zlen; simpl; lia).
  change (drop _ (b0 :: b)) with b. change (take _ (b0 :: b)) with [b0].
  cbn [mbind outcome_bind]. rewrite streaming_take_spec.
  destruct b as [|b1 b]; [done|]. rewrite (proj2 (Z.ltb_ge _ _)) by (unfold zlen; simpl; lia).
  by change (drop _ (b1 :: b)) with b.
Qed.

Lemma connack_body_returns h b : returns (connack_body h b).
Proof. unfold connack_body. rewrite connack_variable_header_run. by destruct b as [|? [|? ?]]. Qed.

Lemma connack3_body_reads h p :
  connack_body h (connack3_bytes p) = Ok (mkConnAckPacket h (ck_variable_header p)).
Proof.
  destruct p as [h' [sp c]]. unfold connack_body, connack3_bytes.
  rewrite connack_variable_header_run. cbn [mbind outcome_bind]. by destruct sp.
Qed.

(** [many0] over single bytes reads them all. *)
Lemma many0_bytes l : nom_many0 complete_be_u8 l = Ok ([], l).
Proof.
  induction l as [|b l IH].
  - destruct complete_be_u8_short as [k Hk]. by apply nom_many0_stop with k.
  - rewrite (nom_many0_step _ _ _ l b) by (apply complete_be_u8_ok || simpl; lia). by rewrite IH.
Qed.

Definition suback_body (h : FixHeader) (b : bytes) : outcome Nerr SubackPacket :=
  match b with
  | b0 :: b1 :: r =>
      Ok (mkSubackPacket h (mkAckVariableHeader (from_be_u16 b0 b1)) (map return_code_of r))
  | _ => Err NIncomplete
  end.

Lemma suback_parse_framed i : suback_parse i = framed (fun _ => true) suback_body i.
Proof.
  unfold suback_parse. rewrite (framed_flat_map (fun _ => nom_tuple suback_variable_header suback_payload)
    (fun h '(_, (v, p)) => mkSubackPacket h v p)).
  unfold framed_by, framed_body, suback_body. destruct (V3FixedHeader.parse i) as [[r h]|e| |]; try done.
  cbn [mbind outcome_bind]. destruct (_ <? _); [done|].
  unfold suback_variable_header, suback_payload. rewrite nom_tuple_spec, nom_map_spec, streaming_be_u16_spec.
  destruct (take _ r) as [|b0 [|b1 b]]; try done. cbn [mbind outcome_bind].
  by rewrite nom_map_spec, many0_bytes.
Qed.

Lemma suback3_body_reads h p :
  wf_suback3 p ->
  suback_body h (suback3_bytes p) = Ok (mkSubackPacket h (sk_variable_header p) (sk_return_code p)).
Proof.
  destruct p as [h' [id] codes]. intros (_ & _ & _ & _ & Hc). unfold suback_body, suback3_bytes, be_u16.
  cbn [sk_variable_header sk_return_code a3_packet_identifier app] in *. rewrite from_be_u16_be.
  do 2 f_equal. rewrite map_map. induction Hc as [|c l Hc _ IH]; [done|]. cbn [map].
  rewrite IH. f_equal. by destruct c.
Qed.

End ParseLemmas.

Section EncodeLemmas.
Context {B : BytesCrate} {BS : BytesCrateSpec B}.

Lemma writes_connack_variable_header v :
  writes (connack_variable_header_encode v) true [Z.b2z (ck_session_present v); ck_connect_return_code v].
Proof.
  unfold connack_variable_header_encode.
  refine (writes_bind (o1 := [_]) (ok1 := true) _ (writes_put_u8 _)).
  destruct (ck_session_present v); apply writes_put_u8.
Qed.

Lemma writes_connack_encode p :
  wf_connack3 p -> writes (connack_encode p) true (header_bytes (ck_fix_header p) ++ connack3_bytes p).
Proof.
  intros (Hh & _). exact (writes_bind (writes_ecnode _ Hh) (writes_connack_variable_header _)).
Qed.

Lemma writes_connack_to_bytes p :
  wf_connack3 p ->
  writes (put_bytes (connack_to_bytes p)) true (header_bytes (ck_fix_header p) ++ connack3_bytes p).
Proof.
  intros (Hh & _). apply writes_put_bytes. refine (writes_bind (writes_put_header _ Hh) (ok2 := true) _).
  apply writes_put_bytes. apply writes_connack_variable_header.
Qed.

Lemma writes_codes codes :
  Forall (fun c => c <> Invalid) codes ->
  writes (suback_payload_encode codes) true (map code_byte codes).
Proof.
  induction 1 as [|c codes Hc _ IH]; [apply writes_ret|].
  refine (writes_bind (o1 := [code_byte c]) (ok1 := true) _ IH).
  destruct c; try done; apply writes_put_u8.
Qed.

Lemma writes_suback_encode p :
  wf_suback3 p -> writes (suback_encode p) true (header_bytes (sk_fix_header p) ++ suback3_bytes p).
Proof.
  intros (Hh & _ & _ & _ & Hc). refine (writes_bind (writes_ecnode _ Hh) (ok2 := true) _).
  exact (writes_bind (writes_put_u16 _) (writes_codes _ Hc)).
Qed.

Lemma writes_suback_to_bytes p :
  wf_suback3 p ->
  writes (put_bytes (suback_to_bytes p)) true (header_bytes (sk_fix_header p) ++ suback3_bytes p).
Proof.
  intros (Hh & _ & _ & _ & Hc). apply writes_put_bytes.
  refine (writes_bind (writes_put_header _ Hh) (ok2 := true) _).
  refine (writes_bind (writes_put_bytes _ _ (writes_put_u16 _)) (ok2 := true) _).
  apply writes_put_bytes, writes_codes, Hc.
Qed.

End EncodeLemmas.
