(* ===== verification/V3Publish.v ===== *)
(** * MQTT 3.1.1 PUBLISH ([mqtt/src/v3/publish.rs])

    The builder, the parser with its limit on the message size and the
    encoders.  The identifier [rand] gives a packet that has none is an
    argument. *)

From S2P Require Import Prelude Utf8 Buf V5Common V3Nom V3FixedHeader V3Common.

Record PublishVariableHeader := mkPublishVariableHeader {
  pv_topic_name : string;
  pv_packet_identifier : option Z;
}.

Record PublishPacket := mkPublishPacket {
  pu_fix_header : FixHeader;
  pu_variable_header : PublishVariableHeader;
  pu_payload : bytes;                        (* struct Payload *)
}.

Record PublishPacketBuilder := mkPublishPacketBuilder {
  bp_dup : bool;
  bp_retain : bool;
  bp_qos : Z;
  bp_topic_name : string;
  bp_payload : bytes;
  bp_packet_identifier : option Z;
}.

(** [PublishPacket::builder], the derived [Default]. *)
Definition publish_builder : PublishPacketBuilder :=
  mkPublishPacketBuilder false false 0 "" [] None.
Definition publish_builder_new (topic_name : string) (payload : bytes) : PublishPacketBuilder :=
  mkPublishPacketBuilder false false 0 topic_name payload None.
Definition builder_dup (dup : bool) (b : PublishPacketBuilder) : PublishPacketBuilder :=
  mkPublishPacketBuilder dup (bp_retain b) (bp_qos b) (bp_topic_name b) (bp_payload b)
    (bp_packet_identifier b).
Definition builder_retain (retain : bool) (b : PublishPacketBuilder) : PublishPacketBuilder :=
  mkPublishPacketBuilder (bp_dup b) retain (bp_qos b) (bp_topic_name b) (bp_payload b)
    (bp_packet_identifier b).
Definition builder_qos (qos : Z) (b : PublishPacketBuilder) : PublishPacketBuilder :=
  mkPublishPacketBuilder (bp_dup b) (bp_retain b) qos (bp_topic_name b) (bp_payload b)
    (bp_packet_identifier b).
Definition builder_topic_name (topic_name : string) (b : PublishPacketBuilder)
    : PublishPacketBuilder :=
  mkPublishPacketBuilder (bp_dup b) (bp_retain b) (bp_qos b) topic_name (bp_payload b)
    (bp_packet_identifier b).
Definition builder_payload (payload : bytes) (b : PublishPacketBuilder) : PublishPacketBuilder :=
  mkPublishPacketBuilder (bp_dup b) (bp_retain b) (bp_qos b) (bp_topic_name b) payload
    (bp_packet_identifier b).
Definition builder_packet_identifier (packet_identifier : Z) (b : PublishPacketBuilder)
    : PublishPacketBuilder :=
  mkPublishPacketBuilder (bp_dup b) (bp_retain b) (bp_qos b) (bp_topic_name b) (bp_payload b)
    (Some packet_identifier).

(** [VariableHeader::get_length], the capacity of [to_bytes]'s buffer. *)
Definition publish_variable_header_get_length (v : PublishVariableHeader) : Z :=
  match pv_packet_identifier v with
  | Some _ => zlen (as_bytes (pv_topic_name v)) + 2 + 2
  | None => zlen (as_bytes (pv_topic_name v)) + 2
  end.

Section Encode.
Context {B : BytesCrate}.

Definition publish_variable_header_encode (v : PublishVariableHeader) : encoder3 :=
  put_str_expect (pv_topic_name v);;
  match pv_packet_identifier v with
  | Some packet_identifier => put_u16 packet_identifier
  | None => mret tt
  end.
Definition publish_variable_header_to_bytes (v : PublishVariableHeader)
    : outcome Empty_set BytesMut :=
  with_new_buffer (
    put_str_expect (pv_topic_name v);;
    match pv_packet_identifier v with
    | Some packet_identifier => put_u16 packet_identifier
    | None => mret tt
    end).

Definition publish_payload_encode (payload : bytes) : encoder3 := extend_from_slice payload.
Definition publish_payload_to_bytes (payload : bytes) : outcome Empty_set BytesMut :=
  with_new_buffer (extend_from_slice payload).

(** [build]; [random] is what [generate_random_u16] returns. *)
Definition publish_build (random : Z) (b : PublishPacketBuilder)
    : outcome Empty_set PublishPacket :=
  let dup := if bp_dup b then Some 1 else None in
  let packet_identifier :=
    if 0 <? bp_qos b then
      match bp_packet_identifier b with
      | None => Some random
      | Some packet_identifier => Some packet_identifier
      end
    else None in
  let variable_header := mkPublishVariableHeader (bp_topic_name b) packet_identifier in
  header_bytes ← publish_variable_header_to_bytes variable_header;
  payload_bytes ← publish_payload_to_bytes (bp_payload b);
  let remaining_length := zlen (bm_slice header_bytes) + zlen (bm_slice payload_bytes) in
  Ok (mkPublishPacket
        (mkFixHeader PUBLISH (Some (bp_qos b)) (Some (bp_retain b)) dup remaining_length)
        variable_header (bp_payload b)).

Definition publish_encode (p : PublishPacket) : encoder3 :=
  ecnode (pu_fix_header p);;
  publish_variable_header_encode (pu_variable_header p);;
  publish_payload_encode (pu_payload p).

Definition publish_to_bytes (p : PublishPacket) : outcome Empty_set BytesMut :=
  with_new_buffer (
    put_bytes (to_bytes (pu_fix_header p));;
    put_bytes (publish_variable_header_to_bytes (pu_variable_header p));;
    put_bytes (publish_payload_to_bytes (pu_payload p))).

End Encode.

Section Parse.
Context {N : Nom}.

Definition publish_variable_header (qos_1_or_2 : bool) : parser bytes PublishVariableHeader :=
  fun i =>
  if qos_1_or_2 then
    nom_map (nom_tuple parse_utf8_complete complete_be_u16)
      (fun '(topic_name, packet_identifier) =>
         mkPublishVariableHeader topic_name (Some packet_identifier)) i
  else
    nom_map parse_utf8_complete (fun topic_name => mkPublishVariableHeader topic_name None) i.

(** [fixed_header.qos == Some(1) || fixed_header.qos == Some(2)]. *)
Definition qos_1_or_2 (h : FixHeader) : bool :=
  bool_decide (fx_qos h = Some 1) || bool_decide (fx_qos h = Some 2).

Definition parse_with_max_message_size_limit (max_message_size : Z)
    : parser bytes PublishPacket := fun input =>
  '(input, fixed_header) ← nom_verify V3FixedHeader.parse
     (fun fixed_header => fx_remaining_length fixed_header <=? max_message_size) input;
  nom_map
    (nom_map_res (streaming_take (fx_remaining_length fixed_header))
       (nom_tuple (publish_variable_header (qos_1_or_2 fixed_header)) nom_rest))
    (fun '(_, (variable_header, payload_bytes)) =>
       mkPublishPacket fixed_header variable_header payload_bytes) input.

(** [parse]: the same with a limit of 1000 bytes. *)
Definition publish_parse : parser bytes PublishPacket := fun input =>
  '(input, fixed_header) ← nom_verify V3FixedHeader.parse
     (fun fixed_header => fx_remaining_length fixed_header <=? 1000) input;
  nom_map
    (nom_map_res (streaming_take (fx_remaining_length fixed_header))
       (nom_tuple (publish_variable_header (qos_1_or_2 fixed_header)) nom_rest))
    (fun '(_, (variable_header, payload_bytes)) =>
       mkPublishPacket fixed_header variable_header payload_bytes) input.

End Parse.

(** ** Lemmas *)

Definition publish_variable_bytes (v : PublishVariableHeader) : bytes :=
  string_bytes (pv_topic_name v) ++
  match pv_packet_identifier v with Some id => be_u16 id | None => [] end.
Definition publish3_bytes (p : PublishPacket) : bytes :=
  publish_variable_bytes (pu_variable_header p) ++ pu_payload p.

(** A PUBLISH whose identifier goes with its quality of service. *)
Definition wf_publish3 (p : PublishPacket) : Prop :=
  wf_fix_header (pu_fix_header p) /\ fx_packet_type (pu_fix_header p) = PUBLISH /\
  fx_remaining_length (pu_fix_header p) = zlen (publish3_bytes p) /\
  is_str (pv_topic_name (pu_variable_header p)) /\
  zlen (as_bytes (pv_topic_name (pu_variable_header p))) <= u16_max /\
  is_bytes (pu_payload p) /\
  match pv_packet_identifier (pu_variable_header p) with
  | Some id => is_u16 id /\ qos_1_or_2 (pu_fix_header p) = true
  | None => qos_1_or_2 (pu_fix_header p) = false
  end.

Section ParseLemmas.
Context {N : Nom} {NS : NomSpec N}.

Definition publish_body (h : FixHeader) (b : bytes) : outcome Nerr PublishPacket :=
  '(r, v) ← publish_variable_header (qos_1_or_2 h) b; Ok (mkPublishPacket h v r).

Lemma publish_parse_framed max i :
  parse_with_max_message_size_limit max i =
    framed (fun h => fx_remaining_length h <=? max) publish_body i.
Proof.
  unfold parse_with_max_message_size_limit.
  rewrite (framed_verify (fun h => fx_remaining_length h <=? max)
    (fun h => nom_tuple (publish_variable_header (qos_1_or_2 h)) nom_rest)
    (fun h '(_, (v, b)) => mkPublishPacket h v b)).
  unfold framed_by. destruct (V3FixedHeader.parse i) as [[r h]|e| |]; try done.
  cbn [mbind outcome_bind]. unfold framed_body, publish_body.
  destruct (_ <=? _); [|done]. destruct (_ <? _); [done|].
  rewrite nom_tuple_spec. destruct (publish_variable_header _ _) as [[]|e| |]; try done.
  cbn [mbind outcome_bind]. by rewrite nom_rest_spec.
Qed.

Lemma publish_body_returns h b : is_bytes b -> returns (publish_body h b).
Proof.
  intros Hb. unfold publish_body, publish_variable_header.
  pose proof (parses_parse_utf8_complete b Hb) as Hs.
  destruct (qos_1_or_2 h); rewrite nom_map_spec, ?nom_tuple_spec;
    destruct (parse_utf8_complete b) as [[r s]|[]| |]; try done. cbn [mbind outcome_bind].
  destruct r as [|b0 [|b1 r]].
  - by destruct (complete_be_u16_short [] ltac:(simpl; lia)) as [k ->].
  - by destruct (complete_be_u16_short [b0] ltac:(simpl; lia)) as [k ->].
  - by rewrite complete_be_u16_ok.
Qed.

Lemma publish3_body_reads h p :
  wf_publish3 p -> fx_qos h = Some (default 0 (fx_qos (pu_fix_header p))) ->
  publish_body h (publish3_bytes p) = Ok (mkPublishPacket h (pu_variable_header p) (pu_payload p)).
Proof.
  destruct p as [h' [t id] pl]. intros (_ & _ & _ & Hs & Hl & _ & Hq) Hh.
  cbn [pu_fix_header pu_variable_header pu_payload pv_topic_name pv_packet_identifier] in *.
  unfold publish_body, publish3_bytes, publish_variable_bytes, publish_variable_header.
  cbn [pu_fix_header pu_variable_header pu_payload pv_topic_name pv_packet_identifier].
  assert (qos_1_or_2 h = qos_1_or_2 h') as ->.
  { unfold qos_1_or_2. rewrite Hh. by destruct (fx_qos h'). }
  rewrite <-app_assoc. destruct id as [id|].
  - destruct Hq as [Hid ->]. rewrite nom_map_spec, nom_tuple_spec.
    rewrite reads_parse_utf8_complete by done. cbn [mbind outcome_bind].
    unfold be_u16. cbn [app]. rewrite complete_be_u16_ok, from_be_u16_be. done.
  - rewrite Hq, nom_map_spec. by rewrite reads_parse_utf8_complete.
Qed.

End ParseLemmas.

Lemma publish3_is_bytes p : wf_publish3 p -> is_bytes (publish3_bytes p).
Proof.
  intros (_ & _ & _ & _ & Hl & Hp & Hq). unfold publish3_bytes, publish_variable_bytes.
  apply is_bytes_app; split; [|done]. apply is_bytes_app; split; [auto with yed|].
  destruct (pv_packet_identifier _); [|constructor]. by apply be_u16_bytes, Hq.
Qed.

(** The capacity is what is needed. *)
Lemma publish_capacity v : publish_variable_header_get_length v = zlen (publish_variable_bytes v).
Proof.
  unfold publish_variable_header_get_length, publish_variable_bytes.
  destruct (pv_packet_identifier v); autorewrite with zlen; lia.
Qed.

Section EncodeLemmas.
Context {B : BytesCrate} {BS : BytesCrateSpec B}.

Lemma writes_publish_variable v :
  zlen (as_bytes (pv_topic_name v)) <= u16_max ->
  writes (publish_variable_header_encode v) true (publish_variable_bytes v).
Proof.
  intros Hl. refine (writes_bind (writes_put_str_expect _ Hl) (ok2 := true) _).
  destruct (pv_packet_identifier v); [apply writes_put_u16|apply writes_ret].
Qed.

Lemma writes_publish_encode p :
  wf_publish3 p -> writes (publish_encode p) true (header_bytes (pu_fix_header p) ++ publish3_bytes p).
Proof.
  intros (Hh & _ & _ & _ & Hl & _). refine (writes_bind (writes_ecnode _ Hh) (ok2 := true) _).
  exact (writes_bind (writes_publish_variable _ Hl) (writes_extend _)).
Qed.

Lemma writes_publish_to_bytes p :
  wf_publish3 p ->
  writes (put_bytes (publish_to_bytes p)) true (header_bytes (pu_fix_header p) ++ publish3_bytes p).
Proof.
  intros (Hh & _ & _ & _ & Hl & _). apply writes_put_bytes.
  refine (writes_bind (writes_put_header _ Hh) (ok2 := true) _).
  refine (writes_bind (ok1 := true) (writes_put_bytes _ _ (writes_publish_variable _ Hl)) (ok2 := true) _).
  apply writes_put_bytes, writes_extend.
Qed.

(** The builder computes the length of what is written. *)
Lemma publish_build_run random b :
  zlen (as_bytes (bp_topic_name b)) <= u16_max ->
  let v := mkPublishVariableHeader (bp_topic_name b)
             (if 0 <? bp_qos b then Some (default random (bp_packet_identifier b)) else None) in
  publish_build random b =
    Ok (mkPublishPacket
      (mkFixHeader PUBLISH (Some (bp_qos b)) (Some (bp_retain b))
         (if bp_dup b then Some 1 else None) (zlen (publish_variable_bytes v ++ bp_payload b)))
      v (bp_payload b)).
Proof.
  intros Hl v. unfold publish_build.
  replace (match bp_packet_identifier b with None => Some random | Some id => Some id end)
    with (Some (default random (bp_packet_identifier b))) by (by destruct (bp_packet_identifier b)).
  fold v. unfold publish_variable_header_to_bytes, publish_payload_to_bytes.
  destruct (writes_new_buffer _ _ (writes_publish_variable v Hl)) as (vb & Ev & Hv).
  unfold publish_variable_header_encode in Ev. rewrite Ev. cbn [mbind outcome_bind].
  destruct (writes_new_buffer _ _ (writes_extend (bp_payload b))) as (pb & Ep & Hp).
  rewrite Ep. cbn [mbind outcome_bind]. by rewrite Hv, Hp, zlen_app.
Qed.

End EncodeLemmas.
