(* ===== verification/V3Subscribe.v ===== *)
(** * MQTT 3.1.1 SUBSCRIBE and UNSUBSCRIBE

    [mqtt/src/v3/subscribe.rs] and [mqtt/src/v3/unsubscribe.rs]: the packets,
    their builders, parsers and the two encoders each.  [encode] writes the
    fixed header of [FixHeader], [to_bytes] one of its own with the reserved
    flags and a one-byte length. *)

From S2P Require Import Prelude Utf8 Buf V5Common V3Nom V3FixedHeader V3Common V3Ack.

(** ** SUBSCRIBE *)

Record SubscribeTopicFilter := mkSubscribeTopicFilter {
  sf_topic_name : string;
  sf_qos : Z;
}.

Record SubscribePacket := mkSubscribePacket {
  su_fix_header : FixHeader;
  su_variable_header : AckVariableHeader;
  su_topic_filters : list SubscribeTopicFilter;      (* struct Payload *)
}.

Definition subscribe_filter_get_length (f : SubscribeTopicFilter) : Z :=
  zlen (as_bytes (sf_topic_name f)) + 2 + 1.

(** The [for] loop of [Payload::get_length]. *)
Fixpoint subscribe_payload_get_length (topic_filters : list SubscribeTopicFilter)
    (total_length : Z) : Z :=
  match topic_filters with
  | [] => total_length
  | f :: topic_filters =>
      subscribe_payload_get_length topic_filters (total_length + subscribe_filter_get_length f)
  end.

Record SubscribePacketBuilder := mkSubscribePacketBuilder {
  b3_topic_filters : list SubscribeTopicFilter;
  b3_packet_identifier : Z;
}.
Definition subscribe_builder_new (packet_identifier : Z) : SubscribePacketBuilder :=
  mkSubscribePacketBuilder [] packet_identifier.
Definition subscribe_add_topic_filter (f : SubscribeTopicFilter) (b : SubscribePacketBuilder)
    : SubscribePacketBuilder :=
  mkSubscribePacketBuilder (b3_topic_filters b ++ [f]) (b3_packet_identifier b).
Definition subscribe_build (b : SubscribePacketBuilder) : SubscribePacket :=
  mkSubscribePacket
    (mkFixHeader SUBSCRIBE None None None
       (2 + subscribe_payload_get_length (b3_topic_filters b) 0))
    (mkAckVariableHeader (b3_packet_identifier b)) (b3_topic_filters b).

(** ** UNSUBSCRIBE *)

Record UnsubscribeTopicFilter := mkUnsubscribeTopicFilter { uf_topic_name : string }.

Record UnsubscribePacket := mkUnsubscribePacket {
  un_fix_header : FixHeader;
  un_variable_header : AckVariableHeader;
  un_topic_filters : list UnsubscribeTopicFilter;    (* struct Payload *)
}.

Definition unsubscribe_filter_get_length (f : UnsubscribeTopicFilter) : Z :=
  zlen (as_bytes (uf_topic_name f)) + 2.

Fixpoint unsubscribe_payload_get_length (topic_filters : list UnsubscribeTopicFilter)
    (total_length : Z) : Z :=
  match topic_filters with
  | [] => total_length
  | f :: topic_filters =>
      unsubscribe_payload_get_length topic_filters (total_length + unsubscribe_filter_get_length f)
  end.

Record UnsubscribePacketBuilder := mkUnsubscribePacketBuilder {
  ub_topic_filters : list UnsubscribeTopicFilter;
  ub_packet_identifier : Z;
}.
Definition unsubscribe_builder_new (packet_identifier : Z) : UnsubscribePacketBuilder :=
  mkUnsubscribePacketBuilder [] packet_identifier.
Definition unsubscribe_add_topic_filter (f : UnsubscribeTopicFilter) (b : UnsubscribePacketBuilder)
    : UnsubscribePacketBuilder :=
  mkUnsubscribePacketBuilder (ub_topic_filters b ++ [f]) (ub_packet_identifier b).
Definition unsubscribe_build (b : UnsubscribePacketBuilder) : UnsubscribePacket :=
  mkUnsubscribePacket
    (mkFixHeader UNSUBSCRIBE None None None
       (2 + unsubscribe_payload_get_length (ub_topic_filters b) 0))
    (mkAckVariableHeader (ub_packet_identifier b)) (ub_topic_filters b).

Section Parse.
Context {N : Nom}.

Definition subscribe_topic_filter : parser bytes SubscribeTopicFilter :=
  nom_map (nom_tuple parse_utf8_complete complete_be_u8)
    (fun '(topic_name, qos) => mkSubscribeTopicFilter topic_name qos).

Definition subscribe_variable_header : parser bytes AckVariableHeader :=
  nom_map streaming_be_u16 mkAckVariableHeader.

Definition subscribe_parse : parser bytes SubscribePacket :=
  nom_flat_map V3FixedHeader.parse (fun fixed_header =>
    nom_map
      (nom_map_res (streaming_take (fx_remaining_length fixed_header))
         (nom_tuple subscribe_variable_header (nom_many0 subscribe_topic_filter)))
      (fun v => mkSubscribePacket fixed_header (v.2.1) (v.2.2))).

Definition unsubscribe_topic_filter : parser bytes UnsubscribeTopicFilter :=
  nom_map parse_utf8_complete mkUnsubscribeTopicFilter.

Definition unsubscribe_variable_header : parser bytes AckVariableHeader :=
  nom_map streaming_be_u16 mkAckVariableHeader.

Definition unsubscribe_parse : parser bytes UnsubscribePacket :=
  nom_flat_map V3FixedHeader.parse (fun fixed_header =>
    nom_map
      (nom_map_res (streaming_take (fx_remaining_length fixed_header))
         (nom_tuple unsubscribe_variable_header (nom_many0 unsubscribe_topic_filter)))
      (fun v => mkUnsubscribePacket fixed_header (v.2.1) (v.2.2))).

End Parse.

Section Encode.
Context {B : BytesCrate}.

Definition subscribe_filter_to_bytes (f : SubscribeTopicFilter) : outcome Empty_set BytesMut :=
  with_new_buffer (put_str_expect (sf_topic_name f);; put_u8 (sf_qos f)).

(** [for topic_filter in .. { buf.put(topic_filter.to_bytes()) }]. *)
Fixpoint subscribe_payload_encode (topic_filters : list SubscribeTopicFilter) : encoder3 :=
  match topic_filters with
  | [] => mret tt
  | f :: topic_filters =>
      put_bytes (subscribe_filter_to_bytes f);; subscribe_payload_encode topic_filters
  end.
Definition subscribe_payload_to_bytes (topic_filters : list SubscribeTopicFilter)
    : outcome Empty_set BytesMut :=
  with_new_buffer (subscribe_payload_encode topic_filters).

Definition subscribe_get_fix_header_bytes (p : SubscribePacket) : outcome Empty_set BytesMut :=
  with_new_buffer (
    put_u8 (Z.shiftl 1 7 + Z.shiftl 1 1);;
    n ← lift (expect_u8 (fx_remaining_length (su_fix_header p)));
    put_u8 n).

Definition subscribe_encode (p : SubscribePacket) : encoder3 :=
  ecnode (su_fix_header p);;
  ack_variable_header_encode (su_variable_header p);;
  subscribe_payload_encode (su_topic_filters p).

Definition subscribe_to_bytes (p : SubscribePacket) : outcome Empty_set BytesMut :=
  with_new_buffer (
    put_bytes (subscribe_get_fix_header_bytes p);;
    put_bytes (ack_variable_header_to_bytes (su_variable_header p));;
    put_bytes (subscribe_payload_to_bytes (su_topic_filters p))).

Definition unsubscribe_filter_to_bytes (f : UnsubscribeTopicFilter) : outcome Empty_set BytesMut :=
  with_new_buffer (put_str_expect (uf_topic_name f)).

Fixpoint unsubscribe_payload_encode (topic_filters : list UnsubscribeTopicFilter) : encoder3 :=
  match topic_filters with
  | [] => mret tt
  | f :: topic_filters =>
      put_bytes (unsubscribe_filter_to_bytes f);; unsubscribe_payload_encode topic_filters
  end.
Definition unsubscribe_payload_to_bytes (topic_filters : list UnsubscribeTopicFilter)
    : outcome Empty_set BytesMut :=
  with_new_buffer (unsubscribe_payload_encode topic_filters).

Definition unsubscribe_get_fix_header_bytes (p : UnsubscribePacket) : outcome Empty_set BytesMut :=
  with_new_buffer (
    put_u8 (Z.shiftl 10 4 + Z.shiftl 1 1);;
    n ← lift (expect_u8 (fx_remaining_length (un_fix_header p)));
    put_u8 n).

Definition unsubscribe_encode (p : UnsubscribePacket) : encoder3 :=
  ecnode (un_fix_header p);;
  ack_variable_header_encode (un_variable_header p);;
  unsubscribe_payload_encode (un_topic_filters p).

Definition unsubscribe_to_bytes (p : UnsubscribePacket) : outcome Empty_set BytesMut :=
  with_new_buffer (
    put_bytes (unsubscribe_get_fix_header_bytes p);;
    put_bytes (ack_variable_header_to_bytes (un_variable_header p));;
    put_bytes (unsubscribe_payload_to_bytes (un_topic_filters p))).

End Encode.

(** ** Lemmas *)

Section Many.
Context {N : Nom} {NS : NomSpec N}.

(** [many0] reads back a sequence of encoded items. *)
Lemma many0_reads {A} (p : parser bytes A) (enc : A -> bytes) l :
  (exists k, p [] = Err (NError k)) ->
  Forall (fun a => enc a <> [] /\ reads3 p (enc a) a) l ->
  nom_many0 p (concat (map enc l)) = Ok ([], l).
Proof.
  intros [k Hk]. induction 1 as [|a l [Hne Ha] _ IH]; [by apply nom_many0_stop with k|].
  cbn [map concat]. rewrite (nom_many0_step _ _ _ (concat (map enc l)) a).
  - by rewrite IH.
  - apply Ha.
  - rewrite length_app. destruct (enc a); [done|simpl; lia].
Qed.

(** On arbitrary input [many0] returns, if its parser does and never asks for more. *)
Lemma many0_returns {A} (p : parser bytes A) Q : complete p -> parses3 p Q ->
  forall i, is_bytes i -> exists r l, nom_many0 p i = Ok (r, l).
Proof.
  intros Hc Hp. induction i as [i IH] using bytes_ind_length. intros Hi.
  pose proof (Hp i Hi) as H. pose proof (Hc i Hi) as Hni.
  destruct (p i) as [[r a]|[|k|k]| |] eqn:E; try done.
  - destruct H as (pre & -> & Hne & _). apply is_bytes_app in Hi as [_ Hr].
    assert (length r < length (pre ++ r))%nat by (rewrite length_app; destruct pre; [done|simpl; lia]).
    destruct (IH r) as (r' & l & Hl); [done|done|].
    rewrite (nom_many0_step _ _ _ r a) by done. rewrite Hl. by eexists _, _.
  - rewrite (nom_many0_stop _ _ _ k) by done. by eexists _, _.
Qed.

End Many.

Definition subscribe_filter_bytes (f : SubscribeTopicFilter) : bytes :=
  string_bytes (sf_topic_name f) ++ [sf_qos f].
Definition subscribe3_bytes (p : SubscribePacket) : bytes :=
  be_u16 (a3_packet_identifier (su_variable_header p))
  ++ concat (map subscribe_filter_bytes (su_topic_filters p)).
Definition unsubscribe_filter_bytes (f : UnsubscribeTopicFilter) : bytes :=
  string_bytes (uf_topic_name f).
Definition unsubscribe3_bytes (p : UnsubscribePacket) : bytes :=
  be_u16 (a3_packet_identifier (un_variable_header p))
  ++ concat (map unsubscribe_filter_bytes (un_topic_filters p)).

Definition wf_subscribe3 (p : SubscribePacket) : Prop :=
  wf_fix_header (su_fix_header p) /\ ack_flags_ok (su_fix_header p) /\
  fx_remaining_length (su_fix_header p) = zlen (subscribe3_bytes p) /\
  is_u16 (a3_packet_identifier (su_variable_header p)) /\
  Forall (fun f => short_str (sf_topic_name f) /\ is_u8 (sf_qos f)) (su_topic_filters p).
Definition wf_unsubscribe3 (p : UnsubscribePacket) : Prop :=
  wf_fix_header (un_fix_header p) /\ ack_flags_ok (un_fix_header p) /\
  fx_remaining_length (un_fix_header p) = zlen (unsubscribe3_bytes p) /\
  is_u16 (a3_packet_identifier (un_variable_header p)) /\
  Forall (fun f => short_str (uf_topic_name f)) (un_topic_filters p).

(** The builders compute the length of what is written. *)
Lemma subscribe_length_run l : forall n,
  subscribe_payload_get_length l n = n + zlen (concat (map subscribe_filter_bytes l)).
Proof.
  induction l as [|f l IH]; intros n; cbn [subscribe_payload_get_length map concat].
  - rewrite zlen_nil. lia.
  - rewrite IH, zlen_app. unfold subscribe_filter_get_length, subscribe_filter_bytes.
    autorewrite with zlen. lia.
Qed.
Lemma unsubscribe_length_run l : forall n,
  unsubscribe_payload_get_length l n = n + zlen (concat (map unsubscribe_filter_bytes l)).
Proof.
  induction l as [|f l IH]; intros n; cbn [unsubscribe_payload_get_length map concat].
  - rewrite zlen_nil. lia.
  - rewrite IH, zlen_app. unfold unsubscribe_filter_get_length, unsubscribe_filter_bytes.
    autorewrite with zlen. lia.
Qed.

Lemma is_bytes_concat (l : list bytes) : Forall is_bytes l -> is_bytes (concat l).
Proof. induction 1; [constructor|]. by apply is_bytes_app. Qed.

Lemma subscribe3_is_bytes p : wf_subscribe3 p -> is_bytes (subscribe3_bytes p).
Proof.
  intros (_ & _ & _ & Hid & Hf). apply is_bytes_app; split; [by apply be_u16_bytes|].
  apply is_bytes_concat, Forall_map. eapply Forall_impl; [exact Hf|]. intros f [[_ Hl] Hq].
  apply is_bytes_app; split; [auto with yed|constructor; [done|constructor]].
Qed.
Lemma unsubscribe3_is_bytes p : wf_unsubscribe3 p -> is_bytes (unsubscribe3_bytes p).
Proof.
  intros (_ & _ & _ & Hid & Hf). apply is_bytes_app; split; [by apply be_u16_bytes|].
  apply is_bytes_concat, Forall_map. eapply Forall_impl; [exact Hf|]. intros f [_ Hl].
  by apply is_bytes_string.
Qed.

Section ParseLemmas.
Context {N : Nom} {NS : NomSpec N}.

Lemma utf8_complete_empty : exists k, parse_utf8_complete [] = Err (NError k).
Proof.
  unfold parse_utf8_complete. rewrite nom_flat_map_spec.
  destruct (complete_take_short 2 []) as [k ->]; [done|by exists k].
Qed.

(** The items of the two payloads. *)
Lemma subscribe_filter_reads f :
  short_str (sf_topic_name f) -> reads3 subscribe_topic_filter (subscribe_filter_bytes f) f.
Proof.
  destruct f as [t q]. intros [Hs Hl] rest. unfold subscribe_topic_filter, subscribe_filter_bytes.
  rewrite <-app_assoc, nom_map_spec, nom_tuple_spec, reads_parse_utf8_complete by done.
  cbn [mbind outcome_bind app sf_qos]. by rewrite complete_be_u8_ok.
Qed.
Lemma unsubscribe_filter_reads f :
  short_str (uf_topic_name f) -> reads3 unsubscribe_topic_filter (unsubscribe_filter_bytes f) f.
Proof.
  destruct f as [t]. intros [Hs Hl] rest. unfold unsubscribe_topic_filter, unsubscribe_filter_bytes.
  rewrite nom_map_spec, reads_parse_utf8_complete by done. done.
Qed.

Lemma subscribe_filter_parses :
  parses3 subscribe_topic_filter (fun _ => True) /\ complete subscribe_topic_filter.
Proof.
  assert (forall i, is_bytes i ->
    match subscribe_topic_filter i with
    | Ok (rest, v) => exists pre, i = pre ++ rest /\ pre <> []
    | Err (NError _) => True
    | _ => False
    end) as H.
  { intros i Hi. unfold subscribe_topic_filter. rewrite nom_map_spec, nom_tuple_spec.
    pose proof (parses_parse_utf8_complete i Hi) as Hp. pose proof (complete_parse_utf8_complete i Hi).
    destruct (parse_utf8_complete i) as [[r s]|[]| |]; try done. cbn [mbind outcome_bind].
    destruct Hp as (pre & -> & Hne & _). destruct r as [|b r].
    - by destruct complete_be_u8_short as [k ->].
    - rewrite complete_be_u8_ok. cbn [mbind outcome_bind]. exists (pre ++ [b]).
      rewrite <-app_assoc. split; [done|]. by destruct pre. }
  split; intros i Hi; specialize (H i Hi);
    destruct (subscribe_topic_filter i) as [[r v]|[]| |]; try done.
  destruct H as (pre & ? & ?). eauto.
Qed.
Lemma unsubscribe_filter_parses :
  parses3 unsubscribe_topic_filter (fun _ => True) /\ complete unsubscribe_topic_filter.
Proof.
  split; intros i Hi; unfold unsubscribe_topic_filter; rewrite nom_map_spec;
    pose proof (parses_parse_utf8_complete i Hi) as Hp;
    pose proof (complete_parse_utf8_complete i Hi);
    destruct (parse_utf8_complete i) as [[r s]|[]| |]; try done.
  destruct Hp as (pre & ? & ? & _). cbn [mbind outcome_bind]. eauto.
Qed.

(** A packet identifier and a list of items. *)
Definition list_body {F A} (p : parser bytes F) (mk : FixHeader -> AckVariableHeader -> list F -> A)
    (h : FixHeader) (b : bytes) : outcome Nerr A :=
  match b with
  | b0 :: b1 :: r =>
      '(_, l) ← nom_many0 p r; Ok (mk h (mkAckVariableHeader (from_be_u16 b0 b1)) l)
  | _ => Err NIncomplete
  end.

Lemma list_parse_framed {F A} (p : parser bytes F) (mk : FixHeader -> AckVariableHeader -> list F -> A) i :
  nom_flat_map V3FixedHeader.parse (fun h =>
    nom_map
      (nom_map_res (streaming_take (fx_remaining_length h))
         (nom_tuple (nom_map streaming_be_u16 mkAckVariableHeader) (nom_many0 p)))
      (fun v => mk h (v.2.1) (v.2.2))) i
  = framed (fun _ => true) (list_body p mk) i.
Proof.
  rewrite (framed_flat_map (fun _ => nom_tuple (nom_map streaming_be_u16 mkAckVariableHeader) (nom_many0 p))
    (fun h v => mk h (v.2.1) (v.2.2))).
  unfold framed_by. destruct (V3FixedHeader.parse i) as [[r h]|e| |]; try done.
  cbn [mbind outcome_bind]. unfold framed_body, list_body. destruct (_ <? _); [done|].
  rewrite nom_tuple_spec, nom_map_spec, streaming_be_u16_spec.
  destruct (take _ r) as [|b0 [|b1 b]]; try done. cbn [mbind outcome_bind].
  by destruct (nom_many0 p b) as [[]|e| |].
Qed.

Lemma list_body_returns {F A} (p : parser bytes F) Q (mk : FixHeader -> AckVariableHeader -> list F -> A) h b :
  parses3 p Q -> complete p -> is_bytes b -> returns (list_body p mk h b).
Proof.
  intros Hp Hc Hb. destruct b as [|b0 [|b1 b]]; try done. cbn [list_body].
  apply Forall_cons in Hb as [_ [_ Hb]%Forall_cons].
  by destruct (many0_returns p Q Hc Hp b Hb) as (r & l & ->).
Qed.

Lemma subscribe3_body_reads h p :
  wf_subscribe3 p ->
  list_body subscribe_topic_filter mkSubscribePacket h (subscribe3_bytes p)
  = Ok (mkSubscribePacket h (su_variable_header p) (su_topic_filters p)).
Proof.
  destruct p as [h' [id] fs]. intros (_ & _ & _ & _ & Hf). unfold subscribe3_bytes, be_u16.
  cbn [su_variable_header su_topic_filters a3_packet_identifier app list_body] in *.
  rewrite many0_reads, from_be_u16_be; [done| |].
  - destruct utf8_complete_empty as [k Hk]. exists k. unfold subscribe_topic_filter.
    by rewrite nom_map_spec, nom_tuple_spec, Hk.
  - eapply Forall_impl; [exact Hf|]. intros f [Hs _]. split; [done|by apply subscribe_filter_reads].
Qed.
Lemma unsubscribe3_body_reads h p :
  wf_unsubscribe3 p ->
  list_body unsubscribe_topic_filter mkUnsubscribePacket h (unsubscribe3_bytes p)
  = Ok (mkUnsubscribePacket h (un_variable_header p) (un_topic_filters p)).
Proof.
  destruct p as [h' [id] fs]. intros (_ & _ & _ & _ & Hf). unfold unsubscribe3_bytes, be_u16.
  cbn [un_variable_header un_topic_filters a3_packet_identifier app list_body] in *.
  rewrite many0_reads, from_be_u16_be; [done| |].
  - destruct utf8_complete_empty as [k Hk]. exists k. unfold unsubscribe_topic_filter.
    by rewrite nom_map_spec, Hk.
  - eapply Forall_impl; [exact Hf|]. intros f Hs. split; [done|by apply unsubscribe_filter_reads].
Qed.

End ParseLemmas.

Section EncodeLemmas.
Context {B : BytesCrate} {BS : BytesCrateSpec B}.

Lemma writes_subscribe_payload l :
  Forall (fun f => short_str (sf_topic_name f) /\ is_u8 (sf_qos f)) l ->
  writes (subscribe_payload_encode l) true (concat (map subscribe_filter_bytes l)).
Proof.
  induction 1 as [|f l [[_ Hl] _] _ IH]; [apply writes_ret|].
  refine (writes_bind (ok1 := true) _ IH). apply writes_put_bytes.
  exact (writes_bind (writes_put_str_expect _ Hl) (writes_put_u8 _)).
Qed.
Lemma writes_unsubscribe_payload l :
  Forall (fun f => short_str (uf_topic_name f)) l ->
  writes (unsubscribe_payload_encode l) true (concat (map unsubscribe_filter_bytes l)).
Proof.
  induction 1 as [|f l [_ Hl] _ IH]; [apply writes_ret|].
  refine (writes_bind (ok1 := true) _ IH). by apply writes_put_bytes, writes_put_str_expect.
Qed.

Lemma writes_subscribe_encode p :
  wf_subscribe3 p ->
  writes (subscribe_encode p) true (header_bytes (su_fix_header p) ++ subscribe3_bytes p).
Proof.
  intros (Hh & _ & _ & _ & Hf). refine (writes_bind (writes_ecnode _ Hh) (ok2 := true) _).
  exact (writes_bind (writes_put_u16 _) (writes_subscribe_payload _ Hf)).
Qed.
Lemma writes_unsubscribe_encode p :
  wf_unsubscribe3 p ->
  writes (unsubscribe_encode p) true (header_bytes (un_fix_header p) ++ unsubscribe3_bytes p).
Proof.
  intros (Hh & _ & _ & _ & Hf). refine (writes_bind (writes_ecnode _ Hh) (ok2 := true) _).
  exact (writes_bind (writes_put_u16 _) (writes_unsubscribe_payload _ Hf)).
Qed.

End EncodeLemmas.
