(* ===== verification/V3Connect.v ===== *)
(** * MQTT 3.1.1 CONNECT ([mqtt/src/v3/connect.rs])

    The packet, its builder, the parser with the eight shapes of the payload,
    and the encoders. *)

From S2P Require Import Prelude Utf8 Buf V5Common V3Nom V3FixedHeader V3Common.

Record ConnectFlags3 := mkConnectFlags3 {
  cf_username_flag : bool;
  cf_password_flag : bool;
  cf_will_retain : bool;
  cf_will_qos : Z;
  cf_will_flag : bool;
  cf_clean_session : bool;
}.

Record ConnectVariableHeader := mkConnectVariableHeader {
  cv_protocol_name : string;
  cv_protocol_level : Z;
  cv_username_flag : bool;
  cv_password_flag : bool;
  cv_will_retain : bool;
  cv_will_qos : Z;
  cv_will_flag : bool;
  cv_clean_session : bool;
  cv_keep_alive : Z;
}.

Record ConnectPayload := mkConnectPayload {
  cp_client_identifier : string;
  cp_will_topic : option string;
  cp_will_message : option string;
  cp_username : option string;
  cp_password : option string;
}.

Record ConnectPacket := mkConnectPacket {
  co_fix_header : FixHeader;
  co_variable_header : ConnectVariableHeader;
  co_payload : ConnectPayload;
}.

Record ConnectPacketBuilder := mkConnectPacketBuilder {
  bc_client_identifier : string;
  bc_username : option string;
  bc_password : option string;
  bc_will_retain : bool;
  bc_will_qos : Z;
  bc_will_topic : option string;
  bc_will_message : option string;
  bc_clean_session : bool;
  bc_keep_alive : Z;
}.

Definition connect_builder_new (client_identifier : string) : ConnectPacketBuilder :=
  mkConnectPacketBuilder client_identifier None None false 0 None None false 2.

Definition builder_will_msg (will_topic will_message : string) (will_qos : Z) (will_retain : bool)
    (b : ConnectPacketBuilder) : ConnectPacketBuilder :=
  mkConnectPacketBuilder (bc_client_identifier b) (bc_username b) (bc_password b)
    will_retain will_qos (Some will_topic) (Some will_message) (bc_clean_session b)
    (bc_keep_alive b).
Definition builder_username (username : string) (b : ConnectPacketBuilder) : ConnectPacketBuilder :=
  mkConnectPacketBuilder (bc_client_identifier b) (Some username) (bc_password b)
    (bc_will_retain b) (bc_will_qos b) (bc_will_topic b) (bc_will_message b)
    (bc_clean_session b) (bc_keep_alive b).
Definition builder_password (password : string) (b : ConnectPacketBuilder) : ConnectPacketBuilder :=
  mkConnectPacketBuilder (bc_client_identifier b) (bc_username b) (Some password)
    (bc_will_retain b) (bc_will_qos b) (bc_will_topic b) (bc_will_message b)
    (bc_clean_session b) (bc_keep_alive b).
Definition builder_keep_alive (keep_alive : Z) (b : ConnectPacketBuilder) : ConnectPacketBuilder :=
  mkConnectPacketBuilder (bc_client_identifier b) (bc_username b) (bc_password b)
    (bc_will_retain b) (bc_will_qos b) (bc_will_topic b) (bc_will_message b)
    (bc_clean_session b) keep_alive.
Definition builder_clean_session (clean_session : bool) (b : ConnectPacketBuilder)
    : ConnectPacketBuilder :=
  mkConnectPacketBuilder (bc_client_identifier b) (bc_username b) (bc_password b)
    (bc_will_retain b) (bc_will_qos b) (bc_will_topic b) (bc_will_message b)
    clean_session (bc_keep_alive b).

Definition connect_variable_header_get_length (v : ConnectVariableHeader) : Z :=
  2 + zlen (as_bytes (cv_protocol_name v)) + 2 + 2.

(** [if let Some(s) = &self.field { len = len + s.len() + 2 }]. *)
Definition add_length (s : option string) (len : Z) : Z :=
  match s with Some s => len + zlen (as_bytes s) + 2 | None => len end.

Definition connect_payload_get_length (p : ConnectPayload) : Z :=
  let len := 0 in
  let len := len + zlen (as_bytes (cp_client_identifier p)) + 2 in
  let len := add_length (cp_will_topic p) len in
  let len := add_length (cp_will_message p) len in
  let len := add_length (cp_username p) len in
  add_length (cp_password p) len.

Definition is_some {A} (o : option A) : bool := match o with Some _ => true | None => false end.

Definition connect_build (b : ConnectPacketBuilder) : ConnectPacket :=
  let variable_header := mkConnectVariableHeader "MQTT" 0x04
    (is_some (bc_username b)) (is_some (bc_password b)) (bc_will_retain b) (bc_will_qos b)
    (is_some (bc_will_message b)) (bc_clean_session b) (bc_keep_alive b) in
  let payload := mkConnectPayload (bc_client_identifier b) (bc_will_topic b) (bc_will_message b)
    (bc_username b) (bc_password b) in
  let fix_header := mkFixHeader CONNECT None None None
    (connect_variable_header_get_length variable_header + connect_payload_get_length payload) in
  mkConnectPacket fix_header variable_header payload.

Section Parse.
Context {N : Nom}.

Definition protocol_name : parser bytes string :=
  nom_flat_map streaming_be_u16 (fun protocol_length =>
    nom_map (streaming_take protocol_length) from_utf8_lossy).

Definition protocol_level : parser bytes Z := streaming_be_u8.

Definition connect_flags : parser bytes ConnectFlags3 :=
  nom_map
    (bits (nom_tuple (bits_take 1) (nom_tuple (bits_take 1) (nom_tuple (bits_take 1)
       (nom_tuple (bits_take 2) (nom_tuple (bits_take 1) (nom_tuple (bits_take 1)
          (bits_take 1))))))))
    (fun '(f0, (f1, (f2, (f3, (f4, (f5, _)))))) =>
       mkConnectFlags3 (f0 =? 1) (f1 =? 1) (f2 =? 1) f3 (f4 =? 1) (f5 =? 1)).

Definition keep_alive : parser bytes Z := streaming_be_u16.

Definition connect_variable_header : parser bytes ConnectVariableHeader :=
  nom_map
    (nom_tuple protocol_name (nom_tuple protocol_level (nom_tuple connect_flags keep_alive)))
    (fun '(protocol_name, (protocol_level, (connect_flags, keep_alive))) =>
       mkConnectVariableHeader protocol_name protocol_level
         (cf_username_flag connect_flags) (cf_password_flag connect_flags)
         (cf_will_retain connect_flags) (cf_will_qos connect_flags)
         (cf_will_flag connect_flags) (cf_clean_session connect_flags) keep_alive).

Definition client_identifier : parser bytes string := parse_utf8.
Definition username : parser bytes string := parse_utf8.
Definition password : parser bytes string := parse_utf8.
Definition will_topic : parser bytes string := parse_utf8.
Definition will_message : parser bytes string := parse_utf8.

Definition connect_payload (username_flag password_flag will_flag : bool)
    : parser bytes ConnectPayload := fun v =>
  if will_flag then
    if username_flag then
      if password_flag then
        nom_map
          (nom_tuple client_identifier (nom_tuple will_topic (nom_tuple will_message
             (nom_tuple username password))))
          (fun '(r0, (r1, (r2, (r3, r4)))) =>
             mkConnectPayload r0 (Some r1) (Some r2) (Some r3) (Some r4)) v
      else
        nom_map
          (nom_tuple client_identifier (nom_tuple will_topic (nom_tuple will_message username)))
          (fun '(r0, (r1, (r2, r3))) => mkConnectPayload r0 (Some r1) (Some r2) (Some r3) None) v
    else if password_flag then
      nom_map
        (nom_tuple client_identifier (nom_tuple will_topic (nom_tuple will_message password)))
        (fun '(r0, (r1, (r2, r3))) => mkConnectPayload r0 (Some r1) (Some r2) None (Some r3)) v
    else
      nom_map (nom_tuple client_identifier (nom_tuple will_topic will_message))
        (fun '(r0, (r1, r2)) => mkConnectPayload r0 (Some r1) (Some r2) None None) v
  else if username_flag then
    if password_flag then
      nom_map (nom_tuple client_identifier (nom_tuple username password))
        (fun '(r0, (r1, r2)) => mkConnectPayload r0 None None (Some r1) (Some r2)) v
    else
      nom_map (nom_tuple client_identifier username)
        (fun '(r0, r1) => mkConnectPayload r0 None None (Some r1) None) v
  else if password_flag then
    nom_map (nom_tuple client_identifier password)
      (fun '(r0, r1) => mkConnectPayload r0 None None None (Some r1)) v
  else
    nom_map client_identifier (fun r => mkConnectPayload r None None None None) v.

Definition variable_header_and_payload
    : parser bytes (ConnectVariableHeader * ConnectPayload) :=
  nom_flat_map connect_variable_header (fun variable_header =>
    nom_map
      (connect_payload (cv_username_flag variable_header) (cv_password_flag variable_header)
         (cv_will_flag variable_header))
      (fun payload => (variable_header, payload))).

Definition connect_parse : parser bytes ConnectPacket :=
  nom_flat_map V3FixedHeader.parse (fun fixed_header =>
    nom_map
      (nom_map_res (streaming_take (fx_remaining_length fixed_header))
         variable_header_and_payload)
      (fun '(_, (variable_header, payload)) =>
         mkConnectPacket fixed_header variable_header payload)).

End Parse.

Section Encode.
Context {B : BytesCrate}.

(** The [connect_flags] byte, computed alike in [encode] and [to_bytes]. *)
Definition connect_flags_byte (v : ConnectVariableHeader) : outcome Empty_set Z :=
  let connect_flags := 0 in
  connect_flags ←
    (if cv_username_flag v then u8_checked (connect_flags + Z.shiftl 1 7) else Ok connect_flags);
  connect_flags ←
    (if cv_password_flag v then u8_checked (connect_flags + Z.shiftl 1 6) else Ok connect_flags);
  connect_flags ←
    (if cv_will_retain v then u8_checked (connect_flags + Z.shiftl 1 5) else Ok connect_flags);
  connect_flags ← u8_checked (connect_flags + shl_u8 (cv_will_qos v) 3);
  connect_flags ←
    (if cv_will_flag v then u8_checked (connect_flags + Z.shiftl 1 2) else Ok connect_flags);
  if cv_clean_session v then u8_checked (connect_flags + Z.shiftl 1 1) else Ok connect_flags.

(** The loop over the bytes of the protocol name. *)
Fixpoint put_each (l : bytes) : encoder3 :=
  match l with [] => mret tt | byte :: l => put_u8 byte;; put_each l end.

Definition connect_variable_header_encode (v : ConnectVariableHeader) : encoder3 :=
  put_u16 (as_u16 (zlen (as_bytes (cv_protocol_name v))));;
  put_each (as_bytes (cv_protocol_name v));;
  put_u8 0x04;;
  connect_flags ← lift (connect_flags_byte v);
  put_u8 connect_flags;;
  put_u16 (cv_keep_alive v).
Definition connect_variable_header_to_bytes (v : ConnectVariableHeader)
    : outcome Empty_set BytesMut :=
  with_new_buffer (
    put_u16 (as_u16 (zlen (as_bytes (cv_protocol_name v))));;
    put_each (as_bytes (cv_protocol_name v));;
    put_u8 0x04;;
    connect_flags ← lift (connect_flags_byte v);
    put_u8 connect_flags;;
    put_u16 (cv_keep_alive v)).

(** [if let Some(s) = &self.field { buf.put_u16(s.len() as u16); buf.put(s.as_bytes()) }]. *)
Definition put_opt_str (s : option string) : encoder3 :=
  match s with Some s => put_str s | None => mret tt end.

Definition connect_payload_encode (p : ConnectPayload) : encoder3 :=
  put_str (cp_client_identifier p);;
  put_opt_str (cp_will_topic p);;
  put_opt_str (cp_will_message p);;
  put_opt_str (cp_username p);;
  put_opt_str (cp_password p).
Definition connect_payload_to_bytes (p : ConnectPayload) : outcome Empty_set BytesMut :=
  with_new_buffer (
    put_str (cp_client_identifier p);;
    put_opt_str (cp_will_topic p);;
    put_opt_str (cp_will_message p);;
    put_opt_str (cp_username p);;
    put_opt_str (cp_password p)).

Definition connect_encode (p : ConnectPacket) : encoder3 :=
  ecnode (co_fix_header p);;
  connect_variable_header_encode (co_variable_header p);;
  connect_payload_encode (co_payload p).

Definition connect_to_bytes (p : ConnectPacket) : outcome Empty_set BytesMut :=
  with_new_buffer (
    put_bytes (to_bytes (co_fix_header p));;
    put_bytes (connect_variable_header_to_bytes (co_variable_header p));;
    put_bytes (connect_payload_to_bytes (co_payload p))).

End Encode.

(** ** Lemmas *)

Definition opt_bytes (s : option string) : bytes :=
  match s with Some s => string_bytes s | None => [] end.

Definition flags_value (v : ConnectVariableHeader) : Z :=
  128 * Z.b2z (cv_username_flag v) + 64 * Z.b2z (cv_password_flag v)
  + 32 * Z.b2z (cv_will_retain v) + 8 * cv_will_qos v
  + 4 * Z.b2z (cv_will_flag v) + 2 * Z.b2z (cv_clean_session v).

Definition connect_variable_bytes (v : ConnectVariableHeader) : bytes :=
  string_bytes (cv_protocol_name v) ++ [4; flags_value v] ++ be_u16 (cv_keep_alive v).
Definition connect_payload_bytes (p : ConnectPayload) : bytes :=
  string_bytes (cp_client_identifier p) ++ opt_bytes (cp_will_topic p)
  ++ opt_bytes (cp_will_message p) ++ opt_bytes (cp_username p) ++ opt_bytes (cp_password p).
Definition connect3_bytes (p : ConnectPacket) : bytes :=
  connect_variable_bytes (co_variable_header p) ++ connect_payload_bytes (co_payload p).

Definition opt_short (s : option string) : Prop :=
  match s with Some s => short_str s | None => True end.

(** A CONNECT of protocol level 4 whose flags say which fields are there. *)
Definition wf_connect_variable (v : ConnectVariableHeader) : Prop :=
  short_str (cv_protocol_name v) /\ cv_protocol_level v = 4 /\ 0 <= cv_will_qos v <= 3 /\
  is_u16 (cv_keep_alive v).
Definition wf_connect_payload (v : ConnectVariableHeader) (p : ConnectPayload) : Prop :=
  short_str (cp_client_identifier p) /\ opt_short (cp_will_topic p) /\
  opt_short (cp_will_message p) /\ opt_short (cp_username p) /\ opt_short (cp_password p) /\
  cv_username_flag v = is_some (cp_username p) /\
  cv_password_flag v = is_some (cp_password p) /\
  cv_will_flag v = is_some (cp_will_topic p) /\ cv_will_flag v = is_some (cp_will_message p).
Definition wf_connect3 (p : ConnectPacket) : Prop :=
  wf_fix_header (co_fix_header p) /\ ack_flags_ok (co_fix_header p) /\
  fx_remaining_length (co_fix_header p) = zlen (connect3_bytes p) /\
  wf_connect_variable (co_variable_header p) /\
  wf_connect_payload (co_variable_header p) (co_payload p).

Lemma flags_value_u8 v : 0 <= cv_will_qos v <= 3 -> is_u8 (flags_value v).
Proof.
  intros H. unfold flags_value, is_u8.
  destruct (cv_username_flag v), (cv_password_flag v), (cv_will_retain v), (cv_will_flag v),
    (cv_clean_session v); simpl; lia.
Qed.

Lemma connect_flags_byte_run v :
  0 <= cv_will_qos v <= 3 -> connect_flags_byte v = Ok (flags_value v).
Proof.
  destruct v as [n l u p r q w c k]. cbn [cv_will_qos]. intros H.
  assert (q = 0 \/ q = 1 \/ q = 2 \/ q = 3) as Hq by lia.
  by destruct Hq as [->|[->|[->| ->]]], u, p, r, w, c.
Qed.

(** The length the builder computes is that of what is written. *)
Lemma connect_length_run v p :
  connect_variable_header_get_length v + connect_payload_get_length p
  = zlen (connect_variable_bytes v ++ connect_payload_bytes p).
Proof.
  unfold connect_variable_header_get_length, connect_payload_get_length, connect_variable_bytes,
    connect_payload_bytes, add_length, opt_bytes.
  destruct (cp_will_topic p), (cp_will_message p), (cp_username p), (cp_password p);
    autorewrite with zlen; lia.
Qed.

Lemma opt_bytes_is_bytes s : opt_short s -> is_bytes (opt_bytes s).
Proof. destruct s as [s|]; [|constructor]. intros [_ Hl]. by apply is_bytes_string. Qed.

Lemma connect3_is_bytes p : wf_connect3 p -> is_bytes (connect3_bytes p).
Proof.
  intros (_ & _ & _ & (Hn & _ & Hq & Hk) & Hc & Ht & Hm & Hu & Hp & _).
  pose proof (flags_value_u8 _ Hq). destruct Hn, Hc.
  apply is_bytes_app; split.
  - apply is_bytes_app; split; [auto with yed|]. constructor; [done|]. constructor; [done|].
    by apply be_u16_bytes.
  - apply is_bytes_app; split; [auto with yed|].
    do 3 (apply is_bytes_app; split; [by apply opt_bytes_is_bytes|]). by apply opt_bytes_is_bytes.
Qed.

Section ParseLemmas.
Context {N : Nom} {NS : NomSpec N}.

(** A parser that returns on every input, and leaves bytes. *)
Definition safe {A} (p : parser bytes A) : Prop :=
  forall i, is_bytes i ->
    match p i with Ok (r, _) => is_bytes r | Err _ => True | Panic | OutOfFuel => False end.

Lemma safe_map {A C} (p : parser bytes A) (f : A -> C) : safe p -> safe (nom_map p f).
Proof. intros Hp i Hi. specialize (Hp i Hi). rewrite nom_map_spec. by destruct (p i) as [[]|e| |]. Qed.
Lemma safe_tuple {A C} (p : parser bytes A) (q : parser bytes C) :
  safe p -> safe q -> safe (nom_tuple p q).
Proof.
  intros Hp Hq i Hi. specialize (Hp i Hi). rewrite nom_tuple_spec. destruct (p i) as [[r a]|e| |]; try done.
  specialize (Hq r Hp). cbn [mbind outcome_bind]. by destruct (q r) as [[]|e| |].
Qed.
Lemma safe_flat_map {A C} (p : parser bytes A) (f : A -> parser bytes C) :
  safe p -> (forall a, safe (f a)) -> safe (nom_flat_map p f).
Proof.
  intros Hp Hf i Hi. specialize (Hp i Hi). rewrite nom_flat_map_spec.
  destruct (p i) as [[r a]|e| |]; try done. apply (Hf a r Hp).
Qed.
Lemma safe_utf8 : safe parse_utf8.
Proof.
  intros i Hi. pose proof (parses_parse_utf8 i Hi) as H.
  destruct (parse_utf8 i) as [[r s]|[]| |]; try done.
  destruct H as (pre & -> & _). by apply is_bytes_app in Hi as [_ ?].
Qed.
Lemma safe_streaming_take n : safe (streaming_take n).
Proof. intros i Hi. rewrite streaming_take_spec. destruct (_ <? _); [done|auto with yed]. Qed.
Lemma safe_be_u8 : safe streaming_be_u8.
Proof. intros i Hi. rewrite streaming_be_u8_spec. destruct Hi; done. Qed.
Lemma safe_be_u16 : safe streaming_be_u16.
Proof. intros i Hi. rewrite streaming_be_u16_spec. destruct Hi as [|? ? ? []]; done. Qed.

Lemma connect_flags_cons b i :
  is_u8 b ->
  connect_flags (b :: i) =
    Ok (i, mkConnectFlags3 (b / 128 =? 1) (b / 64 mod 2 =? 1) (b / 32 mod 2 =? 1)
             (b / 8 mod 4) (b / 4 mod 2 =? 1) (b / 2 mod 2 =? 1)).
Proof.
  intros Hb. unfold connect_flags. rewrite nom_map_spec. set (p := nom_tuple (bits_take 1) _).
  assert (p (b :: i, 0%nat) = Ok ((i, 0%nat), (b / 128, (b / 64 mod 2, (b / 32 mod 2,
    (b / 8 mod 4, (b / 4 mod 2, (b / 2 mod 2, b mod 2)))))))) as Hp.
  { unfold p.
    repeat (rewrite nom_tuple_spec, bits_take_ok by (done || lia); cbn [mbind outcome_bind];
            rewrite decide_False by lia).
    rewrite bits_take_ok by (done || lia). cbn [mbind outcome_bind]. rewrite decide_True by lia.
    simpl Nat.sub. simpl Z.of_nat. rewrite !Z.shiftr_div_pow2 by lia. unfold is_u8 in Hb.
    change (2 ^ 0) with 1. rewrite Z.div_1_r, (Z.mod_small (b / 2 ^ 7)); [done|].
    Z.to_euclidean_division_equations; lia. }
  by rewrite (bits_ok _ _ _ _ _ _ Hp).
Qed.

Lemma safe_connect_flags : safe connect_flags.
Proof.
  intros i Hi. destruct Hi as [|b i Hb Hi].
  - unfold connect_flags. rewrite nom_map_spec, bits_incomplete; [done|].
    by rewrite nom_tuple_spec, bits_take_short by lia.
  - by rewrite connect_flags_cons.
Qed.

(** The flags are read back. *)
Lemma connect_flags_reads v i :
  0 <= cv_will_qos v <= 3 ->
  connect_flags (flags_value v :: i) =
    Ok (i, mkConnectFlags3 (cv_username_flag v) (cv_password_flag v) (cv_will_retain v)
             (cv_will_qos v) (cv_will_flag v) (cv_clean_session v)).
Proof.
  intros H. rewrite connect_flags_cons by (by apply flags_value_u8).
  destruct v as [n l u p r q w c k]. cbn [cv_will_qos] in *.
  assert (q = 0 \/ q = 1 \/ q = 2 \/ q = 3) as Hq by lia.
  by destruct Hq as [->|[->|[->| ->]]], u, p, r, w, c.
Qed.

Lemma protocol_name_run i : protocol_name i = parse_utf8 i.
Proof.
  unfold protocol_name. rewrite nom_flat_map_spec, streaming_be_u16_spec.
  destruct i as [|b0 [|b1 i]];
    [unfold parse_utf8; by rewrite nom_flat_map_spec, streaming_take_spec..|].
  rewrite parse_utf8_cons. cbn [mbind outcome_bind]. rewrite nom_map_spec, streaming_take_spec.
  cbv zeta. by destruct (_ <? _).
Qed.

Lemma connect_variable_reads v :
  wf_connect_variable v -> reads3 connect_variable_header (connect_variable_bytes v) v.
Proof.
  intros ([Hs Hl] & Hlev & Hq & Hk) rest. unfold connect_variable_header, connect_variable_bytes.
  rewrite nom_map_spec, nom_tuple_spec, protocol_name_run, <-app_assoc, reads_parse_utf8 by done.
  cbn [mbind outcome_bind app]. unfold protocol_level.
  rewrite nom_tuple_spec, streaming_be_u8_spec. cbn [mbind outcome_bind].
  rewrite nom_tuple_spec, connect_flags_reads by done. cbn [mbind outcome_bind].
  unfold keep_alive, be_u16. rewrite streaming_be_u16_spec. cbn [app mbind outcome_bind].
  rewrite from_be_u16_be. destruct v. cbn [cv_protocol_level] in Hlev. by subst.
Qed.

Lemma connect_payload_reads v p rest :
  wf_connect_payload v p ->
  connect_payload (cv_username_flag v) (cv_password_flag v) (cv_will_flag v)
    (connect_payload_bytes p ++ rest) = Ok (rest, p).
Proof.
  intros (Hc & Ht & Hm & Hu & Hp & -> & -> & Hw & Hw'). rewrite Hw in Hw' |- *. clear Hw.
  unfold connect_payload, connect_payload_bytes, client_identifier, username, password, will_topic,
    will_message.
  destruct p as [c [t|] [m|] [u|] [w|]];
    cbn [is_some opt_bytes cp_client_identifier cp_will_topic cp_will_message cp_username cp_password
         opt_short] in *; try done;
    rewrite ?app_nil_r, ?app_nil_l, nom_map_spec;
    repeat (rewrite nom_tuple_spec, <-app_assoc, reads_parse_utf8 by (apply Hc || apply Ht || apply Hm || apply Hu);
            cbn [mbind outcome_bind]);
    rewrite ?app_nil_r, ?app_nil_l;
    rewrite reads_parse_utf8 by (apply Hc || apply Ht || apply Hm || apply Hu || apply Hp); done.
Qed.

Definition connect_body (h : FixHeader) (b : bytes) : outcome Nerr ConnectPacket :=
  '(_, (v, p)) ← variable_header_and_payload b; Ok (mkConnectPacket h v p).

Lemma connect_parse_framed i : connect_parse i = framed (fun _ => true) connect_body i.
Proof.
  unfold connect_parse. rewrite (framed_flat_map (fun _ => variable_header_and_payload)
    (fun h '(_, (v, p)) => mkConnectPacket h v p)).
  unfold framed_by, framed_body, connect_body. destruct (V3FixedHeader.parse i) as [[r h]|e| |]; try done.
  cbn [mbind outcome_bind]. destruct (_ <? _); [done|].
  by destruct (variable_header_and_payload _) as [[r' [v p]]|e| |].
Qed.

Lemma connect_body_returns h b : is_bytes b -> returns (connect_body h b).
Proof.
  intros Hb. assert (safe variable_header_and_payload) as Hs.
  { apply safe_flat_map.
    - apply safe_map, safe_tuple; [|apply safe_tuple; [apply safe_be_u8|apply safe_tuple]].
      + apply safe_flat_map; [apply safe_be_u16|]. intros n. apply safe_map, safe_streaming_take.
      + apply safe_connect_flags.
      + apply safe_be_u16.
    - intros v. apply safe_map. intros i Hi. unfold connect_payload.
      destruct (cv_username_flag v), (cv_password_flag v), (cv_will_flag v); revert i Hi;
        apply safe_map; repeat apply safe_tuple; apply safe_utf8. }
  specialize (Hs b Hb). unfold connect_body.
  by destruct (variable_header_and_payload b) as [[r [v p]]|e| |].
Qed.

Lemma connect3_body_reads h p :
  wf_connect3 p ->
  connect_body h (connect3_bytes p) = Ok (mkConnectPacket h (co_variable_header p) (co_payload p)).
Proof.
  intros (_ & _ & _ & Hv & Hp). unfold connect_body, variable_header_and_payload, connect3_bytes.
  rewrite nom_flat_map_spec, connect_variable_reads by done. cbn [mbind outcome_bind].
  rewrite nom_map_spec, <-(app_nil_r (connect_payload_bytes _)), connect_payload_reads by done. done.
Qed.

End ParseLemmas.

Section EncodeLemmas.
Context {B : BytesCrate} {BS : BytesCrateSpec B}.

Lemma writes_put_each l : writes (put_each l) true l.
Proof.
  induction l as [|b l IH]; [apply writes_ret|]. exact (writes_bind (writes_put_u8 _) IH).
Qed.

Lemma writes_opt_str s : opt_short s -> writes (put_opt_str s) true (opt_bytes s).
Proof. destruct s as [s|]; [|intros _; apply writes_ret]. intros [_ Hl]. by apply writes_put_str. Qed.

Lemma writes_connect_variable v :
  wf_connect_variable v -> writes (connect_variable_header_encode v) true (connect_variable_bytes v).
Proof.
  intros ([_ Hl] & _ & Hq & _). unfold connect_variable_header_encode, connect_variable_bytes.
  unfold string_bytes, binary_bytes. rewrite <-app_assoc.
  pose proof (zlen_nonneg (as_bytes (cv_protocol_name v))). unfold u16_max in Hl.
  unfold as_u16. rewrite Z.mod_small by lia.
  refine (writes_bind (writes_put_u16 _) (ok2 := true) _).
  refine (writes_bind (writes_put_each _) (ok2 := true) _).
  refine (writes_bind (writes_put_u8 _) (ok2 := true) _).
  rewrite connect_flags_byte_run by done. apply writes_lift; [done|].
  exact (writes_bind (writes_put_u8 _) (writes_put_u16 _)).
Qed.

Lemma writes_connect_payload v p :
  wf_connect_payload v p -> writes (connect_payload_encode p) true (connect_payload_bytes p).
Proof.
  intros ([_ Hc] & Ht & Hm & Hu & Hp & _).
  refine (writes_bind (writes_put_str _ Hc) (ok2 := true) _).
  refine (writes_bind (writes_opt_str _ Ht) (ok2 := true) _).
  refine (writes_bind (writes_opt_str _ Hm) (ok2 := true) _).
  exact (writes_bind (writes_opt_str _ Hu) (writes_opt_str _ Hp)).
Qed.

Lemma writes_connect_encode p :
  wf_connect3 p -> writes (connect_encode p) true (header_bytes (co_fix_header p) ++ connect3_bytes p).
Proof.
  intros (Hh & _ & _ & Hv & Hp). refine (writes_bind (writes_ecnode _ Hh) (ok2 := true) _).
  exact (writes_bind (writes_connect_variable _ Hv) (writes_connect_payload _ _ Hp)).
Qed.

Lemma writes_connect_to_bytes p :
  wf_connect3 p ->
  writes (put_bytes (connect_to_bytes p)) true (header_bytes (co_fix_header p) ++ connect3_bytes p).
Proof.
  intros (Hh & _ & _ & Hv & Hp). apply writes_put_bytes.
  refine (writes_bind (writes_put_header _ Hh) (ok2 := true) _).
  refine (writes_bind (ok1 := true) (writes_put_bytes _ _ (writes_connect_variable _ Hv)) (ok2 := true) _).
  exact (writes_put_bytes _ _ (writes_connect_payload _ _ Hp)).
Qed.

End EncodeLemmas.
