(* ===== verification/V3Codec.v ===== *)
(** * The MQTT 3.1.1 codec ([mqtt/src/lib.rs])

    [MqttPacketV3], its encoders and the parser that dispatches on the packet
    type.  The parser is a framed parser ([parse_run]), so its behaviour on a
    stream and on arbitrary input follows from [V3Common]. *)

From S2P Require Import Prelude Utf8 Buf V5Common V3Nom V3FixedHeader V3Common V3Ack.
From S2P Require Import V3Connack V3Publish V3Subscribe V3Connect.

Inductive MqttPacketV3 :=
  | M3Connect (p : ConnectPacket)
  | M3Connack (p : ConnAckPacket)
  | M3Publish (p : PublishPacket)
  | M3Puback (p : AckPacket)
  | M3Pubrec (p : AckPacket)
  | M3Pubrel (p : AckPacket)
  | M3Pubcomp (p : AckPacket)
  | M3Subscribe (p : SubscribePacket)
  | M3Suback (p : SubackPacket)
  | M3Unsubscribe (p : UnsubscribePacket)
  | M3Unsuback (p : AckPacket)
  | M3Pingreq (fix_header : FixHeader)
  | M3Pingresp (fix_header : FixHeader)
  | M3Disconnect (fix_header : FixHeader).

(** [p.fix_header]. *)
Definition header3 (m : MqttPacketV3) : FixHeader :=
  match m with
  | M3Connect p => co_fix_header p
  | M3Connack p => ck_fix_header p
  | M3Publish p => pu_fix_header p
  | M3Puback p | M3Pubrec p | M3Pubrel p | M3Pubcomp p | M3Unsuback p => a3_fix_header p
  | M3Subscribe p => su_fix_header p
  | M3Suback p => sk_fix_header p
  | M3Unsubscribe p => un_fix_header p
  | M3Pingreq h | M3Pingresp h | M3Disconnect h => h
  end.

(** [p.fix_header = h]. *)
Definition with_header3 (h : FixHeader) (m : MqttPacketV3) : MqttPacketV3 :=
  match m with
  | M3Connect p => M3Connect (mkConnectPacket h (co_variable_header p) (co_payload p))
  | M3Connack p => M3Connack (mkConnAckPacket h (ck_variable_header p))
  | M3Publish p => M3Publish (mkPublishPacket h (pu_variable_header p) (pu_payload p))
  | M3Puback p => M3Puback (mkAckPacket h (a3_variable_header p))
  | M3Pubrec p => M3Pubrec (mkAckPacket h (a3_variable_header p))
  | M3Pubrel p => M3Pubrel (mkAckPacket h (a3_variable_header p))
  | M3Pubcomp p => M3Pubcomp (mkAckPacket h (a3_variable_header p))
  | M3Subscribe p => M3Subscribe (mkSubscribePacket h (su_variable_header p) (su_topic_filters p))
  | M3Suback p => M3Suback (mkSubackPacket h (sk_variable_header p) (sk_return_code p))
  | M3Unsubscribe p =>
      M3Unsubscribe (mkUnsubscribePacket h (un_variable_header p) (un_topic_filters p))
  | M3Unsuback p => M3Unsuback (mkAckPacket h (a3_variable_header p))
  | M3Pingreq _ => M3Pingreq h
  | M3Pingresp _ => M3Pingresp h
  | M3Disconnect _ => M3Disconnect h
  end.

Definition set_dup (dup : Z) (m : MqttPacketV3) : MqttPacketV3 :=
  let set d :=
    let h := header3 m in
    with_header3 (mkFixHeader (fx_packet_type h) (fx_qos h) (fx_retain h) d
                    (fx_remaining_length h)) m in
  match m with
  | M3Publish _ | M3Puback _ | M3Pubrec _ | M3Pubrel _ | M3Pubcomp _ => set (Some dup)
  | M3Connect _ | M3Connack _ | M3Subscribe _ | M3Suback _ | M3Unsubscribe _ | M3Unsuback _
  | M3Pingreq _ | M3Pingresp _ | M3Disconnect _ => set None
  end.

Section Encode.
Context {B : BytesCrate}.

Definition encode (m : MqttPacketV3) : encoder3 :=
  match m with
  | M3Publish p => publish_encode p
  | M3Connect p => connect_encode p
  | M3Connack p => connack_encode p
  | M3Puback p => puback_encode p
  | M3Pubrec p => pubrec_encode p
  | M3Pubrel p => pubrel_encode p
  | M3Pubcomp p => pubcomp_encode p
  | M3Subscribe p => subscribe_encode p
  | M3Suback p => suback_encode p
  | M3Unsubscribe p => unsubscribe_encode p
  | M3Unsuback p => unsuback_encode p
  | M3Pingreq p => pingreq_encode p
  | M3Pingresp p => pingresp_encode p
  | M3Disconnect p => disconnect_encode p
  end.

Definition to_bytes (m : MqttPacketV3) : outcome Empty_set BytesMut :=
  match m with
  | M3Connect p => connect_to_bytes p
  | M3Connack p => connack_to_bytes p
  | M3Publish p => publish_to_bytes p
  | M3Puback p => puback_to_bytes p
  | M3Pubrec p => pubrec_to_bytes p
  | M3Pubrel p => pubrel_to_bytes p
  | M3Pubcomp p => pubcomp_to_bytes p
  | M3Subscribe p => subscribe_to_bytes p
  | M3Suback p => suback_to_bytes p
  | M3Unsubscribe p => unsubscribe_to_bytes p
  | M3Unsuback p => unsuback_to_bytes p
  | M3Pingreq p => pingreq_to_bytes p
  | M3Pingresp p => pingresp_to_bytes p
  | M3Disconnect p => disconnect_to_bytes p
  end.

End Encode.

Section Parse.
Context {N : Nom}.

Definition parse (max_message_size : Z) : parser bytes (bytes * MqttPacketV3) := fun input =>
  '(_, fix_header) ← V3FixedHeader.parse input;
  match fx_packet_type fix_header with
  | CONNECT => nom_consumed (nom_map connect_parse M3Connect) input
  | CONNACK => nom_consumed (nom_map connack_parse M3Connack) input
  | PUBLISH =>
      nom_consumed (nom_map (parse_with_max_message_size_limit max_message_size) M3Publish) input
  | PUBACK => nom_consumed (nom_map puback_parse M3Puback) input
  | PUBREC => nom_consumed (nom_map pubrec_parse M3Pubrec) input
  | PUBREL => nom_consumed (nom_map pubrel_parse M3Pubrel) input
  | PUBCOMP => nom_consumed (nom_map pubcomp_parse M3Pubcomp) input
  | SUBSCRIBE => nom_consumed (nom_map subscribe_parse M3Subscribe) input
  | SUBACK => nom_consumed (nom_map suback_parse M3Suback) input
  | UNSUBSCRIBE => nom_consumed (nom_map unsubscribe_parse M3Unsubscribe) input
  | UNSUBACK => nom_consumed (nom_map unsuback_parse M3Unsuback) input
  | PINGREQ => nom_consumed (nom_map pingreq_parse M3Pingreq) input
  | PINGRESP => nom_consumed (nom_map pingresp_parse M3Pingresp) input
  | DISCONNECT => nom_consumed (nom_map disconnect_parse M3Disconnect) input
  end.

End Parse.

(** ** The parser as one framed parser *)

(** The packets of which only the header is read. *)
Definition bare (t : PacketType) : bool :=
  match t with PINGREQ | PINGRESP | DISCONNECT => true | _ => false end.
Definition len3 (h : FixHeader) : Z := if bare (fx_packet_type h) then 0 else fx_remaining_length h.
Definition check3 (max : Z) (h : FixHeader) : bool :=
  negb (bool_decide (fx_packet_type h = PUBLISH)) || (fx_remaining_length h <=? max).

Section ParseLemmas.
Context {N : Nom} {NS : NomSpec N}.

Definition tag {A C} (f : A -> C) (m : outcome Nerr A) : outcome Nerr C := a ← m; Ok (f a).

Definition body3 (h : FixHeader) (b : bytes) : outcome Nerr MqttPacketV3 :=
  match fx_packet_type h with
  | CONNECT => tag M3Connect (connect_body h b)
  | CONNACK => tag M3Connack (connack_body h b)
  | PUBLISH => tag M3Publish (publish_body h b)
  | PUBACK => tag M3Puback (ack_body h b)
  | PUBREC => tag M3Pubrec (ack_body h b)
  | PUBREL => tag M3Pubrel (ack_body h b)
  | PUBCOMP => tag M3Pubcomp (ack_body h b)
  | SUBSCRIBE => tag M3Subscribe (list_body subscribe_topic_filter mkSubscribePacket h b)
  | SUBACK => tag M3Suback (suback_body h b)
  | UNSUBSCRIBE => tag M3Unsubscribe (list_body unsubscribe_topic_filter mkUnsubscribePacket h b)
  | UNSUBACK => tag M3Unsuback (ack_body h b)
  | PINGREQ => Ok (M3Pingreq h)
  | PINGRESP => Ok (M3Pingresp h)
  | DISCONNECT => Ok (M3Disconnect h)
  end.

Abbreviation packet3 max := (framed_by len3 (check3 max) body3).

(** One branch of the dispatcher: a framed parser of one packet type. *)
Lemma consumed_framed {A} (p : parser bytes A) (mk : A -> MqttPacketV3) check body max i r h :
  V3FixedHeader.parse i = Ok (r, h) ->
  (forall i, p i = framed_by len3 check body i) ->
  check h = check3 max h -> (forall b, body3 h b = tag mk (body h b)) ->
  nom_consumed (nom_map p mk) i =
    '(i', m) ← packet3 max i; Ok (i', (take (length i - length i') i, m)).
Proof.
  intros Hh Hp Hc Hb. rewrite nom_consumed_spec, nom_map_spec, Hp. unfold framed_by. rewrite Hh.
  cbn [mbind outcome_bind]. unfold framed_body. rewrite Hc, Hb.
  destruct (check3 max h); [|done]. destruct (_ <? _); [done|]. by destruct (body h _).
Qed.

(** The same body length as a parser that reads all of it. *)
Lemma framed_len3 {A} check (body : FixHeader -> bytes -> outcome Nerr A) i r h :
  V3FixedHeader.parse i = Ok (r, h) -> bare (fx_packet_type h) = false ->
  framed check body i = framed_by len3 check body i.
Proof. intros Hh Hb. unfold framed_by. rewrite Hh. cbn. unfold framed_body, len3. by rewrite Hb. Qed.

Lemma bare_framed i r h (mk : FixHeader -> MqttPacketV3) max :
  V3FixedHeader.parse i = Ok (r, h) -> bare (fx_packet_type h) = true ->
  (forall b, body3 h b = Ok (mk h)) ->
  nom_consumed (nom_map bare_parse mk) i =
    '(i', m) ← packet3 max i; Ok (i', (take (length i - length i') i, m)).
Proof.
  intros Hh Hbare Hb. rewrite nom_consumed_spec, nom_map_spec, bare_parse_run. unfold framed_by.
  rewrite Hh. cbn [mbind outcome_bind]. unfold framed_body, len3. rewrite Hb, Hbare.
  assert (check3 max h = true) as -> by (unfold check3; by destruct (fx_packet_type h)).
  rewrite (proj2 (Z.ltb_ge _ _)) by apply zlen_nonneg. done.
Qed.

Lemma parse_run max i :
  parse max i = '(i', m) ← packet3 max i; Ok (i', (take (length i - length i') i, m)).
Proof.
  unfold parse. destruct (V3FixedHeader.parse i) as [[r h]|e| |] eqn:Hh; cbn [mbind outcome_bind];
    try (unfold framed_by; rewrite Hh; done).
  assert (forall A (p : parser bytes A) check body (mk : A -> MqttPacketV3),
    bare (fx_packet_type h) = false ->
    p i = framed check body i -> check h = check3 max h -> (forall b, body3 h b = tag mk (body h b)) ->
    nom_consumed (nom_map p mk) i =
      '(i', m) ← packet3 max i; Ok (i', (take (length i - length i') i, m))) as Hf.
  { intros A p check body mk Hbare Hp Hc Hb.
    rewrite <-(consumed_framed (framed_by len3 check body) mk check body max i r h) by done.
    rewrite !nom_consumed_spec, !nom_map_spec, Hp. by rewrite (framed_len3 _ _ _ _ _ Hh Hbare). }
  destruct (fx_packet_type h) eqn:Ht; unfold body3, check3, bare in *; rewrite ?Ht in *;
    unfold pingreq_parse, pingresp_parse, disconnect_parse, puback_parse, pubrec_parse, pubrel_parse,
      pubcomp_parse, unsuback_parse;
    try (eapply bare_framed; [exact Hh|by rewrite Ht|unfold body3; by rewrite Ht]).
  - eapply Hf; [done|apply connect_parse_framed|done|done].
  - eapply Hf; [done|apply connack_parse_framed|done|done].
  - eapply Hf; [done|apply publish_parse_framed|done|done].
  - eapply Hf; [done|apply ack_parse_framed|done|done].
  - eapply Hf; [done|apply ack_parse_framed|done|done].
  - eapply Hf; [done|apply ack_parse_framed|done|done].
  - eapply Hf; [done|apply ack_parse_framed|done|done].
  - eapply Hf; [done|apply list_parse_framed|done|done].
  - eapply Hf; [done|apply suback_parse_framed|done|done].
  - eapply Hf; [done|apply list_parse_framed|done|done].
  - eapply Hf; [done|apply ack_parse_framed|done|done].
Qed.

Lemma body3_returns h b : is_bytes b -> returns (body3 h b).
Proof.
  intros Hb.
  assert (forall A (m : outcome Nerr A) (f : A -> MqttPacketV3), returns m -> returns (tag f m)) as Htag
    by (intros A [] f; done).
  destruct subscribe_filter_parses, unsubscribe_filter_parses.
  unfold body3. destruct (fx_packet_type h); try done; apply Htag.
  - by apply connect_body_returns.
  - apply connack_body_returns.
  - by apply publish_body_returns.
  - apply ack3_body_returns.
  - apply ack3_body_returns.
  - apply ack3_body_returns.
  - apply ack3_body_returns.
  - by eapply list_body_returns.
  - by destruct b as [|? [|? ?]].
  - by eapply list_body_returns.
  - apply ack3_body_returns.
Qed.

End ParseLemmas.

(** ** What is written *)

Definition type3 (m : MqttPacketV3) : PacketType :=
  match m with
  | M3Connect _ => CONNECT
  | M3Connack _ => CONNACK
  | M3Publish _ => PUBLISH
  | M3Puback _ => PUBACK
  | M3Pubrec _ => PUBREC
  | M3Pubrel _ => PUBREL
  | M3Pubcomp _ => PUBCOMP
  | M3Subscribe _ => SUBSCRIBE
  | M3Suback _ => SUBACK
  | M3Unsubscribe _ => UNSUBSCRIBE
  | M3Unsuback _ => UNSUBACK
  | M3Pingreq _ => PINGREQ
  | M3Pingresp _ => PINGRESP
  | M3Disconnect _ => DISCONNECT
  end.

Definition body3_bytes (m : MqttPacketV3) : bytes :=
  match m with
  | M3Connect p => connect3_bytes p
  | M3Connack p => connack3_bytes p
  | M3Publish p => publish3_bytes p
  | M3Puback p | M3Pubrec p | M3Pubrel p | M3Pubcomp p | M3Unsuback p => ack3_bytes p
  | M3Subscribe p => subscribe3_bytes p
  | M3Suback p => suback3_bytes p
  | M3Unsubscribe p => unsubscribe3_bytes p
  | M3Pingreq _ | M3Pingresp _ | M3Disconnect _ => []
  end.

Definition wire3 (m : MqttPacketV3) : bytes := header_bytes (header3 m) ++ body3_bytes m.

(** A packet whose header goes with its type and its body. *)
Definition wf3 (m : MqttPacketV3) : Prop :=
  fx_packet_type (header3 m) = type3 m /\
  match m with
  | M3Connect p => wf_connect3 p
  | M3Connack p => wf_connack3 p
  | M3Publish p => wf_publish3 p
  | M3Puback p | M3Pubrec p | M3Pubrel p | M3Pubcomp p | M3Unsuback p => wf_ack3 p
  | M3Subscribe p => wf_subscribe3 p
  | M3Suback p => wf_suback3 p
  | M3Unsubscribe p => wf_unsubscribe3 p
  | M3Pingreq h | M3Pingresp h | M3Disconnect h => wf_fix_header h /\ fx_remaining_length h = 0
  end.

(** What the parser returns for it: the same packet, its flags all present. *)
Definition reread (m : MqttPacketV3) : MqttPacketV3 := with_header3 (read_header (header3 m)) m.

Lemma wf3_header m :
  wf3 m -> wf_fix_header (header3 m) /\ ack_flags_ok (header3 m) /\
    fx_remaining_length (header3 m) = zlen (body3_bytes m) /\ is_bytes (body3_bytes m).
Proof.
  intros [Ht H]. destruct m as [p|p|p|p|p|p|p|p|p|p|p|h|h|h]; cbn [header3 body3_bytes type3] in *.
  - pose proof (connect3_is_bytes p H). by destruct H as (? & ? & ? & _).
  - destruct H as (? & ? & ? & Hc). split; [done|]. split; [done|]. split; [done|].
    constructor; [by destruct (ck_session_present (ck_variable_header p))|].
    constructor; [done|constructor].
  - pose proof (publish3_is_bytes p H). destruct H as (? & ? & ? & _). split; [done|]. by split; [intros _ ?|].
  - destruct H as (? & ? & ? & Hc). do 3 (split; [done|]). by apply be_u16_bytes.
  - destruct H as (? & ? & ? & Hc). do 3 (split; [done|]). by apply be_u16_bytes.
  - destruct H as (? & ? & ? & Hc). do 3 (split; [done|]). by apply be_u16_bytes.
  - destruct H as (? & ? & ? & Hc). do 3 (split; [done|]). by apply be_u16_bytes.
  - pose proof (subscribe3_is_bytes p H). by destruct H as (? & ? & ? & _).
  - destruct H as (? & ? & Hl & Hi & Hc). split; [done|]. split; [done|]. unfold suback3_bytes.
    split; [rewrite zlen_app, zlen_be_u16; unfold zlen in *; by rewrite length_map|].
    apply is_bytes_app; split; [by apply be_u16_bytes|]. apply Forall_map. eapply Forall_impl; [exact Hc|].
    intros []; done.
  - pose proof (unsubscribe3_is_bytes p H). by destruct H as (? & ? & ? & _).
  - destruct H as (? & ? & ? & Hc). do 3 (split; [done|]). by apply be_u16_bytes.
  - destruct H as [? ?]. split; [done|]. split; [unfold ack_flags_ok; by rewrite Ht|by split; [|constructor]].
  - destruct H as [? ?]. split; [done|]. split; [unfold ack_flags_ok; by rewrite Ht|by split; [|constructor]].
  - destruct H as [? ?]. split; [done|]. split; [unfold ack_flags_ok; by rewrite Ht|by split; [|constructor]].
Qed.

Lemma read_header_type h : fx_packet_type (read_header h) = fx_packet_type h.
Proof. done. Qed.

Section RoundTrip.
Context {N : Nom} {NS : NomSpec N} {B : BytesCrate} {BS : BytesCrateSpec B}.

Lemma writes_encode3 m : wf3 m -> writes (encode m) true (wire3 m).
Proof.
  intros [Ht H].
  destruct m as [p|p|p|p|p|p|p|p|p|p|p|h|h|h]; cbn [encode];
    auto using writes_connect_encode, writes_connack_encode, writes_publish_encode,
      writes_subscribe_encode, writes_suback_encode, writes_unsubscribe_encode;
    try (by apply writes_ack_encode).
  all: unfold wire3; cbn [header3 body3_bytes]; rewrite app_nil_r; apply writes_ecnode, H.
Qed.

Lemma body3_reads m : wf3 m -> body3 (read_header (header3 m)) (body3_bytes m) = Ok (reread m).
Proof.
  intros [Ht H]. unfold body3. rewrite read_header_type, Ht.
  destruct m as [p|p|p|p|p|p|p|p|p|p|p|h|h|h]; cbn [type3 header3 body3_bytes] in *;
    unfold reread; cbn [header3 with_header3].
  - by rewrite connect3_body_reads.
  - by rewrite connack3_body_reads.
  - rewrite publish3_body_reads; [done|done|].
    unfold read_header. cbn [fx_qos]. by rewrite Ht.
  - by rewrite ack3_body_reads.
  - by rewrite ack3_body_reads.
  - by rewrite ack3_body_reads.
  - by rewrite ack3_body_reads.
  - by rewrite subscribe3_body_reads.
  - by rewrite suback3_body_reads.
  - by rewrite unsubscribe3_body_reads.
  - by rewrite ack3_body_reads.
  - done.
  - done.
  - done.
Qed.

(** The parser reads back what the encoder writes. *)
Lemma parse_wire3 m max rest :
  wf3 m -> (type3 m = PUBLISH -> zlen (body3_bytes m) <= max) -> is_bytes rest ->
  parse max (wire3 m ++ rest) = Ok (rest, (wire3 m, reread m)).
Proof.
  intros Hm Hmax Hr. destruct (wf3_header m Hm) as (Hh & Ha & Hl & Hb).
  rewrite parse_run. unfold wire3.
  rewrite (framed_reads _ _ _ (header3 m) (body3_bytes m) (reread m)); try done.
  - cbn [mbind outcome_bind]. rewrite (length_app _ rest), Nat.add_sub. by rewrite take_app_length.
  - unfold len3. rewrite read_header_type. destruct Hm as [-> Hm].
    destruct m; try done; destruct Hm; done.
  - unfold check3. rewrite read_header_type. destruct (Hm) as [-> _].
    destruct (decide (type3 m = PUBLISH)) as [E|E]; [|by rewrite bool_decide_false by done].
    rewrite bool_decide_true by done. cbn [negb orb read_header fx_remaining_length].
    rewrite Hl. apply Z.leb_le. auto.
  - by apply body3_reads.
Qed.

End RoundTrip.
