(* ===== verification/V3Convert.v ===== *)
(** * MQTT 3.1.1 packets and neutral packets ([mqtt/src/packet.rs])

    [From<MqttPacketV3> for Packet] and [TryFrom<Packet> for MqttPacketV3]: how
    the broker takes in what an MQTT 3.1.1 client sends and turns what it
    delivers, whoever published it, into packets such a client understands. *)

From S2P Require Import Prelude Utf8 Buf Packet V5Common V3Nom V3FixedHeader V3Common V3Ack.
From S2P Require Import V3Connack V3Publish V3Subscribe V3Connect V3Codec.

Inductive PacketConversionError :=
  | UnsupportedPacketForMqtt3 (packet : string)
  | InvalidQos (qos : Z).

Definition v3_ack (packet_identifier : Z) : Ack :=
  mkAck V3_1_1 packet_identifier RcSuccess default_properties.

Definition validate_qos (qos : Z) : outcome PacketConversionError unit :=
  if qos <=? 2 then Ok tt else Err (InvalidQos qos).

Definition v3_connack_return_code_to_reason (return_code : Z) : ReasonCode :=
  if return_code =? 0x00 then RcSuccess
  else if return_code =? 0x01 then RcUnsupportedProtocolVersion
  else if return_code =? 0x02 then RcClientIdentifierNotValid
  else if return_code =? 0x04 then RcBadUserNameOrPassword
  else if return_code =? 0x05 then RcNotAuthorized
  else RcServerUnavailable.

Definition reason_to_v3_connack_return_code (reason_code : ReasonCode) : ConnackReturnCode :=
  match reason_code with
  | RcSuccess | RcGrantedQos0 | RcNormalDisconnection => Accept
  | RcUnsupportedProtocolVersion => UnsupportedProtocolVersion
  | RcClientIdentifierNotValid => InvalidClientIdentifier
  | RcBadUserNameOrPassword => InvalidUsernameOrPassword
  | RcNotAuthorized => UnAuthorized
  | _ => ServerUnavailable
  end.

Definition v3_suback_return_code_to_reason (return_code : ReturnCode) : ReasonCode :=
  match return_code with
  | MaxQos0 => RcGrantedQos0
  | MaxQos1 => RcGrantedQos1
  | MaxQos2 => RcGrantedQos2
  | Failure | Invalid => RcUnspecifiedError
  end.

Definition reason_to_v3_suback_return_code (reason_code : ReasonCode) : ReturnCode :=
  match reason_code with
  | RcSuccess | RcGrantedQos0 => MaxQos0
  | RcGrantedQos1 => MaxQos1
  | RcGrantedQos2 => MaxQos2
  | _ => Failure
  end.

(** [Packet::from(MqttPacketV3)]. *)
Definition from (packet : MqttPacketV3) : Packet :=
  match packet with
  | M3Connect packet =>
      let payload := co_payload packet in
      let variable_header := co_variable_header packet in
      PConnect (mkConnect V3_1_1 (cp_client_identifier payload) (cp_username payload)
        (cp_password payload) (cv_keep_alive variable_header) (cv_clean_session variable_header)
        None
        (topic ← cp_will_topic payload;
         Some (mkWill topic (as_bytes (default ""%string (cp_will_message payload)))
                 (cv_will_qos variable_header) (cv_will_retain variable_header)
                 default_properties))
        default_properties)
  | M3Connack packet =>
      PConnack (mkConnack V3_1_1 (ck_session_present (ck_variable_header packet))
        (v3_connack_return_code_to_reason (ck_connect_return_code (ck_variable_header packet)))
        default_properties)
  | M3Publish packet =>
      PPublish (mkPublish V3_1_1 (pv_topic_name (pu_variable_header packet)) (pu_payload packet)
        (cast_u8 (default 0 (fx_qos (pu_fix_header packet))))
        (default false (fx_retain (pu_fix_header packet)))
        (default 0 (fx_dup (pu_fix_header packet)) =? 1)
        (pv_packet_identifier (pu_variable_header packet)) default_properties None)
  | M3Puback packet => PPuback (v3_ack (a3_packet_identifier (a3_variable_header packet)))
  | M3Pubrec packet => PPubrec (v3_ack (a3_packet_identifier (a3_variable_header packet)))
  | M3Pubrel packet => PPubrel (v3_ack (a3_packet_identifier (a3_variable_header packet)))
  | M3Pubcomp packet => PPubcomp (v3_ack (a3_packet_identifier (a3_variable_header packet)))
  | M3Subscribe packet =>
      PSubscribe (mkSubscribe V3_1_1 (a3_packet_identifier (su_variable_header packet))
        (map (fun topic => mkSubscribeTopic (sf_topic_name topic) (sf_qos topic) false false
                             SendAtSubscribe) (su_topic_filters packet))
        default_properties)
  | M3Suback packet =>
      PSuback (mkSuback V3_1_1 (a3_packet_identifier (sk_variable_header packet))
        (map v3_suback_return_code_to_reason (sk_return_code packet)) default_properties)
  | M3Unsubscribe packet =>
      PUnsubscribe (mkUnsubscribe V3_1_1 (a3_packet_identifier (un_variable_header packet))
        (map uf_topic_name (un_topic_filters packet)) default_properties)
  | M3Unsuback packet =>
      PUnsuback (mkUnsuback V3_1_1 (a3_packet_identifier (a3_variable_header packet)) [RcSuccess]
        default_properties)
  | M3Pingreq _ => PPingreq
  | M3Pingresp _ => PPingresp
  | M3Disconnect _ =>
      PDisconnect (mkDisconnect V3_1_1 RcNormalDisconnection None default_properties)
  end.

(** The [for topic in packet.topics] loops of SUBSCRIBE and UNSUBSCRIBE. *)
Fixpoint subscribe_topics (topics : list SubscribeTopic) (builder : SubscribePacketBuilder)
    : outcome PacketConversionError SubscribePacketBuilder :=
  match topics with
  | [] => Ok builder
  | topic :: topics =>
      validate_qos (st_qos topic);;
      subscribe_topics topics
        (subscribe_add_topic_filter
           (mkSubscribeTopicFilter (st_topic_filter topic) (st_qos topic)) builder)
  end.
Fixpoint unsubscribe_topics (topics : list string) (builder : UnsubscribePacketBuilder)
    : UnsubscribePacketBuilder :=
  match topics with
  | [] => builder
  | topic :: topics =>
      unsubscribe_topics topics
        (unsubscribe_add_topic_filter (mkUnsubscribeTopicFilter topic) builder)
  end.

Section TryFrom.
Context {B : BytesCrate}.

(** A call that can only return or panic. *)
Definition infallible {E A} (m : outcome Empty_set A) : outcome E A :=
  match m with
  | Ok a => Ok a
  | Err e => match e with end
  | Panic => Panic
  | OutOfFuel => OutOfFuel
  end.

(** [MqttPacketV3::try_from(Packet)]; [random] is what the PUBLISH builder's
    [generate_random_u16] would return. *)
Definition try_from (random : Z) (packet : Packet) : outcome PacketConversionError MqttPacketV3 :=
  match packet with
  | PConnect packet =>
      let builder := connect_builder_new (cn_client_id packet) in
      let builder := builder_keep_alive (cn_keep_alive packet) builder in
      let builder := builder_clean_session (cn_clean_start packet) builder in
      let builder :=
        match cn_will packet with
        | Some will => builder_will_msg (w_topic will) (from_utf8_lossy (w_payload will))
                         (w_qos will) (w_retain will) builder
        | None => builder
        end in
      let builder :=
        match cn_username packet with
        | Some username => builder_username username builder
        | None => builder
        end in
      let builder :=
        match cn_password packet with
        | Some password => builder_password password builder
        | None => builder
        end in
      Ok (M3Connect (connect_build builder))
  | PConnack packet =>
      let builder := set_session_present (ca_session_present packet) connack_builder_new in
      let builder :=
        set_return_code (reason_to_v3_connack_return_code (ca_reason_code packet)) builder in
      Ok (M3Connack (connack_build builder))
  | PPublish packet =>
      validate_qos (pb_qos packet);;
      let builder := publish_builder_new (pb_topic_name packet) (pb_payload packet) in
      let builder := builder_qos (pb_qos packet) builder in
      let builder := builder_retain (pb_retain packet) builder in
      let builder := builder_dup (pb_dup packet) builder in
      let builder :=
        match pb_packet_identifier packet with
        | Some packet_identifier => builder_packet_identifier packet_identifier builder
        | None => builder
        end in
      packet ← infallible (publish_build random builder);
      Ok (M3Publish packet)
  | PPuback packet => Ok (M3Puback (puback_new (ak_packet_identifier packet)))
  | PPubrec packet => Ok (M3Pubrec (pubrec_new (ak_packet_identifier packet)))
  | PPubrel packet => Ok (M3Pubrel (pubrel_new (ak_packet_identifier packet)))
  | PPubcomp packet => Ok (M3Pubcomp (pubcomp_new (ak_packet_identifier packet)))
  | PSubscribe packet =>
      builder ← subscribe_topics (sb_topics packet)
                  (subscribe_builder_new (sb_packet_identifier packet));
      Ok (M3Subscribe (subscribe_build builder))
  | PSuback packet =>
      Ok (M3Suback (suback_new (sa_packet_identifier packet)
            (map reason_to_v3_suback_return_code (sa_reason_codes packet))))
  | PUnsubscribe packet =>
      Ok (M3Unsubscribe (unsubscribe_build
            (unsubscribe_topics (us_topics packet)
               (unsubscribe_builder_new (us_packet_identifier packet)))))
  | PUnsuback packet => Ok (M3Unsuback (unsuback_new (ua_packet_identifier packet)))
  | PPingreq => Ok (M3Pingreq pingreq_build)
  | PPingresp => Ok (M3Pingresp pingresp_new)
  | PDisconnect _ => Ok (M3Disconnect (mkFixHeader DISCONNECT None None None 0))
  | PAuth _ => Err (UnsupportedPacketForMqtt3 "AUTH")
  end.

End TryFrom.

(** ** What an MQTT 3.1.1 client is told *)

(** The reasons a CONNACK and a SUBACK of MQTT 3.1.1 can carry. *)
Definition connack_view (r : ReasonCode) : ReasonCode :=
  match r with
  | RcSuccess | RcGrantedQos0 | RcNormalDisconnection => RcSuccess
  | RcUnsupportedProtocolVersion | RcClientIdentifierNotValid | RcBadUserNameOrPassword
  | RcNotAuthorized => r
  | _ => RcServerUnavailable
  end.
Definition suback_view (r : ReasonCode) : ReasonCode :=
  match r with
  | RcSuccess | RcGrantedQos0 => RcGrantedQos0
  | RcGrantedQos1 | RcGrantedQos2 => r
  | _ => RcUnspecifiedError
  end.

(** A packet without what MQTT 3.1.1 has no room for: properties, most reason
    codes and subscription options.  A PUBLISH above QoS 0 has an identifier. *)
Definition v3_view (random : Z) (p : Packet) : Packet :=
  match p with
  | PConnect p =>
      PConnect (mkConnect V3_1_1 (cn_client_id p) (cn_username p) (cn_password p)
        (cn_keep_alive p) (cn_clean_start p) None
        (will ← cn_will p;
         Some (mkWill (w_topic will) (w_payload will) (w_qos will) (w_retain will)
                 default_properties))
        default_properties)
  | PConnack p =>
      PConnack (mkConnack V3_1_1 (ca_session_present p) (connack_view (ca_reason_code p))
        default_properties)
  | PPublish p =>
      PPublish (mkPublish V3_1_1 (pb_topic_name p) (pb_payload p) (pb_qos p) (pb_retain p)
        (pb_dup p)
        (if 0 <? pb_qos p then Some (default random (pb_packet_identifier p)) else None)
        default_properties None)
  | PPuback p => PPuback (v3_ack (ak_packet_identifier p))
  | PPubrec p => PPubrec (v3_ack (ak_packet_identifier p))
  | PPubrel p => PPubrel (v3_ack (ak_packet_identifier p))
  | PPubcomp p => PPubcomp (v3_ack (ak_packet_identifier p))
  | PSubscribe p =>
      PSubscribe (mkSubscribe V3_1_1 (sb_packet_identifier p)
        (map (fun t => mkSubscribeTopic (st_topic_filter t) (st_qos t) false false
                         SendAtSubscribe) (sb_topics p)) default_properties)
  | PSuback p =>
      PSuback (mkSuback V3_1_1 (sa_packet_identifier p) (map suback_view (sa_reason_codes p))
        default_properties)
  | PUnsubscribe p =>
      PUnsubscribe (mkUnsubscribe V3_1_1 (us_packet_identifier p) (us_topics p)
        default_properties)
  | PUnsuback p =>
      PUnsuback (mkUnsuback V3_1_1 (ua_packet_identifier p) [RcSuccess] default_properties)
  | PPingreq => PPingreq
  | PPingresp => PPingresp
  | PDisconnect _ =>
      PDisconnect (mkDisconnect V3_1_1 RcNormalDisconnection None default_properties)
  | PAuth a => PAuth a
  end.

(** The Rust types of the fields, and strings that fit into a packet. *)
Definition wf_neutral (p : Packet) : Prop :=
  match p with
  | PConnect p =>
      short_str (cn_client_id p) /\ opt_short (cn_username p) /\ opt_short (cn_password p) /\
      is_u16 (cn_keep_alive p) /\
      match cn_will p with
      | Some w => short_str (w_topic w) /\ is_bytes (w_payload w) /\
                  valid_utf8 (w_payload w) = true /\ zlen (w_payload w) <= u16_max /\
                  0 <= w_qos w <= 2
      | None => True
      end
  | PPublish p =>
      short_str (pb_topic_name p) /\ is_bytes (pb_payload p) /\ is_u8 (pb_qos p) /\
      match pb_packet_identifier p with Some id => is_u16 id | None => True end
  | PPuback p | PPubrec p | PPubrel p | PPubcomp p => is_u16 (ak_packet_identifier p)
  | PSubscribe p =>
      is_u16 (sb_packet_identifier p) /\
      Forall (fun t => short_str (st_topic_filter t) /\ is_u8 (st_qos t)) (sb_topics p)
  | PSuback p => is_u16 (sa_packet_identifier p)
  | PUnsubscribe p => is_u16 (us_packet_identifier p) /\ Forall short_str (us_topics p)
  | PUnsuback p => is_u16 (ua_packet_identifier p)
  | PConnack _ | PPingreq | PPingresp | PDisconnect _ | PAuth _ => True
  end.

(** When there is an MQTT 3.1.1 form at all. *)
Definition convertible (p : Packet) : bool :=
  match p with
  | PPublish p => pb_qos p <=? 2
  | PSubscribe p => forallb (fun t => st_qos t <=? 2) (sb_topics p)
  | PAuth _ => false
  | _ => true
  end.

(** ** Lemmas *)

Lemma subscribe_topics_run topics : forall builder,
  match subscribe_topics topics builder with
  | Ok b =>
      forallb (fun t => st_qos t <=? 2) topics = true /\
      b = mkSubscribePacketBuilder
            (b3_topic_filters builder
             ++ map (fun t => mkSubscribeTopicFilter (st_topic_filter t) (st_qos t)) topics)
            (b3_packet_identifier builder)
  | Err _ => forallb (fun t => st_qos t <=? 2) topics = false
  | Panic | OutOfFuel => False
  end.
Proof.
  induction topics as [|t topics IH]; intros builder; cbn [subscribe_topics forallb map].
  - rewrite app_nil_r. by destruct builder.
  - unfold validate_qos. destruct (st_qos t <=? 2); [|done]. cbn [mbind outcome_bind].
    specialize (IH (subscribe_add_topic_filter (mkSubscribeTopicFilter (st_topic_filter t) (st_qos t)) builder)).
    destruct (subscribe_topics _ _) as [b|e| |]; try done. destruct IH as [Hq ->]. split; [done|].
    unfold subscribe_add_topic_filter. cbn [b3_topic_filters b3_packet_identifier].
    by rewrite <-app_assoc.
Qed.

Lemma unsubscribe_topics_run topics : forall builder,
  unsubscribe_topics topics builder =
    mkUnsubscribePacketBuilder (ub_topic_filters builder ++ map mkUnsubscribeTopicFilter topics)
      (ub_packet_identifier builder).
Proof.
  induction topics as [|t topics IH]; intros builder; cbn [unsubscribe_topics map].
  - rewrite app_nil_r. by destruct builder.
  - rewrite IH. unfold unsubscribe_add_topic_filter. cbn [ub_topic_filters ub_packet_identifier].
    by rewrite <-app_assoc.
Qed.

Lemma connack_reason_view r :
  v3_connack_return_code_to_reason (connack_code (reason_to_v3_connack_return_code r)) = connack_view r.
Proof. by destruct r. Qed.
Lemma suback_reason_view r :
  v3_suback_return_code_to_reason (reason_to_v3_suback_return_code r) = suback_view r.
Proof. by destruct r. Qed.
Lemma reason_code_valid r : reason_to_v3_suback_return_code r <> Invalid.
Proof. by destruct r. Qed.

(** A header built with the length of a body. *)
Lemma wf_new_header t qos retain dup len :
  match dup with Some d => 0 <= d <= 1 | None => True end ->
  match qos with Some q => 0 <= q <= 3 | None => True end ->
  0 <= len <= MAX_VARIABLE_BYTE_INTEGER ->
  wf_fix_header (mkFixHeader t qos retain dup len).
Proof. done. Qed.

Section Convert.
Context {B : BytesCrate} {BS : BytesCrateSpec B}.

(** A packet [m] built for [p]: well formed if its length can be written at all,
    and read back as the view of [p]. *)
Definition built (random : Z) (p : Packet) (m : MqttPacketV3) : Prop :=
  fx_remaining_length (header3 m) <= MAX_VARIABLE_BYTE_INTEGER ->
  wf3 m /\ from (reread m) = v3_view random p.

Lemma lossy_payload l :
  is_bytes l -> valid_utf8 l = true -> zlen l <= u16_max ->
  as_bytes (from_utf8_lossy l) = l /\ short_str (from_utf8_lossy l).
Proof.
  intros Hb Hv Hl. assert (as_bytes (from_utf8_lossy l) = l) as E.
  { unfold from_utf8_lossy. by rewrite lossy_valid, as_bytes_of_bytes. }
  split; [done|]. split; [by apply from_utf8_lossy_is_str|by rewrite E].
Qed.

Lemma built_connect random p :
  wf_neutral (PConnect p) ->
  match try_from random (PConnect p) with Ok m => built random (PConnect p) m | _ => False end.
Proof.
  destruct p as [ver cid user pass ka cs se will props].
  intros (Hc & Hu & Hp & Hk & Hw). cbn [cn_client_id cn_username cn_password cn_keep_alive cn_will] in *.
  assert (short_str "MQTT") as Hn by (split; [done|by vm_compute]).
  cbn [try_from cn_client_id cn_username cn_password cn_keep_alive cn_clean_start cn_will].
  intros Hlen. cbn [header3] in Hlen.
  set (pk := connect_build _) in *.
  assert (fx_remaining_length (co_fix_header pk) = zlen (connect3_bytes pk)) as El
    by (apply connect_length_run).
  pose proof (zlen_nonneg (connect3_bytes pk)).
  assert (wf_fix_header (co_fix_header pk)) as Hh
    by (split; [done|]; split; [done|]; rewrite El in *; lia).
  unfold pk in *. clear pk.
  destruct will as [[wt wp wq wr wprops]|], user as [u|], pass as [w|];
    cbn [w_topic w_payload w_qos w_retain w_properties opt_short] in *;
    try (destruct Hw as (Hwt & Hwb & Hwv & Hwl & Hwq);
         destruct (lossy_payload wp Hwb Hwv Hwl) as [Ewp Hwm]);
    (split; [split; [done|];
       repeat split; try done; try (apply Hc || apply Hwt || apply Hwm || apply Hu || apply Hp || apply Hk || apply Hh);
       cbn; lia
     | lazy -[as_bytes from_utf8_lossy default_properties]; rewrite ?Ewp; done]).
Qed.

Lemma built_publish random p :
  is_u16 random -> wf_neutral (PPublish p) -> pb_qos p <= 2 ->
  match try_from random (PPublish p) with Ok m => built random (PPublish p) m | _ => False end.
Proof.
  intros Hr (Ht & Hpl & Hq & Hid) Hle. cbn [try_from]. unfold validate_qos.
  rewrite (proj2 (Z.leb_le _ _)) by done. cbn [mbind outcome_bind].
  set (builder := match pb_packet_identifier p with Some _ => _ | None => _ end).
  assert (builder = mkPublishPacketBuilder (pb_dup p) (pb_retain p) (pb_qos p) (pb_topic_name p)
    (pb_payload p) (pb_packet_identifier p)) as -> by (unfold builder; by destruct (pb_packet_identifier p)).
  rewrite publish_build_run by apply Ht. cbv zeta.
  cbn [infallible mbind outcome_bind bp_dup bp_retain bp_qos bp_topic_name bp_payload bp_packet_identifier].
  set (v := mkPublishVariableHeader _ _).
  intros Hlen. cbn [header3 pu_fix_header fx_remaining_length] in Hlen.
  pose proof (zlen_nonneg (publish_variable_bytes v ++ pb_payload p)).
  unfold is_u8 in Hq. split.
  - split; [done|]. split; [apply wf_new_header; [destruct (pb_dup p); [lia|done]|lia|lia]|].
    do 2 (split; [done|]). split; [apply Ht|]. split; [apply Ht|]. split; [done|].
    unfold v, qos_1_or_2. cbn [pu_variable_header pv_packet_identifier pu_fix_header fx_qos].
    destruct (Z.ltb_spec 0 (pb_qos p)).
    + split; [by destruct (pb_packet_identifier p)|].
      assert (pb_qos p = 1 \/ pb_qos p = 2) as [-> | ->] by lia; done.
    + by replace (pb_qos p) with 0 by lia.
  - unfold reread, v3_view. cbn [with_header3 header3 from pu_fix_header pu_variable_header pu_payload].
    unfold read_header. cbn [fx_packet_type fx_qos fx_retain fx_dup flagged].
    rewrite !decide_True by done. cbn [default from_option id].
    unfold cast_u8. rewrite Z.mod_small by lia. unfold v. cbn [pv_topic_name pv_packet_identifier].
    by destruct (pb_dup p).
Qed.

Lemma built_subscribe random p :
  wf_neutral (PSubscribe p) ->
  match try_from random (PSubscribe p) with
  | Ok m => convertible (PSubscribe p) = true /\ built random (PSubscribe p) m
  | Err _ => convertible (PSubscribe p) = false
  | _ => False
  end.
Proof.
  intros [Hid Ht]. cbn [try_from convertible].
  pose proof (subscribe_topics_run (sb_topics p) (subscribe_builder_new (sb_packet_identifier p))) as H.
  destruct (subscribe_topics _ _) as [b|e| |]; try done. destruct H as [Hq ->]. cbn [mbind outcome_bind].
  split; [done|]. intros Hlen. cbn [app b3_topic_filters b3_packet_identifier subscribe_builder_new] in *.
  set (fs := map _ (sb_topics p)) in *.
  set (pk := subscribe_build _) in *.
  assert (fx_remaining_length (su_fix_header pk) = zlen (subscribe3_bytes pk)) as El.
  { unfold pk, subscribe_build, subscribe3_bytes.
    cbn [su_fix_header fx_remaining_length su_variable_header su_topic_filters b3_topic_filters].
    rewrite subscribe_length_run, zlen_app, zlen_be_u16. lia. }
  pose proof (zlen_nonneg (subscribe3_bytes pk)). cbn [header3] in Hlen.
  assert (wf_fix_header (su_fix_header pk)) as Hh
    by (split; [done|]; split; [done|]; rewrite El in *; lia). split.
  - split; [done|]. split; [exact Hh|].
    do 3 (split; [done|]). unfold pk, fs. cbn. apply Forall_map. eapply Forall_impl; [exact Ht|]. done.
  - unfold pk, fs. cbn. do 2 f_equal. rewrite map_map. done.
Qed.

Lemma built_unsubscribe random p :
  wf_neutral (PUnsubscribe p) ->
  match try_from random (PUnsubscribe p) with Ok m => built random (PUnsubscribe p) m | _ => False end.
Proof.
  intros [Hid Ht]. cbn [try_from]. rewrite unsubscribe_topics_run. intros Hlen.
  cbn [app ub_topic_filters ub_packet_identifier unsubscribe_builder_new] in *.
  set (fs := map _ (us_topics p)) in *. set (pk := unsubscribe_build _) in *.
  assert (fx_remaining_length (un_fix_header pk) = zlen (unsubscribe3_bytes pk)) as El.
  { unfold pk, unsubscribe_build, unsubscribe3_bytes.
    cbn [un_fix_header fx_remaining_length un_variable_header un_topic_filters ub_topic_filters].
    rewrite unsubscribe_length_run, zlen_app, zlen_be_u16. lia. }
  pose proof (zlen_nonneg (unsubscribe3_bytes pk)). cbn [header3] in Hlen.
  assert (wf_fix_header (un_fix_header pk)) as Hh
    by (split; [done|]; split; [done|]; rewrite El in *; lia). split.
  - split; [done|]. split; [exact Hh|].
    do 3 (split; [done|]). unfold pk, fs. cbn. apply Forall_map. eapply Forall_impl; [exact Ht|]. done.
  - unfold pk, fs. cbn. do 2 f_equal. rewrite map_map. apply map_id.
Qed.

Lemma built_suback random p :
  wf_neutral (PSuback p) ->
  match try_from random (PSuback p) with Ok m => built random (PSuback p) m | _ => False end.
Proof.
  intros Hid. cbn [try_from]. intros Hlen.
  set (codes := map reason_to_v3_suback_return_code (sa_reason_codes p)) in *.
  pose proof (zlen_nonneg codes). split.
  - split; [done|]. split; [apply wf_new_header; [done|done|]; cbn in Hlen |- *; lia|].
    do 3 (split; [done|]). unfold codes. cbn. apply Forall_map, Forall_forall. intros r _.
    apply reason_code_valid.
  - cbn. do 2 f_equal. unfold codes. rewrite map_map. apply map_ext, suback_reason_view.
Qed.

(** A packet of two bytes and no flags. *)
Lemma wf_ack_new t id : t <> PUBLISH -> is_u16 id -> wf_ack3 (ack_new t id).
Proof.
  intros Ht Hid. split; [apply wf_new_header; [done|done|]; unfold MAX_VARIABLE_BYTE_INTEGER; cbn; lia|].
  by split; [intros _ _|].
Qed.

Lemma wf_bare_new t : wf_fix_header (mkFixHeader t None None None 0).
Proof. apply wf_new_header; [done|done|]. unfold MAX_VARIABLE_BYTE_INTEGER. lia. Qed.

(** [try_from] on every packet: it fails exactly where there is no MQTT 3.1.1
    form, and never panics. *)
Lemma try_from_run random p :
  is_u16 random -> wf_neutral p ->
  match try_from random p with
  | Ok m => convertible p = true /\ built random p m
  | Err _ => convertible p = false
  | Panic | OutOfFuel => False
  end.
Proof.
  intros Hr Hp.
  destruct p as [p|p|p|p|p|p|p|p|p|p|p| | |p|p].
  - pose proof (built_connect random p Hp). by destruct (try_from random _).
  - split; [done|]. intros _. destruct p as [v sp r props]. cbn. rewrite connack_reason_view.
    split; [|done]. split; [done|]. split; [by apply wf_new_header|]. split; [done|].
    split; [done|]. by destruct r.
  - cbn [convertible]. destruct (Z.leb_spec (pb_qos p) 2) as [Hq|Hq].
    + pose proof (built_publish random p Hr Hp Hq). by destruct (try_from random _).
    + cbn [try_from]. unfold validate_qos. by rewrite (proj2 (Z.leb_gt _ _)).
  - split; [done|]. intros _. by split; [split; [|apply wf_ack_new]|].
  - split; [done|]. intros _. by split; [split; [|apply wf_ack_new]|].
  - split; [done|]. intros _. by split; [split; [|apply wf_ack_new]|].
  - split; [done|]. intros _. by split; [split; [|apply wf_ack_new]|].
  - by apply built_subscribe.
  - pose proof (built_suback random p Hp). by destruct (try_from random _).
  - pose proof (built_unsubscribe random p Hp). by destruct (try_from random _).
  - split; [done|]. intros _. by split; [split; [|apply wf_ack_new]|].
  - split; [done|]. intros _. by split; [split; [|split; [apply wf_bare_new|]]|].
  - split; [done|]. intros _. by split; [split; [|split; [apply wf_bare_new|]]|].
  - split; [done|]. intros _. by split; [split; [|split; [apply wf_bare_new|]]|].
  - done.
Qed.

End Convert.
