(* ===== verification/V3Framing.v ===== *)
(** * MQTT 3.1.1 connections

    [try_parse_v3_packet] of [broker/src/connection.rs] and the properties of
    the MQTT 3.1.1 codec: what is delivered to a client is read by it as the
    view MQTT 3.1.1 has of the packet, packets are read in order however the
    network cuts the stream, and what the parser does on arbitrary input. *)

From S2P Require Import Prelude Utf8 Buf Packet V5Common V5FixedHeader V5Frame ConnFraming.
From S2P Require Import V3Nom V3FixedHeader V3Common V3Ack V3Connack V3Publish V3Subscribe.
From S2P Require Import V3Connect V3Codec V3Convert.

Section TryParse.
Context {N : Nom}.

Definition try_parse_v3_packet (buffer : bytes) (max_message_size : Z) : try_result :=
  match V3Codec.parse max_message_size buffer with
  | Ok (_, (consumed_bytes, packet)) => Ok (Some (length consumed_bytes, from packet, V3_1_1))
  | Err NIncomplete => Ok None
  | Err (NError code) =>
      if decide (code = Verify)
      then Err (MaxMessageSizeExceeded "Message size exceeds maximum allowed size of the system.")
      else Err (PacketParseError "Invalid MQTT v3 packet")
  | Err (NFailure _) => Err (PacketParseError "Invalid MQTT v3 packet")
  | Panic => Panic
  | OutOfFuel => OutOfFuel
  end.

End TryParse.

(** ** Lemmas *)

Section Lemmas.
Context {N : Nom} {NS : NomSpec N}.

(** The verdict on what has arrived so far, given the verdict on all of it. *)
Lemma try_parse_v3_prefix max buffer more rest c m :
  is_bytes (buffer ++ more) ->
  V3Codec.parse max (buffer ++ more) = Ok (rest, (c, m)) ->
  (try_parse_v3_packet buffer max = Ok None /\ more <> []) \/
  exists n, try_parse_v3_packet buffer max = Ok (Some (n, from m, V3_1_1)) /\
    drop n buffer ++ more = rest.
Proof.
  intros Hb. rewrite parse_run. unfold try_parse_v3_packet. rewrite parse_run.
  pose proof (framed_streaming len3 (check3 max) body3 (buffer ++ more) Hb) as Hs.
  destruct (framed_by _ _ _ (buffer ++ more)) as [[r m']|e| |]; try done.
  cbn [mbind outcome_bind]. intros [= -> <- ->].
  destruct Hs as (pre & E & Hok & Hinc). apply is_bytes_app in Hb as [Hb Hm].
  destruct (decide (length buffer < length pre)%nat) as [Hlt|Hge].
  - left. assert (buffer = take (length buffer) pre) as Eb.
    { rewrite <-(take_app_length buffer more) at 1. rewrite E. by rewrite take_app_le by lia. }
    split.
    + rewrite Eb at 1. by rewrite Hinc.
    + intros ->. rewrite app_nil_r in E. apply (f_equal length) in E. rewrite length_app in E. lia.
  - right. assert (exists r', buffer = pre ++ r' /\ rest = r' ++ more) as (r' & -> & ->).
    { exists (drop (length pre) buffer).
      assert (take (length pre) buffer = pre) as Ht.
      { rewrite <-(take_app_le buffer more) by lia. by rewrite E, take_app_length. }
      split; [rewrite <-(take_drop (length pre) buffer) at 1; by rewrite Ht|].
      rewrite <-(drop_app_le buffer more) by lia. by rewrite E, drop_app_length. }
    apply is_bytes_app in Hb as [_ Hr']. rewrite Hok by done. cbn [mbind outcome_bind].
    rewrite (length_app pre r'), Nat.add_sub, take_app_length.
    exists (length pre). split; [done|]. by rewrite drop_app_length.
Qed.

Lemma read_v3_packet max m chunks buffer rest :
  wf3 m -> (type3 m = PUBLISH -> zlen (body3_bytes m) <= max) -> is_bytes rest ->
  Forall nonempty chunks -> buffer ++ concat chunks = wire3 m ++ rest ->
  exists buffer' chunks',
    read_packet try_parse_v3_packet max (Some V3_1_1) chunks buffer
      = Received (from (reread m)) V3_1_1 buffer' chunks' /\
    buffer' ++ concat chunks' = rest /\ Forall nonempty chunks'.
Proof.
  intros Hm Hmax Hr Hc E. pose proof (parse_wire3 m max rest Hm Hmax Hr) as Hp.
  assert (is_bytes (wire3 m ++ rest)) as Hb.
  { destruct (wf3_header m Hm) as (? & _ & _ & ?). apply is_bytes_app; split; [|done].
    apply is_bytes_app; split; [by apply header_bytes_is_bytes|done]. }
  apply (read_packet_cut _ _ _ _ _ (wire3 m ++ rest)); [|done|done].
  intros b more Eb. rewrite <-Eb in Hp, Hb. exact (try_parse_v3_prefix _ _ _ _ _ _ Hb Hp).
Qed.

Lemma wire3_is_bytes m : wf3 m -> is_bytes (wire3 m).
Proof.
  intros Hm. destruct (wf3_header m Hm) as (? & _ & _ & ?).
  apply is_bytes_app; split; [by apply header_bytes_is_bytes|done].
Qed.

Lemma read_v3_packets max ms : forall chunks buffer tail,
  Forall nonempty chunks ->
  Forall (fun m => wf3 m /\ zlen (body3_bytes m) <= max) ms -> is_bytes tail ->
  buffer ++ concat chunks = concat (map wire3 ms) ++ tail ->
  exists buffer' chunks',
    read_packets try_parse_v3_packet (length ms) max V3_1_1 chunks buffer
      = Some (map (fun m => from (reread m)) ms, buffer', chunks') /\
    buffer' ++ concat chunks' = tail.
Proof.
  induction ms as [|m ms IH]; intros chunks buffer tail Hc Hms Ht E.
  { by exists buffer, chunks. }
  apply Forall_cons in Hms as [[Hm Hmax] Hms].
  cbn [map concat] in E. rewrite <-app_assoc in E.
  assert (is_bytes (concat (map wire3 ms) ++ tail)) as Hb.
  { apply is_bytes_app; split; [|done]. apply is_bytes_concat, Forall_map.
    eapply Forall_impl; [exact Hms|]. intros k [Hk _]. by apply wire3_is_bytes. }
  destruct (read_v3_packet max m chunks buffer _ Hm (fun _ => Hmax) Hb Hc E)
    as (b1 & c1 & Hread & E1 & Hc1).
  destruct (IH c1 b1 tail Hc1 Hms Ht E1) as (b2 & c2 & Hreads & E2).
  exists b2, c2. cbn [length read_packets map]. rewrite Hread, Hreads. done.
Qed.

End Lemmas.

Section FirstPacket.
Context {N : Nom} {NS : NomSpec N}.

(** A CONNECT for [MQTT] as the frame the protocol detection sees. *)
Lemma wire3_connect_frame p :
  wf3 (M3Connect p) -> wire3 (M3Connect p) = frame CptConnect 0 (connect3_bytes p).
Proof.
  intros Hm. destruct (wf3_header _ Hm) as (_ & _ & Hl & _). destruct Hm as [Ht _].
  cbn [header3 body3_bytes type3] in *. unfold wire3, header_bytes, header_byte, frame.
  cbn [header3 body3_bytes]. by rewrite Hl, Ht.
Qed.

Lemma read_first_v3_packet max p chunks rest :
  wf3 (M3Connect p) -> cv_protocol_name (co_variable_header p) = "MQTT"%string ->
  zlen (connect3_bytes p) <= max -> is_bytes rest ->
  Forall nonempty chunks -> concat chunks = wire3 (M3Connect p) ++ rest ->
  exists buffer' chunks',
    read_packet try_parse_v3_packet max None chunks []
      = Received (from (reread (M3Connect p))) V3_1_1 buffer' chunks' /\
    buffer' ++ concat chunks' = rest.
Proof.
  intros Hm Hn Hmax Hr Hc E.
  pose proof (parse_wire3 (M3Connect p) max rest Hm ltac:(done) Hr) as Hp.
  assert (is_bytes (wire3 (M3Connect p) ++ rest)) as Hb by (apply is_bytes_app; auto using wire3_is_bytes).
  destruct (wf3_header _ Hm) as ((_ & _ & Hlen) & _ & Hl & _). cbn [header3 body3_bytes] in Hl, Hlen.
  rewrite Hl in Hlen.
  assert (connect3_bytes p = string_bytes "MQTT" ++ 4 :: flags_value (co_variable_header p)
    :: be_u16 (cv_keep_alive (co_variable_header p)) ++ connect_payload_bytes (co_payload p)) as Ebody.
  { unfold connect3_bytes, connect_variable_bytes. by rewrite Hn, <-app_assoc. }
  destruct (read_packet_cut try_parse_v3_packet max None V3_1_1 (from (reread (M3Connect p)))
    (wire3 (M3Connect p) ++ rest) rest chunks []) as (b & c & ? & ? & _); [|done|done|eauto].
  intros b more Eb. unfold try_parse_packet.
  assert (detect_initial_connect_protocol b max =
    if decide (length b < length (wire3 (M3Connect p)))%nat then Ok None else Ok (Some V3_1_1)) as ->.
  { rewrite wire3_connect_frame in Eb |- * by done. rewrite Ebody in Eb, Hlen, Hmax |- *.
    refine (detect_frame 0 4 _ max b more rest _ (proj2 Hlen) Hmax Eb). done. }
  rewrite <-Eb in Hp, Hb.
  destruct (decide _) as [Hlt|Hge]; cbn [mbind outcome_bind].
  - left. split; [done|]. intros ->. apply (f_equal length) in Eb.
    rewrite app_nil_r, length_app in Eb. lia.
  - exact (try_parse_v3_prefix _ _ _ _ _ _ Hb Hp).
Qed.

End FirstPacket.

(** ** The second encoder *)

Section ToBytes.
Context {B : BytesCrate} {BS : BytesCrateSpec B}.

(** [to_bytes] of a SUBSCRIBE or UNSUBSCRIBE: its own header, one length byte. *)
Lemma own_header_run first len (w1 w2 : encoder3) o1 o2 :
  0 <= len -> writes w1 true o1 -> writes w2 true o2 ->
  let m := with_new_buffer (
    put_bytes (with_new_buffer (put_u8 first;; n ← lift (expect_u8 len); put_u8 n));;
    put_bytes (with_new_buffer w1);; put_bytes (with_new_buffer w2)) in
  if len <=? 255 then exists b, m = Ok b /\ bm_slice b = [first; len] ++ o1 ++ o2 else m = Panic.
Proof.
  intros Hl H1 H2. cbv zeta. unfold expect_u8. destruct (Z.leb_spec len 255).
  - apply writes_new_buffer.
    refine (writes_bind (ok1 := true) (o1 := [first; len]) _ (ok2 := true) _).
    + apply writes_put_bytes. refine (writes_bind (writes_put_u8 _) (ok2 := true) (o2 := [len]) _).
      apply writes_lift; [done|]. apply writes_put_u8.
    + refine (writes_bind (ok1 := true) _ (ok2 := true) _); by apply writes_put_bytes.
  - done.
Qed.

Lemma to_bytes_agrees m :
  wf3 m -> type3 m <> SUBSCRIBE -> type3 m <> UNSUBSCRIBE ->
  exists b, V3Codec.to_bytes m = Ok b /\ bm_slice b = wire3 m.
Proof.
  intros [Ht H] Hs Hu.
  assert (forall w o, writes (put_bytes w) true o -> exists b, w = Ok b /\ bm_slice b = o) as Hput.
  { intros w o Hw. specialize (Hw bm_new). unfold put_bytes in Hw.
    destruct w as [b|[]| |]; try done. exists b. split; [done|]. cbn in Hw.
    destruct Hw as (out & Hb & _ & ->). rewrite bm_extend_spec, bm_new_spec in Hb. done. }
  destruct m as [p|p|p|p|p|p|p|p|p|p|p|h|h|h]; cbn [type3] in *; try done; cbn [V3Codec.to_bytes];
    unfold wire3; cbn [header3 body3_bytes].
  - by apply Hput, writes_connect_to_bytes.
  - by apply Hput, writes_connack_to_bytes.
  - by apply Hput, writes_publish_to_bytes.
  - by apply Hput, writes_ack_to_bytes.
  - by apply Hput, writes_ack_to_bytes.
  - by apply Hput, writes_ack_to_bytes.
  - by apply Hput, writes_ack_to_bytes.
  - by apply Hput, writes_suback_to_bytes.
  - by apply Hput, writes_ack_to_bytes.
  - rewrite app_nil_r. apply to_bytes_run, H.
  - rewrite app_nil_r. apply to_bytes_run, H.
  - rewrite app_nil_r. apply to_bytes_run, H.
Qed.

End ToBytes.

(** ** Theorems *)

(** C13: what the broker delivers to an MQTT 3.1.1 client.  Conversion fails exactly
    for AUTH and for a QoS above 2, and never panics; otherwise the converted
    packet is encoded, and parsing the bytes, whatever follows them, gives
    back the packet without what MQTT 3.1.1 has no room for. *)
Theorem v3_delivery {N : Nom} {NS : NomSpec N} {B : BytesCrate} {BS : BytesCrateSpec B}
    (random max : Z) (p : Packet) (buf : BytesMut) (rest : bytes) :
  is_u16 random -> wf_neutral p -> is_bytes rest ->
  if convertible p then
    exists m, try_from random p = Ok m /\
      (fx_remaining_length (header3 m) <= Z.min max MAX_VARIABLE_BYTE_INTEGER ->
       exists buf' out m',
         V3Codec.encode m buf = (Ok tt, buf') /\ bm_slice buf' = bm_slice buf ++ out /\
         V3Codec.parse max (out ++ rest) = Ok (rest, (out, m')) /\ from m' = v3_view random p)
  else exists e, try_from random p = Err e.
Proof.
  intros Hr Hp Hrest. pose proof (try_from_run random p Hr Hp) as H.
  destruct (try_from random p) as [m|e| |]; try done; [|rewrite H; eauto].
  destruct H as [-> Hm]. exists m. split; [done|]. intros Hl. destruct (Hm ltac:(lia)) as [Hwf Hv].
  destruct (wf3_header m Hwf) as (_ & _ & El & _).
  destruct (writes_run buf (writes_encode3 m Hwf)) as (buf' & He & Hb).
  exists buf', (wire3 m), (reread m). split; [done|]. split; [done|].
  split; [|done]. apply parse_wire3; [done| |done]. intros _. lia.
Qed.

(** on arbitrary input the MQTT 3.1.1 parser returns a packet with the bytes
    it consumed, asks for more or rejects; it panics exactly when the packet
    type of the first byte is one of the two reserved values. *)
Theorem v3_parse_total {N : Nom} {NS : NomSpec N} (max : Z) (input : bytes) :
  is_bytes input ->
  match V3Codec.parse max input with
  | Ok (rest, (consumed, _)) => input = consumed ++ rest /\ (2 <= length consumed)%nat
  | Err (NFailure _) | OutOfFuel => False
  | Err _ => True
  | Panic => True
  end /\
  (V3Codec.parse max input = Panic <->
   exists b l, input = b :: l /\ (b / 16 = 0 \/ b / 16 = 15)).
Proof.
  intros Hi.
  pose proof (framed_total_body len3 (check3 max) body3 body3_returns input Hi) as Ht.
  rewrite parse_run. split.
  - destruct (framed_by _ _ _ input) as [[r m]|[]| |]; try done. cbn [mbind outcome_bind].
    destruct Ht as (pre & -> & Hl). by rewrite length_app, Nat.add_sub, take_app_length.
  - split.
    + intros H. destruct (framed_by _ _ _ input) as [[r m]|[]| |]; try done.
    + intros (b & l & -> & Hb). apply Forall_cons in Hi as [Hu _]. unfold framed_by.
      rewrite parse_cons by done. by destruct Hb as [-> | ->].
Qed.

(** the parser can be run on a stream that arrives in pieces: a packet it
    accepts is accepted whatever follows, on every shorter prefix it asks for
    more, and a rejection does not change when more arrives. *)
Theorem v3_parse_incremental {N : Nom} {NS : NomSpec N} (max : Z) (input : bytes) :
  is_bytes input ->
  match V3Codec.parse max input with
  | Ok (rest, (consumed, m)) =>
      input = consumed ++ rest /\
      (forall more, is_bytes more ->
         V3Codec.parse max (consumed ++ more) = Ok (more, (consumed, m))) /\
      (forall j, (j < length consumed)%nat ->
         V3Codec.parse max (take j consumed) = Err NIncomplete)
  | Err NIncomplete => True
  | verdict => forall more, is_bytes more -> V3Codec.parse max (input ++ more) = verdict
  end.
Proof.
  intros Hi. pose proof (framed_streaming len3 (check3 max) body3 input Hi) as Hs.
  rewrite (parse_run max input).
  destruct (framed_by _ _ _ input) as [[r m]|[]| |]; cbn [mbind outcome_bind];
    try done; try (intros more Hm; rewrite parse_run, Hs by done; done).
  destruct Hs as (pre & -> & Hok & Hinc). rewrite length_app, Nat.add_sub, take_app_length.
  split; [done|]. split.
  - intros more Hm. rewrite parse_run, Hok by done. cbn [mbind outcome_bind].
    by rewrite length_app, Nat.add_sub, take_app_length.
  - intros j Hj. rewrite parse_run, Hinc by done. done.
Qed.

(** packets an MQTT 3.1.1 client sends one after the other are read in that
    order, however the network cuts the stream into non-empty chunks, and
    exactly the bytes behind them are left. *)
Theorem v3_read_packets_in_order {N : Nom} {NS : NomSpec N} (max : Z) (ms : list MqttPacketV3)
    (chunks : list bytes) (tail : bytes) :
  Forall nonempty chunks ->
  Forall (fun m => wf3 m /\ zlen (body3_bytes m) <= max) ms -> is_bytes tail ->
  concat chunks = concat (map wire3 ms) ++ tail ->
  exists buffer' chunks',
    read_packets try_parse_v3_packet (length ms) max V3_1_1 chunks []
      = Some (map (fun m => from (reread m)) ms, buffer', chunks') /\
    buffer' ++ concat chunks' = tail.
Proof. intros Hc Hms Ht E. exact (read_v3_packets max ms chunks [] tail Hc Hms Ht E). Qed.

(** the first packet of a connection, a CONNECT of protocol level 4 cut in any
    way, is detected as MQTT 3.1.1 and received whole. *)
Theorem first_v3_connect_received {N : Nom} {NS : NomSpec N} (max : Z) (p : ConnectPacket)
    (chunks : list bytes) (rest : bytes) :
  wf3 (M3Connect p) -> cv_protocol_name (co_variable_header p) = "MQTT"%string ->
  zlen (connect3_bytes p) <= max -> is_bytes rest ->
  Forall nonempty chunks -> concat chunks = wire3 (M3Connect p) ++ rest ->
  exists buffer' chunks',
    read_packet try_parse_v3_packet max None chunks []
      = Received (from (reread (M3Connect p))) V3_1_1 buffer' chunks' /\
    buffer' ++ concat chunks' = rest.
Proof. apply read_first_v3_packet. Qed.

(** the two encoders agree on every packet but SUBSCRIBE and UNSUBSCRIBE; for
    those [to_bytes] writes a header of its own and panics when the remaining
    length needs more than one byte's value range. *)
Theorem v3_encoders_agree {B : BytesCrate} {BS : BytesCrateSpec B} (m : MqttPacketV3) :
  wf3 m ->
  match m with
  | M3Subscribe _ | M3Unsubscribe _ =>
      if fx_remaining_length (header3 m) <=? 255 then
        exists b, V3Codec.to_bytes m = Ok b /\
          bm_slice b = [16 * packet_type_u8 (type3 m) + 2; fx_remaining_length (header3 m)]
                       ++ body3_bytes m
      else V3Codec.to_bytes m = Panic
  | _ =>
      exists b, V3Codec.to_bytes m = Ok b /\ bm_slice b = wire3 m /\
        forall buf, exists buf', V3Codec.encode m buf = (Ok tt, buf') /\
          bm_slice buf' = bm_slice buf ++ bm_slice b
  end.
Proof.
  intros Hm. destruct (wf3_header m Hm) as ((_ & _ & Hl) & _).
  assert (type3 m <> SUBSCRIBE -> type3 m <> UNSUBSCRIBE ->
    exists b, V3Codec.to_bytes m = Ok b /\ bm_slice b = wire3 m /\
      forall buf, exists buf', V3Codec.encode m buf = (Ok tt, buf') /\
        bm_slice buf' = bm_slice buf ++ bm_slice b) as Hagree.
  { intros Hs Hu. destruct (to_bytes_agrees m Hm Hs Hu) as (b & Hb & E). exists b.
    split; [done|]. split; [done|]. intros buf. rewrite E. exact (writes_run buf (writes_encode3 m Hm)). }
  destruct m as [p|p|p|p|p|p|p|p|p|p|p|h|h|h]; try (apply Hagree; done).
  - destruct Hm as (_ & _ & _ & _ & _ & Hf).
    exact (own_header_run 130 _ _ _ _ _ (proj1 Hl) (writes_put_u16 _) (writes_subscribe_payload _ Hf)).
  - destruct Hm as (_ & _ & _ & _ & _ & Hf).
    exact (own_header_run 162 _ _ _ _ _ (proj1 Hl) (writes_put_u16 _) (writes_unsubscribe_payload _ Hf)).
Qed.

(** *** Witnesses *)

(** A PUBLISH of an MQTT 5 client at QoS 1, with properties. *)
Definition v5_message : Packet :=
  PPublish (mkPublish V5_0 "a/b" [104; 105] 1 true false (Some 9)
    (set_payload_format_indicator (Some 1) default_properties) None).

Lemma v3_delivery_witness :
  exists m, try_from (B := list_bytes_crate) 7 v5_message = Ok m /\
    (fx_remaining_length (header3 m) <= Z.min 1024 MAX_VARIABLE_BYTE_INTEGER ->
     exists (buf' : bytes) out m',
       V3Codec.encode m ([] : bytes) = (Ok tt, buf') /\ buf' = out /\
       V3Codec.parse 1024 (out ++ [0xc0]) = Ok ([0xc0], (out, m')) /\
       from m' = v3_view 7 v5_message).
Proof.
  apply (v3_delivery (N := list_nom) (B := list_bytes_crate) 7 1024 v5_message [] [0xc0]).
  - unfold is_u16. lia.
  - unfold v5_message, wf_neutral, short_str, is_u8, is_u16, is_bytes.
    cbn [pb_topic_name pb_payload pb_qos pb_packet_identifier].
    split_and!; try done; try lia. repeat constructor; unfold is_u8; lia.
  - repeat constructor; unfold is_u8; lia.
Defined.

Lemma v3_parse_total_witness :
  V3Codec.parse (N := list_nom) 1024 [0x00; 0x00] = Panic /\
  V3Codec.parse (N := list_nom) 1024 [0xf0] = Panic.
Proof.
  split; [apply (v3_parse_total 1024 [0x00; 0x00])|apply (v3_parse_total 1024 [0xf0])];
    try (repeat constructor; unfold is_u8; lia).
  - exists 0x00, [0x00]. split; [reflexivity|]. left. reflexivity.
  - exists 0xf0, []. split; [reflexivity|]. right. reflexivity.
Defined.

Definition sample_puback : MqttPacketV3 := M3Puback (puback_new 10).

Lemma sample_puback_wf : wf3 sample_puback.
Proof. split; [done|]. apply wf_ack_new; [done|]. unfold is_u16. lia. Defined.

Lemma v3_parse_incremental_witness :
  [0x40; 2; 0; 10; 0xc0] = [0x40; 2; 0; 10] ++ [0xc0] /\
  (forall more, is_bytes more ->
     V3Codec.parse (N := list_nom) 1024 ([0x40; 2; 0; 10] ++ more)
     = Ok (more, ([0x40; 2; 0; 10], reread sample_puback))) /\
  (forall j, (j < 4)%nat ->
     V3Codec.parse (N := list_nom) 1024 (take j [0x40; 2; 0; 10]) = Err NIncomplete).
Proof.
  apply (v3_parse_incremental (N := list_nom) 1024 [0x40; 2; 0; 10; 0xc0]).
  repeat constructor; unfold is_u8; lia.
Defined.

Lemma v3_read_packets_in_order_witness :
  exists buffer' chunks',
    read_packets (try_parse_v3_packet (N := list_nom)) 2 1024 V3_1_1
      [[0x40]; [2; 0]; [10; 0x40; 2]; [0; 10; 0xc0]] []
    = Some ([PPuback (v3_ack 10); PPuback (v3_ack 10)], buffer', chunks') /\
    buffer' ++ concat chunks' = [0xc0].
Proof.
  apply (v3_read_packets_in_order (N := list_nom) 1024 [sample_puback; sample_puback]
    [[0x40]; [2; 0]; [10; 0x40; 2]; [0; 10; 0xc0]] [0xc0]).
  - repeat constructor; discriminate.
  - repeat apply Forall_cons_2; try (split; [apply sample_puback_wf|vm_compute; discriminate]).
    apply Forall_nil_2.
  - repeat constructor; unfold is_u8; lia.
  - vm_compute. reflexivity.
Defined.

Definition sample_v3_connect : ConnectPacket :=
  connect_build (builder_username "user" (builder_clean_session true (connect_builder_new "client"))).

Lemma sample_v3_connect_wf : wf3 (M3Connect sample_v3_connect).
Proof.
  split; [done|]. unfold wf_connect3, wf_connect_variable, wf_connect_payload, short_str, opt_short,
    wf_fix_header, ack_flags_ok, is_u16, is_str. split_and!; vm_compute; done.
Defined.

Lemma first_v3_connect_received_witness :
  exists buffer' chunks',
    read_packet (try_parse_v3_packet (N := list_nom)) 1024 None
      [take 3 (wire3 (M3Connect sample_v3_connect));
       drop 3 (wire3 (M3Connect sample_v3_connect)) ++ [0xc0]] []
    = Received (from (reread (M3Connect sample_v3_connect))) V3_1_1 buffer' chunks' /\
    buffer' ++ concat chunks' = [0xc0].
Proof.
  apply (first_v3_connect_received (N := list_nom) 1024 sample_v3_connect).
  - apply sample_v3_connect_wf.
  - reflexivity.
  - vm_compute. discriminate.
  - repeat constructor; unfold is_u8; lia.
  - repeat constructor; discriminate.
  - vm_compute. reflexivity.
Defined.

Definition long_subscribe : MqttPacketV3 :=
  M3Subscribe (subscribe_build (mkSubscribePacketBuilder
    (replicate 64 (mkSubscribeTopicFilter "a" 0)) 10)).

Lemma v3_encoders_agree_witness :
  V3Codec.to_bytes (B := list_bytes_crate) long_subscribe = Panic.
Proof.
  apply (v3_encoders_agree (B := list_bytes_crate) long_subscribe).
  split; [done|]. split; [|split; [|split; [|split]]].
  - split; [done|]. split; [done|]. vm_compute. split; discriminate.
  - by intros.
  - vm_compute. reflexivity.
  - unfold is_u16. cbn. lia.
  - apply Forall_replicate. split; [split; [done|vm_compute; discriminate]|].
    unfold is_u8. cbn. lia.
Defined.
