(* ===== verification/MqttProperties.v ===== *)
(** * Properties for plugins ([broker/src/mqtt_properties.rs])

    A plugin gets the MQTT 5 properties of a packet as a protobuf [Struct], a map from
    names to values.  A [u32] is exact as an [f64], so a number is an integer here.
    The theorem: nothing of the properties is lost on the way. *)

From S2P Require Import Prelude Utf8 Packet TopicFilter TopicStorage TopicRouting.

(** [prost_types::Value] with its [Kind]; a [Struct] is its map of fields. *)
Inductive Value :=
  | NumberValue (value : Z)
  | StringValue (value : string)
  | BoolValue (value : bool)
  | ListValue (values : list Value)
  | StructValue (fields : gmap string Value).
Abbreviation Struct := (gmap string Value).

Section MqttProperties.
Context `{Base64}.
Implicit Types (fields : Struct) (key : string).

Definition number_value (value : Z) : Value := NumberValue value.
Definition string_value (value : string) : Value := StringValue value.
Definition bool_value (value : bool) : Value := BoolValue value.

Definition insert_number fields key (value : option Z) : Struct :=
  match value with Some value => <[key := number_value value]> fields | None => fields end.
Definition insert_string fields key (value : option string) : Struct :=
  match value with Some value => <[key := string_value value]> fields | None => fields end.
Definition insert_bool fields key (value : option bool) : Struct :=
  match value with Some value => <[key := bool_value value]> fields | None => fields end.
Definition insert_bytes_base64 fields key (value : option bytes) : Struct :=
  match value with
  | Some value => <[key := string_value (b64_encode (string_of_bytes value))]> fields
  | None => fields
  end.

Definition number_list_value (values : list Z) : Value := ListValue (map number_value values).
Definition user_properties_value (values : list (string * string)) : Value :=
  ListValue (map (fun '(key, value) =>
    StructValue (<["value" := string_value value]> (<["key" := string_value key]> ∅)))%string values).

(** [if !l.is_empty() { .. }]. *)
Definition unless_empty {A B} (l : list A) (x y : B) : B := match l with [] => y | _ => x end.

Definition properties_to_struct (p : Properties) : option Struct :=
  if decide (p = default_properties) then None
  else
    let fields := ∅ in
    let fields := insert_number fields "payload_format_indicator" (payload_format_indicator p) in
    let fields := insert_number fields "message_expiry_interval" (message_expiry_interval p) in
    let fields := insert_string fields "content_type" (content_type p) in
    let fields := insert_string fields "response_topic" (response_topic p) in
    let fields := insert_bytes_base64 fields "correlation_data_base64" (correlation_data p) in
    let fields :=
      unless_empty (subscription_identifiers p)
        (<["subscription_identifiers" := number_list_value (subscription_identifiers p)]> fields) fields in
    let fields := insert_number fields "session_expiry_interval" (session_expiry_interval p) in
    let fields := insert_string fields "assigned_client_identifier" (assigned_client_identifier p) in
    let fields := insert_number fields "server_keep_alive" (server_keep_alive p) in
    let fields := insert_string fields "authentication_method" (authentication_method p) in
    let fields := insert_bytes_base64 fields "authentication_data_base64" (authentication_data p) in
    let fields := insert_bool fields "request_problem_information" (request_problem_information p) in
    let fields := insert_number fields "will_delay_interval" (will_delay_interval p) in
    let fields := insert_bool fields "request_response_information" (request_response_information p) in
    let fields := insert_string fields "response_information" (response_information p) in
    let fields := insert_string fields "server_reference" (server_reference p) in
    let fields := insert_string fields "reason_string" (reason_string p) in
    let fields := insert_number fields "receive_maximum" (receive_maximum p) in
    let fields := insert_number fields "topic_alias_maximum" (topic_alias_maximum p) in
    let fields := insert_number fields "topic_alias" (topic_alias p) in
    let fields := insert_number fields "maximum_qos" (maximum_qos p) in
    let fields := insert_bool fields "retain_available" (retain_available p) in
    let fields :=
      unless_empty (user_properties p)
        (<["user_properties" := user_properties_value (user_properties p)]> fields) fields in
    let fields := insert_number fields "maximum_packet_size" (maximum_packet_size p) in
    let fields := insert_bool fields "wildcard_subscription_available" (wildcard_subscription_available p) in
    let fields := insert_bool fields "subscription_identifier_available" (subscription_identifier_available p) in
    let fields := insert_bool fields "shared_subscription_available" (shared_subscription_available p) in
    Some fields.

Definition retain_handling_name (r : RetainHandling) : string :=
  match r with
  | SendAtSubscribe => "send_at_subscribe"
  | SendAtSubscribeIfNew => "send_at_subscribe_if_new"
  | DoNotSend => "do_not_send"
  end.

Definition subscribe_context (topic : SubscribeTopic) (properties : Properties) : Struct :=
  let fields := <["no_local" := bool_value (st_no_local topic)]> ∅ in
  let fields := <["retain_as_published" := bool_value (st_retain_as_published topic)]> fields in
  let fields := <["retain_handling" := string_value (retain_handling_name (st_retain_handling topic))]> fields in
  let fields :=
    match parse_shared_subscription_filter (st_topic_filter topic) with
    | Ok (Some shared) =>
        <["topic_filter" := string_value (sf_topic_filter shared)]>
          (<["share_name" := string_value (share_name shared)]>
             (<["shared_subscription" := bool_value true]> fields))
    | _ => fields
    end in
  match properties_to_struct properties with
  | Some properties => <["properties" := StructValue properties]> fields
  | None => fields
  end.

(** ** Reading back *)

(** The fields as a list: a name and, where the property is set, its value. *)
Definition entries (p : Properties) : list (string * option Value) :=
  let number := fmap (M := option) number_value in
  let str := fmap (M := option) string_value in
  let flag := fmap (M := option) bool_value in
  let data := fmap (M := option) (fun b => string_value (b64_encode (string_of_bytes b))) in
  [ ("payload_format_indicator", number (payload_format_indicator p));
    ("message_expiry_interval", number (message_expiry_interval p));
    ("content_type", str (content_type p));
    ("response_topic", str (response_topic p));
    ("correlation_data_base64", data (correlation_data p));
    ("subscription_identifiers",
      unless_empty (subscription_identifiers p) (Some (number_list_value (subscription_identifiers p))) None);
    ("session_expiry_interval", number (session_expiry_interval p));
    ("assigned_client_identifier", str (assigned_client_identifier p));
    ("server_keep_alive", number (server_keep_alive p));
    ("authentication_method", str (authentication_method p));
    ("authentication_data_base64", data (authentication_data p));
    ("request_problem_information", flag (request_problem_information p));
    ("will_delay_interval", number (will_delay_interval p));
    ("request_response_information", flag (request_response_information p));
    ("response_information", str (response_information p));
    ("server_reference", str (server_reference p));
    ("reason_string", str (reason_string p));
    ("receive_maximum", number (receive_maximum p));
    ("topic_alias_maximum", number (topic_alias_maximum p));
    ("topic_alias", number (topic_alias p));
    ("maximum_qos", number (maximum_qos p));
    ("retain_available", flag (retain_available p));
    ("user_properties",
      unless_empty (user_properties p) (Some (user_properties_value (user_properties p))) None);
    ("maximum_packet_size", number (maximum_packet_size p));
    ("wildcard_subscription_available", flag (wildcard_subscription_available p));
    ("subscription_identifier_available", flag (subscription_identifier_available p));
    ("shared_subscription_available", flag (shared_subscription_available p)) ]%string.

Definition insert_entry (fields : Struct) (e : string * option Value) : Struct :=
  match e.2 with Some v => <[e.1 := v]> fields | None => fields end.

Lemma insert_number_entry f f' k v : f = f' -> insert_number f k v = insert_entry f' (k, number_value <$> v).
Proof. intros ->. by destruct v. Qed.
Lemma insert_string_entry f f' k v : f = f' -> insert_string f k v = insert_entry f' (k, string_value <$> v).
Proof. intros ->. by destruct v. Qed.
Lemma insert_bool_entry f f' k v : f = f' -> insert_bool f k v = insert_entry f' (k, bool_value <$> v).
Proof. intros ->. by destruct v. Qed.
Lemma insert_bytes_entry f f' k v : f = f' ->
  insert_bytes_base64 f k v = insert_entry f' (k, (fun b => string_value (b64_encode (string_of_bytes b))) <$> v).
Proof. intros ->. by destruct v. Qed.
Lemma insert_list_entry {A} (l : list A) f f' k v : f = f' ->
  unless_empty l (<[k := v]> f) f = insert_entry f' (k, unless_empty l (Some v) None).
Proof. intros ->. by destruct l. Qed.

Lemma struct_entries p :
  p <> default_properties -> properties_to_struct p = Some (foldl insert_entry ∅ (entries p)).
Proof.
  intros Hp. unfold properties_to_struct. rewrite decide_False by done. f_equal. cbv zeta.
  unfold entries. cbv zeta. cbn [foldl].
  repeat first [ apply insert_number_entry | apply insert_string_entry | apply insert_bool_entry
               | apply insert_bytes_entry | apply insert_list_entry ].
  done.
Qed.

Lemma foldl_entry_other l fields k : k ∉ l.*1 -> foldl insert_entry fields l !! k = fields !! k.
Proof.
  revert fields. induction l as [|[k' v] l IH]; intros fields Hk; [done|]. apply not_elem_of_cons in Hk as [Hne Hk].
  cbn [foldl]. rewrite IH by done. unfold insert_entry. destruct v; cbn [fst snd]; [by rewrite lookup_insert_ne|done].
Qed.

Lemma foldl_entry l fields k v :
  NoDup l.*1 -> (forall k, k ∈ l.*1 -> fields !! k = None) -> (k, v) ∈ l -> foldl insert_entry fields l !! k = v.
Proof.
  revert fields. induction l as [|[k' v'] l IH]; intros fields Hnd Hnew Hin; [by apply elem_of_nil in Hin|].
  cbn [fmap list_fmap fst] in Hnd. apply NoDup_cons in Hnd as [Hk' Hnd]. cbn [foldl].
  apply elem_of_cons in Hin as [[= -> ->]|Hin].
  - rewrite foldl_entry_other by done. unfold insert_entry. destruct v'; cbn [fst snd]; [by simplify_map_eq|].
    apply Hnew. left.
  - apply IH; [done| |done]. intros k2 Hk2. unfold insert_entry. destruct v'; cbn [fst snd].
    + rewrite lookup_insert_ne by (intros <-; done). apply Hnew. by right.
    + apply Hnew. by right.
Qed.

Definition names : list string := (entries default_properties).*1.
Lemma entries_names p : (entries p).*1 = names.
Proof. done. Qed.
Lemma names_distinct : NoDup names.
Proof. by apply (bool_decide_unpack _). Qed.

Lemma struct_lookup p k v :
  p <> default_properties -> (k, v) ∈ entries p ->
  (properties_to_struct p ≫= fun fields => fields !! k) = v.
Proof.
  intros Hp Hin. rewrite struct_entries by done. cbn [mbind option_bind].
  apply foldl_entry; [rewrite entries_names; apply names_distinct|intros; apply lookup_empty|done].
Qed.

Lemma struct_entries_inj p q :
  p <> default_properties -> properties_to_struct p = properties_to_struct q -> entries p = entries q.
Proof.
  intros Hp Heq.
  assert (q <> default_properties) as Hq.
  { intros ->. rewrite struct_entries in Heq by done. unfold properties_to_struct in Heq.
    by rewrite decide_True in Heq. }
  apply list_eq. intros i.
  destruct (entries p !! i) as [[k v]|] eqn:Hi.
  - assert ((entries p).*1 !! i = Some k) as Hk by (by rewrite list_lookup_fmap, Hi).
    rewrite entries_names, <-(entries_names q), list_lookup_fmap in Hk.
    destruct (entries q !! i) as [[k' v']|] eqn:Hj; [|done]. injection Hk as ->. do 2 f_equal.
    rewrite <-(struct_lookup p k v Hp (list_elem_of_lookup_2 _ _ _ Hi)), Heq.
    by apply struct_lookup, (list_elem_of_lookup_2 _ _ _ Hj).
  - symmetry. apply lookup_ge_None. apply lookup_ge_None in Hi. done.
Qed.

Context `{!Base64Spec _}.

Definition data_is_bytes (o : option bytes) : Prop := from_option is_bytes True o.

Lemma data_inj (b c : option bytes) :
  data_is_bytes b -> data_is_bytes c ->
  (fun b => string_value (b64_encode (string_of_bytes b))) <$> b
  = (fun b => string_value (b64_encode (string_of_bytes b))) <$> c -> b = c.
Proof.
  destruct b as [b|], c as [c|]; simpl; [|done..]. intros Hb Hc [= Heq]. f_equal.
  rewrite <-(as_bytes_of_bytes b), <-(as_bytes_of_bytes c) by done.
  apply (f_equal b64_decode) in Heq. rewrite !b64_roundtrip in Heq. by injection Heq as ->.
Qed.
Lemma numbers_inj l l' :
  unless_empty l (Some (number_list_value l)) None = unless_empty l' (Some (number_list_value l')) None -> l = l'.
Proof.
  assert (Inj (=) (=) number_value) by (by intros x y [= ->]).
  destruct l as [|x l], l' as [|y l']; try done. intros [= -> Hl]. f_equal. by apply (inj (map number_value)).
Qed.
#[local] Instance StructValue_inj : Inj (=) (=) StructValue.
Proof. by intros ? ? [= ->]. Qed.
#[local] Instance ListValue_inj : Inj (=) (=) ListValue.
Proof. by intros ? ? [= ->]. Qed.
Lemma user_property_inj :
  Inj (=) (=) (fun '(key, value) => StructValue (<["value" := string_value value]> (<["key" := string_value key]> ∅)))%string.
Proof.
  intros [k v] [k' v'] Heq. apply (inj StructValue) in Heq as Hf.
  pose proof (f_equal (lookup "value"%string) Hf) as H1. pose proof (f_equal (lookup "key"%string) Hf) as H2.
  rewrite !lookup_insert_eq in H1. injection H1 as ->.
  rewrite !(lookup_insert_ne _ "value"%string "key"%string) in H2 by done. rewrite !lookup_insert_eq in H2.
  by injection H2 as ->.
Qed.
Lemma user_properties_inj l l' :
  unless_empty l (Some (user_properties_value l)) None = unless_empty l' (Some (user_properties_value l')) None -> l = l'.
Proof.
  pose proof user_property_inj. unfold user_properties_value.
  destruct l as [|x l], l' as [|y l']; try done. cbn [unless_empty]. intros Heq.
  apply (inj Some), (inj ListValue) in Heq. by apply (inj (map _)) in Heq.
Qed.

Lemma entries_inj p q :
  data_is_bytes (correlation_data p) -> data_is_bytes (correlation_data q) ->
  data_is_bytes (authentication_data p) -> data_is_bytes (authentication_data q) ->
  entries p = entries q -> p = q.
Proof.
  assert (Inj (=) (=) number_value) by (by intros x y [= ->]).
  assert (Inj (=) (=) string_value) by (by intros x y [= ->]).
  assert (Inj (=) (=) bool_value) by (by intros x y [= ->]).
  intros Hc Hc' Ha Ha' Heq. destruct p, q. unfold entries in Heq. cbv zeta in Heq.
  cbn [Packet.payload_format_indicator Packet.correlation_data Packet.authentication_data] in *.
  injection Heq. intros. clear Heq.
  f_equal; first [ apply (inj (fmap (M := option) number_value)); assumption
                 | apply (inj (fmap (M := option) string_value)); assumption
                 | apply (inj (fmap (M := option) bool_value)); assumption
                 | apply data_inj; assumption | apply numbers_inj; assumption | apply user_properties_inj; assumption ].
Qed.

(** a plugin sees every property of a packet: two packets whose properties differ
    are given to it as different structures. *)
Theorem plugins_see_properties p q :
  data_is_bytes (correlation_data p) -> data_is_bytes (correlation_data q) ->
  data_is_bytes (authentication_data p) -> data_is_bytes (authentication_data q) ->
  properties_to_struct p = properties_to_struct q -> p = q.
Proof.
  intros ? ? ? ? Heq. destruct (decide (p = default_properties)) as [Hp|Hp].
  - destruct (decide (q = default_properties)) as [Hq|Hq]; [by rewrite Hp, Hq|].
    by apply entries_inj, eq_sym, struct_entries_inj.
  - by apply entries_inj, struct_entries_inj.
Qed.
End MqttProperties.

Lemma plugins_see_properties_witness :
  properties_to_struct (set_content_type (Some "text"%string) default_properties)
  = properties_to_struct (set_content_type (Some "text"%string) default_properties) /\
  set_content_type (Some "text"%string) default_properties = set_content_type (Some "text"%string) default_properties.
Proof. split; [reflexivity|]. apply (plugins_see_properties (H := nibbles)); reflexivity || exact I. Defined.
