(* ===== verification/Program.v ===== *)
(** * Programs that wait

    The actors of the program are asynchronous: between two awaited calls other tasks
    run, calls may fail, and a node may stop.  An asynchronous function is a program,
    a value of [prog]: it returns, or it performs one operation [o] of the outside
    world and goes on with the answer, of type [R o].  The actors choose their own
    operations; what runs programs, alone or interleaved, is defined with them. *)

From S2P Require Import Prelude.

Inductive prog (O : Type) (R : O -> Type) (A : Type) :=
  | Ret (a : A)
  | Do (o : O) (k : R o -> prog O R A).
Arguments Ret {O R A}.
Arguments Do {O R A}.

#[export] Instance prog_ret O R : MRet (prog O R) := fun A a => Ret a.
#[export] Instance prog_bind O R : MBind (prog O R) := fun A B f =>
  fix go p := match p with Ret a => f a | Do o k => Do o (fun r => go (k r)) end.

Section Programs.
Context {O : Type} {R : O -> Type}.

(** One operation. *)
Definition invoke (o : O) : prog O R (R o) := Do o Ret.

(** [p?]: an error is the result of the whole function. *)
Definition attempt {E A B} (p : prog O R (outcome E A)) (f : A -> prog O R (outcome E B))
    : prog O R (outcome E B) :=
  p ≫= fun r => match r with Ok a => f a | Err e => Ret (Err e) | Panic => Ret Panic | OutOfFuel => Ret OutOfFuel end.

Definition fails_with {E F A} (f : E -> F) (p : prog O R (outcome E A)) : prog O R (outcome F A) :=
  r ← p; Ret (map_err f r).

(** [for a in l { f(a).await?; }]. *)
Fixpoint try_each {E A} (f : A -> prog O R (outcome E unit)) (l : list A) : prog O R (outcome E unit) :=
  match l with
  | [] => Ret (Ok tt)
  | a :: l => attempt (f a) (fun _ => try_each f l)
  end.

(** [for a in l { let _ = f(a).await; }]. *)
Fixpoint each {A B} (f : A -> prog O R B) (l : list A) : prog O R unit :=
  match l with
  | [] => Ret tt
  | a :: l => _ ← f a; each f l
  end.
End Programs.

Declare Scope prog_scope.
Delimit Scope prog_scope with prog.
Notation "x <-? p ; q" := (attempt p (fun x => q)) (at level 20, p at level 100, q at level 200) : prog_scope.
