(* ===== verification/Traces.v ===== *)
(** * What a program may do

    [runs p tr a]: the program [p] can return [a] after the calls [tr], each with its
    answer, whatever the answers are; [reaches p tr o]: after the calls [tr] its next
    operation is [o].  Which answers an operation can have is given by an instance of
    [Allowed] per set of operations. *)

From S2P Require Import Prelude Program.

(** A call and its answer. *)
Record Call (O : Type) (R : O -> Type) := mkCall { c_op : O; c_answer : R c_op }.
Arguments mkCall {O R}.
Arguments c_op {O R}.
Arguments c_answer {O R}.

Class Allowed (O : Type) (R : O -> Type) := allowed : forall o : O, R o -> Prop.

Section Runs.
Context {O : Type} {R : O -> Type} `{Allowed O R}.
Implicit Types (tr : list (Call O R)).

Fixpoint runs {A} (p : prog O R A) tr (a : A) : Prop :=
  match p with
  | Ret b => tr = [] /\ a = b
  | Do o k => exists x tr', allowed o x /\ tr = mkCall o x :: tr' /\ runs (k x) tr' a
  end.

Lemma runs_ret_inv {A} (a b : A) tr : runs (Ret a) tr b -> tr = [] /\ b = a.
Proof. done. Qed.
Lemma runs_do_inv {A} (o : O) (k : R o -> prog O R A) tr b :
  runs (Do o k) tr b -> exists x tr', allowed o x /\ tr = mkCall o x :: tr' /\ runs (k x) tr' b.
Proof. done. Qed.

Lemma runs_bind_inv {A B} (p : prog O R A) (f : A -> prog O R B) tr b :
  runs (p ≫= f) tr b -> exists tr1 a tr2, runs p tr1 a /\ runs (f a) tr2 b /\ tr = tr1 ++ tr2.
Proof.
  revert tr. induction p as [a|o k IH]; intros tr Hr.
  - by exists [], a, tr.
  - apply runs_do_inv in Hr as (x & tr' & Hx & -> & Hr). destruct (IH x tr' Hr) as (tr1 & a & tr2 & H1' & H2' & ->).
    exists (mkCall o x :: tr1), a, tr2. split_and!; [|done..]. by exists x, tr1.
Qed.
Lemma runs_invoke_inv o tr x : runs (invoke o) tr x -> allowed o x /\ tr = [mkCall o x].
Proof. intros (y & tr' & Hy & -> & Hr)%runs_do_inv. by apply runs_ret_inv in Hr as [-> ->]. Qed.
Lemma runs_attempt_inv {E A B} (p : prog O R (outcome E A)) (f : A -> prog O R (outcome E B)) tr r :
  runs (attempt p f) tr r ->
  (exists tr1 a tr2, runs p tr1 (Ok a) /\ runs (f a) tr2 r /\ tr = tr1 ++ tr2) \/
  (runs p tr (match r with Ok _ => Panic | Err e => Err e | Panic => Panic | OutOfFuel => OutOfFuel end) /\
   forall b, r <> Ok b).
Proof.
  intros (tr1 & a & tr2 & Hp & Hf & ->)%runs_bind_inv. destruct a as [a|e| |]; [left; eauto 10|right..];
    apply runs_ret_inv in Hf as [-> ->]; rewrite app_nil_r; done.
Qed.
Lemma runs_attempt_ok {E A B} (p : prog O R (outcome E A)) (f : A -> prog O R (outcome E B)) tr b :
  runs (attempt p f) tr (Ok b) -> exists tr1 a tr2, runs p tr1 (Ok a) /\ runs (f a) tr2 (Ok b) /\ tr = tr1 ++ tr2.
Proof. intros [?|[_ Hr]]%runs_attempt_inv; [done|]. by destruct (Hr b). Qed.
Lemma runs_fails_ok {E F A} (g : E -> F) (p : prog O R (outcome E A)) tr a :
  runs (fails_with g p) tr (Ok a) -> runs p tr (Ok a).
Proof.
  intros (tr1 & x & tr2 & Hp & Hf & ->)%runs_bind_inv. apply runs_ret_inv in Hf as [-> Hx]. rewrite app_nil_r.
  by destruct x; simplify_eq/=.
Qed.

(** A run, part by part. *)
Lemma runs_bind {A B} (p : prog O R A) (f : A -> prog O R B) tr1 a tr2 b :
  runs p tr1 a -> runs (f a) tr2 b -> runs (p ≫= f) (tr1 ++ tr2) b.
Proof.
  revert tr1. induction p as [a'|o k IH]; intros tr1 Hp Hf.
  - by apply runs_ret_inv in Hp as [-> ->].
  - apply runs_do_inv in Hp as (x & tr' & Hx & -> & Hp). exists x, (tr' ++ tr2). split_and!; [done..|]. by apply IH.
Qed.
Lemma runs_attempt {E A B} (p : prog O R (outcome E A)) (f : A -> prog O R (outcome E B)) tr1 a tr2 r :
  runs p tr1 (Ok a) -> runs (f a) tr2 r -> runs (attempt p f) (tr1 ++ tr2) r.
Proof. intros Hp Hf. by eapply runs_bind. Qed.

(** A run, call by call. *)
Lemma runs_next {A} (o : O) (k : R o -> prog O R A) (x : R o) tr (a : A) :
  allowed o x -> runs (k x) tr a -> runs (Do o k) (mkCall o x :: tr) a.
Proof. intros Hx Hr. by exists x, tr. Qed.
Lemma runs_end {A} (a : A) : runs (Ret a) [] a.
Proof. done. Qed.
End Runs.

Section Reaches.
Context {O : Type} {R : O -> Type} `{Allowed O R}.
Implicit Types (tr : list (Call O R)).

Fixpoint reaches {A} (p : prog O R A) tr (o' : O) : Prop :=
  match p with
  | Ret _ => False
  | Do o k => (tr = [] /\ o' = o) \/ exists x tr', allowed o x /\ tr = mkCall o x :: tr' /\ reaches (k x) tr' o'
  end.

Lemma reaches_bind {A B} (p : prog O R A) (f : A -> prog O R B) tr o :
  reaches (p ≫= f) tr o ->
  reaches p tr o \/ exists tr1 a tr2, runs p tr1 a /\ reaches (f a) tr2 o /\ tr = tr1 ++ tr2.
Proof.
  revert tr. induction p as [a|o' k IH]; intros tr Hr.
  - right. by exists [], a, tr.
  - destruct Hr as [?|(x & tr' & Hx & -> & Hr)]; [by left; left|].
    destruct (IH x tr' Hr) as [?|(tr1 & a & tr2 & ? & ? & ->)]; [left; right; by exists x, tr'|].
    right. exists (mkCall o' x :: tr1), a, tr2. split_and!; [|done..]. by exists x, tr1.
Qed.
Lemma reaches_invoke o tr o' : reaches (invoke o) tr o' -> tr = [] /\ o' = o.
Proof. intros [?|(x & tr' & _ & _ & [])]; done. Qed.
Lemma reaches_attempt {E A B} (p : prog O R (outcome E A)) (f : A -> prog O R (outcome E B)) tr o :
  reaches (attempt p f) tr o ->
  reaches p tr o \/ exists tr1 a tr2, runs p tr1 (Ok a) /\ reaches (f a) tr2 o /\ tr = tr1 ++ tr2.
Proof.
  intros [?|(tr1 & [a|e| |] & tr2 & Hp & Hf & ->)]%reaches_bind; [by left| |done..]. right. eauto 10.
Qed.
Lemma reaches_fails {E F A} (g : E -> F) (p : prog O R (outcome E A)) tr o :
  reaches (fails_with g p) tr o -> reaches p tr o.
Proof. by intros [?|(? & ? & ? & ? & [] & ?)]%reaches_bind. Qed.
Lemma reaches_here {A} (o : O) (k : R o -> prog O R A) : reaches (Do o k) [] o.
Proof. by left. Qed.
Lemma reaches_next {A} (o : O) (k : R o -> prog O R A) (o' : O) (x : R o) tr :
  allowed o x -> reaches (k x) tr o' -> reaches (Do o k) (mkCall o x :: tr) o'.
Proof. intros Hx Hr. right. by exists x, tr. Qed.
End Reaches.

(** Every call of the program is one of [P], whatever the answers. *)
Section Only.
Context {O : Type} {R : O -> Type} (P : O -> Prop).

Fixpoint only {A} (p : prog O R A) : Prop :=
  match p with
  | Ret _ => True
  | Do o k => P o /\ forall x, only (k x)
  end.

Lemma only_bind {A B} (p : prog O R A) (f : A -> prog O R B) : only p -> (forall a, only (f a)) -> only (p ≫= f).
Proof. intros Hp Hf. induction p as [a|o k IH]; [apply Hf|]. destruct Hp as [Ho Hk]. split; [done|]. eauto. Qed.
Lemma only_attempt {E A B} (p : prog O R (outcome E A)) (f : A -> prog O R (outcome E B)) :
  only p -> (forall a, only (f a)) -> only (attempt p f).
Proof. intros Hp Hf. apply only_bind; [done|]. by intros [a| | |]. Qed.
Lemma only_runs `{Allowed O R} {A} (p : prog O R A) tr a : only p -> runs p tr a -> Forall (fun c => P (c_op c)) tr.
Proof.
  revert tr. induction p as [b|o k IH]; intros tr Hp Hr.
  - by apply runs_ret_inv in Hr as [-> _].
  - apply runs_do_inv in Hr as (x & tr' & _ & -> & Hr). destruct Hp as [Ho Hk]. constructor; [done|]. by eapply IH.
Qed.
Lemma only_reaches `{Allowed O R} {A} (p : prog O R A) tr o : only p -> reaches p tr o -> P o.
Proof.
  revert tr. induction p as [b|o' k IH]; intros tr Hp Hr; [done|]. destruct Hp as [Ho Hk].
  destruct Hr as [[_ ->]|(x & tr' & _ & _ & Hr)]; [done|]. by eapply IH.
Qed.
End Only.

(** Runs over a state: [does o s r s'] says that [o] can be answered with [r] and take the
    state from [s] to [s']. *)
Section Ends.
Context {O : Type} {R : O -> Type} {S : Type} (does : forall o : O, S -> R o -> S -> Prop).

Fixpoint ends {A} (p : prog O R A) (s : S) (a : A) (s' : S) : Prop :=
  match p with
  | Ret b => a = b /\ s' = s
  | Do o k => exists r s1, does o s r s1 /\ ends (k r) s1 a s'
  end.

Lemma ends_bind {A B} (p : prog O R A) (f : A -> prog O R B) s b s' :
  ends (p ≫= f) s b s' -> exists a s1, ends p s a s1 /\ ends (f a) s1 b s'.
Proof.
  revert s. induction p as [a|o k IH]; intros s; [by exists a, s|]. intros (r & s1 & Hd & He).
  destruct (IH r s1 He) as (a & s2 & H1 & H2). exists a, s2. split; [|done]. by exists r, s1.
Qed.
Lemma ends_then {A B} (p : prog O R A) (f : A -> prog O R B) s a s1 b s' :
  ends p s a s1 -> ends (f a) s1 b s' -> ends (p ≫= f) s b s'.
Proof.
  revert s. induction p as [x|o k IH]; intros s; [by intros [-> ->]|]. intros (r & s2 & Hd & He) Hf. exists r, s2. split; [done|].
  by apply IH.
Qed.
Lemma ends_attempt {E A B} (p : prog O R (outcome E A)) (f : A -> prog O R (outcome E B)) s b s' :
  ends (attempt p f) s (Ok b) s' -> exists a s1, ends p s (Ok a) s1 /\ ends (f a) s1 (Ok b) s'.
Proof. intros ([a|e| |] & s1 & Hp & Hf)%ends_bind; [by exists a, s1|by destruct Hf..]. Qed.
Lemma ends_fails {E F A} (g : E -> F) (p : prog O R (outcome E A)) s a s' :
  ends (fails_with g p) s (Ok a) s' -> ends p s (Ok a) s'.
Proof. intros ([x|e| |] & s1 & Hp & Hf)%ends_bind; destruct Hf as [Hf ->]; by simplify_eq/=. Qed.
Lemma ends_invoke o s r s' : ends (invoke o) s r s' -> does o s r s'.
Proof. by intros (x & s1 & Hd & -> & ->). Qed.

(** What every operation keeps, the program keeps. *)
Lemma ends_inv {A} (I : S -> Prop) (J : S -> S -> Prop) (P : O -> Prop) (p : prog O R A) s a s' :
  PreOrder J -> (forall o s r s', P o -> I s -> does o s r s' -> I s' /\ J s s') ->
  only P p -> I s -> ends p s a s' -> I s' /\ J s s'.
Proof.
  intros HJ Hop. revert s. induction p as [b|o k IH]; intros s Ho Hi He.
  - by destruct He as [_ ->].
  - destruct He as (r & s1 & Hd & He), Ho as [Ho Hk]. destruct (Hop _ _ _ _ Ho Hi Hd) as [H1 H2].
    destruct (IH r s1 (Hk r) H1 He). split; [done|]. by trans s1.
Qed.
End Ends.
