(* ===== verification/GrpcStatus.v ===== *)
(** * Errors between nodes ([broker/src/rpc/grpc_status.rs], [broker/proto/common.proto],
    [broker/src/raft/mod.rs])

    A node that cannot serve a request of another node says why in a gRPC status: a kind of
    error and, for a redirection, the leader, in the metadata, and for an error of the
    broker itself a detail in the body.  The caller decodes what it received.  The status
    itself, how metadata are checked and how a status travels are [tonic]'s ([Tonic]). *)

From S2P Require Import Prelude TopicFilter.
From Stdlib Require Import Ascii.

#[local] Open Scope string_scope.
#[local] Open Scope Z_scope.

(** ** Data *)

(** [tonic::Code]. *)
Inductive Code :=
  | CodeOk | Cancelled | CodeUnknown | CodeInvalidArgument | DeadlineExceeded | CodeNotFound | CodeAlreadyExists
  | PermissionDenied | ResourceExhausted | FailedPrecondition | Aborted | OutOfRange | Unimplemented
  | Internal | Unavailable | DataLoss | Unauthenticated.
#[export] Instance Code_eq_dec : EqDecision Code.
Proof. solve_decision. Defined.

(** [ErrorCode] of [common.proto]. *)
Inductive ErrorCode :=
  | Unknown | InternalError | InvalidArgument | NotFound | ErrNotLeader | ErrNoLeaderAvailable | ErrNotInitialized
  | ErrNotReady | ErrServiceUnavailable | SerializationError | ErrUnexpectedResponseType
  | SessionTenantNotFound | SessionNotFound | SessionNodeNotFound | SessionTenantAlreadyExists
  | SessionAlreadyExists
  | TopicInvalidName | TopicInvalidFilter | TopicTenantNotFound | TopicNotFound
  | SessionStateNotFound | PacketIdentifierAlreadyExists | PayloadNotFound | PayloadMissing.
#[export] Instance ErrorCode_eq_dec : EqDecision ErrorCode.
Proof. solve_decision. Defined.

(** [code as i32]. *)
Definition error_code_number (c : ErrorCode) : Z :=
  match c with
  | Unknown => 0 | InternalError => 1 | InvalidArgument => 2 | NotFound => 3 | ErrNotLeader => 4
  | ErrNoLeaderAvailable => 5 | ErrNotInitialized => 6 | ErrNotReady => 7 | ErrServiceUnavailable => 8
  | SerializationError => 9 | ErrUnexpectedResponseType => 10
  | SessionTenantNotFound => 1000 | SessionNotFound => 1001 | SessionNodeNotFound => 1002
  | SessionTenantAlreadyExists => 1004 | SessionAlreadyExists => 1005
  | TopicInvalidName => 2000 | TopicInvalidFilter => 2001 | TopicTenantNotFound => 2002 | TopicNotFound => 2003
  | SessionStateNotFound => 3000 | PacketIdentifierAlreadyExists => 3001 | PayloadNotFound => 3002
  | PayloadMissing => 3003
  end.
Definition all_error_codes : list ErrorCode :=
  [Unknown; InternalError; InvalidArgument; NotFound; ErrNotLeader; ErrNoLeaderAvailable; ErrNotInitialized;
   ErrNotReady; ErrServiceUnavailable; SerializationError; ErrUnexpectedResponseType;
   SessionTenantNotFound; SessionNotFound; SessionNodeNotFound; SessionTenantAlreadyExists; SessionAlreadyExists;
   TopicInvalidName; TopicInvalidFilter; TopicTenantNotFound; TopicNotFound;
   SessionStateNotFound; PacketIdentifierAlreadyExists; PayloadNotFound; PayloadMissing].

Record ErrorDetail := mkDetail { d_code : Z; d_message : string; d_node : string }.
#[export] Instance ErrorDetail_eq_dec : EqDecision ErrorDetail.
Proof. solve_decision. Defined.

(** [ErrorDetail::code()]: a number that is no code is the first one. *)
Definition detail_code (d : ErrorDetail) : ErrorCode :=
  default Unknown (list_find (fun c => error_code_number c = d_code d) all_error_codes ≫= fun ic => Some ic.2).

Record Status := mkStatus {
  s_code : Code;
  s_message : string;
  s_details : bytes;
  s_metadata : gmap string string;
}.

(** [Status::new] and its short forms. *)
Definition status_new (code : Code) (message : string) : Status := mkStatus code message [] ∅.

Record ParsedStatus := mkParsed {
  error_kind : option string;
  leader_node_id : option Z;
  leader_addr : option string;
  detail : option ErrorDetail;
}.

Definition ERROR_KIND_KEY : string := "x-yedmq-error-kind".
Definition LEADER_NODE_ID_KEY : string := "x-yedmq-leader-node-id".
Definition LEADER_ADDR_KEY : string := "x-yedmq-leader-addr".
Definition ERROR_KIND_LEADER_REDIRECT : string := "leader_redirect".
Definition ERROR_KIND_BUSINESS : string := "business".
Definition ERROR_KIND_NO_LEADER : string := "no_leader".
Definition ERROR_KIND_NOT_READY : string := "not_ready".
Definition ERROR_KIND_FATAL : string := "fatal".

(** [raft::Node]. *)
Record Node := mkNode { node_id : option Z; rpc_addr : string; api_addr : string }.
#[export] Instance Node_eq_dec : EqDecision Node.
Proof. solve_decision. Defined.

(** [raft::GRPCBusinessError]. *)
Record GRPCBusinessError := mkBusiness {
  be_grpc_code : Code;
  be_code : ErrorCode;
  be_message : string;
  be_node : string;
}.
Definition business_error_new (grpc_code : Code) (value : ErrorDetail) : GRPCBusinessError :=
  mkBusiness grpc_code (detail_code value) (d_message value) (d_node value).

(** ** What [tonic] and [prost] do *)

Class Tonic := {
  ascii_value : string -> bool;          (* [MetadataValue::from_str] succeeds *)
  received : Status -> Status;           (* a status as the other side gets it *)
  status_display : Status -> string;     (* its [Display] *)
}.

(** Printable ASCII. *)
Definition printable (c : ascii) : bool :=
  (32 <=? Z.of_nat (Ascii.nat_of_ascii c)) && (Z.of_nat (Ascii.nat_of_ascii c) <? 127).
Fixpoint visible (s : string) : bool :=
  match s with
  | String.EmptyString => true
  | String.String c s => printable c && visible s
  end.

(** Printable ASCII is a value of a header; code, message, details and our metadata arrive. *)
Class TonicSpec `{Tonic} : Prop := {
  visible_value s : visible s = true -> ascii_value s = true;
  received_code s : s_code (received s) = s_code s;
  received_message s : s_message (received s) = s_message s;
  received_details s : s_details (received s) = s_details s;
  received_metadata s k : k ∈ [ERROR_KIND_KEY; LEADER_NODE_ID_KEY; LEADER_ADDR_KEY] ->
    s_metadata (received s) !! k = s_metadata s !! k;
}.

(** A message reads back from its encoding, and only the default one is encoded by nothing. *)
Class DetailSpec `{Prost ErrorDetail} : Prop := {
  detail_round_trips (d : ErrorDetail) : round_trips d;
  detail_empty (d : ErrorDetail) : encode_to_vec d = [] -> d = mkDetail 0 "" "";
}.

(** [str::parse::<u64>()]: digits, after a [+] or not, of a number in range. *)
Definition digit (c : ascii) : option Z :=
  let n := Z.of_nat (Ascii.nat_of_ascii c) in
  if (48 <=? n) && (n <=? 57) then Some (n - 48) else None.
Fixpoint digits (s : string) (acc : Z) : option Z :=
  match s with
  | String.EmptyString => Some acc
  | String.String c s => d ← digit c; digits s (10 * acc + d)
  end.
Definition parse_u64 (s : string) : option Z :=
  let s := match s with String.String "+" s => s | _ => s end in
  match s with
  | String.EmptyString => None
  | _ => n ← digits s 0; if n <=? u64_max then Some n else None
  end.

(** ** Statuses *)

Section Statuses.
Context `{Tonic} `{Prost ErrorDetail}.

Definition metadata_value (value : string) : option string := if ascii_value value then Some value else None.

Definition encode_detail (d : ErrorDetail) : bytes := encode_to_vec d.

Definition insert_some (key : string) (value : option string) (m : gmap string string) : gmap string string :=
  match value with Some v => <[key := v]> m | None => m end.

Definition status_with_metadata (code : Code) (message : string) (kind : option string) (d : option ErrorDetail)
    (addr : option string) (id : option Z) : Status :=
  let metadata := insert_some ERROR_KIND_KEY (kind ≫= metadata_value) ∅ in
  let metadata := insert_some LEADER_ADDR_KEY (addr ≫= metadata_value) metadata in
  let metadata := insert_some LEADER_NODE_ID_KEY (id ≫= fun value => metadata_value (pretty value)) metadata in
  mkStatus code message (from_option encode_detail [] d) metadata.

Definition business_detail (code : ErrorCode) (message node : string) : ErrorDetail :=
  mkDetail (error_code_number code) message node.

Definition business_status (status_code : Code) (d : ErrorDetail) : Status :=
  status_with_metadata status_code (d_message d) (Some ERROR_KIND_BUSINESS) (Some d) None None.

Definition leader_redirect_status (message addr : string) (id : option Z) : Status :=
  status_with_metadata FailedPrecondition message (Some ERROR_KIND_LEADER_REDIRECT) None (Some addr) id.

Definition no_leader_status (message : string) : Status :=
  status_with_metadata Unavailable message (Some ERROR_KIND_NO_LEADER) None None None.

Definition not_ready_status (message : string) : Status :=
  status_with_metadata Unavailable message (Some ERROR_KIND_NOT_READY) None None None.

Definition fatal_status (code : Code) (message : string) : Status :=
  status_with_metadata code message (Some ERROR_KIND_FATAL) None None None.

Definition invalid_argument_status (message node : string) : Status :=
  business_status CodeInvalidArgument (business_detail InvalidArgument message node).

Definition not_found_status (message node : string) : Status :=
  business_status CodeNotFound (business_detail NotFound message node).

(** The values in the metadata were checked when they were made. *)
Definition decode_status (status : Status) : ParsedStatus :=
  mkParsed (s_metadata status !! ERROR_KIND_KEY)
    (s_metadata status !! LEADER_NODE_ID_KEY ≫= parse_u64)
    (s_metadata status !! LEADER_ADDR_KEY)
    (match s_details status with
     | [] => None
     | ds => match prost_decode ds with Ok d => Some d | _ => None end
     end).
End Statuses.

(** ** What a caller decodes *)

Lemma detail_code_business code message node : detail_code (business_detail code message node) = code.
Proof. by destruct code. Qed.

Lemma digit_char x : (x < 10)%N -> digit (pretty_N_char x) = Some (Z.of_N x).
Proof.
  intros Hx. assert (x = 0 \/ x = 1 \/ x = 2 \/ x = 3 \/ x = 4 \/ x = 5 \/ x = 6 \/ x = 7 \/ x = 8 \/ x = 9)%N by lia.
  naive_solver.
Qed.
Lemma printable_char x : printable (pretty_N_char x) = true.
Proof. unfold pretty_N_char. by repeat case_match. Qed.

Lemma digits_go x s : (0 < x)%N -> digits (pretty_N_go x s) 0 = digits s (Z.of_N x).
Proof.
  revert s. induction (N.lt_wf_0 x) as [x _ IH]; intros s Hx. rewrite pretty_N_go_step by done.
  assert (Hm : (x `mod` 10 < 10)%N) by (apply N.mod_lt; lia).
  pose proof (N.div_mod x 10 ltac:(lia)) as Hd.
  destruct (decide (x `div` 10 = 0)%N) as [Hz|Hz].
  - rewrite Hz, pretty_N_go_0. cbn -[pretty_N_char Z.mul Z.add]. rewrite digit_char by done. cbn -[Z.mul Z.add].
    f_equal. lia.
  - rewrite IH by (first [apply N.div_lt|idtac]; lia). cbn -[pretty_N_char Z.mul Z.add]. rewrite digit_char by done.
    cbn -[Z.mul Z.add]. f_equal. lia.
Qed.
Lemma visible_go x s : visible s = true -> visible (pretty_N_go x s) = true.
Proof.
  revert s. induction (N.lt_wf_0 x) as [x _ IH]; intros s Hs.
  destruct (decide (x = 0)%N) as [->|Hx]; [done|]. rewrite pretty_N_go_step by lia.
  apply IH; [apply N.div_lt; lia|]. cbn [visible]. by rewrite printable_char, Hs.
Qed.
Lemma pretty_go_first x s : (0 < x)%N -> exists c r, pretty_N_go x s = String.String (pretty_N_char c) r.
Proof.
  revert s. induction (N.lt_wf_0 x) as [x _ IH]; intros s Hx. rewrite pretty_N_go_step by done.
  destruct (decide (x `div` 10 = 0)%N) as [->|Hz]; [by do 2 eexists|].
  apply IH; [apply N.div_lt; lia|by apply N.neq_0_lt_0].
Qed.

Lemma pretty_pos p : pretty (Zpos p) = pretty_N_go (Npos p) "".
Proof. done. Qed.

(** [n.to_string().parse() == Ok(n)]. *)
Lemma parse_pretty n : is_u64 n -> parse_u64 (pretty n) = Some n.
Proof.
  intros [Hn Hmax]. destruct n as [|p|p]; [done| |lia]. rewrite pretty_pos.
  pose proof (digits_go (Npos p) "" ltac:(lia)) as Hd.
  destruct (pretty_go_first (Npos p) "" ltac:(lia)) as (c & r & Hc). rewrite Hc in *. unfold parse_u64.
  assert (Hplus : match String.String (pretty_N_char c) r with String.String "+" s => s | _ => String.String (pretty_N_char c) r end
    = String.String (pretty_N_char c) r) by (unfold pretty_N_char; by repeat case_match).
  rewrite Hplus, Hd. cbn -[Z.leb u64_max]. by rewrite (proj2 (Z.leb_le (Zpos p) u64_max) Hmax).
Qed.
Lemma visible_pretty n : 0 <= n -> visible (pretty n) = true.
Proof.
  intros Hn. destruct n as [|p|p]; [done| |lia]. rewrite pretty_pos. by apply visible_go.
Qed.

Section Decoding.
Context `{TonicSpec} `{DetailSpec}.

Definition value_ok (o : option string) : Prop := forall s, o = Some s -> visible s = true.

Lemma kind_visible k : visible k = true -> value_ok (Some k).
Proof. by intros Hk ? [= <-]. Qed.

Lemma metadata_visible o : value_ok o -> o ≫= metadata_value = o.
Proof. intros Ho. destruct o as [s|]; [|done]. cbn. unfold metadata_value. by rewrite visible_value by by apply Ho. Qed.

(** What a node says about an error is what the other node decodes. *)
Lemma decode_received code message kind (d : option ErrorDetail) addr id :
  value_ok kind -> value_ok addr -> (forall n, id = Some n -> is_u64 n) ->
  decode_status (received (status_with_metadata code message kind d addr id)) =
  mkParsed kind id addr (d ≫= fun d => if decide (d = mkDetail 0 "" "") then
     match encode_detail d with [] => None | _ => Some d end else Some d).
Proof.
  intros Hk Ha Hi. unfold decode_status. rewrite !received_metadata by set_solver.
  rewrite received_details. unfold status_with_metadata. cbn [s_metadata s_details].
  rewrite (metadata_visible kind), (metadata_visible addr) by done.
  assert (Hid : (id ≫= fun value => metadata_value (pretty value)) = pretty <$> id).
  { destruct id as [n|]; [|done]. cbn. unfold metadata_value. rewrite visible_value; [done|].
    apply visible_pretty. destruct (Hi n eq_refl). lia. }
  rewrite Hid. clear Hid. f_equal.
  - destruct kind, addr, id; cbn; by simplify_map_eq.
  - destruct kind, addr, id as [n|]; cbn; simplify_map_eq; try done; cbn; apply parse_pretty; auto.
  - destruct kind, addr, id; cbn; by simplify_map_eq.
  - destruct d as [d|]; [|done]. cbn. pose proof (detail_round_trips d) as Hrt. unfold round_trips in Hrt.
    unfold encode_detail in *. destruct (encode_to_vec d) as [|b bs] eqn:He.
    + pose proof (detail_empty d He) as ->. by rewrite decide_True.
    + rewrite Hrt. by destruct decide.
Qed.
End Decoding.
