(* ===== verification/Payload.v ===== *)
(** * Payload transfer ([broker/src/raft/payload/transfer.rs], [client.rs], [service.rs], [store.rs])

    The log of the session states holds keys; the messages themselves are in a payload
    store per node.  A node pushes payloads to another ([replicate_entries]) in batches, a
    large one in chunks, and pulls the ones it misses ([bulk_sync]) as a stream of chunks
    that is put together and checked before anything is stored.  Sizes are those of
    buffers in memory: their sums do not overflow a [usize]. *)

From S2P Require Import Prelude GrpcStatus Program.

#[local] Open Scope string_scope.
#[local] Open Scope Z_scope.
#[local] Open Scope prog_scope.

(** ** Data *)

Inductive PayloadError :=
  | Io (e : string)
  | Storage (e : string)
  | Serialization (e : string)
  | PayloadAbsent (key : string).
Definition payload_error_display (e : PayloadError) : string :=
  match e with
  | Io e => "IO error: " +:+ e
  | Storage e => "Storage error: " +:+ e
  | Serialization e => "Serialization error: " +:+ e
  | PayloadAbsent key => "Payload not found: " +:+ key
  end.

Record ReplicateRequest := mkReplicate { rr_key : string; rr_data : bytes; rr_term : Z }.
Record BulkSyncChunk := mkChunk {
  bc_key : string;
  bc_data : bytes;
  bc_offset : Z;
  bc_is_last_chunk : bool;
  bc_total_size : Z;
  bc_checksum : Z;
}.
Record BulkSyncDataRequest := mkSync { sy_session_id : string; sy_keys_to_fetch : list string }.

Inductive PayloadClientError :=
  | ClientGRPC (status : Status)
  | ClientConnect (e : string)
  | ClientPayloadError (e : string)
  | PayloadNotFound.

Definition CHUNK_SIZE : Z := 1024 * 1024.
Definition RPC_SIZE_LIMIT : Z := 4 * 1024 * 1024.

(** [crc32fast::hash], and [prost]'s encoded lengths. *)
Class Crc := crc32 : bytes -> Z.
Class ProstLen := {
  replicate_len : ReplicateRequest -> Z;
  sync_len : BulkSyncDataRequest -> Z;
  length_delimiter_len : Z -> Z;
}.

(** ** Chunks *)

Section Chunks.
Context `{Crc}.

(** [(0..size.max(1)).step_by(CHUNK_SIZE)]. *)
Definition chunk_offsets (size : Z) : list Z :=
  map (fun i => i * CHUNK_SIZE) (seqZ 0 ((Z.max size 1 + CHUNK_SIZE - 1) / CHUNK_SIZE)).

Definition chunk_at (key : string) (data : bytes) (offset : Z) : BulkSyncChunk :=
  let size := zlen data in
  let end_ := Z.min (offset + CHUNK_SIZE) size in
  let last := end_ =? size in
  mkChunk key (take (Z.to_nat (end_ - offset)) (drop (Z.to_nat offset) data)) offset last
    (if last then size else 0) (if last then crc32 data else 0).

Definition chunks (key : string) (data : bytes) : list BulkSyncChunk :=
  map (chunk_at key data) (chunk_offsets (zlen data)).

(** [ChunkAssembler]: the payload being put together. *)
Abbreviation ChunkAssembler := (option (string * bytes)).

(** [push]: on an error what was there stays, with the chunk that was appended before it. *)
Definition push (chunk : BulkSyncChunk) (current : ChunkAssembler)
    : outcome string (option (string * bytes)) * ChunkAssembler :=
  let '(key, data) := default (bc_key chunk, []) current in
  if negb (bool_decide (key = bc_key chunk)) then (Err "interleaved payload keys", Some (key, data))
  else if negb (bc_offset chunk =? zlen data) then (Err "invalid payload offset", Some (key, data))
  else if negb (negb (zlen (bc_data chunk) =? 0) || bc_is_last_chunk chunk) then
    (Err "empty intermediate chunk", Some (key, data))
  else
    let data := (data ++ bc_data chunk)%list in
    if negb (bc_is_last_chunk chunk) then (Ok None, Some (key, data))
    else if negb (bc_total_size chunk =? zlen data) then (Err "payload size mismatch", Some (key, data))
    else if negb (bc_checksum chunk =? crc32 data) then (Err "payload checksum mismatch", Some (key, data))
    else (Ok (Some (key, data)), None).

Definition finish (current : ChunkAssembler) : outcome string unit :=
  match current with None => Ok tt | Some _ => Err "incomplete payload stream" end.
End Chunks.

(** ** Operations *)

Inductive pop :=
  (** This node's store. *)
  | StoreGet (key : string)
  | StorePut (key : string) (data : bytes)
  | StoreContains (key : string)
  | StorePutBatch (entries : list (string * bytes))
  (** Another node. *)
  | OpenChannel (addr : string)
  | RpcReplicateBatch (addr : string) (entries : list ReplicateRequest)
  | RpcReplicateStream (addr : string) (stream : list BulkSyncChunk)
  | RpcStreamBulkData (addr : string) (request : BulkSyncDataRequest)
  | NewUuid.

Definition pres (o : pop) : Type :=
  match o with
  | StoreGet _ => outcome PayloadError (option bytes)
  | StorePut _ _ | StorePutBatch _ => outcome PayloadError unit
  | StoreContains _ => outcome PayloadError bool
  | OpenChannel _ => outcome string unit
  | RpcReplicateBatch _ _ | RpcReplicateStream _ _ => outcome Status bool
  | RpcStreamBulkData _ _ => outcome Status (list (outcome Status BulkSyncChunk))
  | NewUuid => string
  end.
Abbreviation pprog := (prog pop pres).

Section Transfer.
Context `{Crc, ProstLen, Tonic}.
Definition pask (o : pop) : pprog (pres o) := invoke o.

(** ** The service *)

Definition internal_error (e : PayloadError) : Status := status_new Internal (payload_error_display e).

Definition replicate_payload (req : ReplicateRequest) : pprog (outcome Status bool) :=
  _ <-? fails_with internal_error (pask (StorePut (rr_key req) (rr_data req)));
  Ret (Ok true).

Definition replicate_batch (entries : list ReplicateRequest) : pprog (outcome Status bool) :=
  _ <-? fails_with internal_error (pask (StorePutBatch (map (fun e => (rr_key e, rr_data e)) entries)));
  Ret (Ok true).

(** The loop over the stream of [replicate_stream]. *)
Fixpoint receive_upload (stream : list (outcome Status BulkSyncChunk)) (assembler : option (string * bytes))
    (completed : option (string * bytes)) : outcome Status (option (string * bytes) * option (string * bytes)) :=
  match stream with
  | [] => Ok (assembler, completed)
  | item :: stream =>
      chunk ← item;
      if bool_decide (is_Some completed) then Err (status_new CodeInvalidArgument "expected exactly one payload")
      else
        let '(r, assembler) := push chunk assembler in
        completed ← map_err (status_new CodeInvalidArgument) r;
        receive_upload stream assembler completed
  end.

Definition replicate_stream (stream : list (outcome Status BulkSyncChunk)) : pprog (outcome Status bool) :=
  r <-? Ret (receive_upload stream None None);
  _ <-? Ret (map_err (status_new CodeInvalidArgument) (finish r.1));
  match r.2 with
  | None => Ret (Err (status_new CodeInvalidArgument "empty upload"))
  | Some (key, data) =>
      _ <-? fails_with internal_error (pask (StorePut key data));
      Ret (Ok true)
  end.

Definition fetch_payload (key : string) : pprog (outcome Status (bool * bytes)) :=
  r ← pask (StoreGet key);
  Ret (match r with
       | Ok (Some data) => Ok (true, data)
       | Ok None => Ok (false, [])
       | Err e => Err (internal_error e)
       | Panic => Panic
       | OutOfFuel => OutOfFuel
       end).

Fixpoint missing_keys (manifest : list string) (missing : list string) : pprog (outcome Status (list string)) :=
  match manifest with
  | [] => Ret (Ok missing)
  | key :: manifest =>
      exists_ <-? fails_with internal_error (pask (StoreContains key));
      missing_keys manifest (if (exists_ : bool) then missing else (missing ++ [key])%list)
  end.
(** [start_bulk_sync]: it accepts always. *)
Definition start_bulk_sync (manifest : list string) : pprog (outcome Status (bool * list string)) :=
  missing <-? missing_keys manifest [];
  Ret (Ok (true, missing)).

(** The task of [stream_bulk_data]: what it puts into the stream. *)
Fixpoint stream_bulk_data (keys : list string) : pprog (list (outcome Status BulkSyncChunk)) :=
  match keys with
  | [] => Ret []
  | key :: keys =>
      r ← pask (StoreGet key);
      match r with
      | Ok (Some data) => rest ← stream_bulk_data keys; Ret (map Ok (chunks key data) ++ rest)%list
      | Ok None => Ret [Err (status_new CodeNotFound ("payload " +:+ key +:+ " not found"))]
      | Err e => Ret [Err (internal_error e)]
      | _ => Ret []
      end
  end.

(** ** The client *)

(** [1 + length_delimiter_len(len) + len] of an entry of a batch. *)
Definition encoded_size (len : Z) : Z := 1 + length_delimiter_len len + len.

Definition send_batch (addr : string) (batch : list ReplicateRequest) : pprog (outcome PayloadClientError unit) :=
  success <-? fails_with ClientGRPC (pask (RpcReplicateBatch addr batch));
  Ret (if (success : bool) then Ok tt else Err (ClientPayloadError "batch rejected")).

Definition send_stream (addr : string) (entry : ReplicateRequest) : pprog (outcome PayloadClientError unit) :=
  success <-? fails_with ClientGRPC (pask (RpcReplicateStream addr (chunks (rr_key entry) (rr_data entry))));
  Ret (if (success : bool) then Ok tt else Err (ClientPayloadError "upload rejected")).

(** The loop of [replicate_entries]. *)
Fixpoint replicate_loop (addr : string) (entries batch : list ReplicateRequest) (batch_size : Z)
    : pprog (outcome PayloadClientError unit) :=
  match entries with
  | [] => match batch with [] => Ret (Ok tt) | _ => send_batch addr batch end
  | entry :: entries =>
      let size := encoded_size (replicate_len entry) in
      let go batch batch_size :=
        if RPC_SIZE_LIMIT <? size then
          _ <-? send_stream addr entry;
          replicate_loop addr entries batch batch_size
        else replicate_loop addr entries (batch ++ [entry])%list (batch_size + size) in
      if (RPC_SIZE_LIMIT <? batch_size + size) && negb (zlen batch =? 0) then
        _ <-? send_batch addr batch;
        go [] 0
      else go batch batch_size
  end.

Definition replicate_entries (addr : string) (entries : list ReplicateRequest) : pprog (outcome PayloadClientError unit) :=
  _ <-? fails_with ClientConnect (pask (OpenChannel addr));
  replicate_loop addr entries [] 0.

Definition replicate (addr key : string) (term : Z) : pprog (outcome PayloadClientError unit) :=
  data <-? fails_with (fun e => ClientPayloadError (payload_error_display e)) (pask (StoreGet key));
  match data with
  | None => Ret (Err (ClientPayloadError ("Payload not found locally: " +:+ key)))
  | Some data => replicate_entries addr [mkReplicate key data term]
  end.

(** [bulk_sync]; its errors are texts. *)
Abbreviation Pending := (gmap string (Z * Z)).

Fixpoint missing_here (manifest : list (string * Z * Z)) (pending : Pending) : pprog (outcome string Pending) :=
  match manifest with
  | [] => Ret (Ok pending)
  | (key, size, checksum) :: manifest =>
      there <-? fails_with payload_error_display (pask (StoreContains key));
      missing_here manifest (if (there : bool) then pending else <[key := (size, checksum)]> pending)
  end.

(** The keys to fetch, as requests below the size limit. *)
Fixpoint sync_requests (session_id : string) (keys : list string) (request : list string) (request_size : Z)
    (requests : list (list string)) : outcome string (list (list string)) :=
  match keys with
  | [] => Ok (match request with [] => requests | _ => requests ++ [request] end)%list
  | key :: keys =>
      let size := encoded_size (Z.of_nat (String.length key)) in
      if negb (size + Z.of_nat (String.length session_id) + 2 <=? RPC_SIZE_LIMIT) then Err "payload key too large"
      else if RPC_SIZE_LIMIT <? request_size + size then
        sync_requests session_id keys [key] (sync_len (mkSync session_id []) + size) (requests ++ [request])%list
      else sync_requests session_id keys (request ++ [key])%list (request_size + size) requests
  end.

(** The loop over the stream of one request. *)
Fixpoint receive (stream : list (outcome Status BulkSyncChunk)) (assembler : option (string * bytes)) (pending : Pending)
    : pprog (outcome string Pending) :=
  match stream with
  | [] => Ret (finish assembler ≫= fun _ => Ok pending)
  | item :: stream =>
      chunk <-? Ret (map_err status_display item);
      if negb (bool_decide (is_Some (pending !! bc_key chunk))) then Ret (Err "unexpected or duplicate payload key")
      else
        let '(r, assembler) := push chunk assembler in
        done_ <-? Ret r;
        match done_ with
        | None => receive stream assembler pending
        | Some (key, data) =>
            match pending !! key with
            | None => Ret Panic
            | Some (size, checksum) =>
                if negb ((size =? 0) || (size =? zlen data)) then Ret (Err "manifest size mismatch")
                else if negb ((checksum =? 0) || (checksum =? crc32 data)) then Ret (Err "manifest checksum mismatch")
                else
                  _ <-? fails_with payload_error_display (pask (StorePut key data));
                  receive stream assembler (delete key pending)
            end
        end
  end.

Fixpoint fetch_all (addr session_id : string) (requests : list (list string)) (pending : Pending)
    : pprog (outcome string Pending) :=
  match requests with
  | [] => Ret (Ok pending)
  | request :: requests =>
      stream <-? fails_with status_display (pask (RpcStreamBulkData addr (mkSync session_id request)));
      pending <-? receive stream None pending;
      fetch_all addr session_id requests pending
  end.

Definition bulk_sync (addr : string) (manifest : list (string * Z * Z)) : pprog (outcome string unit) :=
  pending <-? missing_here manifest ∅;
  _ <-? pask (OpenChannel addr);
  session_id ← pask NewUuid;
  requests <-? Ret (sync_requests session_id (map fst (map_to_list (pending : Pending))) []
                      (sync_len (mkSync session_id [])) []);
  pending <-? fetch_all addr session_id requests pending;
  Ret (if bool_decide (pending = (∅ : Pending)) then Ok tt
       else Err ("peer omitted " +:+ pretty (Z.of_nat (size (pending : Pending))) +:+ " requested payloads")).

Definition fetch_and_store (addr key : string) : pprog (outcome PayloadClientError unit) :=
  fails_with ClientPayloadError (bulk_sync addr [(key, 0, 0)]).
End Transfer.
