(* ===== verification/PayloadSync.v ===== *)
(** * What payload transfer achieves

    The stores of the nodes, with other tasks that store and delete payloads at any time,
    calls that fail before or after they took effect, and streams that break or end early.
    A key names one payload ([content]): keys are fresh identifiers.  The garbage collection
    of the session states and the router delete payloads; what is shown to stay is what is
    [pinned], the keys no task deletes while the call runs. *)

From S2P Require Import Prelude GrpcStatus Program Traces Payload.

#[local] Open Scope string_scope.
#[local] Open Scope Z_scope.
#[local] Open Scope prog_scope.

(** ** Chunks *)

Section Assembly.
Context `{Crc}.

(** The state of the assembler before chunk [i]. *)
Definition assembled (key : string) (data : bytes) (i : Z) : option (string * bytes) :=
  if i =? 0 then None else Some (key, take (Z.to_nat (i * CHUNK_SIZE)) data).
Definition chunk_count (data : bytes) : Z := (Z.max (zlen data) 1 + CHUNK_SIZE - 1) / CHUNK_SIZE.

Lemma CHUNK_pos : 0 < CHUNK_SIZE.
Proof. done. Qed.
Lemma chunk_count_bounds data :
  (chunk_count data - 1) * CHUNK_SIZE < Z.max (zlen data) 1 <= chunk_count data * CHUNK_SIZE.
Proof.
  unfold chunk_count. generalize CHUNK_pos (Z.max (zlen data) 1). generalize CHUNK_SIZE as C. intros C HC m.
  pose proof (Z.div_mod (m + C - 1) C ltac:(lia)). pose proof (Z.mod_pos_bound (m + C - 1) C ltac:(lia)). nia.
Qed.

Lemma push_chunk key data i :
  0 <= i < chunk_count data ->
  push (chunk_at key data (i * CHUNK_SIZE)) (assembled key data i) =
  if i =? chunk_count data - 1 then (Ok (Some (key, data)), None) else (Ok None, assembled key data (i + 1)).
Proof.
  intros Hi. pose proof (chunk_count_bounds data) as Hb. pose proof CHUNK_pos as Hc. pose proof (zlen_nonneg data) as Hz.
  set (n := chunk_count data) in *. set (C := CHUNK_SIZE) in *. set (k := Z.to_nat (i * C)).
  assert (Hin : i * C < Z.max (zlen data) 1) by nia.
  assert (Hdef : default (bc_key (chunk_at key data (i * C)), []) (assembled key data i) = (key, take k data)).
  { unfold assembled. destruct (Z.eqb_spec i 0) as [->|]; done. }
  unfold push. rewrite Hdef. clear Hdef. unfold chunk_at. cbn [bc_key bc_offset bc_data bc_is_last_chunk bc_total_size bc_checksum].
  rewrite bool_decide_true by done. cbn [negb].
  assert (Hlen : zlen (take k data) = i * C) by (unfold zlen in *; rewrite length_take; unfold k; lia).
  rewrite Hlen, Z.eqb_refl. cbn [negb]. fold C k.
  assert (Happ : (take k data ++ take (Z.to_nat (Z.min (i * C + C) (zlen data) - i * C)) (drop k data))%list =
    take (Z.to_nat (Z.min (i * C + C) (zlen data))) data).
  { rewrite take_take_drop. f_equal. unfold k. lia. }
  rewrite Happ. destruct (Z.eqb_spec i (n - 1)) as [Hlast|Hmore].
  - assert (Hmin : Z.min (i * C + C) (zlen data) = zlen data) by nia.
    rewrite Hmin, Z.eqb_refl, orb_true_r. cbn [negb].
    rewrite zlen_to_nat, firstn_all, Z.eqb_refl. cbn [negb]. by rewrite Z.eqb_refl.
  - assert (Hmin : Z.min (i * C + C) (zlen data) = (i + 1) * C) by nia.
    rewrite Hmin. assert (Hne : ((i + 1) * C =? zlen data) = false) by (apply Z.eqb_neq; nia). rewrite Hne, orb_false_r.
    assert (Hpos : (zlen (take (Z.to_nat ((i + 1) * C - i * C)) (drop k data)) =? 0) = false).
    { apply Z.eqb_neq. unfold zlen in *. rewrite length_take, length_drop. unfold k. nia. }
    rewrite Hpos. cbn [negb]. unfold assembled. by rewrite (proj2 (Z.eqb_neq (i + 1) 0)) by lia.
Qed.

Lemma receive_chunks key data i m :
  0 <= i -> Z.of_nat m = chunk_count data - i -> (0 < m)%nat ->
  receive_upload (map Ok (map (fun i => chunk_at key data (i * CHUNK_SIZE)) (seqZ i (Z.of_nat m)))) (assembled key data i) None =
  Ok (None, Some (key, data)).
Proof.
  revert i. induction m as [|m IH]; intros i Hi Hm Hpos; [lia|].
  rewrite seqZ_cons by lia. cbn [map receive_upload mbind outcome_bind]. rewrite bool_decide_false by (by intros []).
  rewrite push_chunk by lia. replace (Z.pred (Z.of_nat (S m))) with (Z.of_nat m) by lia.
  replace (Z.succ i) with (i + 1) by lia.
  destruct (Z.eqb_spec i (chunk_count data - 1)) as [Hl|Hl].
  - assert (m = 0%nat) as -> by lia. done.
  - cbn. apply IH; lia.
Qed.

Lemma receive_prefix key data i m :
  0 <= i -> i + Z.of_nat m < chunk_count data ->
  receive_upload (map Ok (map (fun i => chunk_at key data (i * CHUNK_SIZE)) (seqZ i (Z.of_nat m)))) (assembled key data i) None =
  Ok (assembled key data (i + Z.of_nat m), None).
Proof.
  revert i. induction m as [|m IH]; intros i Hi Hm.
  - cbn. by rewrite Z.add_0_r.
  - rewrite seqZ_cons by lia. cbn [map receive_upload mbind outcome_bind]. rewrite bool_decide_false by (by intros []).
    rewrite push_chunk by lia. replace (Z.pred (Z.of_nat (S m))) with (Z.of_nat m) by lia.
    replace (Z.succ i) with (i + 1) by lia. rewrite (proj2 (Z.eqb_neq i (chunk_count data - 1))) by lia.
    cbn. rewrite IH by lia. do 3 f_equal. lia.
Qed.

Lemma chunks_seq key data : chunks key data = map (fun i => chunk_at key data (i * CHUNK_SIZE)) (seqZ 0 (chunk_count data)).
Proof. unfold chunks, chunk_offsets. by rewrite map_map. Qed.
Lemma chunk_count_pos data : 0 < chunk_count data.
Proof. pose proof (chunk_count_bounds data). pose proof CHUNK_pos. nia. Qed.
End Assembly.

(** ** Stores *)

Abbreviation Stores := (gmap string (gmap string bytes)).
Definition store_at (addr : string) (s : Stores) : gmap string bytes := default ∅ (s !! addr).
Definition put (addr key : string) (data : bytes) (s : Stores) : Stores :=
  <[addr := <[key := data]> (store_at addr s)]> s.
Definition put_all (addr : string) (entries : list (string * bytes)) (s : Stores) : Stores :=
  foldl (fun s e => put addr e.1 e.2 s) s entries.

(** The keys whose payloads no other task deletes meanwhile. *)
Class Pinned := pinned : string -> Prop.

(** No store loses a pinned payload. *)
Definition grows `{Pinned} (s s' : Stores) : Prop :=
  forall addr k d, pinned k -> store_at addr s !! k = Some d -> store_at addr s' !! k = Some d.
#[export] Instance grows_preorder `{Pinned} : PreOrder grows.
Proof. split; [by intros s addr|]. intros s1 s2 s3 H1 H2 addr k d Hp Hk. by apply H2, H1. Qed.

Section Stores.
Context (content : string -> bytes) `{Pinned}.

(** What the stores hold is what the keys name. *)
Definition agrees (s : Stores) : Prop := forall addr k d, store_at addr s !! k = Some d -> d = content k.

Lemma store_put addr addr' key data s :
  store_at addr' (put addr key data s) = if decide (addr = addr') then <[key := data]> (store_at addr s) else store_at addr' s.
Proof. unfold store_at at 1, put. case_decide; subst; by simplify_map_eq. Qed.
(** A store itself loses nothing. *)
Definition keeps (s s' : Stores) : Prop := forall addr, store_at addr s ⊆ store_at addr s'.
Lemma keeps_grows s s' : keeps s s' -> grows s s'.
Proof. intros Hk addr k d _ Hd. eapply lookup_weaken; [exact Hd|apply Hk]. Qed.

Lemma put_keeps addr key s : agrees s -> agrees (put addr key (content key) s) /\ keeps s (put addr key (content key) s).
Proof.
  intros Ha. split.
  - intros addr' k d. rewrite store_put. case_decide; [|apply Ha]. rewrite lookup_insert_Some. intros [[<- <-]|[_ Hk]]; [done|].
    by eapply Ha.
  - intros addr'. rewrite store_put. case_decide as Hd; [subst|done]. apply map_subseteq_spec. intros k d Hk.
    destruct (decide (k = key)) as [->|]; [|by rewrite lookup_insert_ne].
    rewrite lookup_insert_eq. by rewrite (Ha _ _ _ Hk).
Qed.
Lemma put_kept addr key s : agrees s -> agrees (put addr key (content key) s) /\ grows s (put addr key (content key) s).
Proof. intros Ha. destruct (put_keeps addr key s Ha). split; [done|by apply keeps_grows]. Qed.

Lemma put_all_keeps addr entries s :
  agrees s -> Forall (fun e => e.2 = content e.1) entries ->
  agrees (put_all addr entries s) /\ keeps s (put_all addr entries s) /\
  Forall (fun e => store_at addr (put_all addr entries s) !! e.1 = Some e.2) entries.
Proof.
  intros Ha He. revert s Ha. induction He as [|[k d] entries Hk He IH]; intros s Ha; [by split_and!; [|intros a|]|].
  cbn in Hk. subst d. destruct (put_keeps addr k s Ha) as [H1 H2]. destruct (IH _ H1) as (H3 & H4 & H5).
  split_and!; [done|intros a; by trans (store_at a (put addr k (content k) s))|]. constructor; [|done]. cbn.
  eapply lookup_weaken; [|apply H4]. rewrite store_put, decide_True by done. apply lookup_insert_eq.
Qed.
Lemma put_all_kept addr entries s :
  agrees s -> Forall (fun e => e.2 = content e.1) entries ->
  agrees (put_all addr entries s) /\ grows s (put_all addr entries s) /\
  Forall (fun e => store_at addr (put_all addr entries s) !! e.1 = Some e.2) entries.
Proof. intros Ha He. destruct (put_all_keeps addr entries s Ha He) as (? & ?%keeps_grows & ?). done. Qed.

(** Other tasks store payloads, and delete any that are not pinned: the garbage collection of
    [RaftSession], the router once a message is delivered. *)
Definition others (s s' : Stores) : Prop := grows s s' /\ agrees s'.

(** An operation on the store of the node at [self]; one that fails may have taken effect. *)
Definition store_does (self : string) (o : pop) (s : Stores) : pres o -> Stores -> Prop :=
  match o return pres o -> Stores -> Prop with
  | StoreGet k => fun r s' => s' = s /\ (r = Ok (store_at self s !! k) \/ exists e, r = Err e)
  | StorePut k d => fun r s' => (r = Ok tt /\ s' = put self k d s) \/ exists e, r = Err e /\ (s' = s \/ s' = put self k d s)
  | StoreContains k => fun r s' => s' = s /\ (r = Ok (bool_decide (is_Some (store_at self s !! k))) \/ exists e, r = Err e)
  | StorePutBatch l => fun r s' => (r = Ok tt /\ s' = put_all self l s) \/ exists e, r = Err e /\ (s' = s \/ s' = put_all self l s)
  | NewUuid => fun _ s' => s' = s
  | OpenChannel _ => fun r s' => s' = s
  | _ => fun _ _ => False
  end.
(** The same, among other tasks. *)
Definition node_does (self : string) (o : pop) (s : Stores) (r : pres o) (s' : Stores) : Prop :=
  exists s0, others s s0 /\ store_does self o s0 r s'.

(** A stream as it arrives: what was sent up to some point, then perhaps an error. *)
Definition delivered (sent arrived : list (outcome Status BulkSyncChunk)) : Prop :=
  exists k, arrived = take k sent \/ exists status, arrived = (take k sent ++ [Err status])%list.

Context `{Crc, ProstLen, Tonic}.

(** A client of the node at [self]: a call runs the service at the other node; its answer may be lost. *)
Definition client_does (self : string) (o : pop) (s : Stores) : pres o -> Stores -> Prop :=
  match o return pres o -> Stores -> Prop with
  | RpcReplicateBatch to l => fun r s' =>
      (exists e, r = Err e /\ s' = s) \/
      exists r0, ends (node_does to) (replicate_batch l) s r0 s' /\ (r = map_err received r0 \/ exists e, r = Err e)
  | RpcReplicateStream to sent => fun r s' =>
      (exists e, r = Err e /\ s' = s) \/
      exists arrived r0, delivered (map Ok sent) arrived /\ ends (node_does to) (replicate_stream arrived) s r0 s' /\
        (r = map_err received r0 \/ exists e, r = Err e)
  | RpcStreamBulkData to request => fun r s' =>
      (exists e, r = Err e /\ s' = s) \/
      exists sent arrived, ends (node_does to) (stream_bulk_data (sy_keys_to_fetch request)) s sent s' /\
        delivered sent arrived /\ r = Ok arrived
  | o => node_does self o s
  end.

(** ** Honest chunks *)

Definition honest (c : BulkSyncChunk) : Prop :=
  exists offset, 0 <= offset /\ c = chunk_at (bc_key c) (content (bc_key c)) offset.
Definition partial (a : option (string * bytes)) : Prop :=
  match a with Some (k, d) => d = take (length d) (content k) | None => True end.

Lemma push_honest c a r a' :
  honest c -> partial a -> push c a = (r, a') ->
  partial a' /\ forall k d, r = Ok (Some (k, d)) -> k = bc_key c /\ d = content k.
Proof.
  intros (offset & Ho & Hc) Ha. unfold push. destruct (default (bc_key c, []) a) as [key data] eqn:Hdef.
  assert (Hd : data = take (length data) (content key)).
  { destruct a as [[k d]|]; cbn in Hdef; by simplify_eq. }
  destruct (bool_decide_reflect (key = bc_key c)) as [->|]; [cbn [negb]|by intros [= <- <-]].
  destruct (Z.eqb_spec (bc_offset c) (zlen data)) as [Heq|]; [cbn [negb]|by intros [= <- <-]].
  assert (offset = zlen data) as -> by (rewrite Hc in Heq; done).
  destruct (negb _); [by intros [= <- <-]|].
  set (all := content (bc_key c)) in *.
  assert (Hle : (length data <= length all)%nat) by (rewrite Hd, length_take; lia).
  assert (Happ : (data ++ bc_data c)%list = take (Z.to_nat (Z.min (zlen data + CHUNK_SIZE) (zlen all))) all).
  { rewrite Hc. cbn [bc_data chunk_at]. fold all. rewrite zlen_to_nat. rewrite Hd at 1.
    rewrite take_take_drop. f_equal. pose proof CHUNK_pos. unfold zlen. lia. }
  assert (Hpre : (data ++ bc_data c)%list = take (length (data ++ bc_data c)) all).
  { rewrite Happ, length_take, <-take_take. by rewrite firstn_all. }
  assert (Hlast : bc_is_last_chunk c = (Z.min (zlen data + CHUNK_SIZE) (zlen all) =? zlen all)) by by rewrite Hc.
  destruct (bc_is_last_chunk c) eqn:Hl; cbn [negb]; [|intros [= <- <-]; by split].
  destruct (negb _); [intros [= <- <-]; by split|]. destruct (negb _); [intros [= <- <-]; by split|].
  intros [= <- <-]. split; [done|]. intros k d [= <- <-]. split; [done|].
  rewrite Happ. symmetry in Hlast. apply Z.eqb_eq in Hlast. rewrite Hlast, zlen_to_nat. apply firstn_all.
Qed.

Lemma chunks_honest key data : data = content key -> Forall honest (chunks key data).
Proof.
  intros ->. unfold chunks, chunk_offsets. rewrite Forall_map, Forall_map. apply Forall_seqZ. intros i Hi.
  exists (i * CHUNK_SIZE). split; [pose proof CHUNK_pos; nia|done].
Qed.

(** ** Operations keep the stores truthful *)

Definition ok_item (P : BulkSyncChunk -> Prop) (i : outcome Status BulkSyncChunk) : Prop :=
  match i with Ok c => P c | _ => True end.
Lemma delivered_items P sent arrived : Forall (ok_item P) sent -> delivered sent arrived -> Forall (ok_item P) arrived.
Proof.
  intros Hs (k & [->|(status & ->)]); [by apply Forall_take|]. apply Forall_app. split; [by apply Forall_take|]. by constructor.
Qed.

Definition upload_ok (key : string) (r : option (string * bytes)) : Prop :=
  forall k d, r = Some (k, d) -> k = key /\ d = content key.

Lemma upload_honest key arrived a completed r :
  Forall (ok_item (fun c => honest c /\ bc_key c = key)) arrived -> partial a -> upload_ok key completed ->
  receive_upload arrived a completed = Ok r -> upload_ok key r.2.
Proof.
  intros Hi. revert a completed. induction Hi as [|i arrived Hc Hi IH]; intros a completed Ha Hcp.
  - by intros [= <-].
  - cbn. destruct i as [c| | |]; try done. cbn. case_bool_decide; [done|]. destruct Hc as [Hh <-].
    destruct (push c a) as [x a'] eqn:Hp. destruct (push_honest _ _ _ _ Hh Ha Hp) as [Ha' Hx].
    destruct x as [x| | |]; try done. cbn. apply IH; [done|]. intros k d ->. destruct (Hx k d eq_refl) as [-> ->]. done.
Qed.

Lemma ends_pask (does : forall o : pop, Stores -> pres o -> Stores -> Prop) (o : pop) s r s' :
  ends does (pask o) s r s' -> does o s r s'.
Proof. apply ends_invoke. Qed.

(** The payloads an operation carries are those its keys name. *)
Definition truthful (o : pop) : Prop :=
  match o with
  | StorePut k d => d = content k
  | StorePutBatch l => Forall (fun e => e.2 = content e.1) l
  | RpcReplicateBatch _ l => Forall (fun e => rr_data e = content (rr_key e)) l
  | RpcReplicateStream _ l => exists key, Forall (fun c => honest c /\ bc_key c = key) l
  | _ => True
  end.

Lemma node_kept self o s r s' : truthful o -> agrees s -> node_does self o s r s' -> agrees s' /\ grows s s'.
Proof.
  intros Ht _ (s0 & [Hg Ha] & Hd).
  assert (Hkeep : agrees s' /\ grows s0 s').
  { destruct o; cbn in Hd, Ht; try done; try (destruct Hd as [-> _]; by split); try (by subst).
    - subst data. destruct Hd as [[_ ->]|(e & _ & [->| ->])]; [by apply put_kept|by split|by apply put_kept].
    - pose proof (put_all_kept self entries s0 Ha Ht) as (? & ? & _).
      destruct Hd as [[_ ->]|(e & _ & [->| ->])]; by split. }
  destruct Hkeep. split; [done|]. by trans s0.
Qed.
Lemma node_ends {A} self (p : pprog A) s a s' :
  only truthful p -> agrees s -> ends (node_does self) p s a s' -> agrees s' /\ grows s s'.
Proof. apply (ends_inv _ agrees grows truthful), node_kept; apply _. Qed.

Lemma only_store_batch l : Forall (fun e => rr_data e = content (rr_key e)) l -> only truthful (replicate_batch l).
Proof. intros Hl. split; [by apply Forall_map|]. by intros [[]| | |]. Qed.
Lemma only_stream key arrived :
  Forall (ok_item (fun c => honest c /\ bc_key c = key)) arrived -> only truthful (replicate_stream arrived).
Proof.
  intros Ha. unfold replicate_stream. destruct (receive_upload arrived None None) as [[a c]| | |] eqn:Hr; [|done..]. cbn.
  destruct (finish a); [|done..]. cbn.
  pose proof (upload_honest key arrived None None _ Ha I ltac:(done) Hr) as Hu. cbn in Hu.
  destruct c as [[k d]|]; [|done]. destruct (Hu k d eq_refl) as [-> ->]. split; [done|]. by intros [[]| | |].
Qed.
Lemma only_bulk keys : only truthful (stream_bulk_data keys).
Proof.
  induction keys as [|k keys IH]; [done|]. split; [done|]. intros [[d|]| | |]; try done. by apply (only_bind _ (stream_bulk_data keys)).
Qed.

Lemma client_kept self o s r s' : truthful o -> agrees s -> client_does self o s r s' -> agrees s' /\ grows s s'.
Proof.
  intros Ht Ha Hd. destruct o; try (by eapply node_kept; [..|exact Hd]);
    cbn [client_does truthful] in Hd, Ht.
  - destruct Hd as [(e & _ & ->)|(r0 & Hd & _)]; [by split|]. eapply node_ends; [|done|exact Hd]. by apply only_store_batch.
  - destruct Ht as [key Ht]. destruct Hd as [(e & _ & ->)|(arrived & r0 & Harr & Hd & _)]; [by split|].
    eapply node_ends; [|done|exact Hd]. eapply (only_stream key), delivered_items; [|done]. by apply Forall_map.
  - destruct Hd as [(e & _ & ->)|(sent & arrived & Hd & _)]; [by split|]. eapply node_ends; [|done|exact Hd]. apply only_bulk.
Qed.
Lemma client_ends {A} self (p : pprog A) s a s' :
  only truthful p -> agrees s -> ends (client_does self) p s a s' -> agrees s' /\ grows s s'.
Proof. apply (ends_inv _ agrees grows truthful), client_kept; apply _. Qed.

(** ** Pushed payloads are there *)

Definition holds (addr : string) (s : Stores) (e : ReplicateRequest) : Prop :=
  store_at addr s !! rr_key e = Some (rr_data e).
Lemma holds_grows addr s s' e : pinned (rr_key e) -> grows s s' -> holds addr s e -> holds addr s' e.
Proof. intros Hp Hg He. by apply Hg. Qed.
(** The pinned ones of [l] are there. *)
Definition all_held (addr : string) (s : Stores) (l : list ReplicateRequest) : Prop :=
  Forall (fun e => pinned (rr_key e) -> holds addr s e) l.
Lemma all_held_grows addr s s' l : grows s s' -> all_held addr s l -> all_held addr s' l.
Proof. intros Hg Hl. eapply Forall_impl; [exact Hl|]. intros e He Hp. by eapply holds_grows; [..|apply He]. Qed.

Lemma batch_stored self to l s s' :
  agrees s -> Forall (fun e => rr_data e = content (rr_key e)) l ->
  ends (client_does self) (send_batch to l) s (Ok tt) s' -> Forall (holds to s') l.
Proof.
  intros Ha Hl (ok & s1 & Hc & Hr)%ends_attempt. destruct ok; [|by destruct Hr]. destruct Hr as [_ ->].
  apply ends_fails, (ends_pask _ (RpcReplicateBatch to l)) in Hc. cbn [client_does] in Hc. destruct Hc as [(e & He & _)|(r0 & Hd & Hr)]; [done|].
  destruct Hr as [Hr|[e He]]; [|done]. destruct r0 as [x| | |]; try done.
  apply ends_attempt in Hd as ([] & s2 & Hp & [_ ->]). apply ends_fails, (ends_pask _ (StorePutBatch _)) in Hp as (s0 & [Hg Ha0] & Hp).
  destruct Hp as [[_ ->]|(e & He & _)]; [|done].
  destruct (put_all_kept to (map (fun e => (rr_key e, rr_data e)) l) s0 Ha0 ltac:(by apply Forall_map)) as (_ & _ & Hin).
  by apply Forall_map in Hin.
Qed.

Lemma stream_stored self to e s s' :
  agrees s -> rr_data e = content (rr_key e) -> ends (client_does self) (send_stream to e) s (Ok tt) s' -> holds to s' e.
Proof.
  intros Ha He (ok & s1 & Hc & Hr)%ends_attempt. destruct ok; [|by destruct Hr]. destruct Hr as [_ ->].
  apply ends_fails, (ends_pask _ (RpcReplicateStream to _)) in Hc. cbn [client_does] in Hc. destruct Hc as [(x & Hx & _)|(arrived & r0 & Harr & Hd & Hr)]; [done|].
  destruct Hr as [Hr|[x Hx]]; [|done]. destruct r0 as [x| | |]; try done.
  assert (Hitems : Forall (ok_item (fun c => honest c /\ bc_key c = rr_key e)) arrived).
  { eapply delivered_items; [|done]. apply Forall_map. apply Forall_and. split; [by apply chunks_honest|].
    unfold chunks. apply Forall_map, Forall_true. done. }
  apply ends_attempt in Hd as ([a c] & s2 & [Hu ->] & Hd). cbn in Hu.
  apply ends_attempt in Hd as ([] & s3 & [_ ->] & Hd).
  pose proof (upload_honest _ _ None None _ Hitems I ltac:(done) (eq_sym Hu)) as Hok. cbn [fst snd] in Hok, Hd.
  destruct c as [[k d]|]; [|by destruct Hd]. destruct (Hok k d eq_refl) as [-> ->].
  apply ends_attempt in Hd as ([] & s4 & Hp & [_ ->]). apply ends_fails, (ends_pask _ (StorePut _ _)) in Hp as (s0 & _ & Hp).
  destruct Hp as [[_ ->]|(x' & Hx & _)]; [|done]. unfold holds. rewrite store_put, decide_True, He by done. apply lookup_insert_eq.
Qed.

Lemma only_send_batch to l : Forall (fun e => rr_data e = content (rr_key e)) l -> only truthful (send_batch to l).
Proof. intros Hl. split; [done|]. by intros [[]| | |]. Qed.
Lemma only_send_stream to e : rr_data e = content (rr_key e) -> only truthful (send_stream to e).
Proof.
  intros He. split; [|by intros [[]| | |]]. exists (rr_key e). apply Forall_and.
  split; [by apply chunks_honest|]. unfold chunks. by apply Forall_map, Forall_true.
Qed.

Lemma send_batch_kept self to l s r s' :
  agrees s -> Forall (fun e => rr_data e = content (rr_key e)) l ->
  ends (client_does self) (send_batch to l) s r s' -> agrees s' /\ grows s s'.
Proof. intros Ha Hl. by apply client_ends; [apply only_send_batch|]. Qed.
Lemma send_stream_kept self to e s r s' :
  agrees s -> rr_data e = content (rr_key e) ->
  ends (client_does self) (send_stream to e) s r s' -> agrees s' /\ grows s s'.
Proof. intros Ha He. by apply client_ends; [apply only_send_stream|]. Qed.

Lemma replicate_loop_stored self to entries batch size s s' :
  agrees s -> Forall (fun e => rr_data e = content (rr_key e)) entries ->
  Forall (fun e => rr_data e = content (rr_key e)) batch ->
  ends (client_does self) (replicate_loop to entries batch size) s (Ok tt) s' ->
  (agrees s' /\ grows s s') /\ all_held to s' (batch ++ entries).
Proof.
  intros Ha He. revert batch size s Ha. induction He as [|e entries Hd He IH]; intros batch size s Ha Hb.
  - cbn. destruct batch as [|b batch]; [by intros [_ ->]; split; [|constructor]|]. intros Hr. rewrite app_nil_r.
    split; [by eapply send_batch_kept; [..|exact Hr]|by eapply Forall_impl; [eapply batch_stored; [..|exact Hr]|]].
  - cbn [replicate_loop]. set (sz := encoded_size (replicate_len e)).
    pose (go := fun (batch : list ReplicateRequest) (batch_size : Z) =>
      if RPC_SIZE_LIMIT <? sz then attempt (send_stream to e) (fun _ => replicate_loop to entries batch batch_size)
      else replicate_loop to entries (batch ++ [e])%list (batch_size + sz)).
    assert (Hgo : forall batch size s, agrees s -> Forall (fun e => rr_data e = content (rr_key e)) batch ->
      ends (client_does self) (go batch size) s (Ok tt) s' -> (agrees s' /\ grows s s') /\ all_held to s' (batch ++ e :: entries)).
    { clear s Ha batch size Hb. intros batch size s Ha Hb. unfold go. destruct (RPC_SIZE_LIMIT <? sz).
      - intros ([] & s1 & H1' & H2')%ends_attempt. pose proof (stream_stored _ _ _ _ _ Ha Hd H1') as Hs.
        destruct (send_stream_kept _ _ _ _ _ _ Ha Hd H1') as [Ha1 Hg1].
        destruct (IH _ _ _ Ha1 Hb H2') as [[Ha2 Hg2] Hall]. split; [split; [done|by trans s1]|].
        apply Forall_app in Hall as [? ?]. apply Forall_app. split; [done|]. constructor; [by intros Hp; eapply holds_grows|done].
      - intros Hr. destruct (IH (batch ++ [e])%list _ s Ha ltac:(apply Forall_app; split; [done|by constructor]) Hr) as [Hk Hall].
        split; [done|]. unfold all_held in *. by rewrite <-app_assoc in Hall. }
    destruct (_ && _); [|by apply Hgo].
    intros ([] & s1 & H1' & H2')%ends_attempt. pose proof (batch_stored _ _ _ _ _ Ha Hb H1') as Hs.
    destruct (send_batch_kept _ _ _ _ _ _ Ha Hb H1') as [Ha1 Hg1].
    destruct (Hgo [] 0 s1 Ha1 ltac:(done) H2') as [[Ha2 Hg2] Hall]. split; [split; [done|by trans s1]|].
    apply Forall_app. split; [|done]. eapply Forall_impl; [exact Hs|]. intros x Hx Hp. by eapply holds_grows.
Qed.

(** ** Pulled payloads are there *)

Definition has (addr : string) (s : Stores) (k : string) : Prop := is_Some (store_at addr s !! k).
Lemma has_grows addr s s' k : pinned k -> grows s s' -> has addr s k -> has addr s' k.
Proof. intros Hp Hg [d Hd]. exists d. by apply Hg. Qed.

Lemma bulk_honest to keys s sent s' :
  ends (node_does to) (stream_bulk_data keys) s sent s' -> Forall (ok_item honest) sent.
Proof.
  revert s sent s'. induction keys as [|k keys IH]; intros s sent s'; [by intros [-> _]|].
  intros (r & s1 & Hr & Hs)%ends_bind. apply (ends_pask _ (StoreGet k)) in Hr as (s0 & [_ Ha] & -> & Hr).
  destruct Hr as [->|[e ->]]; [|by destruct Hs as [-> _]; constructor].
  destruct (store_at to s0 !! k) as [d|] eqn:Hd; [|by destruct Hs as [-> _]; constructor].
  apply ends_bind in Hs as (rest & s2 & Hs & [-> _]). apply Forall_app. split; [|by eapply IH].
  apply Forall_map. apply chunks_honest. by apply Ha in Hd.
Qed.

Lemma receive_stored self stream a pending s pending' s' :
  agrees s -> Forall (ok_item honest) stream -> partial a ->
  ends (client_does self) (receive stream a pending) s (Ok pending') s' ->
  (agrees s' /\ grows s s') /\ forall k, pinned k -> is_Some (pending !! k) -> is_Some (pending' !! k) \/ has self s' k.
Proof.
  intros Ha Hi. revert a pending s Ha. induction Hi as [|i stream Hc Hi IH]; intros a pending s Ha Hp.
  - cbn. destruct (finish a); cbn; intros [[= <-] ->]. split; [done|]. by left.
  - cbn [receive]. intros (c & s1 & [Hic ->] & Hr)%ends_attempt. destruct i as [c'| | |]; try done. cbn in Hic. simplify_eq.
    cbn in Hc. case_bool_decide; cbn [negb] in Hr; [|by destruct Hr].
    destruct (push c' a) as [x a'] eqn:Hpush. destruct (push_honest _ _ _ _ Hc Hp Hpush) as [Ha' Hx].
    apply ends_attempt in Hr as (done_ & s1 & [<- ->] & Hr).
    destruct done_ as [[key data]|]; [|by apply (IH a')]. destruct (Hx key data eq_refl) as [_ ->].
    destruct (pending !! key) as [[size checksum]|] eqn:Hk; [|by destruct Hr].
    destruct (negb _); [by destruct Hr|]. destruct (negb _); [by destruct Hr|].
    apply ends_attempt in Hr as ([] & s1 & Hput & Hr). apply ends_fails, (ends_pask _ (StorePut _ _)) in Hput.
    destruct (client_kept self (StorePut key (content key)) s (Ok tt) s1 eq_refl Ha Hput) as [Ha1 Hg1].
    destruct (IH a' _ _ Ha1 Ha' Hr) as [[Ha2 Hg2] Hall]. split; [split; [done|by trans s1]|].
    intros k Hpin Hpk. destruct (decide (k = key)) as [->|Hne]; [|apply Hall; [done|by rewrite lookup_delete_ne]].
    right. apply (has_grows _ s1); [done..|]. destruct Hput as (s0 & _ & Hput). destruct Hput as [[_ ->]|(e & He & _)]; [|done].
    unfold has. rewrite store_put, decide_True by done. by rewrite lookup_insert_eq.
Qed.

Lemma fetch_stored self addr id requests pending s pending' s' :
  agrees s -> ends (client_does self) (fetch_all addr id requests pending) s (Ok pending') s' ->
  (agrees s' /\ grows s s') /\ forall k, pinned k -> is_Some (pending !! k) -> is_Some (pending' !! k) \/ has self s' k.
Proof.
  revert pending s. induction requests as [|request requests IH]; intros pending s Ha.
  - intros [[= <-] ->]. split; [done|]. by left.
  - intros (stream & s1 & Hc & Hr)%ends_attempt. apply ends_fails, (ends_pask _ (RpcStreamBulkData _ _)) in Hc.
    destruct (client_kept self (RpcStreamBulkData addr (mkSync id request)) s (Ok stream) s1 I Ha Hc) as [Ha1 Hg1].
    destruct Hc as [(e & He & _)|(sent & arrived & Hs & Hd & Heq)]; [done|]. simplify_eq.
    apply ends_attempt in Hr as (pending1 & s2 & Hr1 & Hr2).
    pose proof (delivered_items _ _ _ (bulk_honest _ _ _ _ _ Hs) Hd) as Hitems.
    destruct (receive_stored _ _ None _ _ _ _ Ha1 Hitems I Hr1) as [[Ha2 Hg2] H2'].
    destruct (IH _ _ Ha2 Hr2) as [[Ha3 Hg3] H3']. split; [split; [done|by trans s1; [|trans s2]]|].
    intros k Hp Hk. destruct (H2' k Hp Hk) as [Hk2|Hk2]; [by apply H3'|]. right. by eapply has_grows.
Qed.

Lemma missing_here_covers self manifest pending s pending' s' :
  agrees s -> ends (client_does self) (missing_here manifest pending) s (Ok pending') s' ->
  (agrees s' /\ grows s s') /\ dom pending ⊆ dom pending' /\
  Forall (fun m => pinned m.1.1 -> is_Some (pending' !! m.1.1) \/ has self s' m.1.1) manifest.
Proof.
  revert pending s. induction manifest as [|[[key size] checksum] manifest IH]; intros pending s Ha.
  - intros [[= <-] ->]. by split_and!.
  - intros (there & s1 & Hc & Hr)%ends_attempt. apply ends_fails, (ends_pask _ (StoreContains _)) in Hc.
    destruct (client_kept self (StoreContains key) s (Ok there) s1 I Ha Hc) as [Ha1 Hg1].
    destruct Hc as (s0 & [_ _] & -> & Hc). destruct Hc as [[= ->]|[e He]]; [|done].
    destruct (IH _ _ Ha1 Hr) as [[Ha2 Hg2] [Hdom Hall]]. split; [split; [done|by trans s0]|].
    case_bool_decide as Hin; split; [done| |etrans; [|exact Hdom]; rewrite dom_insert_L; apply union_subseteq_r|].
    + constructor; [|done]. intros Hp. right. by eapply has_grows.
    + constructor; [|done]. intros _. left. apply elem_of_dom, Hdom. cbn. rewrite dom_insert_L. by apply elem_of_union_l, elem_of_singleton.
Qed.

Lemma pushed_stored (self to : string) (entries : list ReplicateRequest) (s s' : Stores) :
  agrees s -> Forall (fun e => rr_data e = content (rr_key e)) entries ->
  ends (client_does self) (replicate_entries to entries) s (Ok tt) s' ->
  agrees s' /\ grows s s' /\ Forall (fun e => pinned (rr_key e) -> store_at to s' !! rr_key e = Some (rr_data e)) entries.
Proof.
  intros Ha He ([] & s1 & Hc & Hr)%ends_attempt. apply ends_fails, (ends_pask _ (OpenChannel _)) in Hc.
  destruct (client_kept self (OpenChannel to) s (Ok tt) s1 I Ha Hc) as [Ha1 Hg1].
  destruct (replicate_loop_stored self to entries [] 0 s1 s' Ha1 He ltac:(done) Hr) as [[Ha2 Hg2] Hall].
  split_and!; [done|by trans s1|done].
Qed.

(** Whether a push succeeds or not, no store loses or changes a payload. *)
Lemma only_push to entries batch size :
  Forall (fun e => rr_data e = content (rr_key e)) entries -> Forall (fun e => rr_data e = content (rr_key e)) batch ->
  only truthful (replicate_loop to entries batch size).
Proof.
  intros He. revert batch size. induction He as [|e entries Hd He IH]; intros batch size Hb.
  - destruct batch; [done|]. by apply only_send_batch.
  - assert (Hgo : forall b z, Forall (fun e => rr_data e = content (rr_key e)) b -> only truthful
      (if RPC_SIZE_LIMIT <? encoded_size (replicate_len e) then attempt (send_stream to e) (fun _ => replicate_loop to entries b z)
       else replicate_loop to entries (b ++ [e])%list (z + encoded_size (replicate_len e)))).
    { intros b z Hb'. destruct (_ <? _); [apply only_attempt; [by apply only_send_stream|by intros _; apply IH]|].
      apply IH, Forall_app. split; [done|by constructor]. }
    cbn [replicate_loop]. destruct (_ && _); [|by apply Hgo]. apply only_attempt; [by apply only_send_batch|]. intros _. by apply Hgo.
Qed.

(** The push of one payload of this node's store. *)
Lemma replicate_stored (self to key : string) (term : Z) s r s' :
  agrees s -> ends (client_does self) (replicate to key term) s r s' ->
  (agrees s' /\ grows s s') /\ (r = Ok tt -> pinned key -> is_Some (store_at to s' !! key)).
Proof.
  intros Ha (data & s1 & Hg & Hr)%ends_bind. apply ends_bind in Hg as (x & s2 & Hg & [-> ->]).
  apply (ends_pask _ (StoreGet key)) in Hg. pose proof (client_kept self (StoreGet key) s x s2 I Ha Hg) as [Ha1 Hg1].
  destruct Hg as (s0 & [_ _] & -> & Hx). destruct Hx as [->|[e ->]]; [|destruct Hr as [-> ->]; by split].
  cbn [map_err] in Hr. destruct (store_at self s0 !! key) as [d|] eqn:Hd; [|destruct Hr as [-> ->]; by split].
  pose proof (Ha1 _ _ _ Hd) as Hc. assert (Hl : Forall (fun e => rr_data e = content (rr_key e)) [mkReplicate key d term]) by by constructor.
  assert (Hk : agrees s' /\ grows s0 s').
  { eapply client_ends; [|done|exact Hr]. apply only_attempt; [by split; [|intros [[]| | |]]|]. intros _. by apply only_push. }
  destruct Hk as [Ha2 Hg2]. split; [split; [done|by trans s0]|]. intros -> Hp.
  destruct (pushed_stored self to _ s0 s' Ha1 Hl Hr) as (_ & _ & Hall). apply Forall_cons in Hall as [Hall _]. eexists. by apply Hall.
Qed.

(** ** Theorems *)

(** A push that succeeds has stored every payload at the other node, whatever was batched,
    cut into chunks, lost or retried on the way; those no task deletes meanwhile are there. *)
Theorem pushed_payloads_stored (self to : string) (entries : list ReplicateRequest) (s s' : Stores) :
  agrees s -> Forall (fun e => rr_data e = content (rr_key e)) entries ->
  ends (client_does self) (replicate_entries to entries) s (Ok tt) s' ->
  agrees s' /\ grows s s' /\ Forall (fun e => pinned (rr_key e) -> store_at to s' !! rr_key e = Some (rr_data e)) entries.
Proof. apply pushed_stored. Qed.

End Stores.

Section Bounds.
Context `{Crc, ProstLen}.

Fixpoint batch_size (l : list ReplicateRequest) : Z :=
  match l with [] => 0 | e :: l => encoded_size (replicate_len e) + batch_size l end.
Lemma batch_size_app l k : batch_size (l ++ k) = batch_size l + batch_size k.
Proof. induction l as [|e l IH]; [done|]. cbn. rewrite IH. lia. Qed.

(** A call stays within the limits of the transport. *)
Definition fits (o : pop) : Prop :=
  match o with
  | RpcReplicateBatch _ l => l <> [] /\ batch_size l <= RPC_SIZE_LIMIT
  | RpcReplicateStream _ l => Forall (fun c => zlen (bc_data c) <= CHUNK_SIZE) l
  | _ => True
  end.

Lemma chunks_fit key data : Forall (fun c => zlen (bc_data c) <= CHUNK_SIZE) (chunks key data).
Proof.
  unfold chunks. apply Forall_map, Forall_true. intros o. cbn [bc_data chunk_at]. unfold zlen. rewrite length_take.
  pose proof CHUNK_pos. lia.
Qed.
Lemma send_batch_fits addr l : l <> [] -> batch_size l <= RPC_SIZE_LIMIT -> only fits (send_batch addr l).
Proof. intros ? ?. split; [done|]. by intros [[]| | |]. Qed.

Lemma replicate_loop_fits addr entries batch :
  batch_size batch <= RPC_SIZE_LIMIT -> only fits (replicate_loop addr entries batch (batch_size batch)).
Proof.
  revert batch. induction entries as [|e entries IH]; intros batch Hb.
  - cbn. destruct batch; [done|]. by apply send_batch_fits.
  - cbn [replicate_loop]. set (sz := encoded_size (replicate_len e)).
    assert (Hgo : forall batch, batch_size batch <= RPC_SIZE_LIMIT ->
      (sz <= RPC_SIZE_LIMIT -> batch_size batch + sz <= RPC_SIZE_LIMIT) ->
      only fits (if RPC_SIZE_LIMIT <? sz then attempt (send_stream addr e) (fun _ => replicate_loop addr entries batch (batch_size batch))
       else replicate_loop addr entries (batch ++ [e])%list (batch_size batch + sz))).
    { clear batch Hb. intros batch Hb Hsum. destruct (Z.ltb_spec RPC_SIZE_LIMIT sz).
      - apply only_attempt; [|by intros _; apply IH]. split; [apply chunks_fit|]. by intros [[]| | |].
      - assert (Heq : batch_size (batch ++ [e])%list = batch_size batch + sz) by (rewrite batch_size_app; cbn; lia).
        rewrite <-Heq. apply IH. rewrite Heq. auto. }
    destruct (Z.ltb_spec RPC_SIZE_LIMIT (batch_size batch + sz)) as [Hover|Hfit]; [|by apply Hgo].
    destruct batch as [|b batch]; [apply (Hgo []); [done|cbn [batch_size]; lia]|]. cbn [andb negb].
    assert (Hne : (zlen (b :: batch) =? 0) = false) by (apply Z.eqb_neq; rewrite zlen_cons; pose proof (zlen_nonneg batch); lia).
    rewrite Hne. cbn [negb]. apply only_attempt; [by apply send_batch_fits|]. intros _. apply (Hgo []); [done|cbn [batch_size]; lia].
Qed.

(** C35: whatever is pushed, a batch is below the limit of a message and a large payload goes in
    chunks of at most a megabyte. *)
Theorem pushes_fit (addr : string) (entries : list ReplicateRequest) : only fits (replicate_entries addr entries).
Proof. apply only_attempt; [by split; [|intros [[]| | |]]|]. intros _. by apply (replicate_loop_fits addr entries []). Qed.

(** The chunks of a payload, received in order, are the payload; fewer of them are not yet a
    payload and are told apart from one. *)
Theorem chunks_reassembled (key : string) (data : bytes) :
  receive_upload (map Ok (chunks key data)) None None = Ok (None, Some (key, data)) /\
  forall k r, (k < length (chunks key data))%nat ->
    receive_upload (map Ok (take k (chunks key data))) None None = Ok r -> r.2 = None /\ (k = 0%nat \/ finish r.1 <> Ok tt).
Proof.
  pose proof (chunk_count_pos data) as Hn. rewrite chunks_seq. split.
  - rewrite <-(Z2Nat.id (chunk_count data)) at 1 by lia. by apply (receive_chunks key data 0); lia.
  - intros k r Hk. rewrite length_map, length_seqZ in Hk.
    replace (chunk_count data) with (Z.of_nat k + (chunk_count data - Z.of_nat k)) by lia.
    rewrite seqZ_app, map_app, take_app_length' by (rewrite ?length_map, ?length_seqZ; lia).
    rewrite (receive_prefix key data 0) by lia. intros [= <-]. split; [done|]. unfold assembled. cbn.
    destruct k; [by left|right]. by rewrite (proj2 (Z.eqb_neq _ 0)) by lia.
Qed.
End Bounds.

(** ** Examples *)

Module PayloadSample.
#[local] Instance crc : Crc := fun d => foldr Z.add 7 d.
#[local] Instance lens : ProstLen := {|
  replicate_len e := zlen (rr_data e) + 10; sync_len _ := 40; length_delimiter_len n := if n <? 128 then 1 else 2;
|}.
#[local] Instance tonic : Tonic := {| ascii_value := visible; received s := s; status_display := s_message |}.
Definition content (k : string) : bytes := if decide (k = "k1") then [1; 2; 3] else [].
Definition stores : Stores := {["a" := {["k1" := [1; 2; 3]]}]}.
(** Other tasks may delete anything but [k1]. *)
#[local] Instance pins : Pinned := fun k => k = "k1".

Lemma stores_agree : agrees content stores.
Proof.
  intros addr k d. unfold store_at, stores. destruct (decide (addr = "a")) as [->|Hne].
  - rewrite lookup_singleton_eq. cbn. intros [<- <-]%lookup_singleton_Some. done.
  - rewrite lookup_singleton_ne by done. cbn. by rewrite lookup_empty.
Qed.
Lemma idle s : agrees content s -> others content s s.
Proof. by split. Qed.
Lemma put_agrees : agrees content (put "b" "k1" [1; 2; 3] stores).
Proof. apply (put_kept content "b" "k1" stores stores_agree). Qed.

Definition entry : ReplicateRequest := mkReplicate "k1" [1; 2; 3] 4.

Lemma pushed_payloads_stored_witness :
  ends (client_does content "a") (replicate_entries "b" [entry]) stores (Ok tt) (put "b" "k1" [1; 2; 3] stores) /\
  store_at "b" (put "b" "k1" [1; 2; 3] stores) !! "k1" = Some [1; 2; 3].
Proof.
  assert (Hrun : ends (client_does content "a") (replicate_entries "b" [entry]) stores (Ok tt) (put "b" "k1" [1; 2; 3] stores)).
  { exists (Ok tt), stores. split; [exists stores; split; [apply idle, stores_agree|done]|].
    exists (Ok true), (put "b" "k1" [1; 2; 3] stores). split; [|done]. right. exists (Ok true). split; [|by left].
    exists (Ok tt), (put "b" "k1" [1; 2; 3] stores). split; [|done]. exists stores.
    split; [apply idle, stores_agree|by left]. }
  split; [exact Hrun|].
  destruct (pushed_payloads_stored content "a" "b" [entry] stores (put "b" "k1" [1; 2; 3] stores)) as (_ & _ & Hall).
  - apply stores_agree.
  - by constructor.
  - exact Hrun.
  - apply Forall_cons in Hall as [Hall _]. by apply Hall.
Defined.


Lemma chunks_reassembled_witness : receive_upload (map Ok (chunks "k" [5; 6])) None None = Ok (None, Some ("k", [5; 6])).
Proof. apply (chunks_reassembled "k" [5; 6]). Defined.
End PayloadSample.
