(* ===== verification/RaftNetwork.v ===== *)
(** * Log entries between nodes ([broker/src/raft/session_state/raft_network_impl.rs],
    [broker/src/rpc/raft_service.rs])

    Entries of the session states' log name payloads.  The leader pushes the payloads of
    the entries to a node before it sends the entries, and the service there looks for the
    payloads again before it gives the entries to the node's Raft. *)

From S2P Require Import Prelude GrpcStatus RaftLog SessionState RaftSession Program Traces Payload PayloadSync.

#[local] Open Scope string_scope.
#[local] Open Scope Z_scope.
#[local] Open Scope prog_scope.

(** [AppendEntriesRequest]: its entries, and the vote and log positions, which only pass through. *)
Record AppendRequest (Rest : Type) := mkAppend { ae_entries : list RaftSession.Entry; ae_rest : Rest }.
Arguments mkAppend {Rest}.
Arguments ae_entries {Rest}.
Arguments ae_rest {Rest}.

(** [openraft]'s [RPCError]. *)
Inductive RPCError := Unreachable (e : string) | NetworkError (e : string).

(** ** Operations *)

Inductive nop (Rest : Type) :=
  | Pay (o : pop)                                                  (* payloads *)
  | WithTimeout (secs : Z)                                         (* how many calls end in time *)
  | RaftChannel (addr : string)
  | RpcAppendEntries (addr data : string)
  | Sleep
  | SendAppend (payload : AppendRequest Rest).                     (* to this node's actor *)
Arguments Pay {Rest}.
Arguments WithTimeout {Rest}.
Arguments RaftChannel {Rest}.
Arguments RpcAppendEntries {Rest}.
Arguments Sleep {Rest}.
Arguments SendAppend {Rest}.

Section Network.
Context {Rest Response : Type}.
Context `{Crc, ProstLen, Tonic, Prost ErrorDetail} `{Serde string (AppendRequest Rest), Serde string Response}.

Definition nres (o : nop Rest) : Type :=
  match o with
  | Pay o => pres o
  | WithTimeout _ => option nat
  | RaftChannel _ => outcome string unit
  | RpcAppendEntries _ _ => outcome Status string
  | Sleep => unit
  | SendAppend _ => outcome string (outcome string Response)
  end.
Abbreviation nprog := (prog (nop Rest) nres).
Definition nask (o : nop Rest) : nprog (nres o) := invoke o.

Fixpoint pay {A} (p : pprog A) : nprog A :=
  match p with
  | Ret a => Ret a
  | Do o k => Do (O := nop Rest) (R := nres) (Pay o) (fun r => pay (k r))
  end.

(** [tokio::time::timeout]: a future that is not done after the calls that end in time is dropped. *)
Fixpoint within {A} (calls : option nat) (p : nprog A) : nprog (option A) :=
  match p with
  | Ret a => Ret (Some a)
  | Do o k =>
      match calls with
      | Some O => Ret None
      | Some (S n) => Do o (fun r => within (Some n) (k r))
      | None => Do o (fun r => within None (k r))
      end
  end.

(** ** The leader's side *)

Definition map_grpc_status (status : Status) : RPCError :=
  if decide (s_code status = Unavailable) then Unreachable (status_display status) else NetworkError (status_display status).

Definition map_grpc_response {A} (resp : outcome Status A) : outcome RPCError A := map_err map_grpc_status resp.

(** The end of [append_entries]: the entries are sent. *)
Definition append_log (addr : string) (req : AppendRequest Rest) : nprog (outcome RPCError Response) :=
  _ <-? fails_with Unreachable (nask (RaftChannel addr));
  data <-? Ret (match to_vec req with Ok data => Ok data | _ => Panic end);   (* [into_request] expects it *)
  resp ← nask (RpcAppendEntries addr data);
  data <-? Ret (map_grpc_response resp);
  Ret (map_err NetworkError (from_slice data)).

(** The payloads of the entries, from the leader's own store. *)
Fixpoint prepare_batch (entries : list RaftSession.Entry) (batch : list ReplicateRequest) (total_size : Z)
    : nprog (outcome RPCError (list ReplicateRequest * Z)) :=
  match entries with
  | [] => Ret (Ok (batch, total_size))
  | entry :: entries =>
      match entry_key entry with
      | None => prepare_batch entries batch total_size
      | Some k =>
          r ← nask (Pay (StoreGet k));
          match r with
          | Ok (Some data) =>
              prepare_batch entries (batch ++ [mkReplicate k data (e_term entry)])%list (total_size + zlen data)
          | Ok None => Ret (Err (NetworkError ("Critical: Leader missing payload for key: " +:+ k)))
          | Err e => Ret (Err (NetworkError (payload_error_display e)))
          | Panic => Ret Panic
          | OutOfFuel => Ret OutOfFuel
          end
      end
  end.

Definition client_error_display (e : PayloadClientError) : string :=
  match e with
  | ClientGRPC status => "gRPC error: " +:+ status_display status
  | ClientConnect e => "gRPC connect error: " +:+ e
  | ClientPayloadError e => "local payload error: " +:+ e
  | PayloadNotFound => "payload not found on the remote node"
  end.

(** Five seconds and a millisecond per kilobyte, in milliseconds. *)
Definition push_timeout (total_size : Z) : Z := 5000 + total_size / 1024.

Definition push_batch (addr : string) (batch : list ReplicateRequest) (total_size : Z) : nprog (outcome RPCError unit) :=
  calls ← nask (WithTimeout (push_timeout total_size));
  r ← within calls (pay (replicate_entries addr batch));
  Ret (match r with
       | None => Err (NetworkError "deadline has elapsed")
       | Some r => map_err (fun e => NetworkError (client_error_display e)) r
       end).

(** [RaftNetwork::append_entries]: a heartbeat is sent at once. *)
Definition append_entries (addr : string) (req : AppendRequest Rest) : nprog (outcome RPCError Response) :=
  match ae_entries req with
  | [] => append_log addr req
  | entries =>
      b <-? prepare_batch entries [] 0;
      _ <-? match b.1 with [] => Ret (Ok tt) | batch => push_batch addr batch b.2 end;
      append_log addr req
  end.

(** ** The service *)

(** The tries of [store.contains(k)]; what is not [Ok(true)] waits ten milliseconds. *)
Fixpoint look_for (tries : nat) (k : string) : nprog bool :=
  match tries with
  | O => Ret false
  | S tries =>
      r ← nask (Pay (StoreContains k));
      match r with
      | Ok true => Ret true
      | _ => _ ← nask Sleep; look_for tries k
      end
  end.

Fixpoint intercept (entries : list RaftSession.Entry) : nprog (outcome Status unit) :=
  match entries with
  | [] => Ret (Ok tt)
  | entry :: entries =>
      match entry_key entry with
      | None => intercept entries
      | Some k =>
          found ← look_for 50 k;
          if (found : bool) then intercept entries
          else Ret (Err (not_ready_status
            ("Payload missing for key: " +:+ k +:+ " after retry (AppendEntries). RPC aborted.")))
      end
  end.

(** [RaftService::append_entries] for the session states. *)
Definition service_append_entries (data : string) : nprog (outcome Status string) :=
  payload <-? Ret (map_err (fun e => invalid_argument_status ("Invalid JSON data: " +:+ e) "raft_service")
                     (from_slice (A := AppendRequest Rest) data));
  _ <-? intercept (ae_entries payload);
  res <-? fails_with (fun e => status_new Internal ("Append entries to session state raft error " +:+ e))
            (nask (SendAppend payload));
  res <-? Ret (map_err (status_new Internal) res);
  Ret (map_err (fun e => status_new Internal ("Failed to serialize response: " +:+ e)) (to_vec (res : Response))).

(** ** Nodes *)

(** The stores, and the entries each node's Raft was given. *)
Record Nodes := mkNodes { stores : Stores; appended : gmap string (list RaftSession.Entry) }.
Definition appended_at (addr : string) (s : Nodes) : list RaftSession.Entry := default [] (appended s !! addr).

Context (content : string -> bytes) `{Pinned}.

(** An operation at the node at [self]; a call to another node's service is answered in any
    way, which may have run it. *)
Definition net_does (self : string) (o : nop Rest) (s : Nodes) : nres o -> Nodes -> Prop :=
  match o return nres o -> Nodes -> Prop with
  | Pay o => fun r s' => client_does content self o (stores s) r (stores s') /\ appended s' = appended s
  | SendAppend payload => fun r s' =>
      stores s' = stores s /\
      (appended s' = appended s \/ appended s' = <[self := appended_at self s ++ ae_entries payload]> (appended s))%list
  | _ => fun _ s' => s' = s
  end.

(** ** What holds *)

Definition wf (s : Nodes) : Prop := agrees content (stores s).
(** Every entry a node's Raft was given has its payload in the node's store, unless it may be
    deleted meanwhile. *)
Definition backed (s : Nodes) : Prop :=
  forall addr ent k, ent ∈ appended_at addr s -> entry_key ent = Some k -> pinned k -> has addr (stores s) k.
(** Of the stores, no pinned payload is lost. *)
Definition later (s s' : Nodes) : Prop := grows (stores s) (stores s').

#[local] Instance later_preorder : PreOrder later.
Proof. split; [by intros s addr|]. intros s1 s2 s3 H1' H2'. unfold later in *. by trans (stores s2). Qed.

Lemma ends_pay {A} self (p : pprog A) s a s' :
  ends (net_does self) (pay p) s a s' ->
  ends (client_does content self) p (stores s) a (stores s') /\ appended s' = appended s.
Proof.
  revert s. induction p as [b|o k IH]; intros s.
  - by intros [-> ->].
  - intros (r & s1 & [Hd Heq] & He). apply IH in He as [He Happ]. split; [|by rewrite Happ]. by exists r, (stores s1).
Qed.
Lemma ends_within {A} self calls (p : nprog A) s a s' :
  ends (net_does self) (within calls p) s (Some a) s' -> ends (net_does self) p s a s'.
Proof.
  revert calls s. induction p as [b|o k IH]; intros calls s.
  - by intros [[= ->] ->].
  - destruct calls as [[|n]|]; [by intros [? _]|..]; intros (r & s1 & Hd & He); exists r, s1; eauto.
Qed.

Lemma ends_nask self (o : nop Rest) s r s' : ends (net_does self) (nask o) s r s' -> net_does self o s r s'.
Proof. apply ends_invoke. Qed.

(** The payloads collected are the leader's, one for each entry that has a key. *)
Lemma prepare_batch_spec self entries batch total s b total' s' :
  wf s -> ends (net_does self) (prepare_batch entries batch total) s (Ok (b, total')) s' ->
  Forall (fun e => rr_data e = content (rr_key e)) batch ->
  wf s' /\ later s s' /\ Forall (fun e => rr_data e = content (rr_key e)) b /\
  (forall e, e ∈ batch -> e ∈ b) /\
  forall ent k, ent ∈ entries -> entry_key ent = Some k -> exists e, e ∈ b /\ rr_key e = k.
Proof.
  revert batch total s. induction entries as [|entry entries IH]; intros batch total s Hw.
  - intros [[= -> ->] ->] Hb. split_and!; [done..|]. intros ? ? []%not_elem_of_nil.
  - cbn [prepare_batch]. destruct (entry_key entry) as [k|] eqn:Hk.
    + intros (r & s1 & Hr & He)%ends_bind Hb. apply (ends_nask self (Pay (StoreGet k))) in Hr as [Hr Happ].
      destruct (client_kept content self (StoreGet k) _ r _ I Hw Hr) as [Hw1 Hg1].
      destruct Hr as (s0 & [_ Ha] & Hs0 & [->|[e ->]]); [|by destruct He].
      destruct (store_at self s0 !! k) as [data|] eqn:Hd; [|by destruct He].
      destruct (IH _ _ _ Hw1 He) as (? & ? & ? & Hsub & Hall).
      { apply Forall_app. split; [done|]. constructor; [|done]. by apply (Ha self). }
      split_and!; [done|by trans s1|done|set_solver|].
      intros ent k' [->|Hin]%elem_of_cons Hk'; [|by eapply Hall]. exists (mkReplicate k data (e_term entry)).
      split; [apply Hsub; set_solver|]. cbn. congruence.
    + intros He Hb. destruct (IH _ _ _ Hw He Hb) as (? & ? & ? & ? & Hall). split_and!; [done..|].
      intros ent k [->|Hin]%elem_of_cons Hk'; [congruence|by eapply Hall].
Qed.

(** The calls that send the entries leave this node's view of the stores as it is. *)
Definition sends (o : nop Rest) : Prop := match o with RaftChannel _ | RpcAppendEntries _ _ => True | _ => False end.
Lemma append_log_sends addr req : only sends (append_log addr req).
Proof.
  split; [done|]. intros [[]| | |]; try done. cbn. destruct (to_vec req); try done. split; [done|]. by intros [| | |].
Qed.
Lemma append_log_keeps self addr req s r s' : ends (net_does self) (append_log addr req) s r s' -> s' = s.
Proof.
  intros He. refine (proj2 (ends_inv _ (fun _ => True) (fun s s' => s' = s) sends _ s r s' _ _ (append_log_sends addr req) I He)).
  - split; [done|]. congruence.
  - intros [] s1 x s2 Ho _ Hd; done.
Qed.

Lemma look_for_spec self tries k s b s' :
  wf s -> ends (net_does self) (look_for tries k) s b s' ->
  wf s' /\ later s s' /\ appended s' = appended s /\ (b = true -> has self (stores s') k).
Proof.
  revert s. induction tries as [|tries IH]; intros s Hw; [by intros [-> ->]|].
  intros (r & s1 & Hr & He)%ends_bind. apply (ends_nask self (Pay (StoreContains k))) in Hr as [Hr Happ].
  destruct (client_kept content self (StoreContains k) _ r _ I Hw Hr) as [Hw1 Hg1].
  assert (Hretry : ends (net_does self) (_ ← nask Sleep; look_for tries k) s1 b s' ->
    wf s' /\ later s s' /\ appended s' = appended s /\ (b = true -> has self (stores s') k)).
  { intros (u & s2 & Hs & Hl)%ends_bind. apply (ends_nask self Sleep) in Hs. cbn in Hs. subst s2.
    destruct (IH _ Hw1 Hl) as (? & ? & ? & ?). split_and!; [done|by trans s1|congruence|done]. }
  destruct r as [[]| | |]; try (by apply Hretry). destruct He as [_ ->]. split_and!; [done..|]. intros _.
  destruct Hr as (s0 & _ & -> & [Hr|[e He]]); [|done]. injection Hr as Hr. symmetry in Hr. by apply bool_decide_eq_true in Hr.
Qed.

Lemma intercept_found self entries s r s' :
  wf s -> ends (net_does self) (intercept entries) s r s' ->
  wf s' /\ later s s' /\ appended s' = appended s /\
  (r = Ok tt -> forall ent k, ent ∈ entries -> entry_key ent = Some k -> pinned k -> has self (stores s') k).
Proof.
  revert s. induction entries as [|entry entries IH]; intros s Hw.
  - intros [-> ->]. split_and!; [done..|]. intros _ ? ? []%not_elem_of_nil.
  - cbn [intercept]. destruct (entry_key entry) as [k|] eqn:Hk.
    + intros (found & s1 & Hl & He)%ends_bind. destruct (look_for_spec _ _ _ _ _ _ Hw Hl) as (Hw1 & Hg1 & Happ1 & Hhas).
      destruct found; [|destruct He as [-> ->]; by split_and!].
      specialize (Hhas eq_refl).
      destruct (IH _ Hw1 He) as (? & Hg2 & ? & Hall). split_and!; [done|by trans s1|congruence|].
      intros Hok ent k' [->|Hin]%elem_of_cons Hk' Hp; [|by eapply Hall]. simplify_eq. by eapply has_grows.
    + intros He. destruct (IH _ Hw He) as (? & ? & ? & Hall). split_and!; [done..|].
      intros Hok ent k [->|Hin]%elem_of_cons Hk' Hp; [congruence|by eapply Hall].
Qed.

(** ** Theorems *)

(** C31: when a leader's call to append entries at a node succeeds, the payloads of the entries
    are in that node's store, but for those another task deletes meanwhile. *)
Theorem payloads_before_entries (self addr : string) (req : AppendRequest Rest) (s s' : Nodes) (resp : Response) :
  wf s -> ends (net_does self) (append_entries addr req) s (Ok resp) s' ->
  forall ent k, ent ∈ ae_entries req -> entry_key ent = Some k -> pinned k -> store_at addr (stores s') !! k = Some (content k).
Proof.
  intros Hw He ent k Hin Hk Hpin. unfold append_entries in He.
  destruct (ae_entries req) as [|e0 entries] eqn:Hreq; [by apply not_elem_of_nil in Hin|]. rewrite <-Hreq in *.
  apply ends_attempt in He as ([batch total] & s1 & Hb & He).
  destruct (prepare_batch_spec _ _ _ _ _ _ _ _ Hw Hb ltac:(done)) as (Hw1 & Hg1 & Htrue & _ & Hall).
  destruct (Hall ent k Hin Hk) as (e & Hine & <-). cbn [fst snd] in He.
  apply ends_attempt in He as ([] & s2 & Hp & Hlog). apply append_log_keeps in Hlog as ->.
  destruct batch as [|b batch]; [by apply not_elem_of_nil in Hine|].
  apply ends_bind in Hp as (calls & s3 & Ht & Hp). apply (ends_nask self (WithTimeout _)) in Ht. cbn in Ht. subst s3.
  apply ends_bind in Hp as ([r|] & s3 & Hr & [Hok ->]); [|done]. destruct r as [[]| | |]; try done.
  apply ends_within, ends_pay in Hr as [Hr _].
  apply pushed_stored in Hr as (_ & _ & Hst); [|done|done]. rewrite Forall_forall in Hst.
  rewrite (Hst _ Hine Hpin). f_equal. rewrite Forall_forall in Htrue. by apply Htrue.
Qed.

(** C11: whatever a service is sent, a node's Raft is given only entries whose payloads are in
    the node's store, but for those another task deletes meanwhile. *)
Theorem appended_entries_backed (self data : string) (s s' : Nodes) (r : outcome Status string) :
  wf s -> backed s -> ends (net_does self) (service_append_entries data) s r s' -> wf s' /\ backed s'.
Proof.
  intros Hw Hback (x & s1 & [-> ->] & He)%ends_bind.
  destruct (from_slice data) as [payload| | |]; try (by destruct He as [_ ->]).
  cbn [map_err] in He. apply ends_bind in He as (x & s2 & Hi & He).
  destruct (intercept_found _ _ _ _ _ Hw Hi) as (Hw2 & Hg2 & Happ2 & Hfound).
  assert (Hback2 : backed s2).
  { intros addr ent k. unfold appended_at. rewrite Happ2. intros Hin Hk Hp. eapply has_grows; [done|exact Hg2|]. by eapply Hback. }
  destruct x as [[]| | |]; try (by destruct He as [_ ->]). specialize (Hfound eq_refl).
  apply ends_bind in He as (y & s3 & Hs & He). apply ends_bind in Hs as (z & s4 & Hs & [-> ->]).
  apply (ends_nask self (SendAppend payload)) in Hs as [Hst Happ].
  assert (Hfinal : wf s4 /\ backed s4).
  { split; [unfold wf; by rewrite Hst|]. intros addr ent k. unfold appended_at. rewrite Hst.
    destruct Happ as [Happ|Happ]; rewrite Happ; [by apply Hback2|].
    destruct (decide (addr = self)) as [->|Hne]; [|rewrite lookup_insert_ne by done; by apply Hback2].
    rewrite lookup_insert_eq. intros [Hin|Hin]%elem_of_app Hk Hp; [by eapply Hback2|by eapply Hfound]. }
  destruct z as [[]| | |]; by destruct He as [_ ->].
Qed.
End Network.

(** ** Examples *)

Module NetworkSample.
Import PayloadSample.
#[local] Existing Instance PayloadSample.crc.
#[local] Existing Instance PayloadSample.lens.
#[local] Existing Instance PayloadSample.tonic.
#[local] Existing Instance PayloadSample.pins.
#[local] Instance prost : Prost ErrorDetail := {| encode_to_vec _ := []; prost_decode _ := Err "no detail" |}.

Definition entry : RaftSession.Entry := RaftSession.mkEntry 1 1 (RaftSession.Normal (AppendToPendingQueue "t" "c" "k1")).
Definition request : AppendRequest unit := mkAppend [entry] tt.
#[local] Instance request_serde : Serde string (AppendRequest unit) := {| to_vec _ := Ok "request"; from_slice _ := Ok request |}.
#[local] Instance response_serde : Serde string unit := {| to_vec _ := Ok "done"; from_slice _ := Ok tt |}.

Definition before : Nodes := mkNodes PayloadSample.stores ∅.
Definition after : Nodes := mkNodes (put "b" "k1" [1; 2; 3] PayloadSample.stores) ∅.

Lemma sent : ends (net_does (Response := unit) content "a") (append_entries "b" request) before (Ok tt) after.
Proof.
  exists (Ok (Some [1; 2; 3])), before. split.
  { split; [|done]. exists PayloadSample.stores. split; [apply idle, stores_agree|]. by split; [|left]. }
  exists None, before. split; [done|].
  exists (Ok tt), before. split.
  { split; [|done]. exists PayloadSample.stores. split; [apply idle, stores_agree|done]. }
  exists (Ok true), after. split.
  { split; [|done]. right. exists (Ok true). split; [|by left]. exists (Ok tt), (put "b" "k1" [1; 2; 3] PayloadSample.stores).
    split; [|done]. exists PayloadSample.stores. split; [apply idle, stores_agree|by left]. }
  exists (Ok tt), after. split; [done|]. exists (Ok "done"), after. by split.
Qed.

Lemma payloads_before_entries_witness : store_at "b" (RaftNetwork.stores after) !! "k1" = Some (content "k1").
Proof.
  apply (payloads_before_entries (Response := unit) content "a" "b" request before after tt) with entry.
  - apply stores_agree.
  - apply sent.
  - by left.
  - reflexivity.
  - reflexivity.
Defined.

Definition given : Nodes := mkNodes (RaftNetwork.stores after) {["b" := [entry]]}.

Lemma looked n : ends (net_does (Rest := unit) (Response := unit) content "b") (look_for (S n) "k1") after true after.
Proof.
  exists (Ok true), after. split; [|done]. split; [|done]. exists (RaftNetwork.stores after).
  split; [apply idle, put_agrees|]. by split; [|left].
Qed.
Lemma intercepted : ends (net_does (Rest := unit) (Response := unit) content "b") (intercept [entry]) after (Ok tt) after.
Proof. eapply ends_then; [apply looked|done]. Qed.
Lemma taken : ends (net_does (Rest := unit) (Response := unit) content "b") (service_append_entries "request") after (Ok "done") given.
Proof.
  unfold service_append_entries. cbn [from_slice request_serde map_err].
  apply (ends_then _ (Ret (Ok request)) _ after (Ok request) after); [done|]. eapply ends_then; [apply intercepted|].
  exists (Ok (Ok tt)), given. split; [|done]. split; [done|]. by right.
Qed.

Lemma appended_entries_backed_witness : wf content given /\ backed given.
Proof.
  apply (appended_entries_backed (Rest := unit) (Response := unit) content "b" "request" after given (Ok "done")).
  - apply put_agrees.
  - intros addr ent k Hin. by apply not_elem_of_nil in Hin.
  - apply taken.
Defined.
End NetworkSample.
