(* ===== verification/RaftActor.v ===== *)
(** * The actors of the Raft groups: what they have in common
    ([broker/src/raft/session_actor_map/session_actor_map_raft_actor.rs],
    [session_state/session_state_raft_actor.rs], [topic/topic_raft_actor.rs])

    Each group of the cluster (topics, session registry, session states) has an actor per
    node that holds the node's handle on [openraft].  The actor is initializing until the
    handle exists, then running or failed; a request that arrives before it runs is
    answered by an error and may also be kept.  The three actors have their own requests
    and errors; this file has the states, the two ways a handler looks at them, and what
    [openraft] answers. *)

From S2P Require Import Prelude GrpcStatus RaftLog Program.

#[local] Open Scope string_scope.
#[local] Open Scope Z_scope.

(** [ActorState]. *)
Inductive ActorState (E : Type) := Initializing | Running | Failed (e : E) | Stopped.
Arguments Initializing {E}.
Arguments Running {E}.
Arguments Failed {E} e.
Arguments Stopped {E}.

(** The fields the three actors share: whether the cell of the handle is set, the settings,
    the state, the kept messages, and whether the cell of the storage is set. *)
Record RaftActor (E Msg : Type) := mkRaftActor {
  ra_raft : option unit;
  ra_settings : option (gmap Z Node);   (* [settings.cluster.nodes] by id *)
  ra_state : ActorState E;
  ra_pending : list Msg;
  ra_storage : option unit;
}.
Arguments mkRaftActor {E Msg}.
Arguments ra_raft {E Msg}.
Arguments ra_settings {E Msg}.
Arguments ra_state {E Msg}.
Arguments ra_pending {E Msg}.
Arguments ra_storage {E Msg}.

Definition default_actor {E Msg} : RaftActor E Msg := mkRaftActor None None Initializing [] None.
(** [self.pending_messages.push(msg)]. *)
Definition keep {E Msg} (m : Msg) (a : RaftActor E Msg) : RaftActor E Msg :=
  mkRaftActor (ra_raft a) (ra_settings a) (ra_state a) (ra_pending a ++ [m]) (ra_storage a).

(** A failed write or linearizable read of [openraft]: sent elsewhere, or anything else, of
    which the text is used. *)
Inductive RaftFault := ForwardToLeader (leader_node : option Node) | OtherFault (text : string).

Record ClientWriteResponse (D : Type) := mkWritten { cw_log_id : LogId; cw_data : D }.
Arguments mkWritten {D}.
Arguments cw_log_id {D}.
Arguments cw_data {D}.

(** The messages and reports of [openraft] that only pass through. *)
Class Openraft := {
  AppendEntriesRequest : Type; AppendEntriesResponse : Type;
  InstallSnapshotRequest : Type; InstallSnapshotResponse : Type;
  VoteRequest : Type; VoteResponse : Type;
  RaftMetrics : Type;
  membership_nodes : RaftMetrics -> list (Z * Node);   (* [membership_config.nodes()] *)
}.

(** The errors of an actor, as far as the guards use them. *)
Class ActorErrors (E : Type) := {
  err_not_ready : string -> E;
  err_unavailable : string -> E;
  err_not_initialized : E;
  err_display : E -> string;
}.

Section Guards.
Context {E Msg : Type} `{ActorErrors E} {O : Type} {R : O -> Type} {A : Type}.
Implicit Types (a : RaftActor E Msg).
Abbreviation answer := (prog O R (outcome E A)).

(** While it initializes, an actor answers that it is not ready, and keeps the message or not. *)
Definition initializing (kept : option Msg) a : RaftActor E Msg * answer :=
  (match kept with Some m => keep m a | None => a end, Ret (Err (err_not_ready "Initializing"))).

(** A request of the broker: a failed actor is unavailable. *)
Definition serving (kept : option Msg) a (running : answer) : RaftActor E Msg * answer :=
  match ra_state a with
  | Initializing => initializing kept a
  | Running => (a, running)
  | Failed e => (a, Ret (Err (err_unavailable (err_display e))))
  | Stopped => (a, Ret (Err (err_not_ready "Actor is stopped")))
  end.
(** A request of the group itself: a failed actor repeats its error. *)
Definition replicating (kept : option Msg) a (running : answer) : RaftActor E Msg * answer :=
  match ra_state a with
  | Initializing => initializing kept a
  | Running => (a, running)
  | Failed e => (a, Ret (Err e))
  | Stopped => (a, Ret (Err (err_not_ready "Stopped")))
  end.

(** [if let Some(raft_instance) = raft.get() { .. } else { Err(e) }]. *)
Definition with_raft a (e : E) (p : answer) : answer :=
  match ra_raft a with Some _ => p | None => Ret (Err e) end.
Definition with_storage a (p : answer) : answer :=
  match ra_storage a with Some _ => p | None => Ret (Err err_not_initialized) end.
End Guards.

(** [InitializationComplete]: the cells are set once; the messages that were kept and that
    [replayed] selects are sent to the actor again, the others are dropped. *)
Definition initialization_complete {E Msg} (replayed : Msg -> bool) (result : outcome E unit) (a : RaftActor E Msg)
    : RaftActor E Msg * list Msg :=
  match result with
  | Ok _ => (mkRaftActor (Some tt) (ra_settings a) Running [] (Some tt), List.filter replayed (ra_pending a))
  | Err e => (mkRaftActor (ra_raft a) (ra_settings a) (Failed e) (ra_pending a) (ra_storage a), [])
  | _ => (a, [])
  end.
(** [Initialize]: the settings are kept and initialization is started. *)
Definition initialize {E Msg} (nodes : gmap Z Node) (a : RaftActor E Msg) : RaftActor E Msg :=
  mkRaftActor (ra_raft a) (Some nodes) (ra_state a) (ra_pending a) (ra_storage a).

(** [nodes_iter.find(|node| *node.0 == current_leader_node_id)]. *)
Definition find_node (nodes : list (Z * Node)) (id : Z) : option Node :=
  list_find (fun n => n.1 = id) nodes ≫= fun ix => Some ix.2.2.
