(* ===== verification/SessionMapRaft.v ===== *)
(** * The actor of the session registry's group
    ([broker/src/raft/session_actor_map/session_actor_map_raft_actor.rs],
    [broker/src/rpc/raft_service.rs], [broker/src/rpc/cluster_service.rs])

    A node writes to the registry through its own Raft handle.  Where it is not the leader
    the command goes to the leader as JSON over gRPC, and the service there gives it to
    the leader's actor, which may know of yet another leader.  The handlers are programs
    over the operations below; a cluster runs them node by node ([exec]). *)

From S2P Require Import Prelude TopicFilter GrpcStatus RaftLog SessionMap RaftActor Program.

#[local] Open Scope string_scope.
#[local] Open Scope Z_scope.
#[local] Open Scope prog_scope.

(** ** Data *)

(** [SessionActorMapRaftError]; an error of [openraft] is its text. *)
Inductive SessionActorMapRaftError :=
  | NotLeader (leader : option Node)
  | RaftClientWriteError (e : string)
  | RaftAppendEntriesError (e : string)
  | RaftInstallSnapshotError (e : string)
  | RaftNetworkError (e : string)
  | RaftInitializationError (e : string)
  | RaftFatalError (e : string)
  | GRPC (status : Status)
  | GRPCConnect (e : string)
  | GRPCBusiness (e : GRPCBusinessError)
  | Serialize (e : string)
  | NotInitialized
  | NotReady (e : string)
  | ServiceUnavailable (e : string)
  | NoLeaderAvailable
  | UnexpectedResponseType (e : string)
  | TenantNotFound (tenant_id : string).

(** The [Debug] forms the messages use. *)
Class DebugForms := { leader_debug : option Node -> string; business_display : GRPCBusinessError -> string }.

Section Display.
Context `{Tonic, DebugForms}.

(** The [#[error(..)]] attributes. *)
Definition raft_error_display (e : SessionActorMapRaftError) : string :=
  match e with
  | NotLeader leader => "Not leader, current leader: " +:+ leader_debug leader
  | RaftClientWriteError e => "Raft errror: " +:+ e
  | RaftAppendEntriesError e => "Raft append entries error: " +:+ e
  | RaftInstallSnapshotError e => "Raft install snapshot error: " +:+ e
  | RaftNetworkError e => "Network error: " +:+ e
  | RaftInitializationError e => "Raft init cluster error: " +:+ e
  | RaftFatalError e => "Raft fatal error: " +:+ e
  | GRPC status => "gRPC error: " +:+ status_display status
  | GRPCConnect e => "gRPC connect error: " +:+ e
  | GRPCBusiness e => "gRPC business error: " +:+ business_display e
  | Serialize e => "Serialization error: " +:+ e
  | NotInitialized => "Actor not initialized"
  | NotReady e => "Actor not ready: " +:+ e
  | ServiceUnavailable e => "Service unavailable: " +:+ e
  | NoLeaderAvailable => "No leader available"
  | UnexpectedResponseType e => "Unexpected response type: " +:+ e
  | TenantNotFound tenant_id => "Tenant not found: " +:+ tenant_id
  end.

#[export] Instance map_errors : ActorErrors SessionActorMapRaftError := {|
  err_not_ready := NotReady;
  err_unavailable := ServiceUnavailable;
  err_not_initialized := NotInitialized;
  err_display := raft_error_display;
|}.
End Display.

(** The messages of the actor. *)
Inductive Msg `{Openraft} :=
  | AppendEntries (payload : AppendEntriesRequest)
  | InstallSnapshot (payload : InstallSnapshotRequest)
  | Vote (payload : VoteRequest)
  | RenewSession (tenant_id client_id : string) (session_instance_id : SessionInstanceId)
  | GetSessionActorMapStorage
  | RegisterSessionActorMap (tenant_id client_id : string) (node : NodeId)
  | UnregisterSessionActorMap (tenant_id client_id : string) (session_instance_id : SessionInstanceId)
  | GetSessionActorMap (tenant_id client_id : string)
  | GetSessionActorMapLinearizable (tenant_id client_id : string)
  | InitRaftCluster
  | AddLearner (id : NodeId) (node : Node)
  | ChangeMembership (members : list NodeId)
  | GetLeader
  | DirectWriteToRaft (command : SessionActorMapRequest)
  | GetRaftMetrics
  | GetClientListWithPagination (tenant_id : string) (offset limit : Z)
  | GetClusterNodes.

Abbreviation Written := (ClientWriteResponse SessionActorMapResponse).

Definition reply `{Openraft} (m : Msg) : Type :=
  match m with
  | AppendEntries _ => AppendEntriesResponse
  | InstallSnapshot _ => InstallSnapshotResponse
  | Vote _ => VoteResponse
  | RenewSession _ _ _ | UnregisterSessionActorMap _ _ _ | InitRaftCluster | GetSessionActorMapStorage => unit
  | RegisterSessionActorMap _ _ _ => SessionInstanceId
  | GetSessionActorMap _ _ | GetSessionActorMapLinearizable _ _ => option SessionActorMapEntry
  | AddLearner _ _ | ChangeMembership _ | DirectWriteToRaft _ => Written
  | GetLeader => option Node
  | GetRaftMetrics => RaftMetrics
  | GetClientListWithPagination _ _ _ => list (string * NodeId) * Z
  | GetClusterNodes => gmap Z Node
  end.

(** [RaftType] of [raft_protocol.proto]. *)
Inductive RaftType := RtTopic | RtSessionActorMap | RtSessionState.

(** ** Operations *)

Inductive rop `{Openraft} :=
  (** [openraft], on this node's handle. *)
  | ClientWrite (command : SessionActorMapRequest)
  | EnsureLinearizable
  | RaftAppend (payload : AppendEntriesRequest)
  | RaftInstall (payload : InstallSnapshotRequest)
  | RaftVote (payload : VoteRequest)
  | RaftInitialize (nodes : gmap Z Node)
  | RaftAddLearner (id : NodeId) (node : Node)
  | RaftChangeMembership (members : list NodeId)
  | CurrentLeader
  | Metrics
  (** This node's copy of the registry, under its read lock. *)
  | ReadEntry (tenant_id client_id : string)
  | ReadClients (tenant_id : string) (offset limit : Z)
  (** Another node. *)
  | LazyChannel (addr : string)
  | RpcWrite (addr data : string) (raft_type : RaftType)
  | RpcGetSessionActorMap (addr tenant_id client_id : string)
  (** This node's actor, from its services. *)
  | Send (m : Msg).

Definition rres `{Openraft} (o : rop) : Type :=
  match o with
  | ClientWrite _ => outcome RaftFault Written
  | EnsureLinearizable => outcome RaftFault unit
  | RaftAppend _ => outcome string AppendEntriesResponse
  | RaftInstall _ => outcome string InstallSnapshotResponse
  | RaftVote _ => outcome string VoteResponse
  | RaftInitialize _ => outcome string unit
  | RaftAddLearner _ _ | RaftChangeMembership _ => outcome string Written
  | CurrentLeader => option NodeId
  | Metrics => RaftMetrics
  | ReadEntry _ _ => option SessionActorMapEntry
  | ReadClients _ _ _ => option (list (string * NodeId) * Z)
  | LazyChannel _ => outcome string unit
  | RpcWrite _ _ _ => outcome Status string
  | RpcGetSessionActorMap _ _ _ => outcome Status (option string)
  | Send m => outcome string (outcome SessionActorMapRaftError (reply m))
  end.
Abbreviation rprog := (prog rop rres).
Abbreviation Actor := (RaftActor SessionActorMapRaftError Msg).

(** [s.contains(p)] of a string [p]. *)
Definition contains_str (p s : string) : bool := bool_decide (is_Some (String.index 0 p s)).

Section Actor.
Context `{Openraft, Tonic, DebugForms, Prost ErrorDetail}.
Context `{Serde string SessionActorMapRequest, Serde string Written}.
Context `{Serde string SessionActorMapEntry, Serde string (option SessionActorMapEntry)}.
Abbreviation result A := (rprog (outcome SessionActorMapRaftError A)).

Definition op (o : rop) : rprog (rres o) := invoke o.

(** ** Errors of another node *)

Definition is_transient_remote_leader_error (message : string) : bool :=
  contains_str "transport error" message || contains_str "Connection refused" message.

Definition leader_node_from_status (parsed : ParsedStatus) : option Node :=
  (fun addr => mkNode (leader_node_id parsed) addr "") <$> leader_addr parsed.

Definition map_remote_business_error (grpc_code : Code) (d : ErrorDetail) : SessionActorMapRaftError :=
  match detail_code d with
  | SessionTenantNotFound => TenantNotFound (default (d_message d) (strip_prefix "tenant not found: " (d_message d)))
  | _ => GRPCBusiness (business_error_new grpc_code d)
  end.

Definition map_remote_status (status : Status) : SessionActorMapRaftError :=
  let parsed := decode_status status in
  if decide (error_kind parsed = Some ERROR_KIND_LEADER_REDIRECT) then NotLeader (leader_node_from_status parsed)
  else
    let rest :=
      if decide (error_kind parsed = Some ERROR_KIND_NO_LEADER) then NoLeaderAvailable
      else if decide (error_kind parsed = Some ERROR_KIND_NOT_READY) then NotReady (s_message status)
      else if is_transient_remote_leader_error (status_display status) || bool_decide (s_code status = Unavailable)
      then ServiceUnavailable (s_message status)
      else GRPC status in
    if decide (error_kind parsed = Some ERROR_KIND_BUSINESS) then
      match detail parsed with
      | Some d => map_remote_business_error (s_code status) d
      | None => rest
      end
    else rest.

(** ** Reads and writes *)

Definition try_local_linearizable_read : result unit :=
  r ← op EnsureLinearizable;
  Ret (match r with
       | Ok _ => Ok tt
       | Err (ForwardToLeader leader) => Err (NotLeader leader)
       | Err (OtherFault _) => Err (NotLeader None)
       | Panic => Panic
       | OutOfFuel => OutOfFuel
       end).

Definition try_local_write (command : SessionActorMapRequest) : result Written :=
  r ← op (ClientWrite command);
  Ret (match r with
       | Ok res => Ok res
       | Err (ForwardToLeader leader) => Err (NotLeader leader)
       | Err (OtherFault e) => Err (RaftClientWriteError e)
       | Panic => Panic
       | OutOfFuel => OutOfFuel
       end).

Definition send_to_remote_actor (addr : string) (msg : SessionActorMapRequest) : result Written :=
  _ <-? fails_with GRPCConnect (op (LazyChannel addr));
  data <-? Ret (map_err (fun e => Serialize ("serialize raft request failed: " +:+ e)) (to_vec msg));
  data <-? fails_with map_remote_status (op (RpcWrite addr data RtSessionActorMap));
  Ret (map_err (fun e => UnexpectedResponseType ("invalid remote raft write response: " +:+ e)) (from_slice data)).

Definition forward_to_leader (addr : string) (msg : SessionActorMapRequest) : result Written :=
  send_to_remote_actor addr msg.

Definition handle_raft_write (request : SessionActorMapRequest) : result Written :=
  r ← try_local_write request;
  match r with
  | Err (NotLeader (Some leader)) => forward_to_leader (rpc_addr leader) request
  | Err (NotLeader None) => Ret (Err NoLeaderAvailable)
  | r => Ret r
  end.

(** ** Handlers *)

Definition handle_renew_session (t c : string) (i : SessionInstanceId) (a : Actor) : Actor * result unit :=
  serving (Some (RenewSession t c i)) a (with_raft a NotInitialized
    (_ <-? handle_raft_write (SessionLeaseRenewRequest [mkRenew t c i]); Ret (Ok tt))).

Definition handle_register (t c : string) (node : NodeId) (a : Actor) : Actor * result SessionInstanceId :=
  serving (Some (RegisterSessionActorMap t c node)) a (with_raft a NotInitialized
    (response <-? handle_raft_write (RegisterSession t c node);
     Ret (match cw_data response with
          | Registered id => Ok id
          | _ => Err (UnexpectedResponseType "registration did not return an instance ID")
          end))).

Definition handle_unregister (t c : string) (i : SessionInstanceId) (a : Actor) : Actor * result unit :=
  serving (Some (UnregisterSessionActorMap t c i)) a (with_raft a NotInitialized
    (_ <-? handle_raft_write (UnregisterSession t c i); Ret (Ok tt))).

Definition handle_get (t c : string) (a : Actor) : Actor * result (option SessionActorMapEntry) :=
  serving None a (with_raft a NotInitialized (with_storage a (entry ← op (ReadEntry t c); Ret (Ok entry)))).

(** The lookup at the leader: the answer there is the JSON of an [Option], and is read as an entry. *)
Definition lookup_at (leader : Node) (t c : string) : result (option SessionActorMapEntry) :=
  _ <-? fails_with GRPCConnect (op (LazyChannel (rpc_addr leader)));
  payload <-? fails_with map_remote_status (op (RpcGetSessionActorMap (rpc_addr leader) t c));
  match payload with
  | Some payload =>
      entry <-? Ret (map_err (fun e => UnexpectedResponseType ("invalid session actor map payload: " +:+ e))
                       (from_slice (A := SessionActorMapEntry) payload));
      Ret (Ok (Some entry))
  | None => Ret (Ok None)
  end.

Definition lookup_linearizable (t c : string) (a : Actor) : result (option SessionActorMapEntry) :=
  r ← try_local_linearizable_read;
  match r with
  | Ok _ => with_storage a (entry ← op (ReadEntry t c); Ret (Ok entry))
  | Err (NotLeader (Some leader)) => lookup_at leader t c
  | Err (NotLeader None) => Ret (Err NoLeaderAvailable)
  | Err e => Ret (Err e)
  | Panic => Ret Panic
  | OutOfFuel => Ret OutOfFuel
  end.

Definition handle_get_linearizable (t c : string) (a : Actor) : Actor * result (option SessionActorMapEntry) :=
  serving None a (with_raft a NotInitialized (lookup_linearizable t c a)).

Definition handle_append_entries (payload : AppendEntriesRequest) (a : Actor) : Actor * result AppendEntriesResponse :=
  replicating (Some (AppendEntries payload)) a (with_raft a (NotReady "Initializing")
    (fails_with RaftAppendEntriesError (op (RaftAppend payload)))).

Definition handle_install_snapshot (payload : InstallSnapshotRequest) (a : Actor)
    : Actor * result InstallSnapshotResponse :=
  replicating (Some (InstallSnapshot payload)) a (with_raft a (NotReady "Initializing")
    (fails_with RaftInstallSnapshotError (op (RaftInstall payload)))).

Definition handle_vote (payload : VoteRequest) (a : Actor) : Actor * result VoteResponse :=
  replicating (Some (Vote payload)) a (with_raft a (NotReady "Initializing")
    (fails_with RaftAppendEntriesError (op (RaftVote payload)))).

Definition handle_init_cluster (a : Actor) : Actor * result unit :=
  replicating None a (with_raft a (NotReady "Initializing")
    (match ra_settings a with
     | None => Ret (Err NotInitialized)
     | Some nodes => fails_with RaftInitializationError (op (RaftInitialize nodes))
     end)).

Definition handle_add_learner (id : NodeId) (node : Node) (a : Actor) : Actor * result Written :=
  replicating (Some (AddLearner id node)) a (with_raft a (NotReady "Initializing")
    (fails_with RaftClientWriteError (op (RaftAddLearner id node)))).

Definition handle_change_membership (members : list NodeId) (a : Actor) : Actor * result Written :=
  replicating None a (with_raft a (NotReady "Initializing")
    (fails_with RaftClientWriteError (op (RaftChangeMembership members)))).

Definition handle_get_leader (a : Actor) : Actor * result (option Node) :=
  replicating None a (with_raft a (NotReady "Initializing")
    (leader ← op CurrentLeader;
     match leader with
     | Some id => metrics ← op Metrics; Ret (Ok (find_node (membership_nodes metrics) id))
     | None => Ret (Ok None)
     end)).

Definition handle_direct_write (command : SessionActorMapRequest) (a : Actor) : Actor * result Written :=
  serving (Some (DirectWriteToRaft command)) a (with_raft a NotInitialized (handle_raft_write command)).

Definition handle_get_raft_metrics (a : Actor) : Actor * result RaftMetrics :=
  replicating None a (with_raft a (NotReady "Initializing") (metrics ← op Metrics; Ret (Ok metrics))).

Definition handle_client_list (t : string) (offset limit : Z) (a : Actor) : Actor * result (list (string * NodeId) * Z) :=
  serving None a (with_storage a
    (entries ← op (ReadClients t offset limit);
     Ret (match entries with Some page => Ok page | None => Err (TenantNotFound t) end))).

(** [GetClusterNodes]: before it runs, the actor knows no nodes. *)
Definition handle_cluster_nodes (a : Actor) : Actor * result (gmap Z Node) :=
  match ra_state a with
  | Initializing => (a, Ret (Ok ∅))
  | Running =>
      (a, match ra_raft a with
          | Some _ => metrics ← op Metrics; Ret (Ok (list_to_map (membership_nodes metrics)))
          | None => Ret (Ok ∅)
          end)
  | Failed e => (a, Ret (Err (ServiceUnavailable (raft_error_display e))))
  | Stopped => (a, Ret (Err (NotReady "Actor is stopped")))
  end.

Definition handle_get_storage (a : Actor) : Actor * result unit :=
  (a, Ret (match ra_storage a with Some _ => Ok tt | None => Err (NotReady "Initializing") end)).

Definition handle (m : Msg) (a : Actor) : Actor * result (reply m) :=
  match m with
  | AppendEntries p => handle_append_entries p a
  | InstallSnapshot p => handle_install_snapshot p a
  | Vote p => handle_vote p a
  | RenewSession t c i => handle_renew_session t c i a
  | GetSessionActorMapStorage => handle_get_storage a
  | RegisterSessionActorMap t c node => handle_register t c node a
  | UnregisterSessionActorMap t c i => handle_unregister t c i a
  | GetSessionActorMap t c => handle_get t c a
  | GetSessionActorMapLinearizable t c => handle_get_linearizable t c a
  | InitRaftCluster => handle_init_cluster a
  | AddLearner id node => handle_add_learner id node a
  | ChangeMembership members => handle_change_membership members a
  | GetLeader => handle_get_leader a
  | DirectWriteToRaft command => handle_direct_write command a
  | GetRaftMetrics => handle_get_raft_metrics a
  | GetClientListWithPagination t offset limit => handle_client_list t offset limit a
  | GetClusterNodes => handle_cluster_nodes a
  end.

(** [process_pending_messages]: the kinds of messages that are sent again. *)
Definition replayed (m : Msg) : bool :=
  match m with
  | RenewSession _ _ _ | RegisterSessionActorMap _ _ _ | UnregisterSessionActorMap _ _ _ => true
  | _ => false
  end.

Definition process_initialization (result : outcome SessionActorMapRaftError unit) (a : Actor) : Actor * list Msg :=
  initialization_complete replayed result a.

(** ** Services *)

(** [map_session_actor_map_raft_error] of [raft_service.rs]. *)
Definition map_session_actor_map_raft_error (action : string) (err : SessionActorMapRaftError) : Status :=
  match err with
  | NotLeader (Some leader) =>
      leader_redirect_status (action +:+ " requires leader handling at " +:+ rpc_addr leader) (rpc_addr leader)
        (GrpcStatus.node_id leader)
  | NotLeader None | NoLeaderAvailable => no_leader_status (action +:+ " failed: no leader available")
  | NotInitialized => not_ready_status (action +:+ " failed: session actor map raft not initialized")
  | NotReady message => not_ready_status (action +:+ " failed: " +:+ message)
  | ServiceUnavailable message | GRPCConnect message => status_new Unavailable (action +:+ " failed: " +:+ message)
  | TenantNotFound tenant_id =>
      business_status CodeNotFound
        (business_detail SessionTenantNotFound ("tenant not found: " +:+ tenant_id) "session_actor_map_raft")
  | GRPCBusiness err => business_status (be_grpc_code err) (business_detail (be_code err) (be_message err) (be_node err))
  | GRPC status => status
  | Serialize message => status_new Internal (action +:+ " serialization failed: " +:+ message)
  | other => fatal_status Internal (action +:+ " failed: " +:+ raft_error_display other)
  end.

(** [map_session_actor_map_raft_error] of [cluster_service.rs]. *)
Definition cluster_map_session_actor_map_raft_error (action : string) (err : SessionActorMapRaftError) : Status :=
  match err with
  | Serialize message => fatal_status Internal (action +:+ " serialization failed: " +:+ message)
  | UnexpectedResponseType message =>
      fatal_status Internal (action +:+ " returned unexpected response: " +:+ message)
  | err => map_session_actor_map_raft_error action err
  end.

(** [RaftService::write] for this group. *)
Definition service_write (data : string) : rprog (outcome Status string) :=
  command <-? Ret (map_err (fun e => invalid_argument_status ("Invalid JSON data: " +:+ e) "raft_service")
                     (from_slice (A := SessionActorMapRequest) data));
  res <-? fails_with (fun e => status_new Internal ("Write to session actor map raft error " +:+ e))
            (op (Send (DirectWriteToRaft command)));
  match res with
  | Ok res =>
      Ret (map_err (fun e => status_new Internal ("WriteResponse serialization error: " +:+ e))
             (to_vec (res : Written)))
  | Err e => Ret (Err (map_session_actor_map_raft_error "session actor map write" e))
  | Panic => Ret Panic
  | OutOfFuel => Ret OutOfFuel
  end.

(** [ClusterService::get_session_actor_map]: the answer is always some payload. *)
Definition service_get_session_actor_map (t c : string) : rprog (outcome Status (option string)) :=
  res <-? fails_with (fun e => status_new Internal ("Failed to get session actor map: " +:+ e))
            (op (Send (GetSessionActorMapLinearizable t c)));
  res <-? Ret (map_err (cluster_map_session_actor_map_raft_error "get session actor map") res);
  payload <-? Ret (map_err (fun e => status_new Internal ("Failed to serialize session actor map response: " +:+ e))
                     (to_vec (res : option SessionActorMapEntry)));
  Ret (Ok (Some payload)).
End Actor.

(** ** A cluster

    The nodes by address: their actors, and the group [openraft] keeps.  [client_write],
    [linearizable] and [replica] are the group's, [meanwhile] what others make of it while
    an operation waits, [transport] a failure of the connection on the way to a node,
    [reply_lost] one on the way back, when the node has done what it was asked,
    [mailbox] one of an actor's mailbox.  A call to another node runs its service there;
    [fuel] bounds how deep calls are nested, and [Pending] is a call that has not returned
    within it, with the state it has come to. *)
Class Group (G : Type) := {
  client_write : string -> SessionActorMapRequest -> G -> outcome RaftFault Written * G;
  linearizable : string -> G -> outcome RaftFault unit;
  replica : string -> G -> Storage;
  meanwhile : nat -> string -> G -> G;
}.

Record Links := mkLinks {
  channel : string -> outcome string unit;
  transport : string -> option Status;
  reply_lost : string -> option Status;
  mailbox : string -> option string;
}.

Record Cluster `{Openraft} (G : Type) := mkCluster { actors : gmap string Actor; group : G }.
Arguments mkCluster {_ G}.
Arguments actors {_ G}.
Arguments group {_ G}.

(** The other operations of [openraft], which do not write commands. *)
Class OtherOps `{Openraft} (G : Type) := other_op : forall o : rop, string -> G -> rres o.

(** What a call has come to: its answer, or only a state. *)
Inductive call (St A : Type) :=
  | Returned (a : A)
  | Pending (s : St).
Arguments Returned {St A}.
Arguments Pending {St A}.

#[export] Instance call_bind St : MBind (call St) := fun A B f c =>
  match c with
  | Returned a => f a
  | Pending s => Pending s
  end.

Section Cluster.
Context `{Openraft, Tonic, DebugForms, Prost ErrorDetail}.
Context `{Serde string SessionActorMapRequest, Serde string Written}.
Context `{Serde string SessionActorMapEntry, Serde string (option SessionActorMapEntry)}.
Context {G : Type} `{Group G, !OtherOps G} (links : Links).
Abbreviation State := (Cluster G).

Fixpoint run_with {A} (answer : forall o : rop, State -> call State (rres o * State)) (p : rprog A) (s : State)
    : call State (A * State) :=
  match p with
  | Ret a => Returned (a, s)
  | Do o k => r ← answer o s; run_with answer (k r.1) r.2
  end.

(** A call to the service [p] of the node at [addr]. *)
Definition remote {A} (answer : string -> forall o : rop, State -> call State (rres o * State)) (addr : string)
    (p : rprog (outcome Status A)) (s : State) : call State (outcome Status A * State) :=
  match transport links addr with
  | Some status => Returned (Err status, s)
  | None =>
      r ← run_with (answer addr) p s;
      Returned (match reply_lost links addr with
                | Some status => Err status
                | None => map_err received r.1
                end, r.2)
  end.

Fixpoint answer (fuel : nat) (addr : string) (o : rop) (s : State) {struct fuel} : call State (rres o * State) :=
  match fuel with
  | O => Pending s
  | S fuel =>
      let s := mkCluster (actors s) (meanwhile fuel addr (group s)) in
      match o return call State (rres o * State) with
      | ClientWrite command => let '(r, g) := client_write addr command (group s) in Returned (r, mkCluster (actors s) g)
      | EnsureLinearizable => Returned (linearizable addr (group s), s)
      | ReadEntry t c => Returned (get_session_actor_map t c (replica addr (group s)), s)
      | ReadClients t offset limit =>
          Returned (get_client_id_list_with_pagination t offset limit (replica addr (group s)), s)
      | LazyChannel to => Returned (channel links to, s)
      | RpcWrite to data RtSessionActorMap => remote (answer fuel) to (service_write data) s
      | RpcGetSessionActorMap to t c => remote (answer fuel) to (service_get_session_actor_map t c) s
      | Send m =>
          match mailbox links addr with
          | Some e => Returned (Err e, s)
          | None =>
              let '(a, p) := handle m (default default_actor (actors s !! addr)) in
              r ← run_with (answer fuel addr) p (mkCluster (<[addr := a]> (actors s)) (group s));
              Returned (Ok r.1, r.2)
          end
      | o => Returned (other_op o addr (group s), s)
      end
  end.

(** What a program of the node at [addr] does. *)
Definition exec {A} (fuel : nat) (addr : string) (p : rprog A) (s : State) : call State (A * State) :=
  run_with (answer fuel addr) p s.

(** ** Running programs *)

Lemma run_with_bind {A B} ans (p : rprog A) (f : A -> rprog B) s :
  run_with ans (p ≫= f) s = r ← run_with ans p s; run_with ans (f r.1) r.2.
Proof.
  revert s. induction p as [a|o k IH]; intros s; [done|]. cbn. destruct (ans o s) as [[x s']|s']; [|done]. cbn. apply IH.
Qed.
Lemma run_with_attempt {E A B} ans (p : rprog (outcome E A)) (f : A -> rprog (outcome E B)) s :
  run_with ans (attempt p f) s =
  r ← run_with ans p s;
  match r.1 with
  | Ok a => run_with ans (f a) r.2
  | Err e => Returned (Err e, r.2)
  | Panic => Returned (Panic, r.2)
  | OutOfFuel => Returned (OutOfFuel, r.2)
  end.
Proof. unfold attempt. rewrite run_with_bind. destruct (run_with ans p s) as [[[] s']|s']; done. Qed.
End Cluster.
