(* ===== verification/RaftForwarding.v ===== *)
(** * Requests that are forwarded to the leader

    What a node's write to the session registry and its linearizable lookup come to when
    the leader is elsewhere ([SessionMapRaft]): the group is written once, with the
    command that was asked for; the write arrives where each node names one of a later
    term; an error of the leader is an error of the same kind for the caller. *)

From S2P Require Import Prelude TopicFilter GrpcStatus RaftLog SessionMap RaftActor Program SessionMapRaft.

#[local] Open Scope string_scope.
#[local] Open Scope Z_scope.
#[local] Open Scope prog_scope.

(** A write that is sent elsewhere changes nothing, as [openraft] documents. *)
Class GroupSpec (G : Type) `{Group G} : Prop :=
  refused_write addr req (g g' : G) leader : client_write addr req g = (Err (ForwardToLeader leader), g') -> g' = g.

Section Forwarding.
Context `{Openraft, Tonic, DebugForms, Prost ErrorDetail}.
Context `{SerdeSpec string SessionActorMapRequest, SerdeSpec string Written}.
Context `{SerdeSpec string SessionActorMapEntry, !Serde string (option SessionActorMapEntry)}.
Context `{!SerdeOptionSpec string SessionActorMapEntry}.
Context {G : Type} `{GroupSpec G, !OtherOps G} (links : Links).
Abbreviation State := (Cluster G).
Implicit Types (s : State) (g : G).

(** The group as an operation finds it. *)
Definition touch (fuel : nat) (addr : string) s : State := mkCluster (actors s) (meanwhile fuel addr (group s)).
Definition wrote (g : G) s : State := mkCluster (actors s) g.

Lemma run_fails {E F A} ans (f : E -> F) (p : rprog (outcome E A)) s :
  run_with ans (fails_with f p) s = r ← run_with ans p s; Returned (map_err f r.1, r.2).
Proof. unfold fails_with. rewrite run_with_bind. by destruct (run_with ans p s) as [[]|?]. Qed.
Lemma run_op ans o s : run_with ans (op o) s = ans o s.
Proof. cbn. by destruct (ans o s) as [[]|?]. Qed.

Lemma run_local_write n addr req s :
  run_with (answer links (S n) addr) (try_local_write req) s =
  let '(w, g) := client_write addr req (meanwhile n addr (group s)) in
  Returned (match w with
        | Ok res => Ok res
        | Err (ForwardToLeader leader) => Err (NotLeader leader)
        | Err (OtherFault e) => Err (RaftClientWriteError e)
        | Panic => Panic
        | OutOfFuel => OutOfFuel
        end, wrote g s).
Proof. unfold try_local_write. rewrite run_with_bind, (run_op _ (ClientWrite req)). cbn. by destruct client_write. Qed.

Lemma run_write n addr req s w g :
  client_write addr req (meanwhile n addr (group s)) = (w, g) ->
  run_with (answer links (S n) addr) (handle_raft_write req) s =
  match w with
  | Ok res => Returned (Ok res, wrote g s)
  | Err (ForwardToLeader (Some leader)) =>
      run_with (answer links (S n) addr) (send_to_remote_actor (rpc_addr leader) req) (wrote g s)
  | Err (ForwardToLeader None) => Returned (Err NoLeaderAvailable, wrote g s)
  | Err (OtherFault e) => Returned (Err (RaftClientWriteError e), wrote g s)
  | Panic => Returned (Panic, wrote g s)
  | OutOfFuel => Returned (OutOfFuel, wrote g s)
  end.
Proof.
  intros Hw. unfold handle_raft_write. rewrite run_with_bind, run_local_write, Hw.
  destruct w as [res|[[leader|]|e]| |]; done.
Qed.

(** The answer of a service, as the caller reads it. *)
Definition read_answer (r : outcome Status string) : outcome SessionActorMapRaftError Written :=
  data ← map_err map_remote_status r;
  map_err (fun e => UnexpectedResponseType ("invalid remote raft write response: " +:+ e)) (from_slice data).

Lemma run_send n addr to (req : SessionActorMapRequest) data s :
  to_vec req = Ok data ->
  run_with (answer links (S n) addr) (send_to_remote_actor to req) s =
  match channel links to with
  | Ok _ => r ← remote links (answer links n) to (service_write data) (touch n addr (touch n addr s));
            Returned (read_answer r.1, r.2)
  | Err e => Returned (Err (GRPCConnect e), touch n addr s)
  | Panic => Returned (Panic, touch n addr s)
  | OutOfFuel => Returned (OutOfFuel, touch n addr s)
  end.
Proof.
  intros Hd. unfold send_to_remote_actor. rewrite run_with_attempt, run_fails, (run_op _ (LazyChannel to)). cbn [answer mbind call_bind].
  fold (touch n addr s). destruct (channel links to); cbn [fst snd map_err]; try done.
  rewrite Hd. rewrite run_with_attempt. cbn [run_with map_err mbind call_bind fst snd].
  rewrite run_with_attempt, run_fails, (run_op _ (RpcWrite to data RtSessionActorMap)). cbn [answer mbind call_bind].
  fold (touch n addr (touch n addr s)).
  destruct remote as [[r s']|?]; [|done]. cbn [mbind call_bind fst snd]. by destruct r.
Qed.

(** The actor's answer as the service sends it. *)
Definition served (r : outcome SessionActorMapRaftError Written) : outcome Status string :=
  match r with
  | Ok res => map_err (fun e => status_new Internal ("WriteResponse serialization error: " +:+ e)) (to_vec res)
  | Err e => Err (map_session_actor_map_raft_error "session actor map write" e)
  | Panic => Panic
  | OutOfFuel => OutOfFuel
  end.
Lemma served_read res : read_answer (map_err received (served (Ok res))) = Ok res.
Proof. destruct (serde_roundtrip res) as (d & Hd1 & Hd2). cbn. rewrite Hd1. cbn. by rewrite Hd2. Qed.
Lemma served_ok r res : read_answer (map_err received (served r)) = Ok res -> r = Ok res.
Proof. destruct r as [res'| | |]; try done. rewrite served_read. by intros [= ->]. Qed.

Lemma answer_direct_write n addr req s :
  answer links (S n) addr (Send (DirectWriteToRaft req)) s =
  match mailbox links addr with
  | Some e => Returned (Err e, touch n addr s)
  | None =>
      let '(a, p) := handle_direct_write req (default default_actor (actors s !! addr)) in
      r ← run_with (A := outcome _ Written) (answer links n addr) p
            (mkCluster (<[addr := a]> (actors s)) (meanwhile n addr (group s)));
      Returned (Ok r.1, r.2)
  end.
Proof. done. Qed.

Lemma run_service n to req data s :
  to_vec req = Ok data -> from_slice data = Ok req ->
  run_with (answer links (S n) to) (service_write data) s =
  match mailbox links to with
  | Some e => Returned (Err (status_new Internal ("Write to session actor map raft error " +:+ e)), touch n to s)
  | None =>
      let '(a, p) := handle_direct_write req (default default_actor (actors s !! to)) in
      r ← run_with (answer links n to) p (mkCluster (<[to := a]> (actors s)) (meanwhile n to (group s)));
      Returned (served r.1, r.2)
  end.
Proof.
  intros _ Hd. unfold service_write. rewrite Hd, run_with_attempt. cbn [run_with map_err mbind call_bind fst snd].
  rewrite run_with_attempt, run_fails, (run_op _ (Send (DirectWriteToRaft req))), answer_direct_write.
  destruct (mailbox links to) as [e|]; [done|].
  destruct (handle_direct_write req (default default_actor (actors s !! to))) as [a p].
  destruct (run_with (answer links n to) p _) as [[r s']|?]; [|done]. cbn. by destruct r.
Qed.

Lemma run_service_0 to (req : SessionActorMapRequest) data s :
  from_slice data = Ok req -> run_with (answer links 0 to) (service_write data) s = Pending s.
Proof. intros Hd. unfold service_write. by rewrite Hd. Qed.

(** ** One write *)

(** Others' changes of the group. *)
Definition drift : relation G := rtc (fun g g' => exists n addr, g' = meanwhile n addr g).
Lemma drift_touch n addr s : drift (group s) (group (touch n addr s)).
Proof. apply rtc_once. by exists n, addr. Qed.

(** The state a call has come to, whether it has returned or not. *)
Definition reached {A} (c : call State (A * State)) : State :=
  match c with
  | Returned (_, s) => s
  | Pending s => s
  end.
Abbreviation writing := (call State (outcome SessionActorMapRaftError Written * State)).

(** Between changes of others, the group took one write, of [req], and an [Ok] is its answer. *)
Definition written_once (req : SessionActorMapRequest) s (c : writing) : Prop :=
  exists g addr w g', drift (group s) g /\ client_write addr req g = (w, g') /\ drift g' (group (reached c)) /\
    forall res s', c = Returned (Ok res, s') -> w = Ok res.

(** A call that is on its way has not written yet, or has written once. *)
Definition written_at_most_once (req : SessionActorMapRequest) s (c : writing) : Prop :=
  match c with
  | Pending s' => drift (group s) (group s')
  | Returned _ => False
  end \/ written_once req s c.

Lemma guarded_cases {A} (m : Msg) (a : Actor) (p : rprog (outcome SessionActorMapRaftError A)) :
  (exists e a', serving (Some m) a (with_raft a NotInitialized p) = (a', Ret (Err e))) \/
  serving (Some m) a (with_raft a NotInitialized p) = (a, p).
Proof. unfold serving, with_raft, initializing. destruct (ra_state a), (ra_raft a); eauto. Qed.

Lemma write_once n addr req s :
  written_at_most_once req s (run_with (answer links n addr) (handle_raft_write req) s).
Proof.
  revert addr s. induction n as [n IH] using lt_wf_ind; intros addr s.
  destruct n as [|n]; [left; apply rtc_refl|right].
  destruct (client_write addr req (meanwhile n addr (group s))) as [w g] eqn:Hw.
  pose proof (drift_touch n addr s) as Hd. rewrite (run_write _ _ _ _ _ _ Hw).
  assert (Hhere : forall c : writing, drift g (group (reached c)) -> (forall res s', c = Returned (Ok res, s') -> w = Ok res) ->
    written_once req s c) by (intros; by exists (group (touch n addr s)), addr, w, g).
  destruct w as [res|[[leader|]|e]| |]; try (apply Hhere; [apply rtc_refl|by intros ? ? [= ->]]).
  pose proof (refused_write _ _ _ _ _ Hw) as ->. destruct (serde_roundtrip req) as (data & Hd1 & Hd2).
  rewrite (run_send _ _ _ _ _ _ Hd1).
  set (s1 := wrote _ s). set (to := rpc_addr leader).
  assert (Hd0 : drift (group s) (group s1)) by apply Hd.
  pose proof (drift_touch n addr s1) as Hd3. pose proof (drift_touch n addr (touch n addr s1)) as Hd4.
  destruct (channel links to); try (by apply Hhere). unfold remote.
  set (s2 := touch n addr (touch n addr s1)) in *. assert (Hd5 : drift (group s1) (group s2)) by by trans (group (touch n addr s1)).
  destruct (transport links to) as [status|]; [by apply Hhere|].
  destruct n as [|m]; [rewrite (run_service_0 _ _ _ _ Hd2); by apply Hhere|]. rewrite (run_service _ _ _ _ _ Hd1 Hd2).
  assert (Hd6 : drift (group s1) (group (touch m to s2))) by (trans (group s2); [done|apply drift_touch]).
  destruct (mailbox links to) as [e|]; [apply Hhere; [done|by destruct (reply_lost links to)]|].
  pose proof (guarded_cases (DirectWriteToRaft req) (default default_actor (actors s2 !! to)) (handle_raft_write req)) as Hg.
  unfold handle_direct_write. destruct Hg as [(e & a' & Hg)|Hg]; rewrite Hg.
  { apply Hhere; [done|by destruct (reply_lost links to)]. }
  set (s3 := mkCluster _ _) at 1.
  destruct (IH m ltac:(lia) to s3) as [Hrun|(g2 & addr2 & w2 & g3 & Hg2 & Hw2 & Hg3 & Hres)].
  - destruct (run_with (answer links m to) (handle_raft_write req) s3) as [|s4]; [done|].
    apply Hhere; [|done]. by trans (group s3).
  - exists g2, addr2, w2, g3. split_and!; [trans (group s1); [done|]; by trans (group s3)|done|..];
      destruct (run_with (answer links m to) (handle_raft_write req) s3) as [[r s4]|s4]; try done; cbn.
    intros res s' Hok. destruct (reply_lost links to); [done|]. injection Hok as Hok _. by eapply Hres; f_equal; f_equal; apply served_ok.
Qed.

(** ** The leader is reached *)

(** The node takes calls: its address, the connection and the mailbox work, its actor runs. *)
Definition up s (addr : string) : Prop :=
  channel links addr = Ok tt /\ transport links addr = None /\ reply_lost links addr = None /\ mailbox links addr = None /\
  exists a, actors s !! addr = Some a /\ ra_state a = Running /\ ra_raft a = Some tt /\ ra_storage a = Some tt.

(** Each node of [nodes] answers or names one of them of a later term. *)
Definition leads {A} (nodes : gset string) (term : string -> nat) (last : nat) (says : string -> outcome RaftFault A)
    : Prop :=
  forall addr, addr ∈ nodes -> (term addr <= last)%nat /\
    ((exists x, says addr = Ok x) \/
     exists leader, says addr = Err (ForwardToLeader (Some leader)) /\ rpc_addr leader ∈ nodes /\
       (term addr < term (rpc_addr leader))%nat).

Definition quiet : Prop := forall n addr g, meanwhile n addr g = g.

Lemma touch_quiet n addr s : quiet -> touch n addr s = s.
Proof. intros Hq. unfold touch. rewrite Hq. by destruct s. Qed.

Lemma forward_arrives nodes term last req s :
  quiet -> (forall addr, addr ∈ nodes -> up s addr) ->
  leads nodes term last (fun addr => (client_write addr req (group s)).1) ->
  forall addr n, addr ∈ nodes -> (2 * (last - term addr) < n)%nat ->
  exists leader w g, leader ∈ nodes /\ client_write leader req (group s) = (Ok w, g) /\
    run_with (answer links n addr) (handle_raft_write req) s = Returned (Ok w, wrote g s).
Proof.
  intros Hq Hup Hl addr n Ha. remember (last - term addr)%nat as k eqn:Hk. revert addr n Ha Hk.
  induction k as [k IH] using lt_wf_ind; intros addr n Ha Hk Hn. destruct n as [|n]; [lia|].
  destruct (Hl addr Ha) as [Hlast [[w Hw]|(leader & Hw & Hto & Hterm)]];
    destruct (client_write addr req (group s)) as [w' g] eqn:Hcw; cbn in Hw; subst w'.
  { exists addr, w, g. split_and!; [done..|]. by rewrite (run_write n addr req s (Ok w) g) by by rewrite Hq. }
  pose proof (refused_write _ _ _ _ _ Hcw) as ->. pose proof (Hl _ Hto) as [Hlast' _].
  set (to := rpc_addr leader) in *. destruct (Hup to Hto) as (Hch & Htr & Hrl & Hmb & a & Hact & Hst & Hraft & _).
  destruct (serde_roundtrip req) as (data & Hd1 & Hd2).
  rewrite (run_write n addr req s (Err (ForwardToLeader (Some leader))) (group s)) by by rewrite Hq.
  replace (wrote (group s) s) with s by by destruct s. fold to.
  rewrite (run_send _ _ _ _ _ _ Hd1), Hch, !touch_quiet by done. unfold remote. rewrite Htr, Hrl.
  destruct n as [|m]; [lia|]. rewrite (run_service _ _ _ _ _ Hd1 Hd2), Hmb, Hact.
  change (default default_actor (Some a)) with a.
  unfold handle_direct_write, serving, with_raft. rewrite Hst, Hraft, Hq, (insert_id _ _ _ Hact).
  replace (mkCluster (actors s) (group s)) with s by by destruct s.
  destruct (IH (last - term to)%nat ltac:(lia) to m Hto eq_refl ltac:(lia)) as (b & w & g & Hb & Hwb & Hrun).
  exists b, w, g. split_and!; [done..|]. rewrite Hrun. cbn -[served]. by rewrite served_read.
Qed.

(** ** Lookups *)

(** The leader's answer to a lookup as the service sends it and the caller reads it. *)
Definition served_lookup (r : outcome string (outcome SessionActorMapRaftError (option SessionActorMapEntry)))
    : outcome Status (option string) :=
  res ← map_err (fun e => status_new Internal ("Failed to get session actor map: " +:+ e)) r;
  res ← map_err (cluster_map_session_actor_map_raft_error "get session actor map") res;
  payload ← map_err (fun e => status_new Internal ("Failed to serialize session actor map response: " +:+ e)) (to_vec res);
  Ok (Some payload).
Definition read_lookup (r : outcome Status (option string)) : outcome SessionActorMapRaftError (option SessionActorMapEntry) :=
  payload ← map_err map_remote_status r;
  match payload with
  | Some payload =>
      entry ← map_err (fun e => UnexpectedResponseType ("invalid session actor map payload: " +:+ e)) (from_slice payload);
      Ok (Some entry)
  | None => Ok None
  end.

Lemma lookup_found e : read_lookup (map_err received (served_lookup (Ok (Ok (Some e))))) = Ok (Some e).
Proof.
  destruct (serde_roundtrip (Doc := string) e) as (d & Hd1 & Hd2). cbn. rewrite serde_some, Hd1. cbn. by rewrite Hd2.
Qed.
Lemma lookup_absent :
  exists e, read_lookup (map_err received (served_lookup (Ok (Ok None)))) =
    Err (UnexpectedResponseType ("invalid session actor map payload: " +:+ e)).
Proof.
  destruct (serde_none (Doc := string) (A := SessionActorMapEntry)) as (d & e & Hd1 & Hd2). exists e. cbn. rewrite Hd1. cbn. by rewrite Hd2.
Qed.

Lemma run_service_lookup n addr t c s :
  run_with (answer links n addr) (service_get_session_actor_map t c) s =
  r ← answer links n addr (Send (GetSessionActorMapLinearizable t c)) s; Returned (served_lookup r.1, r.2).
Proof.
  unfold service_get_session_actor_map.
  rewrite run_with_attempt, run_fails, (run_op _ (Send (GetSessionActorMapLinearizable t c))).
  destruct (answer links n addr (Send _) s) as [[r s']|?]; [|done]. cbn in r. cbn [mbind call_bind fst snd].
  unfold served_lookup. destruct r as [[r| | |]| | |]; try done. cbn. by destruct (to_vec r).
Qed.

Lemma answer_lookup n addr t c s a :
  quiet -> mailbox links addr = None -> actors s !! addr = Some a -> ra_state a = Running -> ra_raft a = Some tt ->
  answer links (S n) addr (Send (GetSessionActorMapLinearizable t c)) s =
  r ← run_with (answer links n addr) (lookup_linearizable t c a) s; Returned (Ok r.1, r.2).
Proof.
  intros Hq Hmb Ha Hst Hraft. cbn [answer handle]. rewrite Hmb. cbn [actors group]. rewrite Ha.
  change (default default_actor (Some a)) with a. unfold handle_get_linearizable, serving, with_raft.
  rewrite Hst, Hraft, Hq, (insert_id _ _ _ Ha). by destruct s.
Qed.

Lemma run_local_lookup n addr t c s a :
  quiet -> ra_storage a = Some tt ->
  run_with (answer links (S n) addr) (lookup_linearizable t c a) s =
  match linearizable addr (group s) with
  | Ok _ => Returned (Ok (get_session_actor_map t c (replica addr (group s))), s)
  | Err (ForwardToLeader (Some leader)) => run_with (answer links (S n) addr) (lookup_at leader t c) s
  | Err _ => Returned (Err NoLeaderAvailable, s)
  | Panic => Returned (Panic, s)
  | OutOfFuel => Returned (OutOfFuel, s)
  end.
Proof.
  intros Hq Hst. unfold lookup_linearizable, try_local_linearizable_read. rewrite !run_with_bind, (run_op _ EnsureLinearizable).
  cbn [answer mbind call_bind fst snd run_with]. fold (touch n addr s). rewrite !(touch_quiet n addr s Hq).
  destruct (linearizable addr (group s)) as [|[[]|?]| |]; try done.
  unfold with_storage. rewrite Hst. cbn. rewrite Hq. by destruct s.
Qed.

Lemma run_lookup_at n addr leader t c s :
  quiet -> up s (rpc_addr leader) ->
  run_with (answer links (S n) addr) (lookup_at leader t c) s =
  r ← answer links n (rpc_addr leader) (Send (GetSessionActorMapLinearizable t c)) s;
  Returned (read_lookup (map_err received (served_lookup r.1)), r.2).
Proof.
  intros Hq (Hch & Htr & Hrl & _). set (to := rpc_addr leader) in *. unfold lookup_at. fold to.
  rewrite run_with_attempt, run_fails, (run_op _ (LazyChannel to)). cbn [answer mbind call_bind fst snd].
  rewrite Hch. fold (touch n addr s). rewrite (touch_quiet n addr s Hq). cbn [map_err].
  rewrite run_with_attempt, run_fails, (run_op _ (RpcGetSessionActorMap to t c)). cbn [answer].
  fold (touch n addr s). rewrite (touch_quiet n addr s Hq). unfold remote. rewrite Htr, Hrl, run_service_lookup.
  destruct (answer links n to (Send _) s) as [[r s']|?]; [|done]. cbn [mbind call_bind fst snd].
  unfold read_lookup. destruct (served_lookup r) as [[payload|]| | |]; try done. cbn. by destruct from_slice.
Qed.

(** A lookup reaches the leader; what it finds there is found, what it does not find is an error elsewhere. *)
Lemma lookup_arrives nodes term last t c s :
  quiet -> (forall addr, addr ∈ nodes -> up s addr) -> leads nodes term last (fun addr => linearizable addr (group s)) ->
  forall addr n, addr ∈ nodes -> (2 * (last - term addr) + 1 < n)%nat ->
  exists leader r, leader ∈ nodes /\ linearizable leader (group s) = Ok tt /\
    answer links n addr (Send (GetSessionActorMapLinearizable t c)) s = Returned (Ok r, s) /\
    match get_session_actor_map t c (replica leader (group s)) with
    | Some e => r = Ok (Some e)
    | None => (linearizable addr (group s) = Ok tt -> r = Ok None) /\
              (linearizable addr (group s) <> Ok tt -> exists e, r = Err e)
    end.
Proof.
  intros Hq Hup Hl addr n Ha. remember (last - term addr)%nat as k eqn:Hk. revert addr n Ha Hk.
  induction k as [k IH] using lt_wf_ind; intros addr n Ha Hk Hn. destruct n as [|[|n]]; [lia..|].
  destruct (Hup addr Ha) as (_ & _ & _ & Hmb & a & Hact & Hst & Hraft & Hsto).
  rewrite (answer_lookup _ _ _ _ _ _ Hq Hmb Hact Hst Hraft), (run_local_lookup _ _ _ _ _ _ Hq Hsto).
  destruct (Hl addr Ha) as [Hlast [[[] Hw]|(leader & Hw & Hto & Hterm)]]; rewrite Hw.
  { exists addr, (Ok (get_session_actor_map t c (replica addr (group s)))). split_and!; [done..|]. by case_match. }
  pose proof (Hl _ Hto) as [Hlast' _]. rewrite (run_lookup_at _ _ _ _ _ _ Hq (Hup _ Hto)).
  destruct (IH (last - term (rpc_addr leader))%nat ltac:(lia) (rpc_addr leader) n Hto eq_refl ltac:(lia))
    as (b & r & Hb & Hlb & Hans & Hr). rewrite Hans. cbn [mbind call_bind fst snd].
  eexists b, _. split_and!; [done|done|reflexivity|]. destruct (get_session_actor_map t c (replica b (group s))) as [e|].
  - rewrite Hr. apply lookup_found.
  - destruct Hr as [Hr1 Hr2]. split; [done|]. intros _.
    assert (Hcase : r = Ok None \/ exists e, r = Err e).
    { destruct (linearizable (rpc_addr leader) (group s)) as [[]| | |]; [by left; apply Hr1|right; by apply Hr2..]. }
    destruct Hcase as [->|[e ->]]; [|by eexists]. destruct lookup_absent as [e He]. eauto.
Qed.

(** ** Registrations *)

Lemma answer_register n addr t c node s a :
  quiet -> mailbox links addr = None -> actors s !! addr = Some a -> ra_state a = Running -> ra_raft a = Some tt ->
  answer links (S n) addr (Send (RegisterSessionActorMap t c node)) s =
  r ← run_with (answer links n addr) (handle_raft_write (RegisterSession t c node)) s;
  Returned (Ok (response ← r.1;
            match cw_data response with
            | Registered id => Ok id
            | _ => Err (UnexpectedResponseType "registration did not return an instance ID")
            end), r.2).
Proof.
  intros Hq Hmb Ha Hst Hraft. cbn [answer handle]. rewrite Hmb. cbn [actors group]. rewrite Ha.
  change (default default_actor (Some a)) with a. unfold handle_register, serving, with_raft.
  rewrite Hst, Hraft, Hq, (insert_id _ _ _ Ha). replace (mkCluster (actors s) (group s)) with s by by destruct s.
  cbn [reply]. rewrite run_with_attempt.
  destruct (run_with (answer links n addr) (handle_raft_write _) s) as [[[] s']|?]; done.
Qed.

(** An accepted command is applied at the leader before it is answered, as [openraft] documents. *)
Definition applies (self : string -> NodeId) (ttl : Z) (clock : Z -> nat -> Z) : Prop :=
  forall addr req g w g', client_write addr req g = (Ok w, g') ->
  exists index sent, apply_request (self addr) ttl clock index req (replica addr g) = Ok (cw_data w, sent, replica addr g').

Lemma applied_register self ttl clock index t c node st w sent st' :
  apply_request self ttl clock index (RegisterSession t c node) st = Ok (w, sent, st') ->
  w = Registered (mkInstance index) /\
  exists e, get_session_actor_map t c st' = Some e /\ node_id e = node /\ instance_id e = mkInstance index.
Proof.
  cbn. unfold register_session_actor, add_u64. destruct (_ <=? _); [|done]. cbn. intros [= <- _ <-]. split; [done|].
  exists (mkMapEntry node (mkInstance index) (clock index 0%nat + ttl)). split; [|done].
  unfold get_session_actor_map. rewrite lookup_insert_eq. cbn. by rewrite lookup_insert_eq.
Qed.

(** ** Theorems *)

(** C6: the write of a command to the session registry, wherever it was asked for and through
    however many nodes it goes, whether connections fail on the way there or on the way back,
    mailboxes are closed or actors are not running: at any moment of the call (for every
    [fuel]) the group has taken it at most once, as it was asked for, between what others
    write meanwhile, and an answer [Ok] is the group's answer to that one write.  A refusal
    that names another leader changes nothing and is not counted. *)
Theorem forwarded_write_once (fuel : nat) (addr : string) (req : SessionActorMapRequest) s :
  written_at_most_once req s (exec links fuel addr (handle_raft_write req) s).
Proof. apply write_once. Qed.

(** C14: while nobody else writes to the registry, the nodes are up and the leader stays the
    same - every node accepts a registration or names a node of a later term -, a registration
    asked for at any node is answered by an instance, and a linearizable lookup at any node
    finds that node and that instance. *)
Theorem registered_then_found (self : string -> NodeId) (ttl : Z) (clock : Z -> nat -> Z) (nodes : gset string)
    (term : string -> nat) (last : nat) (t c : string) (node : NodeId) s :
  quiet -> applies self ttl clock -> (forall addr, addr ∈ nodes -> up s addr) ->
  leads nodes term last (fun addr => (client_write addr (RegisterSession t c node) (group s)).1) ->
  (forall leader w g, client_write leader (RegisterSession t c node) (group s) = (Ok w, g) ->
     leads nodes term last (fun addr => linearizable addr g) /\
     forall other, linearizable other g = Ok tt -> other = leader) ->
  forall addr fuel, addr ∈ nodes -> (2 * last + 1 < fuel)%nat ->
  exists i s', answer links fuel addr (Send (RegisterSessionActorMap t c node)) s = Returned (Ok (Ok i), s') /\
    forall addr', addr' ∈ nodes -> exists e,
      answer links fuel addr' (Send (GetSessionActorMapLinearizable t c)) s' = Returned (Ok (Ok (Some e)), s') /\
      node_id e = node /\ instance_id e = i.
Proof.
  intros Hq Happ Hup Hw Hl addr fuel Ha Hf. destruct fuel as [|fuel]; [lia|].
  destruct (forward_arrives _ _ _ _ _ Hq Hup Hw addr fuel Ha ltac:(lia)) as (leader & w & g & Hin & Hcw & Hrun).
  destruct (Hl _ _ _ Hcw) as [Hlin Hone]. destruct (Happ _ _ _ _ _ Hcw) as (i & sent & Hap).
  apply applied_register in Hap as (Hdata & e & He & Hnode & Hi).
  destruct (Hup addr Ha) as (_ & _ & _ & Hmb & a & Hact & Hst & Hraft & _).
  exists (mkInstance i), (wrote g s). split.
  { rewrite (answer_register _ _ _ _ _ _ _ Hq Hmb Hact Hst Hraft), Hrun. cbn. by rewrite Hdata. }
  intros addr' Ha'.
  destruct (lookup_arrives nodes term last t c (wrote g s) Hq Hup Hlin addr' (S fuel) Ha' ltac:(lia))
    as (b & r & Hb & Hlb & Hans & Hr).
  cbn [wrote group] in Hr. rewrite (Hone b Hlb), He in Hr. exists e. split_and!; [|done..]. by rewrite Hans, Hr.
Qed.

(** A linearizable lookup of a session that is not registered is answered with no entry at
    the leader and fails at every other node: the answer of the service, JSON [null], is
    read there as an entry. *)
Theorem absent_lookup_fails (addr : string) (leader : Node) (t c : string) (fuel : nat) s :
  quiet -> up s addr -> up s (rpc_addr leader) ->
  linearizable addr (group s) = Err (ForwardToLeader (Some leader)) ->
  linearizable (rpc_addr leader) (group s) = Ok tt ->
  get_session_actor_map t c (replica (rpc_addr leader) (group s)) = None -> (3 < fuel)%nat ->
  answer links fuel (rpc_addr leader) (Send (GetSessionActorMapLinearizable t c)) s = Returned (Ok (Ok None), s) /\
  exists e, answer links fuel addr (Send (GetSessionActorMapLinearizable t c)) s =
    Returned (Ok (Err (UnexpectedResponseType ("invalid session actor map payload: " +:+ e))), s).
Proof.
  intros Hq (_ & _ & _ & Hmb & a & Hact & Hst & Hraft & Hsto) Hup Hrefused Hleads Hnone Hf.
  pose proof Hup as (_ & _ & _ & Hmb' & b & Hact' & Hst' & Hraft' & Hsto').
  assert (Hleader : forall n, (1 < n)%nat ->
    answer links n (rpc_addr leader) (Send (GetSessionActorMapLinearizable t c)) s = Returned (Ok (Ok None), s)).
  { intros [|[|n]] Hn; [lia..|]. rewrite (answer_lookup _ _ _ _ _ _ Hq Hmb' Hact' Hst' Hraft').
    by rewrite (run_local_lookup _ _ _ _ _ _ Hq Hsto'), Hleads, Hnone. }
  split; [apply Hleader; lia|]. destruct fuel as [|[|fuel]]; [lia..|]. destruct lookup_absent as [e He]. exists e.
  rewrite (answer_lookup _ _ _ _ _ _ Hq Hmb Hact Hst Hraft), (run_local_lookup _ _ _ _ _ _ Hq Hsto), Hrefused.
  rewrite (run_lookup_at _ _ _ _ _ _ Hq Hup), Hleader by lia. cbn -[read_lookup served_lookup]. by rewrite He.
Qed.
End Forwarding.

(** ** Errors *)

Section Errors.
Context `{DebugForms, TonicSpec, DetailSpec}.

(** The caller of a node that failed with [e] sees [e']. *)
Definition survives (action : string) (e e' : SessionActorMapRaftError) : Prop :=
  match e with
  | NotLeader (Some leader) => e' = NotLeader (Some (mkNode (GrpcStatus.node_id leader) (rpc_addr leader) ""))
  | NotLeader None | NoLeaderAvailable => e' = NoLeaderAvailable
  | NotInitialized => e' = NotReady (action +:+ " failed: session actor map raft not initialized")
  | NotReady message => e' = NotReady (action +:+ " failed: " +:+ message)
  | ServiceUnavailable message | GRPCConnect message => e' = ServiceUnavailable (action +:+ " failed: " +:+ message)
  | TenantNotFound tenant_id => e' = TenantNotFound tenant_id
  | GRPCBusiness b => be_code b <> SessionTenantNotFound -> be_code b <> Unknown -> e' = GRPCBusiness b
  | GRPC _ => True
  | _ => (exists status, s_code status = Internal /\ e' = GRPC status) \/ exists message, e' = ServiceUnavailable message
  end.

(** A leader as it is named to another node. *)
Definition named (e : SessionActorMapRaftError) : Prop :=
  match e with
  | NotLeader (Some leader) => visible (rpc_addr leader) = true /\ forall id, GrpcStatus.node_id leader = Some id -> is_u64 id
  | _ => True
  end.

Lemma none_visible : value_ok None.
Proof. done. Qed.

Lemma remote_other code message kind :
  value_ok kind ->
  Some ERROR_KIND_LEADER_REDIRECT <> kind -> Some ERROR_KIND_NO_LEADER <> kind -> Some ERROR_KIND_NOT_READY <> kind ->
  Some ERROR_KIND_BUSINESS <> kind ->
  map_remote_status (received (status_with_metadata code message kind None None None)) =
  if is_transient_remote_leader_error (status_display (received (status_with_metadata code message kind None None None)))
     || bool_decide (code = Unavailable)
  then ServiceUnavailable message else GRPC (received (status_with_metadata code message kind None None None)).
Proof.
  intros Hk H1' H2' H3' H4'. unfold map_remote_status. rewrite decode_received by done. cbn [error_kind].
  rewrite !decide_False by congruence. by rewrite received_code, received_message.
Qed.

Lemma internal_survives message kind e' :
  value_ok kind ->
  Some ERROR_KIND_LEADER_REDIRECT <> kind -> Some ERROR_KIND_NO_LEADER <> kind -> Some ERROR_KIND_NOT_READY <> kind ->
  Some ERROR_KIND_BUSINESS <> kind ->
  e' = map_remote_status (received (status_with_metadata Internal message kind None None None)) ->
  (exists status, s_code status = Internal /\ e' = GRPC status) \/ exists message, e' = ServiceUnavailable message.
Proof.
  intros ? ? ? ? ? ->. rewrite remote_other by done. destruct (_ || _); [right; by eexists|left].
  eexists. split; [|done]. by rewrite received_code.
Qed.

Lemma remote_unavailable message : map_remote_status (received (status_new Unavailable message)) = ServiceUnavailable message.
Proof.
  change (status_new Unavailable message) with (status_with_metadata Unavailable message None None None None).
  rewrite remote_other by done. by rewrite bool_decide_true, orb_true_r.
Qed.
(** No leader, and not ready. *)
Lemma remote_no_leader message : map_remote_status (received (no_leader_status message)) = NoLeaderAvailable.
Proof. unfold map_remote_status, no_leader_status. by rewrite decode_received by (by apply kind_visible || done). Qed.
Lemma remote_not_ready message : map_remote_status (received (not_ready_status message)) = NotReady message.
Proof.
  unfold map_remote_status, not_ready_status. rewrite decode_received by (by apply kind_visible || done).
  cbn. by rewrite received_message.
Qed.

Lemma remote_business code d :
  d <> mkDetail 0 "" "" -> map_remote_status (received (business_status code d)) = map_remote_business_error code d.
Proof.
  intros Hd. unfold map_remote_status, business_status. rewrite decode_received by (by apply kind_visible || done).
  cbn [error_kind detail mbind option_bind]. rewrite decide_False, decide_True, decide_False by done.
  by rewrite received_code.
Qed.

(** An error of a node reaches the node that asked as an error of the same kind: a leader is
    named with its address and id, a missing tenant with its name, an error of the broker with
    its code; what has no kind of its own is an internal error or, by its text, unavailable. *)
Theorem errors_survive (action : string) (e : SessionActorMapRaftError) :
  named e -> survives action e (map_remote_status (received (map_session_actor_map_raft_error action e))).
Proof.
  intros Hn.
  destruct e as [[leader|]|?|?|?|?|?|?|?|m|b|m| |m|m| |m|tenant]; cbn [survives map_session_actor_map_raft_error];
    try (eapply (internal_survives _ (Some ERROR_KIND_FATAL)); [by apply kind_visible|done..]).
  - destruct Hn as [Hv Hid]. unfold map_remote_status, leader_redirect_status.
    by rewrite decode_received by (by apply kind_visible || done).
  - apply remote_no_leader.
  - done.
  - apply remote_unavailable.
  - intros Hc1 Hc2. rewrite remote_business.
    + unfold map_remote_business_error. rewrite detail_code_business. destruct b as [gc code m nd]; cbn in *.
      unfold business_error_new. rewrite detail_code_business. by destruct code.
    + intros Hd. apply (f_equal detail_code) in Hd. by rewrite detail_code_business in Hd.
  - by eapply (internal_survives _ None).
  - apply remote_not_ready.
  - apply remote_not_ready.
  - apply remote_unavailable.
  - apply remote_no_leader.
  - rewrite remote_business by done. unfold map_remote_business_error. rewrite detail_code_business. cbn [d_message business_detail].
    by rewrite strip_prefix_app.
Qed.
End Errors.

(** ** Before the actor runs *)

(** A registration that arrives while the actor initializes is answered by an error, and is
    written all the same once the actor runs. *)
Theorem refused_registration_written `{Openraft, Tonic, DebugForms, Prost ErrorDetail}
    `{Serde string SessionActorMapRequest, Serde string Written} (t c : string) (node : NodeId) (a : Actor) :
  ra_state a = Initializing ->
  let '(kept, first) := handle_register t c node a in
  let '(running, again) := process_initialization (Ok tt) kept in
  first = Ret (Err (NotReady "Initializing")) /\
  RegisterSessionActorMap t c node ∈ again /\
  (handle_register t c node running).2 =
    (response <-? handle_raft_write (RegisterSession t c node);
     Ret (match cw_data response with
          | Registered id => Ok id
          | _ => Err (UnexpectedResponseType "registration did not return an instance ID")
          end)).
Proof.
  intros Ha. unfold handle_register, serving. rewrite Ha. cbn. split_and!; [done| |done].
  apply list_elem_of_In, filter_In. split; [|done]. apply in_or_app. right. by left.
Qed.

(** ** Examples *)

Module ForwardingSample.
(** Values as text: the number that stands for them. *)
Definition number (s : string) : option positive :=
  n ← digits s 0; match n with Zpos p => Some p | _ => None end.
Lemma number_pretty p : number (pretty (Zpos p)) = Some p.
Proof. unfold number. rewrite pretty_pos, digits_go by done. done. Qed.

Definition countable_serde (A : Type) `{Countable A} : Serde string A := {|
  to_vec a := Ok (pretty (Zpos (encode a)));
  from_slice s := match number s ≫= decode with Some a => Ok a | None => Err "not a value" end;
|}.
Lemma countable_serde_spec A `{Countable A} : @SerdeSpec string A (countable_serde A).
Proof. intros a. eexists. split; [done|]. cbn [from_slice countable_serde]. rewrite number_pretty. cbn. by rewrite decode_encode. Qed.

#[local] Instance instance_countable : Countable SessionInstanceId.
Proof. by apply (inj_countable' log_index mkInstance); intros []. Defined.
#[local] Instance entry_eq_dec : EqDecision SessionActorMapEntry.
Proof. solve_decision. Defined.
#[local] Instance entry_countable : Countable SessionActorMapEntry.
Proof.
  by apply (inj_countable' (fun e => (SessionMap.node_id e, instance_id e, expiration_timestamp e))
    (fun '(n, i, x) => mkMapEntry n i x)); intros [].
Defined.
#[local] Instance expired_eq_dec : EqDecision ExpiredSession.
Proof. solve_decision. Defined.
#[local] Instance expired_countable : Countable ExpiredSession.
Proof.
  by apply (inj_countable' (fun e => (ex_tenant_id e, ex_session_id e, ex_node_id e, ex_session_instance_id e))
    (fun '(t, c, n, i) => mkExpired t c n i)); intros [].
Defined.
#[local] Instance renew_eq_dec : EqDecision SessionMap.RenewSession.
Proof. solve_decision. Defined.
#[local] Instance renew_countable : Countable SessionMap.RenewSession.
Proof.
  by apply (inj_countable' (fun e => (rn_tenant_id e, rn_session_id e, rn_session_instance_id e))
    (fun '(t, c, i) => mkRenew t c i)); intros [].
Defined.
#[local] Instance request_eq_dec : EqDecision SessionActorMapRequest.
Proof. solve_decision. Defined.
#[local] Instance request_countable : Countable SessionActorMapRequest.
Proof.
  by apply (inj_countable'
    (fun r => match r with
      | RegisterSession t c n => inl (inl (t, c, n))
      | UnregisterSession t c i => inl (inr (t, c, i))
      | CleanExpiredSessions l => inr (inl l)
      | SessionLeaseRenewRequest l => inr (inr l)
      end)
    (fun x => match x with
      | inl (inl (t, c, n)) => RegisterSession t c n
      | inl (inr (t, c, i)) => UnregisterSession t c i
      | inr (inl l) => CleanExpiredSessions l
      | inr (inr l) => SessionLeaseRenewRequest l
      end)); intros [].
Defined.
#[local] Instance response_eq_dec : EqDecision SessionActorMapResponse.
Proof. solve_decision. Defined.
#[local] Instance written_eq_dec : EqDecision Written.
Proof. solve_decision. Defined.
#[local] Instance written_countable : Countable Written.
Proof.
  by apply (inj_countable'
    (fun w => (leader_term (cw_log_id w), leader_node (cw_log_id w), RaftLog.index (cw_log_id w),
               match cw_data w with RespNone => None | Registered i => Some i end))
    (fun '(a, b, i, d) => mkWritten (mkLogId a b i) (match d with None => RespNone | Some i => Registered i end)));
    intros [[] []].
Defined.

#[local] Instance request_serde : Serde string SessionActorMapRequest := countable_serde _.
#[local] Instance written_serde : Serde string Written := countable_serde _.
#[local] Instance entry_serde : Serde string SessionActorMapEntry := countable_serde _.
#[local] Instance lookup_serde : Serde string (option SessionActorMapEntry) := {|
  to_vec o := match o with Some e => to_vec e | None => Ok "null" end;
  from_slice s := if decide (s = "null") then Ok None else (e ← from_slice s; Ok (Some e));
|}.
#[local] Instance request_spec : SerdeSpec string SessionActorMapRequest := countable_serde_spec _.
#[local] Instance written_spec : SerdeSpec string Written := countable_serde_spec _.
#[local] Instance entry_spec : SerdeSpec string SessionActorMapEntry := countable_serde_spec _.
#[local] Instance lookup_spec : SerdeOptionSpec string SessionActorMapEntry.
Proof. split; [done|]. by do 2 eexists. Qed.

#[local] Instance openraft : Openraft := Build_Openraft unit unit unit unit unit unit unit (fun _ => []).
#[local] Instance tonic : Tonic := {| ascii_value := visible; received s := s; status_display := s_message |}.
#[local] Instance debug : DebugForms := {| leader_debug _ := "leader"; business_display := be_message |}.

(** A detail as bytes; the default one is none. *)
#[local] Instance detail_countable : Countable ErrorDetail.
Proof.
  by apply (inj_countable' (fun d => (d_code d, d_message d, d_node d)) (fun '(c, m, n) => mkDetail c m n)); intros [].
Defined.
#[local] Instance prost : Prost ErrorDetail := {|
  encode_to_vec d := if decide (d = mkDetail 0 "" "") then [] else [Zpos (encode d)];
  prost_decode bs :=
    match bs with
    | [] => Ok (mkDetail 0 "" "")
    | [Zpos p] => match decode p with Some d => Ok d | None => Err "not a detail" end
    | _ => Err "not a detail"
    end;
|}.
#[local] Instance detail_spec : DetailSpec.
Proof.
  split; intros d; unfold round_trips; cbn; case_decide; try done; [by subst|]. by rewrite decode_encode.
Qed.
#[local] Instance tonic_spec : TonicSpec.
Proof. by split. Qed.

Lemma errors_survive_witness :
  map_remote_status (received (map_session_actor_map_raft_error "write" (NotLeader (Some (mkNode (Some 4) "10.0.0.4:9080" "api"))))) =
    NotLeader (Some (mkNode (Some 4) "10.0.0.4:9080" "")).
Proof. apply (errors_survive "write" (NotLeader (Some (mkNode (Some 4) "10.0.0.4:9080" "api")))). split; [done|]. by intros ? [= <-]. Defined.

(** Three nodes: [c] names [a], which names the leader [b]. *)
Record group3 := mkGroup { g_registry : Storage; g_index : Z }.
Definition leader_of (addr : string) : option string :=
  if decide (addr = "b") then None else if decide (addr = "a") then Some "b" else Some "a".
Definition clock (i : Z) (k : nat) : Z := 1000 + i.
#[local] Instance sample_group : Group group3 := {|
  client_write addr req g :=
    match leader_of addr with
    | Some l => (Err (ForwardToLeader (Some (mkNode None l ""))), g)
    | None =>
        match apply_request 2 60 clock (g_index g) req (g_registry g) with
        | Ok (r, _, st) => (Ok (mkWritten (mkLogId 1 2 (g_index g)) r), mkGroup st (g_index g + 1))
        | _ => (Err (OtherFault "stopped"), g)
        end
    end;
  linearizable addr g :=
    match leader_of addr with Some l => Err (ForwardToLeader (Some (mkNode None l ""))) | None => Ok tt end;
  replica _ g := g_registry g;
  meanwhile _ _ g := g;
|}.
#[local] Instance sample_group_spec : GroupSpec group3.
Proof. intros addr req g g' leader. cbn. repeat case_match; intros; by simplify_eq. Qed.
Definition zero_answer (o : rop) : rres o :=
  match o with
  | ClientWrite _ | EnsureLinearizable | LazyChannel _ | RaftAddLearner _ _ | RaftChangeMembership _ => Panic
  | RaftAppend _ | RaftInstall _ | RaftVote _ | RaftInitialize _ => Ok tt
  | CurrentLeader => None
  | Metrics => tt
  | ReadEntry _ _ | ReadClients _ _ _ => None
  | RpcWrite _ _ _ | RpcGetSessionActorMap _ _ _ | Send _ => Panic
  end.
#[local] Instance sample_other : OtherOps group3 := fun o _ _ => zero_answer o.
Definition links : Links := mkLinks (fun _ => Ok tt) (fun _ => None) (fun _ => None) (fun _ => None).
Definition running : Actor := mkRaftActor (Some tt) None Running [] (Some tt).
Definition start : Cluster group3 :=
  mkCluster (<["a" := running]> (<["b" := running]> {["c" := running]})) (mkGroup ∅ 7).
Definition nodes : gset string := {["a"; "b"; "c"]}.
Definition term (addr : string) : nat := if decide (addr = "b") then 2 else if decide (addr = "a") then 1 else 0.

Lemma all_up (s : Cluster group3) : actors s = actors start -> forall addr, addr ∈ nodes -> up links s addr.
Proof.
  intros Hs addr Ha. unfold up. rewrite Hs. split_and!; [done..|]. exists running. split_and!; [|done..].
  unfold nodes in Ha. apply elem_of_union in Ha as [[Ha| Ha]%elem_of_union| Ha]; apply elem_of_singleton in Ha as ->; done.
Qed.
Lemma all_lead {A} (x : A) (says : string -> outcome RaftFault A) :
  says "b" = Ok x -> says "a" = Err (ForwardToLeader (Some (mkNode None "b" ""))) ->
  says "c" = Err (ForwardToLeader (Some (mkNode None "a" ""))) -> leads nodes term 2 says.
Proof.
  intros Hb Ha Hc addr Hin.
  unfold nodes in Hin. apply elem_of_union in Hin as [[Hin| Hin]%elem_of_union| Hin]; apply elem_of_singleton in Hin as ->.
  - split; [by vm_compute; lia|]. right. eexists. split; [done|]. split; [set_solver|]. vm_compute. lia.
  - split; [by vm_compute; lia|]. left. by exists x.
  - split; [by vm_compute; lia|]. right. eexists. split; [done|]. split; [set_solver|]. vm_compute. lia.
Qed.

(** A registration asked for at [c] is written at [b], two nodes on; where the answer of [b] is
    lost the caller sees an error, and the registry holds the session all the same. *)
Definition lossy : Links :=
  mkLinks (fun _ => Ok tt) (fun _ => None)
    (fun addr => if decide (addr = "b") then Some (status_new Unavailable "broken") else None) (fun _ => None).
Definition registering (l : Links) (fuel : nat) : call (Cluster group3) (outcome SessionActorMapRaftError Written * Cluster group3) :=
  exec l fuel "c" (handle_raft_write (RegisterSession "t" "x" 3)) start.

Lemma forwarded_write_once_witness :
  (exists w s', registering links 9 = Returned (Ok w, s') /\
     is_Some (get_session_actor_map "t" "x" (g_registry (group s'))) /\
     written_at_most_once (RegisterSession "t" "x" 3) start (registering links 9)) /\
  (exists e s', registering lossy 9 = Returned (Err e, s') /\
     is_Some (get_session_actor_map "t" "x" (g_registry (group s'))) /\
     written_at_most_once (RegisterSession "t" "x" 3) start (registering lossy 9)) /\
  (exists s', registering links 4 = Pending s' /\ get_session_actor_map "t" "x" (g_registry (group s')) = None /\
     written_at_most_once (RegisterSession "t" "x" 3) start (registering links 4)).
Proof.
  split_and!; [do 2 eexists|do 2 eexists|eexists].
  all: split; [vm_compute; reflexivity|]; split; [by vm_compute; eauto|].
  - apply (forwarded_write_once links 9 "c").
  - apply (forwarded_write_once lossy 9 "c").
  - apply (forwarded_write_once links 4 "c").
Defined.

Lemma registered_then_found_witness :
  exists i s', answer links 9 "c" (Send (RegisterSessionActorMap "t" "x" 3)) start = Returned (Ok (Ok i), s') /\
    forall addr', addr' ∈ nodes -> exists e,
      answer links 9 addr' (Send (GetSessionActorMapLinearizable "t" "x")) s' = Returned (Ok (Ok (Some e)), s') /\
      SessionMap.node_id e = 3 /\ instance_id e = i.
Proof.
  apply (registered_then_found links (fun _ => 2) 60 clock nodes term 2 "t" "x" 3 start).
  - done.
  - intros addr req g w g'. cbn. destruct (leader_of addr); [done|].
    destruct (apply_request _ _ _ _ _ _) as [[[r sent] st]| | |] eqn:Hr; intros [= <- <-]. by exists (g_index g), sent.
  - by apply all_up.
  - by eapply all_lead.
  - intros leader w g Hw. split; [by apply (all_lead tt)|]. intros other Ho.
    unfold client_write, linearizable, sample_group, leader_of in *. by repeat case_decide; simplify_eq.
  - set_solver.
  - lia.
Defined.

Lemma absent_lookup_fails_witness :
  answer links 9 "b" (Send (GetSessionActorMapLinearizable "t" "x")) start = Returned (Ok (Ok None), start) /\
  exists e, answer links 9 "a" (Send (GetSessionActorMapLinearizable "t" "x")) start =
    Returned (Ok (Err (UnexpectedResponseType ("invalid session actor map payload: " +:+ e))), start).
Proof.
  apply (absent_lookup_fails links "a" (mkNode None "b" "") "t" "x" 9 start); [done|..].
  - by apply all_up; [|set_solver].
  - by apply all_up; [|set_solver].
  - done.
  - done.
  - done.
  - lia.
Defined.

Lemma refused_registration_written_witness :
  let '(kept, first) := handle_register "t" "x" 3 default_actor in
  let '(running, again) := process_initialization (Ok tt) kept in
  first = Ret (Err (NotReady "Initializing")) /\ RegisterSessionActorMap "t" "x" 3 ∈ again /\
  (handle_register "t" "x" 3 running).2 =
    (response <-? handle_raft_write (RegisterSession "t" "x" 3);
     Ret (match cw_data response with
          | Registered id => Ok id
          | _ => Err (UnexpectedResponseType "registration did not return an instance ID")
          end)).
Proof. apply (refused_registration_written "t" "x" 3 default_actor). reflexivity. Defined.
End ForwardingSample.
