(* ===== verification/Router.v ===== *)
(** * The router ([broker/src/router_actor.rs], [stored_packet.rs], [rpc/cluster_service.rs])

    A router sends a published message to the sessions that subscribed to its topic:
    on this node through the session's mailbox, on another node by a gRPC call.  A
    message of QoS 1 or 2 for another node is first written to an outbox and, there,
    to an inbox, from which it is retried until it is delivered or given up.

    The functions of the source are programs ([Program]) over the operations of a node;
    [RouterSystem] interleaves programs operation by
    operation; [RouterRun] runs one from beginning to end. *)

From S2P Require Import Prelude Program Packet MessageExpiry TopicStorage RaftLog SessionMap V3Codec V3Convert.
From Stdlib Require Import Ascii.

#[local] Open Scope Z_scope.

(** ** Data *)

Inductive RouterActorError :=
  | GRPC (e : string)
  | ActorUnExceptedStopped (e : string)
  | TopicRaftError (e : string)
  | SessionActorMapRaftError (e : string)
  | GetSubscribersError (e : TopicStorageError)
  | TopicServiceError (e : string)
  | SerializationError (e : string)
  | PayloadStoreError (e : string)
  | RouteStoreError (e : string)
  | RoutedDeliveryError (e : string).

Record RouteRetryConfig := mkRetryConfig {
  max_retry_count : Z;
  retry_interval_seconds : Z;
  cleanup_interval_seconds : Z;
  message_ttl_seconds : Z;
}.
Definition default_retry_config : RouteRetryConfig := mkRetryConfig 120 1 300 86400.

Inductive RouteInboxStatus := Pending | Completed.
#[export] Instance RouteInboxStatus_eq_dec : EqDecision RouteInboxStatus.
Proof. solve_decision. Defined.

Record RouteOutboxItem := mkOutboxItem {
  o_route_id : string;
  o_tenant_id : string;
  o_source_node_id : NodeId;
  o_dest_node_id : NodeId;
  o_target_client_id : string;
  o_target_qos : Z;
  o_packet_key : string;
  o_retry_at : Z;
  o_attempts : Z;
  o_expiry_at : Z;
}.

Record RouteInboxItem := mkInboxItem {
  i_route_id : string;
  i_tenant_id : string;
  i_target_client_id : string;
  i_packet_key : string;
  i_retry_at : Z;
  i_attempts : Z;
  i_expiry_at : Z;
  i_status : RouteInboxStatus;
  i_completed_at : option Z;
}.

Record SharedSubscriptionRouteKey := mkRouteKey {
  k_tenant_id : string;
  k_share_name : string;
  k_topic_filter : string;
}.
#[export] Instance RouteKey_eq_dec : EqDecision SharedSubscriptionRouteKey.
Proof. solve_decision. Defined.
#[export] Instance RouteKey_countable : Countable SharedSubscriptionRouteKey.
Proof.
  by refine (inj_countable' (fun k => (k_tenant_id k, k_share_name k, k_topic_filter k))
    (fun '(t, s, f) => mkRouteKey t s f) _); intros [].
Defined.

(** What the topic group tells of a subscription. *)
Record SubscriptionInfo := mkSubscriptionInfo {
  si_client_identifier : string;
  si_qos : Z;
  si_no_local : bool;
  si_retain_as_published : bool;
  si_shared_group : option string;
  si_topic_filter : string;
}.
Definition subscription_info (x : Subscription) : SubscriptionInfo :=
  mkSubscriptionInfo (client_identifier x) (s_qos x) (s_no_local x) (s_retain_as_published x)
    (s_shared_group x) (s_topic_filter x).

(** [protobuf::RoutePacketRequest]; the payload is a JSON document. *)
Record RoutePacketRequest (Doc : Type) := mkRouteRequest {
  rq_tenant_id : string;
  rq_payload : Doc;
  rq_route_id : string;
  rq_source_node_id : NodeId;
  rq_target_client_id : string;
  rq_target_qos : Z;
  rq_expiry_at : Z;
}.
Arguments mkRouteRequest {Doc}.
Arguments rq_tenant_id {Doc}.
Arguments rq_payload {Doc}.
Arguments rq_route_id {Doc}.
Arguments rq_source_node_id {Doc}.
Arguments rq_target_client_id {Doc}.
Arguments rq_target_qos {Doc}.
Arguments rq_expiry_at {Doc}.

Record RouteFromOtherNode := mkRouteFrom {
  rf_tenant_id : string;
  rf_packet : Packet;
  rf_route_id : string;
  rf_source_node_id : NodeId;
  rf_target_client_id : string;
  rf_target_qos : Z;
  rf_expiry_at : Z;
}.

(** ** Programs *)

(** What a dropped message is about: the source only counts it. *)
Inductive Drop :=
  | NoSubscriber
  | PacketExpired (route_id : string) (packet : Packet) (now : Z)
  | RouteExhausted (route_id : string) (expiry_at attempts now : Z).

(** The tasks that are spawned. *)
Inductive Job :=
  | DispatchOutbox (item : RouteOutboxItem)
  | ProcessInbox (item : RouteInboxItem)
  | BestEffort (tenant_id : string) (dest_node_id : NodeId) (target_client_id : string) (target_qos : Z)
      (packet : Packet).

(** The operations: the clock, the stores of the router, the other actors of the node
    and the network.  [AcceptRouted] and [Dropped] name the route they settle. *)
Inductive op (Doc : Type) :=
  | Now
  | NewUuid
  | PayloadPut (key : string) (data : Doc)
  | PayloadGet (key : string)
  | PayloadDelete (key : string)
  | OutboxPut (key : string) (item : RouteOutboxItem)
  | OutboxDelete (key : string)
  | OutboxScan
  | InboxPut (key : string) (item : RouteInboxItem)
  | InboxGet (key : string)
  | InboxDelete (key : string)
  | InboxScan
  | GetNode (id : NodeId)
  | CallRoutePacket (dest_addr : string) (request : RoutePacketRequest Doc)
  | GetSession (tenant_id client_id : string)
  | DoSend (tenant_id client_id : string) (packet : Packet)
  | AcceptRouted (route_id tenant_id client_id : string) (packet : Packet)
  | Dropped (reason : Drop)
  | Spawn (job : Job)
  | LocalSubscriptions (tenant_id topic : string)
  | LinearizableSubscriptions (tenant_id topic : string)
  | GetSubscriptions (tenant_id topic : string)
  | LocalSessionMap (tenant_id client_id : string)
  | LinearizableSessionMap (tenant_id client_id : string)
  | NextCursor (key : SharedSubscriptionRouteKey) (len : nat)
  | GetAllTenantIds.
Arguments Now {Doc}.
Arguments NewUuid {Doc}.
Arguments PayloadPut {Doc}.
Arguments PayloadGet {Doc}.
Arguments PayloadDelete {Doc}.
Arguments OutboxPut {Doc}.
Arguments OutboxDelete {Doc}.
Arguments OutboxScan {Doc}.
Arguments InboxPut {Doc}.
Arguments InboxGet {Doc}.
Arguments InboxDelete {Doc}.
Arguments InboxScan {Doc}.
Arguments GetNode {Doc}.
Arguments CallRoutePacket {Doc}.
Arguments GetSession {Doc}.
Arguments DoSend {Doc}.
Arguments AcceptRouted {Doc}.
Arguments Dropped {Doc}.
Arguments Spawn {Doc}.
Arguments LocalSubscriptions {Doc}.
Arguments LinearizableSubscriptions {Doc}.
Arguments GetSubscriptions {Doc}.
Arguments LocalSessionMap {Doc}.
Arguments LinearizableSessionMap {Doc}.
Arguments NextCursor {Doc}.
Arguments GetAllTenantIds {Doc}.

(** The answer of an operation; an I/O error is its message. *)
Abbreviation io := (outcome string).
Definition res {Doc} (o : op Doc) : Type :=
  match o with
  | Now => Z
  | NewUuid => string
  | PayloadGet _ => io (option Doc)
  | PayloadPut _ _ | PayloadDelete _ | OutboxPut _ _ | OutboxDelete _ | InboxPut _ _ | InboxDelete _
  | CallRoutePacket _ _ => io unit
  | OutboxScan => io (list (string * RouteOutboxItem))
  | InboxGet _ => io (option RouteInboxItem)
  | InboxScan => io (list (string * RouteInboxItem))
  | GetNode _ => option string
  | GetSession _ _ => bool
  | AcceptRouted _ _ _ _ => io (io unit)
  | DoSend _ _ _ | Dropped _ | Spawn _ => unit
  | LocalSubscriptions _ _ => outcome TopicStorageError (list Subscription)
  | LinearizableSubscriptions _ _ => io (list SubscriptionInfo)
  | GetSubscriptions _ _ => io (io (list SubscriptionInfo))
  | LocalSessionMap _ _ => option SessionActorMapEntry
  | LinearizableSessionMap _ _ => io (option SessionActorMapEntry)
  | NextCursor _ _ => nat
  | GetAllTenantIds => io (list string)
  end.

Abbreviation prog Doc := (Program.prog (op Doc) res).
Definition call {Doc} (o : op Doc) : prog Doc (res o) := invoke o.
#[local] Open Scope prog_scope.

(** ** Packets in the stores *)

Section Router.
Context {Doc : Type} `{Serde Doc Packet, Serde Doc MqttPacketV3}.
Abbreviation result A := (prog Doc (outcome RouterActorError A)).

Definition serialize_stored_packet (packet : Packet) : outcome string Doc := to_vec packet.

(** A document written before the neutral packets is an MQTT 3 packet. *)
Definition deserialize_stored_packet (b : Doc) : outcome string Packet :=
  match from_slice b with
  | Ok packet => Ok packet
  | Err packet_error =>
      match from_slice (A := MqttPacketV3) b with
      | Ok packet => Ok (V3Convert.from packet)
      | Err _ => Err packet_error
      | Panic => Panic
      | OutOfFuel => OutOfFuel
      end
  | Panic => Panic
  | OutOfFuel => OutOfFuel
  end.

Definition build_packet_key (prefix route_id : string) : string := prefix +:+ ":" +:+ route_id.

Definition should_route_durably (packet : Packet) : bool :=
  match packet with PPublish publish_packet => 1 <=? pb_qos publish_packet | _ => false end.

Definition adjust_publish_for_subscriber (publish_packet : Publish) (subscriber_qos : Z)
    (retain_as_published : bool) : Publish :=
  let '(qos, packet_identifier) :=
    if subscriber_qos <=? pb_qos publish_packet then
      if (subscriber_qos =? 0) && (0 <? pb_qos publish_packet) then (0, None)
      else (subscriber_qos, pb_packet_identifier publish_packet)
    else (pb_qos publish_packet, pb_packet_identifier publish_packet) in
  mkPublish (pb_protocol_version publish_packet) (pb_topic_name publish_packet) (pb_payload publish_packet) qos
    (if retain_as_published then pb_retain publish_packet else false) (pb_dup publish_packet) packet_identifier
    (pb_properties publish_packet) (pb_expires_at_unix_secs publish_packet).

Definition serialize_packet (packet : Packet) : result Doc :=
  Ret (map_err SerializationError (serialize_stored_packet packet)).
Definition deserialize_packet (b : Doc) : result Packet :=
  Ret (map_err SerializationError (deserialize_stored_packet b)).

(** ** Delivery to a session of the node *)

Definition route_to_local_session (tenant_id client_id : string) (packet : Packet) : result bool :=
  recipient ← call (GetSession tenant_id client_id);
  if (recipient : bool) then _ ← call (DoSend tenant_id client_id packet); Ret (Ok true)
  else Ret (Ok false).

Definition route_to_local_session_durable (route_id tenant_id client_id : string) (packet : Packet) : result unit :=
  recipient ← call (GetSession tenant_id client_id);
  if (recipient : bool) then
    r <-? fails_with ActorUnExceptedStopped (call (AcceptRouted route_id tenant_id client_id packet));
    Ret (map_err RoutedDeliveryError r)
  else Ret (Err (RoutedDeliveryError ("session " +:+ client_id +:+ " not found locally"))).

(** ** The outbox *)

Section Config.
Context (cfg : RouteRetryConfig).

Definition route_to_other_node (dest_addr : string) (request : RoutePacketRequest Doc) : result unit :=
  fails_with GRPC (call (CallRoutePacket dest_addr request)).

Definition enqueue_durable_remote_route (current_node_id : NodeId) (tenant_id : string) (dest_node_id : NodeId)
    (target_client_id : string) (target_qos : Z) (packet : Packet) : result unit :=
  route_id ← call NewUuid;
  let packet_key := build_packet_key "route-outbox" route_id in
  now ← call Now;
  let expiry_at := route_expiry_at packet (message_ttl_seconds cfg) now in
  if expiry_at <=? now then _ ← call (Dropped (RouteExhausted route_id expiry_at 0 now)); Ret (Ok tt)
  else
    packet_bytes <-? serialize_packet packet;
    _ <-? fails_with PayloadStoreError (call (PayloadPut packet_key packet_bytes));
    let item := mkOutboxItem route_id tenant_id current_node_id dest_node_id target_client_id target_qos
                  packet_key now 0 expiry_at in
    r ← call (OutboxPut route_id item);
    match (r : io unit) with
    | Ok _ => _ ← call (Spawn (DispatchOutbox item)); Ret (Ok tt)
    | Err e => _ ← call (PayloadDelete (o_packet_key item)); Ret (Err (RouteStoreError e))
    | Panic => Ret Panic
    | OutOfFuel => Ret OutOfFuel
    end.

(** The item after a failed attempt. *)
Definition retry_outbox (now : Z) (item : RouteOutboxItem) : outcome RouterActorError RouteOutboxItem :=
  attempts ← add_u32 (o_attempts item) 1;
  retry_at ← add_u64 now (retry_interval_seconds cfg);
  Ok (mkOutboxItem (o_route_id item) (o_tenant_id item) (o_source_node_id item) (o_dest_node_id item)
        (o_target_client_id item) (o_target_qos item) (o_packet_key item) retry_at attempts (o_expiry_at item)).

Definition drop_outbox (reason : Drop) (item : RouteOutboxItem) : result unit :=
  _ ← call (Dropped reason);
  _ ← call (OutboxDelete (o_route_id item));
  _ ← call (PayloadDelete (o_packet_key item));
  Ret (Ok tt).

Definition dispatch_outbox_item (item : RouteOutboxItem) : result unit :=
  now ← call Now;
  if (o_expiry_at item <=? now) || (max_retry_count cfg <=? o_attempts item)
  then drop_outbox (RouteExhausted (o_route_id item) (o_expiry_at item) (o_attempts item) now) item
  else if now <? o_retry_at item then Ret (Ok tt)
  else
    dest_node ← call (GetNode (o_dest_node_id item));
    match (dest_node : option string) with
    | None =>
        item <-? Ret (retry_outbox now item);
        _ <-? fails_with RouteStoreError (call (OutboxPut (o_route_id item) item));
        Ret (Err (GRPC ("node " +:+ pretty (o_dest_node_id item) +:+ " not found")))
    | Some rpc_addr =>
        stored <-? fails_with PayloadStoreError (call (PayloadGet (o_packet_key item)));
        packet_bytes <-? Ret (from_option Ok
          (Err (PayloadStoreError ("route payload " +:+ o_packet_key item +:+ " not found"))) stored);
        packet <-? deserialize_packet packet_bytes;
        if is_packet_expired packet now then drop_outbox (PacketExpired (o_route_id item) packet now) item
        else
          payload <-? serialize_packet packet;
          r ← route_to_other_node rpc_addr
                (mkRouteRequest (o_tenant_id item) payload (o_route_id item) (o_source_node_id item)
                   (o_target_client_id item) (o_target_qos item) (o_expiry_at item));
          match r with
          | Ok _ =>
              _ <-? fails_with RouteStoreError (call (OutboxDelete (o_route_id item)));
              _ ← call (PayloadDelete (o_packet_key item));
              Ret (Ok tt)
          | Err err =>
              item <-? Ret (retry_outbox now item);
              _ <-? fails_with RouteStoreError (call (OutboxPut (o_route_id item) item));
              Ret (Err err)
          | Panic => Ret Panic
          | OutOfFuel => Ret OutOfFuel
          end
    end.

(** A message without acknowledgement is sent once, by a task of its own. *)
Definition best_effort_remote_route (tenant_id : string) (dest_node_id : NodeId) (target_client_id : string)
    (target_qos : Z) (packet : Packet) : prog Doc unit :=
  dest_node ← call (GetNode dest_node_id);
  match (dest_node : option string) with
  | None => Ret tt
  | Some rpc_addr =>
      match serialize_stored_packet packet with
      | Ok payload =>
          _ ← route_to_other_node rpc_addr (mkRouteRequest tenant_id payload "" 0 target_client_id target_qos 0);
          Ret tt
      | _ => Ret tt
      end
  end.
Definition dispatch_best_effort_remote_route (tenant_id : string) (dest_node_id : NodeId) (target_client_id : string)
    (target_qos : Z) (packet : Packet) : prog Doc unit :=
  call (Spawn (BestEffort tenant_id dest_node_id target_client_id target_qos packet)).

(** ** The inbox *)

Definition accept_route_from_other_node (msg : RouteFromOtherNode) : result unit :=
  now ← call Now;
  if is_packet_expired (rf_packet msg) now
  then _ ← call (Dropped (PacketExpired (rf_route_id msg) (rf_packet msg) now)); Ret (Ok tt)
  else if decide (rf_route_id msg = "") then
    route_to_local_session_durable "" (rf_tenant_id msg) (rf_target_client_id msg) (rf_packet msg)
  else
    known <-? fails_with RouteStoreError (call (InboxGet (rf_route_id msg)));
    if decide (is_Some known) then Ret (Ok tt)
    else
      let packet_key := build_packet_key "route-inbox" (rf_route_id msg) in
      packet_bytes <-? serialize_packet (rf_packet msg);
      _ <-? fails_with PayloadStoreError (call (PayloadPut packet_key packet_bytes));
      now ← call Now;
      expiry_at <-? (if 0 <? rf_expiry_at msg then Ret (Ok (rf_expiry_at msg))
                     else Ret (add_u64 now (message_ttl_seconds cfg)));
      let item := mkInboxItem (rf_route_id msg) (rf_tenant_id msg) (rf_target_client_id msg) packet_key now 0
                    expiry_at Pending None in
      _ <-? fails_with RouteStoreError (call (InboxPut (i_route_id item) item));
      _ ← call (Spawn (ProcessInbox item));
      Ret (Ok tt).

Definition complete_inbox (now : Z) (item : RouteInboxItem) : RouteInboxItem :=
  mkInboxItem (i_route_id item) (i_tenant_id item) (i_target_client_id item) (i_packet_key item) (i_retry_at item)
    (i_attempts item) (i_expiry_at item) Completed (Some now).
Definition retry_inbox (now : Z) (item : RouteInboxItem) : outcome RouterActorError RouteInboxItem :=
  attempts ← add_u32 (i_attempts item) 1;
  retry_at ← add_u64 now (retry_interval_seconds cfg);
  Ok (mkInboxItem (i_route_id item) (i_tenant_id item) (i_target_client_id item) (i_packet_key item) retry_at
        attempts (i_expiry_at item) (i_status item) (i_completed_at item)).

(** The record is marked and the payload deleted. *)
Definition finish_inbox (now : Z) (item : RouteInboxItem) : result unit :=
  let item := complete_inbox now item in
  _ <-? fails_with RouteStoreError (call (InboxPut (i_route_id item) item));
  _ ← call (PayloadDelete (i_packet_key item));
  Ret (Ok tt).

Definition process_inbox_item (item : RouteInboxItem) : result unit :=
  if decide (i_status item = Completed) then Ret (Ok tt)
  else
    now ← call Now;
    if (i_expiry_at item <=? now) || (max_retry_count cfg <=? i_attempts item) then
      _ ← call (Dropped (RouteExhausted (i_route_id item) (i_expiry_at item) (i_attempts item) now));
      finish_inbox now item
    else if now <? i_retry_at item then Ret (Ok tt)
    else
      stored <-? fails_with PayloadStoreError (call (PayloadGet (i_packet_key item)));
      packet_bytes <-? Ret (from_option Ok
        (Err (PayloadStoreError ("route payload " +:+ i_packet_key item +:+ " not found"))) stored);
      packet <-? deserialize_packet packet_bytes;
      if is_packet_expired packet now then
        _ ← call (Dropped (PacketExpired (i_route_id item) packet now));
        finish_inbox now item
      else
        r ← route_to_local_session_durable (i_route_id item) (i_tenant_id item) (i_target_client_id item) packet;
        match r with
        | Ok _ => finish_inbox now item
        | Err err =>
            item <-? Ret (retry_inbox now item);
            _ <-? fails_with RouteStoreError (call (InboxPut (i_route_id item) item));
            Ret (Err err)
        | Panic => Ret Panic
        | OutOfFuel => Ret OutOfFuel
        end.

(** ** The periodic scans *)

Definition process_route_outbox : prog Doc unit :=
  rows ← call OutboxScan;
  match (rows : io _) with
  | Ok rows => each (fun '(_, item) => dispatch_outbox_item item) rows
  | _ => Ret tt
  end.

Definition process_route_inbox : prog Doc unit :=
  rows ← call InboxScan;
  match (rows : io _) with
  | Ok rows => each (fun '(_, item) => process_inbox_item item) rows
  | _ => Ret tt
  end.

Definition retention_over (now : Z) (item : RouteInboxItem) : bool :=
  bool_decide (i_status item = Completed)
  && match i_completed_at item with
     | Some completed_at => message_ttl_seconds cfg <=? saturating_sub_u64 now completed_at
     | None => false
     end.

Definition cleanup_completed_inbox_items : prog Doc unit :=
  now ← call Now;
  rows ← call InboxScan;
  match (rows : io _) with
  | Ok rows =>
      each (fun '(_, item) =>
        if retention_over now item then _ ← call (InboxDelete (i_route_id item)); Ret tt else Ret tt) rows
  | _ => Ret tt
  end.

(** The body of a spawned task. *)
Definition job_program (j : Job) : prog Doc unit :=
  match j with
  | DispatchOutbox item => _ ← dispatch_outbox_item item; Ret tt
  | ProcessInbox item => _ ← process_inbox_item item; Ret tt
  | BestEffort t n c q p => best_effort_remote_route t n c q p
  end.

(** ** Routing *)

Section Route.
Context (current_node_id : NodeId).

Definition lookup_session_map (tenant_id client_id : string) : result (option SessionActorMapEntry) :=
  local ← call (LocalSessionMap tenant_id client_id);
  match (local : option SessionActorMapEntry) with
  | Some entry => Ret (Ok (Some entry))
  | None => fails_with SessionActorMapRaftError (call (LinearizableSessionMap tenant_id client_id))
  end.

(** Whether the message was given to a session or to its node. *)
Definition deliver_to_subscriber (tenant_id : string) (publish_packet : Publish) (item : SubscriptionInfo)
    : result bool :=
  session_actor_map <-? lookup_session_map tenant_id (si_client_identifier item);
  match session_actor_map with
  | None => Ret (Ok false)
  | Some session_actor_addr =>
      let adjusted_packet :=
        PPublish (adjust_publish_for_subscriber publish_packet (si_qos item) (si_retain_as_published item)) in
      if negb (node_id session_actor_addr =? current_node_id) then
        if should_route_durably adjusted_packet then
          _ <-? enqueue_durable_remote_route current_node_id tenant_id (node_id session_actor_addr)
                  (si_client_identifier item) (si_qos item) adjusted_packet;
          Ret (Ok true)
        else
          _ ← dispatch_best_effort_remote_route tenant_id (node_id session_actor_addr) (si_client_identifier item)
                (si_qos item) adjusted_packet;
          Ret (Ok true)
      else route_to_local_session tenant_id (si_client_identifier item) adjusted_packet
  end.

(** The subscriptions without a share name, and the others by group. *)
Definition normal_subs (subs : list SubscriptionInfo) : list SubscriptionInfo :=
  filter (fun s => si_shared_group s = None) subs.

Definition push_group (k : SharedSubscriptionRouteKey) (s : SubscriptionInfo)
    (m : gmap SharedSubscriptionRouteKey (list SubscriptionInfo)) :=
  <[k := from_option id [] (m !! k) ++ [s]]> m.
Definition shared_groups (tenant_id : string) (subs : list SubscriptionInfo)
    : gmap SharedSubscriptionRouteKey (list SubscriptionInfo) :=
  foldl (fun m s =>
    match si_shared_group s with
    | Some share_name => push_group (mkRouteKey tenant_id share_name (si_topic_filter s)) s m
    | None => m
    end) ∅ subs.

(** [sort_by] on the client identifier: a stable sort. *)
Fixpoint sort_insert (s : SubscriptionInfo) (l : list SubscriptionInfo) : list SubscriptionInfo :=
  match l with
  | [] => [s]
  | x :: l => if String.leb (si_client_identifier s) (si_client_identifier x) then s :: x :: l
              else x :: sort_insert s l
  end.
Definition sort_by_client (l : list SubscriptionInfo) : list SubscriptionInfo := foldr sort_insert [] l.

(** The members are tried from the [start]-th on, [offsets] being the ones left. *)
Fixpoint try_members (deliver : SubscriptionInfo -> result bool) (sorted : list SubscriptionInfo)
    (start : nat) (offsets : list nat) : result bool :=
  match offsets with
  | [] => Ret (Ok false)
  | i :: offsets =>
      match sorted !! ((start + i) mod length sorted)%nat with
      | None => Ret Panic
      | Some selected =>
          delivered <-? deliver selected;
          if (delivered : bool) then Ret (Ok true) else try_members deliver sorted start offsets
      end
  end.

Definition is_own_message (source_client_identifier : option string) (item : SubscriptionInfo) : bool :=
  si_no_local item
  && match source_client_identifier with
     | Some source => bool_decide (source = si_client_identifier item)
     | None => false
     end.

(** One group of the loop over [shared_groups]. *)
Definition route_group (tenant_id : string) (publish_packet : Publish) (source : option string)
    (key : SharedSubscriptionRouteKey) (candidates : list SubscriptionInfo) : result unit :=
  let eligible := filter (fun item => is_own_message source item = false) candidates in
  match eligible with
  | [] => Ret (Ok tt)
  | _ =>
      let sorted := sort_by_client eligible in
      start ← call (NextCursor key (length sorted));
      delivered <-? try_members (deliver_to_subscriber tenant_id publish_packet) sorted (start : nat)
                      (seq 0 (length sorted));
      if (delivered : bool) then Ret (Ok tt) else _ ← call (Dropped NoSubscriber); Ret (Ok tt)
  end.

Definition route (tenant_id : string) (packet : Packet) (source_client_identifier : option string) : result unit :=
  now ← call Now;
  if is_packet_expired packet now then _ ← call (Dropped (PacketExpired "" packet now)); Ret (Ok tt)
  else
    match packet with
    | PPublish publish_packet =>
        let topic := pb_topic_name publish_packet in
        local <-? fails_with GetSubscribersError (call (LocalSubscriptions tenant_id topic));
        subscriptions <-?
          match map subscription_info local with
          | [] => fails_with TopicServiceError (call (LinearizableSubscriptions tenant_id topic))
          | subscriptions => Ret (Ok subscriptions)
          end;
        match subscriptions with
        | [] => _ ← call (Dropped NoSubscriber); Ret (Ok tt)
        | _ =>
            _ <-? try_each (fun item =>
                    if is_own_message source_client_identifier item then Ret (Ok tt)
                    else _ <-? deliver_to_subscriber tenant_id publish_packet item; Ret (Ok tt))
                    (normal_subs subscriptions);
            try_each (fun '(key, candidates) =>
                route_group tenant_id publish_packet source_client_identifier key candidates)
              (map_to_list (shared_groups tenant_id subscriptions))
        end
    | _ => Ret (Ok tt)
    end.

(** One group of [publish_to_local_subscribers]. *)
Definition publish_group (tenant_id : string) (publish_packet : Publish) (key : SharedSubscriptionRouteKey)
    (candidates : list SubscriptionInfo) : result unit :=
  let sorted := sort_by_client candidates in
  start ← call (NextCursor key (length sorted));
  _ <-? try_members (fun selected =>
          route_to_local_session tenant_id (si_client_identifier selected)
            (PPublish (adjust_publish_for_subscriber publish_packet (si_qos selected)
                         (si_retain_as_published selected))))
          sorted (start : nat) (seq 0 (length sorted));
  Ret (Ok tt).

Definition publish_to_local_subscribers (tenant_id : string) (packet : Packet) : result unit :=
  now ← call Now;
  if is_packet_expired packet now then Ret (Ok tt)
  else
    match packet with
    | PPublish publish_packet =>
        answer <-? fails_with ActorUnExceptedStopped
                     (call (GetSubscriptions tenant_id (pb_topic_name publish_packet)));
        subscriptions <-? Ret (map_err TopicRaftError answer);
        _ <-? try_each (fun item =>
                _ <-? route_to_local_session tenant_id (si_client_identifier item)
                        (PPublish (adjust_publish_for_subscriber publish_packet (si_qos item)
                                     (si_retain_as_published item)));
                Ret (Ok tt)) (normal_subs subscriptions);
        try_each (fun '(key, candidates) => publish_group tenant_id publish_packet key candidates)
          (map_to_list (shared_groups tenant_id subscriptions))
    | _ => Ret (Ok tt)
    end.

(** [Handler<RouteFromOtherNode>]. *)
Definition handle_route_from_other_node (msg : RouteFromOtherNode) : result unit :=
  if decide (rf_target_client_id msg = "") then publish_to_local_subscribers (rf_tenant_id msg) (rf_packet msg)
  else accept_route_from_other_node msg.

(** [Handler<RoutePacketToAllTenants>]. *)
Definition handle_route_packet_to_all_tenants (packet : Packet) : result unit :=
  tenant_ids <-? fails_with ActorUnExceptedStopped (call GetAllTenantIds);
  try_each (fun tenant_id => publish_to_local_subscribers tenant_id packet) tenant_ids.

(** [ClusterService::route_packet], on the router it selects. *)
Definition route_packet (inner : RoutePacketRequest Doc) : prog Doc (outcome string unit) :=
  packet <-? Ret (map_err (fun e => "Invalid packet format: " +:+ e) (deserialize_stored_packet (rq_payload inner)));
  fails_with (fun _ => "Error in routing packet"%string)
    (handle_route_from_other_node
       (mkRouteFrom (rq_tenant_id inner) packet (rq_route_id inner) (rq_source_node_id inner)
          (rq_target_client_id inner) (rq_target_qos inner mod 256) (rq_expiry_at inner))).
End Route.
End Config.
End Router.

(** ** Documents *)

(** What is stored is read back. *)
Lemma stored_read {Doc : Type} `{SerdeSpec Doc Packet, Serde Doc MqttPacketV3} (p : Packet) (b : Doc) :
  to_vec p = Ok b -> deserialize_stored_packet b = Ok p.
Proof.
  intros Hto. destruct (serde_roundtrip p) as (b' & Hto' & Hfrom). rewrite Hto in Hto'. injection Hto' as <-.
  unfold deserialize_stored_packet. by rewrite Hfrom.
Qed.

(** Documents for the examples: packets themselves. *)
Module Plain.
#[export] Instance plain_packet : Serde Packet Packet := {| to_vec := Ok; from_slice := Ok |}.
#[export] Instance plain_v3 : Serde Packet MqttPacketV3 :=
  {| to_vec _ := Err "unsupported"%string; from_slice _ := Err "unsupported"%string |}.
#[export] Instance plain_spec : SerdeSpec Packet Packet.
Proof. intros p. by exists p. Qed.
End Plain.
