(* ===== verification/SessionStateRaft.v ===== *)
(** * The actor of the session states' group
    ([broker/src/raft/session_state/session_state_raft_actor.rs], [broker/src/rpc/raft_service.rs],
    [broker/src/rpc/cluster_service.rs])

    As the actor of the session registry ([SessionMapRaft]), with payloads: a command that
    names a payload is forwarded to the leader after the payload was pushed there, the
    in-flight messages are read from the payload store, and a node that misses payloads is
    not ready: it says so, does not vote and fetches what is missing. *)

From S2P Require Import Prelude Packet Inflight TopicFilter GrpcStatus RaftLog SessionState RaftSession V3Codec Program Payload PayloadSync RaftNetwork RaftActor Router.

#[local] Open Scope string_scope.
#[local] Open Scope Z_scope.
#[local] Open Scope prog_scope.

(** ** Data *)

(** [SessionStateRaftError]; an error of [openraft] is its text. *)
Inductive SessionStateRaftError :=
  | NotLeader (leader : option Node)
  | RaftClientWriteError (e : string)
  | RaftAppendEntriesError (e : string)
  | RaftInstallSnapshotError (e : string)
  | RaftNetworkError (e : string)
  | RaftInitializationError (e : string)
  | RaftFatalError (e : string)
  | RaftStorageError (e : string)
  | GRPC (status : Status)
  | GRPCConnect (e : string)
  | GRPCBusiness (e : GRPCBusinessError)
  | Serialize (e : string)
  | NotInitialized
  | NotReady (e : string)
  | ServiceUnavailable (e : string)
  | NoLeaderAvailable
  | UnexpectedResponseType (e : string)
  | StateNotExisted (e : string)
  | InflightFailed (e : InflightError).

(** The [Debug] forms the messages use. *)
Class StateDebug := { leader_debug : option Node -> string; business_display : GRPCBusinessError -> string }.

Definition state_error_display `{Tonic, StateDebug} (e : SessionStateRaftError) : string :=
  match e with
  | NotLeader leader => "Not leader, current leader: " +:+ leader_debug leader
  | RaftClientWriteError e => "Raft errror: " +:+ e
  | RaftAppendEntriesError e => "Raft append entries error: " +:+ e
  | RaftInstallSnapshotError e => "Raft install snapshot error: " +:+ e
  | RaftNetworkError e => "Network error: " +:+ e
  | RaftInitializationError e => "Raft init cluster error: " +:+ e
  | RaftFatalError e => "Raft fatal error: " +:+ e
  | RaftStorageError e => "Raft storage error: " +:+ e
  | GRPC status => "gRPC error: " +:+ status_display status
  | GRPCConnect e => "gRPC connect error: " +:+ e
  | GRPCBusiness e => "gRPC business error: " +:+ business_display e
  | Serialize e => "Serialization error: " +:+ e
  | NotInitialized => "Actor not initialized"
  | NotReady e => "Actor not ready: " +:+ e
  | ServiceUnavailable e => "Service unavailable: " +:+ e
  | NoLeaderAvailable => "No leader available"
  | UnexpectedResponseType e => "Unexpected response type: " +:+ e
  | StateNotExisted e => "Session state not existed: " +:+ e
  | InflightFailed PacketIdentifierHasExisted => "Packet identifier has existed: packet identifier has existed"
  end.

#[export] Instance state_errors `{Tonic, StateDebug} : ActorErrors SessionStateRaftError := {|
  err_not_ready := NotReady;
  err_unavailable := ServiceUnavailable;
  err_not_initialized := NotInitialized;
  err_display := state_error_display;
|}.

Abbreviation Written := (ClientWriteResponse SessionStateResponse).

Definition success_ack (packet_identifier : Z) : Ack := mkAck V3_1_1 packet_identifier RcSuccess default_properties.

(** The messages of the actor. *)
Inductive Msg `{Openraft} :=
  | MsgStoreOfflineMessage (tenant_id client_id packet_key : string)
  | MsgPopOfflineMessage (tenant_id client_id : string)
  | MsgGetSessionState (tenant_id client_id : string)
  | MsgGetSessionStateEnsureLinearizable (tenant_id client_id : string)
  | MsgCreateSessionState (tenant_id client_id : string) (protocol_version : option ProtocolVersion)
      (session_expiry_interval : option Z)
  | MsgDeleteSessionState (tenant_id client_id : string) (expected_disconnected_at : option Z)
  | MsgUpdateSessionConnectionState (tenant_id client_id : string) (disconnected_at update : option Z)
  | MsgScanExpiredSessions (now ttl : Z)
  | MsgSubscribeTopic (tenant_id client_id topic : string) (qos : Z) (no_local retain_as_published : bool)
  | MsgUnsubscribeTopic (tenant_id client_id topic : string)
  | MsgRegisterInflightRxPacket (tenant_id client_id : string) (packet_id qos : Z) (packet_key : string)
  | MsgRegisterInflightTxPacket (tenant_id client_id : string) (packet_id qos : Z) (packet_key : string)
  | MsgAdvanceInflightState (tenant_id client_id : string) (packet_id : Z)
  | MsgGetCurrentInflightPacket (tenant_id client_id : string) (packet_id : Z)
  | MsgGetCurrentInflightPacketLinearizable (tenant_id client_id : string) (packet_id : Z)
  | MsgGetNextInflightPacket (tenant_id client_id : string) (packet_id : Z)
  | MsgGetNextInflightPacketLinearizable (tenant_id client_id : string) (packet_id : Z)
  | MsgInflightCleanFinishedItems (tenant_id client_id : string)
  | MsgAppendEntries (payload : AppendEntriesRequest)
  | MsgInstallSnapshot (payload : InstallSnapshotRequest)
  | MsgVote (payload : VoteRequest)
  | MsgInitRaftCluster
  | MsgAddLearner (id : Z) (node : Node)
  | MsgChangeMembership (members : list Z)
  | MsgGetLeader
  | MsgDirectWriteToRaft (command : SessionStateRequest)
  | MsgGetRaftMetrics
  | MsgGetClusterNodes.

(** [SessionStateRaftActor]: what the actors share, the cell of the payload store and the retry
    interval of the settings.  The flag whether the node is ready is shared and read by [ReadyLoad]. *)
Record StateActor `{Openraft} := mkStateActor {
  sa_base : RaftActor SessionStateRaftError Msg;
  sa_payload_store : option unit;
  sa_inflight_retry_interval_secs : option Z;
}.
Arguments mkStateActor {_}.
Definition set_base `{Openraft} (b : RaftActor SessionStateRaftError Msg) (a : StateActor) : StateActor :=
  mkStateActor b (sa_payload_store a) (sa_inflight_retry_interval_secs a).

(** ** Operations *)

Inductive xop `{Openraft} :=
  | ClientWrite (command : SessionStateRequest)
  | EnsureLinearizable
  | RaftAppend (payload : AppendEntriesRequest)
  | RaftInstall (payload : InstallSnapshotRequest)
  | RaftVote (payload : VoteRequest)
  | RaftInitialize (nodes : gmap Z Node)
  | RaftAddLearner (id : Z) (node : Node)
  | RaftChangeMembership (members : list Z)
  | CurrentLeader
  | Metrics
  | CurrentTerm                                    (* of the vote, in the metrics *)
  | ReadStorage                                    (* this node's copy, under its read lock *)
  | Payloads (o : pop)
  | LazyChannel (addr : string)
  | RpcWrite (addr data : string)
  | RpcGetSessionState (addr tenant_id client_id : string)
  | RpcGetCurrentInflightPacket (addr tenant_id client_id : string) (packet_id : Z)
  | RpcGetNextInflightPacket (addr tenant_id client_id : string) (packet_id : Z)
  | ReadyLoad
  | ReadyStore (ready : bool).

Definition xres `{Openraft} (o : xop) : Type :=
  match o with
  | ClientWrite _ => outcome RaftFault Written
  | EnsureLinearizable => outcome RaftFault unit
  | RaftAppend _ => outcome string AppendEntriesResponse
  | RaftInstall _ => outcome string InstallSnapshotResponse
  | RaftVote _ => outcome string VoteResponse
  | RaftInitialize _ => outcome string unit
  | RaftAddLearner _ _ | RaftChangeMembership _ => outcome string Written
  | CurrentLeader => option Z
  | Metrics => RaftMetrics
  | CurrentTerm => Z
  | ReadStorage => SessionStateStorage
  | Payloads o => pres o
  | LazyChannel _ => outcome string unit
  | RpcWrite _ _ => outcome Status string
  | RpcGetSessionState _ _ _ => outcome Status (option string)
  | RpcGetCurrentInflightPacket _ _ _ _ | RpcGetNextInflightPacket _ _ _ _ => outcome Status (option string)
  | ReadyLoad => bool
  | ReadyStore _ => unit
  end.
Abbreviation xprog := (Program.prog xop xres).

Section Actor.
Context `{Openraft, Tonic, StateDebug, Prost ErrorDetail, Crc, ProstLen}.
Context `{Serde string SessionStateRequest, Serde string Written}.
Context `{Serde string (option SessionState), Serde string Packet, Serde string (option Packet)}.
Context `{Serde bytes Packet, Serde bytes MqttPacketV3}.
Abbreviation result A := (xprog (outcome SessionStateRaftError A)).

Definition xask (o : xop) : xprog (xres o) := invoke o.
Fixpoint with_payloads {A} (p : pprog A) : xprog A :=
  match p with
  | Ret a => Ret a
  | Do o k => Do (O := xop) (R := xres) (Payloads o) (fun r => with_payloads (k r))
  end.

(** ** Errors of another node *)

Definition leader_node_from_status (parsed : ParsedStatus) : option Node :=
  (fun addr => mkNode (leader_node_id parsed) addr "") <$> leader_addr parsed.

Definition map_remote_business_error (grpc_code : Code) (d : ErrorDetail) : SessionStateRaftError :=
  match detail_code d with
  | SessionStateNotFound => StateNotExisted (d_message d)
  | PacketIdentifierAlreadyExists => InflightFailed PacketIdentifierHasExisted
  | _ => GRPCBusiness (business_error_new grpc_code d)
  end.

Definition map_remote_status (status : Status) : SessionStateRaftError :=
  let parsed := decode_status status in
  if decide (error_kind parsed = Some ERROR_KIND_LEADER_REDIRECT) then NotLeader (leader_node_from_status parsed)
  else
    let rest :=
      if decide (error_kind parsed = Some ERROR_KIND_NO_LEADER) then NoLeaderAvailable
      else if decide (error_kind parsed = Some ERROR_KIND_NOT_READY) then NotReady (s_message status)
      else if decide (s_code status = Unavailable) then ServiceUnavailable (s_message status)
      else GRPC status in
    if decide (error_kind parsed = Some ERROR_KIND_BUSINESS) then
      match detail parsed with
      | Some d => map_remote_business_error (s_code status) d
      | None => rest
      end
    else rest.

(** [map_session_state_raft_error] of [raft_service.rs]. *)
Definition map_session_state_raft_error (action : string) (err : SessionStateRaftError) : Status :=
  match err with
  | NotLeader (Some leader) =>
      leader_redirect_status (action +:+ " requires leader handling at " +:+ rpc_addr leader) (rpc_addr leader)
        (GrpcStatus.node_id leader)
  | NotLeader None | NoLeaderAvailable => no_leader_status (action +:+ " failed: no leader available")
  | NotInitialized => not_ready_status (action +:+ " failed: session state raft not initialized")
  | NotReady message => not_ready_status (action +:+ " failed: " +:+ message)
  | ServiceUnavailable message | GRPCConnect message => status_new Unavailable (action +:+ " failed: " +:+ message)
  | StateNotExisted message =>
      business_status CodeNotFound (business_detail SessionStateNotFound message "session_state_raft")
  | InflightFailed PacketIdentifierHasExisted =>
      business_status CodeAlreadyExists
        (business_detail PacketIdentifierAlreadyExists "packet identifier has existed" "session_state_raft")
  | GRPCBusiness err => business_status (be_grpc_code err) (business_detail (be_code err) (be_message err) (be_node err))
  | GRPC status => status
  | other => fatal_status Internal (action +:+ " failed: " +:+ state_error_display other)
  end.

(** [map_session_state_raft_error] of [cluster_service.rs]. *)
Definition cluster_map_session_state_raft_error (action : string) (err : SessionStateRaftError) : Status :=
  match err with
  | Serialize message => fatal_status Internal (action +:+ " serialization failed: " +:+ message)
  | UnexpectedResponseType message =>
      fatal_status Internal (action +:+ " returned unexpected response: " +:+ message)
  | err => map_session_state_raft_error action err
  end.

(** ** Reads and writes *)

Definition try_local_linearizable_read : result unit :=
  r ← xask EnsureLinearizable;
  Ret (match r with
       | Ok _ => Ok tt
       | Err (ForwardToLeader leader) => Err (NotLeader leader)
       | Err (OtherFault _) => Err (NotLeader None)
       | Panic => Panic
       | OutOfFuel => OutOfFuel
       end).

Definition try_local_write (command : SessionStateRequest) : result Written :=
  r ← xask (ClientWrite command);
  Ret (match r with
       | Ok res => Ok res
       | Err (ForwardToLeader leader) => Err (NotLeader leader)
       | Err (OtherFault e) => Err (RaftClientWriteError e)
       | Panic => Panic
       | OutOfFuel => OutOfFuel
       end).

Definition send_to_remote_actor (addr : string) (msg : SessionStateRequest) : result Written :=
  _ <-? fails_with GRPCConnect (xask (LazyChannel addr));
  data <-? Ret (map_err Serialize (to_vec msg));
  data <-? fails_with map_remote_status (xask (RpcWrite addr data));
  Ret (map_err Serialize (from_slice data)).

Definition forward_to_leader (addr : string) (msg : SessionStateRequest) : result Written := send_to_remote_actor addr msg.

(** The answers of the state machine that are errors of the write. *)
Definition write_answer (r : Written) : outcome SessionStateRaftError Written :=
  match cw_data r with
  | InflightRegisterRxPacketResponse (Err (SSInflightError e)) => Err (InflightFailed e)
  | InflightRegisterTxPacketResponse (Err (SSInflightError e)) => Err (InflightFailed e)
  | InflightRegisterTxPacketResponse (Err (SessionStateNotExisted client_id)) =>
      Err (StateNotExisted ("Session state not existed for client_id: " +:+ client_id))
  | _ => Ok r
  end.

(** The payload of a command goes to the leader first. *)
Definition push_payload (payload_store : option unit) (leader : Node) (request : SessionStateRequest) : result unit :=
  match payload_store, request_key request with
  | Some _, Some k =>
      term ← xask CurrentTerm;
      r ← with_payloads (replicate (rpc_addr leader) k term);
      Ret (map_err (fun e => ServiceUnavailable ("push payload error " +:+ client_error_display e)) r)
  | _, _ => Ret (Ok tt)
  end.

Definition handle_raft_write (request : SessionStateRequest) (payload_store : option unit) : result Written :=
  r ← try_local_write request;
  match r with
  | Ok r => Ret (write_answer r)
  | Err (NotLeader (Some leader)) =>
      _ <-? push_payload payload_store leader request;
      forward_to_leader (rpc_addr leader) request
  | Err (NotLeader None) => Ret (Err NoLeaderAvailable)
  | r => Ret r
  end.

(** ** Handlers *)

(** A handler of the broker, with the message kept or not. *)
Definition serve {A} (kept : option Msg) (a : StateActor) (p : result A) : StateActor * result A :=
  let '(b, p) := serving kept (sa_base a) p in (set_base b a, p).
Definition replicate_with {A} (kept : option Msg) (a : StateActor) (p : result A) : StateActor * result A :=
  let '(b, p) := replicating kept (sa_base a) p in (set_base b a, p).

(** A command whose answer is only whether it succeeded. *)
Definition write_unit (a : StateActor) (command : SessionStateRequest) : result unit :=
  with_raft (sa_base a) NotInitialized (_ <-? handle_raft_write command (sa_payload_store a); Ret (Ok tt)).

Definition handle_store_offline (t c key : string) (a : StateActor) : StateActor * result unit :=
  serve (Some (MsgStoreOfflineMessage t c key)) a (write_unit a (AppendToPendingQueue t c key)).

Definition handle_pop_offline (t c : string) (a : StateActor) : StateActor * result (option string * option bytes) :=
  serve None a (with_raft (sa_base a) NotInitialized
    (res <-? handle_raft_write (PopFromPendingQueue t c) (sa_payload_store a);
     Ret (match cw_data res with
          | PopFromPendingQueueResult key payload => Ok (key, payload)
          | _ => Err (UnexpectedResponseType "pop from pending queue error, unexpected response")
          end))).

Definition handle_get_session_state (t c : string) (a : StateActor) : StateActor * result (option SessionState) :=
  serve (Some (MsgGetSessionState t c)) a (with_raft (sa_base a) NotInitialized (with_storage (sa_base a)
    (st ← xask ReadStorage; Ret (Ok (get_session_state t c st))))).

(** The state from the leader; what cannot be read is no state. *)
Definition session_state_at (leader : Node) (t c : string) : result (option SessionState) :=
  _ <-? fails_with GRPCConnect (xask (LazyChannel (rpc_addr leader)));
  payload <-? fails_with map_remote_status (xask (RpcGetSessionState (rpc_addr leader) t c));
  Ret (match payload with
       | Some payload =>
           match from_slice (A := option SessionState) payload with
           | Ok (Some s) => Ok (Some s)
           | Ok None => Ok None
           | Err _ => Ok None
           | Panic => Panic
           | OutOfFuel => OutOfFuel
           end
       | None => Ok None
       end).

Definition handle_get_session_state_linearizable (t c : string) (a : StateActor) : StateActor * result (option SessionState) :=
  serve (Some (MsgGetSessionStateEnsureLinearizable t c)) a (with_raft (sa_base a) NotInitialized
    (r ← try_local_linearizable_read;
     match r with
     | Ok _ => with_storage (sa_base a) (st ← xask ReadStorage; Ret (Ok (get_session_state t c st)))
     | Err (NotLeader (Some leader)) => session_state_at leader t c
     | Err (NotLeader None) => Ret (Err NoLeaderAvailable)
     | Err e => Ret (Err e)
     | Panic => Ret Panic
     | OutOfFuel => Ret OutOfFuel
     end)).

Definition handle_create (t c : string) (v : option ProtocolVersion) (e : option Z) (a : StateActor) : StateActor * result unit :=
  serve (Some (MsgCreateSessionState t c v e)) a
    (match sa_inflight_retry_interval_secs a with
     | None => Ret (Err NotInitialized)
     | Some secs => write_unit a (CreateSessionState t c secs v e)
     end).

Definition handle_delete (t c : string) (at_ : option Z) (a : StateActor) : StateActor * result unit :=
  serve (Some (MsgDeleteSessionState t c at_)) a (write_unit a (DeleteSessionState t c at_)).

Definition handle_update_connection (t c : string) (at_ update : option Z) (a : StateActor) : StateActor * result unit :=
  serve (Some (MsgUpdateSessionConnectionState t c at_ update)) a
    (write_unit a (UpdateSessionConnectionState t c at_ update)).

(** [ScanExpiredSessions]: only at the leader, and not forwarded. *)
Definition handle_scan (now ttl : Z) (a : StateActor) : StateActor * result (list (string * string * Z)) :=
  serve (Some (MsgScanExpiredSessions now ttl)) a (with_raft (sa_base a) NotInitialized
    (_ <-? try_local_linearizable_read;
     with_storage (sa_base a) (st ← xask ReadStorage; Ret (Ok (scan_expired_sessions now ttl st))))).

Definition handle_subscribe (t c topic : string) (qos : Z) (nl rap : bool) (a : StateActor) : StateActor * result unit :=
  serve (Some (MsgSubscribeTopic t c topic qos nl rap)) a
    (write_unit a (RaftSession.SubscribeTopic t c topic qos nl rap)).

Definition handle_unsubscribe (t c topic : string) (a : StateActor) : StateActor * result unit :=
  serve (Some (MsgUnsubscribeTopic t c topic)) a (write_unit a (RaftSession.UnsubscribeTopic t c topic)).

Definition handle_register_rx (t c : string) (id qos : Z) (key : string) (a : StateActor) : StateActor * result unit :=
  serve (Some (MsgRegisterInflightRxPacket t c id qos key)) a (write_unit a (InflightRegisterRxPacket t c id qos key)).

Definition handle_register_tx (t c : string) (id qos : Z) (key : string) (a : StateActor) : StateActor * result unit :=
  serve (Some (MsgRegisterInflightTxPacket t c id qos key)) a (write_unit a (InflightRegisterTxPacket t c id qos key false)).

Definition handle_advance (t c : string) (id : Z) (a : StateActor) : StateActor * result unit :=
  serve (Some (MsgAdvanceInflightState t c id)) a (write_unit a (InflightNextState t c id)).

(** The packet to send for an in-flight message: an acknowledgement, or the stored message again.
    [strict] is how an error of the store is answered. *)
Definition packet_of (strict : bool) (a : StateActor) (id : Z) (state : option InflightState) (key : option string)
    : result (option Packet) :=
  match state with
  | Some WaitPubcomp => Ret (Ok (Some (PPubrel (success_ack id))))
  | Some WaitPubrel => Ret (Ok (Some (PPubrec (success_ack id))))
  | Some WaitPubrec | Some WaitPuback =>
      match key with
      | None => Ret (Ok None)
      | Some key =>
          match sa_payload_store a with
          | None => Ret (Err NotInitialized)
          | Some _ =>
              r ← xask (Payloads (StoreGet key));
              Ret (match r with
                   | Ok (Some data) =>
                       match deserialize_stored_packet data with
                       | Ok packet => Ok (Some (Packet.set_dup 1 packet))
                       | Err _ => Ok None
                       | Panic => Panic
                       | OutOfFuel => OutOfFuel
                       end
                   | Ok None => Ok None
                   | Err e => if strict then Err (ServiceUnavailable (payload_error_display e)) else Ok None
                   | Panic => Panic
                   | OutOfFuel => OutOfFuel
                   end)
          end
      end
  | _ => Ret (Ok None)
  end.

(** [inflight_get_next_state_packet_key]. *)
Definition next_key (t c : string) (id : Z) (st : SessionStateStorage) : option string :=
  match get_session_state t c st with Some s => get_next_state_packet_key id (inflight s) | None => None end.

Definition local_packet (strict next : bool) (a : StateActor) (t c : string) (id : Z) : result (option Packet) :=
  with_storage (sa_base a)
    (st ← xask ReadStorage;
     packet_of strict a id (inflight_get_packet_state t c id st)
       (if next then next_key t c id st else inflight_get_current_packet_key t c id st)).

Definition handle_get_current (t c : string) (id : Z) (a : StateActor) : StateActor * result (option Packet) :=
  serve (Some (MsgGetCurrentInflightPacket t c id)) a (with_raft (sa_base a) NotInitialized (local_packet true false a t c id)).

Definition handle_get_next (t c : string) (id : Z) (a : StateActor) : StateActor * result (option Packet) :=
  serve (Some (MsgGetNextInflightPacket t c id)) a (with_raft (sa_base a) NotInitialized (local_packet true true a t c id)).

(** The packet from the leader; the answer there is the JSON of an [Option] and is read as a packet. *)
Definition packet_at (next : bool) (leader : Node) (t c : string) (id : Z) : result (option Packet) :=
  _ <-? fails_with GRPCConnect (xask (LazyChannel (rpc_addr leader)));
  packet <-? fails_with map_remote_status
    (if next then xask (RpcGetNextInflightPacket (rpc_addr leader) t c id)
     else xask (RpcGetCurrentInflightPacket (rpc_addr leader) t c id));
  match packet with
  | Some packet =>
      packet <-? Ret (map_err (fun e => Serialize ((if next then "deserialize next inflight packet failed: "
                                                    else "deserialize current inflight packet failed: ") +:+ e))
                        (from_slice (A := Packet) packet));
      Ret (Ok (Some packet))
  | None => Ret (Ok None)
  end.

(** The two linearizable lookups; [other] is the answer to another error of the read. *)
Definition linearizable_packet (next : bool) (other : SessionStateRaftError -> SessionStateRaftError) (a : StateActor)
    (t c : string) (id : Z) : result (option Packet) :=
  with_raft (sa_base a) NotInitialized
    (r ← try_local_linearizable_read;
     match r with
     | Ok _ => local_packet false next a t c id
     | Err (NotLeader (Some leader)) => packet_at next leader t c id
     | Err (NotLeader None) => Ret (Err NoLeaderAvailable)
     | Err e => Ret (Err (other e))
     | Panic => Ret Panic
     | OutOfFuel => Ret OutOfFuel
     end).

Definition handle_get_current_linearizable (t c : string) (id : Z) (a : StateActor) : StateActor * result (option Packet) :=
  serve (Some (MsgGetCurrentInflightPacketLinearizable t c id)) a (linearizable_packet false (fun e => e) a t c id).

Definition handle_get_next_linearizable (t c : string) (id : Z) (a : StateActor) : StateActor * result (option Packet) :=
  serve (Some (MsgGetNextInflightPacketLinearizable t c id)) a (linearizable_packet true (fun _ => NotLeader None) a t c id).

(** [InflightCleanFinishedItems]: before the actor runs it is answered as done. *)
Definition handle_clean_finished (t c : string) (a : StateActor) : StateActor * result unit :=
  match ra_state (sa_base a) with
  | Initializing => (set_base (keep (MsgInflightCleanFinishedItems t c) (sa_base a)) a, Ret (Ok tt))
  | _ => serve None a (write_unit a (InflightCleanFinishItems t c))
  end.

Definition handle_append_entries (payload : AppendEntriesRequest) (a : StateActor) : StateActor * result AppendEntriesResponse :=
  replicate_with (Some (MsgAppendEntries payload)) a (with_raft (sa_base a) (NotReady "Initializing")
    (fails_with RaftAppendEntriesError (xask (RaftAppend payload)))).

Definition handle_install_snapshot (payload : InstallSnapshotRequest) (a : StateActor)
    : StateActor * result InstallSnapshotResponse :=
  replicate_with (Some (MsgInstallSnapshot payload)) a (with_raft (sa_base a) (NotReady "Initializing")
    (fails_with RaftInstallSnapshotError (xask (RaftInstall payload)))).

(** A node that misses payloads does not vote. *)
Definition handle_vote (payload : VoteRequest) (a : StateActor) : StateActor * result VoteResponse :=
  replicate_with (Some (MsgVote payload)) a
    (is_ready ← xask ReadyLoad;
     if negb (is_ready : bool) then Ret (Err (NotReady "Missing payloads for snapshot"))
     else with_raft (sa_base a) NotInitialized (fails_with RaftAppendEntriesError (xask (RaftVote payload)))).

Definition handle_init_cluster (a : StateActor) : StateActor * result unit :=
  replicate_with None a (with_raft (sa_base a) (NotReady "Initializing")
    (match ra_settings (sa_base a) with
     | None => Ret (Err NotInitialized)
     | Some nodes => fails_with RaftInitializationError (xask (RaftInitialize nodes))
     end)).

Definition handle_add_learner (id : Z) (node : Node) (a : StateActor) : StateActor * result Written :=
  replicate_with (Some (MsgAddLearner id node)) a (with_raft (sa_base a) (NotReady "Initializing")
    (fails_with RaftClientWriteError (xask (RaftAddLearner id node)))).

Definition handle_change_membership (members : list Z) (a : StateActor) : StateActor * result Written :=
  replicate_with (Some (MsgChangeMembership members)) a (with_raft (sa_base a) (NotReady "Initializing")
    (fails_with RaftClientWriteError (xask (RaftChangeMembership members)))).

Definition handle_get_leader (a : StateActor) : StateActor * result (option Node) :=
  replicate_with None a (with_raft (sa_base a) (NotReady "Initializing")
    (leader ← xask CurrentLeader;
     match leader with
     | Some id => metrics ← xask Metrics; Ret (Ok (find_node (membership_nodes metrics) id))
     | None => Ret (Ok None)
     end)).

Definition handle_direct_write (command : SessionStateRequest) (a : StateActor) : StateActor * result Written :=
  replicate_with (Some (MsgDirectWriteToRaft command)) a (with_raft (sa_base a) (NotReady "Initializing")
    (handle_raft_write command (sa_payload_store a))).

(** [GetPayloadReady]. *)
Definition handle_payload_ready (a : StateActor) : xprog bool :=
  match ra_state (sa_base a) with Running => xask ReadyLoad | _ => Ret false end.

Definition handle_get_raft_metrics (a : StateActor) : StateActor * result RaftMetrics :=
  replicate_with None a (with_raft (sa_base a) (NotReady "Initializing") (metrics ← xask Metrics; Ret (Ok metrics))).

Definition handle_cluster_nodes (a : StateActor) : StateActor * result (list Z) :=
  match ra_state (sa_base a) with
  | Initializing => (a, Ret (Ok []))
  | Running =>
      (a, match ra_raft (sa_base a) with
          | Some _ => metrics ← xask Metrics; Ret (Ok (map fst (membership_nodes metrics)))
          | None => Ret (Ok [])
          end)
  | Failed e => (a, Ret (Err (ServiceUnavailable (state_error_display e))))
  | Stopped => (a, Ret (Err (NotReady "Actor is stopped")))
  end.

(** [process_pending_messages]: the kinds of messages that are sent again. *)
Definition replayed (m : Msg) : bool :=
  match m with
  | MsgStoreOfflineMessage _ _ _ | MsgPopOfflineMessage _ _ | MsgCreateSessionState _ _ _ _
  | MsgRegisterInflightRxPacket _ _ _ _ _ | MsgRegisterInflightTxPacket _ _ _ _ _ | MsgAdvanceInflightState _ _ _
  | MsgDeleteSessionState _ _ _ | MsgSubscribeTopic _ _ _ _ _ _ | MsgUnsubscribeTopic _ _ _ => true
  | _ => false
  end.
Definition process_initialization (r : outcome SessionStateRaftError unit) (a : StateActor) : StateActor * list Msg :=
  let '(b, again) := initialization_complete replayed r (sa_base a) in (set_base b a, again).

(** ** Integrity *)

(** The keys that sessions hold and the store does not, in the order of the table. *)
Fixpoint missing_payloads (keys : list string) (missing : list string) : xprog (list string) :=
  match keys with
  | [] => Ret missing
  | key :: keys =>
      r ← xask (Payloads (StoreContains key));
      missing_payloads keys (match r with Ok true => missing | _ => (missing ++ [key])%list end)
  end.

(** [PerformIntegrityCheck], every second: the future it starts. *)
Definition integrity_check : xprog unit :=
  st ← xask ReadStorage;
  missing ← missing_payloads (map fst (map_to_list (ref_counts st))) [];
  ready ← xask ReadyLoad;
  match missing with
  | [] => if (ready : bool) then Ret tt else xask (ReadyStore true)
  | _ =>
      _ ← (if (ready : bool) then xask (ReadyStore false) else Ret tt);
      leader ← xask CurrentLeader;
      match leader with
      | None => Ret tt
      | Some id =>
          metrics ← xask Metrics;
          match find_node (membership_nodes metrics) id with
          | None => Ret tt
          | Some node =>
              _ ← with_payloads (bulk_sync (rpc_addr node) (map (fun k => (k, 0, 0)) missing));
              Ret tt
          end
      end
  end.
Definition perform_integrity_check (a : StateActor) : xprog unit :=
  match ra_state (sa_base a), ra_raft (sa_base a), ra_storage (sa_base a), sa_payload_store a with
  | Running, Some _, Some _, Some _ => integrity_check
  | _, _, _, _ => Ret tt
  end.

(** ** Services *)

(** [RaftService::write] for this group, from the answer of the actor. *)
Definition served_write (r : outcome SessionStateRaftError Written) : outcome Status string :=
  match r with
  | Ok res => map_err (fun e => status_new Internal ("WriteResponse serialization error: " +:+ e)) (to_vec res)
  | Err e => Err (map_session_state_raft_error "session state write" e)
  | Panic => Panic
  | OutOfFuel => OutOfFuel
  end.

(** [ClusterService::get_session_state]: the leader's own copy. *)
Definition service_get_session_state (t c : string) (a : StateActor) : StateActor * xprog (outcome Status (option string)) :=
  let '(a, p) := handle_get_session_state t c a in
  (a, answer ← p;
      Ret (res ← map_err (cluster_map_session_state_raft_error "get session state") answer;
           payload ← map_err (fun e => status_new Internal ("Failed to serialize session state response: " +:+ e))
                       (to_vec (res : option SessionState));
           Ok (Some payload))).

(** [ClusterService::get_current_inflight_packet], from the answer of the actor. *)
Definition served_packet (next : bool) (r : outcome SessionStateRaftError (option Packet)) : outcome Status (option string) :=
  res ← map_err (cluster_map_session_state_raft_error
                   (if next then "get next inflight packet" else "get current inflight packet")) r;
  payload ← map_err (fun e => status_new Internal
              ((if next then "Failed to serialize next inflight packet response: "
                else "Failed to serialize current inflight packet response: ") +:+ e)) (to_vec res);
  Ok (Some payload).
End Actor.
