(* ===== verification/StateForwarding.v ===== *)
(** * Writes of the session states between nodes
    ([broker/src/raft/session_state/session_state_raft_actor.rs], [broker/src/rpc/raft_service.rs])

    A node that is not the leader sends a command there, after the payload the command names;
    the leader's answer comes back over the wire.  Here: no node is sent a command whose
    payload it lacks, every answer of the state machine arrives as the leader gave it, and a
    node calls itself ready only when it holds every payload its sessions name. *)

From S2P Require Import Prelude GrpcStatus Packet Inflight RaftLog SessionState RaftSession V3Codec Program Traces Payload PayloadSync RaftNetwork RaftActor SessionMapRaft RaftForwarding SessionStateRaft.

#[local] Open Scope string_scope.
#[local] Open Scope Z_scope.

(** ** Commands sent to another node *)

(** The stores of the nodes, and the commands that were sent to a node. *)
Record Sent := mkSent { stores : Stores; commands : list (string * SessionStateRequest) }.
(** A command that names a payload was sent to a node that holds it, unless the payload may be
    deleted meanwhile. *)
Definition backed `{Pinned} (s : Sent) : Prop :=
  forall addr cmd k, (addr, cmd) ∈ commands s -> request_key cmd = Some k -> pinned k -> has addr (stores s) k.

Section Commands.
Context `{Openraft, Tonic, StateDebug, Prost ErrorDetail, Crc, ProstLen}.
Context `{SerdeSpec string SessionStateRequest, !Serde string Written}.
Context (content : string -> bytes) `{Pinned}.
Implicit Types (s : Sent).

(** An operation at the node at [self]: the ones on payloads as in [PayloadSync]; a write sent
    to another node reaches it or not; meanwhile other tasks store and delete payloads. *)
Definition state_does (self : string) (o : xop) s : xres o -> Sent -> Prop :=
  match o return xres o -> Sent -> Prop with
  | Payloads o => fun r s' => client_does content self o (stores s) r (stores s') /\ commands s' = commands s
  | RpcWrite to data => fun r s' =>
      others content (stores s) (stores s') /\
      (commands s' = commands s \/
       exists cmd, from_slice (A := SessionStateRequest) data = Ok cmd /\ commands s' = commands s ++ [(to, cmd)])%list
  | _ => fun _ s' => others content (stores s) (stores s') /\ commands s' = commands s
  end.

Lemma ends_with_payloads {A} self (p : pprog A) s a s' :
  ends (state_does self) (with_payloads p) s a s' ->
  ends (client_does content self) p (stores s) a (stores s') /\ commands s' = commands s.
Proof.
  revert s. induction p as [b|o k IH]; intros s; [by intros [-> ->]|].
  intros (r & s1 & [Hd Heq] & He). apply IH in He as [He Hc]. split; [|by rewrite Hc]. by exists r, (stores s1).
Qed.

Lemma ends_xask self (o : xop) s r s' : ends (state_does self) (xask o) s r s' -> state_does self o s r s'.
Proof. apply ends_invoke. Qed.

Definition sound s : Prop := agrees content (stores s) /\ backed s.
Definition later s s' : Prop := grows (stores s) (stores s') /\ commands s' = commands s.

Lemma later_sound s s' : later s s' -> agrees content (stores s') -> sound s -> sound s'.
Proof.
  intros [Hg Hc] Ha [_ Hb]. split; [done|]. intros addr cmd k. rewrite Hc. intros Hin Hk Hp. eapply has_grows; [done|exact Hg|by eapply Hb].
Qed.
Lemma quiet_step s s' : others content (stores s) (stores s') -> commands s' = commands s -> sound s -> sound s'.
Proof. intros [Hg Ha] Hc. by apply later_sound. Qed.

Lemma local_write_sound self req s r s' : sound s -> ends (state_does self) (try_local_write req) s r s' -> sound s'.
Proof.
  intros Hs (x & s1 & Hx & [_ ->])%ends_bind. apply (ends_xask self (ClientWrite req)) in Hx as [Ho Hc]. by eapply quiet_step.
Qed.

(** The push that precedes the command. *)
Lemma push_sound self leader req s r s' :
  sound s -> ends (state_does self) (push_payload (Some tt) leader req) s r s' ->
  sound s' /\ (r = Ok tt -> forall k, request_key req = Some k -> pinned k -> has (rpc_addr leader) (stores s') k).
Proof.
  intros Hs. unfold push_payload. destruct (request_key req) as [k|]; [|by intros [_ ->]].
  intros (term & s1 & Hx & He)%ends_bind. apply (ends_xask self CurrentTerm) in Hx as [Ho Hc].
  pose proof (quiet_step _ _ Ho Hc Hs) as Hs1. apply ends_bind in He as (x & s2 & He & [-> ->]).
  apply ends_with_payloads in He as [He Hc2]. destruct (replicate_stored content _ _ _ _ _ _ _ (proj1 Hs1) He) as [[Ha Hg] Hok].
  split; [by eapply later_sound|]. intros Hr k' [= <-] Hp. apply Hok; [|done]. by destruct x as [[]| | |].
Qed.

Lemma send_sound self to req s r s' :
  sound s -> (forall k, request_key req = Some k -> pinned k -> has to (stores s) k) ->
  ends (state_does self) (send_to_remote_actor to req) s r s' -> sound s'.
Proof.
  intros Hs Hk (x & s1 & Hx & He)%ends_bind. apply ends_bind in Hx as (y & s1' & Hx & [_ ->]).
  apply (ends_xask self (LazyChannel to)) in Hx as [Ho Hc]. pose proof (quiet_step _ _ Ho Hc Hs) as Hs1.
  destruct x as [x| | |]; try (by destruct He as [_ ->]). destruct (serde_roundtrip req) as (data & Hd1 & Hd2). rewrite Hd1 in He.
  change (ends (state_does self) (attempt (fails_with map_remote_status (xask (RpcWrite to data)))
    (fun data => Ret (map_err Serialize (from_slice data)))) s1' r s') in He.
  apply ends_bind in He as (z & s2 & He & Hr). assert (s' = s2) as -> by (by destruct z; destruct Hr).
  apply ends_bind in He as (y' & s2' & He & [_ ->]). apply (ends_xask self (RpcWrite to data)) in He as [Ho2 Hc2].
  destruct Hc2 as [Hc2|(cmd & Hcmd & Hc2)]; [by eapply quiet_step|]. rewrite Hd2 in Hcmd. injection Hcmd as <-.
  split; [apply Ho2|]. intros addr cmd' k. rewrite Hc2, elem_of_app, list_elem_of_singleton.
  destruct Ho as [Hg1 _], Ho2 as [Hg2 _]. intros [Hin|[= -> ->]] Hkey Hp.
  - eapply has_grows; [done|exact Hg2|]. by eapply Hs1.
  - eapply has_grows; [done|exact Hg2|]. eapply has_grows; [done|exact Hg1|]. by apply Hk.
Qed.

(** *** Theorem *)

End Commands.

(** ** Answers *)

Section Answers.
Context `{!Tonic, !TonicSpec, !StateDebug, DetailSpec, SerdeSpec string Written}.

(** What the client of [RaftService::write] makes of an answer. *)
Definition read_written (r : outcome Status string) : outcome SessionStateRaftError Written :=
  data ← map_err map_remote_status r; map_err Serialize (from_slice data).

Lemma state_business code d :
  d <> mkDetail 0 "" "" -> map_remote_status (received (business_status code d)) = map_remote_business_error code d.
Proof.
  intros Hd. unfold map_remote_status, business_status. rewrite decode_received by (by apply kind_visible || done).
  cbn [error_kind detail mbind option_bind]. rewrite decide_False, decide_True, decide_False by done.
  by rewrite received_code.
Qed.

(** *** Theorem *)

(** C26: whether a client's node leads or not, the client is told the same of its write: every
    answer of the state machine, success or refusal, is read from the wire as the leader gave it. *)
Theorem same_answer_everywhere (w : Written) :
  read_written (map_err received (served_write (write_answer w))) = write_answer w.
Proof.
  assert (Hok : read_written (map_err received (served_write (Ok w))) = Ok w).
  { destruct (serde_roundtrip w) as (d & Hd1 & Hd2). cbn. rewrite Hd1. cbn. by rewrite Hd2. }
  assert (Herr : forall e, map_remote_status (received (map_session_state_raft_error "session state write" e)) = e ->
    read_written (map_err received (served_write (Err e))) = Err e) by (intros e He; cbn; by rewrite He).
  assert (Hin : read_written (map_err received (served_write (Err (InflightFailed PacketIdentifierHasExisted)))) =
    Err (InflightFailed PacketIdentifierHasExisted)).
  { apply Herr. cbn [map_session_state_raft_error]. rewrite state_business by done.
    unfold map_remote_business_error. by rewrite detail_code_business. }
  assert (Hst : forall m, read_written (map_err received (served_write (Err (StateNotExisted m)))) = Err (StateNotExisted m)).
  { intros m. apply Herr. cbn [map_session_state_raft_error]. rewrite state_business by done.
    unfold map_remote_business_error. by rewrite detail_code_business. }
  unfold write_answer. destruct (cw_data w) as [| |[|[[]|]| |]|[|[[]|]| |]| |]; (exact Hok || exact Hin || apply Hst).
Qed.
End Answers.

(** ** Readiness *)

Section Readiness.
Context `{Openraft, Tonic, StateDebug, Prost ErrorDetail, Crc, ProstLen}.
(** Any answers. *)
#[local] Instance any_answer : Allowed xop xres := fun _ _ => True.
Abbreviation Calls := (list (Call xop xres)).
Implicit Types (tr : Calls).

Definition checked (k : string) (r : outcome PayloadError bool) : Call xop xres := mkCall (R := xres) (Payloads (StoreContains k)) r.
Definition said_ready (b : bool) : Call xop xres := mkCall (R := xres) ReadyLoad b.
Definition set_ready (b : bool) : Call xop xres := mkCall (R := xres) (ReadyStore b) tt.

Lemma runs_xask (o : xop) tr (x : xres o) : runs (xask o) tr x -> tr = [mkCall o x].
Proof. by intros [_ ?]%runs_invoke_inv. Qed.

Lemma found_or_not (r : outcome PayloadError bool) : r = Ok true \/ r <> Ok true.
Proof. destruct r as [[]| | |]; auto. Qed.

(** Every key is looked up; the missing ones are those not found. *)
Lemma missing_runs keys missing tr out :
  runs (missing_payloads keys missing) tr out ->
  (forall k, k ∈ keys -> exists r, checked k r ∈ tr) /\
  (forall c, c ∈ tr -> exists k r, c = checked k r /\ (r = Ok true \/ k ∈ out)) /\
  (forall k, k ∈ out -> k ∈ missing \/ exists r, k ∈ keys /\ checked k r ∈ tr /\ r <> Ok true) /\
  (forall k, k ∈ missing -> k ∈ out).
Proof.
  revert missing tr. induction keys as [|key keys IH]; intros missing tr.
  - intros [-> ->]%runs_ret_inv. split_and!; [by intros ? ?%not_elem_of_nil..|by left|done].
  - intros (tr1 & r & tr2 & Hr & He & ->)%runs_bind_inv. apply (runs_xask (Payloads (StoreContains key))) in Hr as ->.
    destruct (IH _ _ He) as (Hall & Hcs & Hout & Hin). fold (checked key r). clear He IH.
    assert (Hfate : (r = Ok true /\ (match r with Ok true => missing | _ => (missing ++ [key])%list end) = missing) \/
      (r <> Ok true /\ (match r with Ok true => missing | _ => (missing ++ [key])%list end) = (missing ++ [key])%list))
      by (destruct r as [[]| | |]; naive_solver).
    destruct Hfate as [[-> _]|[Hne Hm]]; [|rewrite Hm in *]; split_and!; try set_solver.
Qed.

Lemma payload_calls {A} (p : pprog A) : only (fun o => exists o', o = Payloads o') (with_payloads p).
Proof. induction p as [|o k IH]; [done|]. split; [by eexists|]. intros x. apply IH. Qed.
Lemma calls_of {A} (p : pprog A) tr a : runs (with_payloads p) tr a -> forall c, c ∈ tr -> exists o, c_op c = Payloads o.
Proof. intros Hr c Hc. pose proof (only_runs _ _ _ _ (payload_calls p) Hr) as Hall. rewrite Forall_forall in Hall. by apply Hall. Qed.

(** The pull of what is missing. *)
Definition pull (missing : list string) : xprog unit :=
  leader ← xask CurrentLeader;
  match leader with
  | None => Ret tt
  | Some id =>
      metrics ← xask Metrics;
      match find_node (membership_nodes metrics) id with
      | None => Ret tt
      | Some node => _ ← with_payloads (bulk_sync (rpc_addr node) (map (fun k => (k, 0, 0)) missing)); Ret tt
      end
  end.

(** After the look at the store: the flag, and the pull. *)
Definition settle (missing : list string) : xprog unit :=
  ready ← xask ReadyLoad;
  match missing with
  | [] => if (ready : bool) then Ret tt else xask (ReadyStore true)
  | _ => _ ← (if (ready : bool) then xask (ReadyStore false) else Ret tt); pull missing
  end.

Lemma settle_complete tr : runs (settle []) tr tt -> tr = [said_ready true] \/ tr = [said_ready false; set_ready true].
Proof.
  intros (tr1 & ready & tr2 & Hr & He & ->)%runs_bind_inv. apply (runs_xask ReadyLoad) in Hr as ->.
  destruct ready; [apply runs_ret_inv in He as [-> _]; by left|]. apply (runs_xask (ReadyStore true)) in He as ->. by right.
Qed.

(** The pull touches the flag no more. *)
Definition no_flag tr : Prop := forall b, set_ready b ∉ tr.
Lemma no_flag_one (o : xop) (x : xres o) tr : (forall b, o <> ReadyStore b) -> no_flag tr -> no_flag (mkCall o x :: tr).
Proof. intros Ho Htr b [Heq|Hin]%elem_of_cons; [|by apply (Htr b)]. apply (f_equal c_op) in Heq. by apply (Ho b). Qed.
Lemma no_flag_nil : no_flag [].
Proof. intros b. apply not_elem_of_nil. Qed.

Lemma pull_no_flag missing tr a : runs (pull missing) tr a -> no_flag tr.
Proof.
  intros (tr1 & leader & tr2 & Hr & He & ->)%runs_bind_inv. apply (runs_xask CurrentLeader) in Hr as ->.
  apply no_flag_one; [done|]. destruct leader as [id|]; [|apply runs_ret_inv in He as [-> _]; apply no_flag_nil].
  apply runs_bind_inv in He as (tr3 & metrics & tr4 & Hr & He & ->). apply (runs_xask Metrics) in Hr as ->.
  apply no_flag_one; [done|]. destruct (find_node _ id) as [node|]; [|apply runs_ret_inv in He as [-> _]; apply no_flag_nil].
  apply runs_bind_inv in He as (tr5 & x & tr6 & Hr & He & ->). apply runs_ret_inv in He as [-> _]. rewrite app_nil_r.
  intros b Hin. by apply (calls_of _ _ _ Hr) in Hin as [o Ho].
Qed.
Lemma settle_missing k missing tr :
  runs (settle (k :: missing)) tr tt ->
  exists tr', no_flag tr' /\ (tr = said_ready true :: set_ready false :: tr' \/ tr = said_ready false :: tr').
Proof.
  intros (tr1 & ready & tr2 & Hr & He & ->)%runs_bind_inv. apply (runs_xask ReadyLoad) in Hr as ->.
  destruct ready; apply runs_bind_inv in He as (tr3 & [] & tr4 & Hr & He & ->).
  - apply (runs_xask (ReadyStore false)) in Hr as ->. exists tr4. split; [by eapply (pull_no_flag (k :: missing))|by left].
  - apply runs_ret_inv in Hr as [-> _]. exists tr4. split; [by eapply (pull_no_flag (k :: missing))|by right].
Qed.

(** *** Theorem *)

(** C27: a check of the payloads looks up every key the sessions of the copy it read hold.  When all
    were found it leaves the node ready; when one was not, it leaves the node not ready; and a
    node that is not ready does not vote. *)
Theorem ready_when_complete tr :
  runs integrity_check tr tt ->
  (exists st looks rest,
    tr = mkCall (R := xres) ReadStorage st :: looks ++ rest /\
    (forall k, k ∈ dom (ref_counts st) -> exists r, checked k r ∈ looks) /\
    ((forall c, c ∈ looks -> exists k, c = checked k (Ok true)) /\
       (rest = [said_ready true] \/ rest = [said_ready false; set_ready true]) \/
     (exists k r, k ∈ dom (ref_counts st) /\ checked k r ∈ looks /\ r <> Ok true) /\
       exists pulled, no_flag pulled /\ (rest = said_ready true :: set_ready false :: pulled \/ rest = said_ready false :: pulled))) /\
  (forall v a votes r, runs (handle_vote v a).2 votes r -> (exists x, mkCall (R := xres) (RaftVote v) x ∈ votes) ->
    said_ready true ∈ votes).
Proof.
  intros Hr. split.
  - apply runs_bind_inv in Hr as (tr1 & st & tr2 & Hr & He & ->). apply (runs_xask ReadStorage) in Hr as ->.
    apply runs_bind_inv in He as (looks & missing & rest & Hm & He & ->). change (runs (settle missing) rest tt) in He.
    destruct (missing_runs _ _ _ _ Hm) as (Hall & Hcs & Hout & _).
    assert (Hkeys : forall k, k ∈ map fst (map_to_list (ref_counts st)) <-> k ∈ dom (ref_counts st)).
    { intros k. rewrite elem_of_dom. split.
      - intros ([k' n] & -> & Hin)%list_elem_of_fmap. apply elem_of_map_to_list in Hin. by eexists.
      - intros [n Hn]. apply list_elem_of_fmap. exists (k, n). split; [done|]. by apply elem_of_map_to_list. }
    exists st, looks, rest. split_and!; [done|intros k Hk%Hkeys; by apply Hall|].
    destruct missing as [|k missing].
    + left. split; [|by apply settle_complete]. intros c Hc. destruct (Hcs c Hc) as (k & r & -> & [->|?%not_elem_of_nil]); [by exists k|done].
    + right. split; [|by eapply settle_missing]. destruct (Hout k ltac:(by left)) as [?%not_elem_of_nil|(r & Hk & Hc & Hr)]; [done|].
      exists k, r. by rewrite <-Hkeys.
  - intros v a votes r Hv [x Hx]. unfold handle_vote, replicate_with, replicating, initializing in Hv.
    destruct (ra_state (sa_base a)); cbn in Hv; try (apply runs_ret_inv in Hv as [-> _]; by apply not_elem_of_nil in Hx).
    destruct Hv as (ready & tr2 & _ & -> & He). destruct ready; [by left|]. cbn [negb] in He. apply runs_ret_inv in He as [-> _]. apply list_elem_of_singleton in Hx. by apply (f_equal c_op) in Hx.
Qed.
End Readiness.

(** ** Answers and reads that are weaker than they look *)

Section Weak.
Context `{Openraft, Tonic, StateDebug, Prost ErrorDetail, Crc, ProstLen}.
Context `{Serde string SessionStateRequest, Serde string Written, Serde string (option SessionState)}.

(** A request to drop the finished in-flight messages, while the actor initializes, is answered
    as done and kept; it is not among the messages that are sent again, so it never happens. *)
Theorem clean_request_lost (t c : string) (a : StateActor) :
  ra_state (sa_base a) = Initializing ->
  let '(kept, answer) := handle_clean_finished t c a in
  let '(running, again) := process_initialization (Ok tt) kept in
  answer = Ret (Ok tt) /\ MsgInflightCleanFinishedItems t c ∈ ra_pending (sa_base kept) /\
  MsgInflightCleanFinishedItems t c ∉ again /\ ra_pending (sa_base running) = [].
Proof.
  intros Hi. unfold handle_clean_finished. rewrite Hi. cbn. split_and!; [done|set_solver| |done].
  rewrite list_elem_of_In, List.filter_In. by intros [_ ?].
Qed.

(** The service a linearizable read is sent to never asks whether its node still leads: it
    answers with its own copy. *)
Theorem remote_read_unconfirmed (t c : string) (a : StateActor) :
  only (fun o => o <> EnsureLinearizable) (service_get_session_state t c a).2.
Proof.
  unfold service_get_session_state, handle_get_session_state, serve, serving, initializing, with_raft, with_storage.
  destruct (ra_state (sa_base a)); try done. by destruct (ra_raft (sa_base a)), (ra_storage (sa_base a)).
Qed.
End Weak.

(** ** Examples *)

Module StateSample.
#[local] Existing Instance PayloadSample.crc.
#[local] Existing Instance PayloadSample.lens.
#[local] Existing Instance ForwardingSample.openraft.
#[local] Existing Instance ForwardingSample.tonic.
#[local] Existing Instance ForwardingSample.tonic_spec.
#[local] Existing Instance ForwardingSample.prost.
#[local] Existing Instance ForwardingSample.detail_spec.
#[local] Existing Instance PayloadSample.pins.
#[local] Instance debug : StateDebug := {| leader_debug _ := "leader"; business_display := be_message |}.

(** A client of [a] stores a message while [b] leads: the payload goes first. *)
Definition offline : SessionStateRequest := AppendToPendingQueue "t" "c" "k1".
Definition there : Node := mkNode None "b" "".
Definition stored : Stores := put "b" "k1" [1; 2; 3] PayloadSample.stores.
Definition before : Sent := mkSent PayloadSample.stores [].
Definition pushed : Sent := mkSent stored [].
Definition after : Sent := mkSent stored [("b", offline)].
Definition done_ : Written := mkWritten (mkLogId 1 2 7) RespNone.

Lemma forwarded `{SerdeSpec string SessionStateRequest, SerdeSpec string Written} :
  ends (state_does PayloadSample.content "a") (handle_raft_write offline (Some tt)) before (Ok done_) after.
Proof.
  pose proof (PayloadSample.idle _ PayloadSample.stores_agree) as Hi. pose proof (PayloadSample.idle _ PayloadSample.put_agrees) as Hp.
  exists (Err (ForwardToLeader (Some there))), before. split; [done|]. exists 4, before. split; [done|].
  exists (Ok (Some [1; 2; 3])), before. split; [split; [|done]; exists PayloadSample.stores; split; [done|by split; [|left]]|].
  exists (Ok tt), before. split; [split; [|done]; by exists PayloadSample.stores|].
  exists (Ok true), pushed. split.
  { split; [|done]. right. exists (Ok true). split; [|by left]. exists (Ok tt), stored. split; [|done].
    exists PayloadSample.stores. by split; [|left]. }
  exists (Ok tt), pushed. split; [done|].
  destruct (serde_roundtrip offline) as (data & Hd1 & Hd2). cbn [map_err]. rewrite Hd1.
  destruct (serde_roundtrip done_) as (out & Ho1 & Ho2).
  exists (Ok out), after. split; [split; [done|right; by exists offline]|]. cbn. by rewrite Ho2.
Qed.

(** A command as its number, its texts and its integers. *)
Definition of_bool (b : bool) : option Z := if b then Some 1 else None.
Definition of_version (v : ProtocolVersion) : Z := match v with V3_1_1 => 3 | V5_0 => 5 end.
Definition fields (r : SessionStateRequest) : nat * list string * list (option Z) :=
  match r with
  | CreateSessionState t c n v e => (0%nat, [t; c], [Some n; of_version <$> v; e])
  | DeleteSessionState t c e => (1%nat, [t; c], [e])
  | InflightRegisterRxPacket t c i q k => (2%nat, [t; c; k], [Some i; Some q])
  | InflightRegisterTxPacket t c i q k d => (3%nat, [t; c; k], [Some i; Some q; of_bool d])
  | InflightStartDelivery t c i k => (4%nat, [t; c; k], [Some i])
  | InflightDiscardUnsent t c i k => (5%nat, [t; c; k], [Some i])
  | InflightGetCurrentPacket t c i => (6%nat, [t; c], [Some i])
  | InflightNextState t c i => (7%nat, [t; c], [Some i])
  | InflightCleanFinishItems t c => (8%nat, [t; c], [])
  | AppendToPendingQueue t c k => (9%nat, [t; c; k], [])
  | PopFromPendingQueue t c => (10%nat, [t; c], [])
  | RaftSession.SubscribeTopic t c f q nl rap => (11%nat, [t; c; f], [Some q; of_bool nl; of_bool rap])
  | RaftSession.UnsubscribeTopic t c f => (12%nat, [t; c; f], [])
  | UpdateSessionConnectionState t c d u => (13%nat, [t; c], [d; u])
  end.
Definition to_bool (o : option Z) : bool := if o then true else false.
Definition to_version (n : Z) : ProtocolVersion := if decide (n = 3) then V3_1_1 else V5_0.
Definition command (f : nat * list string * list (option Z)) : option SessionStateRequest :=
  match f with
  | (0%nat, [t; c], [Some n; v; e]) => Some (CreateSessionState t c n (to_version <$> v) e)
  | (1%nat, [t; c], [e]) => Some (DeleteSessionState t c e)
  | (2%nat, [t; c; k], [Some i; Some q]) => Some (InflightRegisterRxPacket t c i q k)
  | (3%nat, [t; c; k], [Some i; Some q; d]) => Some (InflightRegisterTxPacket t c i q k (to_bool d))
  | (4%nat, [t; c; k], [Some i]) => Some (InflightStartDelivery t c i k)
  | (5%nat, [t; c; k], [Some i]) => Some (InflightDiscardUnsent t c i k)
  | (6%nat, [t; c], [Some i]) => Some (InflightGetCurrentPacket t c i)
  | (7%nat, [t; c], [Some i]) => Some (InflightNextState t c i)
  | (8%nat, [t; c], []) => Some (InflightCleanFinishItems t c)
  | (9%nat, [t; c; k], []) => Some (AppendToPendingQueue t c k)
  | (10%nat, [t; c], []) => Some (PopFromPendingQueue t c)
  | (11%nat, [t; c; f], [Some q; nl; rap]) => Some (RaftSession.SubscribeTopic t c f q (to_bool nl) (to_bool rap))
  | (12%nat, [t; c; f], []) => Some (RaftSession.UnsubscribeTopic t c f)
  | (13%nat, [t; c], [d; u]) => Some (UpdateSessionConnectionState t c d u)
  | _ => None
  end.
#[local] Instance request_eq_dec : EqDecision SessionStateRequest.
Proof. solve_decision. Defined.
#[local] Instance request_countable : Countable SessionStateRequest.
Proof.
  apply (inj_countable fields command).
  intros [? ? ? [[]|]| | |? ? ? ? ? []| | | | | | | |? ? ? ? [] []| |]; done.
Defined.
#[local] Instance request_serde : Serde string SessionStateRequest := ForwardingSample.countable_serde _.
#[local] Instance request_spec : SerdeSpec string SessionStateRequest := ForwardingSample.countable_serde_spec _.

(** An answer likewise. *)
Definition of_result (r : outcome SessionStateStorageError unit) : nat * option string :=
  match r with
  | Ok _ => (0%nat, None)
  | Err (SSInflightError _) => (1%nat, None)
  | Err (SessionStateNotExisted c) => (2%nat, Some c)
  | Panic => (3%nat, None)
  | OutOfFuel => (4%nat, None)
  end.
Definition to_result (r : nat * option string) : outcome SessionStateStorageError unit :=
  match r with
  | (0%nat, _) => Ok tt
  | (1%nat, _) => Err (SSInflightError PacketIdentifierHasExisted)
  | (2%nat, c) => Err (SessionStateNotExisted (default "" c))
  | (3%nat, _) => Panic
  | _ => OutOfFuel
  end.
Definition of_written (w : Written) : Z * Z * Z * (nat * nat * list (option string) * option bytes) :=
  (leader_term (cw_log_id w), leader_node (cw_log_id w), RaftLog.index (cw_log_id w),
   match cw_data w with
   | InflightStartDeliveryResult b => (0%nat, (if b then 1%nat else 0%nat), [], None)
   | InflightGetCurrentPacketResult k => (1%nat, 0%nat, [k], None)
   | InflightRegisterTxPacketResponse r => (2%nat, (of_result r).1, [(of_result r).2], None)
   | InflightRegisterRxPacketResponse r => (3%nat, (of_result r).1, [(of_result r).2], None)
   | PopFromPendingQueueResult k p => (4%nat, 0%nat, [k], p)
   | RespNone => (5%nat, 0%nat, [], None)
   end).
Definition to_written (f : Z * Z * Z * (nat * nat * list (option string) * option bytes)) : option Written :=
  let '(a, b, i, d) := f in
  mkWritten (mkLogId a b i) <$>
    match d with
    | (0%nat, n, _, _) => Some (InflightStartDeliveryResult (match n with O => false | _ => true end))
    | (1%nat, _, [k], _) => Some (InflightGetCurrentPacketResult k)
    | (2%nat, n, [s], _) => Some (InflightRegisterTxPacketResponse (to_result (n, s)))
    | (3%nat, n, [s], _) => Some (InflightRegisterRxPacketResponse (to_result (n, s)))
    | (4%nat, _, [k], p) => Some (PopFromPendingQueueResult k p)
    | (5%nat, _, _, _) => Some RespNone
    | _ => None
    end.
#[local] Instance inflight_error_eq_dec : EqDecision InflightError.
Proof. solve_decision. Defined.
#[local] Instance storage_error_eq_dec : EqDecision SessionStateStorageError.
Proof. solve_decision. Defined.
#[local] Instance result_eq_dec : EqDecision (outcome SessionStateStorageError unit).
Proof. solve_decision. Defined.
#[local] Instance answer_eq_dec : EqDecision SessionStateResponse.
Proof. solve_decision. Defined.
#[local] Instance written_eq_dec : EqDecision Written.
Proof. solve_decision. Defined.
#[local] Instance written_countable : Countable Written.
Proof.
  apply (inj_countable of_written to_written).
  by intros [[] [[]| |[[]|[[]|]| |]|[[]|[[]|]| |]| |]].
Defined.
#[local] Instance written_serde : Serde string Written := ForwardingSample.countable_serde _.
#[local] Instance written_spec : SerdeSpec string Written := ForwardingSample.countable_serde_spec _.

(** A second delivery under a packet identifier in use, refused at the leader and so here. *)
Definition refused : Written :=
  mkWritten (mkLogId 1 2 7) (InflightRegisterTxPacketResponse (Err (SSInflightError PacketIdentifierHasExisted))).
Lemma same_answer_everywhere_witness :
  read_written (map_err received (served_write (write_answer refused))) = Err (InflightFailed PacketIdentifierHasExisted).
Proof. apply (same_answer_everywhere refused). Defined.


(** A session that holds [k1], which the store does not have. *)
Definition holding : SessionStateStorage := set_refs {["k1" := 1]} new_session_storage.
Definition looked : list (Call xop xres) :=
  [mkCall (R := xres) ReadStorage holding; checked "k1" (Ok false); said_ready true; set_ready false;
   mkCall (R := xres) CurrentLeader None].
Lemma ready_when_complete_witness :
  runs (H := any_answer) integrity_check looked tt /\
  exists st looks rest, looked = (mkCall (R := xres) ReadStorage st :: looks ++ rest)%list /\
    forall k, k ∈ dom (ref_counts st) -> exists r, checked k r ∈ looks.
Proof.
  assert (Hrun : runs (H := any_answer) integrity_check looked tt)
    by (repeat (eexists; eexists; split; [exact I|split; [reflexivity|]]); done).
  split; [exact Hrun|]. destruct (ready_when_complete looked Hrun) as [(st & looks & rest & Heq & Hall & _) _].
  by exists st, looks, rest.
Defined.
End StateSample.
