(* ===== verification/TopicRaft.v ===== *)
(** * The actor of the topic group and its callers
    ([broker/src/raft/topic/topic_raft_actor.rs], [broker/src/topic/topic_service.rs],
    [broker/src/rpc/cluster_service.rs], [broker/src/rpc/raft_service.rs])

    The actor of this group ([TopicRaftActor]) never forwards: a write or a linearizable read
    at a node that does not lead is answered by the leader's name, and its caller
    ([TopicService]) asks the leader's [ClusterService], once. *)

From S2P Require Import Prelude Packet TopicFilter TopicStorage RaftLog RaftTopic V3Codec Program GrpcStatus RaftActor Router.

#[local] Open Scope string_scope.
#[local] Open Scope Z_scope.
#[local] Open Scope prog_scope.

(** ** Data *)

(** [TopicRaftError]; an error of [openraft] is its text. *)
Inductive TopicRaftError :=
  | InvalidTopicName (topic : string)
  | NotLeader (leader : option Node)
  | RaftClientWriteError (e : string)
  | RaftAppendEntriesError (e : string)
  | RaftInstallSnapshotError (e : string)
  | RaftNetworkError (e : string)
  | RaftInitializationError (e : string)
  | RaftFatalError (e : string)
  | GRPC (status : Status)
  | GRPCConnect (e : string)
  | GRPCBusiness (e : GRPCBusinessError)
  | Serialize (e : string)
  | NotInitialized
  | NotReady (e : string)
  | ServiceUnavailable (e : string)
  | NoLeaderAvailable
  | StorageError (e : TopicStorageError).

(** [TopicStorageError]'s messages. *)
Definition storage_error_display (e : TopicStorageError) : string :=
  match e with
  | TopicStorage.TopicNotFound topic => "topic " +:+ topic +:+ " not found"
  | TopicStorage.TenantNotFound tenant => "tenant " +:+ tenant +:+ " not found"
  | TopicStorage.InvalidTopicFilter filter => "invalid topic filter " +:+ filter
  | TopicStorage.InternalError message => "internal error " +:+ message
  end.

(** The [Debug] forms the messages use. *)
Class TopicDebug := { leader_debug : option Node -> string; business_display : GRPCBusinessError -> string }.

Definition topic_error_display `{Tonic, TopicDebug} (e : TopicRaftError) : string :=
  match e with
  | InvalidTopicName topic => "Invalid topic name: " +:+ topic
  | NotLeader leader => "Not leader, current leader: " +:+ leader_debug leader
  | RaftClientWriteError e => "Raft errror: " +:+ e
  | RaftAppendEntriesError e => "Raft append entries error: " +:+ e
  | RaftInstallSnapshotError e => "Raft install snapshot error: " +:+ e
  | RaftNetworkError e => "Network error: " +:+ e
  | RaftInitializationError e => "Raft init cluster error: " +:+ e
  | RaftFatalError e => "Raft fatal error: " +:+ e
  | GRPC status => "gRPC error: " +:+ status_display status
  | GRPCConnect e => "gRPC connect error: " +:+ e
  | GRPCBusiness e => "gRPC business error: " +:+ business_display e
  | Serialize e => "Serialization error: " +:+ e
  | NotInitialized => "Actor not initialized"
  | NotReady e => "Actor not ready: " +:+ e
  | ServiceUnavailable e => "Service unavailable: " +:+ e
  | NoLeaderAvailable => "No leader available"
  | StorageError e => "TopicStorage error: " +:+ storage_error_display e
  end.

#[export] Instance topic_errors `{Tonic, TopicDebug} : ActorErrors TopicRaftError := {|
  err_not_ready := NotReady;
  err_unavailable := ServiceUnavailable;
  err_not_initialized := NotInitialized;
  err_display := topic_error_display;
|}.

Abbreviation Written := (ClientWriteResponse Response).
Record RetainMessage := mkRetainMessage { rm_topic : string; rm_client_id : string; rm_qos : Z }.
Record TopicInfo := mkTopicInfo { ti_topic : string; ti_qos : Z; ti_client_id : string }.

(** The messages of the actor. *)
Inductive Msg `{Openraft} :=
  | MsgSubscribe (tenant_id client_identifier topic : string) (qos : Z) (no_local retain_as_published : bool)
  | MsgUnsubscribe (tenant_id client_identifier topic : string)
  | MsgRegisterRetain (tenant_id client_id : string) (publish_packet : Packet)
  | MsgCleanRetain (tenant_id topic_filter : string)
  | MsgGetSubscriptions (tenant_id topic : string)
  | MsgGetSubscriptionsEnsureLinearizable (tenant_id topic : string)
  | MsgGetRetain (tenant_id topic : string)
  | MsgGetRetainEnsureLinearizable (tenant_id topic : string)
  | MsgAppendEntries (payload : AppendEntriesRequest)
  | MsgInstallSnapshot (payload : InstallSnapshotRequest)
  | MsgVote (payload : VoteRequest)
  | MsgRetainList (tenant_id : string) (offset limit : Z)
  | MsgTopicList (tenant_id : string) (offset limit : Z)
  | MsgInitRaftCluster
  | MsgAddLearner (id : Z) (node : Node)
  | MsgChangeMembership (members : list Z)
  | MsgGetLeader
  | MsgDirectWrite (command : Request)
  | MsgGetRaftMetrics
  | MsgGetClusterNodes.

Abbreviation Actor := (RaftActor TopicRaftError Msg).

(** ** Operations of the actor *)

Inductive top `{Openraft} :=
  | ClientWrite (command : Request)
  | EnsureLinearizable
  | RaftAppend (payload : AppendEntriesRequest)
  | RaftInstall (payload : InstallSnapshotRequest)
  | RaftVote (payload : VoteRequest)
  | RaftInitialize (nodes : gmap Z Node)
  | RaftAddLearner (id : Z) (node : Node)
  | RaftChangeMembership (members : list Z)
  | CurrentLeader
  | Metrics
  | ReadStorage                                    (* this node's copy, under its read lock *)
  | Now.                                           (* the clock, for the expiry of retained messages *)

Definition tres `{Openraft} (o : top) : Type :=
  match o with
  | ClientWrite _ => outcome RaftFault Written
  | EnsureLinearizable => outcome RaftFault unit
  | RaftAppend _ => outcome string AppendEntriesResponse
  | RaftInstall _ => outcome string InstallSnapshotResponse
  | RaftVote _ => outcome string VoteResponse
  | RaftInitialize _ => outcome string unit
  | RaftAddLearner _ _ | RaftChangeMembership _ => outcome string Written
  | CurrentLeader => option Z
  | Metrics => RaftMetrics
  | ReadStorage => TopicStorage
  | Now => Z
  end.
Abbreviation tprog := (Program.prog top tres).

Section TopicActor.
Context `{Openraft, Tonic, TopicDebug, Base64}.
Abbreviation result A := (tprog (outcome TopicRaftError A)).
Definition task (o : top) : tprog (tres o) := invoke o.

Definition try_local_linearizable_read : result unit :=
  r ← task EnsureLinearizable;
  Ret (match r with
       | Ok _ => Ok tt
       | Err (ForwardToLeader leader) => Err (NotLeader leader)
       | Err (OtherFault _) => Err (NotLeader None)
       | Panic => Panic
       | OutOfFuel => OutOfFuel
       end).

(** The error of a failed [client_write]. *)
Definition write_result (r : outcome RaftFault Written) : outcome TopicRaftError Written :=
  map_err (fun e => match e with ForwardToLeader leader => NotLeader leader | OtherFault e => RaftClientWriteError e end) r.

Definition try_local_write (command : Request) : result unit :=
  r ← task (ClientWrite command);
  Ret (_ ← write_result r; Ok tt).

Definition handle_raft_write (request : Request) : result unit := try_local_write request.

(** ** Handlers *)

Definition write (m : Msg) (command : Request) (a : Actor) : Actor * result unit :=
  serving (Some m) a (with_raft a NotInitialized (_ <-? handle_raft_write command; Ret (Ok tt))).

Definition handle_subscribe (t c topic : string) (qos : Z) (nl rap : bool) (a : Actor) : Actor * result unit :=
  write (MsgSubscribe t c topic qos nl rap) (SubscribeTopic t c topic qos nl rap) a.
Definition handle_unsubscribe (t c topic : string) (a : Actor) : Actor * result unit :=
  write (MsgUnsubscribe t c topic) (UnsubscribeTopic t c topic) a.
Definition handle_register_retain (t c : string) (p : Packet) (a : Actor) : Actor * result unit :=
  write (MsgRegisterRetain t c p) (RegisterRetainPublishPacket t c p) a.
Definition handle_clean_retain (t f : string) (a : Actor) : Actor * result unit :=
  write (MsgCleanRetain t f) (CleanRetainPublishPacket t f) a.

Definition read_subscriptions (a : Actor) (t topic : string) : result (list SubscriptionInfo) :=
  with_storage a
    (storage ← task ReadStorage;
     Ret (x ← map_err StorageError (get_subscriptions t topic storage); Ok (map subscription_info x))).
Definition handle_get_subscriptions (t topic : string) (a : Actor) : Actor * result (list SubscriptionInfo) :=
  serving None a (with_raft a NotInitialized (read_subscriptions a t topic)).
Definition handle_get_subscriptions_linearizable (t topic : string) (a : Actor) : Actor * result (list SubscriptionInfo) :=
  serving None a (with_raft a NotInitialized (_ <-? try_local_linearizable_read; read_subscriptions a t topic)).

Definition read_retained (a : Actor) (t topic : string) : result (list Packet) :=
  with_storage a
    (storage ← task ReadStorage;
     now ← task Now;
     Ret (map_err StorageError (get_retain_publish_packet now t topic storage))).
Definition handle_get_retain (t topic : string) (a : Actor) : Actor * result (list Packet) :=
  serving None a (with_raft a NotInitialized (read_retained a t topic)).
Definition handle_get_retain_linearizable (t topic : string) (a : Actor) : Actor * result (list Packet) :=
  serving None a (with_raft a NotInitialized (_ <-? try_local_linearizable_read; read_retained a t topic)).

Definition handle_append_entries (payload : AppendEntriesRequest) (a : Actor) : Actor * result AppendEntriesResponse :=
  replicating (Some (MsgAppendEntries payload)) a (with_raft a (NotReady "Initializing")
    (fails_with RaftAppendEntriesError (task (RaftAppend payload)))).
Definition handle_install_snapshot (payload : InstallSnapshotRequest) (a : Actor) : Actor * result InstallSnapshotResponse :=
  replicating (Some (MsgInstallSnapshot payload)) a (with_raft a (NotReady "Initializing")
    (fails_with RaftInstallSnapshotError (task (RaftInstall payload)))).
Definition handle_vote (payload : VoteRequest) (a : Actor) : Actor * result VoteResponse :=
  replicating (Some (MsgVote payload)) a (with_raft a (NotReady "Initializing")
    (fails_with RaftAppendEntriesError (task (RaftVote payload)))).

(** The listings are read from this node's copy; without a copy the actor is not ready. *)
Definition listing {A} (a : Actor) (f : TopicStorage -> outcome TopicStorageError A) : result A :=
  with_raft a (NotReady "Initializing")
    (match ra_storage a with
     | Some _ => storage ← task ReadStorage; Ret (map_err StorageError (f storage))
     | None => Ret (Err (NotReady "Initializing"))
     end).
Definition handle_retain_list (t : string) (offset limit : Z) (a : Actor) : Actor * result (Z * list RetainMessage) :=
  replicating (Some (MsgRetainList t offset limit)) a
    (listing a (fun storage =>
       res ← get_retain_message_list_with_pagination t offset limit storage;
       Ok (res.1, map (fun '(topic, client_id, qos) => mkRetainMessage topic client_id qos) res.2))).
Definition handle_topic_list (t : string) (offset limit : Z) (a : Actor) : Actor * result (Z * list TopicInfo) :=
  replicating None a
    (listing a (fun storage =>
       res ← get_topic_list_with_pagination t offset limit storage;
       Ok (res.1, map (fun '(client_id, topic, qos) => mkTopicInfo topic qos client_id) res.2))).

Definition handle_init_cluster (a : Actor) : Actor * result unit :=
  replicating None a (with_raft a (NotReady "Initializing")
    (match ra_settings a with
     | None => Ret (Err NotInitialized)
     | Some nodes => fails_with RaftInitializationError (task (RaftInitialize nodes))
     end)).
Definition handle_add_learner (id : Z) (node : Node) (a : Actor) : Actor * result Written :=
  replicating (Some (MsgAddLearner id node)) a (with_raft a (NotReady "Initializing")
    (fails_with RaftClientWriteError (task (RaftAddLearner id node)))).
Definition handle_change_membership (members : list Z) (a : Actor) : Actor * result Written :=
  replicating (Some (MsgChangeMembership members)) a (with_raft a (NotReady "Initializing")
    (fails_with RaftClientWriteError (task (RaftChangeMembership members)))).
Definition handle_get_leader (a : Actor) : Actor * result (option Node) :=
  replicating None a (with_raft a (NotReady "Initializing")
    (leader ← task CurrentLeader;
     match leader with
     | Some id => metrics ← task Metrics; Ret (Ok (find_node (membership_nodes metrics) id))
     | None => Ret (Ok None)
     end)).
Definition handle_direct_write (command : Request) (a : Actor) : Actor * result Written :=
  replicating (Some (MsgDirectWrite command)) a (with_raft a (NotReady "Initializing")
    (r ← task (ClientWrite command); Ret (write_result r))).
Definition handle_get_raft_metrics (a : Actor) : Actor * result RaftMetrics :=
  replicating None a (with_raft a (NotReady "Initializing") (metrics ← task Metrics; Ret (Ok metrics))).
Definition handle_cluster_nodes (a : Actor) : result (list (Z * Node)) :=
  match ra_state a with
  | Initializing => Ret (Ok [])
  | Running =>
      match ra_raft a with
      | Some _ => metrics ← task Metrics; Ret (Ok (membership_nodes metrics))
      | None => Ret (Ok [])
      end
  | Failed e => Ret (Err (ServiceUnavailable (topic_error_display e)))
  | Stopped => Ret (Err (NotReady "Actor is stopped"))
  end.
(** [GetTopicStorage]: whether there is a copy to share. *)
Definition handle_get_topic_storage (a : Actor) : outcome TopicRaftError unit :=
  match ra_storage a with Some _ => Ok tt | None => Err (NotReady "Initializing") end.

(** [process_pending_messages]: the kinds of messages that are sent again. *)
Definition replayed (m : Msg) : bool :=
  match m with
  | MsgSubscribe _ _ _ _ _ _ | MsgUnsubscribe _ _ _ | MsgRegisterRetain _ _ _ | MsgCleanRetain _ _ => true
  | _ => false
  end.
Definition process_initialization (r : outcome TopicRaftError unit) (a : Actor) : Actor * list Msg :=
  initialization_complete replayed r a.

(** ** Errors on the wire *)

Context `{Prost ErrorDetail}.

(** [map_topic_raft_error] of [raft_service.rs]. *)
Definition map_topic_raft_error (action : string) (err : TopicRaftError) : Status :=
  match err with
  | NotLeader (Some leader) =>
      leader_redirect_status (action +:+ " requires leader handling at " +:+ rpc_addr leader) (rpc_addr leader)
        (GrpcStatus.node_id leader)
  | NotLeader None | NoLeaderAvailable => no_leader_status (action +:+ " failed: no leader available")
  | NotInitialized => not_ready_status (action +:+ " failed: topic raft not initialized")
  | NotReady message => not_ready_status (action +:+ " failed: " +:+ message)
  | InvalidTopicName topic =>
      business_status CodeInvalidArgument (business_detail TopicInvalidName ("invalid topic name: " +:+ topic) "topic_raft")
  | other => fatal_status Internal (action +:+ " failed: " +:+ topic_error_display other)
  end.

(** [map_topic_raft_error] of [cluster_service.rs]. *)
Definition cluster_map_topic_raft_error (action : string) (err : TopicRaftError) : Status :=
  match err with
  | StorageError (TopicStorage.TopicNotFound topic) =>
      business_status CodeNotFound (business_detail GrpcStatus.TopicNotFound ("topic not found: " +:+ topic) "topic_raft")
  | StorageError (TopicStorage.TenantNotFound tenant) =>
      business_status CodeNotFound (business_detail TopicTenantNotFound ("tenant not found: " +:+ tenant) "topic_raft")
  | StorageError (TopicStorage.InvalidTopicFilter filter) =>
      business_status CodeInvalidArgument
        (business_detail TopicInvalidFilter ("invalid topic filter: " +:+ filter) "topic_raft")
  | StorageError (TopicStorage.InternalError message) => fatal_status Internal message
  | err => map_topic_raft_error action err
  end.
End TopicActor.
