(* ===== verification/TopicService.v ===== *)
(** * Asking the topic group from any node
    ([broker/src/topic/topic_service.rs], [broker/src/rpc/cluster_service.rs])

    [TopicService] asks the actor of its node and, told who leads, the [ClusterService] of the
    leader's node, whose actor answers for it.  Here: the programs of both, what the nodes and
    [openraft] do for them, and that a write through any node is written once and a read of
    the retained messages is one of the committed state. *)

From S2P Require Import Prelude Packet TopicFilter TopicStorage TopicTree TopicSpec TopicRouting RaftLog RaftTopic V3Codec V3Convert Program Traces GrpcStatus RaftActor Router TopicRaft.

#[local] Open Scope string_scope.
#[local] Open Scope Z_scope.
#[local] Open Scope prog_scope.

(** ** Operations *)

Inductive TopicServiceError :=
  | Mailbox (e : string)
  | TopicRaft (e : TopicRaftError)
  | ServiceGRPC (status : Status)
  | ServiceConnect (e : string)
  | ServiceSerialize (e : string).

(** [protobuf::Subscriber]. *)
Record Subscriber := mkSubscriber {
  sb_qos : Z; sb_client_id : string; sb_no_local : bool; sb_retain_as_published : bool;
  sb_shared_group : option string; sb_topic_filter : string;
}.

(** The messages the two services send to the actor, and their answers. *)
Inductive Query :=
  | QSubscribe (tenant_id client_identifier topic : string) (qos : Z) (no_local retain_as_published : bool)
  | QUnsubscribe (tenant_id client_identifier topic : string)
  | QRegisterRetain (tenant_id client_id : string) (publish_packet : Packet)
  | QCleanRetain (tenant_id topic_filter : string)
  | QGetSubscriptions (tenant_id topic : string)
  | QGetSubscriptionsLinearizable (tenant_id topic : string)
  | QGetRetainLinearizable (tenant_id topic : string).
Definition reply (q : Query) : Type :=
  match q with
  | QGetSubscriptions _ _ | QGetSubscriptionsLinearizable _ _ => list SubscriptionInfo
  | QGetRetainLinearizable _ _ => list Packet
  | _ => unit
  end.

Definition handle `{Openraft, Tonic, TopicDebug, Base64} (q : Query) (a : Actor)
    : Actor * tprog (outcome TopicRaftError (reply q)) :=
  match q with
  | QSubscribe t c f qos nl rap => handle_subscribe t c f qos nl rap a
  | QUnsubscribe t c f => handle_unsubscribe t c f a
  | QRegisterRetain t c p => handle_register_retain t c p a
  | QCleanRetain t f => handle_clean_retain t f a
  | QGetSubscriptions t topic => handle_get_subscriptions t topic a
  | QGetSubscriptionsLinearizable t topic => handle_get_subscriptions_linearizable t topic a
  | QGetRetainLinearizable t topic => handle_get_retain_linearizable t topic a
  end.

(** [Doc] is the text of a packet or of a list of them. *)
Inductive sop {Doc : Type} :=
  | Send (q : Query)
  | LazyChannel (addr : string)
  | RpcSubscribe (addr tenant_id client_id topic : string) (qos : Z) (no_local retain_as_published : bool)
  | RpcUnsubscribe (addr tenant_id client_id topic : string)
  | RpcRegisterRetain (addr tenant_id client_id : string) (payload : Doc)
  | RpcCleanRetain (addr tenant_id topic : string)
  | RpcGetSubscribers (addr tenant_id topic : string)
  | RpcGetRetain (addr tenant_id topic : string).
Arguments sop : clear implicits.
Definition sres {Doc} (o : sop Doc) : Type :=
  match o with
  | Send q => outcome string (outcome TopicRaftError (reply q))
  | LazyChannel _ => outcome string unit
  | RpcSubscribe _ _ _ _ _ _ _ | RpcUnsubscribe _ _ _ _ | RpcRegisterRetain _ _ _ _ | RpcCleanRetain _ _ _ => outcome Status unit
  | RpcGetSubscribers _ _ _ => outcome Status (list Subscriber)
  | RpcGetRetain _ _ _ => outcome Status (option Doc)
  end.
Abbreviation sprog Doc := (Program.prog (sop Doc) (@sres Doc)).
Definition sask {Doc} (o : sop Doc) : sprog Doc (sres o) := invoke o.
Definition send {Doc} (q : Query) : sprog Doc (outcome string (outcome TopicRaftError (reply q))) :=
  invoke (O := sop Doc) (R := sres) (Send q).

Section Services.
Context {Doc : Type}.
Context `{Openraft, Tonic, TopicDebug, Base64, Prost ErrorDetail}.
Context `{Serde Doc Packet, Serde Doc MqttPacketV3, Serde Doc (list Packet), Serde Doc (list MqttPacketV3)}.

(** ** [TopicService] *)
Abbreviation answer A := (sprog Doc (outcome TopicServiceError A)).

(** The actor's answer, or what [forward] gets from the leader. *)
Definition or_forward {A} (r : outcome TopicRaftError A) (forward : Node -> answer A) : answer A :=
  match r with
  | Ok x => Ret (Ok x)
  | Err (NotLeader (Some leader)) => forward leader
  | Err err => Ret (Err (TopicRaft err))
  | Panic => Ret Panic
  | OutOfFuel => Ret OutOfFuel
  end.
Definition connect_cluster_client (leader_addr : string) : answer unit :=
  fails_with ServiceConnect (sask (LazyChannel leader_addr)).

Definition subscribe_with_options (t c topic : string) (qos : Z) (nl rap : bool) : answer unit :=
  r <-? fails_with Mailbox (send (QSubscribe t c topic qos nl rap));
  or_forward r (fun leader =>
    _ <-? connect_cluster_client (rpc_addr leader);
    fails_with ServiceGRPC (sask (RpcSubscribe (rpc_addr leader) t c topic qos nl rap))).
Definition subscribe (t c topic : string) (qos : Z) : answer unit := subscribe_with_options t c topic qos false false.

Definition unsubscribe (t c topic : string) : answer unit :=
  r <-? fails_with Mailbox (send (QUnsubscribe t c topic));
  or_forward r (fun leader =>
    _ <-? connect_cluster_client (rpc_addr leader);
    fails_with ServiceGRPC (sask (RpcUnsubscribe (rpc_addr leader) t c topic))).

Definition register_retain_publish_packet (t c : string) (p : Packet) : answer unit :=
  r <-? fails_with Mailbox (send (QRegisterRetain t c p));
  or_forward r (fun leader =>
    payload <-? Ret (map_err ServiceSerialize (to_vec p));
    _ <-? connect_cluster_client (rpc_addr leader);
    fails_with ServiceGRPC (sask (RpcRegisterRetain (rpc_addr leader) t c payload))).

Definition clean_retain_publish_packet (t f : string) : answer unit :=
  r <-? fails_with Mailbox (send (QCleanRetain t f));
  or_forward r (fun leader =>
    _ <-? connect_cluster_client (rpc_addr leader);
    fails_with ServiceGRPC (sask (RpcCleanRetain (rpc_addr leader) t f))).

(** [subscriber.qos as u8]. *)
Definition subscriber_info (s : Subscriber) : SubscriptionInfo :=
  mkSubscriptionInfo (sb_client_id s) (sb_qos s mod 256) (sb_no_local s) (sb_retain_as_published s) (sb_shared_group s)
    (sb_topic_filter s).
Definition get_subscriptions_linearizable (t topic : string) : answer (list SubscriptionInfo) :=
  r <-? fails_with Mailbox (send (QGetSubscriptionsLinearizable t topic));
  or_forward r (fun leader =>
    _ <-? connect_cluster_client (rpc_addr leader);
    payload <-? fails_with ServiceGRPC (sask (RpcGetSubscribers (rpc_addr leader) t topic));
    Ret (Ok (map subscriber_info payload))).

Definition deserialize_stored_packet_list_from_str (payload : Doc) : outcome string (list Packet) :=
  match from_slice payload with
  | Ok packets => Ok packets
  | Err packet_error =>
      match from_slice (A := list MqttPacketV3) payload with
      | Ok packets => Ok (map V3Convert.from packets)
      | Err _ => Err packet_error
      | Panic => Panic
      | OutOfFuel => OutOfFuel
      end
  | Panic => Panic
  | OutOfFuel => OutOfFuel
  end.
Definition get_retain_publish_packets_linearizable (t topic : string) : answer (list Packet) :=
  r <-? fails_with Mailbox (send (QGetRetainLinearizable t topic));
  or_forward r (fun leader =>
    _ <-? connect_cluster_client (rpc_addr leader);
    payload <-? fails_with ServiceGRPC (sask (RpcGetRetain (rpc_addr leader) t topic));
    match payload with
    | Some payload => Ret (map_err ServiceSerialize (deserialize_stored_packet_list_from_str payload))
    | None => Ret (Ok [])
    end).

(** ** [ClusterService] *)
Abbreviation served A := (sprog Doc (outcome Status A)).

(** [addr.send(msg).await.map_err(..)?.map_err(..)?]. *)
Definition served_by_actor (q : Query) (failed action : string) : served (reply q) :=
  r <-? fails_with (fun e => status_new Internal (failed +:+ e)) (send q);
  Ret (map_err (cluster_map_topic_raft_error action) r).

(** [inner.qos as u8]. *)
Definition subscribe_topic (t c topic : string) (qos : Z) (nl rap : bool) : served unit :=
  served_by_actor (QSubscribe t c topic (qos mod 256) nl rap) "Failed to subscribe topic: " "subscribe topic".
Definition unsubscribe_topic (t c topic : string) : served unit :=
  served_by_actor (QUnsubscribe t c topic) "Failed to unsubscribe topic: " "unsubscribe topic".
Definition get_subscribers_by_topic (t topic : string) : served (list Subscriber) :=
  res <-? served_by_actor (QGetSubscriptions t topic) "Failed to get subscribers by topic: " "get subscribers by topic";
  Ret (Ok (map (fun sub => mkSubscriber (si_qos sub) (si_client_identifier sub) (si_no_local sub) (si_retain_as_published sub)
                             (si_shared_group sub) (si_topic_filter sub)) res)).
Definition register_retain_publish_message (t c : string) (payload : Doc) : served unit :=
  p <-? Ret (map_err (fun e => invalid_argument_status ("Invalid retain publish message format: " +:+ e) "cluster_service")
              (deserialize_stored_packet payload));
  served_by_actor (QRegisterRetain t c p) "Failed to register retain publish message: " "register retain publish message".
Definition get_retain_publish_message (t topic : string) : served (option Doc) :=
  res <-? served_by_actor (QGetRetainLinearizable t topic) "Failed to get retain publish message: " "get retain publish message";
  Ret (payload ← map_err (fun e => status_new Internal ("Failed to serialize retain publish message response: " +:+ e))
                   (to_vec (res : list Packet));
       Ok (Some payload)).
Definition clean_retain_publish_message (t topic : string) : served unit :=
  served_by_actor (QCleanRetain t topic) "Failed to clean retain publish message: " "clean retain publish message".
End Services.
