(* ===== verification/TopicLinearizable.v ===== *)
(** * Requests of the topic group are linearizable
    ([broker/src/topic/topic_service.rs], [broker/src/raft/topic/topic_raft_actor.rs],
    [broker/src/rpc/cluster_service.rs])

    The nodes share a history of committed commands; a node has applied a prefix of it.  A
    write that succeeds appends its command; a read that was confirmed sees at least what was
    committed when it was asked for.  Calls to other nodes fail, or run there and may lose
    their answer, and other clients write at any time. *)

From S2P Require Import Prelude Packet MessageExpiry TopicFilter TopicStorage TopicTree TopicSpec TopicRouting RaftLog RaftTopic V3Codec Program Traces GrpcStatus RaftActor Router TopicRaft TopicService.

#[local] Open Scope string_scope.
#[local] Open Scope Z_scope.

(** ** The nodes *)

(** The copy after a history. *)
Definition replica `{Base64} (h : list Request) : StorageResult TopicStorage :=
  foldl (fun st req => st ≫= apply_request req) (Ok new_storage) h.

Definition applicable `{Base64} (h : list Request) : Prop := exists st, replica h = Ok st.

(** The actors, the history, what the calls of interest committed, and how much of the history
    each node has applied. *)
Record Topics `{Openraft} := mkTopics {
  actors : gmap string Actor;
  history : list Request;
  own : list Request;
  applied : gmap string nat;
}.
Arguments mkTopics {_}.

Section Nodes.
Context {Doc : Type} `{Openraft, Tonic, TopicDebug, Base64, Prost ErrorDetail}.
Context `{Serde Doc Packet, Serde Doc MqttPacketV3, Serde Doc (list Packet), Serde Doc (list MqttPacketV3)}.
Implicit Types (s : Topics) (req : Request).

Definition applied_at (addr : string) s : nat := default 0%nat (applied s !! addr).
Definition actor_at (addr : string) s : Actor := default default_actor (actors s !! addr).
Definition set_actor (addr : string) (a : Actor) s : Topics := mkTopics (<[addr := a]> (actors s)) (history s) (own s) (applied s).

(** Every copy is of a history that could be applied. *)
Definition sound s : Prop := applicable (history s) /\ forall addr, (applied_at addr s <= length (history s))%nat.

(** Other clients write, and nodes apply. *)
Definition evolves s s' : Prop :=
  actors s' = actors s /\ own s' = own s /\ history s `prefix_of` history s' /\ sound s' /\
  forall addr, (applied_at addr s <= applied_at addr s')%nat.

Definition committed req s s' : Prop :=
  s' = mkTopics (actors s) (history s ++ [req])%list (own s ++ [req])%list (applied s) /\ applicable (history s ++ [req])%list.

(** What [openraft] does for the actor at [addr]: a write that is not sent elsewhere and fails may
    still be committed; a confirmed node has applied all that was committed before. *)
Definition raft_does (addr : string) (o : top) s (r : tres o) s' : Prop :=
  exists s0, evolves s s0 /\
  match o return tres o -> Prop with
  | ClientWrite req => fun r =>
      (exists w, r = Ok w /\ committed req s0 s') \/
      (exists leader, r = Err (ForwardToLeader leader) /\ s' = s0) \/
      (exists e, r = Err (OtherFault e) /\ (s' = s0 \/ committed req s0 s'))
  | EnsureLinearizable => fun r =>
      s' = s0 /\ ((r = Ok tt /\ (length (history s) <= applied_at addr s0)%nat) \/ exists e, r = Err e)
  | ReadStorage => fun r => s' = s0 /\ replica (take (applied_at addr s0) (history s0)) = Ok r
  | _ => fun _ => s' = s0
  end r.

(** A message to the actor at [addr]. *)
Definition sent (addr : string) (q : Query) s (r : outcome string (outcome TopicRaftError (reply q))) s' : Prop :=
  (exists e, r = Err e /\ s' = s) \/
  exists x, ends (raft_does addr) (handle q (actor_at addr s)).2 (set_actor addr (handle q (actor_at addr s)).1 s) x s' /\ r = Ok x.
Definition node_does (addr : string) (o : sop Doc) s : sres o -> Topics -> Prop :=
  match o return sres o -> Topics -> Prop with
  | Send q => sent addr q s
  | _ => fun _ _ => False
  end.

(** A call of the service at another node: it fails, or runs and its answer may be lost. *)
Definition called {A} (to : string) (p : sprog Doc (outcome Status A)) s (r : outcome Status A) s' : Prop :=
  (exists e, r = Err e /\ s' = s) \/
  exists x, ends (node_does to) p s x s' /\ (r = map_err received x \/ exists e, r = Err e).
Definition service_does (addr : string) (o : sop Doc) s : sres o -> Topics -> Prop :=
  match o return sres o -> Topics -> Prop with
  | Send q => sent addr q s
  | LazyChannel _ => fun _ s' => s' = s
  | RpcSubscribe to t c f q nl rap => called to (subscribe_topic t c f q nl rap) s
  | RpcUnsubscribe to t c f => called to (unsubscribe_topic t c f) s
  | RpcRegisterRetain to t c payload => called to (register_retain_publish_message t c payload) s
  | RpcCleanRetain to t f => called to (clean_retain_publish_message t f) s
  | RpcGetSubscribers to t topic => called to (get_subscribers_by_topic t topic) s
  | RpcGetRetain to t topic => called to (get_retain_publish_message t topic) s
  end.

(** ** Histories *)

Lemma replica_snoc h req : replica (h ++ [req])%list = replica h ≫= apply_request req.
Proof. unfold replica. by rewrite foldl_app. Qed.

Definition ops_of (h : list Request) : list TopicSpec.op := concat (map request_ops h).
Definition table_of (h : list Request) : table := spec_run (ops_of h).
Lemma ops_snoc h req : ops_of (h ++ [req])%list = (ops_of h ++ request_ops req)%list.
Proof. unfold ops_of. by rewrite map_app, concat_app; cbn; rewrite app_nil_r. Qed.
Lemma table_snoc h req : table_of (h ++ [req])%list = foldl (fun m o => spec_op o m) (table_of h) (request_ops req).
Proof. unfold table_of, spec_run. by rewrite ops_snoc, foldl_app. Qed.

(** The copy refines the table of its history, and what was applied was acceptable. *)
Lemma replica_refines `{!Base64Spec _} h st : replica h = Ok st -> refines st (table_of h) /\ wf_table (table_of h).
Proof.
  revert st. induction h as [|req h IH] using rev_ind; intros st.
  - intros [= <-]. split; [apply refines_new|apply (wf_spec_run [])].
  - rewrite replica_snoc, table_snoc. destruct (replica h) as [st0| | |]; try done. cbn. intros Ha.
    destruct (IH st0 eq_refl) as [HR Hwf]. pose proof (apply_request_exec req st0 _ HR) as Hr.
    case_decide as Hd; [|destruct Hr as [e He]; by rewrite Ha in He]. rewrite Ha in Hr. injection Hr as ->.
    by apply (refines_ops (request_ops req)).
Qed.
Lemma replica_accepts `{!Base64Spec _} h req : applicable (h ++ [req])%list -> accepts_request (table_of h) req.
Proof.
  intros [st Hst]. rewrite replica_snoc in Hst. destruct (replica h) as [st0| | |] eqn:Hh; try done. cbn in Hst.
  destruct (replica_refines h st0 Hh) as [HR _]. pose proof (apply_request_exec req st0 _ HR) as Hr.
  case_decide; [done|]. destruct Hr as [e He]. by rewrite Hst in He.
Qed.

(** ** Writes *)

(** Nothing was written by the call, or just its command, last. *)
Definition kept s s' : Prop := own s' = own s /\ history s `prefix_of` history s'.
Definition wrote req s s' : Prop :=
  own s' = (own s ++ [req])%list /\ exists h, history s `prefix_of` h /\ history s' = (h ++ [req])%list /\ applicable (history s').
(** [Ok] says that it was written; any other answer leaves it open. *)
Definition once {E A} req s (r : outcome E A) s' : Prop := (kept s s' \/ wrote req s s') /\ forall u, r = Ok u -> wrote req s s'.

Lemma kept_refl s : kept s s.
Proof. done. Qed.
Lemma kept_trans s1 s2 s3 : kept s1 s2 -> kept s2 s3 -> kept s1 s3.
Proof. intros [Ho Hh] [Ho' Hh']. split; [by rewrite Ho'|by trans (history s2)]. Qed.
Lemma kept_wrote req s1 s2 s3 : kept s1 s2 -> wrote req s2 s3 -> wrote req s1 s3.
Proof.
  intros [Ho Hh] (Ho' & h & Hp & Hh' & Ha). split; [by rewrite Ho', Ho|]. exists h. split_and!; [by trans (history s2)|done..].
Qed.
Lemma kept_once {E A} req s1 s2 (r : outcome E A) s3 : kept s1 s2 -> once req s2 r s3 -> once req s1 r s3.
Proof.
  intros Hk [[H1'|H1'] H2']; (split; [|intros u Hu; eapply kept_wrote; [done|by eapply H2']]).
  - left. by eapply kept_trans.
  - right. by eapply kept_wrote.
Qed.
Lemma evolves_kept s s' : evolves s s' -> kept s s'.
Proof. by intros (_ & Ho & Hh & _). Qed.
Lemma committed_wrote req s s0 s' : evolves s s0 -> committed req s0 s' -> wrote req s s'.
Proof.
  intros He [-> Ha]. eapply kept_wrote; [by apply evolves_kept|]. split; [done|]. by exists (history s0).
Qed.
Lemma set_actor_kept addr a s : kept s (set_actor addr a s).
Proof. done. Qed.

Lemma ends_task addr (o : top) s r s' : ends (raft_does addr) (task o) s r s' -> raft_does addr o s r s'.
Proof. apply ends_invoke. Qed.
Lemma ends_sask (does : forall o : sop Doc, Topics -> sres o -> Topics -> Prop) (o : sop Doc) s r s' : ends does (sask o) s r s' -> does o s r s'.
Proof. apply ends_invoke. Qed.
Lemma ends_send (does : forall o : sop Doc, Topics -> sres o -> Topics -> Prop) (q : Query) s r s' :
  ends does (send q) s r s' -> does (Send q) s r s'.
Proof. apply (ends_invoke does (Send q)). Qed.

(** The actor: who is told of another leader has written nothing. *)
Definition actor_wrote {A} req s (x : outcome TopicRaftError A) s' : Prop :=
  once req s x s' /\ forall leader, x = Err (NotLeader leader) -> kept s s'.
Lemma ends_write addr m req (a : Actor) s x s' :
  ends (raft_does addr) (write m req a).2 s x s' -> actor_wrote req s x s'.
Proof.
  assert (Hno : forall e, (forall l, e <> NotLeader l) -> actor_wrote req s (Err e : outcome TopicRaftError unit) s)
    by (intros e He; split; [split; [by left|done]|by intros l [= ->]; destruct (He l)]).
  unfold write, serving, initializing, with_raft.
  destruct (ra_state a); try (intros [-> ->]; by apply Hno).
  destruct (ra_raft a) as [[]|]; [|intros [-> ->]; by apply Hno].
  intros (y & s1 & Hy & Hx)%ends_bind. apply ends_bind in Hy as (w & s2 & Hw & [-> ->]).
  apply (ends_task addr (ClientWrite req)) in Hw as (s0 & He & Hw).
  assert (s' = s2) as -> by (destruct w as [|[]| |]; by destruct Hx).
  destruct Hw as [(w' & -> & Hc)|[(leader & -> & ->)|(e & -> & Hc)]].
  - pose proof (committed_wrote _ _ _ _ He Hc). split; [split; [by right|done]|]. destruct Hx as [-> _]. done.
  - pose proof (evolves_kept _ _ He). split; [split; [by left|]|done]. destruct Hx as [-> _]. done.
  - destruct Hx as [-> _]. split; [split; [|done]|done]. destruct Hc as [->|Hc]; [left; by apply evolves_kept|right; by eapply committed_wrote].
Qed.

Definition command_of (q : Query) : option Request :=
  match q with
  | QSubscribe t c f qos nl rap => Some (SubscribeTopic t c f qos nl rap)
  | QUnsubscribe t c f => Some (UnsubscribeTopic t c f)
  | QRegisterRetain t c p => Some (RegisterRetainPublishPacket t c p)
  | QCleanRetain t f => Some (CleanRetainPublishPacket t f)
  | _ => None
  end.
Lemma handle_wrote addr q req a s x s' :
  command_of q = Some req -> ends (raft_does addr) (handle q a).2 s x s' -> actor_wrote req s x s'.
Proof. destruct q; try done; intros [= <-]; apply ends_write. Qed.
Lemma sent_wrote addr q req s r s' :
  command_of q = Some req -> sent addr q s r s' ->
  (exists e, r = Err e /\ s' = s) \/ exists x, r = Ok x /\ actor_wrote req s x s'.
Proof.
  intros Hq [?|(x & Hx & ->)]; [by left|right]. exists x. split; [done|].
  destruct (handle_wrote _ _ _ _ _ _ _ Hq Hx) as [Ho Hl]. split; [by eapply kept_once, Ho|]. intros l Hlead.
  eapply kept_trans; [by apply set_actor_kept|by eapply Hl].
Qed.

Lemma served_once to q req failed action s r s' :
  command_of q = Some req -> ends (node_does to) (served_by_actor q failed action) s r s' -> once req s r s'.
Proof.
  intros Hq (y & s1 & Hy & Hr)%ends_bind. apply ends_bind in Hy as (z & s2 & Hz & [-> ->]). apply ends_send in Hz.
  destruct (sent_wrote _ _ _ _ _ _ Hq Hz) as [(e & -> & ->)|(x & -> & [[Hk Ho] _])].
  - destruct Hr as [-> ->]. split; [left; apply kept_refl|done].
  - destruct Hr as [-> ->]. split; [done|]. intros u Hu. destruct x as [x| | |]; try done. by eapply Ho.
Qed.
Lemma called_once {A} to (p : sprog Doc (outcome Status A)) req s r s' :
  (forall s x s', ends (node_does to) p s x s' -> once req s x s') -> called to p s r s' -> once req s r s'.
Proof.
  intros Hp [(e & -> & ->)|(x & Hx & Hr)]; [split; [left; apply kept_refl|done]|].
  destruct (Hp _ _ _ Hx) as [Hk Ho]. split; [done|]. intros u ->. destruct Hr as [Hr|[e He]]; [|done].
  destruct x as [x| | |]; try done. by eapply Ho.
Qed.

(** [TopicService]: the actor here, or the leader's. *)
Definition forwards_once {A} addr req (forward : Node -> sprog Doc (outcome TopicServiceError A)) : Prop :=
  forall leader s r s', ends (service_does addr) (forward leader) s r s' -> once req s r s'.
Lemma service_once addr q req (forward : Node -> sprog Doc (outcome TopicServiceError (reply q))) s r s' :
  command_of q = Some req -> forwards_once addr req forward ->
  ends (service_does addr) (attempt (fails_with Mailbox (send q)) (fun r => or_forward r forward)) s r s' -> once req s r s'.
Proof.
  intros Hq Hf (y & s1 & Hy & Hr)%ends_bind. apply ends_bind in Hy as (z & s2 & Hz & [-> ->]). apply ends_send in Hz.
  destruct (sent_wrote _ _ _ _ _ _ Hq Hz) as [(e & -> & ->)|(x & -> & [[Hk Ho] Hl])].
  { destruct Hr as [-> ->]. split; [left; apply kept_refl|done]. }
  cbn [map_err] in Hr. destruct x as [x|e| |].
  - destruct Hr as [-> ->]. split; [done|]. intros u _. by eapply Ho.
  - assert (Hlead : (exists leader, e = NotLeader (Some leader)) \/ or_forward (Err e) forward = Ret (Err (TopicRaft e)))
      by (destruct e as [|[]| | | | | | | | | | | | | | |]; eauto).
    destruct Hlead as [[leader ->]|Heq].
    + eapply kept_once; [by eapply Hl|]. by eapply Hf.
    + rewrite Heq in Hr. destruct Hr as [-> ->]. split; [done|]. done.
  - destruct Hr as [-> ->]. by split.
  - destruct Hr as [-> ->]. by split.
Qed.
Lemma connect_kept addr to s r s' : ends (service_does addr) (connect_cluster_client to) s r s' -> s' = s.
Proof. intros (y & s1 & Hy & [_ ->])%ends_bind. by apply (ends_sask _ (LazyChannel to)) in Hy. Qed.
Lemma connected_once addr to req (p : sprog Doc (outcome Status unit)) s r s' :
  (forall s r s', ends (service_does addr) p s r s' -> once req s r s') ->
  ends (service_does addr) (attempt (connect_cluster_client to) (fun _ => fails_with ServiceGRPC p)) s r s' -> once req s r s'.
Proof.
  intros Hp (y & s1 & Hy & Hr)%ends_bind. apply connect_kept in Hy as ->.
  destruct y as [[]|e| |]; try (destruct Hr as [-> ->]; split; [left; apply kept_refl|done]).
  apply ends_bind in Hr as (z & s2 & Hz & [-> ->]). destruct (Hp _ _ _ Hz) as [Hk Ho].
  split; [done|]. intros u Hu. destruct z as [z| | |]; try done. by eapply Ho.
Qed.

(** The write of [TopicService] that makes a command. *)
Definition service_write req : option (sprog Doc (outcome TopicServiceError unit)) :=
  match req with
  | SubscribeTopic t c f qos nl rap => Some (TopicService.subscribe_with_options t c f qos nl rap)
  | UnsubscribeTopic t c f => Some (TopicService.unsubscribe t c f)
  | RegisterRetainPublishPacket t c p => Some (TopicService.register_retain_publish_packet t c p)
  | CleanRetainPublishPacket t f => Some (TopicService.clean_retain_publish_packet t f)
  | RaftTopic.CreateTenant _ => None
  end.
(** The levels of quality are bytes. *)
Definition byte_qos req : Prop := match req with SubscribeTopic _ _ _ qos _ _ => 0 <= qos < 256 | _ => True end.

(** A forwarded write is the service's at the other node, which is the actor's there. *)
Ltac through :=
  let He := fresh in
  apply connected_once; intros ? ? ? He; apply ends_sask in He; eapply called_once, He; intros ? ? ?.

Lemma write_through `{!SerdeSpec Doc Packet} (addr : string) req p s r s' :
  service_write req = Some p -> byte_qos req -> ends (service_does addr) p s r s' -> once req s r s'.
Proof.
  destruct req as [t c f qos nl rap|t c f|t c pk|t f|t]; intros [= <-] Hqos; cbn in Hqos.
  - apply (service_once _ (QSubscribe t c f qos nl rap)); [done|]. intros leader ? ? ?. through.
    apply served_once. cbn. by rewrite Z.mod_small.
  - apply (service_once _ (QUnsubscribe t c f)); [done|]. intros leader ? ? ?. through. by apply served_once.
  - apply (service_once _ (QRegisterRetain t c pk)); [done|]. intros leader ? ? ?.
    destruct (serde_roundtrip pk) as (payload & Hp1 & Hp2). rewrite Hp1. cbn [map_err]. through.
    unfold register_retain_publish_message. rewrite (stored_read pk payload Hp1). by apply served_once.
  - apply (service_once _ (QCleanRetain t f)); [done|]. intros leader ? ? ?. through. by apply served_once.
Qed.

(** ** Reads *)

(** An answer is one of the copy after a history committed between the call and the answer. *)
Definition seen {A} (read : Z -> TopicStorage -> outcome TopicStorageError A) s (l : A) s' : Prop :=
  exists k now st, history s `prefix_of` take k (history s') /\ replica (take k (history s')) = Ok st /\ read now st = Ok l.
Lemma seen_before {A} (read : Z -> TopicStorage -> outcome TopicStorageError A) s s1 l s' : kept s s1 -> seen read s1 l s' -> seen read s l s'.
Proof. intros [_ Hp] (k & now & st & Hk & Hst & Hr). exists k, now, st. split_and!; [by trans (history s1)|done|done]. Qed.

Abbreviation retained t f := (fun now st => get_retain_publish_packet now t f st).

Lemma evolves_take s s' k : evolves s s' -> (k <= length (history s))%nat -> take k (history s') = take k (history s).
Proof. intros (_ & _ & [more ->] & _) Hk. by rewrite take_app_le. Qed.
Lemma read_retained_seen addr (a : Actor) t f h s l s' :
  h `prefix_of` history s -> (length h <= applied_at addr s)%nat -> ends (raft_does addr) (read_retained a t f) s (Ok l) s' ->
  exists k now st, h `prefix_of` take k (history s') /\ replica (take k (history s')) = Ok st /\
    get_retain_publish_packet now t f st = Ok l.
Proof.
  intros Hh Hn. unfold read_retained, with_storage. destruct (ra_storage a); [|by intros [? _]].
  intros (st & s1 & Hst & Hr)%ends_bind. apply (ends_task addr ReadStorage) in Hst as (s0 & He & -> & Hrep).
  apply ends_bind in Hr as (now & s2 & Hnow & [Hl ->]). apply (ends_task addr Now) in Hnow as (s3 & He' & ->).
  pose proof (proj2 (proj1 (proj2 (proj2 (proj2 He)))) addr) as Hle. pose proof (proj2 (proj2 (proj2 (proj2 He))) addr) as Hap.
  exists (applied_at addr s0), now, st. rewrite (evolves_take _ _ _ He' Hle).
  split_and!; [|done|].
  { destruct He as (_ & _ & Hp & _). assert (Hp' : h `prefix_of` history s0) by by trans (history s). destruct Hp' as [more ->].
    rewrite take_app_ge by lia. by apply prefix_app_r. }
  by destruct (get_retain_publish_packet now t f st); simplify_eq/=.
Qed.
Lemma retain_seen addr t f (a : Actor) s x s' :
  ends (raft_does addr) (handle_get_retain_linearizable t f a).2 s x s' ->
  (forall l, x = Ok l -> seen (retained t f) s l s') /\ (forall leader, x = Err (NotLeader leader) -> kept s s').
Proof.
  unfold handle_get_retain_linearizable, serving, initializing, with_raft.
  destruct (ra_state a); try (intros [-> ->]; by split). destruct (ra_raft a); [|intros [-> ->]; by split].
  intros (y & s1 & Hy & Hr)%ends_bind. apply ends_bind in Hy as (w & s2 & Hw & [-> ->]).
  apply (ends_task addr EnsureLinearizable) in Hw as (s0 & He & -> & Hw). pose proof (evolves_kept _ _ He) as Hk.
  destruct Hw as [[-> Hap]|[e ->]].
  - split; [|]; intros ? ->; [eapply read_retained_seen; [apply Hk|done|done]|].
    unfold read_retained, with_storage in Hr. destruct (ra_storage a); [|by destruct Hr].
    apply ends_bind in Hr as (st & s3 & _ & Hr). apply ends_bind in Hr as (now & s4 & _ & [Hl _]).
    by destruct (get_retain_publish_packet now t f st).
  - destruct e as [leader|e]; destruct Hr as [-> ->]; by split.
Qed.
Lemma sent_seen addr t f s r s' :
  sent addr (QGetRetainLinearizable t f) s r s' ->
  (forall l, r = Ok (Ok l) -> seen (retained t f) s l s') /\ (forall leader, r = Ok (Err (NotLeader leader)) -> kept s s').
Proof.
  intros [(e & -> & ->)|(x & Hx & ->)]; [done|]. destruct (retain_seen _ _ _ _ _ _ _ Hx) as [H1' H2'].
  split; intros ? [= ->]; [by eapply seen_before, H1'|by eapply kept_trans, H2'].
Qed.

Lemma forwarded_seen `{!SerdeSpec Doc (list Packet)} to t f s payload s' :
  called to (get_retain_publish_message t f) s (Ok payload) s' ->
  exists l, seen (retained t f) s l s' /\ exists doc, payload = Some doc /\ deserialize_stored_packet_list_from_str doc = Ok l.
Proof.
  intros [(e & ? & _)|(x & Hx & Hr)]; [done|]. destruct Hr as [Hr|[e He]]; [|done]. destruct x as [payload'| | |]; try done.
  injection Hr as ->. apply ends_attempt in Hx as (l & s1 & Hl & [Hp ->]).
  apply ends_attempt in Hl as (y & s2 & Hy & [Hyl ->]). apply ends_fails, ends_send in Hy.
  destruct y as [y| | |]; try done. injection Hyl as ->. exists y. split; [by apply (sent_seen _ _ _ _ _ _ Hy)|].
  destruct (serde_roundtrip (y : list Packet)) as (doc & Hd1 & Hd2). exists doc. cbn in Hp. rewrite Hd1 in Hp. injection Hp as ->.
  split; [done|]. unfold deserialize_stored_packet_list_from_str. by rewrite Hd2.
Qed.

Lemma read_seen `{!SerdeSpec Doc (list Packet)} addr t f s l s' :
  ends (service_does addr) (get_retain_publish_packets_linearizable t f) s (Ok l) s' -> seen (retained t f) s l s'.
Proof.
  intros (r & s1 & Hr & He)%ends_attempt. apply ends_fails, ends_send in Hr. destruct (sent_seen _ _ _ _ _ _ Hr) as [Hok Hlead].
  destruct r as [x|e| |]; [destruct He as [[= ->] ->]; by apply Hok| |by destruct He..].
  destruct e as [|[leader|]| | | | | | | | | | | | | | |]; try (by destruct He).
  eapply seen_before; [by eapply Hlead|]. apply ends_attempt in He as ([] & s2 & ->%connect_kept & He).
  apply ends_attempt in He as (payload & s3 & Hp & He). apply ends_fails, (ends_sask _ (RpcGetRetain _ _ _)) in Hp.
  destruct (forwarded_seen _ _ _ _ _ _ Hp) as (l' & Hl' & doc & -> & Hd). rewrite Hd in He. destruct He as [[= ->] ->]. done.
Qed.

(** ** Retained messages stay *)

(** The retained message a command replaces or removes. *)
Definition touches req : option (string * list string) :=
  match req with
  | RegisterRetainPublishPacket t _ (PPublish p) => Some (t, split_slash (pb_topic_name p))
  | CleanRetainPublishPacket t f => Some (t, split_slash f)
  | _ => None
  end.
Lemma untouched req m k :
  touches req <> Some k -> t_retained (foldl (fun m o => spec_op o m) m (request_ops req)) !! k = t_retained m !! k.
Proof.
  destruct req as [t c f q nl rap|t c f|t c p|t f|t]; cbn -[spec_op]; intros Hk; try done.
  - cbn. destruct (target f) as [[g group]|]; [|done]. by case_decide.
  - cbn. by destruct (target f) as [[g group]|].
  - destruct p; cbn in *; try done. case_decide; [|done]. cbn. rewrite lookup_insert_ne by congruence. done.
  - cbn. rewrite lookup_delete_ne by congruence. done.
Qed.
Lemma table_untouched h more k :
  Forall (fun req => touches req <> Some k) more -> t_retained (table_of (h ++ more)%list) !! k = t_retained (table_of h) !! k.
Proof.
  induction more as [|req more IH] using rev_ind; intros Hf; [by rewrite app_nil_r|].
  apply Forall_app in Hf as [Hf Hr]. apply Forall_cons in Hr as [Hr _]. rewrite app_assoc, table_snoc, untouched by exact Hr. by apply IH.
Qed.
Lemma table_registered `{!Base64Spec _} h t c p :
  applicable (h ++ [RegisterRetainPublishPacket t c (PPublish p)])%list ->
  t_retained (table_of (h ++ [RegisterRetainPublishPacket t c (PPublish p)])%list) !! (t, split_slash (pb_topic_name p)) =
    Some (PPublish p).
Proof.
  intros Ha%replica_accepts. rewrite table_snoc. cbn in *. rewrite decide_True by done. cbn. apply lookup_insert_eq.
Qed.

(** *** Theorems *)

(** C15: subscriptions, their removal, retained messages and theirs: through any node, a write that
    is answered as done was committed once, and one that is not was committed at most once. *)
Theorem topic_write_once `{!SerdeSpec Doc Packet} (addr : string) req p s r s' :
  service_write req = Some p -> byte_qos req -> ends (service_does addr) p s r s' ->
  (own s' = own s \/ own s' = own s ++ [req])%list /\ (r = Ok tt -> own s' = own s ++ [req])%list.
Proof.
  intros Hp Hq He. destruct (write_through _ _ _ _ _ _ Hp Hq He) as [Hk Ho]. split.
  - destruct Hk as [[Hk _]|[Hk _]]; auto.
  - intros Hr. by destruct (Ho _ Hr).
Qed.

(** C7: a read of the retained messages, asked for at any node, answers with exactly the unexpired
    messages that the filter matches in the table of the commands committed at some moment
    between the call and the answer. *)
Theorem retained_read_linearizable `{!Base64Spec _, !SerdeSpec Doc (list Packet)} (addr t f : string) s l s' :
  ends (service_does addr) (get_retain_publish_packets_linearizable t f) s (Ok l) s' ->
  exists k now, history s `prefix_of` take k (history s') /\
    l ≡ₚ table_retained (table_of (take k (history s'))) now t f.
Proof.
  intros (k & now & st & Hk & Hst & Hr)%read_seen. exists k, now. split; [done|]. destruct (replica_refines _ _ Hst) as [HR _].
  unfold get_retain_publish_packet in Hr. destruct (negb _); [done|]. destruct (topic_tree st !! t) as [root|] eqn:Ht; [|done].
  injection Hr as <-. by apply (get_retained_table st).
Qed.

(** C22: a retained message that does not expire, stored through one node, is among the answers
    to a later linearizable read through any node with a filter that matches, unless a
    committed command replaced or removed it since. *)
Theorem retained_then_found `{!Base64Spec _, !SerdeSpec Doc Packet, !SerdeSpec Doc (list Packet)}
    (addr1 addr2 t c f : string) (p : Publish) s s1 l s2 :
  ends (service_does addr1) (TopicService.register_retain_publish_packet t c (PPublish p)) s (Ok tt) s1 ->
  ends (service_does addr2) (get_retain_publish_packets_linearizable t f) s1 (Ok l) s2 ->
  Forall (fun req => touches req <> Some (t, split_slash (pb_topic_name p))) (drop (length (history s1)) (history s2)) ->
  retain_matches (split_slash f) (split_slash (pb_topic_name p)) = true ->
  (forall now, is_packet_expired (PPublish p) now = false) ->
  PPublish p ∈ l.
Proof.
  intros Hw Hr Hf Hm Hx.
  destruct (write_through addr1 (RegisterRetainPublishPacket t c (PPublish p)) _ _ _ _ eq_refl I Hw) as [_ Hw'].
  destruct (Hw' tt eq_refl) as (_ & h & _ & Hh & Ha). apply read_seen in Hr as (k & now & st & Hk & Hst & Hr).
  destruct (replica_refines _ _ Hst) as [HR _]. unfold get_retain_publish_packet in Hr. destruct (negb _); [done|].
  destruct (topic_tree st !! t) as [root|] eqn:Ht; [|done]. injection Hr as <-. rewrite (get_retained_table st _ now t f root HR Ht).
  set (m := table_of _). unfold table_retained. apply list_elem_of_fmap. exists ((t, split_slash (pb_topic_name p)), PPublish p).
  split; [done|]. apply elem_of_map_to_list, map_lookup_filter_Some. split; [|done]. unfold m. clear m.
  destruct Hk as [more Hmore]. rewrite Hmore, table_untouched.
  - rewrite Hh. apply table_registered. by rewrite <-Hh.
  - rewrite <-(take_drop k (history s2)), Hmore, <-app_assoc, drop_app_length in Hf. by apply Forall_app in Hf as [Hf _].
Qed.
End Nodes.

(** ** Examples *)

Module TopicSample.
Definition Doc : Type := Packet + list Packet.
#[local] Instance packet_serde : Serde Doc Packet :=
  {| to_vec p := Ok (inl p); from_slice d := match d with inl p => Ok p | inr _ => Err "not a packet" end |}.
#[local] Instance packets_serde : Serde Doc (list Packet) :=
  {| to_vec l := Ok (inr l); from_slice d := match d with inr l => Ok l | inl _ => Err "not a list" end |}.
#[local] Instance v3_serde : Serde Doc MqttPacketV3 := {| to_vec _ := Err "unsupported"; from_slice _ := Err "unsupported" |}.
#[local] Instance v3s_serde : Serde Doc (list MqttPacketV3) := {| to_vec _ := Err "unsupported"; from_slice _ := Err "unsupported" |}.
#[local] Instance packet_spec : SerdeSpec Doc Packet.
Proof. intros p. by exists (inl p). Qed.
#[local] Instance packets_spec : SerdeSpec Doc (list Packet).
Proof. intros p. by exists (inr p). Qed.
#[local] Instance openraft : Openraft := Build_Openraft unit unit unit unit unit unit unit (fun _ => []).
#[local] Instance tonic : Tonic := {| ascii_value := visible; received s := s; status_display := s_message |}.
#[local] Instance debug : TopicDebug := {| leader_debug _ := "leader"; business_display := be_message |}.
#[local] Instance prost : Prost ErrorDetail := {| encode_to_vec _ := []; prost_decode _ := Err "no detail" |}.

(** Nodes [a] and [b]; [b] leads. *)
Definition running : Actor := mkRaftActor (Some tt) None Running [] (Some tt).
Definition both : gmap string Actor := {["a" := running; "b" := running]}.
Definition leader : Node := mkNode None "b" "".
Definition message : Publish := mkPublish V3_1_1 "lamp/state" [111; 110] 0 true false None default_properties None.
Definition keep : Request := RegisterRetainPublishPacket "public" "c" (PPublish message).
Definition start : Topics := mkTopics both [] [] ∅.
Definition stored : Topics := mkTopics both [keep] [keep] ∅.
Definition caught_up : Topics := mkTopics both [keep] [keep] {["b" := 1%nat]}.
Definition done_ : Written := mkWritten (mkLogId 1 2 7) RespNone.

Lemma kept_applicable : applicable [keep].
Proof. eexists. vm_compute. reflexivity. Qed.
Lemma start_sound : sound start.
Proof. split; [by eexists|]. intros addr. unfold applied_at. cbn. rewrite lookup_empty. cbn. lia. Qed.
Lemma stored_sound : sound stored.
Proof. split; [apply kept_applicable|]. intros addr. unfold applied_at. cbn. rewrite lookup_empty. cbn. lia. Qed.
Lemma caught_up_sound : sound caught_up.
Proof.
  split; [apply kept_applicable|]. intros addr. unfold applied_at. cbn.
  destruct (decide (addr = "b")) as [->|]; [by rewrite lookup_singleton_eq|rewrite lookup_singleton_ne by done; cbn; lia].
Qed.
Lemma still s : sound s -> evolves s s.
Proof. intros Hs. by split_and!. Qed.
Lemma catches_up : evolves stored caught_up.
Proof.
  split_and!; [done..|apply caught_up_sound|]. intros addr. unfold applied_at. cbn. rewrite lookup_empty. cbn. lia.
Qed.

(** Stored through [a]. *)
Lemma registered :
  ends (service_does (Doc := Doc) "a") (TopicService.register_retain_publish_packet "public" "c" (PPublish message)) start (Ok tt) stored.
Proof.
  exists (Ok (Err (NotLeader (Some leader)))), start. split.
  { right. exists (Err (NotLeader (Some leader))). split; [|done].
    exists (Err (ForwardToLeader (Some leader))), start. split; [|done]. exists start. split; [apply still, start_sound|]. right. left. by exists (Some leader). }
  exists (Ok tt), start. split; [done|]. exists (Ok tt), stored. split; [|done].
  right. exists (Ok tt). split; [|by left]. exists (Ok (Ok tt)), stored. split; [|done]. right. exists (Ok tt). split; [|done].
  exists (Ok done_), stored. split; [|done]. exists start. split; [apply still, start_sound|]. left. exists done_. split; [done|].
  split; [done|apply kept_applicable].
Qed.
Lemma topic_write_once_witness : own stored = (own start ++ [keep])%list.
Proof. apply (topic_write_once (Doc := Doc) "a" keep _ start (Ok tt) stored eq_refl I registered). reflexivity. Defined.

(** Read through [a], answered by [b]. *)
Lemma found : ends (service_does (Doc := Doc) "a") (get_retain_publish_packets_linearizable "public" "lamp/+") stored
  (Ok [PPublish message]) caught_up.
Proof.
  exists (Ok (Err (NotLeader (Some leader)))), stored. split.
  { right. exists (Err (NotLeader (Some leader))). split; [|done].
    exists (Err (ForwardToLeader (Some leader))), stored. split; [|done]. exists stored. split; [apply still, stored_sound|].
    split; [done|]. right. by eexists. }
  exists (Ok tt), stored. split; [done|]. exists (Ok (Some (inr [PPublish message]))), caught_up. split; [|done].
  right. exists (Ok (Some (inr [PPublish message]))). split; [|by left]. exists (Ok (Ok [PPublish message])), caught_up. split; [|done].
  right. exists (Ok [PPublish message]). split; [|done].
  exists (Ok tt), caught_up. split; [exists caught_up; split; [apply catches_up|split; [done|by left]]|].
  destruct kept_applicable as [st Hst].
  exists st, caught_up. split; [exists caught_up; split; [apply still, caught_up_sound|by split]|].
  exists 0, caught_up. split; [exists caught_up; split; [apply still, caught_up_sound|done]|].
  split; [|done]. revert Hst. vm_compute. by intros [= <-].
Qed.
Lemma retained_read_linearizable_witness :
  exists k now, history stored `prefix_of` take k (history caught_up) /\
    [PPublish message] ≡ₚ table_retained (table_of (take k (history caught_up))) now "public" "lamp/+".
Proof. apply (retained_read_linearizable (Doc := Doc) "a" "public" "lamp/+" stored _ caught_up found). Defined.
Lemma retained_then_found_witness :
  exists l s1 s2,
    ends (service_does (Doc := Doc) "a") (TopicService.register_retain_publish_packet "public" "c" (PPublish message)) start (Ok tt) s1 /\
    ends (service_does (Doc := Doc) "a") (get_retain_publish_packets_linearizable "public" "lamp/+") s1 (Ok l) s2 /\
    PPublish message ∈ l.
Proof.
  eexists _, stored, caught_up. split; [exact registered|]. split; [exact found|].
  apply (retained_then_found (Doc := Doc) "a" "a" "public" "c" "lamp/+" message start stored _ caught_up registered found).
  - constructor.
  - reflexivity.
  - reflexivity.
Defined.

(** The other linearizable read is not one when it is forwarded: the service it is sent to reads
    its node's copy without confirming that the node leads, so a subscription that was committed
    before the read was asked for can be missing from its answer. *)
Definition watch : Request := SubscribeTopic "public" "c" "lamp/#" 1 false false.
Definition behind : Topics := mkTopics both [watch] [watch] ∅.
Theorem forwarded_subscriptions_stale :
  watch ∈ history behind /\
  ends (service_does (Doc := Doc) "a") (get_subscriptions_linearizable "public" "lamp/state") behind (Ok []) behind /\
  table_subscriptions (table_of (history behind)) "public" "lamp/state" = [mkSubscription "c" 1 false false None "lamp/#"].
Proof.
  assert (Hs : sound behind).
  { split; [eexists; vm_compute; reflexivity|]. intros addr. unfold applied_at. cbn. rewrite lookup_empty. cbn. lia. }
  split_and!; [by left| |vm_compute; reflexivity].
  exists (Ok (Err (NotLeader (Some leader)))), behind. split.
  { right. exists (Err (NotLeader (Some leader))). split; [|done].
    exists (Err (ForwardToLeader (Some leader))), behind. split; [|done]. exists behind. split; [by apply still|].
    split; [done|]. right. by eexists. }
  exists (Ok tt), behind. split; [done|]. exists (Ok []), behind. split; [|done].
  right. exists (Ok []). split; [|by left]. exists (Ok (Ok [])), behind. split; [|done].
  right. exists (Ok []). split; [|done]. exists new_storage, behind. split; [exists behind; split; [by apply still|done]|].
  split; [vm_compute; reflexivity|done].
Qed.
End TopicSample.
