(* ===== verification/RouterSystem.v ===== *)
(** * Routing between nodes, interleaved

    The programs of [Router] run on the routers of several nodes at once: tasks are
    interleaved at every operation, any operation may fail, calls and their replies
    may be lost, a node may stop at any point and lose its tasks, and any number of
    tasks may hold copies of the same record.  What a node has written stays.  The
    theorem is that a message in an outbox is not lost: it is still there, or in the
    inbox of a node, or was accepted by a session, or was given up because it expired
    or its attempts ran out.

    [move] names what can happen next and [step] does it, so executions compute; the
    proof is a judgement [wp] on programs over facts that stay true once they are. *)

From S2P Require Import Prelude Program Packet MessageExpiry TopicStorage RaftLog SessionMap V3Codec V3Convert Router.

#[local] Open Scope Z_scope.
#[local] Open Scope prog_scope.

(** A router of a node. *)
Record Site := mkSite { site_node : NodeId; site_router : Z }.
#[export] Instance Site_eq_dec : EqDecision Site.
Proof. solve_decision. Defined.
#[export] Instance Site_countable : Countable Site.
Proof. by refine (inj_countable' (fun s => (site_node s, site_router s)) (fun '(n, r) => mkSite n r) _); intros []. Defined.

(** What an outside observer sees. *)
Inductive Event :=
  | Delivered (s : Site) (route_id tenant_id client_id : string) (packet : Packet)
  | Sent (s : Site) (tenant_id client_id : string) (packet : Packet)
  | Gone (s : Site) (reason : Drop).

(** The stores of the nodes (payloads are shared by the routers of a node, outboxes and
    inboxes are not), the cursors, the identifiers handed out and what was observed. *)
Record World (Doc : Type) := mkWorld {
  payloads : gmap (NodeId * string) Doc;
  outbox : gmap (Site * string) RouteOutboxItem;
  inbox : gmap (Site * string) RouteInboxItem;
  cursors : gmap (Site * SharedSubscriptionRouteKey) nat;
  used : gset string;
  trace : list Event;
}.
Arguments mkWorld {Doc}.
Arguments payloads {Doc}.
Arguments outbox {Doc}.
Arguments inbox {Doc}.
Arguments cursors {Doc}.
Arguments used {Doc}.
Arguments trace {Doc}.

(** What the world answers: whether the operation fails, and what it is told by the
    clock, by the identifier generator and by the other actors. *)
Record Answer := mkAnswer {
  a_error : option string;
  a_refused : option string;
  a_now : Z;
  a_uuid : string;
  a_addr : option string;
  a_found : bool;
  a_local : outcome TopicStorageError (list Subscription);
  a_subs : list SubscriptionInfo;
  a_entry : option SessionActorMapEntry;
  a_tenants : list string;
}.
Definition at_time (now : Z) : Answer :=
  mkAnswer None None now "" (Some "") true (Ok []) [] None [].

Section System.
Context {Doc : Type} `{Serde Doc Packet, Serde Doc MqttPacketV3}.
(** The configuration, and the node that listens at an address. *)
Context (cfg : RouteRetryConfig) (host : string -> NodeId).
Implicit Types (w : World Doc) (s d : Site).

Definition set_payloads m w : World Doc := mkWorld m (outbox w) (inbox w) (cursors w) (used w) (trace w).
Definition set_outbox m w : World Doc := mkWorld (payloads w) m (inbox w) (cursors w) (used w) (trace w).
Definition set_inbox m w : World Doc := mkWorld (payloads w) (outbox w) m (cursors w) (used w) (trace w).
Definition set_cursors m w : World Doc := mkWorld (payloads w) (outbox w) (inbox w) m (used w) (trace w).
Definition use_id id w : World Doc := mkWorld (payloads w) (outbox w) (inbox w) (cursors w) ({[id]} ∪ used w) (trace w).
Definition observe e w : World Doc := mkWorld (payloads w) (outbox w) (inbox w) (cursors w) (used w) (trace w ++ [e]).

(** The records of one router's store. *)
Definition rows {A} (s : Site) (m : gmap (Site * string) A) : list (string * A) :=
  omap (fun '((s', k), v) => if decide (s' = s) then Some (k, v) else None) (map_to_list m).

(** A call that fails changes nothing. *)
Definition failing {A} (a : Answer) (r : A) : io A := match a_error a with Some e => Err e | None => Ok r end.
Definition writing (a : Answer) (w w' : World Doc) : io unit * World Doc :=
  match a_error a with Some e => (Err e, w) | None => (Ok tt, w') end.

(** The locked section around the cursor of a group. *)
Definition next_cursor s (key : SharedSubscriptionRouteKey) (len : nat) w : nat * World Doc :=
  let idx := (from_option id 0 (cursors w !! (s, key)) mod len)%nat in
  (idx, set_cursors (<[(s, key) := S idx]> (cursors w)) w).

Definition exec s (a : Answer) (o : op Doc) w : res o * World Doc :=
  match o return res o * World Doc with
  | Now => (a_now a, w)
  | NewUuid => (a_uuid a, use_id (a_uuid a) w)
  | PayloadPut key data => writing a w (set_payloads (<[(site_node s, key) := data]> (payloads w)) w)
  | PayloadGet key => (failing a (payloads w !! (site_node s, key)), w)
  | PayloadDelete key => writing a w (set_payloads (delete (site_node s, key) (payloads w)) w)
  | OutboxPut key item => writing a w (set_outbox (<[(s, key) := item]> (outbox w)) w)
  | OutboxDelete key => writing a w (set_outbox (delete (s, key) (outbox w)) w)
  | OutboxScan => (failing a (rows s (outbox w)), w)
  | InboxPut key item => writing a w (set_inbox (<[(s, key) := item]> (inbox w)) w)
  | InboxGet key => (failing a (inbox w !! (s, key)), w)
  | InboxDelete key => writing a w (set_inbox (delete (s, key) (inbox w)) w)
  | InboxScan => (failing a (rows s (inbox w)), w)
  | GetNode _ => (a_addr a, w)
  | CallRoutePacket _ _ => (failing a tt, w)
  | GetSession _ _ => (a_found a, w)
  | DoSend t c p => (tt, observe (Sent s t c p) w)
  | AcceptRouted rid t c p =>
      match a_error a, a_refused a with
      | Some e, _ => (Err e, w)
      | None, Some e => (Ok (Err e), w)
      | None, None => (Ok (Ok tt), observe (Delivered s rid t c p) w)
      end
  | Dropped r => (tt, observe (Gone s r) w)
  | Spawn _ => (tt, w)
  | LocalSubscriptions _ _ => (a_local a, w)
  | LinearizableSubscriptions _ _ => (failing a (a_subs a), w)
  | GetSubscriptions _ _ => (failing a (match a_refused a with Some e => Err e | None => Ok (a_subs a) end), w)
  | LocalSessionMap _ _ => (a_entry a, w)
  | LinearizableSessionMap _ _ => (failing a (a_entry a), w)
  | NextCursor key len => next_cursor s key len w
  | GetAllTenantIds => (failing a (a_tenants a), w)
  end.

(** Identifiers are not handed out twice ([Uuid::new_v4]). *)
Definition admissible (a : Answer) (o : op Doc) w : bool :=
  match o with
  | NewUuid => bool_decide (a_uuid a ∉ used w /\ a_uuid a <> ""%string)
  | CallRoutePacket _ _ => false
  | _ => true
  end.

(** ** Tasks *)

(** A task runs, or waits for the handler of its call on another router. *)
Inductive Task :=
  | Run (s : Site) (p : prog Doc unit)
  | Wait (s : Site) (k : io unit -> prog Doc unit) (d : Site) (h : prog Doc (io unit)).

Definition spawned s (o : op Doc) : list Task :=
  match o with Spawn j => [Run s (job_program cfg j)] | _ => [] end.

(** The next operation of a program. *)
Definition advance {A} s (a : Answer) (p : prog Doc A) w : option (prog Doc A * list Task * World Doc) :=
  match p with
  | Ret _ => None
  | Do o k => if admissible a o w then Some (k (exec s a o w).1, spawned s o, (exec s a o w).2) else None
  end.

(** A handler that was abandoned runs on. *)
Definition orphan d (h : prog Doc (io unit)) : Task := Run d (_ ← h; Ret tt).

Definition on_node (n : NodeId) s : bool := site_node s =? n.

(** What is left of a task when a node stops. *)
Definition survivors (n : NodeId) (t : Task) : list Task :=
  match t with
  | Run s p => if on_node n s then [] else [Run s p]
  | Wait s k d h =>
      match on_node n s, on_node n d with
      | true, true => []
      | true, false => [orphan d h]
      | false, true => [Run s (k (Err "transport error"%string))]
      | false, false => [Wait s k d h]
      end
  end.

(** What an actor starts when it starts, and at each of its two intervals. *)
Definition started s : list Task :=
  [Run s (process_route_outbox cfg); Run s (process_route_inbox cfg); Run s (cleanup_completed_inbox_items cfg)].
Definition on_retry_interval s : list Task := [Run s (process_route_outbox cfg); Run s (process_route_inbox cfg)].
Definition on_cleanup_interval s : list Task := [Run s (cleanup_completed_inbox_items cfg)].

Inductive move :=
  | Step (i : nat) (a : Answer)
  | Arrive (i : nat) (d : Site)
  | CallFails (i : nat) (e : string)
  | Reply (i : nat)
  | ReplyLost (i : nat) (e : string)
  | Stop (n : NodeId)
  | Start (s : Site)
  | Tick (s : Site)
  | Cleanup (s : Site)
  | Publish_ (s : Site) (tenant_id : string) (packet : Packet) (source : option string)
  | PublishAll (s : Site) (packet : Packet).

Definition the_call (p : prog Doc unit)
    : option (string * RoutePacketRequest Doc * (io unit -> prog Doc unit)) :=
  match p with
  | Ret _ => None
  | Do o k =>
      match o return (res o -> prog Doc unit) -> option (string * RoutePacketRequest Doc * (io unit -> prog Doc unit)) with
      | CallRoutePacket addr req => fun k => Some (addr, req, k)
      | _ => fun _ => None
      end k
  end.

(** The status the caller sees. *)
Definition reply_of (r : io unit) : io unit :=
  match r with Ok _ => Ok tt | Err e => Err e | _ => Err "h2 protocol error"%string end.

Definition step (m : move) (c : World Doc * list Task) : option (World Doc * list Task) :=
  let '(w, ts) := c in
  match m with
  | Step i a =>
      match ts !! i with
      | Some (Run s p) =>
          '(p, new, w) ← advance s a p w; Some (w, <[i := Run s p]> ts ++ new)
      | Some (Wait s k d h) =>
          '(h, new, w) ← advance d a h w; Some (w, <[i := Wait s k d h]> ts ++ new)
      | None => None
      end
  | Arrive i d =>
      match ts !! i with
      | Some (Run s p) =>
          '(addr, req, k) ← the_call p;
          if decide (site_node d = host addr) then Some (w, <[i := Wait s k d (route_packet cfg req)]> ts) else None
      | _ => None
      end
  | CallFails i e =>
      match ts !! i with
      | Some (Run s p) => '(_, _, k) ← the_call p; Some (w, <[i := Run s (k (Err e))]> ts)
      | _ => None
      end
  | Reply i =>
      match ts !! i with
      | Some (Wait s k d (Ret r)) => Some (w, <[i := Run s (k (reply_of r))]> ts)
      | _ => None
      end
  | ReplyLost i e =>
      match ts !! i with
      | Some (Wait s k d h) => Some (w, <[i := Run s (k (Err e))]> ts ++ [orphan d h])
      | _ => None
      end
  | Stop n =>
      Some (set_cursors (filter (fun kv => on_node n kv.1.1 = false) (cursors w)) w, concat (map (survivors n) ts))
  | Start s => Some (w, ts ++ started s)
  | Tick s => Some (w, ts ++ on_retry_interval s)
  | Cleanup s => Some (w, ts ++ on_cleanup_interval s)
  | Publish_ s tenant packet source =>
      Some (w, ts ++ [Run s (_ ← route cfg (site_node s) tenant packet source; Ret tt)])
  | PublishAll s packet => Some (w, ts ++ [Run s (_ ← handle_route_packet_to_all_tenants packet; Ret tt)])
  end.

Fixpoint steps (ms : list move) (c : World Doc * list Task) : option (World Doc * list Task) :=
  match ms with
  | [] => Some c
  | m :: ms => c ← step m c; steps ms c
  end.

Definition empty_world : World Doc := mkWorld ∅ ∅ ∅ ∅ ∅ [].
Definition reachable (c : World Doc * list Task) : Prop := exists ms, steps ms (empty_world, []) = Some c.
End System.
Arguments Task : clear implicits.
