(* ===== verification/RouterSafety.v ===== *)
(** * No message is lost between nodes

    The judgement [wp] says of a program what it may do to the stores: it is checked
    operation by operation against facts [Facts] that only grow, so it survives
    whatever other tasks do in between.  [Agree] ties the facts to the stores; every
    step of the system keeps both. *)

From S2P Require Import Prelude Program Packet MessageExpiry TopicStorage RaftLog SessionMap V3Codec V3Convert Router RouterSystem.

#[local] Open Scope Z_scope.
#[local] Open Scope prog_scope.

Create HintDb facts.

(** What a route carries. *)
Record Route := mkRoute { rt_tenant : string; rt_target : string; rt_packet : Packet }.

(** Routes by identifier; the identifiers that were written to an outbox ([held]), whose
    write failed ([refused]), that a session accepted or that were given up ([settled]),
    that another node has taken over ([taken]); and the nodes that stored the payload. *)
Record Facts := mkFacts {
  routes : gmap string Route;
  held : gset string;
  refused : gset string;
  received : gset (NodeId * string);
  taken : gset string;
  settled : gset string;
}.

Definition facts_le (G G' : Facts) : Prop :=
  routes G ⊆ routes G' /\ held G ⊆ held G' /\ refused G ⊆ refused G' /\ received G ⊆ received G' /\
  taken G ⊆ taken G' /\ settled G ⊆ settled G'.
Infix "⊑f" := facts_le (at level 70).

#[export] Instance facts_le_preorder : PreOrder facts_le.
Proof.
  split; [done|]. intros x y z (?&?&?&?&?&?) (?&?&?&?&?&?). split_and!; by etrans.
Qed.

Definition outkey (rid : string) : string := build_packet_key "route-outbox" rid.
Definition inkey (rid : string) : string := build_packet_key "route-inbox" rid.

Lemma outkey_inj a b : outkey a = outkey b -> a = b.
Proof. unfold outkey, build_packet_key. by intros ?%(inj (String.append _))%(inj (String.append _)). Qed.
Lemma inkey_inj a b : inkey a = inkey b -> a = b.
Proof. unfold inkey, build_packet_key. by intros ?%(inj (String.append _))%(inj (String.append _)). Qed.
Lemma outkey_inkey a b : outkey a <> inkey b.
Proof. discriminate. Qed.

(** [key] is where the outbox payload of [rid] is stored. *)
Definition is_outkey (key rid : string) : bool := bool_decide (key = outkey rid).
#[global] Arguments is_outkey : simpl never.
Lemma is_outkey_self rid : is_outkey (outkey rid) rid = true.
Proof. by apply bool_decide_eq_true. Qed.
Lemma is_outkey_inkey rid rid' : is_outkey (inkey rid) rid' = false.
Proof. by apply bool_decide_eq_false. Qed.

#[global] Opaque is_outkey.

(** A task may own the route it is about to write, or be barred from making one. *)
Inductive Own := Free | Mine (rid : string) (stored : bool) | Barred.

Definition owned (o : Own) : option string := match o with Mine rid _ => Some rid | _ => None end.

Definition drop_id (r : Drop) : string :=
  match r with NoSubscriber => "" | PacketExpired id _ _ => id | RouteExhausted id _ _ _ => id end.

(** The reasons for which a message may be given up. *)
Definition exhausted (cfg : RouteRetryConfig) (r : Drop) : Prop :=
  match r with
  | NoSubscriber => True
  | PacketExpired _ p now => is_packet_expired p now = true
  | RouteExhausted _ expiry attempts now => expiry <= now \/ max_retry_count cfg <= attempts
  end.

Definition covered (G : Facts) (rid : string) : Prop :=
  rid ∈ taken G \/ exists ρ, routes G !! rid = Some ρ /\ rt_target ρ = ""%string.

Definition out_item (s : Site) (G : Facts) (k : string) (item : RouteOutboxItem) : Prop :=
  k <> ""%string /\ k = o_route_id item /\ o_packet_key item = outkey k /\ o_source_node_id item = site_node s /\
  exists ρ, routes G !! k = Some ρ /\ o_tenant_id item = rt_tenant ρ /\ o_target_client_id item = rt_target ρ.

Definition in_item (n : NodeId) (G : Facts) (k : string) (item : RouteInboxItem) : Prop :=
  k <> ""%string /\ k = i_route_id item /\ i_packet_key item = inkey k /\
  (exists ρ, routes G !! k = Some ρ /\ i_tenant_id item = rt_tenant ρ /\ i_target_client_id item = rt_target ρ) /\
  match i_status item with Pending => (n, k) ∈ received G | Completed => k ∈ settled G end.

Section Safety.
Context {Doc : Type} `{SerdeSpec Doc Packet, Serde Doc MqttPacketV3}.
Context (cfg : RouteRetryConfig).
Implicit Types (w : World Doc) (s d : Site) (G : Facts) (own : Own) (o : op Doc).

(** [d] is the document of the route's packet. *)
Definition carries G (rid : string) (b : Doc) : Prop :=
  exists ρ, routes G !! rid = Some ρ /\ to_vec (rt_packet ρ) = Ok b.

Definition request_ok G (q : RoutePacketRequest Doc) : Prop :=
  rq_route_id q = ""%string \/
  exists ρ, routes G !! rq_route_id q = Some ρ /\ rq_tenant_id q = rt_tenant ρ /\
    rq_target_client_id q = rt_target ρ /\ to_vec (rt_packet ρ) = Ok (rq_payload q).

Definition job_ok s G (j : Job) : Prop :=
  match j with
  | DispatchOutbox item => out_item s G (o_route_id item) item /\ o_route_id item ∈ held G
  | ProcessInbox item => in_item (site_node s) G (i_route_id item) item
  | BestEffort _ _ _ _ _ => True
  end.

Definition drop_ok G (r : Drop) : Prop :=
  exhausted cfg r /\
  match r with
  | PacketExpired id p _ => id = ""%string \/ exists ρ, routes G !! id = Some ρ /\ rt_packet ρ = p
  | _ => True
  end.

(** What a task must know before it performs an operation. *)
Definition pre s own o G : Prop :=
  match o with
  | NewUuid => own <> Barred
  | PayloadPut key b =>
      (exists rid st, own = Mine rid st /\ key = outkey rid /\ carries G rid b) \/
      exists rid, key = inkey rid /\ carries G rid b
  | PayloadDelete key =>
      (exists rid, key = outkey rid /\ (covered G rid \/ rid ∈ refused G)) \/
      exists rid, key = inkey rid /\ rid ∈ settled G
  | OutboxPut key item => out_item s G key item /\ (own = Mine key true \/ key ∈ held G)
  | OutboxDelete key => covered G key
  | InboxPut key item => in_item (site_node s) G key item
  | InboxDelete key => key ∈ settled G
  | CallRoutePacket _ q => request_ok G q
  | AcceptRouted rid t c p => rid = ""%string \/ routes G !! rid = Some (mkRoute t c p)
  | Dropped r => drop_ok G r
  | Spawn j => job_ok s G j
  | _ => True
  end.

(** What it knows afterwards; [ρ] is the route it makes of a new identifier. *)
Definition post (ρ : Route) s own o : res o -> Facts -> Prop :=
  match o return res o -> Facts -> Prop with
  | NewUuid => fun r G => r <> ""%string /\ routes G !! r = Some ρ
  | PayloadPut key _ => fun r G => r = Ok tt -> forall rid, key = inkey rid -> (site_node s, rid) ∈ received G
  | PayloadGet key => fun r G => forall b, r = Ok (Some b) ->
      forall rid, key = outkey rid \/ key = inkey rid -> carries G rid b
  | OutboxPut key _ => fun r G =>
      match r with Ok _ => key ∈ held G | Err _ => own = Mine key true -> key ∈ refused G | _ => True end
  | OutboxScan => fun r G => forall l, r = Ok l -> forall k item, (k, item) ∈ l -> out_item s G k item /\ k ∈ held G
  | InboxPut key _ => fun r G => r = Ok tt -> key ∈ taken G
  | InboxGet key => fun r G => forall item, r = Ok (Some item) -> key ∈ taken G
  | InboxScan => fun r G => forall l, r = Ok l -> forall k item, (k, item) ∈ l -> in_item (site_node s) G k item
  | CallRoutePacket _ q => fun r G => r = Ok tt -> rq_route_id q <> ""%string ->
      covered G (rq_route_id q)
  | AcceptRouted rid _ _ _ => fun r G => r = Ok (Ok tt) -> rid <> ""%string -> rid ∈ settled G
  | Dropped r => fun _ G => drop_id r <> ""%string -> drop_id r ∈ settled G /\ drop_id r ∈ taken G
  | _ => fun _ _ => True
  end.

Definition own_after own o : res o -> Own :=
  match o return res o -> Own with
  | NewUuid => fun r => match own with Barred => Barred | _ => Mine r false end
  | PayloadPut key _ => fun r =>
      match own, r with
      | Mine rid _, Ok _ => if is_outkey key rid then Mine rid true else own
      | _, _ => own
      end
  | OutboxPut key _ => fun _ =>
      match own with Mine rid _ => if decide (rid = key) then Free else own | _ => own end
  | _ => fun _ => own
  end.

Fixpoint wp {A} s own (p : prog Doc A) G (Q : A -> Own -> Facts -> Prop) : Prop :=
  match p with
  | Ret a => Q a own G
  | Do o k => pre s own o G /\ exists ρ, forall r G', G ⊑f G' -> post ρ s own o r G' -> wp s (own_after own o r) (k r) G' Q
  end.

(** ** Rules *)

Lemma routes_le G G' k ρ : G ⊑f G' -> routes G !! k = Some ρ -> routes G' !! k = Some ρ.
Proof. intros (Hr & _) ?. by eapply lookup_weaken. Qed.
Lemma held_le G G' k : G ⊑f G' -> k ∈ held G -> k ∈ held G'.
Proof. intros (_ & Hs & _). apply Hs. Qed.
Lemma refused_le G G' k : G ⊑f G' -> k ∈ refused G -> k ∈ refused G'.
Proof. intros (_ & _ & Hs & _). apply Hs. Qed.
Lemma received_le G G' k : G ⊑f G' -> k ∈ received G -> k ∈ received G'.
Proof. intros (_ & _ & _ & Hs & _). apply Hs. Qed.
Lemma taken_le G G' k : G ⊑f G' -> k ∈ taken G -> k ∈ taken G'.
Proof. intros (_ & _ & _ & _ & Hs & _). apply Hs. Qed.
Lemma settled_le G G' k : G ⊑f G' -> k ∈ settled G -> k ∈ settled G'.
Proof. intros (_ & _ & _ & _ & _ & Hs). apply Hs. Qed.
#[local] Hint Resolve routes_le held_le refused_le received_le taken_le settled_le : facts.

Lemma covered_le G G' k : G ⊑f G' -> covered G k -> covered G' k.
Proof. unfold covered. intros Hle [?|(ρ & ? & ?)]; eauto with facts. Qed.
Lemma out_item_le s G G' k item : G ⊑f G' -> out_item s G k item -> out_item s G' k item.
Proof. unfold out_item. intros Hle (? & ? & ? & ? & ρ & ? & ? & ?). eauto 12 with facts. Qed.
Lemma in_item_le n G G' k item : G ⊑f G' -> in_item n G k item -> in_item n G' k item.
Proof.
  unfold in_item. intros Hle (? & ? & ? & (ρ & ? & ? & ?) & ?). split_and!; [done..|eauto 10 with facts|].
  destruct (i_status item); eauto with facts.
Qed.
Lemma carries_le G G' k b : G ⊑f G' -> carries G k b -> carries G' k b.
Proof. unfold carries. intros Hle (ρ & ? & ?). eauto with facts. Qed.
#[local] Hint Resolve covered_le out_item_le in_item_le carries_le : facts.

Lemma pre_le s own o G G' : G ⊑f G' -> pre s own o G -> pre s own o G'.
Proof.
  intros Hle. destruct o; simpl; try done; try naive_solver eauto with facts.
  - unfold request_ok. naive_solver eauto with facts.
  - unfold drop_ok. intros [? Hr]. split; [done|]. destruct reason; naive_solver eauto with facts.
  - destruct job; simpl; naive_solver eauto with facts.
Qed.

Lemma wp_le {A} s own (p : prog Doc A) G G' Q :
  (forall a own G G', G ⊑f G' -> Q a own G -> Q a own G') -> G ⊑f G' -> wp s own p G Q -> wp s own p G' Q.
Proof.
  intros HQ Hle. destruct p as [a|o k]; simpl; [by apply HQ|]. intros [Hpre (ρ & Hk)].
  split; [by eapply pre_le|]. exists ρ. intros r G'' Hle'. apply Hk. by etrans.
Qed.

Lemma prog_wp_mono {A} s own (p : prog Doc A) G (Q Q' : A -> Own -> Facts -> Prop) :
  (forall a own G', G ⊑f G' -> Q a own G' -> Q' a own G') -> wp s own p G Q -> wp s own p G Q'.
Proof.
  revert own G. induction p as [a|o k IH]; simpl; intros own G HQ; [by apply HQ|].
  intros [Hpre (ρ & Hk)]. split; [done|]. exists ρ. intros r G' Hle Hpost. eapply IH; [|by apply Hk].
  intros a own' G'' Hle'. apply HQ. by etrans.
Qed.

Lemma prog_wp_bind {A B} s own (p : prog Doc A) (f : A -> prog Doc B) G Q :
  wp s own p G (fun a own G => wp s own (f a) G Q) -> wp s own (p ≫= f) G Q.
Proof.
  revert own G. induction p as [a|o k IH]; simpl; intros own G; [done|].
  intros [Hpre (ρ & Hk)]. split; [done|]. exists ρ. intros r G' Hle Hpost. by apply IH, Hk.
Qed.

(** An operation, then the rest; a new identifier is for the route [ρ]. *)
Lemma wp_new {B} s own (k : string -> prog Doc B) ρ G Q :
  own <> Barred ->
  (forall rid G', G ⊑f G' -> rid <> ""%string -> routes G' !! rid = Some ρ -> wp s (Mine rid false) (k rid) G' Q) ->
  wp s own (Do NewUuid k) G Q.
Proof.
  intros Hown Hk. split; [done|]. exists ρ. intros r G' Hle [Hne Hr]. simpl. destruct own; [by apply Hk..|done].
Qed.

Lemma wp_call {B} s own o (f : res o -> prog Doc B) G Q :
  pre s own o G ->
  (forall ρ r G', G ⊑f G' -> post ρ s own o r G' -> wp s (own_after own o r) (f r) G' Q) ->
  wp s own (call o ≫= f) G Q.
Proof. intros Hpre Hk. split; [done|]. exists (mkRoute "" "" PPingreq). apply Hk. Qed.

(** Loops over the records of a store. *)
Lemma wp_each {A B} s own (f : A -> prog Doc B) l G :
  (forall own G', G ⊑f G' -> Forall (fun a => wp s own (f a) G' (fun _ _ _ => True)) l) ->
  wp s own (each f l) G (fun _ _ _ => True).
Proof.
  revert own G. induction l as [|a l IH]; intros own G Hall; [done|]. simpl. apply prog_wp_bind.
  eapply prog_wp_mono; [|exact (Forall_inv (Hall own G (reflexivity _)))]. intros b own' G' Hle _. apply IH.
  intros own'' G'' Hle'. eapply Forall_inv_tail, Hall. by etrans.
Qed.

Lemma wp_try_each {E A} s own (f : A -> prog Doc (outcome E unit)) l G (P : Own -> Prop) :
  P own ->
  (forall a own G', P own -> G ⊑f G' -> wp s own (f a) G' (fun _ own _ => P own)) ->
  wp s own (try_each f l) G (fun _ own _ => P own).
Proof.
  revert own G. induction l as [|a l IH]; intros own G Hown Hf; [done|]. simpl. apply prog_wp_bind.
  eapply prog_wp_mono; [|by apply Hf]. simpl. intros b own' G' Hle Hown'. destruct b; try done. apply IH; [done|].
  intros a' own'' G'' Hown'' Hle'. apply Hf; [done|]. by etrans.
Qed.

(** [op]: run the next operation. *)
Ltac op := simpl; split; [|exists (mkRoute "" "" PPingreq); intros ?r ?G ?Hle ?Hpost; simpl in *].

Lemma enqueue_ok s own t n c q p G :
  own <> Barred ->
  wp s own (enqueue_durable_remote_route cfg (site_node s) t n c q p) G (fun _ own _ => own <> Barred).
Proof.
  intros Hown. refine (wp_new _ _ _ (mkRoute t c p) _ _ Hown _). intros rid G1 Hle1 Hne Hr1.
  op; [done|]. case_match eqn:Hexp.
  - op; [|done]. split; [|done]. left. by apply Z.leb_le.
  - unfold serialize_stored_packet. destruct (to_vec p) as [b| | |] eqn:Hto; try done.
    op; [left; unfold carries; exists rid, false; eauto 10 with facts|]. destruct r0 as [[]|e| |]; try done.
    rewrite is_outkey_self.
    assert (out_item s G2 rid (mkOutboxItem rid t (site_node s) n c q (build_packet_key "route-outbox" rid) r 0
      (route_expiry_at p (message_ttl_seconds cfg) r))) as Hitem.
    { split_and!; [done..|]. exists (mkRoute t c p). split_and!; [|done..]. eauto with facts. }
    op; [by split; [|left]|]. rewrite decide_True by done. destruct r0 as [[]|e| |]; try done.
    + op; [|done]. split; [|done]. by eapply out_item_le.
    + op; [left; exists rid; auto|done].
Qed.

Lemma retry_outbox_item now item item' s G :
  retry_outbox cfg now item = Ok item' -> out_item s G (o_route_id item) item ->
  o_route_id item' = o_route_id item /\ out_item s G (o_route_id item) item'.
Proof.
  unfold retry_outbox. intros Hr Hi. inv_ok Hr. inv_ok Hr. injection Hr as <-. by split.
Qed.

Lemma put_retry_ok s own now item G (e : RouteOutboxItem -> RouterActorError) :
  out_item s G (o_route_id item) item -> o_route_id item ∈ held G ->
  wp s own (item <-? Ret (retry_outbox cfg now item);
            _ <-? fails_with RouteStoreError (call (OutboxPut (o_route_id item) item));
            Ret (@Err _ unit (e item))) G (fun _ _ _ => True).
Proof.
  intros Hi Hheld. unfold attempt. simpl. destruct (retry_outbox cfg now item) as [item'| | |] eqn:Hr; try done.
  destruct (retry_outbox_item _ _ _ s G Hr Hi) as [Heq Hi']. rewrite Heq.
  op; [by split; [|right]|]. by destruct r.
Qed.

Lemma drop_outbox_ok s own reason item G :
  drop_ok G reason -> drop_id reason = o_route_id item ->
  out_item s G (o_route_id item) item ->
  wp s own (drop_outbox reason item) G (fun _ _ _ => True).
Proof.
  intros Hd Hid (Hne & _ & Hkey & _). op; [done|]. rewrite Hid in *. destruct (Hpost Hne) as [_ Htaken].
  op; [by left|]. op; [|done]. rewrite Hkey. left. exists (o_route_id item). split; [done|]. do 2 left. eauto with facts.
Qed.

Lemma dispatch_ok s own item G :
  out_item s G (o_route_id item) item -> o_route_id item ∈ held G ->
  wp s own (dispatch_outbox_item cfg item) G (fun _ _ _ => True).
Proof.
  intros Hi Hheld. op; [done|]. case_match eqn:Hex.
  - apply (drop_outbox_ok s own (RouteExhausted _ _ _ _)); [|done..|by eapply out_item_le]. split; [|done].
    apply orb_true_iff in Hex as [?%Z.leb_le|?%Z.leb_le]; [by left|by right].
  - case_match; [done|]. op; [done|]. destruct r0 as [rpc_addr|]; 
      [|apply (put_retry_ok s own r item _ (fun item => GRPC ("node " +:+ pretty (o_dest_node_id item) +:+ " not found")));
        eauto with facts].
    op; [done|]. destruct r0 as [[b|]| | |]; try done. simpl.
    pose proof Hi as (Hne & _ & Hkey & _ & ρ & Hρ & Ht & Hc).
    destruct (Hpost1 b eq_refl (o_route_id item)) as (ρ' & Hρ' & Hto); [by left|].
    rewrite (stored_read _ _ Hto). simpl.
    assert (routes G2 !! o_route_id item = Some ρ) as Hρ2 by eauto with facts. simplify_eq.
    case_match eqn:Hexp.
    + apply (drop_outbox_ok s own (PacketExpired _ _ _)); [|done..|eauto with facts]. split; [done|]. eauto.
    + unfold serialize_stored_packet. rewrite Hto. op; [right; by exists ρ'|].
      destruct r0 as [[]|e| |]; try done.
      * assert (covered G3 (o_route_id item)) by auto. op; [done|]. destruct r0; try done.
        op; [|done]. left. exists (o_route_id item). split; [done|]. left. eauto with facts.
      * apply (put_retry_ok s own r item _ (fun _ => GRPC e)); eauto with facts.
Qed.

Lemma durable_ok s own rid t c p G :
  rid = ""%string \/ routes G !! rid = Some (mkRoute t c p) ->
  wp s own (route_to_local_session_durable rid t c p) G
    (fun r _ G => r = Ok tt -> rid <> ""%string -> rid ∈ settled G).
Proof.
  intros Hr. op; [done|]. destruct r; [|done]. op; [naive_solver eauto with facts|].
  destruct r as [[[]|e| |]| | |]; naive_solver.
Qed.

#[local] Arguments route_to_local_session_durable : simpl never.

Lemma put_inbox_ok s own item G :
  in_item (site_node s) G (i_route_id item) item ->
  wp s own (_ <-? fails_with RouteStoreError (call (InboxPut (i_route_id item) item));
            _ ← call (Spawn (ProcessInbox item)); Ret (Ok tt)) G
    (fun (r : outcome RouterActorError unit) _ G => r = Ok tt -> i_route_id item ∈ taken G).
Proof.
  intros Hin. op; [done|]. destruct r as [[]| | |]; try done. op; [by eapply in_item_le|]. eauto with facts.
Qed.

Lemma accept_ok s own msg G :
  (rf_route_id msg = ""%string \/
   routes G !! rf_route_id msg = Some (mkRoute (rf_tenant_id msg) (rf_target_client_id msg) (rf_packet msg))) ->
  wp s own (accept_route_from_other_node cfg msg) G
    (fun r _ G => r = Ok tt -> rf_route_id msg <> ""%string -> rf_route_id msg ∈ taken G).
Proof.
  intros Hmsg. op; [done|]. case_match eqn:Hexp.
  { op; [|intros _ Hne; naive_solver]. split; [done|]. destruct Hmsg; [by left|]. right. eauto with facts. }
  case_decide as Hid.
  { eapply prog_wp_mono; [|apply durable_ok; by left]. naive_solver. }
  destruct Hmsg as [?|Hρ]; [done|]. op; [done|]. destruct r0 as [[known|]| | |]; try done; simpl.
  { naive_solver. }
  unfold serialize_stored_packet. destruct (to_vec (rf_packet msg)) as [b| | |] eqn:Hto; try done.
  op. { right. exists (rf_route_id msg). split; [done|]. eexists. eauto with facts. }
  destruct r0 as [[]| | |]; try done. op; [done|].
  assert (forall e, wp s own (_ <-? fails_with RouteStoreError (call (InboxPut (rf_route_id msg)
      (mkInboxItem (rf_route_id msg) (rf_tenant_id msg) (rf_target_client_id msg)
        (build_packet_key "route-inbox" (rf_route_id msg)) r0 0 e Pending None)));
      _ ← call (Spawn (ProcessInbox (mkInboxItem (rf_route_id msg) (rf_tenant_id msg) (rf_target_client_id msg)
        (build_packet_key "route-inbox" (rf_route_id msg)) r0 0 e Pending None))); Ret (Ok tt)) G3
      (fun (r : outcome RouterActorError unit) _ G =>
         r = Ok tt -> rf_route_id msg <> ""%string -> rf_route_id msg ∈ taken G)) as Hput.
  { intros e. eapply prog_wp_mono; [|refine (put_inbox_ok s own (mkInboxItem _ _ _ _ _ _ _ Pending None) _ _)]; [naive_solver|].
    split_and!; [done..| |simpl; eauto with facts]. eexists. split; [eauto 10 with facts|done]. }
  destruct own; (destruct (0 <? rf_expiry_at msg); simpl; [apply Hput|]);
    (destruct (add_u64 r0 (message_ttl_seconds cfg)); [apply Hput|done..]).
Qed.

Lemma finish_ok s own now item G :
  in_item (site_node s) G (i_route_id item) item -> i_route_id item ∈ settled G ->
  wp s own (finish_inbox now item) G (fun _ _ _ => True).
Proof.
  intros (? & ? & Hkey & Hρ & _) Hs. op; [by split_and!|]. destruct r; try done.
  op; [|done]. right. exists (i_route_id item). split; [done|]. eauto with facts.
Qed.

Lemma process_ok s own item G :
  in_item (site_node s) G (i_route_id item) item ->
  wp s own (process_inbox_item cfg item) G (fun _ _ _ => True).
Proof.
  intros Hi. pose proof Hi as (Hne & _ & Hkey & (ρ & Hρ & Ht & Hc) & Hst).
  unfold process_inbox_item. case_decide as Hs; [done|]. destruct (i_status item) eqn:Hstat; [clear Hs|done].
  op; [done|]. case_match eqn:Hex.
  { op.
    - split; [|done]. apply orb_true_iff in Hex as [?%Z.leb_le|?%Z.leb_le]; [by left|by right].
    - apply finish_ok; naive_solver eauto with facts. }
  case_match; [done|]. op; [done|]. destruct r0 as [[b|]| | |]; try done. simpl.
  destruct (Hpost0 b eq_refl (i_route_id item)) as (ρ' & Hρ' & Hto); [by right|].
  rewrite (stored_read _ _ Hto). simpl.
  assert (routes G1 !! i_route_id item = Some ρ) as Hρ1 by eauto with facts. simplify_eq.
  case_match eqn:Hexp.
  { op; [split; [done|]; eauto|]. apply finish_ok; naive_solver eauto with facts. }
  refine (prog_wp_bind s own (route_to_local_session_durable _ _ _ _) _ _ _ _).
  eapply prog_wp_mono; [|apply durable_ok; right; rewrite Hρ', Ht, Hc; by destruct ρ'].
  simpl. intros r0 own' G2 Hle1 Hr. destruct r0 as [[]|e| |]; try done.
  - apply finish_ok; eauto with facts.
  - unfold retry_inbox. destruct (add_u32 (i_attempts item) 1); try done. simpl.
    destruct (add_u64 r (retry_interval_seconds cfg)); try done. op; [|by destruct r0].
    split_and!; [done..| |]; simpl.
    + eexists. eauto 10 with facts.
    + rewrite Hstat. eauto with facts.
Qed.

Lemma outbox_scan_ok s own G : wp s own (process_route_outbox cfg) G (fun _ _ _ => True).
Proof.
  op; [done|]. destruct r as [l| | |]; try done. apply wp_each. intros own' G' Hle'. apply Forall_forall.
  intros [k item] Hin. destruct (Hpost l eq_refl k item Hin) as [Hi Hh]. pose proof Hi as (_ & -> & _).
  apply dispatch_ok; eauto with facts.
Qed.

Lemma inbox_scan_ok s own G : wp s own (process_route_inbox cfg) G (fun _ _ _ => True).
Proof.
  op; [done|]. destruct r as [l| | |]; try done. apply wp_each. intros own' G' Hle'. apply Forall_forall.
  intros [k item] Hin. pose proof (Hpost l eq_refl k item Hin) as Hi. pose proof Hi as (_ & -> & _).
  apply process_ok; eauto with facts.
Qed.

Lemma cleanup_ok s own G : wp s own (cleanup_completed_inbox_items cfg) G (fun _ _ _ => True).
Proof.
  op; [done|]. op; [done|]. destruct r0 as [l| | |]; try done. apply wp_each. intros own' G' Hle'. apply Forall_forall.
  intros [k item] Hin. destruct (Hpost0 l eq_refl k item Hin) as (_ & -> & _ & _ & Hst).
  destruct (retention_over cfg r item) eqn:Hret; [|done]. op; [|done].
  unfold retention_over in Hret. apply andb_true_iff in Hret as [Hc%bool_decide_eq_true _].
  rewrite Hc in Hst. eauto with facts.
Qed.

Lemma wp_ignore {A} s own (p : prog Doc A) G :
  wp s own p G (fun _ _ _ => True) -> wp s own (_ ← p; Ret tt) G (fun _ _ _ => True).
Proof. intros Hp. apply prog_wp_bind. by eapply prog_wp_mono; [|exact Hp]. Qed.

Lemma job_program_ok s own j G : job_ok s G j -> wp s own (job_program cfg j) G (fun _ _ _ => True).
Proof.
  destruct j as [item|item|t n c q p].
  - intros [? ?]. by apply wp_ignore, dispatch_ok.
  - intros ?. by apply wp_ignore, process_ok.
  - intros _. op; [done|]. destruct r as [addr|]; [|done]. destruct (serialize_stored_packet p); try done.
    op; [by left|done].
Qed.

(** *** Routing: the task may make routes of its own *)

Lemma attempt_ok {E A B} s own (p : prog Doc (outcome E A)) (f : A -> prog Doc (outcome E B)) G (P : Own -> Prop) :
  wp s own p G (fun _ own _ => P own) ->
  (forall a own G', P own -> G ⊑f G' -> wp s own (f a) G' (fun _ own _ => P own)) ->
  wp s own (attempt p f) G (fun _ own _ => P own).
Proof.
  intros Hp Hf. apply prog_wp_bind. eapply prog_wp_mono; [|exact Hp]. intros r own' G' Hle Hown. destruct r; try done. by apply Hf.
Qed.

Lemma local_session_ok s own t c p G (P : Own -> Prop) :
  P own -> wp s own (route_to_local_session t c p) G (fun _ own _ => P own).
Proof. intros Hown. op; [done|]. destruct r; [|done]. by op. Qed.

Lemma deliver_ok s own t p item G :
  own <> Barred -> wp s own (deliver_to_subscriber cfg (site_node s) t p item) G (fun _ own _ => own <> Barred).
Proof.
  intros Hown. apply (attempt_ok _ _ _ _ _ (fun own => own <> Barred)).
  { op; [done|]. destruct r; [done|]. by op. }
  intros [entry|] own' G' Hown' Hle; [|done]. cbv beta iota zeta.
  case_match; [|by apply (local_session_ok _ _ _ _ _ _ (fun own => own <> Barred))].
  case_match; [|by op]. apply (attempt_ok _ _ _ _ _ (fun own => own <> Barred)); [by apply enqueue_ok|done].
Qed.

Lemma try_members_ok s own deliver sorted start offsets G (P : Own -> Prop) :
  P own ->
  (forall item own G', P own -> G ⊑f G' -> wp s own (deliver item) G' (fun _ own _ => P own)) ->
  wp s own (try_members deliver sorted start offsets) G (fun _ own _ => P own).
Proof.
  revert own G. induction offsets as [|i offsets IH]; intros own G Hown Hd; [done|].
  cbn [try_members]. case_match; [|done]. apply attempt_ok; [by apply Hd|].
  intros [] own' G' Hown' Hle; [done|]. apply IH; [done|]. intros. apply Hd; [done|]. by etrans.
Qed.

Lemma route_group_ok s own t p source key candidates G :
  own <> Barred ->
  wp s own (route_group cfg (site_node s) t p source key candidates) G (fun _ own _ => own <> Barred).
Proof.
  intros Hown. unfold route_group. case_match; [done|]. apply (wp_call _ _ (NextCursor _ _)); [done|]. intros _ start G' Hle _. simpl own_after.
  apply (attempt_ok _ _ _ _ _ (fun own => own <> Barred)).
  - apply (try_members_ok _ _ _ _ _ _ _ (fun own => own <> Barred)); [done|]. intros. by apply deliver_ok.
  - intros [] own' G'' Hown' _; [done|]. by op.
Qed.

Lemma route_ok s own t p source G :
  own <> Barred -> wp s own (route cfg (site_node s) t p source) G (fun _ own _ => own <> Barred).
Proof.
  intros Hown. apply (wp_call s own Now); [done|]. intros _ now G1 _ _. simpl own_after.
  destruct (is_packet_expired p now) eqn:Hexp.
  { op; [split; [done|by left]|done]. }
  destruct p; try done.
  apply (attempt_ok _ _ _ _ _ (fun own => own <> Barred)); [by op|]. intros local own1 G2 Hown1 _.
  apply (attempt_ok _ _ _ _ _ (fun own => own <> Barred)).
  { destruct (map subscription_info local); [by op|done]. }
  intros [|x l] own2 G3 Hown2 _; [by op|].
  apply (attempt_ok _ _ _ _ _ (fun own => own <> Barred)).
  - apply (wp_try_each _ _ _ _ _ (fun own => own <> Barred)); [done|]. intros a own3 G4 Hown3 _.
    case_match; [done|]. apply (attempt_ok _ _ _ _ _ (fun own => own <> Barred)); [by apply deliver_ok|done].
  - intros _ own3 G4 Hown3 _. apply (wp_try_each _ _ _ _ _ (fun own => own <> Barred)); [done|].
    intros [key candidates] own4 G5 Hown4 _. by apply route_group_ok.
Qed.

Lemma publish_local_ok s own t p G (P : Own -> Prop) :
  P own -> wp s own (publish_to_local_subscribers t p) G (fun _ own _ => P own).
Proof.
  intros Hown. apply (wp_call s own Now); [done|]. intros _ now G1 _ _. simpl own_after.
  destruct (is_packet_expired p now); [done|]. destruct p; try done.
  apply (attempt_ok _ _ _ _ _ P); [by op|]. intros answer own1 G2 Hown1 _. apply (attempt_ok _ _ _ _ _ P); [done|].
  intros subs own2 G3 Hown2 _. apply (attempt_ok _ _ _ _ _ P).
  - apply (wp_try_each _ _ _ _ _ P); [done|]. intros a own3 G4 Hown3 _.
    apply (attempt_ok _ _ _ _ _ P); [by apply local_session_ok|done].
  - intros _ own3 G4 Hown3 _. apply (wp_try_each _ _ _ _ _ P); [done|]. intros [key candidates] own4 G5 Hown4 _.
    apply (wp_call _ _ (NextCursor _ _)); [done|]. intros _ start G6 _ _. simpl own_after.
    apply (attempt_ok _ _ _ _ _ P); [|done].
    apply try_members_ok; [done|]. intros. by apply local_session_ok.
Qed.

Lemma publish_all_ok s own p G : wp s own (handle_route_packet_to_all_tenants p) G (fun _ _ _ => True).
Proof.
  apply (attempt_ok _ _ _ _ _ (fun _ => True)); [by op|]. intros tenants own1 G1 _ _.
  apply (wp_try_each _ _ _ _ _ (fun _ => True)); [done|]. intros. by apply publish_local_ok.
Qed.

(** The reply [Ok] of another node means that it has taken the route over. *)
Lemma route_packet_ok s own q G :
  request_ok G q ->
  wp s own (route_packet cfg q) G
    (fun r _ G => r = Ok tt -> rq_route_id q <> ""%string -> covered G (rq_route_id q)).
Proof.
  intros Hq. unfold route_packet, attempt. simpl.
  destruct (deserialize_stored_packet (rq_payload q)) as [p| | |] eqn:Hp; try done. simpl.
  apply prog_wp_bind. unfold handle_route_from_other_node. simpl. case_decide as Htarget.
  - eapply prog_wp_mono; [|apply (publish_local_ok _ _ _ _ _ (fun _ => True)); done]. simpl.
    intros r own' G' Hle _ _ Hne. destruct Hq as [?|(ρ & Hρ & _ & Hc & _)]; [done|]. right. exists ρ.
    split; [eauto with facts|congruence].
  - eapply prog_wp_mono; [|apply accept_ok]; simpl.
    + intros r own' G' Hle Hr Hok Hne. left. apply Hr; [|done]. destruct r as [[]| | |]; by simplify_eq.
    + destruct Hq as [?|(ρ & Hρ & -> & -> & Hto)]; [by left|]. right. rewrite Hρ.
      rewrite (stored_read _ _ Hto) in Hp. injection Hp as <-. by destruct ρ.
Qed.
End Safety.
