(* ===== verification/RouterDurable.v ===== *)
(** * No message is lost between nodes: the system

    [Agree] ties the facts of [RouterSafety] to the stores of the nodes.  An operation
    a task is allowed to perform keeps it and gives the task the knowledge that [post]
    promises; so does every move of the system. *)

From S2P Require Import Prelude Program Packet MessageExpiry TopicStorage RaftLog SessionMap V3Codec V3Convert Router RouterSystem RouterSafety.

#[local] Open Scope Z_scope.
#[local] Open Scope prog_scope.
#[local] Hint Resolve routes_le held_le refused_le received_le taken_le settled_le covered_le out_item_le in_item_le carries_le : facts.

Section Durable.
Context {Doc : Type} `{SerdeSpec Doc Packet, Serde Doc MqttPacketV3}.
Context (cfg : RouteRetryConfig).
Implicit Types (w : World Doc) (s d : Site) (G : Facts) (own : Own) (o : op Doc).

(** An event that settles a route. *)
Definition settles G (rid : string) (e : Event) : Prop :=
  match e with
  | Delivered _ rid' t c p => rid' = rid /\ routes G !! rid = Some (mkRoute t c p)
  | Gone _ r => drop_id r = rid /\ exhausted cfg r
  | Sent _ _ _ _ => False
  end.

Record Agree G w : Prop := {
  ag_used rid : is_Some (routes G !! rid) -> rid ∈ used w;
  ag_payload n key b rid : payloads w !! (n, key) = Some b -> key = outkey rid \/ key = inkey rid -> carries G rid b;
  ag_outbox s k item : outbox w !! (s, k) = Some item -> out_item s G k item /\ k ∈ held G;
  ag_inbox s k item : inbox w !! (s, k) = Some item -> in_item (site_node s) G k item /\ k ∈ taken G;
  ag_held k : k ∈ held G -> covered G k \/
    exists s item, outbox w !! (s, k) = Some item /\ is_Some (payloads w !! (site_node s, outkey k));
  ag_received n k : (n, k) ∈ received G -> k ∈ settled G \/ is_Some (payloads w !! (n, inkey k));
  ag_taken k : k ∈ taken G -> k ∈ settled G \/
    exists s item, inbox w !! (s, k) = Some item /\ i_status item = Pending /\
      is_Some (payloads w !! (site_node s, inkey k));
  ag_settled k : k ∈ settled G -> k ∈ taken G /\ exists e, e ∈ trace w /\ settles G k e;
  ag_refused k : k ∈ refused G -> k ∉ held G;
  ag_known k : k ∈ held G \/ k ∈ refused G -> is_Some (routes G !! k);
}.

(** What a task owns has not been written to an outbox. *)
Definition owns w G s own : Prop :=
  match own with
  | Mine rid stored =>
      is_Some (routes G !! rid) /\ rid ∉ held G /\ rid ∉ refused G /\
      (stored = true -> covered G rid \/ is_Some (payloads w !! (site_node s, outkey rid)))
  | _ => True
  end.

(** The effect of an operation on the facts, for the task and for the others. *)
Record Kept ρ s own o (r : res o) G w G' w' : Prop := {
  kept_le : G ⊑f G';
  kept_post : post ρ s own o r G';
  kept_agree : Agree G' w';
  kept_own : owns w' G' s (own_after own o r);
  kept_others s' rid b : owned own <> Some rid -> owns w G s' (Mine rid b) -> owns w' G' s' (Mine rid b);
  kept_fresh rid : owned (own_after own o r) = Some rid -> owned own = Some rid \/ routes G !! rid = None;
}.

Lemma settles_le G G' rid e : G ⊑f G' -> settles G rid e -> settles G' rid e.
Proof. intros Hle. destruct e; simpl; [|done|done]. intros [? ?]. eauto with facts. Qed.

(** Nothing changes but what is observed and the cursors. *)
Definition same_stores w w' : Prop :=
  payloads w' = payloads w /\ outbox w' = outbox w /\ inbox w' = inbox w /\ used w' = used w /\
  forall e, e ∈ trace w -> e ∈ trace w'.

Lemma agree_same G w w' : same_stores w w' -> Agree G w -> Agree G w'.
Proof.
  intros (Hp & Ho & Hi & Hu & Ht) [H1' H2 H3 H4 H5 H6 H7 H8 H9 H10].
  split; rewrite ?Hp, ?Ho, ?Hi, ?Hu; try done. intros k Hk. destruct (H8 k Hk) as (? & e & ? & ?). eauto.
Qed.

Lemma owns_same G w w' s own : payloads w' = payloads w -> owns w G s own -> owns w' G s own.
Proof. intros Hp. destruct own; simpl; [done| |done]. by rewrite Hp. Qed.

Lemma kept_same ρ s own o r G w w' :
  Agree G w -> owns w G s own -> same_stores w w' -> post ρ s own o r G -> own_after own o r = own ->
  Kept ρ s own o r G w G w'.
Proof.
  intros Hag Hown Hs Hpost Hafter. pose proof Hs as (Hp & _). split.
  - done.
  - done.
  - by eapply agree_same.
  - rewrite Hafter. by eapply owns_same.
  - intros s' rid b _ ?. by eapply owns_same.
  - rewrite Hafter. auto.
Qed.

Lemma same_refl w : same_stores w w.
Proof. by split_and!. Qed.

(** *** Settling a route *)

Definition settle (rid : string) G : Facts :=
  mkFacts (routes G) (held G) (refused G) (received G) ({[rid]} ∪ taken G) ({[rid]} ∪ settled G).

Lemma settle_le rid G : G ⊑f settle rid G.
Proof. split_and!; simpl; set_solver. Qed.

Lemma owns_settle rid w w' G s own : payloads w' = payloads w -> owns w G s own -> owns w' (settle rid G) s own.
Proof.
  intros Hp. destruct own; simpl; [done| |done]. rewrite Hp. intros (? & ? & ? & Hst). split_and!; [done..|].
  intros Hs. destruct (Hst Hs) as [?|?]; [left|by right]. eapply covered_le; [apply settle_le|done].
Qed.

Lemma agree_settle rid e G w :
  settles G rid e -> Agree G w -> Agree (settle rid G) (observe e w).
Proof.
  intros He Hag. pose proof (settle_le rid G) as Hle. split.
  - apply (ag_used _ _ Hag).
  - intros n key b rid' Hb Hk. eapply carries_le; [done|]. by eapply ag_payload.
  - intros s k item Hi. destruct (ag_outbox _ _ Hag _ _ _ Hi). eauto with facts.
  - intros s k item Hi. destruct (ag_inbox _ _ Hag _ _ _ Hi). eauto with facts.
  - intros k Hk. destruct (ag_held _ _ Hag k Hk); eauto with facts.
  - intros n k Hk. destruct (ag_received _ _ Hag n k Hk); eauto with facts.
  - simpl. intros k [->%elem_of_singleton|Hk]%elem_of_union; [left; set_solver|].
    destruct (ag_taken _ _ Hag k Hk); [left; set_solver|by right].
  - simpl. intros k [->%elem_of_singleton|Hk]%elem_of_union.
    + split; [set_solver|]. exists e. split; [set_solver|done].
    + destruct (ag_settled _ _ Hag k Hk) as (? & e' & ? & ?). split; [set_solver|]. exists e'. split; [set_solver|done].
  - apply (ag_refused _ _ Hag).
  - apply (ag_known _ _ Hag).
Qed.

Lemma kept_settle ρ s own o r G w rid e :
  Agree G w -> owns w G s own -> settles G rid e -> post ρ s own o r (settle rid G) -> own_after own o r = own ->
  Kept ρ s own o r G w (settle rid G) (observe e w).
Proof.
  intros Hag Hown He Hpost Hafter. split.
  - apply settle_le.
  - done.
  - by apply agree_settle.
  - rewrite Hafter. by eapply owns_settle.
  - intros s' rid' b _ ?. by eapply owns_settle.
  - rewrite Hafter. auto.
Qed.

Lemma observe_same e w : same_stores w (observe e w).
Proof. split_and!; [done..|]. simpl. set_solver. Qed.

(** *** A new identifier *)

Definition new_route (rid : string) (ρ : Route) G : Facts :=
  mkFacts (<[rid := ρ]> (routes G)) (held G) (refused G) (received G) (taken G) (settled G).

Lemma new_route_le rid ρ G : routes G !! rid = None -> G ⊑f new_route rid ρ G.
Proof. intros Hr. split_and!; simpl; [by apply insert_subseteq|done..]. Qed.

(** The facts about routes, held and refused ones, and payloads that stay. *)
Lemma owns_le w w' G G' s own :
  G ⊑f G' -> held G' = held G -> refused G' = refused G ->
  (forall rid, own = Mine rid true -> is_Some (payloads w !! (site_node s, outkey rid)) ->
     covered G' rid \/ is_Some (payloads w' !! (site_node s, outkey rid))) ->
  owns w G s own -> owns w' G' s own.
Proof.
  intros Hle Hh Hr Hp. destruct own as [|rid b|]; simpl; [done| |done].
  intros ([ρ ?] & ? & ? & Hst). rewrite Hh, Hr. split_and!; [eauto with facts|done..|].
  intros ->. destruct (Hst eq_refl); eauto with facts.
Qed.

Lemma kept_new ρ s own G w rid :
  Agree G w -> own <> Barred -> rid ∉ used w -> rid <> ""%string ->
  Kept ρ s own NewUuid rid G w (new_route rid ρ G) (use_id rid w).
Proof.
  intros Hag Hown Hused Hne.
  assert (routes G !! rid = None) as Hnone.
  { destruct (routes G !! rid) eqn:E; [|done]. destruct Hused. apply (ag_used _ _ Hag). by eexists. }
  pose proof (new_route_le rid ρ G Hnone) as Hle. split.
  - done.
  - simpl. by rewrite lookup_insert_eq.
  - split; simpl.
    + intros rid' Hr. destruct (decide (rid' = rid)) as [->|Hd]; [set_solver|].
      rewrite lookup_insert_ne in Hr by done. apply elem_of_union_r. by eapply ag_used.
    + intros n key b rid' Hb Hk. eapply carries_le; [done|]. by eapply ag_payload.
    + intros s' k item Hi. destruct (ag_outbox _ _ Hag _ _ _ Hi). eauto with facts.
    + intros s' k item Hi. destruct (ag_inbox _ _ Hag _ _ _ Hi). eauto with facts.
    + intros k Hk. destruct (ag_held _ _ Hag k Hk); eauto with facts.
    + apply (ag_received _ _ Hag).
    + apply (ag_taken _ _ Hag).
    + intros k Hk. destruct (ag_settled _ _ Hag k Hk) as (? & e & ? & ?). eauto using settles_le.
    + apply (ag_refused _ _ Hag).
    + intros k Hk. destruct (ag_known _ _ Hag k Hk) as [ρ' Hρ']. exists ρ'. exact (routes_le _ _ _ _ Hle Hρ').
  - assert (forall k, k ∈ held G \/ k ∈ refused G -> k <> rid) as Hk.
    { intros k Hk ->. destruct (ag_known _ _ Hag rid Hk). congruence. }
    destruct own; [..|done]; simpl; rewrite lookup_insert_eq; split_and!; try done;
      intros Hin; eapply Hk; eauto.
  - intros s' rid' b _. apply owns_le; auto.
  - simpl. intros rid'. destruct own; [..|done]; simpl; intros [= <-]; auto.
Qed.

(** *** Payloads *)

Definition receive (n : NodeId) (rid : string) G : Facts :=
  mkFacts (routes G) (held G) (refused G) ({[(n, rid)]} ∪ received G) (taken G) (settled G).

Lemma receive_le n rid G : G ⊑f receive n rid G.
Proof. split_and!; simpl; set_solver. Qed.

Lemma agree_payload_put G w n key b rid :
  key = outkey rid \/ key = inkey rid -> carries G rid b -> Agree G w ->
  Agree G (set_payloads (<[(n, key) := b]> (payloads w)) w).
Proof.
  intros Hkey Hb Hag.
  assert (forall x, is_Some (payloads w !! x) -> is_Some (<[(n, key) := b]> (payloads w) !! x)) as Hmono.
  { intros x Hx. destruct (decide (x = (n, key))) as [->|Hd]; [rewrite lookup_insert_eq; by eexists|].
    by rewrite lookup_insert_ne. }
  split; simpl; try by apply Hag.
  - intros n' key' b' rid' Hb' Hk'. destruct (decide ((n', key') = (n, key))) as [[= -> ->]|Hd].
    + rewrite lookup_insert_eq in Hb'. injection Hb' as <-.
      assert (rid' = rid) as ->; [|done].
      destruct Hkey as [-> | ->], Hk' as [Hk'|Hk']; try done;
        [by apply outkey_inj in Hk'|by apply inkey_inj in Hk'].
    + rewrite lookup_insert_ne in Hb' by done. by eapply ag_payload.
  - intros k Hk. destruct (ag_held _ _ Hag k Hk) as [?|(s & item & ? & ?)]; eauto 10.
  - intros n' k Hk. destruct (ag_received _ _ Hag n' k Hk); eauto.
  - intros k Hk. destruct (ag_taken _ _ Hag k Hk) as [?|(s & item & ? & ? & ?)]; eauto 10.
Qed.

Lemma agree_receive G w n rid :
  is_Some (payloads w !! (n, inkey rid)) -> Agree G w -> Agree (receive n rid G) w.
Proof.
  intros Hp Hag. pose proof (receive_le n rid G) as Hle. split.
  - apply (ag_used _ _ Hag).
  - intros n' key b rid' Hb Hk. eapply carries_le; [done|]. by eapply ag_payload.
  - intros s k item Hi. destruct (ag_outbox _ _ Hag _ _ _ Hi). eauto with facts.
  - intros s k item Hi. destruct (ag_inbox _ _ Hag _ _ _ Hi). eauto with facts.
  - intros k Hk. destruct (ag_held _ _ Hag k Hk); eauto with facts.
  - simpl. intros n' k [[= -> ->]%elem_of_singleton|Hk]%elem_of_union; [by right|]. by apply (ag_received _ _ Hag).
  - apply (ag_taken _ _ Hag).
  - apply (ag_settled _ _ Hag).
  - apply (ag_refused _ _ Hag).
  - apply (ag_known _ _ Hag).
Qed.

Lemma payload_put_mono w (x : NodeId * string) b y :
  is_Some (payloads w !! y) -> is_Some (<[x := b]> (payloads w) !! y).
Proof.
  intros ?. destruct (decide (y = x)) as [->|?]; [rewrite lookup_insert_eq; by eexists|by rewrite lookup_insert_ne].
Qed.

Lemma kept_payload_put ρ s own G w key b :
  Agree G w -> owns w G s own -> pre cfg s own (PayloadPut key b) G ->
  exists G', Kept ρ s own (PayloadPut key b) (Ok tt) G w G' (set_payloads (<[(site_node s, key) := b]> (payloads w)) w).
Proof.
  intros Hag Hown [(rid & st & -> & -> & Hc)|(rid & -> & Hc)].
  - exists G. split.
    + done.
    + simpl. intros _ rid' Hk. by apply outkey_inkey in Hk.
    + by eapply agree_payload_put; [left|..].
    + simpl. rewrite is_outkey_self. destruct Hown as (? & ? & ? & ?). split_and!; [done..|].
      intros _. right. simpl. rewrite lookup_insert_eq. by eexists.
    + intros s' rid' b' Hd. apply owns_le; [done..|]. intros rid'' _ ?. right. by apply payload_put_mono.
    + simpl. rewrite is_outkey_self. auto.
  - assert (own_after own (PayloadPut (inkey rid) b) (Ok tt) = own) as Hafter.
    { destruct own; [reflexivity| |reflexivity]. simpl. by rewrite is_outkey_inkey. }
   
    exists (receive (site_node s) rid G). split.
    + apply receive_le.
    + simpl. intros _ rid' ->%inkey_inj. set_solver.
    + apply agree_receive; [simpl; rewrite lookup_insert_eq; by eexists|]. by eapply agree_payload_put; [right|..].
    + rewrite Hafter.
      revert Hown. apply owns_le; [apply receive_le|done..|]. intros rid' _ ?. right. by apply payload_put_mono.
    + intros s' rid' b' Hd. apply owns_le; [apply receive_le|done..|]. intros rid'' _ ?. right. by apply payload_put_mono.
    + rewrite Hafter. auto.
Qed.

Lemma kept_payload_delete ρ s own G w key :
  Agree G w -> owns w G s own -> pre cfg s own (PayloadDelete key) G ->
  Kept ρ s own (PayloadDelete key) (Ok tt) G w G (set_payloads (delete (site_node s, key) (payloads w)) w).
Proof.
  intros Hag Hown Hpre.
  assert (forall n k, is_Some (payloads w !! (n, outkey k)) -> covered G k \/ k ∈ refused G \/
    is_Some (delete (site_node s, key) (payloads w) !! (n, outkey k))) as Hout.
  { intros n k Hk. destruct (decide (key = outkey k)) as [->|Hd].
    - destruct Hpre as [(rid & <-%outkey_inj & [?|?])|(rid & Hx & _)]; [by left|by right; left|by apply outkey_inkey in Hx].
    - right. right. rewrite lookup_delete_ne; [done|congruence]. }
  assert (forall n k, is_Some (payloads w !! (n, inkey k)) -> k ∈ settled G \/
    is_Some (delete (site_node s, key) (payloads w) !! (n, inkey k))) as Hin.
  { intros n k Hk. destruct (decide (key = inkey k)) as [->|Hd].
    - destruct Hpre as [(rid & Hx & _)|(rid & <-%inkey_inj & ?)]; [by symmetry in Hx; apply outkey_inkey in Hx|by left].
    - right. rewrite lookup_delete_ne; [done|congruence]. }
  assert (forall s' own', owns w G s' own' ->
    owns (set_payloads (delete (site_node s, key) (payloads w)) w) G s' own') as Howns.
  { intros s' own'. destruct own' as [|rid b|]; simpl; [done| |done]. intros (? & ? & ? & Hst). split_and!; [done..|].
    intros Hb. destruct (Hst Hb) as [?|Hp]; [by left|]. destruct (Hout _ _ Hp) as [?|[?|?]]; [by left|done|by right]. }
  split; [done..| |by apply Howns|auto|auto].
  split; simpl; try by apply Hag.
  - intros n key' b rid [_ Hb]%lookup_delete_Some. by eapply (ag_payload _ _ Hag).
  - intros k Hk. destruct (ag_held _ _ Hag k Hk) as [?|(s' & item & ? & Hp)]; [by left|].
    destruct (Hout _ _ Hp) as [?|[Hr|?]]; [by left|by destruct (ag_refused _ _ Hag k Hr)|eauto 10].
  - intros n k Hk. destruct (ag_received _ _ Hag n k Hk) as [?|Hp]; [by left|]. by apply Hin.
  - intros k Hk. destruct (ag_taken _ _ Hag k Hk) as [?|(s' & item & ? & ? & Hp)]; [by left|].
    destruct (Hin _ _ Hp); [by left|eauto 10].
Qed.

(** *** The outbox *)

Definition hold (rid : string) G : Facts :=
  mkFacts (routes G) ({[rid]} ∪ held G) (refused G) (received G) (taken G) (settled G).
Definition refuse (rid : string) G : Facts :=
  mkFacts (routes G) (held G) ({[rid]} ∪ refused G) (received G) (taken G) (settled G).

Lemma hold_le rid G : G ⊑f hold rid G.
Proof. split_and!; simpl; set_solver. Qed.
Lemma refuse_le rid G : G ⊑f refuse rid G.
Proof. split_and!; simpl; set_solver. Qed.

(** The route was owned, or is held already. *)
Lemma put_known s own k G w item :
  Agree G w -> owns w G s own -> pre cfg s own (OutboxPut k item) G ->
  k ∉ refused G /\ is_Some (routes G !! k) /\ (own = Mine k true -> k ∉ held G) /\
  (covered G k \/ is_Some (payloads w !! (site_node s, outkey k)) \/
   exists s item, outbox w !! (s, k) = Some item /\ is_Some (payloads w !! (site_node s, outkey k))).
Proof.
  intros Hag Hown [(_ & _ & _ & _ & ρ & Hρ & _) [->|Hk]].
  - destruct Hown as (? & ? & ? & Hp). split_and!; [done..|]. destruct (Hp eq_refl); auto.
  - split_and!.
    + intros Hr. by destruct (ag_refused _ _ Hag k Hr).
    + by exists ρ.
    + intros ->. by destruct Hown as (_ & ? & _).
    + destruct (ag_held _ _ Hag k Hk); auto.
Qed.

Lemma agree_hold s k item G w :
  Agree G w -> out_item s G k item -> k ∉ refused G ->
  (covered G k \/ is_Some (payloads w !! (site_node s, outkey k)) \/
   exists s item, outbox w !! (s, k) = Some item /\ is_Some (payloads w !! (site_node s, outkey k))) ->
  Agree (hold k G) (set_outbox (<[(s, k) := item]> (outbox w)) w).
Proof.
  intros Hag Hi Hr Hp. pose proof (hold_le k G) as Hle.
  assert (forall s' k' item', outbox w !! (s', k') = Some item' -> exists item'', <[(s, k) := item]> (outbox w) !! (s', k') = Some item'') as Hmono.
  { intros s' k' item' Ho. destruct (decide ((s', k') = (s, k))) as [[= -> ->]|Hd].
    - rewrite lookup_insert_eq. eauto.
    - rewrite lookup_insert_ne by done. eauto. }
  split; simpl.
  - apply (ag_used _ _ Hag).
  - intros n key b rid Hb Hk. eapply carries_le; [done|]. by eapply ag_payload.
  - intros s' k' item'. destruct (decide ((s', k') = (s, k))) as [[= -> ->]|Hd].
    + rewrite lookup_insert_eq. intros [= <-]. split; [by eapply out_item_le|set_solver].
    + rewrite lookup_insert_ne by done. intros Ho. destruct (ag_outbox _ _ Hag _ _ _ Ho). split; [by eapply out_item_le|set_solver].
  - intros s' k' item' Ho. destruct (ag_inbox _ _ Hag _ _ _ Ho). eauto with facts.
  - intros k' Hk'.
    assert (covered G k' \/ is_Some (payloads w !! (site_node s, outkey k')) /\ k' = k \/
      exists s item, outbox w !! (s, k') = Some item /\ is_Some (payloads w !! (site_node s, outkey k'))) as Hcase.
    { apply elem_of_union in Hk' as [->%elem_of_singleton|Hk']; [naive_solver|]. destruct (ag_held _ _ Hag k' Hk'); auto. }
    destruct Hcase as [?|[[? ->]|(s' & item' & Ho & ?)]]; [left; by eapply covered_le|..]; right.
    + exists s, item. by rewrite lookup_insert_eq.
    + destruct (Hmono _ _ _ Ho). eauto.
  - apply (ag_received _ _ Hag).
  - apply (ag_taken _ _ Hag).
  - intros k' Hk'. destruct (ag_settled _ _ Hag k' Hk') as (? & e & ? & ?). eauto using settles_le.
  - intros k' Hk'. pose proof (ag_refused _ _ Hag k' Hk'). set_solver.
  - intros k' Hk'. destruct (decide (k' = k)) as [->|?].
    + destruct Hi as (_ & _ & _ & _ & ρ & ? & _). by exists ρ.
    + apply (ag_known _ _ Hag). set_solver.
Qed.

Lemma kept_outbox_put ρ s own G w k item :
  Agree G w -> owns w G s own -> pre cfg s own (OutboxPut k item) G ->
  Kept ρ s own (OutboxPut k item) (Ok tt) G w (hold k G) (set_outbox (<[(s, k) := item]> (outbox w)) w).
Proof.
  intros Hag Hown Hpre. destruct (put_known _ _ _ _ _ _ Hag Hown Hpre) as (Hr & Hρ & Hmine & Hp).
  destruct Hpre as [Hi Hk].
  assert (forall s' rid b, rid <> k -> owns w G s' (Mine rid b) ->
    owns (set_outbox (<[(s, k) := item]> (outbox w)) w) (hold k G) s' (Mine rid b)) as Howns.
  { intros s' rid b Hne (? & ? & ? & Hst). split_and!; [done|simpl; set_solver|done|].
    intros Hb. destruct (Hst Hb); [left; eapply covered_le; [apply hold_le|done]|by right]. }
  split.
  - apply hold_le.
  - simpl. set_solver.
  - by apply agree_hold.
  - simpl. destruct own as [|rid b|]; [done| |done]. case_decide; [done|]. by apply Howns.
  - intros s' rid b Hne Ho. apply Howns; [|done]. intros ->. destruct Hk as [->|Hk]; [done|].
    by destruct Ho as (_ & ? & _).
  - simpl. intros rid. destruct own as [|rid' b|]; [done| |done]. case_decide; auto. done.
Qed.

Lemma kept_outbox_refused ρ s own G w k item e :
  Agree G w -> owns w G s own -> pre cfg s own (OutboxPut k item) G ->
  exists G', Kept ρ s own (OutboxPut k item) (Err e) G w G' w.
Proof.
  intros Hag Hown Hpre. destruct (put_known _ _ _ _ _ _ Hag Hown Hpre) as (Hr & Hρ & Hmine & Hp).
  assert (own = Mine k true \/ own <> Mine k true /\ k ∈ held G) as [->|[Hne Hh]].
  { destruct Hpre as [_ [?|?]]; [by left|]. right. split; [|done]. intros ->. by apply Hmine. }
  - exists (refuse k G). pose proof (refuse_le k G) as Hle. split.
    + done.
    + simpl. set_solver.
    + split; simpl; try by apply Hag.
      * intros k' [->%elem_of_singleton|Hk']%elem_of_union; [by apply Hmine|by apply (ag_refused _ _ Hag)].
      * intros k' Hk'. destruct (decide (k' = k)) as [->|?]; [done|]. apply (ag_known _ _ Hag). set_solver.
    + simpl. by rewrite decide_True.
    + intros s' rid b Hd (? & ? & ? & Hst). simpl in Hd. split_and!; [done|done|simpl; set_solver|].
      intros Hb. destruct (Hst Hb); [left; by eapply covered_le|by right].
    + simpl. rewrite decide_True by done. done.
  - exists G. split; [done| |done| |done|].
    + simpl. done.
    + simpl. destruct own as [|rid b|]; [done| |done]. case_decide; done.
    + simpl. intros rid. destruct own as [|rid' b|]; [done| |done]. case_decide; auto. done.
Qed.

Lemma kept_outbox_delete ρ s own G w k :
  Agree G w -> owns w G s own -> covered G k ->
  Kept ρ s own (OutboxDelete k) (Ok tt) G w G (set_outbox (delete (s, k) (outbox w)) w).
Proof.
  intros Hag Hown Hk. split; [done..| |by apply (owns_same G w)|intros; by apply (owns_same G w)|auto].
  split; simpl; try by apply Hag.
  - intros s' k' item [_ Ho]%lookup_delete_Some. by eapply ag_outbox.
  - intros k' Hk'. destruct (decide (k' = k)) as [->|Hne]; [by left|].
    destruct (ag_held _ _ Hag k' Hk') as [?|(s' & item & ? & ?)]; [by left|]. right. exists s', item.
    rewrite lookup_delete_ne; [done|congruence].
Qed.

(** *** The inbox *)

Definition take_over (rid : string) G : Facts :=
  mkFacts (routes G) (held G) (refused G) (received G) ({[rid]} ∪ taken G) (settled G).
Lemma take_over_le rid G : G ⊑f take_over rid G.
Proof. split_and!; simpl; set_solver. Qed.

Lemma kept_inbox_put ρ s own G w k item :
  Agree G w -> owns w G s own -> in_item (site_node s) G k item ->
  Kept ρ s own (InboxPut k item) (Ok tt) G w (take_over k G) (set_inbox (<[(s, k) := item]> (inbox w)) w).
Proof.
  intros Hag Hown Hi. pose proof (take_over_le k G) as Hle.
  assert (k ∈ settled G \/ i_status item = Pending /\ is_Some (payloads w !! (site_node s, inkey k))) as Hk.
  { destruct Hi as (_ & _ & _ & _ & Hst). destruct (i_status item); [|by left].
    destruct (ag_received _ _ Hag _ _ Hst); auto. }
  assert (forall s' own', owns w G s' own' ->
    owns (set_inbox (<[(s, k) := item]> (inbox w)) w) (take_over k G) s' own') as Howns.
  { intros s' own'. apply owns_le; auto. }
  split; [done|simpl; set_solver| |by apply Howns|auto|auto]. split; simpl; try by apply Hag.
  - intros s' k' item'. destruct (decide ((s', k') = (s, k))) as [[= -> ->]|Hd].
    + rewrite lookup_insert_eq. intros [= <-]. split; [by eapply in_item_le|set_solver].
    + rewrite lookup_insert_ne by done. intros Ho. destruct (ag_inbox _ _ Hag _ _ _ Ho). split; [by eapply in_item_le|set_solver].
  - intros k' Hk'. destruct (ag_held _ _ Hag k' Hk'); eauto with facts.
  - intros k' Hk'. destruct (decide (k' = k)) as [->|Hne].
    + destruct Hk as [?|[? ?]]; [by left|]. right. exists s, item. by rewrite lookup_insert_eq.
    + destruct (ag_taken _ _ Hag k') as [?|(s' & item' & ? & ? & ?)]; [set_solver|by left|]. right. exists s', item'.
      rewrite lookup_insert_ne; [done|congruence].
  - intros k' Hk'. destruct (ag_settled _ _ Hag k' Hk') as (? & e & ? & ?). split; [set_solver|eauto].
Qed.

Lemma kept_inbox_delete ρ s own G w k :
  Agree G w -> owns w G s own -> k ∈ settled G ->
  Kept ρ s own (InboxDelete k) (Ok tt) G w G (set_inbox (delete (s, k) (inbox w)) w).
Proof.
  intros Hag Hown Hk. split; [done..| |by apply (owns_same G w)|intros; by apply (owns_same G w)|auto].
  split; simpl; try by apply Hag.
  - intros s' k' item [_ Ho]%lookup_delete_Some. by eapply ag_inbox.
  - intros k' Hk'. destruct (decide (k' = k)) as [->|Hne]; [by left|].
    destruct (ag_taken _ _ Hag k' Hk') as [?|(s' & item & ? & ? & ?)]; [by left|]. right. exists s', item.
    rewrite lookup_delete_ne; [done|congruence].
Qed.

(** *** Every operation *)

Lemma rows_lookup {A} s (m : gmap (Site * string) A) k v : (k, v) ∈ rows s m -> m !! (s, k) = Some v.
Proof.
  unfold rows. rewrite list_elem_of_omap. intros ([[s' k'] v'] & Hin & Heq). case_decide; [|done]. simplify_eq.
  by apply elem_of_map_to_list in Hin.
Qed.

Lemma kept_failed ρ s own o r G w :
  Agree G w -> owns w G s own -> post ρ s own o r G -> own_after own o r = own -> Kept ρ s own o r G w G w.
Proof. intros. apply kept_same; [done..|apply same_refl|done|done]. Qed.

Lemma drop_settled s G r : drop_ok cfg G r -> drop_id r <> ""%string -> settles G (drop_id r) (Gone s r).
Proof. intros [? _] _. done. Qed.

Lemma exec_kept ρ s own a o G w :
  Agree G w -> owns w G s own -> pre cfg s own o G -> admissible a o w = true ->
  exists G', Kept ρ s own o (exec s a o w).1 G w G' (exec s a o w).2.
Proof.
  intros Hag Hown Hpre Hadm. destruct o; simpl in Hadm |- *; unfold writing, failing;
    try (exists G; apply kept_failed; by try (destruct (a_error a))); try match goal with |- context [a_error a] => destruct (a_error a) end.
  - apply bool_decide_eq_true in Hadm as [? ?]. exists (new_route (a_uuid a) ρ G). by apply kept_new.
  - exists G. apply kept_failed; [done..|]. by destruct own.
  - by apply kept_payload_put.
  - exists G. by apply kept_failed.
  - exists G. apply kept_failed; [done..| |done]. simpl. intros b [= Hb] rid Hk. by eapply ag_payload.
  - exists G. by apply kept_failed.
  - exists G. by apply kept_payload_delete.
  - by apply kept_outbox_refused.
  - exists (hold key G). by apply kept_outbox_put.
  - exists G. by apply kept_failed.
  - exists G. by apply kept_outbox_delete.
  - exists G. by apply kept_failed.
  - exists G. apply kept_failed; [done..| |done]. intros l [= <-] k item Hin%rows_lookup. by eapply ag_outbox.
  - exists G. by apply kept_failed.
  - exists (take_over key G). by apply kept_inbox_put.
  - exists G. by apply kept_failed.
  - exists G. apply kept_failed; [done..| |done]. simpl. intros item [= Hi]. by eapply ag_inbox.
  - exists G. by apply kept_failed.
  - exists G. by apply kept_inbox_delete.
  - exists G. by apply kept_failed.
  - exists G. apply kept_failed; [done..| |done]. intros l [= <-] k item Hin%rows_lookup. by eapply ag_inbox.
  - exists G. apply kept_same; [done..|apply observe_same|done|done].
  - exists G. by apply kept_failed.
  - destruct (a_refused a); [exists G; by apply kept_failed|]. simpl in Hpre.
    destruct (decide (route_id = ""%string)) as [->|Hne].
    + exists G. apply kept_same; [done..|apply observe_same| |done]. by intros _ [].
    + destruct Hpre as [?|Hρ]; [done|]. exists (settle route_id G). apply kept_settle; [done..| |done]. simpl. set_solver.
  - destruct (decide (drop_id reason = ""%string)) as [He|Hne].
    + exists G. apply kept_same; [done..|apply observe_same| |done]. simpl. congruence.
    + exists (settle (drop_id reason) G). apply kept_settle; [done..|by apply drop_settled| |done]. simpl. set_solver.
  - exists G. apply kept_same; [done..|by split_and!|done|done].
Qed.

(** ** The tasks *)

Abbreviation top := (fun _ _ _ => True).

Definition task_site (t : Task Doc) : Site := match t with Run s _ | Wait s _ _ _ => s end.

(** A caller waits for the word that the other node has taken the route over. *)
Definition task_ok G own (t : Task Doc) : Prop :=
  match t with
  | Run s p => wp cfg s own p G top
  | Wait s k d h => exists q : RoutePacketRequest Doc,
      wp cfg d Barred h G (fun r _ G => r = Ok tt -> rq_route_id q <> ""%string -> covered G (rq_route_id q)) /\
      forall r G', G ⊑f G' -> (r = Ok tt -> rq_route_id q <> ""%string -> covered G' (rq_route_id q)) ->
        wp cfg s own (k r) G' top
  end.

Lemma task_ok_le G G' own t : G ⊑f G' -> task_ok G own t -> task_ok G' own t.
Proof.
  intros Hle. destruct t as [s p|s k d h]; simpl; [by apply wp_le|]. intros (q & Hh & Hk). exists q. split.
  - revert Hh. apply wp_le; [|done]. intros r _ G1 G2 Hle' HQ Hr Hne. eapply covered_le; [done|]. by apply HQ.
  - intros r G'' Hle'. apply Hk. by etrans.
Qed.

(** The tasks with what each owns; no route is owned twice. *)
Record Safe G (c : World Doc * list (Own * Task Doc)) : Prop := {
  safe_agree : Agree G c.1;
  safe_tasks own t : (own, t) ∈ c.2 -> owns c.1 G (task_site t) own /\ task_ok G own t;
  safe_nodup : NoDup (omap owned c.2.*1);
}.

Lemma owned_elem (ts : list (Own * Task Doc)) own t rid :
  (own, t) ∈ ts -> owned own = Some rid -> rid ∈ omap owned ts.*1.
Proof. intros Hin Ho. apply list_elem_of_omap. exists own. split; [|done]. by apply (list_elem_of_fmap_2 fst) in Hin. Qed.

(** One task goes on, and may start others. *)
Lemma safe_update G G' w w' l1 l2 own own' t t' new :
  Safe G (w, l1 ++ (own, t) :: l2) ->
  G ⊑f G' -> Agree G' w' -> owns w' G' (task_site t') own' -> task_ok G' own' t' ->
  (forall s rid b, owned own <> Some rid -> owns w G s (Mine rid b) -> owns w' G' s (Mine rid b)) ->
  (forall rid, owned own' = Some rid -> owned own = Some rid \/ routes G !! rid = None) ->
  Forall (fun t => task_ok G' Free t) new ->
  Safe G' (w', l1 ++ (own', t') :: l2 ++ ((fun t => (Free, t)) <$> new)).
Proof.
  intros [Hag Hts Hnd] Hle Hag' Hown' Hok' Hothers Hfresh Hnew. simpl in *.
  rewrite fmap_app, omap_app in Hnd. simpl in Hnd.
  assert (forall own0 t0, (own0, t0) ∈ l1 ++ l2 -> owns w' G' (task_site t0) own0 /\ task_ok G' own0 t0 /\
    forall rid, owned own0 = Some rid -> owned own' <> Some rid) as Hrest.
  { intros own0 t0 Hin. destruct (Hts own0 t0) as [Ho Hk]; [set_solver|].
    assert (forall rid, owned own0 = Some rid -> owned own <> Some rid) as Hne.
    { intros rid Hr Hr'. rewrite Hr' in Hnd. rewrite NoDup_app, NoDup_cons in Hnd.
      destruct Hnd as (_ & Hnd1 & Hnd2 & _). apply elem_of_app in Hin as [Hin|Hin].
      - apply (Hnd1 rid); [by eapply owned_elem|set_solver].
      - apply Hnd2. by eapply owned_elem. }
    split_and!.
    - destruct own0 as [|rid b|]; [done| |done]. apply Hothers; [by apply Hne|done].
    - by eapply task_ok_le.
    - intros rid Hr Hr'. destruct (Hfresh rid Hr') as [Hf|Hf]; [by apply (Hne rid)|].
      destruct own0; try done. simpl in Hr. simplify_eq. destruct Ho as [[? ?] _]. congruence. }
  split; simpl; [done|..].
  - intros own0 t0 Hin. rewrite elem_of_app, elem_of_cons, elem_of_app in Hin.
    destruct Hin as [Hin|[[= -> ->]|[Hin|Hin]]]; [|done|..].
    + destruct (Hrest own0 t0) as (? & ? & _); [set_solver|done].
    + destruct (Hrest own0 t0) as (? & ? & _); [set_solver|done].
    + apply list_elem_of_fmap in Hin as (t1 & [= -> ->] & Hin). split; [done|]. by eapply Forall_forall in Hnew.
  - assert (omap owned ((fun t => (Free, t)) <$> new).*1 = []) as Hnil by (clear; by induction new).
    rewrite fmap_app, omap_app, fmap_cons, fmap_app. simpl. rewrite omap_app, Hnil, app_nil_r.
    assert (NoDup (omap owned l1.*1 ++ omap owned l2.*1)) as Hnd0.
    { destruct (owned own); [|done]. rewrite <-Permutation_middle, NoDup_cons in Hnd. by destruct Hnd. }
    destruct (owned own') as [rid|] eqn:Hr; [|done]. rewrite <-Permutation_middle. constructor; [|done].
    rewrite <-omap_app, <-fmap_app. intros (own0 & Hin & Hr0)%list_elem_of_omap.
    apply list_elem_of_fmap in Hin as ([own1 t1] & -> & Hin). by destruct (Hrest _ _ Hin) as (_ & _ & Hx); apply (Hx rid).
Qed.

Lemma safe_add G w ots new :
  Safe G (w, ots) -> Forall (task_ok G Free) new -> Safe G (w, ots ++ (pair Free <$> new)).
Proof.
  intros [Hag Hts Hnd] Hnew. split; simpl in *; [done|..].
  - intros own t [Hin|Hin]%elem_of_app; [by apply Hts|]. apply list_elem_of_fmap in Hin as (t1 & [= -> ->] & Hin).
    split; [done|]. by eapply Forall_forall in Hnew.
  - rewrite fmap_app, omap_app. assert (omap owned (pair Free <$> new).*1 = []) as -> by (clear; by induction new).
    by rewrite app_nil_r.
Qed.

Lemma tasks_split (ots : list (Own * Task Doc)) i t :
  ots.*2 !! i = Some t -> exists l1 own l2, ots = l1 ++ (own, t) :: l2 /\
    forall own' t', <[i := t']> ots.*2 = (l1 ++ (own', t') :: l2).*2.
Proof.
  rewrite list_lookup_fmap_Some. intros ([own t0] & Heq & Hl). simpl in Heq. subst t0.
  apply list_elem_of_split_length in Hl as (l1 & l2 & -> & ->). exists l1, own, l2. split; [done|].
  intros own' t'. rewrite !fmap_app. simpl.
  rewrite <-(Nat.add_0_r (length l1)), <-(length_fmap snd l1). by rewrite insert_app_r.
Qed.

Lemma orphan_ok G d h Q : wp cfg d Barred h G Q -> task_ok G Barred (orphan d h).
Proof. intros Hh. apply prog_wp_bind. by eapply prog_wp_mono; [|exact Hh]. Qed.

(** The survivors of a node that stops, with what they own. *)
Definition surviving (n : NodeId) (ot : Own * Task Doc) : list (Own * Task Doc) :=
  match ot.2 with
  | Wait s k d h => if on_node n s && negb (on_node n d) then [(Barred, orphan d h)]
                    else pair ot.1 <$> survivors n ot.2
  | _ => pair ot.1 <$> survivors n ot.2
  end.

Lemma surviving_tasks n ots : (concat (map (surviving n) ots)).*2 = concat (map (survivors n) ots.*2).
Proof.
  induction ots as [|[own t] ots IH]; [done|]. simpl. rewrite fmap_app, IH. f_equal.
  destruct t as [s p|s k d h]; unfold surviving; simpl; [by case_match|].
  by destruct (on_node n s), (on_node n d).
Qed.

Lemma surviving_owned n ots : omap owned (concat (map (surviving n) ots)).*1 `sublist_of` omap owned ots.*1.
Proof.
  induction ots as [|[own t] ots IH]; [done|]. simpl. rewrite fmap_app, omap_app.
  assert (omap owned (surviving n (own, t)).*1 = [] \/ omap owned (surviving n (own, t)).*1 = omap owned [own]) as Hs.
  { destruct t as [s p|s k d h]; unfold surviving; simpl; [case_match; auto|].
    destruct (on_node n s), (on_node n d); simpl; auto. }
  destruct Hs as [-> | ->]; simpl.
  - destruct (owned own); [by constructor|done].
  - destruct (owned own); simpl; [by constructor|done].
Qed.

Lemma surviving_ok n G own t own' t' :
  task_ok G own t -> (own', t') ∈ surviving n (own, t) ->
  task_ok G own' t' /\ (own' = Barred \/ own' = own /\ task_site t' = task_site t).
Proof.
  destruct t as [s p|s k d h]; unfold surviving; simpl.
  { case_match; set_solver. }
  intros (q & Hh & Hk). destruct (on_node n s), (on_node n d); simpl; intros Hin; [set_solver|..].
  - apply list_elem_of_singleton in Hin as [= -> ->]. split; [by eapply orphan_ok|by left].
  - apply list_elem_of_singleton in Hin as [= -> ->]. split; [|by right]. by apply Hk.
  - apply list_elem_of_singleton in Hin as [= -> ->]. split; [|by right]. by exists q.
Qed.

Lemma safe_stop n G w ots :
  Safe G (w, ots) ->
  Safe G (set_cursors (filter (fun kv => on_node n kv.1.1 = false) (cursors w)) w, concat (map (surviving n) ots)).
Proof.
  intros [Hag Hts Hnd]. split; simpl in *.
  - eapply agree_same; [|done]. by split_and!.
  - intros own' t' Hin. apply list_elem_of_In, in_concat in Hin as (l & Hl & Hin).
    apply in_map_iff in Hl as ([own t] & <- & Hin'). rewrite <-list_elem_of_In in Hin, Hin'.
    destruct (Hts _ _ Hin') as [Ho Hk]. destruct (surviving_ok n _ _ _ _ _ Hk Hin) as [? Hor]. split; [|done].
    destruct Hor as [->|[-> ->]]; [done|]. by eapply owns_same; [|exact Ho].
  - eapply sublist_NoDup; [done|apply surviving_owned].
Qed.

Lemma spawned_ok s own o G : pre cfg s own o G -> Forall (task_ok G Free) (spawned cfg s o).
Proof. destruct o; simpl; try (intros; by constructor). intros Hj. repeat constructor. by apply job_program_ok. Qed.

(** A task performs an operation. *)
Lemma advance_kept {A} s own a (p p' : prog Doc A) new G w w' Q :
  Agree G w -> owns w G s own -> wp cfg s own p G Q -> advance cfg s a p w = Some (p', new, w') ->
  exists G' own', G ⊑f G' /\ Agree G' w' /\ owns w' G' s own' /\ wp cfg s own' p' G' Q /\
    (forall s rid b, owned own <> Some rid -> owns w G s (Mine rid b) -> owns w' G' s (Mine rid b)) /\
    (forall rid, owned own' = Some rid -> owned own = Some rid \/ routes G !! rid = None) /\
    Forall (task_ok G' Free) new /\ (own = Barred -> own' = Barred).
Proof.
  intros Hag Hown Hwp Hadv. destruct p as [|o k]; [done|]. simpl in Hadv. destruct (admissible a o w) eqn:Hadm; [|done].
  simplify_eq. destruct Hwp as [Hpre (ρ & Hk)].
  destruct (exec_kept ρ s own a o G w Hag Hown Hpre Hadm) as (G' & [Hle Hpost Hag' Hown' Hothers Hfresh]).
  exists G', (own_after own o (exec s a o w).1). split_and!; [done..|by apply Hk|done|done| |].
  - eapply Forall_impl; [by eapply spawned_ok|]. intros t. by apply task_ok_le.
  - intros ->. by destruct o.
Qed.

Lemma the_call_ok s own p G addr q k :
  wp cfg s own p G top -> the_call p = Some (addr, q, k) ->
  request_ok G q /\ forall r G', G ⊑f G' -> (r = Ok tt -> rq_route_id q <> ""%string -> covered G' (rq_route_id q)) ->
    wp cfg s own (k r) G' top.
Proof.
  destruct p as [|o k']; [done|]. destruct o; try done. simpl. intros [Hq (ρ & Hk)] [= -> -> ->].
  split; [done|]. intros r G'. apply Hk.
Qed.

(** A task changes without touching the world. *)
Lemma safe_replace G w l1 l2 own t t' :
  Safe G (w, l1 ++ (own, t) :: l2) -> task_site t' = task_site t -> task_ok G own t' ->
  Safe G (w, l1 ++ (own, t') :: l2).
Proof.
  intros Hsafe Hsite Hok. pose proof Hsafe as [Hag Hts _].
  destruct (Hts own t) as [Ho _]; [simpl; set_solver|].
  pose proof (safe_update G G w w l1 l2 own own t t' [] Hsafe) as Hup. simpl in Hup. rewrite app_nil_r in Hup.
  apply Hup; auto; [done|by rewrite Hsite].
Qed.

Lemma safe_at G w l1 l2 own t :
  Safe G (w, l1 ++ (own, t) :: l2) -> Agree G w /\ owns w G (task_site t) own /\ task_ok G own t.
Proof. intros [Hag Hts _]. split; [done|]. apply Hts. simpl. set_solver. Qed.

(** The tasks [ts] of a world are safe, with facts beyond [G]. *)
Definition safe_after G w (ts : list (Task Doc)) : Prop :=
  exists G' ots, G ⊑f G' /\ ts = ots.*2 /\ Safe G' (w, ots).

Lemma tasks_after (l1 l2 : list (Own * Task Doc)) own t (new : list (Task Doc)) :
  (l1 ++ (own, t) :: l2).*2 ++ new = (l1 ++ (own, t) :: l2 ++ (pair Free <$> new)).*2.
Proof.
  assert ((pair (B := Task Doc) Free <$> new).*2 = new) as Hnew by (by rewrite <-list_fmap_compose, list_fmap_id).
  by rewrite !fmap_app, !fmap_cons, fmap_app, Hnew, <-app_assoc.
Qed.

Lemma step_op_safe G w w' l1 l2 own t t' own0 a new :
  Safe G (w, l1 ++ (own, t) :: l2) ->
  match t with
  | Run s p => exists p', advance cfg s a p w = Some (p', new, w') /\ t' = Run s p'
  | Wait s k d h => exists h', advance cfg d a h w = Some (h', new, w') /\ t' = Wait s k d h'
  end ->
  safe_after G w' ((l1 ++ (own0, t') :: l2).*2 ++ new).
Proof.
  intros Hsafe Hadv. destruct (safe_at _ _ _ _ _ _ Hsafe) as (Hag & Ho & Hok). destruct t as [s p|s k d' h].
  - destruct Hadv as (p' & Hadv & ->).
    destruct (advance_kept s own a p p' new G w w' _ Hag Ho Hok Hadv)
      as (G' & own' & Hle & Hag' & Ho' & Hwp & Hothers & Hfresh & Hnew & _).
    exists G', (l1 ++ (own', Run s p') :: l2 ++ (pair Free <$> new)). split_and!; [done| |by eapply safe_update].
    by rewrite tasks_after, !fmap_app.
  - destruct Hadv as (h' & Hadv & ->), Hok as (q & Hh & Hk).
    destruct (advance_kept d' Barred a h h' new G w w' _ Hag I Hh Hadv)
      as (G' & own' & Hle & Hag' & _ & Hwp & Hothers & _ & Hnew & Hb). rewrite (Hb eq_refl) in Hwp.
    exists G', (l1 ++ (own, Wait s k d' h') :: l2 ++ (pair Free <$> new)). split_and!; [done| |].
    { by rewrite tasks_after, !fmap_app. }
    eapply safe_update; [done..| | |by intros; apply Hothers|auto|done].
    + destruct own as [|rid b|]; [done| |done]. by apply Hothers.
    + exists q. split; [done|]. intros r G'' Hle'. apply Hk. by etrans.
Qed.

Lemma replace_after G w l1 l2 own t t' own0 :
  Safe G (w, l1 ++ (own, t) :: l2) -> task_site t' = task_site t -> task_ok G own t' ->
  safe_after G w (l1 ++ (own0, t') :: l2).*2.
Proof.
  intros Hsafe ? ?. exists G, (l1 ++ (own, t') :: l2). split_and!; [done|by rewrite !fmap_app|by eapply safe_replace].
Qed.

Lemma reply_lost_safe G w l1 l2 own s k d h e own0 :
  Safe G (w, l1 ++ (own, Wait s k d h) :: l2) ->
  safe_after G w ((l1 ++ (own0, Run s (k (Err e))) :: l2).*2 ++ [orphan d h]).
Proof.
  intros Hsafe. destruct (safe_at _ _ _ _ _ _ Hsafe) as (Hag & Ho & q & Hh & Hk).
  exists G, ((l1 ++ (own, Run s (k (Err e))) :: l2) ++ [(Barred, orphan d h)]). split_and!; [done|by rewrite !fmap_app|].
  assert (Safe G (w, l1 ++ (own, Run s (k (Err e))) :: l2)) as [Hag' Hts' Hnd'].
  { eapply safe_replace; [done..|]. by apply Hk. }
  split; simpl in *; [done|..].
  - intros own' t' [Hin|[= -> ->]%list_elem_of_singleton]%elem_of_app; [by apply Hts'|]. split; [done|by eapply orphan_ok].
  - rewrite fmap_app, omap_app. simpl. by rewrite app_nil_r.
Qed.

Lemma add_after G w ots new : Safe G (w, ots) -> Forall (task_ok G Free) new -> safe_after G w (ots.*2 ++ new).
Proof.
  intros ? ?. exists G, (ots ++ (pair Free <$> new)). split_and!; [done| |by apply safe_add].
  by rewrite fmap_app, <-list_fmap_compose, list_fmap_id.
Qed.

Section Steps.
Context (host : string -> NodeId).

Lemma router_safe_step m G w ots w' ts' :
  Safe G (w, ots) -> step cfg host m (w, ots.*2) = Some (w', ts') -> safe_after G w' ts'.
Proof.
  intros Hsafe Hstep. destruct m as [i a|i d|i e|i|i e|n|s|s|s|s t p source|s p]; simpl in Hstep;
    try (destruct (ots.*2 !! i) as [t|] eqn:Hi; [|done];
         apply tasks_split in Hi as (l1 & own & l2 & -> & Hins);
         pose proof (safe_at _ _ _ _ _ _ Hsafe) as (Hag & Ho & Hok)).
  - destruct t as [s p|s k d h].
    + destruct (advance cfg s a p w) as [[[p' new] w1]|] eqn:Hadv; simplify_eq/=. rewrite (Hins own).
      eapply step_op_safe; [done|]. simpl. eauto.
    + destruct (advance cfg d a h w) as [[[h' new] w1]|] eqn:Hadv; simplify_eq/=. rewrite (Hins own).
      eapply step_op_safe; [done|]. simpl. eauto.
  - destruct t as [s p|]; [|done]. destruct (the_call p) as [[[addr q] k]|] eqn:Hcall; simpl in Hstep; [|done].
    case_decide; simplify_eq. destruct (the_call_ok _ _ _ _ _ _ _ Hok Hcall) as [Hq Hk]. rewrite (Hins own).
    eapply replace_after; [done..|]. exists q. split; [by apply route_packet_ok|done].
  - destruct t as [s p|]; [|done]. destruct (the_call p) as [[[addr q] k]|] eqn:Hcall; simplify_eq/=.
    destruct (the_call_ok _ _ _ _ _ _ _ Hok Hcall) as [Hq Hk]. rewrite (Hins own).
    eapply replace_after; [done..|]. by apply Hk.
  - destruct t as [|s k d [r|]]; simplify_eq. destruct Hok as (q & Hh & Hk). rewrite (Hins own).
    eapply replace_after; [done..|]. apply Hk; [done|]. intros Hr. apply Hh. destruct r as [[]| | |]; by simplify_eq/=.
  - destruct t as [|s k d h]; simplify_eq. rewrite (Hins own). by eapply reply_lost_safe.
  - simplify_eq. exists G, (concat (map (surviving n) ots)). split_and!; [done|by rewrite surviving_tasks|by apply safe_stop].
  - simplify_eq. apply add_after; [done|]. repeat constructor; [apply outbox_scan_ok|apply inbox_scan_ok|apply cleanup_ok].
  - simplify_eq. apply add_after; [done|]. repeat constructor; [apply outbox_scan_ok|apply inbox_scan_ok].
  - simplify_eq. apply add_after; [done|]. repeat constructor. apply cleanup_ok.
  - simplify_eq. apply add_after; [done|]. apply Forall_singleton, (wp_ignore cfg s Free (route _ _ _ _ _)). by eapply prog_wp_mono; [|apply route_ok].
  - simplify_eq. apply add_after; [done|]. apply Forall_singleton, (wp_ignore cfg s Free (handle_route_packet_to_all_tenants _)), publish_all_ok.
Qed.

Lemma safe_steps ms G w ots w' ts' :
  Safe G (w, ots) -> steps cfg host ms (w, ots.*2) = Some (w', ts') -> safe_after G w' ts'.
Proof.
  revert G w ots. induction ms as [|m ms IH]; cbn [steps]; intros G w ots Hsafe Hsteps.
  - simplify_eq. by exists G, ots.
  - destruct (step cfg host m (w, ots.*2)) as [[w1 ts1]|] eqn:Hstep; [|discriminate].
    destruct (router_safe_step _ _ _ _ _ _ Hsafe Hstep) as (G1 & ots1 & Hle & -> & Hsafe1).
    destruct (IH _ _ _ Hsafe1 Hsteps) as (G2 & ots2 & Hle2 & ? & ?). exists G2, ots2. split_and!; [by etrans|done..].
Qed.

Lemma router_safe_initial : Safe (mkFacts ∅ ∅ ∅ ∅ ∅ ∅) (empty_world, []).
Proof.
  split; [|simpl; set_solver|constructor].
  split; simpl; intros *; rewrite ?lookup_empty; try done; try (by intros [? ?]); set_solver.
Qed.

(** ** The guarantee *)

(** A message in an outbox, at any time, with its payload. *)
Definition in_outbox w s (k : string) (tenant target : string) (p : Packet) : Prop :=
  exists item b, outbox w !! (s, k) = Some item /\ o_tenant_id item = tenant /\ o_target_client_id item = target /\
    payloads w !! (site_node s, o_packet_key item) = Some b /\ deserialize_stored_packet b = Ok p.
Definition in_inbox w s (k : string) (tenant target : string) (p : Packet) : Prop :=
  exists item b, inbox w !! (s, k) = Some item /\ i_status item = Pending /\
    i_tenant_id item = tenant /\ i_target_client_id item = target /\
    payloads w !! (site_node s, i_packet_key item) = Some b /\ deserialize_stored_packet b = Ok p.

Lemma agree_accounted G w k ρ :
  Agree G w -> routes G !! k = Some ρ -> k ∈ held G -> rt_target ρ <> ""%string ->
  (exists s, in_outbox w s k (rt_tenant ρ) (rt_target ρ) (rt_packet ρ)) \/
  (exists s, in_inbox w s k (rt_tenant ρ) (rt_target ρ) (rt_packet ρ)) \/
  (exists s, Delivered s k (rt_tenant ρ) (rt_target ρ) (rt_packet ρ) ∈ trace w) \/
  (exists s r, Gone s r ∈ trace w /\ drop_id r = k /\ exhausted cfg r).
Proof.
  intros Hag Hρ Hk Hne.
  destruct (ag_held _ _ Hag k Hk) as [[Ht|(ρ' & ? & ?)]|(s & item & Ho & b & Hb)]; [|by simplify_eq|].
  - destruct (ag_taken _ _ Hag k Ht) as [Hs|(s & item & Hi & Hp & b & Hb)].
    + destruct (ag_settled _ _ Hag k Hs) as (_ & e & He & Hset).
      destruct e as [s rid t c p|s t c p|s r]; simpl in Hset; [|done|].
      * destruct Hset as [-> Hρ']. simplify_eq. simpl in *. eauto 10.
      * destruct Hset. right. right. right. eauto.
    + right. left. exists s, item, b. destruct (ag_inbox _ _ Hag _ _ _ Hi) as [(_ & _ & Hkey & (ρ' & ? & ? & ?) & _) _].
      destruct (ag_payload _ _ Hag _ _ _ k Hb (or_intror eq_refl)) as (ρ'' & ? & Hto). simplify_eq.
      rewrite Hkey, (stored_read _ _ Hto). by split_and!.
  - left. exists s, item, b. destruct (ag_outbox _ _ Hag _ _ _ Ho) as [(_ & _ & Hkey & _ & ρ' & ? & ? & ?) _].
    destruct (ag_payload _ _ Hag _ _ _ k Hb (or_introl eq_refl)) as (ρ'' & ? & Hto). simplify_eq.
    rewrite Hkey, (stored_read _ _ Hto). by split_and!.
Qed.

(** C2: a message that a router has put into its outbox for a client with a non-empty
    identifier is never lost silently (one for an empty identifier is published to the
    subscribers of the other node and not kept there).  Whatever then happens - any interleaving of tasks, failing stores, calls or replies
    lost, nodes stopping and starting - it is still in an outbox, or it waits in the
    inbox of a node, with its tenant, receiver and content unchanged, or a session
    accepted it, or it was counted as dropped because it expired or its attempts ran
    out. *)
Theorem no_silent_loss ms ms' w ts w' ts' s k tenant target p :
  steps cfg host ms (empty_world, []) = Some (w, ts) ->
  in_outbox w s k tenant target p -> target <> ""%string ->
  steps cfg host ms' (w, ts) = Some (w', ts') ->
  (exists s', in_outbox w' s' k tenant target p) \/
  (exists s', in_inbox w' s' k tenant target p) \/
  (exists s', Delivered s' k tenant target p ∈ trace w') \/
  (exists s' r, Gone s' r ∈ trace w' /\ drop_id r = k /\ exhausted cfg r).
Proof.
  intros Hms (item & b & Ho & Ht & Hc & Hb & Hp) Hne Hms'.
  destruct (safe_steps ms _ _ [] _ _ router_safe_initial Hms) as (G & ots & _ & -> & Hsafe).
  destruct (ag_outbox _ _ (safe_agree _ _ Hsafe) _ _ _ Ho) as [(_ & _ & Hkey & _ & ρ & Hρ & Htρ & Hcρ) Hheld].
  simpl in Hb. rewrite Hkey in Hb.
  destruct (ag_payload _ _ (safe_agree _ _ Hsafe) _ _ _ k Hb (or_introl eq_refl)) as (ρ' & ? & Hto).
  rewrite (stored_read _ _ Hto) in Hp. simplify_eq. rewrite Htρ, Hcρ in *.
  destruct (safe_steps ms' _ _ _ _ _ Hsafe Hms') as (G' & ots' & Hle & -> & Hsafe').
  apply (agree_accounted G'); [apply (safe_agree _ _ Hsafe')|eauto with facts..|done].
Qed.

End Steps.
End Durable.

(** ** An execution *)

Module Sample.
Import Router.Plain.

Definition here_ : Site := mkSite 1 0.
Definition there : Site := mkSite 2 0.
Definition message : Publish := mkPublish V5_0 "t" [104] 1 false false (Some 7) default_properties None.
Definition listener : Subscription := mkSubscription "c" 1 false false None "t".
(** Node 2 runs the session; nothing fails. *)
Definition fine : Answer :=
  mkAnswer None None 100 "r" (Some "b"%string) true (Ok [listener]) [] (Some (mkMapEntry 2 (mkInstance 5) 1000)) [].
Definition where_ (addr : string) : NodeId := 2.

(** A client publishes on node 1; its message is written to the outbox. *)
Definition published : list move :=
  Publish_ here_ "public" (PPublish message) None :: replicate 8 (Step 0 fine).
(** The spawned task sends it, node 2 takes it over and its session accepts it. *)
Definition sent : list move :=
  replicate 3 (Step 1 fine) ++ [Arrive 1 there] ++ replicate 6 (Step 1 fine) ++ [Reply 1] ++ replicate 2 (Step 1 fine).
Definition accepted : list move := replicate 6 (Step 2 fine).

Definition runs (ms : list move) (c : World Packet * list (Task Packet)) : World Packet * list (Task Packet) :=
  from_option id c (steps default_retry_config where_ ms c).
Definition defined (ms : list move) (c : World Packet * list (Task Packet)) : bool :=
  match steps default_retry_config where_ ms c with Some _ => true | None => false end.

Lemma runs_ok ms c w ts : defined ms c = true -> runs ms c = (w, ts) -> steps default_retry_config where_ ms c = Some (w, ts).
Proof. unfold defined, runs. destruct (steps _ _ ms c) as [c'|]; [|done]. simpl. by intros _ [= ->]. Qed.

(** A scan at node 2 reads the record while the spawned task is still at work. *)
Definition scanned : list move :=
  [Tick there] ++ replicate 4 (Step 2 fine) ++ replicate 5 (Step 4 fine).
End Sample.

Import Router.Plain.

(** the inbox does not keep a message from being delivered twice: the task spawned
    for a record and a periodic scan that read the record before the task marked it
    completed both hand the message to the session. *)
Example stale_copy_delivers_twice :
  exists ms c, steps default_retry_config Sample.where_ ms (empty_world, []) = Some c /\
    trace c.1 = [Delivered Sample.there "r" "public" "c" (PPublish Sample.message);
                 Delivered Sample.there "r" "public" "c" (PPublish Sample.message)].
Proof.
  exists (Sample.published ++ Sample.sent ++ Sample.scanned),
    (Sample.runs (Sample.published ++ Sample.sent ++ Sample.scanned) (empty_world, [])).
  split; [|vm_compute; reflexivity]. rewrite (surjective_pairing (Sample.runs _ _)).
  apply Sample.runs_ok; [vm_compute; reflexivity|apply surjective_pairing].
Qed.

Lemma no_silent_loss_witness :
  let w := (Sample.runs Sample.published (empty_world, [])).1 in
  let w' := (Sample.runs (Sample.sent ++ Sample.accepted) (Sample.runs Sample.published (empty_world, []))).1 in
  in_outbox w Sample.here_ "r" "public" "c" (PPublish Sample.message) /\
  ((exists s', in_outbox w' s' "r" "public" "c" (PPublish Sample.message)) \/
   (exists s', in_inbox w' s' "r" "public" "c" (PPublish Sample.message)) \/
   (exists s', Delivered s' "r" "public" "c" (PPublish Sample.message) ∈ trace w') \/
   (exists s' r, Gone s' r ∈ trace w' /\ drop_id r = "r"%string /\ exhausted default_retry_config r)).
Proof.
  intros w w'.
  assert (in_outbox w Sample.here_ "r" "public" "c" (PPublish Sample.message)) as Hin.
  { eexists (mkOutboxItem "r" "public" 1 2 "c" 1 "route-outbox:r" 100 0 86500), (PPublish Sample.message).
    split_and!; vm_compute; reflexivity. }
  split; [exact Hin|].
  refine (no_silent_loss default_retry_config Sample.where_ Sample.published (Sample.sent ++ Sample.accepted)
    w (Sample.runs Sample.published (empty_world, [])).2 w'
    (Sample.runs (Sample.sent ++ Sample.accepted) (Sample.runs Sample.published (empty_world, []))).2
    Sample.here_ "r" "public" "c" (PPublish Sample.message) _ Hin _ _).
  - apply Sample.runs_ok; [vm_compute; reflexivity|]. apply surjective_pairing.
  - discriminate.
  - unfold w. rewrite <-surjective_pairing. apply Sample.runs_ok; [vm_compute; reflexivity|]. apply surjective_pairing.
Defined.
