(* ===== verification/RouterRun.v ===== *)
(** * Routing, run from beginning to end

    [run] executes a program of [Router] alone, against answers that may depend on the
    operation and on the world, and returns the tasks it spawns.  The theorems say that
    the members of a shared subscription take turns, and that a message for another node
    arrives there when nothing fails and its tasks run one after another; and, over the
    runs for all answers ([Traces]), whom a published message is handed to. *)

From S2P Require Import Prelude Program Traces Packet MessageExpiry TopicStorage RaftLog SessionMap V3Codec V3Convert Router RouterSystem.

#[local] Open Scope Z_scope.
#[local] Open Scope prog_scope.

Section Run.
Context {Doc : Type} `{SerdeSpec Doc Packet, Serde Doc MqttPacketV3}.
Context (cfg : RouteRetryConfig).
Implicit Types (w : World Doc) (s d : Site) (o : op Doc).
Abbreviation result A := (prog Doc (outcome RouterActorError A)).
Abbreviation Asking := (World Doc -> op Doc -> Answer).
(** How a call to another node is carried out. *)
Abbreviation Network := (string -> RoutePacketRequest Doc -> World Doc -> io unit * list (Site * Job) * World Doc).

Section Interp.
Context (ask : Asking) (net : Network).

Definition perform s o w : res o * list (Site * Job) * World Doc :=
  match o return res o * list (Site * Job) * World Doc with
  | CallRoutePacket addr q => net addr q w
  | Spawn j => (tt, [(s, j)], w)
  | o => ((exec s (ask w o) o w).1, [], (exec s (ask w o) o w).2)
  end.

Fixpoint run {A} s (p : prog Doc A) w : A * list (Site * Job) * World Doc :=
  match p with
  | Ret a => (a, [], w)
  | Do o k =>
      let '(r, js, w) := perform s o w in
      let '(a, js', w) := run s (k r) w in
      (a, js ++ js', w)
  end.

Lemma run_bind {A B} s (p : prog Doc A) (f : A -> prog Doc B) w :
  run s (p ≫= f) w =
    let '(a, js, w) := run s p w in let '(b, js', w) := run s (f a) w in (b, js ++ js', w).
Proof.
  revert w. induction p as [a|o k IH]; intros w; cbn.
  - by destruct (run s (f a) w) as [[? ?] ?].
  - destruct (perform s o w) as [[r js] w1]. pose proof (IH r w1) as IHr. cbn in IHr. rewrite IHr. clear IHr.
    destruct (run s (k r) w1) as [[a js1] w2]. destruct (run s (f a) w2) as [[b js2] w3]. by rewrite app_assoc.
Qed.

Lemma run_attempt {E A B} s (p : prog Doc (outcome E A)) (f : A -> prog Doc (outcome E B)) w :
  run s (attempt p f) w =
    let '(r, js, w) := run s p w in
    match r with
    | Ok a => let '(b, js', w) := run s (f a) w in (b, js ++ js', w)
    | Err e => (Err e, js, w)
    | Panic => (Panic, js, w)
    | OutOfFuel => (OutOfFuel, js, w)
    end.
Proof.
  unfold attempt. rewrite run_bind. destruct (run s p w) as [[[a|e| |] js] w1]; [done|simpl; by rewrite app_nil_r..].
Qed.

Lemma run_call s o w : run s (call o) w = perform s o w.
Proof. unfold call. simpl. destruct (perform s o w) as [[r js] w1]. by rewrite app_nil_r. Qed.

Lemma run_fails_with {E F A} s (f : E -> F) (p : prog Doc (outcome E A)) w :
  run s (fails_with f p) w = let '(r, js, w) := run s p w in (map_err f r, js, w).
Proof. unfold fails_with. rewrite run_bind. destruct (run s p w) as [[r js] w1]. simpl. by rewrite app_nil_r. Qed.

(** Programs that do the same. *)
Definition same {A} s (p q : prog Doc A) : Prop := forall w, run s p w = run s q w.

Lemma same_attempt {E A B} s (p q : prog Doc (outcome E A)) (f g : A -> prog Doc (outcome E B)) :
  same s p q -> (forall a, same s (f a) (g a)) -> same s (attempt p f) (attempt q g).
Proof.
  intros Hp Hf w. rewrite !run_attempt, Hp. destruct (run s q w) as [[[a|e| |] js] w1]; [|done..]. by rewrite Hf.
Qed.

Lemma same_try_each {E A} s (f g : A -> prog Doc (outcome E unit)) l :
  (forall a, same s (f a) (g a)) -> same s (try_each f l) (try_each g l).
Proof. intros Hf. induction l as [|a l IH]; [done|]. simpl. by apply same_attempt. Qed.

(** ** Whom a message is given to *)

(** The sessions: those the local copy of the registry knows, those the registry knows,
    and those that run on this node. *)
Record Directory := mkDirectory {
  local_entry : string -> string -> option SessionActorMapEntry;
  registry_entry : string -> string -> option SessionActorMapEntry;
  live : string -> string -> bool;
}.
Definition answers (dir : Directory) : Prop :=
  forall w t c,
    a_entry (ask w (LocalSessionMap t c)) = local_entry dir t c /\
    a_error (ask w (LinearizableSessionMap t c)) = None /\
    a_entry (ask w (LinearizableSessionMap t c)) = registry_entry dir t c /\
    a_found (ask w (GetSession t c)) = live dir t c.

Definition owner_entry (dir : Directory) (t c : string) : option SessionActorMapEntry :=
  match local_entry dir t c with Some e => Some e | None => registry_entry dir t c end.

(** A session can be reached: it runs here, or it is registered on another node. *)
Definition reachable_from (dir : Directory) s (t : string) (item : SubscriptionInfo) : bool :=
  match owner_entry dir t (si_client_identifier item) with
  | None => false
  | Some e => negb (node_id e =? site_node s) || live dir t (si_client_identifier item)
  end.

Lemma run_lookup dir s t c w :
  answers dir -> run s (lookup_session_map t c) w = (Ok (owner_entry dir t c), [], w).
Proof.
  intros Hdir. destruct (Hdir w t c) as (Hl & He & Hr & _). unfold lookup_session_map, owner_entry. cbn. rewrite Hl.
  destruct (local_entry dir t c); [done|]. cbn. unfold failing. by rewrite He, Hr.
Qed.

Lemma deliver_unreachable dir s t p item w :
  answers dir -> reachable_from dir s t item = false ->
  run s (deliver_to_subscriber cfg (site_node s) t p item) w = (Ok false, [], w).
Proof.
  intros Hdir Hr. unfold deliver_to_subscriber. rewrite run_attempt, (run_lookup dir) by done.
  unfold reachable_from in Hr. destruct (owner_entry dir t (si_client_identifier item)) as [e|]; [|done].
  apply orb_false_iff in Hr as [Hn Hl]. rewrite Hn. cbn.
  destruct (Hdir w t (si_client_identifier item)) as (_ & _ & _ & Hlive). rewrite Hlive, Hl. done.
Qed.

Lemma deliver_reachable dir s t p item w :
  answers dir -> reachable_from dir s t item = true ->
  (run s (deliver_to_subscriber cfg (site_node s) t p item) w).1.1 <> Ok false.
Proof.
  intros Hdir Hr. unfold deliver_to_subscriber. rewrite run_attempt, (run_lookup dir) by done.
  unfold reachable_from in Hr. destruct (owner_entry dir t (si_client_identifier item)) as [e|]; [|done].
  cbv zeta. destruct (node_id e =? site_node s) eqn:Hn; cbn [negb orb] in *.
  - cbn. destruct (Hdir w t (si_client_identifier item)) as (_ & _ & _ & Hlive). rewrite Hlive, Hr. done.
  - destruct (should_route_durably _); [|done]. rewrite run_attempt.
    destruct (run s (enqueue_durable_remote_route _ _ _ _ _ _ _) w) as [[[a|err| |] js] w1]; done.
Qed.

(** The members in the order in which they are tried. *)
Definition turn (start : nat) (sorted : list SubscriptionInfo) : list SubscriptionInfo :=
  drop start sorted ++ take start sorted.

Definition first_reachable (dir : Directory) s (t : string) (l : list SubscriptionInfo) : option SubscriptionInfo :=
  head (filter (fun m => reachable_from dir s t m = true) l).

Lemma turn_lookup start (sorted : list SubscriptionInfo) i :
  (start < length sorted)%nat -> (i < length sorted)%nat ->
  sorted !! ((start + i) mod length sorted)%nat = turn start sorted !! i.
Proof.
  intros Hs Hi. unfold turn. destruct (decide (start + i < length sorted)%nat) as [Hlt|Hge].
  - rewrite Nat.mod_small by done. rewrite lookup_app_l by (rewrite length_drop; lia). by rewrite lookup_drop.
  - rewrite lookup_app_r, length_drop by (rewrite length_drop; lia).
    replace (start + i)%nat with ((start + i - length sorted) + 1 * length sorted)%nat at 1 by lia.
    rewrite Nat.Div0.mod_add, Nat.mod_small by lia. rewrite lookup_take_lt by lia. f_equal. lia.
Qed.

(** The loop over offsets tries the members in turn and stops at the first reachable one. *)
Lemma try_members_turn dir s t p sorted start w :
  answers dir -> (start < length sorted)%nat ->
  run s (try_members (deliver_to_subscriber cfg (site_node s) t p) sorted start (seq 0 (length sorted))) w =
  match first_reachable dir s t (turn start sorted) with
  | Some m => run s (deliver_to_subscriber cfg (site_node s) t p m) w
  | None => (Ok false, [], w)
  end.
Proof.
  intros Hdir Hs. assert (length (turn start sorted) = length sorted) as Hlen.
  { unfold turn. rewrite length_app, length_drop, length_take. lia. }
  assert (forall k n, (k + n = length sorted)%nat ->
    run s (try_members (deliver_to_subscriber cfg (site_node s) t p) sorted start (seq k n)) w =
    match first_reachable dir s t (drop k (turn start sorted)) with
    | Some m => run s (deliver_to_subscriber cfg (site_node s) t p m) w
    | None => (Ok false, [], w)
    end) as Hgen; [|by apply (Hgen 0%nat)].
  intros k n. revert k. induction n as [|n IH]; intros k Hk.
  { rewrite drop_ge by lia. done. }
  cbn [seq try_members]. rewrite turn_lookup by lia.
  destruct (lookup_lt_is_Some_2 (turn start sorted) k ltac:(lia)) as [m Hm]. rewrite Hm.
  rewrite (drop_S _ _ _ Hm). unfold first_reachable. rewrite filter_cons, run_attempt.
  destruct (reachable_from dir s t m) eqn:Hr.
  - rewrite decide_True by done. cbn [head].
    pose proof (deliver_reachable dir s t p m w Hdir Hr) as Hne.
    destruct (run s (deliver_to_subscriber cfg (site_node s) t p m) w) as [[[[]|e| |] js] w1]; cbn in *; try done.
    by rewrite app_nil_r.
  - rewrite decide_False by done. rewrite (deliver_unreachable dir) by done. rewrite IH by lia.
    unfold first_reachable. by destruct (head _) as [m'|]; [destruct (run s _ w) as [[? ?] ?]|].
Qed.

Lemma sort_insert_perm x l : sort_insert x l ≡ₚ x :: l.
Proof. induction l as [|y l IH]; [done|]. simpl. case_match; [done|]. rewrite IH. by apply Permutation_swap. Qed.
Lemma sort_by_client_perm l : sort_by_client l ≡ₚ l.
Proof. induction l as [|x l IH]; [done|]. simpl. by rewrite sort_insert_perm, IH. Qed.

Definition not_own (source : option string) (l : list SubscriptionInfo) : list SubscriptionInfo :=
  filter (fun item => is_own_message source item = false) l.

(** What routing does for a shared subscription: it gives the message to the first member in
    turn that can be reached. *)
Definition give_group (dir : Directory) s (t : string) (p : Publish) (key : SharedSubscriptionRouteKey)
    (sorted : list SubscriptionInfo) : result unit :=
  start ← call (NextCursor key (length sorted));
  match first_reachable dir s t (turn start sorted) with
  | Some m => _ <-? deliver_to_subscriber cfg (site_node s) t p m; Ret (Ok tt)
  | None => _ ← call (Dropped NoSubscriber); Ret (Ok tt)
  end.

Lemma next_cursor_lt s key len w : (0 < len)%nat -> ((next_cursor s key len w).1 < len)%nat.
Proof. intros. simpl. apply Nat.mod_upper_bound. lia. Qed.

Lemma route_group_reference dir s t p source key candidates :
  answers dir ->
  same s (route_group cfg (site_node s) t p source key candidates)
    (match sort_by_client (not_own source candidates) with
     | [] => Ret (Ok tt)
     | sorted => give_group dir s t p key sorted
     end).
Proof.
  intros Hdir w. unfold route_group. fold (not_own source candidates).
  pose proof (sort_by_client_perm (not_own source candidates)) as Hperm.
  destruct (not_own source candidates) as [|x l] eqn:Hn; [done|].
  destruct (sort_by_client (x :: l)) as [|y sorted] eqn:Hsort.
  { by apply Permutation_nil_cons in Hperm. }
  unfold give_group. rewrite !run_bind. cbn [call invoke run perform exec].
  destruct (next_cursor s key (length (y :: sorted)) w) as [start w1] eqn:Hc.
  assert (start < length (y :: sorted))%nat as Hlt.
  { pose proof (next_cursor_lt s key (length (y :: sorted)) w) as Hn'. rewrite Hc in Hn'. apply Hn'. simpl. lia. }
  cbn [fst snd]. rewrite run_attempt, (try_members_turn dir) by done.
  destruct (first_reachable dir s t (turn start (y :: sorted))) as [m|] eqn:Hf; [|done].
  rewrite run_attempt.
  assert (reachable_from dir s t m = true) as Hr.
  { unfold first_reachable in Hf. destruct (filter _ _) as [|m' l'] eqn:Hfil; [done|]. injection Hf as ->.
    assert (m ∈ m :: l') as Hin by set_solver. rewrite <-Hfil in Hin. by apply list_elem_of_filter in Hin as [? _]. }
  pose proof (deliver_reachable dir s t p m w1 Hdir Hr) as Hne.
  by destruct (run s (deliver_to_subscriber cfg (site_node s) t p m) w1) as [[[[]|e| |] js] w2].
Qed.

(** ** Turns *)

(** What a session of this node is sent. *)
Definition sent_to s (t : string) (p : Publish) (m : SubscriptionInfo) : Event :=
  Sent s t (si_client_identifier m) (PPublish (adjust_publish_for_subscriber p (si_qos m) (si_retain_as_published m))).

(** The session runs on this node. *)
Definition here (dir : Directory) s (t : string) (m : SubscriptionInfo) : Prop :=
  exists e, owner_entry dir t (si_client_identifier m) = Some e /\ node_id e = site_node s /\
    live dir t (si_client_identifier m) = true.

Lemma here_reachable dir s t m : here dir s t m -> reachable_from dir s t m = true.
Proof. intros (e & He & Hn & Hl). unfold reachable_from. rewrite He, Hl. apply orb_true_r. Qed.

Lemma deliver_here dir s t p m w :
  answers dir -> here dir s t m ->
  run s (deliver_to_subscriber cfg (site_node s) t p m) w = (Ok true, [], observe (sent_to s t p m) w).
Proof.
  intros Hdir (e & He & Hn & Hl). unfold deliver_to_subscriber. rewrite run_attempt, (run_lookup dir), He by done.
  cbv zeta. rewrite (proj2 (Z.eqb_eq _ _) Hn). cbn.
  destruct (Hdir w t (si_client_identifier m)) as (_ & _ & _ & Hlive). by rewrite Hlive, Hl.
Qed.

Definition cursor s (key : SharedSubscriptionRouteKey) w : nat := from_option id 0%nat (cursors w !! (s, key)).

Lemma give_group_here dir s t p key sorted w m :
  answers dir -> Forall (here dir s t) sorted -> sorted !! (cursor s key w mod length sorted)%nat = Some m ->
  exists w', run s (give_group dir s t p key sorted) w = (Ok tt, [], w') /\
    trace w' = trace w ++ [sent_to s t p m] /\ cursor s key w' = S (cursor s key w mod length sorted).
Proof.
  intros Hdir Hall Hm. unfold give_group. rewrite run_bind, (run_call s (NextCursor _ _)).
  cbn [perform exec fst snd next_cursor]. fold (cursor s key w).
  assert (first_reachable dir s t (turn (cursor s key w mod length sorted) sorted) = Some m) as ->.
  { unfold first_reachable, turn. rewrite (drop_S _ _ _ Hm). cbn [app]. rewrite filter_cons, decide_True; [done|].
    apply here_reachable. by eapply Forall_lookup_1. }
  rewrite run_attempt, (deliver_here dir) by (done || by eapply Forall_lookup_1).
  eexists. split_and!; [done|done|]. unfold cursor. simpl. by rewrite lookup_insert_eq.
Qed.

Lemma turns_taken dir s t key sorted ps w (c : nat) :
  answers dir -> Forall (here dir s t) sorted -> (0 < length sorted)%nat ->
  (cursor s key w mod length sorted = c mod length sorted)%nat ->
  exists w' recv, run s (try_each (fun p => give_group dir s t p key sorted) ps) w = (Ok tt, [], w') /\
    trace w' = trace w ++ zip_with (sent_to s t) ps recv /\ length recv = length ps /\
    forall i, (i < length ps)%nat -> recv !! i = sorted !! ((c + i) mod length sorted)%nat.
Proof.
  intros Hdir Hall Hpos. revert w c. induction ps as [|p ps IH]; intros w c Hc.
  { exists w, []. cbn. split_and!; [done|by rewrite app_nil_r|done|lia]. }
  destruct (lookup_lt_is_Some_2 sorted (c mod length sorted)%nat) as [m Hm]; [apply Nat.mod_upper_bound; lia|].
  pose proof Hm as Hm'. rewrite <-Hc in Hm'.
  destruct (give_group_here dir s t p key sorted w m Hdir Hall Hm') as (w1 & Hrun & Htr & Hcur).
  destruct (IH w1 (S c)) as (w2 & recv & Hrun2 & Htr2 & Hlen & Hrecv).
  { rewrite Hcur, Hc. change (S (c mod length sorted)) with (1 + c mod length sorted)%nat.
    rewrite Nat.Div0.add_mod_idemp_r. done. }
  exists w2, (m :: recv). cbn [try_each]. rewrite run_attempt, Hrun, Hrun2. split_and!; [done|..].
  - rewrite Htr2, Htr, <-app_assoc. done.
  - simpl. by rewrite Hlen.
  - intros [|i] Hi; simpl; [by rewrite Nat.add_0_r|]. rewrite Hrecv by (simpl in Hi; lia). do 2 f_equal. lia.
Qed.

(** the members of a shared subscription take turns: of as many messages as there
    are eligible members, all running on this node, each member gets exactly one. *)
Theorem shared_members_take_turns dir s t source key candidates ps w :
  answers dir ->
  Forall (here dir s t) (not_own source candidates) ->
  not_own source candidates <> [] ->
  length ps = length (not_own source candidates) ->
  exists w' recv,
    run s (try_each (fun p => route_group cfg (site_node s) t p source key candidates) ps) w = (Ok tt, [], w') /\
    recv ≡ₚ not_own source candidates /\
    trace w' = trace w ++ zip_with (sent_to s t) ps recv.
Proof.
  intros Hdir Hall Hne Hlen. pose proof (sort_by_client_perm (not_own source candidates)) as Hperm.
  set (sorted := sort_by_client (not_own source candidates)) in *. rewrite <-Hperm in Hall.
  rewrite <-(Permutation_length Hperm) in Hlen.
  assert (0 < length sorted)%nat as Hpos.
  { rewrite (Permutation_length Hperm). destruct (not_own source candidates); [done|simpl; lia]. }
  pose proof (Nat.mod_upper_bound (cursor s key w) (length sorted) ltac:(lia)) as Hlt.
  destruct (turns_taken dir s t key sorted ps w (cursor s key w mod length sorted)%nat Hdir Hall Hpos)
    as (w' & recv & Hrun & Htr & Hl & Hrecv); [by rewrite Nat.Div0.mod_mod|].
  exists w', recv. split_and!; [|..|done].
  - rewrite <-Hrun. apply same_try_each. intros p w0. rewrite (route_group_reference dir) by done. fold sorted.
    by destruct sorted; [simpl in Hpos; lia|].
  - assert (recv = turn (cursor s key w mod length sorted) sorted) as ->.
    { assert (length (turn (cursor s key w mod length sorted) sorted) = length sorted) as Hlt'.
      { unfold turn. rewrite length_app, length_drop, length_take. lia. }
      apply list_eq. intros i. destruct (decide (i < length ps)%nat) as [Hi|Hi].
      - rewrite Hrecv by done. apply turn_lookup; lia.
      - rewrite !lookup_ge_None_2; [done|lia|lia]. }
    unfold turn. rewrite Permutation_app_comm. by rewrite take_drop.
Qed.
End Interp.

(** ** A message for another node, when nothing fails *)

Definition healthy_answer (now : Z) (rid addr : string) : Answer :=
  mkAnswer None None now rid (Some addr) true (Ok []) [] None [].
Definition no_network : Network := fun _ _ w => (Err "unreachable"%string, [], w).

Section Healthy.
Context (now : Z) (rid addr : string) (d : Site).
Abbreviation ask := (fun (_ : World Doc) (_ : op Doc) => healthy_answer now rid addr).

(** The calls arrive at the router [d]. *)
Definition calls_to : Network := fun _ q w => run ask no_network d (route_packet cfg q) w.

(** The spawned tasks run one after another. *)
Fixpoint drain (n : nat) (js : list (Site * Job)) w : list (Site * Job) * World Doc :=
  match n, js with
  | S n, (s, j) :: js => let '(_, js', w) := run ask calls_to s (job_program cfg j) w in drain n (js ++ js') w
  | _, _ => (js, w)
  end.

Definition fresh_inbox (t c : string) (expiry : Z) : RouteInboxItem :=
  mkInboxItem rid t c (build_packet_key "route-inbox" rid) now 0 expiry Pending None.

Lemma run_process t c p b expiry w :
  to_vec p = Ok b -> payloads w !! (site_node d, build_packet_key "route-inbox" rid) = Some b ->
  is_packet_expired p now = false -> now < expiry -> 0 < max_retry_count cfg ->
  run ask calls_to d (job_program cfg (ProcessInbox (fresh_inbox t c expiry))) w =
    (tt, [], mkWorld (delete (site_node d, build_packet_key "route-inbox" rid) (payloads w)) (outbox w)
      (<[(d, rid) := complete_inbox now (fresh_inbox t c expiry)]> (inbox w)) (cursors w) (used w)
      (trace w ++ [Delivered d rid t c p])).
Proof.
  intros Hto Hp Hexp Hlt Hmax. simpl. rewrite (proj2 (Z.leb_gt _ _) Hlt), (proj2 (Z.leb_gt _ _) Hmax). simpl.
  rewrite Z.ltb_irrefl. simpl. rewrite Hp. simpl. rewrite (stored_read p b Hto). simpl. rewrite Hexp. done.
Qed.

Lemma run_accept t c p b src q expiry w :
  to_vec p = Ok b -> rid <> ""%string -> c <> ""%string -> 0 < expiry -> is_packet_expired p now = false ->
  inbox w !! (d, rid) = None ->
  run ask no_network d (route_packet cfg (mkRouteRequest t b rid src c q expiry)) w =
    (Ok tt, [(d, ProcessInbox (fresh_inbox t c expiry))],
     mkWorld (<[(site_node d, build_packet_key "route-inbox" rid) := b]> (payloads w)) (outbox w)
       (<[(d, rid) := fresh_inbox t c expiry]> (inbox w)) (cursors w) (used w) (trace w)).
Proof.
  intros Hto Hrid Hc He Hexp Hi. unfold route_packet. cbn [rq_payload]. rewrite (stored_read p b Hto). simpl.
  unfold handle_route_from_other_node. simpl. rewrite decide_False by done. simpl. rewrite Hexp, decide_False by done. simpl. rewrite Hi. simpl.
  unfold serialize_stored_packet. rewrite Hto. simpl. by rewrite (proj2 (Z.ltb_lt _ _) He).
Qed.

Definition fresh_outbox (t : string) (src n : NodeId) (c : string) (q expiry : Z) : RouteOutboxItem :=
  mkOutboxItem rid t src n c q (build_packet_key "route-outbox" rid) now 0 expiry.

Lemma run_dispatch s t src n c q p b expiry w :
  to_vec p = Ok b -> payloads w !! (site_node s, build_packet_key "route-outbox" rid) = Some b ->
  is_packet_expired p now = false -> now < expiry -> 0 < expiry -> 0 < max_retry_count cfg ->
  rid <> ""%string -> c <> ""%string -> inbox w !! (d, rid) = None ->
  run ask calls_to s (job_program cfg (DispatchOutbox (fresh_outbox t src n c q expiry))) w =
    (tt, [(d, ProcessInbox (fresh_inbox t c expiry))],
     mkWorld (delete (site_node s, build_packet_key "route-outbox" rid)
                (<[(site_node d, build_packet_key "route-inbox" rid) := b]> (payloads w)))
       (delete (s, rid) (outbox w)) (<[(d, rid) := fresh_inbox t c expiry]> (inbox w)) (cursors w) (used w) (trace w)).
Proof.
  intros Hto Hp Hexp Hlt Hpos Hmax Hrid Hc Hi. simpl.
  rewrite (proj2 (Z.leb_gt _ _) Hlt), (proj2 (Z.leb_gt _ _) Hmax). simpl.
  rewrite Z.ltb_irrefl. simpl. rewrite Hp. simpl. rewrite (stored_read p b Hto).
  simpl. rewrite Hexp. unfold serialize_stored_packet. rewrite Hto. simpl.
  unfold calls_to. rewrite (run_accept t c p b) by done. done.
Qed.

Lemma run_enqueue s t n c q p b w :
  to_vec p = Ok b -> now < route_expiry_at p (message_ttl_seconds cfg) now ->
  run ask calls_to s (enqueue_durable_remote_route cfg (site_node s) t n c q p) w =
    (Ok tt, [(s, DispatchOutbox (fresh_outbox t (site_node s) n c q (route_expiry_at p (message_ttl_seconds cfg) now)))],
     mkWorld (<[(site_node s, build_packet_key "route-outbox" rid) := b]> (payloads w))
       (<[(s, rid) := fresh_outbox t (site_node s) n c q (route_expiry_at p (message_ttl_seconds cfg) now)]> (outbox w))
       (inbox w) (cursors w) ({[rid]} ∪ used w) (trace w)).
Proof.
  intros Hto Hlt. unfold enqueue_durable_remote_route. simpl. rewrite (proj2 (Z.leb_gt _ _) Hlt). simpl.
  unfold serialize_stored_packet. by rewrite Hto.
Qed.

Lemma route_expiry_later p ttl :
  0 < ttl -> now + ttl <= u64_max -> is_packet_expired p now = false -> now < route_expiry_at p ttl now.
Proof.
  intros Httl Hov Hexp. unfold route_expiry_at, saturating_add_u64. rewrite Z.min_l by done.
  destruct p; try lia. simpl in Hexp. unfold is_publish_expired in Hexp.
  destruct (pb_expires_at_unix_secs p); [apply Z.leb_gt in Hexp|]; lia.
Qed.

(** C29: in the run in which nothing fails and the tasks of one route run one after another -
    it is stored, sent, taken over by the router of the other node and given to the session,
    with no periodic scan of the outbox or inbox in between -, a QoS 1 or 2 message for a client
    with a non-empty identifier on another node is accepted by its session exactly once; then
    the outbox and both payload stores are as they were, and the receiving router remembers
    the route as completed.  (With a scan in between a copy of the record can be delivered
    again, [RouterDurable.stale_copy_delivers_twice].) *)
Theorem durable_route_arrives s t n c q p w :
  rid <> ""%string -> c <> ""%string ->
  0 <= now -> 0 < message_ttl_seconds cfg -> 0 < max_retry_count cfg -> now + message_ttl_seconds cfg <= u64_max ->
  is_packet_expired p now = false ->
  outbox w !! (s, rid) = None -> inbox w !! (d, rid) = None ->
  payloads w !! (site_node s, build_packet_key "route-outbox" rid) = None ->
  payloads w !! (site_node d, build_packet_key "route-inbox" rid) = None ->
  let '(r, js, w1) := run ask calls_to s (enqueue_durable_remote_route cfg (site_node s) t n c q p) w in
  let '(rest, w2) := drain 2 js w1 in
  r = Ok tt /\ rest = [] /\ trace w2 = trace w ++ [Delivered d rid t c p] /\
  outbox w2 = outbox w /\ payloads w2 = payloads w /\
  exists item, inbox w2 = <[(d, rid) := item]> (inbox w) /\ i_status item = Completed.
Proof.
  intros Hrid Hc Hnow Httl Hmax Hov Hexp Ho Hi Hps Hpd. destruct (serde_roundtrip p) as (b & Hto & _).
  pose proof (route_expiry_later p _ Httl Hov Hexp) as Hlt. rewrite (run_enqueue _ _ _ _ _ _ b) by done.
  cbn [drain]. rewrite (run_dispatch _ _ _ _ _ _ p b) by (done || lia || (simpl; by rewrite lookup_insert_eq)).
  assert ((site_node s, build_packet_key "route-outbox" rid) <> (site_node d, build_packet_key "route-inbox" rid)) as Hne
    by (intros [= ]).
  cbn [app]. rewrite (run_process _ _ p b) by (done || (simpl; by rewrite lookup_delete_ne, lookup_insert_eq)). simpl.
  split_and!; [done..| | |].
  - by rewrite delete_insert_id.
  - rewrite delete_delete, delete_insert_id by (by rewrite lookup_insert_ne). by rewrite delete_insert_id.
  - eexists. by rewrite insert_insert_eq.
Qed.
End Healthy.
End Run.

(** ** Whom a published message is given to

    A run of [Router.route] against a registry and a table of subscriptions that stay as
    they are, where every store, lookup and clock may answer as it likes: what the run hands
    over - to a session of this node, to the outbox, to a task that calls another node - is
    compared with a list of recipients that does not mention the code: the subscribers that
    can be reached, and one member of each shared subscription. *)

(** *** What is handed over *)

(** To a session of this node; to the outbox, with the stored packet; to another node at once. *)
Inductive Handed (Doc : Type) :=
  | ToSession (tenant_id client_id : string) (packet : Packet)
  | ToOutbox (tenant_id : string) (node : NodeId) (client_id : string) (qos : Z) (data : option Doc)
  | ToNode (tenant_id : string) (node : NodeId) (client_id : string) (qos : Z) (packet : Packet).
Arguments ToSession {Doc}.
Arguments ToOutbox {Doc}.
Arguments ToNode {Doc}.

Section Recipients.
Context {Doc : Type} `{Serde Doc Packet, Serde Doc MqttPacketV3}.
Context (dir : Directory) (s : Site) (t : string) (p : Publish) (source : option string).
Implicit Types (m : SubscriptionInfo).

(** The message as a subscriber gets it: at the lower of the two QoS, and with the retain
    flag only where the subscriber asked to see it. *)
Definition granted m : Publish :=
  mkPublish (pb_protocol_version p) (pb_topic_name p) (pb_payload p) (Z.min (pb_qos p) (si_qos m))
    (si_retain_as_published m && pb_retain p) (pb_dup p)
    (if (si_qos m =? 0) && (0 <? pb_qos p) then None else pb_packet_identifier p)
    (pb_properties p) (pb_expires_at_unix_secs p).

(** The subscriber can be reached, and is not a publisher that does not want its own messages. *)
Definition wanted m : bool :=
  reachable_from dir s t m && negb (si_no_local m && bool_decide (source = Some (si_client_identifier m))).

(** How the message gets to [m]. *)
Definition handover m : Handed Doc :=
  let c := si_client_identifier m in
  match owner_entry dir t c with
  | Some e =>
      if node_id e =? site_node s then ToSession t c (PPublish (granted m))
      else if 1 <=? Z.min (pb_qos p) (si_qos m) then
        ToOutbox t (node_id e) c (si_qos m) (match to_vec (PPublish (granted m)) with Ok d => Some d | _ => None end)
      else ToNode t (node_id e) c (si_qos m) (PPublish (granted m))
  | None => ToSession t c (PPublish (granted m))
  end.

Definition direct (subs : list SubscriptionInfo) : list SubscriptionInfo :=
  filter (fun m => si_shared_group m = None /\ wanted m = true) subs.
Definition shared (subs : list SubscriptionInfo) : list SubscriptionInfo :=
  filter (fun m => si_shared_group m <> None /\ wanted m = true) subs.

(** A shared subscription: the share name and the filter. *)
Definition group_of m : option string * string := (si_shared_group m, si_topic_filter m).

(** Of every shared subscription in [l], exactly one member. *)
Definition one_per_group (l chosen : list SubscriptionInfo) : Prop :=
  (forall m, m ∈ chosen -> m ∈ l) /\ NoDup (map group_of chosen) /\
  forall m, m ∈ l -> exists m', m' ∈ chosen /\ group_of m' = group_of m.
End Recipients.

Section Once.
Context {Doc : Type} `{Serde Doc Packet, Serde Doc MqttPacketV3}.
Context (cfg : RouteRetryConfig) (dir : Directory) (s : Site) (t : string) (p : Publish) (source : option string).
(** The subscriptions of a topic: in this node's copy of the table, and in the table. *)
Context (local_subs : list Subscription) (all_subs : list SubscriptionInfo).
Implicit Types (m : SubscriptionInfo).
Abbreviation Tr := (list (Call (op Doc) res)).
Abbreviation result A := (prog Doc (outcome RouterActorError A)).
Abbreviation given := (handover (Doc := Doc) dir s t p).

(** The answers: of the registry, the sessions, the table and the cursors as they are, where
    they answer; anything else is answered in any way. *)
#[export] Instance steady : Allowed (op Doc) res := fun o =>
  match o return res o -> Prop with
  | LocalSubscriptions _ _ => fun r => forall l, r = Ok l -> l = local_subs
  | LinearizableSubscriptions _ _ => fun r => forall l, r = Ok l -> l = all_subs
  | LocalSessionMap t c => fun r => r = local_entry dir t c
  | LinearizableSessionMap t c => fun r => forall e, r = Ok e -> e = registry_entry dir t c
  | GetSession t c => fun r => r = live dir t c
  | NextCursor _ len => fun r => ((r : nat) < len)%nat
  | _ => fun _ => True
  end.

(** What a run hands over, in order; [last] is the packet that was stored last. *)
Fixpoint handed (last : option Doc) (tr : Tr) : list (Handed Doc) :=
  match tr with
  | [] => []
  | c :: tr =>
      match c_op c with
      | PayloadPut _ data => handed (Some data) tr
      | DoSend t c p => ToSession t c p :: handed last tr
      | Spawn (DispatchOutbox item) =>
          ToOutbox (o_tenant_id item) (o_dest_node_id item) (o_target_client_id item) (o_target_qos item) last :: handed last tr
      | Spawn (BestEffort t node c q p) => ToNode t node c q p :: handed last tr
      | _ => handed last tr
      end
  end.

(** The messages that expired on their way to the outbox, and the one that was expired from
    the beginning. *)
Definition outlived (c : Call (op Doc) res) : bool :=
  match c_op c with Dropped (RouteExhausted _ _ _ _) => true | _ => false end.
Definition exhausted (tr : Tr) : nat := length (filter (fun c => outlived c = true) tr).
Definition stale (tr : Tr) : Prop := exists now, mkCall (R := res) (Dropped (PacketExpired "" (PPublish p) now)) tt ∈ tr.

(** Of [due], a run that returns [r] hands over [got], counts [late] as expired, and leaves
    [missing] only where it fails. *)
Definition accounts {A} (tr : Tr) (r : outcome RouterActorError A) (due : list (Handed Doc)) : Prop :=
  exists got late missing, (forall last, handed last tr = got) /\ exhausted tr = length late /\
    got ++ late ++ missing ≡ₚ due /\ (forall a, r = Ok a -> missing = []).

(** *** Accounting *)

Lemma exhausted_app tr tr' : exhausted (tr ++ tr') = (exhausted tr + exhausted tr')%nat.
Proof. unfold exhausted. by rewrite filter_app, length_app. Qed.

(** The packet that was stored last in [tr]. *)
Fixpoint last_put (last : option Doc) (tr : Tr) : option Doc :=
  match tr with
  | [] => last
  | c :: tr => last_put (match c_op c with PayloadPut _ data => Some data | _ => last end) tr
  end.
Lemma handed_app last tr tr' : handed last (tr ++ tr') = handed last tr ++ handed (last_put last tr) tr'.
Proof.
  revert last. induction tr as [|[o x] tr IH]; intros last; [done|]. cbn [app handed last_put c_op].
  destruct o; try apply IH; try (by rewrite IH). destruct job; rewrite IH; done.
Qed.

Lemma accounts_app {A B} tr1 (a : A) due1 tr2 (r : outcome RouterActorError B) due2 :
  accounts tr1 (Ok a) due1 -> accounts tr2 r due2 -> accounts (tr1 ++ tr2) r (due1 ++ due2).
Proof.
  intros (g1 & l1 & m1 & Hg1 & He1 & Hp1 & Hm1) (g2 & l2 & m2 & Hg2 & He2 & Hp2 & Hm2).
  exists (g1 ++ g2), (l1 ++ l2), m2. split_and!; [|..|done].
  - intros last. by rewrite handed_app, Hg1, Hg2.
  - rewrite exhausted_app, length_app. lia.
  - rewrite <-Hp1, <-Hp2, (Hm1 a), app_nil_r by done. solve_Permutation.
Qed.
Lemma accounts_fails {A B} tr (r : outcome RouterActorError A) (r' : outcome RouterActorError B) due due' :
  accounts tr r due -> (forall b, r' <> Ok b) -> accounts tr r' (due ++ due').
Proof.
  intros (g & l & m & Hg & He & Hp & _) Hr. exists g, l, (m ++ due'). split_and!; [done|done| |by intros a ->; destruct (Hr a)].
  rewrite <-Hp. solve_Permutation.
Qed.
Lemma accounts_quiet {A} tr (r : outcome RouterActorError A) : (forall last, handed last tr = []) -> exhausted tr = 0%nat -> accounts tr r [].
Proof. intros. by exists [], [], []. Qed.
Lemma accounts_missing {A} tr (r : outcome RouterActorError A) due :
  (forall last, handed last tr = []) -> exhausted tr = 0%nat -> (forall a, r <> Ok a) -> accounts tr r due.
Proof. intros Hg He Hr. apply (accounts_fails tr r r [] due); [by apply accounts_quiet|done]. Qed.
Lemma accounts_perm {A} tr (r : outcome RouterActorError A) due due' : due ≡ₚ due' -> accounts tr r due -> accounts tr r due'.
Proof. intros Hd (g & l & m & ? & ? & Hp & ?). exists g, l, m. split_and!; [done..| |done]. by rewrite Hp. Qed.
Lemma accounts_ok {A B} tr (r : outcome RouterActorError A) (r' : outcome RouterActorError B) due :
  accounts tr r due -> (forall b, r' = Ok b -> exists a, r = Ok a) -> accounts tr r' due.
Proof. intros (g & l & m & ? & ? & ? & Hm) Hr. exists g, l, m. split_and!; [done..|]. intros b Hb. destruct (Hr b Hb) as [a Ha]. by eapply Hm. Qed.

Lemma accounts_attempt {A B} (q : result A) (f : A -> result B) due1 due2 tr r :
  (forall tr r, runs q tr r -> accounts tr r due1) ->
  (forall a tr r, runs (f a) tr r -> accounts tr r due2) ->
  runs (attempt q f) tr r -> accounts tr r (due1 ++ due2).
Proof.
  intros Hq Hf [(tr1 & a & tr2 & H1' & H2' & ->)|[Hr Hno]]%runs_attempt_inv.
  - eapply accounts_app; eauto.
  - eapply accounts_fails; eauto.
Qed.

(** *** One subscriber *)

Lemma granted_adjusted m : adjust_publish_for_subscriber p (si_qos m) (si_retain_as_published m) = granted p m.
Proof.
  unfold adjust_publish_for_subscriber, granted. replace (if si_retain_as_published m then pb_retain p else false)
    with (si_retain_as_published m && pb_retain p) by by destruct si_retain_as_published.
  destruct (Z.leb_spec (si_qos m) (pb_qos p)) as [Hle|Hlt].
  - rewrite Z.min_r by done. destruct (Z.eqb_spec (si_qos m) 0) as [->|]; [|done]. by destruct (0 <? pb_qos p).
  - rewrite Z.min_l by lia. destruct (Z.eqb_spec (si_qos m) 0); [|done]. destruct (Z.ltb_spec 0 (pb_qos p)); [lia|done].
Qed.

Lemma lookup_runs c tr r :
  runs (lookup_session_map t c) tr r ->
  (forall last, handed last tr = []) /\ exhausted tr = 0%nat /\ forall e, r = Ok e -> e = owner_entry dir t c.
Proof.
  unfold lookup_session_map, owner_entry. intros (x & tr' & Hx & -> & Hr). cbn in Hx. subst x.
  destruct (local_entry dir t c) as [e|].
  - destruct Hr as [-> ->]. split_and!; [done..|]. by intros ? [= <-].
  - destruct Hr as (x & tr'' & Hx & -> & [-> ->]). split_and!; [done..|]. intros e He. apply Hx. by destruct x; simplify_eq/=.
Qed.

Lemma enqueue_accounts n c q packet data tr r :
  to_vec packet = data ->
  runs (enqueue_durable_remote_route cfg (site_node s) t n c q packet) tr r ->
  accounts tr r [ToOutbox t n c q (match data with Ok d => Some d | _ => None end)].
Proof.
  intros Hdata (rid & tr1 & _ & -> & now & tr2 & _ & -> & Hr). cbn -[route_expiry_at Z.leb] in Hr.
  destruct (_ <=? now).
  { destruct Hr as (u & tr3 & _ & -> & [-> ->]). by exists [], [ToOutbox t n c q (match data with Ok d => Some d | _ => None end)], []. }
  unfold serialize_packet, serialize_stored_packet in Hr. rewrite Hdata in Hr.
  destruct data as [d|e| |]; try (destruct Hr as [-> ->]; by apply accounts_missing).
  cbn in Hr. destruct Hr as (x & tr3 & _ & -> & Hr).
  destruct x as [[]| | |]; try (destruct Hr as [-> ->]; by apply accounts_missing).
  destruct Hr as (y & tr4 & _ & -> & Hr).
  destruct y as [[]|e| |]; try (destruct Hr as [-> ->]; by apply accounts_missing).
  - destruct Hr as (u & tr5 & _ & -> & [-> ->]). exists [ToOutbox t n c q (Some d)], [], []. split_and!; done.
  - destruct Hr as (u & tr5 & _ & -> & [-> ->]). by apply accounts_missing.
Qed.

Definition due_of m : list (Handed Doc) := if reachable_from dir s t m then [given m] else [].

Lemma deliver_accounts m tr r :
  runs (deliver_to_subscriber cfg (site_node s) t p m) tr r ->
  accounts tr r (due_of m) /\ forall b, r = Ok b -> b = reachable_from dir s t m.
Proof.
  unfold deliver_to_subscriber, due_of, reachable_from, handover. set (c := si_client_identifier m).
  intros [(tr1 & e & tr2 & H1' & H2' & ->)|[Hr Hno]]%runs_attempt_inv; apply lookup_runs in H1' || apply lookup_runs in Hr.
  2:{ destruct Hr as (? & ? & _). split; [by apply accounts_missing|]. intros b ->. by destruct (Hno b). }
  destruct H1' as (Hg & He & Howner). specialize (Howner e eq_refl). subst e.
  cut (accounts tr2 r (if match owner_entry dir t c with Some e => negb (node_id e =? site_node s) || live dir t c | None => false end
    then [given m] else []) /\ forall b, r = Ok b -> b = match owner_entry dir t c with Some e => negb (node_id e =? site_node s) || live dir t c | None => false end).
  { intros [Ha ?]. split; [|done]. eapply (accounts_app tr1 tt []); [by apply accounts_quiet|exact Ha]. }
  unfold handover. fold c. rewrite granted_adjusted in H2'. cbv zeta in H2'.
  destruct (owner_entry dir t c) as [e|]; [|destruct H2' as [-> ->]; split; [by apply accounts_quiet|by intros b [= <-]]].
  destruct (node_id e =? site_node s); cbn [negb orb].
  - destruct H2' as (x & tr3 & Hx & -> & Hr). cbn in Hx. subst x. destruct (live dir t c).
    + destruct Hr as (u & tr4 & _ & -> & [-> ->]). split; [|by intros b [= <-]]. by exists [ToSession t c (PPublish (granted p m))], [], [].
    + destruct Hr as [-> ->]. split; [by apply accounts_quiet|by intros b [= <-]].
  - unfold should_route_durably in H2'. cbn [pb_qos granted] in H2'. destruct (1 <=? Z.min (pb_qos p) (si_qos m)).
    + apply runs_attempt_inv in H2' as [(tr3 & [] & tr4 & Hq & [-> ->] & ->)|[Hr Hno]].
      * rewrite app_nil_r. split; [|by intros b [= <-]]. eapply accounts_ok; [by eapply enqueue_accounts|]. eauto.
      * split; [|by intros b ->; destruct (Hno b)]. eapply accounts_ok; [by eapply enqueue_accounts|]. by intros b ->; destruct (Hno b).
    + destruct H2' as (u & tr4 & _ & -> & [-> ->]). split; [|by intros b [= <-]].
      by exists [ToNode t (node_id e) c (si_qos m) (PPublish (granted p m))], [], [].
Qed.

(** *** The subscribers *)

Lemma own_message m : is_own_message source m = si_no_local m && bool_decide (source = Some (si_client_identifier m)).
Proof.
  unfold is_own_message. destruct si_no_local; [|done]. destruct source as [c|]; cbn; [|by rewrite bool_decide_false].
  apply bool_decide_ext. split; [by intros ->|by intros [= ->]].
Qed.
Lemma wanted_split m : wanted dir s t source m = reachable_from dir s t m && negb (is_own_message source m).
Proof. unfold wanted. by rewrite own_message. Qed.

Lemma accounts_try_each {A} (f : A -> result unit) (due : A -> list (Handed Doc)) l tr r :
  (forall a tr r, runs (f a) tr r -> accounts tr r (due a)) ->
  runs (try_each f l) tr r -> accounts tr r (concat (map due l)).
Proof.
  intros Hf. revert tr r. induction l as [|a l IH]; intros tr r.
  - intros [-> ->]. by apply accounts_quiet.
  - cbn [try_each map concat]. apply accounts_attempt; [apply Hf|]. intros _. apply IH.
Qed.

Lemma normal_accounts subs tr r :
  runs (try_each (fun item => if is_own_message source item then Ret (Ok tt)
          else _ <-? deliver_to_subscriber cfg (site_node s) t p item; Ret (Ok tt)) (normal_subs subs)) tr r ->
  accounts tr r (map given (direct dir s t source subs)).
Proof.
  intros Hr. eapply (accounts_try_each _ (fun m => if is_own_message source m then [] else due_of m)) in Hr.
  - enough (concat (map (fun m => if is_own_message source m then [] else due_of m) (normal_subs subs)) =
      map given (direct dir s t source subs)) as <- by done.
    clear Hr. unfold normal_subs, direct. induction subs as [|m subs IH]; [done|]. rewrite !filter_cons.
    destruct (decide (si_shared_group m = None)) as [Hn|Hn]; [|rewrite decide_False by tauto; done].
    cbn [map concat]. rewrite IH. unfold due_of. pose proof (wanted_split m) as Hw.
    destruct (is_own_message source m); cbn [negb] in Hw; rewrite ?andb_false_r, ?andb_true_r in Hw.
    + by rewrite decide_False by (rewrite Hw; by intros []).
    + rewrite <-Hw. destruct (wanted dir s t source m); [by rewrite decide_True|by rewrite decide_False by (by intros [])].
  - clear. intros m tr r. destruct (is_own_message source m); [intros [-> ->]; by apply accounts_quiet|].
    intros Hr. rewrite <-(app_nil_r (due_of m)). revert Hr. apply accounts_attempt.
    + intros ? ? Hd. by apply deliver_accounts.
    + intros _ ? ? [-> ->]. by apply accounts_quiet.
Qed.

(** *** The shared subscriptions *)

(** A wanted member of the group, or none where there is none. *)
Definition choice (candidates chosen : list SubscriptionInfo) : Prop :=
  (filter (fun m => wanted dir s t source m = true) candidates = [] /\ chosen = []) \/
  exists m, m ∈ candidates /\ wanted dir s t source m = true /\ chosen = [m].
Lemma choice_exists candidates : exists chosen, choice candidates chosen.
Proof.
  unfold choice. destruct (filter _ candidates) as [|m l] eqn:Hf; [by exists []; left|]. exists [m]. right. exists m.
  assert (m ∈ m :: l) as Hin by set_solver. rewrite <-Hf in Hin. by apply list_elem_of_filter in Hin as [? ?].
Qed.

Lemma members_accounts sorted start k n tr r :
  (start < length sorted)%nat -> (k + n = length sorted)%nat ->
  runs (try_members (deliver_to_subscriber cfg (site_node s) t p) sorted start (seq k n)) tr r ->
  let chosen := first_reachable dir s t (drop k (turn start sorted)) in
  accounts tr r (map given (option_list chosen)) /\ forall b, r = Ok b -> b = bool_decide (is_Some chosen).
Proof.
  intros Hs. assert (length (turn start sorted) = length sorted) as Hlen.
  { unfold turn. rewrite length_app, length_drop, length_take. lia. }
  revert k tr r. induction n as [|n IH]; intros k tr r Hk.
  { intros [-> ->]. rewrite drop_ge by lia. split; [by apply accounts_quiet|by intros b [= <-]]. }
  cbn [seq try_members]. rewrite turn_lookup by lia.
  destruct (lookup_lt_is_Some_2 (turn start sorted) k ltac:(lia)) as [m Hm]. rewrite Hm, (drop_S _ _ _ Hm).
  unfold first_reachable. rewrite filter_cons.
  intros [(tr1 & b & tr2 & Hd & Hr & ->)|[Hr Hno]]%runs_attempt_inv.
  - apply deliver_accounts in Hd as [Ha Hb]. specialize (Hb b eq_refl). unfold due_of in Ha. destruct (reachable_from dir s t m).
    + subst b. destruct Hr as [-> ->]. rewrite app_nil_r, decide_True by done. cbn. split; [|by intros b [= <-]].
      by eapply accounts_ok; [exact Ha|eauto].
    + subst b. rewrite decide_False by done. destruct (IH (S k) tr2 r ltac:(lia) Hr) as [Ha2 Hb2]. split; [|done].
      by eapply (accounts_app tr1 _ []).
  - apply deliver_accounts in Hr as [Ha _]. split; [|by intros b ->; destruct (Hno b)]. unfold due_of in Ha.
    destruct (reachable_from dir s t m).
    + rewrite decide_True by done. eapply accounts_ok; [exact Ha|]. by intros b ->; destruct (Hno b).
    + rewrite decide_False by done. by apply (accounts_fails tr _ _ [] _ Ha).
Qed.

Lemma group_accounts key candidates tr r :
  runs (route_group cfg (site_node s) t p source key candidates) tr r ->
  exists chosen, choice candidates chosen /\ accounts tr r (map given chosen).
Proof.
  unfold route_group. set (eligible := filter (fun item => is_own_message source item = false) candidates).
  assert (Hwant : forall m, (m ∈ candidates /\ wanted dir s t source m = true) <-> (m ∈ eligible /\ reachable_from dir s t m = true)).
  { intros m. unfold eligible. rewrite list_elem_of_filter, wanted_split, andb_true_iff, negb_true_iff. tauto. }
  assert (Hnone : (forall m, m ∈ eligible -> reachable_from dir s t m = false) -> choice candidates []).
  { intros Hn. left. split; [|done]. destruct (filter (fun m => wanted dir s t source m = true) candidates) as [|m l] eqn:Hf; [done|].
    assert (m ∈ m :: l) as Hin by set_solver. rewrite <-Hf in Hin. apply list_elem_of_filter in Hin as [Hw Hin].
    destruct (proj1 (Hwant m) (conj Hin Hw)) as [He Hr]. by rewrite (Hn m He) in Hr. }
  clearbody eligible. pose proof (sort_by_client_perm eligible) as Hperm.
  destruct eligible as [|x l]; [intros [-> ->]; exists []; split; [apply Hnone; set_solver|by apply accounts_quiet]|].
  set (sorted := sort_by_client (x :: l)) in *. intros (start & tr1 & Hst & -> & Hr).
  change (start < length sorted)%nat in Hst. cbn [prog_bind] in Hr.
  set (chosen := first_reachable dir s t (turn start sorted)).
  assert (Hsame : forall m, m ∈ turn start sorted <-> m ∈ x :: l).
  { intros m. unfold turn. transitivity (m ∈ take start sorted ++ drop start sorted); [rewrite !elem_of_app; tauto|].
    by rewrite take_drop, Hperm. }
  assert (Hch : choice candidates (option_list chosen)).
  { unfold chosen, first_reachable. destruct (filter _ (turn start sorted)) as [|m l'] eqn:Hf.
    - apply Hnone. intros m Hin%Hsame. destruct (reachable_from dir s t m) eqn:Hm; [|done].
      assert (m ∈ filter (fun m => reachable_from dir s t m = true) (turn start sorted)) as Hbad by by apply list_elem_of_filter.
      by rewrite Hf in Hbad; apply not_elem_of_nil in Hbad.
    - right. exists m. assert (m ∈ m :: l') as Hin by set_solver. rewrite <-Hf in Hin. apply list_elem_of_filter in Hin as [Hm Hin%Hsame].
      destruct (proj2 (Hwant m) (conj Hin Hm)). done. }
  exists (option_list chosen). split; [done|].
  eapply (accounts_app [_] tt [] tr1); [by apply accounts_quiet|].
  apply runs_attempt_inv in Hr as [(tr2 & b & tr3 & Hm & Hr & ->)|[Hm Hno]];
    apply members_accounts in Hm as [Ha Hb]; try done; rewrite drop_0 in Ha; fold chosen in Ha.
  - apply (accounts_perm _ _ (map given (option_list chosen) ++ [])); [by rewrite app_nil_r|]. eapply accounts_app; [exact Ha|].
    destruct b; [destruct Hr as [-> ->]|destruct Hr as (u & tr4 & _ & -> & [-> ->])]; by apply accounts_quiet.
  - eapply accounts_ok; [exact Ha|]. by intros b ->; destruct (Hno b).
Qed.

Lemma choices_exist (l : list (SharedSubscriptionRouteKey * list SubscriptionInfo)) :
  exists mss, Forall2 (fun g => choice g.2) l mss.
Proof.
  induction l as [|g l [mss Hmss]]; [by exists []|]. destruct (choice_exists g.2) as [ms Hms]. exists (ms :: mss). by constructor.
Qed.

Lemma groups_account (l : list (SharedSubscriptionRouteKey * list SubscriptionInfo)) tr r :
  runs (try_each (fun '(key, candidates) => route_group cfg (site_node s) t p source key candidates) l) tr r ->
  exists chosen, Forall2 (fun g => choice g.2) l chosen /\ accounts tr r (map given (concat chosen)).
Proof.
  revert tr r. induction l as [|[key cands] l IH]; intros tr r.
  - intros [-> ->]. exists []. split; [done|]. by apply accounts_quiet.
  - cbn [try_each]. intros [(tr1 & [] & tr2 & Hg & Hr & ->)|[Hg Hno]]%runs_attempt_inv;
      apply group_accounts in Hg as (ms & Hms & Ha).
    + destruct (IH _ _ Hr) as (mss & Hmss & Ha'). exists (ms :: mss). split; [by constructor|]. cbn. rewrite map_app.
      by eapply accounts_app.
    + destruct (choices_exist l) as [mss Hmss].
      exists (ms :: mss). split; [by constructor|]. cbn. rewrite map_app. by eapply accounts_fails.
Qed.

(** *** Grouping *)

Definition key_of m : option SharedSubscriptionRouteKey :=
  (fun g => mkRouteKey t g (si_topic_filter m)) <$> si_shared_group m.

Lemma shared_groups_lookup subs key :
  shared_groups t subs !! key =
  match filter (fun m => key_of m = Some key) subs with [] => None | l => Some l end.
Proof.
  induction subs as [|m subs IH] using rev_ind; [done|]. unfold shared_groups in *. rewrite foldl_app, filter_app. cbn [foldl].
  rewrite filter_cons, filter_nil.
  assert (Hk : key_of m = (fun g => mkRouteKey t g (si_topic_filter m)) <$> si_shared_group m) by done.
  destruct (si_shared_group m) as [g|]; cbn in Hk.
  2:{ rewrite decide_False, app_nil_r by (rewrite Hk; done). apply IH. }
  set (m0 := foldl _ _ subs) in *. unfold push_group. set (k := mkRouteKey t g (si_topic_filter m)) in *.
  destruct (decide (k = key)) as [<-|Hne].
  - rewrite lookup_insert_eq, IH, decide_True by done. by destruct (filter _ subs).
  - rewrite lookup_insert_ne, IH, decide_False, app_nil_r by congruence. done.
Qed.

Lemma group_key m m' : key_of m = key_of m' -> si_shared_group m <> None -> group_of m = group_of m'.
Proof. unfold key_of, group_of. destruct (si_shared_group m), (si_shared_group m'); cbn; intros Hk Hn; try done; injection Hk; congruence. Qed.
Lemma key_group m m' : group_of m = group_of m' -> key_of m = key_of m'.
Proof. unfold key_of, group_of. by intros [= -> ->]. Qed.

Lemma chosen_keys l mss m :
  Forall2 (fun g : SharedSubscriptionRouteKey * list SubscriptionInfo => choice g.2) l mss -> m ∈ concat mss ->
  exists key cands, (key, cands) ∈ l /\ m ∈ cands /\ wanted dir s t source m = true.
Proof.
  induction 1 as [|[key cands] ms l mss Hc Hl IH]; cbn; [by intros ?%not_elem_of_nil|].
  intros [Hin|Hin]%elem_of_app; [|destruct (IH Hin) as (k & c & ? & ? & ?); exists k, c; set_solver].
  destruct Hc as [[_ ->]|(m' & Hm & Hw & ->)]; [by apply not_elem_of_nil in Hin|]. apply list_elem_of_singleton in Hin as ->.
  exists key, cands. set_solver.
Qed.

Lemma chosen_once l mss :
  Forall2 (fun g : SharedSubscriptionRouteKey * list SubscriptionInfo => choice g.2) l mss -> NoDup l.*1 ->
  (forall key cands m, (key, cands) ∈ l -> m ∈ cands -> key_of m = Some key) -> NoDup (map group_of (concat mss)).
Proof.
  induction 1 as [|[key cands] ms l mss Hc Hl IH]; cbn; [constructor|]. intros [Hnew Hnd]%NoDup_cons Hkey.
  rewrite map_app. apply NoDup_app. split_and!.
  - destruct Hc as [[_ ->]|(m & _ & _ & ->)]; [constructor|apply NoDup_singleton].
  - intros g (m & -> & Hm)%list_elem_of_fmap (m' & Heq & Hm')%list_elem_of_fmap.
    destruct Hc as [[_ ->]|(m1 & Hin & _ & ->)]; [by apply not_elem_of_nil in Hm|]. apply list_elem_of_singleton in Hm as ->.
    destruct (chosen_keys _ _ _ Hl Hm') as (k & c & Hkc & Hmc & _). apply Hnew, list_elem_of_fmap. exists (k, c). split; [|done].
    apply key_group in Heq. rewrite (Hkey key cands m1), (Hkey k c m') in Heq by set_solver. cbn. congruence.
  - apply IH; [done|]. intros k c m Hin. apply Hkey. set_solver.
Qed.

Lemma groups_one subs mss :
  Forall2 (fun g => choice g.2) (map_to_list (shared_groups t subs)) mss -> one_per_group (shared dir s t source subs) (concat mss).
Proof.
  intros Hf.
  assert (Hmem : forall key cands m, (key, cands) ∈ map_to_list (shared_groups t subs) -> m ∈ cands -> m ∈ subs /\ key_of m = Some key).
  { intros key cands m Hin%elem_of_map_to_list Hm. rewrite shared_groups_lookup in Hin.
    assert (m ∈ filter (fun m => key_of m = Some key) subs) as [? ?]%list_elem_of_filter; [|done].
    destruct (filter _ subs); [done|]. by injection Hin as ->. }
  split_and!.
  - intros m Hm. destruct (chosen_keys _ _ _ Hf Hm) as (k & c & Hkc & Hmc & Hw). destruct (Hmem k c m Hkc Hmc) as [Hs Hk].
    apply list_elem_of_filter. split; [|done]. split; [|done]. unfold key_of in Hk. by destruct (si_shared_group m).
  - eapply chosen_once; [exact Hf|apply NoDup_fst_map_to_list|]. intros ? ? ? Hin Hm. by apply (Hmem _ _ _ Hin Hm).
  - intros m [[Hs Hw] Hin]%list_elem_of_filter. destruct (key_of m) as [key|] eqn:Hkey; [|unfold key_of in Hkey; by destruct (si_shared_group m)].
    assert (exists cands, (key, cands) ∈ map_to_list (shared_groups t subs) /\ m ∈ cands) as (cands & Hl & Hm).
    { setoid_rewrite elem_of_map_to_list. setoid_rewrite shared_groups_lookup.
      assert (m ∈ filter (fun m => key_of m = Some key) subs) as Hm by by apply list_elem_of_filter.
      destruct (filter _ subs) as [|x l]; [by apply not_elem_of_nil in Hm|]. by exists (x :: l). }
    apply list_elem_of_lookup in Hl as [i Hi]. destruct (Forall2_lookup_l _ _ _ _ _ Hf Hi) as (ms & Hms & Hc). cbn in Hc.
    destruct Hc as [[Hnil _]|(m' & Hm' & _ & ->)].
    + assert (m ∈ filter (fun m => wanted dir s t source m = true) cands) as Hbad by by apply list_elem_of_filter.
      rewrite Hnil in Hbad. by apply not_elem_of_nil in Hbad.
    + exists m'. split.
      * apply list_elem_of_In, in_concat. exists [m']. split; [|by left]. apply list_elem_of_In. by eapply list_elem_of_lookup_2.
      * assert ((key, cands) ∈ map_to_list (shared_groups t subs)) as Hl by by eapply list_elem_of_lookup_2.
        destruct (Hmem _ _ _ Hl Hm') as [_ Hk']. symmetry. apply group_key; congruence.
Qed.

(** *** Theorem *)

(** The subscriptions a message is routed by: those this node's copy of the table knows, or
    the table's where it knows none. *)
Definition matching : list SubscriptionInfo :=
  match local_subs with [] => all_subs | _ => map subscription_info local_subs end.

(** C17: with a registry and a table of subscriptions that stay as they are during the call, and
    whatever the clock, the stores and the lookups answer, routing a publication hands it over
    once for each matching subscription without a share name and once for each shared
    subscription - to one of its members -, where that subscriber can be reached and did not
    refuse its own messages; each at the lower QoS, to its own session here, to the outbox at
    QoS 1 and 2 or to its node at QoS 0.  Nothing else is handed over and nothing twice.
    What is not handed over ([late]) expired on the way and is counted as such; only a call
    that fails, or a message that was expired from the beginning, leaves others out
    ([missing]). *)
Theorem routed_once (tr : Tr) (r : outcome RouterActorError unit) :
  runs (route cfg (site_node s) t (PPublish p) source) tr r ->
  exists chosen late missing,
    one_per_group (shared dir s t source matching) chosen /\
    handed None tr ++ late ++ missing ≡ₚ map given (direct dir s t source matching ++ chosen) /\
    exhausted tr = length late /\ (r = Ok tt -> missing = [] \/ stale tr).
Proof.
  intros Hr.
  enough (exists chosen, one_per_group (shared dir s t source matching) chosen /\
    (stale tr /\ handed None tr = [] /\ exhausted tr = 0%nat \/
     accounts tr r (map given (direct dir s t source matching ++ chosen)))) as (chosen & Hone & [(Hs & Hg & He)|Ha]).
  { exists chosen, [], (map given (direct dir s t source matching ++ chosen)). rewrite Hg. split_and!; [done..|by right]. }
  { destruct Ha as (got & late & missing & Hg & He & Hp & Hm). exists chosen, late, missing. rewrite Hg.
    split_and!; [done..|]. intros ->. left. by eapply Hm. }
  destruct (choices_exist (map_to_list (shared_groups t matching))) as [mss Hany%groups_one].
  assert (Hfail : forall tr, (forall last, handed last tr = []) -> exhausted tr = 0%nat -> (forall u, r <> Ok u) ->
    exists chosen, one_per_group (shared dir s t source matching) chosen /\
      (stale tr /\ handed None tr = [] /\ exhausted tr = 0%nat \/
       accounts tr r (map given (direct dir s t source matching ++ chosen)))).
  { intros tr' Hg He Hno. exists (concat mss). split; [done|]. right. by apply accounts_missing. }
  destruct Hr as (now & tr1 & _ & -> & Hr). cbn [prog_bind] in Hr.
  destruct (is_packet_expired (PPublish p) now).
  { destruct Hr as (u & tr2 & _ & -> & [-> ->]). exists (concat mss). split; [done|]. left. split_and!; [|done..].
    exists now. destruct u. set_solver. }
  apply runs_attempt_inv in Hr as [(tr2 & local & tr3 & Hl & Hr & ->)|[Hl Hno]];
    apply runs_bind_inv in Hl as (tr4 & x & tr5 & (y & tr6 & Hy & -> & [-> ->]) & [-> Hx] & ->); [|by apply Hfail].
  assert (local = local_subs) as -> by (apply Hy; by destruct y; simplify_eq/=).
  apply runs_attempt_inv in Hr as [(tr2 & subs & tr4 & Hl & Hr & ->)|[Hl Hno]].
  2:{ destruct (map subscription_info local_subs); [|by destruct Hl as [_ Hl]; destruct r].
      apply runs_bind_inv in Hl as (? & ? & ? & (z & ? & _ & -> & [-> ->]) & [-> _] & ->). by apply Hfail. }
  assert (subs = matching /\ (forall last, handed last tr2 = []) /\ exhausted tr2 = 0%nat) as (-> & Hg2 & He2).
  { unfold matching. destruct local_subs as [|l0 l]; [|by destruct Hl as [-> [= ->]]].
    apply runs_bind_inv in Hl as (? & ? & ? & (z & ? & Hz & -> & [-> ->]) & [-> Heq] & ->). split_and!; [|done..].
    apply Hz. by destruct z; simplify_eq/=. }
  assert (Hgo : forall tr due, accounts tr r due -> accounts (mkCall (R := res) Now now :: [mkCall (R := res) (LocalSubscriptions t (pb_topic_name p)) y] ++ tr2 ++ tr) r due).
  { intros tr' due Ha. apply (accounts_app [_; _] tt []); [by apply accounts_quiet|].
    apply (accounts_app tr2 tt []); [by apply accounts_quiet|done]. }
  clear Hx. destruct matching as [|m0 subs] eqn:Hsubs.
  { destruct Hr as (u & tr5 & _ & -> & [-> ->]). exists []. split; [split_and!; [done|constructor|by intros m ?%not_elem_of_nil]|].
    right. rewrite <-app_assoc. apply Hgo. by apply accounts_quiet. }
  rewrite <-Hsubs in *.
  apply runs_attempt_inv in Hr as [(tr5 & [] & tr6 & Hn & Hgr & ->)|[Hn Hno]]; apply normal_accounts in Hn.
  - apply groups_account in Hgr as (mss' & Hf%groups_one & Ha). exists (concat mss'). split; [done|]. right.
    rewrite <-app_assoc. apply Hgo. rewrite map_app. by eapply accounts_app.
  - exists (concat mss). split; [done|]. right. rewrite <-app_assoc. apply Hgo. rewrite map_app. by eapply accounts_fails.
Qed.
End Once.

(** ** Examples *)

Module SampleRun.
Import Router.Plain.

Definition one : Site := mkSite 1 0.
Definition two : Site := mkSite 2 0.
Definition note : Publish := mkPublish V5_0 "t" [104] 1 false false (Some 7) default_properties None.
(** A subscriber, the publisher itself, and two members of a group. *)
Definition subscribers : list Subscription :=
  [mkSubscription "a" 0 false false None "t"; mkSubscription "me" 1 true false None "t";
   mkSubscription "g2" 1 false false (Some "g"%string) "t"; mkSubscription "g1" 1 false false (Some "g"%string) "t"].
Definition members : list SubscriptionInfo := map subscription_info (drop 2 subscribers).
(** One client is registered nowhere; the others run on node 1. *)
Definition everyone (absent : string) : Directory :=
  mkDirectory (fun _ c => if decide (c = absent) then None else Some (mkMapEntry 1 (mkInstance 5) 1000))
    (fun _ _ => None) (fun _ _ => true).
Definition replies (absent : string) (w : World Packet) (o : op Packet) : Answer :=
  mkAnswer None None 100 "r" (Some "b"%string) true (Ok subscribers) []
    (match o with LocalSessionMap t c => local_entry (everyone absent) t c | _ => None end) [].
Definition group : SharedSubscriptionRouteKey := mkRouteKey "public" "g" "t".
End SampleRun.

Import Router.Plain SampleRun.

Lemma sample_answers absent : answers (replies absent) (everyone absent).
Proof. intros w t c. split_and!; reflexivity. Qed.

Lemma shared_members_take_turns_witness :
  exists w' recv,
    run (replies "nobody") no_network one
      (try_each (fun p => route_group default_retry_config 1 "public" p None group members) [note; note])
      empty_world = (Ok tt, [], w') /\
    recv ≡ₚ members /\ trace w' = zip_with (sent_to one "public") [note; note] recv.
Proof.
  apply (shared_members_take_turns default_retry_config (replies "nobody") no_network (everyone "nobody") one "public"
    None group members [note; note] empty_world); [apply sample_answers| |discriminate|reflexivity].
  repeat constructor; eexists; (split; [reflexivity|split; reflexivity]).
Defined.

Lemma durable_route_arrives_witness :
  let '(r, js, w1) := run (fun _ _ => healthy_answer 100 "r" "b") (calls_to default_retry_config 100 "r" "b" two) one
    (enqueue_durable_remote_route default_retry_config 1 "public" 2 "c" 1 (PPublish note)) empty_world in
  let '(rest, w2) := drain default_retry_config 100 "r" "b" two 2 js w1 in
  r = Ok tt /\ rest = [] /\ trace w2 = [Delivered two "r" "public" "c" (PPublish note)] /\
  outbox w2 = ∅ /\ payloads w2 = ∅ /\
  exists item, inbox w2 = <[(two, "r"%string) := item]> ∅ /\ i_status item = Completed.
Proof.
  apply (durable_route_arrives default_retry_config 100 "r" "b" two one "public" 2 "c" 1 (PPublish note) empty_world);
    first [discriminate | reflexivity | vm_compute; discriminate].
Defined.

Module OnceSample.
Import Router.Plain SampleRun.

(** [a] and the members of the group but [g1] run on node 1; the publisher [me] refused its own
    messages. *)
Abbreviation step o x := (mkCall (O := op Packet) (R := res) o x).
Abbreviation entry := (Some (mkMapEntry 1 (mkInstance 5) 1000)).
Definition routing : list (Call (op Packet) res) :=
  [step Now 100;
   step (LocalSubscriptions "public" "t") (Ok subscribers);
   step (LocalSessionMap "public" "a") entry;
   step (GetSession "public" "a") true;
   step (DoSend "public" "a" (PPublish (mkPublish V5_0 "t" [104] 0 false false None default_properties None))) tt;
   step (NextCursor group 2) 0%nat;
   step (LocalSessionMap "public" "g1") None;
   step (LinearizableSessionMap "public" "g1") (Ok None);
   step (LocalSessionMap "public" "g2") entry;
   step (GetSession "public" "g2") true;
   step (DoSend "public" "g2" (PPublish note)) tt].

Ltac next_call :=
  eexists; eexists; split; [|split; [vm_compute; reflexivity|]];
    [first [exact I | reflexivity | intros ? [= <-]; reflexivity | apply Nat.ltb_lt; reflexivity]|].
Lemma routing_runs :
  runs (H := steady (everyone "g1") subscribers [])
    (route default_retry_config 1 "public" (PPublish note) (Some "me"%string)) routing (Ok tt).
Proof.
  unfold route, routing. apply (runs_bind (call Now) _ [_] 100 (_ :: _ :: _)); [by exists 100, []|].
  change (is_packet_expired (PPublish note) 100) with false. cbv iota zeta beta.
  apply (runs_attempt _ _ [_] subscribers); [exists (Ok subscribers), []; split; [by intros ? [= <-]|done]|]. cbv beta.
  apply (runs_attempt _ _ [] (map subscription_info subscribers)); [done|].
  change (map subscription_info subscribers) with (map subscription_info (take 2 subscribers) ++ members) at 1.
  assert (Hg : map_to_list (shared_groups "public" (map subscription_info subscribers)) = [(group, members)])
    by (vm_compute; reflexivity).
  rewrite Hg. apply (runs_attempt _ _ [_; _; _] tt).
  - do 3 next_call. split; reflexivity.
  - do 6 next_call. split; reflexivity.
Qed.

Lemma routed_once_witness :
  runs (H := steady (everyone "g1") subscribers [])
    (route default_retry_config 1 "public" (PPublish note) (Some "me"%string)) routing (Ok tt) /\
  length (handed None routing) = 2%nat /\
  exists chosen late missing,
    one_per_group (shared (everyone "g1") one "public" (Some "me"%string) (matching subscribers [])) chosen /\
    handed None routing ++ late ++ missing ≡ₚ
      map (handover (everyone "g1") one "public" note)
        (direct (everyone "g1") one "public" (Some "me"%string) (matching subscribers []) ++ chosen) /\
    exhausted routing = length late /\ (Ok tt = Ok tt :> outcome RouterActorError unit -> missing = [] \/ stale note routing).
Proof.
  split; [apply routing_runs|]. split; [reflexivity|].
  apply (routed_once default_retry_config (everyone "g1") one "public" note (Some "me"%string) subscribers [] routing (Ok tt)).
  apply routing_runs.
Defined.
End OnceSample.
