(* ===== verification/SessionActor.v ===== *)
(** * The session actor ([broker/src/session/session_actor.rs])

    A session actor serves one client: it takes the packets its connection receives,
    routes what the client publishes, and delivers what is routed to the client,
    keeping the messages of QoS 1 and 2 in an in-flight table until they are
    acknowledged.

    The actor handles one message at a time.  The synchronous part of a handler is a
    [turn]: it changes the fields of the actor and leaves effects, among them futures
    that the actor waits for ([ctx.wait], nothing else of the actor runs meanwhile) or
    that run beside it ([ctx.spawn]).  A future is a program ([Program]) whose result is
    the turn of its continuation ([.map], [.then]).  The in-flight table and the
    subscriptions are behind a lock that the futures take; a guard may be held over an
    awaited call.  [SessionRuntime] runs turns and futures as the actor runtime does. *)

From S2P Require Import Prelude Program Utf8 Packet Inflight MessageExpiry TopicFilter TopicStorage SessionState RaftSession RaftLog V3Codec V3Convert Router MqttProperties.

#[local] Open Scope Z_scope.

(** ** Data *)

Record WillMessage := mkWill {
  will_topic : string;
  will_message : bytes;
  will_qos : Z;
  will_retain : bool;
  will_protocol_version : ProtocolVersion;
  will_properties : Properties;
}.

Inductive ActivityState := Active | Inactive.
#[export] Instance ActivityState_eq_dec : EqDecision ActivityState.
Proof. solve_decision. Defined.

Record DeferredOutboundPublish := mkDeferred { d_publish : Publish; d_registered : bool }.

(** [SessionMetrics]; a time of 0 is none. *)
Record SessionMetrics := mkMetrics {
  m_ip_address : option string;
  m_connected : bool;
  m_connected_at : Z;
  m_created_at : Z;
  m_disconnected_at : Z;
  m_messages_received : Z;
  m_messages_sent : Z;
}.
Definition new_metrics (now : Z) : SessionMetrics := mkMetrics None true 0 now 0 0 0.
Definition set_connected (now : Z) (ip_address : string) (m : SessionMetrics) : SessionMetrics :=
  mkMetrics (Some ip_address) true now (m_created_at m) 0 (m_messages_received m) (m_messages_sent m).
Definition set_disconnected (now : Z) (m : SessionMetrics) : SessionMetrics :=
  mkMetrics None false 0 (m_created_at m) now (m_messages_received m) (m_messages_sent m).
Definition increase_messages_received (m : SessionMetrics) : SessionMetrics :=
  mkMetrics (m_ip_address m) (m_connected m) (m_connected_at m) (m_created_at m) (m_disconnected_at m)
    ((m_messages_received m + 1) mod (u64_max + 1)) (m_messages_sent m).
Definition increase_messages_sent (m : SessionMetrics) : SessionMetrics :=
  mkMetrics (m_ip_address m) (m_connected m) (m_connected_at m) (m_created_at m) (m_disconnected_at m)
    (m_messages_received m) ((m_messages_sent m + 1) mod (u64_max + 1)).
Definition get_connected_at (m : SessionMetrics) : option Z :=
  if m_connected_at m =? 0 then None else Some (m_connected_at m).
Definition get_disconnected_at (m : SessionMetrics) : option Z :=
  if m_disconnected_at m =? 0 then None else Some (m_disconnected_at m).

(** [SessionActor].  A connection is its number; the peer's address is set when the
    actor is made and never cleared. *)
Record SessionActor := mkActor {
  ac_tenant_id : string;
  ac_client_id : string;
  ac_clean_session : bool;
  ac_protocol_version : ProtocolVersion;
  ac_session_expiry_interval : option Z;
  ac_receive_maximum : Z;
  ac_slots : nat;                           (* outbound_receive_slots_in_use *)
  ac_deferred : list DeferredOutboundPublish;
  ac_username : option string;
  ac_will_message : option WillMessage;
  ac_activity_state : ActivityState;
  ac_conn : option Z;                       (* conn_recipient *)
  ac_conn_addr : string;
  ac_keep_alive : Z;
  ac_keep_alive_expired : bool;
  ac_inflight_retry_interval : Z;
  ac_payload_store : bool;
  ac_instance_id : Z;
  ac_metrics : SessionMetrics;
}.

Definition with_slots (n : nat) (a : SessionActor) : SessionActor :=
  mkActor (ac_tenant_id a) (ac_client_id a) (ac_clean_session a) (ac_protocol_version a)
    (ac_session_expiry_interval a) (ac_receive_maximum a) n (ac_deferred a) (ac_username a) (ac_will_message a)
    (ac_activity_state a) (ac_conn a) (ac_conn_addr a) (ac_keep_alive a) (ac_keep_alive_expired a)
    (ac_inflight_retry_interval a) (ac_payload_store a) (ac_instance_id a) (ac_metrics a).
Definition with_deferred (l : list DeferredOutboundPublish) (a : SessionActor) : SessionActor :=
  mkActor (ac_tenant_id a) (ac_client_id a) (ac_clean_session a) (ac_protocol_version a)
    (ac_session_expiry_interval a) (ac_receive_maximum a) (ac_slots a) l (ac_username a) (ac_will_message a)
    (ac_activity_state a) (ac_conn a) (ac_conn_addr a) (ac_keep_alive a) (ac_keep_alive_expired a)
    (ac_inflight_retry_interval a) (ac_payload_store a) (ac_instance_id a) (ac_metrics a).
Definition with_expiry (e : option Z) (a : SessionActor) : SessionActor :=
  mkActor (ac_tenant_id a) (ac_client_id a) (ac_clean_session a) (ac_protocol_version a) e (ac_receive_maximum a)
    (ac_slots a) (ac_deferred a) (ac_username a) (ac_will_message a) (ac_activity_state a) (ac_conn a)
    (ac_conn_addr a) (ac_keep_alive a) (ac_keep_alive_expired a) (ac_inflight_retry_interval a)
    (ac_payload_store a) (ac_instance_id a) (ac_metrics a).
Definition with_will (w : option WillMessage) (a : SessionActor) : SessionActor :=
  mkActor (ac_tenant_id a) (ac_client_id a) (ac_clean_session a) (ac_protocol_version a)
    (ac_session_expiry_interval a) (ac_receive_maximum a) (ac_slots a) (ac_deferred a) (ac_username a) w
    (ac_activity_state a) (ac_conn a) (ac_conn_addr a) (ac_keep_alive a) (ac_keep_alive_expired a)
    (ac_inflight_retry_interval a) (ac_payload_store a) (ac_instance_id a) (ac_metrics a).
Definition with_activity (s : ActivityState) (a : SessionActor) : SessionActor :=
  mkActor (ac_tenant_id a) (ac_client_id a) (ac_clean_session a) (ac_protocol_version a)
    (ac_session_expiry_interval a) (ac_receive_maximum a) (ac_slots a) (ac_deferred a) (ac_username a)
    (ac_will_message a) s (ac_conn a) (ac_conn_addr a) (ac_keep_alive a) (ac_keep_alive_expired a)
    (ac_inflight_retry_interval a) (ac_payload_store a) (ac_instance_id a) (ac_metrics a).
Definition with_keep_alive_expired (b : bool) (a : SessionActor) : SessionActor :=
  mkActor (ac_tenant_id a) (ac_client_id a) (ac_clean_session a) (ac_protocol_version a)
    (ac_session_expiry_interval a) (ac_receive_maximum a) (ac_slots a) (ac_deferred a) (ac_username a)
    (ac_will_message a) (ac_activity_state a) (ac_conn a) (ac_conn_addr a) (ac_keep_alive a) b
    (ac_inflight_retry_interval a) (ac_payload_store a) (ac_instance_id a) (ac_metrics a).
Definition with_metrics (m : SessionMetrics) (a : SessionActor) : SessionActor :=
  mkActor (ac_tenant_id a) (ac_client_id a) (ac_clean_session a) (ac_protocol_version a)
    (ac_session_expiry_interval a) (ac_receive_maximum a) (ac_slots a) (ac_deferred a) (ac_username a)
    (ac_will_message a) (ac_activity_state a) (ac_conn a) (ac_conn_addr a) (ac_keep_alive a)
    (ac_keep_alive_expired a) (ac_inflight_retry_interval a) (ac_payload_store a) (ac_instance_id a) m.

Inductive SessionActorError :=
  | PluginExecutionError (e : string)
  | ConnectionActorError (e : string)
  | ConnectionNotSet
  | DeliveryError (e : string).

Inductive HandlePublishError :=
  | PacketIdNotExist
  | HPayloadStoreError (e : string)
  | RouteError (e : string).

Inductive DisconnectReason := NormalDisconnect | KeepAliveTimeout | RateLimited | InternalError (e : string).

Inductive SessionLifecycleMessage :=
  | SessionStarted
  | SessionActivate
  | SessionDeactivate
  | SessionStopped (tenant_id client_id : string) (session_instance_id : Z).

(** Messages to the timer actor; durations are in seconds. *)
Inductive TimerType := TimerInflight | TimerKeepAlive.
Inductive TimerMessage :=
  | RegisterKeepAlive (keep_alive : Z)
  | RegisterInflight (inflight_retry_duration : Z)
  | RemoveTimer (timer_type : TimerType)
  | RefreshTimer (timer_type : TimerType).

Record Reconnection := mkReconnection {
  rc_conn : Z;
  rc_keep_alive : Z;
  rc_clean_session : bool;
  rc_protocol_version : ProtocolVersion;
  rc_session_expiry_interval : option Z;
  rc_receive_maximum : Z;
  rc_username : option string;
  rc_will_message : option WillMessage;
  rc_socket_addr : string;
}.

(** [SessionActorMessage], and the two messages with types of their own;
    [AcceptRoutedPublish] carries the number of its reply. *)
Inductive SessionActorMessage :=
  | InboundPacket (packet : Packet)
  | OutboundMessage (packet : Packet)
  | KeepAliveExpired
  | InflightRetry
  | ForceDisconnect
  | Reconnect (r : Reconnection)
  | UnexpectClientDisconnected
  | ClientDisconnected
  | ForceStop
  | AcceptRoutedPublish (packet : Packet) (reply : Z)
  | AllInflightRetryImmediate.

(** ** Plugins *)

Inductive AuthAction := AuthPublish | AuthSubscribe.
Record AuthorizeRequest := mkAuthorizeRequest {
  ar_tenant_id : string;
  ar_client_id : string;
  ar_username : string;
  ar_action : AuthAction;
  ar_topic : string;
  ar_qos : Z;
  ar_context : option Struct;
}.
Record AuthorizeResult := mkAuthorizeResult { authorized : bool; az_reason : option string }.

Record MqttMessage := mkMqttMessage {
  mm_tenant_id : string;
  mm_client_id : string;
  mm_topic : string;
  mm_payload : bytes;
  mm_qos : Z;
  mm_retain : bool;
  mm_dup : bool;
  mm_properties : option Struct;
}.
Record MessagePublishResult := mkPublishResult {
  pr_allow : bool;
  pr_modified_message : option MqttMessage;
  pr_error_reason : option string;
}.
Record PluginTopicFilter := mkPluginFilter { tf_topic : string; tf_qos : Z; tf_options : option Struct }.
Record SubscribeResultItem := mkSubscribeItem { sr_topic : string; sr_allowed : bool; sr_granted_qos : Z }.

(** [Client]: what the plugins are told of a client. *)
Record Client := mkClient {
  cl_tenant_id : string;
  cl_client_identifier : string;
  cl_username : option string;
  cl_clean_session : bool;
  cl_will_retain : bool;
  cl_will_topic : option string;
  cl_will_message : option bytes;
  cl_socket_addr : string;
}.

(** ** Futures and effects *)

(** [OutboundPublishDeliveryContext]; the session state and the services are those of
    the actor. *)
Record DeliveryContext := mkContext {
  cx_tenant_id : string;
  cx_client_id : string;
  cx_clean_session : bool;
  cx_protocol_version : ProtocolVersion;
  cx_activity_state : ActivityState;
  cx_payload_store : bool;
  cx_conn : option Z;
  cx_defer_delivery : bool;
}.

(** What follows on the will message. *)
Inductive AfterWill := ThenKeepAliveExpired | ThenFinishDisconnect.

(** The futures of the actor, with what they capture. *)
Inductive Future :=
  | FStarted (a : SessionActor)
  | FPopOffline (a : SessionActor)
  | FPublish (publish : Publish) (client : Client) (clean_session payload_store : bool)
  | FSubscribe (packet : Subscribe) (client : Client) (conn : Z) (clean_session : bool)
  | FUnsubscribe (packet : Unsubscribe) (client : Client) (conn : Z) (clean_session : bool)
  | FPubrel (packet : Ack) (client : Client) (conn : Z) (clean_session payload_store : bool)
  | FPubrec (packet : Ack) (client : Client) (conn : Z) (clean_session : bool)
  | FPuback (packet : Ack) (client : Client) (clean_session payload_store : bool)
  | FPubcomp (packet : Ack) (client : Client) (clean_session payload_store : bool)
  | FDeliver (publish : Publish) (context : DeliveryContext) (reserved : bool) (reply : option Z)
  | FDeferred (deferred : DeferredOutboundPublish) (context : DeliveryContext) (reserved : bool)
  | FConnectionState (tenant_id client_id : string) (disconnected_at update : option Z)
  | FLifecycle (message : SessionLifecycleMessage)
  | FStopped (message : SessionLifecycleMessage)
  | FDeleteState (tenant_id client_id : string)
  | FDisconnectedHook (tenant_id client_id : string)
  | FProtocolError (conn : Z) (reason_code : ReasonCode)
  | FWill (tenant_id : string) (will : option WillMessage) (after : AfterWill)
  | FRetry (context : DeliveryContext) (deferred_packet_ids : list Z)
  | FRetryAll (context : DeliveryContext)
  | FForceDisconnect (conn : Z)
  | FReconnect (a : SessionActor)
  | FCleanup (payload_store : bool)
  | FRaftCleanup (tenant_id client_id : string).

(** What the synchronous code leaves to the runtime: messages to the connection, to the
    timers and to the actor itself, replies, futures ([Detach] is [actix::spawn], which
    does not belong to the actor), and the end of the actor. *)
Inductive Effect :=
  | WriteTo (conn : Z) (packet : Packet)
  | Close (conn : Z) (reason : DisconnectReason)
  | Timer (message : TimerMessage)
  | ToSelf (message : SessionActorMessage)
  | Complete (reply : Z) (r : outcome SessionActorError unit)
  | WaitFor (f : Future)
  | SpawnFuture (f : Future)
  | Detach (f : Future)
  | StopContext.

(** Synchronous code; the clock, in milliseconds, is an argument. *)
Definition turn : Type := Z -> SessionActor -> SessionActor * list Effect.
Definition nothing : turn := fun _ a => (a, []).
Definition emit (e : Effect) : turn := fun _ a => (a, [e]).
Definition modify (f : SessionActor -> SessionActor) : turn := fun _ a => (f a, []).
Definition andthen (t u : turn) : turn := fun now a =>
  let '(a, es) := t now a in let '(a, es') := u now a in (a, es ++ es').
Definition with_self (f : SessionActor -> turn) : turn := fun now a => f a now a.
Definition with_clock (f : Z -> turn) : turn := fun now a => f now now a.
Definition unix_secs (now : Z) : Z := now / 1000.

Declare Scope turn_scope.
Delimit Scope turn_scope with turn.
Infix ">>>" := andthen (at level 60, right associativity) : turn_scope.
#[local] Open Scope turn_scope.

(** ** Operations of the futures *)

(** What the session group answers: [Existed] is the error of a packet identifier in
    use, the others are their messages. *)
Inductive RaftFailure := Existed | RaftFailed (e : string).
(** What comes of a message to the connection when it is waited for. *)
Inductive MailboxResult := Answered | MailboxClosed | MailboxTimeout.

Inductive sop (Doc : Type) :=
  | SNow
  | SUuid
  | SPut (key : string) (data : Doc)
  | SGet (key : string)
  | SDelete (key : string)
  | Lock
  | Unlock
  | State (held : bool) (A : Type) (f : Z -> SessionState -> A * SessionState)
  | Raft (request : SessionStateRequest)
  | Authorize (request : AuthorizeRequest)
  | OnMessagePublish (message : MqttMessage)
  | OnMessageSubscribe (client_id : string) (subscriptions : list PluginTopicFilter)
  | MessagePublished (message : MqttMessage)
  | ClientDisconnectedHook (tenant_id client_id reason : string)
  | TopicSubscribe (tenant_id client_id topic : string) (qos : Z) (no_local retain_as_published : bool)
  | TopicUnsubscribe (tenant_id client_id topic : string)
  | CleanRetain (tenant_id topic : string)
  | RegisterRetain (tenant_id client_id : string) (packet : Packet)
  | GetRetained (tenant_id filter : string)
  | RouteSend (tenant_id : string) (packet : Packet) (source : option string)
  | RouteDoSend (tenant_id : string) (packet : Packet) (source : option string)
  | ConnSend (conn : Z) (packet : Packet)
  | ConnDoSend (conn : Z) (packet : Packet)
  | ConnDisconnect (conn : Z) (reason : DisconnectReason)
  | Lifecycle (message : SessionLifecycleMessage)
  | SelfSend (message : SessionActorMessage)
  | DetachFuture (f : Future).
Arguments SNow {Doc}.
Arguments SUuid {Doc}.
Arguments SPut {Doc}.
Arguments SGet {Doc}.
Arguments SDelete {Doc}.
Arguments Lock {Doc}.
Arguments Unlock {Doc}.
Arguments State {Doc}.
Arguments Raft {Doc}.
Arguments Authorize {Doc}.
Arguments OnMessagePublish {Doc}.
Arguments OnMessageSubscribe {Doc}.
Arguments MessagePublished {Doc}.
Arguments ClientDisconnectedHook {Doc}.
Arguments TopicSubscribe {Doc}.
Arguments TopicUnsubscribe {Doc}.
Arguments CleanRetain {Doc}.
Arguments RegisterRetain {Doc}.
Arguments GetRetained {Doc}.
Arguments RouteSend {Doc}.
Arguments RouteDoSend {Doc}.
Arguments ConnSend {Doc}.
Arguments ConnDoSend {Doc}.
Arguments ConnDisconnect {Doc}.
Arguments Lifecycle {Doc}.
Arguments SelfSend {Doc}.
Arguments DetachFuture {Doc}.

Definition sres {Doc} (o : sop Doc) : Type :=
  match o with
  | SNow => Z
  | SUuid => string
  | SGet _ => io (option Doc)
  | SPut _ _ | SDelete _ => io unit
  | State _ A _ => A
  | Raft _ => outcome RaftFailure SessionStateResponse
  | Authorize _ => io AuthorizeResult
  | OnMessagePublish _ => io MessagePublishResult
  | OnMessageSubscribe _ _ => io (list SubscribeResultItem)
  | TopicSubscribe _ _ _ _ _ _ | TopicUnsubscribe _ _ _ | CleanRetain _ _ | RegisterRetain _ _ _ => io unit
  | GetRetained _ _ => io (list Packet)
  | RouteSend _ _ _ => io unit
  | ConnSend _ _ => io (io unit)
  | ConnDisconnect _ _ => MailboxResult
  | Lifecycle _ => io unit
  | Lock | Unlock | MessagePublished _ | ClientDisconnectedHook _ _ _ | RouteDoSend _ _ _ | ConnDoSend _ _
  | SelfSend _ | DetachFuture _ => unit
  end.

Abbreviation sprog Doc := (Program.prog (sop Doc) sres).
Definition ask {Doc} (o : sop Doc) : sprog Doc (sres o) := invoke o.

(** A statement that takes the lock, and one under a guard that is held. *)
Definition locked {Doc A} (f : Z -> SessionState -> A * SessionState) : sprog Doc A := ask (State false A f).
Definition inside {Doc A} (f : Z -> SessionState -> A * SessionState) : sprog Doc A := ask (State true A f).
(** A guard held over a block. *)
Definition guarded {Doc A} (p : sprog Doc A) : sprog Doc A :=
  _ ← ask Lock; r ← p; _ ← ask Unlock; Ret r.

(** Access to the parts of the session state. *)
Definition on_inflight {A} (f : Z -> Inflight -> A * Inflight) (now : Z) (s : SessionState) : A * SessionState :=
  let '(x, i) := f now (inflight s) in (x, set_inflight i s).
Definition reading {A} (f : SessionState -> A) (_ : Z) (s : SessionState) : A * SessionState := (f s, s).
Definition updating (f : SessionState -> SessionState) (_ : Z) (s : SessionState) : unit * SessionState := (tt, f s).

Definition try_register_tx (packet_id qos : Z) (key : string) (now : Z) (i : Inflight)
    : outcome InflightError unit * Inflight :=
  match register_with_tx_packet now packet_id qos key i with
  | Ok (_, i') => (Ok tt, i')
  | Err e => (Err e, i)
  | Panic => (Panic, i)
  | OutOfFuel => (OutOfFuel, i)
  end.
Definition register_rx (packet_id qos : Z) (key : string) (now : Z) (i : Inflight) : unit * Inflight :=
  (tt, (register_with_rx_packet now packet_id qos key i).2).
Definition set_unstarted (id : Z) (i : Inflight) : Inflight :=
  match inner i !! id with
  | Some it => set_inner (<[id := set_delivery_started false it]> (inner i)) i
  | None => i
  end.

(** ** Small functions *)

Definition ack_with_reason (packet_identifier : Z) (reason_code : ReasonCode) : Ack :=
  mkAck V3_1_1 packet_identifier reason_code default_properties.
Definition success_ack (packet_identifier : Z) : Ack := ack_with_reason packet_identifier RcSuccess.

Definition inbound_publish_ack (publish : Publish) (reason_code : ReasonCode) : option Packet :=
  packet_identifier ← pb_packet_identifier publish;
  if pb_qos publish =? 1 then Some (PPuback (ack_with_reason packet_identifier reason_code))
  else if pb_qos publish =? 2 then Some (PPubrec (ack_with_reason packet_identifier reason_code))
  else None.
Definition inbound_publish_success_ack (publish : Publish) : option Packet := inbound_publish_ack publish RcSuccess.

Definition updated_session_expiry_interval (current requested : option Z) : outcome ReasonCode (option Z) :=
  let updated := match requested with Some r => Some r | None => current end in
  match current, requested with
  | Some c, Some r => if c <? r then Err RcProtocolError else Ok updated
  | _, _ => Ok updated
  end.

Definition granted_qos_reason (qos : Z) : ReasonCode :=
  match qos with
  | 0 => RcGrantedQos0
  | 1 => RcGrantedQos1
  | 2 => RcGrantedQos2
  | _ => RcUnspecifiedError
  end.

Definition subscribe_precheck_reason (topic_filter : string) : option ReasonCode :=
  match strip_prefix "$share/" topic_filter with
  | Some _ =>
      match parse_shared_subscription_filter topic_filter with
      | Err _ => Some RcTopicFilterInvalid
      | _ => None
      end
  | None => None
  end.

Definition authorization_failure_reason (r : AuthorizeResult) : option ReasonCode :=
  if authorized r then None else Some RcNotAuthorized.

Definition build_will_publish (w : WillMessage) (now : Z) : Publish :=
  stamp_publish_expiry
    (mkPublish (will_protocol_version w) (will_topic w) (will_message w) (will_qos w) (will_retain w) false None
       (set_will_delay_interval None (will_properties w)) None) now.

Definition as_qos_u8 (q : QoS) : Z := match q with AtMostOnce => 0 | AtLeastOnce => 1 | ExactlyOnce => 2 end.

(** Assignments to a field of a PUBLISH. *)
Definition with_identifier (id : option Z) (p : Publish) : Publish :=
  mkPublish (pb_protocol_version p) (pb_topic_name p) (pb_payload p) (pb_qos p) (pb_retain p) (pb_dup p) id
    (pb_properties p) (pb_expires_at_unix_secs p).

(** ** Client and contexts *)

Definition get_plugin_client_info (a : SessionActor) : Client :=
  match ac_will_message a with
  | Some w =>
      mkClient (ac_tenant_id a) (ac_client_id a) (ac_username a) (ac_clean_session a) (will_retain w)
        (Some (will_topic w)) (Some (will_message w)) (ac_conn_addr a)
  | None =>
      mkClient (ac_tenant_id a) (ac_client_id a) (ac_username a) (ac_clean_session a) false None None (ac_conn_addr a)
  end.

Definition delivery_context (defer_delivery : bool) (a : SessionActor) : DeliveryContext :=
  mkContext (ac_tenant_id a) (ac_client_id a) (ac_clean_session a) (ac_protocol_version a) (ac_activity_state a)
    (ac_payload_store a) (ac_conn a) defer_delivery.
Definition outbound_delivery_context : SessionActor -> DeliveryContext := delivery_context false.

(** ** Receive Maximum *)

Definition receive_maximum_limit (a : SessionActor) : nat := Z.to_nat (Z.max (ac_receive_maximum a) 1).

Definition outbound_publish_uses_receive_slot (a : SessionActor) (publish : Publish) : bool :=
  bool_decide (ac_protocol_version a = V5_0) && bool_decide (ac_activity_state a = Active) && (0 <? pb_qos publish).

Definition can_reserve_receive_slot (a : SessionActor) : bool := (ac_slots a <? receive_maximum_limit a)%nat.
Definition reserve_receive_slot : turn := modify (fun a => with_slots (S (ac_slots a)) a).
(** [saturating_sub(1)], and [if n > 0 { n -= 1 }]. *)
Definition release_receive_slot : turn := modify (fun a => with_slots (pred (ac_slots a)) a).
Definition push_back (d : DeferredOutboundPublish) : turn := modify (fun a => with_deferred (ac_deferred a ++ [d]) a).
Definition push_front (d : DeferredOutboundPublish) : turn := modify (fun a => with_deferred (d :: ac_deferred a) a).

Definition start_outbound_publish_delivery (publish_packet : Publish) (reply : option Z) : turn :=
  with_self (fun a =>
    let uses_receive_slot := outbound_publish_uses_receive_slot a publish_packet in
    let defer_delivery := uses_receive_slot && negb (can_reserve_receive_slot a) in
    if defer_delivery && ac_clean_session a then
      push_back (mkDeferred publish_packet false)
      >>> (match reply with Some r => emit (Complete r (Ok tt)) | None => nothing end)
    else
      let receive_slot_reserved := uses_receive_slot && negb defer_delivery in
      (if receive_slot_reserved then reserve_receive_slot else nothing)
      >>> emit (let delivery := FDeliver publish_packet (delivery_context defer_delivery a) receive_slot_reserved reply in
                if ac_clean_session a then SpawnFuture delivery else WaitFor delivery)).

(** The loop of [drain_deferred_outbound_publishes]: each round takes an element off the
    queue, and puts none back, since a slot is free when it needs one. *)
Fixpoint drain_loop (fuel : nat) : turn :=
  match fuel with
  | O => nothing
  | S fuel =>
      with_self (fun a =>
        match ac_deferred a with
        | [] => nothing
        | next_publish :: rest =>
            if outbound_publish_uses_receive_slot a (d_publish next_publish) && negb (can_reserve_receive_slot a)
            then nothing
            else
              modify (with_deferred rest)
              >>> (if d_registered next_publish then
                     let reserved := outbound_publish_uses_receive_slot a (d_publish next_publish) in
                     (if reserved then reserve_receive_slot else nothing)
                     >>> emit (WaitFor (FDeferred next_publish (outbound_delivery_context a) reserved))
                   else
                     start_outbound_publish_delivery (d_publish next_publish) None >>> drain_loop fuel)
        end)
  end.
Definition drain_deferred_outbound_publishes : turn :=
  with_self (fun a =>
    if decide (ac_activity_state a = Inactive) then nothing else drain_loop (length (ac_deferred a))).

Definition release_receive_maximum_slot_and_drain : turn :=
  release_receive_slot >>> drain_deferred_outbound_publishes.

(** ** Timers, and the end of a connection or of the actor *)

Definition register_inflight_retry_timer : turn :=
  with_self (fun a => emit (Timer (RegisterInflight (ac_inflight_retry_interval a)))).
(** [(keep_alive as f64 * 1.5) as u64]. *)
Definition start_inflight_and_keep_alive_timer : turn :=
  with_self (fun a => emit (Timer (RegisterKeepAlive (ac_keep_alive a * 3 / 2)))) >>> register_inflight_retry_timer.
Definition stop_inflight_and_keep_alive_timer : turn :=
  emit (Timer (RemoveTimer TimerInflight)) >>> emit (Timer (RemoveTimer TimerKeepAlive)).

Definition set_state (state : ActivityState) : turn :=
  with_self (fun a => with_clock (fun now =>
    let update := if decide (ac_protocol_version a = V5_0) then ac_session_expiry_interval a else None in
    (match state with
     | Inactive =>
         stop_inflight_and_keep_alive_timer
         >>> (if ac_clean_session a then nothing
              else emit (SpawnFuture (FConnectionState (ac_tenant_id a) (ac_client_id a) (Some (unix_secs now)) update)))
     | Active =>
         if ac_clean_session a then nothing
         else emit (SpawnFuture (FConnectionState (ac_tenant_id a) (ac_client_id a) None update))
     end)
    >>> modify (with_activity state)
    >>> emit (WaitFor (FLifecycle SessionDeactivate)))).

Definition notify_session_manager_stopped : turn :=
  with_self (fun a => emit (WaitFor (FStopped (SessionStopped (ac_tenant_id a) (ac_client_id a) (ac_instance_id a))))).

Definition to_conn (f : Z -> turn) : turn :=
  with_self (fun a => match ac_conn a with Some conn => f conn | None => nothing end).

Definition force_stop : turn :=
  stop_inflight_and_keep_alive_timer
  >>> to_conn (fun conn => emit (Close conn NormalDisconnect))
  >>> notify_session_manager_stopped.

Definition should_delete_session_on_disconnect (a : SessionActor) : bool :=
  bool_decide (ac_protocol_version a = V5_0) && bool_decide (ac_session_expiry_interval a = Some 0)
  && negb (ac_clean_session a).

Definition delete_session_state_and_force_stop : turn :=
  with_self (fun a => emit (SpawnFuture (FDeleteState (ac_tenant_id a) (ac_client_id a)))).

Definition disconnected_metrics : turn :=
  with_clock (fun now => modify (fun a => with_metrics (set_disconnected now (ac_metrics a)) a)).

Definition finish_connection_disconnect : turn :=
  with_self (fun a =>
    if should_delete_session_on_disconnect a then delete_session_state_and_force_stop
    else if negb (ac_clean_session a) then set_state Inactive >>> disconnected_metrics
    else force_stop).

Definition clean_will_message : turn := modify (with_will None).

Definition send_will_message (after : AfterWill) : turn :=
  with_self (fun a => modify (with_will None) >>> emit (WaitFor (FWill (ac_tenant_id a) (ac_will_message a) after))).

(** ** Handlers of packets *)

Definition handle_publish (publish_packet : Publish) : turn :=
  modify (fun a => with_metrics (increase_messages_received (ac_metrics a)) a)
  >>> with_clock (fun now => with_self (fun a =>
        emit (SpawnFuture (FPublish (stamp_publish_expiry publish_packet (unix_secs now)) (get_plugin_client_info a)
                             (ac_clean_session a) (ac_payload_store a))))).

Definition handle_subscribe (packet : Subscribe) : turn :=
  with_self (fun a => to_conn (fun conn =>
    emit (WaitFor (FSubscribe packet (get_plugin_client_info a) conn (ac_clean_session a))))).

Definition handle_unsubscribe (packet : Unsubscribe) : turn :=
  with_self (fun a => to_conn (fun conn =>
    emit (WaitFor (FUnsubscribe packet (get_plugin_client_info a) conn (ac_clean_session a))))).

Definition handle_pingreq : turn := to_conn (fun conn => emit (WriteTo conn PPingresp)).

Definition handle_pubrel (packet : Ack) : turn :=
  with_self (fun a => to_conn (fun conn =>
    emit (WaitFor (FPubrel packet (get_plugin_client_info a) conn (ac_clean_session a) (ac_payload_store a))))).

Definition handle_pubrec (packet : Ack) : turn :=
  with_self (fun a => to_conn (fun conn =>
    emit (WaitFor (FPubrec packet (get_plugin_client_info a) conn (ac_clean_session a))))).

Definition handle_puback (packet : Ack) : turn :=
  with_self (fun a =>
    emit (WaitFor (FPuback packet (get_plugin_client_info a) (ac_clean_session a) (ac_payload_store a)))).

Definition handle_pubcomp (packet : Ack) : turn :=
  with_self (fun a =>
    emit (WaitFor (FPubcomp packet (get_plugin_client_info a) (ac_clean_session a) (ac_payload_store a)))).

(** The end of [handle_disconnect], when the packet is in order.  The hook is waited for
    last: the runtime polls the future that was added last first. *)
Definition normal_disconnect : turn :=
  to_conn (fun conn => emit (Close conn NormalDisconnect))
  >>> with_self (fun a => emit (WaitFor (FDisconnectedHook (ac_tenant_id a) (ac_client_id a))))
  >>> finish_connection_disconnect.

Definition handle_disconnect (packet : Disconnect) : turn :=
  clean_will_message
  >>> with_self (fun a =>
        if decide (dc_protocol_version packet = V5_0) then
          let requested_expiry :=
            match dc_session_expiry_interval packet with
            | Some e => Some e
            | None => Packet.session_expiry_interval (dc_properties packet)
            end in
          match updated_session_expiry_interval (ac_session_expiry_interval a) requested_expiry with
          | Ok updated => modify (with_expiry updated) >>> normal_disconnect
          | Err reason_code =>
              match ac_conn a with
              | Some conn => emit (WaitFor (FProtocolError conn reason_code))
              | None => finish_connection_disconnect
              end
          | _ => nothing
          end
        else normal_disconnect).

Definition reset_keep_alive_expired_flag : turn := modify (with_keep_alive_expired false).

Definition handle_inbound (packet : Packet) : turn :=
  reset_keep_alive_expired_flag
  >>> emit (Timer (RefreshTimer TimerKeepAlive))
  >>> match packet with
      | PPingreq => handle_pingreq
      | PSubscribe p => handle_subscribe p
      | PUnsubscribe p => handle_unsubscribe p
      | PPublish p => handle_publish p
      | PPuback p => handle_puback p
      | PPubrec p => handle_pubrec p
      | PPubrel p => handle_pubrel p
      | PPubcomp p => handle_pubcomp p
      | PDisconnect p => handle_disconnect p
      | _ => nothing
      end.

(** ** Messages *)

(** The fields [Reconnect] sets before and after the state. *)
Definition reconnect_fields (r : Reconnection) (a : SessionActor) : SessionActor :=
  mkActor (ac_tenant_id a) (ac_client_id a) (ac_clean_session a) (rc_protocol_version r)
    (rc_session_expiry_interval r) (rc_receive_maximum r) (ac_slots a) (ac_deferred a) (ac_username a)
    (ac_will_message a) (ac_activity_state a) (ac_conn a) (ac_conn_addr a) (ac_keep_alive a)
    (ac_keep_alive_expired a) (ac_inflight_retry_interval a) (ac_payload_store a) (ac_instance_id a) (ac_metrics a).
Definition reconnect_connection (r : Reconnection) (a : SessionActor) : SessionActor :=
  mkActor (ac_tenant_id a) (ac_client_id a) (rc_clean_session r) (ac_protocol_version a)
    (ac_session_expiry_interval a) (ac_receive_maximum a) (ac_slots a) (ac_deferred a) (rc_username r)
    (rc_will_message r) (ac_activity_state a) (Some (rc_conn r)) (ac_conn_addr a) (rc_keep_alive r)
    (ac_keep_alive_expired a) (ac_inflight_retry_interval a) (ac_payload_store a) (ac_instance_id a) (ac_metrics a).

Definition reconnect (r : Reconnection) : turn :=
  modify (reconnect_fields r)
  >>> set_state Active
  >>> modify (reconnect_connection r)
  >>> stop_inflight_and_keep_alive_timer
  >>> start_inflight_and_keep_alive_timer
  >>> with_clock (fun now => modify (fun a => with_metrics (set_connected now (rc_socket_addr r) (ac_metrics a)) a))
  >>> with_self (fun a => emit (WaitFor (FReconnect a))).

(** The identifiers of the deferred messages that are in the in-flight table. *)
Definition deferred_packet_ids (l : list DeferredOutboundPublish) : list Z :=
  omap (fun d => pb_packet_identifier (d_publish d)) (filter (fun d => d_registered d = true) l).

Definition handle (msg : SessionActorMessage) : turn :=
  match msg with
  | InboundPacket packet => handle_inbound packet
  | OutboundMessage packet =>
      match packet with
      | PPublish publish_packet =>
          modify (fun a => with_metrics (increase_messages_sent (ac_metrics a)) a)
          >>> start_outbound_publish_delivery publish_packet None
      | _ => nothing
      end
  | KeepAliveExpired => send_will_message ThenKeepAliveExpired
  | InflightRetry =>
      with_self (fun a =>
        register_inflight_retry_timer
        >>> emit (WaitFor (FRetry (outbound_delivery_context a) (deferred_packet_ids (ac_deferred a)))))
  | ForceDisconnect =>
      with_self (fun a =>
        if decide (ac_activity_state a = Active) then to_conn (fun conn => emit (WaitFor (FForceDisconnect conn)))
        else nothing)
  | UnexpectClientDisconnected => send_will_message ThenFinishDisconnect
  | Reconnect r => reconnect r
  | ClientDisconnected => finish_connection_disconnect
  | ForceStop => force_stop
  | AcceptRoutedPublish packet reply =>
      match packet with
      | PPublish publish => start_outbound_publish_delivery publish (Some reply)
      | _ => emit (Complete reply (Err (DeliveryError "unsupported routed packet")))
      end
  | AllInflightRetryImmediate => with_self (fun a => emit (WaitFor (FRetryAll (outbound_delivery_context a))))
  end.

Definition started : turn :=
  start_inflight_and_keep_alive_timer >>> with_self (fun a => emit (WaitFor (FStarted a))).
Definition stopped : turn := stop_inflight_and_keep_alive_timer.

(** [SessionActor::new]. *)
Definition new_actor (tenant_id client_id : string) (clean_session : bool) (protocol_version : ProtocolVersion)
    (session_expiry_interval : option Z) (receive_maximum inflight_retry_duration_secs : Z)
    (will : option WillMessage) (keep_alive conn : Z) (peer_addr : string) (payload_store : bool) (instance_id : Z)
    (now : Z) : SessionActor :=
  mkActor tenant_id client_id clean_session protocol_version session_expiry_interval receive_maximum 0 [] None will
    Active (Some conn) peer_addr keep_alive true inflight_retry_duration_secs payload_store instance_id
    (set_connected now peer_addr (new_metrics now)).

(** [SessionInfo], the answer to [GetSessionInfo]. *)
Record SessionInfo := mkInfo {
  in_tenant_identifier : string;
  in_client_identifier : string;
  in_subscription_topics : list string;
  in_session_state : ActivityState;
  in_metrics : SessionMetrics;
  in_connected_at : option Z;
  in_disconnected_at : option Z;
}.
Definition get_session_info (a : SessionActor) (s : SessionState) : SessionInfo :=
  mkInfo (ac_tenant_id a) (ac_client_id a) (map fst (map_to_list (ss_subscriptions s))) (ac_activity_state a)
    (ac_metrics a) (get_connected_at (ac_metrics a)) (get_disconnected_at (ac_metrics a)).
