(* ===== verification/SessionFutures.v ===== *)
(** * The futures of the session actor ([broker/src/session/session_actor.rs])

    The asynchronous blocks of [SessionActor] as programs: deliveries to the client,
    messages the client publishes, subscriptions, acknowledgements, retries and
    recovery; [future_program] gives each future its program, whose result is the turn
    of its continuation. *)

From S2P Require Import Prelude Program Utf8 Packet Inflight MessageExpiry TopicFilter TopicStorage SessionState RaftSession RaftLog V3Codec V3Convert Router MqttProperties SessionActor.

#[local] Open Scope Z_scope.
#[local] Open Scope turn_scope.

Section Futures.
Context {Doc : Type} `{Serde Doc Packet, Serde Doc MqttPacketV3, Base64}.
(** The document whose bytes are given. *)
Context (document : bytes -> Doc).
Abbreviation result A := (sprog Doc (outcome SessionActorError A)).
#[local] Open Scope prog_scope.

Definition serialize (packet : Packet) : result Doc :=
  Ret (map_err DeliveryError (serialize_stored_packet packet)).

(** [conn.send(WritePacketToClient(packet)).await?.map_err(..)?]. *)
Definition write_to_client (conn : Z) (packet : Packet) : result unit :=
  r <-? fails_with ConnectionActorError (ask (ConnSend conn packet));
  Ret (map_err DeliveryError r).

Inductive OutboundPublishDeliveryStatus := Sent | NotSent | DeferredDelivery (publish : Publish).

(** [context.payload_store.as_ref().ok_or_else(..)?]. *)
Definition need_store (payload_store : bool) : result unit :=
  Ret (if payload_store then Ok tt else Err (DeliveryError "payload store missing")).

Definition raft_error (e : RaftFailure) : SessionActorError :=
  DeliveryError (match e with Existed => "Packet identifier has existed" | RaftFailed e => e end).

Definition allocate (_ : Z) (i : Inflight) : option Z * Inflight := (allocate_packet_id i, i).
Definition allocation_failed : SessionActorError := DeliveryError "failed to allocate new inflight packet id".

(** A clean session registers in its own table, in one block under the guard: the packet,
    with another identifier where its own is in use. *)
Definition register_clean (publish_packet : Publish) (packet_id qos : Z) (key : string) (now : Z) (i : Inflight)
    : outcome SessionActorError (Publish * bool) * Inflight :=
  let '(r, i) := try_register_tx packet_id qos key now i in
  match r with
  | Ok _ => (Ok (publish_packet, false), i)
  | Err PacketIdentifierHasExisted =>
      match allocate_packet_id i with
      | Some new_id =>
          let '(r, i) := try_register_tx new_id qos key now i in
          (_ ← map_err (fun _ => DeliveryError "PacketIdentifierHasExisted") r;
           Ok (with_identifier (Some new_id) publish_packet, true), i)
      | None => (Err allocation_failed, i)
      end
  | Panic => (Panic, i)
  | OutOfFuel => (OutOfFuel, i)
  end.

(** A persistent session registers with the session group first. *)
Definition register_persistent (cx : DeliveryContext) (publish_packet : Publish) (packet_id qos : Z) (key : string)
    : result Publish :=
  let register id := ask (Raft (InflightRegisterTxPacket (cx_tenant_id cx) (cx_client_id cx) id qos key
                                  (cx_defer_delivery cx))) in
  publish_packet <-?
    (r ← register packet_id;
     match (r : outcome RaftFailure SessionStateResponse) with
     | Ok _ => Ret (Ok publish_packet)
     | Err Existed =>
         new_id ← locked (on_inflight allocate);
         match new_id with
         | Some new_id =>
             let publish_packet := with_identifier (Some new_id) publish_packet in
             data <-? serialize (PPublish publish_packet);
             _ <-? fails_with DeliveryError (ask (SPut key data));
             _ <-? fails_with raft_error (register new_id);
             Ret (Ok publish_packet)
         | None => Ret (Err allocation_failed)
         end
     | Err e => Ret (Err (raft_error e))
     | Panic => Ret Panic
     | OutOfFuel => Ret OutOfFuel
     end);
  match pb_packet_identifier publish_packet with
  | None => Ret Panic
  | Some packet_id =>
      r ← locked (on_inflight (fun now i =>
            match get_inflight_current_state packet_id i with
            | None => try_register_tx packet_id qos key now i
            | Some _ => (Ok tt, i)
            end));
      Ret (_ ← map_err (fun _ => DeliveryError "PacketIdentifierHasExisted") r; Ok publish_packet)
  end.

(** A message of QoS 1 or 2 for a connected client. *)
Definition deliver_active (cx : DeliveryContext) (conn : Z) (publish_packet : Publish)
    : result OutboundPublishDeliveryStatus :=
  let qos := pb_qos publish_packet in
  publish_packet <-?
    match pb_packet_identifier publish_packet with
    | Some _ => Ret (Ok publish_packet)
    | None =>
        packet_id ← locked (on_inflight allocate);
        Ret (match packet_id with
             | Some id => Ok (with_identifier (Some id) publish_packet)
             | None => Err allocation_failed
             end)
    end;
  match pb_packet_identifier publish_packet with
  | None => Ret Panic
  | Some packet_id =>
      _ <-? need_store (cx_payload_store cx);
      key ← ask SUuid;
      data <-? serialize (PPublish publish_packet);
      _ <-? fails_with DeliveryError (ask (SPut key data));
      registered <-?
        (if cx_clean_session cx then locked (on_inflight (register_clean publish_packet packet_id qos key))
         else publish_packet <-? register_persistent cx publish_packet packet_id qos key;
              Ret (Ok (publish_packet, false)));
      let '(publish_packet, stored_packet_needs_refresh) := registered in
      _ <-? (if (stored_packet_needs_refresh : bool) then
               data <-? serialize (PPublish publish_packet);
               fails_with DeliveryError (ask (SPut key data))
             else Ret (Ok tt));
      if cx_defer_delivery cx then
        _ ← locked (on_inflight (fun _ i =>
              (tt, match pb_packet_identifier publish_packet with Some id => set_unstarted id i | None => i end)));
        Ret (Ok (DeferredDelivery publish_packet))
      else
        _ <-? write_to_client conn (PPublish publish_packet);
        Ret (Ok Sent)
  end.

(** A message of QoS 1 or 2 for a client that is away: a persistent session keeps it. *)
Definition deliver_inactive (cx : DeliveryContext) (publish_packet : Publish) : result OutboundPublishDeliveryStatus :=
  _ <-? need_store (cx_payload_store cx);
  key ← ask SUuid;
  data <-? serialize (PPublish publish_packet);
  _ <-? fails_with DeliveryError (ask (SPut key data));
  if negb (cx_clean_session cx) then
    _ <-? fails_with raft_error (ask (Raft (AppendToPendingQueue (cx_tenant_id cx) (cx_client_id cx) key)));
    _ ← locked (updating (fun s => set_pending (pending_messages s ++ [key]) s));
    Ret (Ok NotSent)
  else
    _ <-? fails_with DeliveryError (ask (SDelete key));
    Ret (Ok NotSent).

Definition deliver_outbound_publish (publish_packet : Publish) (cx : DeliveryContext)
    : result OutboundPublishDeliveryStatus :=
  now ← ask SNow;
  let '(deliverable, publish_packet) := prepare_publish_for_delivery publish_packet (cx_protocol_version cx) now in
  if negb deliverable then Ret (Ok NotSent)
  else if decide (cx_activity_state cx = Active) then
    match cx_conn cx with
    | None => Ret (Err ConnectionNotSet)
    | Some conn =>
        if pb_qos publish_packet =? 0 then
          _ <-? write_to_client conn (PPublish publish_packet);
          Ret (Ok Sent)
        else deliver_active cx conn publish_packet
    end
  else if pb_qos publish_packet =? 0 then Ret (Ok NotSent)
  else deliver_inactive cx publish_packet.

(** *** Messages in the table that were not sent *)

Definition discard_unsent_message (cx : DeliveryContext) (id : Z) (key : string) : result unit :=
  _ <-? (if cx_clean_session cx then Ret (Ok tt)
         else _ <-? fails_with raft_error (ask (Raft (InflightDiscardUnsent (cx_tenant_id cx) (cx_client_id cx) id key)));
              Ret (Ok tt));
  removed ← locked (on_inflight (fun _ => discard_unsent id key));
  if cx_clean_session cx then
    match removed with
    | Some key => if cx_payload_store cx then fails_with DeliveryError (ask (SDelete key)) else Ret (Ok tt)
    | None => Ret (Ok tt)
    end
  else Ret (Ok tt).

(** Whether the stored message is there and expired. *)
Definition stored_expired (key : string) : sprog Doc bool :=
  r ← ask (SGet key);
  match (r : io (option Doc)) with
  | Ok (Some data) =>
      match deserialize_stored_packet data with
      | Ok packet => now ← ask SNow; Ret (is_packet_expired packet now)
      | _ => Ret false
      end
  | _ => Ret false
  end.

Fixpoint cleanup_expired_items (cx : DeliveryContext) (entries : list InflightItem) : sprog Doc (list Z) :=
  match entries with
  | [] => Ret []
  | item :: entries =>
      match it_packet_key item with
      | None => cleanup_expired_items cx entries
      | Some key =>
          expired ← stored_expired key;
          if (expired : bool) then
            r ← discard_unsent_message cx (it_packet_identifier item) key;
            removed ← cleanup_expired_items cx entries;
            Ret (match r with Ok _ => it_packet_identifier item :: removed | _ => removed end)
          else cleanup_expired_items cx entries
      end
  end.

Definition unsent_items (s : SessionState) : list InflightItem :=
  filter (fun it => it_delivery_started it = false) (map snd (map_to_list (inner (inflight s)))).

(** The identifiers removed. *)
Definition cleanup_expired_unsent (cx : DeliveryContext) : sprog Doc (list Z) :=
  entries ← locked (reading unsent_items);
  if cx_payload_store cx then cleanup_expired_items cx entries else Ret [].

(** Whether a registered message is to be sent now, and as which packet. *)
Definition prepare_registered_publish (cx : DeliveryContext) (publish : Publish) : result (bool * Publish) :=
  match pb_packet_identifier publish with
  | None => Ret (Ok (false, publish))
  | Some id =>
      item ← locked (reading (fun s => inner (inflight s) !! id));
      match item with
      | None => Ret (Ok (false, publish))
      | Some item =>
          match it_packet_key item with
          | None => Ret (Ok (false, publish))
          | Some key =>
              now ← ask SNow;
              let '(deliverable, publish) := prepare_publish_for_delivery publish (cx_protocol_version cx) now in
              if negb deliverable then
                _ <-? (if it_delivery_started item then Ret (Ok tt) else discard_unsent_message cx id key);
                Ret (Ok (false, publish))
              else if it_delivery_started item then Ret (Ok (true, publish))
              else
                started <-?
                  (if cx_clean_session cx then Ret (Ok true)
                   else r <-? fails_with raft_error
                                (ask (Raft (InflightStartDelivery (cx_tenant_id cx) (cx_client_id cx) id key)));
                        Ret (Ok (match (r : SessionStateResponse) with InflightStartDeliveryResult b => b | _ => false end)));
                if (started : bool) then
                  _ ← locked (on_inflight (fun _ => mark_delivery_started id key));
                  Ret (Ok (true, publish))
                else Ret (Ok (false, publish))
          end
      end
  end.

(** *** Retries *)

Fixpoint collect_inflight_retry_packets (payload_store : bool) (now : Z)
    (entries : list (Z * string * InflightState)) : sprog Doc (list Packet) :=
  match entries with
  | [] => Ret []
  | (packet_id, key, state) :: entries =>
      let more := collect_inflight_retry_packets payload_store now entries in
      match state with
      | WaitPubcomp => rest ← more; Ret (PPubrel (success_ack packet_id) :: rest)
      | WaitPubrel => rest ← more; Ret (PPubrec (success_ack packet_id) :: rest)
      | WaitPubrec | WaitPuback =>
          if payload_store then
            r ← ask (SGet key);
            match (r : io (option Doc)) with
            | Ok (Some data) =>
                match deserialize_stored_packet data with
                | Ok packet =>
                    if is_packet_expired packet now then more
                    else rest ← more; Ret (Packet.set_dup 1 packet :: rest)
                | _ => more
                end
            | _ => more
            end
          else more
      | Finish => more
      end
  end.

Definition write_inflight_retry_packets (conn : Z) (packets : list Packet) : sprog Doc unit :=
  each (fun packet => ask (ConnSend conn packet)) packets.

(** The entries with their states; [deferred] are left out. *)
Definition with_states (deferred : list Z) (entries : list (Z * string)) (i : Inflight)
    : list (Z * string * InflightState) :=
  omap (fun '(packet_id, key) =>
    if decide (packet_id ∈ deferred) then None
    else state ← get_inflight_current_state packet_id i; Some (packet_id, key, state)) entries.

Definition retain_deferred (removed : list Z) (l : list DeferredOutboundPublish) : list DeferredOutboundPublish :=
  filter (fun d => match pb_packet_identifier (d_publish d) with
                   | Some id => bool_decide (id ∈ removed)
                   | None => false
                   end = false) l.

(** The entries that are due; [None] where a deadline does not fit a [u64]. *)
Definition due_entries (deferred_packet_ids : list Z) (now : Z) (i : Inflight)
    : option (list (Z * string * InflightState)) * Inflight :=
  match get_all_expired_packet_keys_and_refresh_expired_time (E := unit) now i with
  | Ok (keys, i) => (Some (with_states deferred_packet_ids keys i), i)
  | _ => (None, i)
  end.

(** The body of [InflightRetry].  A panic ends the actor. *)
Definition retry (cx : DeliveryContext) (deferred_packet_ids : list Z) : sprog Doc turn :=
  removed ← cleanup_expired_unsent cx;
  entries ← locked (on_inflight (due_entries deferred_packet_ids));
  match entries with
  | None => Ret (emit StopContext)
  | Some entries =>
      now ← ask SNow;
      retry_packets ← collect_inflight_retry_packets (cx_payload_store cx) now entries;
      _ ← match cx_conn cx with Some conn => write_inflight_retry_packets conn retry_packets | None => Ret tt end;
      Ret (modify (fun a => with_deferred (retain_deferred removed (ac_deferred a)) a)
           >>> drain_deferred_outbound_publishes)
  end.

(** [sort_by_key] on the identifier. *)
Fixpoint insert_by_id (e : Z * string * InflightState) (l : list (Z * string * InflightState)) :=
  match l with
  | [] => [e]
  | x :: l => if e.1.1 <=? x.1.1 then e :: x :: l else x :: insert_by_id e l
  end.
Definition sort_by_id (l : list (Z * string * InflightState)) : list (Z * string * InflightState) :=
  foldr insert_by_id [] l.

(** Messages wait for their turn in the queue, acknowledgements are written at once. *)
Definition recover_packet (packet : Packet) : turn :=
  match packet with
  | PPublish publish => push_back (mkDeferred publish true)
  | packet => to_conn (fun conn => emit (WriteTo conn packet))
  end.
Fixpoint recover_packets (packets : list Packet) : turn :=
  match packets with
  | [] => nothing
  | packet :: packets => recover_packet packet >>> recover_packets packets
  end.

(** The body of [AllInflightRetryImmediate]. *)
Definition retry_all (cx : DeliveryContext) : sprog Doc turn :=
  _ ← cleanup_expired_unsent cx;
  entries ← locked (on_inflight (fun now i =>
    let '(keys, i) := get_all_packet_keys_and_refresh_expired_time now i in (with_states [] keys i, i)));
  now ← ask SNow;
  retry_packets ← collect_inflight_retry_packets (cx_payload_store cx) now (sort_by_id entries);
  Ret (recover_packets retry_packets >>> drain_deferred_outbound_publishes).

(** *** What the client publishes *)

Definition mqtt_message_from_publish (p : Publish) (client : Client) : MqttMessage :=
  mkMqttMessage (cl_tenant_id client) (cl_client_identifier client) (pb_topic_name p) (pb_payload p) (pb_qos p)
    (pb_retain p) (pb_dup p) (properties_to_struct (pb_properties p)).

Definition apply_modified_mqtt_message (p : Publish) (m : MqttMessage) : Publish :=
  mkPublish (pb_protocol_version p) (if decide (mm_topic m = ""%string) then pb_topic_name p else mm_topic m)
    (mm_payload m) (pb_qos p) (mm_retain m) (mm_dup m) (pb_packet_identifier p) (pb_properties p)
    (pb_expires_at_unix_secs p).

Definition authorize_request (client : Client) (action : AuthAction) (topic : string) (qos : Z)
    (context : option Struct) : AuthorizeRequest :=
  mkAuthorizeRequest (cl_tenant_id client) (cl_client_identifier client)
    (from_option id "" (cl_username client))%string action topic qos context.

Abbreviation published := (sprog Doc (outcome HandlePublishError (option Packet))).

(** The message is stored and registered: [Ok None] where the session group refused. *)
Definition register_received (publish_packet : Publish) (client : Client) (clean_session payload_store : bool)
    : sprog Doc (outcome HandlePublishError (option Packet)) :=
  match pb_packet_identifier publish_packet with
  | None => Ret (Err PacketIdNotExist)
  | Some packet_id =>
      let qos := pb_qos publish_packet in
      if payload_store then
        k ← ask SUuid;
        data <-? Ret (map_err HPayloadStoreError (serialize_stored_packet (PPublish publish_packet)));
        _ <-? fails_with HPayloadStoreError (ask (SPut k data));
        _ ← inside (on_inflight (register_rx packet_id qos k));
        registered ←
          (if clean_session then Ret true
           else r ← ask (Raft (InflightRegisterRxPacket (cl_tenant_id client) (cl_client_identifier client)
                                 packet_id qos k));
                Ret (match (r : outcome RaftFailure SessionStateResponse) with Ok _ => true | _ => false end));
        Ret (Ok (if (registered : bool) then
                   Some (if qos =? 1 then PPuback (success_ack packet_id) else PPubrec (success_ack packet_id))
                 else None))
      else Ret (Err (HPayloadStoreError "Payload store not available"))
  end.

Definition retain_and_route (publish_packet : Publish) (client : Client) (inflight_packet : option Packet) : published :=
  _ ← (if pb_retain publish_packet then
         match pb_payload publish_packet with
         | [] => _ ← ask (CleanRetain (cl_tenant_id client) (pb_topic_name publish_packet)); Ret tt
         | _ => _ ← ask (RegisterRetain (cl_tenant_id client) (cl_client_identifier client) (PPublish publish_packet)); Ret tt
         end
       else Ret tt);
  _ <-? fails_with RouteError
          (ask (RouteSend (cl_tenant_id client) (PPublish publish_packet) (Some (cl_client_identifier client))));
  Ret (Ok inflight_packet).

(** An authorized message that has not expired and that no plugin stops; the guard is
    held to the end. *)
Definition accept_publish (publish_packet : Publish) (client : Client) (clean_session payload_store : bool) : published :=
  _ ← ask (MessagePublished (mqtt_message_from_publish publish_packet client));
  guarded (
    if 0 <? pb_qos publish_packet then
      ack <-? register_received publish_packet client clean_session payload_store;
      match ack with
      | None => Ret (Ok None)
      | Some packet => retain_and_route publish_packet client (Some packet)
      end
    else retain_and_route publish_packet client None).

Definition do_handle_publish (publish_packet : Publish) (client : Client) (clean_session payload_store : bool) : published :=
  r ← ask (Authorize (authorize_request client AuthPublish (pb_topic_name publish_packet) (pb_qos publish_packet)
                        (properties_to_struct (pb_properties publish_packet))));
  match (r : io AuthorizeResult) with
  | Ok result =>
      if authorized result then
        now ← ask SNow;
        if is_publish_expired publish_packet now then
          _ ← (if pb_retain publish_packet && bool_decide (pb_payload publish_packet = []) then
                 _ ← ask (CleanRetain (cl_tenant_id client) (pb_topic_name publish_packet)); Ret tt
               else Ret tt);
          Ret (Ok (inbound_publish_success_ack publish_packet))
        else
          policy ← ask (OnMessagePublish (mqtt_message_from_publish publish_packet client));
          match (policy : io MessagePublishResult) with
          | Ok policy =>
              if pr_allow policy then
                accept_publish
                  (match pr_modified_message policy with
                   | Some m => apply_modified_mqtt_message publish_packet m
                   | None => publish_packet
                   end) client clean_session payload_store
              else Ret (Ok (inbound_publish_success_ack publish_packet))
          | _ => Ret (Ok (inbound_publish_success_ack publish_packet))
          end
      else Ret (Ok (inbound_publish_ack publish_packet RcNotAuthorized))
  | _ => Ret (Ok (inbound_publish_ack publish_packet RcUnspecifiedError))
  end.

(** The continuation of [handle_publish]. *)
Definition published_turn (r : outcome HandlePublishError (option Packet)) : turn :=
  match r with
  | Ok (Some packet) =>
      with_self (fun a => to_conn (fun conn =>
        emit (WriteTo conn packet)
        >>> match packet with
            | PPuback _ =>
                emit (Detach (if ac_clean_session a then FCleanup (ac_payload_store a)
                              else FRaftCleanup (ac_tenant_id a) (ac_client_id a)))
            | _ => nothing
            end))
  | Ok None => nothing
  | Err PacketIdNotExist => emit (ToSelf ForceDisconnect)
  | Err _ => nothing
  | _ => emit StopContext
  end.

(** *** Subscriptions *)

Record RetainedPublishDelivery := mkRetained {
  rt_packet : Packet;
  rt_requested_qos : Z;
  rt_retain_as_published : bool;
  rt_subscriber_protocol : ProtocolVersion;
}.

(** What comes of one topic filter: retained messages, the reason code, the subscription. *)
Definition TopicResult : Type := list RetainedPublishDelivery * ReasonCode * option (string * SubscriptionState).
Definition refused (reason : ReasonCode) : TopicResult := ([], reason, None).

Definition sends_retained (existing : gset string) (topic : Packet.SubscribeTopic) : bool :=
  match st_retain_handling topic with
  | SendAtSubscribe => true
  | SendAtSubscribeIfNew => negb (bool_decide (st_topic_filter topic ∈ existing))
  | DoNotSend => false
  end.

(** The filter whose retained messages a subscription gets. *)
Definition retain_filter (topic_filter : string) : string :=
  match parse_shared_subscription_filter topic_filter with
  | Ok (Some shared) => sf_topic_filter shared
  | _ => topic_filter
  end.

(** The subscription is made, with the QoS granted. *)
Definition subscribe_granted (packet : Subscribe) (client : Client) (existing : gset string) (topic : Packet.SubscribeTopic)
    (granted_qos : Z) : sprog Doc TopicResult :=
  r ← ask (TopicSubscribe (cl_tenant_id client) (cl_client_identifier client) (st_topic_filter topic) granted_qos
             (st_no_local topic) (st_retain_as_published topic));
  match (r : io unit), @qos_from_u8 unit granted_qos with
  | Ok _, Ok qos =>
      retained ←
        (if sends_retained existing topic then
           r ← ask (GetRetained (cl_tenant_id client) (retain_filter (st_topic_filter topic)));
           Ret (match (r : io (list Packet)) with
                | Ok packets =>
                    map (fun p => mkRetained p granted_qos (st_retain_as_published topic) (sb_protocol_version packet)) packets
                | _ => []
                end)
         else Ret []);
      Ret (retained, granted_qos_reason granted_qos,
           Some (st_topic_filter topic, mkSubscriptionState qos (st_no_local topic) (st_retain_as_published topic)))
  | _, _ => Ret (refused RcUnspecifiedError)
  end.

Definition subscribe_topic_filter (packet : Subscribe) (client : Client) (existing : gset string)
    (topic : Packet.SubscribeTopic) : sprog Doc TopicResult :=
  match subscribe_precheck_reason (st_topic_filter topic) with
  | Some reason => Ret (refused reason)
  | None =>
      let context := subscribe_context topic (sb_properties packet) in
      r ← ask (Authorize (authorize_request client AuthSubscribe (st_topic_filter topic) (st_qos topic) (Some context)));
      let result := match (r : io AuthorizeResult) with
                    | Ok result => result
                    | _ => mkAuthorizeResult false (Some "Authorization failed"%string)
                    end in
      match authorization_failure_reason result with
      | Some reason => Ret (refused reason)
      | None =>
          r ← ask (OnMessageSubscribe (cl_client_identifier client)
                     [mkPluginFilter (st_topic_filter topic) (st_qos topic) (Some context)]);
          let item := match (r : io (list SubscribeResultItem)) with
                      | Ok items => head (filter (fun item => sr_topic item = st_topic_filter topic) items)
                      | _ => None
                      end in
          match item with
          | Some item =>
              if sr_allowed item then
                subscribe_granted packet client existing topic (Z.min (Z.min (sr_granted_qos item) (st_qos topic)) 2)
              else Ret (refused RcNotAuthorized)
          | None => Ret (refused RcNotAuthorized)
          end
      end
  end.

Fixpoint subscribe_topics (packet : Subscribe) (client : Client) (existing : gset string) (topics : list Packet.SubscribeTopic)
    : sprog Doc (list TopicResult) :=
  match topics with
  | [] => Ret []
  | topic :: topics =>
      r ← subscribe_topic_filter packet client existing topic;
      rest ← subscribe_topics packet client existing topics;
      Ret (r :: rest)
  end.

(** [HandleSubscribeResult]. *)
Record HandleSubscribeResult := mkSubscribeResult {
  retain_messages : list RetainedPublishDelivery;
  suback_packet : Suback;
  succeed_subscriptions : list (string * SubscriptionState);
}.

Definition do_handle_subscribe (packet : Subscribe) (client : Client) (existing : gset string)
    : sprog Doc HandleSubscribeResult :=
  let suback codes := mkSuback (sb_protocol_version packet) (sb_packet_identifier packet) codes default_properties in
  if bool_decide (sb_protocol_version packet = V5_0)
     && negb (bool_decide (subscription_identifiers (sb_properties packet) = []))
  then Ret (mkSubscribeResult [] (suback (map (fun _ => RcSubscriptionIdentifiersNotSupported) (sb_topics packet))) [])
  else
    rs ← subscribe_topics packet client existing (sb_topics packet);
    Ret (mkSubscribeResult (flat_map (fun r : TopicResult => r.1.1) rs) (suback (map (fun r : TopicResult => r.1.2) rs))
           (flat_map (fun r : TopicResult => option_list r.2) rs)).

(** A retained message as the subscriber gets it. *)
Definition retained_publish (r : RetainedPublishDelivery) (p : Publish) : Publish :=
  let min_qos := Z.min (pb_qos p) (rt_requested_qos r) in
  mkPublish (pb_protocol_version p) (pb_topic_name p) (pb_payload p) min_qos
    (match rt_subscriber_protocol r with
     | V3_1_1 => true
     | V5_0 => rt_retain_as_published r && pb_retain p
     end)
    (pb_dup p)
    (if (min_qos =? 0) && (0 <? pb_qos p) then None else pb_packet_identifier p)
    (pb_properties p) (pb_expires_at_unix_secs p).

Definition deliver_retained (conn : Z) (r : RetainedPublishDelivery) : sprog Doc unit :=
  match rt_packet r with
  | PPublish p =>
      now ← ask SNow;
      let '(deliverable, p) := prepare_publish_for_delivery p (rt_subscriber_protocol r) now in
      if (deliverable : bool) then ask (ConnDoSend conn (PPublish (retained_publish r p))) else Ret tt
  | _ => Ret tt
  end.

Definition insert_subscription (topic : string) (subscription : SubscriptionState) (s : SessionState) : SessionState :=
  set_session_subscriptions (<[topic := subscription]> (ss_subscriptions s)) s.

Definition keep_subscription (client : Client) (clean_session : bool) (sub : string * SubscriptionState) : sprog Doc unit :=
  let '(topic, subscription) := sub in
  let insert := locked (updating (insert_subscription topic subscription)) in
  if clean_session then insert
  else
    r ← ask (Raft (SubscribeTopic (cl_tenant_id client) (cl_client_identifier client) topic
                     (as_qos_u8 (sub_qos subscription)) (sub_no_local subscription)
                     (sub_retain_as_published subscription)));
    match (r : outcome RaftFailure SessionStateResponse) with Ok _ => insert | _ => Ret tt end.

Definition subscribe_future (packet : Subscribe) (client : Client) (conn : Z) (clean_session : bool) : sprog Doc turn :=
  existing ← locked (reading (fun s => dom (ss_subscriptions s)));
  res ← do_handle_subscribe packet client existing;
  _ ← each (deliver_retained conn) (retain_messages res);
  _ ← ask (ConnDoSend conn (PSuback (suback_packet res)));
  _ ← each (keep_subscription client clean_session) (succeed_subscriptions res);
  Ret nothing.

(** Unsubscribing always succeeds for the client. *)
Definition do_handle_unsubscribe (packet : Unsubscribe) (client : Client) : sprog Doc (Unsuback * list string) :=
  _ ← each (fun topic => ask (TopicUnsubscribe (cl_tenant_id client) (cl_client_identifier client) topic)) (us_topics packet);
  Ret (mkUnsuback (us_protocol_version packet) (us_packet_identifier packet)
         (replicate (max (length (us_topics packet)) 1) RcSuccess) default_properties, us_topics packet).

Definition forget_subscription (client : Client) (clean_session : bool) (topic : string) : sprog Doc unit :=
  _ ← locked (updating (fun s => set_session_subscriptions (delete topic (ss_subscriptions s)) s));
  if clean_session then Ret tt
  else _ ← ask (Raft (UnsubscribeTopic (cl_tenant_id client) (cl_client_identifier client) topic)); Ret tt.

Definition unsubscribe_future (packet : Unsubscribe) (client : Client) (conn : Z) (clean_session : bool) : sprog Doc turn :=
  res ← do_handle_unsubscribe packet client;
  _ ← each (forget_subscription client clean_session) res.2;
  _ ← ask (ConnDoSend conn (PUnsuback res.1));
  Ret nothing.

(** *** Acknowledgements *)

Definition advance_table (packet_id : Z) (now : Z) (i : Inflight) : unit * Inflight := (tt, (next_state now packet_id i).2).
Definition clean_table (_ : Z) (i : Inflight) : list string * Inflight := clean_finished_items i.

(** Whether the table waits for this acknowledgement. *)
Definition expects (state : InflightState) (packet_id : Z) : sprog Doc bool :=
  locked (reading (fun s => bool_decide (get_inflight_current_state packet_id (inflight s) = Some state))).

Definition advance_inflight_state (client : Client) (packet_id : Z) : sprog Doc bool :=
  r ← ask (Raft (InflightNextState (cl_tenant_id client) (cl_client_identifier client) packet_id));
  Ret (match (r : outcome RaftFailure SessionStateResponse) with Ok _ => true | _ => false end).
Definition clean_finished_inflight_items (client : Client) : sprog Doc bool :=
  r ← ask (Raft (InflightCleanFinishItems (cl_tenant_id client) (cl_client_identifier client)));
  Ret (match (r : outcome RaftFailure SessionStateResponse) with Ok _ => true | _ => false end).

(** The guard is held to the end. *)
Definition pubrel_future (packet : Ack) (client : Client) (conn : Z) (clean_session payload_store : bool) : sprog Doc turn :=
  let packet_id := ak_packet_identifier packet in
  guarded (
    r ← ask (ConnSend conn (PPubcomp (success_ack packet_id)));
    match (r : io (io unit)) with
    | Ok _ =>
        if clean_session then
          _ ← inside (on_inflight (advance_table packet_id));
          ask (DetachFuture (FCleanup payload_store))
        else
          advanced ← advance_inflight_state client packet_id;
          if (advanced : bool) then
            _ ← inside (on_inflight (advance_table packet_id));
            _ ← clean_finished_inflight_items client;
            _ ← inside (on_inflight clean_table);
            Ret tt
          else Ret tt
    | _ => Ret tt
    end);;
  Ret nothing.

(** Whether the slot is released. *)
Definition released_turn (release_slot : bool) : turn :=
  if release_slot then release_receive_maximum_slot_and_drain else nothing.

Definition pubrec_acknowledged (packet : Ack) (client : Client) (conn : Z) (clean_session : bool) : sprog Doc bool :=
  let packet_id := ak_packet_identifier packet in
  is_expected ← expects WaitPubrec packet_id;
  if negb is_expected then Ret false
  else
    r ← ask (ConnSend conn (PPubrel (success_ack packet_id)));
    match (r : io (io unit)) with
    | Ok _ =>
        if clean_session then _ ← locked (on_inflight (advance_table packet_id)); Ret true
        else
          advanced ← advance_inflight_state client packet_id;
          if (advanced : bool) then _ ← locked (on_inflight (advance_table packet_id)); Ret true
          else Ret false
    | _ => Ret true
    end.

(** A finished message: the table is advanced and cleaned. *)
Definition finish_message (packet_id : Z) (client : Client) (clean_session payload_store : bool) : sprog Doc bool :=
  if clean_session then
    _ ← locked (on_inflight (advance_table packet_id));
    _ ← ask (DetachFuture (FCleanup payload_store));
    Ret true
  else
    advanced ← advance_inflight_state client packet_id;
    if (advanced : bool) then
      _ ← locked (on_inflight (advance_table packet_id));
      cleaned ← clean_finished_inflight_items client;
      _ ← (if (cleaned : bool) then _ ← locked (on_inflight clean_table); Ret tt else Ret tt);
      Ret true
    else Ret false.

Definition puback_acknowledged (packet : Ack) (client : Client) (clean_session payload_store : bool) : sprog Doc bool :=
  let packet_id := ak_packet_identifier packet in
  is_expected ← expects WaitPuback packet_id;
  if negb is_expected then Ret false else finish_message packet_id client clean_session payload_store.

Definition cleanup_local_finished_items (payload_store : bool) : sprog Doc unit :=
  guarded (
    freed_keys ← inside (on_inflight clean_table);
    if payload_store then each (fun key => ask (SDelete key)) freed_keys else Ret tt).

(** *** Delivery *)

Definition reply_turn (reply : option Z) (r : outcome SessionActorError unit) : turn :=
  match reply with Some n => emit (Complete n r) | None => nothing end.

(** The continuation of a delivery. *)
Definition delivered_turn (receive_slot_reserved : bool) (reply : option Z)
    (r : outcome SessionActorError OutboundPublishDeliveryStatus) : turn :=
  match r with
  | Ok Sent => reply_turn reply (Ok tt)
  | Ok (DeferredDelivery publish) => push_back (mkDeferred publish true) >>> reply_turn reply (Ok tt)
  | Ok NotSent => released_turn receive_slot_reserved >>> reply_turn reply (Ok tt)
  | Err e => released_turn receive_slot_reserved >>> reply_turn reply (Err e)
  | _ => emit StopContext
  end.

Definition deferred_delivery (deferred : DeferredOutboundPublish) (cx : DeliveryContext)
    : sprog Doc (outcome SessionActorError bool * DeferredOutboundPublish) :=
  r ← prepare_registered_publish cx (d_publish deferred);
  match r with
  | Ok (true, publish) =>
      let deferred := mkDeferred publish (d_registered deferred) in
      match cx_conn cx with
      | None => Ret (Err ConnectionNotSet, deferred)
      | Some conn =>
          r ← write_to_client conn (PPublish publish);
          Ret (_ ← r; Ok true, deferred)
      end
  | Ok (false, publish) => Ret (Ok false, mkDeferred publish (d_registered deferred))
  | Err e => Ret (Err e, deferred)
  | Panic => Ret (Panic, deferred)
  | OutOfFuel => Ret (OutOfFuel, deferred)
  end.

Definition drained_turn (reserved : bool) (r : outcome SessionActorError bool * DeferredOutboundPublish) : turn :=
  match r.1 with
  | Ok true => drain_deferred_outbound_publishes
  | Ok false => (if reserved then release_receive_slot else nothing) >>> drain_deferred_outbound_publishes
  | Err _ => (if reserved then release_receive_slot else nothing) >>> push_front r.2
  | _ => emit StopContext
  end.

(** *** The other futures *)

Definition will_future (tenant_id : string) (will : option WillMessage) : sprog Doc unit :=
  match will with
  | None => Ret tt
  | Some w => now ← ask SNow; ask (RouteDoSend tenant_id (PPublish (build_will_publish w now)) None)
  end.

Definition after_will (after : AfterWill) : turn :=
  match after with
  | ThenKeepAliveExpired => to_conn (fun conn => emit (Close conn KeepAliveTimeout) >>> finish_connection_disconnect)
  | ThenFinishDisconnect => finish_connection_disconnect
  end.

Definition force_disconnected (r : MailboxResult) : turn :=
  match r with
  | MailboxTimeout => nothing
  | Answered | MailboxClosed =>
      with_self (fun a => if ac_clean_session a then force_stop else set_state Inactive >>> disconnected_metrics)
  end.

Definition subscribe_again (a : SessionActor) (sub : string * SubscriptionState) : sprog Doc (io unit) :=
  ask (TopicSubscribe (ac_tenant_id a) (ac_client_id a) sub.1 (as_qos_u8 (sub_qos sub.2)) (sub_no_local sub.2)
         (sub_retain_as_published sub.2)).

(** A stored message is sent to the actor itself, unless it is gone or expired. *)
Definition recover_stored (protocol_version : ProtocolVersion) (data : option Doc) : sprog Doc unit :=
  match data with
  | None => Ret tt
  | Some data =>
      match deserialize_stored_packet data with
      | Ok packet =>
          now ← ask SNow;
          let '(deliverable, packet) := prepare_packet_for_delivery packet protocol_version now in
          if (deliverable : bool) then ask (SelfSend (OutboundMessage packet)) else Ret tt
      | _ => Ret tt
      end
  end.

(** One round of [loop { .. pop_offline_message .. }]: whether there is another.  A
    payload that comes with the answer is a stored document. *)
Definition pop_offline_message (a : SessionActor) : sprog Doc bool :=
  r ← ask (Raft (PopFromPendingQueue (ac_tenant_id a) (ac_client_id a)));
  match (r : outcome RaftFailure SessionStateResponse) with
  | Ok (PopFromPendingQueueResult (Some key) payload) =>
      data ← match payload with
             | Some payload => Ret (Some (document payload))
             | None =>
                 if ac_payload_store a then
                   r ← ask (SGet key); Ret (match (r : io (option Doc)) with Ok data => data | _ => None end)
                 else Ret None
             end;
      _ ← recover_stored (ac_protocol_version a) data;
      Ret true
  | _ => Ret false
  end.

Definition started_future (a : SessionActor) : sprog Doc turn :=
  r ← ask (Lifecycle SessionStarted);
  match (r : io unit) with
  | Ok _ =>
      subscriptions ← locked (reading (fun s => map_to_list (ss_subscriptions s)));
      _ ← ask (SelfSend AllInflightRetryImmediate);
      if ac_clean_session a then Ret nothing
      else
        _ ← ask (Raft (UpdateSessionConnectionState (ac_tenant_id a) (ac_client_id a) None None));
        _ ← each (subscribe_again a) subscriptions;
        Ret (emit (WaitFor (FPopOffline a)))
  | _ => _ ← ask (SelfSend ForceStop); Ret nothing
  end.

Definition reconnect_future (a : SessionActor) : sprog Doc turn :=
  guarded (
    keys ← inside (fun _ s => (pending_messages s, set_pending [] s));
    _ ← each (fun key =>
          if ac_payload_store a then
            r ← ask (SGet key);
            recover_stored (ac_protocol_version a) (match (r : io (option Doc)) with Ok data => data | _ => None end)
          else Ret tt) keys;
    subscriptions ← inside (reading (fun s => map_to_list (ss_subscriptions s)));
    each (subscribe_again a) subscriptions);;
  Ret nothing.

Definition future_program (f : Future) : sprog Doc turn :=
  match f with
  | FStarted a => started_future a
  | FPopOffline a => more ← pop_offline_message a; Ret (if (more : bool) then emit (WaitFor (FPopOffline a)) else nothing)
  | FPublish publish client clean_session payload_store =>
      r ← do_handle_publish publish client clean_session payload_store; Ret (published_turn r)
  | FSubscribe packet client conn clean_session => subscribe_future packet client conn clean_session
  | FUnsubscribe packet client conn clean_session => unsubscribe_future packet client conn clean_session
  | FPubrel packet client conn clean_session payload_store => pubrel_future packet client conn clean_session payload_store
  | FPubrec packet client conn clean_session =>
      release_slot ← pubrec_acknowledged packet client conn clean_session; Ret (released_turn release_slot)
  | FPuback packet client clean_session payload_store =>
      release_slot ← puback_acknowledged packet client clean_session payload_store; Ret (released_turn release_slot)
  | FPubcomp packet client clean_session payload_store =>
      _ ← finish_message (ak_packet_identifier packet) client clean_session payload_store; Ret nothing
  | FDeliver publish context reserved reply =>
      r ← deliver_outbound_publish publish context; Ret (delivered_turn reserved reply r)
  | FDeferred deferred context reserved => r ← deferred_delivery deferred context; Ret (drained_turn reserved r)
  | FConnectionState tenant_id client_id disconnected_at update =>
      _ ← ask (Raft (UpdateSessionConnectionState tenant_id client_id disconnected_at update)); Ret nothing
  | FLifecycle message => _ ← ask (Lifecycle message); Ret nothing
  | FStopped message => _ ← ask (Lifecycle message); Ret (emit StopContext)
  | FDeleteState tenant_id client_id =>
      _ ← ask (Raft (DeleteSessionState tenant_id client_id None)); Ret force_stop
  | FDisconnectedHook tenant_id client_id =>
      _ ← ask (ClientDisconnectedHook tenant_id client_id "Normal Disconnect"); Ret nothing
  | FProtocolError conn reason_code =>
      _ ← ask (ConnSend conn (PDisconnect (mkDisconnect V5_0 reason_code None default_properties)));
      Ret finish_connection_disconnect
  | FWill tenant_id will after => _ ← will_future tenant_id will; Ret (after_will after)
  | FRetry context ids => retry context ids
  | FRetryAll context => retry_all context
  | FForceDisconnect conn => r ← ask (ConnDisconnect conn NormalDisconnect); Ret (force_disconnected r)
  | FReconnect a => reconnect_future a
  | FCleanup payload_store => _ ← cleanup_local_finished_items payload_store; Ret nothing
  | FRaftCleanup tenant_id client_id =>
      _ ← ask (Raft (InflightCleanFinishItems tenant_id client_id)); Ret nothing
  end.
End Futures.
