(* ===== verification/SessionRuntime.v ===== *)
(** * A session actor at work

    What the actor runtime does with the turns and futures of [SessionActor]: the actor
    handles the messages of its mailbox one at a time; while it waits for a future it
    handles no message and advances none of the futures it has spawned; of several
    futures waited for, the one added last comes first; detached tasks run on their own.
    The session state is behind a lock: an operation on it that finds the lock taken is
    not possible until the guard is dropped.

    A [smove] is what happens next, with the answers of the outside world; [sstep] does
    it, or says that it is not possible. *)

From S2P Require Import Prelude Program Utf8 Packet Inflight MessageExpiry TopicFilter TopicStorage SessionState RaftSession RaftLog V3Codec V3Convert Router MqttProperties SessionActor SessionFutures.

#[local] Open Scope Z_scope.

(** The answers of the outside world; a failing call carries its message. *)
Record Ans := mkAns {
  an_now : Z;                              (* milliseconds *)
  an_uuid : string;
  an_fail : option string;
  an_raft : outcome RaftFailure SessionStateResponse;
  an_authorize : io AuthorizeResult;
  an_publish : io MessagePublishResult;
  an_subscribe : io (list SubscribeResultItem);
  an_retained : io (list Packet);
  an_conn : io (io unit);
  an_mailbox : MailboxResult;
}.

(** What is seen from outside: messages handled, packets given to a connection (by a
    future or at once), messages routed, replies. *)
Inductive SEvent :=
  | Handled (message : SessionActorMessage)
  | Wrote (by_ : Future) (conn : Z) (packet : Packet)
  | WroteNow (conn : Z) (packet : Packet)
  | Closed (conn : Z) (reason : DisconnectReason)
  | Routed (tenant_id : string) (packet : Packet) (source : option string)
  | TimerTold (message : TimerMessage)
  | Replied (reply : Z) (r : outcome SessionActorError unit).

(** A task: its number, the future it came from and what is left of it. *)
Record STask (Doc : Type) := mkTask { t_id : nat; t_future : Future; t_prog : sprog Doc turn }.
Arguments mkTask {Doc}.
Arguments t_id {Doc}.
Arguments t_future {Doc}.
Arguments t_prog {Doc}.

Record Runtime (Doc : Type) := mkRuntime {
  r_actor : SessionActor;
  r_state : SessionState;
  r_payloads : gmap string Doc;
  r_lock : option nat;
  r_next : nat;
  r_waits : list (STask Doc);
  r_items : list (STask Doc);
  r_detached : list (STask Doc);
  r_mailbox : list SessionActorMessage;
  r_trace : list SEvent;
  r_running : bool;
}.
Arguments mkRuntime {Doc}.
Arguments r_actor {Doc}.
Arguments r_state {Doc}.
Arguments r_payloads {Doc}.
Arguments r_lock {Doc}.
Arguments r_next {Doc}.
Arguments r_waits {Doc}.
Arguments r_items {Doc}.
Arguments r_detached {Doc}.
Arguments r_mailbox {Doc}.
Arguments r_trace {Doc}.
Arguments r_running {Doc}.

Section Runtime.
Context {Doc : Type} `{Serde Doc Packet, Serde Doc MqttPacketV3, Base64}.
Context (document : bytes -> Doc).
Implicit Types (r : Runtime Doc) (t : STask Doc).

Definition with_actor a r : Runtime Doc :=
  mkRuntime a (r_state r) (r_payloads r) (r_lock r) (r_next r) (r_waits r) (r_items r) (r_detached r) (r_mailbox r) (r_trace r) (r_running r).
Definition with_session s r : Runtime Doc :=
  mkRuntime (r_actor r) s (r_payloads r) (r_lock r) (r_next r) (r_waits r) (r_items r) (r_detached r) (r_mailbox r) (r_trace r) (r_running r).
Definition with_payloads m r : Runtime Doc :=
  mkRuntime (r_actor r) (r_state r) m (r_lock r) (r_next r) (r_waits r) (r_items r) (r_detached r) (r_mailbox r) (r_trace r) (r_running r).
Definition with_lock l r : Runtime Doc :=
  mkRuntime (r_actor r) (r_state r) (r_payloads r) l (r_next r) (r_waits r) (r_items r) (r_detached r) (r_mailbox r) (r_trace r) (r_running r).
Definition with_tasks waits items detached r : Runtime Doc :=
  mkRuntime (r_actor r) (r_state r) (r_payloads r) (r_lock r) (r_next r) waits items detached (r_mailbox r) (r_trace r) (r_running r).
Definition with_mailbox l r : Runtime Doc :=
  mkRuntime (r_actor r) (r_state r) (r_payloads r) (r_lock r) (r_next r) (r_waits r) (r_items r) (r_detached r) l (r_trace r) (r_running r).
Definition observed e r : Runtime Doc :=
  mkRuntime (r_actor r) (r_state r) (r_payloads r) (r_lock r) (r_next r) (r_waits r) (r_items r) (r_detached r)
    (r_mailbox r) (r_trace r ++ [e]) (r_running r).
Definition counted r : Runtime Doc :=
  mkRuntime (r_actor r) (r_state r) (r_payloads r) (r_lock r) (S (r_next r)) (r_waits r) (r_items r) (r_detached r)
    (r_mailbox r) (r_trace r) (r_running r).
(** The actor is gone: its futures are dropped and its messages are not handled. *)
Definition halted r : Runtime Doc :=
  mkRuntime (r_actor r) (r_state r) (r_payloads r) (r_lock r) (r_next r) [] [] (r_detached r) [] (r_trace r) false.

(** ** Effects *)

Definition new_task (f : Future) r : STask Doc := mkTask (r_next r) f (future_program document f).

(** The guard of a task that is dropped is released. *)
Definition release_dropped (dropped : list (STask Doc)) r : Runtime Doc :=
  match r_lock r with
  | Some n => if existsb (fun t => t_id t =? n)%nat dropped then with_lock None r else r
  | None => r
  end.

Definition enqueue (m : SessionActorMessage) r : Runtime Doc :=
  if r_running r then with_mailbox (r_mailbox r ++ [m]) r else r.

(** Stopping the context ends with [stopped]. *)
Definition apply_effect (e : Effect) r : Runtime Doc :=
  match e with
  | WriteTo conn packet => observed (WroteNow conn packet) r
  | Close conn reason => observed (Closed conn reason) r
  | Timer m => observed (TimerTold m) r
  | ToSelf m => enqueue m r
  | Complete n res => observed (Replied n res) r
  | WaitFor f => counted (with_tasks (new_task f r :: r_waits r) (r_items r) (r_detached r) r)
  | SpawnFuture f => counted (with_tasks (r_waits r) (r_items r ++ [new_task f r]) (r_detached r) r)
  | Detach f => counted (with_tasks (r_waits r) (r_items r) (r_detached r ++ [new_task f r]) r)
  | StopContext =>
      observed (TimerTold (RemoveTimer TimerKeepAlive)) (observed (TimerTold (RemoveTimer TimerInflight))
        (halted (release_dropped (r_waits r ++ r_items r) r)))
  end.

Definition run_turn (now : Z) (u : turn) r : Runtime Doc :=
  let '(a, effects) := u now (r_actor r) in foldl (fun r e => apply_effect e r) (with_actor a r) effects.

(** ** Operations *)

Definition failing {A} (ans : Ans) (x : A) : io A := match an_fail ans with Some e => Err e | None => Ok x end.
Definition storing (ans : Ans) r r' : io unit * Runtime Doc :=
  match an_fail ans with Some e => (Err e, r) | None => (Ok tt, r') end.

(** The lock is free for an operation that takes it. *)
Definition free r : bool := match r_lock r with None => true | Some _ => false end.

(** Whether the operation is possible now. *)
Definition enabled (o : sop Doc) r : bool :=
  match o with
  | Lock => free r
  | State held _ _ => held || free r
  | _ => true
  end.

(** A packet is written when the connection says so. *)
Definition writing_to (f : Future) (conn : Z) (packet : Packet) (ans : Ans) r : Runtime Doc :=
  match an_conn ans with Ok (Ok _) => observed (Wrote f conn packet) r | _ => r end.

Definition sexec (t : STask Doc) (ans : Ans) (o : sop Doc) r : sres o * Runtime Doc :=
  match o return sres o * Runtime Doc with
  | SNow => (unix_secs (an_now ans), r)
  | SUuid => (an_uuid ans, r)
  | SPut key data => storing ans r (with_payloads (<[key := data]> (r_payloads r)) r)
  | SGet key => (failing ans (r_payloads r !! key), r)
  | SDelete key => storing ans r (with_payloads (delete key (r_payloads r)) r)
  | Lock => (tt, with_lock (Some (t_id t)) r)
  | Unlock => (tt, if decide (r_lock r = Some (t_id t)) then with_lock None r else r)
  | State _ A f => let '(x, s) := f (unix_secs (an_now ans)) (r_state r) in (x, with_session s r)
  | Raft _ => (an_raft ans, r)
  | Authorize _ => (an_authorize ans, r)
  | OnMessagePublish _ => (an_publish ans, r)
  | OnMessageSubscribe _ _ => (an_subscribe ans, r)
  | MessagePublished _ => (tt, r)
  | ClientDisconnectedHook _ _ _ => (tt, r)
  | TopicSubscribe _ _ _ _ _ _ => (failing ans tt, r)
  | TopicUnsubscribe _ _ _ => (failing ans tt, r)
  | CleanRetain _ _ => (failing ans tt, r)
  | RegisterRetain _ _ _ => (failing ans tt, r)
  | GetRetained _ _ => (an_retained ans, r)
  | RouteSend tenant_id packet source => storing ans r (observed (Routed tenant_id packet source) r)
  | RouteDoSend tenant_id packet source => (tt, observed (Routed tenant_id packet source) r)
  | ConnSend conn packet => (an_conn ans, writing_to (t_future t) conn packet ans r)
  | ConnDoSend conn packet => (tt, observed (Wrote (t_future t) conn packet) r)
  | ConnDisconnect conn reason => (an_mailbox ans, observed (Closed conn reason) r)
  | Lifecycle _ => (failing ans tt, r)
  | SelfSend m => (tt, enqueue m r)
  | DetachFuture f => (tt, apply_effect (Detach f) r)
  end.

(** ** Steps *)

(** Where a task is kept. *)
Inductive place := Waiting | Spawned (i : nat) | Detached_ (i : nat).

Definition task_at (pl : place) r : option (STask Doc) :=
  match pl with
  | Waiting => head (r_waits r)
  | Spawned i => match r_waits r with [] => r_items r !! i | _ => None end
  | Detached_ i => r_detached r !! i
  end.

(** The task replaced by what is left of it. *)
Definition put_task (pl : place) (l : list (STask Doc)) r : Runtime Doc :=
  match pl with
  | Waiting => with_tasks (l ++ tail (r_waits r)) (r_items r) (r_detached r) r
  | Spawned i => with_tasks (r_waits r) (take i (r_items r) ++ l ++ drop (S i) (r_items r)) (r_detached r) r
  | Detached_ i => with_tasks (r_waits r) (r_items r) (take i (r_detached r) ++ l ++ drop (S i) (r_detached r)) r
  end.

(** A future that has returned is removed and its continuation runs. *)
Definition settle (pl : place) (t : STask Doc) (now : Z) (p : sprog Doc turn) r : Runtime Doc :=
  match p with
  | Ret u => run_turn now u (put_task pl [] r)
  | p => put_task pl [mkTask (t_id t) (t_future t) p] r
  end.

Definition step_task (pl : place) (ans : Ans) r : option (Runtime Doc) :=
  t ← task_at pl r;
  match t_prog t with
  | Ret u => Some (settle pl t (an_now ans) (Ret u) r)
  | Do o k =>
      if enabled o r
      then Some (let '(x, r') := sexec t ans o r in settle pl t (an_now ans) (k x) r')
      else None
  end.

Inductive smove :=
  | Deliver (message : SessionActorMessage)
  | Handle (now : Z)
  | Advance (pl : place) (ans : Ans).

Definition sstep (m : smove) r : option (Runtime Doc) :=
  match m with
  | Deliver message => Some (enqueue message r)
  | Handle now =>
      match r_waits r, r_mailbox r with
      | [], message :: rest => Some (run_turn now (handle message) (observed (Handled message) (with_mailbox rest r)))
      | _, _ => None
      end
  | Advance pl ans => step_task pl ans r
  end.

Fixpoint ssteps (ms : list smove) r : option (Runtime Doc) :=
  match ms with
  | [] => Some r
  | m :: ms => r ← sstep m r; ssteps ms r
  end.

(** The actor is started on its connection, with the state the session had. *)
Definition start_session (a : SessionActor) (s : SessionState) (payloads : gmap string Doc) (now : Z) : Runtime Doc :=
  run_turn now started (mkRuntime a s payloads None 0 [] [] [] [] [] true).
End Runtime.
