(* ===== verification/SessionFlow.v ===== *)
(** * Receive Maximum

    An MQTT 5 client says how many messages of QoS 1 and 2 it is willing to have
    unacknowledged.  The actor counts a slot for each one it sends and queues the others.
    Here: however turns, futures and failures interleave, the messages sent this way
    exceed the acknowledgements received by at most that number, and while nothing fails
    no message stays queued beside a free slot.

    A turn is [balanced] when it does not create slots out of nothing; a program is
    judged by [flow], operation by operation. *)

From S2P Require Import Prelude Program Utf8 Packet Inflight MessageExpiry TopicFilter TopicStorage TopicRouting SessionState RaftSession RaftLog V3Codec V3Convert Router MqttProperties SessionActor SessionFutures SessionRuntime.

#[local] Open Scope Z_scope.
#[local] Open Scope turn_scope.

Create HintDb flow.

(** ** What is counted *)

Definition no_reconnect (m : SessionActorMessage) : Prop := match m with Reconnect _ => False | _ => True end.

(** A future that holds a slot for a message it is about to send, or that handles an
    acknowledgement, has a claim on a slot. *)
Definition holding (f : Future) : bool :=
  match f with FDeliver _ _ reserved _ => reserved | FDeferred _ _ reserved => reserved | _ => false end.
Definition acking (f : Future) : bool := match f with FPuback _ _ _ _ | FPubrec _ _ _ _ => true | _ => false end.
Definition claims (f : Future) : nat := if holding f || acking f then 1 else 0.

(** The deliveries subject to the limit. *)
Definition is_flow (f : Future) : bool := match f with FDeliver _ _ _ _ | FDeferred _ _ _ => true | _ => false end.
Definition limited (p : Packet) : bool := match p with PPublish p => 0 <? pb_qos p | _ => false end.
Definition flow_write (e : SEvent) : bool := match e with Wrote f _ p => is_flow f && limited p | _ => false end.
Definition ack_received (e : SEvent) : bool :=
  match e with
  | Handled (InboundPacket (PPuback _)) | Handled (InboundPacket (PPubrec _)) => true
  | _ => false
  end.

Definition count {A} (P : A -> bool) (l : list A) : nat := length (List.filter P l).
Lemma count_app {A} (P : A -> bool) l l' : count P (l ++ l') = (count P l + count P l')%nat.
Proof. unfold count. by rewrite List.filter_app, length_app. Qed.

(** Messages sent under the limit, and acknowledgements received. *)
Definition messages_sent (l : list SEvent) : nat := count flow_write l.
Definition acks_received (l : list SEvent) : nat := count ack_received l.

(** ** Turns *)

Definition detached_ok (f : Future) : Prop := match f with FCleanup _ | FRaftCleanup _ _ => True | _ => False end.
(** A delivery without a slot sends nothing that needs one. *)
Definition quiet (p : Publish) (cx : DeliveryContext) : Prop :=
  pb_qos p <= 0 \/ cx_defer_delivery cx = true \/ cx_activity_state cx = Inactive.
Definition future_ok (f : Future) : Prop :=
  match f with
  | FDeliver p cx reserved _ => reserved = true \/ quiet p cx
  | FDeferred d _ reserved => reserved = true \/ pb_qos (d_publish d) <= 0
  | _ => True
  end.
Definition effect_ok (e : Effect) : Prop :=
  match e with
  | WaitFor f | SpawnFuture f => future_ok f
  | Detach f => detached_ok f
  | ToSelf m => no_reconnect m
  | _ => True
  end.
Definition effect_claims (e : Effect) : nat := match e with WaitFor f | SpawnFuture f => claims f | _ => 0 end.
Definition all_claims (es : list Effect) : nat := sum_list_with effect_claims es.

Definition within (limit : Z) (a : SessionActor) : Prop :=
  ac_protocol_version a = V5_0 /\ ac_receive_maximum a = limit /\ (ac_slots a <= receive_maximum_limit a)%nat.

(** At most [n] slots are given back; the claims that appear are covered by slots taken. *)
Definition balanced (limit : Z) (n : nat) (u : turn) : Prop :=
  forall now a, within limit a ->
    within limit (u now a).1 /\
    (ac_slots a + all_claims (u now a).2 <= ac_slots (u now a).1 + n)%nat /\
    Forall effect_ok (u now a).2.

Section Balanced.
Context (limit : Z).
Abbreviation balanced := (balanced limit).
Abbreviation within := (within limit).

Lemma balanced_mono n m u : (n <= m)%nat -> balanced n u -> balanced m u.
Proof. intros Hle Hu now a Ha. destruct (Hu now a Ha) as (? & ? & ?). split_and!; [done|lia|done]. Qed.
Lemma balanced_nothing : balanced 0 nothing.
Proof. intros now a Ha. cbn. split_and!; [done|lia|constructor]. Qed.
Lemma balanced_emit n e : (effect_claims e <= n)%nat -> effect_ok e -> balanced n (emit e).
Proof. intros Hle He now a Ha. cbn. split_and!; [done|lia|by repeat constructor]. Qed.
Lemma balanced_modify f :
  (forall a, within a -> within (f a) /\ ac_slots (f a) = ac_slots a) -> balanced 0 (modify f).
Proof. intros Hf now a Ha. destruct (Hf a Ha) as [? Heq]. cbn. rewrite Heq. split_and!; [done|lia|constructor]. Qed.
Lemma balanced_andthen n m u v : balanced n u -> balanced m v -> balanced (n + m) (u >>> v).
Proof.
  intros Hu Hv now a Ha. unfold andthen. destruct (Hu now a Ha) as (Ha' & Hs & He).
  destruct (u now a) as [a' es]. cbn [fst snd] in *. destruct (Hv now a' Ha') as (Ha'' & Hs' & He').
  destruct (v now a') as [a'' es']. cbn [fst snd] in *. unfold all_claims in *. rewrite sum_list_with_app.
  split_and!; [done|lia|by apply Forall_app].
Qed.
Lemma balanced_seq n u v : balanced 0 u -> balanced n v -> balanced n (u >>> v).
Proof. apply (balanced_andthen 0). Qed.
Lemma balanced_then n u v : balanced n u -> balanced 0 v -> balanced n (u >>> v).
Proof. intros. rewrite <-(Nat.add_0_r n). by apply balanced_andthen. Qed.
Lemma balanced_with_self n f : (forall a, within a -> balanced n (f a)) -> balanced n (with_self f).
Proof. intros Hf now a Ha. by apply (Hf a Ha now a). Qed.
Lemma balanced_with_clock n f : (forall now, balanced n (f now)) -> balanced n (with_clock f).
Proof. intros Hf now a Ha. by apply (Hf now now a). Qed.
Lemma balanced_to_conn n f : (forall conn, balanced n (f conn)) -> balanced n (to_conn f).
Proof.
  intros Hf. apply balanced_with_self. intros a _. destruct (ac_conn a); [done|].
  eapply balanced_mono, balanced_nothing. lia.
Qed.
End Balanced.
#[export] Hint Resolve balanced_nothing balanced_seq balanced_with_self balanced_with_clock balanced_to_conn : flow.

(** *** The turns of the actor *)

Section Turns.
Context (limit : Z).
Abbreviation balanced := (balanced limit).
Abbreviation within := (within limit).

Lemma limit_with_slots n a : receive_maximum_limit (with_slots n a) = receive_maximum_limit a.
Proof. done. Qed.
Lemma within_slots n a : within a -> (n <= receive_maximum_limit a)%nat -> within (with_slots n a).
Proof. by intros (Hv & Hl & _) Hn. Qed.

Lemma balanced_release : balanced 1 release_receive_slot.
Proof.
  intros now a Ha. cbn [release_receive_slot modify fst snd].
  split_and!; [apply within_slots; [done|]|unfold all_claims; cbn [ac_slots with_slots sum_list_with]; lia|constructor].
  destruct Ha as (_ & _ & Hs). lia.
Qed.

Lemma balanced_push_back d : balanced 0 (push_back d).
Proof. by apply balanced_modify. Qed.
Lemma balanced_push_front d : balanced 0 (push_front d).
Proof. by apply balanced_modify. Qed.

(** A future with a slot taken for it. *)
Lemma balanced_reserved (e : Effect) now a :
  within a -> can_reserve_receive_slot a = true -> effect_claims e = 1%nat -> effect_ok e ->
  let '(a', es) := (reserve_receive_slot >>> emit e) now a in
  within a' /\ (ac_slots a + all_claims es <= ac_slots a')%nat /\ Forall effect_ok es.
Proof.
  intros Ha Hc He Hok. apply Nat.ltb_lt in Hc. cbn [reserve_receive_slot andthen modify emit app].
  split_and!; [by apply within_slots|unfold all_claims; cbn [ac_slots with_slots sum_list_with]; lia|by repeat constructor].
Qed.

Lemma balanced_start p reply : balanced 0 (start_outbound_publish_delivery p reply).
Proof.
  intros now a Ha. unfold start_outbound_publish_delivery, with_self.
  destruct (outbound_publish_uses_receive_slot a p) eqn:Hu; cbn [andb negb].
  - destruct (can_reserve_receive_slot a) eqn:Hc; cbn [andb negb].
    + rewrite Nat.add_0_r. destruct (ac_clean_session a).
      * apply (balanced_reserved (SpawnFuture (FDeliver p (delivery_context false a) true reply)) now a); [done..|by left].
      * apply (balanced_reserved (WaitFor (FDeliver p (delivery_context false a) true reply)) now a); [done..|by left].
    + destruct (ac_clean_session a) eqn:Hclean.
      * apply balanced_seq; [apply balanced_push_back| |done].
        destruct reply; [apply balanced_emit; [cbn; lia|done]|apply balanced_nothing].
      * apply balanced_seq; [apply balanced_nothing|apply balanced_emit; [cbn; lia|]|done].
        right. right. by left.
  - assert (quiet p (delivery_context false a)) as Hq.
    { destruct Ha as (Hv & _). unfold quiet, outbound_publish_uses_receive_slot in *.
      rewrite bool_decide_eq_true_2 in Hu by done.
      cbn [delivery_context cx_activity_state]. destruct (ac_activity_state a); [|by right; right].
      left. rewrite bool_decide_eq_true_2 in Hu by done. cbn [andb] in Hu. by apply Z.ltb_ge in Hu. }
    apply balanced_seq; [apply balanced_nothing| |done].
    destruct (ac_clean_session a); (apply balanced_emit; [cbn; lia|by right]).
Qed.

Lemma start_active p reply now a :
  ac_activity_state a = Active ->
  ac_activity_state (start_outbound_publish_delivery p reply now a).1 = Active.
Proof.
  intros Ha. unfold start_outbound_publish_delivery, with_self. unfold andthen.
  destruct (outbound_publish_uses_receive_slot a p), (can_reserve_receive_slot a), (ac_clean_session a), reply; done.
Qed.

(** Sequences at one actor. *)
Definition balanced_at (u : turn) (now : Z) (a : SessionActor) : Prop :=
  within (u now a).1 /\ (ac_slots a + all_claims (u now a).2 <= ac_slots (u now a).1)%nat /\ Forall effect_ok (u now a).2.
Lemma balanced_at_seq u v now a :
  balanced_at u now a -> balanced_at v now (u now a).1 -> balanced_at (u >>> v) now a.
Proof.
  unfold balanced_at, andthen. intros (Ha' & Hs & He). destruct (u now a) as [a' es]. cbn [fst snd] in *.
  intros (Ha'' & Hs' & He'). destruct (v now a') as [a'' es']. cbn [fst snd] in *.
  unfold all_claims in *. rewrite sum_list_with_app. split_and!; [done|lia|by apply Forall_app].
Qed.
Lemma balanced_at_of u now a : balanced 0 u -> within a -> balanced_at u now a.
Proof. intros Hu Ha. destruct (Hu now a Ha) as (? & Hs & ?). rewrite Nat.add_0_r in Hs. done. Qed.

Lemma balanced_drain_loop fuel now : forall a,
  within a -> ac_activity_state a = Active -> balanced_at (drain_loop fuel) now a.
Proof.
  induction fuel as [|fuel IH]; intros a Ha Hact; [by apply balanced_at_of; [apply balanced_nothing|]|].
  cbn [drain_loop]. unfold with_self, balanced_at.
  destruct (ac_deferred a) as [|d rest] eqn:Hd; [by apply (balanced_at_of nothing); [apply balanced_nothing|]|].
  destruct (outbound_publish_uses_receive_slot a (d_publish d) && negb (can_reserve_receive_slot a)) eqn:Hstop;
    [by apply (balanced_at_of nothing); [apply balanced_nothing|]|].
  apply balanced_at_seq; [by apply balanced_at_of; [apply balanced_modify|]|]. cbn [modify fst].
  destruct (d_registered d).
  - destruct (outbound_publish_uses_receive_slot a (d_publish d)) eqn:Hu; cbn [andb] in Hstop.
    + apply negb_false_iff in Hstop. unfold balanced_at.
      pose proof (balanced_reserved (WaitFor (FDeferred d (outbound_delivery_context a) true)) now (with_deferred rest a)) as Hr.
      apply Hr; [done..|by left].
    + apply balanced_at_of; [|done]. apply balanced_seq; [apply balanced_nothing|apply balanced_emit; [cbn; lia|]].
      right. unfold outbound_publish_uses_receive_slot in Hu. destruct Ha as (Hv & _).
      rewrite !bool_decide_eq_true_2 in Hu by done. cbn [andb] in Hu. by apply Z.ltb_ge in Hu.
  - apply balanced_at_seq; [by apply balanced_at_of; [apply balanced_start|]|].
    apply IH; [by apply (balanced_start (d_publish d) None now (with_deferred rest a))|by apply start_active].
Qed.

Lemma balanced_drain : balanced 0 drain_deferred_outbound_publishes.
Proof.
  intros now a Ha. rewrite Nat.add_0_r. unfold drain_deferred_outbound_publishes, with_self.
  destruct (decide (ac_activity_state a = Inactive)); [by apply (balanced_at_of nothing); [apply balanced_nothing|]|].
  apply (balanced_drain_loop _ now a Ha). by destruct (ac_activity_state a).
Qed.

Lemma balanced_released b : balanced 1 (released_turn b).
Proof.
  destruct b; [apply balanced_then; [apply balanced_release|apply balanced_drain]|].
  apply (balanced_mono _ 0); [lia|apply balanced_nothing].
Qed.

Lemma balanced_quiet n e : effect_claims e = 0%nat -> effect_ok e -> balanced n (emit e).
Proof. intros He Hok. apply balanced_emit; [lia|done]. Qed.
End Turns.
#[export] Hint Resolve balanced_push_back balanced_push_front balanced_start balanced_drain : flow.

(** A turn is taken apart; what is emitted makes no claim. *)
Ltac balance :=
  repeat (progress intros
    || match goal with
       | |- balanced _ 0 (_ >>> _) => apply balanced_seq
       | |- balanced _ _ (with_self _) => apply balanced_with_self
       | |- balanced _ _ (with_clock _) => apply balanced_with_clock
       | |- balanced _ _ (to_conn _) => apply balanced_to_conn
       | |- balanced _ 0 (emit _) => apply balanced_quiet
       | |- balanced _ 0 (modify _) => apply balanced_modify
       | |- balanced _ _ (if ?b then _ else _) => destruct b
       | |- balanced _ _ (match ?x with _ => _ end) => destruct x
       | |- balanced _ 0 _ => solve [eauto 2 with flow]
       end); try done; try (by repeat case_match).

Section MoreTurns.
Context (limit : Z).
Abbreviation balanced := (balanced limit).

Lemma balanced_timers : balanced 0 stop_inflight_and_keep_alive_timer.
Proof. unfold stop_inflight_and_keep_alive_timer. balance. Qed.
#[local] Hint Resolve balanced_timers : flow.
Lemma balanced_force_stop : balanced 0 force_stop.
Proof. unfold force_stop, notify_session_manager_stopped. balance. Qed.
Lemma balanced_set_state s : balanced 0 (set_state s).
Proof. unfold set_state. balance. Qed.
#[local] Hint Resolve balanced_force_stop balanced_set_state : flow.
Lemma balanced_finish : balanced 0 finish_connection_disconnect.
Proof. unfold finish_connection_disconnect, delete_session_state_and_force_stop, disconnected_metrics. balance. Qed.
#[local] Hint Resolve balanced_finish : flow.
Lemma balanced_published r : balanced 0 (published_turn r).
Proof. unfold published_turn. balance. Qed.
Lemma balanced_after_will w : balanced 0 (after_will w).
Proof. unfold after_will. balance. Qed.
Lemma balanced_force_disconnected m : balanced 0 (force_disconnected m).
Proof. unfold force_disconnected, disconnected_metrics. balance. Qed.
Lemma balanced_recover l : balanced 0 (recover_packets l).
Proof. induction l; cbn [recover_packets]; unfold recover_packet; balance. Qed.
Lemma balanced_reply reply r : balanced 0 (reply_turn reply r).
Proof. unfold reply_turn. balance. Qed.
#[local] Hint Resolve balanced_reply : flow.
Lemma balanced_delivered (reserved : bool) reply r : balanced (if reserved then 1 else 0) (delivered_turn reserved reply r).
Proof.
  assert (balanced (if reserved then 1 else 0)%nat (released_turn reserved)) as Hr.
  { destruct reserved; [apply balanced_released|apply balanced_nothing]. }
  unfold delivered_turn. destruct r as [[]|e| |]; try (apply balanced_then; eauto with flow);
    (apply (balanced_mono _ 0); [lia|balance]).
Qed.
Lemma balanced_drained (reserved : bool) r : balanced (if reserved then 1 else 0) (drained_turn reserved r).
Proof.
  assert (balanced (if reserved then 1 else 0)%nat (if reserved then release_receive_slot else nothing)) as Hr.
  { destruct reserved; [apply balanced_release|apply balanced_nothing]. }
  unfold drained_turn. destruct (r.1) as [[]|e| |]; try (apply balanced_then; eauto with flow);
    (apply (balanced_mono _ 0); [lia|balance]).
Qed.
Lemma balanced_started : balanced 0 started.
Proof. unfold started, start_inflight_and_keep_alive_timer, register_inflight_retry_timer. balance. Qed.

(** Messages: an acknowledgement makes the claim it pays for. *)
Definition message_claims (m : SessionActorMessage) : nat := if ack_received (Handled m) then 1 else 0.
Lemma balanced_inbound p : balanced (message_claims (InboundPacket p)) (handle_inbound p).
Proof.
  unfold handle_inbound. apply balanced_seq; [unfold reset_keep_alive_expired_flag; balance|].
  apply balanced_seq; [balance|].
  destruct p; unfold message_claims; cbn [ack_received]; try (by balance);
    unfold handle_puback, handle_pubrec, handle_pubrel, handle_pubcomp, handle_pingreq, handle_subscribe,
      handle_unsubscribe, handle_publish, handle_disconnect, normal_disconnect, clean_will_message; balance.
  - apply balanced_emit; [cbn; lia|done].
  - apply balanced_emit; [cbn; lia|done].
Qed.
Lemma balanced_handle m : no_reconnect m -> balanced (message_claims m) (handle m).
Proof.
  destruct m; intros Hr; try done; cbn [handle]; [apply balanced_inbound|..]; unfold message_claims; cbn [ack_received];
    unfold send_will_message, register_inflight_retry_timer; balance.
Qed.
End MoreTurns.
#[export] Hint Resolve balanced_recover balanced_published balanced_after_will balanced_force_disconnected balanced_finish balanced_force_stop
  balanced_delivered balanced_drained balanced_released : flow.

(** ** Programs *)

Section Flow.
Context {Doc : Type} `{Serde Doc Packet, Serde Doc MqttPacketV3, Base64}.
Context (document : bytes -> Doc).

Definition op_ok (o : sop Doc) : Prop :=
  match o with SelfSend m => no_reconnect m | DetachFuture f => detached_ok f | _ => True end.

(** A packet under the limit that the connection takes. *)
Definition takes (o : sop Doc) : sres o -> bool :=
  match o return sres o -> bool with
  | ConnSend _ p => fun x => match x with Ok (Ok _) => limited p | _ => false end
  | ConnDoSend _ p => fun _ => limited p
  | _ => fun _ => false
  end.

(** An answer that can come: what is read of the state is read off some state. *)
Definition possible (o : sop Doc) : sres o -> Prop :=
  match o return sres o -> Prop with
  | State _ A f => fun x => exists now s, x = (f now s).1
  | _ => fun _ => True
  end.

(** A program whose writes are [counted] sends at most one message under the limit, only
    when it has a slot ([held]), and then returns at once, with a result in [S]; the
    other results are in [Q]. *)
Fixpoint flow {A} (counted held : bool) (Q S : A -> Prop) (p : sprog Doc A) : Prop :=
  match p with
  | Ret a => Q a
  | Do o k =>
      op_ok o /\
      forall x, possible o x ->
                if counted && takes o x then held = true /\ exists a, k x = Ret a /\ S a
                else flow counted held Q S (k x)
  end.

Lemma flow_mono {A} c h (Q Q' S S' : A -> Prop) p :
  (forall a, Q a -> Q' a) -> (forall a, S a -> S' a) -> flow c h Q S p -> flow c h Q' S' p.
Proof.
  intros HQ HS. induction p as [a|o k IH]; cbn [flow]; [auto|]. intros [Ho Hk]. split; [done|]. intros x Hx.
  specialize (Hk x Hx). destruct (c && takes o x); [|auto]. destruct Hk as (? & a & ? & ?). eauto.
Qed.

Lemma flow_bind {A B} c h (Q S : B -> Prop) (p : sprog Doc A) (f : A -> sprog Doc B) :
  flow c h (fun a => flow c h Q S (f a)) (fun a => exists b, f a = Ret b /\ S b) p -> flow c h Q S (p ≫= f).
Proof.
  induction p as [a|o k IH]; [done|]. cbn [flow]. intros [Ho Hk]. cbn [mbind prog_bind flow]. split; [done|].
  intros x Hx. specialize (Hk x Hx). destruct (c && takes o x); [|by apply IH].
  destruct Hk as (? & a & Hk & b & Hf & Hb). split; [done|]. exists b. split; [|done]. by rewrite Hk.
Qed.

(** Programs whose writes are not counted. *)
Definition free_flow {A} (Q : A -> Prop) (p : sprog Doc A) : Prop := flow false false Q (fun _ => False) p.

Lemma free_uncounted {A} h (Q S : A -> Prop) p : free_flow Q p -> flow false h Q S p.
Proof.
  unfold free_flow. induction p as [a|o k IH]; cbn [flow]; [done|]. intros [Ho Hk]. split; [done|].
  intros x Hx. by apply IH, Hk.
Qed.
Lemma free_bind {A B} (Q : B -> Prop) (p : sprog Doc A) (f : A -> sprog Doc B) :
  free_flow (fun _ => True) p -> (forall a, free_flow Q (f a)) -> free_flow Q (p ≫= f).
Proof. intros Hp Hf. apply flow_bind. revert Hp. apply flow_mono; [intros; apply Hf|intros ? Hx; contradiction Hx]. Qed.
Lemma free_ret {A} (Q : A -> Prop) a : Q a -> free_flow Q (Ret a).
Proof. done. Qed.
Lemma free_ask o : op_ok o -> free_flow (fun _ => True) (ask o).
Proof. done. Qed.
Lemma free_attempt {E A B} (Q : outcome E B -> Prop) (p : sprog Doc (outcome E A)) f :
  free_flow (fun _ => True) p -> (forall a, free_flow Q (f a)) -> (forall e, Q (Err e)) -> Q Panic -> Q OutOfFuel ->
  free_flow Q (attempt p f).
Proof. intros Hp Hf He Hpa Ho. apply free_bind; [done|]. intros [a|e| |]; [apply Hf|apply free_ret..]; done. Qed.
Lemma free_fails_with {E F A} (g : E -> F) (p : sprog Doc (outcome E A)) :
  free_flow (fun _ => True) p -> free_flow (fun _ => True) (fails_with g p).
Proof. intros Hp. by apply free_bind. Qed.
Lemma free_guarded {A} (p : sprog Doc A) : free_flow (fun _ => True) p -> free_flow (fun _ => True) (guarded p).
Proof. intros Hp. apply free_bind; [done|intros _]. apply free_bind; [done|intros a]. by apply free_bind. Qed.
Lemma free_each {A B} (f : A -> sprog Doc B) l :
  (forall a, free_flow (fun _ => True) (f a)) -> free_flow (fun _ => True) (each f l).
Proof. intros Hf. induction l; cbn [each]; [done|]. by apply free_bind. Qed.
End Flow.

(** A program without counted writes is taken apart. *)
Ltac free :=
  repeat (progress intros
    || match goal with
       | |- free_flow _ (Ret _) => apply free_ret
       | |- free_flow _ (attempt _ _) => apply free_attempt
       | |- free_flow _ (mbind _ _) => apply free_bind
       | |- free_flow _ (ask _) => apply free_ask
       | |- free_flow _ (locked _) => apply free_ask
       | |- free_flow _ (inside _) => apply free_ask
       | |- free_flow _ (fails_with _ _) => apply free_fails_with
       | |- free_flow _ (guarded _) => apply free_guarded
       | |- free_flow _ (each _ _) => apply free_each
       | |- free_flow _ (if ?b then _ else _) => destruct b
       | |- free_flow _ (match ?x with _ => _ end) => destruct x
       | |- free_flow _ (let '(_, _) := ?x in _) => destruct x
       | |- free_flow _ _ => solve [eauto 2 with flow]
       end); try done.

Section Programs.
Context {Doc : Type} `{Serde Doc Packet, Serde Doc MqttPacketV3, Base64}.
Context (document : bytes -> Doc).
Abbreviation free_flow := (free_flow (Doc := Doc)).
Abbreviation any := (fun _ => True).

Lemma free_discard cx id key : free_flow any (discard_unsent_message cx id key).
Proof. unfold discard_unsent_message. free. Qed.
#[local] Hint Resolve free_discard : flow.
Lemma free_stored_expired key : free_flow any (stored_expired key).
Proof. unfold stored_expired. free. Qed.
#[local] Hint Resolve free_stored_expired : flow.
Lemma free_cleanup_items cx l : free_flow any (cleanup_expired_items cx l).
Proof. induction l as [|it l IH]; cbn [cleanup_expired_items]; free. Qed.
#[local] Hint Resolve free_cleanup_items : flow.
Lemma free_cleanup cx : free_flow any (cleanup_expired_unsent cx).
Proof. unfold cleanup_expired_unsent. free. Qed.
#[local] Hint Resolve free_cleanup : flow.
Lemma free_collect st now l : free_flow any (collect_inflight_retry_packets st now l).
Proof. induction l as [|[[id key] s] l IH]; cbn [collect_inflight_retry_packets]; free. Qed.
#[local] Hint Resolve free_collect : flow.
Lemma free_register client p clean st : free_flow any (register_received p client clean st).
Proof. unfold register_received. free. Qed.
Lemma free_retain_route p client ack : free_flow any (retain_and_route p client ack).
Proof. unfold retain_and_route. free. Qed.
#[local] Hint Resolve free_register free_retain_route : flow.
Lemma free_do_handle_publish p client clean st : free_flow any (do_handle_publish p client clean st).
Proof. unfold do_handle_publish, accept_publish. free. Qed.
#[local] Hint Resolve free_do_handle_publish : flow.
Lemma free_subscribe_filter packet client existing topic : free_flow any (subscribe_topic_filter packet client existing topic).
Proof. unfold subscribe_topic_filter, subscribe_granted. free. Qed.
#[local] Hint Resolve free_subscribe_filter : flow.
Lemma free_subscribe_topics packet client existing l : free_flow any (subscribe_topics packet client existing l).
Proof. induction l; cbn [subscribe_topics]; free. Qed.
#[local] Hint Resolve free_subscribe_topics : flow.
Lemma free_do_subscribe packet client existing : free_flow any (do_handle_subscribe packet client existing).
Proof. unfold do_handle_subscribe. free. Qed.
#[local] Hint Resolve free_do_subscribe : flow.
Lemma free_advance client id : free_flow any (advance_inflight_state client id).
Proof. unfold advance_inflight_state. free. Qed.
Lemma free_clean client : free_flow any (clean_finished_inflight_items client).
Proof. unfold clean_finished_inflight_items. free. Qed.
#[local] Hint Resolve free_advance free_clean : flow.
Lemma free_finish id client clean st : free_flow any (finish_message id client clean st).
Proof. unfold finish_message. free. Qed.
#[local] Hint Resolve free_finish : flow.
Lemma free_recover v d : free_flow any (recover_stored v d).
Proof. unfold recover_stored. free. Qed.
#[local] Hint Resolve free_recover : flow.
Lemma free_pop a : free_flow any (pop_offline_message document a).
Proof. unfold pop_offline_message. free. Qed.
#[local] Hint Resolve free_pop : flow.
Lemma free_expects s id : free_flow any (expects s id).
Proof. unfold expects. free. Qed.
#[local] Hint Resolve free_expects : flow.
Lemma free_puback packet client clean st : free_flow any (puback_acknowledged packet client clean st).
Proof. unfold puback_acknowledged. free. Qed.
Lemma free_pubrec packet client conn clean : free_flow any (pubrec_acknowledged packet client conn clean).
Proof. unfold pubrec_acknowledged. free. Qed.
#[local] Hint Resolve free_puback free_pubrec : flow.

(** *** Deliveries *)

(** What does not write can be followed by what does. *)
Lemma flow_after {A B} c h (Q S : B -> Prop) (p : sprog Doc A) (f : A -> sprog Doc B) :
  flow c h any (fun _ => False) p -> (forall a, flow c h Q S (f a)) -> flow c h Q S (p ≫= f).
Proof.
  intros Hp Hf. apply flow_bind. revert Hp. apply flow_mono; [intros; apply Hf|intros ? Hx; contradiction Hx].
Qed.
Lemma flow_attempt {E A B} c h (Q S : outcome E B -> Prop) (p : sprog Doc (outcome E A)) f :
  flow c h any (fun _ => False) p -> (forall a, flow c h Q S (f a)) ->
  (forall r, (forall b, r <> Ok b) -> Q r) -> flow c h Q S (attempt p f).
Proof. intros Hp Hf HQ. apply flow_after; [done|]. intros [a|e| |]; [apply Hf|by apply HQ..]. Qed.

Definition silent (o : sop Doc) : Prop := match o with ConnSend _ _ | ConnDoSend _ _ => False | _ => op_ok o end.
Lemma flow_silent {c h} o : silent o -> flow c h any (fun _ => False) (ask o).
Proof. destruct o; cbn; (done || (intros; split; [done|]; intros; by rewrite andb_false_r)). Qed.
Lemma flow_fails_silent {E F} {c h} (g : E -> F) {A} (p : sprog Doc (outcome E A)) :
  flow c h any (fun _ => False) p -> flow c h any (fun _ => False) (fails_with g p).
Proof. intros Hp. by apply flow_after. Qed.

Lemma flow_write_packet h conn p :
  h = true \/ pb_qos p <= 0 ->
  flow true h any (fun r => r = Ok tt) (write_to_client (Doc := Doc) conn (PPublish p)).
Proof.
  intros Hp. unfold write_to_client, attempt, fails_with. cbn. split; [done|].
  intros [[u|e| |]|e| |] _; try done. destruct (0 <? pb_qos p) eqn:Hq; [|done].
  destruct Hp as [->|Hp]; [|apply Z.ltb_lt in Hq; lia]. destruct u. eauto.
Qed.

(** A write that ends a program. *)
Lemma flow_write_last {B} h conn p (b : B) :
  h = true \/ pb_qos p <= 0 ->
  flow true h any (fun r => r = Ok b)
    (attempt (write_to_client (Doc := Doc) conn (PPublish p)) (fun _ => Ret (Ok b))).
Proof.
  intros Hp. apply flow_bind. eapply flow_mono; [| |by apply flow_write_packet].
  - by intros [].
  - intros a ->. cbn. eauto.
Qed.

Lemma prepare_qos p v now : pb_qos (prepare_publish_for_delivery p v now).2 = pb_qos p.
Proof. unfold prepare_publish_for_delivery. repeat case_match; done. Qed.

Ltac silently :=
  repeat (progress intros
    || match goal with
       | |- flow _ _ _ _ (attempt _ _) => apply flow_attempt
       | |- flow _ _ _ _ (mbind _ _) => apply flow_after
       | |- flow _ _ _ _ (fails_with _ _) => apply flow_fails_silent
       | |- flow _ _ _ _ (ask _) => apply flow_silent
       | |- flow _ _ _ _ (locked _) => apply flow_silent
       | |- flow _ _ _ _ (if ?b then _ else _) => destruct b
       | |- flow _ _ _ _ (match ?x with _ => _ end) => destruct x
       end); try done.

Lemma flow_register c h cx p id qos key :
  flow c h any (fun _ => False) (register_persistent (Doc := Doc) cx p id qos key).
Proof. unfold register_persistent, serialize. silently. Qed.

Lemma flow_prepare c h cx p : flow c h any (fun _ => False) (prepare_registered_publish (Doc := Doc) cx p).
Proof. unfold prepare_registered_publish, discard_unsent_message. silently. Qed.

(** The packet keeps its QoS through the registration. *)
Definition keeps_qos (q : Z) (r : outcome SessionActorError Publish) : Prop := forall p, r = Ok p -> pb_qos p = q.
Lemma flow_attempt_with {E A B} c h (R : A -> Prop) (Q S : outcome E B -> Prop) (p : sprog Doc (outcome E A)) f :
  flow c h (fun r => forall a, r = Ok a -> R a) (fun _ => False) p ->
  (forall a, R a -> flow c h Q S (f a)) -> (forall r, (forall b, r <> Ok b) -> Q r) -> flow c h Q S (attempt p f).
Proof.
  intros Hp Hf HQ. apply flow_bind. revert Hp. apply flow_mono; [|intros ? Hx; contradiction Hx].
  intros [a|e| |] Hr; [by apply Hf, Hr|by apply HQ..].
Qed.
Lemma flow_locked {A} c h (Q : A -> Prop) (f : Z -> SessionState -> A * SessionState) :
  (forall now s, Q (f now s).1) -> flow c h Q (fun _ => False) (locked (Doc := Doc) f).
Proof.
  intros Hf. split; [done|]. cbn [takes]. rewrite andb_false_r. intros x (now & s & ->). apply Hf.
Qed.

Lemma register_clean_qos p id qos key now i p' b :
  (register_clean p id qos key now i).1 = Ok (p', b) -> pb_qos p' = pb_qos p.
Proof.
  unfold register_clean. destruct (try_register_tx id qos key now i) as [[?|[]| |] i1]; cbn; try congruence.
  destruct (allocate_packet_id i1) as [n|]; [|done]. destruct (try_register_tx n qos key now i1) as [[?|[]| |] i2]; cbn; try done.
  by intros [= <- _].
Qed.

Lemma keeps_qos_failed q r : (forall b, r <> Ok b) -> keeps_qos q r.
Proof. intros Hr p ->. by destruct (Hr p). Qed.
Lemma flow_register_qos c h cx p id qos key :
  flow c h (keeps_qos (pb_qos p)) (fun _ => False) (register_persistent (Doc := Doc) cx p id qos key).
Proof.
  unfold register_persistent.
  apply (flow_attempt_with _ _ (fun p' => pb_qos p' = pb_qos p)); [| |apply keeps_qos_failed].
  - apply flow_after; [by apply flow_silent|]. intros [x|[|e]| |]; try done; [by intros p' [= ->]|].
    apply flow_after; [by apply flow_silent|]. intros [n|]; [|done].
    repeat (apply flow_attempt; [try apply flow_fails_silent; try (by apply flow_silent); done|intros|apply keeps_qos_failed]).
    by intros p' [= <-].
  - intros p' Hp'. destruct (pb_packet_identifier p') as [n|]; [|done].
    apply flow_after; [by apply flow_silent|]. intros [?|?| |]; try done. by intros p2 [= <-].
Qed.

(** The part of a delivery after the registration. *)
Lemma flow_deliver_active h cx conn p :
  h = true \/ pb_qos p <= 0 \/ cx_defer_delivery cx = true ->
  flow true h any (fun r => r = Ok Sent) (deliver_active (Doc := Doc) cx conn p).
Proof.
  intros Hh. unfold deliver_active.
  apply (flow_attempt_with _ _ (fun p' => pb_qos p' = pb_qos p)); [| |done].
  { destruct (pb_packet_identifier p); [by intros p' [= ->]|]. apply flow_after; [by apply flow_silent|].
    intros [n|]; [by intros p' [= <-]|done]. }
  intros p' Hq. destruct (pb_packet_identifier p') as [n|]; [|done].
  apply flow_attempt; [done| |done]. intros _. apply flow_after; [by apply flow_silent|]. intros key.
  apply flow_attempt; [done| |done]. intros data.
  apply flow_attempt; [apply flow_fails_silent; by apply flow_silent| |done]. intros _.
  apply (flow_attempt_with _ _ (fun pb => pb_qos pb.1 = pb_qos p)); [| |done].
  { destruct (cx_clean_session cx).
    - apply flow_locked. intros now s [p2 b] Hr. cbn [fst]. rewrite <-Hq.
      unfold on_inflight in Hr. destruct (register_clean p' n (pb_qos p) key now (inflight s)) as [r i] eqn:Hreg.
      cbn in Hr. subst r. apply (register_clean_qos p' n (pb_qos p) key now (inflight s) p2 b). by rewrite Hreg.
    - apply (flow_attempt_with _ _ (fun p2 => pb_qos p2 = pb_qos p)).
      + eapply flow_mono; [| |apply flow_register_qos]; [|done]. intros r Hr a ->. rewrite <-Hq. by apply Hr.
      + by intros p2 Hp2 a [= <-].
      + intros r Hr a ->. by destruct (Hr a). }
  intros [p2 refresh] Hp2. cbn [fst] in Hp2.
  apply flow_attempt; [| |done].
  { destruct refresh; [|done]. apply flow_attempt; [done| |done]. intros. apply flow_fails_silent. by apply flow_silent. }
  intros _. destruct (cx_defer_delivery cx) eqn:Hd.
  - apply flow_after; [by apply flow_silent|done].
  - apply flow_write_last. rewrite Hp2. destruct Hh as [|[|]]; auto. done.
Qed.

Lemma flow_deliver h p cx :
  h = true \/ quiet p cx -> flow true h any (fun r => r = Ok Sent) (deliver_outbound_publish (Doc := Doc) p cx).
Proof.
  intros Hh. unfold deliver_outbound_publish. apply flow_after; [by apply flow_silent|]. intros now.
  pose proof (prepare_qos p (cx_protocol_version cx) now) as Hq.
  destruct (prepare_publish_for_delivery p (cx_protocol_version cx) now) as [deliverable p']. cbn [snd] in Hq.
  destruct (negb deliverable); [done|]. destruct (decide (cx_activity_state cx = Active)) as [Ha|Ha].
  - destruct (cx_conn cx) as [conn|]; [|done]. destruct (pb_qos p' =? 0) eqn:Hz.
    + apply flow_write_last. right. lia.
    + apply flow_deliver_active. rewrite Hq. unfold quiet in Hh. rewrite Ha in Hh. naive_solver.
  - destruct (pb_qos p' =? 0); [done|]. unfold deliver_inactive, need_store, serialize. silently.
Qed.

Definition kept (q : Z) (r : outcome SessionActorError (bool * Publish)) : Prop := forall x, r = Ok x -> pb_qos x.2 = q.
Lemma flow_kept_failed q r : (forall b, r <> Ok b) -> kept q r.
Proof. intros Hr x ->. by destruct (Hr x). Qed.
Lemma kept_ok b p : kept (pb_qos p) (Ok (b, p)).
Proof. by intros x [= <-]. Qed.
Lemma flow_prepare_qos c h cx p :
  flow c h (kept (pb_qos p)) (fun _ => False) (prepare_registered_publish (Doc := Doc) cx p).
Proof.
  unfold prepare_registered_publish. destruct (pb_packet_identifier p) as [n|]; [|apply kept_ok].
  apply flow_after; [by apply flow_silent|]. intros [item|]; [|apply kept_ok].
  destruct (it_packet_key item) as [key|]; [|apply kept_ok]. apply flow_after; [by apply flow_silent|]. intros now.
  pose proof (prepare_qos p (cx_protocol_version cx) now) as Hq.
  destruct (prepare_publish_for_delivery p (cx_protocol_version cx) now) as [deliverable p']. cbn [snd] in Hq.
  rewrite <-Hq. destruct (negb deliverable).
  - apply flow_attempt; [|intros; apply kept_ok|apply flow_kept_failed].
    destruct (it_delivery_started item); [done|]. unfold discard_unsent_message. silently.
  - destruct (it_delivery_started item); [apply kept_ok|]. apply flow_attempt; [| |apply flow_kept_failed]; [silently|].
    intros []; [|apply kept_ok]. apply flow_after; [by apply flow_silent|]. intros. apply kept_ok.
Qed.

Lemma flow_deferred h d cx :
  h = true \/ pb_qos (d_publish d) <= 0 ->
  flow true h any (fun r => r.1 = Ok true) (deferred_delivery (Doc := Doc) d cx).
Proof.
  intros Hh. unfold deferred_delivery. apply flow_bind. eapply flow_mono; [| |apply flow_prepare_qos]; [|done].
  intros [[[] p']|e| |] Hk; try done. specialize (Hk _ eq_refl). cbn [snd] in Hk.
  destruct (cx_conn cx) as [conn|]; [|done]. apply flow_bind.
  eapply flow_mono; [| |apply flow_write_packet; rewrite Hk; exact Hh]; [done|]. intros r ->. cbn. eauto.
Qed.

(** ** Futures *)

Context (limit : Z).

Lemma flow_turns {A} c h (Q S : A -> Prop) (Q' S' : turn -> Prop) (p : sprog Doc A) (f : A -> turn) :
  flow c h Q S p -> (forall a, Q a -> Q' (f a)) -> (forall a, S a -> S' (f a)) ->
  flow c h Q' S' (a ← p; Ret (f a)).
Proof. intros Hp HQ HS. apply flow_bind. revert Hp. apply flow_mono; [done|]. intros a Ha. eauto. Qed.

Lemma future_free f :
  is_flow f = false -> free_flow (balanced limit (claims f)) (future_program document f).
Proof.
  destruct f; intros Hf; try done; cbn [future_program]; unfold claims; cbn [holding acking orb];
    unfold started_future, subscribe_future, unsubscribe_future, pubrel_future, retry, retry_all, reconnect_future,
      deliver_retained, keep_subscription, do_handle_unsubscribe, forget_subscription, write_inflight_retry_packets,
      will_future, cleanup_local_finished_items, subscribe_again; free;
    first [apply balanced_released | balance].
Qed.

(** Every future does its part. *)
Lemma future_flow f :
  future_ok f ->
  flow (is_flow f) (holding f) (balanced limit (claims f)) (balanced limit 0) (future_program document f).
Proof.
  intros Hf. destruct (is_flow f) eqn:Hk; [|by apply free_uncounted, future_free].
  destruct f; try done; cbn [future_program future_ok holding] in *.
  - eapply flow_turns; [by apply flow_deliver| |].
    + intros r _. unfold claims. cbn [holding acking]. rewrite orb_false_r. apply balanced_delivered.
    + intros r ->. apply balanced_reply.
  - eapply flow_turns; [by apply flow_deferred| |].
    + intros r _. unfold claims. cbn [holding acking]. rewrite orb_false_r. apply balanced_drained.
    + intros r Hr. unfold drained_turn. rewrite Hr. apply balanced_drain.
Qed.
Lemma detached_flow f : detached_ok f -> free_flow (balanced limit 0) (future_program document f).
Proof.
  intros Hd. assert (claims f = 0%nat /\ is_flow f = false) as [Hc Hk] by (by destruct f). rewrite <-Hc. by apply future_free.
Qed.
End Programs.

(** ** The invariant *)

Section Invariant.
Context {Doc : Type} `{Serde Doc Packet, Serde Doc MqttPacketV3, Base64}.
Context (document : bytes -> Doc) (limit : Z).
Implicit Types (r : Runtime Doc) (t : STask Doc).

Definition task_claims t : nat := claims (t_future t).
Definition task_ok t : Prop :=
  flow (is_flow (t_future t)) (holding (t_future t)) (balanced limit (claims (t_future t))) (balanced limit 0) (t_prog t).
Definition detached_task_ok t : Prop :=
  detached_ok (t_future t) /\ free_flow (balanced limit 0) (t_prog t).
Definition open_claims r : nat := sum_list_with task_claims (r_waits r ++ r_items r).

(** Messages sent and claims that are open are covered by slots and acknowledgements;
    [n] more claims are about to be made, [m] are owed. *)
Record Flow (n m : nat) r : Prop := {
  fl_within : within limit (r_actor r);
  fl_claims : (messages_sent (r_trace r) + open_claims r + n
               <= ac_slots (r_actor r) + acks_received (r_trace r) + m)%nat;
  fl_tasks : Forall task_ok (r_waits r ++ r_items r);
  fl_detached : Forall detached_task_ok (r_detached r);
  fl_mailbox : Forall no_reconnect (r_mailbox r);
}.

Lemma flow_weaken n m n' m' r : (n' + m <= n + m')%nat -> Flow n m r -> Flow n' m' r.
Proof. intros Hle [??]. split; [done|lia|done..]. Qed.

(** An event that is not counted. *)
Lemma flow_observed n m e r :
  flow_write e = false -> Flow n m r -> Flow n m (observed e r).
Proof.
  intros He [? Hc ? ? ?]. split; try done. cbn [observed r_trace r_actor].
  unfold messages_sent, acks_received in *. rewrite !count_app. change (open_claims (observed e r)) with (open_claims r).
  unfold count at 2 4. cbn. rewrite He. destruct (ack_received e); cbn; lia.
Qed.
Lemma flow_enqueue n m msg r : no_reconnect msg -> Flow n m r -> Flow n m (enqueue msg r).
Proof.
  intros Hm Hf. unfold enqueue. destruct (r_running r); [|done]. destruct Hf. split; try done.
  cbn. apply Forall_app. by split; [|constructor].
Qed.
Lemma flow_detach n m f r :
  detached_ok f -> Flow n m r -> Flow n m (apply_effect document (Detach f) r).
Proof.
  intros Hd [? ? ? Hdet ?]. split; try done. cbn. apply Forall_app. split; [done|]. constructor; [|constructor].
  split; [done|]. by apply detached_flow.
Qed.
Lemma new_task_ok f r : future_ok f -> task_ok (new_task document f r).
Proof. apply future_flow. Qed.

Lemma flow_effect n m e r :
  effect_ok e -> Flow (effect_claims e + n) m r -> Flow n m (apply_effect document e r).
Proof.
  intros He Hf. destruct e; cbn [effect_claims effect_ok] in *;
    try (by apply flow_observed); [by apply flow_enqueue|..|by apply flow_detach|].
  - destruct Hf as [? Hc ? ? ?]. split; try done; [|cbn; constructor; [by apply new_task_ok|done]].
    unfold open_claims in *. cbn [apply_effect counted with_tasks r_waits r_items r_trace r_actor].
    cbn [app sum_list_with]. unfold task_claims at 1. cbn. unfold messages_sent, acks_received in *. lia.
  - destruct Hf as [? Hc Ht ? ?]. split; try done; cbn [apply_effect counted with_tasks r_waits r_items r_trace r_actor].
    + unfold open_claims in *. cbn [apply_effect counted with_tasks r_waits r_items r_trace r_actor].
      rewrite app_assoc, sum_list_with_app. cbn [sum_list_with]. unfold task_claims at 2. cbn [new_task t_future].
      unfold messages_sent, acks_received in *. lia.
    + rewrite app_assoc. apply Forall_app. split; [done|]. constructor; [by apply new_task_ok|constructor].
  - apply flow_observed; [done|]. apply flow_observed; [done|]. destruct Hf as [Hw Hc ? ? ?].
    assert (forall l, r_actor (release_dropped l r) = r_actor r /\ r_trace (release_dropped l r) = r_trace r /\
                      r_detached (release_dropped l r) = r_detached r) as Hsame.
    { intros l. unfold release_dropped. by repeat case_match. }
    destruct (Hsame (r_waits r ++ r_items r)) as (Ha & Ht & Hd).
    split; cbn [halted r_actor r_trace r_waits r_items r_detached r_mailbox]; rewrite ?Ha, ?Ht, ?Hd; try done.
    unfold open_claims at 1. cbn. lia.
Qed.

Lemma flow_effects n es r :
  Forall effect_ok es -> Flow (all_claims es + n) 0 r ->
  Flow n 0 (foldl (fun r e => apply_effect document e r) r es).
Proof.
  revert r. induction es as [|e es IH]; intros r Hes Hf; [done|]. apply Forall_cons in Hes as [He Hes]. cbn [foldl].
  apply IH; [done|]. apply flow_effect; [done|]. eapply flow_weaken; [|exact Hf]. unfold all_claims. cbn [sum_list_with]. lia.
Qed.

Lemma flow_turn n now u r : balanced limit n u -> Flow n 0 r -> Flow 0 0 (run_turn document now u r).
Proof.
  intros Hu [Hw Hc ? ? ?]. unfold run_turn. destruct (Hu now (r_actor r) Hw) as (Hw' & Hs & He).
  destruct (u now (r_actor r)) as [a es]. cbn [fst snd] in *. apply flow_effects; [done|]. split; try done.
  change (open_claims (with_actor a r)) with (open_claims r). cbn [with_actor r_trace r_actor]. lia.
Qed.

(** *** Steps *)

(** What an operation of a task leaves of the invariant. *)
Lemma flow_exec t ans o r :
  op_ok o -> Flow 0 0 r ->
  possible o (sexec document t ans o r).1 /\
  Flow 0 (if is_flow (t_future t) && takes o (sexec document t ans o r).1 then 1 else 0) (sexec document t ans o r).2 /\
  r_waits (sexec document t ans o r).2 = r_waits r /\ r_items (sexec document t ans o r).2 = r_items r /\
  exists extra, r_detached (sexec document t ans o r).2 = r_detached r ++ extra.
Proof.
  intros Ho Hf.
  assert (exists extra, r_detached r = r_detached r ++ extra) as Hnil by (exists []; by rewrite app_nil_r).
  assert (forall f c p, Flow 0 (if is_flow f && limited p then 1 else 0) (observed (Wrote f c p) r)) as Hw.
  { intros f c p. destruct (is_flow f && limited p) eqn:Hl; [|by apply flow_observed].
    destruct Hf as [? Hc ? ? ?]. split; try done. cbn [observed r_trace r_actor].
    unfold messages_sent, acks_received in *. rewrite !count_app.
    change (open_claims (observed (Wrote f c p) r)) with (open_claims r). unfold count at 2 4. cbn. rewrite Hl. cbn. lia. }
  destruct o; cbn [sexec takes possible] in *; rewrite ?andb_false_r;
    try (by split_and!); unfold storing, failing;
    try (by destruct (an_fail ans); split_and!; try done; first [apply flow_observed; [done|done] | destruct Hf; by split]).
  - cbn [fst snd]. case_decide; split_and!; try done. by destruct Hf.
  - destruct (f (unix_secs (an_now ans)) (r_state r)) as [x s'] eqn:Hx. cbn [fst snd].
    split_and!; [|by destruct Hf|done..]. exists (unix_secs (an_now ans)), (r_state r). by rewrite Hx.
  - unfold writing_to. cbn [fst snd]. destruct (an_conn ans) as [[]|e| |]; rewrite ?andb_false_r; split_and!; try done; apply Hw.
  - split_and!; try done. apply Hw.
  - cbn [fst snd]. unfold enqueue at 2 3 4. destruct (r_running r) eqn:Hrun; (split_and!; [done| |done..]); by apply flow_enqueue.
  - cbn [fst snd]. split_and!; [done|by apply flow_detach|done|done|]. by eexists.
Qed.

Lemma task_at_ok pl t n m r :
  task_at pl r = Some t -> Flow n m r ->
  match pl with Detached_ _ => detached_task_ok t | _ => task_ok t end.
Proof.
  intros Ht [_ _ Htasks Hdet _]. rewrite Forall_app in Htasks. destruct Htasks as [Hw Hi].
  destruct pl as [|i|i]; cbn [task_at] in Ht.
  - destruct (r_waits r) as [|t' l]; [done|]. injection Ht as ->. by apply Forall_cons in Hw as [? _].
  - destruct (r_waits r); [|done]. by eapply Forall_lookup_1.
  - by eapply Forall_lookup_1.
Qed.

Definition place_claims (pl : place) t : nat := match pl with Detached_ _ => 0 | _ => task_claims t end.

Lemma replace_sum {A} (f : A -> nat) l i x l' :
  l !! i = Some x -> (sum_list_with f (take i l ++ l' ++ drop (S i) l) + f x = sum_list_with f l + sum_list_with f l')%nat.
Proof.
  intros Hi. rewrite <-(take_drop_middle l i x Hi) at 3. rewrite !sum_list_with_app. cbn [sum_list_with]. lia.
Qed.
Lemma replace_Forall {A} (P : A -> Prop) l i l' :
  Forall P l -> Forall P l' -> Forall P (take i l ++ l' ++ drop (S i) l).
Proof. intros Hl Hl'. rewrite !Forall_app. split_and!; [by apply Forall_take|done|by apply Forall_drop]. Qed.

(** A task is taken out or put back. *)
Lemma flow_put pl t l m r :
  task_at pl r = Some t -> Flow 0 m r ->
  Forall (match pl with Detached_ _ => detached_task_ok | _ => task_ok end) l ->
  (match pl with Detached_ _ => True | _ => (sum_list_with task_claims l <= task_claims t)%nat end) ->
  Flow (place_claims pl t - sum_list_with (place_claims pl) l) m (put_task pl l r).
Proof.
  intros Ht Hf Hl Hs. destruct Hf as [Hw Hc Htasks Hdet Hm]. unfold open_claims in Hc.
  rewrite Forall_app in Htasks. destruct Htasks as [Hwt Hit].
  destruct pl as [|i|i]; cbn [task_at put_task place_claims] in *.
  - change (sum_list_with (place_claims Waiting) l) with (sum_list_with task_claims l).
    destruct (r_waits r) as [|t' rest] eqn:Hr; [done|]. injection Ht as ->. cbn [tail].
    apply Forall_cons in Hwt as [_ Hrest]. split; try done; cbn [with_tasks r_waits r_items r_trace r_actor].
    + unfold open_claims. cbn [with_tasks r_waits r_items]. rewrite !sum_list_with_app in *. cbn [sum_list_with] in Hc. lia.
    + rewrite !Forall_app. by split_and!.
  - change (sum_list_with (place_claims (Spawned i)) l) with (sum_list_with task_claims l).
    destruct (r_waits r) eqn:Hr; [|done]. split; try done; cbn [with_tasks r_waits r_items r_trace r_actor].
    + unfold open_claims. cbn [with_tasks r_waits r_items]. rewrite ?Hr. cbn [app] in *.
      pose proof (replace_sum task_claims _ _ _ l Ht). lia.
    + rewrite ?Hr. cbn [app]. by apply replace_Forall.
  - split; try done; cbn [with_tasks r_waits r_items r_trace r_actor r_detached].
    + rewrite Forall_app. by split.
    + by apply replace_Forall.
Qed.

Lemma task_at_exec pl t ans o r :
  op_ok o -> Flow 0 0 r -> task_at pl r = Some t -> task_at pl (sexec document t ans o r).2 = Some t.
Proof.
  intros Ho Hf Ht. destruct (flow_exec t ans o r Ho Hf) as (_ & _ & Hw & Hi & extra & Hd).
  destruct pl; cbn [task_at] in *; rewrite ?Hw, ?Hi, ?Hd; [done..|]. by apply lookup_app_l_Some.
Qed.

(** A task goes on: its program is what it was, without the operation. *)
Lemma flow_settle pl t now p m r :
  task_at pl r = Some t -> Flow 0 m r -> (m <= place_claims pl t)%nat ->
  match p with
  | Ret u => balanced limit (place_claims pl t - m) u
  | p => m = 0%nat /\ match pl with
                     | Detached_ _ => detached_ok (t_future t) /\ free_flow (balanced limit 0) p
                     | _ => task_ok (mkTask (t_id t) (t_future t) p)
                     end
  end ->
  Flow 0 0 (settle document pl t now p r).
Proof.
  intros Ht Hf Hle Hp. destruct p as [u|o k]; cbn [settle].
  - eapply flow_turn; [exact Hp|]. eapply flow_weaken; [|apply (flow_put pl t [] m); [done|done|constructor|]].
    + cbn [sum_list_with]. lia.
    + destruct pl; cbn; lia.
  - destruct Hp as [-> Hp]. eapply flow_weaken; [|apply (flow_put pl t [mkTask (t_id t) (t_future t) (Do o k)] 0); [done|done|..]].
    + lia.
    + constructor; [|constructor]. by destruct pl.
    + destruct pl; cbn; unfold task_claims; cbn; lia.
Qed.

(** The rest of a program after an answer. *)
Lemma flow_settle_task pl t now (p : sprog Doc turn) (wrote : bool) r :
  match pl with Detached_ _ => False | _ => True end ->
  task_at pl r = Some t -> Flow 0 (if wrote then 1 else 0) r ->
  (if wrote then holding (t_future t) = true /\ exists u, p = Ret u /\ balanced limit 0 u
   else flow (is_flow (t_future t)) (holding (t_future t)) (balanced limit (claims (t_future t))) (balanced limit 0) p) ->
  Flow 0 0 (settle document pl t now p r).
Proof.
  intros Hpl Ht Hf Hp. assert (place_claims pl t = claims (t_future t)) as Hc by (by destruct pl).
  destruct wrote.
  - destruct Hp as (Hh & u & -> & Hu). assert (claims (t_future t) = 1%nat) as Hone by (unfold claims; by rewrite Hh).
    apply (flow_settle pl t _ (Ret u) 1); [done|done|lia|]. by rewrite Hc, Hone.
  - apply (flow_settle pl t _ p 0); [done|done|lia|]. rewrite Nat.sub_0_r, Hc.
    destruct p; [done|]. split; [done|]. by destruct pl.
Qed.
Lemma flow_settle_detached i t now (p : sprog Doc turn) r :
  task_at (Detached_ i) r = Some t -> Flow 0 0 r -> detached_ok (t_future t) -> free_flow (balanced limit 0) p ->
  Flow 0 0 (settle document (Detached_ i) t now p r).
Proof. intros Ht Hf Hd Hp. apply (flow_settle (Detached_ i) t _ p 0); [done..|]. by destruct p. Qed.

Lemma flow_step_task pl ans r r' : Flow 0 0 r -> step_task document pl ans r = Some r' -> Flow 0 0 r'.
Proof.
  intros Hf. unfold step_task. destruct (task_at pl r) as [t|] eqn:Ht; [|done]. cbn [mbind option_bind].
  pose proof (task_at_ok pl t 0 0 r Ht Hf) as Hok. destruct t as [id f p]. cbn [t_prog].
  destruct (match pl with Detached_ _ => true | _ => false end) eqn:Hpl.
  - destruct pl as [| |i]; try done. destruct Hok as [Hd Hok]. cbn [t_future t_prog] in *. destruct p as [u|o k].
    + intros <-%(inj Some). by apply flow_settle_detached.
    + destruct (enabled o r); [|done]. intros <-%(inj Some). destruct Hok as [Ho Hk].
      pose proof (flow_exec (mkTask id f (Do o k)) ans o r Ho Hf) as (Hpos & Hf' & _).
      pose proof (task_at_exec _ _ ans o r Ho Hf Ht) as Ht'.
      destruct (sexec document _ ans o r) as [x r1]. cbn [fst snd t_future] in *.
      apply flow_settle_detached; [done| |done|by apply Hk]. by replace (is_flow f) with false in Hf' by (by destruct f).
  - assert (task_ok (mkTask id f p)) as Htask by (by destruct pl). clear Hok.
    assert (match pl with Detached_ _ => False | _ => True end) as Hpl' by (by destruct pl). destruct p as [u|o k].
    + intros <-%(inj Some). by apply (flow_settle_task _ _ _ _ false).
    + destruct (enabled o r); [|done]. intros <-%(inj Some). destruct Htask as [Ho Hk]. cbn [t_future] in *.
      pose proof (flow_exec (mkTask id f (Do o k)) ans o r Ho Hf) as (Hpos & Hf' & _).
      pose proof (task_at_exec _ _ ans o r Ho Hf Ht) as Ht'.
      destruct (sexec document _ ans o r) as [x r1]. cbn [fst snd t_future] in *.
      apply (flow_settle_task _ _ _ _ (is_flow f && takes o x)); [done..|]. by apply Hk.
Qed.

(** Nothing in the program sends [Reconnect]. *)
Definition move_ok (m : smove) : Prop := match m with Deliver msg => no_reconnect msg | _ => True end.

Lemma flow_sstep m r r' : move_ok m -> Flow 0 0 r -> sstep document m r = Some r' -> Flow 0 0 r'.
Proof.
  intros Hm Hf. destruct m as [msg|now|pl ans]; cbn [sstep]; [| |by apply flow_step_task].
  - intros [= <-]. by apply flow_enqueue.
  - destruct (r_waits r) eqn:Hw; [|done]. destruct (r_mailbox r) as [|msg rest] eqn:Hmb; [done|]. intros [= <-].
    destruct Hf as [Hwi Hc Ht Hd Hmail]. rewrite Hmb in Hmail. apply Forall_cons in Hmail as [Hmsg Hrest].
    apply (flow_turn (message_claims msg)); [by apply balanced_handle|]. split; try done.
    cbn [observed with_mailbox r_trace r_actor]. unfold messages_sent, acks_received, message_claims in *.
    change (open_claims (observed (Handled msg) (with_mailbox rest r))) with (open_claims r).
    rewrite !count_app. unfold count at 2 4. cbn [List.filter flow_write]. destruct (ack_received (Handled msg)); cbn; lia.
Qed.

Lemma flow_ssteps ms r r' : Forall move_ok ms -> Flow 0 0 r -> ssteps document ms r = Some r' -> Flow 0 0 r'.
Proof.
  revert r. induction ms as [|m ms IH]; intros r Hms Hf; cbn [ssteps]; [by intros [= <-]|].
  apply Forall_cons in Hms as [Hm Hms]. destruct (sstep document m r) as [r1|] eqn:Hs; [|done]. cbn [mbind option_bind].
  apply IH; [done|]. by eapply flow_sstep.
Qed.

Lemma flow_start a s payloads now : within limit a -> ac_slots a = 0%nat -> Flow 0 0 (start_session document a s payloads now).
Proof.
  intros Hw Hs. apply (flow_turn 0); [apply balanced_started|]. split; try done. cbn. lia.
Qed.

(** C3: an MQTT 5 session has no more routed messages of QoS 1 and 2 under way than its
    client asked for: under every interleaving of turns, futures and failures, the
    messages its deliveries - the ones routed to it, at once or after they waited for a
    slot - have sent for the first time exceed the PUBACK and PUBREC packets received by at
    most the Receive Maximum (a maximum of 0 counts as 1), and the slots in use stay within
    it.  Retained messages that answer a SUBSCRIBE and messages that the retry timer sends
    again take no slot and are not counted. *)
Theorem receive_maximum_respected ms a s payloads now r :
  ac_protocol_version a = V5_0 -> ac_receive_maximum a = limit -> ac_slots a = 0%nat -> Forall move_ok ms ->
  ssteps document ms (start_session document a s payloads now) = Some r ->
  Z.of_nat (messages_sent (r_trace r)) <= Z.of_nat (acks_received (r_trace r)) + Z.max limit 1 /\
  Z.of_nat (ac_slots (r_actor r)) <= Z.max limit 1.
Proof.
  intros Hv Hl Hs Hms Hr. assert (within limit a) as Hw by (split_and!; [done..|lia]).
  destruct (flow_ssteps ms _ r Hms (flow_start a s payloads now Hw Hs) Hr) as [(_ & Hlim & Hle) Hc _ _ _].
  unfold receive_maximum_limit in Hle. rewrite Hlim in Hle. lia.
Qed.
End Invariant.

(** ** An example *)

Module FlowSample.
Import Plain.

(** A client that takes one message at a time; a day of January 1970. *)
Definition actor : SessionActor :=
  new_actor "tenant" "client" true V5_0 None 1 10 None 60 7 "peer" true 1 1000.
Definition message (id : Z) : Publish := mkPublish V5_0 "a" [1] 1 false false (Some id) default_properties None.
Definition ans : Ans :=
  mkAns 2000 "key" None (Ok RespNone) (Ok (mkAuthorizeResult true None)) (Ok (mkPublishResult true None None)) (Ok [])
    (Ok []) (Ok (Ok tt)) Answered.
Definition document (_ : bytes) : Packet := PPingreq.
Definition initial : Runtime Packet :=
  start_session document actor (new_with_options 10 (Some V5_0) None) ∅ 1000.

(** The actor starts and takes two messages: one is sent, the other waits for the
    acknowledgement of the first. *)
Definition moves : list smove :=
  replicate 3 (Advance Waiting ans) ++ [Handle 1000] ++ replicate 3 (Advance Waiting ans)
  ++ [Deliver (OutboundMessage (PPublish (message 1))); Deliver (OutboundMessage (PPublish (message 2)));
      Handle 1000; Handle 1000] ++ replicate 5 (Advance (Spawned 0) ans)
  ++ [Deliver (InboundPacket (PPuback (success_ack 1))); Handle 1000]
  ++ replicate 3 (Advance Waiting ans) ++ replicate 5 (Advance (Spawned 0) ans).
End FlowSample.

Import Plain.

Lemma receive_maximum_respected_witness :
  exists r, ssteps FlowSample.document FlowSample.moves FlowSample.initial = Some r /\
    messages_sent (r_trace r) = 2%nat /\ acks_received (r_trace r) = 1%nat /\
    Z.of_nat (messages_sent (r_trace r)) <= Z.of_nat (acks_received (r_trace r)) + Z.max 1 1.
Proof.
  assert ((fun r => (messages_sent (r_trace r), acks_received (r_trace r)))
            <$> ssteps FlowSample.document FlowSample.moves FlowSample.initial = Some (2, 1)%nat) as Hc
    by (vm_compute; reflexivity).
  destruct (ssteps FlowSample.document FlowSample.moves FlowSample.initial) as [r|] eqn:Hr; [|discriminate Hc].
  exists r. injection Hc as Hsent Hacks. split; [reflexivity|]. split; [exact Hsent|]. split; [exact Hacks|].
  apply (receive_maximum_respected FlowSample.document 1 FlowSample.moves FlowSample.actor
           (new_with_options 10 (Some V5_0) None) ∅ 1000 r); [reflexivity..| |exact Hr].
  repeat constructor.
Defined.
