(* ===== verification/SessionLock.v ===== *)
(** * The lock around the session state

    A future that is spawned keeps the guard of the session state over awaited calls: the
    handler of a PUBLISH holds it until the router has answered.  A future that the actor
    waits for keeps the spawned ones from running.  Together they block: an
    acknowledgement that is handled while a PUBLISH holds the guard waits for a lock that
    nobody can release any more.  The second theorem records what one table for both
    directions does to packet identifiers. *)

From S2P Require Import Prelude Program Utf8 Packet Inflight MessageExpiry TopicFilter TopicStorage TopicRouting SessionState RaftSession RaftLog V3Codec V3Convert Router MqttProperties SessionActor SessionFutures SessionRuntime SessionFlow.

#[local] Open Scope Z_scope.

Section Lock.
Context {Doc : Type} `{Serde Doc Packet, Serde Doc MqttPacketV3, Base64}.
Context (document : bytes -> Doc).
Implicit Types (r : Runtime Doc) (t : STask Doc).

(** The future waited for needs the lock, and no task that can run holds it. *)
Definition needs_lock (p : sprog Doc turn) : Prop :=
  match p with Do Lock _ | Do (State false _ _) _ => True | _ => False end.
Definition blocked r : Prop :=
  match r_waits r with t :: _ => needs_lock (t_prog t) | [] => False end
  /\ is_Some (r_lock r) /\ r_detached r = [].

Definition is_delivery (m : smove) : Prop := match m with Deliver _ => True | _ => False end.

(** A blocked actor takes messages in, and does nothing else. *)
Lemma blocked_step m r r' :
  blocked r -> sstep document m r = Some r' ->
  is_delivery m /\ blocked r' /\ r_trace r' = r_trace r /\ r_waits r' = r_waits r.
Proof.
  intros (Hw & [n Hl] & Hd) Hs. destruct m as [msg|now|pl ans].
  - injection Hs as <-. unfold enqueue, blocked. destruct (r_running r); cbn; eauto 10.
  - cbn in Hs. by destruct (r_waits r).
  - cbn [sstep] in Hs. unfold step_task in Hs. destruct pl as [|i|i]; cbn [task_at] in Hs.
    + destruct (r_waits r) as [|t l]; [done|]. cbn [head mbind option_bind] in Hs. unfold needs_lock in Hw.
      assert (free r = false) as Hfree by (unfold free; by rewrite Hl).
      destruct (t_prog t) as [|[] k]; try done; [|destruct held; [done|]]; cbn [enabled orb] in Hs; by rewrite Hfree in Hs.
    + by destruct (r_waits r).
    + by rewrite Hd in Hs.
Qed.
Lemma blocked_forever ms r r' :
  blocked r -> ssteps document ms r = Some r' ->
  Forall is_delivery ms /\ r_trace r' = r_trace r /\ r_waits r' = r_waits r.
Proof.
  revert r. induction ms as [|m ms IH]; intros r Hb; cbn [ssteps]; [by intros [= ->]|].
  destruct (sstep document m r) as [r1|] eqn:Hs; [|done]. cbn [mbind option_bind]. intros Hr.
  destruct (blocked_step m r r1 Hb Hs) as (Hm & Hb1 & Ht & Hw). destruct (IH r1 Hb1 Hr) as (Hms & Ht' & Hw').
  split_and!; [by constructor|congruence..].
Qed.

(** C36: a PUBACK that is handled while a PUBLISH of the same client is being routed
    blocks the session for good: from then on messages arrive, but none is ever handled,
    no future advances and nothing is sent, not even when the session is told to stop. *)
Theorem publish_then_ack_blocks r ack rest now n r1 :
  r_waits r = [] -> r_detached r = [] -> r_running r = true ->
  r_mailbox r = InboundPacket (PPuback ack) :: rest ->
  r_lock r = Some n -> (exists t, t ∈ r_items r /\ t_id t = n) ->
  sstep document (Handle now) r = Some r1 ->
  forall ms r2, ssteps document ms r1 = Some r2 ->
    Forall is_delivery ms /\ r_trace r2 = r_trace r1 /\ r_waits r2 = r_waits r1 /\ r_waits r1 <> [].
Proof.
  intros Hw Hd _ Hm Hl _ Hs ms r2 Hms. cbn [sstep] in Hs. rewrite Hw, Hm in Hs. injection Hs as <-.
  match type of Hms with ssteps _ _ ?r = _ => assert (blocked r) as Hb end.
  { unfold blocked. cbn. rewrite Hd, Hl. eauto. }
  destruct (blocked_forever ms _ r2 Hb Hms) as (? & ? & ?). done.
Qed.
End Lock.

(** ** Examples *)

Module LockSample.
Import FlowSample.
(** What the client publishes, under the identifier [id]. *)
Definition from_client (qos id : Z) : Packet :=
  PPublish (mkPublish V5_0 "b" [2] qos false false (if qos =? 0 then None else Some id) default_properties None).
(** The actor is started and has sent a first message, with identifier 1. *)
Definition first_sent : list smove :=
  replicate 3 (Advance Waiting ans) ++ [Handle 1000] ++ replicate 3 (Advance Waiting ans)
  ++ [Deliver (OutboundMessage (PPublish (message 1))); Handle 1000] ++ replicate 5 (Advance (Spawned 0) ans).
(** The client publishes; the message is on its way to the router when the
    acknowledgement of the first one arrives. *)
Definition moves : list smove :=
  first_sent ++ [Deliver (InboundPacket (from_client 0 0)); Handle 1000] ++ replicate 5 (Advance (Spawned 0) ans)
  ++ [Deliver (InboundPacket (PPuback (success_ack 1)))].

(** The client publishes under identifier 1, then acknowledges the first message; a
    second message waits for its slot. *)
Definition same_identifier : list smove :=
  first_sent ++ [Deliver (OutboundMessage (PPublish (message 2))); Handle 1000;
                 Deliver (InboundPacket (from_client 1 1)); Handle 1000]
  ++ replicate 10 (Advance (Spawned 0) ans) ++ replicate 4 (Advance (Detached_ 0) ans)
  ++ [Deliver (InboundPacket (PPuback (success_ack 1))); Handle 1000; Advance Waiting ans].
End LockSample.

Import Plain.

Definition shape {Doc} (r : Runtime Doc) :=
  (length (r_waits r), map t_id (r_items r), length (r_detached r), r_running r, r_mailbox r, r_lock r).

Lemma publish_then_ack_blocks_witness :
  exists r r1, ssteps FlowSample.document LockSample.moves FlowSample.initial = Some r /\
    sstep FlowSample.document (Handle 1000) r = Some r1 /\
    forall ms r2, ssteps FlowSample.document ms r1 = Some r2 ->
      Forall is_delivery ms /\ r_trace r2 = r_trace r1 /\ r_waits r2 = r_waits r1 /\ r_waits r1 <> [].
Proof.
  assert (shape <$> ssteps FlowSample.document LockSample.moves FlowSample.initial
          = Some (0%nat, [3%nat], 0%nat, true, [InboundPacket (PPuback (success_ack 1))], Some 3%nat)) as Hc
    by (vm_compute; reflexivity).
  destruct (ssteps FlowSample.document LockSample.moves FlowSample.initial) as [r|]; [|discriminate Hc].
  unfold shape in Hc. injection Hc as Hw Hi Hd Hrun Hm Hl. apply length_zero_iff_nil in Hw, Hd.
  exists r. destruct (sstep FlowSample.document (Handle 1000) r) as [r1|] eqn:Hs;
    [|cbn [sstep] in Hs; rewrite Hw, Hm in Hs; discriminate Hs].
  exists r1. split; [reflexivity|]. split; [reflexivity|].
  apply (publish_then_ack_blocks FlowSample.document r (success_ack 1) [] 1000 3 r1 Hw Hd Hrun Hm Hl); [|exact Hs].
  destruct (r_items r) as [|t l]; [discriminate Hi|]. exists t. injection Hi as Ht _. split; [left|exact Ht].
Defined.

(** The state a session is left in: what it still has to do, the slots and the queue, and
    the packet identifiers in its table. *)
Definition left_with {Doc} (r : Runtime Doc) :=
  (length (r_waits r), length (r_items r), length (r_detached r), length (r_mailbox r),
   ac_slots (r_actor r), length (ac_deferred (r_actor r)), map fst (map_to_list (inner (inflight (r_state r))))).

(** the two directions share one table of packet identifiers.  A client that
    publishes under the identifier of a message it has not acknowledged yet overwrites
    that message's entry: its acknowledgement is then ignored, the slot it holds is never
    released, and the messages behind it stay in the queue although nothing is in
    flight. *)
Example shared_identifiers_leak_slot :
  left_with <$> ssteps FlowSample.document LockSample.same_identifier FlowSample.initial
  = Some (0, 0, 0, 0, 1, 1, [])%nat /\
  (fun r => (messages_sent (r_trace r), acks_received (r_trace r)))
    <$> ssteps FlowSample.document LockSample.same_identifier FlowSample.initial = Some (1, 1)%nat /\
  receive_maximum_limit FlowSample.actor = 1%nat.
Proof. by vm_compute. Qed.
