(* ===== verification/SessionDelivery.v ===== *)
(** * What a session does with a message

    [runs] and [reaches] ([Traces]) over the session's operations.  The theorems say what must have happened when a
    message is routed, when it is acknowledged to its publisher, and when its delivery is
    reported as done. *)

From S2P Require Import Prelude Program Traces Utf8 Packet Inflight MessageExpiry TopicFilter TopicStorage TopicRouting SessionState RaftSession RaftLog V3Codec V3Convert Router MqttProperties SessionActor SessionFutures SessionRuntime SessionFlow.

#[local] Open Scope Z_scope.

(** The answers of the session's operations. *)
#[export] Instance session_allowed Doc : Allowed (sop Doc) sres := possible.
Abbreviation Call Doc := (Traces.Call (sop Doc) sres).
Abbreviation mkCall := (Traces.mkCall (R := sres)).

Section Guarded.
Context {Doc : Type}.
Implicit Types (tr : list (Call Doc)).

Lemma runs_ask_inv (o : sop Doc) tr x : runs (ask o) tr x -> possible o x /\ tr = [mkCall o x].
Proof. exact (runs_invoke_inv o tr x). Qed.
Lemma reaches_ask (o : sop Doc) tr o' : reaches (ask o) tr o' -> tr = [] /\ o' = o.
Proof. exact (reaches_invoke o tr o'). Qed.
Lemma runs_guarded_inv {A} (p : sprog Doc A) tr a :
  runs (guarded p) tr a -> exists tr', runs p tr' a /\ tr = [mkCall Lock tt] ++ tr' ++ [mkCall Unlock tt].
Proof.
  intros (tr1 & [] & tr2 & [_ ->]%runs_ask_inv & Hp & ->)%runs_bind_inv.
  apply runs_bind_inv in Hp as (tr1 & x & tr3 & Hp & Hf & ->).
  apply runs_bind_inv in Hf as (? & [] & ? & [_ ->]%runs_ask_inv & [-> ->]%runs_ret_inv & ->). eauto.
Qed.
Lemma reaches_guarded {A} (p : sprog Doc A) tr o :
  reaches (guarded p) tr o -> o = Lock \/ o = Unlock \/ exists tr', tr = mkCall Lock tt :: tr' /\ reaches p tr' o.
Proof.
  intros [[_ ->]%reaches_ask|(tr1 & [] & tr2 & [_ ->]%runs_ask_inv & Hp & ->)]%reaches_bind; [by left|].
  apply reaches_bind in Hp as [Hp|(tr3 & a & tr4 & _ & Hp & ->)]; [eauto|].
  apply reaches_bind in Hp as [[_ ->]%reaches_ask|(? & ? & ? & _ & [] & _)]. auto.
Qed.
End Guarded.

(** ** Messages of the client *)

Section Publish.
Context {Doc : Type} `{Serde Doc Packet, Serde Doc MqttPacketV3, Base64}.
Implicit Types (tr : list (Call Doc)) (p : Publish) (client : Client).

(** The message after the plugins. *)
Definition after_policy p (pol : MessagePublishResult) : Publish :=
  match pr_modified_message pol with Some m => apply_modified_mqtt_message p m | None => p end.

(** The plugins authorize and allow the message, and it has not expired. *)
Definition permitted tr p client (m : Publish) : Prop :=
  exists az now pol,
    mkCall (Authorize (authorize_request client AuthPublish (pb_topic_name p) (pb_qos p)
                         (properties_to_struct (pb_properties p)))) (Ok az) ∈ tr /\ authorized az = true /\
    mkCall SNow now ∈ tr /\ is_publish_expired p now = false /\
    mkCall (OnMessagePublish (mqtt_message_from_publish p client)) (Ok pol) ∈ tr /\ pr_allow pol = true /\
    m = after_policy p pol.

(** It is stored, and registered with the session group where the session is persistent. *)
Definition recorded tr client (clean_session : bool) (m : Publish) : Prop :=
  exists id k d,
    pb_packet_identifier m = Some id /\ to_vec (PPublish m) = Ok d /\ mkCall (SPut k d) (Ok tt) ∈ tr /\
    (clean_session = false ->
     exists y, mkCall (Raft (InflightRegisterRxPacket (cl_tenant_id client) (cl_client_identifier client) id
                               (pb_qos m) k)) (Ok y) ∈ tr).

Lemma recorded_mono tr tr' client clean m : tr ⊆ tr' -> recorded tr client clean m -> recorded tr' client clean m.
Proof. unfold recorded. set_solver. Qed.
Lemma permitted_mono tr tr' p client m : tr ⊆ tr' -> permitted tr p client m -> permitted tr' p client m.
Proof. unfold permitted. set_solver. Qed.

Lemma register_received_recorded m client clean store tr ack :
  runs (register_received (Doc := Doc) m client clean store) tr (Ok (Some ack)) ->
  recorded tr client clean m /\
  exists id, pb_packet_identifier m = Some id /\
    ack = if pb_qos m =? 1 then PPuback (success_ack id) else PPubrec (success_ack id).
Proof.
  unfold register_received, recorded. destruct (pb_packet_identifier m) as [id|]; [|by intros [_ ?]%runs_ret_inv].
  destruct store; [|by intros [_ ?]%runs_ret_inv].
  intros (t1 & k & t2 & [_ ->]%runs_ask_inv & Hr & ->)%runs_bind_inv.
  apply runs_attempt_ok in Hr as (t1 & d & t3 & [-> Hd]%runs_ret_inv & Hr & ->).
  apply runs_attempt_ok in Hr as (t1 & [] & t4 & [_ ->]%runs_fails_ok%runs_ask_inv & Hr & ->).
  apply runs_bind_inv in Hr as (t1 & [] & t5 & _ & Hr & ->).
  apply runs_bind_inv in Hr as (t6 & registered & t7 & Hreg & Hr & ->). apply runs_ret_inv in Hr as [-> Hack].
  destruct registered; [|done]. injection Hack as ->. split; [|eauto]. exists id, k, d.
  split_and!; [done|by destruct (serialize_stored_packet (PPublish m)) eqn:Hs; simplify_eq/=|set_solver|].
  intros ->. apply runs_bind_inv in Hreg as (t8 & y & t9 & [_ ->]%runs_ask_inv & [-> Hy]%runs_ret_inv & ->).
  destruct y as [y|e| |]; try done. exists y. set_solver.
Qed.

(** No route inside. *)
Definition routes_packet (o : sop Doc) : bool := match o with RouteSend _ _ _ => true | _ => false end.
Lemma register_no_route m client clean store tr o :
  reaches (register_received (Doc := Doc) m client clean store) tr o -> routes_packet o = false.
Proof.
  unfold register_received. destruct (pb_packet_identifier m) as [id|]; [|done]. destruct store; [|done].
  intros [[_ ->]%reaches_ask|(? & ? & ? & _ & Hr & _)]%reaches_bind; [done|].
  apply reaches_attempt in Hr as [[]|(? & ? & ? & _ & Hr & _)].
  apply reaches_attempt in Hr as [[_ ->]%reaches_fails%reaches_ask|(? & ? & ? & _ & Hr & _)]; [done|].
  apply reaches_bind in Hr as [[_ ->]%reaches_ask|(? & ? & ? & _ & Hr & _)]; [done|].
  apply reaches_bind in Hr as [Hr|(? & ? & ? & _ & [] & _)]. destruct clean; [done|].
  by apply reaches_bind in Hr as [[_ ->]%reaches_ask|(? & ? & ? & _ & [] & _)].
Qed.

Lemma retain_and_route_inv m client ack tr o :
  reaches (retain_and_route (Doc := Doc) m client ack) tr o -> routes_packet o = true ->
  o = RouteSend (cl_tenant_id client) (PPublish m) (Some (cl_client_identifier client)).
Proof.
  unfold retain_and_route. intros [Hr|(? & ? & ? & _ & Hr & _)]%reaches_bind Ho.
  - destruct (pb_retain m); [|done]. by destruct (pb_payload m);
      apply reaches_bind in Hr as [[_ ->]%reaches_ask|(? & ? & ? & _ & [] & _)].
  - by apply reaches_attempt in Hr as [[_ ->]%reaches_fails%reaches_ask|(? & ? & ? & _ & [] & _)].
Qed.

Lemma accept_publish_routes m client clean store tr o :
  reaches (accept_publish (Doc := Doc) m client clean store) tr o -> routes_packet o = true ->
  o = RouteSend (cl_tenant_id client) (PPublish m) (Some (cl_client_identifier client)) /\
  (0 < pb_qos m -> recorded tr client clean m).
Proof.
  unfold accept_publish. intros [[_ ->]%reaches_ask|(t1 & [] & t2 & _ & Hr & ->)]%reaches_bind Ho; [done|].
  apply reaches_guarded in Hr as [->|[->|(t3 & -> & Hr)]]; [done..|]. destruct (0 <? pb_qos m) eqn:Hq.
  - apply reaches_attempt in Hr as [Hr|(t4 & ack & t5 & Hreg & Hr & ->)].
    { apply register_no_route in Hr. congruence. }
    destruct ack as [packet|]; [|done]. split; [by eapply retain_and_route_inv|]. intros _.
    apply register_received_recorded in Hreg as [Hrec _]. eapply recorded_mono, Hrec. set_solver.
  - split; [by eapply retain_and_route_inv|]. intros. lia.
Qed.

(** C24: a message of a client is routed only when the plugins have authorized it and let
    it through (then as they changed it), it has not expired, and - at QoS 1 and 2 - it
    has been stored and, for a persistent session, registered with the session group. *)
Theorem routed_only_if_permitted p client clean store tr t packet source :
  reaches (do_handle_publish (Doc := Doc) p client clean store) tr (RouteSend t packet source) ->
  exists m, permitted tr p client m /\ packet = PPublish m /\ t = cl_tenant_id client /\
    source = Some (cl_client_identifier client) /\ (0 < pb_qos m -> recorded tr client clean m).
Proof.
  unfold do_handle_publish.
  intros [[_ ?]%reaches_ask|(t1 & [az|e| |] & t2 & [_ ->]%runs_ask_inv & Hr & ->)]%reaches_bind; try done.
  destruct (authorized az) eqn:Haz; [|done].
  apply reaches_bind in Hr as [[_ ?]%reaches_ask|(t1 & now & t3 & [_ ->]%runs_ask_inv & Hr & ->)]; [done|].
  destruct (is_publish_expired p now) eqn:He.
  { apply reaches_bind in Hr as [Hr|(? & ? & ? & _ & [] & _)].
    destruct (_ && _); [|done]. by apply reaches_bind in Hr as [[_ ?]%reaches_ask|(? & ? & ? & _ & [] & _)]. }
  apply reaches_bind in Hr as [[_ ?]%reaches_ask|(t1 & [pol|e| |] & t4 & [_ ->]%runs_ask_inv & Hr & ->)]; try done.
  destruct (pr_allow pol) eqn:Hpol; [|done]. change (reaches (accept_publish (after_policy p pol) client clean store) t4
    (RouteSend t packet source)) in Hr.
  apply accept_publish_routes in Hr as [[= -> -> ->] Hrec]; [|done]. exists (after_policy p pol).
  split_and!; [|done..|].
  - exists az, now, pol. cbn [app]. split_and!; try done; set_solver.
  - intros Hq. eapply recorded_mono, Hrec; [set_solver|done].
Qed.

Lemma retain_and_route_ok m client ack tr r :
  runs (retain_and_route (Doc := Doc) m client ack) tr (Ok r) ->
  r = ack /\ mkCall (RouteSend (cl_tenant_id client) (PPublish m) (Some (cl_client_identifier client))) (Ok tt) ∈ tr.
Proof.
  unfold retain_and_route. intros (t1 & [] & t2 & _ & Hr & ->)%runs_bind_inv.
  apply runs_attempt_ok in Hr as (t3 & [] & t4 & [_ ->]%runs_fails_ok%runs_ask_inv & [-> [= ->]]%runs_ret_inv & ->).
  split; [done|]. set_solver.
Qed.

(** What the client is told. *)
Definition success_code (packet : Packet) : bool :=
  match packet with
  | PPuback a | PPubrec a => bool_decide (ak_reason_code a = RcSuccess)
  | _ => false
  end.
(** The message is dropped: it has expired, or a plugin stops it or fails. *)
Definition dropped tr p client : Prop :=
  (exists now, mkCall SNow now ∈ tr /\ is_publish_expired p now = true) \/
  (exists r, mkCall (OnMessagePublish (mqtt_message_from_publish p client)) r ∈ tr /\
             forall pol, r = Ok pol -> pr_allow pol = false).

Lemma accept_publish_ok m client clean store tr ack :
  runs (accept_publish (Doc := Doc) m client clean store) tr (Ok (Some ack)) ->
  recorded tr client clean m /\
  mkCall (RouteSend (cl_tenant_id client) (PPublish m) (Some (cl_client_identifier client))) (Ok tt) ∈ tr.
Proof.
  unfold accept_publish. intros (t1 & [] & t2 & _ & Hr & ->)%runs_bind_inv.
  apply runs_guarded_inv in Hr as (t3 & Hr & ->). destruct (0 <? pb_qos m).
  - apply runs_attempt_ok in Hr as (t4 & ack' & t5 & Hreg & Hr & ->).
    destruct ack' as [packet|]; [|by apply runs_ret_inv in Hr as [_ ?]].
    apply retain_and_route_ok in Hr as [_ Hroute]. apply register_received_recorded in Hreg as [Hrec _].
    split; [|set_solver]. eapply recorded_mono, Hrec. set_solver.
  - by apply retain_and_route_ok in Hr as [? _].
Qed.

(** C20: the handler of PUBLISH answers a message of QoS 1 or 2 with success only when the
    message was stored, registered and accepted by the router, or was dropped: it had
    expired, or a plugin stopped it.  (The retry timer is another matter: it sends a PUBREC
    for every entry that waits for a PUBREL, and the entry is made before the
    registration and the routing, which may fail.) *)
Theorem acknowledged_is_safe p client clean store tr ack :
  runs (do_handle_publish (Doc := Doc) p client clean store) tr (Ok (Some ack)) -> success_code ack = true ->
  dropped tr p client \/
  exists m, permitted tr p client m /\ recorded tr client clean m /\
    mkCall (RouteSend (cl_tenant_id client) (PPublish m) (Some (cl_client_identifier client))) (Ok tt) ∈ tr.
Proof.
  unfold do_handle_publish. intros (t1 & az & t2 & [_ ->]%runs_ask_inv & Hr & ->)%runs_bind_inv Hack.
  assert (forall rc, runs (Ret (Ok (inbound_publish_ack p rc))) t2 (Ok (Some ack) : outcome HandlePublishError _) ->
                     rc = RcSuccess) as Hrc.
  { intros rc [_ [= Heq]]%runs_ret_inv. unfold inbound_publish_ack in Heq.
    destruct (pb_packet_identifier p); [|done]. cbn in Heq.
    repeat case_match; simplify_eq/=; by apply bool_decide_eq_true in Hack. }
  destruct az as [az|e| |]; try (by apply Hrc in Hr). destruct (authorized az) eqn:Haz; [|by apply Hrc in Hr]. clear Hrc.
  apply runs_bind_inv in Hr as (t1 & now & t3 & [_ ->]%runs_ask_inv & Hr & ->).
  destruct (is_publish_expired p now) eqn:He; [left; left; exists now; split; [set_solver|done]|].
  apply runs_bind_inv in Hr as (t1 & pol & t4 & [_ ->]%runs_ask_inv & Hr & ->).
  destruct pol as [pol|e| |]; try (left; right; eexists; split; [right; right; left|done]).
  destruct (pr_allow pol) eqn:Hpol; [|left; right; eexists; split; [right; right; left|by intros ? [= <-]]]. right.
  change (runs (accept_publish (after_policy p pol) client clean store) t4 (Ok (Some ack))) in Hr.
  apply accept_publish_ok in Hr as [Hrec Hroute]. exists (after_policy p pol). split_and!.
  - exists az, now, pol. cbn [app]. split_and!; try done; set_solver.
  - eapply recorded_mono, Hrec. set_solver.
  - set_solver.
Qed.
End Publish.

(** ** Messages for the client *)

Section Delivery.
Context {Doc : Type} `{Serde Doc Packet, Serde Doc MqttPacketV3, Base64}.
Implicit Types (tr : list (Call Doc)) (p m : Publish) (cx : DeliveryContext).

(** The last thing written to the payload store. *)
Definition store_quiet (c : Call Doc) : Prop := match c_op c with SPut _ _ | SDelete _ => False | _ => True end.
Definition last_stored tr (key : string) (d : Doc) : Prop :=
  exists t1 t2, tr = t1 ++ mkCall (SPut key d) (Ok tt) :: t2 /\ Forall store_quiet t2.

Lemma last_stored_app tr tr' key d : last_stored tr' key d -> last_stored (tr ++ tr') key d.
Proof. intros (t1 & t2 & -> & Hq). exists (tr ++ t1), t2. split; [by rewrite app_assoc|done]. Qed.
Lemma last_stored_quiet tr tr' key d : last_stored tr key d -> Forall store_quiet tr' -> last_stored (tr ++ tr') key d.
Proof.
  intros (t1 & t2 & -> & Hq) Hq'. exists t1, (t2 ++ tr'). split; [by rewrite <-app_assoc|by apply Forall_app].
Qed.

Lemma serialize_ok packet tr d : runs (serialize (Doc := Doc) packet) tr (Ok d) -> tr = [] /\ to_vec packet = Ok d.
Proof. intros [-> Hd]%runs_ret_inv. by destruct (serialize_stored_packet packet) eqn:Hs; simplify_eq/=. Qed.
Lemma raft_ok {E} (g : RaftFailure -> E) req tr y :
  runs (fails_with g (ask (Raft (Doc := Doc) req))) tr (Ok y) -> tr = [mkCall (Raft req) (Ok y)].
Proof. by intros [_ ->]%runs_fails_ok%runs_ask_inv. Qed.
Lemma put_ok {E} (g : string -> E) key d tr :
  runs (fails_with g (ask (SPut (Doc := Doc) key d))) tr (Ok tt) -> tr = [mkCall (SPut key d) (Ok tt)].
Proof. by intros [_ ->]%runs_fails_ok%runs_ask_inv. Qed.

(** The registration with the session group: the packet that is registered is the one
    that is stored. *)
Lemma register_persistent_ok cx m id key d tr m' :
  pb_packet_identifier m = Some id -> to_vec (PPublish m) = Ok d ->
  runs (register_persistent cx m id (pb_qos m) key) tr (Ok m') ->
  exists id' d' y, m' = with_identifier (Some id') m /\ to_vec (PPublish m') = Ok d' /\
    mkCall (Raft (InflightRegisterTxPacket (cx_tenant_id cx) (cx_client_id cx) id' (pb_qos m) key
                    (cx_defer_delivery cx))) (Ok y) ∈ tr /\
    last_stored (mkCall (SPut key d) (Ok tt) :: tr) key d'.
Proof.
  intros Hid Hd. unfold register_persistent. intros (t1 & m1 & t2 & Hreg & Hr & ->)%runs_attempt_ok.
  assert (m' = m1 /\ Forall store_quiet t2) as [-> Hq].
  { destruct (pb_packet_identifier m1); [|by apply runs_ret_inv in Hr as [_ ?]].
    apply runs_bind_inv in Hr as (? & r & ? & [_ ->]%runs_ask_inv & [-> Hr]%runs_ret_inv & ->).
    destruct r; simplify_eq/=. split; [done|by repeat constructor]. }
  clear Hr. apply runs_bind_inv in Hreg as (t3 & r & t4 & [_ ->]%runs_ask_inv & Hr & ->).
  destruct r as [y|[|e]| |]; try by apply runs_ret_inv in Hr as [_ ?].
  - apply runs_ret_inv in Hr as [-> [= ->]]. exists id, d, y. split_and!; [by destruct m; simplify_eq/=|done|set_solver|].
    eexists [], _. split; [reflexivity|]. by repeat constructor.
  - apply runs_bind_inv in Hr as (t5 & [new_id|] & t6 & [_ ->]%runs_ask_inv & Hr & ->);
      [|by apply runs_ret_inv in Hr as [_ ?]].
    apply runs_attempt_ok in Hr as (t7 & d' & t8 & [-> Hd']%serialize_ok & Hr & ->).
    apply runs_attempt_ok in Hr as (t7 & [] & t9 & ->%put_ok & Hr & ->).
    apply runs_attempt_ok in Hr as (t7 & y & t10 & ->%raft_ok & [-> [= ->]]%runs_ret_inv & ->).
    exists new_id, d', y. split_and!; [done|done|set_solver|].
    rewrite ?app_nil_r. cbn [app]. eexists [_; _; _], _. split; [reflexivity|]. by repeat constructor.
Qed.

Lemma prepare_iff_unexpired p v now :
  (prepare_publish_for_delivery p v now).1 = negb (is_publish_expired p now).
Proof.
  unfold prepare_publish_for_delivery, is_publish_expired. destruct (pb_expires_at_unix_secs p) as [e|]; [|done].
  destruct (e <=? now); [done|]. by destruct v.
Qed.

(** A message for a connected client. *)
Lemma deliver_active_ok cx conn m tr st :
  cx_clean_session cx = false -> runs (deliver_active (Doc := Doc) cx conn m) tr (Ok st) ->
  exists m' key d id y, m' = with_identifier (Some id) m /\ to_vec (PPublish m') = Ok d /\ last_stored tr key d /\
    mkCall (Raft (InflightRegisterTxPacket (cx_tenant_id cx) (cx_client_id cx) id (pb_qos m) key
                    (cx_defer_delivery cx))) (Ok y) ∈ tr /\
    (st = Sent -> exists tr', tr = tr' ++ [mkCall (ConnSend conn (PPublish m')) (Ok (Ok tt))]).
Proof.
  intros Hclean. unfold deliver_active. intros (t1 & m1 & tr1 & Hid & Hr & ->)%runs_attempt_ok.
  assert (exists id, pb_packet_identifier m1 = Some id /\ m1 = with_identifier (Some id) m) as (id & Hid1 & Hm1).
  { destruct (pb_packet_identifier m) as [id|] eqn:Hm.
    - apply runs_ret_inv in Hid as [_ [= ->]]. exists id. split; [done|]. by destruct m; simplify_eq/=.
    - apply runs_bind_inv in Hid as (? & [id|] & ? & _ & [_ [= ->]]%runs_ret_inv & _). by exists id. }
  clear Hid. rewrite Hid1 in Hr.
  assert (pb_qos m = pb_qos m1) as Hqos by (by rewrite Hm1). rewrite Hqos in Hr.
  apply runs_attempt_ok in Hr as (t2 & [] & tr2 & _ & Hr & ->).
  apply runs_bind_inv in Hr as (t3 & key & tr3 & _ & Hr & ->).
  apply runs_attempt_ok in Hr as (t4 & d & tr4 & [-> Hd]%serialize_ok & Hr & ->).
  apply runs_attempt_ok in Hr as (t5 & [] & tr5 & ->%put_ok & Hr & ->).
  apply runs_attempt_ok in Hr as (t6 & [m' refresh] & tr6 & Hreg & Hr & ->). rewrite Hclean in Hreg.
  apply runs_attempt_ok in Hreg as (t7 & m2 & t8 & Hreg & [-> [= <- ->]]%runs_ret_inv & ->). rewrite app_nil_r.
  destruct (register_persistent_ok cx m1 id key d t7 m' Hid1 Hd Hreg) as (id' & d' & y & Hm' & Hd' & Hy & Hlast).
  apply runs_attempt_ok in Hr as (t9 & [] & tr7 & [-> _]%runs_ret_inv & Hr & ->). cbn [app].
  assert (Forall store_quiet tr7 /\
          (st = Sent -> exists t, tr7 = t ++ [mkCall (ConnSend conn (PPublish m')) (Ok (Ok tt))])) as [Hq Hsent].
  { destruct (cx_defer_delivery cx).
    - apply runs_bind_inv in Hr as (? & [] & ? & [_ ->]%runs_ask_inv & [-> [= ->]]%runs_ret_inv & ->).
      split; [by repeat constructor|done].
    - apply runs_attempt_ok in Hr as (t10 & [] & ? & Hw & [-> [= ->]]%runs_ret_inv & ->). unfold write_to_client in Hw.
      apply runs_attempt_ok in Hw as (t11 & r & ? & [_ ->]%runs_fails_ok%runs_ask_inv & [-> Hw]%runs_ret_inv & ->).
      destruct r as [[]| | |]; simplify_eq/=. split; [by repeat constructor|]. intros _. by exists []. }
  exists m', key, d', id', y. split_and!; [by rewrite Hm', Hm1|done| |rewrite Hqos; set_solver|].
  - do 3 apply last_stored_app. rewrite app_comm_cons. by apply last_stored_quiet.
  - intros [t ->]%Hsent. eexists. by rewrite !app_assoc, app_comm_cons, !app_assoc.
Qed.

(** A message for a client that is away. *)
Lemma deliver_inactive_ok cx m tr st :
  cx_clean_session cx = false -> runs (deliver_inactive (Doc := Doc) cx m) tr (Ok st) ->
  exists key d y, to_vec (PPublish m) = Ok d /\ last_stored tr key d /\ st = NotSent /\
    mkCall (Raft (AppendToPendingQueue (cx_tenant_id cx) (cx_client_id cx) key)) (Ok y) ∈ tr.
Proof.
  intros Hclean. unfold deliver_inactive. rewrite Hclean. cbn [negb].
  intros (t2 & [] & tr2 & _ & Hr & ->)%runs_attempt_ok. apply runs_bind_inv in Hr as (t3 & key & tr3 & _ & Hr & ->).
  apply runs_attempt_ok in Hr as (t4 & d & tr4 & [-> Hd]%serialize_ok & Hr & ->).
  apply runs_attempt_ok in Hr as (t5 & [] & tr5 & ->%put_ok & Hr & ->).
  apply runs_attempt_ok in Hr as (t6 & y & tr6 & ->%raft_ok & Hr & ->).
  apply runs_bind_inv in Hr as (? & [] & ? & [_ ->]%runs_ask_inv & [-> [= ->]]%runs_ret_inv & ->).
  exists key, d, y. split_and!; [done| |done|set_solver]. do 3 apply last_stored_app.
  eexists [], _. split; [reflexivity|]. by repeat constructor.
Qed.

(** C16: a persistent session that reports a message of QoS 1 or 2 as taken over has kept
    it, unless it had expired: the payload store holds the message under a key that the
    session group has registered, in flight under the identifier the message carries or
    in the queue of the messages for an absent client; and it was written to the client
    only afterwards. *)
Theorem accepted_is_kept p cx tr st :
  cx_clean_session cx = false -> 0 < pb_qos p ->
  runs (deliver_outbound_publish p cx) tr (Ok st) ->
  exists now, mkCall SNow now ∈ tr /\
    (is_publish_expired p now = true \/
     exists m key d,
       m = with_identifier (pb_packet_identifier m) (prepare_publish_for_delivery p (cx_protocol_version cx) now).2 /\
       to_vec (PPublish m) = Ok d /\ last_stored tr key d /\
       ((exists id y, pb_packet_identifier m = Some id /\
           mkCall (Raft (InflightRegisterTxPacket (cx_tenant_id cx) (cx_client_id cx) id (pb_qos p) key
                           (cx_defer_delivery cx))) (Ok y) ∈ tr) \/
        (exists y, mkCall (Raft (AppendToPendingQueue (cx_tenant_id cx) (cx_client_id cx) key)) (Ok y) ∈ tr)) /\
       (st = Sent -> exists conn tr', tr = tr' ++ [mkCall (ConnSend conn (PPublish m)) (Ok (Ok tt))])).
Proof.
  intros Hclean Hq. unfold deliver_outbound_publish.
  intros (t1 & now & tr1 & [_ ->]%runs_ask_inv & Hr & ->)%runs_bind_inv. exists now. split; [left|].
  pose proof (prepare_qos p (cx_protocol_version cx) now) as Hpq.
  assert ((prepare_publish_for_delivery p (cx_protocol_version cx) now).1 = negb (is_publish_expired p now)) as Hexp
    by apply prepare_iff_unexpired.
  destruct (prepare_publish_for_delivery p (cx_protocol_version cx) now) as [deliverable m] eqn:Hprep.
  cbn [fst snd] in *. destruct (is_publish_expired p now); [by left|]. right. subst deliverable. cbn [negb] in Hr.
  destruct (decide (cx_activity_state cx = Active)).
  - destruct (cx_conn cx) as [conn|]; [|by apply runs_ret_inv in Hr as [_ ?]].
    destruct (pb_qos m =? 0) eqn:Hz; [lia|].
    apply deliver_active_ok in Hr as (m' & key & d & id & y & -> & Hd & Hl & Hy & Hs); [|done].
    exists (with_identifier (Some id) m), key, d. split_and!; [done|done|by apply (last_stored_app [_])| |].
    + left. exists id, y. split; [done|]. rewrite <-Hpq. set_solver.
    + intros [t ->]%Hs. exists conn. eexists. by rewrite app_assoc.
  - destruct (pb_qos m =? 0) eqn:Hz; [lia|].
    apply deliver_inactive_ok in Hr as (key & d & y & Hd & Hl & -> & Hy); [|done].
    exists m, key, d. split_and!; [by destruct m|done|by apply (last_stored_app [_])|right; exists y; set_solver|done].
Qed.
End Delivery.

(** ** Subscriptions *)

Section Subscribe.
Context {Doc : Type} `{Serde Doc Packet, Serde Doc MqttPacketV3, Base64}.
Implicit Types (tr : list (Call Doc)) (packet : Subscribe) (client : Client) (topic : Packet.SubscribeTopic).

(** A topic filter was granted [qos]: the plugins authorized and allowed it, the topic
    group made the subscription, and no more was granted than was asked for. *)
Definition granted tr client topic (qos : Z) : Prop :=
  qos <= st_qos topic /\ qos <= 2 /\
  (exists context az, mkCall (Authorize (authorize_request client AuthSubscribe (st_topic_filter topic) (st_qos topic)
                                           context)) (Ok az) ∈ tr /\ authorized az = true) /\
  (exists asked items item,
     mkCall (OnMessageSubscribe (cl_client_identifier client) asked) (Ok items) ∈ tr /\ item ∈ items /\
     sr_topic item = st_topic_filter topic /\ sr_allowed item = true /\ qos <= sr_granted_qos item) /\
  mkCall (TopicSubscribe (cl_tenant_id client) (cl_client_identifier client) (st_topic_filter topic) qos
            (st_no_local topic) (st_retain_as_published topic)) (Ok tt) ∈ tr.

(** What is told and kept of one topic filter. *)
Definition topic_outcome tr client topic (r : TopicResult) : Prop :=
  match r.2 with
  | Some (filter, sub) =>
      filter = st_topic_filter topic /\ sub_no_local sub = st_no_local topic /\
      sub_retain_as_published sub = st_retain_as_published topic /\
      r.1.2 = granted_qos_reason (as_qos_u8 (sub_qos sub)) /\ granted tr client topic (as_qos_u8 (sub_qos sub))
  | None => 128 <= as_u8 r.1.2
  end.

Lemma granted_mono tr tr' client topic qos : tr ⊆ tr' -> granted tr client topic qos -> granted tr' client topic qos.
Proof.
  intros Hs (? & ? & (ctx & az & ? & ?) & (asked & items & item & ? & ?) & ?). split_and!; [done..| | |set_solver].
  - exists ctx, az. split; [set_solver|done].
  - exists asked, items, item. split; [set_solver|done].
Qed.
Lemma topic_outcome_mono tr tr' client topic r :
  tr ⊆ tr' -> topic_outcome tr client topic r -> topic_outcome tr' client topic r.
Proof.
  unfold topic_outcome. intros Hs. destruct (r.2) as [[filter sub]|]; [|done].
  intros (? & ? & ? & ? & ?). split_and!; try done. by eapply granted_mono.
Qed.

Lemma subscribe_granted_outcome packet client existing topic qos tr r :
  runs (subscribe_granted (Doc := Doc) packet client existing topic qos) tr r ->
  match r.2 with
  | Some (filter, sub) =>
      filter = st_topic_filter topic /\ sub_no_local sub = st_no_local topic /\
      sub_retain_as_published sub = st_retain_as_published topic /\ as_qos_u8 (sub_qos sub) = qos /\
      r.1.2 = granted_qos_reason qos /\
      mkCall (TopicSubscribe (cl_tenant_id client) (cl_client_identifier client) (st_topic_filter topic) qos
                (st_no_local topic) (st_retain_as_published topic)) (Ok tt) ∈ tr
  | None => 128 <= as_u8 r.1.2
  end.
Proof.
  unfold subscribe_granted. intros (t1 & made & t2 & [_ ->]%runs_ask_inv & Hr & ->)%runs_bind_inv.
  destruct made as [[]|e| |]; try (by apply runs_ret_inv in Hr as [_ ->]).
  destruct (qos_from_u8 qos) as [q|e| |] eqn:Hq; try (by apply runs_ret_inv in Hr as [_ ->]).
  apply runs_bind_inv in Hr as (t3 & retained & t4 & _ & [-> ->]%runs_ret_inv & ->). cbn.
  split_and!; try done; [|set_solver].
  unfold qos_from_u8 in Hq. destruct qos as [|[|[]|]|]; try done; by injection Hq as <-.
Qed.

Lemma subscribe_filter_outcome packet client existing topic tr r :
  runs (subscribe_topic_filter (Doc := Doc) packet client existing topic) tr r -> topic_outcome tr client topic r.
Proof.
  unfold subscribe_topic_filter, subscribe_precheck_reason.
  assert (forall tr' reason, runs (Ret (refused reason)) tr' r -> 128 <= as_u8 reason -> topic_outcome tr client topic r)
    as Hrefused by (by intros tr' reason [_ ->]%runs_ret_inv Hcode).
  destruct (strip_prefix "$share/" (st_topic_filter topic)) as [rest|];
    [destruct (parse_shared_subscription_filter (st_topic_filter topic)) as [o|e| |]; try (intros Hr; by eapply Hrefused)|];
    (intros (t1 & az & t2 & [_ ->]%runs_ask_inv & Hr & ->)%runs_bind_inv; cbv zeta in Hr;
     unfold authorization_failure_reason in Hr;
     destruct az as [az|e| |]; cbn [authorized] in Hr; try (by eapply Hrefused);
     destruct (authorized az) eqn:Haz; [|by eapply Hrefused];
     apply runs_bind_inv in Hr as (t3 & items & t4 & [_ ->]%runs_ask_inv & Hr & ->);
     destruct items as [items|e| |]; try (by eapply Hrefused);
     destruct (head (filter _ items)) as [item|] eqn:Hhd; [|by eapply Hrefused];
     destruct (sr_allowed item) eqn:Hal; [|by eapply Hrefused];
     apply subscribe_granted_outcome in Hr; unfold topic_outcome; destruct (r.2) as [[f sub]|]; [|done];
     destruct Hr as (-> & ? & ? & -> & ? & ?);
     assert (item ∈ items /\ sr_topic item = st_topic_filter topic) as [Hin Htop]
       by (destruct (filter _ items) as [|i l] eqn:Hf; [done|]; injection Hhd as ->;
           assert (item ∈ item :: l) as Hx by set_solver; rewrite <-Hf in Hx;
           apply list_elem_of_filter in Hx as [? ?]; done);
     split_and!; try done; unfold granted; split_and!; [lia|lia| | |set_solver];
     [eexists _, az; split; [left|done]
     |eexists _, items, item; split; [right; left|split_and!; try done; lia]]).
Qed.

Lemma subscribe_topics_outcome packet client existing topics tr rs :
  runs (subscribe_topics (Doc := Doc) packet client existing topics) tr rs -> Forall2 (topic_outcome tr client) topics rs.
Proof.
  revert tr rs. induction topics as [|topic topics IH]; intros tr rs; cbn [subscribe_topics].
  - intros [_ ->]%runs_ret_inv. constructor.
  - intros (t1 & r & t2 & Hr & Hrest & ->)%runs_bind_inv.
    apply runs_bind_inv in Hrest as (t3 & rs' & t4 & Hrs & [-> ->]%runs_ret_inv & ->). constructor.
    + eapply topic_outcome_mono, subscribe_filter_outcome, Hr. set_solver.
    + eapply Forall2_impl; [by apply IH|]. intros x y. apply topic_outcome_mono. set_solver.
Qed.

(** C39: a SUBACK tells the truth.  It has one code for each topic filter, in order: a
    granted QoS only where the plugins authorized and allowed the filter and the topic
    group made the subscription with that QoS, which is no more than was asked for; an
    error code otherwise.  The subscriptions handed on to be kept in the session are
    exactly the granted ones; keeping one comes after the SUBACK and can fail. *)
Theorem suback_truthful packet client existing tr res :
  runs (do_handle_subscribe (Doc := Doc) packet client existing) tr res ->
  exists rs, Forall2 (topic_outcome tr client) (sb_topics packet) rs /\
    sa_reason_codes (suback_packet res) = map (fun r : TopicResult => r.1.2) rs /\
    sa_packet_identifier (suback_packet res) = sb_packet_identifier packet /\
    succeed_subscriptions res = flat_map (fun r : TopicResult => option_list r.2) rs.
Proof.
  unfold do_handle_subscribe. destruct (_ && _).
  - intros [_ ->]%runs_ret_inv. exists (map (fun _ => refused RcSubscriptionIdentifiersNotSupported) (sb_topics packet)).
    cbn [suback_packet succeed_subscriptions sa_reason_codes sa_packet_identifier]. split_and!; [| |done|].
    + induction (sb_topics packet); constructor; done.
    + by rewrite map_map.
    + by induction (sb_topics packet).
  - intros (t1 & rs & t2 & Hrs & [-> ->]%runs_ret_inv & ->)%runs_bind_inv. exists rs. rewrite app_nil_r.
    split; [by eapply subscribe_topics_outcome|done].
Qed.
End Subscribe.

(** ** Examples *)

Module DeliverySample.
Import FlowSample.
Definition client : Client := get_plugin_client_info actor.
Definition az : AuthorizeResult := mkAuthorizeResult true None.
Definition pol : MessagePublishResult := mkPublishResult true None None.
(** A connected client of a persistent session. *)
Definition context : DeliveryContext := mkContext "tenant" "client" false V5_0 Active true (Some 7) false.
Definition absent : DeliveryContext := mkContext "tenant" "client" false V5_0 Inactive true (Some 7) false.
End DeliverySample.

Import Plain.

Lemma routed_only_if_permitted_witness :
  exists tr m,
    reaches (do_handle_publish (Doc := Packet) (FlowSample.message 1) DeliverySample.client false true) tr
      (RouteSend "tenant" (PPublish (FlowSample.message 1)) (Some "client"%string)) /\
    permitted tr (FlowSample.message 1) DeliverySample.client m /\ recorded tr DeliverySample.client false m.
Proof.
  assert (exists tr,
    reaches (do_handle_publish (Doc := Packet) (FlowSample.message 1) DeliverySample.client false true) tr
      (RouteSend "tenant" (PPublish (FlowSample.message 1)) (Some "client"%string))) as [tr Htr].
  { eexists. eapply (reaches_next (Authorize _) _ _ (Ok DeliverySample.az)); [exact I|].
    eapply (reaches_next SNow _ _ 2); [exact I|].
    eapply (reaches_next (OnMessagePublish _) _ _ (Ok DeliverySample.pol)); [exact I|].
    eapply (reaches_next (MessagePublished _) _ _ tt); [exact I|].
    eapply (reaches_next Lock _ _ tt); [exact I|].
    eapply (reaches_next SUuid _ _ "key"%string); [exact I|].
    eapply (reaches_next (SPut _ _) _ _ (Ok tt)); [exact I|].
    eapply (reaches_next (State _ _ _) _ _ tt); [exists 2, (new_with_options 10 None None); reflexivity|].
    eapply (reaches_next (Raft _) _ _ (Ok RespNone)); [exact I|].
    eapply reaches_here. }
  exists tr. destruct (routed_only_if_permitted _ _ _ _ _ _ _ _ Htr) as (m & Hp & Hm & _ & _ & Hrec).
  exists m. split; [exact Htr|]. split; [exact Hp|]. apply Hrec. injection Hm as <-. reflexivity.
Defined.

Lemma acknowledged_is_safe_witness :
  exists tr ack,
    runs (do_handle_publish (Doc := Packet) (FlowSample.message 1) DeliverySample.client false true) tr (Ok (Some ack)) /\
    success_code ack = true /\
    (dropped tr (FlowSample.message 1) DeliverySample.client \/
     exists m, permitted tr (FlowSample.message 1) DeliverySample.client m /\ recorded tr DeliverySample.client false m /\
       mkCall (RouteSend "tenant" (PPublish m) (Some "client"%string)) (Ok tt) ∈ tr).
Proof.
  assert (exists tr,
    runs (do_handle_publish (Doc := Packet) (FlowSample.message 1) DeliverySample.client false true) tr
      (Ok (Some (PPuback (success_ack 1))))) as [tr Htr].
  { eexists. eapply (runs_next (Authorize _) _ (Ok DeliverySample.az)); [exact I|].
    eapply (runs_next SNow _ 2); [exact I|].
    eapply (runs_next (OnMessagePublish _) _ (Ok DeliverySample.pol)); [exact I|].
    eapply (runs_next (MessagePublished _) _ tt); [exact I|].
    eapply (runs_next Lock _ tt); [exact I|].
    eapply (runs_next SUuid _ "key"%string); [exact I|].
    eapply (runs_next (SPut _ _) _ (Ok tt)); [exact I|].
    eapply (runs_next (State _ _ _) _ tt); [exists 2, (new_with_options 10 None None); reflexivity|].
    eapply (runs_next (Raft _) _ (Ok RespNone)); [exact I|].
    eapply (runs_next (RouteSend _ _ _) _ (Ok tt)); [exact I|].
    eapply (runs_next Unlock _ tt); [exact I|].
    eapply runs_end. }
  exists tr, (PPuback (success_ack 1)). split; [exact Htr|]. split; [reflexivity|].
  apply (acknowledged_is_safe _ _ _ _ _ _ Htr). reflexivity.
Defined.

Lemma accepted_is_kept_witness :
  exists tr now,
    runs (deliver_outbound_publish (Doc := Packet) (FlowSample.message 1) DeliverySample.absent) tr (Ok NotSent) /\
    mkCall SNow now ∈ tr /\
    (is_publish_expired (FlowSample.message 1) now = true \/
     exists key (d : Packet), last_stored tr key d).
Proof.
  assert (exists tr, runs (deliver_outbound_publish (Doc := Packet) (FlowSample.message 1) DeliverySample.absent) tr
                       (Ok NotSent)) as [tr Htr].
  { eexists. eapply (runs_next SNow _ 2); [exact I|].
    eapply (runs_next SUuid _ "key"%string); [exact I|].
    eapply (runs_next (SPut _ _) _ (Ok tt)); [exact I|].
    eapply (runs_next (Raft _) _ (Ok RespNone)); [exact I|].
    eapply (runs_next (State _ _ _) _ tt); [exists 2, (new_with_options 10 None None); reflexivity|].
    eapply runs_end. }
  destruct (accepted_is_kept (FlowSample.message 1) DeliverySample.absent tr NotSent eq_refl eq_refl Htr)
    as (now & Hnow & Hkept).
  exists tr, now. split; [exact Htr|]. split; [exact Hnow|].
  destruct Hkept as [He|(m & key & d & _ & _ & Hl & _)]; [left; exact He|right; exists key, d; exact Hl].
Defined.

Lemma suback_truthful_witness :
  exists tr res rs,
    runs (do_handle_subscribe (Doc := Packet)
            (mkSubscribe V5_0 9 [mkSubscribeTopic "a/b" 2 false false DoNotSend] default_properties)
            DeliverySample.client ∅) tr res /\
    sa_reason_codes (suback_packet res) = [RcGrantedQos1] /\
    Forall2 (topic_outcome tr DeliverySample.client) [mkSubscribeTopic "a/b" 2 false false DoNotSend] rs /\
    succeed_subscriptions res = flat_map (fun r : TopicResult => option_list r.2) rs.
Proof.
  assert (exists tr res,
    runs (do_handle_subscribe (Doc := Packet)
            (mkSubscribe V5_0 9 [mkSubscribeTopic "a/b" 2 false false DoNotSend] default_properties)
            DeliverySample.client ∅) tr res /\ sa_reason_codes (suback_packet res) = [RcGrantedQos1])
    as (tr & res & Hr & Hcodes).
  { eexists _, _. split.
    - eapply (runs_next (Authorize _) _ (Ok DeliverySample.az)); [exact I|].
      eapply (runs_next (OnMessageSubscribe _ _) _ (Ok [mkSubscribeItem "a/b" true 1])); [exact I|].
      eapply (runs_next (TopicSubscribe _ _ _ _ _ _) _ (Ok tt)); [exact I|]. eapply runs_end.
    - reflexivity. }
  destruct (suback_truthful _ _ _ _ _ Hr) as (rs & Hrs & _ & _ & Hsub).
  exists tr, res, rs. split; [exact Hr|]. split; [exact Hcodes|]. split; [exact Hrs|exact Hsub].
Defined.
