(* ===== verification/TimerActor.v ===== *)
(** * Timers ([broker/src/timer_actor.rs])

    One actor keeps the keep-alive and retransmission timers of all sessions of a node:
    a table from a session and a kind of timer to the session's address, and the
    [DelayQueue] of the [tokio_util] crate, whose keys the table remembers.  Every ten
    milliseconds it takes what has expired out of the queue and tells the sessions.

    The queue is a class with its documented behaviour; [entries] is what it holds.  The
    theorems: the actor refines a table of deadlines, so that the queue's keys are never
    stale (a stale key makes [reset] panic) and a tick fires exactly what is due; a
    session is told that its client is silent exactly when it was silent for the whole
    interval, and once. *)

From S2P Require Import Prelude Packet SessionActor.

#[local] Open Scope Z_scope.

(** ** The delay queue

    Times are in milliseconds, the queue's resolution.  [insert] and [reset] panic on a
    delay beyond the queue's range, [reset] on a key the queue does not hold. *)

Inductive Poll (T : Type) := Ready (t : option T) | Pending.
Arguments Ready {T}.
Arguments Pending {T}.

Class DelayQueue (Q Key T : Type) `{EqDecision Key, Countable Key} := {
  dq_new : Q;
  dq_insert : Z -> T -> Z -> Q -> outcome unit (Key * Q);
  dq_reset : Z -> Key -> Z -> Q -> outcome unit Q;
  dq_try_remove : Key -> Q -> option T * Q;
  dq_poll_expired : Z -> Q -> Poll T * Q;
  max_delay : Z;
  entries : Q -> gmap Key (T * Z);
  entries_new : entries dq_new = ∅;
  insert_spec now t d q : 0 <= d <= max_delay ->
    exists key q', dq_insert now t d q = Ok (key, q') /\ entries q !! key = None /\
      entries q' = <[key := (t, now + d)]> (entries q);
  reset_spec now key d q t d0 : 0 <= d <= max_delay -> entries q !! key = Some (t, d0) ->
    exists q', dq_reset now key d q = Ok q' /\ entries q' = <[key := (t, now + d)]> (entries q);
  reset_panics now key d q : entries q !! key = None -> dq_reset now key d q = Panic;
  try_remove_spec key q : entries (dq_try_remove key q).2 = delete key (entries q);
  poll_ready now q t : (dq_poll_expired now q).1 = Ready (Some t) ->
    exists key d, entries q !! key = Some (t, d) /\ d <= now /\
      entries (dq_poll_expired now q).2 = delete key (entries q);
  poll_none now q : (dq_poll_expired now q).1 = Ready None ->
    entries q = ∅ /\ entries (dq_poll_expired now q).2 = ∅;
  poll_pending now q : (dq_poll_expired now q).1 = Pending ->
    entries (dq_poll_expired now q).2 = entries q /\
    forall key t d, entries q !! key = Some (t, d) -> now < d;
}.

(** ** The actor *)

#[export] Instance TimerType_eq_dec : EqDecision TimerType.
Proof. solve_decision. Defined.
#[export] Instance TimerType_countable : Countable TimerType.
Proof.
  refine (inj_countable' (fun t => match t with TimerInflight => true | TimerKeepAlive => false end)
    (fun b : bool => if b then TimerInflight else TimerKeepAlive) _). by intros [].
Defined.

Record SessionKey := mkKey {
  key_tenant_id : string;
  key_session_id : string;
  key_session_instance_id : Z;
  key_timer_type : TimerType;
}.
#[export] Instance SessionKey_eq_dec : EqDecision SessionKey.
Proof. solve_decision. Defined.
#[export] Instance SessionKey_countable : Countable SessionKey.
Proof.
  refine (inj_countable' (fun k => (key_tenant_id k, key_session_id k, key_session_instance_id k, key_timer_type k))
    (fun '(a, b, c, d) => mkKey a b c d) _). by intros [].
Defined.

(** A message as it arrives: the session it names, and the address to answer to. *)
Record Request := mkRequest {
  rq_tenant_id : string;
  rq_session_id : string;
  rq_session_instance_id : Z;
  rq_addr : Z;
  rq_message : TimerMessage;
}.
Definition key_of (r : Request) (t : TimerType) : SessionKey :=
  mkKey (rq_tenant_id r) (rq_session_id r) (rq_session_instance_id r) t.

(** [Duration::from_secs], in milliseconds. *)
Definition from_secs (s : Z) : Z := s * 1000.

(** A message given to a session's address. *)
Record Told := mkTold { told_key : SessionKey; told_addr : Z; told_message : SessionActorMessage }.

Inductive Event :=
  | Receive (r : Request)
  | Tick.

Section Actor.
Context {Q Key : Type} `{DQ : DelayQueue Q Key SessionKey}.

Record SessionTimerWrapper := mkWrapper {
  w_recipient : Z;
  w_duration : Z;
  w_timer_type : TimerType;
  w_key : Key;
}.

Record TimerActor := mkTimerActor { queue : Q; sessions : gmap SessionKey SessionTimerWrapper }.

Definition new : TimerActor := mkTimerActor dq_new ∅.

(** The entry of a key is taken out of the table and of the queue. *)
Definition cancel (session_key : SessionKey) (a : TimerActor) : TimerActor :=
  match sessions a !! session_key with
  | Some existing =>
      mkTimerActor (dq_try_remove (w_key existing) (queue a)).2 (delete session_key (sessions a))
  | None => a
  end.

Definition register_timer (now : Z) (session_key : SessionKey) (timeout addr : Z) (timer_type : TimerType)
    (a : TimerActor) : outcome unit TimerActor :=
  let a := cancel session_key a in
  '(key, q) ← dq_insert now session_key timeout (queue a);
  Ok (mkTimerActor q (<[session_key := mkWrapper addr timeout timer_type key]> (sessions a))).

Definition refresh_timer (now : Z) (session_key : SessionKey) (a : TimerActor) : outcome unit TimerActor :=
  match sessions a !! session_key with
  | Some wrapper =>
      q ← dq_reset now (w_key wrapper) (w_duration wrapper) (queue a);
      Ok (mkTimerActor q (sessions a))
  | None => Ok a
  end.

Definition handle_request (now : Z) (r : Request) (a : TimerActor) : outcome unit TimerActor :=
  match rq_message r with
  | RegisterKeepAlive keep_alive =>
      register_timer now (key_of r TimerKeepAlive) (from_secs keep_alive) (rq_addr r) TimerKeepAlive a
  | RegisterInflight retry =>
      register_timer now (key_of r TimerInflight) (from_secs retry) (rq_addr r) TimerInflight a
  | RefreshTimer timer_type => refresh_timer now (key_of r timer_type) a
  | RemoveTimer timer_type => Ok (cancel (key_of r timer_type) a)
  end.

Definition message_of (t : TimerType) : SessionActorMessage :=
  match t with TimerKeepAlive => KeepAliveExpired | TimerInflight => InflightRetry end.

(** The loop over [poll_expired]: what is sent, in order. *)
Fixpoint poll_loop (fuel : nat) (now : Z) (a : TimerActor) : outcome unit (list Told * TimerActor) :=
  match fuel with
  | O => OutOfFuel
  | S fuel =>
      let '(polled, q) := dq_poll_expired now (queue a) in
      match polled with
      | Ready (Some session_key) =>
          match sessions a !! session_key with
          | Some wrapper =>
              '(sent, a) ← poll_loop fuel now (mkTimerActor q (delete session_key (sessions a)));
              Ok (mkTold session_key (w_recipient wrapper) (message_of (w_timer_type wrapper)) :: sent, a)
          | None => poll_loop fuel now (mkTimerActor q (sessions a))
          end
      | Ready None => Ok ([], mkTimerActor q (sessions a))
      | Pending => Ok ([], mkTimerActor q (sessions a))
      end
  end.

(** Every iteration takes an entry out of the queue. *)
Definition poll_fuel (a : TimerActor) : nat := S (size (entries (queue a))).
Definition start_timeout_handler (now : Z) (a : TimerActor) : outcome unit (list Told * TimerActor) :=
  poll_loop (poll_fuel a) now a.

Definition step (e : Z * Event) (a : TimerActor) : outcome unit (list Told * TimerActor) :=
  match e.2 with
  | Receive r => a ← handle_request e.1 r a; Ok ([], a)
  | Tick => start_timeout_handler e.1 a
  end.

Fixpoint run (es : list (Z * Event)) (a : TimerActor) : outcome unit (list (list Told) * TimerActor) :=
  match es with
  | [] => Ok ([], a)
  | e :: es =>
      '(sent, a) ← step e a;
      '(rest, a) ← run es a;
      Ok (sent :: rest, a)
  end.

(** ** The table of deadlines *)

Record Armed := mkArmed { deadline : Z; interval : Z; recipient : Z }.
Abbreviation Deadlines := (gmap SessionKey Armed).

Definition arm (now d addr : Z) : Armed := mkArmed (now + d) d addr.
Definition rearm (now : Z) (t : Armed) : Armed := arm now (interval t) (recipient t).

Definition due (now : Z) (s : Deadlines) : Deadlines := filter (fun kt => deadline kt.2 <= now) s.
Definition told (kt : SessionKey * Armed) : Told :=
  mkTold kt.1 (recipient kt.2) (message_of (key_timer_type kt.1)).

Definition spec_request (now : Z) (r : Request) (s : Deadlines) : Deadlines :=
  match rq_message r with
  | RegisterKeepAlive d => <[key_of r TimerKeepAlive := arm now (from_secs d) (rq_addr r)]> s
  | RegisterInflight d => <[key_of r TimerInflight := arm now (from_secs d) (rq_addr r)]> s
  | RefreshTimer t => alter (rearm now) (key_of r t) s
  | RemoveTimer t => delete (key_of r t) s
  end.

Definition spec_step (e : Z * Event) (s : Deadlines) : list Told * Deadlines :=
  match e.2 with
  | Receive r => ([], spec_request e.1 r s)
  | Tick => (told <$> map_to_list (due e.1 s), filter (fun kt => ~ deadline kt.2 <= e.1) s)
  end.

Fixpoint spec_run (es : list (Z * Event)) (s : Deadlines) : list (list Told) * Deadlines :=
  match es with
  | [] => ([], s)
  | e :: es =>
      let '(sent, s) := spec_step e s in
      let '(rest, s) := spec_run es s in (sent :: rest, s)
  end.

(** The delays a request may ask for. *)
Definition in_range (e : Z * Event) : Prop :=
  match e.2 with
  | Receive r =>
      match rq_message r with
      | RegisterKeepAlive d | RegisterInflight d => 0 <= from_secs d <= max_delay
      | _ => True
      end
  | Tick => True
  end.

(** The table and the queue hold the same timers, under keys that match. *)
Record Related (a : TimerActor) (s : Deadlines) : Prop := {
  rel_sessions : forall k w, sessions a !! k = Some w ->
    exists d, entries (queue a) !! w_key w = Some (k, d) /\ w_timer_type w = key_timer_type k /\
      0 <= w_duration w <= max_delay /\ s !! k = Some (mkArmed d (w_duration w) (w_recipient w));
  rel_entries : forall key k d, entries (queue a) !! key = Some (k, d) ->
    exists w, sessions a !! k = Some w /\ w_key w = key;
  rel_spec : forall k, sessions a !! k = None -> s !! k = None;
}.

Lemma related_new : Related new ∅.
Proof. split; simpl; intros *; rewrite ?lookup_empty; try done. by rewrite entries_new, lookup_empty. Qed.

Lemma related_entry a s key k d : Related a s -> entries (queue a) !! key = Some (k, d) ->
  exists w, sessions a !! k = Some w /\ w_key w = key /\ w_timer_type w = key_timer_type k /\
    s !! k = Some (mkArmed d (w_duration w) (w_recipient w)).
Proof.
  intros R He. destruct (rel_entries _ _ R _ _ _ He) as (w & Hw & <-).
  destruct (rel_sessions _ _ R _ _ Hw) as (d' & He' & Ht & _ & Hs).
  rewrite He in He'. simplify_eq. eauto.
Qed.

(** Taking a timer out of both sides. *)
Lemma related_delete a s k w q : Related a s -> sessions a !! k = Some w ->
  entries q = delete (w_key w) (entries (queue a)) ->
  Related (mkTimerActor q (delete k (sessions a))) (delete k s).
Proof.
  intros R Hk Hq. split; simpl.
  - intros k' w' [Hne Hw']%lookup_delete_Some.
    destruct (rel_sessions _ _ R _ _ Hw') as (d & He & Ht & Hr & Hs). exists d.
    rewrite Hq, !lookup_delete_ne; [done..|by intros <-|].
    intros Heq. destruct (rel_sessions _ _ R _ _ Hk) as (d' & He' & _).
    rewrite Heq, He in He'. congruence.
  - intros key k' d. rewrite Hq. intros [Hne He]%lookup_delete_Some.
    destruct (related_entry _ _ _ _ _ R He) as (w' & Hw' & <- & _). exists w'. split; [|done].
    rewrite lookup_delete_ne; [done|]. intros <-. congruence.
  - intros k' [<-|Hn]%lookup_delete_None; [by rewrite lookup_delete_eq|].
    apply lookup_delete_None. right. by apply (rel_spec _ _ R).
Qed.

Lemma related_cancel a s k : Related a s -> Related (cancel k a) (delete k s).
Proof.
  intros R. unfold cancel. destruct (sessions a !! k) as [w|] eqn:Hk.
  - apply (related_delete _ _ _ w); [done..|]. apply try_remove_spec.
  - rewrite (delete_id s); [done|]. by apply (rel_spec _ _ R).
Qed.

Lemma cancel_none a k : sessions (cancel k a) !! k = None.
Proof. unfold cancel. destruct (sessions a !! k) eqn:Hk; [|done]. apply lookup_delete_eq. Qed.

(** Each handler refines the specification of it. *)
Lemma related_register now a s k d addr : Related a s -> 0 <= d <= max_delay ->
  exists a', register_timer now k d addr (key_timer_type k) a = Ok a' /\
    Related a' (<[k := arm now d addr]> s).
Proof.
  intros R Hd. unfold register_timer.
  pose proof (related_cancel _ _ k R) as RC. pose proof (cancel_none a k) as Hnone.
  destruct (insert_spec now k d (queue (cancel k a)) Hd) as (key & q & -> & Hfresh & Hq). simpl.
  eexists; split; [done|]. split; simpl.
  - intros k' w [[<- <-]|[Hne Hw]]%lookup_insert_Some; simpl.
    + exists (now + d). by rewrite Hq, !lookup_insert_eq.
    + destruct (rel_sessions _ _ RC _ _ Hw) as (d' & He & Ht & Hr & Hs). exists d'.
      rewrite lookup_delete_ne in Hs by done. rewrite Hq, !lookup_insert_ne; [done..|]. congruence.
  - intros key' k' d'. rewrite Hq. intros [[<- [= <- _]]|[Hne He]]%lookup_insert_Some.
    + rewrite lookup_insert_eq. eauto.
    + destruct (related_entry _ _ _ _ _ RC He) as (w & Hw & <- & _). exists w. split; [|done].
      rewrite lookup_insert_ne; [done|]. intros <-. congruence.
  - intros k' [Hn Hne]%lookup_insert_None. rewrite lookup_insert_ne by done.
    pose proof (rel_spec _ _ RC _ Hn) as Hs. by rewrite lookup_delete_ne in Hs.
Qed.

Lemma related_refresh now a s k : Related a s ->
  exists a', refresh_timer now k a = Ok a' /\ Related a' (alter (rearm now) k s).
Proof.
  intros R. unfold refresh_timer. destruct (sessions a !! k) as [w|] eqn:Hk.
  - destruct (rel_sessions _ _ R _ _ Hk) as (d & He & Ht & Hr & Hs).
    destruct (reset_spec now (w_key w) (w_duration w) (queue a) _ _ Hr He) as (q & -> & Hq). simpl.
    eexists; split; [done|]. split; simpl.
    + intros k' w' Hw'. destruct (decide (k' = k)) as [->|Hne].
      * assert (w' = w) as -> by congruence. exists (now + w_duration w).
        by rewrite Hq, lookup_insert_eq, lookup_alter_eq, Hs.
      * destruct (rel_sessions _ _ R _ _ Hw') as (d' & He' & ? & ? & ?). exists d'.
        rewrite Hq, lookup_insert_ne, lookup_alter_ne by congruence. done.
    + intros key k' d'. rewrite Hq. intros [[<- [= <- _]]|[Hne He']]%lookup_insert_Some; [eauto|].
      by eapply rel_entries.
    + intros k' Hn. rewrite lookup_alter_ne by congruence. by apply (rel_spec _ _ R).
  - exists a. split; [done|]. rewrite alter_id; [done|]. intros t Ht.
    by rewrite (rel_spec _ _ R _ Hk) in Ht.
Qed.

Lemma related_request now r a s : Related a s -> in_range (now, Receive r) ->
  exists a', handle_request now r a = Ok a' /\ Related a' (spec_request now r s).
Proof.
  intros R Hr. unfold handle_request, spec_request. unfold in_range in Hr; simpl in Hr.
  destruct (rq_message r) as [d|d|t|t].
  - by apply (related_register now a s (key_of r TimerKeepAlive)).
  - by apply (related_register now a s (key_of r TimerInflight)).
  - eexists; split; [done|]. by apply related_cancel.
  - by apply related_refresh.
Qed.

Lemma due_delete now s k t : s !! k = Some t -> deadline t <= now ->
  map_to_list (due now s) ≡ₚ (k, t) :: map_to_list (due now (delete k s)).
Proof.
  intros Hs Hd. unfold due. rewrite map_filter_delete, map_to_list_delete; [done|].
  by apply map_lookup_filter_Some.
Qed.

Lemma poll_refines now fuel : forall a s, Related a s -> (size (entries (queue a)) < fuel)%nat ->
  exists sent a', poll_loop fuel now a = Ok (sent, a') /\ sent ≡ₚ (told <$> map_to_list (due now s)) /\
    Related a' (filter (fun kt => ~ deadline kt.2 <= now) s).
Proof.
  induction fuel as [|fuel IH]; intros a s R Hf; [lia|]. simpl.
  destruct (dq_poll_expired now (queue a)) as [[[k|]|] q] eqn:Hp; simpl.
  - assert (H1 : (dq_poll_expired now (queue a)).1 = Ready (Some k)) by by rewrite Hp.
    apply poll_ready in H1 as (key & d & He & Hd & Hq). rewrite Hp in Hq. simpl in Hq.
    destruct (related_entry _ _ _ _ _ R He) as (w & Hw & <- & Ht & Hs). rewrite Hw.
    destruct (IH (mkTimerActor q (delete k (sessions a))) (delete k s)) as (sent & a' & -> & Hsent & R').
    { by apply (related_delete _ _ _ w). }
    { simpl. rewrite Hq, map_size_delete_Some by eauto.
      assert (size (entries (queue a)) <> 0%nat) by (intros H0%map_size_empty_inv; by rewrite H0, lookup_empty in He).
      lia. }
    simpl. do 2 eexists; split; [done|]. split.
    + rewrite (due_delete _ _ _ _ Hs Hd), fmap_cons, Hsent. unfold told at 2. by rewrite Ht.
    + rewrite map_filter_delete_not in R'; [done|]. intros t' Ht'. rewrite Hs in Ht'. simplify_eq/=. tauto.
  - assert (H1 : (dq_poll_expired now (queue a)).1 = Ready None) by by rewrite Hp.
    apply poll_none in H1 as [He Hq]. rewrite Hp in Hq. simpl in Hq.
    assert (Hemp : s = ∅).
    { apply map_empty. intros k. destruct (sessions a !! k) as [w|] eqn:Hw; [|by apply (rel_spec _ _ R)].
      destruct (rel_sessions _ _ R _ _ Hw) as (d & Hk & _). by rewrite He, lookup_empty in Hk. }
    subst s. do 2 eexists; split; [done|]. unfold due. rewrite !map_filter_empty, map_to_list_empty. split; [done|].
    split; simpl; intros *; rewrite ?Hq, ?lookup_empty; try done. intros Hw.
    destruct (rel_sessions _ _ R _ _ Hw) as (d & _ & _ & _ & Hk). by rewrite lookup_empty in Hk.
  - assert (H1 : (dq_poll_expired now (queue a)).1 = Pending) by by rewrite Hp.
    apply poll_pending in H1 as [Hq Hlate]. rewrite Hp in Hq. simpl in Hq.
    assert (Hs : forall k t, s !! k = Some t -> now < deadline t).
    { intros k t Ht. destruct (sessions a !! k) as [w|] eqn:Hw; [|by rewrite (rel_spec _ _ R) in Ht].
      destruct (rel_sessions _ _ R _ _ Hw) as (d & Hk & _ & _ & Hs). rewrite Ht in Hs. simplify_eq/=. eauto. }
    do 2 eexists; split; [done|]. split.
    + assert (due now s = ∅) as ->; [|by rewrite map_to_list_empty].
      apply map_empty. intros k. apply map_lookup_filter_None. right. intros t Ht%Hs. simpl. lia.
    + rewrite map_filter_id; [by destruct R as [R1 R2 R3]; split; simpl; rewrite ?Hq|].
      intros k t Ht%Hs. simpl. lia.
Qed.

Lemma spec_run_snoc es e s : (spec_run (es ++ [e]) s).2 = (spec_step e (spec_run es s).2).2.
Proof.
  revert s. induction es as [|e' es IH]; intros s; simpl; [by destruct (spec_step e s)|].
  destruct (spec_step e' s) as [x s1]. specialize (IH s1).
  by destruct (spec_run (es ++ [e]) s1), (spec_run es s1).
Qed.

Lemma step_refines e a s : Related a s -> in_range e ->
  exists sent a', step e a = Ok (sent, a') /\ sent ≡ₚ (spec_step e s).1 /\ Related a' (spec_step e s).2.
Proof.
  intros R He. destruct e as [now [r|]]; unfold step, spec_step; simpl.
  - destruct (related_request _ _ _ _ R He) as (a' & -> & R'). by do 2 eexists.
  - by apply poll_refines; [|unfold poll_fuel; lia].
Qed.

Lemma run_refines es : forall a s, Related a s -> Forall in_range es ->
  exists out a', run es a = Ok (out, a') /\ Forall2 Permutation out (spec_run es s).1 /\
    Related a' (spec_run es s).2.
Proof.
  induction es as [|e es IH]; intros a s R Hes; [by do 2 eexists|].
  apply Forall_cons in Hes as [He Hes]. simpl.
  destruct (step_refines e a s R He) as (sent & a1 & -> & Hsent & R1). simpl.
  destruct (spec_step e s) as [sent' s1]. simpl in *.
  destruct (IH a1 s1 R1 Hes) as (rest & a2 & -> & Hrest & R2). simpl.
  destruct (spec_run es s1) as [rest' s2]. simpl in *. do 2 eexists. split; [done|]. split; [by constructor|done].
Qed.

(** ** Silence *)

(** What a run tells about one timer. *)
Definition told_of (k : SessionKey) (out : list (list Told)) : list Told :=
  filter (fun t => told_key t = k) (concat out).

(** The messages of one timer: only refreshing it leaves it armed as it was. *)
Definition refreshes (k : SessionKey) (r : Request) : bool :=
  match rq_message r with RefreshTimer t => bool_decide (key_of r t = k) | _ => false end.
Definition leaves_armed (k : SessionKey) (e : Z * Event) : Prop :=
  match e.2 with
  | Receive r =>
      match rq_message r with
      | RegisterKeepAlive _ => key_of r TimerKeepAlive <> k
      | RegisterInflight _ => key_of r TimerInflight <> k
      | RemoveTimer t => key_of r t <> k
      | RefreshTimer _ => True
      end
  | Tick => True
  end.

(** When the client was last heard of. *)
Fixpoint last_active (k : SessionKey) (t0 : Z) (es : list (Z * Event)) : Z :=
  match es with
  | [] => t0
  | (t, Receive r) :: es => last_active k (if refreshes k r then t else t0) es
  | (_, Tick) :: es => last_active k t0 es
  end.

(** A tick came when nothing had been heard for [d]. *)
Definition silent (k : SessionKey) (d t0 : Z) (es : list (Z * Event)) : Prop :=
  exists before t after, es = before ++ (t, Tick) :: after /\ last_active k t0 before + d <= t.

Lemma told_of_perm k out out' : Forall2 Permutation out out' -> told_of k out ≡ₚ told_of k out'.
Proof.
  intros Hall. unfold told_of. enough (concat out ≡ₚ concat out') as ->; [done|].
  induction Hall as [|l l' out out' Hl _ IH]; [done|]. simpl. by rewrite Hl, IH.
Qed.

Lemma told_of_cons k l out : told_of k (l :: out) = filter (fun t => told_key t = k) l ++ told_of k out.
Proof. unfold told_of. simpl. apply filter_app. Qed.

Lemma told_listing k (s : Deadlines) :
  filter (fun t => told_key t = k) (told <$> map_to_list s) ≡ₚ
  match s !! k with Some t => [told (k, t)] | None => [] end.
Proof.
  induction s as [|k' t s Hk IH] using map_ind; [by rewrite map_to_list_empty, lookup_empty|].
  rewrite map_to_list_insert by done. rewrite fmap_cons, filter_cons. simpl.
  destruct (decide (k' = k)) as [->|Hne].
  - rewrite lookup_insert_eq. rewrite Hk in IH. by rewrite IH.
  - by rewrite lookup_insert_ne.
Qed.

(** What one event does to a timer it leaves armed. *)
Lemma spec_step_armed k e s d t0 addr : leaves_armed k e -> s !! k = Some (arm t0 d addr) ->
  match e.2 with
  | Receive r => (spec_step e s).1 = [] /\
      (spec_step e s).2 !! k = Some (arm (if refreshes k r then e.1 else t0) d addr)
  | Tick => filter (fun t => told_key t = k) (spec_step e s).1 ≡ₚ
              (if decide (t0 + d <= e.1) then [told (k, arm t0 d addr)] else []) /\
            (spec_step e s).2 !! k = if decide (t0 + d <= e.1) then None else Some (arm t0 d addr)
  end.
Proof.
  intros Hl Hk. destruct e as [now [r|]]; unfold leaves_armed in Hl; simpl in *.
  - split; [done|]. unfold spec_request, refreshes.
    destruct (rq_message r) as [x|x|t|t]; rewrite ?lookup_insert_ne, ?lookup_delete_ne by done; try done.
    case_bool_decide as Hr; [by rewrite Hr, lookup_alter_eq, Hk|by rewrite lookup_alter_ne].
  - rewrite told_listing. unfold due. split.
    + case_decide as Hd.
      * by rewrite (proj2 (map_lookup_filter_Some _ _ _ (arm t0 d addr))).
      * by rewrite (proj2 (map_lookup_filter_None _ _ _)) by (right; intros t Ht; simplify_eq/=; lia).
    + case_decide as Hd.
      * apply map_lookup_filter_None. right. intros t Ht. simplify_eq/=. lia.
      * by apply map_lookup_filter_Some.
Qed.

Lemma spec_step_unarmed k e s : leaves_armed k e -> s !! k = None ->
  filter (fun t => told_key t = k) (spec_step e s).1 ≡ₚ [] /\ (spec_step e s).2 !! k = None.
Proof.
  intros Hl Hk. destruct e as [now [r|]]; unfold leaves_armed in Hl; simpl in *.
  - split; [done|]. unfold spec_request.
    destruct (rq_message r) as [x|x|t|t]; rewrite ?lookup_insert_ne, ?lookup_delete_ne by done; try done.
    destruct (decide (key_of r t = k)) as [->|Hne]; [by rewrite lookup_alter_eq, Hk|by rewrite lookup_alter_ne].
  - rewrite told_listing. unfold due.
    by rewrite !(proj2 (map_lookup_filter_None _ _ _)) by auto.
Qed.

Lemma spec_unarmed k es : forall s, Forall (leaves_armed k) es -> s !! k = None ->
  told_of k (spec_run es s).1 = [].
Proof.
  induction es as [|e es IH]; intros s Hes Hk; [done|]. apply Forall_cons in Hes as [He Hes]. simpl.
  destruct (spec_step_unarmed k e s He Hk) as [H1 H2].
  destruct (spec_step e s) as [sent s1]. specialize (IH s1 Hes H2). simpl in *.
  destruct (spec_run es s1). simpl in *. rewrite told_of_cons, IH.
  by apply Permutation_nil_r in H1 as ->.
Qed.

Lemma silent_cons_tick k d t0 t es : silent k d t0 ((t, Tick) :: es) <-> t0 + d <= t \/ silent k d t0 es.
Proof.
  split.
  - intros ([|[t1 e1] before] & t' & after & Heq & Hd); simplify_eq/=; [by left|right]. by exists before, t', after.
  - intros [Hd|(before & t' & after & -> & Hd)]; [by exists [], t, es|by exists ((t, Tick) :: before), t', after].
Qed.

Lemma silent_cons_receive k d t0 t r es :
  silent k d t0 ((t, Receive r) :: es) <-> silent k d (if refreshes k r then t else t0) es.
Proof.
  split.
  - intros ([|[t1 e1] before] & t' & after & Heq & Hd); simplify_eq/=. by exists before, t', after.
  - intros (before & t' & after & -> & Hd). by exists ((t, Receive r) :: before), t', after.
Qed.

Lemma spec_silence k es : forall s d t0 addr, Forall (leaves_armed k) es -> s !! k = Some (arm t0 d addr) ->
  (silent k d t0 es -> told_of k (spec_run es s).1 = [told (k, arm t0 d addr)]) /\
  (~ silent k d t0 es -> told_of k (spec_run es s).1 = []).
Proof.
  induction es as [|e es IH]; intros s d t0 addr Hes Hk.
  { split; [|done]. by intros ([|] & t & after & Heq & _). }
  apply Forall_cons in Hes as [He Hes]. pose proof (spec_step_armed k e s d t0 addr He Hk) as Hstep.
  destruct e as [t [r|]]; cbn [snd fst] in Hstep; destruct Hstep as [H1 H2]; cbn [spec_run].
  - rewrite silent_cons_receive.
    destruct (spec_step (t, Receive r) s) as [sent s1]. cbn [fst snd] in *. subst sent.
    destruct (IH s1 d _ addr Hes H2) as [Hyes Hno]. destruct (spec_run es s1). cbn [fst] in *.
    by rewrite told_of_cons.
  - rewrite silent_cons_tick.
    destruct (spec_step (t, Tick) s) as [sent s1]. cbn [fst snd] in *.
    case_decide as Hd.
    + pose proof (spec_unarmed k es s1 Hes H2) as Hrest. destruct (spec_run es s1). cbn [fst] in *.
      rewrite told_of_cons, Hrest, (right_id_L [] (++)). split; [|tauto].
      intros _. by apply Permutation_singleton_r in H1.
    + destruct (IH s1 d t0 addr Hes H2) as [Hyes Hno]. destruct (spec_run es s1). cbn [fst] in *.
      rewrite told_of_cons. apply Permutation_nil_r in H1 as ->. simpl. split; [|intuition].
      intros [?|?]; [done|auto].
Qed.
End Actor.

(** ** An instance of the queue *)

Module MapQueue.
(** The range of the crate's timer wheel: six levels of sixty-four slots. *)
Definition range : Z := 68719476735.
Abbreviation mq T := (gmap nat (T * Z)).

Definition next_key {T} (q : mq T) : nat := map_fold (fun k _ n => Nat.max (S k) n) 0%nat q.

Lemma next_key_fresh {T} (q : mq T) : q !! next_key q = None.
Proof.
  enough (forall k, is_Some (q !! k) -> (k < next_key q)%nat) as Hlt.
  { destruct (q !! next_key q) eqn:Hq; [|done]. destruct (Nat.lt_irrefl _ (Hlt _ (mk_is_Some _ _ Hq))). }
  unfold next_key. revert q. apply (map_fold_weak_ind (fun n q => forall k, is_Some (q !! k) -> (k < n)%nat)).
  - intros k. rewrite lookup_empty. by intros [? ?].
  - intros i x m n Hi IH k [y Hk]. apply lookup_insert_Some in Hk as [[<- _]|[_ Hk]]; [lia|].
    specialize (IH k (mk_is_Some _ _ Hk)). lia.
Qed.

Definition insert {T} (now : Z) (t : T) (d : Z) (q : mq T) : outcome unit (nat * mq T) :=
  if d <=? range then Ok (next_key q, <[next_key q := (t, now + d)]> q) else Panic.
Definition reset {T} (now : Z) (k : nat) (d : Z) (q : mq T) : outcome unit (mq T) :=
  match q !! k with
  | Some (t, _) => if d <=? range then Ok (<[k := (t, now + d)]> q) else Panic
  | None => Panic
  end.
Definition expired {T} (now : Z) (q : mq T) : list (nat * (T * Z)) :=
  filter (fun e => e.2.2 <= now) (map_to_list q).
Definition poll {T} (now : Z) (q : mq T) : Poll T * mq T :=
  match expired now q with
  | (k, (t, _)) :: _ => (Ready (Some t), delete k q)
  | [] => (if decide (q = ∅) then Ready None else Pending, q)
  end.

#[export, program] Instance map_queue (T : Type) `{EqDecision T} : DelayQueue (mq T) nat T := {|
  dq_new := ∅; dq_insert := insert; dq_reset := reset;
  dq_try_remove k q := (fst <$> q !! k, delete k q);
  dq_poll_expired := poll; max_delay := range; entries q := q;
|}.
Next Obligation. done. Qed.
Next Obligation.
  intros T ? now t d q [_ Hd]. unfold insert. rewrite (proj2 (Z.leb_le _ _) Hd).
  do 2 eexists. split; [done|]. split; [apply next_key_fresh|done].
Qed.
Next Obligation.
  intros T ? now k d q t d0 [_ Hd] Hk. unfold reset. rewrite Hk, (proj2 (Z.leb_le _ _) Hd). eauto.
Qed.
Next Obligation. intros T ? now k d q Hk. unfold reset. by rewrite Hk. Qed.
Next Obligation. done. Qed.
Next Obligation.
  intros T ? now q t. unfold poll. destruct (expired now q) as [|[k [t' d]] l] eqn:He.
  { by case_decide. }
  intros [= ->]. exists k, d. assert ((k, (t, d)) ∈ expired now q) as Hin by (rewrite He; left).
  apply list_elem_of_filter in Hin as [Hd Hin%elem_of_map_to_list]. done.
Qed.
Next Obligation.
  intros T ? now q. unfold poll. destruct (expired now q) as [|[k [t d]] l]; [|done]. by case_decide.
Qed.
Next Obligation.
  intros T ? now q. unfold poll. destruct (expired now q) as [|[k [t d]] l] eqn:He; [|done].
  intros _. split; [done|]. intros k t d Hk. apply Z.nle_gt. intros Hd.
  assert ((k, (t, d)) ∈ expired now q) as Hin by (apply list_elem_of_filter; by rewrite elem_of_map_to_list).
  rewrite He in Hin. by apply not_elem_of_nil in Hin.
Qed.
End MapQueue.

(** ** The theorems *)

Section Theorems.
Context {Q Key : Type} `{DQ : DelayQueue Q Key SessionKey}.

(** A registration at [t0] after any history, and what follows it. *)
Lemma silence_run es0 t0 r d es : rq_message r = RegisterKeepAlive d ->
  Forall in_range (es0 ++ (t0, Receive r) :: es) -> Forall (leaves_armed (key_of r TimerKeepAlive)) es ->
  exists out0 a0 out a, run (es0 ++ [(t0, Receive r)]) new = Ok (out0, a0) /\ run es a0 = Ok (out, a) /\
    (silent (key_of r TimerKeepAlive) (from_secs d) t0 es ->
       told_of (key_of r TimerKeepAlive) out = [mkTold (key_of r TimerKeepAlive) (rq_addr r) KeepAliveExpired]) /\
    (~ silent (key_of r TimerKeepAlive) (from_secs d) t0 es -> told_of (key_of r TimerKeepAlive) out = []).
Proof.
  intros Hr Hrange Hes. rewrite cons_middle, app_assoc in Hrange. apply Forall_app in Hrange as [H0 H1].
  destruct (run_refines _ _ _ related_new H0) as (out0 & a0 & Hrun0 & _ & R0).
  destruct (run_refines es a0 _ R0 H1) as (out & a & Hrun & Hout & _).
  exists out0, a0, out, a. split; [done|]. split; [done|].
  set (s := (spec_run (es0 ++ [(t0, Receive r)]) ∅).2) in *.
  assert (s !! key_of r TimerKeepAlive = Some (arm t0 (from_secs d) (rq_addr r))) as Hk.
  { subst s. rewrite spec_run_snoc. simpl. unfold spec_request. by rewrite Hr, lookup_insert_eq. }
  destruct (spec_silence _ es s _ _ _ Hes Hk) as [Hyes Hno]. pose proof (told_of_perm (key_of r TimerKeepAlive) _ _ Hout) as Hp.
  split; intros Hs.
  - rewrite (Hyes Hs) in Hp. by apply Permutation_singleton_r in Hp.
  - rewrite (Hno Hs) in Hp. by apply Permutation_nil_r in Hp.
Qed.

(** C28: whatever requests and ticks arrive, the actor never panics (no key it holds for
    the queue is stale), every tick ends, and the sessions it tells at each event are
    exactly those whose timers are due in the table of deadlines that registering,
    refreshing and removing timers describe, each once. *)
Theorem timers_refine_deadlines es : Forall in_range es ->
  exists out a, run es new = Ok (out, a) /\ Forall2 Permutation out (spec_run es ∅).1 /\
    Related a (spec_run es ∅).2.
Proof. intros Hes. apply (run_refines es new ∅); [apply related_new|done]. Qed.

(** a session whose keep-alive timer is registered, and then only refreshed, is told
    that its client is gone exactly once if at some tick nothing had been heard of the
    client for the whole interval, and is never told otherwise, whatever happens to
    other timers before and meanwhile. *)
Theorem told_exactly_when_silent es0 t0 r d es : rq_message r = RegisterKeepAlive d ->
  Forall in_range (es0 ++ (t0, Receive r) :: es) -> Forall (leaves_armed (key_of r TimerKeepAlive)) es ->
  exists out0 a0 out a, run (es0 ++ [(t0, Receive r)]) new = Ok (out0, a0) /\ run es a0 = Ok (out, a) /\
    (silent (key_of r TimerKeepAlive) (from_secs d) t0 es ->
       told_of (key_of r TimerKeepAlive) out = [mkTold (key_of r TimerKeepAlive) (rq_addr r) KeepAliveExpired]) /\
    (~ silent (key_of r TimerKeepAlive) (from_secs d) t0 es -> told_of (key_of r TimerKeepAlive) out = []).
Proof. apply silence_run. Qed.

(** The requests a turn of a session leaves for the timers. *)
Definition requests_of (addr : Z) (a : SessionActor) (effects : list Effect) : list Request :=
  omap (fun e => match e with
    | Timer m => Some (mkRequest (ac_tenant_id a) (ac_client_id a) (ac_instance_id a) addr m)
    | _ => None end) effects.
Definition keep_alive_key (a : SessionActor) : SessionKey :=
  mkKey (ac_tenant_id a) (ac_client_id a) (ac_instance_id a) TimerKeepAlive.

Lemma last_active_bound k t es : forall t0, t0 <= t -> Forall (fun e => e.1 <= t) es -> last_active k t0 es <= t.
Proof.
  induction es as [|[t1 [r|]] es IH]; intros t0 Ht Hes; [done| |]; apply Forall_cons in Hes as [He Hes]; simpl in *.
  - destruct (refreshes k r); auto.
  - auto.
Qed.

(** a client that connects with a keep alive of 0, which turns the mechanism off in
    MQTT, is told off at the first tick of the timers after its session started,
    although it may have sent packets all the while: the session is told that the keep
    alive has expired, and goes on to send the will and close the connection. *)
Theorem zero_keep_alive_expires now addr a t0 t es :
  ac_keep_alive a = 0 -> 0 <= from_secs (ac_inflight_retry_interval a) <= max_delay -> 0 <= max_delay ->
  t0 <= t -> Forall (fun e => e.1 <= t) es -> Forall in_range es -> Forall (leaves_armed (keep_alive_key a)) es ->
  (exists out x, run (((fun r => (t0, Receive r)) <$> requests_of addr a (started now a).2) ++ es ++ [(t, Tick)]) new
     = Ok (out, x) /\ told_of (keep_alive_key a) out = [mkTold (keep_alive_key a) addr KeepAliveExpired]) /\
  (handle KeepAliveExpired now a).2 = [WaitFor (FWill (ac_tenant_id a) (ac_will_message a) ThenKeepAliveExpired)].
Proof.
  intros H0 Hi Hm Ht Hes Hrange Harm. split; [|done].
  set (r := mkRequest (ac_tenant_id a) (ac_client_id a) (ac_instance_id a) addr (RegisterKeepAlive 0)).
  set (r' := mkRequest (ac_tenant_id a) (ac_client_id a) (ac_instance_id a) addr
               (RegisterInflight (ac_inflight_retry_interval a))).
  assert (requests_of addr a (started now a).2 = [r; r']) as -> by (unfold started, r, r'; simpl; by rewrite H0).
  destruct (silence_run [] t0 r 0 ((t0, Receive r') :: es ++ [(t, Tick)])) as (out0 & a0 & out & x & Hrun0 & Hrun & Hyes & _);
    [done| | |].
  - repeat (apply Forall_cons; split); [unfold in_range, r, from_secs; simpl; lia|done|].
    apply Forall_app. by repeat constructor.
  - apply Forall_cons. split; [done|]. apply Forall_app. by repeat constructor.
  - exists (out0 ++ out), x. simpl in Hrun0 |- *. apply bind_Ok in Hrun0 as ([sent a1] & Hs & Heq). simplify_eq/=.
    unfold step in *. simpl in *. inv_ok Hs. simplify_eq/=. rewrite Hok. simpl. rewrite Hrun. split; [done|].
    rewrite told_of_cons. simpl. apply Hyes. exists ((t0, Receive r') :: es), t, []. split; [done|].
    unfold from_secs. simpl. rewrite Z.add_0_r. by apply last_active_bound.
Qed.
End Theorems.

Module TimerSample.
Import MapQueue.

Definition request (client : string) (m : TimerMessage) : Event := Receive (mkRequest "t" client 1 7 m).
(** Two clients: one refreshes its timer, the other falls silent. *)
Definition events : list (Z * Event) :=
  [(0, request "a" (RegisterKeepAlive 3)); (0, request "b" (RegisterKeepAlive 3));
   (2000, request "a" (RefreshTimer TimerKeepAlive)); (3010, Tick); (4990, Tick)].
Definition key (client : string) : SessionKey := mkKey "t" client 1 TimerKeepAlive.
Definition silent_client : SessionActor := new_actor "t" "c" true V5_0 None 1 10 None 0 7 "peer" true 1 1000.
End TimerSample.

Import MapQueue.

Lemma timers_refine_deadlines_witness :
  exists out a, run TimerSample.events new = Ok (out, a) /\
    Forall2 Permutation out (spec_run TimerSample.events ∅).1 /\ Related a (spec_run TimerSample.events ∅).2.
Proof. apply (timers_refine_deadlines TimerSample.events). by repeat constructor. Defined.

Lemma told_exactly_when_silent_witness :
  exists out0 a0 out a,
    run [(0, TimerSample.request "b" (RegisterKeepAlive 3)); (0, TimerSample.request "a" (RegisterKeepAlive 3))] new
      = Ok (out0, a0) /\
    run [(2000, TimerSample.request "a" (RefreshTimer TimerKeepAlive)); (3010, Tick); (4990, Tick)] a0 = Ok (out, a) /\
    told_of (TimerSample.key "a") out = [].
Proof.
  destruct (told_exactly_when_silent [(0, TimerSample.request "b" (RegisterKeepAlive 3))] 0
    (mkRequest "t" "a" 1 7 (RegisterKeepAlive 3)) 3
    [(2000, TimerSample.request "a" (RefreshTimer TimerKeepAlive)); (3010, Tick); (4990, Tick)])
    as (out0 & a0 & out & a & H1 & H2 & _ & Hno); [reflexivity|by repeat constructor|by repeat constructor|].
  exists out0, a0, out, a. split; [exact H1|]. split; [exact H2|]. apply Hno.
  unfold TimerSample.request. rewrite silent_cons_receive, !silent_cons_tick. vm_compute.
  intros [H|[H|(before & t & after & H & _)]]; [by destruct H..|by destruct before].
Defined.

Lemma zero_keep_alive_expires_witness :
  exists out x, run (((fun r => (0, Receive r)) <$> requests_of 7 TimerSample.silent_client
                       (started 0 TimerSample.silent_client).2)
                     ++ [(5, TimerSample.request "c" (RefreshTimer TimerKeepAlive))] ++ [(10, Tick)]) new = Ok (out, x) /\
    told_of (TimerSample.key "c") out = [mkTold (TimerSample.key "c") 7 KeepAliveExpired].
Proof.
  apply (zero_keep_alive_expires 0 7 TimerSample.silent_client 0 10
    [(5, TimerSample.request "c" (RefreshTimer TimerKeepAlive))]);
    [reflexivity|by split; vm_compute|by vm_compute|lia|by repeat constructor|by repeat constructor|by repeat constructor].
Defined.
