(* ===== verification/HookManager.v ===== *)
(** * The table of hooks ([plugin_host/src/hook/])

    Which plugins are called for which hook, in the order of their priorities.  A plugin
    that connects replaces what an earlier process of it registered; the process that
    exits, or no longer answers, is taken out.

    The invariant: the table has no empty list, every list is in the order of priority,
    and all registrations of a plugin are of one process of it. *)

From S2P Require Import Prelude.
From stdpp Require Import sorting.

#[local] Open Scope Z_scope.

Inductive Hook :=
  | HookClientConnected
  | HookClientDisconnected
  | HookMessagePublished
  | HookSubscribeAdded
  | HookSubscribeRemoved
  | HookAuthenticate
  | HookAuthorize
  | HookOnMessagePublish
  | HookOnMessageSubscribe
  | HookOnMessageUnsubscribe
  | HookOnStatsRequest.

#[export] Instance Hook_eq_dec : EqDecision Hook.
Proof. solve_decision. Defined.
#[local] Definition hook_code (h : Hook) : nat :=
  match h with
  | HookClientConnected => 0 | HookClientDisconnected => 1 | HookMessagePublished => 2 | HookSubscribeAdded => 3
  | HookSubscribeRemoved => 4 | HookAuthenticate => 5 | HookAuthorize => 6 | HookOnMessagePublish => 7
  | HookOnMessageSubscribe => 8 | HookOnMessageUnsubscribe => 9 | HookOnStatsRequest => 10
  end.
#[local] Definition hook_decode (n : nat) : option Hook :=
  [HookClientConnected; HookClientDisconnected; HookMessagePublished; HookSubscribeAdded; HookSubscribeRemoved;
   HookAuthenticate; HookAuthorize; HookOnMessagePublish; HookOnMessageSubscribe; HookOnMessageUnsubscribe;
   HookOnStatsRequest] !! n.
#[export] Instance Hook_countable : Countable Hook.
Proof. refine (inj_countable hook_code hook_decode _). by intros []. Defined.

Definition get_hook_from_name (name : string) : option Hook :=
  (if decide (name = "ClientConnected") then Some HookClientConnected
   else if decide (name = "ClientDisconnected") then Some HookClientDisconnected
   else if decide (name = "MessagePublished") then Some HookMessagePublished
   else if decide (name = "SubscribeAdded") then Some HookSubscribeAdded
   else if decide (name = "SubscribeRemoved") then Some HookSubscribeRemoved
   else if decide (name = "Authenticate") then Some HookAuthenticate
   else if decide (name = "Authorize") then Some HookAuthorize
   else if decide (name = "OnMessagePublish") then Some HookOnMessagePublish
   else if decide (name = "OnMessageSubscribe") then Some HookOnMessageSubscribe
   else if decide (name = "OnMessageUnsubscribe") then Some HookOnMessageUnsubscribe
   else if decide (name = "OnStatsRequest") then Some HookOnStatsRequest
   else None)%string.

Record RegisteredHook := mkRegistered { rh_plugin_name : string; rh_instance_id : string; rh_priority : Z }.
#[export] Instance RegisteredHook_eq_dec : EqDecision RegisteredHook.
Proof. solve_decision. Defined.

Abbreviation HookManager := (gmap Hook (list RegisteredHook)).

(** [sort_by_key(|h| h.priority)], which is stable. *)
Fixpoint insert_sorted (h : RegisteredHook) (l : list RegisteredHook) : list RegisteredHook :=
  match l with
  | [] => [h]
  | h' :: l => if rh_priority h <=? rh_priority h' then h :: h' :: l else h' :: insert_sorted h l
  end.
Definition sort_by_priority (l : list RegisteredHook) : list RegisteredHook := foldr insert_sorted [] l.

Definition register_hook (hook : Hook) (plugin_name instance_id : string) (priority : Z) (m : HookManager)
    : HookManager :=
  let registered_hook := mkRegistered plugin_name instance_id priority in
  match m !! hook with
  | Some hooks => <[hook := sort_by_priority (hooks ++ [registered_hook])]> m
  | None => <[hook := [registered_hook]]> m
  end.

Definition get_hooks (m : HookManager) (hook : Hook) : option (list RegisteredHook) := m !! hook.

(** [retain] on every list, then on the table. *)
Definition retain_hooks (P : RegisteredHook -> bool) (m : HookManager) : HookManager :=
  omap (fun l => match filter P l with [] => None | l => Some l end) m.

Definition remove_plugin_instance (instance_id : string) (m : HookManager) : HookManager :=
  retain_hooks (fun h => bool_decide (rh_instance_id h <> instance_id)) m.
Definition remove_plugin_name (plugin_name : string) (m : HookManager) : HookManager :=
  retain_hooks (fun h => bool_decide (rh_plugin_name h <> plugin_name)) m.

Definition replace_plugin_hooks (plugin_name instance_id : string) (hooks : list (Hook * Z)) (m : HookManager)
    : HookManager :=
  foldl (fun m '(hook, priority) => register_hook hook plugin_name instance_id priority m)
    (remove_plugin_name plugin_name m) hooks.

(** ** The invariant *)

Definition by_priority (h h' : RegisteredHook) : Prop := rh_priority h <= rh_priority h'.
#[export] Instance by_priority_trans : Transitive by_priority.
Proof. intros x y z. unfold by_priority. lia. Qed.

Record HooksOk (m : HookManager) : Prop := {
  hooks_nonempty : forall hook l, m !! hook = Some l -> l <> [];
  hooks_sorted : forall hook l, m !! hook = Some l -> StronglySorted by_priority l;
  hooks_one_instance : forall hook hook' l l' h h', m !! hook = Some l -> m !! hook' = Some l' ->
    h ∈ l -> h' ∈ l' -> rh_plugin_name h = rh_plugin_name h' -> rh_instance_id h = rh_instance_id h';
}.

Lemma insert_sorted_perm h l : insert_sorted h l ≡ₚ h :: l.
Proof.
  induction l as [|h' l IH]; [done|]. simpl. case_match; [done|]. rewrite IH. apply Permutation_swap.
Qed.
Lemma sort_by_priority_perm l : sort_by_priority l ≡ₚ l.
Proof. induction l as [|h l IH]; [done|]. simpl. rewrite insert_sorted_perm. by rewrite IH. Qed.

Lemma insert_sorted_sorted h l : StronglySorted by_priority l -> StronglySorted by_priority (insert_sorted h l).
Proof.
  induction 1 as [|h' l Hl IH Hall]; simpl; [by repeat constructor|].
  destruct (rh_priority h <=? rh_priority h') eqn:He.
  - apply Z.leb_le in He. constructor; [by constructor|]. constructor; [done|].
    eapply Forall_impl; [done|]. intros x Hx. by transitivity h'.
  - constructor; [done|]. rewrite insert_sorted_perm. constructor; [|done]. unfold by_priority. lia.
Qed.
Lemma sort_by_priority_sorted l : StronglySorted by_priority (sort_by_priority l).
Proof. induction l as [|h l IH]; [constructor|]. by apply insert_sorted_sorted. Qed.

(** The registrations of a table, and what the operations do to them. *)
Definition registered (m : HookManager) (hook : Hook) (h : RegisteredHook) : Prop :=
  exists l, m !! hook = Some l /\ h ∈ l.

Lemma registered_register hook name code prio m hook' h :
  registered (register_hook hook name code prio m) hook' h <->
  (hook' = hook /\ h = mkRegistered name code prio) \/ registered m hook' h.
Proof.
  unfold registered, register_hook. destruct (decide (hook' = hook)) as [->|Hne].
  - destruct (m !! hook) as [l|] eqn:Hm; rewrite lookup_insert_eq; setoid_rewrite (inj_iff Some).
    + split.
      * intros (l' & <- & Hh). rewrite sort_by_priority_perm, elem_of_app, list_elem_of_singleton in Hh.
        destruct Hh as [Hh| ->]; [right; eauto|by left].
      * intros H. eexists. split; [done|]. rewrite sort_by_priority_perm, elem_of_app, list_elem_of_singleton.
        destruct H as [[_ ->]|(l' & [= <-] & Hh)]; auto.
    + split; [intros (l' & <- & ->%list_elem_of_singleton); by left|].
      intros [[_ ->]|(l' & ? & _)]; [|done]. eexists. split; [done|]. by apply list_elem_of_singleton.
  - destruct (m !! hook); rewrite lookup_insert_ne by done; split; intros H; [by right|naive_solver..|by right|naive_solver].
Qed.

Lemma registered_retain P m hook h : registered (retain_hooks P m) hook h <-> registered m hook h /\ P h = true.
Proof.
  unfold registered, retain_hooks. rewrite lookup_omap. destruct (m !! hook) as [l|] eqn:Hm; simpl.
  - destruct (filter P l) as [|x l'] eqn:Hf.
    + split; [by intros (? & ? & _)|]. intros [(? & [= <-] & Hh) HP].
      assert (h ∈ filter P l) as Hin by (apply list_elem_of_filter; by rewrite HP). by rewrite Hf in Hin; apply not_elem_of_nil in Hin.
    + rewrite <-Hf. split.
      * intros (? & [= <-] & [HP Hh]%list_elem_of_filter). split; [eauto|by destruct (P h)].
      * intros [(? & [= <-] & Hh) HP]. eexists. split; [done|]. apply list_elem_of_filter. by rewrite HP.
  - naive_solver.
Qed.

Lemma sorted_hooks_filter {A} (R : relation A) (P : A -> Prop) `{!forall x, Decision (P x)} l :
  StronglySorted R l -> StronglySorted R (filter P l).
Proof.
  induction 1 as [|x l Hl IH Hall]; [constructor|]. rewrite filter_cons. case_decide; [|done].
  constructor; [done|]. apply Forall_forall. intros y [_ Hy]%list_elem_of_filter.
  by eapply Forall_forall in Hall.
Qed.

(** One instance per plugin, read off the registrations. *)
Definition one_instance (m : HookManager) : Prop :=
  forall hook hook' h h', registered m hook h -> registered m hook' h' ->
    rh_plugin_name h = rh_plugin_name h' -> rh_instance_id h = rh_instance_id h'.

Lemma hooks_ok_intro m :
  (forall hook l, m !! hook = Some l -> l <> [] /\ StronglySorted by_priority l) -> one_instance m -> HooksOk m.
Proof.
  intros Hl H1. split; [by intros; eapply Hl..|]. intros hook hook' l l' h h' Hm Hm' Hh Hh'.
  apply (H1 hook hook'); by eexists.
Qed.
Lemma hooks_ok_lists m hook l : HooksOk m -> m !! hook = Some l -> l <> [] /\ StronglySorted by_priority l.
Proof. intros [H1 H2 _] Hm. eauto. Qed.
Lemma hooks_ok_instances m : HooksOk m -> one_instance m.
Proof. intros [_ _ H3] hook hook' h h' (l & Hm & Hh) (l' & Hm' & Hh'). eauto. Qed.

Lemma hooks_ok_empty : HooksOk ∅.
Proof. split; intros *; rewrite lookup_empty; done. Qed.

Lemma hooks_ok_retain P m : HooksOk m -> HooksOk (retain_hooks P m).
Proof.
  intros Hok. apply hooks_ok_intro.
  - intros hook l. unfold retain_hooks. rewrite lookup_omap. destruct (m !! hook) as [l0|] eqn:Hm; [|done]. simpl.
    destruct (filter P l0) as [|x l'] eqn:Hf; [done|]. intros [= <-]. split; [done|]. rewrite <-Hf.
    apply sorted_hooks_filter. by eapply hooks_ok_lists.
  - intros hook hook' h h' [Hh _]%registered_retain [Hh' _]%registered_retain. by apply (hooks_ok_instances m Hok hook hook').
Qed.

Lemma hooks_ok_register hook name code prio m : HooksOk m ->
  (forall hook' h, registered m hook' h -> rh_plugin_name h = name -> rh_instance_id h = code) ->
  HooksOk (register_hook hook name code prio m).
Proof.
  intros Hok Hsame. apply hooks_ok_intro.
  - intros hook' l. unfold register_hook. destruct (m !! hook) as [l0|] eqn:Hm;
      (intros [[<- <-]|[Hne Hl]]%lookup_insert_Some; [|by eapply hooks_ok_lists]).
    + split; [|apply sort_by_priority_sorted]. intros H0.
      pose proof (sort_by_priority_perm (l0 ++ [mkRegistered name code prio])) as Hp. rewrite H0 in Hp.
      apply Permutation_nil_l in Hp. by destruct l0.
    + split; [done|]. by repeat constructor.
  - intros hook1 hook2 h1 h2 [[_ ->]|H1]%registered_register [[_ ->]|H2]%registered_register; simpl; [done|..].
    + intros Heq. symmetry. by apply (Hsame hook2).
    + intros Heq. by apply (Hsame hook1).
    + by apply (hooks_ok_instances m Hok hook1 hook2).
Qed.

Lemma hooks_ok_replace name code hooks m : HooksOk m -> HooksOk (replace_plugin_hooks name code hooks m).
Proof.
  intros Hok. unfold replace_plugin_hooks.
  assert (HooksOk (remove_plugin_name name m) /\
          forall hook h, registered (remove_plugin_name name m) hook h -> rh_plugin_name h = name -> rh_instance_id h = code)
    as [H1 H2].
  { split; [by apply hooks_ok_retain|]. intros hook h [_ Hh%bool_decide_eq_true]%registered_retain Heq. congruence. }
  revert H1 H2. generalize (remove_plugin_name name m) as m'.
  induction hooks as [|[hook prio] hooks IH]; intros m' H1 H2; [done|]. simpl. apply IH.
  - by apply hooks_ok_register.
  - intros hook' h [[_ ->]|Hh]%registered_register; [done|]. by apply (H2 hook').
Qed.

(** What is registered after a plugin has connected: its own declarations under the new
    instance, and the others' unchanged. *)
Lemma registered_replace name code hooks m hook h :
  registered (replace_plugin_hooks name code hooks m) hook h <->
  (exists prio, (hook, prio) ∈ hooks /\ h = mkRegistered name code prio) \/
  (registered m hook h /\ rh_plugin_name h <> name).
Proof.
  unfold replace_plugin_hooks.
  enough (forall m', registered (foldl (fun m '(hook, prio) => register_hook hook name code prio m) m' hooks) hook h <->
    (exists prio, (hook, prio) ∈ hooks /\ h = mkRegistered name code prio) \/ registered m' hook h) as ->.
  { unfold remove_plugin_name. rewrite registered_retain, bool_decide_eq_true. done. }
  induction hooks as [|[hook0 prio0] hooks IH]; intros m'; simpl.
  - split; [by right|]. intros [(p & Hp & _)|?]; [by apply not_elem_of_nil in Hp|done].
  - rewrite IH, registered_register. setoid_rewrite elem_of_cons. naive_solver.
Qed.
