(* ===== verification/PluginHost.v ===== *)
(** * The plugin host ([plugin_host/src/plugin_manager.rs], [loader.rs], [protocol/mod.rs])

    Plugins are processes.  The host starts them with a random code each; a process that
    connects and repeats the code is the plugin it was started for, and the hooks it
    declares are registered under that code.  One task of the host takes what the
    connections and the processes report ([handle_rx]), another asks the plugins at
    intervals whether they are alive ([heartbeat]).

    The state is the table of plugins, the table of hooks and the requests that wait for
    an answer.  Protobuf ([prost]) is a class; processes, files, clocks and random codes
    are answers of operations.  Here are the data and the operations; [PluginHooks] has
    the calls of the hooks. *)

From S2P Require Import Prelude Program Traces MqttProperties HookManager.

#[local] Open Scope Z_scope.

(** ** The protocol *)

Record ProtoAny := mkAny { type_url : string; any_value : bytes }.
Record ErrorInfo := mkErrorInfo { ei_code : Z; ei_message : string; ei_details : option Struct }.

Inductive MessageType :=
  | MtUnspecified | MtRequest | MtResponse | MtNotification | MtEvent | MtError | MtBatchRequest | MtBatchResponse.
Definition message_type_number (t : MessageType) : Z :=
  match t with
  | MtUnspecified => 0 | MtRequest => 1 | MtResponse => 2 | MtNotification => 3 | MtEvent => 4 | MtError => 5
  | MtBatchRequest => 6 | MtBatchResponse => 7
  end.
Definition message_type_of (n : Z) : MessageType :=
  match n with
  | 1 => MtRequest | 2 => MtResponse | 3 => MtNotification | 4 => MtEvent | 5 => MtError
  | 6 => MtBatchRequest | 7 => MtBatchResponse | _ => MtUnspecified
  end.

Inductive Method :=
  | MUnspecified | MInitialize | MShutdown | MPing | MRegisterPlugin | MUnregisterPlugin | MAuthenticate | MAuthorize
  | MGetAcl | MOnMessagePublish | MOnMessageSubscribe | MOnMessageUnsubscribe | MClientConnected
  | MClientDisconnected | MMessagePublished | MSubscriptionAdded | MSubscriptionRemoved | MGetStats | MResetStats.
Definition method_number (m : Method) : Z :=
  match m with
  | MUnspecified => 0 | MInitialize => 10 | MShutdown => 11 | MPing => 12 | MRegisterPlugin => 13
  | MUnregisterPlugin => 14 | MAuthenticate => 20 | MAuthorize => 21 | MGetAcl => 23 | MOnMessagePublish => 30
  | MOnMessageSubscribe => 31 | MOnMessageUnsubscribe => 32 | MClientConnected => 50 | MClientDisconnected => 51
  | MMessagePublished => 52 | MSubscriptionAdded => 53 | MSubscriptionRemoved => 54 | MGetStats => 60
  | MResetStats => 61
  end.
(** [ProtocolMessage::method()]: absent and unknown numbers are the default. *)
Definition method_of (n : option Z) : Method :=
  match n with
  | Some 10 => MInitialize | Some 11 => MShutdown | Some 12 => MPing | Some 13 => MRegisterPlugin
  | Some 14 => MUnregisterPlugin | Some 20 => MAuthenticate | Some 21 => MAuthorize | Some 23 => MGetAcl
  | Some 30 => MOnMessagePublish | Some 31 => MOnMessageSubscribe | Some 32 => MOnMessageUnsubscribe
  | Some 50 => MClientConnected | Some 51 => MClientDisconnected | Some 52 => MMessagePublished
  | Some 53 => MSubscriptionAdded | Some 54 => MSubscriptionRemoved | Some 60 => MGetStats | Some 61 => MResetStats
  | _ => MUnspecified
  end.

Record ProtocolMessage := mkMessage {
  pm_version : string;
  pm_type : Z;
  pm_id : string;
  pm_timestamp : option (Z * Z);
  pm_source : string;
  pm_target : string;
  pm_method : option Z;
  pm_params : option ProtoAny;
  pm_result : option ProtoAny;
  pm_error : option ErrorInfo;
  pm_metadata : gmap string string;
}.

Record HookDeclaration := mkDeclaration { hk_name : string; hk_priority : Z; hk_filter : option Struct }.
Record InitializeResponse := mkInitialized {
  ir_status : string;
  ir_capabilities : list string;
  ir_hooks : list HookDeclaration;
  ir_plugin_info : option Struct;
  ir_auth_code : string;
}.

Definition type_prefix : string := "type.yedmq.com/plugin_protocol.".
Definition INIT_REQUEST_TYPE_URL : string := type_prefix +:+ "InitializeRequest".
Definition INIT_RESPONSE_TYPE_URL : string := type_prefix +:+ "InitializeResponse".
Definition AUTHENTICATE_REQUEST_TYPE_URL : string := type_prefix +:+ "AuthenticateRequest".
Definition AUTHENTICATE_RESPONSE_TYPE_URL : string := type_prefix +:+ "AuthenticateResponse".
Definition AUTHORIZE_REQUEST_TYPE_URL : string := type_prefix +:+ "AuthorizeRequest".
Definition AUTHORIZE_RESPONSE_TYPE_URL : string := type_prefix +:+ "AuthorizeResponse".
Definition MQTT_MESSAGE_PUBLISH_REQUEST_TYPE_URL : string := type_prefix +:+ "MqttMessagePublishRequest".
Definition MQTT_MESSAGE_PUBLISH_RESPONSE_TYPE_URL : string := type_prefix +:+ "MqttMessagePublishResponse".
Definition SUBSCRIBE_REQUEST_TYPE_URL : string := type_prefix +:+ "SubscribeRequest".
Definition SUBSCRIBE_RESPONSE_TYPE_URL : string := type_prefix +:+ "SubscribeResponse".
Definition CLIENT_CONNECTED_EVENT_TYPE_URL : string := type_prefix +:+ "ClientConnectedEvent".
Definition CLIENT_DISCONNECTED_EVENT_TYPE_URL : string := type_prefix +:+ "ClientDisconnectedEvent".
Definition PING_RESPONSE_TYPE_URL : string := type_prefix +:+ "PingResponse".

(** [ProtocolMessageBuilder]; the identifier and the time are drawn for it. *)
Definition builder_new (id : string) (now : Z * Z) : ProtocolMessage :=
  mkMessage "1.0.0" (message_type_number MtRequest) id (Some now) "plugin_host" "plugin" None None None None ∅.
Definition with_type (t : MessageType) (m : ProtocolMessage) : ProtocolMessage :=
  mkMessage (pm_version m) (message_type_number t) (pm_id m) (pm_timestamp m) (pm_source m) (pm_target m)
    (pm_method m) (pm_params m) (pm_result m) (pm_error m) (pm_metadata m).
Definition with_method (x : Method) (m : ProtocolMessage) : ProtocolMessage :=
  mkMessage (pm_version m) (pm_type m) (pm_id m) (pm_timestamp m) (pm_source m) (pm_target m)
    (Some (method_number x)) (pm_params m) (pm_result m) (pm_error m) (pm_metadata m).
Definition with_params (p : ProtoAny) (m : ProtocolMessage) : ProtocolMessage :=
  mkMessage (pm_version m) (pm_type m) (pm_id m) (pm_timestamp m) (pm_source m) (pm_target m)
    (pm_method m) (Some p) (pm_result m) (pm_error m) (pm_metadata m).

(** ** Manifests and the loader *)

Record PluginInfo := mkPluginInfo {
  pi_name : string;
  pi_version : string;
  pi_description : string;
  pi_author : string;
  pi_license : option string;
  pi_homepage : option string;
  pi_repository : option string;
}.
(** The only runtime is [Process]. *)
Record RuntimeConfig := mkRuntime {
  rt_executable : option string;
  rt_args : option (list string);
  rt_env : option (gmap string string);
  rt_working_dir : option string;
  rt_timeout_secs : option Z;
}.
Record PluginManifest := mkManifest { mf_plugin : PluginInfo; mf_runtime : RuntimeConfig }.

Section Loader.
(** [str::trim]. *)
Context (trim : string -> string).

Definition validate_manifest (m : PluginManifest) : outcome string unit :=
  if decide (trim (pi_name (mf_plugin m)) = "")%string then Err "Plugin name cannot be empty"%string
  else if decide (trim (pi_version (mf_plugin m)) = "")%string then Err "Plugin version cannot be empty"%string
  else match rt_executable (mf_runtime m) with
       | None => Err "Runtime executable must be specified for 'process' type"%string
       | Some _ => Ok tt
       end.

(** [scan_plugins] over the directories that hold a manifest, in the order of their names,
    each with the manifest read and parsed: the manifests by plugin name, the names
    found, and the manifests refused. *)
Fixpoint scan_plugins (listing : list (string * outcome string PluginManifest))
    (found : gmap string PluginManifest * list string * list (string * string))
    : gmap string PluginManifest * list string * list (string * string) :=
  match listing with
  | [] => found
  | (path, read) :: listing =>
      let '(loaded, discovered, invalid) := found in
      scan_plugins listing
        (match (m ← read; validate_manifest m;; Ok m) with
         | Ok m => (<[pi_name (mf_plugin m) := m]> loaded, discovered ++ [pi_name (mf_plugin m)], invalid)
         | Err e => (loaded, discovered, invalid ++ [(path, e)])
         | _ => found
         end)
  end.
End Loader.

(** ** The manager *)

Inductive PluginState := Discovered | Starting | Running | Stopping | Stopped | Failed.
#[export] Instance PluginState_eq_dec : EqDecision PluginState.
Proof. solve_decision. Defined.
Definition plugin_state_str (s : PluginState) : string :=
  match s with
  | Discovered => "discovered" | Starting => "starting" | Running => "running"
  | Stopping => "stopping" | Stopped => "stopped" | Failed => "failed"
  end.

(** [RunningPlugin]; of a channel only whether it is there, of the connection its number. *)
Record RunningPlugin := mkRunning {
  rp_name : string;
  rp_manifest : PluginManifest;
  rp_state : PluginState;
  rp_abort : bool;
  rp_log_quit : bool;
  rp_start_time : option Z;
  rp_restart_count : Z;
  rp_last_health_check : option Z;
  rp_ping_timeouts : Z;
  rp_ipc : option Z;
  rp_auth_code : string;
  rp_logs : list string;
  rp_initialize_status : option string;
  rp_capabilities : list string;
  rp_hooks : list (string * Z);
  rp_last_error : option string;
}.

Definition is_healthy (p : RunningPlugin) : bool := rp_ping_timeouts p <? 3.

Definition with_health (n now : Z) (error : option string) (p : RunningPlugin) : RunningPlugin :=
  mkRunning (rp_name p) (rp_manifest p) (rp_state p) (rp_abort p) (rp_log_quit p) (rp_start_time p)
    (rp_restart_count p) (Some now) n (rp_ipc p) (rp_auth_code p) (rp_logs p) (rp_initialize_status p)
    (rp_capabilities p) (rp_hooks p) error.
Definition with_state (s : PluginState) (ipc : option Z) (error : option string) (p : RunningPlugin) : RunningPlugin :=
  mkRunning (rp_name p) (rp_manifest p) s (rp_abort p) (rp_log_quit p) (rp_start_time p)
    (rp_restart_count p) (rp_last_health_check p) (rp_ping_timeouts p) ipc (rp_auth_code p) (rp_logs p)
    (rp_initialize_status p) (rp_capabilities p) (rp_hooks p) error.
(** The channels of a process that has exited are dropped. *)
Definition without_channels (p : RunningPlugin) : RunningPlugin :=
  mkRunning (rp_name p) (rp_manifest p) (rp_state p) false false (rp_start_time p)
    (rp_restart_count p) (rp_last_health_check p) (rp_ping_timeouts p) None (rp_auth_code p) (rp_logs p)
    (rp_initialize_status p) (rp_capabilities p) (rp_hooks p) (rp_last_error p).
Definition initialized (conn : Z) (r : InitializeResponse) (p : RunningPlugin) : RunningPlugin :=
  mkRunning (rp_name p) (rp_manifest p) Running (rp_abort p) (rp_log_quit p) (rp_start_time p)
    (rp_restart_count p) (rp_last_health_check p) (rp_ping_timeouts p) (Some conn) (rp_auth_code p) (rp_logs p)
    (Some (ir_status r)) (ir_capabilities r) (map (fun h => (hk_name h, hk_priority h)) (ir_hooks r)) None.

Inductive InflightError := IfTimeout | IfRecvError | IfSendError.
Definition inflight_error_str (e : InflightError) : string :=
  match e with
  | IfTimeout => "Request timed out"
  | IfRecvError => "Response receiver dropped"
  | IfSendError => "Failed to send request to plugin"
  end.

(** The plugins by name, the hooks, the requests that wait by message identifier (the
    number of the waiting call), what the waiting calls have been given, and whether the
    task that receives is running. *)
Record PluginManager := mkManager {
  running_plugins : gmap string RunningPlugin;
  hook_manager : HookManager;
  inflight : gmap string Z;
  answered : list (Z * ProtocolMessage);
  receiving : bool;
}.

Definition set_plugins (ps : gmap string RunningPlugin) (m : PluginManager) : PluginManager :=
  mkManager ps (hook_manager m) (inflight m) (answered m) (receiving m).
Definition set_hooks (h : HookManager) (m : PluginManager) : PluginManager :=
  mkManager (running_plugins m) h (inflight m) (answered m) (receiving m).
Definition set_inflight (i : gmap string Z) (m : PluginManager) : PluginManager :=
  mkManager (running_plugins m) (hook_manager m) i (answered m) (receiving m).
Definition stop_receiving (m : PluginManager) : PluginManager :=
  mkManager (running_plugins m) (hook_manager m) (inflight m) (answered m) false.

Definition manager_new : PluginManager := mkManager ∅ ∅ ∅ [] true.

(** *** What is received *)

Inductive RxCmd :=
  | InitMessage (msg : ProtocolMessage) (conn : Z)
  | NormalReceivedMessage (msg : ProtocolMessage)
  | PluginStatusChanged (plugin_name plugin_auth_code : string) (plugin_state : PluginState)
  | RxShutdown.

Section Manager.
Context `{Prost InitializeResponse}.

Definition status_changed (name code : string) (state : PluginState) (m : PluginManager) : PluginManager :=
  let m := if decide (state = Stopped \/ state = Failed)
           then set_hooks (remove_plugin_instance code (hook_manager m)) m else m in
  match running_plugins m !! name with
  | Some plugin =>
      if decide (rp_auth_code plugin <> code) then m
      else
        let plugin := if decide (state = Stopped) then without_channels plugin else plugin in
        set_plugins (<[name := with_state state (rp_ipc plugin) (rp_last_error plugin) plugin]> (running_plugins m)) m
  | None => m
  end.

(** The hooks declared under a known name. *)
Definition known_hooks (r : InitializeResponse) : list (Hook * Z) :=
  omap (fun h => (fun hook => (hook, hk_priority h)) <$> get_hook_from_name (hk_name h)) (ir_hooks r).

(** The first plugin of the table that was started with the code. *)
Definition find_by_code (code : string) (ps : gmap string RunningPlugin) : option (string * RunningPlugin) :=
  snd <$> list_find (fun kp => rp_auth_code kp.2 = code) (map_to_list ps).

(** A response that does not decode ends the task ([return]). *)
Definition init_message (msg : ProtocolMessage) (conn : Z) (m : PluginManager) : PluginManager :=
  match pm_result msg with
  | None => m
  | Some r =>
      match prost_decode (A := InitializeResponse) (any_value r) with
      | Ok init_response =>
          match find_by_code (ir_auth_code init_response) (running_plugins m) with
          | Some (key, plugin) =>
              let plugin' := initialized conn init_response plugin in
              set_hooks (replace_plugin_hooks (rp_name plugin) (rp_auth_code plugin) (known_hooks init_response)
                           (hook_manager m))
                (set_plugins (<[key := plugin']> (running_plugins m)) m)
          | None => m
          end
      | _ => stop_receiving m
      end
  end.

(** A response is given to the call that waits for it; nothing else is handled. *)
Definition normal_message (msg : ProtocolMessage) (m : PluginManager) : PluginManager :=
  match message_type_of (pm_type msg) with
  | MtResponse =>
      match inflight m !! pm_id msg with
      | Some call =>
          mkManager (running_plugins m) (hook_manager m) (delete (pm_id msg) (inflight m))
            (answered m ++ [(call, msg)]) (receiving m)
      | None => m
      end
  | _ => m
  end.

(** One turn of the task; once it has ended nothing is received. *)
Definition handle_rx (cmd : RxCmd) (m : PluginManager) : PluginManager :=
  if receiving m then
    match cmd with
    | PluginStatusChanged name code state => status_changed name code state m
    | InitMessage msg conn => init_message msg conn m
    | NormalReceivedMessage msg => normal_message msg m
    | RxShutdown => stop_receiving m
    end
  else m.

(** *** Heartbeat *)

Definition heartbeat_targets (m : PluginManager) : list (string * string * Z) :=
  omap (fun '(_, p) =>
    if decide (rp_state p = Running) then (fun conn => (rp_name p, rp_auth_code p, conn)) <$> rp_ipc p else None)
    (map_to_list (running_plugins m)).

(** What comes of the ping of one target. *)
Definition heartbeat_result (now : Z) (name instance_id : string) (result : outcome InflightError ProtocolMessage)
    (m : PluginManager) : PluginManager :=
  match running_plugins m !! name with
  | Some plugin =>
      if decide (rp_auth_code plugin <> instance_id) then m
      else
        let plugin :=
          match result with
          | Ok _ => with_health 0 now None plugin
          | Err e => with_health (rp_ping_timeouts plugin + 1) now
                       (Some ("heartbeat check failed: " +:+ inflight_error_str e)) plugin
          | _ => plugin
          end in
        if is_healthy plugin then set_plugins (<[name := plugin]> (running_plugins m)) m
        else
          set_hooks (remove_plugin_instance (rp_auth_code plugin) (hook_manager m))
            (set_plugins (<[name := with_state Failed None (rp_last_error plugin) plugin]> (running_plugins m)) m)
  | None => m
  end.

(** *** Requests that wait *)

Definition inflight_insert (id : string) (call : Z) (m : PluginManager) : PluginManager :=
  set_inflight (<[id := call]> (inflight m)) m.
Definition clean_up (id : string) (m : PluginManager) : PluginManager := set_inflight (delete id (inflight m)) m.
End Manager.

(** *** Listings and logs *)

Record PluginSnapshot := mkSnapshot {
  sn_name : string;
  sn_manifest : PluginManifest;
  sn_discovered : bool;
  sn_managed : bool;
  sn_state : PluginState;
  sn_healthy : option bool;
  sn_uptime : option Z;
  sn_restart_count : Z;
  sn_last_health_check_ago : option Z;
  sn_ping_timeouts : Z;
  sn_initialize_status : option string;
  sn_capabilities : list string;
  sn_hooks : list (string * Z);
  sn_last_error : option string;
}.

Inductive PluginListScope := ScopeManaged | ScopeDiscovered | ScopeAll.

Definition managed_snapshot (now : Z) (p : RunningPlugin) : PluginSnapshot :=
  mkSnapshot (rp_name p) (rp_manifest p) false true (rp_state p) (Some (is_healthy p))
    ((fun t => now - t) <$> rp_start_time p) (rp_restart_count p) ((fun t => now - t) <$> rp_last_health_check p)
    (rp_ping_timeouts p) (rp_initialize_status p) (rp_capabilities p) (rp_hooks p) (rp_last_error p).
Definition managed_plugin_data (now : Z) (m : PluginManager) : gmap string PluginSnapshot :=
  list_to_map ((fun kp => (rp_name kp.2, managed_snapshot now kp.2)) <$> map_to_list (running_plugins m)).

Definition discovered_snapshot (m : PluginManifest) : PluginSnapshot :=
  mkSnapshot (pi_name (mf_plugin m)) m true false Discovered None None 0 None 0 None [] [] None.
Definition set_discovered (m : PluginManifest) (s : PluginSnapshot) : PluginSnapshot :=
  mkSnapshot (sn_name s) m true (sn_managed s) (sn_state s) (sn_healthy s) (sn_uptime s) (sn_restart_count s)
    (sn_last_health_check_ago s) (sn_ping_timeouts s) (sn_initialize_status s) (sn_capabilities s) (sn_hooks s)
    (sn_last_error s).
(** [and_modify]: all but the name and [discovered]. *)
Definition merge_managed (s existing : PluginSnapshot) : PluginSnapshot :=
  mkSnapshot (sn_name existing) (sn_manifest s) (sn_discovered existing) true (sn_state s) (sn_healthy s)
    (sn_uptime s) (sn_restart_count s) (sn_last_health_check_ago s) (sn_ping_timeouts s) (sn_initialize_status s)
    (sn_capabilities s) (sn_hooks s) (sn_last_error s).

(** By name; [manifests] are those of the loader. *)
Definition list_plugin_snapshots (now : Z) (manifests : gmap string PluginManifest) (scope : PluginListScope)
    (state_filter : option PluginState) (m : PluginManager) : gmap string PluginSnapshot :=
  let managed := managed_plugin_data now m in
  let discovered :=
    match scope with
    | ScopeManaged => ∅
    | _ => (fun man => set_discovered man
              (from_option id (discovered_snapshot man) (managed !! pi_name (mf_plugin man)))) <$> manifests
    end in
  let all :=
    match scope with
    | ScopeDiscovered => discovered
    | _ => union_with (fun d s => Some (merge_managed s d)) discovered managed
    end in
  filter (fun ks => state_filter = None \/ state_filter = Some (sn_state ks.2)) all.

(** The buffer of a plugin's lines keeps the last thousand. *)
Definition push_log (line : string) (logs : list string) : list string :=
  let logs := logs ++ [line] in if (1000 <? length logs)%nat then drop 1 logs else logs.

Record PluginLogsPage := mkPage { pg_offset : Z; pg_limit : Z; pg_total : Z; pg_lines : list string }.
Definition get_plugin_logs (offset limit : Z) (tail : option Z) (logs : list string) : PluginLogsPage :=
  let total := zlen logs in
  let computed_offset := match tail with Some n => saturating_sub_u64 total n | None => offset end in
  let computed_limit := match tail with Some _ => saturating_sub_u64 total computed_offset | None => limit end in
  mkPage computed_offset computed_limit total
    (take (Z.to_nat computed_limit) (drop (Z.to_nat computed_offset) logs)).

(** ** Control

    Starting and stopping wait for processes, so they are programs.  The table of plugins
    is read and changed by operations of its own: the task that receives runs between
    them.  What stands for the file system and the process is an answer. *)

Inductive PluginControlError :=
  | NotFound (name : string)
  | InvalidState (name state : string)
  | Internal (message : string).

Record PreparedPluginStart := mkPrepared { pp_auth_code : string; pp_manifest : PluginManifest }.

Inductive hop :=
  | GetPlugin (name : string)
  | SetPlugin (name : string) (f : RunningPlugin -> RunningPlugin)
  | InsertPlugin (name : string) (p : RunningPlugin)
  | Prepare (name : string)
  | Spawn (prepared : PreparedPluginStart)
  | AbortSend (name : string)
  | AbortNotified
  | LogQuit (name : string)
  | HostNow.
Definition hres (o : hop) : Type :=
  match o with
  | GetPlugin _ => option RunningPlugin
  | SetPlugin _ _ | InsertPlugin _ _ | AbortNotified | LogQuit _ => unit
  | Prepare _ => outcome PluginControlError PreparedPluginStart
  | Spawn _ | AbortSend _ => outcome string unit
  | HostNow => Z
  end.
Abbreviation hprog := (prog hop hres).
#[export] Instance host_allowed : Allowed hop hres := fun _ _ => True.
#[local] Open Scope prog_scope.

Definition stop_plugin (name : string) : hprog (outcome PluginControlError unit) :=
  p ← invoke (GetPlugin name);
  match p with
  | None => Ret (Err (NotFound name))
  | Some p =>
      if decide (rp_state p = Running \/ rp_state p = Starting) then
        if rp_abort p then
          _ ← invoke (SetPlugin name (fun p => with_state Stopping (rp_ipc p) None p));
          sent ← invoke (AbortSend name);
          match sent with
          | Ok _ =>
              _ ← invoke AbortNotified;
              _ ← (if rp_log_quit p then invoke (LogQuit name) else Ret tt);
              Ret (Ok tt)
          | Err e => Ret (Err (Internal ("failed to send abort signal to plugin '" +:+ name +:+ "': " +:+ e)))
          | Panic => Ret Panic
          | OutOfFuel => Ret OutOfFuel
          end
        else Ret (Err (Internal ("plugin '" +:+ name +:+ "' abort channel not found")))
      else if decide (rp_state p = Stopping) then Ret (Err (InvalidState name (plugin_state_str Stopping)))
      else Ret (Ok tt)
  end.

(** The entry of a process that could not be started, or that was. *)
Definition failed_start (name : string) (pp : PreparedPluginStart) (restart_count now : Z) (e : string)
    : RunningPlugin :=
  mkRunning name (pp_manifest pp) Failed false false (Some now) restart_count None 0 None (pp_auth_code pp) []
    None [] [] (Some ("failed to start plugin '" +:+ name +:+ "': " +:+ e)).
Definition started_plugin (name : string) (pp : PreparedPluginStart) (restart_count now : Z) : RunningPlugin :=
  mkRunning name (pp_manifest pp) Starting true true (Some now) restart_count None 0 None (pp_auth_code pp) []
    None [] [] None.

Definition start_prepared_plugin (name : string) (restart_count : Z) (pp : PreparedPluginStart)
    : hprog (outcome PluginControlError unit) :=
  spawned ← invoke (Spawn pp);
  now ← invoke HostNow;
  match spawned with
  | Err e =>
      _ ← invoke (InsertPlugin name (failed_start name pp restart_count now e));
      Ret (Err (Internal ("failed to start plugin '" +:+ name +:+ "': " +:+ e)))
  | Ok _ =>
      _ ← invoke (InsertPlugin name (started_plugin name pp restart_count now));
      Ret (Ok tt)
  | Panic => Ret Panic
  | OutOfFuel => Ret OutOfFuel
  end.

Definition start_plugin (name : string) : hprog (outcome PluginControlError unit) :=
  counted ← invoke (GetPlugin name);
  p ← invoke (GetPlugin name);
  match p with
  | Some p =>
      if decide (rp_state p = Running \/ rp_state p = Starting \/ rp_state p = Stopping)
      then Ret (Err (InvalidState name (plugin_state_str (rp_state p))))
      else pp <-? invoke (Prepare name); start_prepared_plugin name (from_option rp_restart_count 0 counted) pp
  | None => pp <-? invoke (Prepare name); start_prepared_plugin name (from_option rp_restart_count 0 counted) pp
  end.

(** [saturating_add(1)] of a [u32]. *)
Definition next_restart_count (p : option RunningPlugin) : Z :=
  match p with Some p => Z.min (rp_restart_count p + 1) u32_max | None => 1 end.

Definition restart_plugin (name : string) : hprog (outcome PluginControlError unit) :=
  counted ← invoke (GetPlugin name);
  p ← invoke (GetPlugin name);
  if (match p with Some p => bool_decide (rp_state p = Stopping) | None => false end) then Ret (Err (InvalidState name (plugin_state_str Stopping)))
  else
    pp <-? invoke (Prepare name);
    present ← invoke (GetPlugin name);
    match present with
    | Some _ =>
        _ <-? stop_plugin name;
        start_prepared_plugin name (next_restart_count counted) pp
    | None => start_prepared_plugin name (next_restart_count counted) pp
    end.

(** ** The state of the host *)

Section Host.
Context `{Prost InitializeResponse}.

(** What changes the tables: the two tasks, the operations of the control programs and of
    the calls that wait. *)
Inductive host_step : PluginManager -> PluginManager -> Prop :=
  | step_rx cmd m : host_step m (handle_rx cmd m)
  | step_heartbeat now name code r m : host_step m (heartbeat_result now name code r m)
  | step_stopping name m :
      host_step m (set_plugins (alter (fun p => with_state Stopping (rp_ipc p) None p) name (running_plugins m)) m)
  | step_start name pp count now m : host_step m
      (set_plugins (<[name := started_plugin name pp count now]> (running_plugins m)) m)
  | step_start_failed name pp count now e m : host_step m
      (set_plugins (<[name := failed_start name pp count now e]> (running_plugins m)) m)
  | step_request id call m : host_step m (inflight_insert id call m)
  | step_clean_up id m : host_step m (clean_up id m).

Definition host_reachable (m : PluginManager) : Prop := rtc host_step manager_new m.

(** Every plugin is filed under its name, and the hooks are in order. *)
Record HostOk (m : PluginManager) : Prop := {
  host_names : map_Forall (fun name p => rp_name p = name) (running_plugins m);
  host_hooks : HooksOk (hook_manager m);
}.

Lemma find_by_code_Some code ps key p :
  find_by_code code ps = Some (key, p) -> ps !! key = Some p /\ rp_auth_code p = code.
Proof.
  unfold find_by_code. destruct (list_find _ _) as [[i kp]|] eqn:Hf; [|done]. simpl. intros [= ->].
  apply list_find_Some in Hf as (Hl & Hc & _). apply list_elem_of_lookup_2, elem_of_map_to_list in Hl. done.
Qed.

Lemma host_status_changed name code state m : HostOk m -> HostOk (status_changed name code state m).
Proof.
  intros [Hn Hh]. unfold status_changed.
  set (m1 := if decide _ then _ else m).
  assert (HostOk m1) as [Hn1 Hh1]. { subst m1. case_decide; [|done]. split; [done|]. by apply hooks_ok_retain. }
  destruct (running_plugins m1 !! name) as [p|] eqn:Hp; [|done]. case_decide; [done|]. split; [|done]. simpl.
  apply map_Forall_insert_2; [|done]. pose proof (map_Forall_lookup_1 _ _ _ _ Hn1 Hp). by case_decide.
Qed.

Lemma host_init msg conn m : HostOk m -> HostOk (init_message msg conn m).
Proof.
  intros [Hn Hh]. unfold init_message. destruct (pm_result msg) as [r|]; [|done].
  destruct (prost_decode (any_value r)) as [ir| | |]; [|done..].
  destruct (find_by_code _ _) as [[key p]|] eqn:Hf; [|done]. apply find_by_code_Some in Hf as [Hp _].
  split; simpl; [|by apply hooks_ok_replace]. apply map_Forall_insert_2; [|done]. simpl.
  by apply (map_Forall_lookup_1 _ _ _ _ Hn).
Qed.

Lemma host_heartbeat now name code r m : HostOk m -> HostOk (heartbeat_result now name code r m).
Proof.
  intros [Hn Hh]. unfold heartbeat_result. destruct (running_plugins m !! name) as [p|] eqn:Hp; [|done].
  case_decide; [done|]. pose proof (map_Forall_lookup_1 _ _ _ _ Hn Hp) as Hname. simpl in Hname.
  set (p' := match r with Ok _ => _ | _ => _ end).
  assert (rp_name p' = name) by (by subst p'; destruct r).
  destruct (is_healthy p'); split; simpl; try done; try by apply map_Forall_insert_2. by apply hooks_ok_retain.
Qed.

Lemma host_ok_step m m' : host_step m m' -> HostOk m -> HostOk m'.
Proof.
  intros Hs Hok. destruct Hs as [cmd m|now name code r m|name m|name pp count now m|name pp count now e m|id call m|id m].
  - unfold handle_rx. destruct (receiving m); [|done].
    destruct cmd as [msg conn|msg|name code state|]; [by apply host_init| |by apply host_status_changed|].
    + destruct Hok as [Hn Hh]. unfold normal_message. destruct (message_type_of _); try done. by destruct (inflight m !! _).
    + by destruct Hok.
  - by apply host_heartbeat.
  - destruct Hok as [Hn Hh]. split; [|done]. simpl. intros name' p'. rewrite lookup_alter_Some.
    intros [(<- & p & Hp & ->)|[_ Hp]]; simpl; by apply (map_Forall_lookup_1 _ _ _ _ Hn).
  - destruct Hok as [Hn Hh]. split; [|done]. by apply map_Forall_insert_2.
  - destruct Hok as [Hn Hh]. split; [|done]. by apply map_Forall_insert_2.
  - by destruct Hok.
  - by destruct Hok.
Qed.

Lemma host_ok_reachable m : host_reachable m -> HostOk m.
Proof.
  intros Hr. unfold host_reachable in Hr. remember manager_new as m0 eqn:Heq.
  assert (HostOk m0) as H0 by (subst; split; [apply map_Forall_empty|apply hooks_ok_empty]). clear Heq.
  induction Hr as [|x y z Hs _ IH]; [done|]. apply IH. by eapply host_ok_step.
Qed.

(** *** A task that has ended *)

Lemma handle_rx_ended cmd m : receiving m = false -> handle_rx cmd m = m.
Proof. intros Hr. unfold handle_rx. by rewrite Hr. Qed.

Lemma ended_step m m' : host_step m m' -> receiving m = false ->
  receiving m' = false /\ answered m' = answered m.
Proof.
  intros Hs Hr. destruct Hs as [cmd m|now name code r m|name m|name pp count now m|name pp count now e m|id call m|id m];
    try done.
  - by rewrite handle_rx_ended.
  - unfold heartbeat_result. destruct (running_plugins m !! name) as [p|]; [|done]. case_decide; [done|].
    by case_match.
Qed.
Lemma ended_stays m m' : rtc host_step m m' -> receiving m = false ->
  receiving m' = false /\ answered m' = answered m.
Proof.
  induction 1 as [m|m m1 m2 Hs _ IH]; intros Hr; [done|].
  destruct (ended_step _ _ Hs Hr) as [Hr1 Ha]. rewrite <-Ha. by apply IH.
Qed.

(** in every state the host can reach, every list of registrations is in the order of
    the priorities and not empty, and all registrations of a plugin belong to one process
    of it, so a hook never calls two processes of one plugin. *)
Theorem hooks_in_order m : host_reachable m -> HooksOk (hook_manager m).
Proof. intros Hr. by apply host_hooks, host_ok_reachable. Qed.

(** one plugin that answers the initialization with bytes that do not decode ends the
    task that receives from all plugins: from then on no call of any hook is answered,
    whatever the plugins send and whichever are started again. *)
Theorem bad_initialize_silences_all m msg conn r e m' :
  pm_result msg = Some r -> prost_decode (A := InitializeResponse) (any_value r) = Err e ->
  rtc host_step (handle_rx (InitMessage msg conn) m) m' -> answered m' = answered m.
Proof.
  intros Hr He Hs. assert (handle_rx (InitMessage msg conn) m = stop_receiving m) as Heq.
  { unfold handle_rx, init_message. rewrite Hr, He. destruct m as [ps hs fl an []]; done. }
  rewrite Heq in Hs. by destruct (ended_stays _ _ Hs eq_refl) as [_ ->].
Qed.
End Host.

Lemma runs_host_call_inv (o : hop) tr (x : hres o) : runs (invoke o) tr x -> tr = [mkCall (R := hres) o x].
Proof. intros Hr. by apply (runs_invoke_inv o tr x) in Hr as [_ ->]. Qed.
Lemma reaches_host_call (o : hop) tr o' : reaches (invoke (R := hres) o) tr o' -> tr = [] /\ o' = o.
Proof. exact (reaches_invoke o tr o'). Qed.

(** A restart that cannot start the plugin anew does not stop it: the manifest is read
    before the process is told to end. *)
Lemma restart_prepares_first name tr :
  reaches (restart_plugin name) tr (AbortSend name) ->
  exists pp, mkCall (R := hres) (Prepare name) (Ok pp) ∈ tr.
Proof.
  unfold restart_plugin. intros [[_ ?]%reaches_host_call|(t1 & c & t2 & _ & Hr & ->)]%reaches_bind; [done|].
  apply reaches_bind in Hr as [[_ ?]%reaches_host_call|(t3 & p & t4 & _ & Hr & ->)]; [done|].
  destruct (match p with Some _ => _ | None => _ end); [done|].
  apply reaches_attempt in Hr as [[_ ?]%reaches_host_call|(t5 & pp & t6 & Hp & _ & ->)]; [done|].
  apply runs_host_call_inv in Hp as ->. exists pp. set_solver.
Qed.

Module HostSample.
(** A format of one byte: 0 is a plugin that authorizes, anything else is malformed. *)
Definition declared : InitializeResponse :=
  mkInitialized "ready" [] [mkDeclaration "Authorize" 7 None; mkDeclaration "Authenticate" 1 None] None "code".
#[export] Instance prost : Prost InitializeResponse := {|
  encode_to_vec _ := [0];
  prost_decode b := match b with [0] => Ok declared | _ => Err "malformed"%string end;
|}.
Definition manifest : PluginManifest :=
  mkManifest (mkPluginInfo "p" "1" "" "" None None None) (mkRuntime (Some "run"%string) None None None None).
Definition prepared : PreparedPluginStart := mkPrepared "code" manifest.
Definition init (value : bytes) : ProtocolMessage :=
  mkMessage "1.0.0" 2 "id" None "plugin" "plugin_host" None None (Some (mkAny INIT_RESPONSE_TYPE_URL value)) None ∅.
Definition with_plugin : PluginManager :=
  set_plugins (<["p" := started_plugin "p" prepared 0 0]> ∅) manager_new.
Definition connected : PluginManager := handle_rx (InitMessage (init [0]) 5) with_plugin.
End HostSample.
Import HostSample.

Lemma hooks_in_order_witness :
  HooksOk (hook_manager connected) /\
  get_hooks (hook_manager connected) HookAuthorize = Some [mkRegistered "p" "code" 7].
Proof.
  split; [|vm_compute; reflexivity]. apply hooks_in_order.
  eapply rtc_l; [apply (step_start "p" prepared 0 0)|]. eapply rtc_l; [apply (step_rx (InitMessage (init [0]) 5))|].
  apply rtc_refl.
Defined.

Lemma bad_initialize_silences_all_witness :
  answered (handle_rx (NormalReceivedMessage (mkMessage "1.0.0" 2 "1" None "" "" None None None None ∅))
             (handle_rx (InitMessage (init [9]) 6) (inflight_insert "1" 3 connected))) = [] /\
  answered (handle_rx (NormalReceivedMessage (mkMessage "1.0.0" 2 "1" None "" "" None None None None ∅))
             (inflight_insert "1" 3 connected)) <> [].
Proof.
  split; [|vm_compute; discriminate].
  eapply (bad_initialize_silences_all (inflight_insert "1" 3 connected) (init [9]) 6); [reflexivity|reflexivity|].
  eapply rtc_l; [apply step_rx|]. apply rtc_refl.
Defined.
