(* ===== verification/PluginHooks.v ===== *)
(** * Calls of the hooks ([plugin_host/src/plugin_manager.rs])

    The broker asks the plugins whether a client may connect, publish or subscribe, lets
    them change messages and subscriptions, and tells them of events.  A call goes through
    the registrations of its hook in their order, skips those whose process is not the
    plugin's current one or is not running, sends the request and waits for the answer.
    The read guard on the table of hooks is held for the whole call, so the registrations
    are an argument; the table of plugins may change between two calls.

    The theorems say what the answers of the plugins come to, for every sequence of
    answers, timeouts and failures. *)

From S2P Require Import Prelude Program Traces MqttProperties SessionActor HookManager PluginHost.

#[local] Open Scope Z_scope.

(** ** Requests and answers *)

Record AuthenticateRequest := mkAuthenticateRequest {
  an_client_id : string;
  an_username : string;
  an_password : string;
  an_client_ip : string;
  an_client_cert : bytes;
  an_protocol_version : string;
  an_properties : option Struct;
}.
Record AuthenticateResponse := mkAuthenticateResponse {
  ap_authenticated : bool;
  ap_permissions : list string;
  ap_session_data : option Struct;
  ap_error_reason : option string;
  ap_tenant_id : option string;
}.
Record AuthenticateResult := mkAuthenticateResult {
  authenticated : bool;
  error_reason : option string;
  tenant_id : option string;
}.
Record AuthorizeResponse := mkAuthorizeResponse {
  zp_authorized : bool;
  zp_reason : option string;
  zp_modified_context : option Struct;
}.
Record MessagePublishRequest := mkPublishRequest { mp_message : option MqttMessage; mp_context : option Struct }.
Record MessagePublishResponse := mkPublishResponse {
  mr_allow : bool;
  mr_modified_message : option MqttMessage;
  mr_error_reason : option string;
  mr_continue_chain : option bool;
}.
Record SubscribeRequest := mkSubscribeRequest {
  sq_client_id : string;
  sq_subscriptions : list PluginTopicFilter;
  sq_context : option Struct;
}.
Record SubscribeOutcome := mkOutcome { so_topic : string; so_allowed : bool; so_granted_qos : Z; so_reason : option string }.
Record SubscribeResponse := mkSubscribeResponse { sp_results : list SubscribeOutcome; sp_continue_chain : option bool }.
(** Of the two events, what the plugins are told; their times are drawn by the caller. *)
Record ClientEvent := mkClientEvent { ce_tenant_id : string; ce_client_id : string; ce_info : string }.

(** The two settings the calls read. *)
Record PluginHostConfig := mkConfig { default_authorize_result : bool; default_authenticate_result : bool }.

(** ** Operations *)

Inductive pop :=
  | CurrentPlugin (name : string)
  | FreshMessage
  | SendAndWait (conn : Z) (msg : ProtocolMessage)
  | SendEvent (conn : Z) (msg : ProtocolMessage).
Definition pres (o : pop) : Type :=
  match o with
  | CurrentPlugin _ => option RunningPlugin
  | FreshMessage => string * (Z * Z)
  | SendAndWait _ _ => outcome InflightError ProtocolMessage
  | SendEvent _ _ => unit
  end.
Abbreviation pprog := (prog pop pres).
Definition call (o : pop) : pprog (pres o) := invoke o.

(** A call that waits ends with an answer or an [InflightError]. *)
#[export] Instance plugin_allowed : Allowed pop pres := fun o =>
  match o with
  | SendAndWait _ _ => fun r => returns r
  | _ => fun _ => True
  end.

(** [get_registered_plugin_sender]: the connection and the name of the plugin. *)
Definition active (h : RegisteredHook) (p : option RunningPlugin) : option (Z * string) :=
  match p with
  | Some p =>
      if decide (rp_auth_code p <> rh_instance_id h) then None
      else if decide (rp_state p = Running) then (fun conn => (conn, rp_name p)) <$> rp_ipc p else None
  | None => None
  end.
Definition get_registered_plugin_sender (h : RegisteredHook) : pprog (option (Z * string)) :=
  p ← call (CurrentPlugin (rh_plugin_name h)); Ret (active h p).

Definition build_request (x : Method) (t : MessageType) (url : string) (value : bytes) (id : string * (Z * Z))
    : ProtocolMessage :=
  with_params (mkAny url value) (with_type t (with_method x (builder_new id.1 id.2))).

(** A response of the expected type that decodes; anything else is passed over. *)
Definition usable {A} `{Prost A} (url : string) (r : ProtocolMessage) : option A :=
  match pm_result r with
  | Some a =>
      if decide (type_url a = url) then match prost_decode (any_value a) with Ok x => Some x | _ => None end else None
  | None => None
  end.

(** ** Events *)

(** The five functions differ in the hook, the method and the type. *)
Fixpoint send_events (x : Method) (url : string) (value : bytes) (hooks : list RegisteredHook) : pprog unit :=
  match hooks with
  | [] => Ret tt
  | h :: hooks =>
      s ← get_registered_plugin_sender h;
      match s with
      | Some (conn, _) =>
          mid ← call FreshMessage;
          _ ← call (SendEvent conn (build_request x MtEvent url value mid));
          send_events x url value hooks
      | None => send_events x url value hooks
      end
  end.
Definition notify (hook : Hook) (x : Method) (url : string) (value : bytes) (m : HookManager) : pprog unit :=
  match get_hooks m hook with Some hooks => send_events x url value hooks | None => Ret tt end.

Section Hooks.
Context `{Prost SubscribeRequest, Prost ClientEvent, Prost MessagePublishRequest, Prost MessagePublishResponse,
  Prost SubscribeResponse, Prost AuthorizeRequest, Prost AuthorizeResponse, Prost AuthenticateRequest,
  Prost AuthenticateResponse}.
Context (config : PluginHostConfig).

Definition call_subscribe_removed_hook (r : SubscribeRequest) (m : HookManager) : pprog unit :=
  notify HookSubscribeRemoved MSubscriptionRemoved SUBSCRIBE_REQUEST_TYPE_URL (encode_to_vec r) m.
Definition call_subscribe_added_hook (r : SubscribeRequest) (m : HookManager) : pprog unit :=
  notify HookSubscribeAdded MSubscriptionAdded SUBSCRIBE_REQUEST_TYPE_URL (encode_to_vec r) m.
Definition call_client_connected_hook (e : ClientEvent) (m : HookManager) : pprog unit :=
  notify HookClientConnected MClientConnected CLIENT_CONNECTED_EVENT_TYPE_URL (encode_to_vec e) m.
Definition call_client_disconnected_hook (e : ClientEvent) (m : HookManager) : pprog unit :=
  notify HookClientDisconnected MClientDisconnected CLIENT_DISCONNECTED_EVENT_TYPE_URL (encode_to_vec e) m.
Definition call_message_published_hook (r : MessagePublishRequest) (m : HookManager) : pprog unit :=
  notify HookMessagePublished MMessagePublished MQTT_MESSAGE_PUBLISH_REQUEST_TYPE_URL (encode_to_vec r) m.

(** ** Messages and subscriptions *)

Fixpoint publish_chain (r : MessagePublishRequest) (hooks : list RegisteredHook) : pprog MessagePublishResult :=
  match hooks with
  | [] => Ret (mkPublishResult true (mp_message r) None)
  | h :: hooks =>
      s ← get_registered_plugin_sender h;
      match s with
      | None => publish_chain r hooks
      | Some (conn, _) =>
          mid ← call FreshMessage;
          answer ← call (SendAndWait conn
            (build_request MOnMessagePublish MtRequest MQTT_MESSAGE_PUBLISH_REQUEST_TYPE_URL (encode_to_vec r) mid));
          match answer with
          | Ok response =>
              match usable (A := MessagePublishResponse) MQTT_MESSAGE_PUBLISH_RESPONSE_TYPE_URL response with
              | Some x =>
                  let continue_chain := from_option id false (mr_continue_chain x) in
                  let r := match mr_modified_message x with
                           | Some msg => mkPublishRequest (Some msg) (mp_context r) | None => r end in
                  if negb (mr_allow x) || negb continue_chain
                  then Ret (mkPublishResult (mr_allow x) (mp_message r) (mr_error_reason x))
                  else publish_chain r hooks
              | None => publish_chain r hooks
              end
          | _ => publish_chain r hooks
          end
      end
  end.
Definition call_on_message_publish (r : MessagePublishRequest) (m : HookManager) : pprog MessagePublishResult :=
  publish_chain r (from_option id [] (get_hooks m HookOnMessagePublish)).

(** [item.granted_qos = x as u8]. *)
Definition as_u8 (z : Z) : Z := z mod 256.

(** [iter_mut().find(..)]: the first item of the topic is changed. *)
Fixpoint set_outcome (x : SubscribeOutcome) (items : list SubscribeOutcome) : list SubscribeOutcome :=
  match items with
  | [] => []
  | i :: items =>
      if decide (so_topic i = so_topic x)
      then mkOutcome (so_topic i) (so_allowed x) (as_u8 (so_granted_qos x)) (so_reason x) :: items
      else i :: set_outcome x items
  end.

Fixpoint subscribe_chain (r : SubscribeRequest) (items : list SubscribeOutcome) (hooks : list RegisteredHook)
    : pprog (list SubscribeOutcome) :=
  match hooks with
  | [] => Ret items
  | h :: hooks =>
      s ← get_registered_plugin_sender h;
      match s with
      | None => subscribe_chain r items hooks
      | Some (conn, _) =>
          mid ← call FreshMessage;
          answer ← call (SendAndWait conn
            (build_request MOnMessageSubscribe MtRequest SUBSCRIBE_REQUEST_TYPE_URL (encode_to_vec r) mid));
          match answer with
          | Ok response =>
              match usable (A := SubscribeResponse) SUBSCRIBE_RESPONSE_TYPE_URL response with
              | Some x =>
                  let items := foldl (fun items x => set_outcome x items) items (sp_results x) in
                  if from_option id false (sp_continue_chain x) then subscribe_chain r items hooks else Ret items
              | None => subscribe_chain r items hooks
              end
          | _ => subscribe_chain r items hooks
          end
      end
  end.
Definition call_on_message_subscribe (r : SubscribeRequest) (m : HookManager) : pprog (list SubscribeOutcome) :=
  subscribe_chain r
    (map (fun f => mkOutcome (tf_topic f) true (as_u8 (tf_qos f)) None) (sq_subscriptions r))
    (from_option id [] (get_hooks m HookOnMessageSubscribe)).

(** ** Authorization *)

Fixpoint authorize_chain (r : AuthorizeRequest) (hooks : list RegisteredHook) : pprog AuthorizeResult :=
  match hooks with
  | [] => Ret (mkAuthorizeResult true None)
  | h :: hooks =>
      s ← get_registered_plugin_sender h;
      match s with
      | None => authorize_chain r hooks
      | Some (conn, plugin_name) =>
          mid ← call FreshMessage;
          answer ← call (SendAndWait conn
            (build_request MAuthorize MtRequest AUTHORIZE_REQUEST_TYPE_URL (encode_to_vec r) mid));
          match answer with
          | Ok response =>
              match usable (A := AuthorizeResponse) AUTHORIZE_RESPONSE_TYPE_URL response with
              | Some x =>
                  if negb (zp_authorized x) then Ret (mkAuthorizeResult false (zp_reason x))
                  else authorize_chain r hooks
              | None => authorize_chain r hooks
              end
          | Err IfTimeout => Ret (mkAuthorizeResult false (Some ("Plugin " +:+ plugin_name +:+ " response timeout")))
          | _ => authorize_chain r hooks
          end
      end
  end.
Definition call_authorize_hook (r : AuthorizeRequest) (m : HookManager) : pprog AuthorizeResult :=
  match get_hooks m HookAuthorize with
  | Some hooks => authorize_chain r hooks
  | None => Ret (mkAuthorizeResult (default_authorize_result config) None)
  end.

(** ** Authentication *)

(** The state of the loop: the result so far, whether a plugin has accepted, and whether
    one was called. *)
Fixpoint authenticate_chain (r : AuthenticateRequest) (final : AuthenticateResult) (is_first_called called_any : bool)
    (hooks : list RegisteredHook) : pprog AuthenticateResult :=
  match hooks with
  | [] => Ret (if called_any then final else mkAuthenticateResult false None None)
  | h :: hooks =>
      s ← get_registered_plugin_sender h;
      match s with
      | None => authenticate_chain r final is_first_called called_any hooks
      | Some (conn, plugin_name) =>
          mid ← call FreshMessage;
          answer ← call (SendAndWait conn
            (build_request MAuthenticate MtRequest AUTHENTICATE_REQUEST_TYPE_URL (encode_to_vec r) mid));
          match answer with
          | Ok response =>
              match usable (A := AuthenticateResponse) AUTHENTICATE_RESPONSE_TYPE_URL response with
              | Some x =>
                  if ap_authenticated x then
                    if negb is_first_called && negb (bool_decide (ap_tenant_id x = tenant_id final))
                    then Ret (mkAuthenticateResult false (Some "Tenant ID mismatch"%string) None)
                    else authenticate_chain r (mkAuthenticateResult true None (ap_tenant_id x)) false true hooks
                  else Ret (mkAuthenticateResult (ap_authenticated x) (ap_error_reason x) (ap_tenant_id x))
              | None => authenticate_chain r final is_first_called true hooks
              end
          | Err IfTimeout =>
              Ret (mkAuthenticateResult false (Some ("Plugin " +:+ plugin_name +:+ " response timeout")) None)
          | _ => authenticate_chain r final is_first_called true hooks
          end
      end
  end.
Definition call_authenticate_hook (r : AuthenticateRequest) (m : HookManager) : pprog AuthenticateResult :=
  match get_hooks m HookAuthenticate with
  | Some hooks => authenticate_chain r (mkAuthenticateResult false None None) true false hooks
  | None => Ret (mkAuthenticateResult (default_authenticate_result config) None None)
  end.
End Hooks.

(** ** What the answers come to *)

Inductive Verdict :=
  | Accepts (tenant : option string)
  | Denies
  | TimesOut
  | Passes.

(** The answers of the plugins, and the plugins looked up, in the order of a trace. *)
Definition answer_of (c : Call pop pres) : option (outcome InflightError ProtocolMessage) :=
  match c with
  | mkCall o x => (match o return pres o -> option (outcome InflightError ProtocolMessage) with SendAndWait _ _ => fun a => Some a | _ => fun _ => None end) x
  end.
Definition answers (tr : list (Call pop pres)) : list (outcome InflightError ProtocolMessage) := omap answer_of tr.
Definition looked_up_of (c : Call pop pres) : option string :=
  match c_op c with CurrentPlugin name => Some name | _ => None end.
Definition looked_up (tr : list (Call pop pres)) : list string := omap looked_up_of tr.

Section Verdicts.
Context `{Prost AuthorizeRequest, Prost AuthorizeResponse, Prost AuthenticateRequest, Prost AuthenticateResponse}.

Definition authenticate_verdict (a : outcome InflightError ProtocolMessage) : Verdict :=
  match a with
  | Ok response =>
      match usable (A := AuthenticateResponse) AUTHENTICATE_RESPONSE_TYPE_URL response with
      | Some x => if ap_authenticated x then Accepts (ap_tenant_id x) else Denies
      | None => Passes
      end
  | Err IfTimeout => TimesOut
  | _ => Passes
  end.
Definition authorize_verdict (a : outcome InflightError ProtocolMessage) : Verdict :=
  match a with
  | Ok response =>
      match usable (A := AuthorizeResponse) AUTHORIZE_RESPONSE_TYPE_URL response with
      | Some x => if zp_authorized x then Accepts None else Denies
      | None => Passes
      end
  | Err IfTimeout => TimesOut
  | _ => Passes
  end.

(** Someone accepts, for this tenant, and nobody says otherwise. *)
Definition accepts_or_passes (t : option string) (v : Verdict) : Prop := v = Accepts t \/ v = Passes.
Definition unanimous (vs : list Verdict) (t : option string) : Prop :=
  Accepts t ∈ vs /\ Forall (accepts_or_passes t) vs.

Lemma unanimous_refused vs v ws t : v = Denies \/ v = TimesOut -> ~ unanimous (vs ++ v :: ws) t.
Proof.
  intros Hv [_ Hall]. rewrite Forall_app, Forall_cons in Hall. destruct Hall as (_ & [Hx|Hx] & _); naive_solver.
Qed.

Lemma runs_plugin_call_inv (o : pop) tr (x : pres o) : runs (call o) tr x -> allowed o x /\ tr = [mkCall o x].
Proof. exact (runs_invoke_inv o tr x). Qed.
Lemma reaches_plugin_call (o : pop) tr o' : reaches (call o) tr o' -> tr = [] /\ o' = o.
Proof. exact (reaches_invoke o tr o'). Qed.

(** The start of a step of a chain. *)
Lemma runs_sender_inv {A} h (f : option (Z * string) -> pprog A) tr a :
  runs (s ← get_registered_plugin_sender h; f s) tr a ->
  exists p tr', tr = mkCall (CurrentPlugin (rh_plugin_name h)) p :: tr' /\ runs (f (active h p)) tr' a.
Proof.
  intros (t1 & s & t2 & Hs & Hf & ->)%runs_bind_inv.
  apply runs_bind_inv in Hs as (t3 & p & t4 & [_ ->]%runs_plugin_call_inv & [-> ->]%runs_ret_inv & ->). eauto.
Qed.
Lemma runs_request_inv {A} conn (mk : string * (Z * Z) -> ProtocolMessage)
    (f : outcome InflightError ProtocolMessage -> pprog A) tr a :
  runs (mid ← call FreshMessage; answer ← call (SendAndWait conn (mk mid)); f answer) tr a ->
  exists mid x tr', returns x /\ tr = mkCall FreshMessage mid :: mkCall (SendAndWait conn (mk mid)) x :: tr' /\
    runs (f x) tr' a.
Proof.
  intros (t1 & mid & t2 & [_ ->]%runs_plugin_call_inv & Hr & ->)%runs_bind_inv.
  apply runs_bind_inv in Hr as (t3 & x & t4 & [Hx ->]%runs_plugin_call_inv & Hr & ->). by exists mid, x, t4.
Qed.

(** What the loop knows after the verdicts [pre]. *)
Definition chain_state (pre : list Verdict) (final : AuthenticateResult) (first called : bool) : Prop :=
  (called = false -> pre = []) /\
  (if first then authenticated final = false /\ Forall (fun v => v = Passes) pre
   else authenticated final = true /\ unanimous pre (tenant_id final)).

Lemma chain_state_start : chain_state [] (mkAuthenticateResult false None None) true false.
Proof. by repeat constructor. Qed.
Lemma chain_state_passes pre final first called :
  chain_state pre final first called -> chain_state (pre ++ [Passes]) final first true.
Proof.
  intros [_ Hf]. split; [done|]. destruct first; destruct Hf as [Ha Hu]; (split; [done|]).
  - apply Forall_app. by repeat constructor.
  - destruct Hu as [Hin Hall]. split; [set_solver|]. apply Forall_app. split; [done|]. apply Forall_singleton. by right.
Qed.
Lemma chain_state_accepts pre final (first called : bool) t :
  chain_state pre final first called -> (first = false -> t = tenant_id final) ->
  chain_state (pre ++ [Accepts t]) (mkAuthenticateResult true None t) false true.
Proof.
  intros [_ Hf] Ht. split; [done|]. split; [done|]. simpl. split; [set_solver|].
  apply Forall_app. split; [|apply Forall_singleton; by left]. destruct first; destruct Hf as [_ Hu].
  - eapply Forall_impl; [done|]. intros v ->. by right.
  - rewrite (Ht eq_refl). apply Hu.
Qed.
Lemma chain_state_mismatch pre final called t t' vs :
  chain_state pre final false called -> t <> tenant_id final -> ~ unanimous (pre ++ Accepts t :: vs) t'.
Proof.
  intros [_ [_ [Hin _]]] Hne [_ Hall]. rewrite Forall_app, Forall_cons in Hall. destruct Hall as (Hpre & Ht & _).
  eapply Forall_forall in Hpre; [|done]. destruct Hpre as [[= <-]|?]; [|done]. by destruct Ht as [[= ->]|?].
Qed.
Lemma chain_state_end pre final first called : chain_state pre final first called ->
  let res := if called then final else mkAuthenticateResult false None None in
  (authenticated res = true -> unanimous pre (tenant_id res)) /\
  (forall t, unanimous pre t -> authenticated res = true).
Proof.
  intros [Hc Hf]. destruct called; simpl.
  - destruct first; destruct Hf as [Ha Hu]; rewrite Ha; split; try done.
    intros t [Hin _]. eapply Forall_forall in Hu; [|done]. done.
  - rewrite (Hc eq_refl). split; [done|]. by intros t [Hin%not_elem_of_nil _].
Qed.

Lemma authenticate_chain_verdicts r hooks : forall final first called pre tr res,
  chain_state pre final first called ->
  runs (authenticate_chain r final first called hooks) tr res ->
  (authenticated res = true -> unanimous (pre ++ (authenticate_verdict <$> answers tr)) (tenant_id res) /\
     looked_up tr = rh_plugin_name <$> hooks) /\
  (forall t, unanimous (pre ++ (authenticate_verdict <$> answers tr)) t -> authenticated res = true).
Proof.
  induction hooks as [|h hooks IH]; intros final first called pre tr res Hst Hr.
  { apply runs_ret_inv in Hr as [-> ->]. cbn. rewrite app_nil_r.
    destruct (chain_state_end _ _ _ _ Hst) as [H3 H4]. auto. }
  cbn [authenticate_chain] in Hr. apply runs_sender_inv in Hr as (p & tr1 & -> & Hr).
  destruct (active h p) as [[conn name]|] eqn:Hact; [|by destruct (IH _ _ _ _ _ _ Hst Hr) as [H3 H4];
    split; [intros Ha; destruct (H3 Ha) as [Hu Hl]; split; [done|by rewrite fmap_cons, <-Hl]|done]].
  apply runs_request_inv in Hr as (mid & x & tr2 & Hx & -> & Hr).
  cbn [answers omap list_omap answer_of looked_up looked_up_of c_op]. fold (answers tr2) (looked_up tr2).
  rewrite fmap_cons. unfold authenticate_verdict at 1 3.
  assert (Hgo : forall final' first' v, chain_state (pre ++ [v]) final' first' true ->
    runs (authenticate_chain r final' first' true hooks) tr2 res ->
    (authenticated res = true ->
       unanimous (pre ++ v :: (authenticate_verdict <$> answers tr2)) (tenant_id res) /\
       rh_plugin_name h :: looked_up tr2 = rh_plugin_name <$> h :: hooks) /\
    (forall t, unanimous (pre ++ v :: (authenticate_verdict <$> answers tr2)) t -> authenticated res = true)).
  { intros final' first' v Hst' Hr'. destruct (IH _ _ _ _ _ _ Hst' Hr') as [H3 H4].
    rewrite cons_middle, app_assoc. split; [|done]. intros Ha. destruct (H3 Ha) as [Hu Hl].
    split; [done|by rewrite fmap_cons, <-Hl]. }
  destruct x as [response|e| |]; [| |done..].
  - destruct (usable (A := AuthenticateResponse) _ response) as [y|]; [|by apply (Hgo final first); [eapply chain_state_passes|]].
    destruct (ap_authenticated y) eqn:Hy.
    + destruct (negb first && negb (bool_decide (ap_tenant_id y = tenant_id final))) eqn:Hm.
      * apply runs_ret_inv in Hr as [-> ->]. split; [done|]. intros t Hu.
        apply andb_prop in Hm as [Hf Ht]. destruct first; [done|]. apply negb_true_iff, bool_decide_eq_false in Ht.
        by destruct (chain_state_mismatch _ _ _ _ _ _ Hst Ht Hu).
      * assert (first = false -> ap_tenant_id y = tenant_id final) as Hsame.
        { intros ->. by apply negb_false_iff, bool_decide_eq_true in Hm. }
        exact (Hgo _ _ _ (chain_state_accepts _ _ _ _ _ Hst Hsame) Hr).
    + apply runs_ret_inv in Hr as [-> ->]. split; [done|]. intros t Hu.
      exfalso. eapply unanimous_refused; [|exact Hu]. by left.
  - destruct e; [|by apply (Hgo final first); [eapply chain_state_passes|]..].
    apply runs_ret_inv in Hr as [-> ->]. split; [done|]. intros t Hu.
    exfalso. eapply unanimous_refused; [|exact Hu]. by right.
Qed.

Lemma authorize_chain_verdicts r hooks : forall tr res, runs (authorize_chain r hooks) tr res ->
  (authorized res = true -> looked_up tr = rh_plugin_name <$> hooks) /\
  (authorized res = true <-> Forall (accepts_or_passes None) (authorize_verdict <$> answers tr)).
Proof.
  induction hooks as [|h hooks IH]; intros tr res Hr.
  { apply runs_ret_inv in Hr as [-> ->]. by repeat constructor. }
  cbn [authorize_chain] in Hr. apply runs_sender_inv in Hr as (p & tr1 & -> & Hr).
  destruct (active h p) as [[conn name]|] eqn:Hact; [|destruct (IH _ _ Hr) as [H3 H4];
    split; [intros Ha; by rewrite fmap_cons, <-(H3 Ha)|done]].
  apply runs_request_inv in Hr as (mid & x & tr2 & Hx & -> & Hr).
  cbn [answers omap list_omap answer_of looked_up looked_up_of c_op]. fold (answers tr2) (looked_up tr2).
  rewrite (fmap_cons authorize_verdict), Forall_cons. unfold authorize_verdict at 1.
  assert (Hgo : forall v, accepts_or_passes None v -> runs (authorize_chain r hooks) tr2 res ->
    (authorized res = true -> rh_plugin_name h :: looked_up tr2 = rh_plugin_name <$> h :: hooks) /\
    (authorized res = true <-> accepts_or_passes None v /\ Forall (accepts_or_passes None) (authorize_verdict <$> answers tr2))).
  { intros v Hv Hr'. destruct (IH _ _ Hr') as [H3 H4]. split; [intros Ha; by rewrite fmap_cons, <-(H3 Ha)|].
    rewrite H4. tauto. }
  assert (Hstop : forall v reason, v = Denies \/ v = TimesOut -> res = mkAuthorizeResult false reason ->
    (authorized res = true -> rh_plugin_name h :: looked_up tr2 = rh_plugin_name <$> h :: hooks) /\
    (authorized res = true <-> accepts_or_passes None v /\ Forall (accepts_or_passes None) (authorize_verdict <$> answers tr2))).
  { intros v reason Hv ->. split; [done|]. split; [done|]. intros [[->| ->] _]; naive_solver. }
  destruct x as [response|e| |]; [| |done..].
  - destruct (usable (A := AuthorizeResponse) _ response) as [y|]; [|apply Hgo; [by right|done]].
    destruct (zp_authorized y); simpl in Hr.
    + apply Hgo; [by left|done].
    + apply runs_ret_inv in Hr as [_ ->]. eapply Hstop; [by left|done].
  - destruct e; [|by apply Hgo; [right|]..]. apply runs_ret_inv in Hr as [_ ->]. eapply Hstop; [by right|done].
Qed.
End Verdicts.

(** ** The theorems *)

(** What a call to a registered plugin needs: the process that registered is the plugin's
    current one, runs, and is connected. *)
Definition consulted (h : RegisteredHook) (conn : Z) (tr : list (Call pop pres)) : Prop :=
  exists p, mkCall (R := pres) (CurrentPlugin (rh_plugin_name h)) (Some p) ∈ tr /\
    rp_auth_code p = rh_instance_id h /\ rp_state p = Running /\ rp_ipc p = Some conn.

Lemma active_Some h p conn name : active h p = Some (conn, name) ->
  exists q, p = Some q /\ rp_auth_code q = rh_instance_id h /\ rp_state q = Running /\ rp_ipc q = Some conn.
Proof.
  destruct p as [q|]; [|done]. simpl. case_decide as Hc; [done|]. case_decide as Hs; [|done].
  destruct (rp_ipc q) as [c|] eqn:Hi; [|done]. intros [= -> _]. by exists q.
Qed.

(** Where a step of a chain can be when it sends a request. *)
Lemma reaches_step_inv {A} h (mk : string * (Z * Z) -> ProtocolMessage) (skip : pprog A)
    (f : string -> outcome InflightError ProtocolMessage -> pprog A) tr conn msg :
  reaches (s ← get_registered_plugin_sender h;
           match s with
           | None => skip
           | Some (c, name) => mid ← call FreshMessage; answer ← call (SendAndWait c (mk mid)); f name answer
           end) tr (SendAndWait conn msg) ->
  (consulted h conn tr /\ exists mid, msg = mk mid) \/
  exists tr', tr' ⊆ tr /\
    (reaches skip tr' (SendAndWait conn msg) \/ exists name x, reaches (f name x) tr' (SendAndWait conn msg)).
Proof.
  intros [Hs|(t1 & s & t2 & Hs & Hr & ->)]%reaches_bind.
  { apply reaches_bind in Hs as [[_ ?]%reaches_plugin_call|(? & ? & ? & _ & [] & _)]. done. }
  apply runs_bind_inv in Hs as (t3 & p & t4 & [_ ->]%runs_plugin_call_inv & [-> ->]%runs_ret_inv & ->).
  rewrite app_nil_r. destruct (active h p) as [[c name]|] eqn:Ha.
  - apply active_Some in Ha as (q & -> & Hq).
    apply reaches_bind in Hr as [[_ ?]%reaches_plugin_call|(t5 & mid & t6 & [_ ->]%runs_plugin_call_inv & Hr & ->)]; [done|].
    apply reaches_bind in Hr as [[-> Heq]%reaches_plugin_call|(t7 & x & t8 & [_ ->]%runs_plugin_call_inv & Hr & ->)].
    + left. injection Heq as -> ->. split; [|eauto]. exists q. split; [set_solver|done].
    + right. exists t8. split; [set_solver|eauto].
  - right. exists t2. split; [set_solver|eauto].
Qed.

Lemma consulted_mono h conn tr tr' : tr ⊆ tr' -> consulted h conn tr -> consulted h conn tr'.
Proof. unfold consulted. set_solver. Qed.

Section Theorems.
Context `{Prost AuthorizeRequest, Prost AuthorizeResponse, Prost AuthenticateRequest, Prost AuthenticateResponse}.
Context (config : PluginHostConfig).

(** C25: where a plugin has registered for authentication, a client is accepted exactly
    when some plugin that was asked accepts it for a tenant and all the others accept it
    for the same tenant or give no usable answer; then every registration was
    considered, and the result names that tenant.  A denial, a timeout, two tenants, or
    nobody to ask refuse the client. *)
Theorem authentication_unanimous r m hooks tr res :
  get_hooks m HookAuthenticate = Some hooks -> runs (call_authenticate_hook config r m) tr res ->
  (authenticated res = true <-> exists t, unanimous (authenticate_verdict <$> answers tr) t) /\
  (authenticated res = true -> unanimous (authenticate_verdict <$> answers tr) (tenant_id res) /\
     looked_up tr = rh_plugin_name <$> hooks).
Proof.
  intros Hh. unfold call_authenticate_hook. rewrite Hh. intros Hr.
  destruct (authenticate_chain_verdicts r hooks _ _ _ [] tr res chain_state_start Hr)
    as [H3 H4].
  split; [|done]. split; [intros Ha; eexists; by apply H3|]. intros [t Ht]. by eapply H4.
Qed.

(** where a plugin has registered for authorization, an action is authorized exactly
    when no plugin that was asked denies it or times out; then every registration was
    considered. *)
Theorem authorization_rule r m hooks tr res :
  get_hooks m HookAuthorize = Some hooks -> runs (call_authorize_hook config r m) tr res ->
  (authorized res = true <-> Denies ∉ (authorize_verdict <$> answers tr) /\ TimesOut ∉ (authorize_verdict <$> answers tr)) /\
  (authorized res = true -> looked_up tr = rh_plugin_name <$> hooks).
Proof.
  intros Hh. unfold call_authorize_hook. rewrite Hh. intros Hr.
  destruct (authorize_chain_verdicts r hooks tr res Hr) as [H3 H4]. split; [|done]. rewrite H4. clear.
  induction (answers tr) as [|a l IH]; [cbn; split; [split; apply not_elem_of_nil|constructor]|].
  rewrite fmap_cons, Forall_cons, !not_elem_of_cons, IH. unfold accepts_or_passes.
  assert (authorize_verdict a = Accepts None \/ authorize_verdict a = Passes <->
          Denies <> authorize_verdict a /\ TimesOut <> authorize_verdict a) as ->; [|tauto].
  unfold authorize_verdict. destruct a as [x|[]| |]; try (destruct (usable _ x) as [y|]; [destruct (zp_authorized y)|]); naive_solver.
Qed.

(** when plugins have registered for authorization and none of them can be asked
    (they are starting, stopped, unhealthy or replaced), every action is authorized,
    whatever the configured default is; authentication refuses every client in the same
    situation. *)
Theorem unavailable_plugins_authorize r q m hooks hooks' tr tr' res res' :
  get_hooks m HookAuthorize = Some hooks -> get_hooks m HookAuthenticate = Some hooks' ->
  runs (call_authorize_hook config r m) tr res -> answers tr = [] ->
  runs (call_authenticate_hook config q m) tr' res' -> answers tr' = [] ->
  authorized res = true /\ authenticated res' = false.
Proof.
  intros Hh Hh' Hr Ha Hr' Ha'. unfold call_authorize_hook in Hr. rewrite Hh in Hr.
  unfold call_authenticate_hook in Hr'. rewrite Hh' in Hr'. split.
  - apply (authorize_chain_verdicts r hooks tr res Hr). rewrite Ha. constructor.
  - destruct (authenticate_chain_verdicts q hooks' _ _ _ [] tr' res' chain_state_start Hr')
      as [H3 _].
    apply not_true_is_false. intros Hres. destruct (H3 Hres) as [[Hin _] _]. rewrite Ha' in Hin.
    by apply not_elem_of_nil in Hin.
Qed.

Lemma authorize_asks r hooks : forall tr conn msg,
  reaches (authorize_chain r hooks) tr (SendAndWait conn msg) ->
  exists h, h ∈ hooks /\ consulted h conn tr /\
    pm_params msg = Some (mkAny AUTHORIZE_REQUEST_TYPE_URL (encode_to_vec r)).
Proof.
  induction hooks as [|h hooks IH]; intros tr conn msg Hr; [done|].
  cbn [authorize_chain] in Hr. apply reaches_step_inv in Hr as [[Hc [mid ->]]|(tr' & Hsub & Hr)].
  - exists h. split; [by left|]. by split.
  - assert (reaches (authorize_chain r hooks) tr' (SendAndWait conn msg)) as Hgo.
    { destruct Hr as [Hr|(name & x & Hr)]; [done|].
      destruct x as [y|[]| |]; try done. destruct (usable _ y) as [z|]; [|done]. by destruct (zp_authorized z). }
    destruct (IH _ _ _ Hgo) as (h' & Hin & Hc & Hm). exists h'. split; [by right|]. split; [|done].
    by eapply consulted_mono.
Qed.

Lemma authenticate_asks r hooks : forall final first called tr conn msg,
  reaches (authenticate_chain r final first called hooks) tr (SendAndWait conn msg) ->
  exists h, h ∈ hooks /\ consulted h conn tr /\
    pm_params msg = Some (mkAny AUTHENTICATE_REQUEST_TYPE_URL (encode_to_vec r)).
Proof.
  induction hooks as [|h hooks IH]; intros final first called tr conn msg Hr; [done|].
  cbn [authenticate_chain] in Hr. apply reaches_step_inv in Hr as [[Hc [mid ->]]|(tr' & Hsub & Hr)].
  - exists h. split; [by left|]. by split.
  - assert (exists final' first' called',
      reaches (authenticate_chain r final' first' called' hooks) tr' (SendAndWait conn msg)) as (f' & b' & c' & Hgo).
    { destruct Hr as [Hr|(name & x & Hr)]; [eauto|].
      destruct x as [y|[]| |]; try done; eauto. destruct (usable _ y) as [z|]; [|eauto].
      destruct (ap_authenticated z); [|done]. destruct (_ && _); [done|eauto]. }
    destruct (IH _ _ _ _ _ _ Hgo) as (h' & Hin & Hc & Hm). exists h'. split; [by right|]. split; [|done].
    by eapply consulted_mono.
Qed.

(** a request to authenticate or to authorize goes only to a connected process that
    is the plugin's current one, is running and has registered for the hook itself, as the
    call has just read in the table; and it carries the request as it was made. *)
Theorem only_current_instances_asked m tr conn msg :
  (forall r, reaches (call_authorize_hook config r m) tr (SendAndWait conn msg) ->
     exists h, registered m HookAuthorize h /\ consulted h conn tr /\
       pm_params msg = Some (mkAny AUTHORIZE_REQUEST_TYPE_URL (encode_to_vec r))) /\
  (forall r, reaches (call_authenticate_hook config r m) tr (SendAndWait conn msg) ->
     exists h, registered m HookAuthenticate h /\ consulted h conn tr /\
       pm_params msg = Some (mkAny AUTHENTICATE_REQUEST_TYPE_URL (encode_to_vec r))).
Proof.
  unfold call_authorize_hook, call_authenticate_hook, get_hooks, registered. split; intros r Hr.
  - destruct (m !! HookAuthorize) as [hooks|]; [|done].
    destruct (authorize_asks _ _ _ _ _ Hr) as (h & Hin & Hc). eauto.
  - destruct (m !! HookAuthenticate) as [hooks|]; [|done].
    destruct (authenticate_asks _ _ _ _ _ _ _ _ Hr) as (h & Hin & Hc). eauto.
Qed.
End Theorems.

Module HookSample.
Import HostSample.

(** Formats of one byte: 1 accepts for the tenant [t], 0 denies. *)
#[export] Instance authenticate_request : Prost AuthenticateRequest := {|
  encode_to_vec _ := []; prost_decode _ := Err "unused"%string |}.
#[export] Instance authorize_request : Prost AuthorizeRequest := {|
  encode_to_vec _ := []; prost_decode _ := Err "unused"%string |}.
#[export] Instance authenticate_response : Prost AuthenticateResponse := {|
  encode_to_vec r := [if ap_authenticated r then 1 else 0];
  prost_decode b := match b with
    | [1] => Ok (mkAuthenticateResponse true [] None None (Some "t"%string))
    | [0] => Ok (mkAuthenticateResponse false [] None None None)
    | _ => Err "malformed"%string end;
|}.
#[export] Instance authorize_response : Prost AuthorizeResponse := {|
  encode_to_vec r := [if zp_authorized r then 1 else 0];
  prost_decode b := match b with
    | [1] => Ok (mkAuthorizeResponse true None None)
    | [0] => Ok (mkAuthorizeResponse false None None)
    | _ => Err "malformed"%string end;
|}.

Definition deny_all : PluginHostConfig := mkConfig false false.
Definition credentials : AuthenticateRequest := mkAuthenticateRequest "c" "u" "p" "127.0.0.1" [] "5.0" None.
Definition publish : AuthorizeRequest := mkAuthorizeRequest "t" "c" "u" AuthPublish "a/b" 1 None.
(** Two plugins, the second of which is an old process. *)
Definition hooks : HookManager :=
  <[HookAuthenticate := [mkRegistered "p" "code" 1; mkRegistered "q" "old" 2]]>
  (<[HookAuthorize := [mkRegistered "p" "code" 1; mkRegistered "q" "old" 2]]> ∅).
Definition plugin (name code : string) : RunningPlugin :=
  initialized 5 declared (started_plugin name (mkPrepared code manifest) 0 0).
Definition answer (url : string) (b : Z) : ProtocolMessage :=
  mkMessage "1.0.0" 2 "id" None "plugin" "plugin_host" None None (Some (mkAny url [b])) None ∅.
End HookSample.
Import HookSample.

Lemma authentication_unanimous_witness : exists tr,
  runs (call_authenticate_hook deny_all credentials hooks) tr (mkAuthenticateResult true None (Some "t"%string)) /\
  unanimous (authenticate_verdict <$> answers tr) (Some "t"%string) /\ looked_up tr = ["p"; "q"]%string.
Proof.
  assert (exists tr, runs (call_authenticate_hook deny_all credentials hooks) tr
                       (mkAuthenticateResult true None (Some "t"%string))) as [tr Htr].
  { eexists. eapply (runs_next (R := pres) (CurrentPlugin "p") _ (Some (plugin "p" "code"))); [exact I|].
    eapply (runs_next (R := pres) FreshMessage _ ("1"%string, (0, 0))); [exact I|].
    eapply (runs_next (R := pres) (SendAndWait _ _) _ (Ok (answer AUTHENTICATE_RESPONSE_TYPE_URL 1))); [exact I|].
    eapply (runs_next (R := pres) (CurrentPlugin "q") _ (Some (plugin "q" "new"))); [exact I|].
    eapply runs_end. }
  exists tr. split; [exact Htr|].
  destruct (authentication_unanimous deny_all credentials hooks _ tr _ eq_refl Htr) as [_ Hu].
  apply Hu. reflexivity.
Defined.

Lemma authorization_rule_witness : exists tr res,
  runs (call_authorize_hook deny_all publish hooks) tr res /\ authorized res = false /\
  ~ (Denies ∉ (authorize_verdict <$> answers tr) /\ TimesOut ∉ (authorize_verdict <$> answers tr)).
Proof.
  assert (exists tr res, runs (call_authorize_hook deny_all publish hooks) tr res /\ authorized res = false)
    as (tr & res & Htr & Hres).
  { eexists _, _. split.
    - eapply (runs_next (R := pres) (CurrentPlugin "p") _ (Some (plugin "p" "code"))); [exact I|].
      eapply (runs_next (R := pres) FreshMessage _ ("1"%string, (0, 0))); [exact I|].
      eapply (runs_next (R := pres) (SendAndWait _ _) _ (Err IfTimeout)); [exact I|].
      eapply runs_end.
    - reflexivity. }
  exists tr, res. split; [exact Htr|]. split; [exact Hres|].
  destruct (authorization_rule deny_all publish hooks _ tr res eq_refl Htr) as [Hiff _].
  rewrite <-Hiff, Hres. discriminate.
Defined.

Lemma unavailable_plugins_authorize_witness : exists tr tr' res res',
  runs (call_authorize_hook deny_all publish hooks) tr res /\
  runs (call_authenticate_hook deny_all credentials hooks) tr' res' /\
  authorized res = true /\ authenticated res' = false.
Proof.
  assert (exists tr res, runs (call_authorize_hook deny_all publish hooks) tr res /\ answers tr = [])
    as (tr & res & Htr & Ha).
  { eexists _, _. split.
    - eapply (runs_next (R := pres) (CurrentPlugin "p") _ None); [exact I|].
      eapply (runs_next (R := pres) (CurrentPlugin "q") _ None); [exact I|]. eapply runs_end.
    - reflexivity. }
  assert (exists tr res, runs (call_authenticate_hook deny_all credentials hooks) tr res /\ answers tr = [])
    as (tr' & res' & Htr' & Ha').
  { eexists _, _. split.
    - eapply (runs_next (R := pres) (CurrentPlugin "p") _ None); [exact I|].
      eapply (runs_next (R := pres) (CurrentPlugin "q") _ None); [exact I|]. eapply runs_end.
    - reflexivity. }
  exists tr, tr', res, res'. split; [exact Htr|]. split; [exact Htr'|].
  exact (unavailable_plugins_authorize deny_all publish credentials hooks _ _ tr tr' res res'
    eq_refl eq_refl Htr Ha Htr' Ha').
Defined.

Lemma only_current_instances_asked_witness : exists tr conn msg h,
  reaches (call_authorize_hook deny_all publish hooks) tr (SendAndWait conn msg) /\
  registered hooks HookAuthorize h /\ consulted h conn tr.
Proof.
  assert (exists tr msg, reaches (call_authorize_hook deny_all publish hooks) tr (SendAndWait 5 msg)) as (tr & msg & Htr).
  { eexists _, _. eapply (reaches_next (R := pres) (CurrentPlugin "p") _ _ (Some (plugin "p" "code"))); [exact I|].
    eapply (reaches_next (R := pres) FreshMessage _ _ ("1"%string, (0, 0))); [exact I|]. eapply reaches_here. }
  destruct (proj1 (only_current_instances_asked deny_all hooks tr 5 msg) publish Htr) as (h & Hh & Hc & _).
  exists tr, 5, msg, h. split; [exact Htr|]. split; [exact Hh|exact Hc].
Defined.
