(* ===== verification/PluginFrame.v ===== *)
(** * Frames between host and plugins ([plugin_host/src/protocol/protocol_frame.rs])

    A frame is a magic number, a version, the length of the payload and the payload, a
    protobuf message.  [decode] is called again whenever more bytes have arrived
    ([Framed]); it takes a frame off the buffer once it is complete.

    The theorems: what the codec writes is read back frame by frame however the stream is
    cut, and the buffer of an incomplete frame is bounded by the size limit. *)

From S2P Require Import Prelude PluginHost.

#[local] Open Scope Z_scope.

Definition MAGIC_NUMBER : Z := 0x5514.
Definition PROTOCOL_VERSION : Z := 1.
Definition FRAME_HEADER_SIZE : Z := 9.

Record ProtocolFrame := mkFrame { fr_magic_number : Z; fr_version : Z; fr_length : Z; fr_payload : bytes }.

Definition frame_new (payload : bytes) : ProtocolFrame :=
  mkFrame MAGIC_NUMBER PROTOCOL_VERSION (as_u32 (zlen payload)) payload.

Inductive FrameError :=
  | InvalidMagic (got : Z)
  | UnsupportedVersion (got : Z)
  | LengthMismatch (header actual : Z)
  | FrameTooLarge (length max : Z)
  | DecodeFailed (e : string).

Definition validate (f : ProtocolFrame) : outcome FrameError unit :=
  if negb (fr_magic_number f =? MAGIC_NUMBER) then Err (InvalidMagic (fr_magic_number f))
  else if negb (fr_version f =? PROTOCOL_VERSION) then Err (UnsupportedVersion (fr_version f))
  else if negb (fr_length f =? as_u32 (zlen (fr_payload f))) then Err (LengthMismatch (fr_length f) (zlen (fr_payload f)))
  else Ok tt.

Definition total_size (f : ProtocolFrame) : Z := FRAME_HEADER_SIZE + zlen (fr_payload f).

Definition default_max_frame_size : Z := 4 * 1024 * 1024.

Section Codec.
Context (max_frame_size : Z).

(** What is left of the buffer, and the frame if there is a complete one. *)
Definition decode (src : bytes) : outcome FrameError (option ProtocolFrame * bytes) :=
  match src with
  | m0 :: m1 :: m2 :: m3 :: version :: l0 :: l1 :: l2 :: l3 :: rest =>
      let magic_number := from_be_u32 m0 m1 m2 m3 in
      let length := from_be_u32 l0 l1 l2 l3 in
      if negb (magic_number =? MAGIC_NUMBER) then Err (InvalidMagic magic_number)
      else if negb (version =? PROTOCOL_VERSION) then Err (UnsupportedVersion version)
      else if max_frame_size <? length then Err (FrameTooLarge length max_frame_size)
      else if zlen src <? FRAME_HEADER_SIZE + length then Ok (None, src)
      else
        '(payload, rest) ← split_at (Z.to_nat length) rest;
        Ok (Some (mkFrame magic_number version length payload), rest)
  | _ => Ok (None, src)
  end.

Definition encode (item : ProtocolFrame) (dst : bytes) : outcome FrameError bytes :=
  if max_frame_size <? zlen (fr_payload item) then Err (FrameTooLarge (zlen (fr_payload item)) max_frame_size)
  else Ok (dst ++ be_u32 (fr_magic_number item) ++ [fr_version item] ++ be_u32 (fr_length item) ++ fr_payload item).

(** The two encoders of messages, and the decoder of [ProtocolMessageCodec]. *)
Definition encode_message `{Prost ProtocolMessage} (item : ProtocolMessage) (dst : bytes) : outcome FrameError bytes :=
  encode (frame_new (encode_to_vec item)) dst.
Definition to_message `{Prost ProtocolMessage} (f : ProtocolFrame) : outcome FrameError ProtocolMessage :=
  map_err DecodeFailed (prost_decode (fr_payload f)).
Definition decode_message `{Prost ProtocolMessage} (src : bytes)
    : outcome FrameError (option ProtocolMessage * bytes) :=
  '(frame, rest) ← decode src;
  match frame with
  | Some frame => message ← to_message frame; Ok (Some message, rest)
  | None => Ok (None, rest)
  end.

(** [Framed]: a chunk is appended to the buffer, and what is complete is taken. *)
Fixpoint drain (fuel : nat) (src : bytes) : outcome FrameError (list ProtocolFrame * bytes) :=
  match fuel with
  | O => OutOfFuel
  | S fuel =>
      '(frame, rest) ← decode src;
      match frame with
      | Some frame => '(frames, rest) ← drain fuel rest; Ok (frame :: frames, rest)
      | None => Ok ([], rest)
      end
  end.
Fixpoint feed (chunks : list bytes) (buffer : bytes) : outcome FrameError (list ProtocolFrame * bytes) :=
  match chunks with
  | [] => Ok ([], buffer)
  | chunk :: chunks =>
      '(frames, rest) ← drain (S (length (buffer ++ chunk))) (buffer ++ chunk);
      '(frames', rest) ← feed chunks rest;
      Ok (frames ++ frames', rest)
  end.

(** ** The wire format *)

Definition header (payload : bytes) : bytes :=
  be_u32 MAGIC_NUMBER ++ [PROTOCOL_VERSION] ++ be_u32 (zlen payload).
Definition wire (payload : bytes) : bytes := header payload ++ payload.
Definition fits (payload : bytes) : Prop := zlen payload <= max_frame_size.

Hypothesis max_u32 : max_frame_size <= u32_max.

Lemma fits_u32 p : fits p -> as_u32 (zlen p) = zlen p.
Proof.
  intros Hp. unfold as_u32. apply Z.mod_small. unfold fits, u32_max in *. pose proof (zlen_nonneg p). lia.
Qed.

Lemma encode_wire p dst : fits p -> encode (frame_new p) dst = Ok (dst ++ wire p).
Proof.
  intros Hp. unfold encode. simpl. rewrite (proj2 (Z.ltb_ge _ _)) by done. rewrite fits_u32 by done. done.
Qed.

Lemma decode_header p rest : fits p ->
  decode (header p ++ rest) =
    if zlen rest <? zlen p then Ok (None, header p ++ rest)
    else '(payload, rest) ← split_at (length p) rest; Ok (Some (mkFrame MAGIC_NUMBER PROTOCOL_VERSION (zlen p) payload), rest).
Proof.
  intros Hp. unfold header, be_u32, decode. cbn [app]. rewrite !from_be_u32_be. rewrite !Z.eqb_refl. simpl negb. cbn iota.
  rewrite (proj2 (Z.ltb_ge _ _)) by done. rewrite zlen_to_nat.
  set (l := (_ :: _)). assert (zlen l = 9 + zlen rest) as -> by (subst l; autorewrite with zlen; lia).
  unfold FRAME_HEADER_SIZE. destruct (Z.ltb_spec (9 + zlen rest) (9 + zlen p)), (Z.ltb_spec (zlen rest) (zlen p)); try lia; done.
Qed.

Lemma decode_wire p rest : fits p -> decode (wire p ++ rest) = Ok (Some (frame_new p), rest).
Proof.
  intros Hp. unfold wire. rewrite <-app_assoc, decode_header by done.
  rewrite (proj2 (Z.ltb_ge _ _)) by (rewrite zlen_app; pose proof (zlen_nonneg rest); lia).
  rewrite split_at_app. simpl. unfold frame_new. by rewrite fits_u32.
Qed.

Lemma length_header p : length (header p) = 9%nat.
Proof. done. Qed.

Lemma decode_partial p l k : fits p -> wire p = l ++ k -> k <> [] -> decode l = Ok (None, l).
Proof.
  intros Hp Hw Hk. destruct (decide (9 <= length l)%nat) as [Hl|Hl].
  - assert (exists l', l = header p ++ l' /\ p = l' ++ k) as (l' & -> & Hp').
    { exists (drop 9 l). assert (take 9 l = header p) as Ht.
      { transitivity (take 9 (wire p)); [rewrite Hw, take_app_le by lia; done|].
        unfold wire. by rewrite <-(length_header p), take_app_length. }
      split; [by rewrite <-Ht, take_drop|]. rewrite <-(take_drop 9 l), Ht, <-app_assoc in Hw.
      unfold wire in Hw. by apply app_inv_head in Hw. }
    rewrite decode_header by done. rewrite (proj2 (Z.ltb_lt _ _)); [done|].
    rewrite Hp', zlen_app. destruct k; [done|]. rewrite zlen_cons. pose proof (zlen_nonneg k). lia.
  - unfold decode. do 9 (destruct l as [|? l]; [done|]). simpl in Hl. lia.
Qed.

(** A stream of frames, cut anywhere: the complete frames and the start of another. *)
Lemma stream_cut ps : forall l k, concat (map wire ps) = l ++ k ->
  exists ps1 ps2 tail, ps = ps1 ++ ps2 /\ l = concat (map wire ps1) ++ tail /\
    tail ++ k = concat (map wire ps2) /\
    (tail = [] \/ exists p ps', ps2 = p :: ps' /\ exists k', k' <> [] /\ wire p = tail ++ k').
Proof.
  induction ps as [|p ps IH]; intros l k Hs; cbn [map concat] in Hs.
  { symmetry in Hs. apply app_nil in Hs as [-> ->]. exists [], [], []. auto. }
  destruct (decide (length (wire p) <= length l)%nat) as [Hl|Hl].
  - assert (exists l', l = wire p ++ l') as (l' & ->).
    { exists (drop (length (wire p)) l). rewrite <-(take_drop (length (wire p)) l) at 1. f_equal.
      transitivity (take (length (wire p)) (wire p ++ concat (map wire ps))); [|by rewrite take_app_length].
      by rewrite Hs, take_app_le. }
    rewrite <-app_assoc in Hs. apply app_inv_head in Hs.
    destruct (IH _ _ Hs) as (ps1 & ps2 & tail & -> & -> & Ht & Hc).
    exists (p :: ps1), ps2, tail. split; [done|]. split; [cbn [map concat]; by rewrite app_assoc|done].
  - exists [], (p :: ps), l. split; [done|]. split; [done|]. split; [done|]. right. exists p, ps. split; [done|].
    exists (drop (length l) (wire p)). split.
    + intros H0. apply (f_equal length) in H0. rewrite length_drop in H0. change (length (@nil Z)) with 0%nat in H0. lia.
    + rewrite <-(take_drop (length l) (wire p)) at 1. f_equal.
      transitivity (take (length l) (wire p ++ concat (map wire ps))); [by rewrite take_app_le by lia|].
      by rewrite Hs, take_app_length.
Qed.

Lemma drain_stream ps tail fuel : Forall fits ps -> decode tail = Ok (None, tail) -> (length ps < fuel)%nat ->
  drain fuel (concat (map wire ps) ++ tail) = Ok (map frame_new ps, tail).
Proof.
  intros Hps Ht. revert fuel. induction Hps as [|p ps Hp _ IH]; intros [|fuel] Hf; simpl in Hf; try lia; cbn [map concat drain].
  - simpl. by rewrite Ht.
  - rewrite <-app_assoc, decode_wire by done. simpl. rewrite IH by lia. done.
Qed.

Lemma stream_length ps tail : (length ps < S (length (concat (map wire ps) ++ tail)))%nat.
Proof.
  rewrite length_app. enough (length ps <= length (concat (map wire ps)))%nat by lia.
  induction ps as [|p ps IH]; cbn [map concat length]; [lia|]. rewrite length_app.
  assert (9 <= length (wire p))%nat by (unfold wire; rewrite length_app, length_header; lia). lia.
Qed.

Lemma feed_stream chunks : forall buffer ps, Forall fits ps ->
  decode buffer = Ok (None, buffer) -> buffer ++ concat chunks = concat (map wire ps) ->
  feed chunks buffer = Ok (map frame_new ps, []) \/
  (chunks = [] /\ feed chunks buffer = Ok ([], buffer)).
Proof.
  induction chunks as [|c chunks IH]; intros buffer ps Hps Hb Hs; [right; done|]. left.
  simpl in Hs. rewrite app_assoc in Hs.
  destruct (stream_cut ps _ _ (eq_sym Hs)) as (ps1 & ps2 & tail & -> & Hbc & Ht & Hc).
  apply Forall_app in Hps as [H1 H2].
  assert (decode tail = Ok (None, tail)) as Hd.
  { destruct Hc as [->|(p & ps' & -> & k' & Hk & Hw)]; [done|]. apply Forall_cons in H2 as [Hp _].
    by eapply decode_partial. }
  cbn [feed]. rewrite Hbc, drain_stream; [|done..|apply stream_length]. simpl.
  destruct (IH tail ps2 H2 Hd Ht) as [->|[-> ->]]; simpl; [by rewrite map_app|].
  rewrite app_nil_r in Ht. destruct Hc as [->|(p & ps' & -> & k' & Hk & Hw)].
  - destruct ps2 as [|p ps']; [by rewrite !app_nil_r|]. cbn [map concat] in Ht. by destruct (wire p) eqn:?.
  - exfalso. cbn [map concat] in Ht. rewrite Hw, <-app_assoc in Ht. rewrite <-(app_nil_r tail) in Ht at 1.
    apply app_inv_head in Ht. symmetry in Ht. by apply app_nil in Ht as [? _].
Qed.
End Codec.

(** the frames that host or plugin writes one after another are read back in order
    with their payloads, however the stream is cut into chunks, and nothing is left over:
    encoding succeeds for every payload within the size limit. *)
Theorem frames_read_in_order max ps chunks :
  max <= u32_max -> Forall (fits max) ps ->
  exists out, foldl (fun dst p => dst ≫= encode max (frame_new p)) (Ok []) ps = Ok out /\
    (concat chunks = out -> chunks <> [] -> feed max chunks [] = Ok (map frame_new ps, [])).
Proof.
  intros Hm Hps. exists (concat (map wire ps)). split.
  - enough (forall dst, foldl (fun dst p => dst ≫= encode max (frame_new p)) (Ok dst) ps =
      Ok (dst ++ concat (map wire ps))) as H by apply H.
    induction Hps as [|p ps Hp _ IH]; intros dst; cbn [foldl map concat]; [by rewrite app_nil_r|].
    cbn [mbind outcome_bind]. rewrite encode_wire, IH by done. by rewrite app_assoc.
  - intros Hc Hne. destruct (feed_stream max Hm chunks [] ps Hps eq_refl Hc) as [?|[? _]]; done.
Qed.

(** A frame that is not complete holds less than its header and the size limit. *)
Lemma incomplete_bounded max src rest : 0 <= max -> decode max src = Ok (None, rest) ->
  rest = src /\ zlen src < FRAME_HEADER_SIZE + max.
Proof.
  intros Hm. unfold decode. do 9 (destruct src as [|? src]; [intros [= <-]; split; [done|]; unfold zlen, FRAME_HEADER_SIZE; simpl; lia|]).
  case_match; [done|]. case_match; [done|]. destruct (Z.ltb_spec max (from_be_u32 z4 z5 z6 z7)); [done|].
  destruct (Z.ltb_spec (zlen (z :: z0 :: z1 :: z2 :: z3 :: z4 :: z5 :: z6 :: z7 :: src))
    (FRAME_HEADER_SIZE + from_be_u32 z4 z5 z6 z7)); [intros [= <-]; split; [done|lia]|].
  intros Hr. apply bind_Ok in Hr as ([payload r] & _ & ?). done.
Qed.

Lemma frames_read_in_order_witness :
  feed default_max_frame_size
    [[0; 0; 85; 20; 1; 0]; [0; 0; 2; 7]; [8; 0; 0; 85; 20; 1; 0; 0; 0; 0]] []
  = Ok ([frame_new [7; 8]; frame_new []], []).
Proof.
  destruct (frames_read_in_order default_max_frame_size [[7; 8]; []]
    [[0; 0; 85; 20; 1; 0]; [0; 0; 2; 7]; [8; 0; 0; 85; 20; 1; 0; 0; 0; 0]]) as (out & Hout & Hfeed);
    [vm_compute; discriminate|repeat constructor; vm_compute; discriminate|].
  apply Hfeed; [|discriminate]. vm_compute in Hout. injection Hout as <-. reflexivity.
Defined.
