(* ===== verification/AclPlugin.v ===== *)
(** * The access control plugin ([example_plugins/acl_file/src/lib.rs])

    A plugin that authenticates and authorizes by the rules of a file.  The rules are
    tried in order; the first that matches decides, and nothing matches is a denial.

    The theorems: the decision is that of the first matching rule; and the broker that has
    this plugin alone to ask for authorization does what the rules say, through the
    messages of the plugin protocol. *)

From S2P Require Import Prelude Program Traces MqttProperties SessionActor HookManager PluginHost PluginHooks.

#[local] Open Scope Z_scope.

Inductive RuleAction := Allow | Deny.

Record AuthenticateRule := mkAuthenticateRule {
  nr_action : RuleAction;
  nr_tenant : option string;
  nr_username : list string;
  nr_password : list string;
  nr_client_ip : list string;
}.
Record AuthorizeRule := mkAuthorizeRule {
  zr_action : RuleAction;
  zr_tenant : list string;
  zr_username : list string;
  zr_subscribe : list string;
  zr_publish : list string;
}.
(** The sections are the lists of their rules. *)
Record AclConfig := mkAclConfig {
  acl_authenticate : option (list AuthenticateRule);
  acl_authorize : option (list AuthorizeRule);
}.

Definition WILDCARD : string := "%".
Definition DEFAULT_TENANT : string := "public".

Definition declared_hooks (config : AclConfig) (authenticate_priority authorize_priority : Z) : list HookDeclaration :=
  (if acl_authenticate config is Some _ then [mkDeclaration "Authenticate" authenticate_priority None] else [])
  ++ (if acl_authorize config is Some _ then [mkDeclaration "Authorize" authorize_priority None] else []).

Definition matches_patterns (patterns : list string) (value : string) : bool :=
  existsb (fun pattern => bool_decide (pattern = WILDCARD) || bool_decide (pattern = value)) patterns.

(** ** Authentication *)

Definition denied_response (reason : string) : AuthenticateResponse :=
  mkAuthenticateResponse false [] None (Some reason) None.

Definition authenticate_matches (r : AuthenticateRequest) (rule : AuthenticateRule) : bool :=
  matches_patterns (nr_username rule) (an_username r) && matches_patterns (nr_password rule) (an_password r)
  && matches_patterns (nr_client_ip rule) (an_client_ip r).

Fixpoint authenticate_rules (r : AuthenticateRequest) (rules : list AuthenticateRule) : AuthenticateResponse :=
  match rules with
  | [] => denied_response "no authenticate ACL rule matched"
  | rule :: rules =>
      if authenticate_matches r rule then
        match nr_action rule with
        | Allow => mkAuthenticateResponse true [] None None (Some (from_option id DEFAULT_TENANT (nr_tenant rule)))
        | Deny => denied_response "denied by authenticate ACL rule"
        end
      else authenticate_rules r rules
  end.
Definition acl_authenticate_request (config : AclConfig) (r : AuthenticateRequest) : AuthenticateResponse :=
  match acl_authenticate config with
  | Some rules => authenticate_rules r rules
  | None => denied_response "authenticate ACL is not configured"
  end.

(** ** Authorization *)

(** The request as it is on the wire: the action is a number. *)
Record WireAuthorizeRequest := mkWireRequest {
  wr_tenant_id : string;
  wr_client_id : string;
  wr_username : string;
  wr_action : Z;
  wr_topic : string;
  wr_qos : Z;
  wr_context : option Struct;
}.
Definition action_number (a : AuthAction) : Z := match a with AuthPublish => 2 | AuthSubscribe => 3 end.
Definition wire_request (r : AuthorizeRequest) : WireAuthorizeRequest :=
  mkWireRequest (ar_tenant_id r) (ar_client_id r) (ar_username r) (action_number (ar_action r)) (ar_topic r)
    (ar_qos r) (ar_context r).

(** The actions a rule can speak of; the others are refused. *)
Definition acl_action (n : Z) : option AuthAction :=
  if n =? 2 then Some AuthPublish else if n =? 3 then Some AuthSubscribe else None.

Definition refused (reason : string) : AuthorizeResponse := mkAuthorizeResponse false (Some reason) None.

Definition topic_patterns (a : AuthAction) (rule : AuthorizeRule) : list string :=
  match a with AuthPublish => zr_publish rule | AuthSubscribe => zr_subscribe rule end.

Fixpoint authorize_rules (a : AuthAction) (r : WireAuthorizeRequest) (rules : list AuthorizeRule) : AuthorizeResponse :=
  match rules with
  | [] => refused "no authorize ACL rule matched"
  | rule :: rules =>
      match topic_patterns a rule with
      | [] => authorize_rules a r rules
      | patterns =>
          if matches_patterns (zr_tenant rule) (wr_tenant_id r) && matches_patterns (zr_username rule) (wr_username r)
             && matches_patterns patterns (wr_topic r)
          then match zr_action rule with
               | Allow => mkAuthorizeResponse true None None
               | Deny => refused "denied by authorize ACL rule"
               end
          else authorize_rules a r rules
      end
  end.
Definition acl_authorize_request (config : AclConfig) (r : WireAuthorizeRequest) : AuthorizeResponse :=
  match acl_authorize config with
  | Some rules =>
      match acl_action (wr_action r) with
      | Some a => authorize_rules a r rules
      | None => refused ("unsupported authorize action " +:+ pretty (wr_action r))
      end
  | None => refused "authorize ACL is not configured"
  end.

(** ** Requests of the host *)

Record AclPlugin := mkAclPlugin {
  acl_config : AclConfig;
  acl_auth_code : string;
  acl_authenticate_priority : Z;
  acl_authorize_priority : Z;
}.

Definition response_message (request : ProtocolMessage) (url : string) (value : bytes) (now : Z * Z) : ProtocolMessage :=
  mkMessage (pm_version request) (message_type_number MtResponse) (pm_id request) (Some now) "acl_file" "plugin_host"
    None None (Some (mkAny url value)) None ∅.

Definition decode_params {A} `{Prost A} (request : ProtocolMessage) (url : string) : outcome string A :=
  match pm_params request with
  | None => Err "missing request params"%string
  | Some p => if decide (type_url p = url) then prost_decode (any_value p) else Err "unexpected type_url"%string
  end.

Section Plugin.
Context `{Prost InitializeResponse, Prost AuthenticateRequest, Prost AuthenticateResponse,
  Prost AuthorizeResponse}.
(** [InitializeRequest] is decoded and dropped. *)
Context `{decode_request : Prost WireAuthorizeRequest} {InitRequest : Type} `{Prost InitRequest}.

Definition handle_acl_request (plugin : AclPlugin) (request : ProtocolMessage) (now : Z * Z)
    : outcome string ProtocolMessage :=
  match method_of (pm_method request) with
  | MInitialize =>
      decode_params (A := InitRequest) request INIT_REQUEST_TYPE_URL;;
      Ok (response_message request INIT_RESPONSE_TYPE_URL
           (encode_to_vec (mkInitialized "ready" []
              (declared_hooks (acl_config plugin) (acl_authenticate_priority plugin) (acl_authorize_priority plugin))
              None (acl_auth_code plugin))) now)
  | MAuthenticate =>
      r ← decode_params request AUTHENTICATE_REQUEST_TYPE_URL;
      Ok (response_message request AUTHENTICATE_RESPONSE_TYPE_URL
           (encode_to_vec (acl_authenticate_request (acl_config plugin) r)) now)
  | MAuthorize =>
      r ← decode_params request AUTHORIZE_REQUEST_TYPE_URL;
      Ok (response_message request AUTHORIZE_RESPONSE_TYPE_URL
           (encode_to_vec (acl_authorize_request (acl_config plugin) r)) now)
  | MPing => Ok (response_message request PING_RESPONSE_TYPE_URL [] now)
  | _ => Err "unsupported method"%string
  end.
End Plugin.

(** ** What the rules mean *)

Definition pattern_matches (patterns : list string) (value : string) : Prop :=
  WILDCARD ∈ patterns \/ value ∈ patterns.
Lemma matches_patterns_spec patterns value :
  matches_patterns patterns value = true <-> pattern_matches patterns value.
Proof.
  unfold matches_patterns, pattern_matches. rewrite existsb_exists.
  setoid_rewrite orb_true_iff. setoid_rewrite bool_decide_eq_true. setoid_rewrite <-list_elem_of_In. naive_solver.
Qed.

(** The rule speaks of the action, the tenant, the user and the topic. *)
Definition rule_matches (a : AuthAction) (r : WireAuthorizeRequest) (rule : AuthorizeRule) : Prop :=
  pattern_matches (zr_tenant rule) (wr_tenant_id r) /\ pattern_matches (zr_username rule) (wr_username r) /\
  pattern_matches (topic_patterns a rule) (wr_topic r).

(** The first rule with a property. *)
Definition first_with {A} (P : A -> Prop) (l : list A) (x : A) : Prop :=
  exists l1 l2, l = l1 ++ x :: l2 /\ Forall (fun y => ~ P y) l1 /\ P x.

Lemma first_with_cons {A} (P : A -> Prop) y l x :
  first_with P (y :: l) x <-> (P y /\ x = y) \/ (~ P y /\ first_with P l x).
Proof.
  split.
  - intros ([|z l1] & l2 & Heq & Hall & Hx); simplify_eq/=; [by left|]. apply Forall_cons in Hall as [Hz Hall].
    right. split; [done|]. by exists l1, l2.
  - intros [[Hy ->]|[Hy (l1 & l2 & -> & Hall & Hx)]]; [by exists [], l|]. exists (y :: l1), l2.
    split; [done|]. split; [by constructor|done].
Qed.
Lemma first_with_nil {A} (P : A -> Prop) x : ~ first_with P [] x.
Proof. by intros ([|] & l2 & ? & _). Qed.

#[local] Arguments matches_patterns : simpl never.

Lemma authorize_rules_first a r rules :
  zp_authorized (authorize_rules a r rules) = true <->
  exists rule, first_with (rule_matches a r) rules rule /\ zr_action rule = Allow.
Proof.
  induction rules as [|rule rules IH]; simpl.
  { split; [done|]. by intros (? & ?%first_with_nil & _). }
  setoid_rewrite first_with_cons.
  assert (rule_matches a r rule <->
    topic_patterns a rule <> [] /\
    matches_patterns (zr_tenant rule) (wr_tenant_id r) && matches_patterns (zr_username rule) (wr_username r)
      && matches_patterns (topic_patterns a rule) (wr_topic r) = true) as Hm.
  { unfold rule_matches. rewrite !andb_true_iff, !matches_patterns_spec. split; [|naive_solver].
    intros (H1 & H2 & H3). split; [|done]. intros H0. rewrite H0 in H3. destruct H3 as [H3|H3]; by apply not_elem_of_nil in H3. }
  destruct (topic_patterns a rule) as [|x l] eqn:Ht.
  - rewrite IH. naive_solver.
  - destruct (_ && matches_patterns (x :: l) (wr_topic r)) eqn:He.
    + assert (rule_matches a r rule). { by apply Hm; split. } destruct (zr_action rule) eqn:Ha; simpl; split; try done.
      * intros _. exists rule. auto.
      * intros (rule' & [[_ ->]|[Hn _]] & Hx); [congruence|done].
    + assert (~ rule_matches a r rule) by (intros [_ Hx]%Hm; done). rewrite IH. naive_solver.
Qed.

(** Which requests the rules allow. *)
Definition acl_allows (config : AclConfig) (r : AuthorizeRequest) : Prop :=
  exists rules rule, acl_authorize config = Some rules /\
    first_with (rule_matches (ar_action r) (wire_request r)) rules rule /\ zr_action rule = Allow.

Lemma acl_authorize_spec config r :
  zp_authorized (acl_authorize_request config (wire_request r)) = true <-> acl_allows config r.
Proof.
  unfold acl_authorize_request, acl_allows. destruct (acl_authorize config) as [rules|]; [|naive_solver].
  assert (acl_action (wr_action (wire_request r)) = Some (ar_action r)) as -> by (by simpl; destruct (ar_action r)).
  rewrite authorize_rules_first. naive_solver.
Qed.

(** ** The broker and the plugin *)

Section Broker.
Context `{Prost InitializeResponse, Prost AuthenticateRequest, Prost AuthenticateResponse,
  Prost AuthorizeRequest, Prost AuthorizeResponse, Prost WireAuthorizeRequest}.
Context {InitRequest : Type} `{Prost InitRequest}.
Context (config : PluginHostConfig).

(** The plugin is there when it is looked up, and answers by its rules when it is asked. *)
Definition answers_as (plugin : AclPlugin) (c : Call pop pres) : Prop :=
  match c with
  | mkCall o x =>
      (match o return pres o -> Prop with
       | SendAndWait _ msg => fun a => exists response now,
           handle_acl_request (InitRequest := InitRequest) plugin msg now = Ok response /\ a = Ok response
       | _ => fun _ => True
       end) x
  end.
Definition available (h : RegisteredHook) (c : Call pop pres) : Prop :=
  match c with
  | mkCall o x =>
      (match o return pres o -> Prop with
       | CurrentPlugin _ => fun p => active h p <> None
       | _ => fun _ => True
       end) x
  end.

Lemma acl_answer plugin r mid now :
  prost_decode (A := WireAuthorizeRequest) (encode_to_vec r) = Ok (wire_request r) ->
  handle_acl_request (InitRequest := InitRequest) plugin
    (build_request MAuthorize MtRequest AUTHORIZE_REQUEST_TYPE_URL (encode_to_vec r) mid) now =
  Ok (response_message (build_request MAuthorize MtRequest AUTHORIZE_REQUEST_TYPE_URL (encode_to_vec r) mid)
        AUTHORIZE_RESPONSE_TYPE_URL (encode_to_vec (acl_authorize_request (acl_config plugin) (wire_request r))) now).
Proof. intros Hd. unfold handle_acl_request, decode_params. simpl. by rewrite Hd. Qed.

(** C32: a broker whose only registration for authorization is the access control plugin, while
    the plugin runs and answers each request, authorizes an action exactly when the first rule of the file
    that matches tenant, user and topic for that action allows it; through the request
    the host builds, the message the plugin takes apart, and its response. *)
Theorem acl_decides plugin m h r tr res :
  get_hooks m HookAuthorize = Some [h] ->
  prost_decode (A := WireAuthorizeRequest) (encode_to_vec r) = Ok (wire_request r) ->
  round_trips (acl_authorize_request (acl_config plugin) (wire_request r)) ->
  runs (call_authorize_hook config r m) tr res -> Forall (available h) tr -> Forall (answers_as plugin) tr ->
  (authorized res = true <-> acl_allows (acl_config plugin) r).
Proof.
  intros Hh Hreq Hresp Hr Hav Hans. unfold call_authorize_hook in Hr. rewrite Hh in Hr.
  destruct (authorize_chain_verdicts r [h] tr res Hr) as [_ ->]. rewrite <-acl_authorize_spec.
  cbn [authorize_chain] in Hr. apply runs_sender_inv in Hr as (p & tr1 & -> & Hr).
  apply Forall_cons in Hav as [Hav _]. apply Forall_cons in Hans as [_ Hans].
  destruct (active h p) as [[conn name]|] eqn:Ha; [|by destruct Hav].
  apply runs_request_inv in Hr as (mid & x & tr2 & _ & -> & Hr).
  apply Forall_cons in Hans as [_ Hans]. apply Forall_cons in Hans as [(response & now & Hresponse & ->) _].
  rewrite acl_answer in Hresponse by done. injection Hresponse as <-.
  assert (usable AUTHORIZE_RESPONSE_TYPE_URL
    (response_message (build_request MAuthorize MtRequest AUTHORIZE_REQUEST_TYPE_URL (encode_to_vec r) mid)
       AUTHORIZE_RESPONSE_TYPE_URL (encode_to_vec (acl_authorize_request (acl_config plugin) (wire_request r))) now)
    = Some (acl_authorize_request (acl_config plugin) (wire_request r))) as Hu.
  { unfold usable. simpl. unfold round_trips in Hresp. by rewrite Hresp. }
  rewrite Hu in Hr. cbn [answers omap list_omap answer_of]. fold (answers tr2).
  rewrite (fmap_cons authorize_verdict), Forall_cons. unfold authorize_verdict at 1. rewrite Hu.
  destruct (zp_authorized _); simpl in Hr; apply runs_ret_inv in Hr as [-> _].
  - split; [done|]. intros _. split; [by left|constructor].
  - split; [|done]. by intros [[?|?] _].
Qed.
End Broker.

Module AclSample.
Import HostSample HookSample.

(** The user [u] may publish to [a/b]; nothing else is allowed. *)
Definition plugin : AclPlugin :=
  mkAclPlugin (mkAclConfig None (Some [mkAuthorizeRule Deny ["%"%string] ["v"%string] [] ["%"%string];
                                       mkAuthorizeRule Allow ["t"%string] ["%"%string] [] ["a/b"%string]]))
    "code" 1 1.
(** The only request of the example, on the wire. *)
#[export] Instance wire : Prost WireAuthorizeRequest := {|
  encode_to_vec _ := []; prost_decode _ := Ok (wire_request HookSample.publish) |}.
#[export] Instance nothing_sent : Prost unit := {| encode_to_vec _ := []; prost_decode _ := Ok tt |}.
Definition hooks : HookManager := <[HookAuthorize := [mkRegistered "p" "code" 1]]> ∅.
Definition asked : ProtocolMessage :=
  build_request MAuthorize MtRequest AUTHORIZE_REQUEST_TYPE_URL [] ("1"%string, (0, 0)).
Definition response : ProtocolMessage := response_message asked AUTHORIZE_RESPONSE_TYPE_URL [1] (0, 0).
End AclSample.

Import HostSample HookSample AclSample.

Lemma acl_decides_witness : exists tr res,
  runs (call_authorize_hook HookSample.deny_all HookSample.publish AclSample.hooks) tr res /\
  authorized res = true /\ acl_allows (acl_config AclSample.plugin) HookSample.publish.
Proof.
  set (tr := [mkCall (R := pres) (CurrentPlugin "p") (Some (HookSample.plugin "p" "code"));
              mkCall (R := pres) FreshMessage ("1"%string, (0, 0));
              mkCall (R := pres) (SendAndWait 5 AclSample.asked) (Ok AclSample.response)]).
  assert (runs (call_authorize_hook HookSample.deny_all HookSample.publish AclSample.hooks) tr
            (mkAuthorizeResult true None)) as Htr.
  { eapply (runs_next (R := pres) (CurrentPlugin "p") _ (Some (HookSample.plugin "p" "code"))); [exact I|].
    eapply (runs_next (R := pres) FreshMessage _ ("1"%string, (0, 0))); [exact I|].
    eapply (runs_next (R := pres) (SendAndWait _ _) _ (Ok AclSample.response)); [exact I|].
    eapply runs_end. }
  exists tr, (mkAuthorizeResult true None). split; [exact Htr|]. split; [reflexivity|].
  assert (authorized (mkAuthorizeResult true None) = true <-> acl_allows (acl_config AclSample.plugin) HookSample.publish)
    as [Hiff _]; [|apply Hiff; reflexivity].
  apply (acl_decides (InitRequest := unit) HookSample.deny_all AclSample.plugin AclSample.hooks
    (mkRegistered "p" "code" 1) HookSample.publish tr (mkAuthorizeResult true None));
    [reflexivity|reflexivity|reflexivity|exact Htr| |].
  - repeat constructor. discriminate.
  - repeat constructor. exists AclSample.response, (0, 0). split; reflexivity.
Defined.
