(* ===== verification/SessionManager.v ===== *)
(** * The session manager ([broker/src/session/session_manager_actor.rs],
    [session_registry.rs], [session_actor_map_service.rs])

    A node's session manager makes the sessions of the clients that connect: it registers
    the session in the replicated registry ([SessionMap]), takes over or creates its
    state, starts the session actor and enters it in the node's table, and it removes
    what the registry no longer has.  Its handlers are programs over the operations
    below.  The table is a map of maps with a lock per shard; a reference into it is a
    read guard that lasts as long as the value does in the code, also over a call that
    is awaited, and an operation that writes a shard waits for its guards.  The handlers
    run as futures of one thread ([poll], [tstep]). *)

From S2P Require Import Prelude RaftLog SessionMap SessionState SessionActor Program Traces Packet.

#[local] Open Scope Z_scope.
#[local] Open Scope prog_scope.

(** ** Data *)

(** What the two replicated services fail with; only being asked at the wrong node is
    told apart. *)
Inductive RaftError := NotLeader | RaftFailed (what : string).

Inductive SessionManagerError :=
  | TenantNotExisted (tenant_id : string)
  | TenantHasExisted (tenant_id : string)
  | SessionNotExisted (client_id : string)
  | SessionSuperseded
  | SessionActorMapError (e : RaftError)
  | SessionStateRaftError (e : RaftError)
  | SendMessageError
  | NodeNotFound (node : NodeId)
  | NotInitialized (name : string)
  | Transport.

(** [SessionActorRecipientWrapper]: its three recipients are one actor. *)
Record Wrapper := mkWrapper { wr_actor : Z; wr_instance : SessionInstanceId }.

Record Settings := mkSettings { cluster_session_ttl : Z; inflight_retry_interval_secs : Z }.

(** [SessionManagerActor]; what is only handed on to the session actors is present or not. *)
Record SessionManagerActor := mkManager {
  sm_plugin_manager : option unit;
  sm_session_lifecycle_tx : option unit;
  sm_settings : option Settings;
  sm_node_resolver : option unit;
  sm_current_node_id : NodeId;
  sm_router_actors : option (list Z);
  sm_arbiter_pool : option unit;
  sm_payload_store : bool;
  sm_timer_actor : option unit;
  sm_metric : option unit;
}.

Record CreateSessionMessage := mkCreate {
  cs_tenant_id : string;
  cs_client_id : string;
  cs_clean_session : bool;
  cs_clean_start : bool;
  cs_protocol_version : ProtocolVersion;
  cs_session_expiry_interval : option Z;
  cs_receive_maximum : Z;
  cs_connection_addr : Z;
  cs_keep_alive : Z;
  cs_will_message : option WillMessage;
  cs_username : option string;
  cs_peer_addr : string;
}.

Record CreateSessionMessageResponse := mkCreated { cr_recipient : Z; cr_session_present : bool }.

(** [SessionLifecycleMessage]. *)
Inductive SessionLifecycleMessage :=
  | SessionStarted | SessionActivate | SessionDeactivate
  | SessionStopped (tenant_id client_id : string) (session_instance_id : SessionInstanceId).

(** ** Operations *)

Inductive mop :=
  (* the replicated registry *)
  | Register (t c : string) (node : NodeId)
  | GetEntry (t c : string)
  | GetEntryLinearizable (t c : string)
  | Unregister (t c : string) (i : SessionInstanceId)
  | Renew (t c : string) (i : SessionInstanceId)
  (* the session states *)
  | DeleteState (t c : string) (expected_disconnected_at : option Z)
  | CreateState (t c : string) (v : option ProtocolVersion) (e : option Z)
  | GetStateLinearizable (t c : string)
  | ScanExpired (now ttl : Z)
  (* the table of the node *)
  | TenantEntry (t : string)                       (* entry().or_insert_with().clone() *)
  | TenantInsert (t : string)
  | TenantGet (t : string)                         (* takes a guard when it finds the tenant *)
  | TenantDrop (t : string)
  | Tenants
  | SessionGet (t c : string)                      (* takes a guard when it finds the session *)
  | SessionDrop (t c : string)
  | Sessions (t : string)
  | SessionInsert (t c : string) (w : Wrapper)
  | SessionRemoveIf (t c : string) (i : SessionInstanceId)
  | SessionOrInsert (t c : string) (w : Wrapper)
  (* the rest *)
  | Now                                            (* None: before the epoch *)
  | StartActor (a : SessionActor) (s : SessionState)
  | DoSend (actor : Z) (m : SessionActorMessage)
  | SendStop (actor : Z)
  | AskInfo (actor : Z)
  | GetNode (node : NodeId)
  | OpenChannel (rpc_addr : string)
  | ForceStopRpc (rpc_addr t c : string) (i : SessionInstanceId)
  | Sleep (secs : Z).

Definition mres (o : mop) : Type :=
  match o with
  | Register _ _ _ => outcome RaftError SessionInstanceId
  | GetEntry _ _ | GetEntryLinearizable _ _ => outcome RaftError (option SessionActorMapEntry)
  | Unregister _ _ _ | Renew _ _ _ | DeleteState _ _ _ | CreateState _ _ _ _ => outcome RaftError unit
  | GetStateLinearizable _ _ => outcome RaftError (option SessionState)
  | ScanExpired _ _ => outcome RaftError (list (string * string * Z))
  | TenantGet _ => bool
  | Tenants => list string
  | SessionGet _ _ => option Wrapper
  | Sessions _ => list (string * Wrapper)
  | SessionInsert _ _ _ => option Wrapper
  | Now => option Z
  | StartActor _ _ => Z
  | SendStop _ => outcome unit unit
  | AskInfo _ => outcome unit SessionInfo
  | GetNode _ => option string
  | OpenChannel _ => outcome unit unit
  | ForceStopRpc _ _ _ _ => bool
  | _ => unit
  end.
Abbreviation mprog := (prog mop mres).

Definition ask (o : mop) : mprog (mres o) := invoke o.
Definition fallible {A} (e : RaftError -> SessionManagerError) (p : mprog (outcome RaftError A))
    : mprog (outcome SessionManagerError A) := fails_with e p.

(** ** Handlers *)

Definition require_initialized {A} (value : option A) (name : string) : outcome SessionManagerError A :=
  match value with Some a => Ok a | None => Err (NotInitialized name) end.

(** [Handler<Initialize>] and [Handler<SetRouterActors>]; [started] makes the lifecycle channel. *)
Definition initialize (settings : Settings) (node : NodeId) (m : SessionManagerActor) : SessionManagerActor :=
  mkManager (Some tt) (sm_session_lifecycle_tx m) (Some settings) (Some tt) node (sm_router_actors m) (Some tt) true
    (Some tt) (Some tt).
Definition set_router_actors (router_actors : list Z) (m : SessionManagerActor) : SessionManagerActor :=
  mkManager (sm_plugin_manager m) (sm_session_lifecycle_tx m) (sm_settings m) (sm_node_resolver m)
    (sm_current_node_id m) (Some router_actors) (sm_arbiter_pool m) (sm_payload_store m) (sm_timer_actor m)
    (sm_metric m).
Definition default_manager : SessionManagerActor :=
  mkManager None None None None 0 None None false None None.

Definition new_session_state (settings : Settings) (protocol_version : ProtocolVersion)
    (session_expiry_interval : option Z) : SessionState :=
  new_with_options (inflight_retry_interval_secs settings) (Some protocol_version) session_expiry_interval.

(** [call_force_disconnect]; [2 ^ i] is the exclusive or. *)
Fixpoint force_disconnect_retry (rpc_addr t c : string) (i : SessionInstanceId) (attempt left_ : nat) : mprog bool :=
  match left_ with
  | O => Ret false
  | S left_ =>
      ok ← ask (ForceStopRpc rpc_addr t c i);
      if (ok : bool) then Ret true
      else
        _ ← ask (Sleep (Z.lxor 2 (Z.of_nat attempt)));
        force_disconnect_retry rpc_addr t c i (S attempt) left_
  end.
Definition call_force_disconnect (node : NodeId) (t c : string) (i : SessionInstanceId)
    : mprog (outcome SessionManagerError bool) :=
  addr ← ask (GetNode node);
  match addr with
  | None => Ret (Err (NodeNotFound node))
  | Some rpc_addr =>
      channel ← ask (OpenChannel rpc_addr);
      match channel with
      | Ok _ => r ← force_disconnect_retry rpc_addr t c i 0 3; Ret (Ok r)
      | _ => Ret (Err Transport)
      end
  end.

(** The state the new session begins with, and whether it was there before. *)
Definition take_state (settings : Settings) (msg : CreateSessionMessage)
    : mprog (outcome SessionManagerError (SessionState * bool)) :=
  let t := cs_tenant_id msg in
  let c := cs_client_id msg in
  let fresh := new_session_state settings (cs_protocol_version msg) (cs_session_expiry_interval msg) in
  let create := fallible SessionStateRaftError
    (ask (CreateState t c (Some (cs_protocol_version msg)) (cs_session_expiry_interval msg))) in
  if cs_clean_start msg then
    _ ← ask (DeleteState t c None);
    if negb (cs_clean_session msg) then (_ <-? create; Ret (Ok (fresh, false))) else Ret (Ok (fresh, false))
  else if negb (cs_clean_session msg) then
    res <-? fallible SessionStateRaftError (ask (GetStateLinearizable t c));
    match res with
    | Some session_state_from_raft =>
        reading ← ask Now;
        match reading with
        | None => Ret Panic
        | Some now =>
            match expired_disconnected_at now (cluster_session_ttl settings) session_state_from_raft with
            | Some disconnected_at =>
                _ ← ask (DeleteState t c (Some disconnected_at));
                _ <-? create;
                Ret (Ok (fresh, false))
            | None => Ret (Ok (session_state_from_raft, true))
            end
        end
    | None => _ <-? create; Ret (Ok (fresh, false))
    end
  else
    _ ← ask (DeleteState t c None);
    Ret (Ok (fresh, false)).

Definition is_owner (i : SessionInstanceId) (entry : outcome RaftError (option SessionActorMapEntry)) : bool :=
  match entry with Ok (Some e) => bool_decide (instance_id e = i) | _ => false end.

(** From the insertion into the table to the answer. *)
Definition enter_table (t c : string) (i : SessionInstanceId) (actor : Z) (session_present : bool)
    : mprog (outcome SessionManagerError CreateSessionMessageResponse) :=
  replaced_session ← ask (SessionInsert t c (mkWrapper actor i));
  current_entry ← ask (GetEntryLinearizable t c);
  if negb (is_owner i current_entry) then
    _ ← ask (SessionRemoveIf t c i);
    _ ← match replaced_session with
        | Some previous =>
            if is_owner (wr_instance previous) current_entry then ask (SessionOrInsert t c previous) else Ret tt
        | None => Ret tt
        end;
    _ ← ask (DoSend actor ForceStop);
    Ret (match current_entry with
         | Err e => Err (SessionActorMapError e)
         | _ => Err SessionSuperseded
         end)
  else Ret (Ok (mkCreated actor session_present)).

(** The actor a session begins with ([SessionActor::new], which leaves the user name out); its
    clock is read when it starts. *)
Definition session_actor_of (msg : CreateSessionMessage) (payload_store : bool) (i : SessionInstanceId) (now : Z)
    : SessionActor :=
  new_actor (cs_tenant_id msg) (cs_client_id msg) (cs_clean_session msg) (cs_protocol_version msg)
    (cs_session_expiry_interval msg) (cs_receive_maximum msg) 50 (cs_will_message msg) (cs_keep_alive msg)
    (cs_connection_addr msg) (cs_peer_addr msg) payload_store (log_index i) now.

(** [Handler<CreateSessionMessage>], after the checks that the manager is initialized. *)
Definition make_session (settings : Settings) (node : NodeId) (payload_store : bool) (msg : CreateSessionMessage)
    : mprog (outcome SessionManagerError CreateSessionMessageResponse) :=
  let t := cs_tenant_id msg in
  let c := cs_client_id msg in
  _ ← ask (TenantEntry t);
  session_instance_id <-? fallible SessionActorMapError (ask (Register t c node));
  taken <-? take_state settings msg;
  current_entry <-? fallible SessionActorMapError (ask (GetEntryLinearizable t c));
  if negb (is_owner session_instance_id (Ok current_entry)) then Ret (Err SessionSuperseded)
  else
    reading ← ask Now;
    actor ← ask (StartActor (session_actor_of msg payload_store session_instance_id (from_option id 0 reading)) taken.1);
    enter_table t c session_instance_id actor taken.2.

Definition create_session (m : SessionManagerActor) (msg : CreateSessionMessage)
    : mprog (outcome SessionManagerError CreateSessionMessageResponse) :=
  let ready :=
    _ ← require_initialized (sm_plugin_manager m) "plugin_manager";
    settings ← require_initialized (sm_settings m) "settings";
    _ ← require_initialized (sm_session_lifecycle_tx m) "session_lifecycle_tx";
    _ ← require_initialized (sm_router_actors m) "router_actors";
    _ ← require_initialized (sm_arbiter_pool m) "arbiter_pool";
    _ ← require_initialized (sm_timer_actor m) "timer_actor";
    _ ← require_initialized (sm_metric m) "metric";
    Ok settings in
  match ready with
  | Ok settings => make_session settings (sm_current_node_id m) (sm_payload_store m) msg
  | Err e => Ret (Err e)
  | Panic => Ret Panic
  | OutOfFuel => Ret OutOfFuel
  end.

(** A handler that looks a session up: [sessions.get(tenant)], then [get(client)]. *)
Definition with_session {A} (t c : string) (no_tenant no_session : A) (f : Wrapper -> mprog A) : mprog A :=
  found ← ask (TenantGet t);
  if (found : bool) then
    session ← ask (SessionGet t c);
    r ← match session with Some w => f w | None => Ret no_session end;
    _ ← ask (TenantDrop t);
    Ret r
  else Ret no_tenant.
(** The guard on the session is dropped at the end. *)
Definition keeping {A} (t c : string) (p : mprog A) : mprog A := r ← p; _ ← ask (SessionDrop t c); Ret r.

(** [Handler<RemoveExpiredSession>]: the guard on the session is still there at [remove_if]. *)
Definition remove_expired_session (t c : string) (i : SessionInstanceId) : mprog (outcome SessionManagerError unit) :=
  with_session t c (Err (TenantNotExisted t)) (Err (SessionNotExisted c)) (fun session =>
    keeping t c
      (if negb (bool_decide (wr_instance session = i)) then Ret (Ok tt)
       else
         _ ← ask (DoSend (wr_actor session) ForceStop);
         _ ← ask (SessionRemoveIf t c i);
         Ret (Ok tt))).

(** [Handler<SendMessageToSession>]. *)
Definition send_message_to_session (t c : string) (packet : Packet) : mprog unit :=
  with_session t c tt tt (fun session => keeping t c (ask (DoSend (wr_actor session) (OutboundMessage packet)))).

(** [Handler<GetSessionInfo>]: both guards are kept while the actor answers. *)
Definition get_session_info_of (t c : string) : mprog (outcome SessionManagerError SessionInfo) :=
  with_session t c (Err (TenantNotExisted t)) (Err (SessionNotExisted c)) (fun session =>
    keeping t c (info ← ask (AskInfo (wr_actor session)); Ret (map_err (fun _ => SendMessageError) info))).

(** [Handler<GetSessionInfoListWithPagination>]; the sessions visited are those there when the
    iteration begins and still there when it reaches them. *)
Fixpoint collect_infos (t : string) (clients : list string) (infos : list SessionInfo)
    : mprog (outcome SessionManagerError (list SessionInfo)) :=
  match clients with
  | [] => Ret (Ok infos)
  | c :: clients =>
      session ← ask (SessionGet t c);
      match session with
      | None => collect_infos t clients infos
      | Some w =>
          info ← ask (AskInfo (wr_actor w));
          _ ← ask (SessionDrop t c);
          match info with
          | Ok info => collect_infos t clients (infos ++ [info])
          | _ => Ret (Err SendMessageError)
          end
      end
  end.
Definition get_session_info_list (t : string) (offset limit : Z)
    : mprog (outcome SessionManagerError (Z * list SessionInfo)) :=
  found ← ask (TenantGet t);
  if (found : bool) then
    sessions ← ask (Sessions t);
    infos ← collect_infos t (map fst (take (Z.to_nat limit) (drop (Z.to_nat offset) sessions))) [];
    _ ← ask (TenantDrop t);
    Ret (match infos with Ok infos => Ok (zlen sessions, infos) | Err e => Err e | Panic => Panic | OutOfFuel => OutOfFuel end)
  else Ret (Err (TenantNotExisted t)).

(** [Handler<ForceStopWithSessionService>]: the guard on the session is dropped before the call,
    the guard on the tenant is not. *)
Definition force_stop_with_session_service (t c : string) (i : SessionInstanceId)
    : mprog (outcome SessionManagerError unit) :=
  with_session t c (Ok tt) (Ok tt) (fun session =>
    _ ← ask (SessionDrop t c);
    if bool_decide (i = wr_instance session)
    then _ ← ask (SendStop (wr_actor session)); Ret (Ok tt) else Ret (Ok tt)).

(** [Handler<ForceDisconnect>]. *)
Definition force_disconnect (t c : string) : mprog (outcome SessionManagerError unit) :=
  with_session t c (Err (TenantNotExisted t)) (Err (SessionNotExisted c)) (fun session =>
    keeping t c (_ ← ask (DoSend (wr_actor session) ForceDisconnect); Ret (Ok tt))).

(** [Handler<CreateTenantMessage>]. *)
Definition create_tenant (t : string) : mprog (outcome SessionManagerError unit) :=
  tenants ← ask Tenants;
  if bool_decide (t ∈ (tenants : list string)) then Ret (Err (TenantHasExisted t))
  else _ ← ask (TenantInsert t); Ret (Ok tt).

(** [Handler<RemoveSessionMessage>]. *)
Definition remove_session (t c : string) (i : SessionInstanceId) : mprog (outcome SessionManagerError unit) :=
  found ← ask (TenantGet t);
  if (found : bool) then
    _ ← ask (SessionRemoveIf t c i);
    _ ← ask (TenantDrop t);
    Ret (Ok tt)
  else Ret (Err (TenantNotExisted t)).

(** A message of the lifecycle channel; the message to itself is handled on its own. *)
Definition handle_lifecycle (msg : SessionLifecycleMessage) : mprog unit :=
  match msg with
  | SessionStopped t c i =>
      _ ← ask (Unregister t c i);
      _ ← remove_session t c i;
      Ret tt
  | _ => Ret tt
  end.

(** [Handler<CheckExpiredSessions>]. *)
Definition clean_up_expired (entry : string * string * Z) : mprog unit :=
  let '(t, c, disconnected_at) := entry in
  map_entry ← ask (GetEntry t c);
  _ ← match map_entry with
      | Ok (Some e) => _ ← call_force_disconnect (node_id e) t c (instance_id e); Ret tt
      | _ => Ret tt
      end;
  _ ← ask (DeleteState t c (Some disconnected_at));
  Ret tt.
Definition check_expired_sessions (m : SessionManagerActor) : mprog unit :=
  match sm_settings m, sm_node_resolver m with
  | Some settings, Some _ =>
      reading ← ask Now;
      match reading with
      | None => Ret tt
      | Some now =>
          expired ← ask (ScanExpired now (cluster_session_ttl settings));
          match expired with
          | Ok expired_list => each clean_up_expired expired_list
          | _ => Ret tt
          end
      end
  | _, _ => Ret tt
  end.

(** [Handler<RenewSessionLease>]: the guard on the tenant lasts over the renewals of its
    sessions; the tenants visited are those there when the iteration begins. *)
Definition renew_tenant (t : string) : mprog unit :=
  found ← ask (TenantGet t);
  if (found : bool) then
    sessions ← ask (Sessions t);
    _ ← each (fun '(c, w) => ask (Renew t c (wr_instance w))) (sessions : list (string * Wrapper));
    ask (TenantDrop t)
  else Ret tt.
Definition renew_session_lease : mprog unit :=
  tenants ← ask Tenants;
  each renew_tenant tenants.

(** [Handler<GetAllTenantIds>]. *)
Definition get_all_tenant_ids : mprog (list string) := ask Tenants.

(** ** The thread of the session manager *)

(** A read guard on a shard of the outer map, or of the map of a tenant. *)
Inductive Guard := OuterGuard (shard : nat) | InnerGuard (t : string) (shard : nat).
#[export] Instance Guard_eq_dec : EqDecision Guard.
Proof. solve_decision. Defined.

Fixpoint remove_first {A} `{EqDecision A} (x : A) (l : list A) : list A :=
  match l with [] => [] | y :: l => if decide (x = y) then l else y :: remove_first x l end.

Record Node := mkNode {
  n_table : gmap string (gmap string Wrapper);
  n_guards : list Guard;
  n_clock : option Z;
  n_actors : list (SessionActor * SessionState);   (* an actor is its position *)
  n_sent : list (Z * SessionActorMessage);
}.
Definition set_table (m : gmap string (gmap string Wrapper)) (n : Node) : Node :=
  mkNode m (n_guards n) (n_clock n) (n_actors n) (n_sent n).
Definition set_guards (g : list Guard) (n : Node) : Node :=
  mkNode (n_table n) g (n_clock n) (n_actors n) (n_sent n).
Definition sessions_of (t : string) (n : Node) : gmap string Wrapper := from_option id ∅ (n_table n !! t).
Definition session_at (t c : string) (n : Node) : option Wrapper := n_table n !! t ≫= fun m => m !! c.
Definition set_sessions (t : string) (m : gmap string Wrapper) (n : Node) : Node := set_table (<[t := m]> (n_table n)) n.

(** An operation is done at once, blocks the thread, or is awaited. *)
Inductive done_ (A : Type) := Done (x : A) (n : Node) | Blocks | Awaits.
Arguments Done {A}.
Arguments Blocks {A}.
Arguments Awaits {A}.

(** A future runs until it returns, waits, or blocks its thread. *)
Inductive polled (A : Type) := Finished (a : A) (n : Node) | Waits (p : mprog A) (n : Node) | Stuck.
Arguments Finished {A}.
Arguments Waits {A}.
Arguments Stuck {A}.

Section Thread.
(** The shard of a key. *)
Context (shard : string -> nat).

Definition outer (t : string) : Guard := OuterGuard (shard t).
Definition inner (t c : string) : Guard := InnerGuard t (shard c).
Definition writing {A} (g : Guard) (n : Node) (d : done_ A) : done_ A := if decide (g ∈ n_guards n) then Blocks else d.

Definition exec (o : mop) (n : Node) : done_ (mres o) :=
  match o return done_ (mres o) with
  | TenantEntry t => writing (outer t) n (Done tt (set_sessions t (sessions_of t n) n))
  | TenantInsert t => writing (outer t) n (Done tt (set_sessions t ∅ n))
  | TenantGet t =>
      match n_table n !! t with
      | Some _ => Done true (set_guards (outer t :: n_guards n) n)
      | None => Done false n
      end
  | TenantDrop t => Done tt (set_guards (remove_first (outer t) (n_guards n)) n)
  | Tenants => Done (map fst (map_to_list (n_table n))) n
  | SessionGet t c =>
      match session_at t c n with
      | Some w => Done (Some w) (set_guards (inner t c :: n_guards n) n)
      | None => Done None n
      end
  | SessionDrop t c => Done tt (set_guards (remove_first (inner t c) (n_guards n)) n)
  | Sessions t => Done (map_to_list (sessions_of t n)) n
  | SessionInsert t c w =>
      writing (inner t c) n (Done (session_at t c n) (set_sessions t (<[c := w]> (sessions_of t n)) n))
  | SessionRemoveIf t c i =>
      writing (inner t c) n
        (Done tt (match session_at t c n with
                  | Some w => if decide (wr_instance w = i) then set_sessions t (delete c (sessions_of t n)) n else n
                  | None => n
                  end))
  | SessionOrInsert t c w =>
      writing (inner t c) n
        (Done tt (match session_at t c n with
                  | Some _ => n
                  | None => set_sessions t (<[c := w]> (sessions_of t n)) n
                  end))
  | Now => Done (n_clock n) n
  | StartActor a s =>
      Done (zlen (n_actors n)) (mkNode (n_table n) (n_guards n) (n_clock n) (n_actors n ++ [(a, s)]) (n_sent n))
  | DoSend actor m =>
      Done tt (mkNode (n_table n) (n_guards n) (n_clock n) (n_actors n) (n_sent n ++ [(actor, m)]))
  | _ => Awaits
  end.

Fixpoint poll {A} (p : mprog A) (n : Node) : polled A :=
  match p with
  | Ret a => Finished a n
  | Do o k =>
      match exec o n with
      | Done x n => poll (k x) n
      | Blocks => Stuck
      | Awaits => Waits (Do o k) n
      end
  end.

Lemma poll_bind {A B} (p : mprog A) (f : A -> mprog B) n :
  poll (p ≫= f) n =
    match poll p n with
    | Finished a n => poll (f a) n
    | Waits p n => Waits (p ≫= f) n
    | Stuck => Stuck
    end.
Proof.
  revert n. induction p as [a|o k IH]; intros n; [done|]. cbn. destruct (exec o n) as [x n'| |]; [apply IH|done..].
Qed.
Lemma poll_ask o n :
  poll (ask o) n = match exec o n with Done x n => Finished x n | Blocks => Stuck | Awaits => Waits (ask o) n end.
Proof. cbn. by destruct (exec o n). Qed.

Lemma blocked {A} (g : Guard) n (d : done_ A) : g ∈ n_guards n -> writing g n d = Blocks.
Proof. unfold writing. intros. by rewrite decide_True. Qed.
Lemma not_blocked {A} (g : Guard) n (d : done_ A) : g ∉ n_guards n -> writing g n d = d.
Proof. unfold writing. intros. by rewrite decide_False. Qed.

(** ** A session that has expired *)

(** the handler of an expired session never ends when the session is there: the table is
    asked to remove the entry while the handler's own guard on it stands, and the thread of
    the session manager stops for good, whatever the shards. *)
Theorem expired_session_blocks n t c w i :
  session_at t c n = Some w -> wr_instance w = i -> poll (remove_expired_session t c i) n = Stuck.
Proof.
  intros Hw Hi. unfold session_at in Hw. destruct (n_table n !! t) as [m|] eqn:Ht; [|done]. cbn. rewrite Ht. cbn.
  unfold session_at at 1. cbn. rewrite Ht. cbn in Hw |- *. rewrite Hw. cbn.
  rewrite bool_decide_true by done. cbn. by rewrite blocked by (cbn; set_solver).
Qed.

(** ** Connections during a call *)

Definition initialized (m : SessionManagerActor) : bool :=
  match sm_plugin_manager m, sm_settings m, sm_session_lifecycle_tx m, sm_router_actors m, sm_arbiter_pool m,
        sm_timer_actor m, sm_metric m with
  | Some _, Some _, Some _, Some _, Some _, Some _, Some _ => true
  | _, _, _, _, _, _, _ => false
  end.
Lemma create_session_ready m msg :
  initialized m = true ->
  exists settings, sm_settings m = Some settings /\
    create_session m msg = make_session settings (sm_current_node_id m) (sm_payload_store m) msg.
Proof.
  unfold initialized, create_session. repeat (case_match; [|done]). intros _. eexists. split; [done|].
  repeat match goal with H : _ = Some _ |- _ => rewrite H; clear H end. done.
Qed.

(** Making a session begins with an operation that writes the tenant's shard. *)
Lemma create_blocks m msg n :
  initialized m = true -> outer (cs_tenant_id msg) ∈ n_guards n -> poll (create_session m msg) n = Stuck.
Proof.
  intros Hm Hg. destruct (create_session_ready m msg Hm) as (settings & _ & ->). cbn. by rewrite blocked.
Qed.

Lemma set_guards_same n : set_guards (n_guards n) n = n.
Proof. by destruct n. Qed.

(** A renewal waits at the first tenant that has a session, and holds a guard on it. *)
Lemma renewal_waits ts n :
  (forall t, t ∈ ts -> is_Some (n_table n !! t)) -> (exists t, t ∈ ts /\ sessions_of t n <> ∅) ->
  exists t p, sessions_of t n <> ∅ /\
    poll (each renew_tenant ts) n = Waits p (set_guards (outer t :: n_guards n) n).
Proof.
  induction ts as [|t ts IH]; intros Hts (t' & Hin & Ht'); [set_solver|].
  destruct (Hts t) as [m Hm]; [set_solver|]. cbn. rewrite Hm. cbn. change (sessions_of t (set_guards _ n)) with (sessions_of t n).
  destruct (map_to_list (sessions_of t n)) as [|[c w] l] eqn:Hl; cbn.
  - rewrite decide_True by done. cbn. change (set_guards (n_guards n) (set_guards _ n)) with (set_guards (n_guards n) n).
    rewrite set_guards_same. apply IH; [set_solver|]. exists t'. split; [|done].
    apply map_to_list_empty_iff in Hl. set_solver.
  - exists t. eexists. split; [|done]. intros He. rewrite He, map_to_list_empty in Hl. done.
Qed.

(** C33: a connection that arrives while a call is awaited can stop the session manager for
    good.  The renewal of the leases awaits the registry with a guard on the tenant, and so
    does the stop of a displaced session with its actor; making a session for any client of
    that tenant then blocks the only thread on which these calls could go on. *)
Theorem connections_block_during_calls m n :
  initialized m = true -> (exists t c, is_Some (session_at t c n)) ->
  (exists t p n', sessions_of t n <> ∅ /\ poll renew_session_lease n = Waits p n' /\
     forall msg, cs_tenant_id msg = t -> poll (create_session m msg) n' = Stuck) /\
  (forall t c w, session_at t c n = Some w -> exists p n',
     poll (force_stop_with_session_service t c (wr_instance w)) n = Waits p n' /\
     forall msg, cs_tenant_id msg = t -> poll (create_session m msg) n' = Stuck).
Proof.
  intros Hm (t & c & w & Hw). split.
  - destruct (renewal_waits (map fst (map_to_list (n_table n))) n) as (t' & p & Hs & Hp).
    + intros t' (x & -> & Hx)%list_elem_of_fmap. destruct x as [t' m']. apply elem_of_map_to_list in Hx. by eexists.
    + exists t. unfold session_at in Hw. destruct (n_table n !! t) as [m'|] eqn:Ht; [|done]. split.
      * apply list_elem_of_fmap. exists (t, m'). split; [done|]. by apply elem_of_map_to_list.
      * unfold sessions_of. rewrite Ht. cbn in *. intros ->. by rewrite lookup_empty in Hw.
    + exists t', p. eexists. split; [done|]. split; [exact Hp|]. intros msg <-. apply create_blocks; [done|]. cbn. set_solver.
  - clear t c w Hw. intros t c w Hw. unfold session_at in Hw. destruct (n_table n !! t) as [m'|] eqn:Ht; [|done].
    cbn in Hw. cbn. rewrite Ht. cbn. unfold session_at at 1. cbn. rewrite Ht. cbn. rewrite Hw. cbn.
    rewrite decide_True by done. rewrite bool_decide_true by done. cbn. do 2 eexists. split; [done|].
    intros msg <-. apply create_blocks; [done|]. cbn. set_solver.
Qed.
End Thread.

(** ** What making a session does *)

(** The replicated services answer or fail. *)
#[export] Instance manager_allowed : Allowed mop mres := fun o =>
  match o with
  | Register _ _ _ => fun r => returns r
  | GetEntry _ _ | GetEntryLinearizable _ _ => fun r => returns r
  | Unregister _ _ _ | Renew _ _ _ | DeleteState _ _ _ | CreateState _ _ _ _ => fun r => returns r
  | GetStateLinearizable _ _ => fun r => returns r
  | ScanExpired _ _ => fun r => returns r
  | _ => fun _ => True
  end.
Abbreviation mcall := (@mkCall mop mres).

Lemma runs_manager_inv (o : mop) tr (x : mres o) : runs (ask o) tr x -> allowed o x /\ tr = [mcall o x].
Proof. exact (runs_invoke_inv o tr x). Qed.
Lemma runs_ask_then_inv {A} (o : mop) (f : mres o -> mprog A) tr a :
  runs (x ← ask o; f x) tr a -> exists x tr', allowed o x /\ tr = mcall o x :: tr' /\ runs (f x) tr' a.
Proof.
  intros (t1 & x & t2 & [Hx ->]%runs_manager_inv & Hf & ->)%runs_bind_inv. by exists x, t2.
Qed.
(** A fallible call of a service that must succeed. *)
Lemma runs_service_inv {A} (p : mprog (outcome RaftError A)) (e : RaftError -> SessionManagerError) tr r :
  runs (fallible e p) tr r -> exists x, runs p tr x /\ r = map_err e x.
Proof.
  intros (t1 & x & t2 & Hp & [-> ->]%runs_ret_inv & ->)%runs_bind_inv. rewrite app_nil_r. by exists x.
Qed.

(** The state a session begins with, [present] when it was kept from before. *)
Definition state_taken (settings : Settings) (msg : CreateSessionMessage) (tr : list (Call mop mres))
    (s : SessionState) (present : bool) : Prop :=
  let t := cs_tenant_id msg in
  let c := cs_client_id msg in
  let fresh := new_session_state settings (cs_protocol_version msg) (cs_session_expiry_interval msg) in
  let create := mcall (CreateState t c (Some (cs_protocol_version msg)) (cs_session_expiry_interval msg)) (Ok tt) in
  if present then
    cs_clean_start msg = false /\ cs_clean_session msg = false /\
    exists now, tr = [mcall (GetStateLinearizable t c) (Ok (Some s)); mcall Now (Some now)] /\
      expired_disconnected_at now (cluster_session_ttl settings) s = None
  else
    s = fresh /\
    if cs_clean_session msg then exists x, tr = [mcall (DeleteState t c None) x]
    else if cs_clean_start msg then exists x, tr = [mcall (DeleteState t c None) x; create]
    else tr = [mcall (GetStateLinearizable t c) (Ok None); create] \/
         exists s' now at_ x,
           expired_disconnected_at now (cluster_session_ttl settings) s' = Some at_ /\
           tr = [mcall (GetStateLinearizable t c) (Ok (Some s')); mcall Now (Some now);
                 mcall (DeleteState t c (Some at_)) x; create].

Ltac run_step :=
  match goal with
  | H : runs (x ← ask _; _) _ _ |- _ => apply runs_ask_then_inv in H as (? & ? & ? & -> & H)
  | H : runs (Ret _) _ _ |- _ => apply runs_ret_inv in H as [-> H]
  | H : runs (attempt _ _) _ (Ok _) |- _ => apply runs_attempt_ok in H as (? & ? & ? & ?H & H & ->)
  | H : runs (fallible _ (ask _)) _ _ |- _ => apply runs_service_inv in H as (? & [? ->]%runs_manager_inv & H)
  | H : Ok _ = map_err _ ?x |- _ => destruct x; try discriminate H; injection H as ->
  | H : Ok _ = Ok _ |- _ => injection H as; subst
  | u : unit |- _ => destruct u
  end.

Lemma take_state_inv settings msg tr s present :
  runs (take_state settings msg) tr (Ok (s, present)) -> state_taken settings msg tr s present.
Proof.
  unfold take_state, state_taken. destruct (cs_clean_start msg), (cs_clean_session msg); cbn [negb]; intros Hr;
    repeat run_step; try by eauto.
  destruct a as [s'|]; repeat run_step; [|split; [done|]; by left].
  destruct x as [now|]; [|by apply runs_ret_inv in Hr as [_ ?]].
  destruct (expired_disconnected_at _ _ _) as [at_|] eqn:He; repeat run_step.
  - split; [done|]. right. by eauto 10.
  - split; [done|]. split; [done|]. by exists now.
Qed.

(** Entering the table, when it succeeds and when it does not. *)
Lemma enter_table_ok t c i actor present tr r :
  runs (enter_table t c i actor present) tr (Ok r) ->
  r = mkCreated actor present /\
  exists replaced e, instance_id e = i /\
    tr = [mcall (SessionInsert t c (mkWrapper actor i)) replaced; mcall (GetEntryLinearizable t c) (Ok (Some e))].
Proof.
  unfold enter_table. intros Hr. do 2 run_step. destruct (is_owner i x1) eqn:Ho; cbn [negb] in Hr.
  - repeat run_step. split; [done|]. destruct x1 as [[e|]| | |]; try done. apply bool_decide_eq_true in Ho.
    by exists x, e.
  - run_step. apply runs_bind_inv in Hr as (? & ? & ? & _ & Hr & ->). do 2 run_step. by destruct x1.
Qed.

Definition restored (t c : string) (replaced : option Wrapper) (entry : outcome RaftError (option SessionActorMapEntry))
    : list (Call mop mres) :=
  match replaced with
  | Some previous =>
      if is_owner (wr_instance previous) entry then [mcall (SessionOrInsert t c previous) tt] else []
  | None => []
  end.
Lemma enter_table_err t c i actor present tr e :
  runs (enter_table t c i actor present) tr (Err e) ->
  exists replaced x, is_owner i x = false /\
    e = (match x with Err e => SessionActorMapError e | _ => SessionSuperseded end) /\
    tr = [mcall (SessionInsert t c (mkWrapper actor i)) replaced; mcall (GetEntryLinearizable t c) x;
          mcall (SessionRemoveIf t c i) tt] ++ restored t c replaced x ++ [mcall (DoSend actor ForceStop) tt].
Proof.
  unfold enter_table, restored. intros Hr.
  apply runs_ask_then_inv in Hr as (replaced & tr1 & _ & -> & Hr).
  apply runs_ask_then_inv in Hr as (x & tr2 & _ & -> & Hr). destruct (is_owner i x) eqn:Ho; cbn [negb] in Hr.
  { by apply runs_ret_inv in Hr as [_ Hr]. }
  apply runs_ask_then_inv in Hr as ([] & tr3 & _ & -> & Hr).
  apply runs_bind_inv in Hr as (t1 & [] & t2 & Ht1 & Hr & ->).
  apply runs_ask_then_inv in Hr as ([] & tr4 & _ & -> & [-> Hr]%runs_ret_inv).
  exists replaced, x. split; [done|]. split; [by destruct x; simplify_eq|]. cbn. do 4 f_equal.
  destruct replaced as [w|]; [|by apply runs_ret_inv in Ht1 as [-> _]].
  destruct (is_owner (wr_instance w) x); [|by apply runs_ret_inv in Ht1 as [-> _]].
  by apply runs_manager_inv in Ht1 as [_ ->].
Qed.

(** C9: a session that is made was registered by this very call and still owned by it after it
    was entered in the node's table: the answer is given after a linearizable read of the
    registry that names the call's own instance, the actor the connection is told about is
    the one that was started and entered, and it begins with the stored state exactly when
    the client asked to resume, kept its session and the state had not expired (this is what
    session present says); otherwise it begins with a fresh state, made in the group too
    when the session is to be kept. *)
Theorem created_session_owned m msg tr r :
  let t := cs_tenant_id msg in
  let c := cs_client_id msg in
  runs (create_session m msg) tr (Ok r) ->
  exists settings i s taken reading e1 e2 replaced,
    sm_settings m = Some settings /\ instance_id e1 = i /\ instance_id e2 = i /\
    state_taken settings msg taken s (cr_session_present r) /\
    tr = [mcall (TenantEntry t) tt; mcall (Register t c (sm_current_node_id m)) (Ok i)] ++ taken ++
         [mcall (GetEntryLinearizable t c) (Ok (Some e1)); mcall Now reading;
          mcall (StartActor (session_actor_of msg (sm_payload_store m) i (from_option id 0 reading)) s) (cr_recipient r);
          mcall (SessionInsert t c (mkWrapper (cr_recipient r) i)) replaced;
          mcall (GetEntryLinearizable t c) (Ok (Some e2))].
Proof.
  intros t c Hr. destruct (initialized m) eqn:Hm.
  2: { exfalso. revert Hr. unfold create_session, initialized in *. repeat case_match; simplify_eq/=; try done;
       by intros [_ ?]%runs_ret_inv. }
  destruct (create_session_ready m msg Hm) as (settings & Hs & Heq). rewrite Heq in Hr. clear Heq.
  unfold make_session in Hr. fold t c in Hr.
  apply runs_ask_then_inv in Hr as ([] & tr1 & _ & -> & Hr).
  apply runs_attempt_ok in Hr as (tr2 & i & tr3 & Hi & Hr & ->).
  apply runs_service_inv in Hi as (x & [_ ->]%runs_manager_inv & Hi). destruct x as [i'| | |]; try done. injection Hi as <-.
  apply runs_attempt_ok in Hr as (taken & [s present] & tr5 & Ht%take_state_inv & Hr & ->).
  apply runs_attempt_ok in Hr as (tr6 & e & tr7 & He & Hr & ->).
  apply runs_service_inv in He as (x & [_ ->]%runs_manager_inv & He). destruct x as [e'| | |]; try done. injection He as <-.
  destruct e as [e1|]; [|by apply runs_ret_inv in Hr as [_ ?]].
  destruct (is_owner i (Ok (Some e1))) eqn:Ho; cbn [negb] in Hr; [|by apply runs_ret_inv in Hr as [_ ?]].
  apply bool_decide_eq_true in Ho.
  apply runs_ask_then_inv in Hr as (reading & tr8 & _ & -> & Hr).
  apply runs_ask_then_inv in Hr as (actor & tr9 & _ & -> & Hr).
  apply enter_table_ok in Hr as (-> & replaced & e2 & He2 & ->).
  exists settings, i, s, taken, reading, e1, e2, replaced. by split_and!.
Qed.

(** Calls that neither start an actor nor enter one in the table. *)
Definition no_actor (o : mop) : Prop :=
  match o with StartActor _ _ | SessionInsert _ _ _ | SessionOrInsert _ _ _ => False | _ => True end.
Lemma take_state_no_actor settings msg : only no_actor (take_state settings msg).
Proof.
  unfold take_state. destruct (cs_clean_start msg), (cs_clean_session msg); cbn; split; try done; intros x.
  - split; [done|]. intros y. by destruct y.
  - destruct x as [[s|]| | |]; cbn; try done.
    + split; [done|]. intros [now|]; [|done]. destruct (expired_disconnected_at _ _ _); cbn; [|done].
      split; [done|]. intros _. split; [done|]. intros y. by destruct y.
    + split; [done|]. intros y. by destruct y.
Qed.

Lemma service_no_actor {A} (p : mprog (outcome RaftError A)) e tr r :
  only no_actor p -> runs (fallible e p) tr r -> Forall (fun c => no_actor (c_op c)) tr.
Proof. intros Hp (x & Hr & _)%runs_service_inv. by eapply only_runs. Qed.

(** C37: a session that cannot be made leaves no actor and no table entry of its own: either no
    actor was started and nothing was entered in the node's table, or the actor that was
    started is told to stop after its own entry, and no other, was taken out of the table; an
    entry it had displaced is put back when the registry names it and the place is still
    free.  Its registration in the registry and what it did to the stored state stay. *)
Theorem failed_session_undone m msg tr e :
  let t := cs_tenant_id msg in
  let c := cs_client_id msg in
  runs (create_session m msg) tr (Err e) ->
  Forall (fun c => no_actor (c_op c)) tr \/
  exists before a s i actor replaced x,
    Forall (fun c => no_actor (c_op c)) before /\ is_owner i x = false /\
    tr = before ++ [mcall (StartActor a s) actor; mcall (SessionInsert t c (mkWrapper actor i)) replaced;
                    mcall (GetEntryLinearizable t c) x; mcall (SessionRemoveIf t c i) tt]
                ++ restored t c replaced x ++ [mcall (DoSend actor ForceStop) tt].
Proof.
  intros t c Hr. unfold create_session in Hr. case_match; [|left; by apply runs_ret_inv in Hr as [-> _]..].
  unfold make_session in Hr. fold t c in Hr.
  apply runs_ask_then_inv in Hr as ([] & tr1 & _ & -> & Hr).
  apply runs_attempt_inv in Hr as [(tr2 & i & tr3 & Hi & Hr & ->)|[Hi _]].
  2: { left. constructor; [done|]. by eapply service_no_actor; [|exact Hi]. }
  eapply service_no_actor in Hi; [|done].
  apply runs_attempt_inv in Hr as [(taken & [s present] & tr5 & Ht & Hr & ->)|[Ht _]].
  2: { left. constructor; [done|]. apply Forall_app. split; [done|]. eapply only_runs; [apply take_state_no_actor|exact Ht]. }
  eapply only_runs in Ht; [|apply take_state_no_actor].
  apply runs_attempt_inv in Hr as [(tr6 & e1 & tr7 & He & Hr & ->)|[He _]].
  2: { left. constructor; [done|]. rewrite !Forall_app. split_and!; [done..|]. by eapply service_no_actor; [|exact He]. }
  eapply service_no_actor in He; [|done].
  destruct (is_owner i (Ok e1)); cbn [negb] in Hr.
  2: { apply runs_ret_inv in Hr as [-> _]. left. constructor; [done|]. by rewrite !Forall_app. }
  apply runs_ask_then_inv in Hr as (reading & tr8 & _ & -> & Hr).
  apply runs_ask_then_inv in Hr as (actor & tr9 & _ & -> & Hr).
  apply enter_table_err in Hr as (replaced & x & Hx & _ & ->). right.
  exists (mcall (TenantEntry t) () :: tr2 ++ taken ++ tr6 ++ [mcall Now reading]). do 2 eexists. exists i, actor, replaced, x.
  split; [|split; [done|]].
  - constructor; [done|]. rewrite !Forall_app. by split_and!; [..|repeat constructor].
  - cbn. by rewrite <- !app_assoc.
Qed.

(** ** Connections of one client at the same time *)

(** The node's futures with the replicated registry behind them: a future that waits is
    served (the registry applies the entry or reads), and resumes later with the answer.
    A registration that displaces a session of this node sends it a stop. *)
Inductive Reply := Created (r : outcome SessionManagerError CreateSessionMessageResponse) | Handled.
Inductive task := Asking (p : mprog Reply) | Ready (p : mprog Reply) | Ended (r : Reply).

Record System := mkSystem {
  y_node : Node;
  y_registry : Storage;
  y_index : Z;
  y_tasks : list task;
}.

Inductive move := Arrives (msg : CreateSessionMessage) | Served (k : nat) | Resumed (k : nat).

Section System.
Context (shard : string -> nat) (m : SessionManagerActor) (ttl : Z) (clock : Z -> nat -> Z).

Definition stop_task (msg : Message) : task :=
  Ready (match msg with
         | ForceStopWithSessionService t c i => _ ← force_stop_with_session_service t c i; Ret Handled
         | RemoveExpiredSession t c i => _ ← remove_expired_session t c i; Ret Handled
         end).

Definition serve (o : mop) (st : Storage) (index : Z) : option (mres o * Storage * Z * list Message) :=
  match o return option (mres o * Storage * Z * list Message) with
  | Register t c node =>
      match apply_request (sm_current_node_id m) ttl clock index (RegisterSession t c node) st with
      | Ok (Registered i, messages, st) => Some (Ok i, st, index + 1, messages)
      | _ => None
      end
  | Unregister t c i =>
      match apply_request (sm_current_node_id m) ttl clock index (UnregisterSession t c i) st with
      | Ok (_, messages, st) => Some (Ok tt, st, index + 1, messages)
      | _ => None
      end
  | GetEntryLinearizable t c => Some (Ok (get_session_actor_map t c st), st, index, [])
  | DeleteState _ _ _ => Some (Ok tt, st, index, [])
  | SendStop _ => Some (Ok tt, st, index, [])
  | _ => None
  end.

Definition ystep (mv : move) (y : System) : option System :=
  match mv with
  | Arrives msg =>
      Some (mkSystem (y_node y) (y_registry y) (y_index y)
              (y_tasks y ++ [Ready (r ← create_session m msg; Ret (Created r))]))
  | Served k =>
      match y_tasks y !! k with
      | Some (Asking (Do o f)) =>
          '(x, st, index, messages) ← serve o (y_registry y) (y_index y);
          Some (mkSystem (y_node y) st index (<[k := Ready (f x)]> (y_tasks y) ++ map stop_task messages))
      | _ => None
      end
  | Resumed k =>
      match y_tasks y !! k with
      | Some (Ready p) =>
          match poll shard p (y_node y) with
          | Finished r n => Some (mkSystem n (y_registry y) (y_index y) (<[k := Ended r]> (y_tasks y)))
          | Waits p n => Some (mkSystem n (y_registry y) (y_index y) (<[k := Asking p]> (y_tasks y)))
          | Stuck => None
          end
      | _ => None
      end
  end.
Fixpoint ysteps (mvs : list move) (y : System) : option System :=
  match mvs with [] => Some y | mv :: mvs => ystep mv y ≫= ysteps mvs end.
End System.

Module ManagerSample.
Definition manager : SessionManagerActor :=
  set_router_actors [] (initialize (mkSettings 3600 10) 1
    (mkManager None (Some tt) None None 0 None None false None None)).
Definition connect (conn : Z) : CreateSessionMessage :=
  mkCreate "t" "c" true true V5_0 None 10 conn 60 None (Some "user") "peer".
Definition resume : CreateSessionMessage :=
  mkCreate "t" "c" false false V5_0 (Some 600) 10 7 60 None (Some "user") "peer".
Definition node : Node := mkNode {["t" := {["c" := mkWrapper 0 (mkInstance 4)]}]} [] (Some 100) [] [].
Definition empty_system : System := mkSystem (mkNode ∅ [] (Some 100) [] []) ∅ 1 [].
Definition entry (i : Z) : SessionActorMapEntry := mkMapEntry 1 (mkInstance i) 200.

Definition registration (k : Call mop mres) : option SessionInstanceId :=
  match k with mkCall (Register _ _ _) (Ok i) => Some i | _ => None end.
Definition started_actor (k : Call mop mres) : option Z :=
  match k with mkCall (StartActor _ _) actor => Some actor | _ => None end.

(** A future up to the answer of its first ownership check. *)
Definition up_to_check (msg : CreateSessionMessage) (k : nat) : list move :=
  [Arrives msg; Resumed k; Served k; Resumed k; Served k; Resumed k; Served k].
Definition race : list move :=
  up_to_check (connect 1) 0 ++ up_to_check (connect 2) 1 ++ [Resumed 2] ++ up_to_check (connect 3) 3 ++ [Resumed 4;
    Resumed 3; Served 3; Resumed 0; Resumed 1; Served 0; Served 1; Resumed 0; Resumed 1; Resumed 3].
End ManagerSample.

(** three connections of one client on a node at the same time can leave the winner out of
    the node's table: the two that lose enter the table after it, the first cannot put it
    back because the second is there, and the second only puts back the first.  The winner
    owns the session in the registry and its client is told that it is connected, but the
    node no longer finds its actor: nothing is delivered to it and its lease is not renewed. *)
Theorem owner_lost_from_table :
  exists y r, ysteps (fun _ => 0%nat) ManagerSample.manager 3600 (fun _ _ => 100) ManagerSample.race
      ManagerSample.empty_system = Some y /\
    y_tasks y !! 3%nat = Some (Ended (Created (Ok r))) /\
    owner_at "t" "c" (y_registry y) = Some (1, mkInstance 3) /\
    session_at "t" "c" (y_node y) = None /\
    n_sent (y_node y) = [(1, ForceStop); (2, ForceStop)] /\ cr_recipient r = 0.
Proof. do 2 eexists. split; [vm_compute; reflexivity|]. vm_compute. by split_and!. Qed.

Lemma expired_session_blocks_witness :
  session_at "t" "c" ManagerSample.node = Some (mkWrapper 0 (mkInstance 4)) /\
  poll (fun _ => 0%nat) (remove_expired_session "t" "c" (mkInstance 4)) ManagerSample.node = Stuck.
Proof.
  split; [reflexivity|]. apply (expired_session_blocks (fun _ => 0%nat) _ _ _ (mkWrapper 0 (mkInstance 4))); reflexivity.
Defined.

Lemma connections_block_during_calls_witness :
  exists p n', poll (fun _ => 0%nat) (force_stop_with_session_service "t" "c" (mkInstance 4)) ManagerSample.node = Waits p n' /\
    poll (fun _ => 0%nat) (create_session ManagerSample.manager (ManagerSample.connect 8)) n' = Stuck.
Proof.
  destruct (connections_block_during_calls (fun _ => 0%nat) ManagerSample.manager ManagerSample.node) as [_ Hs];
    [reflexivity|by exists "t", "c", (mkWrapper 0 (mkInstance 4))|].
  destruct (Hs "t" "c" (mkWrapper 0 (mkInstance 4))) as (p & n' & Hp & Hc); [reflexivity|].
  exists p, n'. split; [exact Hp|]. by apply Hc.
Defined.

(** A client that resumes a session disconnected 50 seconds ago. *)
Lemma created_session_owned_witness :
  let s := mkSessionState ["k"] (Inflight.new 10) ∅ (Some 50) (Some V5_0) (Some 600) None in
  exists tr i, runs (create_session ManagerSample.manager ManagerSample.resume) tr (Ok (mkCreated 5 true)) /\
    mcall (Register "t" "c" 1) (Ok i) ∈ tr /\ i = mkInstance 9.
Proof.
  intros s.
  assert (exists tr, runs (create_session ManagerSample.manager ManagerSample.resume) tr (Ok (mkCreated 5 true)) /\
    omap ManagerSample.registration tr = [mkInstance 9]) as (tr & Hr & Hi).
  { eexists. split.
    - eapply (runs_next (TenantEntry "t") _ tt); [done|].
      eapply (runs_next (Register "t" "c" 1) _ (Ok (mkInstance 9))); [done|].
      eapply (runs_next (GetStateLinearizable "t" "c") _ (Ok (Some s))); [done|].
      eapply (runs_next Now _ (Some 100)); [done|].
      eapply (runs_next (GetEntryLinearizable "t" "c") _ (Ok (Some (ManagerSample.entry 9)))); [done|].
      eapply (runs_next Now _ (Some 100)); [done|].
      eapply (runs_next (StartActor _ _) _ 5); [done|].
      eapply (runs_next (SessionInsert "t" "c" _) _ None); [done|].
      eapply (runs_next (GetEntryLinearizable "t" "c") _ (Ok (Some (ManagerSample.entry 9)))); [done|].
      apply runs_end.
    - reflexivity. }
  destruct (created_session_owned _ _ _ _ Hr) as (settings & i & s' & taken & reading & e1 & e2 & replaced & _ & _ & _ & _ & Htr).
  exists tr, i. split; [done|]. assert (mcall (Register "t" "c" 1) (Ok i) ∈ tr) as Hin by (rewrite Htr; set_solver).
  split; [done|]. assert (i ∈ omap ManagerSample.registration tr) as Ho by (apply list_elem_of_omap; by eauto).
  rewrite Hi in Ho. by apply list_elem_of_singleton in Ho.
Defined.

(** A client that is superseded while its session is entered. *)
Lemma failed_session_undone_witness :
  exists tr, runs (create_session ManagerSample.manager (ManagerSample.connect 1)) tr (Err SessionSuperseded) /\
    mcall (DoSend 5 ForceStop) tt ∈ tr.
Proof.
  assert (exists tr, runs (create_session ManagerSample.manager (ManagerSample.connect 1)) tr (Err SessionSuperseded) /\
    ~ Forall (fun c => no_actor (c_op c)) tr /\
    omap ManagerSample.started_actor tr = [5]) as (tr & Hr & Hno & Ha).
  { eexists. split.
    - eapply (runs_next (TenantEntry "t") _ tt); [done|].
      eapply (runs_next (Register "t" "c" 1) _ (Ok (mkInstance 9))); [done|].
      eapply (runs_next (DeleteState "t" "c" None) _ (Ok tt)); [done|].
      eapply (runs_next (GetEntryLinearizable "t" "c") _ (Ok (Some (ManagerSample.entry 9)))); [done|].
      eapply (runs_next Now _ (Some 100)); [done|].
      eapply (runs_next (StartActor _ _) _ 5); [done|].
      eapply (runs_next (SessionInsert "t" "c" _) _ None); [done|].
      eapply (runs_next (GetEntryLinearizable "t" "c") _ (Ok (Some (ManagerSample.entry 10)))); [done|].
      eapply (runs_next (SessionRemoveIf "t" "c" _) _ tt); [done|].
      eapply (runs_next (DoSend 5 ForceStop) _ tt); [done|].
      apply runs_end.
    - split; [|reflexivity]. intros Hall. rewrite !Forall_cons in Hall. by destruct Hall as (_ & _ & _ & _ & _ & [] & _). }
  destruct (failed_session_undone _ _ _ _ Hr) as [?|(before & a & s & i & actor & replaced & x & _ & _ & Htr)]; [done|].
  exists tr. split; [done|]. assert (actor ∈ omap ManagerSample.started_actor tr) as Hin.
  { rewrite Htr. apply list_elem_of_omap. exists (mcall (StartActor a s) actor). split; [set_solver|done]. }
  rewrite Ha in Hin. apply list_elem_of_singleton in Hin as ->. rewrite Htr. set_solver.
Defined.
