(* ===== verification/ConnectionWrite.v ===== *)
(** * Writing to a client ([broker/src/connection.rs])

    The connection actor encodes what it is asked to write in the client's version,
    collects up to 100 packets in a buffer and hands the buffer over a bounded channel to
    the task of the network sender, which collects again and writes to the socket.  What
    the socket does with a write is part of the move that makes it. *)

From S2P Require Import Prelude V3Codec SessionActor V3Convert Buf Packet V5Common V5PropertiesSpec V5Frame V5Codec ConnFraming MessageExpiry.

#[local] Open Scope Z_scope.

(** ** Data *)

Inductive NetworkEvent := WriteError | ReadError (message : string) | NeClientDisconnected.
Inductive NetworkCommand := Send (data : bytes) | Shutdown.
Inductive DisconnectReason := Normal | KeepAliveExpired | RateLimited | InternalError (message : string).

Inductive ConnectionActorMessage :=
  | WritePacketToClient (packet : Packet)
  | Disconnect (reason : DisconnectReason).

(** [Mqtt5ClientLimits]. *)
Record Mqtt5ClientLimits := mkLimits { lm_maximum_packet_size : option Z; lm_receive_maximum : Z }.
Definition default_limits : Mqtt5ClientLimits := mkLimits None u16_max.

(** [ConnectionActor]: the fields that change, the count of packets it dropped, of batches the
    channel refused, and of the messages to its session. *)
Record ConnectionActor := mkConn {
  c_network_sender : bool;
  c_encode_buffer : bytes;
  c_pending_count : nat;
  c_disconnected_normally : bool;
  c_protocol_version : ProtocolVersion;
  c_limits : Mqtt5ClientLimits;
  c_session : option Z;
  c_stopping : bool;                                  (* ctx.stop() *)
  c_messages_dropped : Z;
  c_send_errors : nat;
  c_told : list (Z * SessionActor.SessionActorMessage);
}.
Definition batch_size : nat := 100.

(** [ConnectionActor::new]. *)
Definition new_connection : ConnectionActor :=
  mkConn true [] 0 false V3_1_1 default_limits None false 0 0 [].

(** The task of [NetworkSender]: the channel, its batch, the socket. *)
Record NetworkSender := mkSender {
  ns_channel : list NetworkCommand;
  ns_batch : bytes;
  ns_msg_count : nat;
  ns_running : bool;
  ns_socket : bytes;
  ns_bytes_sent : Z;
  ns_packets_sent : Z;
  ns_failed : bool;                                   (* a write failed *)
}.
Definition new_sender : NetworkSender := mkSender [] [] 0 true [] 0 0 false.

(** ** The network sender *)

(** What the socket does with a write: it takes all of it, or the first bytes and fails. *)
Inductive write := Accepts | Breaks (n : nat).

(** [NetworkSender::flush]. *)
Definition flush (w : write) (s : NetworkSender) : bool * NetworkSender :=
  if decide (ns_batch s = []) then (true, s)
  else
    match w with
    | Accepts =>
        (true, mkSender (ns_channel s) [] 0 (ns_running s) (ns_socket s ++ ns_batch s)
                 (ns_bytes_sent s + zlen (ns_batch s)) (ns_packets_sent s + Z.of_nat (ns_msg_count s)) (ns_failed s))
    | Breaks n =>
        (false, mkSender (ns_channel s) (ns_batch s) (ns_msg_count s) (ns_running s)
                  (ns_socket s ++ take n (ns_batch s)) (ns_bytes_sent s) (ns_packets_sent s) true)
    end.

Definition sends (l : list NetworkCommand) : list bytes :=
  omap (fun c => match c with Send data => Some data | Shutdown => None end) l.

Definition add_batch (data : bytes) (n : nat) (channel : list NetworkCommand) (s : NetworkSender) : NetworkSender :=
  mkSender channel (ns_batch s ++ data) (ns_msg_count s + n) (ns_running s) (ns_socket s) (ns_bytes_sent s)
    (ns_packets_sent s) (ns_failed s).
Definition end_sender (s : NetworkSender) : NetworkSender :=
  mkSender (ns_channel s) (ns_batch s) (ns_msg_count s) false (ns_socket s) (ns_bytes_sent s) (ns_packets_sent s)
    (ns_failed s).

(** After the loop: the batch, then what is left in the channel; the counter is not moved. *)
Definition cleanup (w1 w2 : write) (s : NetworkSender) : NetworkSender :=
  let s := (flush w1 s).2 in
  let s := add_batch (concat (sends (ns_channel s))) 0 [] s in
  end_sender (flush w2 s).2.

(** One turn of the loop on a command, and on a tick of the timer. *)
Definition on_flush_result (w1 w2 : write) (r : bool * NetworkSender) : list NetworkEvent * NetworkSender :=
  if r.1 then ([], r.2) else ([WriteError], cleanup w1 w2 r.2).

Definition on_command (w w1 w2 : write) (s : NetworkSender) : list NetworkEvent * NetworkSender :=
  match ns_channel s with
  | [] => ([], s)
  | Send data :: channel =>
      let s := add_batch data 1 channel s in
      if (64 * 1024 <=? zlen (ns_batch s)) || (200 <=? ns_msg_count s)%nat
      then on_flush_result w1 w2 (flush w s) else ([], s)
  | Shutdown :: channel => ([], cleanup w1 w2 (add_batch [] 0 channel s))
  end.
Definition on_tick (w w1 w2 : write) (s : NetworkSender) : list NetworkEvent * NetworkSender :=
  on_flush_result w1 w2 (flush w s).

(** [NetworkSender::try_send]: refused when the channel is full or the task has ended. *)
Definition try_send (data : bytes) (s : NetworkSender) : option NetworkSender :=
  if ns_running s && (length (ns_channel s) <? 1000)%nat
  then Some (mkSender (ns_channel s ++ [Send data]) (ns_batch s) (ns_msg_count s) true (ns_socket s) (ns_bytes_sent s)
               (ns_packets_sent s) (ns_failed s))
  else None.

(** ** The connection actor *)

Definition set_pending (buffer : bytes) (n : nat) (c : ConnectionActor) : ConnectionActor :=
  mkConn (c_network_sender c) buffer n (c_disconnected_normally c) (c_protocol_version c) (c_limits c) (c_session c)
    (c_stopping c) (c_messages_dropped c) (c_send_errors c) (c_told c).
Definition set_disconnected_normally (b : bool) (c : ConnectionActor) : ConnectionActor :=
  mkConn (c_network_sender c) (c_encode_buffer c) (c_pending_count c) b (c_protocol_version c) (c_limits c)
    (c_session c) (c_stopping c) (c_messages_dropped c) (c_send_errors c) (c_told c).
Definition stop (c : ConnectionActor) : ConnectionActor :=
  mkConn (c_network_sender c) (c_encode_buffer c) (c_pending_count c) (c_disconnected_normally c)
    (c_protocol_version c) (c_limits c) (c_session c) true (c_messages_dropped c) (c_send_errors c) (c_told c).
Definition take_sender (c : ConnectionActor) : ConnectionActor :=
  mkConn false (c_encode_buffer c) (c_pending_count c) (c_disconnected_normally c) (c_protocol_version c)
    (c_limits c) (c_session c) (c_stopping c) (c_messages_dropped c) (c_send_errors c) (c_told c).
Definition message_dropped (c : ConnectionActor) : ConnectionActor :=
  mkConn (c_network_sender c) (c_encode_buffer c) (c_pending_count c) (c_disconnected_normally c)
    (c_protocol_version c) (c_limits c) (c_session c) (c_stopping c) (c_messages_dropped c + 1) (c_send_errors c)
    (c_told c).
Definition send_failed (c : ConnectionActor) : ConnectionActor :=
  mkConn (c_network_sender c) (c_encode_buffer c) (c_pending_count c) (c_disconnected_normally c)
    (c_protocol_version c) (c_limits c) (c_session c) (c_stopping c) (c_messages_dropped c) (S (c_send_errors c))
    (c_told c).

(** [Handler<UpdateSession>], [Handler<UpdateProtocolVersion>], [Handler<UpdateMqtt5ClientLimits>]. *)
Definition update_session (session : Z) (c : ConnectionActor) : ConnectionActor :=
  mkConn (c_network_sender c) (c_encode_buffer c) (c_pending_count c) (c_disconnected_normally c)
    (c_protocol_version c) (c_limits c) (Some session) (c_stopping c) (c_messages_dropped c) (c_send_errors c)
    (c_told c).
Definition update_protocol_version (v : ProtocolVersion) (c : ConnectionActor) : ConnectionActor :=
  mkConn (c_network_sender c) (c_encode_buffer c) (c_pending_count c) (c_disconnected_normally c) v (c_limits c)
    (c_session c) (c_stopping c) (c_messages_dropped c) (c_send_errors c) (c_told c).
Definition update_mqtt5_client_limits (maximum_packet_size receive_maximum : option Z) (c : ConnectionActor)
    : ConnectionActor :=
  mkConn (c_network_sender c) (c_encode_buffer c) (c_pending_count c) (c_disconnected_normally c)
    (c_protocol_version c) (mkLimits maximum_packet_size (from_option id u16_max receive_maximum)) (c_session c)
    (c_stopping c) (c_messages_dropped c) (c_send_errors c) (c_told c).

Definition flush_batch (c : ConnectionActor) (s : NetworkSender) : ConnectionActor * NetworkSender :=
  if (c_pending_count c =? 0)%nat then (c, s)
  else if c_network_sender c then
    let sent := set_pending [] 0 c in
    match try_send (c_encode_buffer c) s with
    | Some s => (sent, s)
    | None => (send_failed sent, s)
    end
  else (c, s).

(** The session is told how its client went: in [handle_disconnection] and again in [stopped]. *)
Definition tell_session (c : ConnectionActor) : ConnectionActor :=
  match c_session c with
  | Some session =>
      mkConn (c_network_sender c) (c_encode_buffer c) (c_pending_count c) (c_disconnected_normally c)
        (c_protocol_version c) (c_limits c) (c_session c) (c_stopping c) (c_messages_dropped c) (c_send_errors c)
        (c_told c ++ [(session, if c_disconnected_normally c then SessionActor.ClientDisconnected
                                else SessionActor.UnexpectClientDisconnected)])
  | None => c
  end.
Definition handle_disconnection (c : ConnectionActor) : ConnectionActor := stop (tell_session c).

Definition handle_network_event (event : NetworkEvent) (c : ConnectionActor) : ConnectionActor :=
  match event with
  | WriteError | ReadError _ | NeClientDisconnected => handle_disconnection c
  end.

(** [stopping] and [stopped]. *)
Definition stopping (c : ConnectionActor) (s : NetworkSender) : ConnectionActor * NetworkSender :=
  let '(c, s) := flush_batch c s in (take_sender c, s).
Definition stopped (c : ConnectionActor) : ConnectionActor := tell_session c.

Abbreviation World := (ConnectionActor * NetworkSender)%type.

Section Write.
Context {B : BytesCrate}.

Definition conversion_display (e : PacketConversionError) : string :=
  match e with
  | UnsupportedPacketForMqtt3 packet => packet +:+ " cannot be encoded as MQTT v3.1.1"
  | InvalidQos qos => "invalid QoS " +:+ pretty qos
  end%string.

(** The packet in the client's version; [random] is for MQTT 3.1.1 packets that lack an identifier. *)
Definition encode_packet (version : ProtocolVersion) (random : Z) (packet : Packet) : outcome ConnectionError bytes :=
  match version with
  | V3_1_1 =>
      m ← map_err (fun e => PacketParseError (conversion_display e)) (try_from random packet);
      match V3Codec.encode m bm_new with
      | (Ok _, b) => Ok (bm_slice b)
      | _ => Panic
      end
  | V5_0 =>
      b ← map_err (fun e => PacketParseError (display e)) (to_bytes (set_protocol_version V5_0 packet));
      Ok (bm_slice b)
  end.

Definition is_publish (packet : Packet) : bool := match packet with PPublish _ => true | _ => false end.

(** The packet as it is put in the buffer, or why it is not. *)
Inductive Prepared := Expired | TooLarge | Encoded (packet : Packet) (data : bytes).

Definition prepare (c : ConnectionActor) (now random : Z) (packet : Packet) : outcome ConnectionError Prepared :=
  let '(deliver, packet) := prepare_packet_for_delivery packet (c_protocol_version c) now in
  if negb deliver then Ok Expired
  else
    encoded_packet ← encode_packet (c_protocol_version c) random packet;
    match c_protocol_version c, lm_maximum_packet_size (c_limits c) with
    | V5_0, Some maximum_packet_size =>
        if maximum_packet_size <? zlen encoded_packet then
          if is_publish packet then Ok TooLarge
          else Err (Mqtt5ProtocolError RcPacketTooLarge
                 ("encoded outbound packet size " +:+ pretty (zlen encoded_packet)
                  +:+ " exceeds client Maximum Packet Size " +:+ pretty maximum_packet_size)%string)
        else Ok (Encoded packet encoded_packet)
    | _, _ => Ok (Encoded packet encoded_packet)
    end.

(** [Handler<ConnectionActorMessage>]; the packet that was put in the buffer is an output. *)
Definition write_packet (now random : Z) (packet : Packet) (c : ConnectionActor) (s : NetworkSender)
    : outcome ConnectionError (option (Packet * bytes)) * ConnectionActor * NetworkSender :=
  if negb (c_network_sender c) then (Err ConnectionClosed, c, s)
  else
    match prepare c now random packet with
    | Ok Expired => (Ok None, c, s)
    | Ok TooLarge => (Ok None, message_dropped c, s)
    | Ok (Encoded packet data) =>
        let c := set_pending (c_encode_buffer c ++ data) (S (c_pending_count c)) c in
        let '(c, s) := if (batch_size <=? c_pending_count c)%nat then flush_batch c s else (c, s) in
        (Ok (Some (packet, data)), c, s)
    | Err e => (Err e, c, s)
    | Panic => (Panic, c, s)
    | OutOfFuel => (OutOfFuel, c, s)
    end.
Definition disconnect (reason : DisconnectReason) (c : ConnectionActor) (s : NetworkSender)
    : ConnectionActor * NetworkSender :=
  let c := match reason with Normal => set_disconnected_normally true c | _ => c end in
  let '(c, s) := flush_batch c s in
  if c_network_sender c then (take_sender c, s) else (stop c, s).

(** ** The connection and its sender *)

(** A message to the actor, the timer of the batch, the end of the connection, the task of the
    sender; [QueueShutdown] is [NetworkSender::shutdown] once the actor let the sender go. *)
Inductive wmove :=
  | Message (now random : Z) (msg : ConnectionActorMessage)
  | BatchTimer
  | Stopping
  | QueueShutdown
  | SenderCommand (w w1 w2 : write)
  | SenderTick (w w1 w2 : write).

Definition wstep (mv : wmove) (wd : World) : World * list (Packet * bytes) :=
  let '(c, s) := wd in
  match mv with
  | Message now random (WritePacketToClient packet) =>
      let '(r, c, s) := write_packet now random packet c s in
      ((c, s), match r with Ok (Some a) => [a] | _ => [] end)
  | Message _ _ (Disconnect reason) => (disconnect reason c s, [])
  | BatchTimer => (flush_batch c s, [])
  | Stopping => (stopping c s, [])
  | QueueShutdown =>
      ((c, if negb (c_network_sender c) && ns_running s && (length (ns_channel s) <? 1000)%nat
           then mkSender (ns_channel s ++ [Shutdown]) (ns_batch s) (ns_msg_count s) true (ns_socket s)
                  (ns_bytes_sent s) (ns_packets_sent s) (ns_failed s)
           else s), [])
  | SenderCommand w w1 w2 =>
      if ns_running s then
        let '(events, s) := on_command w w1 w2 s in ((foldl (fun c e => handle_network_event e c) c events, s), [])
      else (wd, [])
  | SenderTick w w1 w2 =>
      if ns_running s then
        let '(events, s) := on_tick w w1 w2 s in ((foldl (fun c e => handle_network_event e c) c events, s), [])
      else (wd, [])
  end.

(** The packets put in the buffer, in order. *)
Fixpoint wrun (mvs : list wmove) (wd : World) : World * list (Packet * bytes) :=
  match mvs with
  | [] => (wd, [])
  | mv :: mvs =>
      let '(wd, a) := wstep mv wd in
      let '(wd, l) := wrun mvs wd in
      (wd, a ++ l)
  end.
End Write.

(** ** The stream on the socket *)

Definition data_of (l : list (Packet * bytes)) : bytes := concat (map snd l).
#[local] Arguments data_of : simpl never.
#[local] Arguments sends : simpl never.
Lemma data_of_app l1 l2 : data_of (l1 ++ l2) = data_of l1 ++ data_of l2.
Proof. unfold data_of. by rewrite map_app, concat_app. Qed.

(** As long as no write failed, the socket, the sender's batch and every command of the
    channel hold whole packets, in the order of [l]. *)
Definition SenderOk (s : NetworkSender) (l : list (Packet * bytes)) : Prop :=
  ns_failed s = false -> exists seen batch queued,
    ns_socket s = data_of seen /\ ns_batch s = data_of batch /\ sends (ns_channel s) = map data_of queued /\
    seen ++ batch ++ concat queued = l.

(** With the actor's buffer; only batches that the channel refused are missing. *)
Definition Stream (wd : World) (accepted : list (Packet * bytes)) : Prop :=
  let '(c, s) := wd in
  exists l pending,
    SenderOk s l /\ c_encode_buffer c = data_of pending /\ (c_pending_count c = 0%nat -> pending = []) /\
    l ++ pending `sublist_of` accepted /\ (c_send_errors c = 0%nat -> l ++ pending = accepted).

#[local] Arguments Stream : simpl never.

Lemma sends_app l1 l2 : sends (l1 ++ l2) = sends l1 ++ sends l2.
Proof. apply omap_app. Qed.

Lemma sends_send data l : sends (Send data :: l) = data :: sends l.
Proof. done. Qed.
Lemma sends_shutdown l : sends (Shutdown :: l) = sends l.
Proof. done. Qed.

Lemma flush_failed w s : ns_failed s = true -> ns_failed (flush w s).2 = true.
Proof. unfold flush. intros Hf. case_decide; [done|]. by destruct w. Qed.
Lemma cleanup_failed w1 w2 s : ns_failed s = true -> ns_failed (cleanup w1 w2 s) = true.
Proof. intros Hf. unfold cleanup. cbn. apply flush_failed. cbn. by apply flush_failed. Qed.

Lemma flush_ok w s l : SenderOk s l -> SenderOk (flush w s).2 l.
Proof.
  unfold flush. case_decide as Hb; [done|]. destruct w; [|done]. intros Hs Hf.
  destruct (Hs Hf) as (seen & batch & queued & H1 & H2 & H3 & <-).
  exists (seen ++ batch), [], queued. cbn. rewrite H1, H2, data_of_app. split_and!; try done. by rewrite <- app_assoc.
Qed.
Lemma data_of_concat (gs : list (list (Packet * bytes))) : concat (map data_of gs) = data_of (concat gs).
Proof. induction gs as [|g gs IH]; [done|]. cbn. by rewrite IH, data_of_app. Qed.

Lemma cleanup_in_order w1 w2 s l : SenderOk s l -> SenderOk (cleanup w1 w2 s) l.
Proof.
  intros Hs. apply (flush_ok w1) in Hs. unfold cleanup. set (s1 := (flush w1 s).2) in *.
  assert (SenderOk (add_batch (concat (sends (ns_channel s1))) 0 [] s1) l) as H2.
  { intros Hf. destruct (Hs Hf) as (seen & batch & queued & H1 & H2 & H3 & <-).
    exists seen, (batch ++ concat queued), []. cbn. rewrite H1, H2, H3, data_of_app, data_of_concat, app_nil_r. done. }
  apply (flush_ok w2) in H2. exact H2.
Qed.
Lemma flush_result_ok w1 w2 r l : SenderOk r.2 l -> SenderOk (on_flush_result w1 w2 r).2 l.
Proof. unfold on_flush_result. destruct r.1; [done|]. apply cleanup_in_order. Qed.
Lemma command_ok w w1 w2 s l : SenderOk s l -> SenderOk (on_command w w1 w2 s).2 l.
Proof.
  intros Hs. unfold on_command. destruct (ns_channel s) as [|[data|] channel] eqn:Hc; [done| |].
  - assert (SenderOk (add_batch data 1 channel s) l) as H1.
    { intros Hf. destruct (Hs Hf) as (seen & batch & [|g queued] & H1 & H2 & H3 & <-); rewrite Hc in H3; [done|].
      rewrite sends_send in H3. injection H3 as -> H3. exists seen, (batch ++ g), queued. cbn. rewrite H1, H2, H3, data_of_app, <- app_assoc. done. }
    case_match; [|done]. by apply flush_result_ok, flush_ok.
  - apply cleanup_in_order. intros Hf. destruct (Hs Hf) as (seen & batch & queued & H1 & H2 & H3 & <-).
    rewrite Hc, sends_shutdown in H3. exists seen, batch, queued. cbn. by rewrite app_nil_r.
Qed.
Lemma try_send_ok s s' l pending :
  try_send (data_of pending) s = Some s' -> SenderOk s l -> SenderOk s' (l ++ pending).
Proof.
  unfold try_send. case_match; [|done]. intros [= <-] Hs Hf.
  destruct (Hs Hf) as (seen & batch & queued & H1 & H2 & H3 & <-).
  exists seen, batch, (queued ++ [pending]). cbn.
  rewrite sends_app, H3, map_app, concat_app. cbn. rewrite app_nil_r, <- !app_assoc. done.
Qed.

Lemma flush_batch_stream c s acc : Stream (c, s) acc -> Stream (flush_batch c s) acc.
Proof.
  intros (l & pending & Hs & Hb & Hz & Hsub & Heq). unfold flush_batch.
  destruct (c_pending_count c =? 0)%nat; [by exists l, pending|]. destruct (c_network_sender c); [|by exists l, pending].
  rewrite Hb. destruct (try_send (data_of pending) s) as [s'|] eqn:Ht.
  - exists (l ++ pending), []. cbn. rewrite app_nil_r. split_and!; try done. by eapply try_send_ok.
  - exists l, []. cbn. rewrite app_nil_r. split_and!; try done. etrans; [|done]. by apply sublist_inserts_r.
Qed.
Lemma stream_same c c' s acc :
  c_encode_buffer c' = c_encode_buffer c -> c_pending_count c' = c_pending_count c ->
  c_send_errors c' = c_send_errors c -> Stream (c, s) acc -> Stream (c', s) acc.
Proof. intros H1 H2 H3 (l & pending & H). exists l, pending. by rewrite H1, H2, H3. Qed.

Lemma told_same c events :
  let c' := foldl (fun c e => handle_network_event e c) c events in
  c_encode_buffer c' = c_encode_buffer c /\ c_pending_count c' = c_pending_count c /\
  c_send_errors c' = c_send_errors c /\ c_protocol_version c' = c_protocol_version c /\ c_limits c' = c_limits c.
Proof.
  revert c. induction events as [|e events IH]; intros c; [done|]. cbn.
  destruct (IH (handle_network_event e c)) as (-> & -> & -> & -> & ->).
  by destruct e; cbn; unfold tell_session; destruct (c_session c).
Qed.

Section Streams.
Context {B : BytesCrate}.

Lemma wstep_stream mv wd acc : Stream wd acc -> let '(wd', a) := wstep mv wd in Stream wd' (acc ++ a).
Proof.
  destruct wd as [c s]. intros Hs.
  destruct mv as [now random [packet|reason]| | | |w w1 w2|w w1 w2]; cbn [wstep].
  - unfold write_packet. destruct (c_network_sender c) eqn:Hn; cbn [negb]; [|by rewrite app_nil_r].
    destruct (prepare c now random packet) as [[| |p data]| | |]; try (by rewrite app_nil_r).
    assert (Stream (set_pending (c_encode_buffer c ++ data) (S (c_pending_count c)) c, s) (acc ++ [(p, data)])) as H1.
    { destruct Hs as (l & pending & Hs & Hb & Hz & Hsub & Heq). exists l, (pending ++ [(p, data)]). cbn.
      rewrite Hb, data_of_app. split_and!; try done.
      - f_equal. unfold data_of. cbn. by rewrite app_nil_r.
      - rewrite app_assoc. by apply sublist_app.
      - intros He. by rewrite app_assoc, Heq. }
    destruct (batch_size <=? _)%nat; [|done]. apply flush_batch_stream in H1. by destruct (flush_batch _ s).
  - rewrite app_nil_r. unfold disconnect.
    assert (Stream ((match reason with Normal => set_disconnected_normally true c | _ => c end), s) acc) as H1.
    { apply (stream_same c); try done; by destruct reason. }
    apply flush_batch_stream in H1. destruct (flush_batch _ s) as [c1 s1].
    by destruct (c_network_sender c1); apply (stream_same c1).
  - rewrite app_nil_r. by apply flush_batch_stream.
  - rewrite app_nil_r. unfold stopping. apply flush_batch_stream in Hs. destruct (flush_batch c s) as [c1 s1].
    by apply (stream_same c1).
  - rewrite app_nil_r. destruct Hs as (l & pending & Hs & Hrest). exists l, pending. split; [|done].
    case_match; [|done]. intros Hf. destruct (Hs Hf) as (seen & batch & queued & H1 & H2 & H3 & <-).
    exists seen, batch, queued. cbn. by rewrite sends_app, H3, app_nil_r.
  - destruct (ns_running s); [|by rewrite app_nil_r]. destruct (on_command w w1 w2 s) as [events s'] eqn:Hc.
    rewrite app_nil_r. destruct (told_same c events) as (H1 & H2 & H3 & _). apply (stream_same c); try done.
    destruct Hs as (l & pending & Hs & Hrest). exists l, pending. split; [|done].
    change s' with (events, s').2. rewrite <- Hc. by apply command_ok.
  - destruct (ns_running s); [|by rewrite app_nil_r]. destruct (on_tick w w1 w2 s) as [events s'] eqn:Hc.
    rewrite app_nil_r. destruct (told_same c events) as (H1 & H2 & H3 & _). apply (stream_same c); try done.
    destruct Hs as (l & pending & Hs & Hrest). exists l, pending. split; [|done].
    change s' with (events, s').2. rewrite <- Hc. by apply flush_result_ok, flush_ok.
Qed.
Lemma wrun_stream mvs wd acc : Stream wd acc -> let '(wd', a) := wrun mvs wd in Stream wd' (acc ++ a).
Proof.
  revert wd acc. induction mvs as [|mv mvs IH]; intros wd acc Hs; cbn; [by rewrite app_nil_r|].
  pose proof (wstep_stream mv wd acc Hs) as H1. destruct (wstep mv wd) as [wd1 a].
  pose proof (IH wd1 _ H1) as H2. destruct (wrun mvs wd1) as [wd2 l]. by rewrite app_assoc.
Qed.
End Streams.

(** ** What the client reads *)

Definition same_client (c c' : ConnectionActor) : Prop :=
  c_protocol_version c' = c_protocol_version c /\ c_limits c' = c_limits c.
Lemma flush_batch_client c s : same_client c (flush_batch c s).1.
Proof. unfold flush_batch. by repeat case_match. Qed.

(** A packet the client can read, in the version and the size it can read. *)
Definition acceptable (limits : Mqtt5ClientLimits) `{B : BytesCrate} (a : Packet * bytes) : Prop :=
  (exists b, to_bytes (set_protocol_version V5_0 a.1) = Ok b /\ a.2 = bm_slice b) /\
  match lm_maximum_packet_size limits with Some m => zlen a.2 <= m | None => True end.

Definition idle (wd : World) : Prop :=
  c_encode_buffer wd.1 = [] /\ ns_batch wd.2 = [] /\ ns_channel wd.2 = [].

Section Reads.
Context {B : BytesCrate} {BS : BytesCrateSpec B}.

Lemma prepare_acceptable c now random packet p data :
  c_protocol_version c = V5_0 -> prepare c now random packet = Ok (Encoded p data) -> acceptable (c_limits c) (p, data).
Proof.
  intros Hv. unfold prepare, acceptable. rewrite Hv. destruct (prepare_packet_for_delivery packet V5_0 now) as [[] q]; [|done].
  cbn. destruct (to_bytes (set_protocol_version V5_0 q)) as [b| | |] eqn:Hb; try done. cbn.
  destruct (lm_maximum_packet_size (c_limits c)) as [m|].
  - destruct (m <? zlen (bm_slice b)) eqn:Hm; [by destruct (is_publish q)|]. intros [= <- <-]. apply Z.ltb_ge in Hm. eauto.
  - intros [= <- <-]. eauto.
Qed.

Lemma wstep_acceptable mv c s :
  c_protocol_version c = V5_0 ->
  let '(wd, a) := wstep mv (c, s) in same_client c wd.1 /\ Forall (acceptable (c_limits c)) a.
Proof.
  intros Hv. destruct mv as [now random [packet|reason]| | | |w w1 w2|w w1 w2]; cbn [wstep].
  - unfold write_packet. destruct (c_network_sender c); cbn [negb]; [|done].
    destruct (prepare c now random packet) as [[| |p data]| | |] eqn:Hp; try done.
    apply prepare_acceptable in Hp; [|done]. destruct (batch_size <=? _)%nat; [|by split; [|constructor]].
    pose proof (flush_batch_client (set_pending (c_encode_buffer c ++ data) (S (c_pending_count c)) c) s) as H1.
    destruct (flush_batch _ s). by split; [|constructor].
  - split; [|done]. unfold disconnect.
    assert (same_client c (match reason with Normal => set_disconnected_normally true c | _ => c end)) as [H1 H2] by (by destruct reason).
    destruct (flush_batch_client (match reason with Normal => set_disconnected_normally true c | _ => c end) s) as [H3 H4].
    destruct (flush_batch _ s) as [c1 s1]. cbn in *. unfold same_client. destruct (c_network_sender c1); cbn; by rewrite H3, H4.
  - split; [apply flush_batch_client|done].
  - split; [|done]. unfold stopping. pose proof (flush_batch_client c s) as H1. by destruct (flush_batch c s).
  - done.
  - destruct (ns_running s); [|done]. destruct (on_command w w1 w2 s) as [events s']. split; [|done].
    by destruct (told_same c events) as (_ & _ & _ & ? & ?).
  - destruct (ns_running s); [|done]. destruct (on_tick w w1 w2 s) as [events s']. split; [|done].
    by destruct (told_same c events) as (_ & _ & _ & ? & ?).
Qed.
Lemma wrun_acceptable mvs c s :
  c_protocol_version c = V5_0 -> Forall (acceptable (c_limits c)) (wrun mvs (c, s)).2.
Proof.
  revert c s. induction mvs as [|mv mvs IH]; intros c s Hv; [constructor|]. cbn [wrun].
  pose proof (wstep_acceptable mv c s Hv) as H1. destruct (wstep mv (c, s)) as [[c1 s1] a]. destruct H1 as [[H1 H2] Ha].
  specialize (IH c1 s1). destruct (wrun mvs (c1, s1)) as [wd l]. cbn in *. rewrite H2 in IH. apply Forall_app.
  split; [done|]. apply IH. by rewrite H1.
Qed.

Lemma acceptable_bytes limits a :
  wf_packet (set_protocol_version V5_0 a.1) -> acceptable limits a ->
  encodable (set_protocol_version V5_0 a.1) = true /\ a.2 = packet_bytes (set_protocol_version V5_0 a.1).
Proof.
  intros Hwf [(b & Hb & Hd) _]. pose proof (to_bytes_spec _ Hwf) as H1.
  destruct (encodable _); [|destruct H1 as [e He]; congruence]. split; [done|].
  destruct H1 as (b' & Hb' & <-). congruence.
Qed.

Lemma whole_nil l : Forall (fun a : Packet * bytes => a.2 <> []) l -> data_of l = [] -> l = [].
Proof. intros [|a l' Ha _]; [done|]. unfold data_of. cbn. intros [??]%app_eq_nil. done. Qed.
Lemma packet_bytes_nonempty p : packet_bytes p <> [].
Proof. done. Qed.

(** C12: what a client of MQTT 5 reads is what was written to it.  However messages, timers and
    the sender's writes interleave and however the network cuts the stream, as long as no
    write to the socket failed, and where the packets are well formed, readable and within
    the size limit of the client's reader, that reader gets, whole and in order, the packets the connection
    accepted, none larger than the client allows; what has not arrived yet follows in
    order, nothing is left over once the connection is idle, and packets are missing only
    where the channel to the sender was full. *)
Theorem client_reads_written v3 mvs maximum_packet_size receive_maximum (max : Z) wd acc chunks :
  let start := update_mqtt5_client_limits maximum_packet_size receive_maximum
                 (update_protocol_version V5_0 new_connection) in
  let received (a : Packet * bytes) := set_protocol_version V5_0 a.1 in
  wrun mvs (start, new_sender) = (wd, acc) -> ns_failed wd.2 = false ->
  Forall (fun a => wf_packet (received a) /\ readable (received a) = true /\ body_length (received a) <= max) acc ->
  Forall nonempty chunks -> concat chunks = ns_socket wd.2 ->
  exists seen waiting buffer' chunks',
    read_packets v3 (length seen) max V5_0 chunks [] = Some (map (fun a => normalize (received a)) seen, buffer', chunks') /\
    buffer' ++ concat chunks' = [] /\
    seen ++ waiting `sublist_of` acc /\ (c_send_errors wd.1 = 0%nat -> seen ++ waiting = acc) /\
    (idle wd -> waiting = []) /\
    Forall (fun a => match maximum_packet_size with Some m => zlen a.2 <= m | None => True end) seen.
Proof.
  intros start received Hrun Hf Hall Hc Hsock.
  pose proof (wrun_acceptable mvs start new_sender eq_refl) as Hacc. rewrite Hrun in Hacc. cbn in Hacc.
  assert (Stream (start, new_sender) []) as H0.
  { exists [], []. split_and!; try done. intros _. by exists [], [], []. }
  apply (wrun_stream mvs) in H0. rewrite Hrun in H0. destruct wd as [c s].
  destruct H0 as (l & pending & Hs & Hb & _ & Hsub & Heq). destruct (Hs Hf) as (seen & batch & queued & H1 & H2 & H3 & <-).
  cbn in *. rewrite <- app_assoc in Hsub, Heq.
  assert (Forall (fun a => acceptable (c_limits start) a /\ wf_packet (received a) /\ readable (received a) = true /\
            body_length (received a) <= max) (seen ++ (batch ++ concat queued) ++ pending)) as Hk.
  { apply Forall_forall. intros a Ha. apply (elem_of_sublist _ acc) in Ha; [|done]. rewrite !Forall_forall in Hacc, Hall. auto. }
  assert (Forall (fun a : Packet * bytes => a.2 = packet_bytes (received a)) (seen ++ (batch ++ concat queued) ++ pending)) as Hbytes.
  { eapply Forall_impl; [exact Hk|]. intros a (Ha & Hwf & _). by apply (acceptable_bytes _ _ Hwf) in Ha as [_ ->]. }
  apply Forall_app in Hk as [Hseen _]. pose proof Hbytes as Hwait. apply Forall_app in Hbytes as [Hbytes _].
  apply Forall_app in Hwait as [_ Hwait].
  destruct (read_packets_sound v3 max (map received seen) chunks [] []) as (buffer' & chunks' & Hr & He).
  - done.
  - apply Forall_map. eapply Forall_impl; [exact Hseen|]. intros a (Ha & Hwf & Hrd & Hlen).
    apply (acceptable_bytes _ _ Hwf) in Ha as [He _]. done.
  - cbn. rewrite app_nil_r, Hsock, H1. unfold data_of. f_equal. rewrite map_map. apply map_ext_Forall. done.
  - exists seen, ((batch ++ concat queued) ++ pending), buffer', chunks'.
    rewrite length_map, map_map in Hr. split_and!; try done.
    + intros (Hi1 & Hi2 & Hi3). apply whole_nil.
      * eapply Forall_impl; [exact Hwait|]. intros a ->. apply packet_bytes_nonempty.
      * cbn in *. rewrite !data_of_app, <- H2, <- Hb, Hi1, Hi2, <- data_of_concat, <- H3, Hi3. done.
    + eapply Forall_impl; [exact Hseen|]. intros a [[_ Ha] _]. done.
Qed.
End Reads.

Module WriteSample.
Definition message : Packet :=
  PPublish (mkPublish V5_0 "a/b" [104; 105] 1 true false (Some 7) default_properties None).
Lemma message_wf : wf_packet message.
Proof. unfold wf_packet. cbn. unfold is_u16, is_u32, is_u8, is_bytes. split_and!; try done; try lia. all: repeat constructor; unfold is_u8; lia. Defined.

(** A message and a PINGRESP, written with one batch and one write. *)
Definition moves : list wmove :=
  [Message 100 7 (WritePacketToClient message); Message 100 7 (WritePacketToClient PPingresp); BatchTimer;
   SenderCommand Accepts Accepts Accepts; SenderTick Accepts Accepts Accepts].
Definition start : ConnectionActor :=
  update_mqtt5_client_limits (Some 1024) None (update_protocol_version V5_0 new_connection).
Definition final : World * list (Packet * bytes) := Eval vm_compute in wrun (B := list_bytes_crate) moves (start, new_sender).
End WriteSample.

Lemma client_reads_written_witness :
  exists buffer' chunks',
    read_packets no_v3 2 1024 V5_0 [ns_socket WriteSample.final.1.2] []
      = Some ([normalize WriteSample.message; PPingresp], buffer', chunks') /\
    buffer' ++ concat chunks' = [].
Proof.
  destruct (client_reads_written (B := list_bytes_crate) no_v3 WriteSample.moves (Some 1024) None 1024
              WriteSample.final.1 WriteSample.final.2 [ns_socket WriteSample.final.1.2])
    as (seen & waiting & buffer' & chunks' & Hr & He & _ & Hall & Hidle & _).
  - vm_compute. reflexivity.
  - reflexivity.
  - apply Forall_cons. split; [split; [apply WriteSample.message_wf|split; vm_compute; done]|].
    apply Forall_singleton. split_and!; vm_compute; done.
  - repeat constructor; discriminate.
  - reflexivity.
  - rewrite Hidle, app_nil_r in Hall by done. rewrite Hall in Hr by done. by exists buffer', chunks'.
Defined.
