(* ===== verification/ConnectionActor.v ===== *)
(** * Admitting a client ([broker/src/connection.rs])

    The task of a connection that reads from its client: the first packet must be a CONNECT;
    the plugins authenticate the client, the session manager makes or resumes its session,
    the CONNACK is written, and from then on every packet is handed to the session.  The
    task is a program; its calls are messages to the connection's own actor
    ([ConnectionWrite]), to the plugins ([PluginHooks]) and to the session manager
    ([SessionManager]), whose answers are those these components can give. *)

From S2P Require Import Prelude TopicStorage TopicRouting MessageExpiry SessionActor V3Connack V3Codec V3Convert PluginHost PluginHooks SessionManager Program Traces HookManager.
From S2P Require Import MqttProperties Packet ConnFraming ConnectionWrite Buf V5Codec.

#[local] Open Scope Z_scope.
#[local] Open Scope prog_scope.

(** ** Data *)

Record RateLimit := mkRateLimit { messages_rate : Z; messages_burst : Z }.

(** The rate and the burst of the limiter; none when the settings are not positive. *)
Definition build_rate_limiter (r : RateLimit) : option (Z * Z) :=
  if (messages_rate r <=? 0) || (messages_burst r <=? 0) then None
  else Some (messages_rate r, messages_burst r).

Record HandleInitialConnectResult := mkInitial {
  hc_session_recipient : Z;
  hc_session_present : bool;
  hc_assigned_client_identifier : option string;
}.

Record SessionStartOptions := mkOptions {
  so_clean_session : bool;
  so_clean_start : bool;
  so_protocol_version : ProtocolVersion;
  so_session_expiry_interval : option Z;
  so_receive_maximum : Z;
}.

(** ** Packets *)

Definition success_connack_packet (protocol_version : ProtocolVersion) (session_present : bool) (max_message_size : Z)
    (assigned_client_identifier : option string) : Packet :=
  match protocol_version with
  | V3_1_1 =>
      from (M3Connack (connack_build (set_session_present session_present (set_return_code Accept connack_builder_new))))
  | V5_0 =>
      PConnack (mkConnack V5_0 session_present RcSuccess
        (set_maximum_packet_size (Some max_message_size)
         (set_topic_alias_maximum (Some 0)
          (set_subscription_identifier_available (Some false)
           (set_shared_subscription_available (Some true)
            (set_assigned_client_identifier assigned_client_identifier default_properties))))))
  end.

Definition v3_return_code (error : ConnectionError) : ConnackReturnCode :=
  match error with
  | ConnFraming.UnsupportedProtocolVersion _ _ => V3Connack.UnsupportedProtocolVersion
  | Unauthenticate _ => UnAuthorized
  | _ => ServerUnavailable
  end.
Definition v5_reason_code (error : ConnectionError) : ReasonCode :=
  match error with
  | ConnFraming.UnsupportedProtocolVersion _ _ => RcUnsupportedProtocolVersion
  | Unauthenticate _ => RcNotAuthorized
  | ConnFraming.InvalidClientIdentifier _ => RcClientIdentifierNotValid
  | UnsupportedMqtt5Feature feature =>
      if String.eqb feature "enhanced authentication" then RcBadAuthenticationMethod else RcImplementationSpecificError
  | _ => RcServerUnavailable
  end.
Definition error_connack_packet (protocol_version : ProtocolVersion) (error : ConnectionError) : Packet :=
  match protocol_version with
  | V3_1_1 => from (M3Connack (connack_build (set_return_code (v3_return_code error) connack_builder_new)))
  | V5_0 => PConnack (mkConnack V5_0 false (v5_reason_code error) default_properties)
  end.

Definition server_disconnect_packet (reason_code : ReasonCode) : Packet :=
  PDisconnect (Packet.mkDisconnect V5_0 reason_code None default_properties).

Definition will_message_from_connect_will (protocol_version : ProtocolVersion) (will : Will)
    : outcome ConnectionError WillMessage :=
  if bool_decide (protocol_version = V5_0) && (0 <? from_option id 0 (will_delay_interval (w_properties will)))
  then Err (UnsupportedMqtt5Feature "will delay interval")
  else Ok (SessionActor.mkWill (w_topic will) (w_payload will) (w_qos will) (w_retain will) protocol_version
             (set_will_delay_interval None (w_properties will))).

Definition protocol_version_label (protocol_version : ProtocolVersion) : string :=
  match protocol_version with V3_1_1 => "3.1.1" | V5_0 => "5.0" end.

Definition session_options_for_session_manager (packet : Connect) : SessionStartOptions :=
  match cn_protocol_version packet with
  | V3_1_1 => mkOptions (cn_clean_start packet) (cn_clean_start packet) V3_1_1 None u16_max
  | V5_0 =>
      let interval :=
        match cn_session_expiry_interval packet with
        | Some i => i
        | None => from_option id 0 (Packet.session_expiry_interval (cn_properties packet))
        end in
      mkOptions (cn_clean_start packet && (interval =? 0)) (cn_clean_start packet) V5_0 (Some interval)
        (from_option id u16_max (receive_maximum (cn_properties packet)))
  end.

(** ** Calls *)

Inductive kop :=
  | ReadPacket (version : option ProtocolVersion)
  (* messages to the connection's own actor; the answer is whether it took the message *)
  | SelfWrite (p : Packet)
  | SelfUpdateVersion (v : ProtocolVersion)
  | SelfUpdateLimits (maximum_packet_size receive_maximum : option Z)
  | SelfUpdateSession (session : Z)
  | SelfDisconnectedNormally
  | SelfDisconnect (reason : DisconnectReason)
  | SelfEvent (e : NetworkEvent)
  (* the other components *)
  | Authenticate (r : AuthenticateRequest)
  | CreateSession (msg : CreateSessionMessage)
  | Forward (session : Z) (packet : Packet)        (* do_send(InboundPacket) *)
  | RateCheck
  | NewUuid
  | ClientsConnected
  | PacketsReceived.

(** The mailbox of the session manager may be closed, or its answer late. *)
Inductive MailboxError := Closed | MailboxTimeout.

Definition kres (o : kop) : Type :=
  match o with
  | ReadPacket _ => outcome ConnectionError (Packet * ProtocolVersion)
  | SelfWrite _ | SelfUpdateVersion _ | SelfUpdateLimits _ _ | SelfUpdateSession _ | SelfDisconnectedNormally => bool
  | Authenticate _ => outcome string AuthenticateResult
  | CreateSession _ => outcome MailboxError (outcome SessionManagerError CreateSessionMessageResponse)
  | RateCheck => bool
  | NewUuid => string
  | _ => unit
  end.
Abbreviation kprog := (prog kop kres).
Definition tell (o : kop) : kprog (kres o) := invoke o.

(** ** The first packet *)

Definition with_client_id (id : string) (p : Connect) : Connect :=
  mkConnect (cn_protocol_version p) id (cn_username p) (cn_password p) (cn_keep_alive p) (cn_clean_start p)
    (cn_session_expiry_interval p) (cn_will p) (cn_properties p).

Definition prepare_client_identifier (packet : Connect)
    : kprog (outcome ConnectionError (option string * Connect)) :=
  if negb (bool_decide (cn_protocol_version packet = V5_0)) || negb (bool_decide (cn_client_id packet = ""%string))
  then Ret (Ok (None, packet))
  else if negb (cn_clean_start packet)
  then Ret (Err (InvalidClientIdentifier "an empty MQTT 5 client identifier requires Clean Start"))
  else assigned ← tell NewUuid; Ret (Ok (Some assigned, with_client_id assigned packet)).

(** The texts of the errors of the session manager. *)
Definition raft_error_display (e : RaftError) : string :=
  match e with NotLeader => "not leader" | RaftFailed what => what end.
Definition manager_error_display (e : SessionManagerError) : string :=
  match e with
  | TenantNotExisted t => "tenant " +:+ t +:+ " not found"
  | TenantHasExisted t => "tenant " +:+ t +:+ " has existed"
  | SessionNotExisted c => "session " +:+ c +:+ " not found"
  | SessionSuperseded => "session registration was superseded"
  | SessionActorMapError e => "session actor map error " +:+ raft_error_display e
  | SessionStateRaftError e => "session state raft error " +:+ raft_error_display e
  | SendMessageError => "send message error"
  | NodeNotFound node => "node not found " +:+ pretty node
  | NotInitialized dependency => "session manager is not initialized: " +:+ dependency
  | Transport => "transport error"
  end%string.
Definition manager_error (e : SessionManagerError) : ConnectionError :=
  match e with
  | NotInitialized dependency =>
      SessionManagerServiceUnavailable ("session manager not initialized: " +:+ dependency)%string
  | other => SessionManagerServiceUnavailable (manager_error_display other)
  end.

Section Admission.
Context `{Base64}.

Definition authentication_of (packet : Connect) (client_ip : string) (client_certificate : option bytes)
    : AuthenticateRequest :=
  mkAuthenticateRequest (cn_client_id packet) (from_option id ""%string (cn_username packet))
    (from_option id ""%string (cn_password packet)) client_ip (from_option id [] client_certificate)
    (protocol_version_label (cn_protocol_version packet)) (properties_to_struct (cn_properties packet)).

Definition create_session_message (packet : Connect) (tenant : string) (self : Z) (will : option WillMessage)
    (peer_addr : string) : CreateSessionMessage :=
  let options := session_options_for_session_manager packet in
  mkCreate tenant (cn_client_id packet) (so_clean_session options) (so_clean_start options)
    (so_protocol_version options) (so_session_expiry_interval options) (so_receive_maximum options) self
    (cn_keep_alive packet) will (cn_username packet) peer_addr.

Definition connect_will (packet : Connect) : outcome ConnectionError (option WillMessage) :=
  match cn_will packet with
  | Some will =>
      m ← will_message_from_connect_will (cn_protocol_version packet) will;
      Ok (Some m)
  | None => Ok None
  end.

(** [self] is the connection's own address. *)
Definition handle_initial_connect (self : Z) (peer_addr : string) (client_certificate : option bytes) (packet : Connect)
    : kprog (outcome ConnectionError HandleInitialConnectResult) :=
  prepared <-? prepare_client_identifier packet;
  let '(assigned_client_identifier, packet) := prepared in
  will_message <-? Ret (connect_will packet);
  result <-? fails_with PluginError (tell (Authenticate (authentication_of packet peer_addr client_certificate)));
  if authenticated result then
    answer ← tell (CreateSession (create_session_message packet (from_option id "public"%string (tenant_id result))
                                    self will_message peer_addr));
    match answer with
    | Ok recipient =>
        _ ← tell ClientsConnected;
        Ret (match recipient with
             | Ok r => Ok (mkInitial (cr_recipient r) (cr_session_present r) assigned_client_identifier)
             | Err e => Err (manager_error e)
             | Panic => Panic
             | OutOfFuel => OutOfFuel
             end)
    | Err Closed => Ret (Err (SessionManagerServiceUnavailable "Session manager actor mailbox closed"))
    | Err MailboxTimeout => Ret (Err (SessionManagerServiceUnavailable "Session manager actor mailbox timeout"))
    | Panic => Ret Panic
    | OutOfFuel => Ret OutOfFuel
    end
  else Ret (Err (Unauthenticate "authenticate plugin rejected")).

(** ** The task *)

Definition error_message (e : ConnectionError) : string :=
  match e with
  | MaxMessageSizeExceeded m | PacketParseError m | Io m | SessionManagerServiceUnavailable m | Unauthenticate m
  | InvalidClientIdentifier m | UnsupportedMqtt5Feature m | Mqtt5ProtocolError _ m | PluginError m => m
  | ConnFraming.UnsupportedProtocolVersion _ current => current
  | ConnectionClosed => "connection closed"
  end.

(** A message to the actor that must be taken. *)
Definition must (o : kop) (took : kres o -> bool) (next : kprog unit) : kprog unit :=
  a ← tell o;
  if took a then next else tell (SelfDisconnect (InternalError "the actor is likely shutting down")).

(** The loop over the packets of a client whose session is [session]; it ends with the
    connection, [fuel] packets at most are read here. *)
Fixpoint read_loop (fuel : nat) (limited : bool) (version : ProtocolVersion) (session : Z) : kprog unit :=
  match fuel with
  | O => Ret tt
  | S fuel =>
      r ← tell (ReadPacket (Some version));
      match r with
      | Ok (packet, _) =>
          _ ← tell PacketsReceived;
          match packet with
          | PAuth _ =>
              _ ← tell (SelfWrite (server_disconnect_packet RcBadAuthenticationMethod));
              tell (SelfDisconnect (InternalError "MQTT 5 enhanced authentication is not supported"))
          | _ =>
              _ ← match packet with PDisconnect _ => _ ← tell SelfDisconnectedNormally; Ret tt | _ => Ret tt end;
              if is_publish packet && limited then
                ok ← tell RateCheck;
                if (ok : bool)
                then _ ← tell (Forward session packet); read_loop fuel limited version session
                else read_loop fuel limited version session
              else _ ← tell (Forward session packet); read_loop fuel limited version session
          end
      | Err ConnectionClosed => tell (SelfEvent NeClientDisconnected)
      | Err e =>
          _ ← match e with
              | Mqtt5ProtocolError reason_code _ => _ ← tell (SelfWrite (server_disconnect_packet reason_code)); Ret tt
              | _ => Ret tt
              end;
          tell (SelfEvent (ReadError (error_message e)))
      | Panic | OutOfFuel => Ret tt
      end
  end.

Record ConnectionConfig := mkConnectionConfig {
  cc_self : Z;
  cc_peer_addr : string;
  cc_client_certificate : option bytes;
  cc_max_message_size : Z;
  cc_rate_limit : RateLimit;
}.

(** What follows a CONNECT. *)
Definition after_connect (fuel : nat) (cfg : ConnectionConfig) (packet : Connect) (version : ProtocolVersion) : kprog unit :=
  r ← handle_initial_connect (cc_self cfg) (cc_peer_addr cfg) (cc_client_certificate cfg) packet;
  match r with
  | Ok result =>
      must (SelfWrite (success_connack_packet version (hc_session_present result) (cc_max_message_size cfg)
              (hc_assigned_client_identifier result))) id
        (must (SelfUpdateSession (hc_session_recipient result)) id
          (read_loop fuel (bool_decide (is_Some (build_rate_limiter (cc_rate_limit cfg)))) version
             (hc_session_recipient result)))
  | Err e =>
      _ ← tell (SelfWrite (error_connack_packet version e));
      tell (SelfDisconnect (InternalError "handle initial connect error"))
  | Panic | OutOfFuel => Ret tt
  end.

Definition connection_task (fuel : nat) (cfg : ConnectionConfig) : kprog unit :=
  first ← tell (ReadPacket None);
  match first with
  | Ok (PConnect packet, version) =>
      must (SelfUpdateVersion version) id
        (if bool_decide (version = V5_0)
         then must (SelfUpdateLimits (maximum_packet_size (cn_properties packet)) (receive_maximum (cn_properties packet))) id
                (after_connect fuel cfg packet version)
         else after_connect fuel cfg packet version)
  | Ok (_, _) => Ret tt
  | Err (ConnFraming.UnsupportedProtocolVersion supported current as e) =>
      _ ← tell (SelfWrite (error_connack_packet V3_1_1 e));
      tell (SelfDisconnect (InternalError "unsupported protocol version"))
  | Err (UnsupportedMqtt5Feature _ as e) =>
      _ ← tell (SelfUpdateVersion V5_0);
      _ ← tell (SelfWrite (error_connack_packet V5_0 e));
      tell (SelfDisconnect (InternalError "unsupported MQTT 5 feature"))
  | Err e => tell (SelfEvent (ReadError (error_message e)))
  | Panic | OutOfFuel => Ret tt
  end.
End Admission.

(** ** What precedes a packet of a client *)

Definition no_forward (o : kop) : Prop := match o with Forward _ _ => False | _ => True end.

Section Clients.
Context `{Base64} `{Prost AuthorizeRequest, Prost AuthorizeResponse, Prost AuthenticateRequest, Prost AuthenticateResponse}.
(** The plugins and the session manager answer as their programs do. *)
Context (config : PluginHostConfig) (plugins : HookManager) (manager : SessionManagerActor).

#[local] Instance connection_allowed : Allowed kop kres := fun o =>
  match o with
  | Authenticate r => fun x => exists tr a, runs (call_authenticate_hook config r plugins) tr a /\ x = Ok a
  | CreateSession msg => fun x =>
      match x with Ok r => exists tr, runs (create_session manager msg) tr r | Err _ => True | _ => False end
  | ReadPacket _ => fun x => returns x
  | _ => fun _ => True
  end.
Abbreviation kcall := (@mkCall kop kres).

Lemma runs_tell_inv {A} (o : kop) (f : kres o -> kprog A) tr a :
  runs (x ← tell o; f x) tr a -> exists x tr', allowed o x /\ tr = kcall o x :: tr' /\ runs (f x) tr' a.
Proof. apply runs_do_inv. Qed.
Lemma reaches_tell {A} (o : kop) (f : kres o -> kprog A) tr o' :
  reaches (x ← tell o; f x) tr o' ->
  (tr = [] /\ o' = o) \/ exists x tr', allowed o x /\ tr = kcall o x :: tr' /\ reaches (f x) tr' o'.
Proof. exact id. Qed.
Lemma reaches_must (o : kop) took next tr session p :
  no_forward o -> reaches (must o took next) tr (Forward session p) ->
  exists x tr', took x = true /\ tr = kcall o x :: tr' /\ reaches next tr' (Forward session p).
Proof.
  intros Ho [[_ <-]|(x & tr' & _ & -> & Hr)]%reaches_tell; [done|]. destruct (took x) eqn:Hx; [by exists x, tr'|].
  by destruct Hr as [[_ ?]|(? & ? & _ & _ & [])].
Qed.

(** A packet that is handed on was read by the loop. *)
Lemma read_loop_forwards fuel limited version s tr session p :
  reaches (read_loop fuel limited version s) tr (Forward session p) ->
  session = s /\ exists v, kcall (ReadPacket (Some version)) (Ok (p, v)) ∈ tr.
Proof.
  revert tr. induction fuel as [|fuel IH]; intros tr Hr; [done|].
  apply reaches_tell in Hr as [[_ ?]|(x & tr1 & _ & -> & Hr)]; [done|].
  destruct x as [[packet v]|e| |]; [| |done..].
  2: { exfalso. eapply (only_reaches no_forward) in Hr; [done|]. by destruct e. }
  apply reaches_tell in Hr as [[_ ?]|(? & tr2 & _ & -> & Hr)]; [done|].
  assert (forall tr, reaches (_ ← tell (Forward s packet); read_loop fuel limited version s) tr (Forward session p) ->
    session = s /\ (p = packet \/ exists v, kcall (ReadPacket (Some version)) (Ok (p, v)) ∈ tr)) as Hf.
  { intros t [[_ [= -> ->]]|(? & t' & _ & -> & Ht)]%reaches_tell; [by auto|].
    destruct (IH _ Ht) as [? [v' Hv]]. split; [done|]. right. exists v'. by right. }
  assert (session = s /\ (p = packet \/ exists v, kcall (ReadPacket (Some version)) (Ok (p, v)) ∈ tr2)) as [-> Hp].
  { destruct packet; cbn -[tell read_loop] in Hr; try (by apply Hf).
    - destruct limited; [|by apply Hf].
      apply reaches_tell in Hr as [[_ ?]|(ok & t & _ & -> & Hr)]; [done|]. destruct ok.
      + apply Hf in Hr as [? [?|(v' & Hv)]]; [by auto|]. split; [done|]. right. exists v'. by right.
      + destruct (IH _ Hr) as [? [v' Hv]]. split; [done|]. right. exists v'. by right.
    - apply reaches_bind in Hr as [Hr|(t1 & ? & t2 & _ & Hr & ->)].
      + by destruct Hr as [[_ ?]|(? & ? & _ & _ & [])].
      + apply Hf in Hr as [? [?|(v' & Hv)]]; [by auto|]. split; [done|]. right. exists v'. set_solver.
    - exfalso. by eapply (only_reaches no_forward) in Hr. }
  split; [done|]. destruct Hp as [->|(v' & Hv)]; [exists v; by left|]. exists v'. by do 2 right.
Qed.

Lemma initial_connect_no_forward self peer cert packet : only no_forward (handle_initial_connect self peer cert packet).
Proof.
  unfold handle_initial_connect, attempt. apply only_bind.
  - unfold prepare_client_identifier. by repeat case_match.
  - intros [[assigned p]|e| |]; cbn; try done.
    destruct (connect_will p); cbn; try done. split; [done|]. intros [res|e| |]; cbn; try done.
    destruct (authenticated res); cbn; [|done]. split; [done|]. intros [r|[]| |]; try done.
Qed.

(** The packet with the identifier the client goes by. *)
Definition identified (packet packet' : Connect) (assigned : option string) : Prop :=
  match assigned with
  | None => packet' = packet /\ (cn_protocol_version packet = V5_0 -> cn_client_id packet <> ""%string)
  | Some id => packet' = with_client_id id packet /\ cn_client_id packet = ""%string /\ cn_clean_start packet = true
  end.
Lemma prepare_client_identifier_ok packet tr assigned packet' :
  runs (prepare_client_identifier packet) tr (Ok (assigned, packet')) -> identified packet packet' assigned.
Proof.
  unfold prepare_client_identifier.
  destruct (negb (bool_decide (cn_protocol_version packet = V5_0)) || negb (bool_decide (cn_client_id packet = ""%string))) eqn:E.
  - intros [_ [= -> ->]]%runs_ret_inv. split; [done|]. intros Hv Hid. rewrite Hv, Hid in E. done.
  - apply orb_false_iff in E as [_ E%negb_false_iff%bool_decide_eq_true]. destruct (cn_clean_start packet) eqn:Hc.
    + intros (id & tr' & _ & _ & [_ [= -> ->]]%runs_ret_inv)%runs_tell_inv. done.
    + by intros [_ ?]%runs_ret_inv.
Qed.

(** A client is admitted after the plugins accepted it and the manager made its session. *)
Definition admission (self : Z) (peer : string) (cert : option bytes) (packet : Connect)
    (result : HandleInitialConnectResult) (asked : list (Call pop pres)) (accepted : AuthenticateResult)
    (made : list (Call mop mres)) : Prop :=
  exists packet' will r,
    identified packet packet' (hc_assigned_client_identifier result) /\
    runs (call_authenticate_hook config (authentication_of packet' peer cert) plugins) asked accepted /\
    authenticated accepted = true /\ connect_will packet' = Ok will /\
    runs (create_session manager (create_session_message packet' (from_option id "public"%string (tenant_id accepted))
                                    self will peer)) made (Ok r) /\
    hc_session_recipient result = cr_recipient r /\ hc_session_present result = cr_session_present r.

Lemma initial_connect_ok self peer cert packet tr result :
  runs (handle_initial_connect self peer cert packet) tr (Ok result) -> exists asked accepted made,
  admission self peer cert packet result asked accepted made.
Proof.
  unfold handle_initial_connect. intros Hr.
  apply runs_attempt_ok in Hr as (tr1 & [assigned packet'] & tr2 & Hid%prepare_client_identifier_ok & Hr & ->).
  apply runs_attempt_ok in Hr as (tr3 & will & tr4 & [_ Hw]%runs_ret_inv & Hr & ->).
  apply runs_attempt_ok in Hr as (tr5 & accepted & tr6 & Ha & Hr & ->).
  apply runs_fails_ok in Ha as (x & tr7 & (asked & a & Hasked & ->) & _ & [_ [= ->]]%runs_ret_inv).
  destruct (authenticated a) eqn:Hau; [|by apply runs_ret_inv in Hr as [_ ?]].
  apply runs_tell_inv in Hr as (answer & tr8 & Hm & -> & Hr).
  destruct answer as [r|[]| |]; try (by apply runs_ret_inv in Hr as [_ ?]).
  apply runs_tell_inv in Hr as (? & tr9 & _ & -> & [-> Hr]%runs_ret_inv). destruct r as [r| | |]; try done.
  injection Hr as ->. destruct Hm as [made Hmade]. exists asked, a, made, packet', will, r. split_and!; done.
Qed.

(** C4: nothing a client sends reaches a session before the client is admitted.  When a packet
    is handed to a session, the connection first read a CONNECT; the plugins registered for
    authentication were asked with that packet's identifier and credentials and accepted it
    unanimously - or none is registered and the configuration admits clients by default -;
    the session manager made the session for the tenant they named and for
    that identifier, with the options of the CONNECT; the CONNACK of success was taken by
    the connection; and the packet is one that was read after that. *)
Theorem admitted_before_forwarded fuel cfg tr session p :
  reaches (connection_task fuel cfg) tr (Forward session p) ->
  exists packet version handshake result asked accepted made loop v,
    tr = kcall (ReadPacket None) (Ok (PConnect packet, version)) :: handshake ++
         [kcall (SelfWrite (success_connack_packet version (hc_session_present result) (cc_max_message_size cfg)
                              (hc_assigned_client_identifier result))) true;
          kcall (SelfUpdateSession session) true] ++ loop /\
    admission (cc_self cfg) (cc_peer_addr cfg) (cc_client_certificate cfg) packet result asked accepted made /\
    match get_hooks plugins HookAuthenticate with
    | Some _ => unanimous (authenticate_verdict <$> answers asked) (tenant_id accepted)
    | None => default_authenticate_result config = true
    end /\
    hc_session_recipient result = session /\ Forall (fun c => no_forward (c_op c)) handshake /\
    kcall (ReadPacket (Some version)) (Ok (p, v)) ∈ loop.
Proof.
  intros Hr. apply reaches_tell in Hr as [[_ ?]|(first & tr1 & _ & -> & Hr)]; [done|].
  destruct first as [[first version]|e| |]; [|exfalso; eapply (only_reaches no_forward) in Hr; [done|by destruct e]|done..].
  destruct first as [packet| | | | | | | | | | | | | |]; try done.
  assert (exists ups tr2, tr1 = ups ++ tr2 /\ Forall (fun c : Call kop kres => no_forward (c_op c)) ups /\
            reaches (after_connect fuel cfg packet version) tr2 (Forward session p)) as (ups & tr2 & -> & Hups & Ha).
  { apply reaches_must in Hr as (x & t1 & _ & -> & Hr); [|done]. case_bool_decide.
    - apply reaches_must in Hr as (y & t2 & _ & -> & Hr); [|done].
      exists [kcall (SelfUpdateVersion version) x; kcall (SelfUpdateLimits _ _) y], t2. split_and!; [done|by repeat constructor|done].
    - exists [kcall (SelfUpdateVersion version) x], t1. split_and!; [done|by repeat constructor|done]. }
  unfold after_connect in Ha. apply reaches_bind in Ha as [Ha|(hs & r & tr3 & Hhs & Ha & ->)].
  { exfalso. eapply (only_reaches no_forward) in Ha; [done|]. apply initial_connect_no_forward. }
  destruct r as [result|e| |]; [|exfalso; eapply (only_reaches no_forward) in Ha; [done|done]|done..].
  apply reaches_must in Ha as (x & t1 & Hx & -> & Ha); [|done].
  apply reaches_must in Ha as (y & t2 & Hy & -> & Ha); [|done]. cbn in Hx, Hy. subst x y.
  apply read_loop_forwards in Ha as [-> [v Hv]].
  pose proof (only_runs no_forward _ _ _ (initial_connect_no_forward _ _ _ _) Hhs) as Hq.
  destruct (initial_connect_ok _ _ _ _ _ _ Hhs) as (asked & accepted & made & Hadm). pose proof Hadm as Hun.
  destruct Hun as (packet' & will & r & _ & Hask & Hau & _).
  assert (match get_hooks plugins HookAuthenticate with
    | Some _ => unanimous (authenticate_verdict <$> answers asked) (tenant_id accepted)
    | None => default_authenticate_result config = true
    end) as Hun.
  { unfold call_authenticate_hook in Hask. destruct (get_hooks plugins HookAuthenticate) as [hooks|].
    - destruct (authenticate_chain_verdicts _ hooks _ _ _ [] asked accepted chain_state_start Hask) as [Hu _]. by apply Hu.
    - by apply runs_ret_inv in Hask as [_ ->]. }
  exists packet, version, (ups ++ hs), result, asked, accepted, made, t2, v.
  split_and!; try done; [by rewrite <- !app_assoc|]. by apply Forall_app.
Qed.
End Clients.

(** A CONNACK that is larger than the client takes is not written, and the connection is told
    so in an answer that its task does not look at. *)
Lemma connack_withheld {B : BytesCrate} c s now random p b limit :
  c_network_sender c = true -> c_protocol_version c = V5_0 -> lm_maximum_packet_size (c_limits c) = Some limit ->
  to_bytes (set_protocol_version V5_0 (PConnack p)) = Ok b -> limit < zlen (bm_slice b) ->
  exists message, write_packet now random (PConnack p) c s = (Err (Mqtt5ProtocolError RcPacketTooLarge message), c, s).
Proof.
  intros Hs Hv Hl Hb Hlt. unfold write_packet, prepare, encode_packet. rewrite Hs, Hv, Hl. cbn [negb prepare_packet_for_delivery].
  rewrite Hb. cbn. rewrite (proj2 (Z.ltb_lt _ _) Hlt). eauto.
Qed.

Module AdmissionSample.
Import HostSample HookSample.

Definition connect : Connect := mkConnect V5_0 "c" (Some "u"%string) (Some "p"%string) 60 true None None default_properties.
Definition cfg : ConnectionConfig := mkConnectionConfig 7 "127.0.0.1" None 1048576 (mkRateLimit 1000 100).
Definition request : CreateSessionMessage := create_session_message connect "t" 7 None "127.0.0.1".
Definition connack : Packet := success_connack_packet V5_0 false 1048576 None.
Definition instance : SessionMap.SessionInstanceId := SessionMap.mkInstance 9.
Definition entry : SessionMap.SessionActorMapEntry := SessionMap.mkMapEntry 1 instance 200.
End AdmissionSample.
Import HostSample HookSample.

Lemma session_made : exists tr,
  runs (create_session ManagerSample.manager AdmissionSample.request) tr (Ok (mkCreated 5 false)).
Proof.
  eexists. eapply (runs_next (TenantEntry "t") _ tt); [done|].
  eapply (runs_next (Register "t" "c" 1) _ (Ok AdmissionSample.instance)); [done|].
  eapply (runs_next (DeleteState "t" "c" None) _ (Ok tt)); [done|].
  eapply (runs_next (GetEntryLinearizable "t" "c") _ (Ok (Some AdmissionSample.entry))); [done|].
  eapply (runs_next Now _ (Some 100)); [done|].
  eapply (runs_next (StartActor _ _) _ 5); [done|].
  eapply (runs_next (SessionInsert "t" "c" _) _ None); [done|].
  eapply (runs_next (GetEntryLinearizable "t" "c") _ (Ok (Some AdmissionSample.entry))); [done|].
  apply runs_end.
Qed.
Lemma plugins_accept : exists tr,
  runs (call_authenticate_hook deny_all (authentication_of AdmissionSample.connect "127.0.0.1" None) hooks) tr
    (mkAuthenticateResult true None (Some "t"%string)).
Proof.
  eexists. eapply (runs_next (R := pres) (CurrentPlugin "p") _ (Some (plugin "p" "code"))); [exact I|].
  eapply (runs_next (R := pres) FreshMessage _ ("1"%string, (0, 0))); [exact I|].
  eapply (runs_next (R := pres) (SendAndWait _ _) _ (Ok (answer AUTHENTICATE_RESPONSE_TYPE_URL 1))); [exact I|].
  eapply (runs_next (R := pres) (CurrentPlugin "q") _ (Some (plugin "q" "new"))); [exact I|].
  eapply runs_end.
Qed.

Lemma admitted_before_forwarded_witness :
  let reaching := @reaches kop kres (connection_allowed deny_all hooks ManagerSample.manager) unit in
  exists tr packet version result asked accepted made,
    reaching (connection_task 1 AdmissionSample.cfg) tr (Forward 5 PPingreq) /\
    admission deny_all hooks ManagerSample.manager 7 "127.0.0.1" None packet result asked accepted made /\
    mkCall (ReadPacket None) (Ok (PConnect packet, version)) ∈ tr.
Proof.
  intros reaching. destruct session_made as [made Hmade]. destruct plugins_accept as [asked Hasked].
  assert (exists tr, reaching (connection_task 1 AdmissionSample.cfg) tr (Forward 5 PPingreq)) as [tr Htr].
  { eexists. eapply (reaches_next (ReadPacket None) _ _ (Ok (PConnect AdmissionSample.connect, V5_0))); [exact I|].
    eapply (reaches_next (SelfUpdateVersion V5_0) _ _ true); [exact I|].
    eapply (reaches_next (SelfUpdateLimits None None) _ _ true); [exact I|].
    eapply (reaches_next (Authenticate _) _ _ (Ok (mkAuthenticateResult true None (Some "t"%string)))); [by exists asked; eexists|].
    eapply (reaches_next (CreateSession AdmissionSample.request) _ _ (Ok (Ok (mkCreated 5 false)))); [by exists made|].
    eapply (reaches_next ClientsConnected _ _ tt); [exact I|].
    eapply (reaches_next (SelfWrite AdmissionSample.connack) _ _ true); [exact I|].
    eapply (reaches_next (SelfUpdateSession 5) _ _ true); [exact I|].
    eapply (reaches_next (ReadPacket (Some V5_0)) _ _ (Ok (PPingreq, V5_0))); [exact I|].
    eapply (reaches_next PacketsReceived _ _ tt); [exact I|].
    apply reaches_here. }
  destruct (admitted_before_forwarded deny_all hooks ManagerSample.manager 1 AdmissionSample.cfg tr 5 PPingreq Htr)
    as (packet & version & handshake & result & asked' & accepted & made' & loop & v & -> & Hadm & _).
  eexists _, packet, version, result, asked', accepted, made'. split; [exact Htr|]. split; [exact Hadm|]. by left.
Defined.
